(* ===== verification/_CoqProject ===== *)
-Q . S2P
Prelude.v
JsString.v
JsNumber.v
JsValue.v
JsUri.v
JsError.v
JsDivision.v
JsSort.v
JsMap.v
PageMonad.v
LocalLimitOrders.v
LimitOrders.v
Amounts.v
OrdersApi.v
Subgraph.v
FrontendConfig.v
Pools.v
IndexerPools.v
Errors.v
TreasuryContract.v
TreasuryAbi.v
TreasuryForms.v
AdminPage.v
AdminApi.v
TreasuryData.v
TreasuryActions.v
PostDeploy.v
RouterContract.v
RouterLiquidity.v
RouterShares.v
RouterDeposits.v
StakingContract.v
SettlementContract.v
SwapQuotes.v
SwapWidget.v
SwapActions.v
OrderPage.v
OrderView.v
OrderCancel.v
WalletPage.v
LiquidityPage.v
LiquidityDeposit.v
Farms.v
FarmPage.v
FarmRewards.v
Positions.v
PositionActions.v
ManagerContract.v
ManagerRewards.v
AdminConfig.v
FarmAdmin.v
FarmAdminActions.v
FarmDistribution.v
PoolAnalytics.v
PoolCharts.v
PoolPrices.v
PoolReplay.v
PoolPage.v
TokenAdmin.v
TreasuryPage.v
TreasuryLink.v
Overview.v
OverviewChain.v
OperationLog.v
