(* ===== verification/Prelude.v ===== *)
(** * FluxSwap: a verification of the TypeScript clients

    FluxSwap is a decentralised exchange: contracts (contracts/), an indexer
    (subgraph/), a trading client (frontend/), an administration client
    (admin-frontend/) and Go services behind them (backend/, admin-backend/).  This
    development models the TypeScript code that carries the exchange's own logic and
    proves it, where it talks to a contract, against a model of that contract.

    ** Parts, and how they interact

    - The trading client signs limit orders (LimitOrders.v), keeps its own copy of them
      in the browser (LocalLimitOrders.v) and sends them through its API routes to the
      executor service (OrdersApi.v).  The orders a route lists are what the browser's
      store accepts.
    - The swap widget (SwapWidget.v) asks the best-route service for quotes (SwapQuotes.v),
      and on a click (SwapActions.v) wraps, approves, sends a call of the router
      (RouterContract.v) or signs and stores a limit order with the parts above, at the
      addresses of the configuration (FrontendConfig.v).
    - The liquidity page (LiquidityPage.v, on the pages of WalletPage.v) approves tokens and
      adds liquidity at the router (RouterLiquidity.v); LiquidityDeposit.v joins the two.
    - The earn page (Farms.v, FarmPage.v) reads the farms from their staking pools
      (StakingContract.v), stakes, unstakes and claims there; FarmRewards.v joins the two.
    - The portfolio page shows the wallet's positions, stakes, tokens and activity
      (Positions.v, with the farms of Farms.v and the pools of Pools.v) and removes liquidity
      at the router (PositionActions.v).
    - Orders are executed and cancelled at the settlement contract (SettlementContract.v).
      The same page lists them from the browser's store and the backend (OrderPage.v),
      shows them (OrderView.v) and cancels them, one or a batch (OrderCancel.v).
    - The indexer turns a pair's event logs into entities (Subgraph.v); the pool pages
      read the entities back (Pools.v); IndexerPools.v joins the two.
    - The page of one pool (PoolPage.v) charts its reserves, its trades and its depth
      (PoolAnalytics.v) from those entities.
    - The administration client drafts operations of the treasury, has the multisig
      schedule them, shows what is pending and executes it (TreasuryForms.v,
      TreasuryData.v, TreasuryActions.v) through the contract's ABI (TreasuryAbi.v), and
      keeps a record of them with its backend (AdminApi.v).  The contract is
      TreasuryContract.v.  The page around them is TreasuryPage.v; the token page
      (TokenAdmin.v), which lists the configured tokens, links to it to have a token
      whitelisted (TreasuryLink.v).
    - Its farm page (FarmAdmin.v, FarmAdminActions.v, configured by AdminConfig.v) reads the
      manager of the farms' rewards (ManagerContract.v, ManagerRewards.v), creates and changes
      pools and distributes rewards from the treasury; FarmDistribution.v joins the three.
    - Its overview (Overview.v) sums up the manager, the treasury and their recent events
      (OverviewChain.v joins it and the manager); its log (OperationLog.v) lists those events
      with what the backend recorded.
    - A script configures a deployed treasury through its timelock (PostDeploy.v).
    - Both clients parse and show amounts (Amounts.v) and explain errors (Errors.v).

    ** Files

    - Prelude.v: results that may throw ([res], with [let*] and [guard*]), the array
      operations of the sources on lists, the tactics and hints the files share.
    - JsString.v, JsNumber.v, JsValue.v, JsError.v, JsSort.v: the part of JavaScript the
      sources use: strings as UTF-8 bytes, binary64 numbers, dynamic values and JSON
      (the class [JsonCodec] with its instance [free_codec]), exceptions and [BigInt],
      stable sorting.
    - JsUri.v: [encodeURIComponent], the encoding of forms and [URLSearchParams].  JsDivision.v: divisions and
      products of binary64 numbers, rounding included.
    - JsMap.v: [Map] and [Set] in insertion order.  PageMonad.v: the monad in which the
      handlers of a page run, exceptions and [finally] included, and the transactions they
      send.
    - LocalLimitOrders.v: frontend/src/lib/localLimitOrders.ts.  State: local storage,
      two JSON texts; one definition per function, under its name.
    - LimitOrders.v: frontend/src/lib/limitOrders.ts, and the price functions of
      FluxSignedOrderSettlement.sol ([quotePriceX18], [meetsTrigger]).
    - Amounts.v: frontend/src/lib/amounts.ts and admin-frontend/src/lib/amounts.ts (the
      latter's functions with the prefix [admin_]).
    - OrdersApi.v: frontend/src/app/api/orders/route.ts ([GET], [POST], [DELETE]) and
      api/routes/best/route.ts (Module [BestRoute]).
    - SettlementContract.v: contracts/contracts/FluxSignedOrderSettlement.sol, on the router
      of RouterContract.v.  [exec_settlement] is a call, [settlement_run] a history.
    - OrderPage.v, OrderView.v, OrderCancel.v: the limit orders of
      frontend/src/app/portfolio/page.tsx.  The first holds keys, merging, the requests and the
      two effects, on the state [page] and the world [order_world] that answers as a function
      of the trace; the second labels, rows and selection; the third the two handlers that
      cancel, each on the render it closed over.
    - Subgraph.v: subgraph/src, one definition per handler over the store of
      schema.graphql; Module [PairContract]: the state and the logs of FluxSwapPair.sol.
    - Pools.v: frontend/src/lib/subgraph/client.ts, pools.ts, trades.ts (Module
      [Trades]), poolMetrics.ts (Module [PoolMetrics]), poolOrder.ts.
    - IndexerPools.v: no code of its own; the entity as the reply the pool page reads.
    - PoolAnalytics.v, PoolPage.v: frontend/src/app/pool/[[pairAddress]]/page.tsx.  The first
      holds its functions of a pool and its activities; the second the state [pool_page], what a
      render derives from it, the handlers and the effects ([page_step], over any history).
      PoolCharts.v, PoolPrices.v and PoolReplay.v: no code of their own; what the series, the
      prices and the reserves walked back are.
    - Errors.v: frontend/src/lib/errors.ts, admin-frontend/src/lib/errors.ts.
    - TreasuryContract.v: contracts/contracts/FluxSwapTreasury.sol.  [exec] is a call,
      [reach] the states and histories of a deployed treasury.
    - TreasuryAbi.v: the function names and arguments the client writes, as calls.
    - TreasuryForms.v: TreasuryTypes.ts, TreasuryUtils.ts, TreasuryOperationDraft.ts,
      TreasuryOperationExecution.ts, TreasuryAllocationSubmit.ts (all of
      admin-frontend/src/components/treasury, like the next ones).
    - AdminPage.v: the page as a state (storage, metadata, trace of effects) and the
      monad its functions live in; the outside world answers as a function of the trace.
    - AdminApi.v: admin-frontend/src/lib/admin-api.ts.
    - TreasuryData.v: useTreasuryData.ts.
    - TreasuryActions.v: useTreasuryMetadataStore.ts, useTreasuryTransactionRunner.ts,
      useTreasuryActions.ts.
    - TreasuryPage.v: useTreasuryPageController.tsx with the state, the environment, the forms
      and the tables of the page, and app/treasury/page.tsx.  [prefill_effect] applies a link.
      TreasuryLink.v: no code of its own; a link and the page's permissions at the contract.
    - TokenAdmin.v: admin-frontend/src/components/tokens.  [loadTokens] is a load,
      [filteredRows] the rows shown.
    - Overview.v: admin-frontend/src/components/overview and app/page.tsx.  [readOverview] is the
      snapshot, [buildOperationBuckets] the event map, [auto_effect] when the page loads by
      itself.  OverviewChain.v: no code of its own; the snapshot of a manager.
    - OperationLog.v: admin-frontend/src/components/logs.  [read_rows] are the rows read,
      [kept_rows] the rows shown, [loadLogs] a load.
    - PostDeploy.v: contracts/ignition/post-deploy-init.ts, with the executor policy of
      FluxSignedOrderSettlement.sol; a [script] changes the chain and returns or throws.
    - RouterContract.v: contracts/contracts/FluxSwapRouter.sol, quotes and the six swaps,
      on the pairs of Subgraph.v; [exec_router] is a call.  RouterLiquidity.v: adding and
      removing liquidity there, and [createPair] of FluxSwapFactory.sol.  RouterShares.v: what
      a share is worth over histories of calls; RouterDeposits.v: the deposits and
      withdrawals that succeed, and what they move.
    - FrontendConfig.v: chain.ts, contracts.ts and tokens.ts of frontend/src/config.
    - SwapQuotes.v, SwapWidget.v, SwapActions.v: frontend/src/components/SwapWidget.tsx.
      The first holds the helpers, the requests for routes and their two effects over time
      ([route_step]: renders and replies in any order); the second the state [widget], what
      the hooks read ([hooks]), what a render derives from both, the button's action and the
      handlers ([handle_event]); the third [handleAction], in a monad over the order store
      and the trace of what it asked the wallet, the node and the routes.

    - WalletPage.v: pages that read balances and send transactions through a wallet: events,
      the world that answers, what a press sent.  LiquidityPage.v:
      frontend/src/app/portfolio/liquidity/page.tsx, one definition per callback, effect and
      derived value.  LiquidityDeposit.v: its button, against the router.

    - StakingContract.v: contracts/contracts/FluxSwapStakingRewards.sol; [exec_staking] is a
      call, [staking_run] the states and histories of a deployed pool.
    - Farms.v, FarmPage.v: frontend/src/components/earn.  The first holds the reads of a load
      ([node] answers them), the order of the list and what is derived from it; the second the
      state [earn_page], the panel with its buttons, and the handlers.  FarmRewards.v: no code
      of its own; the page on the pools.
    - Positions.v, PositionActions.v: frontend/src/app/portfolio/page.tsx without its limit
      orders.  The first holds the rows, their orders and totals, and the percentage and the
      minima of a removal; the second the state [portfolio_page], what the effects do when
      they start and settle ([portfolio_step]), the dialog and its handler, and the router on
      what it sends.
    - ManagerContract.v: contracts/contracts/FluxMultiPoolManager.sol; [exec_manager] is a call.
      ManagerRewards.v: its histories ([manager_run]) and what the pools are owed.
    - AdminConfig.v: contracts.ts and tokens.ts of admin-frontend/src/config.
    - FarmAdmin.v, FarmAdminActions.v: admin-frontend/src/components/farm and app/farm/page.tsx.
      The first holds texts and weights, the readers ([admin_node] answers them), what a load
      changes and what is derived; the second the state [farm_page], the inputs, cards and rows,
      the runner of transactions, the handlers and the buttons ([press]).  FarmDistribution.v: no
      code of its own; the page on the manager and the treasury.

    ** What the theorems show

    - The browser's order store (C1): what an upsert does to every order; LocalLimitOrders.v
      also has the effect of a sync with the chain and the uniqueness of keys.
    - Signed orders (C15): the trigger price agrees with the contract's check,
      where that does not overflow, which is pinned; LimitOrders.v also has
      that hashes bind every field.
    - The settlement contract (C11, C13, C25): no nonce is used twice in any history, the
      readiness check is right in both directions, and an executed order was signed and
      pays what its maker signed.
    - The portfolio's limit orders (C28, C32, C35): a click to cancel has one of
      the outcomes listed, a cancelled order is never executed afterwards, whatever happens
      at the contract, and all pages are collected within ten requests; OrderPage.v also has
      that merging keeps one order per key with its latest values and that the route reads
      the page's query.
    - The swap widget: the router's quotes are inverse to each other (C9); the tolerance is bounded (C33); a swap is a router call that keeps
      the limits shown wherever it executes (C34) and succeeds at the quote if the pool is
      unchanged (C10); a limit order that fails leaves nothing behind (C20).  SwapQuotes.v
      also has that quotes are never stale, SwapActions.v that a limit order is one order in
      the signature, the request and the store,
      that a click sends at most the transaction it stands for, and that deadline and
      expiry are bounded whatever is typed.
    - Liquidity: over any history of the router's calls the product of a pool's reserves
      per share squared never falls (C8).  On the page that adds liquidity a deposit that executes stays between the
      amounts entered and the minima (C16), linked amounts are deposited in full on an
      unchanged pool (C2), and the page's invariant holds after any history of events (C21).
    - Positions: the rows are the pools the wallet holds or has staked shares of (C24); what
      a press of the removal dialog sends pays at least the minima wherever it executes and
      the estimates on an unchanged pool (C4).  PositionActions.v also has that it is
      the one transaction the press stands for.
    - Farms: after any history of calls a staking pool's tokens cover what it owes, but for
      two base units of rewards per call (C7); such a unit can lock a stake: every call of
      its owner panics until a reward is sent (C14); a load shows the contracts (C17), and on the pool shown a
      press is accepted and does what the panel says (C3).  StakingContract.v also has that a
      claim pays what was shown, FarmPage.v that a press sends the one transaction it stands
      for.
    - Rewards: after any history the manager's tokens cover what its pools are shown, but for
      a base unit per call, and a pool's claim is paid (C6); a distribution is shared by
      weight (C19).  A press in the farm administration sends the one transaction it stands
      for (C29), and an enabled distribution is accepted by the manager and the treasury
      (C5).
    - Amounts.v: what is shown for a balance can be typed back and spent.
    - API routes (C30): listed orders are well-formed records; OrdersApi.v also has that
      clients are closed on every path, the round trip of the create route's body and the
      response of each case.
    - Indexer and pool pages (C31): the indexer is a refinement of the pair contract
      for every sequence of calls; IndexerPools.v also has that the page shows the contract's
      numbers, Subgraph.v that the contract's square root is correct and
      that entities are never overwritten,
      Pools.v the order of the activities.
    - The page of a pool: its series has a point for every bucket of the window, with price
      and liquidity after the last event of the window before the bucket's end (C12); the
      reserves walked back through the events are those the contract had, less the protocol
      fees of the swaps that followed (C18); a price of a thousand or more never reaches
      the chart (C23); and the page's invariant holds after any history of events (C22).
    - Errors.v: a rejection is found anywhere in the chain of causes; on a cyclic
      chain the collector hangs ([Errors.cyclic_cause_hangs]).
    - Treasury (C26, C36, C37, C38, C39, C40): the table of operations is the contract's;
      the timelock is safe for every history; a drafted operation is the one the form
      describes, through storage and backend alike, and lives at the contract as the form
      promises; an allocation meets no revert the form could have excluded, but for two; what was scheduled can be executed from the
      browser's storage even if the backend fails.  AdminApi.v and TreasuryActions.v also
      have that a session authorises its wallet's requests, that its token goes only where it should and that a handler sends only
      what its guards allow.
    - The treasury's page: a whitelisting link of the token page fills in the form so that its
      draft is the operation meant, and what the page disables is what the contract refuses
      (TreasuryLink.v).  TokenAdmin.v has what the token table shows and in which order.
    - The overview: every event is counted in one cell, the one with its block (Overview.v),
      and over any history of the manager the counts and weights shown are the manager's
      (OverviewChain.v).  OperationLog.v has the order of the log and the rows it keeps.
    - Deployment (C27): a configuration without contradictory entries is applied in full
      when the script ends.

    ** Assumptions

    Code outside the repository is a parameter with its documented behaviour as
    hypotheses: viem ([keccak256] without collisions on the texts hashed, argument
    encoding in [AbiEncoder], [parseUnits]), the GraphQL endpoint, the gRPC services, the
    backend, the wallet, the chain node, the clock and locale-dependent formats.  The
    treasury's operation hashes are a function without collisions ([OperationHash]).
    Every hypothesis is met by a concrete instance in a witness.

    ** Bounds and fuel

    Loops of the sources without a structural measure have fuel: the error collector
    (enough is two more than the length of the chain of causes, [collect_fuel]), the
    contract's square root ([Subgraph.contract_sqrt_correct], enough for every uint256), the
    buckets of a chart ([bucket_fuel], 64 where 54 are needed) and the
    digits of numbers in JsString.v and JsNumber.v (bounded by the number of bits).
    Contract arithmetic is checked at 256 bits where the source's is; JavaScript numbers
    are binary64, bigints are unbounded.

    ** Not modelled

    Rendering and React's scheduling (a handler runs on the state it closed over); the
    Go services; the contracts other than the treasury, the pair, the router (without its
    variants with permits), the settlement, the staking pools and the manager of their
    rewards; generated bindings; the configuration of libraries.  Of the treasury's events only those of the timelock and
    the outgoing transfers are kept; a router call moves tokens exactly or fails, and
    addresses that reenter are left out.  The lists of pools and of transactions of
    the trading client are left out: they filter and label data modelled here. *)

From stdpp Require Export base list strings gmap fin_maps.
From Stdlib Require Export ZArith Lia.

(** ** Results of computations that may throw *)

(** [res E A] is the outcome of a TypeScript computation that either returns a
    value or throws a value of type [E]. *)
Inductive res (E A : Type) : Type :=
| Ok (a : A)
| Throw (e : E).
Arguments Ok {E A} a.
Arguments Throw {E A} e.

Definition res_bind {E A B : Type} (m : res E A) (k : A -> res E B) : res E B :=
  match m with Ok a => k a | Throw e => Throw e end.

Definition res_map {E A B : Type} (f : A -> B) (m : res E A) : res E B :=
  res_bind m (fun a => Ok (f a)).

(** The value of [try { m } catch (e) { h(e) }]. *)
Definition res_catch {E F A : Type} (m : res E A) (h : E -> res F A) : res F A :=
  match m with Ok a => Ok a | Throw e => h e end.

Definition is_ok {E A : Type} (m : res E A) : bool :=
  match m with Ok _ => true | Throw _ => false end.

Declare Scope flux_scope.
Delimit Scope flux_scope with flux.
Notation "'let*' x ':=' m 'in' k" := (res_bind m (fun x => k))
  (at level 10, x name, m at level 100, k at level 200) : flux_scope.
Notation "'guard*' b 'or' e 'in' k" :=
  (if b then k else Throw e)
  (at level 10, b at level 100, e at level 100, k at level 200) : flux_scope.

(** [xs.map(f)] where [f] may throw: the first exception, left to right, wins. *)
Fixpoint res_mapi {E A B : Type} (f : nat -> A -> res E B) (i : nat) (l : list A)
  : res E (list B) :=
  match l with
  | [] => Ok []
  | a :: l' => res_bind (f i a) (fun b =>
               res_bind (res_mapi f (S i) l') (fun bs => Ok (b :: bs)))
  end.

Lemma res_bind_Ok {E A B : Type} (m : res E A) (k : A -> res E B) b :
  res_bind m k = Ok b <-> exists a, m = Ok a /\ k a = Ok b.
Proof. destruct m; simpl; naive_solver. Qed.

Lemma res_mapi_length {E A B} (f : nat -> A -> res E B) i l bs :
  res_mapi f i l = Ok bs -> length bs = length l.
Proof.
  revert i bs; induction l as [|a l IH]; simpl; intros i bs H; [naive_solver|].
  apply res_bind_Ok in H as (b & _ & H). apply res_bind_Ok in H as (bs' & Hb & H).
  simplify_eq/=. f_equal. eauto.
Qed.

Lemma res_mapi_lookup {E A B} (f : nat -> A -> res E B) i l bs n b :
  res_mapi f i l = Ok bs -> bs !! n = Some b ->
  exists a, l !! n = Some a /\ f (i + n)%nat a = Ok b.
Proof.
  revert i bs n; induction l as [|a l IH]; simpl; intros i bs n H Hn.
  { by simplify_eq. }
  apply res_bind_Ok in H as (b' & Hf & H). apply res_bind_Ok in H as (bs' & Hb & H).
  simplify_eq/=. destruct n as [|n]; simpl in *.
  - simplify_eq. exists a. by rewrite Nat.add_0_r.
  - destruct (IH (S i) bs' n Hb Hn) as (a' & ? & ?). exists a'.
    by rewrite <- Nat.add_succ_comm.
Qed.

(** ** Lists: the array operations of the source *)

(** [xs.findIndex(p)]: the first index whose element satisfies [p]. *)
Fixpoint find_index {A : Type} (p : A -> bool) (l : list A) : option nat :=
  match l with
  | [] => None
  | a :: l' => if p a then Some 0%nat else S <$> find_index p l'
  end.

Lemma find_index_Some {A} (p : A -> bool) l i :
  find_index p l = Some i ->
  exists a, l !! i = Some a /\ p a = true
            /\ (forall j b, (j < i)%nat -> l !! j = Some b -> p b = false).
Proof.
  revert i; induction l as [|a l IH]; simpl; intros i H; [done|].
  destruct (p a) eqn:Hp; simplify_eq/=.
  - exists a. split_and!; [done..|lia].
  - destruct (find_index p l) as [k|] eqn:Hk; simplify_eq/=.
    destruct (IH k eq_refl) as (b & Hb & Hpb & Hlt). exists b. split_and!; [done..|].
    intros [|j] c Hj Hc; simplify_eq/=; [done|]. eapply Hlt; [|done]. lia.
Qed.

Lemma find_index_None {A} (p : A -> bool) l :
  find_index p l = None <-> Forall (fun a => p a = false) l.
Proof.
  induction l as [|a l IH]; simpl; [done|].
  rewrite Forall_cons. destruct (p a) eqn:Hp; [naive_solver|].
  rewrite <- IH. destruct (find_index p l); naive_solver.
Qed.

(** [xs.find(p)]. *)
Fixpoint find_first {A : Type} (p : A -> bool) (l : list A) : option A :=
  match l with
  | [] => None
  | a :: l' => if p a then Some a else find_first p l'
  end.

Lemma find_first_Some {A} (p : A -> bool) l a :
  find_first p l = Some a -> a ∈ l /\ p a = true.
Proof.
  induction l as [|b l IH]; simpl; [done|].
  destruct (p b) eqn:Hb; intros; simplify_eq; [set_solver|].
  destruct IH; set_solver.
Qed.

Lemma find_first_None {A} (p : A -> bool) l :
  find_first p l = None <-> Forall (fun a => p a = false) l.
Proof.
  induction l as [|a l IH]; simpl; [done|].
  rewrite Forall_cons. destruct (p a) eqn:Hp; naive_solver.
Qed.

(** [xs.filter(p)] for a boolean predicate. *)
Fixpoint keep {A : Type} (p : A -> bool) (l : list A) : list A :=
  match l with
  | [] => []
  | a :: l' => if p a then a :: keep p l' else keep p l'
  end.

Lemma elem_of_keep {A} (p : A -> bool) l a : a ∈ keep p l <-> a ∈ l /\ p a = true.
Proof.
  induction l as [|b l IH]; simpl; [set_solver|].
  rewrite elem_of_cons. destruct (p b) eqn:Hb.
  - rewrite elem_of_cons, IH. naive_solver.
  - rewrite IH. naive_solver congruence.
Qed.

Lemma keep_app {A} (p : A -> bool) l1 l2 : keep p (l1 ++ l2)%list = (keep p l1 ++ keep p l2)%list.
Proof. induction l1 as [|a l1 IH]; simpl; [done|]. rewrite IH. by destruct (p a). Qed.

Lemma keep_ext {A} (p q : A -> bool) l : (forall a, p a = q a) -> keep p l = keep q l.
Proof. intros H. induction l as [|a l IH]; cbn; [done|]. by rewrite H, IH. Qed.

Lemma keep_fmap {A B} (f : A -> B) (p : B -> bool) l : keep p (f <$> l) = f <$> keep (fun a => p (f a)) l.
Proof. induction l as [|a l IH]; cbn; [done|]. by destruct (p (f a)); cbn; rewrite IH. Qed.

Lemma keep_all {A} (p : A -> bool) l :
  Forall (fun a => p a = true) l -> keep p l = l.
Proof. induction 1 as [|a l Ha _ IH]; simpl; [done|]. by rewrite Ha, IH. Qed.

Lemma keep_Forall {A} (p : A -> bool) (l : list A) :
  Forall (fun a => p a = true) (keep p l).
Proof. apply Forall_forall. intros a Ha. by apply elem_of_keep in Ha as [_ ?]. Qed.

Lemma keep_idemp {A} (p : A -> bool) l : keep p (keep p l) = keep p l.
Proof. apply keep_all, keep_Forall. Qed.

Lemma keep_length_eq {A} (p : A -> bool) l :
  length (keep p l) = length l <-> keep p l = l.
Proof.
  split; [|by intros ->]. induction l as [|a l IH]; simpl; [done|].
  assert (length (keep p l) <= length l)%nat as Hle.
  { clear. induction l as [|a l IH]; simpl; [lia|]. destruct (p a); simpl; lia. }
  destruct (p a); simpl; [intros [= H]; f_equal; auto|lia].
Qed.

Lemma fmap_keep_sublist {A B} (f : A -> B) (p : A -> bool) l :
  f <$> keep p l `sublist_of` f <$> l.
Proof.
  induction l as [|a l IH]; simpl; [done|].
  destruct (p a); simpl; by constructor.
Qed.

Lemma NoDup_fmap_keep {A B} (f : A -> B) (p : A -> bool) l :
  NoDup (f <$> l) -> NoDup (f <$> keep p l).
Proof. intros. eapply sublist_NoDup; [done|]. apply fmap_keep_sublist. Qed.

(** ** Tactics *)

(** Case analysis on the scrutinee of the match or conditional in the goal or in
    a hypothesis, keeping the equation. *)
Ltac case_goal :=
  match goal with
  | |- context [match ?x with _ => _ end] => destruct x eqn:?
  end.
Ltac case_in H :=
  match type of H with
  | context [match ?x with _ => _ end] => destruct x eqn:?
  end.
Ltac solve_cases := repeat (simpl; case_goal; simplify_eq/=; try done).

(** Split every conjunction of booleans among the hypotheses and turn the
    comparisons into propositions. *)
Ltac bool_solve :=
  repeat match goal with
  | H : andb _ _ = true |- _ => apply andb_true_iff in H as [? ?]
  | H : orb _ _ = false |- _ => apply orb_false_iff in H as [? ?]
  | H : negb _ = true |- _ => apply negb_true_iff in H
  | H : negb _ = false |- _ => apply negb_false_iff in H
  | H : Z.leb _ _ = true |- _ => apply Z.leb_le in H
  | H : Z.leb _ _ = false |- _ => apply Z.leb_gt in H
  | H : Z.ltb _ _ = true |- _ => apply Z.ltb_lt in H
  | H : Z.ltb _ _ = false |- _ => apply Z.ltb_ge in H
  | H : Z.eqb _ _ = true |- _ => apply Z.eqb_eq in H
  | H : Z.eqb _ _ = false |- _ => apply Z.eqb_neq in H
  | H : String.eqb _ _ = true |- _ => apply String.eqb_eq in H
  | H : String.eqb _ _ = false |- _ => apply String.eqb_neq in H
  | H : bool_decide _ = true |- _ => apply bool_decide_eq_true in H
  | H : bool_decide _ = false |- _ => apply bool_decide_eq_false in H
  end.

Create HintDb flux.
#[export] Hint Resolve keep_Forall keep_idemp NoDup_fmap_keep : flux.
#[export] Hint Rewrite @keep_idemp : flux.

(** ** Updating the first match of a list *)

Lemma find_first_index {A} (p : A -> bool) l :
  find_first p l = match find_index p l with Some i => l !! i | None => None end.
Proof.
  induction l as [|a l IH]; simpl; [done|]. destruct (p a); [done|].
  rewrite IH. by destruct (find_index p l).
Qed.

Lemma find_first_app {A} (p : A -> bool) l1 l2 :
  find_first p (l1 ++ l2) = match find_first p l1 with Some a => Some a | None => find_first p l2 end.
Proof. induction l1 as [|a l1 IH]; simpl; [done|]. by destruct (p a). Qed.

(** Replacing the first match by another match: the search finds it. *)
Lemma find_first_insert_same {A} (p : A -> bool) l i a :
  find_index p l = Some i -> p a = true -> find_first p (<[i := a]> l) = Some a.
Proof.
  revert i; induction l as [|b l IH]; simpl; intros i Hi Ha; [done|].
  destruct (p b) eqn:Hb; simplify_eq/=; [by rewrite Ha|].
  destruct (find_index p l) as [j|] eqn:Hj; simplify_eq/=. rewrite Hb. by apply IH.
Qed.

(** Replacing a non-match by a non-match: the search is unaffected. *)
Lemma find_first_insert_other {A} (q : A -> bool) l i a b :
  l !! i = Some b -> q a = false -> q b = false -> find_first q (<[i := a]> l) = find_first q l.
Proof.
  revert i; induction l as [|c l IH]; intros [|i] Hi Ha Hb; simplify_eq/=; [by rewrite Ha, Hb|].
  by destruct (q c); [|apply IH].
Qed.

(** Updating an entry without changing its key keeps the list of keys. *)
Lemma fmap_insert_same_key {A B} (f : A -> B) (l : list A) (i : nat) a b :
  l !! i = Some b -> f a = f b -> f <$> <[i := a]> l = f <$> l.
Proof.
  intros Hi Hf. rewrite list_fmap_insert, Hf. apply list_insert_id.
  by rewrite list_lookup_fmap, Hi.
Qed.

Lemma fmap_id_on {A} (f : A -> A) l : Forall (fun a => f a = a) l -> f <$> l = l.
Proof. induction 1 as [|a l Ha _ IH]; [done|]. rewrite fmap_cons. by rewrite Ha, IH. Qed.

(** ** Sums over maps *)

Section sums.
Context {K : Type} `{Countable K}.
Open Scope Z_scope.

Definition sum_of {V} (f : K -> V -> Z) (m : gmap K V) : Z := map_fold (fun k v s => f k v + s) 0 m.

Lemma sum_of_fresh {V} (f : K -> V -> Z) m k v : m !! k = None -> sum_of f (<[k := v]> m) = f k v + sum_of f m.
Proof. intros Hk. unfold sum_of. rewrite map_fold_insert_L; [done|intros; lia|done]. Qed.

Lemma sum_of_delete {V} (f : K -> V -> Z) m k : sum_of f m = from_option (f k) 0 (m !! k) + sum_of f (delete k m).
Proof.
  destruct (m !! k) as [v|] eqn:E; cbn.
  - rewrite <- (insert_delete_id m k v E) at 1. by rewrite sum_of_fresh by apply lookup_delete_eq.
  - by rewrite delete_id.
Qed.

Lemma sum_of_insert {V} (f : K -> V -> Z) m k v :
  sum_of f (<[k := v]> m) = sum_of f m - from_option (f k) 0 (m !! k) + f k v.
Proof.
  rewrite (sum_of_delete f m k), (sum_of_delete f (<[k := v]> m) k), lookup_insert_eq, delete_insert_eq. cbn [from_option]. lia.
Qed.

Lemma sum_of_le {V} (f g : K -> V -> Z) m :
  map_Forall (fun k v => f k v <= g k v) m -> sum_of f m <= sum_of g m.
Proof.
  induction m as [|k v m Hk IH] using map_ind; intros Hm; [by unfold sum_of; rewrite !map_fold_empty|].
  rewrite !sum_of_fresh by done. apply map_Forall_insert in Hm as [? ?]; [|done]. specialize (IH ltac:(done)). lia.
Qed.

Lemma sum_of_ext {V} (f g : K -> V -> Z) m :
  map_Forall (fun k v => f k v = g k v) m -> sum_of f m = sum_of g m.
Proof.
  intros Hm. apply Z.le_antisymm; apply sum_of_le; intros k v Hk; by rewrite (Hm k v Hk).
Qed.

(** What changes at one key. *)
Lemma sum_of_at {V} (f g : K -> V -> Z) m k :
  (forall k' v, k' <> k -> m !! k' = Some v -> f k' v = g k' v) ->
  sum_of f m = sum_of g m + from_option (f k) 0 (m !! k) - from_option (g k) 0 (m !! k).
Proof.
  intros Hm. rewrite (sum_of_delete f m k), (sum_of_delete g m k), (sum_of_ext f g (delete k m)); [lia|].
  intros k' v Hk. apply lookup_delete_Some in Hk as [Hne Hk]. apply Hm; [by apply not_eq_sym|done].
Qed.

Lemma sum_of_zero {V} (m : gmap K V) : sum_of (fun _ _ => 0) m = 0.
Proof.
  induction m as [|k v m Hk IH] using map_ind; [by unfold sum_of; rewrite map_fold_empty|]. by rewrite sum_of_fresh.
Qed.

Definition total (m : gmap K Z) : Z := sum_of (fun _ v => v) m.

Lemma total_fresh m k v : m !! k = None -> total (<[k := v]> m) = v + total m.
Proof. intros. unfold total. by rewrite sum_of_fresh. Qed.

Lemma total_delete m k : total m = default 0 (m !! k) + total (delete k m).
Proof. unfold total. rewrite (sum_of_delete _ m k). by destruct (m !! k). Qed.

Lemma total_insert m k v : total (<[k := v]> m) = total m - default 0 (m !! k) + v.
Proof. unfold total. rewrite sum_of_insert. by destruct (m !! k). Qed.

Lemma total_nonneg m : map_Forall (fun _ v => 0 <= v) m -> 0 <= total m.
Proof.
  intros Hm. apply sum_of_le in Hm. by rewrite sum_of_zero in Hm.
Qed.

Lemma total_two m k k' :
  map_Forall (fun _ v => 0 <= v) m -> k <> k' -> default 0 (m !! k) + default 0 (m !! k') <= total m.
Proof.
  intros Hm Hne. rewrite (total_delete m k), (total_delete (delete k m) k'), lookup_delete_ne by done.
  assert (0 <= total (delete k' (delete k m))); [|lia]. apply total_nonneg. by repeat apply map_Forall_delete.
Qed.
End sums.
