(* ===== verification/JsString.v ===== *)
(** * JavaScript strings

    The part of [String.prototype], [BigInt] and [Number.prototype.toString]
    that the TypeScript sources call.  A JavaScript string is represented by its
    UTF-8 bytes (a Rocq [string]); [js_length] counts UTF-16 code units.  [trim]
    strips exactly the white space and line terminators of ECMA-262.
    [to_lower] folds the ASCII letters: the sources lower-case addresses, hashes
    and English messages. *)

From S2P Require Import Prelude.
From Stdlib Require Import Ascii String.
Open Scope string_scope.
Open Scope Z_scope.

#[global] Arguments String.append !s1 s2 / : rename.

(** ** Characters *)

Definition code (c : ascii) : Z := Z.of_N (N_of_ascii c).
Definition chr (z : Z) : ascii := ascii_of_N (Z.to_N z).

Definition is_digit (c : ascii) : bool := (48 <=? code c) && (code c <=? 57).

Definition lower_char (c : ascii) : ascii :=
  if (65 <=? code c) && (code c <=? 90) then chr (code c + 32) else c.

Fixpoint to_lower (s : string) : string :=
  match s with
  | EmptyString => EmptyString
  | String c r => String (lower_char c) (to_lower r)
  end.

(** The number of UTF-16 code units that a UTF-8 byte starts. *)
Definition code_units (c : ascii) : nat :=
  if code c <? 128 then 1%nat else if code c <? 192 then 0%nat
  else if code c <? 240 then 1%nat else 2%nat.

Fixpoint js_length (s : string) : nat :=
  match s with EmptyString => 0%nat | String c r => (code_units c + js_length r)%nat end.

(** ** White space *)

(** Length in bytes of the white-space character [s] starts with, 0 if none. *)
Definition ws_len (s : string) : nat :=
  match s with
  | EmptyString => 0%nat
  | String a r =>
    if ((9 <=? code a) && (code a <=? 13)) || (code a =? 32) then 1%nat
    else match r with
    | EmptyString => 0%nat
    | String b r' =>
      if (code a =? 194) && (code b =? 160) then 2%nat
      else match r' with
      | EmptyString => 0%nat
      | String c _ =>
        if ((code a =? 225) && (code b =? 154) && (code c =? 128))
           || ((code a =? 226) && (code b =? 128) &&
               (((128 <=? code c) && (code c <=? 138)) || (code c =? 168)
                || (code c =? 169) || (code c =? 175)))
           || ((code a =? 226) && (code b =? 129) && (code c =? 159))
           || ((code a =? 227) && (code b =? 128) && (code c =? 128))
           || ((code a =? 239) && (code b =? 187) && (code c =? 191))
        then 3%nat else 0%nat
      end
    end
  end.

Fixpoint ltrim_skip (k : nat) (s : string) : string :=
  match s with
  | EmptyString => EmptyString
  | String _ r =>
    match k with
    | S k' => ltrim_skip k' r
    | O => match ws_len s with O => s | S k' => ltrim_skip k' r end
    end
  end.
Definition ltrim : string -> string := ltrim_skip 0.

Definition all_ws (s : string) : bool := String.eqb (ltrim s) "".

Fixpoint rtrim (s : string) : string :=
  match s with
  | EmptyString => EmptyString
  | String c r => if all_ws s then EmptyString else String c (rtrim r)
  end.

(** [s.trim()] *)
Definition trim (s : string) : string := rtrim (ltrim s).

(** ** Searching and cutting *)

(** [s.includes(p)] *)
Fixpoint includes (s p : string) : bool :=
  String.prefix p s ||
  match s with EmptyString => false | String _ r => includes r p end.

Definition starts_with (s p : string) : bool := String.prefix p s.

(** [s.split(c)] for a one-character separator. *)
Fixpoint split_go (c : ascii) (s : string) (acc : string) : list string :=
  match s with
  | EmptyString => [acc]
  | String d r =>
    if Ascii.eqb d c then acc :: split_go c r EmptyString
    else split_go c r (acc ++ String d EmptyString)
  end.
Definition split (c : ascii) (s : string) : list string := split_go c s EmptyString.

(** [s.replace(/c/g, '')] for one character. *)
Fixpoint strip (c : ascii) (s : string) : string :=
  match s with
  | EmptyString => EmptyString
  | String d r => if Ascii.eqb d c then strip c r else String d (strip c r)
  end.

Fixpoint all_chars (p : ascii -> bool) (s : string) : bool :=
  match s with EmptyString => true | String c r => p c && all_chars p r end.

Fixpoint str_concat (l : list string) : string :=
  match l with [] => EmptyString | s :: l' => s ++ str_concat l' end.

Definition str_nonempty (s : string) : bool :=
  match s with EmptyString => false | _ => true end.

(** ** Positional notation *)

Definition digit_char (d : Z) : ascii := if d <? 10 then chr (48 + d) else chr (87 + d).

Definition digit_val (c : ascii) : option Z :=
  if is_digit c then Some (code c - 48)
  else if (97 <=? code c) && (code c <=? 102) then Some (code c - 87)
  else if (65 <=? code c) && (code c <=? 70) then Some (code c - 55)
  else None.

Fixpoint digits_go (base : Z) (fuel : nat) (n : Z) (acc : string) : string :=
  match fuel with
  | O => acc
  | S f =>
    let acc' := String (digit_char (n mod base)) acc in
    if n / base =? 0 then acc' else digits_go base f (n / base) acc'
  end.

(** [n.toString(base)] of a bigint; the fuel [log2 n + 1] bounds the number of
    digits in every base. *)
Definition Z_to_string (base n : Z) : string :=
  let body := digits_go base (S (Z.to_nat (Z.log2 (Z.abs n)))) (Z.abs n) EmptyString in
  if n <? 0 then String "-" body else body.
Definition dec (n : Z) : string := Z_to_string 10 n.

Fixpoint value_go (base : Z) (s : string) (acc : Z) : option Z :=
  match s with
  | EmptyString => Some acc
  | String c r =>
    match digit_val c with
    | Some d => if d <? base then value_go base r (acc * base + d) else None
    | None => None
    end
  end.
Definition digits_value (base : Z) (s : string) : option Z :=
  if str_nonempty s then value_go base s 0 else None.

(** [BigInt(s)] (StringToBigInt): [None] is the [SyntaxError]. *)
Definition bigint_of_string (s : string) : option Z :=
  match trim s with
  | EmptyString => Some 0
  | String a (String b r) as t =>
    if Ascii.eqb a "0" && (Ascii.eqb b "x" || Ascii.eqb b "X") then digits_value 16 r
    else if Ascii.eqb a "0" && (Ascii.eqb b "o" || Ascii.eqb b "O") then digits_value 8 r
    else if Ascii.eqb a "0" && (Ascii.eqb b "b" || Ascii.eqb b "B") then digits_value 2 r
    else if Ascii.eqb a "-" then Z.opp <$> digits_value 10 (String b r)
    else if Ascii.eqb a "+" then digits_value 10 (String b r)
    else digits_value 10 t
  | t => digits_value 10 t
  end.

(** [s.padStart(n, c)] *)
Fixpoint repeat_char (n : nat) (c : ascii) : string :=
  match n with O => EmptyString | S n' => String c (repeat_char n' c) end.
Definition pad_start (n : nat) (c : ascii) (s : string) : string :=
  repeat_char (n - String.length s) c ++ s.

(** ** Lemmas *)

Lemma app_empty_r s : s ++ "" = s.
Proof. induction s as [|c s IH]; simpl; [done|]. by rewrite IH. Qed.

Lemma app_string_assoc s t u : (s ++ t) ++ u = s ++ (t ++ u).
Proof. induction s as [|c s IH]; simpl; [done|]. by rewrite IH. Qed.

Lemma length_string_app s t :
  String.length (s ++ t) = (String.length s + String.length t)%nat.
Proof. induction s as [|c s IH]; simpl; [done|]. by rewrite IH. Qed.

(** *** Trimming *)

Lemma ws_len_ltrim k s : ws_len (ltrim_skip k s) = 0%nat.
Proof.
  revert k; induction s as [|c r IH]; intros k; cbn [ltrim_skip]; [done|].
  destruct k as [|k]; [|apply IH].
  destruct (ws_len (String c r)) as [|k] eqn:H; [done|apply IH].
Qed.

Lemma ltrim_id s : ws_len s = 0%nat -> ltrim s = s.
Proof. unfold ltrim. destruct s as [|c r]; [done|]. cbn [ltrim_skip]. by intros ->. Qed.

Lemma ltrim_ltrim s : ltrim (ltrim s) = ltrim s.
Proof. apply ltrim_id, ws_len_ltrim. Qed.

(** A white-space character is recognised from its own bytes. *)
Lemma ws_len_app s t : ws_len s <> 0%nat -> ws_len (s ++ t) = ws_len s.
Proof.
  destruct s as [|a [|b [|c s]]]; simpl; intros H; repeat case_match; try done;
    bool_solve; try congruence; lia.
Qed.

Lemma ws_len_prefix s t : ws_len (s ++ t) = 0%nat -> ws_len s = 0%nat.
Proof.
  intros H. destruct (ws_len s) eqn:E; [done|].
  rewrite <- E, <- H. symmetry. apply ws_len_app. by rewrite E.
Qed.

Lemma ws_len_bound s : (ws_len s <= String.length s)%nat.
Proof. destruct s as [|a [|b [|c s]]]; simpl; repeat case_match; lia. Qed.

Lemma ltrim_skip_app k s t :
  (k <= String.length s)%nat -> ltrim_skip k s = "" ->
  ltrim_skip k (s ++ t) = ltrim_skip 0 t.
Proof.
  revert k; induction s as [|c r IH]; intros k Hk H; simpl in Hk.
  { assert (k = 0%nat) as -> by lia. done. }
  destruct k as [|k]; [|apply IH; [lia|done]].
  cbn [ltrim_skip append] in *. destruct (ws_len (String c r)) as [|k] eqn:E; [done|].
  assert (ws_len (String c (r ++ t)) = S k) as ->.
  { rewrite <- E. apply (ws_len_app (String c r) t). by rewrite E. }
  apply IH; [|done]. pose proof (ws_len_bound (String c r)) as Hb.
  simpl String.length in Hb. lia.
Qed.

Lemma all_ws_app s t : all_ws s = true -> all_ws t = true -> all_ws (s ++ t) = true.
Proof.
  unfold all_ws, ltrim. intros Hs Ht. apply String.eqb_eq in Hs.
  rewrite ltrim_skip_app; [done|lia|done].
Qed.

(** [rtrim] cuts a white-space suffix off. *)
Lemma rtrim_prefix s : exists t, s = rtrim s ++ t /\ all_ws t = true.
Proof.
  induction s as [|c r (t & Hr & Ht)]; [by exists ""|].
  cbn [rtrim]. destruct (all_ws (String c r)) eqn:E; [by exists (String c r)|].
  exists t. split; [|done]. simpl. by rewrite <- Hr.
Qed.

Lemma rtrim_rtrim s : rtrim (rtrim s) = rtrim s.
Proof.
  induction s as [|c r IH]; [done|]. cbn [rtrim].
  destruct (all_ws (String c r)) eqn:E; [done|]. cbn [rtrim].
  destruct (all_ws (String c (rtrim r))) eqn:E'; [|by rewrite IH].
  destruct (rtrim_prefix r) as (t & Hr & Ht).
  pose proof (all_ws_app _ _ E' Ht) as H. simpl in H. rewrite <- Hr in H. congruence.
Qed.

Lemma trim_trim s : trim (trim s) = trim s.
Proof.
  unfold trim. assert (ws_len (rtrim (ltrim s)) = 0%nat) as H.
  { destruct (rtrim_prefix (ltrim s)) as (t & Ht & _).
    apply (ws_len_prefix _ t). rewrite <- Ht. apply ws_len_ltrim. }
  by rewrite (ltrim_id _ H), rtrim_rtrim.
Qed.

(** *** Case folding *)

Lemma code_range c : 0 <= code c < 256.
Proof.
  unfold code. pose proof (N_ascii_bounded c). lia.
Qed.

Lemma code_chr z : 0 <= z < 256 -> code (chr z) = z.
Proof. intros H. unfold code, chr. rewrite N_ascii_embedding; lia. Qed.

Lemma code_inj c d : code c = code d -> c = d.
Proof.
  unfold code. intros H. apply N2Z.inj in H.
  rewrite <- (ascii_N_embedding c), <- (ascii_N_embedding d). by rewrite H.
Qed.

Lemma lower_char_idemp c : lower_char (lower_char c) = lower_char c.
Proof.
  unfold lower_char at 2 3. destruct ((65 <=? code c) && (code c <=? 90)) eqn:E.
  - bool_solve. unfold lower_char. rewrite code_chr by lia.
    destruct (Z.leb_spec (code c + 32) 90); [lia|]. by rewrite andb_false_r.
  - unfold lower_char. by rewrite E.
Qed.

Lemma to_lower_idemp s : to_lower (to_lower s) = to_lower s.
Proof. induction s as [|c s IH]; simpl; [done|]. by rewrite lower_char_idemp, IH. Qed.

Lemma lower_char_ascii_only c : code c < 65 \/ 90 < code c -> lower_char c = c.
Proof.
  intros H. unfold lower_char.
  destruct (Z.leb_spec 65 (code c)), (Z.leb_spec (code c) 90); try done; lia.
Qed.

(** Folding does not change what is white space. *)
Lemma ws_len_lower s : ws_len (to_lower s) = ws_len s.
Proof.
  assert (forall c lo hi, (hi < 65 \/ 122 < lo) ->
    (lo <=? code (lower_char c)) && (code (lower_char c) <=? hi)
    = (lo <=? code c) && (code c <=? hi)) as Hr.
  { intros c lo hi H. unfold lower_char.
    destruct ((65 <=? code c) && (code c <=? 90)) eqn:E; [|done]. bool_solve.
    rewrite code_chr by lia. apply eq_true_iff_eq. rewrite !andb_true_iff, !Z.leb_le. lia. }
  assert (forall c k, (k < 65 \/ 122 < k) ->
    (code (lower_char c) =? k) = (code c =? k)) as He.
  { intros c k H. unfold lower_char.
    destruct ((65 <=? code c) && (code c <=? 90)) eqn:E; [|done]. bool_solve.
    rewrite code_chr by lia. apply eq_true_iff_eq. rewrite !Z.eqb_eq. lia. }
  destruct s as [|a [|b [|c s]]]; simpl; rewrite ?He, ?Hr by lia; done.
Qed.

Lemma ltrim_skip_lower k s : ltrim_skip k (to_lower s) = to_lower (ltrim_skip k s).
Proof.
  revert k; induction s as [|c r IH]; intros k; [done|].
  pose proof (ws_len_lower (String c r)) as Hw. cbn [to_lower] in *.
  cbn [ltrim_skip]. rewrite Hw. destruct k; [|apply IH].
  destruct (ws_len (String c r)); [reflexivity|apply IH].
Qed.

Lemma rtrim_lower s : rtrim (to_lower s) = to_lower (rtrim s).
Proof.
  induction s as [|c r IH]; [done|]. cbn [rtrim to_lower].
  assert (all_ws (String (lower_char c) (to_lower r)) = all_ws (String c r)) as ->.
  { unfold all_ws, ltrim. change (String (lower_char c) (to_lower r)) with (to_lower (String c r)).
    rewrite ltrim_skip_lower. destruct (ltrim_skip 0 (String c r)); reflexivity. }
  destruct (all_ws (String c r)); [done|]. simpl. by rewrite IH.
Qed.

Lemma trim_lower s : trim (to_lower s) = to_lower (trim s).
Proof. unfold trim, ltrim. by rewrite ltrim_skip_lower, rtrim_lower. Qed.

#[export] Hint Rewrite trim_trim to_lower_idemp trim_lower app_empty_r : flux.

(** *** Positional notation *)

Lemma digit_val_char d : 0 <= d < 16 -> digit_val (digit_char d) = Some d.
Proof.
  intros H. unfold digit_char. destruct (Z.ltb_spec d 10) as [Hd|Hd]; unfold digit_val, is_digit.
  - rewrite code_chr by lia.
    destruct (Z.leb_spec 48 (48 + d)), (Z.leb_spec (48 + d) 57); try lia. simpl. f_equal; lia.
  - rewrite code_chr by lia.
    destruct (Z.leb_spec 48 (87 + d)), (Z.leb_spec (87 + d) 57),
      (Z.leb_spec 97 (87 + d)), (Z.leb_spec (87 + d) 102); try lia. simpl. f_equal; lia.
Qed.

Lemma value_go_digits base fuel n acc :
  2 <= base <= 16 -> 0 <= n < base ^ Z.of_nat fuel ->
  value_go base (digits_go base fuel n acc) 0 = value_go base acc n.
Proof.
  intros Hb. revert n acc; induction fuel as [|f IH]; intros n acc Hn.
  { simpl in *. assert (n = 0) as -> by lia. done. }
  rewrite Nat2Z.inj_succ, Z.pow_succ_r in Hn by lia.
  pose proof (Z.mod_pos_bound n base ltac:(lia)) as Hm.
  assert (n = base * (n / base) + n mod base) as Hdiv by (apply Z.div_mod; lia).
  assert (forall v, value_go base (String (digit_char (n mod base)) acc) v
                    = value_go base acc (v * base + n mod base)) as Hstep.
  { intros v. cbn [value_go]. rewrite digit_val_char by lia.
    by destruct (Z.ltb_spec (n mod base) base); [|lia]. }
  cbn [digits_go]. destruct (Z.eqb_spec (n / base) 0) as [H0|H0].
  - rewrite Hstep. f_equal. lia.
  - rewrite IH; [rewrite Hstep; f_equal; lia|]. split; [apply Z.div_pos; lia|].
    apply Z.div_lt_upper_bound; lia.
Qed.

Lemma fuel_enough base n :
  2 <= base -> 0 <= n -> n < base ^ Z.of_nat (S (Z.to_nat (Z.log2 n))).
Proof.
  intros Hb Hn. pose proof (Z.log2_nonneg n).
  rewrite Nat2Z.inj_succ, Z2Nat.id by done.
  destruct (Z.eq_dec n 0) as [->|Hne]; [simpl; lia|].
  eapply Z.lt_le_trans; [apply Z.log2_spec; lia|].
  apply Z.pow_le_mono_l. lia.
Qed.

Lemma digits_go_nonempty base f n acc : str_nonempty (digits_go base (S f) n acc) = true.
Proof.
  revert n acc; induction f as [|f IH]; intros n acc; cbn [digits_go].
  - by destruct (n / base =? 0).
  - destruct (n / base =? 0); [done|apply IH].
Qed.

(** Printing a natural number in a base and reading it back gives it back. *)
Lemma digits_value_Z_to_string base n :
  2 <= base <= 16 -> 0 <= n -> digits_value base (Z_to_string base n) = Some n.
Proof.
  intros Hb Hn. unfold digits_value, Z_to_string.
  destruct (Z.ltb_spec n 0); [lia|]. rewrite Z.abs_eq by done.
  rewrite digits_go_nonempty, value_go_digits; [done|done|].
  split; [done|]. apply fuel_enough; lia.
Qed.

Lemma Z_to_string_inj base m n :
  2 <= base <= 16 -> 0 <= m -> 0 <= n -> Z_to_string base m = Z_to_string base n -> m = n.
Proof.
  intros Hb Hm Hn H. pose proof (digits_value_Z_to_string base m Hb Hm) as E.
  rewrite H, digits_value_Z_to_string in E by done. congruence.
Qed.

(** A number below [base ^ k] has at most [k] digits. *)
Lemma digits_go_length base fuel n acc k :
  2 <= base -> 0 <= n < base ^ Z.of_nat k -> (0 < k)%nat ->
  (String.length (digits_go base fuel n acc) <= k + String.length acc)%nat.
Proof.
  intros Hb. revert n acc k; induction fuel as [|f IH]; intros n acc k Hn Hk; [simpl; lia|].
  cbn [digits_go]. destruct (Z.eqb_spec (n / base) 0) as [H0|H0]; [simpl; lia|].
  destruct k as [|[|k]]; [lia| |].
  { exfalso. apply H0. apply Z.div_small. simpl in Hn. lia. }
  eapply Nat.le_trans; [apply (IH _ _ (S k)); [|lia]|simpl; lia].
  split; [apply Z.div_pos; lia|]. apply Z.div_lt_upper_bound; [lia|].
  rewrite <- Z.pow_succ_r by lia. rewrite <- Nat2Z.inj_succ. lia.
Qed.

Lemma Z_to_string_length base n k :
  2 <= base -> 0 <= n < base ^ Z.of_nat k -> (0 < k)%nat ->
  (String.length (Z_to_string base n) <= k)%nat.
Proof.
  intros Hb Hn Hk. unfold Z_to_string. destruct (Z.ltb_spec n 0); [lia|].
  rewrite Z.abs_eq by lia.
  pose proof (digits_go_length base (S (Z.to_nat (Z.log2 n))) n "" k Hb Hn Hk).
  simpl String.length in *. lia.
Qed.

Lemma length_repeat_char n c : String.length (repeat_char n c) = n.
Proof. induction n as [|n IH]; simpl; [done|]. by rewrite IH. Qed.

Lemma length_pad_start n c s :
  (String.length s <= n)%nat -> String.length (pad_start n c s) = n.
Proof. intros H. unfold pad_start. rewrite length_string_app, length_repeat_char. lia. Qed.

Lemma value_go_pad_start base n s :
  2 <= base -> value_go base (pad_start n "0" s) 0 = value_go base s 0.
Proof.
  intros Hb. unfold pad_start. generalize (n - String.length s)%nat as k.
  induction k as [|k IH]; [done|]. cbn [repeat_char append value_go].
  change (digit_val "0") with (Some 0). cbv beta iota.
  destruct (Z.ltb_spec 0 base); [|lia]. by rewrite Z.mul_0_l.
Qed.

(** *** Digit strings *)

Lemma is_digit_spec c : is_digit c = true <-> 48 <= code c <= 57.
Proof. unfold is_digit. rewrite andb_true_iff, !Z.leb_le. lia. Qed.

Lemma digit_char_10 d : 0 <= d < 10 -> is_digit (digit_char d) = true.
Proof.
  intros H. apply is_digit_spec. unfold digit_char.
  destruct (Z.ltb_spec d 10); [|lia]. rewrite code_chr; lia.
Qed.

Lemma all_digits_go (p : ascii -> bool) base f n acc :
  0 < base -> (forall d, 0 <= d < base -> p (digit_char d) = true) ->
  all_chars p acc = true -> all_chars p (digits_go base f n acc) = true.
Proof.
  intros Hb Hp. revert n acc; induction f as [|f IH]; intros n acc H; [done|]. cbn [digits_go].
  assert (all_chars p (String (digit_char (n mod base)) acc) = true) as H'.
  { cbn [all_chars]. rewrite Hp, H; [done|]. by apply Z.mod_pos_bound. }
  destruct (n / base =? 0); [done|by apply IH].
Qed.

(** Lower-case hexadecimal digits, those [toString(16)] writes. *)
Definition is_hex_lower (c : ascii) : bool := is_digit c || (97 <=? code c) && (code c <=? 102).

Lemma digit_char_16 d : 0 <= d < 16 -> is_hex_lower (digit_char d) = true.
Proof.
  intros H. unfold is_hex_lower. destruct (Z.ltb_spec d 10).
  - by rewrite digit_char_10 by lia.
  - unfold digit_char. destruct (Z.ltb_spec d 10); [lia|]. rewrite code_chr by lia.
    apply orb_true_iff. right. apply andb_true_iff. rewrite !Z.leb_le. lia.
Qed.

Lemma hex_all_digits n : 0 <= n -> all_chars is_hex_lower (Z_to_string 16 n) = true.
Proof.
  intros H. unfold Z_to_string. destruct (Z.ltb_spec n 0); [lia|].
  by apply all_digits_go; [lia|apply digit_char_16|].
Qed.

Lemma all_chars_pad_start p n c s :
  p c = true -> all_chars p s = true -> all_chars p (pad_start n c s) = true.
Proof.
  intros Hc Hs. unfold pad_start. generalize (n - String.length s)%nat as k.
  induction k as [|k IH]; [done|]. cbn. by rewrite Hc.
Qed.

Lemma dec_all_digits n : 0 <= n -> all_chars is_digit (dec n) = true.
Proof.
  intros H. unfold dec, Z_to_string. destruct (Z.ltb_spec n 0); [lia|].
  by apply all_digits_go; [lia|apply digit_char_10|].
Qed.

(** Printable ASCII characters other than the space. *)
Definition is_graphic (c : ascii) : bool := (33 <=? code c) && (code c <? 128).

Lemma ws_len_graphic c r : is_graphic c = true -> ws_len (String c r) = 0%nat.
Proof.
  intros Hc. unfold is_graphic in Hc. bool_solve. unfold ws_len.
  assert (forall k, k < 33 \/ 127 < k -> (code c =? k) = false) as He.
  { intros k Hk. apply Z.eqb_neq. lia. }
  rewrite !He by lia. destruct (Z.leb_spec (code c) 13); [lia|].
  rewrite andb_false_r. simpl. by destruct r as [|b [|d r]].
Qed.

Lemma all_chars_impl (p q : ascii -> bool) s :
  (forall c, p c = true -> q c = true) -> all_chars p s = true -> all_chars q s = true.
Proof.
  intros Hpq. induction s as [|c r IH]; [done|]. cbn [all_chars]. rewrite !andb_true_iff.
  intros [? ?]. auto.
Qed.

Lemma all_chars_app p s t : all_chars p (s ++ t) = all_chars p s && all_chars p t.
Proof. induction s as [|c r IH]; [done|]. simpl. by rewrite IH, andb_assoc. Qed.

Lemma digits_graphic s : all_chars is_digit s = true -> all_chars is_graphic s = true.
Proof.
  apply all_chars_impl. intros c H. apply is_digit_spec in H. unfold is_graphic.
  apply andb_true_iff. rewrite Z.leb_le, Z.ltb_lt. lia.
Qed.

Lemma trim_graphic s : all_chars is_graphic s = true -> trim s = s.
Proof.
  intros H. unfold trim.
  assert (forall t, all_chars is_graphic t = true -> ltrim t = t) as Hl.
  { intros [|c r] Ht; [done|]. apply ltrim_id, ws_len_graphic.
    cbn [all_chars] in Ht. by apply andb_true_iff in Ht as [? _]. }
  rewrite Hl by done. induction s as [|c r IH]; [done|]. cbn [rtrim].
  unfold all_ws. rewrite Hl by done. simpl. f_equal. apply IH.
  cbn [all_chars] in H. by apply andb_true_iff in H as [_ ?].
Qed.

Lemma trim_digits s : all_chars is_digit s = true -> trim s = s.
Proof. intros H. by apply trim_graphic, digits_graphic. Qed.

Lemma trim_dec n : 0 <= n -> trim (dec n) = dec n.
Proof. intros. by apply trim_digits, dec_all_digits. Qed.

Lemma dec_nonempty n : 0 <= n -> str_nonempty (dec n) = true.
Proof.
  intros Hn. unfold dec, Z_to_string. apply Z.ltb_ge in Hn. rewrite Hn. apply digits_go_nonempty.
Qed.

Lemma digit_neq c d : is_digit c = true -> is_digit d = false -> Ascii.eqb c d = false.
Proof. intros Hc Hd. apply Ascii.eqb_neq. intros ->. congruence. Qed.

Lemma bigint_of_digits s :
  all_chars is_digit s = true -> str_nonempty s = true ->
  bigint_of_string s = digits_value 10 s.
Proof.
  intros H Hne. unfold bigint_of_string. rewrite trim_digits by done.
  destruct s as [|a [|b r]]; [done..|].
  cbn [all_chars] in H. apply andb_true_iff in H as [Ha H]. apply andb_true_iff in H as [Hb _].
  rewrite !(digit_neq b), (digit_neq a "-"), (digit_neq a "+") by done.
  by rewrite !andb_false_r.
Qed.

(** [BigInt(n.toString())] is [n]. *)
Lemma bigint_of_string_dec n : 0 <= n -> bigint_of_string (dec n) = Some n.
Proof.
  intros H. rewrite bigint_of_digits.
  - apply digits_value_Z_to_string; lia.
  - by apply dec_all_digits.
  - unfold dec, Z_to_string. destruct (Z.ltb_spec n 0); [lia|]. apply digits_go_nonempty.
Qed.

Lemma dec_inj m n : 0 <= m -> 0 <= n -> dec m = dec n -> m = n.
Proof. apply Z_to_string_inj. lia. Qed.

(** *** Decimal values *)

Lemma digit_val_digit c : is_digit c = true -> digit_val c = Some (code c - 48).
Proof. unfold digit_val. by intros ->. Qed.

(** Reading a text of digits on top of an accumulator. *)
Lemma value_go_shift base (p : ascii -> bool) s acc :
  (forall c, p c = true -> exists d, digit_val c = Some d /\ 0 <= d < base) ->
  all_chars p s = true ->
  exists v, value_go base s 0 = Some v /\ 0 <= v < base ^ Z.of_nat (String.length s)
    /\ value_go base s acc = Some (acc * base ^ Z.of_nat (String.length s) + v).
Proof.
  intros Hp. revert acc; induction s as [|c r IH]; intros acc H.
  { exists 0. simpl. split_and!; [done|lia..|]. f_equal. lia. }
  cbn [all_chars] in H. apply andb_true_iff in H as [Hc Hr]. cbn [value_go String.length].
  destruct (Hp c Hc) as (d & -> & Hd). destruct (Z.ltb_spec d base); [|lia].
  destruct (IH (0 * base + d) Hr) as (v & Hv & Hb & H0).
  destruct (IH (acc * base + d) Hr) as (v' & Hv' & _ & H1).
  assert (v' = v) as -> by congruence.
  rewrite Nat2Z.inj_succ, Z.pow_succ_r by lia.
  exists (d * base ^ Z.of_nat (String.length r) + v).
  rewrite H0, H1. split_and!; [f_equal; lia|nia|nia|f_equal; ring].
Qed.

Lemma value_go_acc s acc :
  all_chars is_digit s = true ->
  exists v, value_go 10 s 0 = Some v /\ 0 <= v < 10 ^ Z.of_nat (String.length s)
    /\ value_go 10 s acc = Some (acc * 10 ^ Z.of_nat (String.length s) + v).
Proof.
  apply value_go_shift. intros c Hc. exists (code c - 48). rewrite digit_val_digit by done.
  apply is_digit_spec in Hc. split; [done|lia].
Qed.

(** *** The order of hexadecimal texts *)

Lemma digit_val_hex c :
  is_hex_lower c = true -> exists d, digit_val c = Some d /\ 0 <= d < 16.
Proof.
  unfold is_hex_lower, digit_val, is_digit. intros H.
  destruct ((48 <=? code c) && (code c <=? 57)) eqn:E; simpl in H;
    [|rewrite H]; rewrite !andb_true_iff, !Z.leb_le in *; eexists; split; done || lia.
Qed.

(** Digits are ordered as characters. *)
Lemma digit_val_compare c1 c2 d1 d2 :
  is_hex_lower c1 = true -> is_hex_lower c2 = true ->
  digit_val c1 = Some d1 -> digit_val c2 = Some d2 -> Ascii.compare c1 c2 = (d1 ?= d2).
Proof.
  intros H1 H2 E1 E2.
  assert (Ascii.compare c1 c2 = (code c1 ?= code c2)) as ->.
  { unfold Ascii.compare, code. by rewrite N2Z.inj_compare. }
  unfold is_hex_lower, digit_val, is_digit in *.
  destruct ((48 <=? code c1) && (code c1 <=? 57)) eqn:F1; simpl in H1; [|rewrite H1 in E1];
  destruct ((48 <=? code c2) && (code c2 <=? 57)) eqn:F2; simpl in H2; try rewrite H2 in E2;
  rewrite !andb_true_iff, !Z.leb_le in *; injection E1 as <-; injection E2 as <-;
  match goal with |- (?a ?= ?b) = (?c ?= ?d) => destruct (Z.compare_spec a b), (Z.compare_spec c d) end;
  done || lia.
Qed.

(** Lower-case hexadecimal texts of one length are ordered as the numbers they write. *)
Lemma hex_compare s t m n :
  String.length s = String.length t ->
  all_chars is_hex_lower s = true -> all_chars is_hex_lower t = true ->
  value_go 16 s 0 = Some m -> value_go 16 t 0 = Some n -> String.compare s t = (m ?= n).
Proof.
  revert t m n; induction s as [|c s IH]; intros [|d t] m n Hl Hs Ht Hm Hn; try done.
  { simpl in *. simplify_eq. done. }
  cbn [all_chars] in Hs, Ht. apply andb_true_iff in Hs as [Hc Hs]. apply andb_true_iff in Ht as [Hd Ht].
  injection Hl as Hl. destruct (digit_val_hex c Hc) as (x & Ex & Hx).
  destruct (digit_val_hex d Hd) as (y & Ey & Hy). cbn [value_go] in Hm, Hn. rewrite Ex in Hm.
  rewrite Ey in Hn. destruct (Z.ltb_spec x 16), (Z.ltb_spec y 16); try lia.
  destruct (value_go_shift 16 is_hex_lower s (0 * 16 + x) digit_val_hex Hs) as (v & Hv & Hvb & Hv').
  destruct (value_go_shift 16 is_hex_lower t (0 * 16 + y) digit_val_hex Ht) as (w & Hw & Hwb & Hw').
  rewrite Hm in Hv'. rewrite Hn in Hw'. injection Hv' as ->. injection Hw' as ->. rewrite <- Hl in *.
  cbn [String.compare]. rewrite (digit_val_compare c d x y) by done. rewrite (IH t v w) by done.
  pose proof (Z.pow_pos_nonneg 16 (Z.of_nat (String.length s))).
  destruct (Z.compare_spec x y) as [->| |].
  - destruct (Z.compare_spec v w), (Z.compare_spec ((0*16+y) * 16 ^ Z.of_nat (String.length s) + v)
      ((0*16+y) * 16 ^ Z.of_nat (String.length s) + w)); done || lia.
  - symmetry. apply Z.compare_lt_iff. nia.
  - symmetry. apply Z.compare_gt_iff. nia.
Qed.

(** *** A writing of positives as binary digits, for concrete instances *)

Fixpoint pos_bits (p : positive) : string :=
  match p with
  | xH => EmptyString
  | xO p' => String "0" (pos_bits p')
  | xI p' => String "1" (pos_bits p')
  end.

Lemma pos_bits_hex p : all_chars is_hex_lower (pos_bits p) = true.
Proof. by induction p. Qed.

Lemma pos_bits_inj p q : pos_bits p = pos_bits q -> p = q.
Proof. revert q; induction p; intros [q|q|] H; simpl in H; try done; injection H as H; f_equal; auto. Qed.

(** ** Addresses *)

(** A 20-byte address in hexadecimal, and the number it is. *)
Definition address_text (a : string) : Prop :=
  exists t, to_lower a = "0x" ++ t /\ String.length t = 40%nat /\ all_chars is_hex_lower t = true.

Definition address_value (a : string) : Z :=
  match to_lower a with
  | String _ (String _ t) => default 0 (value_go 16 t 0)
  | _ => 0
  end.
