(* ===== verification/JsNumber.v ===== *)
(** * JavaScript numbers

    IEEE-754 binary64 values with the conversions and the comparisons that the
    TypeScript sources use: [Number(x)] on strings, [Number.isSafeInteger],
    [Math.round], [BigInt(n)], the relational operators and [String(n)].  Values
    are the Standard Library's [spec_float]; arithmetic rounds to nearest even
    through its [binary_round_aux]. *)

From S2P Require Import Prelude JsString.
From Stdlib Require Import SpecFloat Ascii String.
Open Scope string_scope.
Open Scope Z_scope.

Abbreviation num := spec_float.

Definition num_nan : num := S754_nan.
Definition num_zero : num := S754_zero false.

(** ** Rounding exact values *)

Definition num_of_Z (z : Z) : num := binary_normalize 53 1024 z 0 false.

(** The double closest to [p / q], both positive. *)
Definition num_of_ratio (s : bool) (p q : positive) : num :=
  let '(mz, ez, lz) := SFdiv_core_binary 53 1024 (Zpos p) 0 (Zpos q) 0 in
  binary_round_aux 53 1024 s mz ez lz.

(** The double closest to [m * 10 ^ e]. *)
Definition num_of_decimal (s : bool) (m e : Z) : num :=
  match m with
  | Zpos p =>
    if 0 <=? e then num_of_ratio s (Z.to_pos (m * 10 ^ e)) 1
    else num_of_ratio s p (Z.to_pos (10 ^ (- e)))
  | _ => S754_zero s
  end.

(** ** Exact views *)

(** A finite value as [m * 2 ^ e]. *)
Definition num_parts (x : num) : option (Z * Z) :=
  match x with
  | S754_zero _ => Some (0, 0)
  | S754_finite s m e => Some ((if s then Zneg m else Zpos m), e)
  | _ => None
  end.

(** The integer a number is, when it is one. *)
Definition num_integral (x : num) : option Z :=
  match num_parts x with
  | Some (m, e) =>
    if 0 <=? e then Some (m * 2 ^ e)
    else if m mod 2 ^ (- e) =? 0 then Some (m / 2 ^ (- e)) else None
  | None => None
  end.

(** [BigInt(n)]: [None] is the [RangeError]. *)
Definition bigint_of_num : num -> option Z := num_integral.

Definition is_finite (x : num) : bool :=
  match num_parts x with Some _ => true | None => false end.

Definition max_safe_integer : Z := 2 ^ 53 - 1.

(** [Number.isSafeInteger(x)] *)
Definition is_safe_integer (x : num) : bool :=
  match num_integral x with Some z => Z.abs z <=? max_safe_integer | None => false end.

(** ** Comparison *)

Definition cmp_parts (a b : Z * Z) : comparison :=
  let e := Z.min (snd a) (snd b) in
  Z.compare (fst a * 2 ^ (snd a - e)) (fst b * 2 ^ (snd b - e)).

(** The order of the values; [None] when one is NaN. *)
Definition num_cmp (x y : num) : option comparison :=
  match x, y with
  | S754_nan, _ | _, S754_nan => None
  | S754_infinity s, S754_infinity t =>
    Some (if Bool.eqb s t then Eq else if s then Lt else Gt)
  | S754_infinity s, _ => Some (if s then Lt else Gt)
  | _, S754_infinity t => Some (if t then Gt else Lt)
  | _, _ =>
    match num_parts x, num_parts y with
    | Some a, Some b => Some (cmp_parts a b)
    | _, _ => None
    end
  end.

Definition num_ltb (x y : num) : bool :=
  match num_cmp x y with Some Lt => true | _ => false end.
Definition num_leb (x y : num) : bool :=
  match num_cmp x y with Some Lt | Some Eq => true | _ => false end.
Definition num_eqb (x y : num) : bool :=
  match num_cmp x y with Some Eq => true | _ => false end.

Definition num_mul (x y : num) : num := SFmul 53 1024 x y.
Definition num_add (x y : num) : num := SFadd 53 1024 x y.
Definition num_sub (x y : num) : num := SFsub 53 1024 x y.
Definition num_div (x y : num) : num := SFdiv 53 1024 x y.

(** [Math.max], [Math.min] (arguments that are not NaN). *)
Definition num_max (x y : num) : num := if num_ltb x y then y else x.
Definition num_min (x y : num) : num := if num_ltb y x then y else x.

(** [Math.round(x)]: the closest integer, ties towards plus infinity. *)
Definition num_round (x : num) : num :=
  match x with
  | S754_finite s m e =>
    if 0 <=? e then x
    else let z := if s then Zneg m else Zpos m in
         let r := (2 * z + 2 ^ (- e)) / (2 * 2 ^ (- e)) in
         if r =? 0 then S754_zero s else S754_finite (r <? 0) (Z.to_pos (Z.abs r)) 0
  | _ => x
  end.

(** [Math.floor(x)] *)
Definition num_floor (x : num) : num :=
  match x with
  | S754_finite s m e =>
    if 0 <=? e then x
    else let r := (if s then Zneg m else Zpos m) / 2 ^ (- e) in
         if r =? 0 then S754_zero s else S754_finite (r <? 0) (Z.to_pos (Z.abs r)) 0
  | _ => x
  end.

(** ** [Number(s)] on strings *)

Fixpoint span_digits (s : string) : string * string :=
  match s with
  | String c r =>
    if is_digit c then let '(d, t) := span_digits r in (String c d, t) else ("", s)
  | EmptyString => ("", s)
  end.

Definition dec_value (s : string) : Z :=
  match value_go 10 s 0 with Some z => z | None => 0 end.

(** The exponent part: [None] when the text is not one. *)
Definition parse_exponent (s : string) : option Z :=
  match s with
  | EmptyString => Some 0
  | String c r =>
    if Ascii.eqb c "e" || Ascii.eqb c "E" then
      let '(sg, r) := match r with
                      | String "-" r' => (-1, r') | String "+" r' => (1, r') | _ => (1, r)
                      end in
      let '(d, t) := span_digits r in
      if str_nonempty d && negb (str_nonempty t) then Some (sg * dec_value d) else None
    else None
  end.

(** A StrUnsignedDecimalLiteral other than Infinity, as [m * 10 ^ e]. *)
Definition parse_decimal (s : string) : option (Z * Z) :=
  let '(i, r) := span_digits s in
  let '(f, r) := match r with String "." r' => span_digits r' | _ => ("", r) end in
  if str_nonempty i || str_nonempty f then
    match parse_exponent r with
    | Some e => Some (dec_value (i ++ f), e - Z.of_nat (String.length f))
    | None => None
    end
  else None.

Definition num_of_radix (base : Z) (s : string) : num :=
  match digits_value base s with
  | Some z => num_of_decimal false z 0
  | None => num_nan
  end.

Definition signed_decimal (neg : bool) (s : string) : num :=
  if String.eqb s "Infinity" then S754_infinity neg
  else match parse_decimal s with
  | Some (m, e) => num_of_decimal neg m e
  | None => num_nan
  end.

Definition num_of_string (s : string) : num :=
  match trim s with
  | EmptyString => num_zero
  | String a r as t =>
    match r with
    | String b r' =>
      if Ascii.eqb a "0" && (Ascii.eqb b "x" || Ascii.eqb b "X") then num_of_radix 16 r'
      else if Ascii.eqb a "0" && (Ascii.eqb b "o" || Ascii.eqb b "O") then num_of_radix 8 r'
      else if Ascii.eqb a "0" && (Ascii.eqb b "b" || Ascii.eqb b "B") then num_of_radix 2 r'
      else if Ascii.eqb a "-" then signed_decimal true r
      else if Ascii.eqb a "+" then signed_decimal false r
      else signed_decimal false t
    | EmptyString => signed_decimal false t
    end
  end.

(** ** [String(n)] (Number::toString) *)

(** The value as an exact fraction [p / q]. *)
Definition num_frac (m e : Z) : Z * Z :=
  if 0 <=? e then (m * 2 ^ e, 1) else (m, 2 ^ (- e)).

(** The number [n] with [10 ^ (n - 1) <= p / q < 10 ^ n]. *)
Fixpoint dec_exponent (fuel : nat) (p q n : Z) : Z :=
  match fuel with
  | O => n
  | S f =>
    if (if 0 <=? n then q * 10 ^ n <=? p else q <=? p * 10 ^ (- n))
    then dec_exponent f p q (n + 1) else n
  end.

(** [floor (p / q * 10 ^ j)] and whether the next integer is closer. *)
Definition scaled_floor (p q j : Z) : Z * bool :=
  let '(a, b) := if 0 <=? j then (p * 10 ^ j, q) else (p, q * 10 ^ (- j)) in
  (a / b, b <? 2 * (a mod b)).

(** The shortest [s * 10 ^ (n - k)], [s] of [k] digits, that rounds to the value. *)
Fixpoint shortest (fuel : nat) (k p q n : Z) (x : num) : Z * Z * Z :=
  match fuel with
  | O => (0, k, n)
  | S f =>
    let '(lo, up) := scaled_floor p q (k - n) in
    let hit s := num_eqb (num_of_decimal false s (n - k)) x && (10 ^ (k - 1) <=? s) in
    let norm s := if s =? 10 ^ k then (10 ^ (k - 1), k, n + 1) else (s, k, n) in
    let fst_try := if up then lo + 1 else lo in
    let snd_try := if up then lo else lo + 1 in
    if hit fst_try then norm fst_try
    else if hit snd_try then norm snd_try
    else shortest f (k + 1) p q n x
  end.

Definition format_digits (d : string) (k n : Z) : string :=
  if (k <=? n) && (n <=? 21) then d ++ repeat_char (Z.to_nat (n - k)) "0"
  else if (0 <? n) && (n <=? 21) then
    String.substring 0 (Z.to_nat n) d ++ "." ++ String.substring (Z.to_nat n) (Z.to_nat (k - n)) d
  else if (-6 <? n) && (n <=? 0) then "0." ++ repeat_char (Z.to_nat (- n)) "0" ++ d
  else
    let e := (if 0 <=? n - 1 then "e+" else "e-") ++ dec (Z.abs (n - 1)) in
    if k =? 1 then d ++ e
    else String.substring 0 1 d ++ "." ++ String.substring 1 (Z.to_nat (k - 1)) d ++ e.

Definition positive_to_string (m e : Z) : string :=
  let '(p, q) := num_frac m e in
  let n := dec_exponent 700 p q (-330) in
  let '(s, k, n) := shortest 17 1 p q n (S754_finite false (Z.to_pos m) e) in
  format_digits (dec s) k n.

Definition num_to_string (x : num) : string :=
  if is_safe_integer x then match num_integral x with Some z => dec z | None => "" end
  else match x with
  | S754_nan => "NaN"
  | S754_infinity s => if s then "-Infinity" else "Infinity"
  | S754_finite s m e => (if s then "-" else "") ++ positive_to_string (Zpos m) e
  | S754_zero _ => "0"
  end.

(** [x.toFixed(f)]: ties away from zero; from 10 ^ 21 on, [String(x)]. *)
Definition fixed_text (n : Z) (f : nat) : string :=
  let d := pad_start (S f) "0" (dec n) in
  let i := (String.length d - f)%nat in
  match f with O => d | _ => String.substring 0 i d ++ "." ++ String.substring i f d end.

Definition num_to_fixed (x : num) (f : nat) : string :=
  match x with
  | S754_finite s m e =>
    let '(p, q) := num_frac (Zpos m) e in
    if 10 ^ 21 * q <=? p then num_to_string x
    else (if s then "-" else "") ++ fixed_text ((2 * p * 10 ^ Z.of_nat f + q) / (2 * q)) f
  | S754_zero _ => fixed_text 0 f
  | _ => num_to_string x
  end.

(** [Number.parseInt(s, 10)]; [None] is NaN. *)
Definition parse_int (s : string) : option Z :=
  let t := ltrim s in
  let '(neg, u) := match t with
                   | String "-" r => (true, r) | String "+" r => (false, r) | _ => (false, t)
                   end in
  let '(d, _) := span_digits u in
  if str_nonempty d then Some (if (neg : bool) then - dec_value d else dec_value d) else None.

(** ** Lemmas *)

Lemma digits2_pos_bounds m :
  2 ^ (Zpos (digits2_pos m) - 1) <= Zpos m < 2 ^ Zpos (digits2_pos m).
Proof.
  induction m as [m IH|m IH|]; cbn [digits2_pos]; [| |simpl; lia];
    rewrite Pos2Z.inj_succ;
    replace (Z.succ (Zpos (digits2_pos m)) - 1) with (Zpos (digits2_pos m)) by lia;
    rewrite Z.pow_succ_r by lia;
    replace (Zpos (digits2_pos m)) with (Z.succ (Zpos (digits2_pos m) - 1)) at 1 by lia;
    rewrite Z.pow_succ_r by lia; lia.
Qed.

Lemma iter_xO_value m k : Zpos (Pos.iter xO m k) = Zpos m * 2 ^ Zpos k.
Proof.
  induction k as [|k IH] using Pos.peano_ind; [simpl; lia|].
  rewrite Pos.iter_succ, Pos2Z.inj_xO, IH, Pos2Z.inj_succ, Z.pow_succ_r by lia. ring.
Qed.

Lemma iter_xO_digits m k :
  Zpos (digits2_pos (Pos.iter xO m k)) = Zpos (digits2_pos m) + Zpos k.
Proof.
  induction k as [|k IH] using Pos.peano_ind; [simpl; lia|].
  rewrite Pos.iter_succ. cbn [digits2_pos]. rewrite Pos2Z.inj_succ. lia.
Qed.

(** A mantissa of exactly 53 digits, or fewer with exponent 0, is not rounded. *)
Lemma round_aux_exact s m e :
  fexp 53 1024 (Zpos (digits2_pos m) + e) = e -> e <= 971 ->
  binary_round_aux 53 1024 s (Zpos m) e loc_Exact = S754_finite s m e.
Proof.
  intros He Hle. unfold binary_round_aux, shr_fexp. cbn [Zdigits2]. rewrite He, Z.sub_diag.
  cbn [shr shr_record_of_loc shr_m loc_of_shr_record round_nearest_even Zdigits2].
  rewrite He, Z.sub_diag. cbn [shr shr_record_of_loc shr_m].
  change (1024 - 53) with 971. by destruct (Z.leb_spec e 971); [|lia].
Qed.

Lemma digits2_pos_le m k : 0 <= k -> Zpos m < 2 ^ k -> Zpos (digits2_pos m) <= k.
Proof.
  intros Hk Hm. pose proof (digits2_pos_bounds m) as [Hlo _].
  destruct (Z_le_gt_dec (Zpos (digits2_pos m)) k) as [|Hgt]; [done|].
  assert (2 ^ k <= 2 ^ (Zpos (digits2_pos m) - 1)) by (apply Z.pow_le_mono_r; lia). lia.
Qed.

Lemma binary_round_small s m :
  Zpos m < 2 ^ 53 -> num_integral (binary_round 53 1024 s m 0) = Some (if s then Zneg m else Zpos m).
Proof.
  intros Hm. pose proof (digits2_pos_le m 53 ltac:(lia) Hm) as Hd.
  assert (fexp 53 1024 (Zpos (digits2_pos m) + 0) = Zpos (digits2_pos m) - 53) as Hf.
  { unfold fexp, emin. lia. }
  unfold binary_round. rewrite Hf. unfold shl_align. rewrite Z.sub_0_r.
  destruct (Zpos (digits2_pos m) - 53) as [|k|k] eqn:Hk; [|lia|].
  - rewrite round_aux_exact; [|unfold fexp, emin; lia|lia].
    unfold num_integral. cbn. f_equal. destruct s; lia.
  - rewrite round_aux_exact; [|rewrite iter_xO_digits; unfold fexp, emin; lia|lia].
    unfold num_integral, num_parts. destruct (Z.leb_spec 0 (Zneg k)); [lia|].
    rewrite Pos2Z.opp_neg.
    assert ((if s then Zneg (Pos.iter xO m k) else Zpos (Pos.iter xO m k))
            = (if s then Zneg m else Zpos m) * 2 ^ Zpos k) as ->.
    { pose proof (iter_xO_value m k). destruct s; lia. }
    rewrite Z.mod_mul, Z.div_mul by lia. done.
Qed.

(** Every integer of at most 53 bits is a double, exactly. *)
Lemma num_integral_of_Z z : Z.abs z < 2 ^ 53 -> num_integral (num_of_Z z) = Some z.
Proof.
  intros H. destruct z as [|m|m]; [done| |]; unfold num_of_Z, binary_normalize;
    rewrite binary_round_small by lia; done.
Qed.

Lemma is_safe_integer_spec x :
  is_safe_integer x = true <->
  exists z, num_integral x = Some z /\ Z.abs z <= max_safe_integer.
Proof.
  unfold is_safe_integer. destruct (num_integral x) as [z|].
  - rewrite Z.leb_le. naive_solver.
  - naive_solver.
Qed.

(** Comparing exact views compares the integers. *)
Lemma num_integral_scaled x z m e t :
  num_parts x = Some (m, e) -> num_integral x = Some z -> t <= e -> t <= 0 ->
  m * 2 ^ (e - t) = z * 2 ^ (- t).
Proof.
  intros Hp Hi Hte Ht0. unfold num_integral in Hi. rewrite Hp in Hi.
  destruct (Z.leb_spec 0 e) as [He|He]; simplify_eq.
  - replace (e - t) with (e + - t) by lia. rewrite Z.pow_add_r by lia. ring.
  - destruct (Z.eqb_spec (m mod 2 ^ (- e)) 0) as [Hm|]; simplify_eq.
    assert (0 < 2 ^ (- e)) by (apply Z.pow_pos_nonneg; lia).
    pose proof (Z.div_mod m (2 ^ (- e)) ltac:(lia)) as Hd. rewrite Hm in Hd.
    replace (- t) with ((e - t) + - e) by lia. rewrite Z.pow_add_r by lia.
    rewrite Hd at 1. ring.
Qed.

Lemma compare_scale a b c : 0 < c -> (a * c ?= b * c) = (a ?= b).
Proof.
  intros Hc. destruct (Z.compare_spec a b) as [->|H|H].
  - apply Z.compare_refl.
  - apply Z.compare_lt_iff. by apply Z.mul_lt_mono_pos_r.
  - apply Z.compare_gt_iff. by apply Z.mul_lt_mono_pos_r.
Qed.

Lemma cmp_parts_scale a b t :
  t <= snd a -> t <= snd b ->
  cmp_parts a b = Z.compare (fst a * 2 ^ (snd a - t)) (fst b * 2 ^ (snd b - t)).
Proof.
  intros Ha Hb. unfold cmp_parts. set (e := Z.min (snd a) (snd b)).
  assert (forall k m, e <= k -> m * 2 ^ (k - t) = m * 2 ^ (k - e) * 2 ^ (e - t)) as Hs.
  { intros k m Hk. rewrite <- Z.mul_assoc, <- Z.pow_add_r by lia. do 2 f_equal. lia. }
  rewrite (Hs (snd a) (fst a)), (Hs (snd b) (fst b)) by lia.
  symmetry. apply compare_scale, Z.pow_pos_nonneg; lia.
Qed.

Lemma num_integral_parts x z :
  num_integral x = Some z -> exists p, num_parts x = Some p.
Proof. unfold num_integral. destruct (num_parts x); naive_solver. Qed.

Lemma num_cmp_integral x y a b :
  num_integral x = Some a -> num_integral y = Some b -> num_cmp x y = Some (a ?= b).
Proof.
  intros Hx Hy.
  destruct (num_integral_parts _ _ Hx) as [[mx ex] Hpx].
  destruct (num_integral_parts _ _ Hy) as [[my ey] Hpy].
  assert (num_cmp x y = Some (cmp_parts (mx, ex) (my, ey))) as ->.
  { destruct x, y; simpl in *; simplify_eq; done. }
  f_equal. set (t := Z.min 0 (Z.min ex ey)).
  rewrite (cmp_parts_scale _ _ t) by (simpl; lia). cbn [fst snd].
  rewrite (num_integral_scaled x a mx ex t), (num_integral_scaled y b my ey t) by (done || lia).
  apply compare_scale, Z.pow_pos_nonneg; lia.
Qed.

Lemma num_leb_integral x y a b :
  num_integral x = Some a -> num_integral y = Some b -> num_leb x y = (a <=? b).
Proof.
  intros Hx Hy. unfold num_leb, Z.leb. rewrite (num_cmp_integral x y a b) by done.
  by destruct (a ?= b).
Qed.

Lemma num_ltb_integral x y a b :
  num_integral x = Some a -> num_integral y = Some b -> num_ltb x y = (a <? b).
Proof.
  intros Hx Hy. unfold num_ltb, Z.ltb. rewrite (num_cmp_integral x y a b) by done.
  by destruct (a ?= b).
Qed.

Lemma num_to_string_integral x z :
  num_integral x = Some z -> Z.abs z <= max_safe_integer -> num_to_string x = dec z.
Proof.
  intros Hi Hz. unfold num_to_string.
  assert (is_safe_integer x = true) as -> by (apply is_safe_integer_spec; eauto).
  by rewrite Hi.
Qed.

(** ** Digits *)

Lemma span_digits_spec s d t :
  span_digits s = (d, t) ->
  s = d ++ t /\ all_chars is_digit d = true
  /\ (forall c r, t = String c r -> is_digit c = false).
Proof.
  revert d t; induction s as [|c s IH]; intros d t; cbn [span_digits].
  { intros [= <- <-]. done. }
  destruct (is_digit c) eqn:Hc.
  - destruct (span_digits s) as [d' t'] eqn:E. intros [= <- <-].
    destruct (IH d' t' eq_refl) as (-> & Hd & Ht). cbn [all_chars]. by rewrite Hc.
  - intros [= <- <-]. split_and!; [done|done|]. by intros c' r' [= <- <-].
Qed.

Lemma span_digits_app d t :
  all_chars is_digit d = true -> (forall c r, t = String c r -> is_digit c = false) ->
  span_digits (d ++ t) = (d, t).
Proof.
  intros Hd Ht. induction d as [|c d IH].
  - simpl. destruct t as [|c r]; [done|]. simpl. by rewrite (Ht c r).
  - cbn [all_chars] in Hd. apply andb_true_iff in Hd as [Hc Hd]. simpl. rewrite Hc.
    by rewrite IH.
Qed.

Lemma dec_value_bounds s :
  all_chars is_digit s = true -> 0 <= dec_value s < 10 ^ Z.of_nat (String.length s).
Proof.
  intros H. destruct (value_go_acc s 0 H) as (v & Hv & Hb & _). unfold dec_value. by rewrite Hv.
Qed.

Lemma dec_value_app s t :
  all_chars is_digit s = true -> all_chars is_digit t = true ->
  dec_value (s ++ t) = dec_value s * 10 ^ Z.of_nat (String.length t) + dec_value t.
Proof.
  intros Hs Ht. unfold dec_value at 1 2.
  destruct (value_go_acc s 0 Hs) as (v & Hv & _ & _). rewrite Hv.
  assert (forall acc u, value_go 10 s acc = Some u -> value_go 10 (s ++ t) acc = value_go 10 t u) as Happ.
  { clear. induction s as [|c s IH]; intros acc u H; simpl in *; [by simplify_eq|].
    destruct (digit_val c); [|done]. destruct (z <? 10); [|done]. by apply IH. }
  rewrite (Happ 0 v Hv). destruct (value_go_acc t v Ht) as (w & Hw & _ & ->).
  unfold dec_value. by rewrite Hw.
Qed.

(** *** Sums and differences of integers *)

Lemma iter_pos_iter {A} (f : A -> A) p x : iter_pos f p x = Pos.iter f x p.
Proof.
  revert x; induction p as [p IH|p IH|]; intros x; simpl; [| |done];
    rewrite !IH; [by rewrite <- !Pos.iter_swap|done].
Qed.

Lemma iter_shr_exact m k :
  iter_pos shr_1 k (Build_shr_record (Zpos (Pos.iter xO m k)) false false)
  = Build_shr_record (Zpos m) false false.
Proof.
  rewrite iter_pos_iter. revert m; induction k as [|k IH] using Pos.peano_ind; intros m; [done|].
  rewrite Pos.iter_succ, Pos.iter_succ_r. by rewrite IH.
Qed.

Lemma pos_iter_xO m k : Pos.iter xO m k = Z.to_pos (Zpos m * 2 ^ Zpos k).
Proof. rewrite <- iter_xO_value. done. Qed.

Lemma num_integral_finite s m e d :
  0 < d -> (e <= 0 -> Zpos m = d * 2 ^ (- e)) -> (0 < e -> Zpos m * 2 ^ e = d) ->
  num_integral (S754_finite s m e) = Some (if s then - d else d).
Proof.
  intros Hd Hn Hp. unfold num_integral, num_parts.
  destruct (Z.leb_spec 0 e) as [He|He].
  - destruct (Z.eq_dec e 0) as [->|].
    + rewrite Z.opp_0, Z.pow_0_r, Z.mul_1_r in Hn. rewrite Z.mul_1_r. f_equal. destruct s; lia.
    + f_equal. specialize (Hp ltac:(lia)). destruct s; [|done].
      change (Zneg m) with (- Zpos m). lia.
  - assert ((if s then Zneg m else Zpos m) = (if s then - d else d) * 2 ^ (- e)) as ->.
    { specialize (Hn ltac:(lia)). change (Zneg m) with (- Zpos m). destruct s; lia. }
    rewrite Z.mod_mul, Z.div_mul by (apply Z.pow_nonzero; lia). done.
Qed.

Lemma digits2_pos_unique m k : 2 ^ (k - 1) <= Zpos m < 2 ^ k -> 0 < k -> Zpos (digits2_pos m) = k.
Proof.
  intros [Hlo Hhi] Hk. pose proof (digits2_pos_bounds m) as [Dlo Dhi].
  assert (~ k < Zpos (digits2_pos m)).
  { intros Hc. assert (2 ^ k <= 2 ^ (Zpos (digits2_pos m) - 1)) by (apply Z.pow_le_mono_r; lia). lia. }
  assert (~ Zpos (digits2_pos m) < k).
  { intros Hc. assert (2 ^ Zpos (digits2_pos m) <= 2 ^ (k - 1)) by (apply Z.pow_le_mono_r; lia). lia. }
  lia.
Qed.

(** The binary digits of an integer written [m * 2 ^ e]. *)
Lemma digits2_pos_scaled m e d k :
  0 < d -> 2 ^ (k - 1) <= d < 2 ^ k ->
  (e <= 0 -> Zpos m = d * 2 ^ (- e)) -> (0 < e -> Zpos m * 2 ^ e = d) ->
  Zpos (digits2_pos m) = k - e.
Proof.
  intros Hd Hk Hn Hp. assert (0 < k).
  { destruct (Z_lt_ge_dec 0 k) as [|Hk0]; [done|].
    destruct (Z.eq_dec k 0) as [->|]; [simpl in Hk; lia|]. rewrite (Z.pow_neg_r 2 k) in Hk by lia. lia. }
  destruct (Z_le_gt_dec e 0) as [He|He].
  - apply digits2_pos_unique; [|lia]. rewrite (Hn He).
    replace (k - e - 1) with (k - 1 + - e) by lia.
    replace (k - e) with (k + - e) by lia. rewrite !Z.pow_add_r by lia.
    pose proof (Z.pow_pos_nonneg 2 (- e)). nia.
  - specialize (Hp ltac:(lia)). pose proof (Z.pow_pos_nonneg 2 e ltac:(lia) ltac:(lia)).
    assert (e < k) by (apply Z.pow_lt_mono_r_iff with 2; nia).
    apply digits2_pos_unique; [|lia].
    assert (2 ^ k = 2 ^ (k - e) * 2 ^ e) by (rewrite <- Z.pow_add_r by lia; f_equal; lia).
    assert (2 ^ (k - 1) = 2 ^ (k - e - 1) * 2 ^ e) by (rewrite <- Z.pow_add_r by lia; f_equal; lia).
    nia.
Qed.

(** An integer of [k] digits scaled to 53 digits is not rounded. *)
Lemma round_aux_scaled s m d k :
  0 < d -> 2 ^ (k - 1) <= d < 2 ^ k -> 1 <= k <= 53 -> Zpos m = d * 2 ^ (53 - k) ->
  Zpos (digits2_pos m) = 53
  /\ binary_round_aux 53 1024 s (Zpos m) (k - 53) loc_Exact = S754_finite s m (k - 53).
Proof.
  intros Hd Hk Hkr Hm. assert (Zpos (digits2_pos m) = 53) as Hdig.
  { rewrite (digits2_pos_scaled m (k - 53) d k); [lia|done|done| |].
    - intros _. rewrite Hm. f_equal. f_equal. lia.
    - lia. }
  split; [done|]. apply round_aux_exact; [|lia]. rewrite Hdig. unfold fexp, emin. lia.
Qed.

(** Trailing zeros beyond 53 digits are shifted out. *)
Lemma round_aux_shift s m e n :
  Zpos (digits2_pos m) = 53 -> -1074 <= e + Zpos n <= 971 ->
  binary_round_aux 53 1024 s (Zpos (Pos.iter xO m n)) e loc_Exact = S754_finite s m (e + Zpos n).
Proof.
  intros Hm He. unfold binary_round_aux, shr_fexp. cbn [Zdigits2].
  rewrite iter_xO_digits, Hm.
  assert (fexp 53 1024 (53 + Zpos n + e) - e = Zpos n) as -> by (unfold fexp, emin; lia).
  cbn [shr shr_record_of_loc]. rewrite iter_shr_exact.
  cbn [shr_m loc_of_shr_record round_nearest_even Zdigits2]. rewrite Hm.
  assert (fexp 53 1024 (53 + (e + Zpos n)) - (e + Zpos n) = 0) as -> by (unfold fexp, emin; lia).
  cbn [shr shr_m]. change (1024 - 53) with 971. by destruct (Z.leb_spec (e + Zpos n) 971); [|lia].
Qed.

(** The value [m * 2 ^ e], when it is a small integer, is not rounded. *)
Lemma binary_round_integral s m e d :
  0 < d < 2 ^ 53 -> (e <= 0 -> Zpos m = d * 2 ^ (- e)) -> (0 < e -> Zpos m * 2 ^ e = d) ->
  num_integral (binary_round 53 1024 s m e) = Some (if s then - d else d).
Proof.
  intros [Hd0 Hd] Hn Hp. set (k := Zpos (digits2_pos (Z.to_pos d))).
  assert (2 ^ (k - 1) <= d < 2 ^ k) as Hk.
  { pose proof (digits2_pos_bounds (Z.to_pos d)). rewrite Z2Pos.id in * by done. done. }
  assert (1 <= k <= 53) as Hkr.
  { split; [unfold k; lia|]. apply digits2_pos_le; [lia|]. by rewrite Z2Pos.id. }
  assert (forall m', Zpos m' = d * 2 ^ (53 - k) ->
            num_integral (S754_finite s m' (k - 53)) = Some (if s then - d else d)) as Hval.
  { intros m' Hm'. apply num_integral_finite; [lia| |lia].
    intros _. rewrite Hm'. f_equal. f_equal. lia. }
  pose proof (digits2_pos_scaled m e d k Hd0 Hk Hn Hp) as Hdig.
  unfold binary_round. rewrite Hdig.
  assert (fexp 53 1024 (k - e + e) = k - 53) as -> by (unfold fexp, emin; lia).
  unfold shl_align. destruct (k - 53 - e) as [|n|n] eqn:En.
  - assert (e = k - 53) as -> by lia. assert (Zpos m = d * 2 ^ (53 - k)) as Hm.
    { rewrite Hn by lia. f_equal. f_equal. lia. }
    rewrite (proj2 (round_aux_scaled s m d k Hd0 Hk Hkr Hm)). by apply Hval.
  - set (m' := Z.to_pos (d * 2 ^ (53 - k))).
    assert (Zpos m' = d * 2 ^ (53 - k)) as Hm'.
    { unfold m'. apply Z2Pos.id. apply Z.mul_pos_pos; [lia|apply Z.pow_pos_nonneg; lia]. }
    assert (m = Pos.iter xO m' n) as ->.
    { apply (inj Zpos). rewrite iter_xO_value, Hm', <- Z.mul_assoc, <- Z.pow_add_r by lia.
      rewrite Hn by lia. f_equal. f_equal. lia. }
    rewrite round_aux_shift; [|by apply (round_aux_scaled s m' d k)|lia].
    replace (e + Zpos n) with (k - 53) by lia. by apply Hval.
  - assert (Zpos (Pos.iter xO m n) = d * 2 ^ (53 - k)) as Hm'.
    { rewrite iter_xO_value. destruct (Z_le_gt_dec e 0);
        [rewrite Hn by lia|rewrite <- Hp by lia];
        rewrite <- Z.mul_assoc, <- Z.pow_add_r by lia; f_equal; f_equal; lia. }
    rewrite (proj2 (round_aux_scaled s _ d k Hd0 Hk Hkr Hm')). by apply Hval.
Qed.

Lemma binary_normalize_integral M e d :
  Z.abs d < 2 ^ 53 -> (e <= 0 -> M = d * 2 ^ (- e)) -> (0 < e -> M * 2 ^ e = d) ->
  num_integral (binary_normalize 53 1024 M e false) = Some d.
Proof.
  intros Hd Hn Hp.
  assert (0 < 2 ^ Z.abs e) as He by (apply Z.pow_pos_nonneg; lia).
  destruct M as [|m|m]; unfold binary_normalize.
  - assert (d = 0) as ->; [|done].
    destruct (Z_le_gt_dec e 0); [|specialize (Hp ltac:(lia)); lia].
    specialize (Hn ltac:(lia)). replace (- e) with (Z.abs e) in Hn by lia. nia.
  - rewrite (binary_round_integral false m e d); [done| |done|done].
    destruct (Z_le_gt_dec e 0); [specialize (Hn ltac:(lia))|specialize (Hp ltac:(lia))];
      [replace (- e) with (Z.abs e) in Hn by lia|replace e with (Z.abs e) in Hp by lia]; nia.
  - rewrite (binary_round_integral true m e (- d)); [f_equal; lia| | |].
    + destruct (Z_le_gt_dec e 0); [specialize (Hn ltac:(lia))|specialize (Hp ltac:(lia))];
      [replace (- e) with (Z.abs e) in Hn by lia|replace e with (Z.abs e) in Hp by lia]; nia.
    + intros H. specialize (Hn H). lia.
    + intros H. specialize (Hp H). lia.
Qed.

(** The mantissa of a finite value at a lower exponent. *)
Lemma shl_align_value m e e' :
  e' <= e -> Zpos (fst (shl_align m e e')) = Zpos m * 2 ^ (e - e').
Proof.
  intros H. unfold shl_align. destruct (e' - e) as [|n|n] eqn:En; [|lia|].
  - replace (e - e') with 0 by lia. simpl. lia.
  - simpl. rewrite iter_xO_value. f_equal. f_equal. lia.
Qed.

(** A number that is an integer, at an exponent not above its own. *)
Lemma num_integral_at s m e e' a :
  num_integral (S754_finite s m e) = Some a -> e' <= e ->
  let M := cond_Zopp s (Zpos (fst (shl_align m e e'))) in
  (e' <= 0 -> M = a * 2 ^ (- e')) /\ (0 < e' -> M * 2 ^ e' = a).
Proof.
  intros Ha He M.
  assert (M = (if s then Zneg m else Zpos m) * 2 ^ (e - e')) as HM.
  { unfold M. pose proof (shl_align_value m e e' He) as Hv. rewrite Hv. destruct s; simpl; lia. }
  unfold num_integral, num_parts in Ha. set (z := if s then Zneg m else Zpos m) in *. rewrite HM.
  destruct (Z.leb_spec 0 e) as [H0|H0].
  - simplify_eq. split; intros.
    + rewrite <- Z.mul_assoc, <- Z.pow_add_r by lia.
      apply (f_equal (fun x => z * 2 ^ x)). lia.
    + rewrite <- Z.mul_assoc, <- Z.pow_add_r by lia.
      apply (f_equal (fun x => z * 2 ^ x)). lia.
  - destruct (Z.eqb_spec (z mod 2 ^ (- e)) 0) as [Hm|]; [|done]. simplify_eq. split; intros; [|lia].
    apply Z.div_exact in Hm; [|apply Z.pow_nonzero; lia]. rewrite Hm at 1.
    replace (2 ^ (- e')) with (2 ^ (- e) * 2 ^ (e - e')) by (rewrite <- Z.pow_add_r by lia; f_equal; lia).
    ring.
Qed.

Lemma num_sub_integral x y a b :
  num_integral x = Some a -> num_integral y = Some b -> Z.abs (a - b) < 2 ^ 53 ->
  num_integral (num_sub x y) = Some (a - b).
Proof.
  intros Hx Hy Hab. unfold num_sub, SFsub.
  destruct x as [sx|sx| |sx mx ex], y as [sy|sy| |sy my ey]; try done.
  - injection Hx as <-. injection Hy as <-. by destruct sx, sy.
  - injection Hx as <-. revert Hy. unfold num_integral, num_parts.
    destruct (0 <=? ey); [intros [= <-]; destruct sy; f_equal; simpl; lia|].
    change (Zneg my) with (- Zpos my). destruct (Z.eqb_spec ((if sy then - Zpos my else Zpos my) mod 2 ^ (- ey)) 0)
      as [Hm|]; [|done]. intros [= <-].
    assert (Zpos my mod 2 ^ (- ey) = 0) as Hm'.
    { destruct sy; [|done]. rewrite <- (Z.opp_involutive (Zpos my)). by apply Z_mod_zero_opp_full. }
    destruct sy; simpl negb; cbv iota; change (Zneg my) with (- Zpos my).
    + rewrite Hm', Z.eqb_refl. f_equal. rewrite Z_div_zero_opp_full by done. lia.
    + rewrite Z_mod_zero_opp_full, Z.eqb_refl by done. f_equal.
      rewrite Z_div_zero_opp_full by done. lia.
  - injection Hy as <-. by rewrite Z.sub_0_r.
  - set (ez := Z.min ex ey).
    destruct (num_integral_at sx mx ex ez a Hx ltac:(lia)) as [Hx1 Hx2].
    destruct (num_integral_at sy my ey ez b Hy ltac:(lia)) as [Hy1 Hy2].
    apply binary_normalize_integral; [done|intros; rewrite Hx1, Hy1 by done; ring|].
    intros. rewrite Z.mul_sub_distr_r, Hx2, Hy2 by done. done.
Qed.

Lemma num_add_integral x y a b :
  num_integral x = Some a -> num_integral y = Some b -> Z.abs (a + b) < 2 ^ 53 ->
  num_integral (num_add x y) = Some (a + b).
Proof.
  intros Hx Hy Hab. unfold num_add, SFadd.
  destruct x as [sx|sx| |sx mx ex], y as [sy|sy| |sy my ey]; try done.
  - injection Hx as <-. injection Hy as <-. by destruct sx, sy.
  - injection Hx as <-. done.
  - injection Hy as <-. by rewrite Z.add_0_r.
  - set (ez := Z.min ex ey).
    destruct (num_integral_at sx mx ex ez a Hx ltac:(lia)) as [Hx1 Hx2].
    destruct (num_integral_at sy my ey ez b Hy ltac:(lia)) as [Hy1 Hy2].
    apply binary_normalize_integral; [done|intros; rewrite Hx1, Hy1 by done; ring|].
    intros. rewrite Z.mul_add_distr_r, Hx2, Hy2 by done. done.
Qed.

(** ** Not a number *)

Lemma shr_1_nonneg r : 0 <= shr_m r -> 0 <= shr_m (shr_1 r).
Proof. destruct r as [m b s]. destruct m as [|[p|p|]|p]; simpl; lia. Qed.

Lemma iter_shr_nonneg n r : 0 <= shr_m r -> 0 <= shr_m (iter_pos shr_1 n r).
Proof.
  revert r; induction n as [n IH|n IH|]; intros r H; cbn [iter_pos].
  - by apply IH, IH, shr_1_nonneg.
  - by apply IH, IH.
  - by apply shr_1_nonneg.
Qed.

Lemma shr_fexp_nonneg m e l : 0 <= m -> 0 <= shr_m (fst (shr_fexp 53 1024 m e l)).
Proof.
  intros H. unfold shr_fexp, shr.
  assert (0 <= shr_m (shr_record_of_loc m l)) by (destruct l as [|[]]; done).
  destruct (_ - _); simpl; [done|by apply iter_shr_nonneg|done].
Qed.

(** Rounding a magnitude gives a number, never NaN. *)
Lemma round_aux_not_nan s m e l : 0 <= m -> binary_round_aux 53 1024 s m e l <> S754_nan.
Proof.
  intros H. unfold binary_round_aux.
  pose proof (shr_fexp_nonneg m e l H) as H1. destruct (shr_fexp 53 1024 m e l) as [r e'].
  simpl in H1.
  assert (0 <= round_nearest_even (shr_m r) (loc_of_shr_record r)) as H2.
  { destruct (loc_of_shr_record r) as [|[]]; simpl; try (destruct (Z.even _)); lia. }
  pose proof (shr_fexp_nonneg _ e' loc_Exact H2) as H3.
  destruct (shr_fexp 53 1024 _ e' loc_Exact) as [r' e'']. simpl in H3.
  destruct (shr_m r'); [done|by destruct (_ <=? _)|lia].
Qed.

Lemma binary_normalize_not_nan m e s : binary_normalize 53 1024 m e s <> S754_nan.
Proof.
  destruct m as [|m|m]; [done| |]; unfold binary_normalize, binary_round;
    destruct (shl_align _ _ _); by apply round_aux_not_nan.
Qed.

Lemma is_finite_not_nan x : is_finite x = true -> x <> num_nan.
Proof. by intros H ->. Qed.

Lemma num_mul_not_nan x y :
  x <> num_nan -> is_finite y = true -> num_eqb y num_zero = false -> num_mul x y <> num_nan.
Proof.
  intros Hx Hy Hz. unfold num_mul.
  destruct x as [s|s| |s m e], y as [t|t| |t n f]; try done; by apply round_aux_not_nan.
Qed.

Lemma num_add_not_nan x y : x <> num_nan -> is_finite y = true -> num_add x y <> num_nan.
Proof.
  intros Hx Hy. unfold num_add.
  destruct x as [[]|s| |s m e], y as [[]|t| |t n f]; try done; apply binary_normalize_not_nan.
Qed.

Lemma num_sub_not_nan x y : is_finite x = true -> is_finite y = true -> num_sub x y <> num_nan.
Proof.
  intros Hx Hy. unfold num_sub.
  destruct x as [[]|s| |s m e], y as [[]|t| |t n f]; try done; apply binary_normalize_not_nan.
Qed.

Lemma num_div_not_nan x y :
  x <> num_nan -> is_finite y = true -> num_eqb y num_zero = false -> num_div x y <> num_nan.
Proof.
  intros Hx Hy Hz. unfold num_div.
  destruct x as [s|s| |s m e], y as [t|t| |t n f]; try done; [].
  unfold SFdiv. destruct (SFdiv_core_binary 53 1024 (Zpos m) e (Zpos n) f) as [[q e'] l] eqn:E.
  apply round_aux_not_nan. unfold SFdiv_core_binary in E. cbv zeta in E.
  destruct (e - f - _) as [|k|k] in E;
    match type of E with context [Z.div_eucl ?a ?b] =>
      assert (0 <= a) by (done || by apply Z.shiftl_nonneg);
      pose proof (Z_div_mod a b ltac:(lia)) as Hd; destruct (Z.div_eucl a b) as [q' r]
    end; injection E as <- _ _; nia.
Qed.

(** Dividing by one rounds like the integer itself. *)
Lemma num_of_ratio_1 s p :
  Zpos p < 2 ^ 53 -> num_of_ratio s p 1 = binary_round 53 1024 s p 0.
Proof.
  intros Hp. pose proof (digits2_pos_le p 53 ltac:(lia) Hp) as Hd.
  unfold num_of_ratio, SFdiv_core_binary. cbn [Zdigits2 digits2_pos].
  set (D := Zpos (digits2_pos p)) in *. assert (1 <= D) by (unfold D; lia).
  assert (fexp 53 1024 (D + 0 - (1 + 0)) = D - 54) as -> by (unfold fexp, emin; lia).
  rewrite Z.min_l by lia. replace (0 - 0 - (D - 54)) with (54 - D) by lia.
  assert (exists m, Zpos m = Zpos p * 2 ^ (53 - D) /\ binary_round 53 1024 s p 0 = S754_finite s m (D - 53)
                    /\ Zpos (digits2_pos m) = 53) as (m & Hm & -> & Hm53).
  { assert (fexp 53 1024 (Zpos (digits2_pos p) + 0) = D - 53) as Hf by (fold D; unfold fexp, emin; lia).
    unfold binary_round. rewrite Hf. unfold shl_align. rewrite Z.sub_0_r.
    destruct (D - 53) as [|k|k] eqn:Hk; [|lia|].
    - exists p. replace (53 - D) with 0 by lia. cbv beta iota zeta. rewrite round_aux_exact; [|unfold fexp, emin; lia|lia].
      split; [lia|]. split; [done|]. fold D. lia.
    - exists (Pos.iter xO p k). replace (53 - D) with (Zpos k) by lia. cbv beta iota zeta.
      rewrite round_aux_exact; [|rewrite iter_xO_digits; unfold fexp, emin; lia|lia].
      split; [apply iter_xO_value|]. split; [done|]. rewrite iter_xO_digits. fold D. lia. }
  destruct (54 - D) as [|n|n] eqn:Hn; [lia| |lia].
  assert (Z.shiftl (Zpos p) (Zpos n) = Zpos (Pos.iter xO m 1)) as ->.
  { rewrite Z.shiftl_mul_pow2 by lia. rewrite iter_xO_value, Hm, <- Z.mul_assoc, <- Z.pow_add_r by lia.
    do 2 f_equal. lia. }
  pose proof (Z_div_mod (Zpos (Pos.iter xO m 1)) 1 ltac:(lia)) as Hdm.
  destruct (Z.div_eucl _ 1) as [q r]. destruct Hdm as [Hq Hr]. assert (r = 0) as -> by lia.
  assert (q = Zpos (Pos.iter xO m 1)) as -> by lia.
  change (new_location 1 0) with loc_Exact. rewrite round_aux_shift by (done || lia). f_equal. lia.
Qed.

(** [Number] reads the decimal writing of a 53-bit integer back. *)
Lemma num_of_string_dec n : 0 <= n < 2 ^ 53 -> num_of_string (dec n) = num_of_Z n.
Proof.
  intros Hn. pose proof (dec_all_digits n ltac:(lia)) as Hd. pose proof (dec_nonempty n ltac:(lia)) as Hne.
  pose proof (digits_value_Z_to_string 10 n ltac:(lia) ltac:(lia)) as Hv. fold (dec n) in Hv.
  unfold digits_value in Hv. rewrite Hne in Hv.
  assert (signed_decimal false (dec n) = num_of_Z n) as Hs.
  { unfold signed_decimal. destruct (String.eqb_spec (dec n) "Infinity") as [E|_]; [by rewrite E in Hd|].
    unfold parse_decimal. rewrite <- (app_empty_r (dec n)), span_digits_app by done.
    rewrite Hne. cbn [orb parse_exponent]. unfold dec_value. rewrite app_empty_r, Hv.
    change (0 - Z.of_nat (String.length "")) with 0. unfold num_of_decimal.
    destruct n as [|p|p]; [done| |lia]. cbn [Z.leb Z.compare]. change (10 ^ 0) with 1. rewrite Z.mul_1_r.
    change (Z.to_pos (Zpos p)) with p. rewrite num_of_ratio_1 by lia. done. }
  unfold num_of_string. rewrite trim_dec by lia.
  destruct (dec n) as [|a [|b r]]; [done|exact Hs|].
  cbn [all_chars] in Hd. apply andb_true_iff in Hd as [Ha Hd]. apply andb_true_iff in Hd as [Hb _].
  rewrite !(digit_neq b), (digit_neq a "-"), (digit_neq a "+") by done.
  rewrite !andb_false_r. exact Hs.
Qed.
