(* ===== verification/JsValue.v ===== *)
(** * JavaScript values, objects and the JSON codec

    The dynamic values that request bodies, gRPC replies and stored JSON hold.
    An object is an association list with one entry per key.  [JsonCodec] is the
    interface of [JSON.parse] / [JSON.stringify] that the storage components are
    proved against; [free_codec] discharges it. *)

From S2P Require Import Prelude JsString JsNumber.
From Stdlib Require Import SpecFloat.
Open Scope string_scope.
Open Scope Z_scope.

Inductive jsval : Type :=
| VUndef
| VNull
| VBool (b : bool)
| VNum (n : num)
| VBig (z : Z)
| VStr (s : string)
| VArr (l : list jsval)
| VObj (o : list (string * jsval)).

Abbreviation obj := (list (string * jsval)).

(** ** Objects *)

(** [o[k]] *)
Fixpoint obj_get (k : string) (o : obj) : jsval :=
  match o with
  | [] => VUndef
  | (k', v) :: o' => if String.eqb k k' then v else obj_get k o'
  end.

(** [k in o] *)
Fixpoint obj_has (k : string) (o : obj) : bool :=
  match o with
  | [] => false
  | (k', _) :: o' => String.eqb k k' || obj_has k o'
  end.

(** [o[k] = v] *)
Fixpoint obj_set (k : string) (v : jsval) (o : obj) : obj :=
  match o with
  | [] => [(k, v)]
  | (k', v') :: o' => if String.eqb k k' then (k', v) :: o' else (k', v') :: obj_set k v o'
  end.

(** [{ ...a, ...b }] *)
Fixpoint obj_spread (a b : obj) : obj :=
  match b with
  | [] => a
  | (k, v) :: b' => obj_spread (obj_set k v a) b'
  end.

(** [v?.k] of any value; only objects have the properties the sources read. *)
Definition get (k : string) (v : jsval) : jsval :=
  match v with VObj o => obj_get k o | _ => VUndef end.

(** One entry per key. *)
Definition obj_wf (o : obj) : Prop := NoDup o.*1.

Lemma obj_get_set k k' v o :
  obj_get k (obj_set k' v o) = if String.eqb k k' then v else obj_get k o.
Proof.
  induction o as [|[k1 v1] o IH]; simpl; [done|].
  destruct (String.eqb_spec k' k1) as [->|Hne]; simpl.
  - by destruct (String.eqb k k1).
  - rewrite IH. destruct (String.eqb_spec k k1) as [->|]; [|done].
    by destruct (String.eqb_spec k1 k').
Qed.

Lemma obj_get_spread k a b :
  obj_wf b -> obj_get k (obj_spread a b) = if obj_has k b then obj_get k b else obj_get k a.
Proof.
  unfold obj_wf. revert a; induction b as [|[k1 v1] b IH]; simpl; intros a Hwf; [done|].
  apply NoDup_cons in Hwf as [Hnin Hwf].
  rewrite IH, obj_get_set by done.
  destruct (String.eqb_spec k k1) as [->|]; [|done]. simpl.
  assert (obj_has k1 b = false) as ->; [|done].
  clear -Hnin. induction b as [|[k2 v2] b IH]; simpl in *; [done|].
  apply not_elem_of_cons in Hnin as [? ?]. rewrite IH by done.
  by destruct (String.eqb_spec k1 k2).
Qed.

Lemma obj_get_missing k o : obj_has k o = false -> obj_get k o = VUndef.
Proof.
  induction o as [|[k1 v1] o IH]; simpl; [done|].
  by destruct (String.eqb k k1).
Qed.

Lemma obj_has_elem k o : obj_has k o = true <-> k ∈ o.*1.
Proof.
  induction o as [|[k1 v1] o IH]; simpl; [set_solver|].
  rewrite elem_of_cons, orb_true_iff, String.eqb_eq, IH. done.
Qed.

Lemma obj_set_wf k v o : obj_wf o -> obj_wf (obj_set k v o).
Proof.
  unfold obj_wf. assert (forall x, x ∈ (obj_set k v o).*1 <-> x = k \/ x ∈ o.*1) as Hin.
  { intros x. induction o as [|[k1 v1] o IH]; simpl; [set_solver|].
    destruct (String.eqb_spec k k1) as [->|]; simpl; set_solver. }
  revert Hin; induction o as [|[k1 v1] o IH]; simpl; intros Hin Hwf; [by repeat constructor; set_solver|].
  apply NoDup_cons in Hwf as [Hnin Hwf].
  destruct (String.eqb_spec k k1) as [->|]; simpl; constructor; auto.
  - assert (forall x, x ∈ (obj_set k v o).*1 <-> x = k \/ x ∈ o.*1) as Hin'.
    { intros x. clear. induction o as [|[k2 v2] o IH]; simpl; [set_solver|].
      destruct (String.eqb_spec k k2) as [->|]; simpl; set_solver. }
    set_solver.
  - apply IH; [|done]. intros x. clear. induction o as [|[k2 v2] o IH]; simpl; [set_solver|].
    destruct (String.eqb_spec k k2) as [->|]; simpl; set_solver.
Qed.

Lemma obj_spread_wf a b : obj_wf a -> obj_wf (obj_spread a b).
Proof.
  revert a; induction b as [|[k v] b IH]; simpl; intros a Ha; [done|].
  by apply IH, obj_set_wf.
Qed.

(** ** Conversions *)

Definition is_str (v : jsval) : bool := match v with VStr _ => true | _ => false end.
Definition is_num (v : jsval) : bool := match v with VNum _ => true | _ => false end.

(** Truthiness. *)
Definition truthy (v : jsval) : bool :=
  match v with
  | VUndef | VNull => false
  | VBool b => b
  | VNum n => match n with S754_zero _ | S754_nan => false | _ => true end
  | VBig z => negb (z =? 0)
  | VStr s => str_nonempty s
  | VArr _ | VObj _ => true
  end.

(** [a ?? b] *)
Definition nullish (a b : jsval) : jsval :=
  match a with VUndef | VNull => b | _ => a end.

Fixpoint join_with (sep : string) (l : list string) : string :=
  match l with
  | [] => ""
  | [s] => s
  | s :: l' => s ++ sep ++ join_with sep l'
  end.

(** [String(v)] *)
Fixpoint to_string (v : jsval) : string :=
  match v with
  | VUndef => "undefined"
  | VNull => "null"
  | VBool b => if b then "true" else "false"
  | VNum n => num_to_string n
  | VBig z => dec z
  | VStr s => s
  | VArr l =>
    join_with "," ((fix go l := match l with
                    | [] => []
                    | e :: l' => match e with VUndef | VNull => "" | _ => to_string e end :: go l'
                    end) l)
  | VObj _ => "[object Object]"
  end.

(** [Number(v)] *)
Definition to_number (v : jsval) : num :=
  match v with
  | VUndef => num_nan
  | VNull => num_zero
  | VBool b => num_of_Z (if b then 1 else 0)
  | VNum n => n
  | VBig z => num_of_Z z
  | VStr s => num_of_string s
  | VArr _ => num_of_string (to_string v)
  | VObj _ => num_nan
  end.

(** ** JSON *)

(** Values [JSON.stringify] accepts: no bigint (it throws on one), and every object
    with one entry per key. *)
Fixpoint json_ok (v : jsval) : bool :=
  match v with
  | VBig _ => false
  | VArr l => (fix go l := match l with [] => true | e :: l' => json_ok e && go l' end) l
  | VObj o =>
    bool_decide (NoDup o.*1) &&
    (fix go o := match o with [] => true | (_, e) :: o' => json_ok e && go o' end) o
  | _ => true
  end.

(** JSON values: moreover nothing undefined, and finite numbers without -0. *)
Fixpoint json_wf (v : jsval) : bool :=
  match v with
  | VUndef | VBig _ => false
  | VNum n => match n with S754_zero s => negb s | S754_finite _ _ _ => true | _ => false end
  | VArr l => (fix go l := match l with [] => true | e :: l' => json_wf e && go l' end) l
  | VObj o =>
    bool_decide (NoDup o.*1) &&
    (fix go o := match o with [] => true | (_, e) :: o' => json_wf e && go o' end) o
  | _ => true
  end.

(** What [JSON.parse(JSON.stringify(v))] is: undefined properties disappear,
    undefined elements and non-finite numbers become null, and -0 becomes 0. *)
Fixpoint json_clean (v : jsval) : jsval :=
  match v with
  | VUndef => VNull
  | VNum n => match n with
              | S754_zero _ => VNum num_zero
              | S754_finite _ _ _ => VNum n
              | _ => VNull
              end
  | VArr l => VArr ((fix go l := match l with [] => [] | e :: l' => json_clean e :: go l' end) l)
  | VObj o => VObj ((fix go o := match o with
                     | [] => []
                     | (k, e) :: o' =>
                       match e with VUndef => go o' | _ => (k, json_clean e) :: go o' end
                     end) o)
  | _ => v
  end.

Fixpoint clean_obj (o : obj) : obj :=
  match o with
  | [] => []
  | (k, e) :: o' => match e with VUndef => clean_obj o' | _ => (k, json_clean e) :: clean_obj o' end
  end.

Lemma json_clean_obj o : json_clean (VObj o) = VObj (clean_obj o).
Proof. reflexivity. Qed.

Lemma json_clean_arr l : json_clean (VArr l) = VArr (json_clean <$> l).
Proof. reflexivity. Qed.

Definition clean_field (v : jsval) : jsval :=
  match v with VUndef => VUndef | _ => json_clean v end.

Lemma obj_get_clean k o : obj_wf o -> obj_get k (clean_obj o) = clean_field (obj_get k o).
Proof.
  unfold obj_wf. induction o as [|[k1 e] o IH]; simpl; intros Hwf; [done|].
  apply NoDup_cons in Hwf as [Hnin Hwf]. specialize (IH Hwf).
  destruct (String.eqb_spec k k1) as [->|Hne].
  - destruct e; simpl; rewrite ?String.eqb_refl; try done.
    rewrite IH. rewrite obj_get_missing; [done|].
    destruct (obj_has k1 o) eqn:E; [|done]. by apply obj_has_elem in E.
  - destruct e; simpl; try (destruct (String.eqb_spec k k1); [done|]); exact IH.
Qed.

Lemma clean_obj_wf o : obj_wf o -> obj_wf (clean_obj o).
Proof.
  unfold obj_wf. assert (forall k, k ∈ (clean_obj o).*1 -> k ∈ o.*1) as Hin.
  { intros k. induction o as [|[k1 e] o IH]; simpl; [done|]. destruct e; set_solver. }
  induction o as [|[k1 e] o IH]; simpl in *; intros Hwf; [done|].
  apply NoDup_cons in Hwf as [Hnin Hwf].
  assert (forall k, k ∈ (clean_obj o).*1 -> k ∈ o.*1) as Hin'.
  { intros k. clear. induction o as [|[k1 e1] o IH]; simpl; [done|]. destruct e1; set_solver. }
  destruct e; simpl; try constructor; auto.
Qed.

(** Induction through the elements of arrays and the properties of objects. *)
Section jsval_induction.
Variable P : jsval -> Prop.
Hypothesis Hundef : P VUndef.
Hypothesis Hnull : P VNull.
Hypothesis Hbool : forall b, P (VBool b).
Hypothesis Hnum : forall n, P (VNum n).
Hypothesis Hbig : forall z, P (VBig z).
Hypothesis Hstr : forall s, P (VStr s).
Hypothesis Harr : forall l, Forall P l -> P (VArr l).
Hypothesis Hobj : forall o, Forall (fun kv => P kv.2) o -> P (VObj o).

Fixpoint jsval_rect_deep (v : jsval) : P v :=
  match v with
  | VUndef => Hundef
  | VNull => Hnull
  | VBool b => Hbool b
  | VNum n => Hnum n
  | VBig z => Hbig z
  | VStr s => Hstr s
  | VArr l => Harr l ((fix go l := match l return Forall P l with
                       | [] => Forall_nil_2 _
                       | e :: l' => Forall_cons_2 _ _ _ (jsval_rect_deep e) (go l')
                       end) l)
  | VObj o => Hobj o ((fix go o := match o return Forall (fun kv => P kv.2) o with
                       | [] => Forall_nil_2 _
                       | kv :: o' => Forall_cons_2 _ _ _ (jsval_rect_deep kv.2) (go o')
                       end) o)
  end.
End jsval_induction.

Lemma json_ok_obj o :
  json_ok (VObj o) = true <-> obj_wf o /\ Forall (fun kv => json_ok kv.2 = true) o.
Proof.
  cbn [json_ok]. rewrite andb_true_iff, bool_decide_eq_true. apply and_iff_compat_l.
  induction o as [|[k e] o IH]; [done|].
  rewrite andb_true_iff, IH, Forall_cons. done.
Qed.

Lemma json_wf_obj o :
  json_wf (VObj o) = true <-> obj_wf o /\ Forall (fun kv => json_wf kv.2 = true) o.
Proof.
  cbn [json_wf]. rewrite andb_true_iff, bool_decide_eq_true. apply and_iff_compat_l.
  induction o as [|[k e] o IH]; [done|].
  rewrite andb_true_iff, IH, Forall_cons. done.
Qed.

Lemma json_ok_arr l : json_ok (VArr l) = true <-> Forall (fun v => json_ok v = true) l.
Proof.
  cbn [json_ok]. induction l as [|e l IH]; [done|]. rewrite andb_true_iff, IH, Forall_cons. done.
Qed.

Lemma json_wf_arr l : json_wf (VArr l) = true <-> Forall (fun v => json_wf v = true) l.
Proof.
  cbn [json_wf]. induction l as [|e l IH]; [done|]. rewrite andb_true_iff, IH, Forall_cons. done.
Qed.

(** A JSON value is what parsing its own text gives back. *)
Lemma json_wf_clean v : json_wf v = true -> json_clean v = v.
Proof.
  induction v as [| | |n| | |l IH|o IH] using jsval_rect_deep; try done.
  - by destruct n as [[]| | |].
  - rewrite json_wf_arr, json_clean_arr. intros Hl. f_equal.
    induction IH as [|e l He _ IH]; [done|].
    apply Forall_cons in Hl as [? ?]. rewrite fmap_cons. f_equal; auto.
  - rewrite json_wf_obj, json_clean_obj. intros [_ Ho]. f_equal.
    induction IH as [|[k e] o He _ IH]; [done|].
    apply Forall_cons in Ho as [Hwf ?]. simpl in *.
    rewrite IH by done. destruct e; try done; by rewrite He by done.
Qed.

Lemma json_wf_ok v : json_wf v = true -> json_ok v = true.
Proof.
  induction v as [| | | | | |l IH|o IH] using jsval_rect_deep; try done.
  - rewrite json_wf_arr, json_ok_arr. intros Hl.
    induction IH; [done|]. apply Forall_cons in Hl as [? ?]. constructor; auto.
  - rewrite json_wf_obj, json_ok_obj. intros [Hk Ho]. split; [done|]. clear Hk.
    induction IH; [done|]. apply Forall_cons in Ho as [? ?]. constructor; auto.
Qed.

(** Cleaning a value that [JSON.stringify] accepts gives a JSON value. *)
Lemma json_clean_wf v : json_ok v = true -> json_wf (json_clean v) = true.
Proof.
  induction v as [| | |n| | |l IH|o IH] using jsval_rect_deep; try done.
  - by destruct n.
  - rewrite json_ok_arr, json_clean_arr, json_wf_arr. intros Hl.
    induction IH; [constructor|]. apply Forall_cons in Hl as [? ?].
    rewrite fmap_cons. constructor; auto.
  - rewrite json_ok_obj, json_clean_obj, json_wf_obj. intros [Hk Ho].
    split; [by apply clean_obj_wf|]. clear Hk.
    induction IH as [|[k e] o He _ IH]; [constructor|].
    apply Forall_cons in Ho as [Hwf ?]. simpl in *.
    destruct e; try (constructor; simpl; auto); auto.
Qed.

Lemma clean_obj_id o : json_wf (VObj o) = true -> clean_obj o = o.
Proof. intros H. apply json_wf_clean in H. rewrite json_clean_obj in H. by injection H. Qed.

Lemma obj_set_Forall (P : jsval -> Prop) k v o :
  P v -> Forall (fun kv => P kv.2) o -> Forall (fun kv => P kv.2) (obj_set k v o).
Proof.
  intros Hv. induction 1 as [|[k1 v1] o H1 ? IH]; simpl in *; [by repeat constructor|].
  destruct (String.eqb k k1); constructor; simpl; auto.
Qed.

Lemma obj_set_ok k v o :
  json_ok v = true -> json_ok (VObj o) = true -> json_ok (VObj (obj_set k v o)) = true.
Proof.
  rewrite !json_ok_obj. intros Hv [Hk Ho]. split; [by apply obj_set_wf|].
  by apply (obj_set_Forall (fun v => json_ok v = true)).
Qed.

Lemma obj_spread_ok a b :
  json_ok (VObj a) = true -> json_ok (VObj b) = true -> json_ok (VObj (obj_spread a b)) = true.
Proof.
  intros Ha Hb. apply json_ok_obj in Hb as [_ Hb]. revert a Ha.
  induction Hb as [|[k v] b Hv _ IH]; simpl; intros a Ha; [done|].
  by apply IH, obj_set_ok.
Qed.

Lemma obj_get_ok k o : json_ok (VObj o) = true -> json_ok (obj_get k o) = true.
Proof.
  rewrite json_ok_obj. intros [_ Ho].
  induction Ho as [|[k1 v1] o H1 _ IH]; simpl; [done|]. by destruct (String.eqb k k1).
Qed.

(** The interface of [JSON.parse] ([None] when it throws) and [JSON.stringify]
    over the stored text [raw].  The empty text is falsy. *)
Class JsonCodec (raw : Type) := {
  json_parse : raw -> option jsval;
  json_stringify : jsval -> raw;
  json_falsy : raw -> bool;
  json_parse_stringify v :
    v <> VUndef -> json_ok v = true -> json_parse (json_stringify v) = Some (json_clean v);
  json_parse_wf r v : json_parse r = Some v -> json_wf v = true;
  json_stringify_truthy v : json_falsy (json_stringify v) = false;
}.

(** Texts up to what [JSON.parse] makes of them: [None], or a value that is not a
    JSON value, is a malformed text. *)
Definition free_parse (r : option jsval) : option jsval :=
  match r with Some v => if json_wf v then Some v else None | None => None end.
Definition free_stringify (v : jsval) : option jsval := Some (json_clean v).

Lemma free_parse_stringify v :
  v <> VUndef -> json_ok v = true -> free_parse (free_stringify v) = Some (json_clean v).
Proof. intros _ H. unfold free_parse, free_stringify. by rewrite json_clean_wf. Qed.

Lemma free_parse_wf r v : free_parse r = Some v -> json_wf v = true.
Proof. unfold free_parse. intros H. repeat case_match; naive_solver. Qed.

#[export] Instance free_codec : JsonCodec (option jsval) := {
  json_parse := free_parse;
  json_stringify := free_stringify;
  json_falsy r := false;
  json_parse_stringify := free_parse_stringify;
  json_parse_wf := free_parse_wf;
  json_stringify_truthy v := eq_refl;
}.
