(* ===== verification/JsUri.v ===== *)
(** * Percent encoding

    [encodeURIComponent] and [URLSearchParams], on texts of bytes: a percent-encoded byte
    stands for itself, also where the bytes around it are not UTF-8. *)

From S2P Require Import Prelude JsString JsValue.
From Stdlib Require Import Ascii.
Open Scope string_scope.
Open Scope Z_scope.

Definition upper_hex (d : Z) : ascii := if d <? 10 then chr (48 + d) else chr (55 + d).
Definition percent (c : ascii) (r : string) : string :=
  String "%" (String (upper_hex (code c / 16)) (String (upper_hex (code c mod 16)) r)).

Definition is_alnum (c : ascii) : bool :=
  is_digit c || (97 <=? code c) && (code c <=? 122) || (65 <=? code c) && (code c <=? 90).

Fixpoint has_char (c : ascii) (s : string) : bool :=
  match s with EmptyString => false | String d r => Ascii.eqb c d || has_char c r end.

(** [encodeURIComponent(s)] *)
Fixpoint encodeURIComponent (s : string) : string :=
  match s with
  | EmptyString => EmptyString
  | String c r =>
    if is_alnum c || has_char c "-_.!~*'()" then String c (encodeURIComponent r)
    else percent c (encodeURIComponent r)
  end.

(** The encoding of [URLSearchParams]. *)
Fixpoint form_encode (s : string) : string :=
  match s with
  | EmptyString => EmptyString
  | String c r =>
    if is_alnum c || has_char c "*-._" then String c (form_encode r)
    else if Ascii.eqb c " " then String "+" (form_encode r)
    else percent c (form_encode r)
  end.

(** ** Query strings *)

(** [searchParams.set(key, value)] and [searchParams.toString()] *)
Fixpoint params_set (k v : string) (l : list (string * string)) : list (string * string) :=
  match l with
  | [] => [(k, v)]
  | (k', v') :: l' => if String.eqb k k' then (k', v) :: l' else (k', v') :: params_set k v l'
  end.

Definition params_to_string (l : list (string * string)) : string :=
  join_with "&" ((fun kv => form_encode kv.1 ++ "=" ++ form_encode kv.2) <$> l).

Definition hex_digit (c : ascii) : option Z :=
  if is_digit c then Some (code c - 48)
  else if (65 <=? code c) && (code c <=? 70) then Some (code c - 55)
  else if (97 <=? code c) && (code c <=? 102) then Some (code c - 87)
  else None.

Fixpoint form_decode (s : string) : string :=
  match s with
  | EmptyString => EmptyString
  | String c r =>
    if Ascii.eqb c "+" then String " " (form_decode r)
    else if Ascii.eqb c "%" then
      match r with
      | String h (String l r') =>
        match hex_digit h, hex_digit l with
        | Some a, Some b => String (chr (16 * a + b)) (form_decode r')
        | _, _ => String c (form_decode r)
        end
      | _ => String c (form_decode r)
      end
    else String c (form_decode r)
  end.

(** The text before the first [c], and what follows it. *)
Fixpoint cut_at (c : ascii) (s : string) : string * string :=
  match s with
  | EmptyString => (EmptyString, EmptyString)
  | String d r => if Ascii.eqb d c then (EmptyString, r) else let '(a, b) := cut_at c r in (String d a, b)
  end.

Definition drop_question (s : string) : string :=
  match s with String c r => if Ascii.eqb c "?" then r else s | EmptyString => s end.

(** [new URLSearchParams(s)] *)
Definition params_parse (s : string) : list (string * string) :=
  omap (fun part => if str_nonempty part
                    then let '(name, value) := cut_at "=" part in Some (form_decode name, form_decode value)
                    else None) (split "&" (drop_question s)).

(** [params.get(key)] *)
Definition params_get (key : string) (l : list (string * string)) : option string :=
  snd <$> find_first (fun kv => String.eqb (fst kv) key) l.

(** ** Reading back what was written *)

Lemma hex_digit_upper d : 0 <= d < 16 -> hex_digit (upper_hex d) = Some d.
Proof.
  intros Hd. unfold upper_hex, hex_digit, is_digit. destruct (Z.ltb_spec d 10).
  - rewrite code_chr by lia. replace (48 <=? 48 + d) with true by lia. replace (48 + d <=? 57) with true by lia.
    cbn [andb]. f_equal. lia.
  - rewrite code_chr by lia. replace (55 + d <=? 57) with false by lia. rewrite andb_false_r.
    replace (65 <=? 55 + d) with true by lia. replace (55 + d <=? 70) with true by lia. cbn [andb]. f_equal. lia.
Qed.

Lemma decode_percent c r : form_decode (percent c r) = String c (form_decode r).
Proof.
  pose proof (code_range c). unfold percent. cbn [form_decode].
  replace (Ascii.eqb "%" "+") with false by done. replace (Ascii.eqb "%" "%") with true by done.
  pose proof (Z.mod_pos_bound (code c) 16 ltac:(lia)).
  pose proof (Z.div_lt_upper_bound (code c) 16 16 ltac:(lia) ltac:(lia)).
  pose proof (Z.div_pos (code c) 16 ltac:(lia) ltac:(lia)).
  rewrite !hex_digit_upper by lia. f_equal. rewrite <- Z.div_mod by lia.
  apply code_inj. by rewrite code_chr.
Qed.

Definition form_char (c : ascii) : bool := is_alnum c || has_char c "*-._".

Lemma form_char_plain c d : form_char c = true -> form_char d = false -> Ascii.eqb c d = false.
Proof. intros Hc Hd. destruct (Ascii.eqb_spec c d); congruence. Qed.

Lemma form_decode_encode s : form_decode (form_encode s) = s.
Proof.
  induction s as [|c s IH]; [done|]. cbn [form_encode]. fold (form_char c).
  destruct (form_char c) eqn:Hc; [|destruct (Ascii.eqb_spec c " ") as [->|_]].
  - cbn [form_decode]. rewrite !(form_char_plain c) by done. by rewrite IH.
  - cbn [form_decode]. replace (Ascii.eqb "+" "+") with true by done. by rewrite IH.
  - by rewrite decode_percent, IH.
Qed.

(** What an encoded text consists of. *)
Definition encoded_char (c : ascii) : bool := form_char c || Ascii.eqb c "+" || Ascii.eqb c "%".

Lemma encoded_upper d : 0 <= d < 16 -> encoded_char (upper_hex d) = true.
Proof.
  intros Hd. unfold encoded_char, form_char, is_alnum, is_digit, upper_hex. destruct (Z.ltb_spec d 10).
  - rewrite code_chr by lia. replace (48 <=? 48 + d) with true by lia. by replace (48 + d <=? 57) with true by lia.
  - rewrite code_chr by lia. replace (65 <=? 55 + d) with true by lia. replace (55 + d <=? 90) with true by lia.
    by rewrite !orb_true_r.
Qed.

Lemma form_encode_chars s : all_chars encoded_char (form_encode s) = true.
Proof.
  induction s as [|c s IH]; [done|]. cbn [form_encode]. fold (form_char c).
  destruct (form_char c) eqn:Hc; [|destruct (Ascii.eqb c " ")].
  - cbn [all_chars]. unfold encoded_char at 1. by rewrite Hc.
  - by cbn [all_chars].
  - pose proof (code_range c). pose proof (Z.mod_pos_bound (code c) 16 ltac:(lia)).
    pose proof (Z.div_lt_upper_bound (code c) 16 16 ltac:(lia) ltac:(lia)).
    pose proof (Z.div_pos (code c) 16 ltac:(lia) ltac:(lia)).
    unfold percent. cbn [all_chars]. rewrite !encoded_upper by lia. by rewrite IH.
Qed.

Lemma cut_at_app c s t : all_chars (fun d => negb (Ascii.eqb d c)) s = true -> cut_at c (s ++ String c t) = (s, t).
Proof.
  induction s as [|d s IH]; cbn [all_chars]; intros Hs.
  - cbn. by rewrite Ascii.eqb_refl.
  - apply andb_true_iff in Hs as [Hd Hs]. cbn. apply negb_true_iff in Hd. by rewrite Hd, IH.
Qed.

Lemma split_go_app c s t acc :
  all_chars (fun d => negb (Ascii.eqb d c)) s = true ->
  split_go c (s ++ String c t) acc = (acc ++ s) :: split_go c t "".
Proof.
  revert acc; induction s as [|d s IH]; cbn [all_chars]; intros acc Hs.
  - cbn. by rewrite Ascii.eqb_refl, app_empty_r.
  - apply andb_true_iff in Hs as [Hd Hs]. apply negb_true_iff in Hd. cbn. rewrite Hd, IH by done.
    by rewrite app_string_assoc.
Qed.

Lemma split_go_none c s acc :
  all_chars (fun d => negb (Ascii.eqb d c)) s = true -> split_go c s acc = [acc ++ s].
Proof.
  revert acc; induction s as [|d s IH]; cbn [all_chars]; intros acc Hs.
  - cbn. by rewrite app_empty_r.
  - apply andb_true_iff in Hs as [Hd Hs]. apply negb_true_iff in Hd. cbn. rewrite Hd, IH by done.
    by rewrite app_string_assoc.
Qed.

(** [s.split(c)] of texts joined by [c]. *)
Lemma split_join c l :
  l <> [] -> Forall (fun s => all_chars (fun d => negb (Ascii.eqb d c)) s = true) l ->
  split c (join_with (String c "") l) = l.
Proof.
  intros Hne Hl. unfold split. induction Hl as [|s l Hs Hl IH]; [done|].
  destruct l as [|t l].
  - cbn [join_with]. by rewrite split_go_none.
  - change (join_with (String c "") (s :: t :: l)) with (s ++ String c (join_with (String c "") (t :: l))).
    rewrite split_go_app by done. cbn [String.append]. f_equal. by apply IH.
Qed.

Definition written (kv : string * string) : string := form_encode (fst kv) ++ "=" ++ form_encode (snd kv).

Lemma encoded_avoids c s : encoded_char c = false -> all_chars encoded_char s = true -> all_chars (fun d => negb (Ascii.eqb d c)) s = true.
Proof.
  intros Hc. apply all_chars_impl. intros d Hd. destruct (Ascii.eqb_spec d c) as [->|]; [congruence|done].
Qed.

Lemma cut_written kv : cut_at "=" (written kv) = (form_encode (fst kv), form_encode (snd kv)).
Proof.
  unfold written. apply (cut_at_app "=" (form_encode (fst kv)) (form_encode (snd kv))).
  apply encoded_avoids; [done|apply form_encode_chars].
Qed.

Lemma written_parts kv : all_chars (fun d => negb (Ascii.eqb d "&")) (written kv) = true.
Proof.
  unfold written. rewrite !all_chars_app. cbn [all_chars].
  by rewrite !(encoded_avoids "&") by (done || apply form_encode_chars).
Qed.

Lemma join_with_head sep s l : exists t, join_with sep (s :: l) = s ++ t.
Proof.
  destruct l as [|u l]; [exists ""; by rewrite app_empty_r|].
  exists (sep ++ join_with sep (u :: l)). done.
Qed.

Lemma params_to_string_plain l :
  drop_question (params_to_string l) = params_to_string l.
Proof.
  unfold params_to_string. destruct l as [|[k v] l]; [done|]. cbn [fmap list_fmap].
  match goal with |- context [join_with "&" (?s :: ?l)] => destruct (join_with_head "&" s l) as [t ->] end.
  cbn [fst snd]. pose proof (form_encode_chars k) as Hk. destruct (form_encode k) as [|c r]; [done|].
  cbn [all_chars] in Hk. apply andb_true_iff in Hk as [Hk _].
  cbn [drop_question String.append]. by destruct (Ascii.eqb_spec c "?") as [->|].
Qed.

(** Reading a query that was written gives back its entries. *)
Lemma params_parse_to_string l : params_parse (params_to_string l) = l.
Proof.
  unfold params_parse. rewrite params_to_string_plain. unfold params_to_string.
  change (fun kv : string * string => form_encode kv.1 ++ "=" ++ form_encode kv.2) with written.
  destruct l as [|kv l]; [done|]. rewrite split_join.
  - generalize (kv :: l). clear. intros l. induction l as [|[k v] l IH]; [done|].
    cbn [fmap list_fmap omap list_omap].
    assert (str_nonempty (written (k, v)) = true) as -> by (unfold written; cbn [fst snd]; by destruct (form_encode k)).
    rewrite cut_written. by rewrite !form_decode_encode, IH.
  - done.
  - apply Forall_forall. intros s (kv' & -> & _)%list_elem_of_fmap. apply written_parts.
Qed.

Lemma params_parse_search l : params_parse (String "?" (params_to_string l)) = l.
Proof. rewrite <- (params_parse_to_string l) at 2. unfold params_parse. rewrite params_to_string_plain. done. Qed.
