(* ===== verification/JsError.v ===== *)
(** * Thrown values

    JavaScript errors, the reads and conversions of dynamic values that may throw,
    and [map] over a property that may be missing. *)

From S2P Require Import Prelude JsString JsNumber JsValue.
Open Scope string_scope.
Open Scope Z_scope.
Open Scope flux_scope.

(** ** Thrown values and property reads *)

(** A thrown value: its message when it is an [Error], and its [code] property. *)
Record js_error := { err_message : option string; err_code : jsval }.

Definition Error (msg : string) : js_error := {| err_message := Some msg; err_code := VUndef |}.

(** [error instanceof Error ? error.message : fallback] *)
Definition message_or (e : js_error) (fallback : string) : string := default fallback (err_message e).

Definition type_error (k : string) (v : jsval) : js_error :=
  Error ("Cannot read properties of " ++ to_string v ++ " (reading '" ++ k ++ "')").

(** [v.k]: reading a property of null or undefined throws. *)
Definition prop (k : string) (v : jsval) : res js_error jsval :=
  match v with VUndef | VNull => Throw (type_error k v) | _ => Ok (get k v) end.

(** [v?.k] *)
Definition opt_prop (k : string) (v : jsval) : jsval := get k v.

(** [(v ?? []).map(f)] *)
Definition map_or_empty {B} (v : jsval) (f : nat -> jsval -> res js_error B) : res js_error (list B) :=
  match nullish v (VArr []) with
  | VArr l => res_mapi f 0 l
  | _ => Throw (Error "map is not a function")
  end.

(** [BigInt(v)] *)
Definition to_bigint (v : jsval) : res js_error Z :=
  match v with
  | VUndef | VNull => Throw (Error ("Cannot convert " ++ to_string v ++ " to a BigInt"))
  | VBool b => Ok (if b then 1 else 0)
  | VNum n =>
    match num_integral n with
    | Some z => Ok z
    | None => Throw (Error ("The number " ++ num_to_string n
                            ++ " cannot be converted to a BigInt because it is not an integer"))
    end
  | VBig z => Ok z
  | VStr _ | VArr _ | VObj _ =>
    match bigint_of_string (to_string v) with
    | Some z => Ok z
    | None => Throw (Error ("Cannot convert " ++ to_string v ++ " to a BigInt"))
    end
  end.

(** [BigInt] reads the decimal writing of a bigint back. *)
Lemma to_bigint_dec n : 0 <= n -> to_bigint (VStr (dec n)) = Ok n.
Proof. intros H. unfold to_bigint. cbn [to_string]. by rewrite bigint_of_string_dec. Qed.

(** Inverts a [let*] that succeeded. *)
Ltac bind_inv H :=
  let x := fresh "x" in let E := fresh "E" in
  apply res_bind_Ok in H as (x & E & H).

(** A [map] whose results carry a property. *)
Lemma map_or_empty_Forall {B} (v : jsval) (f : nat -> jsval -> res js_error B) (P : B -> Prop) l :
  (forall i x b, f i x = Ok b -> P b) -> map_or_empty v f = Ok l -> Forall P l.
Proof.
  intros Hf. unfold map_or_empty. destruct (nullish v (VArr [])); try done. intros H.
  apply Forall_lookup_2. intros n b Hn.
  destruct (res_mapi_lookup _ _ _ _ _ _ H Hn) as (a & _ & Ha). eauto.
Qed.
