(* ===== verification/JsDivision.v ===== *)
(** * Quotients and products of whole numbers

    What the rounded quotient of two whole numbers is good for: below 2^52 its
    [Math.floor] is the whole quotient, and a product below 2^53 is exact.  Code that
    puts a timestamp into its bucket relies on both. *)

From S2P Require Import Prelude JsNumber.
From Stdlib Require Import SpecFloat.
Open Scope Z_scope.

(** ** Shifting a mantissa to the right *)

(** Nothing was lost. *)
Definition nothing_lost (r : shr_record) : bool := negb (shr_r r) && negb (shr_s r).

Lemma shr_1_spec r :
  0 <= shr_m r ->
  shr_m (shr_1 r) = shr_m r / 2
  /\ nothing_lost (shr_1 r) = nothing_lost r && (shr_m r mod 2 =? 0).
Proof.
  destruct r as [m b s]. unfold nothing_lost. cbn [shr_m shr_r shr_s].
  destruct m as [|[p|p|]|p]; intros H; [| | | |done]; cbn [shr_1 shr_m shr_r shr_s].
  - by destruct b, s.
  - rewrite Pos2Z.inj_xI. rewrite Z.add_comm, Z.mul_comm, Z.div_add, Z.mod_add by lia.
    by destruct b, s.
  - rewrite Pos2Z.inj_xO, Z.mul_comm, Z.div_mul, Z.mod_mul by lia. by destruct b, s.
  - by destruct b, s.
Qed.

Lemma iter_shr_spec n r :
  0 <= shr_m r ->
  shr_m (Pos.iter shr_1 r n) = shr_m r / 2 ^ Zpos n
  /\ nothing_lost (Pos.iter shr_1 r n) = nothing_lost r && (shr_m r mod 2 ^ Zpos n =? 0).
Proof.
  intros Hr. induction n as [|n [IHm IHn]] using Pos.peano_ind; [by apply shr_1_spec|].
  rewrite Pos.iter_succ. assert (0 < 2 ^ Zpos n) as Hp by (apply Z.pow_pos_nonneg; lia).
  destruct (shr_1_spec (Pos.iter shr_1 r n)) as [Hm Hn]; [rewrite IHm; by apply Z.div_pos|].
  rewrite Hm, Hn, IHm, IHn, Pos2Z.inj_succ, Z.pow_succ_r, (Z.mul_comm 2), Z.div_div by lia.
  split; [done|]. rewrite Z.rem_mul_r by lia. rewrite <- andb_assoc. f_equal.
  pose proof (Z.mod_pos_bound (shr_m r) (2 ^ Zpos n) Hp).
  pose proof (Z.mod_pos_bound (shr_m r / 2 ^ Zpos n) 2 ltac:(lia)).
  destruct (Z.eqb_spec (shr_m r mod 2 ^ Zpos n) 0), (Z.eqb_spec ((shr_m r / 2 ^ Zpos n) mod 2) 0),
    (Z.eqb_spec (shr_m r mod 2 ^ Zpos n + 2 ^ Zpos n * ((shr_m r / 2 ^ Zpos n) mod 2)) 0); try done; nia.
Qed.

Definition is_exact (l : location) : bool := match l with loc_Exact => true | _ => false end.

(** How far [shr_fexp] shifts a mantissa. *)
Definition excess (m e : Z) : Z := Z.max 0 (fexp 53 1024 (Zdigits2 m + e) - e).

Lemma shr_fexp_spec m e l :
  0 <= m ->
  exists r, shr_fexp 53 1024 m e l = (r, e + excess m e)
    /\ shr_m r = m / 2 ^ excess m e
    /\ nothing_lost r = is_exact l && (m mod 2 ^ excess m e =? 0).
Proof.
  intros Hm. unfold shr_fexp, excess.
  assert (shr_m (shr_record_of_loc m l) = m
          /\ nothing_lost (shr_record_of_loc m l) = is_exact l) as [H1 H2].
  { split; [by destruct l as [|[]]|]. by destruct l as [|[]]. }
  destruct (fexp 53 1024 (Zdigits2 m + e) - e) as [|n|n] eqn:E; unfold shr.
  - exists (shr_record_of_loc m l). rewrite H1, H2, Z.add_0_r, Z.div_1_r, Z.mod_1_r. cbn. by rewrite andb_true_r.
  - exists (iter_pos shr_1 n (shr_record_of_loc m l)). rewrite iter_pos_iter, Z.max_r by lia.
    destruct (iter_shr_spec n (shr_record_of_loc m l)) as [Hs Hn]; [by rewrite H1|].
    by rewrite Hs, Hn, H1, H2.
  - exists (shr_record_of_loc m l). rewrite Z.max_l by lia.
    rewrite H1, H2, Z.add_0_r, Z.div_1_r, Z.mod_1_r. cbn. by rewrite andb_true_r.
Qed.

Lemma nearest_even_bounds r :
  shr_m r <= round_nearest_even (shr_m r) (loc_of_shr_record r) <= shr_m r + 1
  /\ (nothing_lost r = true -> round_nearest_even (shr_m r) (loc_of_shr_record r) = shr_m r).
Proof.
  destruct r as [m [] []]; cbn; [lia| |lia|lia].
  destruct (Z.even m); split; done || lia.
Qed.

(** ** Whole mantissas *)

Lemma Zdigits2_unique m k : 0 < k -> 2 ^ (k - 1) <= m < 2 ^ k -> Zdigits2 m = k.
Proof.
  intros Hk Hm. assert (0 < 2 ^ (k - 1)) by (apply Z.pow_pos_nonneg; lia).
  destruct m as [|m|m]; [lia| |lia]. cbn [Zdigits2]. by apply digits2_pos_unique.
Qed.

(** A mantissa of 53 digits whose exponent is in range stays. *)
Lemma round_kept s M e :
  2 ^ 52 <= M < 2 ^ 53 -> -1074 <= e <= 971 ->
  (let '(r, e') := shr_fexp 53 1024 M e loc_Exact in
   match shr_m r with
   | Zpos m => if e' <=? 1024 - 53 then S754_finite s m e' else S754_infinity s
   | Z0 => S754_zero s
   | Zneg _ => S754_nan
   end) = S754_finite s (Z.to_pos M) e.
Proof.
  intros HM He. destruct (shr_fexp_spec M e loc_Exact) as (r & -> & Hr & _); [lia|].
  assert (excess M e = 0) as Hx.
  { unfold excess. rewrite (Zdigits2_unique M 53) by (change (53 - 1) with 52; lia).
    unfold fexp, emin. lia. }
  rewrite Hx, Z.pow_0_r, Z.div_1_r in Hr. rewrite Hr, Hx, Z.add_0_r.
  destruct M as [|p|p]; [lia| |lia]. change (1024 - 53) with 971. by destruct (Z.leb_spec e 971); [|lia].
Qed.

(** One of 54 digits that is a power of two loses its last zero. *)
Lemma round_carried s e :
  -1074 <= e < 971 ->
  (let '(r, e') := shr_fexp 53 1024 (2 ^ 53) e loc_Exact in
   match shr_m r with
   | Zpos m => if e' <=? 1024 - 53 then S754_finite s m e' else S754_infinity s
   | Z0 => S754_zero s
   | Zneg _ => S754_nan
   end) = S754_finite s (Z.to_pos (2 ^ 52)) (e + 1).
Proof.
  intros He. destruct (shr_fexp_spec (2 ^ 53) e loc_Exact) as (r & -> & Hr & _); [lia|].
  assert (excess (2 ^ 53) e = 1) as Hx.
  { unfold excess. rewrite (Zdigits2_unique (2 ^ 53) 54) by lia. unfold fexp, emin. lia. }
  rewrite Hx in *. rewrite Hr. change (2 ^ 53 / 2 ^ 1) with (2 ^ 52). cbn -[Z.leb Z.add].
  by destruct (Z.leb_spec (e + 1) (1024 - 53)); [|lia].
Qed.

(** ** The quotient *)

(** The mantissa of a whole number, at any exponent [- t] below its own. *)
Lemma whole_scaled m e z t :
  num_integral (S754_finite false m e) = Some z -> 0 <= t -> - e <= t ->
  Zpos m * 2 ^ (e + t) = z * 2 ^ t.
Proof.
  intros Hz Ht He. destruct (num_integral_at false m e (Z.min e 0) z Hz ltac:(lia)) as [H1 _].
  specialize (H1 ltac:(lia)). cbn [cond_Zopp] in H1. rewrite shl_align_value in H1 by lia.
  destruct (Z.le_gt_cases e 0).
  - rewrite Z.min_l, Z.sub_diag, Z.mul_1_r in H1 by lia. rewrite H1, <- Z.mul_assoc, <- Z.pow_add_r by lia.
    do 2 f_equal. lia.
  - rewrite Z.min_r, Z.sub_0_r, Z.mul_1_r in H1 by lia. rewrite Z.pow_add_r by lia.
    rewrite Z.mul_assoc. by rewrite H1.
Qed.

Lemma whole_digits m e z n :
  num_integral (S754_finite false m e) = Some z -> 0 < z < 2 ^ n -> 0 <= n ->
  1 <= Zpos (digits2_pos m) + e <= n.
Proof.
  intros Hz Hzn Hn. pose proof (digits2_pos_bounds m) as Hd. set (d := Zpos (digits2_pos m)) in *.
  assert (0 < d) by (unfold d; lia). set (t := Z.abs e + d).
  pose proof (whole_scaled m e z t Hz ltac:(lia) ltac:(lia)) as Hs.
  assert (forall k, 0 <= k -> 0 < 2 ^ k) as Hpow by (intros; apply Z.pow_pos_nonneg; lia).
  pose proof (Hpow t ltac:(lia)). pose proof (Hpow (e + t) ltac:(lia)).
  split; apply Z.nlt_ge; intros Hc.
  - assert (2 ^ d * 2 ^ (e + t) <= 2 ^ t) by (rewrite <- Z.pow_add_r by lia; apply Z.pow_le_mono_r; lia). nia.
  - assert (2 ^ n * 2 ^ t <= 2 ^ (d - 1) * 2 ^ (e + t)).
    { rewrite <- !Z.pow_add_r by lia. apply Z.pow_le_mono_r; lia. }
    nia.
Qed.

(** A quotient found at another scale. *)
Lemma quotient_scaled X T Y q b r m :
  0 < T -> 0 < Y -> 0 < b -> m * Y = b * T -> 0 <= r < m -> X * T = q * b * T + r * Y ->
  X / b = q /\ (X mod b =? 0) = (r =? 0).
Proof.
  intros HT HY Hb Hm [Hr0 Hr] HX.
  assert ((X - q * b) * T = r * Y) as HR by lia.
  assert (0 <= X - q * b) by (apply (Z.mul_le_mono_pos_r _ _ T); [done|]; rewrite HR; by apply Z.mul_nonneg_nonneg; [|lia]).
  assert (X - q * b < b).
  { apply (Z.mul_lt_mono_pos_r T); [done|]. rewrite HR, <- Hm. by apply Z.mul_lt_mono_pos_r. }
  assert (X / b = q) as Hq by (symmetry; apply Z.div_unique with (X - q * b); lia).
  split; [done|]. rewrite Z.mod_eq, Hq by lia.
  destruct (Z.eqb_spec r 0) as [->|Hne], (Z.eqb_spec (X - b * q) 0) as [Hz|Hz]; try done; exfalso.
  - rewrite Z.mul_0_l in HR. apply Z.mul_eq_0_l in HR; lia.
  - assert (r * Y = 0) as Hrz by (rewrite <- HR; replace (X - q * b) with 0 by lia; done).
    apply Z.mul_eq_0_l in Hrz; lia.
Qed.

(** The digits [SFdiv_core_binary] finds of [a / b]: 53 at least, at the exponent [- u]. *)
Lemma div_core_whole mx ex my ey a b :
  num_integral (S754_finite false mx ex) = Some a -> num_integral (S754_finite false my ey) = Some b ->
  0 < a < 2 ^ 52 -> 0 < b < 2 ^ 52 ->
  exists u l, SFdiv_core_binary 53 1024 (Zpos mx) ex (Zpos my) ey = (a * 2 ^ u / b, - u, l)
    /\ 0 < u /\ is_exact l = ((a * 2 ^ u) mod b =? 0) /\ 2 ^ 52 <= a * 2 ^ u / b.
Proof.
  intros Ha Hb Har Hbr.
  pose proof (whole_digits mx ex a 52 Ha Har ltac:(lia)) as Hgx.
  pose proof (whole_digits my ey b 52 Hb Hbr ltac:(lia)) as Hgy.
  pose proof (digits2_pos_bounds mx) as Hdx. pose proof (digits2_pos_bounds my) as Hdy.
  unfold SFdiv_core_binary. cbn [Zdigits2].
  set (d1 := Zpos (digits2_pos mx)) in *. set (d2 := Zpos (digits2_pos my)) in *.
  assert (0 < d1 /\ 0 < d2) as [Hd1 Hd2] by (unfold d1, d2; lia).
  set (e' := Z.min (fexp 53 1024 (d1 + ex - (d2 + ey))) (ex - ey)).
  assert (e' < 0 /\ e' <= ex - ey /\ e' <= d1 + ex - d2 - ey - 53) as (He & Hs & Hf).
  { unfold e', fexp, emin. lia. }
  set (s := ex - ey - e'). cbv zeta.
  replace (match s with Zpos _ => Z.shiftl (Zpos mx) s | Z0 => Zpos mx | Zneg _ => 0 end)
    with (Zpos mx * 2 ^ s).
  2: { destruct s eqn:E; [by rewrite Z.mul_1_r|by rewrite Z.shiftl_mul_pow2 by lia|unfold s in E; lia]. }
  assert (forall k, 0 <= k -> 0 < 2 ^ k) as Hpow by (intros; apply Z.pow_pos_nonneg; lia).
  pose proof (Z_div_mod (Zpos mx * 2 ^ s) (Zpos my) ltac:(lia)) as Hdm.
  destruct (Z.div_eucl (Zpos mx * 2 ^ s) (Zpos my)) as [q r]. destruct Hdm as [Hq Hr].
  set (t := Z.max 0 (Z.max (- ex) (- ey))).
  pose proof (whole_scaled mx ex a t Ha ltac:(lia) ltac:(lia)) as Hx.
  pose proof (whole_scaled my ey b t Hb ltac:(lia) ltac:(lia)) as Hy.
  assert (a * 2 ^ (- e') * 2 ^ t = (q * b) * 2 ^ t + r * 2 ^ (ey + t)) as Hmain.
  { replace (q * b * 2 ^ t) with (q * (b * 2 ^ t)) by ring. rewrite <- Hy.
    replace (q * (Zpos my * 2 ^ (ey + t)) + r * 2 ^ (ey + t))
      with ((Zpos my * q + r) * 2 ^ (ey + t)) by ring. rewrite <- Hq.
    replace (a * 2 ^ (- e') * 2 ^ t) with (a * 2 ^ t * 2 ^ (- e')) by ring.
    rewrite <- Hx, <- !Z.mul_assoc, <- !Z.pow_add_r by (unfold s; lia). do 2 f_equal. unfold s. lia. }
  pose proof (Hpow t ltac:(lia)) as Ht. pose proof (Hpow (ey + t) ltac:(lia)) as Hyt.
  destruct (quotient_scaled (a * 2 ^ (- e')) (2 ^ t) (2 ^ (ey + t)) q b r (Zpos my)) as [Hqv Hex]; [lia..|done|lia|done|].
  assert (2 ^ 52 <= q) as Hq52.
  { assert (2 ^ 52 * 2 ^ d2 <= 2 ^ (d1 - 1) * 2 ^ s).
    { rewrite <- !Z.pow_add_r by (unfold s; lia). apply Z.pow_le_mono_r; unfold s; lia. }
    assert (2 ^ (d1 - 1) * 2 ^ s <= Zpos mx * 2 ^ s) by (apply Z.mul_le_mono_nonneg_r; [apply Z.pow_nonneg; lia|lia]).
    apply Z.lt_succ_r. apply (Z.mul_lt_mono_pos_l (Zpos my)); [lia|].
    assert (Zpos my * 2 ^ 52 < 2 ^ 52 * 2 ^ d2) by (rewrite Z.mul_comm; apply Z.mul_lt_mono_pos_l; lia).
    rewrite Z.mul_succ_r. lia. }
  exists (- e'), (new_location (Zpos my) r). rewrite Hqv, Z.opp_involutive, Hex. split; [done|]. split; [lia|].
  split; [|done]. unfold new_location, new_location_even, new_location_odd. by destruct (Z.even _), (r =? 0).
Qed.

(** Rounded to 53 digits, the quotient is [M / 2 ^ w] or the next such value, and the next
    only when it is not exact. *)
Lemma div_rounds a b u l s :
  0 < a < 2 ^ 52 -> 0 < b < 2 ^ 52 -> 0 < u -> 2 ^ 52 <= a * 2 ^ u / b ->
  is_exact l = ((a * 2 ^ u) mod b =? 0) ->
  exists w M r,
    0 < w /\ M = a * 2 ^ w / b /\ 2 ^ 52 <= M < 2 ^ 53
    /\ (r = M \/ r = M + 1 /\ (a * 2 ^ w) mod b <> 0)
    /\ binary_round_aux 53 1024 s (a * 2 ^ u / b) (- u) l
       = if r =? 2 ^ 53 then S754_finite s (Z.to_pos (2 ^ 52)) (- w + 1)
         else S754_finite s (Z.to_pos r) (- w).
Proof.
  intros Ha Hb Hu Hq Hl. set (q := a * 2 ^ u / b) in *.
  assert (forall k, 0 <= k -> 0 < 2 ^ k) as Hpow by (intros; apply Z.pow_pos_nonneg; lia).
  pose proof (digits2_pos_bounds (Z.to_pos q)) as Hd. rewrite Z2Pos.id in Hd by lia.
  set (D := Zpos (digits2_pos (Z.to_pos q))) in *. assert (0 < D) by (unfold D; lia).
  assert (53 <= D) as HD.
  { apply Z.nlt_ge. intros Hc. assert (2 ^ D <= 2 ^ 52) by (apply Z.pow_le_mono_r; lia). lia. }
  assert (D <= u + 52) as HDu.
  { apply Z.nlt_ge. intros Hc. assert (q <= a * 2 ^ u).
    { apply Z.div_le_upper_bound; [lia|]. pose proof (Hpow u ltac:(lia)). nia. }
    assert (2 ^ 52 * 2 ^ u <= 2 ^ (D - 1)) by (rewrite <- Z.pow_add_r by lia; apply Z.pow_le_mono_r; lia).
    pose proof (Hpow u ltac:(lia)). nia. }
  assert (u - 52 <= D) as HuD.
  { apply Z.nlt_ge. intros Hc. assert (q + 1 <= 2 ^ (u - 52)).
    { assert (2 ^ D <= 2 ^ (u - 52)) by (apply Z.pow_le_mono_r; lia). lia. }
    pose proof (Z.mul_succ_div_gt (a * 2 ^ u) b ltac:(lia)) as Hgt. fold q in Hgt.
    assert (2 ^ u = 2 ^ (u - 52) * 2 ^ 52) by (rewrite <- Z.pow_add_r by lia; f_equal; lia).
    pose proof (Hpow (u - 52) ltac:(lia)). nia. }
  assert (excess q (- u) = D - 53) as Hx.
  { unfold excess. rewrite (Zdigits2_unique q D) by lia. unfold fexp, emin. lia. }
  destruct (shr_fexp_spec q (- u) l) as (rec & Hrec & Hm & Hn); [lia|]. rewrite Hx in *.
  set (w := u - (D - 53)) in *.
  assert (2 ^ u = 2 ^ w * 2 ^ (D - 53)) as Hsplit by (rewrite <- Z.pow_add_r by lia; f_equal; lia).
  pose proof (Hpow (D - 53) ltac:(lia)) as Hk.
  assert (shr_m rec = a * 2 ^ w / b) as HM.
  { rewrite Hm. unfold q. rewrite Z.div_div, Hsplit, Z.mul_assoc by lia. by rewrite Z.div_mul_cancel_r by lia. }
  exists w, (shr_m rec), (round_nearest_even (shr_m rec) (loc_of_shr_record rec)).
  destruct (nearest_even_bounds rec) as [Hb1 Hb2].
  assert (2 ^ 52 <= shr_m rec < 2 ^ 53) as HMr.
  { rewrite Hm. split.
    - apply Z.div_le_lower_bound; [done|]. rewrite Z.mul_comm, <- Z.pow_add_r by lia.
      replace (52 + (D - 53)) with (D - 1) by lia. lia.
    - apply Z.div_lt_upper_bound; [done|]. rewrite <- Z.pow_add_r by lia. replace (D - 53 + 53) with D by lia. lia. }
  split; [lia|]. split; [done|]. split; [done|]. split.
  { destruct (Z.eq_dec (round_nearest_even (shr_m rec) (loc_of_shr_record rec)) (shr_m rec)) as [|Hne]; [by left|].
    right. split; [lia|]. intros Hz. apply Hne, Hb2. rewrite Hn, Hl.
    apply Z.mod_divide in Hz as [c Hc]; [|lia].
    assert (a * 2 ^ u = c * 2 ^ (D - 53) * b) as Hau by (rewrite Hsplit, Z.mul_assoc, Hc; ring).
    unfold q. rewrite Hau, Z.mod_mul, Z.div_mul, Z.mod_mul by lia. done. }
  unfold binary_round_aux. rewrite Hrec. replace (- u + (D - 53)) with (- w) by lia.
  destruct (Z.eqb_spec (round_nearest_even (shr_m rec) (loc_of_shr_record rec)) (2 ^ 53)) as [->|].
  - apply round_carried. lia.
  - apply round_kept; lia.
Qed.

(** [Math.floor] of a positive value [r / 2 ^ w]. *)
Lemma floor_scaled p w : 0 <= w -> num_integral (num_floor (S754_finite false p (- w))) = Some (Zpos p / 2 ^ w).
Proof.
  intros Hw. unfold num_floor. destruct (Z.leb_spec 0 (- w)) as [H0|H0].
  - assert (w = 0) as -> by lia. unfold num_integral, num_parts. simpl (- 0). rewrite Z.leb_refl, !Z.pow_0_r, Z.mul_1_r, Z.div_1_r. done.
  - rewrite Z.opp_involutive. pose proof (Z.div_pos (Zpos p) (2 ^ w) ltac:(lia) ltac:(apply Z.pow_pos_nonneg; lia)).
    destruct (Z.eqb_spec (Zpos p / 2 ^ w) 0) as [->|Hne]; [done|].
    unfold num_integral, num_parts. destruct (Z.ltb_spec (Zpos p / 2 ^ w) 0); [lia|].
    cbn. f_equal. lia.
Qed.

(** The whole quotient of the rounded one. *)
Lemma floor_of_rounded a b w M r :
  0 < b -> 0 < a -> 0 <= w -> M = a * 2 ^ w / b -> 2 ^ 52 <= M -> a < 2 ^ 52 ->
  r = M \/ r = M + 1 /\ (a * 2 ^ w) mod b <> 0 ->
  r / 2 ^ w = a / b.
Proof.
  intros Hb Ha Hw HM HM52 Ha52 Hr. assert (0 < 2 ^ w) as Hp by (apply Z.pow_pos_nonneg; lia).
  assert (M / 2 ^ w = a / b) as Hfl.
  { rewrite HM, Z.div_div, Z.div_mul_cancel_r by lia. done. }
  destruct Hr as [->|[-> Hne]]; [done|].
  destruct (Z.eq_dec ((M + 1) / 2 ^ w) (a / b)) as [|Hd]; [done|exfalso].
  pose proof (Z.div_mod M (2 ^ w) ltac:(lia)) as D1. pose proof (Z.mod_pos_bound M (2 ^ w) Hp) as B1.
  pose proof (Z.div_mod (M + 1) (2 ^ w) ltac:(lia)) as D2. pose proof (Z.mod_pos_bound (M + 1) (2 ^ w) Hp) as B2.
  pose proof (Z.div_mod (a * 2 ^ w) b ltac:(lia)) as D3. pose proof (Z.mod_pos_bound (a * 2 ^ w) b Hb) as B3.
  pose proof (Z.div_mod a b ltac:(lia)) as D4. pose proof (Z.mod_pos_bound a b Hb) as B4.
  rewrite <- HM in D3. rewrite Hfl in *. set (n := a / b) in *. set (n' := (M + 1) / 2 ^ w) in *.
  assert (n < n') as Hn by nia.
  assert (M + 1 = (n + 1) * 2 ^ w) as Hcarry by nia.
  assert (2 ^ w < b) by nia. assert (b < 2 ^ w) by nia. lia.
Qed.

Lemma num_integral_zero x : num_integral x = Some 0 -> exists s, x = S754_zero s.
Proof.
  destruct x as [s|s| |s m e]; [by exists s|done|done|]. unfold num_integral, num_parts.
  pose proof (Z.pow_pos_nonneg 2 (Z.abs e) ltac:(lia) ltac:(lia)) as Hp. intros H. exfalso.
  destruct (Z.leb_spec 0 e).
  - rewrite (Z.abs_eq e) in Hp by done. destruct s; simplify_eq; lia.
  - replace (- e) with (Z.abs e) in H by lia.
    destruct (Z.eqb_spec ((if s then Zneg m else Zpos m) mod 2 ^ Z.abs e) 0) as [Hz|]; [|done].
    injection H as H. pose proof (Z.div_mod (if s then Zneg m else Zpos m) (2 ^ Z.abs e) ltac:(lia)).
    destruct s; lia.
Qed.

Lemma num_integral_sign x z : num_integral x = Some z -> 0 < z -> exists m e, x = S754_finite false m e.
Proof.
  destruct x as [s|s| |s m e]; [|done|done|].
  { unfold num_integral. cbn. intros [= <-]. lia. }
  intros H Hz. destruct s; [|by exists m, e]. exfalso. revert H. unfold num_integral, num_parts.
  pose proof (Z.pow_pos_nonneg 2 (Z.abs e) ltac:(lia) ltac:(lia)) as Hp. destruct (Z.leb_spec 0 e).
  - rewrite (Z.abs_eq e) in Hp by done. intros [= <-]. lia.
  - replace (- e) with (Z.abs e) by lia. destruct (_ =? 0); [|done]. intros [= <-].
    pose proof (Z.div_lt_upper_bound (Zneg m) (2 ^ Z.abs e) 0 ltac:(lia) ltac:(lia)). lia.
Qed.

(** [Math.floor(x / y)] of whole numbers is their whole quotient. *)
Lemma num_floor_div x y a b :
  num_integral x = Some a -> num_integral y = Some b -> 0 <= a < 2 ^ 52 -> 0 < b < 2 ^ 52 ->
  num_integral (num_floor (num_div x y)) = Some (a / b).
Proof.
  intros Hx Hy Ha Hb. destruct (num_integral_sign y b Hy) as (my & ey & ->); [lia|].
  destruct (Z.eq_dec a 0) as [->|Hne].
  { destruct (num_integral_zero x Hx) as [s ->]. by rewrite Z.div_0_l by lia. }
  destruct (num_integral_sign x a Hx) as (mx & ex & ->); [lia|].
  destruct (div_core_whole mx ex my ey a b Hx Hy) as (u & l & Hcore & Hu & Hl & Hq); [lia..|].
  destruct (div_rounds a b u l false) as (w & M & r & Hw & HM & HMr & Hr & Hround); [lia..|done|done|].
  assert (r / 2 ^ w = a / b) as Hfl by (apply (floor_of_rounded a b w M r); [lia..|done]).
  unfold num_div, SFdiv. rewrite Hcore. change (xorb false false) with false. cbv beta iota. rewrite Hround. destruct (Z.eqb_spec r (2 ^ 53)) as [Hr53|_].
  - replace (- w + 1) with (- (w - 1)) by lia. rewrite floor_scaled by lia. f_equal.
    rewrite Z2Pos.id, <- Hfl, Hr53 by lia. replace w with (Z.succ (w - 1)) at 2 by lia.
    rewrite Z.pow_succ_r by lia. change (2 ^ 53) with (2 * 2 ^ 52). by rewrite Z.div_mul_cancel_l by lia.
  - rewrite floor_scaled by lia. by rewrite Z2Pos.id, Hfl by lia.
Qed.

(** ** The product *)

(** A value without digits to lose keeps them. *)
Lemma round_aux_whole s m e d :
  0 < d < 2 ^ 53 -> (e <= 0 -> Zpos m = d * 2 ^ (- e)) -> (0 < e -> Zpos m * 2 ^ e = d) ->
  num_integral (binary_round_aux 53 1024 s (Zpos m) e loc_Exact) = Some (if s then - d else d).
Proof.
  intros Hd Hn Hp. set (k := Zpos (digits2_pos (Z.to_pos d))).
  assert (2 ^ (k - 1) <= d < 2 ^ k) as Hk.
  { pose proof (digits2_pos_bounds (Z.to_pos d)) as Hb. rewrite Z2Pos.id in Hb by lia. done. }
  assert (1 <= k <= 53) as Hkr.
  { split; [unfold k; lia|]. apply digits2_pos_le; [lia|]. rewrite Z2Pos.id; lia. }
  pose proof (digits2_pos_scaled m e d k ltac:(lia) Hk Hn Hp) as Hdig.
  assert (excess (Zpos m) e = Z.max 0 (k - 53 - e)) as Hx.
  { unfold excess. cbn [Zdigits2]. rewrite Hdig. unfold fexp, emin. lia. }
  destruct (shr_fexp_spec (Zpos m) e loc_Exact) as (r & Hr & Hm & Hl); [lia|]. rewrite Hx in *.
  set (t := Z.max 0 (k - 53 - e)) in *.
  assert (Zpos m mod 2 ^ t = 0 /\ Zpos m / 2 ^ t * 2 ^ t = Zpos m) as [Hmod Hdiv].
  { destruct (Z.eq_dec t 0) as [->|]; [by rewrite Z.pow_0_r, Z.mod_1_r, Z.div_1_r, Z.mul_1_r|].
    assert (Zpos m = d * 2 ^ (- e - t) * 2 ^ t) as ->.
    { rewrite <- Z.mul_assoc, <- Z.pow_add_r, Hn by lia. do 2 f_equal. lia. }
    by rewrite Z.mod_mul, Z.div_mul by (apply Z.pow_nonzero; lia). }
  rewrite Hmod in Hl. set (M := Zpos m / 2 ^ t) in *.
  assert (0 < 2 ^ t) as H2t by (apply Z.pow_pos_nonneg; lia).
  assert (0 < M) as HM0 by nia.
  destruct (nearest_even_bounds r) as [_ Hb2]. unfold binary_round_aux. rewrite Hr, Hb2, Hm by done.
  destruct M as [|p|p] eqn:EM; [lia| |lia].
  assert (num_integral (S754_finite s p (e + t)) = Some (if s then - d else d)) as Hval.
  { apply num_integral_finite; [lia| |]; intros.
    - apply (Z.mul_reg_r _ _ (2 ^ t)); [lia|]. rewrite Hdiv, <- Z.mul_assoc, <- Z.pow_add_r, Hn by lia. do 2 f_equal. lia.
    - rewrite (Z.add_comm e), Z.pow_add_r, Z.mul_assoc, Hdiv by lia. destruct (Z.eq_dec e 0) as [He0|]; [|apply Hp; lia].
      lia. }
  destruct (shr_fexp_spec (Zpos p) (e + t) loc_Exact) as (r' & -> & Hm' & _); [lia|].
  assert (excess (Zpos p) (e + t) = 0) as Hx'.
  { unfold excess. cbn [Zdigits2].
    destruct (num_integral_at s p (e + t) (e + t) _ Hval ltac:(lia)) as [_ _].
    assert (Zpos (digits2_pos p) + t = Zpos (digits2_pos m)) as Hdp; [|unfold fexp, emin; lia].
    pose proof (digits2_pos_bounds p). rewrite (digits2_pos_unique m (Zpos (digits2_pos p) + t)); [done| |lia].
    replace (Zpos (digits2_pos p) + t - 1) with (Zpos (digits2_pos p) - 1 + t) by lia.
    rewrite <- Hdiv, !Z.pow_add_r by lia. split; [apply Z.mul_le_mono_nonneg_r|apply Z.mul_lt_mono_pos_r]; lia. }
  rewrite Hx', Z.pow_0_r, Z.div_1_r, Z.add_0_r in *. rewrite Hm'.
  change (1024 - 53) with 971. destruct (Z.leb_spec (e + t) 971); [done|]. exfalso.
  assert (2 ^ 53 <= 2 ^ (e + t)) by (apply Z.pow_le_mono_r; lia).
  assert (t = 0) as Ht0 by lia. rewrite Ht0, Z.add_0_r in *. specialize (Hp ltac:(lia)). nia.
Qed.

(** The product of whole numbers below 2^53 is exact. *)
Lemma num_mul_integral x y a b :
  num_integral x = Some a -> num_integral y = Some b -> 0 <= a -> 0 < b -> a * b < 2 ^ 53 ->
  num_integral (num_mul x y) = Some (a * b).
Proof.
  intros Hx Hy Ha Hb Hab. destruct (num_integral_sign y b Hy) as (my & ey & ->); [lia|].
  destruct (Z.eq_dec a 0) as [->|Hne]; [by destruct (num_integral_zero x Hx) as [s ->]|].
  destruct (num_integral_sign x a Hx) as (mx & ex & ->); [lia|].
  set (t := Z.abs ex + Z.abs ey).
  pose proof (whole_scaled mx ex a t Hx ltac:(lia) ltac:(lia)) as Hsx.
  pose proof (whole_scaled my ey b t Hy ltac:(lia) ltac:(lia)) as Hsy.
  assert (0 < 2 ^ (t + t)) as Ht by (apply Z.pow_pos_nonneg; lia).
  assert (Zpos (mx * my) * 2 ^ (ex + ey + (t + t)) = a * b * 2 ^ (t + t)) as Hprod.
  { replace (ex + ey + (t + t)) with (ex + t + (ey + t)) by lia.
    rewrite (Z.pow_add_r 2 (ex + t) (ey + t)), (Z.pow_add_r 2 t t), Pos2Z.inj_mul by lia.
    rewrite Z.mul_shuffle1, Hsx, Hsy. ring. }
  unfold num_mul, SFmul. change (xorb false false) with false.
  apply (round_aux_whole false (mx * my) (ex + ey) (a * b)); [nia| |]; intros He.
  - apply (Z.mul_reg_r _ _ (2 ^ (ex + ey + (t + t)))); [apply Z.pow_nonzero; lia|].
    rewrite Hprod, <- (Z.mul_assoc (a * b)), <- Z.pow_add_r by lia. do 2 f_equal. lia.
  - apply (Z.mul_reg_r _ _ (2 ^ (t + t))); [lia|]. by rewrite <- Hprod, <- Z.mul_assoc, <- Z.pow_add_r by lia.
Qed.

(** ** Powers of two as bounds *)

(** The binary place above the first digit of [m * 2 ^ e]. *)
Definition top (m : positive) (e : Z) : Z := Zpos (digits2_pos m) + e.

(** Rounding keeps the place of the first digit, or gives the power of two above. *)
Lemma round_top m e l :
  -900 <= top m e <= 100 ->
  exists m' e', binary_round_aux 53 1024 false (Zpos m) e l = S754_finite false m' e'
    /\ (top m' e' = top m e \/ exists j, 0 <= j /\ Zpos m' = 2 ^ j /\ j + e' = top m e).
Proof.
  unfold top. pose proof (digits2_pos_bounds m) as Hm. set (D := Zpos (digits2_pos m)) in *. intros HD.
  assert (0 < D) by (unfold D; lia).
  assert (excess (Zpos m) e = Z.max 0 (D - 53)) as Hx by (unfold excess; cbn [Zdigits2]; fold D; unfold fexp, emin; lia).
  destruct (shr_fexp_spec (Zpos m) e l) as (r & Hr & Hs & _); [lia|]. rewrite Hx in *.
  set (k := Z.max 0 (D - 53)) in *. destruct (nearest_even_bounds r) as [Hb _].
  set (rho := round_nearest_even (shr_m r) (loc_of_shr_record r)) in *.
  assert (0 < 2 ^ k) as Hk by (apply Z.pow_pos_nonneg; lia).
  assert (2 ^ (D - k - 1) <= shr_m r < 2 ^ (D - k)) as HM.
  { rewrite Hs. split.
    - apply Z.div_le_lower_bound; [done|]. rewrite <- Z.pow_add_r by lia. replace (k + (D - k - 1)) with (D - 1) by lia. lia.
    - apply Z.div_lt_upper_bound; [done|]. rewrite <- Z.pow_add_r by lia. replace (k + (D - k)) with D by lia. lia. }
  assert (0 < 2 ^ (D - k - 1)) by (apply Z.pow_pos_nonneg; lia).
  unfold binary_round_aux. rewrite Hr. fold rho.
  destruct (shr_fexp_spec rho (e + k) loc_Exact) as (r' & -> & Hs' & _); [lia|].
  destruct (Z.eq_dec rho (2 ^ (D - k))) as [Ecarry|Ne].
  - assert (Zdigits2 rho = D - k + 1) as Hdig.
    { apply Zdigits2_unique; [lia|]. rewrite Ecarry. split; [apply Z.pow_le_mono_r; lia|apply Z.pow_lt_mono_r; lia]. }
    assert (excess rho (e + k) = if D - k =? 53 then 1 else 0) as Hx'.
    { unfold excess. rewrite Hdig. unfold fexp, emin. destruct (Z.eqb_spec (D - k) 53); lia. }
    rewrite Hx' in *. set (c := if D - k =? 53 then 1 else 0) in *.
    assert (shr_m r' = 2 ^ (D - k - c)) as Hv.
    { rewrite Hs', Ecarry. symmetry. apply Z.div_unique_exact; [apply Z.pow_nonzero; unfold c; destruct (_ =? _); lia|].
      rewrite <- Z.pow_add_r by (unfold c; destruct (Z.eqb_spec (D - k) 53); lia). f_equal. lia. }
    assert (0 <= D - k - c) by (unfold c; destruct (Z.eqb_spec (D - k) 53); lia).
    pose proof (Z.pow_pos_nonneg 2 (D - k - c) ltac:(lia) ltac:(lia)).
    destruct (shr_m r') as [|p|p] eqn:Ep; [lia| |lia].
    destruct (Z.leb_spec (e + k + c) (1024 - 53)); [|unfold c in *; destruct (Z.eqb_spec (D - k) 53); lia].
    exists p, (e + k + c). split; [done|]. right. exists (D - k - c). split; [done|]. split; [done|lia].
  - assert (Zdigits2 rho = D - k) as Hdig by (apply Zdigits2_unique; lia).
    assert (excess rho (e + k) = 0) as Hx' by (unfold excess; rewrite Hdig; unfold fexp, emin; lia).
    rewrite Hx' in *. rewrite Z.div_1_r in Hs'.
    destruct (shr_m r') as [|p|p] eqn:Ep; [lia| |lia].
    destruct (Z.leb_spec (e + k + 0) (1024 - 53)); [|lia].
    exists p, (e + k + 0). split; [done|]. left. cbn [Zdigits2] in Hdig. rewrite <- Hs' in Hdig. cbn [Zdigits2] in Hdig. lia.
Qed.

(** Comparing with 1 and with 4. *)
Lemma leb_one m e : num_leb (num_of_Z 1) (S754_finite false m e) = (1 <=? top m e).
Proof.
  unfold top. pose proof (digits2_pos_bounds m) as Hm. set (D := Zpos (digits2_pos m)) in *.
  assert (0 < D) by (unfold D; lia).
  change (num_of_Z 1) with (S754_finite false 4503599627370496 (-52)). unfold num_leb, num_cmp. cbn [num_parts].
  set (t := Z.min (-52) e). rewrite (cmp_parts_scale _ _ t) by (cbn [snd]; lia). cbn [fst snd].
  assert (4503599627370496 * 2 ^ (-52 - t) = 2 ^ (- t)) as ->.
  { change 4503599627370496 with (2 ^ 52). rewrite <- Z.pow_add_r by lia. f_equal. lia. }
  assert (0 < 2 ^ (e - t)) as Hp by (apply Z.pow_pos_nonneg; lia).
  destruct (Z.leb_spec 1 (D + e)) as [Hle|Hgt].
  - assert (2 ^ (- t) <= 2 ^ (D - 1) * 2 ^ (e - t)).
    { rewrite <- Z.pow_add_r by lia. apply Z.pow_le_mono_r; lia. }
    destruct (Z.compare_spec (2 ^ (- t)) (Zpos m * 2 ^ (e - t))); [done|done|]. nia.
  - assert (2 ^ D * 2 ^ (e - t) <= 2 ^ (- t)).
    { rewrite <- Z.pow_add_r by lia. apply Z.pow_le_mono_r; lia. }
    destruct (Z.compare_spec (2 ^ (- t)) (Zpos m * 2 ^ (e - t))); [nia|nia|done].
Qed.

Lemma leb_four m e t :
  0 <= t -> - e <= t ->
  num_leb (S754_finite false m e) (num_of_Z 4) = (Zpos m * 2 ^ (e + t) <=? 4 * 2 ^ t).
Proof.
  intros Ht He. change (num_of_Z 4) with (S754_finite false 4503599627370496 (-50)). unfold num_leb, num_cmp. cbn [num_parts].
  set (t' := Z.max t 50). rewrite (cmp_parts_scale _ _ (- t')) by (cbn [snd]; lia). cbn [fst snd].
  assert (4503599627370496 * 2 ^ (-50 - - t') = 4 * 2 ^ t * 2 ^ (t' - t)) as ->.
  { change 4503599627370496 with (4 * 2 ^ 50). rewrite <- !Z.mul_assoc, <- !Z.pow_add_r by lia. do 2 f_equal. lia. }
  replace (e - - t') with (e + t + (t' - t)) by lia. rewrite (Z.pow_add_r 2 (e + t)) by lia.
  rewrite Z.mul_assoc, compare_scale by (apply Z.pow_pos_nonneg; lia).
  unfold Z.leb. by destruct (_ ?= _).
Qed.

(** A value in [1, 4], as the zoom of a chart is. *)
Definition in_1_4 (x : num) : bool := num_leb (num_of_Z 1) x && num_leb x (num_of_Z 4).

Lemma in_1_4_finite x :
  in_1_4 x = true -> exists m e, x = S754_finite false m e /\ 1 <= top m e <= 3.
Proof.
  intros [H1 H4]%andb_true_iff. destruct x as [s|[]| |[] m e]; try done.
  { exfalso. revert H1. unfold num_leb, num_cmp. change (num_of_Z 1) with (S754_finite false 4503599627370496 (-52)).
    cbn [num_parts]. set (t := Z.min (-52) e). rewrite (cmp_parts_scale _ _ t) by (cbn [snd]; lia). cbn [fst snd].
    assert (0 < 2 ^ (-52 - t) /\ 0 < 2 ^ (e - t)) as [? ?] by (split; apply Z.pow_pos_nonneg; lia).
    destruct (Z.compare_spec (4503599627370496 * 2 ^ (-52 - t)) (Zneg m * 2 ^ (e - t))); [nia|nia|done]. }
  exists m, e. split; [done|]. rewrite leb_one in H1. split; [by apply Z.leb_le|].
  rewrite (leb_four m e (Z.abs e)) in H4 by lia. apply Z.leb_le in H4.
  pose proof (digits2_pos_bounds m) as Hm. unfold top in *. set (D := Zpos (digits2_pos m)) in *. apply Z.leb_le in H1.
  apply Z.nlt_ge. intros Hc.
  assert (8 * 2 ^ Z.abs e <= 2 ^ (D - 1) * 2 ^ (e + Z.abs e)).
  { change 8 with (2 ^ 3). rewrite <- !Z.pow_add_r by lia. apply Z.pow_le_mono_r; lia. }
  pose proof (Z.pow_pos_nonneg 2 (e + Z.abs e) ltac:(lia) ltac:(lia)).
  pose proof (Z.pow_pos_nonneg 2 (Z.abs e) ltac:(lia) ltac:(lia)). nia.
Qed.

(** A factor between 1 and 2 keeps a value of at least 1 there. *)
Lemma mul_stays_above x mc ec :
  in_1_4 x = true -> top mc ec = 1 ->
  exists m e, num_mul x (S754_finite false mc ec) = S754_finite false m e
    /\ num_leb (num_of_Z 1) (S754_finite false m e) = true.
Proof.
  intros (mx & ex & -> & Hx)%in_1_4_finite Hc. unfold num_mul, SFmul. change (xorb false false) with false.
  assert (top mx ex + top mc ec - 1 <= top (mx * mc) (ex + ec) <= top mx ex + top mc ec) as Htop.
  { unfold top. pose proof (digits2_pos_bounds mx) as Hm. pose proof (digits2_pos_bounds mc) as Hn.
    set (d1 := Zpos (digits2_pos mx)) in *. set (d2 := Zpos (digits2_pos mc)) in *.
    assert (0 < d1 /\ 0 < d2) as [? ?] by (unfold d1, d2; lia).
    pose proof (digits2_pos_bounds (mx * mc)) as Hp. set (D := Zpos (digits2_pos (mx * mc))) in *.
    rewrite Pos2Z.inj_mul in Hp.
    assert (2 ^ (d1 + d2) = 2 ^ d1 * 2 ^ d2) as E1 by (by rewrite Z.pow_add_r by lia).
    assert (2 ^ (d1 - 1 + (d2 - 1)) = 2 ^ (d1 - 1) * 2 ^ (d2 - 1)) as E2 by (by rewrite Z.pow_add_r by lia).
    assert (0 < 2 ^ (d1 - 1) /\ 0 < 2 ^ (d2 - 1)) as [? ?] by (split; apply Z.pow_pos_nonneg; lia).
    split; apply Z.nlt_ge; intros Hlt.
    - assert (2 ^ D <= 2 ^ (d1 - 1 + (d2 - 1))) by (apply Z.pow_le_mono_r; lia). nia.
    - assert (2 ^ (d1 + d2) <= 2 ^ (D - 1)) by (apply Z.pow_le_mono_r; lia). nia. }
  destruct (round_top (mx * mc) (ex + ec) loc_Exact) as (m & e & -> & Hr); [lia|].
  exists m, e. split; [done|]. rewrite leb_one. apply Z.leb_le.
  destruct Hr as [->|(j & Hj & Hmj & Hje)]; [lia|]. unfold top.
  rewrite (digits2_pos_unique m (j + 1)); [lia| |lia]. rewrite Hmj. replace (j + 1 - 1) with j by lia.
  split; [done|]. apply Z.pow_lt_mono_r; lia.
Qed.

(** Dividing by a number between 1 and 2 keeps a value of at most 4 there. *)
Lemma div_stays_below x mc ec :
  in_1_4 x = true -> top mc ec = 1 -> ec <= 0 -> 2 ^ (- ec) < Zpos mc ->
  exists m e, num_div x (S754_finite false mc ec) = S754_finite false m e
    /\ num_leb (S754_finite false m e) (num_of_Z 4) = true.
Proof.
  intros Hin Hc Hec Hgt. pose proof Hin as (mx & ex & -> & Hx)%in_1_4_finite.
  apply andb_true_iff in Hin as [_ H4]. rewrite (leb_four mx ex (Z.abs ex)) in H4 by lia. apply Z.leb_le in H4.
  pose proof (digits2_pos_bounds mx) as Hdx. pose proof (digits2_pos_bounds mc) as Hdc. unfold top in Hx, Hc.
  assert (forall k, 0 <= k -> 0 < 2 ^ k) as Hpow by (intros; apply Z.pow_pos_nonneg; lia).
  unfold num_div, SFdiv, SFdiv_core_binary. change (xorb false false) with false. cbn [Zdigits2].
  set (d1 := Zpos (digits2_pos mx)) in *. set (d2 := Zpos (digits2_pos mc)) in *.
  assert (0 < d1 /\ 0 < d2) as [Hd1 Hd2] by (unfold d1, d2; lia).
  set (e' := Z.min (fexp 53 1024 (d1 + ex - (d2 + ec))) (ex - ec)).
  assert (e' <= ex - ec /\ e' <= d1 + ex - d2 - ec - 53) as (Hs & Hf) by (unfold e', fexp, emin; lia).
  set (s := ex - ec - e'). cbv zeta.
  replace (match s with Zpos _ => Z.shiftl (Zpos mx) s | Z0 => Zpos mx | Zneg _ => 0 end)
    with (Zpos mx * 2 ^ s).
  2: { destruct s eqn:E; [by rewrite Z.mul_1_r|by rewrite Z.shiftl_mul_pow2 by lia|unfold s in E; lia]. }
  pose proof (Z_div_mod (Zpos mx * 2 ^ s) (Zpos mc) ltac:(lia)) as Hdm.
  destruct (Z.div_eucl (Zpos mx * 2 ^ s) (Zpos mc)) as [q r]. destruct Hdm as [Hq Hr].
  assert (0 < q) as Hq0.
  { apply Z.nle_gt. intros Hle. assert (2 ^ d2 <= 2 ^ (d1 - 1) * 2 ^ s) by
      (rewrite <- Z.pow_add_r by (unfold s; lia); apply Z.pow_le_mono_r; unfold s; lia).
    assert (2 ^ (d1 - 1) * 2 ^ s <= Zpos mx * 2 ^ s) by (apply Z.mul_le_mono_nonneg_r; [apply Z.pow_nonneg; lia|lia]).
    assert (Zpos mc * q <= 0) by (apply Z.mul_nonneg_nonpos; lia). lia. }
  destruct q as [|q|q]; [lia| |lia].
  pose proof (digits2_pos_bounds q) as Hdq. set (D := Zpos (digits2_pos q)) in *. assert (0 < D) by (unfold D; lia).
  (* the quotient is below 4 *)
  assert (D + e' <= 2) as HDe.
  { apply Z.nlt_ge. intros Hlt. set (t := Z.abs ex).
    assert (Zpos q * Zpos mc <= Zpos mx * 2 ^ s) as Hle by lia.
    assert (Zpos mx * 2 ^ s * 2 ^ (e' + t + Z.abs e') <= 4 * 2 ^ (- ec) * 2 ^ (t + Z.abs e')) as Hup.
    { rewrite <- !Z.mul_assoc, <- !Z.pow_add_r by (unfold s; lia).
      replace (s + (e' + t + Z.abs e')) with (ex + t + (- ec + Z.abs e')) by (unfold s; lia).
      rewrite (Z.pow_add_r 2 (ex + t)), Z.mul_assoc by lia.
      replace (- ec + (t + Z.abs e')) with (t + (- ec + Z.abs e')) by lia.
      rewrite (Z.pow_add_r 2 t), (Z.mul_assoc 4) by lia. apply Z.mul_le_mono_nonneg_r; [apply Z.pow_nonneg; lia|exact H4]. }
    assert (4 * 2 ^ (t + Z.abs e') <= Zpos q * 2 ^ (e' + t + Z.abs e')) as Hlow.
    { assert (4 * 2 ^ (t + Z.abs e') <= 2 ^ (D - 1) * 2 ^ (e' + t + Z.abs e')).
      { change 4 with (2 ^ 2). rewrite <- !Z.pow_add_r by lia. apply Z.pow_le_mono_r; lia. }
      assert (2 ^ (D - 1) * 2 ^ (e' + t + Z.abs e') <= Zpos q * 2 ^ (e' + t + Z.abs e'))
        by (apply Z.mul_le_mono_nonneg_r; [apply Z.pow_nonneg; lia|lia]). lia. }
    apply (Z.lt_irrefl (4 * 2 ^ (t + Z.abs e') * Zpos mc)).
    apply Z.le_lt_trans with (4 * 2 ^ (t + Z.abs e') * 2 ^ (- ec)).
    2: { apply Z.mul_lt_mono_pos_l; [|done]. pose proof (Hpow (t + Z.abs e') ltac:(lia)). lia. }
    apply Z.le_trans with (Zpos q * 2 ^ (e' + t + Z.abs e') * Zpos mc); [by apply Z.mul_le_mono_nonneg_r|].
    apply Z.le_trans with (Zpos mx * 2 ^ s * 2 ^ (e' + t + Z.abs e')).
    - replace (Zpos q * 2 ^ (e' + t + Z.abs e') * Zpos mc) with (Zpos q * Zpos mc * 2 ^ (e' + t + Z.abs e')) by ring.
      apply Z.mul_le_mono_nonneg_r; [apply Z.pow_nonneg; lia|exact Hle].
    - replace (4 * 2 ^ (t + Z.abs e') * 2 ^ (- ec)) with (4 * 2 ^ (- ec) * 2 ^ (t + Z.abs e')) by ring. exact Hup. }
  assert (-1 <= D + e') as HDlow.
  { apply Z.nlt_ge. intros Hlt.
    assert (2 ^ (D + d2) <= 2 ^ (d1 - 1) * 2 ^ s) by
      (rewrite <- Z.pow_add_r by (unfold s; lia); apply Z.pow_le_mono_r; unfold s; lia).
    assert (2 ^ (d1 - 1) * 2 ^ s <= Zpos mx * 2 ^ s) by (apply Z.mul_le_mono_nonneg_r; [apply Z.pow_nonneg; lia|lia]).
    assert ((Zpos q + 1) * Zpos mc <= 2 ^ D * 2 ^ d2) by (apply Z.mul_le_mono_nonneg; lia).
    rewrite (Z.pow_add_r 2 D) in * by lia. lia. }
  destruct (round_top q e' (new_location (Zpos mc) r)) as (m & e & -> & Htop); [unfold top; fold D; lia|].
  exists m, e. split; [done|]. rewrite (leb_four m e (Z.abs e)) by lia. apply Z.leb_le.
  assert (top q e' <= 2) as Hq2 by (unfold top; fold D; lia).
  assert (Zpos m * 2 ^ (e + Z.abs e) <= 2 ^ 2 * 2 ^ Z.abs e) as Hfin; [|exact Hfin].
  destruct Htop as [Ht|(j & Hj & Hmj & Hje)].
  - unfold top in Ht, Hq2. pose proof (digits2_pos_bounds m) as Hm.
    assert (2 ^ Zpos (digits2_pos m) * 2 ^ (e + Z.abs e) <= 2 ^ 2 * 2 ^ Z.abs e).
    { rewrite <- !Z.pow_add_r by lia. apply Z.pow_le_mono_r; lia. }
    assert (Zpos m * 2 ^ (e + Z.abs e) <= 2 ^ Zpos (digits2_pos m) * 2 ^ (e + Z.abs e))
      by (apply Z.mul_le_mono_nonneg_r; [apply Z.pow_nonneg; lia|lia]). lia.
  - rewrite Hmj, <- !Z.pow_add_r by lia. apply Z.pow_le_mono_r; lia.
Qed.

(** On finite numbers the order is total. *)
Lemma num_leb_negb x y : is_finite x = true -> is_finite y = true -> num_leb x y = negb (num_ltb y x).
Proof.
  intros Hx Hy. unfold is_finite in *. destruct (num_parts x) as [a|] eqn:Ea, (num_parts y) as [b|] eqn:Eb; try done.
  assert (num_cmp x y = Some (cmp_parts a b)) as Hxy by (destruct x, y; simpl in *; by simplify_eq).
  assert (num_cmp y x = Some (cmp_parts b a)) as Hyx by (destruct x, y; simpl in *; by simplify_eq).
  unfold num_leb, num_ltb. rewrite Hxy, Hyx. unfold cmp_parts. rewrite (Z.min_comm (snd b)), Z.compare_antisym.
  by destruct (_ ?= _).
Qed.
