(* ===== verification/JsSort.v ===== *)
(** * Sorting

    [Array.prototype.sort] is stable; for a comparator that is a total preorder its
    result is the one stable sorted permutation, which [sort_by] computes.  [le a b]
    says that the comparator of [a] and [b] is not positive. *)

From S2P Require Import Prelude.
From stdpp Require Import sorting.

Section sort.
Context {A : Type} (le : A -> A -> bool).

Fixpoint insert_by (x : A) (l : list A) : list A :=
  match l with
  | [] => [x]
  | y :: l' => if le x y then x :: y :: l' else y :: insert_by x l'
  end.

Definition sort_by (l : list A) : list A := foldr insert_by [] l.

Lemma insert_by_perm x l : insert_by x l ≡ₚ x :: l.
Proof.
  induction l as [|y l IH]; simpl; [done|]. destruct (le x y); [done|].
  rewrite IH. constructor.
Qed.

Lemma sort_by_perm l : sort_by l ≡ₚ l.
Proof. induction l as [|x l IH]; simpl; [done|]. by rewrite insert_by_perm, IH. Qed.

(** The elements on which the comparator is total and transitive. *)
Variable P : A -> Prop.
Hypothesis le_total : forall a b, P a -> P b -> le a b = true \/ le b a = true.
Hypothesis le_trans : forall a b c, P a -> P b -> P c -> le a b = true -> le b c = true -> le a c = true.

Lemma insert_by_sorted x l :
  P x -> Forall P l -> StronglySorted (fun a b => le a b = true) l ->
  StronglySorted (fun a b => le a b = true) (insert_by x l).
Proof.
  intros Hx Hl Hs. induction Hs as [|y l Hs IH Hy]; simpl; [by repeat constructor|].
  apply Forall_cons in Hl as [Py Hl]. destruct (le x y) eqn:E.
  - constructor; [by constructor|]. constructor; [done|].
    rewrite Forall_forall in *. intros z Hz. apply le_trans with y; auto.
  - constructor; [auto|]. rewrite (insert_by_perm x l). constructor; [|done].
    destruct (le_total x y Hx Py); congruence.
Qed.

Lemma sort_by_sorted l : Forall P l -> StronglySorted (fun a b => le a b = true) (sort_by l).
Proof.
  intros H. induction H as [|x l Hx Hl IH]; simpl; [constructor|].
  apply insert_by_sorted; [done| |done]. by rewrite sort_by_perm.
Qed.

(** Sorted lists with the same elements are equal when the comparator separates the
    elements. *)
Lemma sorted_unique l1 l2 :
  (forall a b, a ∈ l1 -> b ∈ l1 -> le a b = true -> le b a = true -> a = b) ->
  StronglySorted (fun a b => le a b = true) l1 ->
  StronglySorted (fun a b => le a b = true) l2 -> l1 ≡ₚ l2 -> l1 = l2.
Proof.
  intros Hanti H1. revert l2. induction H1 as [|a l1 H1 IH Ha]; intros l2 H2 Hp.
  { by apply Permutation_nil in Hp. }
  destruct H2 as [|b l2 H2 Hb]; [by symmetry in Hp; apply Permutation_nil in Hp|].
  assert (a = b) as <-.
  { assert (a ∈ b :: l2) as Hin by (rewrite <- Hp; set_solver).
    assert (b ∈ a :: l1) as Hin' by (rewrite Hp; set_solver).
    apply elem_of_cons in Hin as [->|Hin]; [done|].
    apply elem_of_cons in Hin' as [->|Hin']; [done|].
    rewrite Forall_forall in Ha, Hb. apply Hanti; [set_solver..|by apply Ha|by apply Hb]. }
  f_equal. apply IH; [|done|by apply Permutation_cons_inv in Hp].
  intros x y Hx Hy. apply Hanti; set_solver.
Qed.

(** Sorting forgets the order the elements came in. *)
Lemma sort_by_canonical l1 l2 :
  Forall P l1 ->
  (forall a b, a ∈ l1 -> b ∈ l1 -> le a b = true -> le b a = true -> a = b) ->
  l1 ≡ₚ l2 -> sort_by l1 = sort_by l2.
Proof.
  intros HP Hanti Hp. apply sorted_unique.
  - intros a b Ha Hb. rewrite sort_by_perm in Ha, Hb. by apply Hanti.
  - by apply sort_by_sorted.
  - apply sort_by_sorted. by rewrite <- Hp.
  - by rewrite !sort_by_perm.
Qed.
End sort.

Lemma StronglySorted_weaken {A} (R S : A -> A -> Prop) l :
  (forall a b, R a b -> S a b) -> StronglySorted R l -> StronglySorted S l.
Proof. intros H Hs. induction Hs as [|a l Hs IH Ha]; constructor; [done|]. eapply Forall_impl; eauto. Qed.

(** Earlier elements of a sorted list are related to later ones. *)
Lemma StronglySorted_lookup {A} (R : A -> A -> Prop) l i j x y :
  StronglySorted R l -> (i < j)%nat -> l !! i = Some x -> l !! j = Some y -> R x y.
Proof.
  intros Hs. revert i j. induction Hs as [|z l Hs IH Hz]; intros i j Hij Hi Hj; [done|].
  destruct j as [|j]; [lia|]. destruct i as [|i]; simpl in *.
  - simplify_eq. rewrite Forall_forall in Hz. by eapply Hz, list_elem_of_lookup_2.
  - eapply (IH i j); [lia|done..].
Qed.

(** Sorting by a comparator that looks at a weight first, heavier elements in front, orders the
    weights, whatever it does with equal ones. *)
Lemma sort_by_weights {A} (le : A -> A -> bool) (w : A -> Z) l :
  (forall a b, le a b = true -> (w b <= w a)%Z) -> (forall a b, le a b = false -> (w a <= w b)%Z) ->
  StronglySorted (fun a b => (w b <= w a)%Z) (sort_by le l).
Proof.
  intros Hle Hgt. induction l as [|x l IH]; [constructor|]. cbn [sort_by foldr]. fold (sort_by le l).
  induction IH as [|y r Hr IHr Hy]; cbn [insert_by]; [by repeat constructor|]. destruct (le x y) eqn:E.
  - constructor; [by constructor|]. constructor; [by apply Hle|]. apply Hle in E.
    eapply Forall_impl; [exact Hy|]. cbn. lia.
  - constructor; [done|]. rewrite (insert_by_perm le x r). constructor; [by apply Hgt|done].
Qed.
