(* ===== verification/JsMap.v ===== *)
(** * Maps and sets in insertion order

    JavaScript's [Map] and [Set] with texts as keys: lists that remember the order in which
    the keys came. *)

From S2P Require Import Prelude.
Open Scope string_scope.

(** ** Maps in insertion order *)

(** A JavaScript [Map]: [set] keeps the place of a key it has. *)
Fixpoint map_get {A} (k : string) (m : list (string * A)) : option A :=
  match m with
  | [] => None
  | (k', a) :: m => if String.eqb k k' then Some a else map_get k m
  end.
Fixpoint map_set {A} (k : string) (a : A) (m : list (string * A)) : list (string * A) :=
  match m with
  | [] => [(k, a)]
  | (k', a') :: m => if String.eqb k k' then (k', a) :: m else (k', a') :: map_set k a m
  end.

Lemma map_get_set {A} k k' (a : A) m :
  map_get k (map_set k' a m) = if String.eqb k k' then Some a else map_get k m.
Proof.
  induction m as [|[k1 a1] m IH]; simpl; [done|].
  destruct (String.eqb_spec k' k1) as [->|Hne]; simpl.
  - by destruct (String.eqb k k1).
  - rewrite IH. destruct (String.eqb_spec k k1), (String.eqb_spec k k'); congruence.
Qed.

Lemma map_set_keys {A} k (a : A) m x : x ∈ (map_set k a m).*1 <-> x = k \/ x ∈ m.*1.
Proof.
  induction m as [|[k1 a1] m IH]; simpl; [set_solver|].
  destruct (String.eqb_spec k k1) as [->|]; simpl; set_solver.
Qed.

Lemma map_set_NoDup {A} k (a : A) m : NoDup m.*1 -> NoDup (map_set k a m).*1.
Proof.
  induction m as [|[k1 a1] m IH]; simpl; intros Hm; [repeat constructor; set_solver|].
  apply NoDup_cons in Hm as [Hn Hm]. destruct (String.eqb_spec k k1) as [->|Hne]; simpl.
  - by apply NoDup_cons.
  - apply NoDup_cons. split; [|auto]. rewrite map_set_keys. set_solver.
Qed.

Lemma map_set_Forall {A} (P : string * A -> Prop) k a m :
  P (k, a) -> Forall P m -> Forall P (map_set k a m).
Proof.
  intros Hk. induction 1 as [|[k1 a1] m H1 Hm IH]; simpl; [by repeat constructor|].
  destruct (String.eqb_spec k k1) as [<-|]; by constructor.
Qed.

(** ** Sets in insertion order *)

(** [set.add(s)] on a set of texts, in order of insertion. *)
Definition set_add (s : string) (l : list string) : list string :=
  if bool_decide (s ∈ l) then l else (l ++ [s])%list.

Definition add_all (l acc : list string) : list string := foldl (fun acc s => set_add s acc) acc l.

Lemma elem_of_set_add s t l : s ∈ set_add t l <-> s = t \/ s ∈ l.
Proof. unfold set_add. case_bool_decide; set_solver. Qed.

Lemma elem_of_add_all s l acc : s ∈ add_all l acc <-> s ∈ l \/ s ∈ acc.
Proof.
  unfold add_all. revert acc; induction l as [|t l IH]; intros acc; simpl; [set_solver|].
  rewrite IH, elem_of_set_add. set_solver.
Qed.

Lemma NoDup_add_all l acc : NoDup acc -> NoDup (add_all l acc).
Proof.
  unfold add_all. revert acc; induction l as [|t l IH]; intros acc H; simpl; [done|]. apply IH.
  unfold set_add. case_bool_decide; [done|]. apply NoDup_app. split_and!; [done| |by apply NoDup_singleton].
  intros x Hx ->%list_elem_of_singleton. done.
Qed.
