(* ===== verification/PageMonad.v ===== *)
(** * Handlers of a page

    The functions a page's handlers are written with: they change the page and return or
    throw; and what handlers send to the wallet. *)

From S2P Require Import Prelude JsString JsNumber JsValue JsError.
Open Scope string_scope.
Open Scope Z_scope.

(** A function of a page with state [S]: it changes the state and returns or throws. *)
Definition act (S A : Type) : Type := S -> S * res js_error A.

Section act.
Context {S : Type}.

Definition done_with {A} (r : res js_error A) : act S A := fun s => (s, r).
Definition act_bind {A B} (m : act S A) (k : A -> act S B) : act S B := fun s =>
  match m s with
  | (s', Ok a) => k a s'
  | (s', Throw e) => (s', Throw e)
  end.
(** [try { m } catch (e) { f(e) }] *)
Definition act_catch {A} (m : act S A) (f : js_error -> act S A) : act S A := fun s =>
  match m s with
  | (s', Ok a) => (s', Ok a)
  | (s', Throw e) => f e s'
  end.
(** [try { m } finally { k }], where [k] does not throw. *)
Definition act_finally {A} (m : act S A) (k : S -> S) : act S A := fun s => (k (fst (m s)), snd (m s)).
Definition update (f : S -> S) : act S unit := fun s => (f s, Ok tt).
End act.

Declare Scope act_scope.
Delimit Scope act_scope with act.
Notation "'await' x <- m ; k" := (act_bind m (fun x => k))
  (at level 200, x name, m at level 100, k at level 200, right associativity) : act_scope.
Notation "'run' m ; k" := (act_bind m (fun _ => k))
  (at level 200, m at level 100, k at level 200, right associativity) : act_scope.

(** ** Transactions *)

(** An argument of a contract call. *)
Inductive abi_arg :=
| ArgUint (n : Z)
| ArgAddress (a : string)
| ArgBool (b : bool)
| ArgPath (p : list string)
| ArgUints (l : list Z)
| ArgBytes (b : string).

Record contract_write := {
  cw_address : string;
  cw_functionName : string;
  cw_args : list abi_arg;
  cw_value : option Z;
  cw_chainId : Z;
  cw_gas : option Z;
}.

(** A block of [publicClient.getBlock()]. *)
Record chain_block := { cb_timestamp : Z; cb_number : option Z; cb_hash : option string }.
