(* ===== verification/LocalLimitOrders.v ===== *)
(** * The browser's limit-order store (frontend/src/lib/localLimitOrders.ts)

    Local storage holds two JSON arrays: the limit orders and, per chain, the last
    block seen.  An order is the object the array holds, unknown properties
    included; [isLocalLimitOrderRecord] is the type guard the reader filters with.
    [syncLocalLimitOrdersWithChain] is modelled with the browser state that other
    code leaves behind at its [await] ([interfere]). *)

From S2P Require Import Prelude JsString JsNumber JsValue.
Open Scope string_scope.
Open Scope Z_scope.
Open Scope flux_scope.

Definition LOCAL_LIMIT_ORDERS_STORAGE_KEY : string := "fluxswap:limit-orders:v1".
Definition LOCAL_LIMIT_ORDERS_UPDATED_EVENT : string := "fluxswap:limit-orders-updated".
Definition LOCAL_LIMIT_ORDERS_CHAIN_STATE_STORAGE_KEY : string :=
  "fluxswap:limit-orders:chain-state:v1".

(** [hardhat.id] of wagmi/chains. *)
Definition hardhat_id : Z := 31337.

(** ** Normalisation and type guards *)

Definition normalizeAddress (value : string) : string := to_lower (trim value).
Definition normalizeHash (value : string) : string := to_lower (trim value).
Definition parseStoredBigInt (value : string) : option Z := bigint_of_string value.

(** A property whose static type is [string]. *)
Definition str_prop (k : string) (o : obj) : string :=
  match obj_get k o with VStr s => s | _ => "" end.

Definition buildOrderKey (order : obj) : string :=
  to_string (obj_get "chainId" order) ++ ":"
  ++ normalizeAddress (str_prop "settlementAddress" order) ++ ":"
  ++ normalizeHash (str_prop "orderHash" order).

(** The properties a [LocalLimitOrderRecord] must have, other than [chainId]. *)
Definition LocalLimitOrderRecord_strings : list string :=
  ["settlementAddress"; "orderHash"; "maker"; "inputToken"; "outputToken"; "amountIn";
   "minAmountOut"; "maxExecutorRewardBps"; "triggerPriceX18"; "expiry"; "nonce";
   "recipient"; "source"; "status"; "createdAt"; "updatedAt"].

Definition isLocalLimitOrderRecord (value : jsval) : bool :=
  match value with
  | VObj item =>
    is_num (obj_get "chainId" item) &&
    forallb (fun k => is_str (obj_get k item)) LocalLimitOrderRecord_strings
  | _ => false
  end.

Definition isLocalLimitOrdersChainState (value : jsval) : bool :=
  match value with
  | VObj item =>
    is_num (obj_get "chainId" item) &&
    is_str (obj_get "lastSeenBlockNumber" item) &&
    is_str (obj_get "lastSeenBlockHash" item)
  | _ => false
  end.

(** [order.chainId === chainId] for a chain id that is an integer. *)
Definition chain_is (chainId : Z) (o : obj) : bool :=
  match obj_get "chainId" o with
  | VNum n => num_eqb n (num_of_Z chainId)
  | _ => false
  end.

(** The elements of a parsed array that a type guard accepts. *)
Fixpoint filter_objs (guard : jsval -> bool) (l : list jsval) : list obj :=
  match l with
  | [] => []
  | VObj o :: l' => if guard (VObj o) then o :: filter_objs guard l' else filter_objs guard l'
  | _ :: l' => filter_objs guard l'
  end.

(** A block as [publicClient.getBlock] returns it; a pending one has nulls. *)
Record block := { block_number : option Z; block_hash : option string }.

Section store.
Context `{Codec : JsonCodec raw}.

Record browser := {
  has_window : bool;
  items : gmap string raw;
  dispatched : list string;
}.

Definition canUseLocalStorage (b : browser) : bool := has_window b.

Definition set_item (k : string) (v : jsval) (b : browser) : browser :=
  {| has_window := has_window b;
     items := <[k := json_stringify v]> (items b);
     dispatched := dispatched b |}.

Definition dispatch (e : string) (b : browser) : browser :=
  {| has_window := has_window b; items := items b; dispatched := (dispatched b ++ [e])%list |}.

(** The common shape of the two readers. *)
Definition read_array (key : string) (guard : jsval -> bool) (b : browser) : list obj :=
  if negb (canUseLocalStorage b) then []
  else match items b !! key with
  | None => []
  | Some r =>
    if json_falsy r then []
    else match json_parse r with
    | Some (VArr l) => filter_objs guard l
    | _ => []
    end
  end.

Definition readStoredLimitOrders : browser -> list obj :=
  read_array LOCAL_LIMIT_ORDERS_STORAGE_KEY isLocalLimitOrderRecord.

Definition writeStoredLimitOrders (orders : list obj) (b : browser) : browser :=
  if negb (canUseLocalStorage b) then b
  else dispatch LOCAL_LIMIT_ORDERS_UPDATED_EVENT
         (set_item LOCAL_LIMIT_ORDERS_STORAGE_KEY (VArr (VObj <$> orders)) b).

Definition readStoredChainStates : browser -> list obj :=
  read_array LOCAL_LIMIT_ORDERS_CHAIN_STATE_STORAGE_KEY isLocalLimitOrdersChainState.

Definition writeStoredChainStates (states : list obj) (b : browser) : browser :=
  if negb (canUseLocalStorage b) then b
  else set_item LOCAL_LIMIT_ORDERS_CHAIN_STATE_STORAGE_KEY (VArr (VObj <$> states)) b.

Definition chain_state (chainId lastSeenBlockNumber : Z) (lastSeenBlockHash : string) : obj :=
  [("chainId", VNum (num_of_Z chainId));
   ("lastSeenBlockNumber", VStr (dec lastSeenBlockNumber));
   ("lastSeenBlockHash", VStr (normalizeHash lastSeenBlockHash))].

Definition updateStoredChainState (chainId lastSeenBlockNumber : Z)
    (lastSeenBlockHash : string) (b : browser) : browser :=
  let nextState := chain_state chainId lastSeenBlockNumber lastSeenBlockHash in
  let states := readStoredChainStates b in
  let nextStates :=
    match find_index (chain_is chainId) states with
    | Some existingIndex => <[existingIndex := nextState]> states
    | None => (states ++ [nextState])%list
    end in
  writeStoredChainStates nextStates b.

Definition clearStoredLimitOrdersForChain (chainId : Z) (b : browser) : browser :=
  let orders := readStoredLimitOrders b in
  let nextOrders := keep (fun order => negb (chain_is chainId order)) orders in
  if Nat.eqb (length nextOrders) (length orders) then b
  else writeStoredLimitOrders nextOrders b.

Definition listLocalLimitOrders : browser -> list obj := readStoredLimitOrders.

(** What the sync decides from the stored chain state. *)
Inductive verdict := Unchanged | Cleared | AskHistorical (blockNumber : Z) (storedHash : string).

Definition sync_verdict (chainId currentBlockNumber : Z) (b : browser) : verdict :=
  match find_first (chain_is chainId) (readStoredChainStates b) with
  | None => if chainId =? hardhat_id then Cleared else Unchanged
  | Some currentState =>
    let storedBlockNumber := parseStoredBigInt (str_prop "lastSeenBlockNumber" currentState) in
    let storedBlockHash := normalizeHash (str_prop "lastSeenBlockHash" currentState) in
    match storedBlockNumber with
    | None => Cleared
    | Some n =>
      if String.eqb storedBlockHash "" || (currentBlockNumber <? n) then Cleared
      else AskHistorical n storedBlockHash
    end
  end.

(** Whether the block the node now has at the stored height is another one. *)
Definition reorged (historical : res string block) (storedBlockHash : string) : bool :=
  match historical with
  | Throw _ => true
  | Ok hb =>
    let historicalBlockHash :=
      match block_hash hb with Some h => if str_nonempty h then normalizeHash h else "" | None => "" end in
    negb (str_nonempty historicalBlockHash) || negb (String.eqb historicalBlockHash storedBlockHash)
  end.

(** [getBlock None] is [publicClient.getBlock()], [getBlock (Some n)] asks for
    height [n].  [interfere] is what the page does to the browser state while
    the historical block is awaited. *)
Definition syncLocalLimitOrdersWithChain (getBlock : option Z -> res string block)
    (interfere : browser -> browser) (chainId : Z)
    (latestBlockNumber : option Z) (latestBlockHash : option string) (b : browser)
    : res string (bool * browser) :=
  let* latestBlock :=
    match latestBlockNumber, latestBlockHash with
    | Some n, Some h =>
      if str_nonempty h then Ok {| block_number := Some n; block_hash := Some h |}
      else getBlock None
    | _, _ => getBlock None
    end in
  match block_number latestBlock, block_hash latestBlock with
  | Some currentBlockNumber, Some currentBlockHash =>
    if negb (str_nonempty currentBlockHash) then Ok (false, b)
    else
      let '(didClear, b') :=
        match sync_verdict chainId currentBlockNumber b with
        | Unchanged => (false, b)
        | Cleared => (true, clearStoredLimitOrdersForChain chainId b)
        | AskHistorical n storedBlockHash =>
          let b1 := interfere b in
          if reorged (getBlock (Some n)) storedBlockHash
          then (true, clearStoredLimitOrdersForChain chainId b1)
          else (false, b1)
        end in
      Ok (didClear, updateStoredChainState chainId currentBlockNumber currentBlockHash b')
  | _, _ => Ok (false, b)
  end.

Definition upsertLocalLimitOrder (order : obj) (b : browser) : browser :=
  let orders := readStoredLimitOrders b in
  let orderKey := buildOrderKey order in
  let nextOrders :=
    match find_index (fun item => String.eqb (buildOrderKey item) orderKey) orders with
    | Some existingIndex =>
      let existing := default [] (orders !! existingIndex) in
      let createdAt := if truthy (obj_get "createdAt" existing)
                       then obj_get "createdAt" existing else obj_get "createdAt" order in
      <[existingIndex := obj_set "createdAt" createdAt (obj_spread existing order)]> orders
    | None => order :: orders
    end in
  writeStoredLimitOrders nextOrders b.

Definition patchLocalLimitOrder (order updates : obj) (b : browser) : browser :=
  let orders := readStoredLimitOrders b in
  let orderKey := buildOrderKey order in
  match find_index (fun item => String.eqb (buildOrderKey item) orderKey) orders with
  | None => b
  | Some existingIndex =>
    let existing := default [] (orders !! existingIndex) in
    writeStoredLimitOrders (<[existingIndex := obj_spread existing updates]> orders) b
  end.
End store.
Arguments browser raw : clear implicits.

(** ** Records *)

(** An order the store accepts: what [JSON.stringify] writes for it is read back
    by the type guard. *)
Definition order_ok (o : obj) : Prop :=
  json_ok (VObj o) = true /\ isLocalLimitOrderRecord (VObj (clean_obj o)) = true.

Lemma record_guard o :
  isLocalLimitOrderRecord (VObj o) = true ->
  (exists n, obj_get "chainId" o = VNum n)
  /\ forall k, k ∈ LocalLimitOrderRecord_strings -> exists s, obj_get k o = VStr s.
Proof.
  cbn [isLocalLimitOrderRecord]. intros H. apply andb_true_iff in H as [Hn Hs]. split.
  - destruct (obj_get "chainId" o); naive_solver.
  - intros k Hk. rewrite forallb_forall in Hs.
    specialize (Hs k). rewrite <- list_elem_of_In in Hs. specialize (Hs Hk).
    destruct (obj_get k o); naive_solver.
Qed.

Lemma order_ok_wf o : order_ok o -> obj_wf o.
Proof. intros [H _]. by apply json_ok_obj in H as [? _]. Qed.

Lemma clean_field_str v s : clean_field v = VStr s -> v = VStr s.
Proof. destruct v; try done. by destruct n. Qed.

Lemma clean_field_num v n :
  clean_field v = VNum n ->
  exists m, v = VNum m /\ to_string (VNum m) = to_string (VNum n)
            /\ forall y, num_eqb m y = num_eqb n y.
Proof.
  destruct v as [| | |m| | | |]; try done. destruct m as [s| | |s m e]; try done; simpl.
  - intros [= <-]. exists (SpecFloat.S754_zero s). split_and!; [done|by destruct s|].
    by intros [].
  - intros [= <-]. eauto.
Qed.

Lemma order_ok_record o :
  order_ok o -> isLocalLimitOrderRecord (VObj o) = true.
Proof.
  intros Hok. pose proof (order_ok_wf o Hok) as Hwf. destruct Hok as [_ Hg].
  apply record_guard in Hg as [[n Hn] Hs]. cbn [isLocalLimitOrderRecord].
  rewrite obj_get_clean in Hn by done. apply clean_field_num in Hn as (m & -> & _ & _). cbn [is_num andb].
  apply forallb_forall. intros k Hk. rewrite <- list_elem_of_In in Hk.
  destruct (Hs k Hk) as [s E]. rewrite obj_get_clean in E by done.
  by rewrite (clean_field_str _ _ E).
Qed.

Lemma str_prop_clean k o :
  order_ok o -> k ∈ LocalLimitOrderRecord_strings -> str_prop k (clean_obj o) = str_prop k o.
Proof.
  intros Hok Hk. pose proof (order_ok_wf o Hok) as Hwf.
  destruct (record_guard _ (order_ok_record o Hok)) as [_ Hs].
  destruct (Hs k Hk) as [s E]. unfold str_prop. rewrite obj_get_clean by done. by rewrite E.
Qed.

(** Storing an order does not change its key. *)
Lemma buildOrderKey_clean o : order_ok o -> buildOrderKey (clean_obj o) = buildOrderKey o.
Proof.
  intros Hok. unfold buildOrderKey.
  rewrite !str_prop_clean by (done || (unfold LocalLimitOrderRecord_strings; set_solver)).
  f_equal. pose proof (order_ok_wf o Hok) as Hwf. destruct Hok as [_ Hg].
  apply record_guard in Hg as [[n Hn] _]. rewrite Hn.
  rewrite obj_get_clean in Hn by done. by apply clean_field_num in Hn as (m & -> & E & _).
Qed.

Lemma chain_is_clean c o : order_ok o -> chain_is c (clean_obj o) = chain_is c o.
Proof.
  intros Hok. pose proof (order_ok_wf o Hok) as Hwf. destruct Hok as [_ Hg].
  apply record_guard in Hg as [[n Hn] _]. unfold chain_is. rewrite Hn.
  rewrite obj_get_clean in Hn by done. by apply clean_field_num in Hn as (m & -> & _ & E).
Qed.

(** Records with a finite chain id and one entry per property are accepted. *)
Lemma record_order_ok o n :
  isLocalLimitOrderRecord (VObj o) = true -> json_ok (VObj o) = true ->
  obj_get "chainId" o = VNum n -> is_finite n = true -> order_ok o.
Proof.
  intros Hr Hok Hn Hf. split; [done|]. pose proof Hok as Hwf.
  apply json_ok_obj in Hwf as [Hwf _].
  apply record_guard in Hr as [_ Hs]. cbn [isLocalLimitOrderRecord]. rewrite obj_get_clean, Hn by done.
  apply andb_true_iff. split; [by destruct n|].
  apply forallb_forall. intros k Hk. rewrite <- list_elem_of_In in Hk.
  destruct (Hs k Hk) as [s E]. by rewrite obj_get_clean, E by done.
Qed.

Lemma filter_objs_all guard l :
  Forall (fun o => guard (VObj o) = true) l -> filter_objs guard (VObj <$> l) = l.
Proof. induction 1 as [|o l Ho _ IH]; [done|]. rewrite fmap_cons. simpl. by rewrite Ho, IH. Qed.

Lemma filter_objs_Forall guard (l : list jsval) :
  Forall (fun v => json_wf v = true) l ->
  Forall (fun o => guard (VObj o) = true /\ json_wf (VObj o) = true) (filter_objs guard l).
Proof.
  induction 1 as [|v l Hv _ IH]; [constructor|]. destruct v; simpl; try done.
  destruct (guard (VObj o)) eqn:E; [|done]. constructor; [by split|done].
Qed.

Lemma stored_order_ok o :
  isLocalLimitOrderRecord (VObj o) = true -> json_wf (VObj o) = true ->
  order_ok o /\ clean_obj o = o.
Proof.
  intros Hg Hw. pose proof (clean_obj_id _ Hw) as E. split; [|done].
  split; [by apply json_wf_ok|]. by rewrite E.
Qed.

(** ** Reading and writing *)

Section store_lemmas.
Context `{Codec : JsonCodec raw}.
Implicit Types b : browser raw.

Lemma read_array_Forall key guard b :
  Forall (fun o => guard (VObj o) = true /\ json_wf (VObj o) = true) (read_array key guard b).
Proof.
  unfold read_array. repeat case_match; try constructor.
  apply filter_objs_Forall, json_wf_arr. eapply json_parse_wf; done.
Qed.

Lemma read_array_set key key' guard l b :
  has_window b = true -> Forall (fun o => json_ok (VObj o) = true) l ->
  Forall (fun o => guard (VObj (clean_obj o)) = true) l ->
  read_array key guard (set_item key' (VArr (VObj <$> l)) b)
  = if String.eqb key key' then clean_obj <$> l else read_array key guard b.
Proof.
  intros Hw Hok Hg. unfold read_array, canUseLocalStorage, set_item. cbn [has_window items].
  rewrite Hw. cbn [negb]. destruct (String.eqb_spec key key') as [->|Hne].
  - rewrite lookup_insert_eq, json_stringify_truthy, json_parse_stringify.
    + rewrite json_clean_arr, <- list_fmap_compose.
      assert ((json_clean ∘ VObj) <$> l = VObj <$> (clean_obj <$> l)) as ->.
      { rewrite <- list_fmap_compose. apply list_fmap_ext. intros i o _. apply json_clean_obj. }
      apply filter_objs_all. by apply Forall_fmap.
    + done.
    + apply json_ok_arr. by apply Forall_fmap.
  - by rewrite lookup_insert_ne.
Qed.

Lemma has_window_write l b : has_window (writeStoredLimitOrders l b) = has_window b.
Proof. unfold writeStoredLimitOrders. by destruct (negb (canUseLocalStorage b)). Qed.

(** Every listed order is accepted and stored verbatim. *)
Lemma listed_ok b :
  Forall (fun o => order_ok o /\ clean_obj o = o) (readStoredLimitOrders b).
Proof.
  eapply Forall_impl; [apply read_array_Forall|]. intros o [Hg Hw]. by apply stored_order_ok.
Qed.

Lemma listed_order_ok b o : o ∈ readStoredLimitOrders b -> order_ok o /\ clean_obj o = o.
Proof. intros H. pose proof (listed_ok b) as Hl. rewrite Forall_forall in Hl. auto. Qed.

Lemma read_write_orders l b :
  has_window b = true -> Forall order_ok l ->
  readStoredLimitOrders (writeStoredLimitOrders l b) = clean_obj <$> l.
Proof.
  intros Hw Hok. unfold writeStoredLimitOrders, canUseLocalStorage. rewrite Hw. cbn [negb].
  transitivity (readStoredLimitOrders (set_item LOCAL_LIMIT_ORDERS_STORAGE_KEY (VArr (VObj <$> l)) b));
    [reflexivity|]. unfold readStoredLimitOrders. rewrite read_array_set; [done|done|..];
    eapply Forall_impl; try done; by intros o [? ?].
Qed.

Lemma read_states_write_orders l b :
  has_window b = true -> Forall order_ok l ->
  readStoredChainStates (writeStoredLimitOrders l b) = readStoredChainStates b.
Proof.
  intros Hw Hok. unfold writeStoredLimitOrders, canUseLocalStorage. rewrite Hw. cbn [negb].
  transitivity (readStoredChainStates (set_item LOCAL_LIMIT_ORDERS_STORAGE_KEY (VArr (VObj <$> l)) b));
    [reflexivity|]. unfold readStoredChainStates, read_array, canUseLocalStorage, set_item.
  cbn [has_window items]. by rewrite lookup_insert_ne.
Qed.

Lemma keep_chain_ok p b : Forall order_ok (keep p (readStoredLimitOrders b)).
Proof.
  apply Forall_forall. intros o Ho. apply elem_of_keep in Ho as [Ho _].
  by apply listed_order_ok in Ho as [? _].
Qed.

(** Clearing a chain removes exactly its orders. *)
Lemma clear_orders c b :
  readStoredLimitOrders (clearStoredLimitOrdersForChain c b)
  = keep (fun o => negb (chain_is c o)) (readStoredLimitOrders b).
Proof.
  unfold clearStoredLimitOrdersForChain.
  destruct (has_window b) eqn:Hw.
  - destruct (Nat.eqb_spec (length (keep (fun o => negb (chain_is c o)) (readStoredLimitOrders b)))
                (length (readStoredLimitOrders b))) as [He|He].
    + symmetry. by apply keep_length_eq.
    + rewrite read_write_orders by (done || apply keep_chain_ok).
      apply fmap_id_on, Forall_forall. intros o Ho.
      apply elem_of_keep in Ho as [Ho _]. by apply listed_order_ok in Ho as [_ ?].
  - assert (readStoredLimitOrders b = []) as He.
    { unfold readStoredLimitOrders, read_array, canUseLocalStorage. by rewrite Hw. }
    rewrite He. exact He.
Qed.
End store_lemmas.

(** ** Upserting *)

Definition lookup_order (key : string) (l : list obj) : option obj :=
  find_first (fun item => String.eqb (buildOrderKey item) key) l.

(** The object an upsert stores over an existing one. *)
Definition merged (existing order : obj) : obj :=
  obj_set "createdAt"
    (if truthy (obj_get "createdAt" existing)
     then obj_get "createdAt" existing else obj_get "createdAt" order)
    (obj_spread existing order).

Lemma order_ok_chain o : order_ok o -> exists n, obj_get "chainId" o = VNum n /\ is_finite n = true.
Proof.
  intros Hok. pose proof (order_ok_wf o Hok) as Hwf.
  destruct (record_guard _ (order_ok_record o Hok)) as [[n Hn] _].
  destruct Hok as [_ Hg]. apply record_guard in Hg as [[m Hm] _].
  exists n. split; [done|]. rewrite obj_get_clean, Hn in Hm by done. by destruct n.
Qed.

Lemma order_ok_has o k :
  order_ok o -> k = "chainId" \/ k ∈ LocalLimitOrderRecord_strings -> obj_has k o = true.
Proof.
  intros Hok Hk. destruct (obj_has k o) eqn:E; [done|]. apply obj_get_missing in E.
  destruct (record_guard _ (order_ok_record o Hok)) as [[n Hn] Hs].
  destruct Hk as [->|Hk]; [congruence|]. destruct (Hs k Hk). congruence.
Qed.

Lemma obj_get_merged existing order k :
  obj_wf order ->
  obj_get k (merged existing order) =
  if String.eqb k "createdAt"
  then if truthy (obj_get "createdAt" existing)
       then obj_get "createdAt" existing else obj_get "createdAt" order
  else if obj_has k order then obj_get k order else obj_get k existing.
Proof. intros H. unfold merged. by rewrite obj_get_set, obj_get_spread. Qed.

Lemma merged_ok existing order : order_ok existing -> order_ok order -> order_ok (merged existing order).
Proof.
  intros He Ho. pose proof (order_ok_wf _ Ho) as Hwf.
  destruct (order_ok_chain _ Ho) as (n & Hn & Hfin).
  destruct (record_guard _ (order_ok_record _ Ho)) as [_ Hs].
  destruct (record_guard _ (order_ok_record _ He)) as [_ Hs'].
  assert (obj_get "chainId" (merged existing order) = VNum n) as Hc.
  { rewrite obj_get_merged by done. simpl String.eqb. rewrite (order_ok_has order) by auto. done. }
  apply record_order_ok with n; [|..|done|done].
  - cbn [isLocalLimitOrderRecord]. rewrite Hc. cbn [is_num andb].
    apply forallb_forall. intros k Hk. rewrite <- list_elem_of_In in Hk.
    rewrite obj_get_merged, (order_ok_has order) by auto.
    destruct (String.eqb_spec k "createdAt") as [->|].
    + destruct (truthy _); [destruct (Hs' _ Hk) as [? ->]|destruct (Hs _ Hk) as [? ->]]; done.
    + by destruct (Hs _ Hk) as [? ->].
  - unfold merged. apply obj_set_ok; [|apply obj_spread_ok; [apply He|apply Ho]].
    destruct (truthy _); apply obj_get_ok; [apply He|apply Ho].
Qed.

Lemma buildOrderKey_merged existing order :
  order_ok order -> buildOrderKey (merged existing order) = buildOrderKey order.
Proof.
  intros Ho. pose proof (order_ok_wf _ Ho) as Hwf.
  unfold buildOrderKey, str_prop. rewrite !obj_get_merged by done. simpl String.eqb.
  rewrite !(order_ok_has order); [done|done|..]; unfold LocalLimitOrderRecord_strings; set_solver.
Qed.

Section upsert.
Context `{Codec : JsonCodec raw}.
Implicit Types b : browser raw.

Lemma listed_at b i o : readStoredLimitOrders b !! i = Some o -> order_ok o /\ clean_obj o = o.
Proof. intros H. eapply listed_order_ok, list_elem_of_lookup_2, H. Qed.

Lemma clean_listed b : clean_obj <$> readStoredLimitOrders b = readStoredLimitOrders b.
Proof.
  apply fmap_id_on. eapply Forall_impl; [apply listed_ok|]. by intros o [_ ?].
Qed.

Lemma listed_orders_ok b : Forall order_ok (readStoredLimitOrders b).
Proof. eapply Forall_impl; [apply listed_ok|]. by intros o [? _]. Qed.

(** The list an upsert leaves behind. *)
Lemma upsert_listing order b :
  has_window b = true -> order_ok order ->
  listLocalLimitOrders (upsertLocalLimitOrder order b) =
  match find_index (fun item => String.eqb (buildOrderKey item) (buildOrderKey order))
          (listLocalLimitOrders b) with
  | Some i => <[i := clean_obj (merged (default [] (listLocalLimitOrders b !! i)) order)]>
                (listLocalLimitOrders b)
  | None => clean_obj order :: listLocalLimitOrders b
  end.
Proof.
  intros Hw Ho. unfold listLocalLimitOrders, upsertLocalLimitOrder.
  destruct (find_index _ _) as [i|] eqn:Hi.
  - apply find_index_Some in Hi as (e & He & _). rewrite He. cbn [default from_option id].
    destruct (listed_at _ _ _ He) as [Hoe _].
    rewrite read_write_orders; [|done|].
    + rewrite list_fmap_insert, clean_listed. done.
    + apply Forall_insert; [apply listed_orders_ok|by apply merged_ok].
  - rewrite read_write_orders; [|done|].
    + by rewrite fmap_cons, clean_listed.
    + constructor; [done|apply listed_orders_ok].
Qed.

Lemma upsert_keys order b :
  has_window b = true -> order_ok order ->
  NoDup (buildOrderKey <$> listLocalLimitOrders b) ->
  NoDup (buildOrderKey <$> listLocalLimitOrders (upsertLocalLimitOrder order b)).
Proof.
  intros Hw Ho Hnd. rewrite upsert_listing by done.
  destruct (find_index _ _) as [i|] eqn:Hi.
  - apply find_index_Some in Hi as (e & He & Hk & _). bool_solve.
    rewrite He. cbn [default from_option id]. destruct (listed_at _ _ _ He) as [Hoe _].
    rewrite (fmap_insert_same_key _ _ _ _ e); [done|done|].
    rewrite buildOrderKey_clean by by apply merged_ok. by rewrite buildOrderKey_merged.
  - rewrite fmap_cons. constructor; [|done].
    rewrite buildOrderKey_clean by done. intros Hin.
    apply list_elem_of_fmap in Hin as (e & Heq & He).
    apply find_index_None in Hi. rewrite Forall_forall in Hi. specialize (Hi e He).
    bool_solve. congruence.
Qed.

(** Upserting an order makes it findable under its key, with every property
    the caller gave; an order already stored under that key keeps its first
    [createdAt] and the properties the caller did not give. *)
Lemma upsert_stores_order order b :
  has_window b = true -> order_ok order ->
  let existing := lookup_order (buildOrderKey order) (listLocalLimitOrders b) in
  exists r,
    lookup_order (buildOrderKey order) (listLocalLimitOrders (upsertLocalLimitOrder order b)) = Some r
    /\ (forall k, k <> "createdAt" ->
          obj_get k r = clean_field (if obj_has k order then obj_get k order
                                     else obj_get k (default [] existing)))
    /\ obj_get "createdAt" r = clean_field
         (if truthy (obj_get "createdAt" (default [] existing))
          then obj_get "createdAt" (default [] existing) else obj_get "createdAt" order).
Proof.
  intros Hw Ho existing. pose proof (order_ok_wf _ Ho) as Hwf.
  unfold existing, lookup_order. rewrite upsert_listing by done.
  rewrite (find_first_index _ (listLocalLimitOrders b)).
  destruct (find_index _ (listLocalLimitOrders b)) as [i|] eqn:Hi.
  - pose proof Hi as Hi'. apply find_index_Some in Hi' as (e & He & _).
    destruct (listed_at _ _ _ He) as [Hoe _]. rewrite He. cbn [default from_option id].
    pose proof (merged_ok _ _ Hoe Ho) as Hm. pose proof (order_ok_wf _ Hm) as Hmw.
    exists (clean_obj (merged e order)). split_and!.
    + apply find_first_insert_same; [done|].
      rewrite buildOrderKey_clean, buildOrderKey_merged by done. apply String.eqb_refl.
    + intros k Hk. rewrite obj_get_clean, obj_get_merged by done.
      by destruct (String.eqb_spec k "createdAt").
    + by rewrite obj_get_clean, obj_get_merged by done.
  - exists (clean_obj order). cbn [default from_option id]. split_and!.
    + simpl. by rewrite buildOrderKey_clean, String.eqb_refl.
    + intros k Hk. rewrite obj_get_clean by done.
      destruct (obj_has k order) eqn:E; [done|]. by rewrite obj_get_missing.
    + by rewrite obj_get_clean.
Qed.

(** Upserting an order leaves the orders stored under other keys as they were. *)
Lemma upsert_frame order b k :
  has_window b = true -> order_ok order -> k <> buildOrderKey order ->
  lookup_order k (listLocalLimitOrders (upsertLocalLimitOrder order b))
  = lookup_order k (listLocalLimitOrders b).
Proof.
  intros Hw Ho Hk. unfold lookup_order. rewrite upsert_listing by done.
  destruct (find_index _ _) as [i|] eqn:Hi.
  - apply find_index_Some in Hi as (e & He & Hke & _). bool_solve.
    destruct (listed_at _ _ _ He) as [Hoe _]. rewrite He. cbn [default from_option id].
    apply find_first_insert_other with e; [done|..].
    + rewrite buildOrderKey_clean, buildOrderKey_merged by (done || by apply merged_ok).
      apply String.eqb_neq. congruence.
    + apply String.eqb_neq. congruence.
  - simpl. rewrite buildOrderKey_clean by done. by destruct (String.eqb_spec (buildOrderKey order) k).
Qed.
(** C1.  Upserting an order makes it findable under its key, with every property
    the caller gave; an order already stored under that key keeps its first
    [createdAt] and the properties the caller did not give.  The orders under other
    keys are as they were. *)
Theorem upsert_effect order b :
  has_window b = true -> order_ok order ->
  let existing := lookup_order (buildOrderKey order) (listLocalLimitOrders b) in
  let b' := upsertLocalLimitOrder order b in
  (exists r,
     lookup_order (buildOrderKey order) (listLocalLimitOrders b') = Some r
     /\ (forall k, k <> "createdAt" ->
           obj_get k r = clean_field (if obj_has k order then obj_get k order
                                      else obj_get k (default [] existing)))
     /\ obj_get "createdAt" r = clean_field
          (if truthy (obj_get "createdAt" (default [] existing))
           then obj_get "createdAt" (default [] existing) else obj_get "createdAt" order))
  /\ forall k, k <> buildOrderKey order ->
       lookup_order k (listLocalLimitOrders b') = lookup_order k (listLocalLimitOrders b).
Proof.
  intros Hw Ho existing b'. split; [by apply upsert_stores_order|].
  intros k Hk. by apply upsert_frame.
Qed.
End upsert.

(** ** Synchronising with the chain *)

Lemma json_wf_num c : Z.abs c < 2 ^ 53 -> json_wf (VNum (num_of_Z c)) = true.
Proof.
  intros Hc. destruct (Z.eq_dec c 0) as [->|Hne]; [done|].
  pose proof (num_integral_of_Z c Hc) as H.
  destruct (num_of_Z c) as [s| | |]; try done.
  assert (num_integral (SpecFloat.S754_zero s) = Some 0) as H0 by done. congruence.
Qed.

Lemma num_eqb_of_Z c : Z.abs c < 2 ^ 53 -> num_eqb (num_of_Z c) (num_of_Z c) = true.
Proof.
  intros Hc. unfold num_eqb.
  rewrite (num_cmp_integral _ _ c c) by by apply num_integral_of_Z.
  by rewrite Z.compare_refl.
Qed.

Lemma chain_state_wf c n h : Z.abs c < 2 ^ 53 -> json_wf (VObj (chain_state c n h)) = true.
Proof.
  intros Hc. apply json_wf_obj. split.
  - unfold obj_wf, chain_state. simpl. by apply (bool_decide_unpack _).
  - unfold chain_state. repeat constructor. by apply json_wf_num.
Qed.

Section sync.
Context `{Codec : JsonCodec raw}.
Implicit Types b : browser raw.

(** What the last turn of a sync does. *)
Definition sync_finish (didClear : bool) (c n : Z) (h : string) b : browser raw :=
  updateStoredChainState c n h (if didClear then clearStoredLimitOrdersForChain c b else b).

Lemma read_orders_update c n h b :
  readStoredLimitOrders (updateStoredChainState c n h b) = readStoredLimitOrders b.
Proof.
  unfold updateStoredChainState, writeStoredChainStates.
  destruct (negb (canUseLocalStorage b)); [done|].
  unfold readStoredLimitOrders, read_array, canUseLocalStorage, set_item. cbn [has_window items].
  by rewrite lookup_insert_ne.
Qed.

Lemma has_window_clear c b : has_window (clearStoredLimitOrdersForChain c b) = has_window b.
Proof.
  unfold clearStoredLimitOrdersForChain. destruct (Nat.eqb _ _); [done|]. apply has_window_write.
Qed.

Lemma has_window_update c n h b : has_window (updateStoredChainState c n h b) = has_window b.
Proof. unfold updateStoredChainState, writeStoredChainStates. by destruct (negb _). Qed.

Lemma read_states_update c n h b :
  has_window b = true -> Z.abs c < 2 ^ 53 ->
  find_first (chain_is c) (readStoredChainStates (updateStoredChainState c n h b))
  = Some (chain_state c n h).
Proof.
  intros Hw Hc. unfold updateStoredChainState, writeStoredChainStates, canUseLocalStorage.
  rewrite Hw. cbn [negb]. set (st := readStoredChainStates b).
  pose proof (chain_state_wf c n h Hc) as Hwf.
  assert (Forall (fun o => json_wf (VObj o) = true
                  /\ isLocalLimitOrdersChainState (VObj o) = true) st) as Hst.
  { eapply Forall_impl; [apply read_array_Forall|]. by intros o [? ?]. }
  set (next := match find_index (chain_is c) st with
               | Some i => <[i:=chain_state c n h]> st
               | None => (st ++ [chain_state c n h])%list end).
  assert (Forall (fun o => json_wf (VObj o) = true
                  /\ isLocalLimitOrdersChainState (VObj o) = true) next) as Hnext.
  { unfold next. destruct (find_index _ _).
    - by apply Forall_insert.
    - apply Forall_app_2; [done|]. by repeat constructor. }
  assert (readStoredChainStates (set_item LOCAL_LIMIT_ORDERS_CHAIN_STATE_STORAGE_KEY
            (VArr (VObj <$> next)) b) = next) as ->.
  { unfold readStoredChainStates. rewrite read_array_set; [|done|..].
    - apply fmap_id_on. eapply Forall_impl; [done|]. intros o [? _]. by apply clean_obj_id.
    - eapply Forall_impl; [done|]. intros o [? _]. by apply json_wf_ok.
    - eapply Forall_impl; [done|]. intros o [? ?]. by rewrite clean_obj_id. }
  assert (chain_is c (chain_state c n h) = true) as Hself by by apply num_eqb_of_Z.
  unfold next. destruct (find_index (chain_is c) st) as [i|] eqn:Hi.
  - by apply find_first_insert_same.
  - rewrite find_first_app. assert (find_first (chain_is c) st = None) as ->.
    { apply find_first_None. by apply find_index_None. }
    simpl. by rewrite Hself.
Qed.

(** Whether a sync at height [n] must clear, given the orders' stored chain state
    and the node. *)
Definition must_clear (getBlock : option Z -> res string block) (c n : Z) b : bool :=
  match sync_verdict c n b with
  | Unchanged => false
  | Cleared => true
  | AskHistorical m h => reorged (getBlock (Some m)) h
  end.

Definition after_wait (interfere : browser raw -> browser raw) (c n : Z) b : browser raw :=
  match sync_verdict c n b with AskHistorical _ _ => interfere b | _ => b end.

Lemma sync_unfold getBlock interfere c n h b :
  str_nonempty h = true ->
  syncLocalLimitOrdersWithChain getBlock interfere c (Some n) (Some h) b
  = Ok (must_clear getBlock c n b,
        sync_finish (must_clear getBlock c n b) c n h (after_wait interfere c n b)).
Proof.
  intros Hh. unfold syncLocalLimitOrdersWithChain, must_clear, after_wait, sync_finish.
  rewrite Hh. cbn [res_bind block_number block_hash]. rewrite Hh. cbn [negb].
  destruct (sync_verdict c n b) as [| |m s]; try done. by destruct (reorged _ _).
Qed.

Lemma sync_finish_orders d c n h b :
  listLocalLimitOrders (sync_finish d c n h b)
  = if d then keep (fun o => negb (chain_is c o)) (listLocalLimitOrders b)
    else listLocalLimitOrders b.
Proof.
  unfold listLocalLimitOrders, sync_finish. rewrite read_orders_update.
  destruct d; [apply clear_orders|done].
Qed.

Lemma sync_finish_state d c n h b :
  has_window b = true -> Z.abs c < 2 ^ 53 ->
  find_first (chain_is c) (readStoredChainStates (sync_finish d c n h b))
  = Some (chain_state c n h).
Proof.
  intros Hw Hc. unfold sync_finish. apply read_states_update; [|done].
  destruct d; [by rewrite has_window_clear|done].
Qed.

(** A sync that knows the latest block reports [true] exactly when the stored
    chain state is missing on the local chain, unreadable, ahead of the chain or
    on another branch; it then drops exactly that chain's orders, and otherwise
    leaves the list as it is; in both cases the block is recorded. *)
Theorem sync_effect getBlock interfere c n h b :
  str_nonempty h = true -> Z.abs c < 2 ^ 53 ->
  has_window (after_wait interfere c n b) = true ->
  exists b',
    syncLocalLimitOrdersWithChain getBlock interfere c (Some n) (Some h) b
    = Ok (must_clear getBlock c n b, b')
    /\ listLocalLimitOrders b'
       = (if must_clear getBlock c n b
          then keep (fun o => negb (chain_is c o)) (listLocalLimitOrders (after_wait interfere c n b))
          else listLocalLimitOrders (after_wait interfere c n b))
    /\ find_first (chain_is c) (readStoredChainStates b') = Some (chain_state c n h).
Proof.
  intros Hh Hc Hw. eexists. split; [by apply sync_unfold|].
  split; [apply sync_finish_orders|by apply sync_finish_state].
Qed.

Lemma verdict_after_finish d c n h m b :
  has_window b = true -> Z.abs c < 2 ^ 53 -> 0 <= n <= m -> normalizeHash h <> "" ->
  sync_verdict c m (sync_finish d c n h b) = AskHistorical n (normalizeHash h).
Proof.
  intros Hw Hc Hn Hh. unfold sync_verdict. rewrite sync_finish_state by done.
  assert (str_prop "lastSeenBlockNumber" (chain_state c n h) = dec n) as -> by done.
  assert (str_prop "lastSeenBlockHash" (chain_state c n h) = normalizeHash h) as -> by done.
  unfold parseStoredBigInt. rewrite bigint_of_string_dec by lia.
  assert (normalizeHash (normalizeHash h) = normalizeHash h) as ->.
  { unfold normalizeHash. by rewrite trim_lower, trim_trim, to_lower_idemp. }
  destruct (String.eqb_spec (normalizeHash h) ""); [done|].
  by destruct (Z.ltb_spec m n); [lia|].
Qed.

(** Once synchronised at a block, a later sync on a chain that still has that
    block neither clears nor reports a reorganisation. *)
Theorem sync_stable getBlock interfere c n h m h' b :
  has_window (after_wait interfere c n b) = true -> Z.abs c < 2 ^ 53 ->
  0 <= n <= m -> normalizeHash h <> "" -> str_nonempty h = true -> str_nonempty h' = true ->
  getBlock (Some n) = Ok {| block_number := Some n; block_hash := Some h |} ->
  exists d b1 b2,
    syncLocalLimitOrdersWithChain getBlock interfere c (Some n) (Some h) b = Ok (d, b1)
    /\ syncLocalLimitOrdersWithChain getBlock id c (Some m) (Some h') b1 = Ok (false, b2)
    /\ listLocalLimitOrders b2 = listLocalLimitOrders b1.
Proof.
  intros Hw Hc Hn Hh Hh1 Hh2 Hg.
  pose proof (verdict_after_finish (must_clear getBlock c n b) c n h m _ Hw Hc Hn Hh) as Hv.
  assert (must_clear getBlock c m (sync_finish (must_clear getBlock c n b) c n h
            (after_wait interfere c n b)) = false) as Hm.
  { unfold must_clear at 1. rewrite Hv, Hg. unfold reorged. cbn [block_hash]. rewrite Hh1.
    rewrite String.eqb_refl. by destruct (normalizeHash h). }
  do 3 eexists. split; [by apply sync_unfold|]. split.
  - rewrite sync_unfold by done. rewrite Hm. done.
  - rewrite sync_finish_orders. unfold after_wait at 1. by rewrite Hv.
Qed.
End sync.

(** ** Patching, and the invariant of the store *)

(** The three properties an order's key is made of. *)
Definition key_props : list string := ["chainId"; "settlementAddress"; "orderHash"].

(** Updates of the right static type that leave the key alone. *)
Definition updates_ok (updates : obj) : Prop :=
  json_ok (VObj updates) = true
  /\ Forall (fun k => obj_has k updates = false) key_props
  /\ Forall (fun k => obj_has k updates = true -> is_str (obj_get k updates) = true)
       LocalLimitOrderRecord_strings.

Lemma updates_ok_wf u : updates_ok u -> obj_wf u.
Proof. intros (H & _). by apply json_ok_obj in H as [? _]. Qed.

Lemma spread_updates_ok e u : order_ok e -> updates_ok u -> order_ok (obj_spread e u).
Proof.
  intros He Hu. pose proof (updates_ok_wf u Hu) as Hwf. destruct Hu as (Hok & Hkeys & Hstr).
  destruct (order_ok_chain e He) as (n & Hn & Hfin).
  assert (obj_get "chainId" (obj_spread e u) = VNum n) as Hc.
  { rewrite obj_get_spread by done. unfold key_props in Hkeys. rewrite !Forall_cons in Hkeys.
    by destruct Hkeys as (-> & _). }
  apply record_order_ok with n; [|by apply obj_spread_ok; [apply He|]|done|done].
  cbn [isLocalLimitOrderRecord]. rewrite Hc. cbn [is_num andb].
  apply forallb_forall. intros k Hk. rewrite <- list_elem_of_In in Hk.
  rewrite obj_get_spread by done. destruct (obj_has k u) eqn:E.
  - rewrite Forall_forall in Hstr. by apply Hstr.
  - destruct (record_guard _ (order_ok_record e He)) as [_ Hs]. by destruct (Hs k Hk) as [? ->].
Qed.

Lemma buildOrderKey_updates e u : updates_ok u -> buildOrderKey (obj_spread e u) = buildOrderKey e.
Proof.
  intros Hu. pose proof (updates_ok_wf u Hu) as Hwf. destruct Hu as (_ & Hkeys & _).
  unfold key_props in Hkeys. rewrite !Forall_cons in Hkeys. destruct Hkeys as (H1 & H2 & H3 & _).
  unfold buildOrderKey, str_prop. by rewrite !obj_get_spread, H1, H2, H3 by done.
Qed.

Section patch.
Context `{Codec : JsonCodec raw}.
Implicit Types b : browser raw.

Lemma patch_listing sel u b :
  has_window b = true -> updates_ok u ->
  listLocalLimitOrders (patchLocalLimitOrder sel u b) =
  match find_index (fun item => String.eqb (buildOrderKey item) (buildOrderKey sel))
          (listLocalLimitOrders b) with
  | Some i => <[i := clean_obj (obj_spread (default [] (listLocalLimitOrders b !! i)) u)]>
                (listLocalLimitOrders b)
  | None => listLocalLimitOrders b
  end.
Proof.
  intros Hw Hu. unfold listLocalLimitOrders, patchLocalLimitOrder.
  destruct (find_index _ _) as [i|] eqn:Hi; [|done].
  apply find_index_Some in Hi as (e & He & _). rewrite He. cbn [default from_option id].
  destruct (listed_at _ _ _ He) as [Hoe _]. rewrite read_write_orders; [|done|].
  - by rewrite list_fmap_insert, clean_listed.
  - apply Forall_insert; [apply listed_orders_ok|by apply spread_updates_ok].
Qed.

Lemma patch_keys sel u b :
  has_window b = true -> updates_ok u ->
  buildOrderKey <$> listLocalLimitOrders (patchLocalLimitOrder sel u b)
  = buildOrderKey <$> listLocalLimitOrders b.
Proof.
  intros Hw Hu. rewrite patch_listing by done.
  destruct (find_index _ _) as [i|] eqn:Hi; [|done].
  apply find_index_Some in Hi as (e & He & _). rewrite He. cbn [default from_option id].
  destruct (listed_at _ _ _ He) as [Hoe _]. apply fmap_insert_same_key with e; [done|].
  rewrite buildOrderKey_clean by by apply spread_updates_ok. by apply buildOrderKey_updates.
Qed.

(** Patching an order updates exactly the given properties of the order with
    that key, and does nothing when there is no such order. *)
Theorem patch_effect sel u b :
  has_window b = true -> updates_ok u ->
  lookup_order (buildOrderKey sel) (listLocalLimitOrders (patchLocalLimitOrder sel u b))
  = (fun e => clean_obj (obj_spread e u)) <$> lookup_order (buildOrderKey sel) (listLocalLimitOrders b).
Proof.
  intros Hw Hu. unfold lookup_order. rewrite patch_listing by done.
  rewrite (find_first_index _ (listLocalLimitOrders b)).
  destruct (find_index _ (listLocalLimitOrders b)) as [i|] eqn:Hi.
  - pose proof Hi as Hi'. apply find_index_Some in Hi' as (e & He & Hk & _). rewrite He.
    cbn [default from_option id fmap option_fmap option_map].
    destruct (listed_at _ _ _ He) as [Hoe _]. apply find_first_insert_same; [done|].
    rewrite buildOrderKey_clean, buildOrderKey_updates by (done || by apply spread_updates_ok).
    done.
  - rewrite find_first_index, Hi. done.
Qed.

(** One uninterrupted turn of the page on the store.  A synchronisation is one turn,
    or two with other turns at its [await]; by [sync_unfold] its last turn is
    [sync_finish]. *)
Inductive turn : browser raw -> browser raw -> Prop :=
| turn_upsert order b : order_ok order -> turn b (upsertLocalLimitOrder order b)
| turn_patch sel u b : updates_ok u -> turn b (patchLocalLimitOrder sel u b)
| turn_sync d c n h b : turn b (sync_finish d c n h b).

Definition store_inv b : Prop :=
  has_window b = true /\ NoDup (buildOrderKey <$> listLocalLimitOrders b).

Lemma turn_inv b b' : turn b b' -> store_inv b -> store_inv b'.
Proof.
  intros H [Hw Hnd]. destruct H as [order b Ho|sel u b Hu|d c n h b].
  - split; [by unfold upsertLocalLimitOrder; rewrite has_window_write|by apply upsert_keys].
  - split; [|by rewrite patch_keys].
    unfold patchLocalLimitOrder. destruct (find_index _ _); [by rewrite has_window_write|done].
  - split.
    + unfold sync_finish, updateStoredChainState, writeStoredChainStates.
      destruct d; destruct (negb _); cbn [set_item has_window]; by rewrite ?has_window_clear.
    + rewrite sync_finish_orders. destruct d; [by apply NoDup_fmap_keep|done].
Qed.

(** Whatever sequence of upserts, patches and synchronisations a page runs,
    interleaved in any way, the store never holds two orders with the same chain,
    settlement contract and hash, and everything listed is a well-formed record. *)
Theorem store_keys_unique b0 b :
  has_window b0 = true -> items b0 = ∅ -> rtc turn b0 b ->
  NoDup (buildOrderKey <$> listLocalLimitOrders b)
  /\ Forall (fun o => isLocalLimitOrderRecord (VObj o) = true) (listLocalLimitOrders b).
Proof.
  intros Hw H0 Hr. assert (store_inv b) as [_ Hnd].
  { assert (store_inv b0) as Hinv.
    { split; [done|]. unfold listLocalLimitOrders, readStoredLimitOrders, read_array.
      rewrite H0, lookup_empty. destruct (negb _); constructor. }
    clear H0 Hw. induction Hr as [|b0 b1 b Ht _ IH]; [done|].
    apply IH. by eapply turn_inv. }
  split; [done|]. eapply Forall_impl; [apply listed_orders_ok|]. apply order_ok_record.
Qed.
End patch.

(** ** Concrete instances *)

(** An order of the local chain, a browser without stored orders, and a page that
    stores it. *)
Definition sample_order : obj :=
  ("chainId", VNum (num_of_Z 31337)) ::
  ((fun k => (k, VStr "0x01")) <$> LocalLimitOrderRecord_strings).
Definition empty_browser : browser (option jsval) :=
  {| has_window := true; items := ∅; dispatched := [] |}.
Definition sample_block : option Z -> res string block :=
  fun _ => Ok {| block_number := Some 5; block_hash := Some "0xAB" |}.

Lemma upsert_effect_witness :
  lookup_order "another" (listLocalLimitOrders (upsertLocalLimitOrder sample_order empty_browser)) = None
  /\ exists r,
       lookup_order (buildOrderKey sample_order)
         (listLocalLimitOrders (upsertLocalLimitOrder sample_order empty_browser)) = Some r
       /\ obj_get "status" r = VStr "0x01".
Proof.
  destruct (upsert_effect sample_order empty_browser eq_refl) as [(r & Hr & Hk & _) Hf].
  - split; vm_compute; reflexivity.
  - split; [rewrite Hf by (vm_compute; discriminate); reflexivity|].
    exists r. split; [exact Hr|]. rewrite (Hk "status" ltac:(done)). vm_compute. reflexivity.
Defined.

Lemma sync_effect_witness :
  exists b',
    syncLocalLimitOrdersWithChain sample_block id 31337 (Some 7) (Some "0xCD")
      (upsertLocalLimitOrder sample_order empty_browser) = Ok (true, b')
    /\ listLocalLimitOrders b' = [].
Proof.
  destruct (sync_effect sample_block id 31337 7 "0xCD"
              (upsertLocalLimitOrder sample_order empty_browser)) as (b' & Hb & Hl & _);
    [vm_compute; reflexivity..|].
  exists b'. rewrite Hb, Hl. split; [f_equal; vm_compute; reflexivity|vm_compute; reflexivity].
Defined.

Lemma sync_stable_witness :
  exists d b1 b2,
    syncLocalLimitOrdersWithChain sample_block id 1 (Some 5) (Some "0xAB")
      (upsertLocalLimitOrder sample_order empty_browser) = Ok (d, b1)
    /\ syncLocalLimitOrdersWithChain sample_block id 1 (Some 9) (Some "0xEF") b1 = Ok (false, b2)
    /\ listLocalLimitOrders b2 = listLocalLimitOrders b1.
Proof.
  apply (sync_stable sample_block id 1 5 "0xAB" 9 "0xEF"); first
    [lia|vm_compute; reflexivity|vm_compute; discriminate].
Defined.

Lemma patch_effect_witness :
  obj_get "status" <$> lookup_order (buildOrderKey sample_order)
    (listLocalLimitOrders (patchLocalLimitOrder sample_order [("status", VStr "cancelled")]
       (upsertLocalLimitOrder sample_order empty_browser)))
  = Some (VStr "cancelled").
Proof.
  rewrite (patch_effect sample_order [("status", VStr "cancelled")]
             (upsertLocalLimitOrder sample_order empty_browser)).
  - vm_compute. reflexivity.
  - reflexivity.
  - split_and!; [vm_compute; reflexivity|repeat constructor|].
    apply (Forall_impl (fun k => implb (obj_has k [("status", VStr "cancelled")])
             (is_str (obj_get k [("status", VStr "cancelled")])) = true)).
    + repeat constructor.
    + intros k H Hk. rewrite Hk in H. exact H.
Defined.

Lemma store_keys_unique_witness :
  NoDup (buildOrderKey <$> listLocalLimitOrders (upsertLocalLimitOrder sample_order
           (upsertLocalLimitOrder sample_order empty_browser))).
Proof.
  eapply (store_keys_unique empty_browser); [reflexivity|reflexivity|].
  eapply rtc_l; [|eapply rtc_once]; apply turn_upsert; split; vm_compute; reflexivity.
Defined.
