(* ===== verification/LimitOrders.v ===== *)
(** * Signed limit orders (frontend/src/lib/limitOrders.ts)

    The EIP-712 data of limit orders and nonce invalidations, the trigger price the
    client signs, and the price the settlement contract compares it with
    (contracts/contracts/FluxSignedOrderSettlement.sol).  The functions of viem
    ([keccak256], [encodeAbiParameters], [stringToHex]) are parameters. *)

From S2P Require Import Prelude JsString JsValue.
From Stdlib Require Import Ascii.
Open Scope string_scope.
Open Scope Z_scope.
Open Scope flux_scope.

Definition Address : Type := string.
Definition Hex : Type := string.

(** [zeroAddress] of viem. *)
Definition zeroAddress : Address := "0x0000000000000000000000000000000000000000".

Definition LIMIT_ORDER_EIP712_NAME : string := "Flux Signed Order Settlement".
Definition LIMIT_ORDER_EIP712_VERSION : string := "1".
Definition LIMIT_ORDER_DEFAULT_MAX_EXECUTOR_REWARD_BPS : Z := 3000.
Definition LIMIT_ORDER_PRICE_SCALE : Z := 10 ^ 18.

Definition SIGNED_LIMIT_ORDER_TYPE : string :=
  "SignedOrder(address maker,address inputToken,address outputToken,uint256 amountIn,uint256 minAmountOut,uint256 maxExecutorRewardBps,uint256 triggerPriceX18,uint256 expiry,uint256 nonce,address recipient)".

Record SignedLimitOrder := {
  maker : Address;
  inputToken : Address;
  outputToken : Address;
  amountIn : Z;
  minAmountOut : Z;
  maxExecutorRewardBps : Z;
  triggerPriceX18 : Z;
  expiry : Z;
  nonce : Z;
  recipient : Address;
}.

(** A field of a struct type or an ABI parameter: name and type. *)
Record typed_field := { tf_name : string; tf_type : string }.
Definition tf (n t : string) : typed_field := {| tf_name := n; tf_type := t |}.

Definition signedLimitOrderTypes : list typed_field :=
  [tf "maker" "address"; tf "inputToken" "address"; tf "outputToken" "address";
   tf "amountIn" "uint256"; tf "minAmountOut" "uint256"; tf "maxExecutorRewardBps" "uint256";
   tf "triggerPriceX18" "uint256"; tf "expiry" "uint256"; tf "nonce" "uint256";
   tf "recipient" "address"].

Definition invalidateNoncesTypes : list typed_field :=
  [tf "maker" "address"; tf "noncesHash" "bytes32"; tf "deadline" "uint256"].

Record TypedDataDomain := {
  domain_name : string;
  domain_version : string;
  domain_chainId : Z;
  domain_verifyingContract : Address;
}.

Record TypedData (message : Type) := {
  td_domain : TypedDataDomain;
  td_types : list typed_field;
  td_primaryType : string;
  td_message : message;
}.
Arguments Build_TypedData {message}.
Arguments td_domain {message}.
Arguments td_types {message}.
Arguments td_primaryType {message}.
Arguments td_message {message}.

Record InvalidateNonces := { in_maker : Address; in_noncesHash : Hex; in_deadline : Z }.

Definition buildSignedLimitOrderDomain (chainId : Z) (settlementAddress : Address) : TypedDataDomain :=
  {| domain_name := LIMIT_ORDER_EIP712_NAME;
     domain_version := LIMIT_ORDER_EIP712_VERSION;
     domain_chainId := chainId;
     domain_verifyingContract := settlementAddress |}.

(** [base ** e] on bigints: a negative exponent throws. *)
Definition bigint_pow (base e : Z) : res string Z :=
  guard* 0 <=? e or "Exponent must be non-negative" in Ok (base ^ e).

Definition calculateTriggerPriceX18 (amountIn minAmountOut inputDecimals outputDecimals : Z)
  : res string Z :=
  if (amountIn <=? 0) || (minAmountOut <=? 0) then Ok 0
  else
    let* inputScale := bigint_pow 10 inputDecimals in
    let* outputScale := bigint_pow 10 outputDecimals in
    Ok (Z.quot (minAmountOut * inputScale * LIMIT_ORDER_PRICE_SCALE) (amountIn * outputScale)).

Definition buildSignedLimitOrderTypedData (chainId : Z) (settlementAddress : Address)
    (order : SignedLimitOrder) : TypedData SignedLimitOrder :=
  {| td_domain := buildSignedLimitOrderDomain chainId settlementAddress;
     td_types := signedLimitOrderTypes;
     td_primaryType := "SignedOrder";
     td_message := order |}.

(** [nonces.map((nonce) => nonce.toString(16).padStart(64, '0')).join('')] *)
Definition pack_nonce (nonce : Z) : string := pad_start 64 "0" (Z_to_string 16 nonce).
Definition pack_nonces (nonces : list Z) : string := str_concat (pack_nonce <$> nonces).

Definition toSignedLimitOrderTokenAddress (tokenAddress : option Address)
    (useNativeOutputSemantic : bool) : Address :=
  if useNativeOutputSemantic then zeroAddress else default zeroAddress tokenAddress.

(** ABI values: the order's fields as [encodeAbiParameters] receives them. *)
Inductive abi_value := AbiHex (h : Hex) | AbiUint (z : Z).

Section viem.
Variable keccak256 : Hex -> Hex.
Variable stringToHex : string -> Hex.
Variable encodeAbiParameters : list typed_field -> list abi_value -> Hex.

Definition SIGNED_LIMIT_ORDER_TYPE_HASH : Hex := keccak256 (stringToHex SIGNED_LIMIT_ORDER_TYPE).

Definition hashInvalidateNonces (nonces : list Z) : Hex :=
  match nonces with
  | [] => keccak256 "0x"
  | _ => keccak256 ("0x" ++ pack_nonces nonces)
  end.

Definition buildInvalidateNoncesTypedData (chainId : Z) (settlementAddress : Address)
    (maker : Address) (nonces : list Z) (deadline : Z) : TypedData InvalidateNonces :=
  {| td_domain := buildSignedLimitOrderDomain chainId settlementAddress;
     td_types := invalidateNoncesTypes;
     td_primaryType := "InvalidateNonces";
     td_message := {| in_maker := maker;
                      in_noncesHash := hashInvalidateNonces nonces;
                      in_deadline := deadline |} |}.

(** The parameter list of [hashSignedLimitOrder]. *)
Definition order_abi_types : list typed_field :=
  [tf "typeHash" "bytes32"; tf "maker" "address"; tf "inputToken" "address";
   tf "outputToken" "address"; tf "amountIn" "uint256"; tf "minAmountOut" "uint256";
   tf "maxExecutorRewardBps" "uint256"; tf "triggerPriceX18" "uint256";
   tf "expiry" "uint256"; tf "nonce" "uint256"; tf "recipient" "address"].

Definition order_abi_values (order : SignedLimitOrder) : list abi_value :=
  [AbiHex SIGNED_LIMIT_ORDER_TYPE_HASH; AbiHex (maker order); AbiHex (inputToken order);
   AbiHex (outputToken order); AbiUint (amountIn order); AbiUint (minAmountOut order);
   AbiUint (maxExecutorRewardBps order); AbiUint (triggerPriceX18 order);
   AbiUint (expiry order); AbiUint (nonce order); AbiHex (recipient order)].

Definition hashSignedLimitOrder (_chainId : Z) (_settlementAddress : Address)
    (order : SignedLimitOrder) : Hex :=
  keccak256 (encodeAbiParameters order_abi_types (order_abi_values order)).
End viem.

(** ** The settlement contract's price (FluxSignedOrderSettlement.sol) *)

(** [10 ** decimals], which reverts above 77 decimals. *)
Definition decimalScale (decimals : Z) : res string Z :=
  guard* decimals <=? 77 or "FluxSignedOrderSettlement: DECIMALS_TOO_LARGE" in
  Ok (10 ^ decimals).

(** [OZMath.mulDiv]: the floor of the exact quotient, which must be a word. *)
Definition oz_mulDiv (x y d : Z) : res string Z :=
  guard* negb (d =? 0) or "Panic(0x12)" in
  guard* x * y / d <? 2 ^ 256 or "Panic(0x11)" in Ok (x * y / d).

Definition quotePriceX18 (inputDecimals outputDecimals amountIn amountOut : Z) : res string Z :=
  let* inputScale := decimalScale inputDecimals in
  let* outputScale := decimalScale outputDecimals in
  let* normalizedAmountOut := oz_mulDiv amountOut inputScale outputScale in
  oz_mulDiv normalizedAmountOut LIMIT_ORDER_PRICE_SCALE amountIn.

Definition meetsTrigger (inputDecimals outputDecimals amountIn amountOut triggerPriceX18 : Z)
  : res string bool :=
  let* quotedPriceX18 := quotePriceX18 inputDecimals outputDecimals amountIn amountOut in
  Ok (triggerPriceX18 <=? quotedPriceX18).

(** ** The trigger price *)

Lemma pow10_pos d : 0 <= d -> 0 < 10 ^ d.
Proof. intros. apply Z.pow_pos_nonneg; lia. Qed.

Lemma price_scale_pos : 0 < LIMIT_ORDER_PRICE_SCALE.
Proof. done. Qed.

(** The client's price is the floor of the exact ratio. *)
Lemma trigger_price_floor ain mout din dout :
  0 < ain -> 0 < mout -> 0 <= din -> 0 <= dout ->
  calculateTriggerPriceX18 ain mout din dout
  = Ok (mout * 10 ^ din * LIMIT_ORDER_PRICE_SCALE / (ain * 10 ^ dout)).
Proof.
  intros Ha Hm Hi Ho. unfold calculateTriggerPriceX18, bigint_pow.
  destruct (Z.leb_spec ain 0), (Z.leb_spec mout 0), (Z.leb_spec 0 din), (Z.leb_spec 0 dout); try lia.
  cbn [orb res_bind]. f_equal. pose proof (pow10_pos din Hi). pose proof (pow10_pos dout Ho).
  pose proof price_scale_pos. apply Z.quot_div_nonneg; nia.
Qed.

(** The price the contract quotes, and the amount it is quoted from. *)
Definition normalized_out (din dout aout : Z) : Z := aout * 10 ^ din / 10 ^ dout.
Definition quoted_price (din dout ain aout : Z) : Z := normalized_out din dout aout * LIMIT_ORDER_PRICE_SCALE / ain.

(** Both fit a word. *)
Definition quote_fits (din dout ain aout : Z) : bool :=
  (normalized_out din dout aout <? 2 ^ 256) && (quoted_price din dout ain aout <? 2 ^ 256).

Lemma quote_price_value ain aout din dout :
  0 < ain -> 0 <= din <= 77 -> 0 <= dout <= 77 ->
  quotePriceX18 din dout ain aout
  = if quote_fits din dout ain aout then Ok (quoted_price din dout ain aout) else Throw "Panic(0x11)".
Proof.
  intros Ha Hi Ho. unfold quotePriceX18, decimalScale, oz_mulDiv, quote_fits, quoted_price.
  destruct (Z.leb_spec din 77), (Z.leb_spec dout 77); try lia. cbn [res_bind].
  pose proof (pow10_pos dout ltac:(lia)). fold (normalized_out din dout aout).
  destruct (Z.eqb_spec (10 ^ dout) 0), (Z.eqb_spec ain 0); try lia. cbn [negb].
  by destruct (normalized_out din dout aout <? 2 ^ 256).
Qed.

(** The signed trigger price is the exact ratio of the two amounts, in units of
    the tokens' decimals and scaled by 1e18, rounded down; it never throws for the
    decimals a token can have. *)
Theorem trigger_price_bounds ain mout din dout :
  0 < ain -> 0 < mout -> 0 <= din -> 0 <= dout ->
  exists p, calculateTriggerPriceX18 ain mout din dout = Ok p
    /\ p * (ain * 10 ^ dout) <= mout * 10 ^ din * LIMIT_ORDER_PRICE_SCALE
    /\ mout * 10 ^ din * LIMIT_ORDER_PRICE_SCALE < (p + 1) * (ain * 10 ^ dout).
Proof.
  intros Ha Hm Hi Ho. rewrite trigger_price_floor by done. eexists. split; [done|].
  pose proof (pow10_pos dout Ho).
  set (a := mout * 10 ^ din * LIMIT_ORDER_PRICE_SCALE). set (d := ain * 10 ^ dout).
  assert (0 < d) by (unfold d; nia).
  pose proof (Z.div_mod a d ltac:(lia)). pose proof (Z.mod_pos_bound a d ltac:(lia)). nia.
Qed.

(** C15.  When the output token has at most the input token's decimals, a quote of at
    least the signed minimum output meets the signed trigger price: the settlement
    contract does not reject on price what the client accepted.  That holds wherever the
    contract computes a price at all; it panics exactly when the amount out in units of the
    input's decimals, or the price, is not a word, whatever the trigger. *)
Theorem min_output_meets_trigger ain mout aout din dout p :
  0 < ain -> 0 < mout <= aout -> 0 <= dout <= din -> din <= 77 ->
  calculateTriggerPriceX18 ain mout din dout = Ok p ->
  meetsTrigger din dout ain aout p
  = if (aout * 10 ^ (din - dout) <? 2 ^ 256)
       && (aout * 10 ^ (din - dout) * LIMIT_ORDER_PRICE_SCALE / ain <? 2 ^ 256)
    then Ok true else Throw "Panic(0x11)".
Proof.
  intros Ha Hm Hd Hi Hp. rewrite trigger_price_floor in Hp by lia. simplify_eq.
  unfold meetsTrigger. rewrite quote_price_value by lia. unfold quote_fits, quoted_price, normalized_out.
  pose proof (pow10_pos dout ltac:(lia)) as Hpo. pose proof price_scale_pos as Hs.
  assert (10 ^ din = 10 ^ (din - dout) * 10 ^ dout) as Hsplit.
  { rewrite <- Z.pow_add_r by lia. f_equal. lia. }
  pose proof (pow10_pos (din - dout) ltac:(lia)) as Hpd.
  set (k := 10 ^ (din - dout)) in *. rewrite Hsplit, !Z.mul_assoc, Z.div_mul by lia.
  destruct (_ && _); [|done]. cbn [res_bind]. f_equal. apply Z.leb_le.
  replace (mout * k * 10 ^ dout * LIMIT_ORDER_PRICE_SCALE)
    with (mout * k * LIMIT_ORDER_PRICE_SCALE * 10 ^ dout) by ring.
  rewrite Z.div_mul_cancel_r by lia. apply Z.div_le_mono; [lia|]. nia.
Qed.

(** A token of 77 decimals overflows with ten whole units. *)
Example large_quote_reverts : meetsTrigger 77 0 10 10 1 = Throw "Panic(0x11)".
Proof. vm_compute. reflexivity. Qed.

(** In general the contract's two roundings never quote above the client's price
    for the same amounts, and quote below it by less than the price of one unit of
    the output token's last representable digit plus one. *)
Theorem quote_below_client_price ain aout din dout q c :
  0 < ain -> 0 < aout -> 0 <= din <= 77 -> 0 <= dout <= 77 ->
  quotePriceX18 din dout ain aout = Ok q ->
  calculateTriggerPriceX18 ain aout din dout = Ok c ->
  q <= c /\ (c - q - 1) * ain < LIMIT_ORDER_PRICE_SCALE.
Proof.
  intros Ha Ho Hi Hd Hq Hc. rewrite quote_price_value in Hq by done.
  destruct (quote_fits din dout ain aout); [|done]. unfold quoted_price, normalized_out in Hq.
  rewrite trigger_price_floor in Hc by lia. simplify_eq.
  pose proof (pow10_pos dout ltac:(lia)) as HO. pose proof price_scale_pos as HS.
  set (S := LIMIT_ORDER_PRICE_SCALE) in *. set (O := 10 ^ dout) in *.
  set (x := aout * 10 ^ din). rewrite (Z.mul_comm ain O), <- Z.div_div by lia.
  assert (x / O * S <= x * S / O) as Hle.
  { apply Z.div_le_lower_bound; [lia|]. pose proof (Z.mul_div_le x O HO). nia. }
  assert (x * S / O < x / O * S + S) as Hlt.
  { apply Z.div_lt_upper_bound; [lia|]. pose proof (Z.mul_succ_div_gt x O HO). nia. }
  split; [by apply Z.div_le_mono|].
  set (n := x / O * S) in *. set (m := x * S / O) in *.
  pose proof (Z.mul_div_le m ain Ha). pose proof (Z.mul_succ_div_gt n ain Ha). nia.
Qed.

(** When the output token has more decimals the second rounding does show: selling
    3 units of a 6-decimals token for at least 1999999999999 wei, the contract does
    not accept a quote of exactly that amount. *)
Example min_output_misses_trigger :
  calculateTriggerPriceX18 3000000 1999999999999 6 18 = Ok 666666666666
  /\ meetsTrigger 6 18 3000000 1999999999999 666666666666 = Ok false.
Proof. split; vm_compute; reflexivity. Qed.

(** ** Packing nonces *)

Lemma pack_nonce_length n : 0 <= n < 2 ^ 256 -> String.length (pack_nonce n) = 64%nat.
Proof.
  intros H. apply length_pad_start. apply Z_to_string_length; [lia| |lia].
  change (16 ^ Z.of_nat 64) with (2 ^ 256). lia.
Qed.

Lemma pack_nonce_value n : 0 <= n -> value_go 16 (pack_nonce n) 0 = Some n.
Proof.
  intros H. unfold pack_nonce. rewrite value_go_pad_start by lia.
  pose proof (digits_value_Z_to_string 16 n ltac:(lia) H) as E.
  unfold digits_value in E. by destruct (str_nonempty (Z_to_string 16 n)).
Qed.

Lemma app_inj_length (s1 s2 t1 t2 : string) :
  String.length s1 = String.length s2 -> s1 ++ t1 = s2 ++ t2 -> s1 = s2 /\ t1 = t2.
Proof.
  revert s2; induction s1 as [|c s1 IH]; intros [|d s2] Hl He; simpl in *; try done.
  injection He as -> He. destruct (IH s2 ltac:(lia) He) as [-> ->]. done.
Qed.

Definition uint256 (n : Z) : Prop := 0 <= n < 2 ^ 256.

Lemma pack_nonces_inj l1 l2 :
  Forall uint256 l1 -> Forall uint256 l2 -> pack_nonces l1 = pack_nonces l2 -> l1 = l2.
Proof.
  intros H1. revert l2. induction H1 as [|n l1 Hn _ IH]; intros l2 H2 He.
  - destruct H2 as [|m l2 Hm _]; [done|]. apply (f_equal String.length) in He.
    unfold pack_nonces in He. rewrite fmap_cons in He. simpl in He.
    rewrite length_string_app, pack_nonce_length in He by done. lia.
  - destruct H2 as [|m l2 Hm H2].
    { apply (f_equal String.length) in He. unfold pack_nonces in He. rewrite fmap_cons in He.
      simpl in He. rewrite length_string_app, pack_nonce_length in He by done. lia. }
    unfold pack_nonces in He. rewrite !fmap_cons in He. simpl in He.
    apply app_inj_length in He as [Hnm He]; [|by rewrite !pack_nonce_length].
    assert (n = m) as ->.
    { pose proof (pack_nonce_value n ltac:(apply Hn)) as E.
      rewrite Hnm, pack_nonce_value in E by apply Hm. congruence. }
    f_equal. by apply IH.
Qed.

(** The hexadecimal texts of byte strings, as the code and viem write them. *)
Definition hex_bytes (h : Hex) : Prop :=
  exists t, h = "0x" ++ t /\ all_chars is_hex_lower t = true.

Lemma pack_nonces_hex l : Forall uint256 l -> hex_bytes ("0x" ++ pack_nonces l).
Proof.
  intros H. exists (pack_nonces l). split; [done|].
  induction H as [|n l [Hn _] _ IH]; [done|]. unfold pack_nonces. rewrite fmap_cons. cbn [str_concat].
  rewrite all_chars_app. apply andb_true_iff. split; [|exact IH].
  by apply all_chars_pad_start, hex_all_digits.
Qed.

(** Addresses and hashes are read without regard to case. *)
Definition abi_norm (v : abi_value) : abi_value :=
  match v with AbiHex h => AbiHex (to_lower h) | _ => v end.
Definition abi_valid (v : abi_value) : Prop :=
  match v with AbiUint n => uint256 n | AbiHex _ => True end.
Definition order_norm (o : SignedLimitOrder) : SignedLimitOrder :=
  {| maker := to_lower (maker o); inputToken := to_lower (inputToken o);
     outputToken := to_lower (outputToken o); amountIn := amountIn o;
     minAmountOut := minAmountOut o; maxExecutorRewardBps := maxExecutorRewardBps o;
     triggerPriceX18 := triggerPriceX18 o; expiry := expiry o; nonce := nonce o;
     recipient := to_lower (recipient o) |}.
Definition order_valid (o : SignedLimitOrder) : Prop :=
  Forall uint256 [amountIn o; minAmountOut o; maxExecutorRewardBps o; triggerPriceX18 o;
                  expiry o; nonce o].

Lemma order_abi_valid keccak256 stringToHex o :
  order_valid o -> Forall abi_valid (order_abi_values keccak256 stringToHex o).
Proof. unfold order_valid. rewrite !Forall_cons. intros H. repeat constructor; apply H. Qed.

Section hashing.
Variable keccak256 : Hex -> Hex.
(** Collision resistance of [keccak256], as an injection on byte strings. *)
Hypothesis keccak256_inj : forall x y,
  hex_bytes x -> hex_bytes y -> keccak256 x = keccak256 y -> x = y.

(** Two lists of uint256 nonces with the same [noncesHash] are the same list:
    a signed cancellation covers exactly the nonces it was built for, in order. *)
Theorem nonces_hash_inj l1 l2 :
  Forall uint256 l1 -> Forall uint256 l2 ->
  hashInvalidateNonces keccak256 l1 = hashInvalidateNonces keccak256 l2 -> l1 = l2.
Proof.
  intros H1 H2 He. apply pack_nonces_inj; [done|done|].
  assert (forall l, hashInvalidateNonces keccak256 l = keccak256 ("0x" ++ pack_nonces l)) as Hh.
  { by intros []. }
  rewrite !Hh in He. apply keccak256_inj in He; [by injection He|by apply pack_nonces_hex..].
Qed.

Variable stringToHex : string -> Hex.
Variable encodeAbiParameters : list typed_field -> list abi_value -> Hex.
(** ABI encoding writes a byte string, and is an injection on valid values up to the
    case of addresses and hashes. *)
Hypothesis encode_hex : forall ts v, hex_bytes (encodeAbiParameters ts v).
Hypothesis encode_inj : forall ts v w,
  Forall abi_valid v -> Forall abi_valid w ->
  encodeAbiParameters ts v = encodeAbiParameters ts w -> abi_norm <$> v = abi_norm <$> w.

(** The order hash binds every field of the order, up to the case of its
    addresses (but neither the chain nor the settlement contract: the hash is the
    struct hash, without the domain). *)
Theorem order_hash_binds c1 c2 s1 s2 o1 o2 :
  order_valid o1 -> order_valid o2 ->
  hashSignedLimitOrder keccak256 stringToHex encodeAbiParameters c1 s1 o1
  = hashSignedLimitOrder keccak256 stringToHex encodeAbiParameters c2 s2 o2 ->
  order_norm o1 = order_norm o2.
Proof.
  intros H1 H2. unfold hashSignedLimitOrder. intros He.
  apply keccak256_inj, encode_inj in He; [|by auto using order_abi_valid..].
  unfold order_abi_values in He. cbn in He. injection He. intros.
  unfold order_norm. by f_equal.
Qed.
End hashing.

(** EIP-712's [encodeType] of a struct without nested structs. *)
Definition encodeType (primaryType : string) (fields : list typed_field) : string :=
  primaryType ++ "(" ++
  join_with "," ((fun f => tf_type f ++ " " ++ tf_name f) <$> fields) ++ ")".

(** The typed data handed to the wallet, the type string that is hashed and
    the ABI parameter list describe the same struct, field by field. *)
Theorem signed_order_types_agree chainId settlementAddress order :
  let td := buildSignedLimitOrderTypedData chainId settlementAddress order in
  encodeType (td_primaryType td) (td_types td) = SIGNED_LIMIT_ORDER_TYPE
  /\ order_abi_types = tf "typeHash" "bytes32" :: td_types td
  /\ encodeType "InvalidateNonces" invalidateNoncesTypes
     = "InvalidateNonces(address maker,bytes32 noncesHash,uint256 deadline)".
Proof. split_and!; reflexivity. Qed.

(** ** Concrete instances *)

Lemma trigger_price_bounds_witness :
  exists p, calculateTriggerPriceX18 3000000 2000000000000000000 6 18 = Ok p
    /\ p * (3000000 * 10 ^ 18) <= 2000000000000000000 * 10 ^ 6 * LIMIT_ORDER_PRICE_SCALE.
Proof.
  destruct (trigger_price_bounds 3000000 2000000000000000000 6 18) as (p & Hp & Hl & _);
    [lia..|eauto].
Defined.

Lemma min_output_meets_trigger_witness :
  meetsTrigger 18 6 (3 * 10 ^ 18) 2000000 666666666666666666 = Ok true.
Proof.
  rewrite (min_output_meets_trigger (3 * 10 ^ 18) 2000000 2000000 18 6);
    [vm_compute; reflexivity|lia|lia|lia|lia|vm_compute; reflexivity].
Defined.

Lemma quote_below_client_price_witness : 333333333333 <= 666666666666.
Proof.
  eapply (quote_below_client_price 3000000 1999999999999 6 18); [lia..| |];
    vm_compute; reflexivity.
Defined.

(** The identity is an injection: every text is its own hash. *)
Lemma nonces_hash_inj_witness : [1; 2] = [1; 2].
Proof.
  apply (nonces_hash_inj id (fun x y _ _ H => H)); [|repeat constructor; unfold uint256; lia|reflexivity].
  repeat constructor; unfold uint256; lia.
Defined.

#[local] Instance abi_value_eq_dec : EqDecision abi_value.
Proof. solve_decision. Defined.
#[local] Program Instance abi_value_countable : Countable abi_value :=
  inj_countable' (fun v => match v with AbiHex h => inl h | AbiUint z => inr z end)
                 (fun v => match v with inl h => AbiHex h | inr z => AbiUint z end) _.
Next Obligation. by intros []. Qed.

(** A concrete injective encoding: the bits of stdpp's encoding of the values. *)
Definition bits_encode (_ : list typed_field) (v : list abi_value) : Hex :=
  "0x" ++ pos_bits (encode (abi_norm <$> v)).

Lemma bits_encode_hex ts v : hex_bytes (bits_encode ts v).
Proof. eexists. split; [reflexivity|]. generalize (encode (abi_norm <$> v)). by intros p; apply pos_bits_hex. Qed.

Lemma bits_encode_inj ts v w :
  Forall abi_valid v -> Forall abi_valid w ->
  bits_encode ts v = bits_encode ts w -> abi_norm <$> v = abi_norm <$> w.
Proof. intros _ _ H. injection H as H. apply pos_bits_inj in H. by apply (inj encode) in H. Qed.

Definition sample_signed_order (recipient : Address) : SignedLimitOrder :=
  {| maker := "0xAb"; inputToken := "0x01"; outputToken := "0x02"; amountIn := 10;
     minAmountOut := 9; maxExecutorRewardBps := 30; triggerPriceX18 := 1; expiry := 0; nonce := 4;
     recipient := recipient |}.

Lemma order_hash_binds_witness :
  order_norm (sample_signed_order "0xCd") = order_norm (sample_signed_order "0xcD").
Proof.
  apply (order_hash_binds id (fun x y _ _ H => H) id bits_encode bits_encode_hex bits_encode_inj
           1 2 "0xa" "0xb"); [| |vm_compute; reflexivity];
    unfold order_valid, uint256; cbn;
    repeat (apply Forall_cons_2; [lia|]); apply Forall_nil_2.
Defined.
