(* ===== verification/Amounts.v ===== *)
(** * Amounts (frontend/src/lib/amounts.ts, admin-frontend/src/lib/amounts.ts)

    Parsing and truncating display of token amounts, in the client and in the admin
    client.  [formatUnits] and [parseUnits] of viem and the locale-dependent
    [toLocaleString] are parameters. *)

From S2P Require Import Prelude JsString JsNumber.
From Stdlib Require Import SpecFloat Ascii.
Open Scope string_scope.
Open Scope Z_scope.

(** ** Decimal texts *)

(** The pattern of [DECIMAL_INPUT_REGEX], digits with an optional point and digits,
    as the integer and fraction digits; [None] when the text does not match. *)
Definition match_decimal (s : string) : option (string * string) :=
  let '(i, r) := span_digits s in
  match r with
  | EmptyString => Some (i, "")
  | String "." r' =>
    let '(f, t) := span_digits r' in if str_nonempty t then None else Some (i, f)
  | _ => None
  end.

Definition DECIMAL_INPUT_REGEX (s : string) : bool :=
  match match_decimal s with Some _ => true | None => false end.

(** The same with an optional leading minus, as sign, integer and fraction digits. *)
Definition match_signed_decimal (s : string) : option (bool * string * string) :=
  let '(neg, u) := match s with String "-" r => (true, r) | _ => (false, s) end in
  match match_decimal u with Some (i, f) => Some (neg, i, f) | None => None end.

(** The replacement of [addThousandsSeparators] on a text of digits: a comma wherever
    a positive multiple of three digits follows a digit. *)
Fixpoint group_digits (s : string) : string :=
  match s with
  | EmptyString => EmptyString
  | String c r =>
    if str_nonempty r && Nat.eqb (Nat.modulo (String.length r) 3) 0
    then String c (String "," (group_digits r)) else String c (group_digits r)
  end.

Definition addThousandsSeparators (negative : bool) (digits : string) : string :=
  let formatted := group_digits digits in
  if negative then String "-" formatted else formatted.

Fixpoint all_zeros (s : string) : bool :=
  match s with EmptyString => true | String c r => Ascii.eqb c "0" && all_zeros r end.

(** Removes the zeros at the end. *)
Fixpoint drop_trailing_zeros (s : string) : string :=
  match s with
  | EmptyString => EmptyString
  | String c r => if all_zeros s then EmptyString else String c (drop_trailing_zeros r)
  end.

Fixpoint take_chars (n : nat) (s : string) : string :=
  match n, s with
  | S n', String c r => String c (take_chars n' r)
  | _, _ => EmptyString
  end.

(** Removes every comma, then the white space at both ends. *)
Definition normalize (value : string) : string := trim (strip "," value).

(** The common body of the two [formatDisplayAmountDown]; they differ in the text
    shown for a missing or malformed value. *)
Definition display_down (fallback : string) (value : option string) (fractionDigits : nat) : string :=
  match value with
  | None => fallback
  | Some value =>
    if negb (str_nonempty value) then fallback
    else match match_signed_decimal (normalize value) with
    | None => fallback
    | Some (negative, rawInteger, rawFraction) =>
      let integerPart := if str_nonempty rawInteger then rawInteger else "0" in
      let fractionPart := drop_trailing_zeros (take_chars fractionDigits rawFraction) in
      let formattedInteger := addThousandsSeparators false integerPart in
      let signedInteger := if negative then "-" ++ formattedInteger else formattedInteger in
      if Nat.eqb fractionDigits 0 || negb (str_nonempty fractionPart) then signedInteger
      else signedInteger ++ "." ++ fractionPart
    end
  end.

Section viem.
Variable formatUnits : Z -> Z -> string.
(** [parseUnits]: [None] when it throws. *)
Variable parseUnits : string -> Z -> option Z.

Definition parse_amount (value : string) (decimals : Z) : option Z :=
  let normalized := normalize value in
  if negb (str_nonempty normalized) || negb (DECIMAL_INPUT_REGEX normalized) then None
  else parseUnits normalized decimals.

Section client.
(** [n.toLocaleString(undefined, { maximumFractionDigits })] *)
Variable toLocaleString : num -> nat -> string.

Definition formatDisplayAmount (value : option string) (fractionDigits : nat) : string :=
  match value with
  | None => "0.00"
  | Some value =>
  if negb (str_nonempty value) then "0.00"
  else let numeric := num_of_string value in
       if negb (is_finite numeric) then "0.00" else toLocaleString numeric fractionDigits
  end.

Definition formatBigIntAmount (value : option Z) (decimals : Z) (fractionDigits : nat) : string :=
  match value with
  | None => "0.00"
  | Some value => formatDisplayAmount (Some (formatUnits value decimals)) fractionDigits
  end.
End client.

Definition formatDisplayAmountDown (value : option string) (fractionDigits : nat) : string :=
  display_down "0.00" value fractionDigits.

Definition formatBigIntAmountDown (value : option Z) (decimals : Z) (fractionDigits : nat) : string :=
  match value with
  | None => "0.00"
  | Some value => formatDisplayAmountDown (Some (formatUnits value decimals)) fractionDigits
  end.

Definition formatPairLpAmountDown (value : option Z) (fractionDigits : nat) : string :=
  formatBigIntAmountDown value 18 fractionDigits.

Definition parseAmount (value : string) (decimals : Z) : option Z := parse_amount value decimals.

Definition admin_formatDisplayAmountDown (value : option string) (fractionDigits : nat) : string :=
  display_down "0" value fractionDigits.

Definition admin_formatBigIntAmountDown (value : option Z) (decimals : Z) (fractionDigits : nat) : string :=
  match value with
  | None => "0"
  | Some value => admin_formatDisplayAmountDown (Some (formatUnits value decimals)) fractionDigits
  end.

Definition admin_parseAmount (value : string) (decimals : Z) : option Z := parse_amount value decimals.
End viem.

(** [`${value.toLocaleString('zh-CN', ...)}%`] of the weight in percent, to four
    decimals; the two digits are the minimum and maximum of fraction digits. *)
Definition formatWeight (toLocaleString : num -> nat -> nat -> string)
    (allocPoint totalAllocPoint : Z) : string :=
  if (allocPoint <=? 0) || (totalAllocPoint <=? 0) then "0%"
  else
    let value := num_div (num_of_Z (Z.quot (allocPoint * 1000000) totalAllocPoint)) (num_of_Z 10000) in
    toLocaleString value (if num_leb (num_of_Z 10) value then 1%nat else 2%nat) 2%nat ++ "%".

(** [None] would be the [RangeError] of [BigInt] on a number that is not an integer. *)
Definition parsePercentToBps (value : string) : option Z :=
  let numeric := num_of_string value in
  if negb (is_finite numeric) || num_ltb numeric num_zero then Some 50
  else bigint_of_num
         (num_min (num_max (num_round (num_mul numeric (num_of_Z 100))) num_zero) (num_of_Z 5000)).

(** ** Reading a displayed amount *)

(** Sign, digits as an integer, number of fraction digits. *)
Definition read_decimal (s : string) : option (bool * Z * nat) :=
  match match_signed_decimal (normalize s) with
  | Some (neg, i, f) => Some (neg, dec_value (i ++ f), String.length f)
  | None => None
  end.

Lemma match_decimal_spec s i f :
  match_decimal s = Some (i, f) -> all_chars is_digit i = true /\ all_chars is_digit f = true.
Proof.
  unfold match_decimal. destruct (span_digits s) as [d r] eqn:E.
  apply span_digits_spec in E as (_ & Hd & _).
  destruct r as [|c r]; [naive_solver|].
  destruct (span_digits r) as [f' t] eqn:E'. apply span_digits_spec in E' as (_ & Hf & _).
  intros H. repeat case_match; naive_solver.
Qed.

Lemma match_decimal_inv s i f :
  match_decimal s = Some (i, f) -> s = i ++ "." ++ f \/ s = i /\ f = "".
Proof.
  unfold match_decimal. destruct (span_digits s) as [d r] eqn:E. apply span_digits_spec in E as (-> & _ & _).
  destruct r as [|c r]; [intros [= <- <-]; right; by rewrite app_empty_r|].
  destruct (span_digits r) as [f' u] eqn:E'. apply span_digits_spec in E' as (-> & _ & _).
  intros H. repeat case_match; simplify_eq; left; destruct u; [by rewrite app_empty_r|done].
Qed.

Lemma match_decimal_build i f :
  all_chars is_digit i = true -> all_chars is_digit f = true ->
  match_decimal (i ++ "." ++ f) = Some (i, f) /\ match_decimal i = Some (i, "").
Proof.
  intros Hi Hf. unfold match_decimal. split.
  - rewrite span_digits_app; [|done|by intros c r [= <- _]]. simpl.
    rewrite <- (app_empty_r f) at 1. by rewrite span_digits_app by done.
  - rewrite <- (app_empty_r i) at 1. by rewrite span_digits_app by done.
Qed.

Lemma strip_app c s t : strip c (s ++ t) = strip c s ++ strip c t.
Proof. induction s as [|d s IH]; simpl; [done|]. rewrite IH. by destruct (Ascii.eqb d c). Qed.

Lemma strip_digits s : all_chars is_digit s = true -> strip "," s = s.
Proof.
  induction s as [|c s IH]; [done|]. cbn [all_chars strip]. intros H.
  apply andb_true_iff in H as [Hc Hs]. rewrite (digit_neq c ",") by done. by rewrite IH.
Qed.

(** Grouping only inserts commas. *)
Lemma strip_group s : all_chars is_digit s = true -> strip "," (group_digits s) = s.
Proof.
  induction s as [|c s IH]; [done|]. cbn [all_chars group_digits]. intros H.
  apply andb_true_iff in H as [Hc Hs].
  destruct (str_nonempty s && _); cbn [strip]; rewrite (digit_neq c ",") by done; by rewrite IH.
Qed.

Lemma take_chars_split n s :
  exists r, s = take_chars n s ++ r
    /\ (String.length (take_chars n s) <= n)%nat
    /\ (r <> "" -> String.length (take_chars n s) = n).
Proof.
  revert s; induction n as [|n IH]; intros s; [exists s; simpl; split_and!; done|].
  destruct s as [|c s]; [exists ""; simpl; split_and!; (done || lia)|].
  destruct (IH s) as (r & Hs & Hl & Hr). exists r. simpl. rewrite <- Hs.
  split_and!; [done|lia|]. intros H. by rewrite Hr.
Qed.

Lemma drop_zeros_split s :
  exists z, s = drop_trailing_zeros s ++ z /\ all_zeros z = true.
Proof.
  induction s as [|c s (z & Hs & Hz)]; [by exists ""|]. cbn [drop_trailing_zeros].
  destruct (all_zeros (String c s)) eqn:E; [by exists (String c s)|].
  exists z. simpl. by rewrite <- Hs.
Qed.

Lemma all_zeros_value z : all_zeros z = true -> all_chars is_digit z = true /\ dec_value z = 0.
Proof.
  induction z as [|c z IH]; [done|]. cbn [all_zeros all_chars]. intros H.
  apply andb_true_iff in H as [Hc Hz]. apply Ascii.eqb_eq in Hc as ->.
  destruct (IH Hz) as [Hd Hv]. split; [by rewrite Hd|].
  change (dec_value z = 0). exact Hv.
Qed.

Lemma read_display (neg : bool) i f :
  all_chars is_digit i = true -> all_chars is_digit f = true -> str_nonempty i = true ->
  forall p : string, p = "." ++ f \/ (p = "" /\ f = "") ->
  normalize ((if neg then "-" ++ group_digits i else group_digits i) ++ p)
    = (if neg then "-" ++ i ++ p else i ++ p)
  /\ read_decimal ((if neg then "-" ++ group_digits i else group_digits i) ++ p)
     = Some (neg, dec_value (i ++ f), String.length f).
Proof.
  intros Hi Hf Hne p Hp.
  assert (strip "," p = p) as Hsp.
  { destruct Hp as [->|[-> _]]; [|done]. simpl. by rewrite strip_digits. }
  assert (all_chars is_graphic (i ++ p) = true) as Hg.
  { rewrite all_chars_app, digits_graphic by done. destruct Hp as [->|[-> _]]; [|done].
    simpl. by rewrite digits_graphic. }
  assert (normalize ((if neg then "-" ++ group_digits i else group_digits i) ++ p)
          = (if neg then "-" ++ i ++ p else i ++ p)) as Hn.
  { unfold normalize. destruct neg; rewrite !strip_app, strip_group, Hsp by done;
      by rewrite trim_graphic by (simpl; done). }
  split; [done|]. unfold read_decimal. rewrite Hn.
  assert (match_decimal (i ++ p) = Some (i, f)) as Hm.
  { destruct (match_decimal_build i f Hi Hf) as [H1 H2].
    destruct Hp as [->|[-> ->]]; [done|]. by rewrite app_empty_r. }
  unfold match_signed_decimal. destruct neg; simpl.
  - by rewrite Hm.
  - destruct i as [|c i]; [done|]. simpl in *.
    apply andb_true_iff in Hi as [Hc _]. apply is_digit_spec in Hc.
    assert (c <> "-"%char) as Hcm by (intros ->; change (code "-") with 45 in Hc; lia).
    replace (match c with "-"%char => (true, i ++ p) | _ => (false, String c (i ++ p)) end)
      with (false, String c (i ++ p)); [by rewrite Hm|].
    destruct c as [[] [] [] [] [] [] [] []]; done.
Qed.

(** [M] digits kept, [F] of them in the fraction, then [z] zeros and [r] digits of
    value [v] dropped. *)
Lemma truncation_bounds M v F z r fd :
  0 <= F -> 0 <= z -> 0 <= r -> 0 <= M -> 0 <= v < 10 ^ r -> F + z <= fd ->
  (0 < r -> F + z = fd) ->
  M * 10 ^ (F + (z + r)) <= (M * 10 ^ (z + r) + v) * 10 ^ F
  /\ (M * 10 ^ (z + r) + v) * 10 ^ fd < (M * 10 ^ (fd - F) + 1) * 10 ^ (F + (z + r)).
Proof.
  intros HF Hz Hr HM Hv Hfd Hrfd.
  assert (forall n, 0 <= n -> 0 < 10 ^ n) as Hpos by (intros; apply Z.pow_pos_nonneg; lia).
  rewrite (Z.pow_add_r 10 F) by lia. split.
  { pose proof (Hpos F HF). nia. }
  assert (v * 10 ^ fd < 10 ^ F * 10 ^ (z + r)) as Hlt.
  { rewrite <- Z.pow_add_r by lia. destruct (Z.eq_dec r 0) as [->|Hne].
    - simpl in Hv. assert (v = 0) as -> by lia. rewrite Z.mul_0_l. apply Hpos. lia.
    - rewrite <- Hrfd by lia. replace (F + (z + r)) with (r + (F + z)) by lia.
      rewrite (Z.pow_add_r 10 r) by lia. pose proof (Hpos (F + z) ltac:(lia)). nia. }
  assert (10 ^ fd = 10 ^ (fd - F) * 10 ^ F) as Hs.
  { rewrite <- Z.pow_add_r by lia. f_equal. lia. }
  rewrite Hs in *. nia.
Qed.

Lemma display_down_value fb s fd neg N k :
  str_nonempty s = true -> read_decimal s = Some (neg, N, k) ->
  exists M j,
    read_decimal (display_down fb (Some s) fd) = Some (neg, M, j)
    /\ (j <= fd)%nat /\ (j <= k)%nat
    /\ M * 10 ^ Z.of_nat k <= N * 10 ^ Z.of_nat j
    /\ N * 10 ^ Z.of_nat fd < (M * 10 ^ (Z.of_nat fd - Z.of_nat j) + 1) * 10 ^ Z.of_nat k.
Proof.
  intros Hne Hr. unfold read_decimal in Hr. unfold display_down. rewrite Hne. cbn [negb].
  destruct (match_signed_decimal (normalize s)) as [[[neg' i] f]|] eqn:Hm; [|done].
  injection Hr as <- <- <-.
  assert (all_chars is_digit i = true /\ all_chars is_digit f = true) as [Hi Hf].
  { unfold match_signed_decimal in Hm. repeat case_match; simplify_eq.
    all: by eapply match_decimal_spec. }
  set (I := if str_nonempty i then i else "0").
  assert (all_chars is_digit I = true /\ str_nonempty I = true /\ dec_value I = dec_value i) as (HI & HIn & HIv).
  { unfold I. destruct i; done. }
  destruct (take_chars_split fd f) as (r & Hfr & Hlt & Hr).
  destruct (drop_zeros_split (take_chars fd f)) as (z & Htz & Hz).
  set (F := drop_trailing_zeros (take_chars fd f)) in *.
  apply all_zeros_value in Hz as [Hzd Hzv].
  assert (f = F ++ z ++ r) as Hsplit by (by rewrite <- app_string_assoc, <- Htz).
  rewrite Hsplit, !all_chars_app, !andb_true_iff in Hf. destruct Hf as (HF & _ & Hrd).
  exists (dec_value (I ++ F)), (String.length F). split.
  { unfold addThousandsSeparators.
    destruct (Nat.eqb fd 0 || negb (str_nonempty F)) eqn:Hcase.
    - assert (F = "") as HF0.
      { apply orb_true_iff in Hcase as [H0|H0]; [|by destruct F].
        apply Nat.eqb_eq in H0. unfold F. by rewrite H0. }
      rewrite HF0. destruct (read_display neg' I "" HI eq_refl HIn "") as [_ H]; [by right|].
      by rewrite app_empty_r in H.
    - destruct (read_display neg' I F HI HF HIn ("." ++ F)) as [_ H]; [by left|]. exact H. }
  assert (String.length (take_chars fd f) = (String.length F + String.length z)%nat) as HlenT.
  { rewrite Htz at 1. apply length_string_app. }
  assert (String.length f = (String.length F + (String.length z + String.length r))%nat) as Hlen.
  { rewrite Hsplit at 1. by rewrite !length_string_app. }
  assert (dec_value (i ++ f) = dec_value (I ++ F) * 10 ^ Z.of_nat (String.length z + String.length r)
                               + dec_value r) as Hval.
  { rewrite Hsplit. rewrite !dec_value_app, HIv, Hzv, !length_string_app, !Nat2Z.inj_add
      by (try done; rewrite ?all_chars_app; by rewrite ?HF, ?Hzd, ?Hrd).
    rewrite !Z.pow_add_r by lia. ring. }
  pose proof (dec_value_bounds r Hrd) as Hrb.
  assert (0 <= dec_value (I ++ F)).
  { apply dec_value_bounds. by rewrite all_chars_app, HI, HF. }
  rewrite Hlen, Hval. split; [lia|]. split; [lia|].
  rewrite !Nat2Z.inj_add. apply truncation_bounds; try lia.
  intros Hr0. rewrite Hr in HlenT by (intros ->; simpl in Hr0; lia). lia.
Qed.

(** The two clients' display functions. *)
Definition display_function (f : option string -> nat -> string) : Prop :=
  f = formatDisplayAmountDown \/ f = admin_formatDisplayAmountDown.

(** Displaying a decimal amount rounds it towards zero: the digits shown have
    the amount's sign, at most [fd] and at most the amount's fraction digits, a value
    not above the amount's, and less than one unit of the last digit below it. *)
Theorem display_rounds_down f s fd neg N k :
  display_function f -> str_nonempty s = true -> read_decimal s = Some (neg, N, k) ->
  exists M j,
    read_decimal (f (Some s) fd) = Some (neg, M, j)
    /\ (j <= fd)%nat /\ (j <= k)%nat
    /\ M * 10 ^ Z.of_nat k <= N * 10 ^ Z.of_nat j
    /\ N * 10 ^ Z.of_nat fd < (M * 10 ^ (Z.of_nat fd - Z.of_nat j) + 1) * 10 ^ Z.of_nat k.
Proof. intros [->| ->] Hne Hr; by apply display_down_value. Qed.

Lemma take_chars_all n s : (String.length s <= n)%nat -> take_chars n s = s.
Proof.
  revert s; induction n as [|n IH]; intros [|c s]; simpl; try done; [lia|].
  intros. rewrite IH; [done|lia].
Qed.

Lemma all_zeros_app s t : all_zeros s = true -> all_zeros t = true -> all_zeros (s ++ t) = true.
Proof. induction s as [|c s IH]; simpl; [done|]. rewrite !andb_true_iff. naive_solver. Qed.

Lemma drop_zeros_idemp s : drop_trailing_zeros (drop_trailing_zeros s) = drop_trailing_zeros s.
Proof.
  induction s as [|c s IH]; [done|]. cbn [drop_trailing_zeros].
  destruct (all_zeros (String c s)) eqn:E; [done|]. cbn [drop_trailing_zeros].
  destruct (all_zeros (String c (drop_trailing_zeros s))) eqn:E'; [|by rewrite IH].
  destruct (drop_zeros_split s) as (z & Hs & Hz).
  pose proof (all_zeros_app _ _ E' Hz) as H. simpl in H. rewrite <- Hs in H.
  cbn [all_zeros] in E. congruence.
Qed.

(** What a displayed amount is made of. *)
Lemma display_down_parts fb s fd :
  str_nonempty s = true -> is_Some (match_signed_decimal (normalize s)) ->
  exists (neg : bool) (I F p : string),
    display_down fb (Some s) fd = (if neg then "-" ++ group_digits I else group_digits I) ++ p
    /\ all_chars is_digit I = true /\ str_nonempty I = true /\ all_chars is_digit F = true
    /\ drop_trailing_zeros F = F /\ (String.length F <= fd)%nat
    /\ p = (if Nat.eqb fd 0 || negb (str_nonempty F) then "" else "." ++ F)
    /\ match_decimal (I ++ p) = Some (I, F)
    /\ match_signed_decimal ((if neg then "-" else "") ++ I ++ p) = Some (neg, I, F)
    /\ normalize (display_down fb (Some s) fd) = (if neg then "-" ++ I ++ p else I ++ p).
Proof.
  intros Hne [[[neg i] f] Hm]. unfold display_down. rewrite Hne, Hm. cbn [negb].
  assert (all_chars is_digit i = true /\ all_chars is_digit f = true) as [Hi Hf].
  { unfold match_signed_decimal in Hm. repeat case_match; simplify_eq.
    all: by eapply match_decimal_spec. }
  set (I := if str_nonempty i then i else "0"). set (F := drop_trailing_zeros (take_chars fd f)).
  set (p := if Nat.eqb fd 0 || negb (str_nonempty F) then "" else "." ++ F).
  assert (all_chars is_digit I = true /\ str_nonempty I = true) as [HI HIn] by (unfold I; by destruct i).
  destruct (take_chars_split fd f) as (r & Hfr & Hlt & _).
  destruct (drop_zeros_split (take_chars fd f)) as (z & Htz & _).
  assert (all_chars is_digit F = true /\ (String.length F <= fd)%nat) as [HF HFl].
  { rewrite Hfr, Htz, !all_chars_app, !andb_true_iff in Hf. split; [apply Hf|].
    rewrite Htz, length_string_app in Hlt. fold F in Hlt. lia. }
  assert (p = "." ++ F \/ (p = "" /\ F = "")) as Hp.
  { unfold p. destruct (Nat.eqb fd 0 || negb (str_nonempty F)) eqn:Hc; [right|by left].
    split; [done|]. apply orb_true_iff in Hc as [H0|H0]; [|by destruct F].
    apply Nat.eqb_eq in H0. unfold F. by rewrite H0. }
  destruct (read_display neg I F HI HF HIn p Hp) as [Hn Hrd].
  assert (match_decimal (I ++ p) = Some (I, F)) as Hmd.
  { destruct (match_decimal_build I F HI HF) as [H1 H2].
    destruct Hp as [->|[-> ->]]; [done|]. by rewrite app_empty_r. }
  exists neg, I, F, p. split_and!; try done.
  - unfold addThousandsSeparators, p.
    destruct (Nat.eqb fd 0 || negb (str_nonempty F)); [by rewrite app_empty_r|done].
  - apply drop_zeros_idemp.
  - unfold read_decimal in Hrd. rewrite Hn in Hrd.
    destruct neg; simpl; unfold match_signed_decimal; simpl; [by rewrite Hmd|].
    destruct (match_signed_decimal (I ++ p)) as [[[n' i'] f']|] eqn:E; [|done].
    unfold match_signed_decimal in E. destruct I as [|c I']; [done|]. simpl in *.
    destruct c as [[] [] [] [] [] [] [] []]; simpl in *; try done; by rewrite Hmd in *.
  - rewrite <- Hn. f_equal. unfold addThousandsSeparators, p.
    destruct (Nat.eqb fd 0 || negb (str_nonempty F)); [by rewrite app_empty_r|done].
Qed.

(** Displaying a displayed amount again changes nothing. *)
Theorem display_idempotent f s fd :
  display_function f -> str_nonempty s = true -> is_Some (read_decimal s) ->
  f (Some (f (Some s) fd)) fd = f (Some s) fd.
Proof.
  intros Hf Hne Hs. unfold read_decimal in Hs.
  assert (is_Some (match_signed_decimal (normalize s))) as Hs'.
  { destruct (match_signed_decimal (normalize s)); [done|]. by destruct Hs. }
  assert (exists fb, f = display_down fb) as [fb ->] by (destruct Hf as [->| ->]; eauto).
  destruct (display_down_parts fb s fd Hne Hs')
    as (neg & I & F & p & Hd & HI & HIn & HF & Hdz & HFl & Hp & _ & Hms & Hn).
  rewrite Hd at 1. unfold display_down at 1. rewrite <- Hd, Hn.
  assert (str_nonempty (display_down fb (Some s) fd) = true) as ->.
  { rewrite Hd. destruct neg; [done|]. destruct I as [|c I]; [done|]. cbn [group_digits].
    by destruct (_ && _). }
  replace (if neg then "-" ++ I ++ p else I ++ p) with ((if neg then "-" else "") ++ I ++ p)
    by (by destruct neg).
  rewrite Hms, HIn, take_chars_all, Hdz by done. cbn [negb]. rewrite Hd, Hp.
  unfold addThousandsSeparators.
  destruct (Nat.eqb fd 0 || negb (str_nonempty F)); [by rewrite app_empty_r|done].
Qed.

(** The amount shown for a balance, typed back, is accepted and never exceeds
    the balance; it is short of it by less than one unit of the last digit shown.
    [formatUnits] is only assumed to be exact on this balance, [parseUnits] on texts
    with at most [d] fraction digits. *)
Theorem displayed_balance_is_spendable formatUnits parseUnits v d fd N k :
  0 <= d -> Z.of_nat k <= d ->
  str_nonempty (formatUnits v d) = true ->
  read_decimal (formatUnits v d) = Some (false, N, k) -> N * 10 ^ d = v * 10 ^ Z.of_nat k ->
  (forall t i f, match_decimal t = Some (i, f) -> Z.of_nat (String.length f) <= d ->
     parseUnits t d = Some (dec_value (i ++ f) * 10 ^ (d - Z.of_nat (String.length f)))) ->
  exists w,
    parseAmount parseUnits (formatBigIntAmountDown formatUnits (Some v) d fd) d = Some w
    /\ w <= v /\ (v - w) * 10 ^ Z.of_nat fd < 10 ^ d.
Proof.
  intros Hd Hk Hne Hr Hv Hparse.
  destruct (display_down_value "0.00" _ fd _ _ _ Hne Hr) as (M & j & Hrd & Hjf & Hjk & Hlo & Hhi).
  assert (is_Some (match_signed_decimal (normalize (formatUnits v d)))) as Hs.
  { unfold read_decimal in Hr. destruct (match_signed_decimal _); [done|done]. }
  destruct (display_down_parts "0.00" _ fd Hne Hs)
    as (neg & I & F & p & _ & _ & HIn & _ & _ & _ & _ & Hmd & Hms & Hn).
  unfold read_decimal in Hrd. rewrite Hn in Hrd.
  replace (if neg then "-" ++ I ++ p else I ++ p) with ((if neg then "-" else "") ++ I ++ p) in Hrd
    by (by destruct neg).
  rewrite Hms in Hrd. injection Hrd as -> HM Hj.
  exists (M * 10 ^ (d - Z.of_nat j)). split.
  { unfold parseAmount, parse_amount, formatBigIntAmountDown, formatDisplayAmountDown. rewrite Hn.
    assert (str_nonempty (I ++ p) = true) as -> by (by destruct I).
    unfold DECIMAL_INPUT_REGEX. rewrite Hmd. cbn [negb orb].
    rewrite (Hparse _ I F) by (done || lia). by rewrite HM, Hj. }
  assert (forall n, 0 <= n -> 0 < 10 ^ n) as Hpos by (intros; apply Z.pow_pos_nonneg; lia).
  assert (10 ^ d = 10 ^ (d - Z.of_nat k) * 10 ^ Z.of_nat k) as Hdk.
  { rewrite <- Z.pow_add_r by lia. f_equal. lia. }
  assert (10 ^ d = 10 ^ (d - Z.of_nat j) * 10 ^ Z.of_nat j) as Hdj.
  { rewrite <- Z.pow_add_r by lia. f_equal. lia. }
  assert (v = N * 10 ^ (d - Z.of_nat k)) as ->.
  { apply (Z.mul_reg_r _ _ (10 ^ Z.of_nat k)); [pose proof (Hpos (Z.of_nat k)); lia|].
    rewrite <- Hv, Hdk. ring. }
  set (P := 10 ^ (d - Z.of_nat k)) in *. set (K := 10 ^ Z.of_nat k) in *.
  set (Q := 10 ^ (d - Z.of_nat j)) in *. set (J := 10 ^ Z.of_nat j) in *.
  assert (0 < P /\ 0 < K /\ 0 < Q /\ 0 < J) as (HP & HK & HQ & HJ)
    by (split_and!; apply Hpos; lia).
  assert (P * K = Q * J) as HPQ by congruence. split.
  - apply (Z.mul_le_mono_pos_r _ _ (K * J)); [nia|].
    replace (M * Q * (K * J)) with (M * K * (Q * J)) by ring.
    rewrite <- HPQ. replace (N * P * (K * J)) with (N * J * (P * K)) by ring. nia.
  - assert (10 ^ Z.of_nat fd = 10 ^ (Z.of_nat fd - Z.of_nat j) * J) as Hfj.
    { unfold J. rewrite <- Z.pow_add_r by lia. f_equal. lia. }
    set (D := 10 ^ (Z.of_nat fd - Z.of_nat j)) in *. rewrite Hdk.
    assert (N * 10 ^ Z.of_nat fd * P < (M * D + 1) * K * P) by nia.
    rewrite Hfj in *. nia.
Qed.

(** ** Slippage in basis points *)

Lemma num_round_cases x :
  x <> num_nan ->
  (exists s, num_round x = S754_infinity s) \/ exists z, num_integral (num_round x) = Some z.
Proof.
  intros H. destruct x as [s|s| |s m e]; [right; by exists 0|left; by exists s|done|right].
  unfold num_round. destruct (Z.leb_spec 0 e) as [He|He].
  { exists ((if s then Zneg m else Zpos m) * 2 ^ e). unfold num_integral, num_parts.
    by destruct (Z.leb_spec 0 e); [|lia]. }
  set (r := _ / _). destruct (Z.eqb_spec r 0); [by exists 0|]. eexists. reflexivity.
Qed.

Lemma min_max_bounds x :
  (exists s, x = S754_infinity s) \/ (exists z, num_integral x = Some z) ->
  exists b, num_integral (num_min (num_max x num_zero) (num_of_Z 5000)) = Some b /\ 0 <= b <= 5000.
Proof.
  pose proof (num_integral_of_Z 5000 ltac:(lia)) as H5.
  assert (num_integral num_zero = Some 0) as H0 by done.
  intros [[[] ->]|[z Hz]]; [exists 0|exists 5000|]; [split; [by vm_compute|lia]..|].
  unfold num_max. rewrite (num_ltb_integral x num_zero z 0) by done.
  set (y := if z <? 0 then num_zero else x).
  assert (num_integral y = Some (Z.max z 0)) as Hy.
  { unfold y. destruct (Z.ltb_spec z 0); [rewrite Z.max_r by lia; done|by rewrite Z.max_l by lia]. }
  unfold num_min. rewrite (num_ltb_integral _ _ 5000 (Z.max z 0)) by done.
  destruct (Z.ltb_spec 5000 (Z.max z 0)); [exists 5000|exists (Z.max z 0)]; split; (done || lia).
Qed.

(** Whatever text is in the slippage field, the tolerance is a number of basis points
    between 0 and 5000; converting it to a bigint never throws. *)
Lemma parsePercentToBps_range value :
  exists b, parsePercentToBps value = Some b /\ 0 <= b <= 5000.
Proof.
  unfold parsePercentToBps. destruct (is_finite (num_of_string value)) eqn:Hf; simpl;
    [|exists 50; split; [done|lia]].
  destruct (num_ltb _ num_zero); [exists 50; split; [done|lia]|].
  apply min_max_bounds, num_round_cases, num_mul_not_nan; [by apply is_finite_not_nan|by vm_compute|by vm_compute].
Qed.

(** ** Concrete instances *)

Lemma display_rounds_down_witness :
  exists M j, read_decimal (formatDisplayAmountDown (Some "-1,234.5678") 2) = Some (true, M, j)
    /\ (j <= 2)%nat.
Proof.
  destruct (display_rounds_down formatDisplayAmountDown "-1,234.5678" 2 true 12345678 4)
    as (M & j & Hr & Hj & _); [by left|reflexivity|vm_compute; reflexivity|eauto].
Defined.

Lemma display_idempotent_witness :
  admin_formatDisplayAmountDown (Some (admin_formatDisplayAmountDown (Some "1234.5678") 2)) 2
  = "1,234.56".
Proof.
  rewrite (display_idempotent admin_formatDisplayAmountDown "1234.5678" 2);
    [vm_compute; reflexivity|by right|reflexivity|eexists; vm_compute; reflexivity].
Defined.

(** [parseUnits] on texts with at most the token's decimals. *)
Definition exact_parseUnits (s : string) (d : Z) : option Z :=
  match match_decimal s with
  | Some (i, f) => Some (dec_value (i ++ f) * 10 ^ (d - Z.of_nat (String.length f)))
  | None => None
  end.

Lemma displayed_balance_is_spendable_witness :
  exists w,
    parseAmount exact_parseUnits
      (formatBigIntAmountDown (fun _ _ => "1234.567891") (Some 1234567891) 6 4) 6 = Some w
    /\ w <= 1234567891 /\ (1234567891 - w) * 10 ^ 4 < 10 ^ 6.
Proof.
  apply (displayed_balance_is_spendable (fun _ _ => "1234.567891") exact_parseUnits 1234567891 6 4
           1234567891 6); [lia|lia|reflexivity|vm_compute; reflexivity|lia|].
  intros t i f H _. unfold exact_parseUnits. by rewrite H.
Defined.
