(* ===== verification/OrdersApi.v ===== *)
(** * The limit-order API routes (frontend/src/app/api)

    The handlers of [api/orders/route.ts] and [api/routes/best/route.ts]: they check
    and normalise a request, call the executor service over gRPC and turn its reply
    into the response.  The gRPC library and the service are parameters: a loader and
    one function per method, which may throw.  A request is its parsed body, or its
    decoded query parameters.  [io] keeps the calls made on gRPC clients. *)

From S2P Require Import Prelude JsString JsNumber JsValue JsError LocalLimitOrders.
From Stdlib Require Import Ascii.
Open Scope string_scope.
Open Scope Z_scope.
Open Scope flux_scope.

(** ** Calls on gRPC clients *)

Inductive client_event := ClientOpened | ClientCalled (method : string) (deadline : option Z) | ClientClosed.

Definition io (A : Type) : Type := list client_event * res js_error A.
Definition io_pure {A} (r : res js_error A) : io A := ([], r).
Definition io_bind {A B} (m : io A) (k : A -> io B) : io B :=
  match snd m with
  | Ok a => let r := k a in ((fst m ++ fst r)%list, snd r)
  | Throw e => (fst m, Throw e)
  end.
(** [try { m } catch (e) { h(e) }] *)
Definition io_catch {A} (m : io A) (h : js_error -> A) : list client_event * A :=
  (fst m, match snd m with Ok a => a | Throw e => h e end).

Record http_response := { status : Z; body : jsval }.

Definition notice (code message hint : string) : jsval :=
  VObj [("success", VBool false); ("code", VStr code); ("message", VStr message);
        ("hint", VStr hint); ("stage", VStr "frontend_api_proxy")].

(** [response.notice?.success === false ? 400 : 200], where [response.notice] is
    read first. *)
Definition notice_status (response : jsval) : res js_error Z :=
  let* n := prop "notice" response in
  Ok (match opt_prop "success" n with VBool false => 400 | _ => 200 end).

(** ** Strings and integers of a request *)

Definition isString (value : jsval) : bool :=
  match value with VStr s => str_nonempty (trim s) | _ => false end.

Definition requireString (payload : jsval) (field : string) : res js_error string :=
  let* value := prop field payload in
  match value with
  | VStr s => if isString value then Ok (trim s) else Throw (Error (field ++ " is required"))
  | _ => Throw (Error (field ++ " is required"))
  end.

(** [Number(v)] checked to be a positive safe integer. *)
Definition require_chain_id (payload : jsval) (what : string) : res js_error num :=
  let* v := prop "chainId" payload in
  let chainId := to_number v in
  guard* is_safe_integer chainId && negb (num_leb chainId num_zero)
  or Error (what ++ " must be a positive integer") in Ok chainId.

Record CreateOrderPayload := {
  co_chainId : num;
  co_settlementAddress : string;
  co_orderHash : string;
  co_maker : string;
  co_inputToken : string;
  co_outputToken : string;
  co_amountIn : string;
  co_minAmountOut : string;
  co_maxExecutorRewardBps : string;
  co_triggerPriceX18 : string;
  co_expiry : string;
  co_nonce : string;
  co_recipient : string;
  co_signature : string;
  co_source : string;
}.

Definition normalizeCreateOrderBody (payload : jsval) : res js_error CreateOrderPayload :=
  let* chainId := require_chain_id payload "chainId" in
  let* settlementAddress := requireString payload "settlementAddress" in
  let* orderHash := requireString payload "orderHash" in
  let* maker := requireString payload "maker" in
  let* inputToken := requireString payload "inputToken" in
  let* outputToken := requireString payload "outputToken" in
  let* amountIn := requireString payload "amountIn" in
  let* minAmountOut := requireString payload "minAmountOut" in
  let* maxExecutorRewardBps := requireString payload "maxExecutorRewardBps" in
  let* triggerPriceX18 := requireString payload "triggerPriceX18" in
  let* expiry := requireString payload "expiry" in
  let* nonce := requireString payload "nonce" in
  let* recipient := requireString payload "recipient" in
  let* signature := requireString payload "signature" in
  let* source := prop "source" payload in
  Ok {| co_chainId := chainId; co_settlementAddress := settlementAddress;
        co_orderHash := orderHash; co_maker := maker; co_inputToken := inputToken;
        co_outputToken := outputToken; co_amountIn := amountIn; co_minAmountOut := minAmountOut;
        co_maxExecutorRewardBps := maxExecutorRewardBps; co_triggerPriceX18 := triggerPriceX18;
        co_expiry := expiry; co_nonce := nonce; co_recipient := recipient;
        co_signature := signature;
        co_source := match source with
                     | VStr s => if isString source then trim s else "frontend"
                     | _ => "frontend"
                     end |}.

Record CancelOrderItemPayload := {
  ci_chainId : num;
  ci_settlementAddress : string;
  ci_orderHash : string;
  ci_maker : string;
  ci_reason : string;
}.

Record CancelOrdersPayload := {
  cp_orders : list CancelOrderItemPayload;
  cp_cancelTxHash : string;
}.

Definition normalizeCancelOrderItem (index : nat) (item : jsval) : res js_error CancelOrderItemPayload :=
  let* chainId := require_chain_id item ("orders[" ++ dec (Z.of_nat index) ++ "].chainId") in
  let* settlementAddress := requireString item "settlementAddress" in
  let* orderHash := requireString item "orderHash" in
  let* maker := requireString item "maker" in
  let* reason := prop "reason" item in
  Ok {| ci_chainId := chainId; ci_settlementAddress := settlementAddress;
        ci_orderHash := orderHash; ci_maker := maker;
        ci_reason := match reason with
                     | VStr s => if isString reason then trim s else ""
                     | _ => ""
                     end |}.

Definition normalizeCancelOrdersBody (payload : jsval) : res js_error CancelOrdersPayload :=
  let* v := prop "orders" payload in
  let orders := match v with VArr l => l | _ => [] end in
  guard* negb (Nat.eqb (length orders) 0) or Error "orders must not be empty" in
  let* items := res_mapi normalizeCancelOrderItem 0 orders in
  let* cancelTxHash := requireString payload "cancelTxHash" in
  Ok {| cp_orders := items; cp_cancelTxHash := cancelTxHash |}.

Definition parsePositiveInteger (value : option string) (field : string) (fallback : option num)
  : res js_error num :=
  match value with
  | Some s =>
    if str_nonempty (trim s) then
      let parsed := num_of_string s in
      guard* is_safe_integer parsed && negb (num_leb parsed num_zero)
      or Error (field ++ " must be a positive integer") in Ok parsed
    else match fallback with Some n => Ok n | None => Throw (Error (field ++ " is required")) end
  | None =>
    match fallback with Some n => Ok n | None => Throw (Error (field ++ " is required")) end
  end.

(** ** The query of a list request *)

Definition query := list (string * string).

Definition query_getAll (k : string) (q : query) : list string :=
  snd <$> keep (fun kv => String.eqb (fst kv) k) q.
Definition query_get (k : string) (q : query) : option string := head (query_getAll k q).

(** [s?.trim() || undefined] *)
Definition trimmed (s : option string) : option string :=
  match s with
  | Some s => if str_nonempty (trim s) then Some (trim s) else None
  | None => None
  end.

Inductive view := ViewOrders | ViewUpdates.

Record ListOrdersPayload := {
  lp_chainId : num;
  lp_settlementAddress : option string;
  lp_maker : string;
  lp_statuses : list string;
  lp_limit : num;
  lp_cursor : option string;
}.

Definition is_updates (q : query) : bool :=
  match query_get "view" q with Some v => String.eqb v "updates" | None => false end.

Definition normalizeListOrdersQuery (q : query) : res js_error (view * ListOrdersPayload) :=
  let statuses :=
    keep str_nonempty
      (trim <$> (query_getAll "status" q ++ concat (split ","%char <$> query_getAll "statuses" q))%list) in
  let* chainId := parsePositiveInteger (query_get "chainId" q) "chainId" None in
  let settlementAddress := trimmed (query_get "settlementAddress" q) in
  let* maker := match trimmed (query_get "maker" q) with
                | Some m => Ok m
                | None => Throw (Error "maker is required")
                end in
  let* limit := parsePositiveInteger (query_get "limit" q) "limit" (Some (num_of_Z 100)) in
  Ok (if is_updates q then ViewUpdates else ViewOrders,
      {| lp_chainId := chainId; lp_settlementAddress := settlementAddress; lp_maker := maker;
         lp_statuses := statuses; lp_limit := limit; lp_cursor := trimmed (query_get "cursor" q) |}).

(** ** Replies of the executor *)

Definition readString (value : jsval) (fallback : string) : string :=
  match value with
  | VStr s => trim s
  | VNum _ | VBig _ => to_string value
  | _ => fallback
  end.

Record LimitOrderRecord := {
  lo_chainId : num;
  lo_settlementAddress : string;
  lo_orderHash : string;
  lo_maker : string;
  lo_inputToken : string;
  lo_outputToken : string;
  lo_amountIn : string;
  lo_minAmountOut : string;
  lo_maxExecutorRewardBps : string;
  lo_triggerPriceX18 : string;
  lo_expiry : string;
  lo_nonce : string;
  lo_recipient : string;
  lo_source : string;
  lo_status : string;
  lo_statusReason : string;
  lo_cancelledTxHash : string;
  lo_createdAt : string;
  lo_updatedAt : string;
}.

Definition is_positive_safe (n : num) : bool := is_safe_integer n && num_ltb num_zero n.

(** [None] is the [null] for an order without a hash. *)
Definition mapGrpcOrderToLimitOrderRecord (order : jsval) (fallbackChainId : num)
  : res js_error (option LimitOrderRecord) :=
  let* hash := prop "orderHash" order in
  let orderHash := readString hash "" in
  if negb (str_nonempty orderHash) then Ok None
  else
    let field k fallback := readString (get k order) fallback in
    let chainId := num_of_string (field "chainId" (num_to_string fallbackChainId)) in
    Ok (Some {|
      lo_chainId := if is_positive_safe chainId then chainId else fallbackChainId;
      lo_settlementAddress := field "settlementAddress" "";
      lo_orderHash := orderHash;
      lo_maker := field "maker" "";
      lo_inputToken := field "inputToken" "";
      lo_outputToken := field "outputToken" "";
      lo_amountIn := field "amountIn" "0";
      lo_minAmountOut := field "minAmountOut" "0";
      lo_maxExecutorRewardBps := field "maxExecutorRewardBps" "0";
      lo_triggerPriceX18 := field "triggerPriceX18" "0";
      lo_expiry := field "expiry" "0";
      lo_nonce := field "nonce" "0";
      lo_recipient := field "recipient" "";
      lo_source := field "source" "backend";
      lo_status := field "status" "open";
      lo_statusReason := field "statusReason" "";
      lo_cancelledTxHash := field "cancelledTxHash" "";
      lo_createdAt := field "createdAt" "";
      lo_updatedAt := field "updatedAt" "" |}).

(** The record as the object the response holds. *)
Definition record_js (r : LimitOrderRecord) : obj :=
  [("chainId", VNum (lo_chainId r)); ("settlementAddress", VStr (lo_settlementAddress r));
   ("orderHash", VStr (lo_orderHash r)); ("maker", VStr (lo_maker r));
   ("inputToken", VStr (lo_inputToken r)); ("outputToken", VStr (lo_outputToken r));
   ("amountIn", VStr (lo_amountIn r)); ("minAmountOut", VStr (lo_minAmountOut r));
   ("maxExecutorRewardBps", VStr (lo_maxExecutorRewardBps r));
   ("triggerPriceX18", VStr (lo_triggerPriceX18 r)); ("expiry", VStr (lo_expiry r));
   ("nonce", VStr (lo_nonce r)); ("recipient", VStr (lo_recipient r));
   ("source", VStr (lo_source r)); ("status", VStr (lo_status r));
   ("statusReason", VStr (lo_statusReason r)); ("cancelledTxHash", VStr (lo_cancelledTxHash r));
   ("createdAt", VStr (lo_createdAt r)); ("updatedAt", VStr (lo_updatedAt r))].

(** [grpc.status.DEADLINE_EXCEEDED] *)
Definition DEADLINE_EXCEEDED : jsval := VNum (num_of_Z 4).
Definition GRPC_CALL_TIMEOUT_MS : Z := 15000.

Definition is_deadline_exceeded (code : jsval) : bool :=
  match code with VNum n => num_eqb n (num_of_Z 4) | _ => false end.

Definition buildCreateOrderProxyFailureNotice (error : js_error) : jsval :=
  let message := message_or error "Backend gRPC request failed" in
  if is_deadline_exceeded (err_code error)
  then notice "CREATE_ORDER_PROXY_FAILED" "后端处理请求超时。" "链上 RPC 响应较慢，请稍后重试。"
  else notice "CREATE_ORDER_PROXY_FAILED" message
         "请确认后端 gRPC 服务已启动，并且 BACKEND_GRPC_URL 配置正确。".

Definition list_hint : string :=
  "Please confirm the backend gRPC service is running and BACKEND_GRPC_URL is configured correctly.".

(** [{ orders, nextCursor, hasMore, updatesCursor, notice }] *)
Definition list_body (orders : list jsval) (nextCursor hasMore updatesCursor n : jsval) : jsval :=
  VObj [("orders", VArr orders); ("nextCursor", nextCursor); ("hasMore", hasMore);
        ("updatesCursor", updatesCursor); ("notice", n)].

Definition order_js (r : option LimitOrderRecord) : jsval :=
  match r with Some r => VObj (record_js r) | None => VNull end.

(** [BACKEND_GRPC_URL ?? DEFAULT_BACKEND_GRPC_URL] *)
Definition getBackendGrpcUrl (env : option string) : string := default "127.0.0.1:9001" env.

Section orders_route.
(** The loaded package: whether it has [executor.Executor]; loading may throw. *)
Variable loadExecutor : res js_error bool.
Variable CreateOrder : CreateOrderPayload -> res js_error jsval.
Variable CancelOrders : CancelOrdersPayload -> res js_error jsval.
Variable ListOrders : ListOrdersPayload -> res js_error jsval.
Variable ListOrderUpdates : ListOrdersPayload -> res js_error jsval.
(** [Date.now()] *)
Variable now : Z.

Definition getExecutorClient : io unit :=
  match loadExecutor with
  | Throw e => ([], Throw e)
  | Ok true => ([ClientOpened], Ok tt)
  | Ok false => ([], Throw (Error "Executor gRPC service is not available from executor.proto"))
  end.

(** A unary call: the callback closes the client, then rejects or resolves. *)
Definition invoke (method : string) (deadline : option Z) (reply : res js_error jsval) : io jsval :=
  io_bind getExecutorClient (fun _ => ([ClientCalled method deadline; ClientClosed], reply)).

Definition createOrder (payload : CreateOrderPayload) : io jsval :=
  invoke "CreateOrder" (Some (now + GRPC_CALL_TIMEOUT_MS)) (CreateOrder payload).

Definition cancelOrders (payload : CancelOrdersPayload) : io jsval :=
  invoke "CancelOrders" None (CancelOrders payload).

Definition listOrders (payload : ListOrdersPayload) (v : view) : io jsval :=
  match v with
  | ViewUpdates => invoke "ListOrderUpdates" None (ListOrderUpdates payload)
  | ViewOrders => invoke "ListOrders" None (ListOrders payload)
  end.

Definition list_reply (payload : ListOrdersPayload) (response : jsval) : res js_error http_response :=
  let* status := notice_status response in
  let* orders := map_or_empty (get "orders" response)
                   (fun _ order => mapGrpcOrderToLimitOrderRecord order (lp_chainId payload)) in
  Ok {| status := status;
        body := list_body ((fun r => VObj (record_js r)) <$> omap id orders)
                  (nullish (get "nextCursor" response) (VStr ""))
                  (VBool (match get "hasMore" response with VBool true => true | _ => false end))
                  (nullish (get "updatesCursor" response) (VStr ""))
                  (get "notice" response) |}.

Definition list_failure (q : query) (error : js_error) : http_response :=
  {| status := 500;
     body := list_body [] (VStr "") (VBool false) (VStr "")
               (notice (if is_updates q then "LIST_ORDER_UPDATES_PROXY_FAILED"
                        else "LIST_ORDERS_PROXY_FAILED")
                  (message_or error "List orders request failed") list_hint) |}.

Definition GET (q : query) : list client_event * http_response :=
  io_catch
    (io_bind (io_pure (normalizeListOrdersQuery q)) (fun '(v, payload) =>
     io_bind (listOrders payload v) (fun response =>
     io_pure (list_reply payload response))))
    (list_failure q).

(** [request] is [await request.json()]. *)
Definition POST (request : res js_error jsval) : list client_event * http_response :=
  io_catch
    (io_bind (io_pure (res_bind request normalizeCreateOrderBody)) (fun payload =>
     io_bind (createOrder payload) (fun response =>
     io_pure (let* status := notice_status response in
              Ok {| status := status; body := response |}))))
    (fun error => {| status := 500;
                     body := VObj [("notice", buildCreateOrderProxyFailureNotice error)] |}).

Definition cancel_result (fallbackChainId : num) (_ : nat) (result : jsval) : res js_error jsval :=
  let* chainId := prop "chainId" result in
  let order := get "order" result in
  let* record := if truthy order
                 then mapGrpcOrderToLimitOrderRecord order fallbackChainId else Ok None in
  Ok (VObj
    [("chainId", VNum (to_number (nullish chainId (VNum fallbackChainId))));
     ("settlementAddress", VStr (readString (get "settlementAddress" result) ""));
     ("orderHash", VStr (readString (get "orderHash" result) ""));
     ("cancelled", VBool (match get "cancelled" result with VBool true => true | _ => false end));
     ("error", VStr (readString (get "error" result) ""));
     ("code", VStr (readString (get "code" result) ""));
     ("message", VStr (readString (get "message" result) ""));
     ("hint", VStr (readString (get "hint" result) ""));
     ("stage", VStr (readString (get "stage" result) ""));
     ("order", order_js record)]).

Definition cancel_body (total cancelledCount : num) (results : list jsval) (n : jsval) : jsval :=
  VObj [("total", VNum total); ("cancelledCount", VNum cancelledCount);
        ("results", VArr results); ("notice", n)].

Definition cancel_reply (payload : CancelOrdersPayload) (response : jsval) : res js_error http_response :=
  let* status := notice_status response in
  let fallbackChainId := match cp_orders payload with o :: _ => ci_chainId o | [] => num_zero end in
  let* results := map_or_empty (get "results" response) (cancel_result fallbackChainId) in
  Ok {| status := status;
        body := cancel_body (to_number (nullish (get "total" response) (VNum num_zero)))
                  (to_number (nullish (get "cancelledCount" response) (VNum num_zero)))
                  results (get "notice" response) |}.

Definition DELETE (request : res js_error jsval) : list client_event * http_response :=
  io_catch
    (io_bind (io_pure (res_bind request normalizeCancelOrdersBody)) (fun payload =>
     io_bind (cancelOrders payload) (fun response =>
     io_pure (cancel_reply payload response))))
    (fun error =>
       {| status := 500;
          body := cancel_body num_zero num_zero []
                    (notice "CANCEL_ORDERS_PROXY_FAILED"
                       (message_or error "Cancel orders request failed") list_hint) |}).
End orders_route.

(** ** The best-route handler *)

Module BestRoute.
Inductive quote_type := EXACT_INPUT | EXACT_OUTPUT.

Record GetBestRoutePayload := {
  br_chainId : num;
  br_tokenIn : string;
  br_tokenOut : string;
  br_amount : string;
  br_maxHops : num;
  br_quoteType : quote_type;
}.

Definition normalizeGetBestRouteBody (payload : jsval) : res js_error GetBestRoutePayload :=
  let* rawChainId := prop "chainId" payload in
  let chainId := to_number rawChainId in
  let maxHops := match get "maxHops" payload with
                 | VUndef => num_of_Z 1
                 | v => to_number v
                 end in
  guard* is_safe_integer chainId && negb (num_leb chainId num_zero)
  or Error "chainId must be a positive integer" in
  guard* is_safe_integer maxHops && negb (num_ltb maxHops num_zero)
  or Error "maxHops must be a non-negative integer" in
  let* tokenIn := requireString payload "tokenIn" in
  let* tokenOut := requireString payload "tokenOut" in
  let* amount := requireString payload "amount" in
  Ok {| br_chainId := chainId; br_tokenIn := tokenIn; br_tokenOut := tokenOut;
        br_amount := amount; br_maxHops := maxHops;
        br_quoteType := match get "quoteType" payload with
                        | VStr s => if String.eqb s "ROUTE_QUOTE_TYPE_EXACT_OUTPUT"
                                    then EXACT_OUTPUT else EXACT_INPUT
                        | _ => EXACT_INPUT
                        end |}.

Section route.
Variable loadExecutor : res js_error bool.
Variable GetBestRoute : GetBestRoutePayload -> res js_error jsval.
Variable now : Z.

Definition getBestRoute (payload : GetBestRoutePayload) : io jsval :=
  invoke loadExecutor "GetBestRoute" (Some (now + GRPC_CALL_TIMEOUT_MS)) (GetBestRoute payload).

Definition POST (request : res js_error jsval) : list client_event * http_response :=
  io_catch
    (io_bind (io_pure (res_bind request normalizeGetBestRouteBody)) (fun payload =>
     io_bind (getBestRoute payload) (fun response =>
     io_pure (let* status := notice_status response in
              Ok {| status := status; body := response |}))))
    (fun error =>
       {| status := 500;
          body := VObj [("notice", notice "GET_BEST_ROUTE_PROXY_FAILED"
                           (message_or error "Get best route request failed") list_hint)] |}).
End route.
End BestRoute.

(** ** Request normalisation *)

(** A text the handlers hand on: trimmed and not empty. *)
Definition normal_text (s : string) : Prop := trim s = s /\ str_nonempty s = true.

Definition safe_positive (n : num) : Prop :=
  exists z, num_integral n = Some z /\ 0 < z <= max_safe_integer.

Lemma safe_positive_spec n :
  is_safe_integer n && negb (num_leb n num_zero) = true <-> safe_positive n.
Proof.
  rewrite andb_true_iff, negb_true_iff, is_safe_integer_spec. split.
  - intros [(z & Hz & Hs) Hle]. exists z. split; [done|].
    rewrite (num_leb_integral n num_zero z 0) in Hle by done. apply Z.leb_gt in Hle. lia.
  - intros (z & Hz & Hs). split; [exists z; split; [done|lia]|].
    rewrite (num_leb_integral n num_zero z 0) by done. apply Z.leb_gt. lia.
Qed.

Lemma is_positive_safe_spec n : is_positive_safe n = true -> safe_positive n.
Proof.
  unfold is_positive_safe. rewrite andb_true_iff, is_safe_integer_spec. intros [(z & Hz & Hs) Hlt].
  exists z. split; [done|]. rewrite (num_ltb_integral num_zero n 0 z) in Hlt by done.
  apply Z.ltb_lt in Hlt. lia.
Qed.

Lemma safe_positive_finite n : safe_positive n -> is_finite n = true.
Proof.
  intros (z & Hz & _). destruct (num_integral_parts _ _ Hz) as [p Hp].
  unfold is_finite. by rewrite Hp.
Qed.

Lemma require_chain_id_Ok v what n :
  require_chain_id v what = Ok n -> safe_positive n.
Proof.
  unfold require_chain_id. intros H. apply res_bind_Ok in H as (c & _ & H).
  destruct (_ && _) eqn:E; [|done]. injection H as <-. by apply safe_positive_spec.
Qed.

Lemma requireString_Ok v k s :
  requireString v k = Ok s -> normal_text s.
Proof.
  unfold requireString. intros H. apply res_bind_Ok in H as (x & _ & H).
  destruct x; try done. destruct (isString (VStr s0)) eqn:E; [|done]. injection H as <-.
  split; [apply trim_trim|exact E].
Qed.

Lemma requireString_obj o k s :
  obj_get k o = VStr s -> normal_text s -> requireString (VObj o) k = Ok s.
Proof.
  intros Hg [Ht Hn]. unfold requireString. cbn [prop res_bind get]. rewrite Hg.
  unfold isString. by rewrite Ht, Hn.
Qed.

Lemma require_chain_id_obj o n what :
  obj_get "chainId" o = VNum n -> safe_positive n -> require_chain_id (VObj o) what = Ok n.
Proof.
  intros Hg Hn. unfold require_chain_id. cbn [prop res_bind get]. rewrite Hg. cbn [to_number].
  apply safe_positive_spec in Hn. by rewrite Hn.
Qed.

Definition create_payload_ok (p : CreateOrderPayload) : Prop :=
  safe_positive (co_chainId p)
  /\ Forall normal_text
       [co_settlementAddress p; co_orderHash p; co_maker p; co_inputToken p; co_outputToken p;
        co_amountIn p; co_minAmountOut p; co_maxExecutorRewardBps p; co_triggerPriceX18 p;
        co_expiry p; co_nonce p; co_recipient p; co_signature p; co_source p].

(** The payload as a request body. *)
Definition create_payload_js (p : CreateOrderPayload) : jsval :=
  VObj [("chainId", VNum (co_chainId p)); ("settlementAddress", VStr (co_settlementAddress p));
        ("orderHash", VStr (co_orderHash p)); ("maker", VStr (co_maker p));
        ("inputToken", VStr (co_inputToken p)); ("outputToken", VStr (co_outputToken p));
        ("amountIn", VStr (co_amountIn p)); ("minAmountOut", VStr (co_minAmountOut p));
        ("maxExecutorRewardBps", VStr (co_maxExecutorRewardBps p));
        ("triggerPriceX18", VStr (co_triggerPriceX18 p)); ("expiry", VStr (co_expiry p));
        ("nonce", VStr (co_nonce p)); ("recipient", VStr (co_recipient p));
        ("signature", VStr (co_signature p)); ("source", VStr (co_source p))].

Lemma optional_text_normal v d :
  normal_text d ->
  normal_text (match v with VStr s => if isString v then trim s else d | _ => d end).
Proof.
  intros Hd. destruct v as [| | | | |s| |]; try done. destruct (isString (VStr s)) eqn:Hs; [|done].
  split; [apply trim_trim|exact Hs].
Qed.

Lemma create_body_ok b p : normalizeCreateOrderBody b = Ok p -> create_payload_ok p.
Proof.
  unfold normalizeCreateOrderBody. intros H. repeat bind_inv H. injection H as <-.
  split; [by eapply require_chain_id_Ok|]. cbn -[normal_text isString].
  repeat (apply Forall_cons; split); try apply Forall_nil; try done; try by eapply requireString_Ok.
  by apply optional_text_normal.
Qed.

Lemma create_payload_normal p :
  create_payload_ok p -> normalizeCreateOrderBody (create_payload_js p) = Ok p.
Proof.
  intros [Hc Ht]. repeat (apply Forall_cons in Ht as [? Ht]).
  unfold normalizeCreateOrderBody, create_payload_js.
  rewrite (require_chain_id_obj _ (co_chainId p)) by done. cbn [res_bind].
  repeat (erewrite requireString_obj; [cbn [res_bind]|cbn; reflexivity|done]).
  cbn [prop res_bind get obj_get String.eqb Ascii.eqb Bool.eqb].
  match goal with H : normal_text (co_source p) |- _ => destruct H as [Hs1 Hs2] end.
  unfold isString. rewrite Hs1, Hs2. by destruct p.
Qed.

(** What the create route accepts is normal (a positive safe integer chain id,
    trimmed non-empty texts) and normalising it again gives it back: forwarding the
    payload as a new request is the identity. *)
Theorem create_body_roundtrip b p :
  normalizeCreateOrderBody b = Ok p ->
  create_payload_ok p /\ normalizeCreateOrderBody (create_payload_js p) = Ok p.
Proof.
  intros H. apply create_body_ok in H. split; [done|]. by apply create_payload_normal.
Qed.

(** ** Records *)

Lemma map_grpc_record order fallback r :
  safe_positive fallback -> mapGrpcOrderToLimitOrderRecord order fallback = Ok (Some r) ->
  safe_positive (lo_chainId r).
Proof.
  intros Hf H. unfold mapGrpcOrderToLimitOrderRecord in H. bind_inv H.
  destruct (negb _); [done|]. injection H as <-. cbn [lo_chainId].
  destruct (is_positive_safe _) eqn:Hs; [by apply is_positive_safe_spec|done].
Qed.

Lemma record_js_ok r : safe_positive (lo_chainId r) -> order_ok (record_js r).
Proof.
  intros Hc. apply record_order_ok with (lo_chainId r).
  - reflexivity.
  - apply json_ok_obj. split; [|by repeat constructor].
    unfold obj_wf, record_js. cbn. by apply (bool_decide_unpack _).
  - reflexivity.
  - by apply safe_positive_finite.
Qed.

(** ** The handlers *)

Definition opened (l : list client_event) : nat :=
  length (keep (fun e => match e with ClientOpened => true | _ => false end) l).
Definition closed (l : list client_event) : nat :=
  length (keep (fun e => match e with ClientClosed => true | _ => false end) l).

Definition no_leak {A} (m : io A) : Prop := opened (fst m) = closed (fst m).

Lemma no_leak_pure {A} (r : res js_error A) : no_leak (io_pure r).
Proof. done. Qed.

Lemma no_leak_bind {A B} (m : io A) (k : A -> io B) :
  no_leak m -> (forall a, no_leak (k a)) -> no_leak (io_bind m k).
Proof.
  unfold no_leak, io_bind. intros Hm Hk. destruct (snd m) as [a|e]; [|done]. simpl.
  unfold opened, closed in *. rewrite !keep_app, !length_app, Hm. f_equal. apply Hk.
Qed.

Lemma no_leak_invoke loader method deadline reply : no_leak (invoke loader method deadline reply).
Proof. unfold invoke, getExecutorClient. by destruct loader as [[]|]. Qed.

#[local] Hint Resolve no_leak_pure no_leak_bind no_leak_invoke : flux.

(** Every handler closes exactly the clients it opens, whatever the request, the
    loader and the service do. *)
Theorem handlers_close_clients loader create cancel list_orders list_updates best now q request :
  opened (fst (GET loader list_orders list_updates q))
    = closed (fst (GET loader list_orders list_updates q))
  /\ opened (fst (POST loader create now request)) = closed (fst (POST loader create now request))
  /\ opened (fst (DELETE loader cancel request)) = closed (fst (DELETE loader cancel request))
  /\ opened (fst (BestRoute.POST loader best now request))
     = closed (fst (BestRoute.POST loader best now request)).
Proof.
  split_and!.
  - apply no_leak_bind; [apply no_leak_pure|]. intros [v payload].
    apply no_leak_bind; [|intros; apply no_leak_pure]. destruct v; apply no_leak_invoke.
  - apply no_leak_bind; [apply no_leak_pure|]. intros payload.
    apply no_leak_bind; [apply no_leak_invoke|intros; apply no_leak_pure].
  - apply no_leak_bind; [apply no_leak_pure|]. intros payload.
    apply no_leak_bind; [apply no_leak_invoke|intros; apply no_leak_pure].
  - apply no_leak_bind; [apply no_leak_pure|]. intros payload.
    apply no_leak_bind; [apply no_leak_invoke|intros; apply no_leak_pure].
Qed.

Lemma notice_status_cases response st : notice_status response = Ok st -> st = 200 \/ st = 400.
Proof.
  unfold notice_status. intros H. bind_inv H. injection H as <-.
  destruct (opt_prop "success" x) as [| |[]| | | | |]; auto.
Qed.

(** Creating an order: the service is called exactly when the body normalises
    and the client loads, with the normalised payload; its reply is returned
    unchanged, with 400 when its notice says failure and 200 otherwise; in every
    other case the response is a 500 with a failure notice. *)
Theorem create_order_response loader create now request :
  let r := snd (POST loader create now request) in
  match res_bind request normalizeCreateOrderBody with
  | Throw e =>
    fst (POST loader create now request) = []
    /\ r = {| status := 500; body := VObj [("notice", buildCreateOrderProxyFailureNotice e)] |}
  | Ok payload =>
    match loader, create payload with
    | Ok true, Ok response =>
      match prop "notice" response with
      | Ok n => r = {| status := match opt_prop "success" n with VBool false => 400 | _ => 200 end;
                       body := response |}
      | Throw _ => status r = 500
      end
    | _, _ => status r = 500
    end
  end.
Proof.
  unfold POST, io_catch. destruct (res_bind request normalizeCreateOrderBody) as [payload|e]; [|done].
  unfold createOrder, invoke, getExecutorClient. destruct loader as [[|]|]; [|done|done].
  cbn. destruct (create payload) as [response|]; [|done].
  unfold notice_status. cbn. by destruct (prop "notice" response).
Qed.

Lemma list_query_chain q v p : normalizeListOrdersQuery q = Ok (v, p) -> safe_positive (lp_chainId p).
Proof.
  unfold normalizeListOrdersQuery. intros H. repeat bind_inv H. injection H as <- <-.
  cbn [lp_chainId]. unfold parsePositiveInteger in E. repeat case_in E; simplify_eq.
  by apply safe_positive_spec.
Qed.

(** C30.  Every order of a successful list response is a record the browser's store
    accepts: it passes the type guard of localLimitOrders.ts and survives storage. *)
Theorem listed_orders_are_records loader list_orders list_updates q :
  let r := snd (GET loader list_orders list_updates q) in
  status r <> 500 ->
  exists orders n c m u,
    body r = list_body orders n c m u
    /\ Forall (fun v => exists o, v = VObj o /\ order_ok o) orders.
Proof.
  unfold GET, io_catch, io_bind. simpl snd.
  destruct (normalizeListOrdersQuery q) as [[v payload]|e] eqn:Hq; [|done]. cbn.
  destruct (snd (listOrders loader list_orders list_updates payload v)) as [response|e]; [|done].
  cbn. unfold list_reply. destruct (notice_status response) as [st|]; [|done]. cbn [res_bind].
  destruct (map_or_empty _ _) as [orders|] eqn:Hm; [|done]. cbn. intros _.
  do 5 eexists. split; [reflexivity|].
  apply list_query_chain in Hq.
  eapply (map_or_empty_Forall _ _ (fun r => match r with Some r => safe_positive (lo_chainId r) | None => True end))
    in Hm; [|intros _ x [b|] Hb; [by apply map_grpc_record in Hb|done]].
  apply Forall_fmap. induction Hm as [|[r|] l Hr _ IH]; [constructor| |exact IH].
  simpl. constructor; [|exact IH]. exists (record_js r). split; [done|]. by apply record_js_ok.
Qed.

(** ** Concrete instances *)

Definition sample_create_body : jsval :=
  VObj [("chainId", VStr "31337"); ("settlementAddress", VStr " 0xa1 "); ("orderHash", VStr "0xb2");
        ("maker", VStr "0xc3"); ("inputToken", VStr "0xd4"); ("outputToken", VStr "0xe5");
        ("amountIn", VStr "1000"); ("minAmountOut", VStr "900"); ("maxExecutorRewardBps", VStr "30");
        ("triggerPriceX18", VStr "1"); ("expiry", VStr "0"); ("nonce", VStr "7");
        ("recipient", VStr "0xc3"); ("signature", VStr "0xf6")].

Definition sample_create_payload : CreateOrderPayload :=
  {| co_chainId := num_of_Z 31337; co_settlementAddress := "0xa1"; co_orderHash := "0xb2";
     co_maker := "0xc3"; co_inputToken := "0xd4"; co_outputToken := "0xe5"; co_amountIn := "1000";
     co_minAmountOut := "900"; co_maxExecutorRewardBps := "30"; co_triggerPriceX18 := "1";
     co_expiry := "0"; co_nonce := "7"; co_recipient := "0xc3"; co_signature := "0xf6";
     co_source := "frontend" |}.

Lemma create_body_roundtrip_witness :
  normalizeCreateOrderBody (create_payload_js sample_create_payload) = Ok sample_create_payload.
Proof. apply (create_body_roundtrip sample_create_body). vm_compute. reflexivity. Defined.

Lemma listed_orders_are_records_witness :
  exists orders n c m u,
    body (snd (GET (Ok true) (fun _ => Ok (VObj [("notice", VUndef);
                   ("orders", VArr [VObj [("orderHash", VStr "0xb2")]; VObj []])]))
                 (fun _ => Throw (Error "unused")) [("chainId", "31337"); ("maker", "0xc3")]))
    = list_body orders n c m u
    /\ Forall (fun v => exists o, v = VObj o /\ order_ok o) orders.
Proof. apply listed_orders_are_records. vm_compute. discriminate. Defined.
