(* ===== verification/Subgraph.v ===== *)
(** * The indexer (subgraph/src)

    The event handlers of [flux-swap-factory.ts] and [flux-swap-pair.ts] over the
    entity store of [schema.graphql], and the contract whose logs they read: the LP
    token and the reserves of contracts/contracts/{FluxSwapERC20,FluxSwapPair}.sol.
    Byte strings (addresses, hashes, entity ids) are raw bytes; the two graph-ts
    conversions the handlers use are parameters. *)

From S2P Require Import Prelude JsString.
From Stdlib Require Import Ascii.
Open Scope string_scope.
Open Scope Z_scope.
Open Scope flux_scope.

Abbreviation Bytes := string.

(** ** Entities *)

Record Token := {
  token_symbol : string;
  token_name : string;
  token_decimals : Z;
  token_createdAtTimestamp : Z;
}.

Record Pair := {
  token0 : Bytes;
  token1 : Bytes;
  reserve0 : Z;
  reserve1 : Z;
  totalSupply : Z;
  txCount : Z;
  swapCount : Z;
  mintCount : Z;
  burnCount : Z;
  createdAtBlock : Z;
  createdAtTimestamp : Z;
  createdAtTxHash : Bytes;
}.

(** Where and when an event was emitted. *)
Record log_meta := {
  log_address : Bytes;
  log_blockNumber : Z;
  log_timestamp : Z;
  log_txHash : Bytes;
  log_index : Z;
}.

(** The parameters of the pair's events that have a handler. *)
Inductive pair_event :=
| Mint (sender : Bytes) (amount0 amount1 : Z)
| Burn (sender : Bytes) (amount0 amount1 : Z) (to : Bytes)
| Swap (sender : Bytes) (amount0In amount1In amount0Out amount1Out : Z) (to : Bytes)
| Sync (reserve0 reserve1 : Z)
| Transfer (from to : Bytes) (value : Z).

(** The four immutable event entities: [pair], [timestamp], [blockNumber], [txHash]
    and [logIndex] of each are those of the log, the other fields the parameters. *)
Record event_entity := {
  ev_pair : Bytes;
  ev_params : pair_event;
  ev_timestamp : Z;
  ev_blockNumber : Z;
  ev_txHash : Bytes;
  ev_logIndex : Z;
}.

Record store := {
  tokens : gmap Bytes Token;
  pairs : gmap Bytes Pair;
  swapEvents : gmap Bytes event_entity;
  mintEvents : gmap Bytes event_entity;
  burnEvents : gmap Bytes event_entity;
  syncEvents : gmap Bytes event_entity;
  dataSources : gset Bytes;
}.

Definition empty_store : store :=
  {| tokens := ∅; pairs := ∅; swapEvents := ∅; mintEvents := ∅; burnEvents := ∅;
     syncEvents := ∅; dataSources := ∅ |}.

Definition save_pair (id : Bytes) (p : Pair) (s : store) : store :=
  {| tokens := tokens s; pairs := <[id := p]> (pairs s); swapEvents := swapEvents s;
     mintEvents := mintEvents s; burnEvents := burnEvents s; syncEvents := syncEvents s;
     dataSources := dataSources s |}.

Definition save_token (id : Bytes) (t : Token) (s : store) : store :=
  {| tokens := <[id := t]> (tokens s); pairs := pairs s; swapEvents := swapEvents s;
     mintEvents := mintEvents s; burnEvents := burnEvents s; syncEvents := syncEvents s;
     dataSources := dataSources s |}.

Definition create_template (address : Bytes) (s : store) : store :=
  {| tokens := tokens s; pairs := pairs s; swapEvents := swapEvents s;
     mintEvents := mintEvents s; burnEvents := burnEvents s; syncEvents := syncEvents s;
     dataSources := {[address]} ∪ dataSources s |}.

Definition with_counts (swaps mints burns txs : Z) (p : Pair) : Pair :=
  {| token0 := token0 p; token1 := token1 p; reserve0 := reserve0 p; reserve1 := reserve1 p;
     totalSupply := totalSupply p; txCount := txCount p + txs; swapCount := swapCount p + swaps;
     mintCount := mintCount p + mints; burnCount := burnCount p + burns;
     createdAtBlock := createdAtBlock p; createdAtTimestamp := createdAtTimestamp p;
     createdAtTxHash := createdAtTxHash p |}.

Definition with_reserves (r0 r1 : Z) (p : Pair) : Pair :=
  {| token0 := token0 p; token1 := token1 p; reserve0 := r0; reserve1 := r1;
     totalSupply := totalSupply p; txCount := txCount p; swapCount := swapCount p;
     mintCount := mintCount p; burnCount := burnCount p;
     createdAtBlock := createdAtBlock p; createdAtTimestamp := createdAtTimestamp p;
     createdAtTxHash := createdAtTxHash p |}.

Definition with_supply (v : Z) (p : Pair) : Pair :=
  {| token0 := token0 p; token1 := token1 p; reserve0 := reserve0 p; reserve1 := reserve1 p;
     totalSupply := v; txCount := txCount p; swapCount := swapCount p;
     mintCount := mintCount p; burnCount := burnCount p;
     createdAtBlock := createdAtBlock p; createdAtTimestamp := createdAtTimestamp p;
     createdAtTxHash := createdAtTxHash p |}.

(** ** Handlers *)

Definition ZERO_ADDRESS : string := "0x0000000000000000000000000000000000000000".

Definition TokenMetadata : Type := string * string * Z.

Section handlers.
(** graph-ts: [Bytes.toHexString] and [Bytes.fromBigInt]. *)
Variable toHexString : Bytes -> string.
Variable fromBigInt : Z -> Bytes.

Definition getKnownTokenMetadata (address : Bytes) : option TokenMetadata :=
  let normalized := to_lower (toHexString address) in
  if String.eqb normalized "0xf881723bef047da1cd494795a797835241d3be29"
  then Some ("WETH", "Wrapped Ether", 18)
  else if String.eqb normalized "0x5171c0fec2f9c4413a9aae39f3d3739aa30b1110"
  then Some ("FLUX", "Flux Token", 18)
  else if String.eqb normalized "0xf4fc2de27781b6401609732e0aa7f7c354bde388"
  then Some ("USDT", "Tether USD", 6)
  else if String.eqb normalized "0xa4049489d8689a55154c35f9809b1382b0972a79"
  then Some ("USDC", "USD Coin", 6)
  else if String.eqb normalized "0xc97de7b464a4db1910c16ce7835b918b4440c42c"
  then Some ("WBTC", "Wrapped Bitcoin", 8)
  else None.

Definition createTokenIfMissing (address : Bytes) (timestamp : Z) (s : store) : store :=
  match tokens s !! address with
  | Some _ => s
  | None =>
    let '(symbol, name, decimals) :=
      default (toHexString address, toHexString address, 18) (getKnownTokenMetadata address) in
    save_token address
      {| token_symbol := symbol; token_name := name; token_decimals := decimals;
         token_createdAtTimestamp := timestamp |} s
  end.

(** [m] is the factory's log; [t0 t1 pairAddress] its first three parameters. *)
Definition handlePairCreated (m : log_meta) (t0 t1 pairAddress : Bytes) (s : store) : store :=
  let s := createTokenIfMissing t0 (log_timestamp m) s in
  let s := createTokenIfMissing t1 (log_timestamp m) s in
  let s :=
    match pairs s !! pairAddress with
    | Some _ => s
    | None =>
      save_pair pairAddress
        {| token0 := t0; token1 := t1; reserve0 := 0; reserve1 := 0; totalSupply := 0;
           txCount := 0; swapCount := 0; mintCount := 0; burnCount := 0;
           createdAtBlock := log_blockNumber m; createdAtTimestamp := log_timestamp m;
           createdAtTxHash := log_txHash m |} s
    end in
  create_template pairAddress s.

Definition buildEventId (txHash : Bytes) (logIndex : Z) : Bytes := txHash ++ fromBigInt logIndex.

Definition event_of (m : log_meta) (e : pair_event) : event_entity :=
  {| ev_pair := log_address m; ev_params := e; ev_timestamp := log_timestamp m;
     ev_blockNumber := log_blockNumber m; ev_txHash := log_txHash m; ev_logIndex := log_index m |}.

Definition event_id (m : log_meta) : Bytes := buildEventId (log_txHash m) (log_index m).

Definition handleMint (m : log_meta) (sender : Bytes) (amount0 amount1 : Z) (s : store) : store :=
  match pairs s !! log_address m with
  | None => s
  | Some p =>
    save_pair (log_address m) (with_counts 0 1 0 1 p)
      {| tokens := tokens s; pairs := pairs s; swapEvents := swapEvents s;
         mintEvents := <[event_id m := event_of m (Mint sender amount0 amount1)]> (mintEvents s);
         burnEvents := burnEvents s; syncEvents := syncEvents s; dataSources := dataSources s |}
  end.

Definition handleBurn (m : log_meta) (sender : Bytes) (amount0 amount1 : Z) (to : Bytes)
    (s : store) : store :=
  match pairs s !! log_address m with
  | None => s
  | Some p =>
    save_pair (log_address m) (with_counts 0 0 1 1 p)
      {| tokens := tokens s; pairs := pairs s; swapEvents := swapEvents s;
         mintEvents := mintEvents s;
         burnEvents := <[event_id m := event_of m (Burn sender amount0 amount1 to)]> (burnEvents s);
         syncEvents := syncEvents s; dataSources := dataSources s |}
  end.

Definition handleSwap (m : log_meta) (sender : Bytes)
    (amount0In amount1In amount0Out amount1Out : Z) (to : Bytes) (s : store) : store :=
  match pairs s !! log_address m with
  | None => s
  | Some p =>
    save_pair (log_address m) (with_counts 1 0 0 1 p)
      {| tokens := tokens s; pairs := pairs s;
         swapEvents := <[event_id m := event_of m
            (Swap sender amount0In amount1In amount0Out amount1Out to)]> (swapEvents s);
         mintEvents := mintEvents s; burnEvents := burnEvents s; syncEvents := syncEvents s;
         dataSources := dataSources s |}
  end.

Definition handleSync (m : log_meta) (r0 r1 : Z) (s : store) : store :=
  match pairs s !! log_address m with
  | None => s
  | Some p =>
    save_pair (log_address m) (with_reserves r0 r1 p)
      {| tokens := tokens s; pairs := pairs s; swapEvents := swapEvents s;
         mintEvents := mintEvents s; burnEvents := burnEvents s;
         syncEvents := <[event_id m := event_of m (Sync r0 r1)]> (syncEvents s);
         dataSources := dataSources s |}
  end.

Definition handleTransfer (m : log_meta) (from to : Bytes) (value : Z) (s : store) : store :=
  match pairs s !! log_address m with
  | None => s
  | Some p =>
    let p :=
      if String.eqb (toHexString from) ZERO_ADDRESS
      then with_supply (totalSupply p + value) p
      else if String.eqb (toHexString to) ZERO_ADDRESS
      then with_supply (totalSupply p - value) p
      else p in
    save_pair (log_address m) p s
  end.

(** A log as the indexer delivers it: the factory's, or one of a pair template. *)
Inductive log :=
| PairCreated (m : log_meta) (t0 t1 pairAddress : Bytes)
| PairLog (m : log_meta) (e : pair_event).

Definition handle_pair_log (m : log_meta) (e : pair_event) (s : store) : store :=
  match e with
  | Mint sender a0 a1 => handleMint m sender a0 a1 s
  | Burn sender a0 a1 to => handleBurn m sender a0 a1 to s
  | Swap sender a0i a1i a0o a1o to => handleSwap m sender a0i a1i a0o a1o to s
  | Sync r0 r1 => handleSync m r0 r1 s
  | Transfer from to v => handleTransfer m from to v s
  end.

(** A pair's log is delivered once its data source exists. *)
Definition handle (s : store) (l : log) : store :=
  match l with
  | PairCreated m t0 t1 p => handlePairCreated m t0 t1 p s
  | PairLog m e => if bool_decide (log_address m ∈ dataSources s) then handle_pair_log m e s else s
  end.

Definition replay (s : store) (ls : list log) : store := foldl handle s ls.
End handlers.

(** ** The pair contract *)

Module PairContract.
Record state := {
  lp_totalSupply : Z;
  lp_balances : gmap Bytes Z;
  c_reserve0 : Z;
  c_reserve1 : Z;
  blockTimestampLast : Z;
  price0CumulativeLast : Z;
  price1CumulativeLast : Z;
}.

Definition deployed : state :=
  {| lp_totalSupply := 0; lp_balances := ∅; c_reserve0 := 0; c_reserve1 := 0;
     blockTimestampLast := 0; price0CumulativeLast := 0; price1CumulativeLast := 0 |}.

Definition zero_address : Bytes := repeat_char 20 "000".
Definition MINIMUM_LIQUIDITY : Z := 1000.
Definition FEE_BPS_BASE : Z := 10000.
Definition TOTAL_SWAP_FEE_BPS : Z := 30.
Definition PROTOCOL_SWAP_FEE_BPS : Z := 5.
Definition LP_SWAP_FEE_BPS : Z := TOTAL_SWAP_FEE_BPS - PROTOCOL_SWAP_FEE_BPS.

(** Checked uint256 arithmetic. *)
Definition u256 (z : Z) : res string Z :=
  guard* (0 <=? z) && (z <? 2 ^ 256) or "Panic(0x11)" in Ok z.
Definition udiv (x y : Z) : res string Z :=
  guard* negb (y =? 0) or "Panic(0x12)" in Ok (x / y).

Definition balanceOf (a : Bytes) (c : state) : Z := default 0 (lp_balances c !! a).

Definition set_lp (total : Z) (balances : gmap Bytes Z) (c : state) : state :=
  {| lp_totalSupply := total; lp_balances := balances; c_reserve0 := c_reserve0 c;
     c_reserve1 := c_reserve1 c; blockTimestampLast := blockTimestampLast c;
     price0CumulativeLast := price0CumulativeLast c; price1CumulativeLast := price1CumulativeLast c |}.

(** A call's effect: the new state and the logs with a handler, or a revert. *)
Definition effect : Type := res string (state * list pair_event).
Definition after (m : effect) (k : state -> effect) : effect :=
  let* r := m in let* r' := k (fst r) in Ok (fst r', (snd r ++ snd r')%list).
Definition emit (e : pair_event) (c : state) : effect := Ok (c, [e]).

Definition _mint (to : Bytes) (value : Z) (c : state) : effect :=
  let* total := u256 (lp_totalSupply c + value) in
  let* balance := u256 (balanceOf to c + value) in
  Ok (set_lp total (<[to := balance]> (lp_balances c)) c, [Transfer zero_address to value]).

Definition _burn (from : Bytes) (value : Z) (c : state) : effect :=
  guard* negb (String.eqb from zero_address) or "FluxSwap: BURN_FROM_ZERO_ADDRESS" in
  let* balance := u256 (balanceOf from c - value) in
  let* total := u256 (lp_totalSupply c - value) in
  Ok (set_lp total (<[from := balance]> (lp_balances c)) c, [Transfer from zero_address value]).

Definition _transfer (from to : Bytes) (value : Z) (c : state) : effect :=
  guard* negb (String.eqb from zero_address) or "FluxSwap: TRANSFER_FROM_ZERO_ADDRESS" in
  guard* negb (String.eqb to zero_address) or "FluxSwap: TRANSFER_TO_ZERO_ADDRESS" in
  let* balance := u256 (balanceOf from c - value) in
  let c' := set_lp (lp_totalSupply c) (<[from := balance]> (lp_balances c)) c in
  let* balance' := u256 (balanceOf to c' + value) in
  Ok (set_lp (lp_totalSupply c) (<[to := balance']> (lp_balances c')) c', [Transfer from to value]).

(** LP transfers made while the pair calls out to a token or to a flash callback:
    the lock does not cover them. *)
Definition lp_transfer : Type := Bytes * Bytes * Z.
Fixpoint _transfers (l : list lp_transfer) (c : state) : effect :=
  match l with
  | [] => Ok (c, [])
  | (from, to, value) :: l' => after (_transfer from to value c) (_transfers l')
  end.

(** [UQ112x112.encode(y).uqdiv(x)] *)
Definition uq_price (y x : Z) : Z := y * 2 ^ 112 / x.

Definition _update (balance0 balance1 r0 r1 timestamp : Z) (c : state) : effect :=
  guard* (balance0 <? 2 ^ 112) && (balance1 <? 2 ^ 112) or "FluxSwap: OVERFLOW" in
  let blockTimestamp := timestamp mod 2 ^ 32 in
  let* timeElapsed := u256 (blockTimestamp - blockTimestampLast c) in
  let accumulate := (0 <? timeElapsed) && negb (r0 =? 0) && negb (r1 =? 0) in
  let* price0 := if accumulate then u256 (price0CumulativeLast c + uq_price r1 r0 * timeElapsed)
                 else Ok (price0CumulativeLast c) in
  let* price1 := if accumulate then u256 (price1CumulativeLast c + uq_price r0 r1 * timeElapsed)
                 else Ok (price1CumulativeLast c) in
  Ok ({| lp_totalSupply := lp_totalSupply c; lp_balances := lp_balances c;
         c_reserve0 := balance0; c_reserve1 := balance1; blockTimestampLast := blockTimestamp;
         price0CumulativeLast := price0; price1CumulativeLast := price1 |},
      [Sync balance0 balance1]).

(** [Math.sqrt] *)
Fixpoint sqrt_loop (fuel : nat) (y x z : Z) : Z :=
  match fuel with
  | O => z
  | S f => if x <? z then sqrt_loop f y ((y / x + x) / 2) x else z
  end.
Definition sqrt (y : Z) : Z :=
  if 3 <? y then sqrt_loop 257 y (y / 2 + 1) y else if negb (y =? 0) then 1 else 0.

(** The external functions.  The token balances the pair reads, the block's
    timestamp and the factory's treasury are arguments: they belong to other
    contracts. *)
Definition mint (sender to : Bytes) (balance0 balance1 timestamp : Z) (c : state) : effect :=
  let r0 := c_reserve0 c in let r1 := c_reserve1 c in
  let* amount0 := u256 (balance0 - r0) in
  let* amount1 := u256 (balance1 - r1) in
  let total := lp_totalSupply c in
  let* first :=
    if total =? 0
    then let* p := u256 (amount0 * amount1) in
         let* liquidity := u256 (sqrt p - MINIMUM_LIQUIDITY) in
         let* r := _mint zero_address MINIMUM_LIQUIDITY c in Ok (liquidity, r)
    else let* p0 := u256 (amount0 * total) in let* l0 := udiv p0 r0 in
         let* p1 := u256 (amount1 * total) in let* l1 := udiv p1 r1 in
         Ok (if l0 <? l1 then l0 else l1, (c, [])) in
  let liquidity := fst first in
  guard* 0 <? liquidity or "FluxSwap: INSUFFICIENT_LIQUIDITY_MINTED" in
  after (Ok (snd first)) (fun c =>
  after (_mint to liquidity c) (fun c =>
  after (_update balance0 balance1 r0 r1 timestamp c)
    (emit (Mint sender amount0 amount1)))).

Definition burn (self sender to : Bytes) (balance0 balance1 balance0' balance1' timestamp : Z)
    (nested : list lp_transfer) (c : state) : effect :=
  let r0 := c_reserve0 c in let r1 := c_reserve1 c in
  let liquidity := balanceOf self c in
  let total := lp_totalSupply c in
  let* p0 := u256 (liquidity * balance0) in let* amount0 := udiv p0 total in
  let* p1 := u256 (liquidity * balance1) in let* amount1 := udiv p1 total in
  guard* (0 <? amount0) && (0 <? amount1) or "FluxSwap: INSUFFICIENT_LIQUIDITY_BURNED" in
  after (_burn self liquidity c) (fun c =>
  after (_transfers nested c) (fun c =>
  after (_update balance0' balance1' r0 r1 timestamp c)
    (emit (Burn sender amount0 amount1 to)))).

(** [toIsToken] is [to == token0 || to == token1]; [balance0], [balance1] are read
    after the transfers out and the callback. *)
Definition swap (sender : Bytes) (amount0Out amount1Out : Z) (to : Bytes) (toIsToken : bool)
    (balance0 balance1 : Z) (treasury : Bytes) (timestamp : Z)
    (nested : list lp_transfer) (c : state) : effect :=
  guard* (0 <? amount0Out) || (0 <? amount1Out) or "FluxSwap: INSUFFICIENT_OUTPUT_AMOUNT" in
  let r0 := c_reserve0 c in let r1 := c_reserve1 c in
  guard* (amount0Out <? r0) && (amount1Out <? r1) or "FluxSwap: INSUFFICIENT_LIQUIDITY" in
  guard* negb toIsToken or "FluxSwap: INVALID_TO" in
  after (_transfers nested c) (fun c =>
  let amount0In := if r0 - amount0Out <? balance0 then balance0 - (r0 - amount0Out) else 0 in
  let amount1In := if r1 - amount1Out <? balance1 then balance1 - (r1 - amount1Out) else 0 in
  guard* (0 <? amount0In) || (0 <? amount1In) or "FluxSwap: INSUFFICIENT_INPUT_AMOUNT" in
  let takes_fee := negb (String.eqb treasury zero_address) in
  let* m0 := u256 (amount0In * PROTOCOL_SWAP_FEE_BPS) in
  let* m1 := u256 (amount1In * PROTOCOL_SWAP_FEE_BPS) in
  let fee0 := if takes_fee then m0 / FEE_BPS_BASE else 0 in
  let fee1 := if takes_fee then m1 / FEE_BPS_BASE else 0 in
  let* balance0 := u256 (balance0 - fee0) in
  let* balance1 := u256 (balance1 - fee1) in
  let lpFeeBps := if takes_fee then LP_SWAP_FEE_BPS else TOTAL_SWAP_FEE_BPS in
  let* b0 := u256 (balance0 * FEE_BPS_BASE) in let* f0 := u256 (amount0In * lpFeeBps) in
  let* adjusted0 := u256 (b0 - f0) in
  let* b1 := u256 (balance1 * FEE_BPS_BASE) in let* f1 := u256 (amount1In * lpFeeBps) in
  let* adjusted1 := u256 (b1 - f1) in
  let* k := u256 (adjusted0 * adjusted1) in
  let* k0 := u256 (r0 * r1 * FEE_BPS_BASE ^ 2) in
  guard* k0 <=? k or "FluxSwap: K" in
  after (_update balance0 balance1 r0 r1 timestamp c)
    (emit (Swap sender amount0In amount1In amount0Out amount1Out to))).

Definition sync (balance0 balance1 timestamp : Z) (c : state) : effect :=
  _update balance0 balance1 (c_reserve0 c) (c_reserve1 c) timestamp c.

Inductive call :=
| CallMint (sender to : Bytes) (balance0 balance1 timestamp : Z)
| CallBurn (self sender to : Bytes) (balance0 balance1 balance0' balance1' timestamp : Z)
    (nested : list lp_transfer)
| CallSwap (sender : Bytes) (amount0Out amount1Out : Z) (to : Bytes) (toIsToken : bool)
    (balance0 balance1 : Z) (treasury : Bytes) (timestamp : Z) (nested : list lp_transfer)
| CallSync (balance0 balance1 timestamp : Z)
| CallTransfer (from to : Bytes) (value : Z).

Definition exec (k : call) (c : state) : effect :=
  match k with
  | CallMint sender to b0 b1 t => mint sender to b0 b1 t c
  | CallBurn self sender to b0 b1 b0' b1' t nested => burn self sender to b0 b1 b0' b1' t nested c
  | CallSwap sender o0 o1 to tok b0 b1 treasury t nested =>
    swap sender o0 o1 to tok b0 b1 treasury t nested c
  | CallSync b0 b1 t => sync b0 b1 t c
  | CallTransfer from to v => _transfer from to v c
  end.

(** Running calls: a reverting call leaves no trace. *)
Fixpoint run (ks : list call) (c : state) : state * list pair_event :=
  match ks with
  | [] => (c, [])
  | k :: ks' =>
    match exec k c with
    | Ok (c', evs) => let r := run ks' c' in (fst r, (evs ++ snd r)%list)
    | Throw _ => run ks' c
    end
  end.
End PairContract.

(** ** Replaying the logs of one pair *)

(** What a pair's event does to its entity. *)
Definition apply_event (p : Pair) (e : pair_event) : Pair :=
  match e with
  | Mint _ _ _ => with_counts 0 1 0 1 p
  | Burn _ _ _ _ => with_counts 0 0 1 1 p
  | Swap _ _ _ _ _ _ => with_counts 1 0 0 1 p
  | Sync r0 r1 => with_reserves r0 r1 p
  | Transfer from to v =>
    if String.eqb from PairContract.zero_address then with_supply (totalSupply p + v) p
    else if String.eqb to PairContract.zero_address then with_supply (totalSupply p - v) p
    else p
  end.

(** The events a pair emits, among the logs delivered. *)
Definition events_at (a : Bytes) (ls : list log) : list pair_event :=
  omap (fun l => match l with
                 | PairLog m e => if String.eqb (log_address m) a then Some e else None
                 | PairCreated _ _ _ _ => None
                 end) ls.

Section replay_one.
Variable toHexString : Bytes -> string.
Variable fromBigInt : Z -> Bytes.
(** The zero address, and no other address, is written [ZERO_ADDRESS]. *)
Hypothesis hex_zero : forall a,
  toHexString a = ZERO_ADDRESS <-> a = PairContract.zero_address.

Lemma hex_zero_eqb a :
  String.eqb (toHexString a) ZERO_ADDRESS = String.eqb a PairContract.zero_address.
Proof.
  pose proof (hex_zero a).
  destruct (String.eqb_spec (toHexString a) ZERO_ADDRESS),
    (String.eqb_spec a PairContract.zero_address); naive_solver.
Qed.

Lemma pairs_handle_pair_log m e s :
  pairs (handle_pair_log toHexString fromBigInt m e s)
  = match pairs s !! log_address m with
    | None => pairs s
    | Some p => <[log_address m := apply_event p e]> (pairs s)
    end.
Proof.
  destruct e; simpl;
    unfold handleMint, handleBurn, handleSwap, handleSync, handleTransfer, apply_event;
    rewrite ?hex_zero_eqb; by destruct (pairs s !! log_address m).
Qed.

Lemma pairs_createToken a t s : pairs (createTokenIfMissing toHexString a t s) = pairs s.
Proof.
  unfold createTokenIfMissing. destruct (tokens s !! a); [done|].
  by destruct (default _ _) as [[? ?] ?].
Qed.

Lemma sources_createToken a t s :
  dataSources (createTokenIfMissing toHexString a t s) = dataSources s.
Proof.
  unfold createTokenIfMissing. destruct (tokens s !! a); [done|].
  by destruct (default _ _) as [[? ?] ?].
Qed.

(** A pair's entity after its creation log, if there was none. *)
Definition created_pair (m : log_meta) (t0 t1 : Bytes) : Pair :=
  {| token0 := t0; token1 := t1; reserve0 := 0; reserve1 := 0; totalSupply := 0;
     txCount := 0; swapCount := 0; mintCount := 0; burnCount := 0;
     createdAtBlock := log_blockNumber m; createdAtTimestamp := log_timestamp m;
     createdAtTxHash := log_txHash m |}.

Lemma pairs_handlePairCreated m t0 t1 a s :
  pairs (handlePairCreated toHexString m t0 t1 a s)
  = match pairs s !! a with
    | Some _ => pairs s
    | None => <[a := created_pair m t0 t1]> (pairs s)
    end.
Proof.
  unfold handlePairCreated. rewrite !pairs_createToken.
  destruct (pairs s !! a) eqn:E; cbn [create_template pairs save_pair];
    by rewrite !pairs_createToken.
Qed.

Lemma sources_handlePairCreated m t0 t1 a s :
  dataSources (handlePairCreated toHexString m t0 t1 a s) = {[a]} ∪ dataSources s.
Proof.
  unfold handlePairCreated. rewrite !pairs_createToken.
  destruct (pairs s !! a); cbn [create_template dataSources save_pair];
    by rewrite !sources_createToken.
Qed.

Lemma sources_handle l s :
  dataSources s ⊆ dataSources (handle toHexString fromBigInt s l).
Proof.
  destruct l as [m t0 t1 a|m e]; cbn [handle].
  - rewrite sources_handlePairCreated. set_solver.
  - destruct (bool_decide _); [|done].
    destruct e; simpl; unfold handleMint, handleBurn, handleSwap, handleSync, handleTransfer;
      by destruct (pairs s !! log_address m).
Qed.

(** One log: only the events of [a] touch the entity of [a]. *)
Lemma handle_at a p l s :
  pairs s !! a = Some p -> a ∈ dataSources s ->
  pairs (handle toHexString fromBigInt s l) !! a
  = Some (foldl apply_event p (events_at a [l])).
Proof.
  intros Hp Ha. destruct l as [m t0 t1 b|m e]; cbn [handle].
  - rewrite pairs_handlePairCreated. destruct (pairs s !! b) eqn:E; [done|].
    rewrite lookup_insert_ne; [done|]. intros ->. congruence.
  - unfold events_at. simpl. destruct (String.eqb_spec (log_address m) a) as [Heq|Hne].
    + subst a. rewrite bool_decide_true by done. rewrite pairs_handle_pair_log, Hp. simpl.
      by rewrite lookup_insert_eq.
    + destruct (bool_decide _); [|done]. rewrite pairs_handle_pair_log.
      destruct (pairs s !! log_address m); [|done]. by rewrite lookup_insert_ne.
Qed.

Lemma events_at_app a l1 l2 : events_at a (l1 ++ l2)%list = (events_at a l1 ++ events_at a l2)%list.
Proof. apply omap_app. Qed.

Lemma replay_at a p ls s :
  pairs s !! a = Some p -> a ∈ dataSources s ->
  pairs (replay toHexString fromBigInt s ls) !! a = Some (foldl apply_event p (events_at a ls)).
Proof.
  revert s p. induction ls as [|l ls IH]; intros s p Hp Ha; [done|].
  rewrite (events_at_app a [l] ls : events_at a (l :: ls) = _), foldl_app.
  apply (IH (handle toHexString fromBigInt s l)); [by apply handle_at|]. by apply sources_handle.
Qed.
End replay_one.

(** Counting the events of a kind. *)
Definition is_swap (e : pair_event) : bool := match e with Swap _ _ _ _ _ _ => true | _ => false end.
Definition is_mint (e : pair_event) : bool := match e with Mint _ _ _ => true | _ => false end.
Definition is_burn (e : pair_event) : bool := match e with Burn _ _ _ _ => true | _ => false end.
Definition count (k : pair_event -> bool) (l : list pair_event) : Z := Z.of_nat (length (keep k l)).

(** The entity agrees with the contract. *)
Definition mirrors (p : Pair) (c : PairContract.state) : Prop :=
  totalSupply p = PairContract.lp_totalSupply c
  /\ reserve0 p = PairContract.c_reserve0 c
  /\ reserve1 p = PairContract.c_reserve1 c.

(** Applying the events of one effect to an entity that agrees with the state before
    gives an entity that agrees with the state after. *)
Definition tracked (c : PairContract.state) (m : PairContract.effect) : Prop :=
  match m with
  | Ok (c', evs) => forall p, mirrors p c -> mirrors (foldl apply_event p evs) c'
  | Throw _ => True
  end.

Section tracking.
Import PairContract.

Lemma tracked_after c (m : effect) (k : state -> effect) :
  tracked c m -> (forall c', tracked c' (k c')) -> tracked c (after m k).
Proof.
  unfold after. destruct m as [[c1 e1]|]; simpl; [|done]. intros Hm Hk.
  specialize (Hk c1). destruct (k c1) as [[c2 e2]|]; simpl in *; [|done].
  intros p Hp. rewrite foldl_app. auto.
Qed.

Lemma tracked_guard c (b : bool) e (m : effect) : tracked c m -> tracked c (if b then m else Throw e).
Proof. by destruct b. Qed.

Lemma tracked_bind {A} c (m : res string A) (k : A -> effect) :
  (forall a, m = Ok a -> tracked c (k a)) -> tracked c (res_bind m k).
Proof. destruct m; simpl; auto. Qed.

Lemma tracked_ok c : tracked c (Ok (c, [])).
Proof. by intros p Hp. Qed.

Lemma tracked_emit c e :
  (is_swap e || is_mint e || is_burn e) = true -> tracked c (emit e c).
Proof. intros He p Hp. by destruct e. Qed.

Lemma u256_Ok z x : u256 z = Ok x -> x = z.
Proof. unfold u256. case_goal; naive_solver. Qed.

Lemma tracked_mint to v c : tracked c (_mint to v c).
Proof.
  apply tracked_bind. intros total Ht%u256_Ok. apply tracked_bind. intros balance _.
  intros p (Hs & H0 & H1). subst total. cbn. split_and!; try done. by rewrite Hs.
Qed.

Lemma tracked_burn from v c : tracked c (_burn from v c).
Proof.
  unfold _burn. destruct (String.eqb from zero_address) eqn:Hz; [done|]. simpl.
  apply tracked_bind. intros balance _. apply tracked_bind. intros total Ht%u256_Ok.
  intros p (Hs & H0 & H1). subst total. simpl. rewrite Hz.
  split_and!; try done. cbn. by rewrite Hs.
Qed.

Lemma tracked_transfer from to v c : tracked c (_transfer from to v c).
Proof.
  unfold _transfer. destruct (String.eqb from zero_address) eqn:Hf; [done|]. simpl.
  destruct (String.eqb to zero_address) eqn:Ht; [done|]. simpl.
  apply tracked_bind. intros balance _. apply tracked_bind. intros balance' _.
  intros p (Hs & H0 & H1). simpl. by rewrite Hf, Ht.
Qed.

Lemma tracked_transfers l c : tracked c (_transfers l c).
Proof.
  revert c; induction l as [|[[from to] v] l IH]; intros c; [apply tracked_ok|].
  apply tracked_after; [apply tracked_transfer|auto].
Qed.

Lemma tracked_update b0 b1 r0 r1 t c : tracked c (_update b0 b1 r0 r1 t c).
Proof.
  apply tracked_guard. repeat (apply tracked_bind; intros ? _).
  intros p (Hs & _). by split_and!.
Qed.

Hint Resolve tracked_mint tracked_burn tracked_transfer tracked_transfers tracked_update
  tracked_ok tracked_emit : track.
Ltac track := cbv zeta;
  intros; try solve [auto with track];
  lazymatch goal with
  | |- tracked _ (after _ _) => apply tracked_after; track
  | |- tracked _ (if _ then _ else Throw _) => apply tracked_guard; track
  | |- tracked _ (res_bind _ _) => apply tracked_bind; track
  | |- _ => idtac
  end.

Lemma tracked_exec k c : tracked c (exec k c).
Proof.
  destruct k; simpl; [|unfold burn; track|unfold swap; track|unfold sync; track|auto with track].
  unfold mint. apply tracked_bind; intros a0 _. apply tracked_bind; intros a1 _.
  apply tracked_bind. intros [liq r] Hr. apply tracked_guard. apply tracked_after; [cbn [fst snd] in *|track].
  destruct (lp_totalSupply c =? 0).
  - repeat (apply res_bind_Ok in Hr as (? & ? & Hr)). simplify_eq. simpl.
    pose proof (tracked_mint zero_address MINIMUM_LIQUIDITY c) as Hm.
    by match goal with H : _mint _ _ _ = Ok _ |- _ => rewrite H in Hm end.
  - repeat (apply res_bind_Ok in Hr as (? & ? & Hr)). simplify_eq. apply tracked_ok.
Qed.

Lemma tracked_run ks c p :
  mirrors p c -> mirrors (foldl apply_event p (snd (run ks c))) (fst (run ks c)).
Proof.
  revert c p; induction ks as [|k ks IH]; intros c p Hp; [done|]. simpl.
  pose proof (tracked_exec k c) as Hk. destruct (exec k c) as [[c1 e1]|]; [|by apply IH].
  simpl. rewrite foldl_app. apply IH. by apply Hk.
Qed.
End tracking.

(** The counters are the numbers of events. *)
Lemma counts_foldl p evs :
  let p' := foldl apply_event p evs in
  swapCount p' = swapCount p + count is_swap evs
  /\ mintCount p' = mintCount p + count is_mint evs
  /\ burnCount p' = burnCount p + count is_burn evs
  /\ txCount p' - (swapCount p' + mintCount p' + burnCount p')
     = txCount p - (swapCount p + mintCount p + burnCount p).
Proof.
  revert p; induction evs as [|e evs IH]; intros p; simpl; [unfold count; simpl; lia|].
  destruct (IH (apply_event p e)) as (Hs & Hm & Hb & Ht). cbn zeta in *.
  unfold count in *. destruct e as [| | | |from to v]; cbn [apply_event] in *;
    repeat case_match; simpl in *; split_and!; lia.
Qed.

(** C31.  The indexer mirrors the pair contract: whatever calls are made on a pair from
    its deployment on, nested transfers and reverts included, and however its logs are
    mixed with those of other contracts, replaying them gives an entity whose reserves
    and total supply are the contract's, and whose counters are the numbers of
    successful swaps, mints and burns. *)
Theorem indexer_mirrors_pair toHexString fromBigInt s m t0 t1 a calls ls :
  (forall x, toHexString x = ZERO_ADDRESS <-> x = PairContract.zero_address) ->
  pairs s !! a = None ->
  events_at a ls = snd (PairContract.run calls PairContract.deployed) ->
  exists p,
    pairs (replay toHexString fromBigInt s (PairCreated m t0 t1 a :: ls)) !! a = Some p
    /\ mirrors p (fst (PairContract.run calls PairContract.deployed))
    /\ swapCount p = count is_swap (events_at a ls)
    /\ mintCount p = count is_mint (events_at a ls)
    /\ burnCount p = count is_burn (events_at a ls)
    /\ txCount p = swapCount p + mintCount p + burnCount p.
Proof.
  intros Hz Hs Hev. eexists. split.
  { unfold replay. cbn [foldl handle]. apply replay_at; [done| |].
    - by rewrite pairs_handlePairCreated, Hs, lookup_insert_eq.
    - rewrite sources_handlePairCreated. set_solver. }
  split; [by rewrite Hev; apply tracked_run|].
  destruct (counts_foldl (created_pair m t0 t1) (events_at a ls)) as (H1 & H2 & H3 & H4).
  simpl in H1, H2, H3, H4. split_and!; lia.
Qed.

(** ** The contract's square root *)

Lemma sqrt_loop_S f y x z :
  PairContract.sqrt_loop (S f) y x z
  = if x <? z then PairContract.sqrt_loop f y ((y / x + x) / 2) x else z.
Proof. done. Qed.

Lemma sqrt_loop_spec f y z e :
  0 < y -> z = Z.sqrt y + e -> 0 <= e < 2 ^ Z.of_nat f ->
  PairContract.sqrt_loop (S f) y ((y / z + z) / 2) z = Z.sqrt y.
Proof.
  intros Hy. pose proof (Z.sqrt_spec y ltac:(lia)) as [Hlo Hhi].
  set (r := Z.sqrt y) in *. assert (0 < r) by nia.
  revert z e; induction f as [|f IH]; intros z e Hz He.
  - assert (e = 0) as -> by lia. rewrite Z.add_0_r in Hz. subst z. simpl.
    assert (r <= y / r) by (apply Z.div_le_lower_bound; lia).
    destruct (Z.ltb_spec ((y / r + r) / 2) r) as [Hlt|]; [|done].
    apply Z.div_lt_upper_bound in Hlt; [lia|lia] || (assert (r <= (y / r + r) / 2)
      by (apply Z.div_le_lower_bound; lia); lia).
  - cbn [PairContract.sqrt_loop]. destruct (Z.ltb_spec ((y / z + z) / 2) z) as [Hlt|Hge].
    + set (z' := (y / z + z) / 2) in *.
      assert (r <= z') as Hr.
      { unfold z'. apply Z.div_le_lower_bound; [lia|].
        assert (2 * r - z <= y / z); [|lia]. apply Z.div_le_lower_bound; [lia|]. nia. }
      apply (IH z' (z' - r)); [lia|]. split; [lia|].
      assert (y / z <= r) as Hq.
      { assert (y / z < r + 1); [|lia]. apply Z.div_lt_upper_bound; [lia|].
        destruct (Z.eq_dec e 0) as [->|]; [|nia].
        exfalso. rewrite Z.add_0_r in Hz. subst z.
        assert (r <= y / r) by (apply Z.div_le_lower_bound; lia).
        assert (r <= (y / r + r) / 2) by (apply Z.div_le_lower_bound; lia). lia. }
      assert (2 * z' <= y / z + z) by (unfold z'; apply Z.mul_div_le; lia).
      rewrite Nat2Z.inj_succ, Z.pow_succ_r in He by lia. lia.
    + destruct (Z.eq_dec e 0) as [->|]; [lia|]. exfalso.
      assert (y / z <= r).
      { assert (y / z < r + 1); [|lia]. apply Z.div_lt_upper_bound; [lia|]. nia. }
      assert (2 * ((y / z + z) / 2) <= y / z + z) by (apply Z.mul_div_le; lia). lia.
Qed.

(** The contract's square root loop ends within 257 rounds on every uint256 and
    returns the integer square root. *)
Theorem contract_sqrt_correct y : 0 <= y < 2 ^ 256 -> PairContract.sqrt y = Z.sqrt y.
Proof.
  intros Hy. unfold PairContract.sqrt. destruct (Z.ltb_spec 3 y) as [H3|H3].
  - pose proof (Z.div_mod y 2 ltac:(lia)). pose proof (Z.mod_pos_bound y 2 ltac:(lia)).
    rewrite (sqrt_loop_S 256).
    destruct (Z.ltb_spec (y / 2 + 1) y) as [_|]; [|lia].
    apply (sqrt_loop_spec 255 y (y / 2 + 1) (y / 2 + 1 - Z.sqrt y)); [lia|lia|].
    destruct (Z.sqrt_spec y ltac:(lia)) as [Hlo Hhi]. pose proof (Z.sqrt_nonneg y).
    assert (1 <= Z.sqrt y) by nia. assert (2 * Z.sqrt y - 1 <= y) by nia.
    change (2 ^ Z.of_nat 255) with (2 ^ 255). lia.
  - assert (y = 0 \/ y = 1 \/ y = 2 \/ y = 3) as [->|[->|[->| ->]]] by lia; reflexivity.
Qed.

(** ** The event entities *)

(** How many entities of a kind a pair has. *)
Definition entities_of (a : Bytes) (events : gmap Bytes event_entity) : Z :=
  Z.of_nat (size (filter (fun kv => ev_pair (snd kv) = a) events)).

Lemma entities_of_insert a id e events :
  events !! id = None ->
  entities_of a (<[id := e]> events)
  = entities_of a events + (if String.eqb (ev_pair e) a then 1 else 0).
Proof.
  intros Hid. unfold entities_of. destruct (String.eqb_spec (ev_pair e) a) as [Heq|Hne].
  - rewrite map_filter_insert_True by done.
    rewrite map_size_insert_None; [lia|]. rewrite map_lookup_filter_None. by left.
  - rewrite map_filter_insert_False by done. rewrite delete_id by done. lia.
Qed.

(** The identity of a log on the chain. *)
Definition log_key (l : log) : Bytes * Z :=
  match l with PairCreated m _ _ _ | PairLog m _ => (log_txHash m, log_index m) end.

Section entities.
Variable toHexString : Bytes -> string.
Variable fromBigInt : Z -> Bytes.
Hypothesis fromBigInt_inj : forall x y, fromBigInt x = fromBigInt y -> x = y.

Lemma buildEventId_inj h1 h2 i1 i2 :
  String.length h1 = String.length h2 ->
  buildEventId fromBigInt h1 i1 = buildEventId fromBigInt h2 i2 -> h1 = h2 /\ i1 = i2.
Proof.
  unfold buildEventId. revert h2.
  induction h1 as [|c h1 IH]; intros [|d h2] Hl He; simpl in *; try done.
  - split; [done|by apply fromBigInt_inj].
  - injection He as -> He. destruct (IH h2 ltac:(lia) He) as [-> ->]. done.
Qed.

(** The field of the entity, zero for a pair that does not exist. *)
Definition pair_field (f : Pair -> Z) (a : Bytes) (s : store) : Z :=
  match pairs s !! a with Some p => f p | None => 0 end.

Definition counted (s : store) : Prop :=
  forall a,
    pair_field swapCount a s = entities_of a (swapEvents s)
    /\ pair_field mintCount a s = entities_of a (mintEvents s)
    /\ pair_field burnCount a s = entities_of a (burnEvents s).

(** No entity has the id. *)
Definition id_free (id : Bytes) (s : store) : Prop :=
  swapEvents s !! id = None /\ mintEvents s !! id = None /\ burnEvents s !! id = None.

Lemma counted_created m t0 t1 b s :
  counted s -> counted (handlePairCreated toHexString m t0 t1 b s).
Proof.
  intros Hc a. assert (forall f, f (created_pair m t0 t1) = 0 ->
    pair_field f a (handlePairCreated toHexString m t0 t1 b s) = pair_field f a s) as Hf.
  { intros f Hf. unfold pair_field. rewrite pairs_handlePairCreated.
    destruct (pairs s !! b) eqn:E; [done|]. destruct (decide (a = b)) as [->|].
    - by rewrite lookup_insert_eq, E.
    - by rewrite lookup_insert_ne. }
  rewrite !Hf by done. destruct (Hc a) as (-> & -> & ->).
  unfold handlePairCreated, createTokenIfMissing.
  by repeat (case_match; simpl).
Qed.

Lemma events_created m t0 t1 b s :
  swapEvents (handlePairCreated toHexString m t0 t1 b s) = swapEvents s
  /\ mintEvents (handlePairCreated toHexString m t0 t1 b s) = mintEvents s
  /\ burnEvents (handlePairCreated toHexString m t0 t1 b s) = burnEvents s.
Proof. unfold handlePairCreated, createTokenIfMissing. by repeat (case_match; simpl). Qed.

Lemma counted_pair_log m e s :
  id_free (event_id fromBigInt m) s -> counted s -> counted (handle_pair_log toHexString fromBigInt m e s).
Proof.
  intros (Hs & Hm & Hb) Hc a. destruct (Hc a) as (H1 & H2 & H3).
  destruct e as [x a0 a1|x a0 a1 to|x a0i a1i a0o a1o to|r0 r1|from to v]; simpl;
    unfold handleMint, handleBurn, handleSwap, handleSync, handleTransfer;
    destruct (pairs s !! log_address m) as [p|] eqn:Hp; try done;
    unfold pair_field in *; cbn [save_pair pairs swapEvents mintEvents burnEvents];
    rewrite ?entities_of_insert by done; cbn [event_of ev_pair];
    destruct (String.eqb_spec (log_address m) a) as [Heq|Hne];
    first [subst a; rewrite lookup_insert_eq, Hp in * | rewrite lookup_insert_ne by done];
    repeat case_match; simpl in *; simplify_eq; lia.
Qed.

Lemma id_free_pair_log m e s id :
  id <> event_id fromBigInt m -> id_free id s ->
  id_free id (handle_pair_log toHexString fromBigInt m e s).
Proof.
  intros Hne (Hs & Hm & Hb). destruct e; simpl;
    unfold handleMint, handleBurn, handleSwap, handleSync, handleTransfer;
    destruct (pairs s !! log_address m); try done; unfold id_free; simpl;
    by rewrite ?lookup_insert_ne.
Qed.

Lemma replay_counted ls s :
  NoDup (log_key <$> ls) ->
  Forall (fun l => String.length (fst (log_key l)) = 32%nat) ls ->
  Forall (fun l => id_free (uncurry (buildEventId fromBigInt) (log_key l)) s) ls ->
  counted s -> counted (replay toHexString fromBigInt s ls).
Proof.
  revert s; induction ls as [|l ls IH]; intros s Hnd Hl Hf Hc; [done|].
  rewrite fmap_cons in Hnd. apply NoDup_cons in Hnd as [Hnin Hnd].
  apply Forall_cons in Hl as [Hl1 Hl]. apply Forall_cons in Hf as [Hf1 Hf].
  cbn [replay foldl]. apply IH; [done|done| |].
  - rewrite Forall_forall in *. intros l' Hl'. specialize (Hf l' Hl').
    assert (uncurry (buildEventId fromBigInt) (log_key l')
            <> uncurry (buildEventId fromBigInt) (log_key l)) as Hne.
    { intros He. apply Hnin. apply list_elem_of_fmap. exists l'. split; [|done].
      specialize (Hl l' Hl'). destruct (log_key l) as [h i], (log_key l') as [h' i'].
      simpl in *. apply buildEventId_inj in He as [-> ->]; [done|]. congruence. }
    destruct l as [m t0 t1 b|m e]; cbn [handle].
    + unfold id_free. by destruct (events_created m t0 t1 b s) as (-> & -> & ->).
    + destruct (bool_decide _); [|done]. by apply id_free_pair_log.
  - destruct l as [m t0 t1 b|m e]; cbn [handle]; [by apply counted_created|].
    destruct (bool_decide _); [|done]. by apply counted_pair_log.
Qed.

(** The immutable event entities are never overwritten and the counters count
    them: after any replay of logs with distinct (transaction, index), the swap, mint
    and burn counters of every pair are the numbers of its entities. *)
Theorem counters_count_entities ls a p :
  NoDup (log_key <$> ls) ->
  Forall (fun l => String.length (fst (log_key l)) = 32%nat) ls ->
  let s := replay toHexString fromBigInt empty_store ls in
  pairs s !! a = Some p ->
  swapCount p = entities_of a (swapEvents s)
  /\ mintCount p = entities_of a (mintEvents s)
  /\ burnCount p = entities_of a (burnEvents s).
Proof.
  intros Hnd Hl s Hp. assert (counted s) as Hc.
  { apply replay_counted; [done|done| |].
    - apply Forall_forall. intros l _. by split_and!; apply lookup_empty.
    - intros b. split_and!; unfold pair_field; simpl; by rewrite lookup_empty. }
  specialize (Hc a). unfold pair_field in Hc. by rewrite Hp in Hc.
Qed.

Lemma tokens_handle l s t x :
  tokens s !! t = Some x -> tokens (handle toHexString fromBigInt s l) !! t = Some x.
Proof.
  intros Hx. destruct l as [m t0 t1 b|m e]; simpl.
  - assert (forall a u s', tokens s' !! t = Some x ->
      tokens (createTokenIfMissing toHexString a u s') !! t = Some x) as Hc.
    { intros a u s' Hs'. unfold createTokenIfMissing. destruct (tokens s' !! a) eqn:E; [done|].
      destruct (default _ _) as [[? ?] ?]. simpl. rewrite lookup_insert_ne; [done|].
      intros ->. congruence. }
    unfold handlePairCreated. simpl. destruct (pairs _ !! b); simpl; by apply Hc, Hc.
  - destruct (bool_decide _); [|done].
    destruct e; simpl; unfold handleMint, handleBurn, handleSwap, handleSync, handleTransfer;
      by destruct (pairs s !! log_address m).
Qed.

(** What the creation log says of a pair. *)
Definition creation_data (p : Pair) : Bytes * Bytes * Z * Z * Bytes :=
  (token0 p, token1 p, createdAtBlock p, createdAtTimestamp p, createdAtTxHash p).

Lemma creation_handle l s a p :
  pairs s !! a = Some p ->
  exists p', pairs (handle toHexString fromBigInt s l) !! a = Some p'
             /\ creation_data p' = creation_data p.
Proof.
  intros Hp. destruct l as [m t0 t1 b|m e]; cbn [handle].
  - exists p. split; [|done]. rewrite pairs_handlePairCreated.
    destruct (pairs s !! b) eqn:E; [done|]. rewrite lookup_insert_ne; [done|].
    intros ->. congruence.
  - destruct (bool_decide _); [|by exists p].
    destruct (decide (log_address m = a)) as [Heq|Hne].
    + subst a. destruct e; simpl;
        unfold handleMint, handleBurn, handleSwap, handleSync, handleTransfer;
        rewrite Hp; simpl; rewrite lookup_insert_eq; repeat case_match; eauto.
    + exists p. split; [|done].
      destruct e; simpl; unfold handleMint, handleBurn, handleSwap, handleSync, handleTransfer;
        destruct (pairs s !! log_address m); simpl; by rewrite ?lookup_insert_ne.
Qed.

(** Tokens, and the creation data of pairs, are written once: no later log
    changes a token's metadata, nor a pair's tokens, block, time or transaction. *)
Theorem creation_data_stable ls s :
  (forall t x, tokens s !! t = Some x ->
     tokens (replay toHexString fromBigInt s ls) !! t = Some x)
  /\ forall a p, pairs s !! a = Some p ->
     exists p', pairs (replay toHexString fromBigInt s ls) !! a = Some p'
                /\ creation_data p' = creation_data p.
Proof.
  split.
  - revert s; induction ls as [|l ls IH]; intros s t x Hx; [done|]. by apply IH, tokens_handle.
  - revert s; induction ls as [|l ls IH]; intros s a p Hp; [by exists p|].
    destruct (creation_handle l s a p Hp) as (p1 & Hp1 & E1).
    destruct (IH _ _ _ Hp1) as (p2 & Hp2 & E2). exists p2. split; [done|]. congruence.
Qed.
End entities.

(** ** Concrete instances *)

(** A writing of bytes that only the zero address writes as [ZERO_ADDRESS]. *)
Definition sample_hex (a : Bytes) : string :=
  if String.eqb a PairContract.zero_address then ZERO_ADDRESS else "x" ++ a.

Lemma sample_hex_zero a : sample_hex a = ZERO_ADDRESS <-> a = PairContract.zero_address.
Proof.
  unfold sample_hex. destruct (String.eqb_spec a PairContract.zero_address); naive_solver.
Qed.

Definition sample_calls : list PairContract.call :=
  [PairContract.CallMint "router" "alice" 4000000 9000000 100;
   PairContract.CallSwap "router" 0 8000 "bob" false 4010000 8992000 PairContract.zero_address 130 [];
   PairContract.CallTransfer "alice" "pair" 5000;
   PairContract.CallBurn "pair" "router" "alice" 4010000 8992000 4001000 8980000 140
     [("alice", "bob", 7)];
   PairContract.CallSync 4001000 8980001 150].

Definition sample_meta (i : Z) : log_meta :=
  {| log_address := "pair"; log_blockNumber := 10; log_timestamp := 100;
     log_txHash := repeat_char 32 "h"; log_index := i |}.

Lemma indexer_mirrors_pair_witness :
  let evs := snd (PairContract.run sample_calls PairContract.deployed) in
  exists p,
    pairs (replay sample_hex (Z_to_string 10) empty_store
             (PairCreated (sample_meta 0) "t0" "t1" "pair" :: (PairLog (sample_meta 1) <$> evs)))
      !! "pair" = Some p
    /\ mirrors p (fst (PairContract.run sample_calls PairContract.deployed))
    /\ swapCount p = 1 /\ mintCount p = 1 /\ burnCount p = 1.
Proof.
  destruct (indexer_mirrors_pair sample_hex (Z_to_string 10) empty_store (sample_meta 0) "t0" "t1"
              "pair" sample_calls
              (PairLog (sample_meta 1) <$> snd (PairContract.run sample_calls PairContract.deployed))
              sample_hex_zero) as (p & Hp & Hm & Hs & Hi & Hb & _);
    [reflexivity|vm_compute; reflexivity|].
  exists p. rewrite Hs, Hi, Hb. split; [exact Hp|]. split; [exact Hm|].
  vm_compute. repeat split.
Defined.

Lemma contract_sqrt_correct_witness : PairContract.sqrt 36000000000001 = 6000000.
Proof. rewrite (contract_sqrt_correct 36000000000001); [vm_compute; reflexivity|lia]. Defined.

(** An injective writing of integers. *)
Definition sample_bigint (z : Z) : Bytes :=
  Z_to_string 10 (if z <? 0 then -2 * z - 1 else 2 * z).

Lemma sample_bigint_inj x y : sample_bigint x = sample_bigint y -> x = y.
Proof.
  unfold sample_bigint. intros H. apply Z_to_string_inj in H;
    destruct (Z.ltb_spec x 0), (Z.ltb_spec y 0); lia.
Qed.

Lemma counters_count_entities_witness :
  exists p,
    pairs (replay sample_hex sample_bigint empty_store
             [PairCreated (sample_meta 0) "t0" "t1" "pair";
              PairLog (sample_meta 1) (Swap "a" 5 0 0 4 "b");
              PairLog (sample_meta 2) (Swap "a" 6 0 0 5 "b")]) !! "pair" = Some p
    /\ swapCount p = 2.
Proof.
  eexists. split; [vm_compute; reflexivity|].
  rewrite (proj1 (counters_count_entities sample_hex sample_bigint sample_bigint_inj
             [PairCreated (sample_meta 0) "t0" "t1" "pair";
              PairLog (sample_meta 1) (Swap "a" 5 0 0 4 "b");
              PairLog (sample_meta 2) (Swap "a" 6 0 0 5 "b")] "pair" _
             ltac:(apply (bool_decide_unpack _); vm_compute; exact I)
             ltac:(repeat constructor) ltac:(vm_compute; reflexivity))).
  vm_compute. reflexivity.
Defined.
