(* ===== verification/FrontendConfig.v ===== *)
(** * Configuration of the trading client (frontend/src/config)

    Which contracts a chain has (contracts.ts), the chain of the build (chain.ts) and the
    tokens that can be traded (tokens.ts).  The environment variables and the generated
    table of addresses are parameters. *)

From S2P Require Import Prelude JsString JsNumber JsValue JsError.
From Stdlib Require Import Ascii.
Open Scope string_scope.
Open Scope Z_scope.
Open Scope flux_scope.

Definition hardhat_id : Z := 31337.
Definition sepolia_id : Z := 11155111.

Definition FluxContractAddressMap : Type := gmap string string.

Definition fluxContractNames : list string :=
  ["FluxBuybackExecutor"; "FluxMultiPoolManager"; "MockUSDC"; "MockUSDT"; "MockWBTC";
   "FluxPoolFactory"; "FluxRevenueDistributor"; "FluxSignedOrderSettlement"; "FluxSwapFactory";
   "FluxSwapRouter"; "FluxSwapTreasury"; "FluxToken"; "MockWETH"].

(** The contracts with the variable that holds their address. *)
Definition contract_variables : list (string * string) :=
  [("FluxBuybackExecutor", "NEXT_PUBLIC_FLUX_BUYBACK_EXECUTOR");
   ("FluxMultiPoolManager", "NEXT_PUBLIC_FLUX_MULTI_POOL_MANAGER");
   ("FluxPoolFactory", "NEXT_PUBLIC_FLUX_POOL_FACTORY");
   ("FluxRevenueDistributor", "NEXT_PUBLIC_FLUX_REVENUE_DISTRIBUTOR");
   ("FluxSignedOrderSettlement", "NEXT_PUBLIC_FLUX_SIGNED_ORDER_SETTLEMENT");
   ("FluxSwapFactory", "NEXT_PUBLIC_FLUX_SWAP_FACTORY");
   ("FluxSwapRouter", "NEXT_PUBLIC_FLUX_SWAP_ROUTER");
   ("FluxSwapTreasury", "NEXT_PUBLIC_FLUX_SWAP_TREASURY"); ("FluxToken", "NEXT_PUBLIC_FLUX_TOKEN");
   ("MockUSDT", "NEXT_PUBLIC_USDT"); ("MockUSDC", "NEXT_PUBLIC_USDC"); ("MockWBTC", "NEXT_PUBLIC_WBTC");
   ("MockWETH", "NEXT_PUBLIC_WETH")].

Section config.
Variable env : string -> option string.
Variable generatedContractsByChain : Z -> option FluxContractAddressMap.

Definition text_or (v : option string) (fallback : string) : string :=
  match v with Some s => if str_nonempty s then s else fallback | None => fallback end.

Definition configuredChainId : num :=
  num_of_string (text_or (trim <$> env "NEXT_PUBLIC_CHAIN_ID") (dec hardhat_id)).

Definition resolveChain (chainId : num) : res js_error Z :=
  if num_eqb chainId (num_of_Z hardhat_id) then Ok hardhat_id
  else if num_eqb chainId (num_of_Z sepolia_id) then Ok sepolia_id
  else Throw (Error ("Unsupported NEXT_PUBLIC_CHAIN_ID: " ++ num_to_string chainId)).

(** Evaluated when the module loads: the build fails where it throws. *)
Definition fluxChain : res js_error Z := resolveChain configuredChainId.

Fixpoint drop_last_slash (s : string) : string :=
  match s with
  | EmptyString => EmptyString
  | String c r => if Ascii.eqb c "/" && negb (str_nonempty r) then r else String c (drop_last_slash r)
  end.

Definition configuredUrl (value : option string) : option string :=
  match trim <$> value with
  | Some normalized => if str_nonempty normalized then Some (drop_last_slash normalized) else None
  | None => None
  end.

Definition getSubgraphUrl : string :=
  default "http://localhost:8000/subgraphs/name/fluxswap-subgraph"
    (configuredUrl (env "NEXT_PUBLIC_SUBGRAPH_URL")).

Variable fluxChainId : Z.

Definition getTransactionExplorerUrl (chainId : option Z) (txHash : string) : option string :=
  if negb (str_nonempty txHash) || negb (bool_decide (chainId = Some fluxChainId)) then None
  else
    let explorerUrl :=
      match configuredUrl (env "NEXT_PUBLIC_EXPLORER_URL") with
      | Some u => Some u
      | None => if fluxChainId =? sepolia_id then Some "https://sepolia.etherscan.io" else None
      end in
    match explorerUrl with
    | Some u => if str_nonempty u then Some (u ++ "/tx/" ++ txHash) else None
    | None => None
    end.

Definition compactAddressMap (addressMap : list (string * option string)) : FluxContractAddressMap :=
  list_to_map (omap (fun entry =>
    match snd entry with
    | Some a => if starts_with a "0x" then Some (fst entry, a) else None
    | None => None
    end) addressMap).

Definition configuredContracts : FluxContractAddressMap :=
  compactAddressMap ((fun e => (fst e, env (snd e))) <$> contract_variables).

Definition configuredContractAddresses : FluxContractAddressMap :=
  if fluxChainId =? hardhat_id then default ∅ (generatedContractsByChain hardhat_id) else configuredContracts.

Definition getContractsForChain (chainId : option Z) : FluxContractAddressMap :=
  match chainId with
  | None => ∅
  | Some c => if negb (c =? fluxChainId) then ∅ else configuredContractAddresses
  end.

Definition getContractAddress (contractName : string) (chainId : option Z) : option string :=
  getContractsForChain chainId !! contractName.

Definition getRequiredContractAddress (contractName : string) (chainId : option Z)
  : res js_error string :=
  match getContractAddress contractName chainId with
  | Some a => Ok a
  | None => Throw (Error ("Missing " ++ contractName ++ " address for chain "
                          ++ match chainId with Some c => dec c | None => "unknown" end))
  end.

Definition isFluxSupportedChain (chainId : option Z) : bool :=
  let contracts := getContractsForChain chainId in
  forallb (fun contractName => bool_decide (is_Some (contracts !! contractName))) fluxContractNames.

Definition getLocalGasOverride (chainId : option Z) (gas : Z) : option Z :=
  if bool_decide (chainId = Some hardhat_id) then Some gas else None.
End config.

(** ** The tokens *)

Inductive token_kind := native | erc20.
#[export] Instance token_kind_eq_dec : EqDecision token_kind.
Proof. solve_decision. Defined.

Record SwapTokenOption := {
  st_symbol : string;
  st_name : string;
  st_decimals : Z;
  st_kind : token_kind;
  st_address : option string;
  st_routeAddress : string;
}.

(** Symbol, name, decimals and the contract, of which the native token has only the
    wrapped one to route through. *)
Record TokenRegistryEntry := {
  tr_symbol : string;
  tr_name : string;
  tr_decimals : Z;
  tr_kind : token_kind;
  tr_contract : string;
}.

Definition tokenRegistry : list TokenRegistryEntry :=
  [{| tr_symbol := "ETH"; tr_name := "Ether"; tr_decimals := 18; tr_kind := native;
      tr_contract := "MockWETH" |};
   {| tr_symbol := "FLUX"; tr_name := "Flux Token"; tr_decimals := 18; tr_kind := erc20;
      tr_contract := "FluxToken" |};
   {| tr_symbol := "USDT"; tr_name := "Tether USD"; tr_decimals := 6; tr_kind := erc20;
      tr_contract := "MockUSDT" |};
   {| tr_symbol := "USDC"; tr_name := "USD Coin"; tr_decimals := 6; tr_kind := erc20;
      tr_contract := "MockUSDC" |};
   {| tr_symbol := "WBTC"; tr_name := "Wrapped Bitcoin"; tr_decimals := 8; tr_kind := erc20;
      tr_contract := "MockWBTC" |}].

(** [contract] is [getContractAddress] on the chain. *)
Definition getSwapTokenOptions (contract : string -> option string) : list SwapTokenOption :=
  omap (fun token =>
    match contract (tr_contract token) with
    | Some routeAddress =>
      if str_nonempty routeAddress then
        Some {| st_symbol := tr_symbol token; st_name := tr_name token; st_decimals := tr_decimals token;
                st_kind := tr_kind token;
                st_address := match tr_kind token with native => None | erc20 => Some routeAddress end;
                st_routeAddress := routeAddress |}
      else None
    | None => None
    end) tokenRegistry.

(** An option of the list is an entry of the registry at its contract. *)
Lemma swap_option contract o :
  o ∈ getSwapTokenOptions contract ->
  exists token, token ∈ tokenRegistry /\ contract (tr_contract token) = Some (st_routeAddress o)
    /\ st_symbol o = tr_symbol token /\ st_decimals o = tr_decimals token /\ st_kind o = tr_kind token
    /\ st_address o = match st_kind o with native => None | erc20 => Some (st_routeAddress o) end
    /\ str_nonempty (st_routeAddress o) = true.
Proof.
  unfold getSwapTokenOptions. rewrite list_elem_of_omap. intros (token & Hin & Ho).
  destruct (contract (tr_contract token)) as [a|] eqn:Ea; [|done].
  destruct (str_nonempty a) eqn:En; [|done]. injection Ho as <-. exists token. by simpl.
Qed.

(** Symbols name options, and decimals are those of a registered token. *)
Lemma registry_symbols_unique : NoDup (tr_symbol <$> tokenRegistry).
Proof. apply (bool_decide_unpack _). vm_compute. exact I. Qed.

Lemma registry_decimals token : token ∈ tokenRegistry -> 0 < tr_decimals token <= 18.
Proof.
  intros Hin. assert (Forall (fun t => 0 < tr_decimals t <= 18) tokenRegistry) as Hf
    by (repeat constructor; simpl; lia).
  rewrite Forall_forall in Hf. by apply Hf.
Qed.

Lemma options_same_symbol contract o o' :
  o ∈ getSwapTokenOptions contract -> o' ∈ getSwapTokenOptions contract ->
  st_symbol o = st_symbol o' -> st_kind o = st_kind o' /\ st_routeAddress o = st_routeAddress o'.
Proof.
  intros (t & Ht & Ha & Hs & _ & Hk & _)%swap_option (t' & Ht' & Ha' & Hs' & _ & Hk' & _)%swap_option He.
  assert (t = t') as <-; [|split; congruence].
  apply list_elem_of_lookup in Ht as [i Hi]. apply list_elem_of_lookup in Ht' as [j Hj].
  assert (i = j) as ->; [|congruence].
  apply (NoDup_lookup _ i j (tr_symbol t) registry_symbols_unique);
    rewrite list_lookup_fmap; [by rewrite Hi|rewrite Hj; simpl; congruence].
Qed.

(** The only native token is ether. *)
Lemma native_is_ETH contract o :
  o ∈ getSwapTokenOptions contract -> st_kind o = native -> st_symbol o = "ETH".
Proof.
  intros (t & Ht & _ & -> & _ & Hk & _)%swap_option Hn. rewrite Hk in Hn.
  assert (Forall (fun t => tr_kind t = native -> tr_symbol t = "ETH") tokenRegistry) as Hf
    by (repeat constructor; done).
  rewrite Forall_forall in Hf. by apply Hf.
Qed.
