(* ===== verification/Pools.v ===== *)
(** * Pools and trades (frontend/src/lib/subgraph, poolMetrics.ts, poolOrder.ts)

    The client of the indexer: [fetchSubgraph] ([client.ts]), the pool list and the
    pool page ([pools.ts]), the trade list ([trades.ts], Module [Trades]), the APR of
    a pool ([poolMetrics.ts], Module [PoolMetrics]) and the order of a pair's tokens
    ([poolOrder.ts]).  The network is a parameter; a reply has the types GraphQL gives
    it: texts for bytes and big integers, optional members where the schema has them. *)

From S2P Require Import Prelude JsString JsNumber JsValue JsError JsSort FrontendConfig.
From stdpp Require Import sorting.
From Stdlib Require Import SpecFloat Ascii.
Open Scope string_scope.
Open Scope Z_scope.
Open Scope flux_scope.

(** ** [fetchSubgraph] *)

Record GraphQLResponse (TData : Type) := {
  gql_data : option TData;
  gql_errors : option (list (option string));
}.
Arguments gql_data {TData}.
Arguments gql_errors {TData}.

(** What [fetch] resolves to: the status and the body, which may not parse. *)
Record fetch_response (TData : Type) := {
  response_status : Z;
  response_json : res js_error (GraphQLResponse TData);
}.
Arguments response_status {TData}.
Arguments response_json {TData}.

Definition fetchSubgraph {TData} (fetch : res js_error (fetch_response TData)) : res js_error TData :=
  let* response := fetch in
  guard* (200 <=? response_status response) && (response_status response <=? 299)
  or Error ("Subgraph request failed with status " ++ dec (response_status response)) in
  let* result := response_json response in
  match gql_errors result with
  | Some (first :: _) => Throw (Error (default "Subgraph request failed" first))
  | _ =>
    match gql_data result with
    | None => Throw (Error "Subgraph response did not include data")
    | Some data => Ok data
    end
  end.

(** ** Replies *)

Record SubgraphToken := { gt_id : string; gt_symbol : string; gt_decimals : jsval }.

Record SubgraphSwapEvent := {
  sw_id : string; sw_sender : string; sw_to : string;
  sw_amount0In : string; sw_amount1In : string; sw_amount0Out : string; sw_amount1Out : string;
  sw_timestamp : string; sw_blockNumber : string; sw_txHash : string; sw_logIndex : string;
}.

Record SubgraphMintEvent := {
  mi_id : string; mi_sender : string; mi_amount0 : string; mi_amount1 : string;
  mi_timestamp : string; mi_blockNumber : string; mi_txHash : string; mi_logIndex : string;
}.

Record SubgraphBurnEvent := {
  bu_id : string; bu_sender : string; bu_to : string; bu_amount0 : string; bu_amount1 : string;
  bu_timestamp : string; bu_blockNumber : string; bu_txHash : string; bu_logIndex : string;
}.

Record SubgraphSyncEvent := {
  sy_id : string; sy_reserve0 : string; sy_reserve1 : string;
  sy_timestamp : string; sy_blockNumber : string; sy_txHash : string; sy_logIndex : string;
}.

Record SubgraphPair := {
  sp_id : string;
  sp_token0 : SubgraphToken;
  sp_token1 : SubgraphToken;
  sp_reserve0 : string;
  sp_reserve1 : string;
  sp_swaps : option (list SubgraphSwapEvent);
  sp_totalSupply : option string;
  sp_txCount : option string;
  sp_swapCount : option string;
  sp_mintCount : option string;
  sp_burnCount : option string;
  sp_createdAtTimestamp : option string;
  sp_createdAtTxHash : option string;
}.

Record PoolsQueryResult := { pq_pairs : option (list SubgraphPair) }.

Record PoolDetailQueryResult := {
  pd_pair : option SubgraphPair;
  pd_swapEvents : option (list SubgraphSwapEvent);
  pd_mintEvents : option (list SubgraphMintEvent);
  pd_burnEvents : option (list SubgraphBurnEvent);
  pd_syncEvents : option (list SubgraphSyncEvent);
}.

(** ** View models *)

Record TokenViewModel := { tv_id : string; tv_symbol : string; tv_decimals : num }.

Record PoolRecentSwapViewModel := {
  rs_amount0In : Z; rs_amount1In : Z; rs_amount0Out : Z; rs_amount1Out : Z; rs_timestamp : num;
}.

Record PoolViewModel := {
  pv_id : string;
  pv_token0 : TokenViewModel;
  pv_token1 : TokenViewModel;
  pv_reserve0 : Z;
  pv_reserve1 : Z;
  pv_totalSupply : Z;
  pv_recentSwaps : list PoolRecentSwapViewModel;
}.

Record PoolDetailViewModel := {
  pd_view : PoolViewModel;
  pd_totalSupply : Z;
  pd_txCount : Z;
  pd_swapCount : Z;
  pd_mintCount : Z;
  pd_burnCount : Z;
  pd_createdAtTimestamp : num;
  pd_createdAtTxHash : string;
}.

(** The four kinds of activity, with their own fields. *)
Inductive activity_kind :=
| ActSwap (recipient : string) (amount0In amount1In amount0Out amount1Out : Z)
| ActAdd (amount0 amount1 : Z)
| ActRemove (recipient : string) (amount0 amount1 : Z)
| ActSync (reserve0 reserve1 : Z).

Record PoolActivityViewModel := {
  act_kind : activity_kind;
  act_id : string;
  act_sender : option string;
  act_timestamp : num;
  act_blockNumber : Z;
  act_txHash : string;
  act_logIndex : Z;
}.

Record PoolDetailResult := {
  pr_pool : option PoolDetailViewModel;
  pr_activities : list PoolActivityViewModel;
}.

(** [BigInt(s)] on a text. *)
Definition big (s : string) : res js_error Z := to_bigint (VStr s).

Definition mapToken (token : SubgraphToken) : TokenViewModel :=
  {| tv_id := gt_id token; tv_symbol := gt_symbol token;
     tv_decimals := to_number (nullish (gt_decimals token) (VNum (num_of_Z 18))) |}.

Definition mapRecentSwap (_ : nat) (swap : SubgraphSwapEvent) : res js_error PoolRecentSwapViewModel :=
  let* a0i := big (sw_amount0In swap) in
  let* a1i := big (sw_amount1In swap) in
  let* a0o := big (sw_amount0Out swap) in
  let* a1o := big (sw_amount1Out swap) in
  Ok {| rs_amount0In := a0i; rs_amount1In := a1i; rs_amount0Out := a0o; rs_amount1Out := a1o;
        rs_timestamp := num_of_string (sw_timestamp swap) |}.

Definition mapSubgraphPair (pair : SubgraphPair) : res js_error PoolViewModel :=
  let* r0 := big (sp_reserve0 pair) in
  let* r1 := big (sp_reserve1 pair) in
  let* supply := big (default "0" (sp_totalSupply pair)) in
  let* swaps := res_mapi mapRecentSwap 0 (default [] (sp_swaps pair)) in
  Ok {| pv_id := sp_id pair; pv_token0 := mapToken (sp_token0 pair);
        pv_token1 := mapToken (sp_token1 pair); pv_reserve0 := r0; pv_reserve1 := r1;
        pv_totalSupply := supply; pv_recentSwaps := swaps |}.

Definition mapSubgraphPairDetail (pair : SubgraphPair) : res js_error PoolDetailViewModel :=
  let* view := mapSubgraphPair pair in
  let* supply := big (default "0" (sp_totalSupply pair)) in
  let* txCount := big (default "0" (sp_txCount pair)) in
  let* swapCount := big (default "0" (sp_swapCount pair)) in
  let* mintCount := big (default "0" (sp_mintCount pair)) in
  let* burnCount := big (default "0" (sp_burnCount pair)) in
  Ok {| pd_view := view; pd_totalSupply := supply; pd_txCount := txCount;
        pd_swapCount := swapCount; pd_mintCount := mintCount; pd_burnCount := burnCount;
        pd_createdAtTimestamp := num_of_string (default "0" (sp_createdAtTimestamp pair));
        pd_createdAtTxHash := default "" (sp_createdAtTxHash pair) |}.

Definition mapSubgraphSwapEvent (event : SubgraphSwapEvent) : res js_error PoolActivityViewModel :=
  let* a0i := big (sw_amount0In event) in
  let* a1i := big (sw_amount1In event) in
  let* a0o := big (sw_amount0Out event) in
  let* a1o := big (sw_amount1Out event) in
  let* block := big (sw_blockNumber event) in
  let* index := big (sw_logIndex event) in
  Ok {| act_kind := ActSwap (sw_to event) a0i a1i a0o a1o; act_id := sw_id event;
        act_sender := Some (sw_sender event); act_timestamp := num_of_string (sw_timestamp event);
        act_blockNumber := block; act_txHash := sw_txHash event; act_logIndex := index |}.

Definition mapSubgraphMintEvent (event : SubgraphMintEvent) : res js_error PoolActivityViewModel :=
  let* a0 := big (mi_amount0 event) in
  let* a1 := big (mi_amount1 event) in
  let* block := big (mi_blockNumber event) in
  let* index := big (mi_logIndex event) in
  Ok {| act_kind := ActAdd a0 a1; act_id := mi_id event;
        act_sender := Some (mi_sender event); act_timestamp := num_of_string (mi_timestamp event);
        act_blockNumber := block; act_txHash := mi_txHash event; act_logIndex := index |}.

Definition mapSubgraphBurnEvent (event : SubgraphBurnEvent) : res js_error PoolActivityViewModel :=
  let* a0 := big (bu_amount0 event) in
  let* a1 := big (bu_amount1 event) in
  let* block := big (bu_blockNumber event) in
  let* index := big (bu_logIndex event) in
  Ok {| act_kind := ActRemove (bu_to event) a0 a1; act_id := bu_id event;
        act_sender := Some (bu_sender event); act_timestamp := num_of_string (bu_timestamp event);
        act_blockNumber := block; act_txHash := bu_txHash event; act_logIndex := index |}.

Definition mapSubgraphSyncEvent (event : SubgraphSyncEvent) : res js_error PoolActivityViewModel :=
  let* r0 := big (sy_reserve0 event) in
  let* r1 := big (sy_reserve1 event) in
  let* block := big (sy_blockNumber event) in
  let* index := big (sy_logIndex event) in
  Ok {| act_kind := ActSync r0 r1; act_id := sy_id event;
        act_sender := None; act_timestamp := num_of_string (sy_timestamp event);
        act_blockNumber := block; act_txHash := sy_txHash event; act_logIndex := index |}.

(** [xs.map(f)] *)
Definition map_all {A B} (f : A -> res js_error B) (l : list A) : res js_error (list B) :=
  res_mapi (fun _ => f) 0 l.

(** ** Sorting and the queries *)

Inductive subgraph_query :=
| POOLS_LIST_QUERY
| POOL_BY_TOKENS_QUERY (tokenA tokenB : string).

Inductive detail_query :=
| POOL_DETAIL_QUERY (id : string) (first : Z)
| POOL_DETAIL_LEGACY_QUERY (id : string) (first : Z).

Section pools.
(** [a.localeCompare(b)], up to its sign. *)
Variable localeCompare : string -> string -> Z.
Variable fetch_pools : subgraph_query -> res js_error (fetch_response PoolsQueryResult).
Variable fetch_detail : detail_query -> res js_error (fetch_response PoolDetailQueryResult).

(** The comparator of [sortPoolActivities] is not positive. *)
Definition activity_le (left right : PoolActivityViewModel) : bool :=
  if negb (num_eqb (act_timestamp left) (act_timestamp right))
  then negb (num_ltb num_zero (num_sub (act_timestamp right) (act_timestamp left)))
  else if negb (act_blockNumber left =? act_blockNumber right)
  then act_blockNumber right <? act_blockNumber left
  else if negb (act_logIndex left =? act_logIndex right)
  then act_logIndex right <? act_logIndex left
  else localeCompare (act_id left) (act_id right) <=? 0.

Definition sortPoolActivities (activities : list PoolActivityViewModel) : list PoolActivityViewModel :=
  sort_by activity_le activities.

Definition getPools : res js_error (list PoolViewModel) :=
  let* data := fetchSubgraph (fetch_pools POOLS_LIST_QUERY) in
  map_all mapSubgraphPair (default [] (pq_pairs data)).

Definition getPoolByTokens (tokenA tokenB : string) : res js_error (option PoolViewModel) :=
  let* data := fetchSubgraph (fetch_pools (POOL_BY_TOKENS_QUERY (to_lower tokenA) (to_lower tokenB))) in
  match pq_pairs data with
  | Some (p :: _) => let* v := mapSubgraphPair p in Ok (Some v)
  | _ => Ok None
  end.

(** The activities of a reply, in the order the lists are joined. *)
Definition joined_activities (data : PoolDetailQueryResult) : res js_error (list PoolActivityViewModel) :=
  let* swaps := map_all mapSubgraphSwapEvent (default [] (pd_swapEvents data)) in
  let* mints := map_all mapSubgraphMintEvent (default [] (pd_mintEvents data)) in
  let* burns := map_all mapSubgraphBurnEvent (default [] (pd_burnEvents data)) in
  let* syncs := map_all mapSubgraphSyncEvent (default [] (pd_syncEvents data)) in
  Ok (swaps ++ mints ++ burns ++ syncs)%list.

Definition getPoolDetail (pairAddress : string) (first : Z) : res js_error PoolDetailResult :=
  let id := to_lower pairAddress in
  let* data :=
    match fetchSubgraph (fetch_detail (POOL_DETAIL_QUERY id first)) with
    | Ok data => Ok data
    | Throw error =>
      if negb (includes (message_or error "") "syncEvents") then Throw error
      else fetchSubgraph (fetch_detail (POOL_DETAIL_LEGACY_QUERY id first))
    end in
  let* joined := joined_activities data in
  let activities := sortPoolActivities joined in
  let* pool := match pd_pair data with
               | Some p => let* v := mapSubgraphPairDetail p in Ok (Some v)
               | None => Ok None
               end in
  Ok {| pr_pool := pool; pr_activities := activities |}.
End pools.

(** ** The trade list *)

Module Trades.
Record TradePair := { tp_id : string; tp_token0 : SubgraphToken; tp_token1 : SubgraphToken }.

Record SwapEvent := {
  ts_id : string; ts_sender : string; ts_to : string;
  ts_amount0In : string; ts_amount1In : string; ts_amount0Out : string; ts_amount1Out : string;
  ts_timestamp : string; ts_blockNumber : string; ts_txHash : string; ts_pair : TradePair;
}.
Record MintEvent := {
  tm_id : string; tm_sender : string; tm_amount0 : string; tm_amount1 : string;
  tm_timestamp : string; tm_blockNumber : string; tm_txHash : string; tm_pair : TradePair;
}.
Record BurnEvent := {
  tb_id : string; tb_sender : string; tb_to : string; tb_amount0 : string; tb_amount1 : string;
  tb_timestamp : string; tb_blockNumber : string; tb_txHash : string; tb_pair : TradePair;
}.

Record ActivitiesQueryResult := {
  aq_swapEvents : option (list SwapEvent);
  aq_mintEvents : option (list MintEvent);
  aq_burnEvents : option (list BurnEvent);
}.

Record ActivityPairViewModel := {
  ap_id : string; ap_token0 : TokenViewModel; ap_token1 : TokenViewModel;
}.

Inductive trade_kind :=
| TradeSwap (recipient : string) (amount0In amount1In amount0Out amount1Out : Z)
| TradeAdd (amount0 amount1 : Z)
| TradeRemove (recipient : string) (amount0 amount1 : Z).

Record TradeViewModel := {
  tr_kind : trade_kind;
  tr_id : string;
  tr_txHash : string;
  tr_sender : string;
  tr_timestamp : num;
  tr_blockNumber : Z;
  tr_pair : ActivityPairViewModel;
}.

Definition mapPair (p : TradePair) : ActivityPairViewModel :=
  {| ap_id := tp_id p; ap_token0 := mapToken (tp_token0 p); ap_token1 := mapToken (tp_token1 p) |}.

Definition mapSubgraphSwap (swap : SwapEvent) : res js_error TradeViewModel :=
  let* block := big (ts_blockNumber swap) in
  let* a0i := big (ts_amount0In swap) in
  let* a1i := big (ts_amount1In swap) in
  let* a0o := big (ts_amount0Out swap) in
  let* a1o := big (ts_amount1Out swap) in
  Ok {| tr_kind := TradeSwap (ts_to swap) a0i a1i a0o a1o; tr_id := ts_id swap;
        tr_txHash := ts_txHash swap; tr_sender := ts_sender swap;
        tr_timestamp := num_of_string (ts_timestamp swap); tr_blockNumber := block;
        tr_pair := mapPair (ts_pair swap) |}.

Definition mapSubgraphMint (mint : MintEvent) : res js_error TradeViewModel :=
  let* block := big (tm_blockNumber mint) in
  let* a0 := big (tm_amount0 mint) in
  let* a1 := big (tm_amount1 mint) in
  Ok {| tr_kind := TradeAdd a0 a1; tr_id := tm_id mint;
        tr_txHash := tm_txHash mint; tr_sender := tm_sender mint;
        tr_timestamp := num_of_string (tm_timestamp mint); tr_blockNumber := block;
        tr_pair := mapPair (tm_pair mint) |}.

Definition mapSubgraphBurn (burn : BurnEvent) : res js_error TradeViewModel :=
  let* block := big (tb_blockNumber burn) in
  let* a0 := big (tb_amount0 burn) in
  let* a1 := big (tb_amount1 burn) in
  Ok {| tr_kind := TradeRemove (tb_to burn) a0 a1; tr_id := tb_id burn;
        tr_txHash := tb_txHash burn; tr_sender := tb_sender burn;
        tr_timestamp := num_of_string (tb_timestamp burn); tr_blockNumber := block;
        tr_pair := mapPair (tb_pair burn) |}.

Section trades.
Variable localeCompare : string -> string -> Z.
Variable fetch : Z -> res js_error (fetch_response ActivitiesQueryResult).

Definition trade_le (left right : TradeViewModel) : bool :=
  if negb (num_eqb (tr_timestamp left) (tr_timestamp right))
  then negb (num_ltb num_zero (num_sub (tr_timestamp right) (tr_timestamp left)))
  else if negb (tr_blockNumber left =? tr_blockNumber right)
  then tr_blockNumber right <? tr_blockNumber left
  else localeCompare (tr_id left) (tr_id right) <=? 0.

Definition getTrades (first : Z) : res js_error (list TradeViewModel) :=
  let* data := fetchSubgraph (fetch first) in
  let* swaps := map_all mapSubgraphSwap (default [] (aq_swapEvents data)) in
  let* mints := map_all mapSubgraphMint (default [] (aq_mintEvents data)) in
  let* burns := map_all mapSubgraphBurn (default [] (aq_burnEvents data)) in
  Ok (sort_by trade_le (swaps ++ mints ++ burns)%list).
End trades.
End Trades.

(** ** The APR of a pool *)

Module PoolMetrics.
Definition LP_SWAP_FEE_RATE_WITH_PROTOCOL : num := num_of_string "0.0025".
Definition LP_SWAP_FEE_RATE_WITHOUT_PROTOCOL : num := num_of_string "0.003".
Definition DAY_SECONDS : num := num_of_Z (24 * 60 * 60).
Definition zeroAddress : string := "0x0000000000000000000000000000000000000000".

Definition getPoolLpFeeRate (treasuryAddress : option string) : num :=
  match treasuryAddress with
  | Some t => if str_nonempty t && negb (String.eqb t zeroAddress)
              then LP_SWAP_FEE_RATE_WITH_PROTOCOL else LP_SWAP_FEE_RATE_WITHOUT_PROTOCOL
  | None => LP_SWAP_FEE_RATE_WITHOUT_PROTOCOL
  end.

Inductive quote_index := Quote0 | Quote1.

Section metrics.
(** viem's [formatUnits]; [Intl.NumberFormat('en-US', { maximumFractionDigits })]. *)
Variable formatUnits : Z -> num -> string.
Variable numberFormat : nat -> num -> string.

Definition formatPoolApr (value : option num) : string :=
  match value with
  | None => "--"
  | Some value =>
    if negb (is_finite value) then "--"
    else if num_ltb value (num_of_string "0.01") then "<0.01%"
    else numberFormat (if num_leb (num_of_Z 100) value then 0%nat else 2%nat) value ++ "%"
  end.

Definition units (amount : Z) (token : TokenViewModel) : num :=
  num_of_string (formatUnits amount (tv_decimals token)).

(** A reserve the metrics accept: finite and positive. *)
Definition usable (x : num) : bool := is_finite x && negb (num_leb x num_zero).

Definition getPoolLiquidityValue (pool : PoolViewModel) (q : quote_index) : option num :=
  let reserve0 := units (pv_reserve0 pool) (pv_token0 pool) in
  let reserve1 := units (pv_reserve1 pool) (pv_token1 pool) in
  if negb (usable reserve0 && usable reserve1) then None
  else Some (match q with
             | Quote1 => num_mul reserve1 (num_of_Z 2)
             | Quote0 => num_mul reserve0 (num_of_Z 2)
             end).

Definition getPoolSwapInputVolumeValue (swap : PoolRecentSwapViewModel) (pool : PoolViewModel)
    (q : quote_index) : num :=
  let reserve0 := units (pv_reserve0 pool) (pv_token0 pool) in
  let reserve1 := units (pv_reserve1 pool) (pv_token1 pool) in
  if negb (usable reserve0 && usable reserve1) then num_zero
  else
    let token0Input := units (rs_amount0In swap) (pv_token0 pool) in
    let token1Input := units (rs_amount1In swap) (pv_token1 pool) in
    if negb (is_finite token0Input) || negb (is_finite token1Input) then num_zero
    else match q with
         | Quote1 => if 0 <? rs_amount0In swap
                     then num_mul token0Input (num_div reserve1 reserve0) else token1Input
         | Quote0 => if 0 <? rs_amount1In swap
                     then num_mul token1Input (num_div reserve0 reserve1) else token0Input
         end.

(** The swaps of the last day, counted from the first of the list. *)
Definition in_window (latestTimestamp : num) (swap : PoolRecentSwapViewModel) : bool :=
  negb (num_ltb (rs_timestamp swap) (num_sub latestTimestamp DAY_SECONDS)
        || num_ltb latestTimestamp (rs_timestamp swap)).

Definition calculatePoolApr (pool : PoolViewModel) (swaps : list PoolRecentSwapViewModel)
    (q : quote_index) (lpFeeRate : num) : option num :=
  match swaps with
  | [] => None
  | first :: _ =>
    let latestTimestamp := rs_timestamp first in
    match getPoolLiquidityValue pool q with
    | None => None
    | Some liquidity =>
      if negb (is_finite liquidity) || num_leb liquidity num_zero then None
      else
        let volume24h :=
          foldl (fun total swap =>
                   if negb (in_window latestTimestamp swap) then total
                   else num_add total (getPoolSwapInputVolumeValue swap pool q))
            num_zero swaps in
        Some (num_div (num_mul (num_mul (num_mul volume24h lpFeeRate) (num_of_Z 365))
                         (num_of_Z 100)) liquidity)
    end
  end.
End metrics.
End PoolMetrics.

(** ** The order of a pair's tokens *)

(** [s <= t] on texts. *)
Definition js_string_le (s t : string) : bool :=
  match String.compare s t with Gt => false | _ => true end.

Definition sortPairTokens (first second : option SwapTokenOption)
  : option SwapTokenOption * option SwapTokenOption :=
  match first, second with
  | Some f, Some s =>
    if js_string_le (to_lower (st_routeAddress f)) (to_lower (st_routeAddress s))
    then (first, second) else (second, first)
  | _, _ => (first, second)
  end.

(** ** Activities, newest first *)

(** The number [t] of seconds, when the timestamp is one (below 2^52). *)
Definition seconds (x : num) (t : Z) : Prop := num_integral x = Some t /\ 0 <= t < 2 ^ 52.

(** [num] timestamps compare and subtract as integers. *)
Lemma seconds_eqb x y a b : seconds x a -> seconds y b -> num_eqb x y = (a =? b).
Proof.
  intros [Hx _] [Hy _]. unfold num_eqb. rewrite (num_cmp_integral x y a b) by done.
  destruct (Z.compare_spec a b), (Z.eqb_spec a b); done || lia.
Qed.

Lemma seconds_later x y a b :
  seconds x a -> seconds y b -> negb (num_ltb num_zero (num_sub y x)) = (b <=? a).
Proof.
  intros [Hx Ha] [Hy Hb]. assert (num_integral (num_sub y x) = Some (b - a)) as Hs.
  { apply num_sub_integral; done || lia. }
  rewrite (num_ltb_integral num_zero (num_sub y x) 0 (b - a)) by done.
  destruct (Z.ltb_spec 0 (b - a)), (Z.leb_spec b a); done || lia.
Qed.

(** Lexicographic order on a key, largest first. *)
Definition newest_first (a b : Z * Z * Z) : Prop :=
  let '(t1, n1, i1) := a in let '(t2, n2, i2) := b in
  t2 < t1 \/ t2 = t1 /\ (n2 < n1 \/ n2 = n1 /\ i2 <= i1).

Section activities.
Variable localeCompare : string -> string -> Z.
(** [localeCompare] is a consistent comparator. *)
Hypothesis locale_total : forall s t, localeCompare s t <= 0 \/ localeCompare t s <= 0.
Hypothesis locale_trans : forall s t u,
  localeCompare s t <= 0 -> localeCompare t u <= 0 -> localeCompare s u <= 0.

(** An activity with the key the page sorts by. *)
Definition keyed (a : PoolActivityViewModel) (k : Z * Z * Z) : Prop :=
  seconds (act_timestamp a) k.1.1 /\ k.1.2 = act_blockNumber a /\ k.2 = act_logIndex a.

Lemma activity_le_key a b k l :
  keyed a k -> keyed b l ->
  activity_le localeCompare a b = true
  <-> newest_first k l /\ (k = l -> localeCompare (act_id a) (act_id b) <= 0).
Proof.
  destruct k as [[t1 n1] i1], l as [[t2 n2] i2]. intros (Ht1 & Hn1 & Hi1) (Ht2 & Hn2 & Hi2).
  simpl in *. unfold activity_le.
  rewrite (seconds_eqb _ _ t1 t2), (seconds_later _ _ t1 t2) by done. subst n1 i1 n2 i2.
  destruct (Z.eqb_spec t1 t2) as [->|]; simpl.
  - destruct (Z.eqb_spec (act_blockNumber a) (act_blockNumber b)) as [->|]; simpl.
    + destruct (Z.eqb_spec (act_logIndex a) (act_logIndex b)) as [->|]; simpl.
      * rewrite Z.leb_le. naive_solver lia.
      * rewrite Z.ltb_lt. split; [intros; split; [lia|congruence]|lia].
    + rewrite Z.ltb_lt. split; [intros; split; [lia|congruence]|lia].
  - rewrite Z.leb_le. split; [intros; split; [lia|congruence]|lia].
Qed.

Definition has_key (a : PoolActivityViewModel) : Prop := exists k, keyed a k.

Lemma activity_le_total a b :
  has_key a -> has_key b ->
  activity_le localeCompare a b = true \/ activity_le localeCompare b a = true.
Proof.
  intros [k Hk] [l Hl]. rewrite !(activity_le_key _ _ _ _ Hk Hl), !(activity_le_key _ _ _ _ Hl Hk).
  destruct (decide (k = l)) as [->|Hne].
  - destruct (locale_total (act_id a) (act_id b)); [left|right];
      (split; [|done]); destruct l as [[? ?] ?]; simpl; lia.
  - assert (newest_first k l \/ newest_first l k) as [|].
    { destruct k as [[? ?] ?], l as [[? ?] ?]. simpl. lia. }
    + left. split; [done|congruence].
    + right. split; [done|congruence].
Qed.

Lemma activity_le_trans a b c :
  has_key a -> has_key b -> has_key c ->
  activity_le localeCompare a b = true -> activity_le localeCompare b c = true ->
  activity_le localeCompare a c = true.
Proof.
  intros [k Hk] [l Hl] [m Hm].
  rewrite (activity_le_key _ _ _ _ Hk Hl), (activity_le_key _ _ _ _ Hl Hm),
    (activity_le_key _ _ _ _ Hk Hm).
  intros [H1 E1] [H2 E2]. split.
  - destruct k as [[? ?] ?], l as [[? ?] ?], m as [[? ?] ?]. simpl in *. lia.
  - intros ->. assert (m = l) as ->; [|eauto].
    destruct l as [[? ?] ?], m as [[? ?] ?]. simpl in *. f_equal; [f_equal|]; lia.
Qed.

(** The reply the page is built from: that of the full query, or that of the legacy
    query when the full one failed for want of sync events. *)
Definition detail_reply (fetch : detail_query -> res js_error (fetch_response PoolDetailQueryResult))
    (a : string) (first : Z) (data : PoolDetailQueryResult) : Prop :=
  match fetchSubgraph (fetch (POOL_DETAIL_QUERY (to_lower a) first)) with
  | Ok d => data = d
  | Throw e => includes (message_or e "") "syncEvents" = true
               /\ fetchSubgraph (fetch (POOL_DETAIL_LEGACY_QUERY (to_lower a) first)) = Ok data
  end.

Lemma getPoolDetail_Ok fetch a first r :
  getPoolDetail localeCompare fetch a first = Ok r ->
  exists data joined,
    detail_reply fetch a first data
    /\ joined_activities data = Ok joined
    /\ pr_activities r = sort_by (activity_le localeCompare) joined.
Proof.
  unfold getPoolDetail. intros H. apply res_bind_Ok in H as (data & Hd & H).
  apply res_bind_Ok in H as (joined & Hj & H). apply res_bind_Ok in H as (pool & _ & H).
  simplify_eq. exists data, joined. split; [|done]. unfold detail_reply.
  destruct (fetchSubgraph (fetch (POOL_DETAIL_QUERY (to_lower a) first))); [congruence|].
  by destruct (includes _ _).
Qed.

(** The activity list of a pool is exactly the swaps, mints, burns and syncs of
    the reply (the legacy one only when the indexer does not know sync events), none lost and none repeated, newest first by time, block and log index. *)
Theorem pool_activities_sorted fetch a first r :
  getPoolDetail localeCompare fetch a first = Ok r ->
  Forall has_key (pr_activities r) ->
  exists data joined,
    detail_reply fetch a first data
    /\ joined_activities data = Ok joined
    /\ pr_activities r ≡ₚ joined
    /\ forall i j x y k l, (i < j)%nat ->
         pr_activities r !! i = Some x -> pr_activities r !! j = Some y ->
         keyed x k -> keyed y l -> newest_first k l.
Proof.
  intros H Hk. apply getPoolDetail_Ok in H as (data & joined & Hd & Hj & Hr).
  exists data, joined. split; [done|]. split; [done|]. split; [by rewrite Hr, sort_by_perm|].
  assert (StronglySorted (fun a b => activity_le localeCompare a b = true) (pr_activities r)) as Hs.
  { rewrite Hr. apply (sort_by_sorted _ has_key activity_le_total activity_le_trans).
    by rewrite Hr, sort_by_perm in Hk. }
  intros i j x y k l Hij Hi Hjy Hx Hy.
  pose proof (StronglySorted_lookup _ _ i j x y Hs Hij Hi Hjy) as Hle.
  by apply (activity_le_key _ _ _ _ Hx Hy) in Hle as [? _].
Qed.

(** The list does not depend on the order in which the indexer returned the
    events: two replies with the same events, no two of them at the same place on
    the chain, give the same list. *)
Theorem pool_activities_canonical fetch1 fetch2 a first r1 r2 :
  getPoolDetail localeCompare fetch1 a first = Ok r1 ->
  getPoolDetail localeCompare fetch2 a first = Ok r2 ->
  pr_activities r1 ≡ₚ pr_activities r2 ->
  Forall has_key (pr_activities r1) ->
  (forall x y k, x ∈ pr_activities r1 -> y ∈ pr_activities r1 -> keyed x k -> keyed y k -> x = y) ->
  pr_activities r1 = pr_activities r2.
Proof.
  intros H1 H2 Hp Hk Huniq.
  apply getPoolDetail_Ok in H1 as (? & j1 & _ & _ & E1).
  apply getPoolDetail_Ok in H2 as (? & j2 & _ & _ & E2).
  assert (j1 ≡ₚ j2) as Hj by (by rewrite E1, E2, !sort_by_perm in Hp).
  rewrite E1 in Hk, Huniq |- *. rewrite E2. rewrite sort_by_perm in Hk.
  assert (forall z, z ∈ j1 -> z ∈ sort_by (activity_le localeCompare) j1) as Hin
    by (intros z; by rewrite sort_by_perm).
  apply (sort_by_canonical _ has_key activity_le_total activity_le_trans); [done| |done].
  intros u v Hu Hv Hxy Hyx. rewrite Forall_forall in Hk.
  destruct (Hk u Hu) as [k Kx], (Hk v Hv) as [l Ky].
  apply (activity_le_key _ _ _ _ Kx Ky) in Hxy as [Hxy _].
  apply (activity_le_key _ _ _ _ Ky Kx) in Hyx as [Hyx _].
  assert (l = k) as ->; [|by eapply Huniq; auto].
  destruct k as [[? ?] ?], l as [[? ?] ?]. simpl in *. f_equal; [f_equal|]; lia.
Qed.
End activities.

(** ** The APR *)

Lemma in_window_self x t : seconds x t -> forall y, rs_timestamp y = x -> PoolMetrics.in_window x y = true.
Proof.
  intros [Hx Ht] y Hy. unfold PoolMetrics.in_window. rewrite Hy.
  assert (num_integral (num_sub x PoolMetrics.DAY_SECONDS) = Some (t - 86400)) as Hs.
  { apply num_sub_integral; [done|by vm_compute|lia]. }
  rewrite (num_ltb_integral x _ t (t - 86400)), (num_ltb_integral x x t t) by done.
  destruct (Z.ltb_spec t (t - 86400)), (Z.ltb_spec t t); done || lia.
Qed.

Lemma foldl_keep {A B} (p : A -> bool) (f : B -> A -> B) l acc :
  foldl (fun b a => if negb (p a) then b else f b a) acc l = foldl f acc (keep p l).
Proof. revert acc; induction l as [|a l IH]; intros acc; simpl; [done|]. by destruct (p a); simpl. Qed.

(** Only the last day counts: the APR of a pool is that of the swaps at most a
    day older than the newest one, whatever the list holds before. *)
Theorem apr_window formatUnits pool first rest q rate t :
  seconds (rs_timestamp first) t ->
  PoolMetrics.calculatePoolApr formatUnits pool (first :: rest) q rate
  = PoolMetrics.calculatePoolApr formatUnits pool
      (keep (PoolMetrics.in_window (rs_timestamp first)) (first :: rest)) q rate
  /\ Forall (fun s => num_ltb (rs_timestamp s) (num_sub (rs_timestamp first) PoolMetrics.DAY_SECONDS) = false)
       (keep (PoolMetrics.in_window (rs_timestamp first)) (first :: rest)).
Proof.
  intros Ht. pose proof (in_window_self _ t Ht first eq_refl) as Hf. split.
  - cbn [keep]. rewrite Hf. unfold PoolMetrics.calculatePoolApr.
    destruct (PoolMetrics.getPoolLiquidityValue _ _ _); [|done]. destruct (_ || _); [done|].
    rewrite !foldl_keep. cbn [keep]. rewrite Hf. by rewrite keep_idemp.
  - eapply Forall_impl; [apply keep_Forall|]. intros s Hs. unfold PoolMetrics.in_window in Hs.
    by bool_solve.
Qed.

(** ** The order of the tokens *)

Lemma address_order a b :
  address_text a -> address_text b ->
  js_string_le (to_lower a) (to_lower b) = (address_value a <=? address_value b).
Proof.
  intros (s & Ha & Hsl & Hs) (t & Hb & Htl & Ht). unfold js_string_le, address_value.
  rewrite Ha, Hb. cbn [String.append].
  destruct (value_go_shift 16 is_hex_lower s 0 digit_val_hex Hs) as (v & Hv & _ & _).
  destruct (value_go_shift 16 is_hex_lower t 0 digit_val_hex Ht) as (w & Hw & _ & _).
  rewrite Hv, Hw. cbn. rewrite (hex_compare s t v w) by congruence. unfold Z.leb.
  by destruct (v ?= w).
Qed.

(** The client orders a pair's tokens as the factory does: the result is the two
    tokens, the one with the numerically smaller address first, whichever way round
    they were given. *)
Theorem pair_tokens_sorted x y :
  address_text (st_routeAddress x) -> address_text (st_routeAddress y) ->
  exists a b,
    sortPairTokens (Some x) (Some y) = (Some a, Some b)
    /\ [a; b] ≡ₚ [x; y]
    /\ address_value (st_routeAddress a) <= address_value (st_routeAddress b)
    /\ (address_value (st_routeAddress x) <> address_value (st_routeAddress y) ->
        sortPairTokens (Some y) (Some x) = (Some a, Some b)).
Proof.
  intros Hx Hy. unfold sortPairTokens. rewrite !address_order by done.
  destruct (Z.leb_spec (address_value (st_routeAddress x)) (address_value (st_routeAddress y))) as [H|H].
  - exists x, y. split_and!; [done|done|done|]. intros Hne.
    destruct (Z.leb_spec (address_value (st_routeAddress y)) (address_value (st_routeAddress x))); [lia|done].
  - exists y, x. split_and!; [done|constructor|lia|]. intros _.
    destruct (Z.leb_spec (address_value (st_routeAddress y)) (address_value (st_routeAddress x))); [done|lia].
Qed.

(** ** Concrete instances *)

(** Any two texts compare by length. *)
Definition sample_locale (s t : string) : Z :=
  Z.of_nat (String.length s) - Z.of_nat (String.length t).

Lemma sample_locale_total s t : sample_locale s t <= 0 \/ sample_locale t s <= 0.
Proof. unfold sample_locale. lia. Qed.

Lemma sample_locale_trans s t u :
  sample_locale s t <= 0 -> sample_locale t u <= 0 -> sample_locale s u <= 0.
Proof. unfold sample_locale. lia. Qed.

Definition sample_sync (index : string) : SubgraphSyncEvent :=
  {| sy_id := index; sy_reserve0 := "10"; sy_reserve1 := "20"; sy_timestamp := "1700000000";
     sy_blockNumber := "7"; sy_txHash := "0xaa"; sy_logIndex := index |}.

Definition sample_detail_reply (syncs : list SubgraphSyncEvent)
  : fetch_response PoolDetailQueryResult :=
  {| response_status := 200;
     response_json := Ok {|
       gql_errors := None;
       gql_data := Some {| pd_pair := None; pd_swapEvents := None; pd_mintEvents := None;
                           pd_burnEvents := None; pd_syncEvents := Some syncs |} |} |}.

Definition sample_sync_activity (index : Z) : PoolActivityViewModel :=
  {| act_kind := ActSync 10 20; act_id := dec index; act_sender := None;
     act_timestamp := num_of_Z 1700000000; act_blockNumber := 7; act_txHash := "0xaa";
     act_logIndex := index |}.

Lemma sample_keyed i : keyed (sample_sync_activity i) (1700000000, 7, i).
Proof. split; [split; [vm_compute; reflexivity|cbn; lia]|done]. Qed.

Lemma sample_keyed_inv i k : keyed (sample_sync_activity i) k -> k.2 = i.
Proof. by intros (_ & _ & H). Qed.

Lemma pool_activities_sorted_witness :
  exists r,
    getPoolDetail sample_locale (fun _ => Ok (sample_detail_reply [sample_sync "3"; sample_sync "12"]))
      "0xAB" 120 = Ok r
    /\ pr_activities r = [sample_sync_activity 12; sample_sync_activity 3]
    /\ newest_first (1700000000, 7, 12) (1700000000, 7, 3).
Proof.
  eexists. split; [vm_compute; reflexivity|]. split; [vm_compute; reflexivity|].
  destruct (pool_activities_sorted sample_locale sample_locale_total sample_locale_trans
    (fun _ => Ok (sample_detail_reply [sample_sync "3"; sample_sync "12"])) "0xAB" 120
    {| pr_pool := None; pr_activities := [sample_sync_activity 12; sample_sync_activity 3] |})
    as (data & joined & _ & _ & _ & Hn).
  - vm_compute. reflexivity.
  - cbn [pr_activities]. repeat constructor; eexists; apply sample_keyed.
  - apply (Hn 0%nat 1%nat (sample_sync_activity 12) (sample_sync_activity 3) (1700000000, 7, 12)
      (1700000000, 7, 3)); [lia|reflexivity|reflexivity|apply sample_keyed|apply sample_keyed].
Defined.

Lemma pool_activities_canonical_witness :
  pr_activities {| pr_pool := None; pr_activities := [sample_sync_activity 12; sample_sync_activity 3] |}
  = [sample_sync_activity 12; sample_sync_activity 3].
Proof.
  apply (pool_activities_canonical sample_locale sample_locale_total sample_locale_trans
    (fun _ => Ok (sample_detail_reply [sample_sync "3"; sample_sync "12"]))
    (fun _ => Ok (sample_detail_reply [sample_sync "12"; sample_sync "3"])) "0xAB" 120
    {| pr_pool := None; pr_activities := [sample_sync_activity 12; sample_sync_activity 3] |}
    {| pr_pool := None; pr_activities := [sample_sync_activity 12; sample_sync_activity 3] |}).
  - vm_compute. reflexivity.
  - vm_compute. reflexivity.
  - reflexivity.
  - cbn [pr_activities]. repeat constructor; eexists; apply sample_keyed.
  - cbn [pr_activities]. intros x y k Hx Hy Kx Ky.
    apply elem_of_cons in Hx as [->|Hx%list_elem_of_singleton];
      [|subst x]; apply sample_keyed_inv in Kx;
      (apply elem_of_cons in Hy as [->|Hy%list_elem_of_singleton];
       [|subst y]); apply sample_keyed_inv in Ky; congruence.
Defined.

Definition sample_pool : PoolViewModel :=
  {| pv_id := "0xab"; pv_token0 := {| tv_id := "0x1"; tv_symbol := "A"; tv_decimals := num_of_Z 0 |};
     pv_token1 := {| tv_id := "0x2"; tv_symbol := "B"; tv_decimals := num_of_Z 0 |};
     pv_reserve0 := 1000; pv_reserve1 := 2000; pv_totalSupply := 1; pv_recentSwaps := [] |}.
Definition sample_swap (t : Z) : PoolRecentSwapViewModel :=
  {| rs_amount0In := 10; rs_amount1In := 0; rs_amount0Out := 0; rs_amount1Out := 19;
     rs_timestamp := num_of_Z t |}.

Lemma apr_window_witness :
  PoolMetrics.calculatePoolApr (fun z _ => dec z) sample_pool
    [sample_swap 1700000000; sample_swap 1600000000] PoolMetrics.Quote1
    PoolMetrics.LP_SWAP_FEE_RATE_WITHOUT_PROTOCOL
  = PoolMetrics.calculatePoolApr (fun z _ => dec z) sample_pool [sample_swap 1700000000]
      PoolMetrics.Quote1 PoolMetrics.LP_SWAP_FEE_RATE_WITHOUT_PROTOCOL.
Proof.
  rewrite (proj1 (apr_window (fun z _ => dec z) sample_pool (sample_swap 1700000000)
    [sample_swap 1600000000] PoolMetrics.Quote1 PoolMetrics.LP_SWAP_FEE_RATE_WITHOUT_PROTOCOL 1700000000
    ltac:(split; [vm_compute; reflexivity|lia]))).
  f_equal.
Defined.

Definition sample_token (a : string) : SwapTokenOption :=
  {| st_symbol := "T"; st_name := "Token"; st_decimals := 18; st_kind := erc20;
     st_address := Some a; st_routeAddress := a |}.

Lemma pair_tokens_sorted_witness :
  exists a b,
    sortPairTokens (Some (sample_token "0xF881723bef047da1cd494795a797835241d3be29"))
      (Some (sample_token "0x5171c0fec2f9c4413a9aae39f3d3739aa30b1110")) = (Some a, Some b)
    /\ address_value (st_routeAddress a) <= address_value (st_routeAddress b).
Proof.
  destruct (pair_tokens_sorted (sample_token "0xF881723bef047da1cd494795a797835241d3be29")
    (sample_token "0x5171c0fec2f9c4413a9aae39f3d3739aa30b1110")) as (a & b & H1 & _ & H2 & _).
  - eexists. split; [vm_compute; reflexivity|]. split; reflexivity.
  - eexists. split; [vm_compute; reflexivity|]. split; reflexivity.
  - eauto.
Defined.
