(* ===== verification/IndexerPools.v ===== *)
(** * From the indexer to the pool page

    The reply the indexer serves for a pair is the pair's entity, big integers written
    in decimal; the pool page reads it back.  This file joins the entities of
    [Subgraph] with the view models of [Pools]. *)

From S2P Require Import Prelude JsString JsNumber JsValue JsError Subgraph Pools.
Open Scope string_scope.
Open Scope Z_scope.

(** The indexer's reply for a pair: bytes in hexadecimal, big integers in decimal, the
    decimals of a token as a number. *)
Definition served_token (hex : Bytes -> string) (id : Bytes) (t : Token) : SubgraphToken :=
  {| gt_id := hex id; gt_symbol := token_symbol t; gt_decimals := VNum (num_of_Z (token_decimals t)) |}.

Definition served_pair (hex : Bytes -> string) (id : Bytes) (t0 t1 : Token) (p : Pair) : SubgraphPair :=
  {| sp_id := hex id;
     sp_token0 := served_token hex (token0 p) t0;
     sp_token1 := served_token hex (token1 p) t1;
     sp_reserve0 := dec (reserve0 p);
     sp_reserve1 := dec (reserve1 p);
     sp_swaps := None;
     sp_totalSupply := Some (dec (totalSupply p));
     sp_txCount := Some (dec (txCount p));
     sp_swapCount := Some (dec (swapCount p));
     sp_mintCount := Some (dec (mintCount p));
     sp_burnCount := Some (dec (burnCount p));
     sp_createdAtTimestamp := Some (dec (createdAtTimestamp p));
     sp_createdAtTxHash := Some (hex (createdAtTxHash p)) |}.

Lemma big_dec n : 0 <= n -> big (dec n) = Ok n.
Proof. apply to_bigint_dec. Qed.

(** The pool page shows the contract's state: for an entity that mirrors the
    contract, with the tokens the indexer created, reading the served reply back
    succeeds and gives the contract's reserves and LP supply, the entity's counters,
    and each token's own decimals. *)
Theorem pool_page_shows_contract hex id t0 t1 p c :
  mirrors p c ->
  Forall (fun n => 0 <= n) [reserve0 p; reserve1 p; totalSupply p; txCount p; swapCount p;
                            mintCount p; burnCount p] ->
  exists v,
    mapSubgraphPairDetail (served_pair hex id t0 t1 p) = Ok v
    /\ pv_reserve0 (pd_view v) = PairContract.c_reserve0 c
    /\ pv_reserve1 (pd_view v) = PairContract.c_reserve1 c
    /\ pd_totalSupply v = PairContract.lp_totalSupply c
    /\ (pd_txCount v, pd_swapCount v, pd_mintCount v, pd_burnCount v)
       = (txCount p, swapCount p, mintCount p, burnCount p)
    /\ tv_decimals (pv_token0 (pd_view v)) = num_of_Z (token_decimals t0)
    /\ tv_decimals (pv_token1 (pd_view v)) = num_of_Z (token_decimals t1).
Proof.
  intros (Hs & H0 & H1) Hn. rewrite !Forall_cons in Hn.
  destruct Hn as (? & ? & ? & ? & ? & ? & ? & _).
  unfold mapSubgraphPairDetail, mapSubgraphPair, served_pair. cbn -[big dec].
  repeat (rewrite big_dec by done; cbn -[big dec]).
  eexists. split; [reflexivity|]. cbn. by rewrite Hs, H0, H1.
Qed.

(** ** A concrete instance *)

Definition sample_entity : Pair :=
  {| token0 := "a"; token1 := "b"; reserve0 := 4001000; reserve1 := 8980001; totalSupply := 5997;
     txCount := 3; swapCount := 1; mintCount := 1; burnCount := 1; createdAtBlock := 1;
     createdAtTimestamp := 1700000000; createdAtTxHash := "h" |}.

Lemma pool_page_shows_contract_witness :
  exists v,
    mapSubgraphPairDetail (served_pair id "pair"
      {| token_symbol := "FLUX"; token_name := "Flux"; token_decimals := 18; token_createdAtTimestamp := 0 |}
      {| token_symbol := "USDT"; token_name := "Tether"; token_decimals := 6; token_createdAtTimestamp := 0 |}
      sample_entity) = Ok v
    /\ pv_reserve0 (pd_view v) = 4001000.
Proof.
  edestruct (pool_page_shows_contract id "pair"
    {| token_symbol := "FLUX"; token_name := "Flux"; token_decimals := 18; token_createdAtTimestamp := 0 |}
    {| token_symbol := "USDT"; token_name := "Tether"; token_decimals := 6; token_createdAtTimestamp := 0 |}
    sample_entity
    {| PairContract.lp_totalSupply := 5997; PairContract.lp_balances := ∅;
       PairContract.c_reserve0 := 4001000; PairContract.c_reserve1 := 8980001;
       PairContract.blockTimestampLast := 0; PairContract.price0CumulativeLast := 0;
       PairContract.price1CumulativeLast := 0 |}) as (v & Hv & Hr & _).
  - repeat split.
  - repeat constructor; cbn; lia.
  - eauto.
Defined.
