(* ===== verification/Errors.v ===== *)
(** * Error messages (frontend/src/lib/errors.ts, admin-frontend/src/lib/errors.ts)

    Thrown values are objects of a store, linked by their [cause]; collecting their
    messages walks that chain with a queue.  The loop has fuel: [collect_fuel] says
    that it ends exactly when the chain of causes is finite, and with how much. *)

From S2P Require Import Prelude JsString JsMap.
Open Scope string_scope.

Definition loc : Type := positive.

(** A thrown value: an object, or a value whose [typeof] is not ['object'] (or null). *)
Inductive value := Prim | Ref (l : loc).

(** What the collector reads of an object; [None] is a missing property, or one whose
    value is not a text. *)
Record error_object := {
  instance_of_Error : bool;
  error_message : string;
  shortMessage : option string;
  details : option string;
  cause : option value;
}.

Definition heap := gmap loc error_object.

(** The texts an object contributes, in the order they are added. *)
Definition own_messages (o : error_object) : list string :=
  ((if instance_of_Error o && str_nonempty (error_message o) then [error_message o] else [])
   ++ match shortMessage o with Some s => [s] | None => [] end
   ++ match details o with Some s => [s] | None => [] end)%list.

(** The loop; [None] when the fuel runs out. *)
Fixpoint collect (fuel : nat) (h : heap) (queue : list value) (messages : list string)
  : option (list string) :=
  match fuel with
  | O => None
  | S f =>
    match queue with
    | [] => Some messages
    | current :: queue' =>
      match current with
      | Prim => collect f h queue' messages
      | Ref l =>
        match h !! l with
        | None => collect f h queue' messages
        | Some o =>
          let messages := add_all (own_messages o) messages in
          match cause o with
          | Some c => collect f h (queue' ++ [c])%list messages
          | None => collect f h queue' messages
          end
        end
      end
    end
  end.

Definition collectErrorMessages (fuel : nat) (h : heap) (error : value) : option (list string) :=
  collect fuel h [error] [].

Definition includesAny (s : string) (patterns : list string) : bool := existsb (includes s) patterns.

(** [normalizedMessages.some((m) => includesAny(m, patterns))] *)
Definition any_includes (messages patterns : list string) : bool :=
  existsb (fun m => includesAny (to_lower m) patterns) messages.

(** The first class one of the messages belongs to. *)
Definition classify (classes : list (list string * string)) (messages : list string) : option string :=
  snd <$> find_first (fun c => any_includes messages (fst c)) classes.

Definition rejection_patterns : list string :=
  ["user denied"; "user rejected"; "denied transaction signature"; "rejected the request"].

Definition frontend_classes : list (list string * string) :=
  [(["insufficient funds"; "insufficient balance"; "exceeds balance"; "transfer amount exceeds balance"],
    "余额不足，请检查钱包余额后重试。");
   (["excessive_input_amount"; "insufficient_output_amount"; "insufficient liquidity"; "slippage"],
    "交易价格或池子状态已变化，请刷新报价或调高滑点后重试。");
   (["execution reverted"; "reverted with the following reason"; "contract function"; "contract call"],
    "链上交易执行失败，请检查数量、滑点、余额或池子状态后重试。");
   (["rpc submit"; "internal error"; "network error"; "failed to fetch"; "timeout"],
    "RPC 或网络暂时异常，请稍后重试。")].

Definition admin_classes : list (list string * string) :=
  [(["insufficient funds"; "insufficient balance"; "exceeds balance"],
    "余额不足，请检查钱包余额后重试。");
   (["execution reverted"; "reverted with the following reason"; "contract function"; "contract call"],
    "链上执行失败，请检查权限、地址、数量或合约状态后重试。");
   (["rpc submit"; "internal error"; "network error"; "failed to fetch"; "timeout"],
    "RPC 或网络暂时异常，请稍后重试。")].

(** The common body of the two [formatErrorMessage]s, on the collected messages. *)
Definition format_messages (rejected fallback : string) (classes : list (list string * string))
    (limit : nat) (messages : list string) : string :=
  match classify ((rejection_patterns, rejected) :: classes) messages with
  | Some text => text
  | None =>
    match messages with
    | first :: _ =>
      let firstMessage := trim first in
      if Nat.leb (js_length firstMessage) limit then firstMessage else fallback
    | [] => fallback
    end
  end.

Record FormatErrorMessageOptions := { rejectedMessage : option string; fallbackMessage : option string }.

(** The two options with their defaults. *)
Definition rejected_text (options : option FormatErrorMessageOptions) : string :=
  default "你已取消本次操作" (o ← options; rejectedMessage o).
Definition fallback_text (options : option FormatErrorMessageOptions) : string :=
  default "操作失败，请稍后重试。" (o ← options; fallbackMessage o).

Definition formatErrorMessage (fuel : nat) (h : heap) (error : value)
    (options : option FormatErrorMessageOptions) : option string :=
  format_messages (rejected_text options) (fallback_text options) frontend_classes 120
    <$> collectErrorMessages fuel h error.

Definition admin_formatErrorMessage (fuel : nat) (h : heap) (error : value) : option string :=
  format_messages (rejected_text None) (fallback_text None) admin_classes 140
    <$> collectErrorMessages fuel h error.

(** ** The chain of causes *)

(** The objects from a value along the causes, when the chain is finite. *)
Inductive causes (h : heap) : value -> list error_object -> Prop :=
| causes_prim : causes h Prim []
| causes_dangling l : h !! l = None -> causes h (Ref l) []
| causes_last l o : h !! l = Some o -> cause o = None -> causes h (Ref l) [o]
| causes_next l o c os :
  h !! l = Some o -> cause o = Some c -> causes h c os -> causes h (Ref l) (o :: os).

Lemma collect_causes h v os acc f :
  causes h v os -> (S (S (length os)) <= f)%nat ->
  collect f h [v] acc = Some (foldl (fun acc o => add_all (own_messages o) acc) acc os).
Proof.
  intros H. revert acc f. induction H as [|l Hl|l o Hl Hc|l o c os Hl Hc _ IH]; intros acc f Hf;
    (destruct f as [|f]; [simpl in Hf; lia|]); cbn [collect]; rewrite ?Hl, ?Hc.
  - destruct f; [simpl in Hf; lia|done].
  - destruct f; [simpl in Hf; lia|done].
  - destruct f; [simpl in Hf; lia|done].
  - simpl. apply IH. simpl in Hf. lia.
Qed.

Lemma collect_some_causes h f v acc msgs :
  collect f h [v] acc = Some msgs -> exists os, causes h v os.
Proof.
  revert v acc; induction f as [|f IH]; intros v acc H; [done|]. cbn [collect] in H.
  destruct v as [|l]; [eexists; constructor|].
  destruct (h !! l) as [o|] eqn:Hl; [|eexists; by apply causes_dangling].
  destruct (cause o) as [c|] eqn:Hc; [|eexists; by eapply causes_last].
  apply IH in H as [os Hos]. eexists. by eapply causes_next.
Qed.

Lemma elem_of_collected s os acc :
  s ∈ foldl (fun acc o => add_all (own_messages o) acc) acc os
  <-> (exists o, o ∈ os /\ s ∈ own_messages o) \/ s ∈ acc.
Proof.
  revert acc; induction os as [|o os IH]; intros acc; simpl.
  - split; [auto|]. intros [(o & Ho & _)|]; [set_solver|done].
  - rewrite IH, elem_of_add_all. setoid_rewrite elem_of_cons. naive_solver.
Qed.

(** Collecting the messages of an error ends exactly when its chain of causes is
    finite, within two rounds more than its length; it then gives every message,
    short message and detail of the chain, once each, and nothing else. *)
Theorem collect_fuel h v :
  (forall os, causes h v os ->
     forall fuel, (length os + 2 <= fuel)%nat ->
     exists msgs, collectErrorMessages fuel h v = Some msgs
       /\ NoDup msgs /\ forall s, s ∈ msgs <-> exists o, o ∈ os /\ s ∈ own_messages o)
  /\ ((~ exists os, causes h v os) -> forall fuel, collectErrorMessages fuel h v = None).
Proof.
  split.
  - intros os Hos fuel Hf. eexists. split; [by apply (collect_causes h v os); [|lia]|]. split.
    + assert (forall os acc, NoDup acc ->
        NoDup (foldl (fun acc o => add_all (own_messages o) acc) acc os)) as Hnd.
      { clear. intros os; induction os as [|o os IH]; intros acc Ha; simpl; [done|].
        by apply IH, NoDup_add_all. }
      apply Hnd. constructor.
    + intros s. rewrite elem_of_collected. split; [intros [H|H]; [done|by apply elem_of_nil in H]|auto].
  - intros Hn fuel. unfold collectErrorMessages. destruct (collect fuel h [v] []) eqn:E; [|done].
    apply collect_some_causes in E. done.
Qed.

(** An error that is, through any number of causes, its own cause. *)
Inductive leads (h : heap) : value -> value -> Prop :=
| leads_one l o c : h !! l = Some o -> cause o = Some c -> leads h (Ref l) c
| leads_more l o c w : h !! l = Some o -> cause o = Some c -> leads h c w -> leads h (Ref l) w.

Lemma causes_leads h v w os : causes h v os -> leads h v w -> exists os', causes h w os' /\ (length os' < length os)%nat.
Proof.
  intros Hc Hl. revert os Hc. induction Hl as [l o c Hl Ho|l o c w Hl Ho Hw IH]; intros os Hc.
  - inversion Hc; simplify_eq. eexists. split; [done|]. simpl. lia.
  - inversion Hc as [| | |l' o' c' os' Hl' Ho' Hc']; simplify_eq.
    destruct (IH _ Hc') as (os2 & H2 & Hlt). exists os2. split; [done|]. simpl. lia.
Qed.

Lemma causes_fun h v os1 os2 : causes h v os1 -> causes h v os2 -> os1 = os2.
Proof.
  intros H1. revert os2. induction H1; intros os2 H2; inversion H2; simplify_eq; try done.
  f_equal. auto.
Qed.

(** On an error that is among its own causes the collector never ends, whatever
    the fuel: neither client shows any message for it. *)
Theorem cyclic_cause_hangs h v options fuel :
  leads h v v ->
  formatErrorMessage fuel h v options = None /\ admin_formatErrorMessage fuel h v = None.
Proof.
  intros Hl. assert (collectErrorMessages fuel h v = None) as Hn.
  { unfold collectErrorMessages. destruct (collect fuel h [v] []) eqn:E; [|done].
    apply collect_some_causes in E as [os Hos].
    destruct (causes_leads h v v os Hos Hl) as (os' & Hos' & Hlt).
    rewrite (causes_fun _ _ _ _ Hos' Hos) in Hlt. lia. }
  unfold formatErrorMessage, admin_formatErrorMessage. by rewrite Hn.
Qed.

(** ** What is shown *)

Lemma any_includes_elem msgs patterns s p :
  s ∈ msgs -> p ∈ patterns -> includes (to_lower s) p = true -> any_includes msgs patterns = true.
Proof.
  intros Hs Hp Hi. unfold any_includes, includesAny. apply existsb_exists. exists s.
  rewrite <- list_elem_of_In. split; [done|]. apply existsb_exists. exists p.
  by rewrite <- list_elem_of_In.
Qed.

Lemma format_messages_bound rejected fallback classes limit msgs :
  let out := format_messages rejected fallback classes limit msgs in
  out ∈ rejected :: fallback :: (snd <$> classes) \/ (js_length out <= limit)%nat.
Proof.
  unfold format_messages, classify.
  destruct (find_first _ _) as [[ps text]|] eqn:E; simpl.
  - left. apply find_first_Some in E as [Hin _]. apply elem_of_cons in Hin as [Hin|Hin].
    + injection Hin as -> ->. set_solver.
    + rewrite !elem_of_cons. right; right. apply list_elem_of_fmap. by exists (ps, text).
  - destruct msgs as [|m msgs]; [left; set_solver|].
    destruct (Nat.leb_spec (js_length (trim m)) limit); [by right|left; set_solver].
Qed.

(** A wallet rejection is recognised wherever it is: if any object of the chain of
    causes carries, in any letter case, one of the rejection texts, the client shows
    the rejection message, whatever the other messages are; and what it shows is
    always one of its fixed texts or at most 120 characters long. *)
Theorem rejection_found h v os options fuel :
  causes h v os -> (length os + 2 <= fuel)%nat ->
  exists out,
    formatErrorMessage fuel h v options = Some out
    /\ (out ∈ rejected_text options :: fallback_text options :: (snd <$> frontend_classes)
        \/ (js_length out <= 120)%nat)
    /\ forall o s p, o ∈ os -> s ∈ own_messages o -> p ∈ rejection_patterns ->
         includes (to_lower s) p = true -> out = rejected_text options.
Proof.
  intros Hos Hf. unfold formatErrorMessage, collectErrorMessages.
  rewrite (collect_causes h v os) by (done || lia). eexists. split; [reflexivity|].
  split; [apply format_messages_bound|]. intros o s p Ho Hs Hp Hi.
  unfold format_messages, classify. cbn [find_first fst].
  rewrite (any_includes_elem _ _ s p); [done| |done|done].
  apply elem_of_collected. left. by exists o.
Qed.

(** ** Concrete instances *)

Definition sample_error (msg : string) (c : option value) : error_object :=
  {| instance_of_Error := true; error_message := msg; shortMessage := None; details := None; cause := c |}.

Definition sample_heap : heap :=
  <[1%positive := sample_error "The contract call failed" (Some (Ref 2%positive))]>
  (<[2%positive := sample_error "User Rejected the request." None]> ∅).

Definition cyclic_heap : heap :=
  <[1%positive := sample_error "a" (Some (Ref 2%positive))]> (<[2%positive := sample_error "b" (Some (Ref 1%positive))]> ∅).

Lemma cyclic_cause_hangs_witness : formatErrorMessage 1000 cyclic_heap (Ref 1%positive) None = None.
Proof.
  apply cyclic_cause_hangs. eapply leads_more; [reflexivity|reflexivity|].
  eapply leads_one; reflexivity.
Defined.

Lemma rejection_found_witness :
  formatErrorMessage 4 sample_heap (Ref 1%positive) None = Some (rejected_text None).
Proof.
  destruct (rejection_found sample_heap (Ref 1%positive)
    [sample_error "The contract call failed" (Some (Ref 2%positive)); sample_error "User Rejected the request." None]
    None 4) as (out & Ho & _ & Hr).
  - eapply causes_next; [reflexivity|reflexivity|]. eapply causes_last; reflexivity.
  - simpl. lia.
  - rewrite Ho. f_equal.
    apply (Hr (sample_error "User Rejected the request." None) "User Rejected the request." "user rejected").
    + apply elem_of_cons. right. by apply list_elem_of_singleton.
    + by apply list_elem_of_singleton.
    + apply elem_of_cons. right. apply elem_of_cons. by left.
    + vm_compute. reflexivity.
Defined.
