(* ===== verification/TreasuryContract.v ===== *)
(** * The treasury contract (contracts/contracts/FluxSwapTreasury.sol)

    The contract the administration client and the deployment scripts talk to: roles,
    the timelock of governance operations, daily spending caps and approved spenders.
    Operation hashes are behind the class [OperationHash]; calls to tokens are events,
    and may fail.  The interfaces of the two clients are proved against this file. *)

From S2P Require Import Prelude JsString.
Open Scope string_scope.
Open Scope Z_scope.
Open Scope flux_scope.

(** ** Operations and their hashes *)

(** Addresses as the numbers they are, operation ids as the texts the clients see. *)
Definition address : Type := Z.
Definition operation_id : Type := string.
Definition zero_operation : operation_id :=
  "0x0000000000000000000000000000000000000000000000000000000000000000".

Inductive timelock_op :=
| SetOperator (newOperator : address)
| SetGuardian (newGuardian : address)
| SetMinDelay (newMinDelay : Z)
| SetAllowedToken (token : address) (allowed : bool)
| SetAllowedRecipient (recipient : address) (allowed : bool)
| SetDailySpendCap (token : address) (newCap : Z)
| ApproveSpender (token spender : address) (amount : Z)
| RevokeSpender (token spender : address)
| EmergencyWithdraw (token to : address) (amount : Z)
| EmergencyWithdrawETH (to : address) (amount : Z).

#[export] Instance timelock_op_eq_dec : EqDecision timelock_op.
Proof. solve_decision. Defined.

(** The ten [hash...] functions: [keccak256] of the tagged encoding of the arguments,
    as a function that separates operations. *)
Class OperationHash := {
  op_hash : timelock_op -> operation_id;
  op_hash_inj o1 o2 : op_hash o1 = op_hash o2 -> o1 = o2;
  op_hash_nonzero o : op_hash o <> zero_operation;
}.

(** ** State *)

Record treasury := {
  multisig : address;
  operator : address;
  guardian : address;
  minDelay : Z;
  paused : bool;
  allowedTokens : gmap address bool;
  allowedRecipients : gmap address bool;
  dailySpendCap : gmap address Z;
  spentToday : gmap address Z;
  lastSpendDay : gmap address Z;
  approvedSpendRemaining : gmap (address * address) Z;
  operationReadyAt : gmap operation_id Z;
}.

(** Reading a mapping: a missing entry is zero, or false. *)
Definition at_ {K} `{Countable K} (m : gmap K Z) (k : K) : Z := default 0 (m !! k).
Definition is_ {K} `{Countable K} (m : gmap K bool) (k : K) : bool := default false (m !! k).

Definition with_roles (op gd : address) (delay : Z) (p : bool) (c : treasury) : treasury :=
  {| multisig := multisig c; operator := op; guardian := gd; minDelay := delay; paused := p;
     allowedTokens := allowedTokens c; allowedRecipients := allowedRecipients c;
     dailySpendCap := dailySpendCap c; spentToday := spentToday c; lastSpendDay := lastSpendDay c;
     approvedSpendRemaining := approvedSpendRemaining c; operationReadyAt := operationReadyAt c |}.

Definition with_lists (tokens recipients : gmap address bool) (c : treasury) : treasury :=
  {| multisig := multisig c; operator := operator c; guardian := guardian c; minDelay := minDelay c;
     paused := paused c; allowedTokens := tokens; allowedRecipients := recipients;
     dailySpendCap := dailySpendCap c; spentToday := spentToday c; lastSpendDay := lastSpendDay c;
     approvedSpendRemaining := approvedSpendRemaining c; operationReadyAt := operationReadyAt c |}.

Definition with_caps (caps spent days : gmap address Z) (approved : gmap (address * address) Z)
    (c : treasury) : treasury :=
  {| multisig := multisig c; operator := operator c; guardian := guardian c; minDelay := minDelay c;
     paused := paused c; allowedTokens := allowedTokens c; allowedRecipients := allowedRecipients c;
     dailySpendCap := caps; spentToday := spent; lastSpendDay := days;
     approvedSpendRemaining := approved; operationReadyAt := operationReadyAt c |}.

Definition with_ready (ready : gmap operation_id Z) (c : treasury) : treasury :=
  {| multisig := multisig c; operator := operator c; guardian := guardian c; minDelay := minDelay c;
     paused := paused c; allowedTokens := allowedTokens c; allowedRecipients := allowedRecipients c;
     dailySpendCap := dailySpendCap c; spentToday := spentToday c; lastSpendDay := lastSpendDay c;
     approvedSpendRemaining := approvedSpendRemaining c; operationReadyAt := ready |}.

(** The constructor. *)
Definition deploy (m g o : address) (delay : Z) : res string treasury :=
  guard* negb (m =? 0) or "FluxSwapTreasury: ZERO_ADDRESS" in
  guard* negb (g =? 0) or "FluxSwapTreasury: ZERO_ADDRESS" in
  guard* negb (o =? 0) or "FluxSwapTreasury: ZERO_ADDRESS" in
  guard* 0 <? delay or "FluxSwapTreasury: INVALID_DELAY" in
  Ok {| multisig := m; operator := o; guardian := g; minDelay := delay; paused := false;
        allowedTokens := ∅; allowedRecipients := ∅; dailySpendCap := ∅; spentToday := ∅;
        lastSpendDay := ∅; approvedSpendRemaining := ∅; operationReadyAt := ∅ |}.

(** ** Calls *)

(** Who calls and when; [external_ok] is whether the token or the recipient accepts. *)
Record env := { sender : address; now : Z; external_ok : bool }.

(** The events of the timelock, and what leaves the treasury. *)
Inductive event :=
| OperationScheduled (id : operation_id) (executeAfter : Z) (scheduler : address)
| OperationCancelled (id : operation_id) (canceller : address)
| OperationExecuted (id : operation_id) (executor : address)
| TransferredOut (token to : address) (amount : Z)
| Burned (token : address) (amount : Z).

Definition outcome : Type := res string (treasury * list event).

Definition u256 (z : Z) : res string Z :=
  guard* (0 <=? z) && (z <? 2 ^ 256) or "Panic(0x11)" in Ok z.

Definition onlyMultisig {A} (e : env) (c : treasury) (k : res string A) : res string A :=
  guard* sender e =? multisig c or "FluxSwapTreasury: FORBIDDEN" in k.
Definition onlyOperatorOrMultisig {A} (e : env) (c : treasury) (k : res string A) : res string A :=
  guard* (sender e =? operator c) || (sender e =? multisig c) or "FluxSwapTreasury: FORBIDDEN" in k.
Definition onlyGuardianOrMultisig {A} (e : env) (c : treasury) (k : res string A) : res string A :=
  guard* (sender e =? guardian c) || (sender e =? multisig c) or "FluxSwapTreasury: FORBIDDEN" in k.
Definition whenNotPaused {A} (c : treasury) (k : res string A) : res string A :=
  guard* negb (paused c) or "FluxSwapTreasury: PAUSED" in k.

(** [TransferHelper.safeTransfer], [safeTransferETH] (token zero) and [burn]. *)
Definition transfer_out (e : env) (token to : address) (amount : Z) (c : treasury) : outcome :=
  guard* external_ok e
  or (if token =? 0 then "TransferHelper: ETH_TRANSFER_FAILED" else "TransferHelper: TRANSFER_FAILED") in
  Ok (c, [TransferredOut token to amount]).

Definition pause (e : env) (c : treasury) : outcome :=
  onlyGuardianOrMultisig e c
    (guard* negb (paused c) or "FluxSwapTreasury: PAUSED" in
     Ok (with_roles (operator c) (guardian c) (minDelay c) true c, [])).

Definition unpause (e : env) (c : treasury) : outcome :=
  onlyMultisig e c
    (guard* paused c or "FluxSwapTreasury: NOT_PAUSED" in
     Ok (with_roles (operator c) (guardian c) (minDelay c) false c, [])).

Definition scheduleOperation (e : env) (id : operation_id) (delay : Z) (c : treasury) : outcome :=
  onlyMultisig e c
    (guard* negb (String.eqb id zero_operation) or "FluxSwapTreasury: INVALID_OPERATION" in
     guard* minDelay c <=? delay or "FluxSwapTreasury: DELAY_TOO_SHORT" in
     guard* at_ (operationReadyAt c) id =? 0 or "FluxSwapTreasury: OPERATION_EXISTS" in
     let* executeAfter := u256 (now e + delay) in
     Ok (with_ready (<[id := executeAfter]> (operationReadyAt c)) c,
         [OperationScheduled id executeAfter (sender e)])).

Definition cancelOperation (e : env) (id : operation_id) (c : treasury) : outcome :=
  onlyMultisig e c
    (guard* negb (at_ (operationReadyAt c) id =? 0) or "FluxSwapTreasury: UNKNOWN_OPERATION" in
     Ok (with_ready (delete id (operationReadyAt c)) c, [OperationCancelled id (sender e)])).

Definition _consumeOperation (e : env) (id expected : operation_id) (c : treasury) : outcome :=
  guard* String.eqb id expected or "FluxSwapTreasury: INVALID_OPERATION" in
  let readyAt := at_ (operationReadyAt c) id in
  guard* negb (readyAt =? 0) or "FluxSwapTreasury: UNKNOWN_OPERATION" in
  guard* readyAt <=? now e or "FluxSwapTreasury: OPERATION_NOT_READY" in
  Ok (with_ready (delete id (operationReadyAt c)) c, [OperationExecuted id (sender e)]).

(** [block.timestamp / 1 days] *)
Definition day (e : env) : Z := now e / 86400.

(** What is spent of the current day's cap. *)
Definition spent_on (d : Z) (token : address) (c : treasury) : Z :=
  if at_ (lastSpendDay c) token =? d then at_ (spentToday c) token else 0.

Definition _consumeCap (e : env) (token : address) (amount : Z) (c : treasury) : res string treasury :=
  let spent := spent_on (day e) token c in
  let cap := at_ (dailySpendCap c) token in
  guard* 0 <? cap or "FluxSwapTreasury: SPEND_CAP_NOT_SET" in
  let* total := u256 (spent + amount) in
  guard* total <=? cap or "FluxSwapTreasury: DAILY_CAP_EXCEEDED" in
  Ok (with_caps (dailySpendCap c) (<[token := total]> (spentToday c))
        (<[token := day e]> (lastSpendDay c)) (approvedSpendRemaining c) c).

Definition _consumeCapIfConfigured (e : env) (token : address) (amount : Z) (c : treasury)
  : res string treasury :=
  if at_ (dailySpendCap c) token =? 0 then Ok c else _consumeCap e token amount c.

Definition _consumeApprovedSpender (e : env) (token : address) (amount : Z) (c : treasury)
  : res string treasury :=
  guard* negb (token =? 0) or "FluxSwapTreasury: ZERO_ADDRESS" in
  guard* 0 <? amount or "FluxSwapTreasury: ZERO_AMOUNT" in
  let remaining := at_ (approvedSpendRemaining c) (token, sender e) in
  guard* amount <=? remaining or "FluxSwapTreasury: SPENDER_ALLOWANCE_EXCEEDED" in
  _consumeCapIfConfigured e token amount
    (with_caps (dailySpendCap c) (spentToday c) (lastSpendDay c)
       (<[(token, sender e) := remaining - amount]> (approvedSpendRemaining c)) c).

Definition allocate (e : env) (token to : address) (amount : Z) (c : treasury) : outcome :=
  onlyOperatorOrMultisig e c (whenNotPaused c
    (guard* is_ (allowedTokens c) token or "FluxSwapTreasury: TOKEN_NOT_ALLOWED" in
     guard* is_ (allowedRecipients c) to or "FluxSwapTreasury: RECIPIENT_NOT_ALLOWED" in
     let* c := _consumeCap e token amount c in
     transfer_out e token to amount c)).

Definition allocateETH (e : env) (to : address) (amount : Z) (c : treasury) : outcome :=
  onlyOperatorOrMultisig e c (whenNotPaused c
    (guard* is_ (allowedRecipients c) to or "FluxSwapTreasury: RECIPIENT_NOT_ALLOWED" in
     let* c := _consumeCap e 0 amount c in
     transfer_out e 0 to amount c)).

Definition consumeApprovedSpenderCap (e : env) (token : address) (amount : Z) (c : treasury) : outcome :=
  whenNotPaused c (let* c := _consumeApprovedSpender e token amount c in Ok (c, [])).

Definition pullApprovedToken (e : env) (token : address) (amount : Z) (c : treasury) : outcome :=
  whenNotPaused c
    (let* c := _consumeApprovedSpender e token amount c in
     transfer_out e token (sender e) amount c).

Definition burnApprovedToken (e : env) (token : address) (amount : Z) (c : treasury) : outcome :=
  whenNotPaused c
    (let* c := _consumeApprovedSpender e token amount c in
     guard* external_ok e or "burn reverted" in Ok (c, [Burned token amount])).

(** The check each [execute...] makes of its arguments before the timelock's. *)
Definition op_arguments_ok (o : timelock_op) : res string unit :=
  let nonzero (a : address) := negb (a =? 0) in
  match o with
  | SetOperator a | SetGuardian a | SetAllowedToken a _ | SetAllowedRecipient a _
  | EmergencyWithdrawETH a _ =>
    guard* nonzero a or "FluxSwapTreasury: ZERO_ADDRESS" in Ok tt
  | SetMinDelay d => guard* 0 <? d or "FluxSwapTreasury: INVALID_DELAY" in Ok tt
  | SetDailySpendCap _ _ => Ok tt
  | ApproveSpender t s _ | RevokeSpender t s | EmergencyWithdraw t s _ =>
    guard* nonzero t && nonzero s or "FluxSwapTreasury: ZERO_ADDRESS" in Ok tt
  end.

(** What it then does. *)
Definition op_effect (e : env) (o : timelock_op) (c : treasury) : outcome :=
  match o with
  | SetOperator a => Ok (with_roles a (guardian c) (minDelay c) (paused c) c, [])
  | SetGuardian a => Ok (with_roles (operator c) a (minDelay c) (paused c) c, [])
  | SetMinDelay d => Ok (with_roles (operator c) (guardian c) d (paused c) c, [])
  | SetAllowedToken t b => Ok (with_lists (<[t := b]> (allowedTokens c)) (allowedRecipients c) c, [])
  | SetAllowedRecipient r b => Ok (with_lists (allowedTokens c) (<[r := b]> (allowedRecipients c)) c, [])
  | SetDailySpendCap t cap =>
    Ok (with_caps (<[t := cap]> (dailySpendCap c)) (spentToday c) (lastSpendDay c)
          (approvedSpendRemaining c) c, [])
  | ApproveSpender t s amount =>
    Ok (with_caps (dailySpendCap c) (spentToday c) (lastSpendDay c)
          (<[(t, s) := amount]> (approvedSpendRemaining c)) c, [])
  | RevokeSpender t s =>
    Ok (with_caps (dailySpendCap c) (spentToday c) (lastSpendDay c)
          (delete (t, s) (approvedSpendRemaining c)) c, [])
  | EmergencyWithdraw t to amount => transfer_out e t to amount c
  | EmergencyWithdrawETH to amount => transfer_out e 0 to amount c
  end.

Inductive call :=
| Pause
| Unpause
| Schedule (id : operation_id) (delay : Z)
| Cancel (id : operation_id)
| Execute (o : timelock_op) (id : operation_id)
| Allocate (token to : address) (amount : Z)
| AllocateETH (to : address) (amount : Z)
| ConsumeCap (token : address) (amount : Z)
| Pull (token : address) (amount : Z)
| Burn (token : address) (amount : Z).

Section calls.
Context `{OperationHash}.

Definition executeOperation (e : env) (o : timelock_op) (id : operation_id) (c : treasury) : outcome :=
  let* _ := op_arguments_ok o in
  let* r := _consumeOperation e id (op_hash o) c in
  let* r' := op_effect e o (fst r) in
  Ok (fst r', (snd r ++ snd r')%list).

Definition exec (e : env) (k : call) (c : treasury) : outcome :=
  match k with
  | Pause => pause e c
  | Unpause => unpause e c
  | Schedule id delay => scheduleOperation e id delay c
  | Cancel id => cancelOperation e id c
  | Execute o id => executeOperation e o id c
  | Allocate t to amount => allocate e t to amount c
  | AllocateETH to amount => allocateETH e to amount c
  | ConsumeCap t amount => consumeApprovedSpenderCap e t amount c
  | Pull t amount => pullApprovedToken e t amount c
  | Burn t amount => burnApprovedToken e t amount c
  end.

(** ** Traces *)

(** A successful call, with the delay that was in force. *)
Record step := { st_env : env; st_call : call; st_minDelay : Z }.

(** The states of a treasury and their histories, newest call first; time does not go
    back and starts after the epoch. *)
Inductive reach : treasury -> list step -> Prop :=
| reach_deploy m g o delay c : deploy m g o delay = Ok c -> reach c []
| reach_step c h e k c' evs :
    reach c h ->
    0 < now e -> Forall (fun s => now (st_env s) <= now e) h ->
    exec e k c = Ok (c', evs) ->
    reach c' ({| st_env := e; st_call := k; st_minDelay := minDelay c |} :: h).

Definition schedules (id : operation_id) (s : step) : bool :=
  match st_call s with Schedule i _ => String.eqb i id | _ => false end.
Definition settles (id : operation_id) (s : step) : bool :=
  match st_call s with Cancel i | Execute _ i => String.eqb i id | _ => false end.
End calls.

(** ** The timelock *)

Ltac ok_inv H :=
  repeat match type of H with
  | res_bind _ _ = Ok _ =>
    let x := fresh "x" in let Hx := fresh "Hx" in apply res_bind_Ok in H as (x & Hx & H)
  | (if ?b then _ else Throw _) = Ok _ => let Hb := fresh "Hb" in destruct b eqn:Hb; [|done]
  end.

(** What a call may do to the timelock. *)
Definition ready_after (k : call) (e : env) (m : gmap operation_id Z) : gmap operation_id Z :=
  match k with
  | Schedule id delay => <[id := now e + delay]> m
  | Cancel id | Execute _ id => delete id m
  | _ => m
  end.

Lemma checked_u256_Ok z x : u256 z = Ok x -> x = z /\ 0 <= z < 2 ^ 256.
Proof. unfold u256. intros H. ok_inv H. bool_solve. simplify_eq. lia. Qed.

Section timelock.
Context `{OperationHash}.

Lemma consumeCap_ready e t amount c c' :
  _consumeCap e t amount c = Ok c' ->
  operationReadyAt c' = operationReadyAt c /\ multisig c' = multisig c /\ minDelay c' = minDelay c.
Proof. unfold _consumeCap. intros Hc. ok_inv Hc. by simplify_eq. Qed.

Lemma consumeApproved_ready e t amount c c' :
  _consumeApprovedSpender e t amount c = Ok c' ->
  operationReadyAt c' = operationReadyAt c /\ multisig c' = multisig c /\ minDelay c' = minDelay c.
Proof.
  unfold _consumeApprovedSpender, _consumeCapIfConfigured. intros Hc. ok_inv Hc.
  case_in Hc; [by simplify_eq|]. by apply consumeCap_ready in Hc.
Qed.

Lemma transfer_out_ready e t to amount c r : transfer_out e t to amount c = Ok r -> fst r = c.
Proof. unfold transfer_out. intros Hc. ok_inv Hc. by simplify_eq. Qed.

Lemma op_effect_ready e o c r :
  op_effect e o c = Ok r ->
  operationReadyAt (fst r) = operationReadyAt c /\ multisig (fst r) = multisig c
  /\ (minDelay (fst r) = minDelay c \/ o = SetMinDelay (minDelay (fst r))).
Proof.
  destruct o; simpl; intros Hc; simplify_eq; simpl; auto; apply transfer_out_ready in Hc; subst; auto.
Qed.

Lemma op_arguments_delay d r : op_arguments_ok (SetMinDelay d) = Ok r -> 0 < d.
Proof. simpl. intros Hc. ok_inv Hc. by bool_solve. Qed.

(** Every successful call acts on the timelock as [ready_after] says, keeps the
    multisig, and keeps the minimal delay positive. *)
Lemma exec_ready e k c c' evs :
  exec e k c = Ok (c', evs) ->
  operationReadyAt c' = ready_after k e (operationReadyAt c)
  /\ multisig c' = multisig c /\ (0 < minDelay c -> 0 < minDelay c').
Proof.
  intros Hc. destruct k; simpl in Hc.
  - unfold pause, onlyGuardianOrMultisig in Hc. ok_inv Hc. by simplify_eq.
  - unfold unpause, onlyMultisig in Hc. ok_inv Hc. by simplify_eq.
  - unfold scheduleOperation, onlyMultisig in Hc. ok_inv Hc.
    match goal with Hu : u256 _ = Ok _ |- _ => apply checked_u256_Ok in Hu as [-> _] end. by simplify_eq.
  - unfold cancelOperation, onlyMultisig in Hc. ok_inv Hc. by simplify_eq.
  - unfold executeOperation in Hc. apply res_bind_Ok in Hc as ([] & Ha & Hc).
    apply res_bind_Ok in Hc as (r & Hr & Hc). apply res_bind_Ok in Hc as (r' & Hr' & Hc).
    unfold _consumeOperation in Hr. ok_inv Hr. simplify_eq.
    apply op_effect_ready in Hr' as (-> & -> & Hd). simpl in *. split_and!; [done|done|].
    intros Hp. destruct Hd as [->|Hd]; [done|]. rewrite Hd in Ha. by eapply op_arguments_delay.
  - unfold allocate, onlyOperatorOrMultisig, whenNotPaused in Hc. ok_inv Hc.
    apply transfer_out_ready in Hc. simpl in Hc. subst. apply consumeCap_ready in Hx as (-> & -> & ->). done.
  - unfold allocateETH, onlyOperatorOrMultisig, whenNotPaused in Hc. ok_inv Hc.
    apply transfer_out_ready in Hc. simpl in Hc. subst. apply consumeCap_ready in Hx as (-> & -> & ->). done.
  - unfold consumeApprovedSpenderCap, whenNotPaused in Hc. ok_inv Hc. simplify_eq.
    apply consumeApproved_ready in Hx as (-> & -> & ->). done.
  - unfold pullApprovedToken, whenNotPaused in Hc. ok_inv Hc.
    apply transfer_out_ready in Hc. simpl in Hc. subst.
    apply consumeApproved_ready in Hx as (-> & -> & ->). done.
  - unfold burnApprovedToken, whenNotPaused in Hc. ok_inv Hc. simplify_eq.
    apply consumeApproved_ready in Hx as (-> & -> & ->). done.
Qed.

Lemma schedule_Ok e id delay c r :
  exec e (Schedule id delay) c = Ok r ->
  sender e = multisig c /\ minDelay c <= delay /\ at_ (operationReadyAt c) id = 0.
Proof.
  simpl. unfold scheduleOperation, onlyMultisig. intros Hc. ok_inv Hc. by bool_solve.
Qed.

Lemma settle_Ok e k id c r :
  exec e k c = Ok r -> (k = Cancel id \/ exists o, k = Execute o id) ->
  at_ (operationReadyAt c) id <> 0.
Proof.
  intros Hc [->|[o ->]]; simpl in Hc.
  - unfold cancelOperation, onlyMultisig in Hc. ok_inv Hc. by bool_solve.
  - unfold executeOperation, _consumeOperation in Hc. ok_inv Hc. ok_inv Hx0. by bool_solve.
Qed.

Definition count (p : step -> bool) (h : list step) : nat := length (keep p h).

(** A pending operation was scheduled by the multisig with at least the delay then in
    force; and it is pending exactly when it was scheduled once more than settled. *)
Definition timelock_inv (c : treasury) (h : list step) : Prop :=
  0 < minDelay c
  /\ (forall id r, operationReadyAt c !! id = Some r ->
        0 < r /\ exists s delay, s ∈ h /\ st_call s = Schedule id delay
          /\ sender (st_env s) = multisig c /\ 0 < st_minDelay s <= delay
          /\ r = now (st_env s) + delay)
  /\ forall id, count (schedules id) h
       = (count (settles id) h + match operationReadyAt c !! id with Some _ => 1 | None => 0 end)%nat.

Lemma inv_schedule e id delay c h c' evs :
  timelock_inv c h -> 0 < now e -> exec e (Schedule id delay) c = Ok (c', evs) ->
  timelock_inv c' ({| st_env := e; st_call := Schedule id delay; st_minDelay := minDelay c |} :: h).
Proof.
  intros (Hd & Hr & Hn) He Hc. pose proof (exec_ready _ _ _ _ _ Hc) as (Hready & Hm & Hdel).
  pose proof (schedule_Ok _ _ _ _ _ Hc) as (Hs & Hle & Hz). simpl in Hready. split; [auto|]. split.
  - intros i r Hi. rewrite Hready in Hi. apply lookup_insert_Some in Hi as [[<- <-]|[Hne Hi]].
    + split; [lia|]. eexists _, delay. split; [by left|]. rewrite Hm. simpl. split_and!; [done|done|lia|lia|done].
    + destruct (Hr i r Hi) as (Hp & s & d & Hin & ?). split; [done|]. exists s, d.
      split; [by right|]. by rewrite Hm.
  - intros i. rewrite Hready. specialize (Hn i). unfold count in *. cbn [keep].
    change (schedules i {| st_env := e; st_call := Schedule id delay; st_minDelay := minDelay c |})
      with (String.eqb id i).
    change (settles i {| st_env := e; st_call := Schedule id delay; st_minDelay := minDelay c |})
      with false. destruct (String.eqb_spec id i) as [->|Hne].
    + rewrite lookup_insert_eq. cbn [length]. rewrite Hn.
      destruct (operationReadyAt c !! i) as [r|] eqn:E; [|lia].
      destruct (Hr i r E) as [Hp _]. unfold at_ in Hz. rewrite E in Hz. simpl in Hz. lia.
    + by rewrite lookup_insert_ne.
Qed.

Lemma inv_settle e k id c h c' evs :
  timelock_inv c h -> (k = Cancel id \/ exists o, k = Execute o id) ->
  exec e k c = Ok (c', evs) ->
  timelock_inv c' ({| st_env := e; st_call := k; st_minDelay := minDelay c |} :: h).
Proof.
  intros (Hd & Hr & Hn) Hk Hc. pose proof (exec_ready _ _ _ _ _ Hc) as (Hready & Hm & Hdel).
  pose proof (settle_Ok _ _ _ _ _ Hc Hk) as Hnz.
  assert (operationReadyAt c' = delete id (operationReadyAt c)) as Hready'.
  { by destruct Hk as [->|[o ->]]. }
  assert (forall i, settles i {| st_env := e; st_call := k; st_minDelay := minDelay c |}
                    = String.eqb id i) as Hset by (by destruct Hk as [->|[o ->]]).
  assert (forall i, schedules i {| st_env := e; st_call := k; st_minDelay := minDelay c |}
                    = false) as Hsch by (by destruct Hk as [->|[o ->]]).
  split; [auto|]. split.
  - intros i r Hi. rewrite Hready' in Hi. apply lookup_delete_Some in Hi as [_ Hi].
    destruct (Hr i r Hi) as (Hp & s & d & Hin & ?). split; [done|]. exists s, d.
    split; [by right|]. by rewrite Hm.
  - intros i. rewrite Hready'. specialize (Hn i). unfold count in *. simpl. rewrite Hset, Hsch.
    destruct (String.eqb_spec id i) as [->|Hne].
    + rewrite lookup_delete_eq. simpl. unfold at_ in Hnz.
      destruct (operationReadyAt c !! i); [lia|done].
    + by rewrite lookup_delete_ne.
Qed.

Lemma reach_inv c h : reach c h -> timelock_inv c h.
Proof.
  induction 1 as [m g o delay c Hdep|c h e k c' evs _ IH He _ Hc].
  - unfold deploy in Hdep. ok_inv Hdep. simplify_eq. bool_solve.
    split; [done|]. split; [intros ? ? Hi|intros ?]; simpl in *; by rewrite ?lookup_empty in *.
  - destruct k as [| |id delay|id|o id| | | | |]; try by eapply inv_schedule.
    all: try (eapply (inv_settle e _ id); eauto; fail).
    all: destruct (exec_ready _ _ _ _ _ Hc) as (Hready & Hm & Hdel); simpl in Hready;
      destruct IH as (Hd & Hr & Hn); split; [auto|]; split;
      [intros i r Hi; rewrite Hready in Hi; destruct (Hr i r Hi) as (Hp & s & d & Hin & ?);
       split; [done|]; exists s, d; split; [by right|]; by rewrite Hm
      |intros i; rewrite Hready; apply Hn].
Qed.

(** C36.  The timelock: whatever calls are made from deployment on, an operation that
    executes is the one its id hashes, was scheduled by the multisig with at least the
    minimal delay then in force and that delay has passed, and it executes at most as
    often as it was scheduled and not cancelled. *)
Theorem timelock_safe c h e o id c' evs :
  reach c h -> exec e (Execute o id) c = Ok (c', evs) ->
  id = op_hash o
  /\ (exists s delay, s ∈ h /\ st_call s = Schedule id delay /\ sender (st_env s) = multisig c
        /\ 0 < st_minDelay s <= delay /\ now (st_env s) + delay <= now e)
  /\ (count (settles id) h < count (schedules id) h)%nat.
Proof.
  intros Hr Hc. destruct (reach_inv c h Hr) as (_ & Hp & Hn). specialize (Hn id).
  simpl in Hc. unfold executeOperation, _consumeOperation in Hc. ok_inv Hc. ok_inv Hx0. bool_solve.
  split; [done|]. unfold at_ in *.
  destruct (operationReadyAt c !! id) as [r|] eqn:E; [|done]. simpl in *.
  split; [|lia]. destruct (Hp id r E) as (_ & s & d & Hin & Hs & Hsd & Hdl & ->).
  exists s, d. split_and!; done || lia.
Qed.
End timelock.

(** ** What a client relies on *)

Section promises.
Context `{OperationHash}.

(** A pending operation whose arguments pass the contract's own check executes once its
    time has come, whoever calls. *)
Lemma execute_when_ready e o r c :
  op_arguments_ok o = Ok tt -> operationReadyAt c !! op_hash o = Some r -> 0 < r <= now e ->
  external_ok e = true ->
  exists c1 evs,
    op_effect e o (with_ready (delete (op_hash o) (operationReadyAt c)) c) = Ok (c1, evs)
    /\ exec e (Execute o (op_hash o)) c = Ok (c1, OperationExecuted (op_hash o) (sender e) :: evs).
Proof.
  intros Ha Hr [Hp Hn] He. simpl. unfold executeOperation, _consumeOperation. rewrite Ha. simpl.
  rewrite String.eqb_refl. unfold at_. rewrite Hr. simpl.
  destruct (Z.eqb_spec r 0); [lia|]. destruct (Z.leb_spec r (now e)); [|lia]. simpl.
  destruct (op_effect e o _) as [[c1 evs]|err] eqn:E; [by exists c1, evs|].
  exfalso. destruct o; simpl in E; try done; unfold transfer_out in E; by rewrite He in E.
Qed.

Lemma execute_too_early e o r c :
  op_arguments_ok o = Ok tt -> operationReadyAt c !! op_hash o = Some r -> now e < r -> r <> 0 ->
  exec e (Execute o (op_hash o)) c = Throw "FluxSwapTreasury: OPERATION_NOT_READY".
Proof.
  intros Ha Hr Hlt Hz. simpl. unfold executeOperation, _consumeOperation. rewrite Ha. simpl.
  rewrite String.eqb_refl. unfold at_. rewrite Hr. simpl.
  destruct (Z.eqb_spec r 0); [lia|]. by destruct (Z.leb_spec r (now e)); [lia|].
Qed.

Lemma schedule_accepted e id delay c :
  sender e = multisig c -> id <> zero_operation -> minDelay c <= delay ->
  at_ (operationReadyAt c) id = 0 -> 0 <= now e + delay < 2 ^ 256 ->
  exec e (Schedule id delay) c
  = Ok (with_ready (<[id := now e + delay]> (operationReadyAt c)) c,
        [OperationScheduled id (now e + delay) (sender e)]).
Proof.
  intros Hs Hz Hd Hr [Ht Ht']. simpl. unfold scheduleOperation, onlyMultisig, u256.
  rewrite Hs, Z.eqb_refl, Hr, Z.eqb_refl. destruct (String.eqb_spec id zero_operation); [done|].
  apply Z.leb_le in Hd, Ht. apply Z.ltb_lt in Ht'. by rewrite Hd, Ht, Ht'.
Qed.
End promises.

(** ** A concrete hash *)

Definition op_code (o : timelock_op) : nat * list Z :=
  match o with
  | SetOperator a => (0%nat, [a])
  | SetGuardian a => (1%nat, [a])
  | SetMinDelay d => (2%nat, [d])
  | SetAllowedToken t b => (3%nat, [t; if b then 1 else 0])
  | SetAllowedRecipient r b => (4%nat, [r; if b then 1 else 0])
  | SetDailySpendCap t a => (5%nat, [t; a])
  | ApproveSpender t s a => (6%nat, [t; s; a])
  | RevokeSpender t s => (7%nat, [t; s])
  | EmergencyWithdraw t r a => (8%nat, [t; r; a])
  | EmergencyWithdrawETH r a => (9%nat, [r; a])
  end.

Lemma op_code_inj o1 o2 : op_code o1 = op_code o2 -> o1 = o2.
Proof.
  destruct o1, o2; simpl; intros [= ]; subst; try done; f_equal;
    repeat match goal with b : bool |- _ => destruct b end; done.
Qed.

Definition sample_op_hash (o : timelock_op) : operation_id := "0b" ++ pos_bits (encode (op_code o)).

Lemma sample_op_hash_inj o1 o2 : sample_op_hash o1 = sample_op_hash o2 -> o1 = o2.
Proof.
  intros Hh. injection Hh as Hh. apply pos_bits_inj in Hh. apply (inj encode) in Hh.
  by apply op_code_inj.
Qed.

Lemma sample_op_hash_nonzero o : sample_op_hash o <> zero_operation.
Proof. discriminate. Qed.

#[local] Instance sample_hash : OperationHash :=
  {| op_hash := sample_op_hash; op_hash_inj := sample_op_hash_inj;
     op_hash_nonzero := sample_op_hash_nonzero |}.

Definition sample_env (s t : Z) : env := {| sender := s; now := t; external_ok := true |}.

Definition sample_treasury : treasury :=
  {| multisig := 1; operator := 3; guardian := 2; minDelay := 60; paused := false;
     allowedTokens := ∅; allowedRecipients := ∅; dailySpendCap := ∅; spentToday := ∅;
     lastSpendDay := ∅; approvedSpendRemaining := ∅; operationReadyAt := ∅ |}.

Definition sample_step : step :=
  {| st_env := sample_env 1 100; st_call := Schedule (op_hash (SetOperator 7)) 90; st_minDelay := 60 |}.

Lemma timelock_safe_witness :
  exists s delay, s ∈ [sample_step] /\ st_call s = Schedule (op_hash (SetOperator 7)) delay
    /\ now (st_env s) + delay <= 200.
Proof.
  destruct (timelock_safe
    (with_ready (<[op_hash (SetOperator 7) := 190]> ∅) sample_treasury) [sample_step]
    (sample_env 9 200) (SetOperator 7) (op_hash (SetOperator 7))
    (with_roles 7 2 60 false (with_ready (delete (op_hash (SetOperator 7))
       (<[op_hash (SetOperator 7) := 190]> ∅)) sample_treasury))
    [OperationExecuted (op_hash (SetOperator 7)) 9]) as (_ & (s & d & Hin & Hs & _ & _ & Ht) & _).
  - change sample_step with
      {| st_env := sample_env 1 100; st_call := Schedule (op_hash (SetOperator 7)) 90;
         st_minDelay := minDelay sample_treasury |}.
    eapply (reach_step sample_treasury).
    + apply (reach_deploy 1 2 3 60). reflexivity.
    + cbn. lia.
    + constructor.
    + vm_compute. reflexivity.
  - vm_compute. reflexivity.
  - eauto.
Defined.
