(* ===== verification/TreasuryAbi.v ===== *)
(** * Calls to the treasury (admin-frontend/src/lib/contracts, fluxSwapTreasuryAbi)

    What a call the administration client writes, a function name and arguments, is
    to the contract of TreasuryContract.v.  The encoding of single arguments is viem's:
    the class [AbiEncoder] states what the client relies on. *)

From S2P Require Import Prelude JsString JsValue JsError TreasuryContract.
From Stdlib Require Import Ascii.
Open Scope string_scope.
Open Scope Z_scope.
Open Scope flux_scope.

(** ** Encoding arguments *)

(** [encodeAbiParameters], one kind of parameter at a time: it throws on an address
    whose text is malformed or whose checksum is wrong, on an integer out of range and
    on what is not a boolean; and [isAddress]. *)
Class AbiEncoder `{OperationHash} := {
  isAddress : string -> bool;
  encodeAddress : jsval -> res js_error address;
  encodeBool : jsval -> res js_error bool;
  encodeUint256 : jsval -> res js_error Z;
  encodeBytes32 : jsval -> res js_error operation_id;
  isAddress_encodes a : isAddress a = true -> address_text a /\ is_ok (encodeAddress (VStr a)) = true;
  encodeAddress_text a z : encodeAddress (VStr a) = Ok z -> address_text a /\ z = address_value a;
  encodeBool_bool b : encodeBool (VBool b) = Ok b;
  encodeUint256_range z : encodeUint256 (VBig z) = Ok z <-> 0 <= z < 2 ^ 256;
  encodeUint256_value z n : encodeUint256 (VBig z) = Ok n -> n = z;
  encodeBytes32_hash o : encodeBytes32 (VStr (op_hash o)) = Ok (op_hash o);
}.

(** ** The functions of the contract *)

(** What [writeContractAsync] is given. *)
Record write_request := {
  w_address : string;
  w_functionName : string;
  w_args : list jsval;
  w_gas : option Z;
}.

Section calls.
Context `{AbiEncoder}.

Definition arguments_mismatch : js_error := Error "ABI encoding params/values length mismatch.".

Definition one_address (k : address -> timelock_op) (args : list jsval) : res js_error timelock_op :=
  match args with
  | [a] => let* a := encodeAddress a in Ok (k a)
  | _ => Throw arguments_mismatch
  end.
Definition address_bool (k : address -> bool -> timelock_op) (args : list jsval) : res js_error timelock_op :=
  match args with
  | [a; b] => let* a := encodeAddress a in let* b := encodeBool b in Ok (k a b)
  | _ => Throw arguments_mismatch
  end.
Definition address_uint (k : address -> Z -> timelock_op) (args : list jsval) : res js_error timelock_op :=
  match args with
  | [a; n] => let* a := encodeAddress a in let* n := encodeUint256 n in Ok (k a n)
  | _ => Throw arguments_mismatch
  end.
Definition two_addresses (k : address -> address -> timelock_op) (args : list jsval)
  : res js_error timelock_op :=
  match args with
  | [a; b] => let* a := encodeAddress a in let* b := encodeAddress b in Ok (k a b)
  | _ => Throw arguments_mismatch
  end.
Definition two_addresses_uint (k : address -> address -> Z -> timelock_op) (args : list jsval)
  : res js_error timelock_op :=
  match args with
  | [a; b; n] =>
    let* a := encodeAddress a in let* b := encodeAddress b in let* n := encodeUint256 n in Ok (k a b n)
  | _ => Throw arguments_mismatch
  end.
Definition one_uint (k : Z -> timelock_op) (args : list jsval) : res js_error timelock_op :=
  match args with
  | [n] => let* n := encodeUint256 n in Ok (k n)
  | _ => Throw arguments_mismatch
  end.

(** The operations, by the name that follows [hash] and [execute] in the two functions
    of each. *)
Definition treasury_operations : list (string * (list jsval -> res js_error timelock_op)) :=
  [("SetAllowedToken", address_bool SetAllowedToken);
   ("SetAllowedRecipient", address_bool SetAllowedRecipient);
   ("SetDailySpendCap", address_uint SetDailySpendCap);
   ("ApproveSpender", two_addresses_uint ApproveSpender);
   ("RevokeSpender", two_addresses RevokeSpender);
   ("SetGuardian", one_address SetGuardian);
   ("SetOperator", one_address SetOperator);
   ("SetMinDelay", one_uint SetMinDelay);
   ("EmergencyWithdraw", two_addresses_uint EmergencyWithdraw);
   ("EmergencyWithdrawETH", address_uint EmergencyWithdrawETH)].

Definition operation_of (prefix functionName : string)
  : option (list jsval -> res js_error timelock_op) :=
  snd <$> find_first (fun e => String.eqb functionName (prefix ++ fst e)) treasury_operations.

(** The operation a [hash...] call is about. *)
Definition hashed_operation (functionName : string) (args : list jsval) : res js_error timelock_op :=
  match operation_of "hash" functionName with
  | Some f => f args
  | None => Throw (Error ("Function " ++ functionName ++ " not found on ABI."))
  end.

(** The call the contract receives. *)
Definition call_of_write (w : write_request) : res js_error call :=
  match operation_of "execute" (w_functionName w), rev (w_args w) with
  | Some f, id :: rest =>
    let* o := f (rev rest) in let* id := encodeBytes32 id in Ok (Execute o id)
  | Some _, [] => Throw arguments_mismatch
  | None, _ =>
    match w_functionName w, w_args w with
    | "pause", [] => Ok Pause
    | "unpause", [] => Ok Unpause
    | "scheduleOperation", [id; delay] =>
      let* id := encodeBytes32 id in let* delay := encodeUint256 delay in Ok (Schedule id delay)
    | "cancelOperation", [id] => let* id := encodeBytes32 id in Ok (Cancel id)
    | "allocate", [t; a; n] =>
      let* t := encodeAddress t in let* a := encodeAddress a in let* n := encodeUint256 n in
      Ok (Allocate t a n)
    | "allocateETH", [a; n] =>
      let* a := encodeAddress a in let* n := encodeUint256 n in Ok (AllocateETH a n)
    | _, _ => Throw arguments_mismatch
    end
  end.

(** Executing an operation with the arguments its hash was read with. *)
Lemma call_of_execute name f args o w :
  operation_of "execute" (w_functionName w) = Some f -> operation_of "hash" name = Some f ->
  hashed_operation name args = Ok o -> w_args w = (args ++ [VStr (op_hash o)])%list ->
  call_of_write w = Ok (Execute o (op_hash o)).
Proof.
  intros He Hh Ho Hw. unfold call_of_write, hashed_operation in *. rewrite Hh in Ho.
  rewrite He, Hw, rev_app_distr. cbn [rev app]. rewrite rev_involutive, Ho. cbn.
  by rewrite encodeBytes32_hash.
Qed.

Lemma encodeUint256_Ok z n : encodeUint256 (VBig z) = Ok n -> n = z /\ 0 <= z < 2 ^ 256.
Proof.
  intros Hn. pose proof (encodeUint256_value z n Hn) as ->. split; [done|]. by apply encodeUint256_range.
Qed.
End calls.

(** ** An encoder *)

(** The plain one: addresses in hexadecimal, checksums not looked at. *)
Definition sample_encodeAddress (v : jsval) : res js_error address :=
  match v with
  | VStr a =>
    match to_lower a with
    | String c (String x t) =>
      if Ascii.eqb c "0" && Ascii.eqb x "x" && Nat.eqb (String.length t) 40 && all_chars is_hex_lower t
      then Ok (address_value a) else Throw (Error "Address is invalid.")
    | _ => Throw (Error "Address is invalid.")
    end
  | _ => Throw (Error "Address is invalid.")
  end.
Definition sample_encodeBool (v : jsval) : res js_error bool :=
  match v with VBool b => Ok b | _ => Throw (Error "Invalid boolean value.") end.
Definition sample_encodeUint256 (v : jsval) : res js_error Z :=
  match v with
  | VBig z => if (0 <=? z) && (z <? 2 ^ 256) then Ok z else Throw (Error "Number is not in safe range.")
  | _ => Throw (Error "Invalid number value.")
  end.
Definition sample_encodeBytes32 (v : jsval) : res js_error operation_id :=
  match v with VStr id => Ok id | _ => Throw (Error "Invalid bytes value.") end.

Lemma sample_encodeAddress_text a z :
  sample_encodeAddress (VStr a) = Ok z -> address_text a /\ z = address_value a.
Proof.
  unfold sample_encodeAddress, address_text. intros Ha.
  destruct (to_lower a) as [|c [|x t]] eqn:El; try done. case_in Ha; simplify_eq. bool_solve.
  repeat match goal with E : Ascii.eqb _ _ = true |- _ => apply Ascii.eqb_eq in E as -> end.
  split; [|done]. exists t. split; [done|]. split; [by apply Nat.eqb_eq|done].
Qed.

Lemma sample_encodeUint256_range z : sample_encodeUint256 (VBig z) = Ok z <-> 0 <= z < 2 ^ 256.
Proof.
  cbn. destruct (_ && _) eqn:E.
  - bool_solve. split; [lia|done].
  - split; [done|]. intros [H1 H2]. apply Z.leb_le in H1. apply Z.ltb_lt in H2.
    by rewrite H1, H2 in E.
Qed.

Lemma sample_encodeUint256_value z n : sample_encodeUint256 (VBig z) = Ok n -> n = z.
Proof. cbn. destruct (_ && _); [by intros [= ->]|done]. Qed.

Lemma sample_isAddress_encodes a :
  is_ok (sample_encodeAddress (VStr a)) = true ->
  address_text a /\ is_ok (sample_encodeAddress (VStr a)) = true.
Proof.
  intros Ha. split; [|done]. destruct (sample_encodeAddress (VStr a)) as [z|e] eqn:E; [|done].
  by apply sample_encodeAddress_text in E as [? _].
Qed.

Definition sample_abi `{OperationHash} : AbiEncoder := {|
  isAddress a := is_ok (sample_encodeAddress (VStr a));
  encodeAddress := sample_encodeAddress;
  encodeBool := sample_encodeBool;
  encodeUint256 := sample_encodeUint256;
  encodeBytes32 := sample_encodeBytes32;
  isAddress_encodes := sample_isAddress_encodes;
  encodeAddress_text := sample_encodeAddress_text;
  encodeBool_bool b := eq_refl;
  encodeUint256_range := sample_encodeUint256_range;
  encodeUint256_value := sample_encodeUint256_value;
  encodeBytes32_hash o := eq_refl;
|}.
