(* ===== verification/TreasuryForms.v ===== *)
(** * The treasury operation form (admin-frontend/src/components/treasury)

    TreasuryTypes.ts, TreasuryUtils.ts, TreasuryOperationDraft.ts,
    TreasuryOperationExecution.ts and TreasuryAllocationSubmit.ts: from the fields of
    the form to the record of an operation, from a record, which may come back from
    the browser's storage or from the backend, to the transaction that executes it,
    and the direct allocation of an asset.  The chain node, viem's encoding and amount
    parsing, and the locale-dependent number formats are parameters. *)

From S2P Require Import Prelude JsString JsNumber JsValue JsError JsSort Amounts.
From S2P Require Import TreasuryContract TreasuryAbi.
Open Scope string_scope.
Open Scope Z_scope.
Open Scope flux_scope.

(** ** Data (TreasuryTypes.ts) *)

Inductive TreasuryOperationKind :=
| setAllowedToken | setAllowedRecipient | setDailySpendCap | approveSpender | revokeSpender
| setGuardian | setOperator | setMinDelay | emergencyWithdraw | emergencyWithdrawETH.

Definition kind_code (k : TreasuryOperationKind) : string :=
  match k with
  | setAllowedToken => "setAllowedToken"
  | setAllowedRecipient => "setAllowedRecipient"
  | setDailySpendCap => "setDailySpendCap"
  | approveSpender => "approveSpender"
  | revokeSpender => "revokeSpender"
  | setGuardian => "setGuardian"
  | setOperator => "setOperator"
  | setMinDelay => "setMinDelay"
  | emergencyWithdraw => "emergencyWithdraw"
  | emergencyWithdrawETH => "emergencyWithdrawETH"
  end.

Record TreasuryInfo := {
  ti_address : string;
  ti_multisig : string;
  ti_guardian : string;
  ti_operator : string;
  ti_minDelay : Z;
  ti_paused : bool;
}.

Record AdminTokenOption := {
  tk_symbol : string;
  tk_name : string;
  tk_decimals : Z;
  tk_address : string;
}.

Record TreasuryTokenRow := {
  tr_token : AdminTokenOption;
  tr_balance : Z;
  tr_approvedSpendRemaining : Z;
  tr_dailySpendCap : Z;
  tr_spentToday : Z;
  tr_allowed : bool;
  tr_isNative : bool;
}.

Inductive operation_status := pending | ready.
#[export] Instance operation_status_eq_dec : EqDecision operation_status.
Proof. solve_decision. Defined.

Inductive operation_source := chain | backend.
#[export] Instance operation_source_eq_dec : EqDecision operation_source.
Proof. solve_decision. Defined.

(** The metadata of a row is a dynamic value, read back from storage; undefined when it
    is missing. *)
Record TreasuryOperationRow := {
  or_operationId : string;
  or_executeAfter : Z;
  or_scheduler : option string;
  or_status : operation_status;
  or_blockNumber : Z;
  or_metadata : jsval;
  or_source : operation_source;
}.

(** A row of the backend (AdminTreasuryOperation of admin-api.ts), the fields that are
    read. *)
Record AdminTreasuryOperation := {
  ao_operationId : string;
  ao_chainId : num;
  ao_treasuryAddress : string;
  ao_operationTypeCode : string;
  ao_operationTypeLabel : string;
  ao_statusCode : string;
  ao_proposerAddress : string;
  ao_readyAt : option string;
  ao_params : jsval;
  ao_summary : option string;
  ao_createdAt : string;
}.

Inductive modal_kind := success | error.
Record ResultModal := { modal_type : modal_kind; modal_title : string; modal_message : string }.
Definition error_modal (title message : string) : ResultModal :=
  {| modal_type := error; modal_title := title; modal_message := message |}.

(** ** Helpers (AdminPrimitives.tsx, TreasuryUtils.ts) *)

(** [s.slice(-n)], for texts of single-byte characters. *)
Definition last_chars (n : nat) (s : string) : string :=
  String.substring (String.length s - n) n s.

Definition shortAddress (address : string) : string :=
  if negb (str_nonempty address) then "--"
  else take_chars 6 address ++ "..." ++ last_chars 4 address.

Definition EVENT_LOOKBACK_BLOCKS : Z := 999.

Definition sameAddress (left right : option string) : bool :=
  match left, right with
  | Some l, Some r =>
    str_nonempty l && str_nonempty r && String.eqb (to_lower l) (to_lower r)
  | _, _ => false
  end.

Definition formatDuration (seconds : Z) : string :=
  if seconds <=? 0 then "无延迟"
  else
    let minutes := num_of_Z (Z.quot seconds 60) in
    let hours := num_of_Z (Z.quot seconds 3600) in
    if num_leb (num_of_Z 24) hours
    then num_to_string (num_round (num_div hours (num_of_Z 24))) ++ " 天"
    else if num_leb (num_of_Z 1) hours then num_to_string hours ++ " 小时"
    else (if truthy (VNum minutes) then num_to_string minutes else "1") ++ " 分钟".

(** [new Date(ms).toLocaleString(..)] is the parameter. *)
Definition formatUnixTime (toLocaleDate : num -> string) (seconds : Z) : string :=
  if seconds <=? 0 then "--" else toLocaleDate (num_mul (num_of_Z seconds) (num_of_Z 1000)).

Definition formatTokenAmount (formatUnits : Z -> Z -> string) (value : Z) (token : AdminTokenOption)
    (fractionDigits : nat) : string :=
  admin_formatBigIntAmountDown formatUnits (Some value) (tk_decimals token) fractionDigits
  ++ " " ++ tk_symbol token.

Definition getDailySpendRatio (token : TreasuryTokenRow) : option num :=
  if tr_dailySpendCap token <=? 0 then None
  else
    let ratio := num_div (num_of_Z (Z.quot (tr_spentToday token * 10000) (tr_dailySpendCap token)))
                         (num_of_Z 100) in
    Some (num_min (num_of_Z 100) (num_max num_zero ratio)).

Definition formatRatio (toLocaleString : num -> nat -> nat -> string) (ratio : option num) : string :=
  match ratio with
  | None => "--"
  | Some r => toLocaleString r (if num_leb (num_of_Z 10) r then 1%nat else 2%nat) 2%nat ++ "%"
  end.

Inductive tone := tone_success | tone_warning | tone_danger | tone_neutral.

Definition getSpendTone (ratio : option num) : tone :=
  match ratio with
  | None => tone_neutral
  | Some r =>
    if num_leb (num_of_Z 90) r then tone_danger
    else if num_leb (num_of_Z 75) r then tone_warning else tone_success
  end.

Definition getSpendBarClass (ratio : option num) : string :=
  match getSpendTone ratio with
  | tone_danger => "bg-rose-500"
  | tone_warning => "bg-amber-500"
  | tone_success => "bg-emerald-500"
  | tone_neutral => "bg-slate-300"
  end.

Definition subtractFloor (value used : Z) : Z := if used <? value then value - used else 0.

(** The comparator of the operation table. *)
Definition sortOperations (left right : TreasuryOperationRow) : Z :=
  if negb (bool_decide (or_status left = or_status right))
  then (if bool_decide (or_status left = ready) then -1 else 1)
  else if or_executeAfter left =? or_executeAfter right
  then (if or_blockNumber right <? or_blockNumber left then -1 else 1)
  else (if or_executeAfter left <? or_executeAfter right then -1 else 1).

(** ** The browser's record of operations *)

Definition getTreasuryOperationStorageKey (chainId : num) (treasuryAddress : string) : string :=
  "fluxswap-admin:treasury-operations:" ++ num_to_string chainId ++ ":" ++ to_lower treasuryAddress.

Section storage.
Context {raw : Type} `{JsonCodec raw}.

Definition loadTreasuryOperationMetadata (window : bool) (chainId : num) (treasuryAddress : string)
    (storage : gmap string raw) : jsval :=
  if negb window then VObj []
  else match storage !! getTreasuryOperationStorageKey chainId treasuryAddress with
  | None => VObj []
  | Some rawValue =>
    if json_falsy rawValue then VObj []
    else match json_parse rawValue with
    | Some (VObj o) => VObj o
    | Some (VArr l) => VArr l
    | _ => VObj []
    end
  end.

Definition saveTreasuryOperationMetadata (window : bool) (chainId : num) (treasuryAddress : string)
    (metadataById : jsval) (storage : gmap string raw) : gmap string raw :=
  if negb window then storage
  else <[getTreasuryOperationStorageKey chainId treasuryAddress := json_stringify metadataById]> storage.
End storage.

Section backend.
(** [new Date(text).getTime()] *)
Variable date_time : string -> num.

Definition treasuryMetadataFromAdminOperation (operation : AdminTreasuryOperation) : jsval :=
  VObj [("version", VNum (num_of_Z 1));
        ("chainId", VNum (ao_chainId operation));
        ("treasuryAddress", VStr (ao_treasuryAddress operation));
        ("operationId", VStr (ao_operationId operation));
        ("kind", VStr (ao_operationTypeCode operation));
        ("label", VStr (ao_operationTypeLabel operation));
        ("summary", VStr (match ao_summary operation with
                          | Some s => if str_nonempty s then s else ao_operationTypeLabel operation
                          | None => ao_operationTypeLabel operation
                          end));
        ("params", ao_params operation);
        ("createdAt", VNum (date_time (ao_createdAt operation)))].
End backend.

(** [{ ...metadata.params }] *)
Definition treasuryMetadataToAdminParams (metadata : jsval) : jsval :=
  match get "params" metadata with VObj p => VObj (obj_spread [] p) | _ => VObj [] end.

(** ** From the form to an operation (TreasuryOperationDraft.ts) *)

Record form := {
  f_publicClient : bool;
  f_chainId : num;
  f_treasuryAddress : option string;
  f_treasuryMinDelay : option Z;
  f_operationKind : TreasuryOperationKind;
  f_selectedToken : option AdminTokenOption;
  f_booleanValue : string;
  f_targetAddress : string;
  f_spenderAddress : string;
  f_amountValue : string;
  f_effectiveDelaySeconds : string;
  f_newMinDelayValue : string;
  f_withdrawRecipientAddress : string;
  f_withdrawAmountValue : string;
}.

(** Why there is no draft: [onError] was called, or an exception. *)
Inductive refusal := Refused (m : ResultModal) | Thrown (e : js_error).

Definition lift {A} (r : res js_error A) : res refusal A :=
  match r with Ok a => Ok a | Throw e => Throw (Thrown e) end.

Definition invalid (message : string) : refusal := Refused (error_modal "参数无效" message).

(** What differs between the kinds: the id, the texts and the parameters. *)
Record draft_part := { d_id : string; d_label : string; d_summary : string; d_params : obj }.

(** [s.trim() ? BigInt(s.trim()) : otherwise] *)
Definition bigint_or (s : string) (otherwise : option Z) : res js_error (option Z) :=
  if str_nonempty (trim s) then let* n := to_bigint (VStr (trim s)) in Ok (Some n) else Ok otherwise.

Section drafts.
Context `{AbiEncoder}.
Variable parseUnits : string -> Z -> option Z.
(** [publicClient.readContract] of a [hash...] function: the node's answer. *)
Variable read_hash : string -> timelock_op -> res js_error string.

Definition readContract (treasuryAddress functionName : string) (args : list jsval) : res refusal string :=
  lift (let* o := hashed_operation functionName args in read_hash treasuryAddress o).

Definition parse (value : string) (decimals : Z) : option Z := admin_parseAmount parseUnits value decimals.

Definition option_address (t : option AdminTokenOption) : bool :=
  match t with Some t => isAddress (tk_address t) | None => false end.

(** The token of a form known to have one. *)
Definition token_of (f : form) : AdminTokenOption :=
  default {| tk_symbol := ""; tk_name := ""; tk_decimals := 0; tk_address := "" |} (f_selectedToken f).
Definition has_token (f : form) : bool := match f_selectedToken f with Some _ => true | None => false end.

Definition draft_allowed_token (a : string) (f : form) (allowed : bool) : res refusal draft_part :=
  guard* option_address (f_selectedToken f) or invalid "请选择有效的资产。" in
  let t := token_of f in
  let* id := readContract a "hashSetAllowedToken" [VStr (tk_address t); VBool allowed] in
  Ok {| d_id := id; d_label := "资产白名单";
        d_summary := (if allowed then "允许" else "移除") ++ " " ++ tk_symbol t;
        d_params := [("token", VStr (tk_address t)); ("tokenSymbol", VStr (tk_symbol t));
                     ("allowed", VBool allowed)] |}.

Definition draft_allowed_recipient (a : string) (f : form) (allowed : bool) : res refusal draft_part :=
  guard* isAddress (f_targetAddress f) or invalid "请输入有效的接收地址。" in
  let* id := readContract a "hashSetAllowedRecipient" [VStr (f_targetAddress f); VBool allowed] in
  Ok {| d_id := id; d_label := "接收方白名单";
        d_summary := (if allowed then "允许" else "移除") ++ " " ++ shortAddress (f_targetAddress f);
        d_params := [("recipient", VStr (f_targetAddress f)); ("allowed", VBool allowed)] |}.

Definition or_zero (s : string) : string := if str_nonempty s then s else "0".

Definition draft_daily_cap (a : string) (f : form) : res refusal draft_part :=
  guard* has_token f or invalid "请选择有效的资产。" in
  let t := token_of f in
  match parse (f_amountValue f) (tk_decimals t) with
  | None => Throw (invalid "请输入有效的每日额度。")
  | Some amountUnits =>
    let* id := readContract a "hashSetDailySpendCap" [VStr (tk_address t); VBig amountUnits] in
    Ok {| d_id := id; d_label := "每日额度";
          d_summary := tk_symbol t ++ " 每日额度设为 " ++ or_zero (f_amountValue f);
          d_params := [("token", VStr (tk_address t)); ("tokenSymbol", VStr (tk_symbol t));
                       ("amountUnits", VStr (dec amountUnits));
                       ("amountDisplay", VStr (or_zero (f_amountValue f)))] |}
  end.

(** [!amountUnits || amountUnits <= ZERO_BIGINT] *)
Definition positive_amount (amount : option Z) : bool :=
  match amount with Some n => 0 <? n | None => false end.

Definition draft_spender (a : string) (f : form) (revoke : bool) : res refusal draft_part :=
  guard* has_token f && isAddress (f_spenderAddress f)
  or invalid "请选择资产并输入有效的花费者地址。" in
  let t := token_of f in
  let spender := f_spenderAddress f in
  if revoke then
    let* id := readContract a "hashRevokeSpender" [VStr (tk_address t); VStr spender] in
    Ok {| d_id := id; d_label := "撤销授权";
          d_summary := "撤销 " ++ shortAddress spender ++ " 的 " ++ tk_symbol t ++ " 授权";
          d_params := [("token", VStr (tk_address t)); ("tokenSymbol", VStr (tk_symbol t));
                       ("spender", VStr spender)] |}
  else
    let amount := parse (f_amountValue f) (tk_decimals t) in
    guard* positive_amount amount or invalid "授权额度必须大于 0。" in
    let amountUnits := default 0 amount in
    let* id := readContract a "hashApproveSpender"
                 [VStr (tk_address t); VStr spender; VBig amountUnits] in
    Ok {| d_id := id; d_label := "授权额度";
          d_summary := "授权 " ++ shortAddress spender ++ " 可使用 " ++ f_amountValue f
                       ++ " " ++ tk_symbol t;
          d_params := [("token", VStr (tk_address t)); ("tokenSymbol", VStr (tk_symbol t));
                       ("spender", VStr spender); ("amountUnits", VStr (dec amountUnits));
                       ("amountDisplay", VStr (f_amountValue f))] |}.

Definition draft_role (a : string) (f : form) (guardian : bool) : res refusal draft_part :=
  let target := f_targetAddress f in
  guard* isAddress target or invalid "请输入有效的新角色地址。" in
  let* id := readContract a (if guardian then "hashSetGuardian" else "hashSetOperator") [VStr target] in
  Ok {| d_id := id; d_label := if guardian then "更新守护者" else "更新操作员";
        d_summary := (if guardian then "守护者" else "操作员") ++ " 更新为 " ++ shortAddress target;
        d_params := if guardian then [("newGuardian", VStr target)] else [("newOperator", VStr target)] |}.

Definition draft_min_delay (a : string) (f : form) : res refusal draft_part :=
  let* newMinDelay := lift (bigint_or (f_newMinDelayValue f) None) in
  guard* positive_amount newMinDelay or invalid "请输入有效的新治理延迟秒数。" in
  let d := default 0 newMinDelay in
  let* id := readContract a "hashSetMinDelay" [VBig d] in
  Ok {| d_id := id; d_label := "治理延迟"; d_summary := "治理延迟更新为 " ++ formatDuration d;
        d_params := [("newMinDelay", VStr (dec d))] |}.

Definition draft_withdraw (a : string) (f : form) : res refusal draft_part :=
  guard* has_token f or invalid "请选择有效的提取资产。" in
  let recipient := f_withdrawRecipientAddress f in
  guard* isAddress recipient or invalid "请输入有效的提取接收地址。" in
  let t := token_of f in
  let amount := parse (f_withdrawAmountValue f) (tk_decimals t) in
  guard* positive_amount amount or invalid "紧急提取数量必须大于 0。" in
  let amountUnits := default 0 amount in
  let* id := readContract a "hashEmergencyWithdraw"
               [VStr (tk_address t); VStr recipient; VBig amountUnits] in
  let display := f_withdrawAmountValue f ++ " " ++ tk_symbol t in
  Ok {| d_id := id; d_label := "紧急提取";
        d_summary := "提取 " ++ display ++ " 到 " ++ shortAddress recipient;
        d_params := [("withdrawToken", VStr (tk_address t)); ("withdrawTokenSymbol", VStr (tk_symbol t));
                     ("withdrawTokenDecimals", VNum (num_of_Z (tk_decimals t)));
                     ("withdrawRecipient", VStr recipient);
                     ("withdrawAmountUnits", VStr (dec amountUnits));
                     ("withdrawAmountDisplay", VStr display)] |}.

Definition draft_withdraw_ETH (a : string) (f : form) : res refusal draft_part :=
  let recipient := f_withdrawRecipientAddress f in
  guard* isAddress recipient or invalid "请输入有效的 ETH 提取接收地址。" in
  let amount := parse (f_withdrawAmountValue f) 18 in
  guard* positive_amount amount or invalid "ETH 紧急提取数量必须大于 0。" in
  let amountUnits := default 0 amount in
  let* id := readContract a "hashEmergencyWithdrawETH" [VStr recipient; VBig amountUnits] in
  let display := f_withdrawAmountValue f ++ " ETH" in
  Ok {| d_id := id; d_label := "紧急提取 ETH";
        d_summary := "提取 " ++ display ++ " 到 " ++ shortAddress recipient;
        d_params := [("withdrawTokenSymbol", VStr "ETH"); ("withdrawTokenDecimals", VNum (num_of_Z 18));
                     ("withdrawRecipient", VStr recipient);
                     ("withdrawAmountUnits", VStr (dec amountUnits));
                     ("withdrawAmountDisplay", VStr display)] |}.

Definition draft_of_kind (a : string) (f : form) : res refusal draft_part :=
  let allowed := String.eqb (f_booleanValue f) "true" in
  match f_operationKind f with
  | setAllowedToken => draft_allowed_token a f allowed
  | setAllowedRecipient => draft_allowed_recipient a f allowed
  | setDailySpendCap => draft_daily_cap a f
  | approveSpender => draft_spender a f false
  | revokeSpender => draft_spender a f true
  | setGuardian => draft_role a f true
  | setOperator => draft_role a f false
  | setMinDelay => draft_min_delay a f
  | emergencyWithdraw => draft_withdraw a f
  | emergencyWithdrawETH => draft_withdraw_ETH a f
  end.

(** The delay the form asks for; [None] when neither it nor the treasury has one. *)
Definition operation_delay (f : form) : res js_error (option Z) :=
  bigint_or (f_effectiveDelaySeconds f) (f_treasuryMinDelay f).

Definition delay_ok (f : form) (delay : option Z) : bool :=
  match delay with
  | Some d => negb (d =? 0) && (default 0 (f_treasuryMinDelay f) <=? d)
  | None => false
  end.

Definition draft_metadata (a : string) (f : form) (now : num) (p : draft_part) : jsval :=
  VObj [("version", VNum (num_of_Z 1)); ("chainId", VNum (f_chainId f));
        ("treasuryAddress", VStr a); ("kind", VStr (kind_code (f_operationKind f)));
        ("createdAt", VNum now); ("operationId", VStr (d_id p)); ("label", VStr (d_label p));
        ("summary", VStr (d_summary p)); ("params", VObj (d_params p))].

Definition buildTreasuryOperationDraft (f : form) (now : num) : res refusal jsval :=
  match f_treasuryAddress f with
  | Some a =>
    guard* f_publicClient f && str_nonempty a
    or Refused (error_modal "暂无法创建操作" "金库合约信息尚未加载完成。") in
    let* delay := lift (operation_delay f) in
    guard* delay_ok f delay
    or Refused (error_modal "延迟时间无效"
         ("延迟时间不能小于当前治理延迟："
          ++ match f_treasuryMinDelay f with
             | Some d => if d =? 0 then "--" else formatDuration d
             | None => "--"
             end ++ "。")) in
    let* p := draft_of_kind a f in
    Ok (draft_metadata a f now p)
  | None => Throw (Refused (error_modal "暂无法创建操作" "金库合约信息尚未加载完成。"))
  end.
End drafts.

(** ** From a record to the executing transaction (TreasuryOperationExecution.ts) *)

Record execution_request := { x_title : string; x_tx : res js_error write_request }.

(** [v === s] *)
Definition is_text (v : jsval) (s : string) : bool :=
  match v with VStr t => String.eqb t s | _ => false end.

Definition is_undefined (v : jsval) : bool := match v with VUndef => true | _ => false end.

(** [params.k], and [params.k !== undefined], in a conjunction evaluated left to right. *)
Inductive check := Truthy (k : string) | Defined_ (k : string).

Fixpoint check_all (params : jsval) (l : list check) : res js_error bool :=
  match l with
  | [] => Ok true
  | c :: l =>
    let* v := prop (match c with Truthy k | Defined_ k => k end) params in
    if match c with Truthy _ => truthy v | Defined_ _ => negb (is_undefined v) end
    then check_all params l else Ok false
  end.

(** An argument of the call: a parameter as it is, or through [BigInt]. *)
Inductive argument := Plain (k : string) | Big (k : string).

Definition argument_value (params : jsval) (a : argument) : res js_error jsval :=
  match a with
  | Plain k => Ok (get k params)
  | Big k => let* n := to_bigint (get k params) in Ok (VBig n)
  end.

Record execution_case := {
  c_kind : TreasuryOperationKind;
  c_checks : list check;
  c_title : string;
  c_function : string;
  c_args : list argument;
}.

(** The branches of the function, in order. *)
Definition execution_cases : list execution_case :=
  [{| c_kind := setAllowedToken; c_checks := [Truthy "token"; Defined_ "allowed"];
      c_title := "已更新资产白名单"; c_function := "executeSetAllowedToken";
      c_args := [Plain "token"; Plain "allowed"] |};
   {| c_kind := setAllowedRecipient; c_checks := [Truthy "recipient"; Defined_ "allowed"];
      c_title := "已更新接收方白名单"; c_function := "executeSetAllowedRecipient";
      c_args := [Plain "recipient"; Plain "allowed"] |};
   {| c_kind := setDailySpendCap; c_checks := [Truthy "token"; Defined_ "amountUnits"];
      c_title := "已更新每日额度"; c_function := "executeSetDailySpendCap";
      c_args := [Plain "token"; Big "amountUnits"] |};
   {| c_kind := approveSpender; c_checks := [Truthy "token"; Truthy "spender"; Truthy "amountUnits"];
      c_title := "已更新授权额度"; c_function := "executeApproveSpender";
      c_args := [Plain "token"; Plain "spender"; Big "amountUnits"] |};
   {| c_kind := revokeSpender; c_checks := [Truthy "token"; Truthy "spender"];
      c_title := "已撤销授权额度"; c_function := "executeRevokeSpender";
      c_args := [Plain "token"; Plain "spender"] |};
   {| c_kind := setGuardian; c_checks := [Truthy "newGuardian"];
      c_title := "已更新守护者"; c_function := "executeSetGuardian"; c_args := [Plain "newGuardian"] |};
   {| c_kind := setOperator; c_checks := [Truthy "newOperator"];
      c_title := "已更新操作员"; c_function := "executeSetOperator"; c_args := [Plain "newOperator"] |};
   {| c_kind := setMinDelay; c_checks := [Truthy "newMinDelay"];
      c_title := "已更新治理延迟"; c_function := "executeSetMinDelay"; c_args := [Big "newMinDelay"] |};
   {| c_kind := emergencyWithdraw;
      c_checks := [Truthy "withdrawToken"; Truthy "withdrawRecipient"; Truthy "withdrawAmountUnits"];
      c_title := "已执行紧急提取"; c_function := "executeEmergencyWithdraw";
      c_args := [Plain "withdrawToken"; Plain "withdrawRecipient"; Big "withdrawAmountUnits"] |};
   {| c_kind := emergencyWithdrawETH;
      c_checks := [Truthy "withdrawRecipient"; Truthy "withdrawAmountUnits"];
      c_title := "已执行 ETH 紧急提取"; c_function := "executeEmergencyWithdrawETH";
      c_args := [Plain "withdrawRecipient"; Big "withdrawAmountUnits"] |}].

(** The arguments, the id last; [tx] evaluates them when it is called. *)
Definition execution_tx (params : jsval) (operationId treasuryAddress : string) (gas : option Z)
    (c : execution_case) : res js_error write_request :=
  let* args := res_mapi (fun _ a => argument_value params a) 0 (c_args c) in
  Ok {| w_address := treasuryAddress; w_functionName := c_function c;
        w_args := (args ++ [VStr operationId])%list; w_gas := gas |}.

(** The first branch whose kind matches and whose parameters are there. *)
Fixpoint first_case (kind params : jsval) (l : list execution_case)
  : res js_error (option execution_case) :=
  match l with
  | [] => Ok None
  | c :: l =>
    if is_text kind (kind_code (c_kind c)) then
      let* b := check_all params (c_checks c) in
      if b then Ok (Some c) else first_case kind params l
    else first_case kind params l
  end.

Definition buildTreasuryExecutionRequest (metadata : jsval) (operationId treasuryAddress : string)
    (gas : option Z) : res js_error (option execution_request) :=
  let* params := prop "params" metadata in
  let* kind := prop "kind" metadata in
  let* c := first_case kind params execution_cases in
  Ok (match c with
      | Some c => Some {| x_title := c_title c;
                          x_tx := execution_tx params operationId treasuryAddress gas c |}
      | None => None
      end).

(** ** Allocating an asset (TreasuryAllocationSubmit.ts) *)

Record allocation := {
  al_treasuryAddress : option string;
  al_selectedToken : option TreasuryTokenRow;
  al_publicClient : bool;
  al_mounted : bool;
  al_isConnected : bool;
  al_canAllocate : bool;
  al_paused : bool;
  al_recipientAddress : string;
  al_amountValue : string;
  al_gas : option Z;
}.

Inductive submission :=
| Reported (m : ResultModal)
| OpenedConnect
| Running (title : string) (tx : write_request).

Section allocation.
Context `{AbiEncoder}.
Variable parseUnits : string -> Z -> option Z.
(** [publicClient.readContract] of [allowedRecipients]. *)
Variable read_allowed : string -> string -> res js_error bool.

Definition allocation_request (treasuryAddress : string) (token : TreasuryTokenRow)
    (recipientAddress : string) (amountUnits : Z) (gas : option Z) : write_request :=
  if tr_isNative token
  then {| w_address := treasuryAddress; w_functionName := "allocateETH";
          w_args := [VStr recipientAddress; VBig amountUnits]; w_gas := gas |}
  else {| w_address := treasuryAddress; w_functionName := "allocate";
          w_args := [VStr (tk_address (tr_token token)); VStr recipientAddress; VBig amountUnits];
          w_gas := gas |}.

Definition submitTreasuryAllocation (p : allocation) : res js_error submission :=
  match al_treasuryAddress p, al_selectedToken p, al_publicClient p with
  | Some treasuryAddress, Some token, true =>
    if negb (str_nonempty treasuryAddress)
    then Ok (Reported (error_modal "暂无法划拨" "金库资产信息尚未加载完成。"))
    else if negb (al_mounted p && al_isConnected p) then Ok OpenedConnect
    else if negb (al_canAllocate p)
    then Ok (Reported (error_modal "暂无法划拨"
           (if al_paused p then "金库当前已暂停，不能执行资产划拨。"
            else "只有操作员或多签钱包可以划拨资产。")))
    else if negb (isAddress (al_recipientAddress p))
    then Ok (Reported (error_modal "参数无效" "请输入有效的划拨接收地址。"))
    else
      let amount := admin_parseAmount parseUnits (al_amountValue p) (tk_decimals (tr_token token)) in
      let amountUnits := default 0 amount in
      if negb (positive_amount amount)
      then Ok (Reported (error_modal "参数无效" "划拨数量必须大于 0。"))
      else if tr_balance token <? amountUnits
      then Ok (Reported (error_modal "划拨失败" "划拨数量不能超过当前金库余额。"))
      else if (0 <? tr_dailySpendCap token)
              && (tr_dailySpendCap token <? tr_spentToday token + amountUnits)
      then Ok (Reported (error_modal "划拨失败" "本次划拨会超过该资产今日剩余额度。"))
      else
        let* recipientAllowed := read_allowed treasuryAddress (al_recipientAddress p) in
        if negb recipientAllowed
        then Ok (Reported (error_modal "划拨失败"
               "请先通过治理操作把该接收地址加入白名单，再执行划拨。"))
        else Ok (Running "已划拨金库资产"
               (allocation_request treasuryAddress token (al_recipientAddress p) amountUnits (al_gas p)))
  | _, _, _ => Ok (Reported (error_modal "暂无法划拨" "金库资产信息尚未加载完成。"))
  end.
End allocation.

(** ** What survives storage *)

(** Texts and booleans come back from JSON as they were. *)
Definition plain (v : jsval) : bool := match v with VStr _ | VBool _ => true | _ => false end.

(** [P] is an object that has the texts and booleans of [p]. *)
Definition reads_as (p : obj) (P : jsval) : Prop :=
  exists o, P = VObj o /\ Forall (fun kv => plain kv.2 = true -> obj_get kv.1 o = kv.2) p.

Lemma obj_get_elem o kv : obj_wf o -> kv ∈ o -> obj_get kv.1 o = kv.2.
Proof.
  induction o as [|[k v] o IH]; intros Hwf Hin; [set_solver|]. unfold obj_wf in *. simpl in *.
  apply NoDup_cons in Hwf as [Hn Hwf]. apply elem_of_cons in Hin as [->|Hin]; simpl.
  - by rewrite String.eqb_refl.
  - destruct (String.eqb_spec kv.1 k) as [<-|]; [|by apply IH].
    exfalso. apply Hn. apply list_elem_of_fmap. by exists kv.
Qed.

Lemma reads_as_refl p : obj_wf p -> reads_as p (VObj p).
Proof.
  intros Hwf. exists p. split; [done|]. apply Forall_forall. intros kv Hin _. by apply obj_get_elem.
Qed.

Lemma reads_as_clean p : obj_wf p -> reads_as p (json_clean (VObj p)).
Proof.
  intros Hwf. exists (clean_obj p). rewrite json_clean_obj. split; [done|].
  apply Forall_forall. intros kv Hin Hp. rewrite obj_get_clean by done.
  rewrite (obj_get_elem p kv Hwf Hin). by destruct kv as [k []].
Qed.

Lemma obj_set_fresh k v a : obj_has k a = false -> obj_set k v a = (a ++ [(k, v)])%list.
Proof.
  induction a as [|[k1 v1] a IH]; simpl; [done|]. destruct (String.eqb k k1); [done|].
  simpl. intros Hk. by rewrite IH.
Qed.

Lemma obj_spread_fresh a b : obj_wf (a ++ b)%list -> obj_spread a b = (a ++ b)%list.
Proof.
  revert a; induction b as [|[k v] b IH]; intros a Hwf; simpl; [by rewrite app_nil_r|].
  assert (obj_has k a = false) as Hk.
  { destruct (obj_has k a) eqn:E; [|done]. apply obj_has_elem in E. unfold obj_wf in Hwf.
    rewrite fmap_app in Hwf. apply NoDup_app in Hwf as (_ & Hd & _). destruct (Hd k E). by left. }
  rewrite obj_set_fresh by done. rewrite IH; by rewrite <- app_assoc.
Qed.

Lemma obj_spread_nil p : obj_wf p -> obj_spread [] p = p.
Proof. intros Hwf. by apply (obj_spread_fresh []). Qed.

(** ** Executing what was drafted *)

Lemma address_text_nonempty a : address_text a -> str_nonempty a = true.
Proof. intros (t & Ha & _). by destruct a. Qed.

Section execution.
Context `{AbiEncoder}.
Variable parseUnits : string -> Z -> option Z.
Variable read_hash : string -> timelock_op -> res js_error string.
(** The node answers with what the contract computes. *)
Hypothesis read_hash_sound : forall a o id, read_hash a o = Ok id -> id = op_hash o.

Lemma readContract_Ok a fn args id :
  readContract read_hash a fn args = Ok id ->
  exists o, hashed_operation fn args = Ok o /\ id = op_hash o.
Proof.
  unfold readContract. intros Hr. destruct (res_bind _ _) as [i|] eqn:E; [|done]. simpl in Hr.
  simplify_eq. bind_inv E. eauto.
Qed.

Lemma encoded_text s z : encodeAddress (VStr s) = Ok z -> str_nonempty s = true.
Proof. intros Hs. apply encodeAddress_text in Hs as [Hs _]. by apply address_text_nonempty. Qed.

(** The case of a kind, once its parameters are there: it executes [o], which is what
    the id hashes. *)
Definition executes (k : TreasuryOperationKind) (o : timelock_op) (p : draft_part) : Prop :=
  json_ok (VObj (d_params p)) = true /\ d_id p = op_hash o /\ forall P, reads_as (d_params p) P ->
  exists c, first_case (VStr (kind_code k)) P execution_cases = Ok (Some c)
    /\ forall a gas, exists w, execution_tx P (op_hash o) a gas c = Ok w
       /\ call_of_write w = Ok (Execute o (op_hash o)).

(** The equations a parameter object gives. *)
Ltac use_params HP :=
  repeat match type of HP with
  | Forall _ (_ :: _) =>
    let E := fresh "Hparam" in apply Forall_cons in HP as [E HP]; cbn in E;
    try (specialize (E eq_refl))
  end.

(** What a successful hash read says of the arguments. *)
Ltac use_encoded Ho :=
  let Hc := fresh in pose proof Ho as Hc; cbn in Hc;
  repeat match type of Hc with
  | res_bind _ _ = Ok _ => let x := fresh "z" in let Ex := fresh "Henc" in
      apply res_bind_Ok in Hc as (x & Ex & Hc)
  end; clear Hc;
  repeat match goal with
  | E : encodeUint256 (VBig _) = Ok _ |- _ => apply encodeUint256_Ok in E as [_ [? _]]
  | E : encodeAddress (VStr _) = Ok _ |- _ => apply encoded_text in E
  end.

Ltac rewrite_params o' :=
  repeat (match goal with
          | E : obj_get _ o' = _ |- _ => rewrite E
          | E : str_nonempty _ = true |- _ => rewrite E
          | |- context [str_nonempty (dec _)] => rewrite dec_nonempty by done
          | |- context [to_bigint (VStr (dec _))] => rewrite to_bigint_dec by done
          end; cbn -[dec to_bigint]).

Ltac execute_tac Ho :=
  split; [vm_compute; reflexivity|]; split; [reflexivity|];
  intros P (o' & -> & HP); cbn in HP; use_params HP; use_encoded Ho;
  eexists; split; [cbn -[dec to_bigint]; rewrite_params o'; reflexivity|];
  intros a' gas; eexists; split;
  [unfold execution_tx; cbn -[dec to_bigint]; rewrite_params o'; reflexivity
  |refine (call_of_execute _ _ _ _ _ _ _ Ho _); reflexivity].

(** The operation a hash read is about, from its arguments. *)
Ltac op_value Ho o :=
  let Hc := fresh in pose proof Ho as Hc; cbn in Hc;
  repeat match type of Hc with
  | res_bind _ _ = Ok _ => let x := fresh "z" in let Ex := fresh "Henc" in
      apply res_bind_Ok in Hc as (x & Ex & Hc)
  end;
  repeat match goal with
  | E : encodeUint256 (VBig _) = Ok _ |- _ => apply encodeUint256_value in E as ->
  | E : encodeAddress (VStr _) = Ok _ |- _ => apply encodeAddress_text in E as [_ ->]
  | E : encodeBool (VBool _) = Ok _ |- _ => rewrite encodeBool_bool in E; injection E as <-
  end; injection Hc as <-.

Ltac draft_tac Hd :=
  repeat (case_in Hd; try done); bind_inv Hd; simplify_eq;
  lazymatch goal with E : readContract _ _ _ _ = Ok _ |- _ =>
    apply readContract_Ok in E as (o & Ho & ->); op_value Ho o; execute_tac Ho
  end.

Lemma executes_allowed_token a f allowed p :
  draft_allowed_token read_hash a f allowed = Ok p ->
  executes setAllowedToken (SetAllowedToken (address_value (tk_address (token_of f))) allowed) p.
Proof. unfold draft_allowed_token. intros Hd. draft_tac Hd. Qed.

Lemma executes_allowed_recipient a f allowed p :
  draft_allowed_recipient read_hash a f allowed = Ok p ->
  executes setAllowedRecipient (SetAllowedRecipient (address_value (f_targetAddress f)) allowed) p.
Proof. unfold draft_allowed_recipient. intros Hd. draft_tac Hd. Qed.

Lemma executes_daily_cap a f p :
  draft_daily_cap parseUnits read_hash a f = Ok p ->
  executes setDailySpendCap
    (SetDailySpendCap (address_value (tk_address (token_of f)))
       (default 0 (parse parseUnits (f_amountValue f) (tk_decimals (token_of f))))) p.
Proof. unfold draft_daily_cap. intros Hd. draft_tac Hd. Qed.

Lemma executes_approve a f p :
  draft_spender parseUnits read_hash a f false = Ok p ->
  executes approveSpender
    (ApproveSpender (address_value (tk_address (token_of f))) (address_value (f_spenderAddress f))
       (default 0 (parse parseUnits (f_amountValue f) (tk_decimals (token_of f))))) p.
Proof. unfold draft_spender. intros Hd. draft_tac Hd. Qed.

Lemma executes_revoke a f p :
  draft_spender parseUnits read_hash a f true = Ok p ->
  executes revokeSpender
    (RevokeSpender (address_value (tk_address (token_of f))) (address_value (f_spenderAddress f))) p.
Proof. unfold draft_spender. intros Hd. draft_tac Hd. Qed.

Lemma executes_guardian a f p :
  draft_role read_hash a f true = Ok p ->
  executes setGuardian (SetGuardian (address_value (f_targetAddress f))) p.
Proof. unfold draft_role. intros Hd. draft_tac Hd. Qed.

Lemma executes_operator a f p :
  draft_role read_hash a f false = Ok p ->
  executes setOperator (SetOperator (address_value (f_targetAddress f))) p.
Proof. unfold draft_role. intros Hd. draft_tac Hd. Qed.

Lemma executes_min_delay a f p :
  draft_min_delay read_hash a f = Ok p ->
  exists d, bigint_or (f_newMinDelayValue f) None = Ok (Some d) /\ 0 < d
            /\ executes setMinDelay (SetMinDelay d) p.
Proof.
  unfold draft_min_delay. intros Hd. bind_inv Hd.
  destruct (bigint_or _ _) as [[d|]|]; simpl in E; simplify_eq. exists d. split; [done|].
  simpl in Hd. destruct (Z.ltb_spec 0 d); [|done]. split; [done|]. draft_tac Hd.
Qed.

Lemma executes_withdraw a f p :
  draft_withdraw parseUnits read_hash a f = Ok p ->
  executes emergencyWithdraw
    (EmergencyWithdraw (address_value (tk_address (token_of f)))
       (address_value (f_withdrawRecipientAddress f))
       (default 0 (parse parseUnits (f_withdrawAmountValue f) (tk_decimals (token_of f))))) p.
Proof. unfold draft_withdraw. intros Hd. draft_tac Hd. Qed.

Lemma executes_withdraw_ETH a f p :
  draft_withdraw_ETH parseUnits read_hash a f = Ok p ->
  executes emergencyWithdrawETH
    (EmergencyWithdrawETH (address_value (f_withdrawRecipientAddress f))
       (default 0 (parse parseUnits (f_withdrawAmountValue f) 18))) p.
Proof. unfold draft_withdraw_ETH. intros Hd. draft_tac Hd. Qed.
#[local] Hint Resolve executes_allowed_token executes_allowed_recipient executes_daily_cap
  executes_approve executes_revoke executes_guardian executes_operator executes_withdraw
  executes_withdraw_ETH : flux.

(** ** The operation a form describes *)

Definition form_operation (f : form) : timelock_op :=
  let token := address_value (tk_address (token_of f)) in
  let target := address_value (f_targetAddress f) in
  let recipient := address_value (f_withdrawRecipientAddress f) in
  let amount (value : string) (decimals : Z) := default 0 (parse parseUnits value decimals) in
  let allowed := String.eqb (f_booleanValue f) "true" in
  let decimals := tk_decimals (token_of f) in
  match f_operationKind f with
  | setAllowedToken => SetAllowedToken token allowed
  | setAllowedRecipient => SetAllowedRecipient target allowed
  | setDailySpendCap => SetDailySpendCap token (amount (f_amountValue f) decimals)
  | approveSpender =>
    ApproveSpender token (address_value (f_spenderAddress f)) (amount (f_amountValue f) decimals)
  | revokeSpender => RevokeSpender token (address_value (f_spenderAddress f))
  | setGuardian => SetGuardian target
  | setOperator => SetOperator target
  | setMinDelay =>
    SetMinDelay (match bigint_or (f_newMinDelayValue f) None with Ok (Some d) => d | _ => 0 end)
  | emergencyWithdraw => EmergencyWithdraw token recipient (amount (f_withdrawAmountValue f) decimals)
  | emergencyWithdrawETH => EmergencyWithdrawETH recipient (amount (f_withdrawAmountValue f) 18)
  end.

Lemma draft_executes a f p :
  draft_of_kind parseUnits read_hash a f = Ok p -> executes (f_operationKind f) (form_operation f) p.
Proof.
  unfold draft_of_kind, form_operation. intros Hd.
  destruct (f_operationKind f); try (eauto with flux; fail).
  apply executes_min_delay in Hd as (d & -> & _ & Hd). exact Hd.
Qed.

Lemma build_draft_Ok f now m :
  buildTreasuryOperationDraft parseUnits read_hash f now = Ok m ->
  exists a p delay, f_treasuryAddress f = Some a /\ m = draft_metadata a f now p
    /\ operation_delay f = Ok delay /\ delay_ok f delay = true
    /\ executes (f_operationKind f) (form_operation f) p.
Proof.
  unfold buildTreasuryOperationDraft. intros Hm. case_in Hm; [|done]. case_in Hm; [|done].
  bind_inv Hm. case_in Hm; [|done]. bind_inv Hm. simplify_eq.
  destruct (operation_delay f) as [d|] eqn:Ed; simpl in E; simplify_eq.
  eexists _, _, _. split_and!; eauto using draft_executes.
Qed.

(** Where a record can come back from: the page itself, the browser's storage, or a
    row of the backend with the kind and the parameters that were sent to it. *)
Definition comes_back (date_time : string -> num) (m m' : jsval) : Prop :=
  m' = m \/ m' = json_clean m
  \/ exists row, m' = treasuryMetadataFromAdminOperation date_time row
       /\ VStr (ao_operationTypeCode row) = get "kind" m
       /\ ao_params row = json_clean (treasuryMetadataToAdminParams m).

Lemma comes_back_request date_time a f now p o m' ta gas :
  executes (f_operationKind f) o p -> comes_back date_time (draft_metadata a f now p) m' ->
  exists title w,
    buildTreasuryExecutionRequest m' (op_hash o) ta gas
    = Ok (Some {| x_title := title; x_tx := Ok w |})
    /\ call_of_write w = Ok (Execute o (op_hash o)).
Proof.
  intros (Hok & Hid & Hex) Hm. pose proof Hok as [Hwf _]%json_ok_obj.
  assert (exists P, prop "params" m' = Ok P /\ reads_as (d_params p) P
    /\ prop "kind" m' = Ok (VStr (kind_code (f_operationKind f)))) as (P & HP & Hr & Hk).
  { destruct Hm as [->|[->|(row & -> & Hc & Hp)]].
    - exists (VObj (d_params p)). split; [done|]. split; [by apply reads_as_refl|done].
    - exists (json_clean (VObj (d_params p))). split; [|split; [by apply reads_as_clean|]].
      + unfold draft_metadata. rewrite json_clean_obj. done.
      + unfold draft_metadata. by rewrite json_clean_obj.
    - exists (ao_params row). split; [done|]. split.
      + rewrite Hp. unfold treasuryMetadataToAdminParams. cbn. rewrite obj_spread_nil by done.
        by apply reads_as_clean.
      + cbn in *. by rewrite Hc. }
  destruct (Hex P Hr) as (c & Hc & Hw). destruct (Hw ta gas) as (w & Hx & Hcall).
  exists (c_title c), w. split; [|done].
  unfold buildTreasuryExecutionRequest. rewrite HP, Hk. cbn [res_bind]. rewrite Hc. cbn [res_bind].
  by rewrite Hx.
Qed.

(** C37.  Drafting an operation and executing it agree.  The id of a drafted record is
    the contract's hash of the operation the form describes; and wherever the record
    comes back from, the execution request it gives encodes to the contract's execution
    of exactly that operation under that id. *)
Theorem drafted_operation_executes f now m :
  buildTreasuryOperationDraft parseUnits read_hash f now = Ok m ->
  get "operationId" m = VStr (op_hash (form_operation f))
  /\ forall date_time m' a gas, comes_back date_time m m' ->
     exists title w,
       buildTreasuryExecutionRequest m' (op_hash (form_operation f)) a gas
       = Ok (Some {| x_title := title; x_tx := Ok w |})
       /\ call_of_write w = Ok (Execute (form_operation f) (op_hash (form_operation f))).
Proof.
  intros Hm. apply build_draft_Ok in Hm as (a & p & d & _ & -> & _ & _ & Hp). split.
  - destruct Hp as (_ & Hid & _). cbn. by rewrite Hid.
  - intros date_time m' ta gas Hb. by eapply comes_back_request.
Qed.

(** C38.  The life of a drafted operation at the contract.  The multisig's call with
    the drafted id and delay is accepted; from then on the execution request is refused
    until the delay has passed and, once it has, performs the operation, whoever sends
    it - unless the contract rejects the operation's arguments, in which case it never
    executes. *)
Theorem drafted_operation_lifecycle f now0 m d c e a gas :
  buildTreasuryOperationDraft parseUnits read_hash f now0 = Ok m ->
  operation_delay f = Ok (Some d) -> f_treasuryMinDelay f = Some (minDelay c) ->
  sender e = multisig c -> 0 < now e -> 0 <= minDelay c -> now e + d < 2 ^ 256 ->
  at_ (operationReadyAt c) (op_hash (form_operation f)) = 0 ->
  let o := form_operation f in
  exists c1 title w k,
    get "operationId" m = VStr (op_hash o)
    /\ exec e (Schedule (op_hash o) d) c
       = Ok (c1, [OperationScheduled (op_hash o) (now e + d) (sender e)])
    /\ buildTreasuryExecutionRequest m (op_hash o) a gas
       = Ok (Some {| x_title := title; x_tx := Ok w |})
    /\ call_of_write w = Ok k
    /\ forall e', external_ok e' = true ->
       match op_arguments_ok o with
       | Throw err => exec e' k c1 = Throw err
       | Ok _ =>
         if now e' <? now e + d then exec e' k c1 = Throw "FluxSwapTreasury: OPERATION_NOT_READY"
         else exists c2 evs,
           op_effect e' o (with_ready (delete (op_hash o) (operationReadyAt c1)) c1) = Ok (c2, evs)
           /\ exec e' k c1 = Ok (c2, OperationExecuted (op_hash o) (sender e') :: evs)
       end.
Proof.
  intros Hm Hd Hmin Hs Hn Hc Ht Hr o.
  apply build_draft_Ok in Hm as (ta & p & d' & _ & -> & Hd' & Hok & Hp).
  rewrite Hd in Hd'. injection Hd' as <-. unfold delay_ok in Hok. rewrite Hmin in Hok. bool_solve.
  simpl in *. destruct (comes_back_request (fun _ => num_zero) ta f now0 p o _ a gas Hp
    (or_introl eq_refl)) as (title & w & Hreq & Hcall).
  eexists _, title, w, _. split; [cbn; by rewrite (proj1 (proj2 Hp))|]. split.
  { apply schedule_accepted; try done; [apply op_hash_nonzero|lia]. }
  split; [exact Hreq|]. split; [exact Hcall|]. intros e' He'.
  destruct (op_arguments_ok o) as [[]|err] eqn:Ha.
  - destruct (Z.ltb_spec (now e') (now e + d)) as [Hlt|Hge].
    + eapply execute_too_early; [done| |exact Hlt|lia]. cbn. by rewrite lookup_insert_eq.
    + eapply execute_when_ready; [done| | |done]; [cbn; by rewrite lookup_insert_eq|lia].
  - cbn. unfold executeOperation. by rewrite Ha.
Qed.
End execution.

(** ** Allocations at the contract *)

Section allocating.
Context `{AbiEncoder}.
Variable parseUnits : string -> Z -> option Z.
Variable read_allowed : string -> string -> res js_error bool.

(** The asset of a row, as the contract names it. *)
Definition row_token (t : TreasuryTokenRow) : address :=
  if tr_isNative t then 0 else address_value (tk_address (tr_token t)).

(** The row shows what the contract has, and the contract's token is readable. *)
Record row_current (c : treasury) (t : TreasuryTokenRow) : Prop := {
  rc_cap : tr_dailySpendCap t = at_ (dailySpendCap c) (row_token t);
  rc_spent : tr_spentToday t = at_ (spentToday c) (row_token t);
  rc_allowed : tr_allowed t = tr_isNative t || is_ (allowedTokens c) (row_token t);
  rc_address : tr_isNative t = true \/ is_ok (encodeAddress (VStr (tk_address (tr_token t)))) = true;
  rc_range : 0 <= tr_spentToday t /\ tr_balance t < 2 ^ 256 /\ tr_dailySpendCap t < 2 ^ 256;
}.

Lemma submit_Running p title w :
  submitTreasuryAllocation parseUnits read_allowed p = Ok (Running title w) ->
  exists a token,
    al_treasuryAddress p = Some a /\ al_selectedToken p = Some token /\ al_canAllocate p = true
    /\ isAddress (al_recipientAddress p) = true
    /\ read_allowed a (al_recipientAddress p) = Ok true
    /\ exists n, admin_parseAmount parseUnits (al_amountValue p) (tk_decimals (tr_token token)) = Some n
       /\ 0 < n <= tr_balance token
       /\ (0 < tr_dailySpendCap token -> tr_spentToday token + n <= tr_dailySpendCap token)
       /\ w = allocation_request a token (al_recipientAddress p) n (al_gas p).
Proof.
  unfold submitTreasuryAllocation. intros Hs.
  destruct (al_treasuryAddress p) as [a|], (al_selectedToken p) as [t|], (al_publicClient p); try done.
  exists a, t. do 4 (case_in Hs; [done|]). cbv zeta in Hs.
  destruct (admin_parseAmount _ _ _) as [n|]; simpl in Hs; [|done].
  do 3 (case_in Hs; [done|]). bind_inv Hs. case_in Hs; [done|]. simplify_eq. bool_solve. subst.
  split_and!; try done. exists n. split_and!; try done.
  intros Hc. match goal with E : _ && _ = false |- _ => apply andb_false_iff in E as [E|E] end;
    bool_solve; lia.
Qed.

(** A cap that covers what was spent covers what was spent today. *)
Lemma consumeCap_accepts e t n c :
  0 < at_ (dailySpendCap c) t < 2 ^ 256 -> 0 <= at_ (spentToday c) t -> 0 < n ->
  at_ (spentToday c) t + n <= at_ (dailySpendCap c) t ->
  exists c', _consumeCap e t n c = Ok c' /\ at_ (spentToday c') t = spent_on (day e) t c + n.
Proof.
  intros Hc Hz0 Hn Hle.
  assert (0 <= spent_on (day e) t c <= at_ (spentToday c) t) as Hs.
  { unfold spent_on. destruct (_ =? _); lia. }
  unfold _consumeCap, u256.
  destruct (Z.ltb_spec 0 (at_ (dailySpendCap c) t)); [|lia].
  destruct (Z.leb_spec 0 (spent_on (day e) t c + n)); [|lia].
  destruct (Z.ltb_spec (spent_on (day e) t c + n) (2 ^ 256)); [|lia]. simpl.
  destruct (Z.leb_spec (spent_on (day e) t c + n) (at_ (dailySpendCap c) t)); [|lia].
  eexists. split; [reflexivity|]. unfold at_ at 1. cbn. by rewrite lookup_insert_eq.
Qed.

(** The call an allocation request is, and what the contract checks of it. *)
Lemma allocation_call a t r n gas :
  isAddress r = true ->
  tr_isNative t = true \/ is_ok (encodeAddress (VStr (tk_address (tr_token t)))) = true ->
  0 <= n < 2 ^ 256 ->
  exists k, call_of_write (allocation_request a t r n gas) = Ok k
    /\ forall e c, sender e = operator c \/ sender e = multisig c -> paused c = false ->
       exec e k c
       = if negb (tr_isNative t || is_ (allowedTokens c) (row_token t))
         then Throw "FluxSwapTreasury: TOKEN_NOT_ALLOWED"
         else if is_ (allowedRecipients c) (address_value r)
         then res_bind (_consumeCap e (row_token t) n c)
                (transfer_out e (row_token t) (address_value r) n)
         else Throw "FluxSwapTreasury: RECIPIENT_NOT_ALLOWED".
Proof.
  intros Hr Ht Hn. apply isAddress_encodes in Hr as [_ Hr].
  destruct (encodeAddress (VStr r)) as [zr|] eqn:Er; [|done].
  apply encodeUint256_range in Hn. pose proof (encodeAddress_text r zr Er) as [_ ->].
  unfold allocation_request, row_token. destruct (tr_isNative t).
  - eexists. split; [cbn; by rewrite Er, Hn|]. intros e c Hs Hp. cbn.
    unfold allocateETH, onlyOperatorOrMultisig, whenNotPaused. rewrite Hp.
    by destruct Hs as [->| ->]; rewrite Z.eqb_refl, ?orb_true_r.
  - destruct Ht as [Ht|Ht]; [done|].
    destruct (encodeAddress (VStr (tk_address (tr_token t)))) as [zt|] eqn:Et; [|done].
    pose proof (encodeAddress_text _ zt Et) as [_ ->].
    eexists. split; [cbn; by rewrite Et, Er, Hn|]. intros e c Hs Hp. cbn.
    unfold allocate, onlyOperatorOrMultisig, whenNotPaused. rewrite Hp.
    destruct Hs as [->| ->]; rewrite Z.eqb_refl, ?orb_true_r; simpl;
      by destruct (is_ (allowedTokens c) _).
Qed.

(** C39.  What an allocation the page submits meets at the contract, when the page's
    row is current: for an operator or the multisig of a treasury that is not paused,
    the call never fails on the role, the recipient, the amount or the daily cap, on
    whatever day it arrives; it moves exactly the parsed amount to the recipient, unless
    the asset has no cap, or is not on the whitelist, which the page does not look at. *)
Theorem allocation_outcome p title w token c e :
  submitTreasuryAllocation parseUnits read_allowed p = Ok (Running title w) ->
  al_selectedToken p = Some token -> row_current c token ->
  (forall a r b, read_allowed a r = Ok b -> b = is_ (allowedRecipients c) (address_value r)) ->
  sender e = operator c \/ sender e = multisig c -> paused c = false ->
  exists k n, call_of_write w = Ok k
    /\ admin_parseAmount parseUnits (al_amountValue p) (tk_decimals (tr_token token)) = Some n
    /\ if negb (tr_allowed token) then exec e k c = Throw "FluxSwapTreasury: TOKEN_NOT_ALLOWED"
       else if tr_dailySpendCap token <=? 0
       then exec e k c = Throw "FluxSwapTreasury: SPEND_CAP_NOT_SET"
       else exists c', exec e k c
              = transfer_out e (row_token token) (address_value (al_recipientAddress p)) n c'
            /\ at_ (spentToday c') (row_token token) = spent_on (day e) (row_token token) c + n.
Proof.
  intros Hs Htok Hrow Hread Hsend Hp. apply submit_Running in Hs as
    (a & t & _ & Ht & _ & Hr & Hal & n & Hn & [Hpos Hbal] & Hcap & ->).
  rewrite Ht in Htok. injection Htok as ->. destruct Hrow as [Hc Hsp Hall Haddr [Hz0 [Hb Hx256]]].
  apply Hread in Hal. symmetry in Hal.
  destruct (allocation_call a token (al_recipientAddress p) n (al_gas p)) as (k & Hk & Hex);
    [done|done|lia|]. exists k, n. split; [done|]. split; [done|]. rewrite Hex by done. clear Hex Hk.
  rewrite <- Hall. destruct (tr_allowed token); [|done]. simpl. rewrite Hal.
  destruct (Z.leb_spec (tr_dailySpendCap token) 0) as [Hz|Hz].
  - unfold _consumeCap. rewrite <- Hc. by destruct (Z.ltb_spec 0 (tr_dailySpendCap token)); [lia|].
  - destruct (consumeCap_accepts e (row_token token) n c) as (c' & -> & Hc'); [lia..|].
    exists c'. done.
Qed.
End allocating.

(** ** Concrete instances *)

#[local] Existing Instance sample_hash.
#[local] Existing Instance sample_abi.

Definition sample_address : string := "0x00000000000000000000000000000000000000A7".
Definition sample_token : AdminTokenOption :=
  {| tk_symbol := "USDT"; tk_name := "Tether USD"; tk_decimals := 6; tk_address := sample_address |}.

Definition sample_form (k : TreasuryOperationKind) (target : string) : form :=
  {| f_publicClient := true; f_chainId := num_of_Z 31337; f_treasuryAddress := Some sample_address;
     f_treasuryMinDelay := Some 60; f_operationKind := k; f_selectedToken := Some sample_token;
     f_booleanValue := "true"; f_targetAddress := target; f_spenderAddress := target;
     f_amountValue := "1,250.5"; f_effectiveDelaySeconds := " 90 "; f_newMinDelayValue := "120";
     f_withdrawRecipientAddress := target; f_withdrawAmountValue := "2" |}.

Definition sample_read_hash (a : string) (o : timelock_op) : res js_error string := Ok (op_hash o).

Lemma sample_read_hash_sound a o id : sample_read_hash a o = Ok id -> id = op_hash o.
Proof. unfold sample_read_hash. by intros [= <-]. Qed.

Definition sample_draft (k : TreasuryOperationKind) (target : string) : jsval :=
  match buildTreasuryOperationDraft exact_parseUnits sample_read_hash (sample_form k target)
          (num_of_Z 1700000000000) with
  | Ok m => m
  | Throw _ => VUndef
  end.

Lemma drafted_operation_executes_witness :
  exists title w,
    buildTreasuryExecutionRequest (json_clean (sample_draft approveSpender sample_address))
      (op_hash (ApproveSpender 167 167 1250500000)) sample_address None
    = Ok (Some {| x_title := title; x_tx := Ok w |})
    /\ call_of_write w
       = Ok (Execute (ApproveSpender 167 167 1250500000) (op_hash (ApproveSpender 167 167 1250500000))).
Proof.
  destruct (drafted_operation_executes exact_parseUnits sample_read_hash sample_read_hash_sound
    (sample_form approveSpender sample_address) (num_of_Z 1700000000000)
    (sample_draft approveSpender sample_address)) as [_ Hx]; [vm_compute; reflexivity|].
  apply (Hx (fun _ => num_zero) (json_clean (sample_draft approveSpender sample_address))
           sample_address None).
  right. left. reflexivity.
Defined.

Lemma drafted_operation_lifecycle_witness :
  exists c1 title w k,
    get "operationId" (sample_draft setOperator sample_address) = VStr (op_hash (SetOperator 167))
    /\ exec (sample_env 1 100) (Schedule (op_hash (SetOperator 167)) 90) sample_treasury
       = Ok (c1, [OperationScheduled (op_hash (SetOperator 167)) 190 1])
    /\ buildTreasuryExecutionRequest (sample_draft setOperator sample_address)
         (op_hash (SetOperator 167)) sample_address None
       = Ok (Some {| x_title := title; x_tx := Ok w |})
    /\ call_of_write w = Ok k
    /\ exec (sample_env 5 150) k c1 = Throw "FluxSwapTreasury: OPERATION_NOT_READY".
Proof.
  destruct (drafted_operation_lifecycle exact_parseUnits sample_read_hash sample_read_hash_sound
    (sample_form setOperator sample_address) (num_of_Z 1700000000000)
    (sample_draft setOperator sample_address) 90 sample_treasury (sample_env 1 100)
    sample_address None) as (c1 & title & w & k & H1 & H2 & H3 & H4 & H5);
    [vm_compute; reflexivity|vm_compute; reflexivity|reflexivity|reflexivity|reflexivity
    |vm_compute; discriminate|vm_compute; reflexivity|vm_compute; reflexivity|].
  exists c1, title, w, k. split_and!; try assumption.
  exact (H5 (sample_env 5 150) eq_refl).
Defined.

(** The form takes the zero address for a role: its operation can be scheduled, and
    the contract rejects its execution for ever. *)
Theorem zero_address_never_executes :
  let zero := "0x0000000000000000000000000000000000000000" in
  get "operationId" (sample_draft setOperator zero) = VStr (op_hash (SetOperator 0))
  /\ forall e c, exec e (Execute (SetOperator 0) (op_hash (SetOperator 0))) c
       = Throw "FluxSwapTreasury: ZERO_ADDRESS".
Proof. split; [vm_compute; reflexivity|]. intros e c. reflexivity. Qed.

Definition sample_row (cap spent : Z) : TreasuryTokenRow :=
  {| tr_token := sample_token; tr_balance := 10000000; tr_approvedSpendRemaining := 0;
     tr_dailySpendCap := cap; tr_spentToday := spent; tr_allowed := true; tr_isNative := false |}.

Definition sample_allocation (cap spent : Z) : allocation :=
  {| al_treasuryAddress := Some sample_address; al_selectedToken := Some (sample_row cap spent);
     al_publicClient := true; al_mounted := true; al_isConnected := true; al_canAllocate := true;
     al_paused := false; al_recipientAddress := sample_address; al_amountValue := "2";
     al_gas := None |}.

Definition sample_spending (cap spent d : Z) : treasury :=
  with_caps (<[167 := cap]> ∅) (<[167 := spent]> ∅) (<[167 := d]> ∅) ∅
    (with_lists (<[167 := true]> ∅) (<[167 := true]> ∅) sample_treasury).

Lemma allocation_outcome_witness :
  exists k n, call_of_write (allocation_request sample_address (sample_row 5000000 1000000)
                               sample_address 2000000 None) = Ok k
    /\ n = 2000000
    /\ exists c', exec (sample_env 1 86500) k (sample_spending 5000000 1000000 1)
         = transfer_out (sample_env 1 86500) 167 167 n c'.
Proof.
  destruct (allocation_outcome exact_parseUnits
    (fun _ r => Ok (is_ (allowedRecipients (sample_spending 5000000 1000000 1)) (address_value r)))
    (sample_allocation 5000000 1000000) "已划拨金库资产"
    (allocation_request sample_address (sample_row 5000000 1000000) sample_address 2000000 None)
    (sample_row 5000000 1000000) (sample_spending 5000000 1000000 1) (sample_env 1 86500))
    as (k & n & Hk & Hn & c' & He & _).
  - vm_compute. reflexivity.
  - reflexivity.
  - constructor; try (vm_compute; reflexivity); [right; vm_compute; reflexivity|].
    split_and!; vm_compute; done.
  - intros a r b [= <-]. reflexivity.
  - right. reflexivity.
  - reflexivity.
  - exists k, n. split; [exact Hk|]. split; [vm_compute in Hn; congruence|]. by exists c'.
Defined.

(** Spending of an earlier day still counts against the page's cap: it refuses an
    allocation the contract accepts. *)
Theorem earlier_day_counts :
  submitTreasuryAllocation exact_parseUnits (fun _ _ => Ok true) (sample_allocation 5000000 4000000)
  = Ok (Reported (error_modal "划拨失败" "本次划拨会超过该资产今日剩余额度。"))
  /\ row_current (sample_spending 5000000 4000000 0) (sample_row 5000000 4000000)
  /\ is_ok (exec (sample_env 1 86500) (Allocate 167 167 2000000) (sample_spending 5000000 4000000 0))
     = true.
Proof.
  split; [vm_compute; reflexivity|]. split; [|vm_compute; reflexivity].
  constructor; try (vm_compute; reflexivity); [right; vm_compute; reflexivity|].
  split_and!; vm_compute; done.
Qed.
