(* ===== verification/AdminPage.v ===== *)
(** * The administration page as a state machine

    What an effectful function of the administration client works on: the browser's
    storage, React's record of operation metadata, and the trace of what the page did
    (requests, transactions, dialogs).  The world it talks to - the backend, the wallet,
    the chain node, the clock - answers as a function of that trace.  A function of the
    source is a [page_io]: it changes the page and returns or throws. *)

From S2P Require Import Prelude JsString JsNumber JsValue JsError.
From S2P Require Import TreasuryContract TreasuryAbi TreasuryForms.
Open Scope string_scope.
Open Scope Z_scope.

Inductive ActiveTreasuryAction :=
| act_schedule | act_allocate | act_pause | act_unpause
| act_execute (id : string) | act_cancel (id : string).

Record ConfirmModal := {
  cm_title : string;
  cm_message : string;
  cm_danger : bool;
  cm_confirmLabel : string;
}.

Section page.
Context {raw : Type}.

(** A request to the backend: its path, method, headers and body. *)
Record request := {
  rq_url : string;
  rq_method : string;
  rq_headers : obj;
  rq_body : option raw;
}.

(** The response, with what parsing its body gives, if it parses. *)
Record response := { rs_status : Z; rs_json : option jsval }.
Definition rs_ok (r : response) : bool := (200 <=? rs_status r) && (rs_status r <=? 299).

Inductive page_event :=
  | Fetched (r : request)
  | Signed (message : jsval)
  | Wrote (w : write_request)
  | Awaited (hash : string)
  | Shown (m : ResultModal)
  | Confirming (m : ConfirmModal)
  | ConnectOpened
  | Active (a : option ActiveTreasuryAction)
  | Warned (e : js_error)
  | Reloaded.

Record page := {
  local : gmap string raw;
  metadataById : jsval;
  trace : list page_event;
}.

(** Newest event last. *)
Record world := {
  has_window : bool;
  date_now : list page_event -> Z;
  date_parse : string -> num;
  to_iso_string : num -> res js_error string;
  fetch : list page_event -> request -> res js_error response;
  sign_message : list page_event -> jsval -> res js_error jsval;
  write_contract : list page_event -> write_request -> res js_error string;
  wait_receipt : list page_event -> string -> res js_error unit;
  error_text : js_error -> string;
}.

Definition page_io (A : Type) : Type := page -> page * res js_error A.

Definition ret {A} (r : res js_error A) : page_io A := fun p => (p, r).
Definition bind {A B} (m : page_io A) (k : A -> page_io B) : page_io B := fun p =>
  match m p with
  | (p', Ok a) => k a p'
  | (p', Throw e) => (p', Throw e)
  end.
Definition catch {A} (m : page_io A) (h : js_error -> page_io A) : page_io A := fun p =>
  match m p with
  | (p', Ok a) => (p', Ok a)
  | (p', Throw e) => h e p'
  end.

Definition with_local (l : gmap string raw) (p : page) : page :=
  {| local := l; metadataById := metadataById p; trace := trace p |}.
Definition with_metadata (m : jsval) (p : page) : page :=
  {| local := local p; metadataById := m; trace := trace p |}.
Definition with_event (e : page_event) (p : page) : page :=
  {| local := local p; metadataById := metadataById p; trace := (trace p ++ [e])%list |}.

Definition log (e : page_event) : page_io unit := fun p => (with_event e p, Ok tt).
(** A call to the world: it is in the trace when the answer comes. *)
Definition ask {A} (e : page_event) (answer : list page_event -> res js_error A) : page_io A := fun p =>
  let p' := with_event e p in (p', answer (trace p')).
End page.
Arguments request raw : clear implicits.
Arguments page_event raw : clear implicits.
Arguments page raw : clear implicits.
Arguments world raw : clear implicits.

Declare Scope page_scope.
Delimit Scope page_scope with page.
Notation "'do' x <- m ; k" := (bind m (fun x => k))
  (at level 200, x name, m at level 100, k at level 200, right associativity) : page_scope.
Notation "'run' m ; k" := (bind m (fun _ => k))
  (at level 200, m at level 100, k at level 200, right associativity) : page_scope.

(** ** What a function leaves in the trace *)

Section traces.
Context {raw : Type}.
Implicit Types p : page raw.

(** The transactions among some events. *)
Definition writes (l : list (page_event raw)) : list write_request :=
  omap (fun e => match e with Wrote w => Some w | _ => None end) l.

Lemma writes_app l1 l2 : writes (l1 ++ l2)%list = (writes l1 ++ writes l2)%list.
Proof. unfold writes. apply omap_app. Qed.

(** A function adds to the trace at most one transaction, and one that satisfies [Q]. *)
Definition may_write {A} (Q : write_request -> Prop) (m : @page_io raw A) : Prop :=
  forall p, exists l, trace (fst (m p)) = (trace p ++ l)%list
    /\ (length (writes l) <= 1)%nat /\ Forall Q (writes l).

(** It adds none. *)
Definition silent {A} (m : @page_io raw A) : Prop :=
  forall p, exists l, trace (fst (m p)) = (trace p ++ l)%list /\ writes l = [].

Lemma silent_may_write {A} Q (m : @page_io raw A) : silent m -> may_write Q m.
Proof.
  intros Hm p. destruct (Hm p) as (l & Ht & Hl). exists l. split; [done|]. rewrite Hl. simpl.
  split; [lia|constructor].
Qed.

Lemma may_write_impl {A} (Q Q' : write_request -> Prop) (m : @page_io raw A) :
  (forall w, Q w -> Q' w) -> may_write Q m -> may_write Q' m.
Proof.
  intros HQ Hm p. destruct (Hm p) as (l & Ht & Hl & HF). exists l. split_and!; try done.
  by eapply Forall_impl.
Qed.

Lemma silent_pure {A} (m : @page_io raw A) : (forall p, trace (fst (m p)) = trace p) -> silent m.
Proof. intros Hm p. exists []. rewrite Hm, app_nil_r. done. Qed.

Lemma silent_ret {A} (r : res js_error A) : silent (ret r).
Proof. by apply silent_pure. Qed.

Definition no_write (e : page_event raw) : bool := match e with Wrote _ => false | _ => true end.

Lemma silent_ask {A} e (answer : list (page_event raw) -> res js_error A) :
  no_write e = true -> silent (ask e answer).
Proof. intros He p. exists [e]. split; [done|]. by destruct e. Qed.

Lemma silent_log e : no_write e = true -> silent (log e).
Proof. intros He p. exists [e]. split; [done|]. by destruct e. Qed.

Lemma silent_bind {A B} (m : @page_io raw A) (k : A -> page_io B) :
  silent m -> (forall a, silent (k a)) -> silent (bind m k).
Proof.
  intros Hm Hk p. unfold bind. destruct (Hm p) as (l1 & Ht1 & Hl1).
  destruct (m p) as [p1 [a|e]]; simpl in *; [|eauto].
  destruct (Hk a p1) as (l2 & Ht2 & Hl2). exists (l1 ++ l2)%list.
  rewrite Ht2, Ht1, <- app_assoc, writes_app, Hl1, Hl2. done.
Qed.

Lemma silent_catch {A} (m : @page_io raw A) h :
  silent m -> (forall e, silent (h e)) -> silent (catch m h).
Proof.
  intros Hm Hh p. unfold catch. destruct (Hm p) as (l1 & Ht1 & Hl1).
  destruct (m p) as [p1 [a|e]]; simpl in *; [eauto|].
  destruct (Hh e p1) as (l2 & Ht2 & Hl2). exists (l1 ++ l2)%list.
  rewrite Ht2, Ht1, <- app_assoc, writes_app, Hl1, Hl2. done.
Qed.

(** One step of a sequence writes, the others do not. *)
Lemma may_write_after {A B} Q (m : @page_io raw A) (k : A -> page_io B) :
  silent m -> (forall a, may_write Q (k a)) -> may_write Q (bind m k).
Proof.
  intros Hm Hk p. unfold bind. destruct (Hm p) as (l1 & Ht1 & Hl1).
  destruct (m p) as [p1 [a|e]]; simpl in *;
    [|exists l1; rewrite Hl1; simpl; split_and!; [done|lia|constructor]].
  destruct (Hk a p1) as (l2 & Ht2 & Hl2 & HF). exists (l1 ++ l2)%list.
  rewrite Ht2, Ht1, <- app_assoc, writes_app, Hl1. done.
Qed.

Lemma may_write_before {A B} Q (m : @page_io raw A) (k : A -> page_io B) :
  may_write Q m -> (forall a, silent (k a)) -> may_write Q (bind m k).
Proof.
  intros Hm Hk p. unfold bind. destruct (Hm p) as (l1 & Ht1 & Hl1 & HF).
  destruct (m p) as [p1 [a|e]]; simpl in *; [|eauto].
  destruct (Hk a p1) as (l2 & Ht2 & Hl2). exists (l1 ++ l2)%list.
  rewrite Ht2, Ht1, <- app_assoc, writes_app, Hl2, app_nil_r. done.
Qed.

Lemma may_write_catch {A} Q (m : @page_io raw A) h :
  may_write Q m -> (forall e, silent (h e)) -> may_write Q (catch m h).
Proof.
  intros Hm Hh p. unfold catch. destruct (Hm p) as (l1 & Ht1 & Hl1 & HF).
  destruct (m p) as [p1 [a|e]]; simpl in *; [eauto|].
  destruct (Hh e p1) as (l2 & Ht2 & Hl2). exists (l1 ++ l2)%list.
  rewrite Ht2, Ht1, <- app_assoc, writes_app, Hl2, app_nil_r. done.
Qed.

Lemma may_write_ret {A B} Q (r : res js_error A) (k : A -> @page_io raw B) :
  (forall a, r = Ok a -> may_write Q (k a)) -> may_write Q (bind (ret r) k).
Proof.
  intros Hk. destruct r as [a|e]; [exact (Hk a eq_refl)|]. intros p. exists [].
  simpl. rewrite app_nil_r. split_and!; [done|lia|constructor].
Qed.
End traces.

#[export] Hint Resolve silent_ret silent_bind silent_catch silent_ask silent_log : flux.
