(* ===== verification/AdminApi.v ===== *)
(** * The backend client (admin-frontend/src/lib/admin-api.ts)

    Requests to the administration backend and the session that authorises them: a
    wallet signs a nonce, the backend answers with a token, and the token is kept in
    the browser's storage until it is about to expire or the backend rejects it. *)

From S2P Require Import Prelude JsString JsUri JsNumber JsValue JsError.
From S2P Require Import TreasuryContract TreasuryAbi TreasuryForms AdminPage.
From Stdlib Require Import Ascii.
Open Scope string_scope.
Open Scope Z_scope.
Open Scope page_scope.

Definition DEFAULT_ADMIN_API_BASE_URL : string := "http://localhost:8081".
Definition ADMIN_SESSION_STORAGE_KEY : string := "fluxswap_admin_session_v1".

(** Drops one slash at the end. *)
Fixpoint drop_last_slash (s : string) : string :=
  match s with
  | EmptyString => EmptyString
  | String c EmptyString => if Ascii.eqb c "/" then EmptyString else s
  | String c r => String c (drop_last_slash r)
  end.

(** From the environment variable NEXT_PUBLIC_ADMIN_API_BASE_URL. *)
Definition adminApiBaseUrl (env : option string) : string :=
  drop_last_slash (default DEFAULT_ADMIN_API_BASE_URL env).

Section api.
Context {raw : Type} `{JsonCodec raw}.
Variable wd : world raw.
Variable base_url : string.
Notation io := (@page_io raw).

(** ** The stored session *)

Definition clearAdminSession : io unit := fun p =>
  if has_window wd then (with_local (delete ADMIN_SESSION_STORAGE_KEY (local p)) p, Ok tt)
  else (p, Ok tt).

(** [session.walletAddress.toLowerCase()] *)
Definition lower_of (v : jsval) : res js_error string :=
  match v with
  | VStr s => Ok (to_lower s)
  | _ => Throw (Error "toLowerCase is not a function")
  end.

(** What the [try] block finds in the parsed session at time [now]. *)
Inductive session_check := Cleared | Foreign | Found (session : jsval).

Definition check_session (now : Z) (walletAddress : option string) (session : jsval)
  : res js_error session_check :=
  res_bind (prop "token" session) (fun token =>
  res_bind (prop "walletAddress" session) (fun wallet =>
  if negb (truthy token) || negb (truthy wallet)
     || num_leb (date_parse wd (to_string (get "expiresAt" session)))
                (num_add (num_of_Z now) (num_of_Z 30000))
  then Ok Cleared
  else match walletAddress with
  | Some w =>
    if str_nonempty w then
      res_bind (lower_of wallet) (fun l => Ok (if String.eqb l (to_lower w) then Found session else Foreign))
    else Ok (Found session)
  | None => Ok (Found session)
  end)).

Definition getStoredAdminSession (walletAddress : option string) : io jsval := fun p =>
  if negb (has_window wd) then (p, Ok VNull)
  else match local p !! ADMIN_SESSION_STORAGE_KEY with
  | None => (p, Ok VNull)
  | Some t =>
    if json_falsy t then (p, Ok VNull)
    else match json_parse t with
    | None => (run clearAdminSession; ret (Ok VNull)) p
    | Some session =>
      match check_session (date_now wd (trace p)) walletAddress session with
      | Ok (Found s) => (p, Ok s)
      | Ok Foreign => (p, Ok VNull)
      | Ok Cleared | Throw _ => (run clearAdminSession; ret (Ok VNull)) p
      end
    end
  end.

Definition saveAdminSession (session : jsval) : io unit := fun p =>
  if negb (has_window wd) then (p, Ok tt)
  else match prop "walletAddress" session with
  | Throw e => (p, Throw e)
  | Ok w =>
    (with_local (<[ADMIN_SESSION_STORAGE_KEY := json_stringify
       (VObj [("walletAddress", w); ("token", get "token" session);
              ("expiresAt", get "expiresAt" session)])]> (local p)) p, Ok tt)
  end.

(** ** Requests *)

Definition readAdminApiError (r : response) : jsval :=
  match rs_json r with
  | Some VUndef | Some VNull | None => VStr ""
  | Some payload => nullish (get "error" payload) (VStr "")
  end.

Definition request_headers (session : jsval) : obj :=
  if truthy session
  then [("Content-Type", VStr "application/json");
        ("Authorization", VStr ("Bearer " ++ to_string (get "token" session)))]
  else [("Content-Type", VStr "application/json")].

Definition is_auth_failure (r : response) : bool := (rs_status r =? 401) || (rs_status r =? 403).

Definition read_response (r : response) : io jsval :=
  if rs_ok r then
    ret (match rs_json r with
         | Some payload => prop "data" payload
         | None => Throw (Error "Unexpected token in JSON")
         end)
  else
    run (if is_auth_failure r then clearAdminSession else ret (Ok tt));
    let message := readAdminApiError r in
    ret (Throw (Error (if truthy message then to_string message
                       else "管理后端请求失败：" ++ dec (rs_status r)))).

Definition adminApiRequest (path method : string) (requireAuth : bool) (body : option raw) : io jsval :=
  do session <- (if requireAuth then getStoredAdminSession None else ret (Ok VNull));
  let rq := {| rq_url := base_url ++ path; rq_method := method;
               rq_headers := request_headers session; rq_body := body |} in
  do r <- ask (Fetched rq) (fun t => fetch wd t rq);
  read_response r.

(** [params] in the order of its properties; undefined and empty values are left out. *)
Definition search_params (params : list (string * option string)) : list (string * string) :=
  foldl (fun l kv => match kv.2 with
                     | Some v => if str_nonempty v then params_set kv.1 v l else l
                     | None => l
                     end) [] params.

Definition adminApiGet (path : string) (params : list (string * option string)) : io jsval :=
  let query := params_to_string (search_params params) in
  adminApiRequest (if str_nonempty query then path ++ "?" ++ query else path) "GET" false None.

Definition listAdminTreasuryOperations (params : list (string * option string)) : io jsval :=
  adminApiGet "/api/admin/treasury/operations" params.

Definition listAdminOperationLogs (params : list (string * option string)) : io jsval :=
  adminApiGet "/api/admin/logs" params.

Definition upsertAdminTreasuryOperation (input : jsval) : io jsval :=
  adminApiRequest "/api/admin/treasury/operations" "POST" true (Some (json_stringify input)).

Definition updateAdminTreasuryOperationStatus (operationId : string) (input : jsval) : io jsval :=
  adminApiRequest ("/api/admin/treasury/operations/" ++ encodeURIComponent operationId ++ "/status")
    "PATCH" true (Some (json_stringify input)).

Definition createAdminAuthNonce (walletAddress : string) : io jsval :=
  adminApiRequest "/api/admin/auth/nonce" "POST" false
    (Some (json_stringify (VObj [("walletAddress", VStr walletAddress)]))).

Definition verifyAdminAuthNonce (walletAddress : string) (nonce signature : jsval) : io jsval :=
  do session <- adminApiRequest "/api/admin/auth/verify" "POST" false
                  (Some (json_stringify (VObj [("walletAddress", VStr walletAddress);
                                               ("nonce", nonce); ("signature", signature)])));
  run saveAdminSession session;
  ret (Ok session).

Definition ensureAdminSession (walletAddress : option string) : io jsval :=
  match walletAddress with
  | Some w =>
    if str_nonempty w then
      do existing <- getStoredAdminSession (Some w);
      if truthy existing then ret (Ok existing)
      else
        do nonce <- createAdminAuthNonce w;
        do message <- ret (prop "message" nonce);
        do signature <- ask (Signed message) (fun t => sign_message wd t message);
        do n <- ret (prop "nonce" nonce);
        verifyAdminAuthNonce w n signature
    else ret (Throw (Error "请先连接管理员钱包"))
  | None => ret (Throw (Error "请先连接管理员钱包"))
  end.
End api.

(** ** Sessions *)

Section sessions.
Context {raw : Type} `{JsonCodec raw}.
Variable wd : world raw.
Variable base_url : string.

(** A session the client will use at time [now]. *)
Definition live (now : Z) (s : jsval) : Prop :=
  truthy (get "token" s) = true /\ truthy (get "walletAddress" s) = true
  /\ num_leb (date_parse wd (to_string (get "expiresAt" s)))
       (num_add (num_of_Z now) (num_of_Z 30000)) = false.

(** The session in storage. *)
Definition stored (p : page raw) (s : jsval) : Prop :=
  has_window wd = true
  /\ exists t, local p !! ADMIN_SESSION_STORAGE_KEY = Some t /\ json_falsy t = false
     /\ json_parse t = Some s.

Lemma prop_get k v x : prop k v = Ok x -> x = get k v.
Proof. unfold prop. destruct v; intros [= <-]; done. Qed.

Lemma check_session_Found now w s s' :
  check_session wd now w s = Ok (Found s') ->
  s' = s /\ live now s
  /\ forall x, w = Some x -> str_nonempty x = true ->
     exists a, get "walletAddress" s = VStr a /\ to_lower a = to_lower x.
Proof.
  unfold check_session, live. intros Hc. bind_inv Hc. bind_inv Hc.
  apply prop_get in E as ->. apply prop_get in E0 as ->.
  case_in Hc; [done|]. bool_solve. destruct w as [x|].
  - destruct (str_nonempty x) eqn:Hx.
    + destruct (get "walletAddress" s) as [| | | | |a| |] eqn:Ha; simpl in Hc; try done.
      destruct (String.eqb_spec (to_lower a) (to_lower x)); simplify_eq.
      split_and!; try done. intros y [= <-] _. eauto.
    + simplify_eq. split_and!; try done. intros y [= <-]. by rewrite Hx.
  - simplify_eq. split_and!; done.
Qed.

Lemma live_truthy now s : live now s -> truthy s = true.
Proof. intros (Ht & _). destruct s; done. Qed.

Lemma check_session_live now s : live now s -> check_session wd now None s = Ok (Found s).
Proof.
  intros (Ht & Hw & He). unfold check_session.
  destruct s as [| | | | | | |o]; try done. simpl in *. by rewrite Ht, Hw, He.
Qed.

(** Reading the session never throws, adds nothing to the trace, and finds a stored
    live session or nothing. *)
Lemma getStored_spec w p :
  exists p' v, getStoredAdminSession wd w p = (p', Ok v) /\ trace p' = trace p
    /\ (v = VNull \/ p' = p /\ stored p v /\ live (date_now wd (trace p)) v
        /\ forall x, w = Some x -> str_nonempty x = true ->
           exists a, get "walletAddress" v = VStr a /\ to_lower a = to_lower x).
Proof.
  unfold getStoredAdminSession, clearAdminSession. destruct (has_window wd) eqn:Hw; simpl; [|eauto 6].
  destruct (local p !! ADMIN_SESSION_STORAGE_KEY) as [t|] eqn:Et; [|eauto 6].
  destruct (json_falsy t) eqn:Hf; [eauto 6|].
  destruct (json_parse t) as [s|] eqn:Hp; [|eauto 6].
  destruct (check_session _ _ _ _) as [[| |s']|e] eqn:Ec; try (eexists _, _; eauto; fail).
  apply check_session_Found in Ec as (-> & Hl & Hx). eexists _, _. split; [done|]. split; [done|].
  right. split_and!; try done; unfold stored; eauto.
Qed.

Lemma getStored_live p s :
  stored p s -> live (date_now wd (trace p)) s -> getStoredAdminSession wd None p = (p, Ok s).
Proof.
  intros (Hw & t & Ht & Hf & Hp) Hl. unfold getStoredAdminSession.
  by rewrite Hw, Ht, Hf, Hp, check_session_live.
Qed.

Lemma read_response_spec r p :
  trace (fst (read_response wd r p)) = trace p
  /\ (is_auth_failure r = true -> has_window wd = true ->
      local (fst (read_response wd r p)) !! ADMIN_SESSION_STORAGE_KEY = None
      /\ is_ok (snd (read_response wd r p)) = false).
Proof.
  unfold read_response. destruct (is_auth_failure r) eqn:Ha.
  - assert (rs_ok r = false) as ->.
    { unfold is_auth_failure, rs_ok in *. apply orb_true_iff in Ha as [Ha|Ha]; apply Z.eqb_eq in Ha;
        by rewrite Ha. }
    unfold clearAdminSession, bind. destruct (has_window wd); simpl; [|done].
    by rewrite lookup_delete_eq.
  - destruct (rs_ok r); done.
Qed.

(** Where the session token goes.  Every request is one fetch of the given path;
    it carries a token exactly when it asks for authorisation and storage holds a live
    session, whose token it is; and a response that rejects the authorisation leaves no
    session in storage and no result. *)
Theorem session_token_discipline path method requireAuth body p :
  let r := adminApiRequest wd base_url path method requireAuth body p in
  exists rq, trace (fst r) = (trace p ++ [Fetched rq])%list
    /\ rq_url rq = base_url ++ path /\ rq_body rq = body
    /\ (forall s, requireAuth = true -> stored p s -> live (date_now wd (trace p)) s ->
        obj_get "Authorization" (rq_headers rq) = VStr ("Bearer " ++ to_string (get "token" s)))
    /\ (obj_get "Authorization" (rq_headers rq) <> VUndef ->
        requireAuth = true /\ exists s, stored p s /\ live (date_now wd (trace p)) s)
    /\ forall x, fetch wd (trace (fst r)) rq = Ok x -> is_auth_failure x = true ->
       has_window wd = true ->
       local (fst r) !! ADMIN_SESSION_STORAGE_KEY = None /\ is_ok (snd r) = false.
Proof.
  unfold adminApiRequest, bind, ask.
  assert (exists p' v, (if requireAuth then getStoredAdminSession wd None else ret (Ok VNull)) p
            = (p', Ok v) /\ trace p' = trace p
          /\ (truthy v = true -> requireAuth = true /\ stored p v /\ live (date_now wd (trace p)) v)
          /\ forall s, requireAuth = true -> stored p s -> live (date_now wd (trace p)) s -> v = s)
    as (p' & v & -> & Ht & Hv & Hs).
  { destruct requireAuth.
    - destruct (getStored_spec None p) as (p' & v & Hg & Ht & Hv). exists p', v.
      split_and!; try done.
      + intros Htr. destruct Hv as [->|(-> & Hst & Hl & _)]; done.
      + intros s _ Hst Hl. rewrite (getStored_live p s Hst Hl) in Hg. by injection Hg.
    - eexists _, _. split_and!; try done. }
  cbn -[fetch read_response with_event].
  set (rq := {| rq_url := _; rq_method := _; rq_headers := _; rq_body := _ |}).
  exists rq.
  assert (trace (with_event (Fetched rq) p') = (trace p ++ [Fetched rq])%list) as Htr
    by (cbn; by rewrite Ht).
  split; [|split; [done|split; [done|split; [|split]]]].
  - destruct (fetch _ _ _) as [x|e]; [|exact Htr].
    rewrite (proj1 (read_response_spec x _)). exact Htr.
  - intros s Ha Hst Hl. destruct (Hs s Ha Hst Hl). subst rq. cbn. unfold request_headers.
    by rewrite (live_truthy _ _ Hl).
  - subst rq. cbn. unfold request_headers. destruct (truthy v) eqn:Hv'; [|done]. intros _.
    destruct (Hv eq_refl) as (? & ? & ?). eauto.
  - intros x Hx Ha Hw. rewrite Htr in *.
    destruct (fetch wd (trace p ++ [Fetched rq])%list rq) as [y|e] eqn:Ef.
    + destruct (read_response_spec y (with_event (Fetched rq) p')) as [Hrt Hrl].
      rewrite Hrt, Htr, Ef in Hx. injection Hx as ->. by apply Hrl.
    + cbn [fst] in Hx. by rewrite Htr, Ef in Hx.
Qed.

(** The backend answers a verification with a session of the wallet it was asked for. *)
Definition verifies (w : string) : Prop :=
  forall t rq r, rq_url rq = base_url ++ "/api/admin/auth/verify" -> fetch wd t rq = Ok r ->
  rs_ok r = true ->
  exists payload o a tok e, rs_json r = Some payload /\ prop "data" payload = Ok (VObj o)
    /\ obj_get "walletAddress" o = VStr a /\ to_lower a = to_lower w
    /\ obj_get "token" o = VStr tok /\ str_nonempty tok = true /\ obj_get "expiresAt" o = VStr e.

(** A session for a wallet, in storage, as the caller gets it. *)
Definition session_for (w : string) (p : page raw) (s : jsval) : Prop :=
  exists s' a, stored p s' /\ get "token" s' = get "token" s
    /\ get "expiresAt" s' = get "expiresAt" s
    /\ truthy (get "token" s') = true /\ truthy (get "walletAddress" s') = true
    /\ get "walletAddress" s = VStr a /\ to_lower a = to_lower w.

Lemma to_lower_nonempty a w : to_lower a = to_lower w -> str_nonempty w = true -> str_nonempty a = true.
Proof. by destruct a, w. Qed.

Lemma verify_session w nonce signature p p1 s :
  has_window wd = true -> str_nonempty w = true -> verifies w ->
  verifyAdminAuthNonce wd base_url w nonce signature p = (p1, Ok s) -> session_for w p1 s.
Proof.
  intros Hw Hne Hv. unfold verifyAdminAuthNonce, adminApiRequest, bind, ask, ret.
  set (rq := {| rq_url := _; rq_method := _; rq_headers := _; rq_body := _ |}).
  destruct (fetch wd _ rq) as [r|] eqn:Ef; [|done]. unfold read_response.
  destruct (rs_ok r) eqn:Hr.
  - destruct (Hv _ rq r eq_refl Ef Hr) as (pl & o & a & tok & e & Hj & Hd & Ha & Hl & Ht & Htn & He).
    unfold ret. rewrite Hj, Hd. unfold saveAdminSession. rewrite Hw. cbn. rewrite Ha, Ht, He.
    intros [= <- <-].
    exists (VObj [("walletAddress", VStr a); ("token", VStr tok); ("expiresAt", VStr e)]), a.
    split_and!; try done; [split; [done|]|].
    + eexists. cbn. rewrite lookup_insert_eq. split; [done|].
      split; [apply json_stringify_truthy|]. by rewrite json_parse_stringify.
    + by apply (to_lower_nonempty a w).
  - unfold bind. by destruct (is_auth_failure r); unfold clearAdminSession; rewrite ?Hw.
Qed.

Lemma ensure_session w p p1 s :
  has_window wd = true -> verifies w ->
  ensureAdminSession wd base_url (Some w) p = (p1, Ok s) -> session_for w p1 s.
Proof.
  intros Hw Hv. unfold ensureAdminSession. destruct (str_nonempty w) eqn:Hne; [|done].
  destruct (getStored_spec (Some w) p) as (p' & v & Hg & _ & Hs).
  unfold bind at 1. rewrite Hg. destruct (truthy v) eqn:Ht.
  - destruct Hs as [->|(-> & Hst & (Htok & Hwal & _) & Hx)]; [done|]. intros [= <- <-].
    destruct (Hx w eq_refl Hne) as (a & Ha & Hl). by exists v, a.
  - unfold bind at 1. destruct (createAdminAuthNonce _ _ _ _) as [p2 [nonce|]]; [|done].
    unfold bind, ret, ask. destruct (prop "message" nonce) as [m|]; [|done].
    destruct (sign_message wd _ m) as [sg|]; [|done].
    destruct (prop "nonce" nonce) as [n|]; [|done].
    by apply verify_session.
Qed.

(** What [ensureAdminSession] is for.  When it returns a session, the session is
    of the wallet it was called with; and as long as storage keeps it and it is not
    about to expire, every request that asks for authorisation carries its token. *)
Theorem ensured_session_authorizes w p p1 s :
  has_window wd = true -> verifies w ->
  ensureAdminSession wd base_url (Some w) p = (p1, Ok s) ->
  (exists a, get "walletAddress" s = VStr a /\ to_lower a = to_lower w)
  /\ forall p2 path method body,
     local p2 !! ADMIN_SESSION_STORAGE_KEY = local p1 !! ADMIN_SESSION_STORAGE_KEY ->
     num_leb (date_parse wd (to_string (get "expiresAt" s)))
       (num_add (num_of_Z (date_now wd (trace p2))) (num_of_Z 30000)) = false ->
     exists rq,
       trace (fst (adminApiRequest wd base_url path method true body p2))
       = (trace p2 ++ [Fetched rq])%list
       /\ rq_url rq = base_url ++ path /\ rq_method rq = method /\ rq_body rq = body
       /\ obj_get "Authorization" (rq_headers rq) = VStr ("Bearer " ++ to_string (get "token" s)).
Proof.
  intros Hw Hv He.
  destruct (ensure_session w p p1 s Hw Hv He) as (s' & a & (_ & t & Ht & Hf & Hp) & Htok & Hex & H1 & H2 & Ha & Hl).
  split; [eauto|]. intros p2 path method body Hloc Hexp.
  assert (live (date_now wd (trace p2)) s') as Hlive by (unfold live; by rewrite Hex).
  assert (stored p2 s') as Hst by (split; [done|]; exists t; by rewrite Hloc).
  unfold adminApiRequest, bind, ask. rewrite (getStored_live p2 s' Hst Hlive).
  exists {| rq_url := base_url ++ path; rq_method := method; rq_headers := request_headers s';
            rq_body := body |}.
  split; [|split; [reflexivity|split; [reflexivity|split; [reflexivity|]]]].
  - destruct (fetch _ _ _) as [x|e]; [|reflexivity].
    rewrite (proj1 (read_response_spec x _)). reflexivity.
  - cbn. unfold request_headers. rewrite (live_truthy _ _ Hlive). cbn. by rewrite Htok.
Qed.

(** A session whose expiry is not a date never expires. *)
Theorem unparsable_expiry_never_expires s :
  truthy (get "token" s) = true -> truthy (get "walletAddress" s) = true ->
  date_parse wd (to_string (get "expiresAt" s)) = num_nan ->
  forall now, live now s.
Proof. intros Ht Hw Hn now. unfold live. by rewrite Hn. Qed.
End sessions.

(** ** The client writes no transaction and keeps to its own storage key *)

Section frame.
Context {raw : Type} `{JsonCodec raw}.
Variable wd : world raw.
Variable base_url : string.

Lemma silent_clear : silent (clearAdminSession wd).
Proof. apply silent_pure. intros p. unfold clearAdminSession. by destruct (has_window wd). Qed.

Lemma silent_getStored w : silent (getStoredAdminSession wd w).
Proof.
  apply silent_pure. intros p. destruct (getStored_spec wd w p) as (p' & v & -> & Ht & _). exact Ht.
Qed.

Lemma silent_read_response r : silent (read_response wd r).
Proof. apply silent_pure. intros p. apply read_response_spec. Qed.

Lemma silent_request path method auth body : silent (adminApiRequest wd base_url path method auth body).
Proof.
  unfold adminApiRequest. destruct auth;
    repeat (intros; apply silent_bind); intros; auto using silent_getStored, silent_ret,
      silent_ask, silent_read_response.
Qed.

Lemma silent_ensure w : silent (ensureAdminSession wd base_url w).
Proof.
  unfold ensureAdminSession. destruct w as [w|]; [|apply silent_ret].
  destruct (str_nonempty w); [|apply silent_ret].
  apply silent_bind; [apply silent_getStored|]. intros v. destruct (truthy v); [apply silent_ret|].
  apply silent_bind; [apply silent_request|]. intros n. apply silent_bind; [apply silent_ret|]. intros m.
  apply silent_bind; [by apply silent_ask|]. intros sg. apply silent_bind; [apply silent_ret|]. intros k.
  apply silent_bind; [apply silent_request|]. intros s. apply silent_bind; [|intros; apply silent_ret].
  apply silent_pure. intros p. unfold saveAdminSession. destruct (has_window wd); [|done]. simpl.
  by destruct (prop "walletAddress" s).
Qed.

(** A function that leaves every other key of storage and the metadata alone. *)
Definition framed {A} (m : @page_io raw A) : Prop :=
  forall p k, k <> ADMIN_SESSION_STORAGE_KEY ->
  local (fst (m p)) !! k = local p !! k /\ metadataById (fst (m p)) = metadataById p.

Lemma framed_pure {A} (m : @page_io raw A) :
  (forall p, local (fst (m p)) = local p /\ metadataById (fst (m p)) = metadataById p) -> framed m.
Proof. intros Hm p k _. by destruct (Hm p) as [-> ->]. Qed.

Lemma framed_bind {A B} (m : @page_io raw A) (k : A -> page_io B) :
  framed m -> (forall a, framed (k a)) -> framed (bind m k).
Proof.
  intros Hm Hk p x Hx. unfold bind. destruct (Hm p x Hx) as [Hl Hd].
  destruct (m p) as [p1 [a|e]]; simpl in *; [|done]. by destruct (Hk a p1 x Hx) as [-> ->].
Qed.

Lemma framed_catch {A} (m : @page_io raw A) h :
  framed m -> (forall e, framed (h e)) -> framed (catch m h).
Proof.
  intros Hm Hh p x Hx. unfold catch. destruct (Hm p x Hx) as [Hl Hd].
  destruct (m p) as [p1 [a|e]]; simpl in *; [done|]. by destruct (Hh e p1 x Hx) as [-> ->].
Qed.

Lemma framed_ret {A} (r : res js_error A) : framed (ret r).
Proof. by apply framed_pure. Qed.
Lemma framed_ask {A} e (f : list (page_event raw) -> res js_error A) : framed (ask e f).
Proof. by apply framed_pure. Qed.
Lemma framed_log e : framed (log e).
Proof. by apply framed_pure. Qed.

Lemma framed_clear : framed (clearAdminSession wd).
Proof.
  intros p k Hk. unfold clearAdminSession. destruct (has_window wd); [|done]. simpl.
  split; [|done]. by rewrite lookup_delete_ne.
Qed.

Lemma framed_getStored w : framed (getStoredAdminSession wd w).
Proof.
  intros p k Hk. unfold getStoredAdminSession.
  pose proof (framed_bind (clearAdminSession wd) (fun _ => ret (Ok VNull)) framed_clear
                (fun _ => framed_ret _) p k Hk) as Hc.
  destruct (has_window wd); [|done]. simpl. destruct (local p !! ADMIN_SESSION_STORAGE_KEY) as [t|]; [|done].
  destruct (json_falsy t); [done|]. destruct (json_parse t) as [s|]; [|exact Hc].
  destruct (check_session _ _ _ _) as [[]|]; done || exact Hc.
Qed.

Lemma framed_request path method auth body : framed (adminApiRequest wd base_url path method auth body).
Proof.
  unfold adminApiRequest. apply framed_bind; [destruct auth; [apply framed_getStored|apply framed_ret]|].
  intros v. apply framed_bind; [apply framed_ask|]. intros r. unfold read_response.
  destruct (rs_ok r); [apply framed_ret|]. apply framed_bind; [|intros; apply framed_ret].
  destruct (is_auth_failure r); [apply framed_clear|apply framed_ret].
Qed.

Lemma framed_save s : framed (saveAdminSession wd s).
Proof.
  intros p k Hk. unfold saveAdminSession. destruct (has_window wd); [|done]. simpl.
  destruct (prop "walletAddress" s); [|done]. simpl. split; [|done]. by rewrite lookup_insert_ne.
Qed.

Lemma framed_ensure w : framed (ensureAdminSession wd base_url w).
Proof.
  unfold ensureAdminSession. destruct w as [w|]; [|apply framed_ret].
  destruct (str_nonempty w); [|apply framed_ret].
  apply framed_bind; [apply framed_getStored|]. intros v. destruct (truthy v); [apply framed_ret|].
  apply framed_bind; [apply framed_request|]. intros n. apply framed_bind; [apply framed_ret|]. intros m.
  apply framed_bind; [apply framed_ask|]. intros sg. apply framed_bind; [apply framed_ret|]. intros k.
  apply framed_bind; [apply framed_request|]. intros s. apply framed_bind; [apply framed_save|].
  intros; apply framed_ret.
Qed.
End frame.

(** ** Concrete instances *)

Definition sample_session : jsval :=
  VObj [("walletAddress", VStr "0xA1"); ("verified", VBool true); ("token", VStr "t0");
        ("expiresAt", VStr "2100-01-01T00:00:00Z")].

(** A backend that verifies every nonce with [sample_session], and a clock at zero. *)
Definition sample_fetch (t : list (page_event (option jsval))) (rq : request (option jsval))
  : res js_error response :=
  Ok (if String.eqb (rq_url rq) "http://b/api/admin/auth/verify"
      then {| rs_status := 200; rs_json := Some (VObj [("data", sample_session)]) |}
      else if String.eqb (rq_url rq) "http://b/api/admin/auth/nonce"
      then {| rs_status := 200;
              rs_json := Some (VObj [("data", VObj [("nonce", VStr "0x1"); ("message", VStr "hi")])]) |}
      else {| rs_status := 401; rs_json := None |}).

Definition sample_world : world (option jsval) :=
  {| has_window := true; date_now := fun _ => 0; date_parse := fun _ => num_of_Z 4102444800000;
     to_iso_string := fun _ => Ok "2100-01-01T00:00:00Z"; fetch := sample_fetch;
     sign_message := fun _ _ => Ok (VStr "0x5");
     write_contract := fun _ _ => Ok "0xdeadbeef00"; wait_receipt := fun _ _ => Ok tt;
     error_text := fun e => message_or e "" |}.

Definition empty_page : page (option jsval) := {| local := ∅; metadataById := VObj []; trace := [] |}.

Lemma ensured_session_authorizes_witness :
  let r := ensureAdminSession sample_world "http://b" (Some "0xa1") empty_page in
  snd r = Ok sample_session
  /\ exists rq,
    trace (fst (adminApiRequest sample_world "http://b" "/x" "POST" true None (fst r)))
    = (trace (fst r) ++ [Fetched rq])%list
    /\ obj_get "Authorization" (rq_headers rq) = VStr "Bearer t0".
Proof.
  destruct (ensured_session_authorizes sample_world "http://b" "0xa1" empty_page
    (fst (ensureAdminSession sample_world "http://b" (Some "0xa1") empty_page)) sample_session)
    as [_ Hx].
  - reflexivity.
  - intros t rq r Hu Hf _. unfold sample_world, fetch, sample_fetch in Hf. rewrite Hu in Hf.
    cbn in Hf. injection Hf as <-. do 5 eexists. split_and!; reflexivity.
  - vm_compute. reflexivity.
  - split; [vm_compute; reflexivity|].
    destruct (Hx (fst (ensureAdminSession sample_world "http://b" (Some "0xa1") empty_page))
                "/x" "POST" None eq_refl) as (rq & H1 & _ & _ & _ & H2);
      [vm_compute; reflexivity|]. exists rq. split; [exact H1|exact H2].
Defined.
