(* ===== verification/TreasuryData.v ===== *)
(** * The treasury page's data (useTreasuryData.ts)

    What the page shows: the treasury's roles, one row per asset and the table of
    pending operations, put together from the backend's records, the chain's recent
    [OperationScheduled] events and the contract's [operationReadyAt]. *)

From S2P Require Import Prelude JsString JsNumber JsValue JsError JsSort JsMap.
From S2P Require Import TreasuryContract TreasuryAbi TreasuryForms.
From stdpp Require Import sorting.
Open Scope string_scope.
Open Scope Z_scope.
Open Scope flux_scope.

(** ** What is read *)

Record scheduled_log := {
  sl_operationId : option string;
  sl_executeAfter : option Z;
  sl_scheduler : option string;
  sl_blockNumber : option Z;
}.

(** The chain node, as one function per contract function read; each may throw. *)
Record node := {
  n_role : string -> res js_error string;
  n_minDelay : res js_error Z;
  n_paused : res js_error bool;
  n_blockNumber : res js_error Z;
  n_balanceOf : string -> res js_error Z;
  n_approvedSpendRemaining : string -> string -> res js_error Z;
  n_dailySpendCap : string -> res js_error Z;
  n_spentToday : string -> res js_error Z;
  n_allowedTokens : string -> res js_error bool;
  n_balance : res js_error Z;
  n_scheduled : Z -> Z -> res js_error (list scheduled_log);
  n_operationReadyAt : string -> res js_error Z;
}.

Definition zeroAddress : string := "0x0000000000000000000000000000000000000000".

(** ** The operations *)

Section operations.
(** [Date.parse] and [new Date(text).getTime()]. *)
Variable date_parse date_time : string -> num.

Definition backend_metadata (items : list AdminTreasuryOperation) : obj :=
  foldl (fun m o => obj_set (ao_operationId o) (treasuryMetadataFromAdminOperation date_time o) m)
        [] items.

(** [operation.readyAt ? Date.parse(operation.readyAt) : NaN], in whole seconds. *)
Definition backend_executeAfter (o : AdminTreasuryOperation) : Z :=
  let ms := match ao_readyAt o with
            | Some t => if str_nonempty t then date_parse t else num_nan
            | None => num_nan
            end in
  match num_integral (num_floor (num_div ms (num_of_Z 1000))) with
  | Some z => if is_finite ms then z else 0
  | None => 0
  end.

Definition is_settled (o : AdminTreasuryOperation) : bool :=
  String.eqb (ao_statusCode o) "executed" || String.eqb (ao_statusCode o) "cancelled".

Definition status_at (readyAt nowSeconds : Z) : operation_status :=
  if readyAt <=? nowSeconds then ready else pending.

Definition backend_row (items : list AdminTreasuryOperation) (nowSeconds : Z)
    (o : AdminTreasuryOperation) : TreasuryOperationRow :=
  let executeAfter := backend_executeAfter o in
  {| or_operationId := ao_operationId o; or_executeAfter := executeAfter;
     or_scheduler := Some (ao_proposerAddress o);
     or_status := if (0 <? executeAfter) && (executeAfter <=? nowSeconds) then ready else pending;
     or_blockNumber := 0; or_metadata := obj_get (ao_operationId o) (backend_metadata items);
     or_source := backend |}.

Definition add_backend (items : list AdminTreasuryOperation) (nowSeconds : Z)
    (scheduledById : list (string * TreasuryOperationRow)) (o : AdminTreasuryOperation) :=
  if is_settled o then scheduledById
  else map_set (ao_operationId o) (backend_row items nowSeconds o) scheduledById.

Definition log_row (id : string) (l : scheduled_log) (current : option TreasuryOperationRow)
  : TreasuryOperationRow :=
  {| or_operationId := id; or_executeAfter := default 0 (sl_executeAfter l);
     or_scheduler := match sl_scheduler l with
                     | Some s => Some s
                     | None => match current with Some c => or_scheduler c | None => None end
                     end;
     or_status := pending; or_blockNumber := default 0 (sl_blockNumber l);
     or_metadata := match current with Some c => or_metadata c | None => VUndef end;
     or_source := match current with
                  | Some c => or_source c
                  | None => chain
                  end |}.

Definition add_log (scheduledById : list (string * TreasuryOperationRow)) (l : scheduled_log) :=
  match sl_operationId l with
  | Some id =>
    if str_nonempty id then
      match map_get id scheduledById with
      | Some current =>
        if default 0 (sl_blockNumber l) <=? or_blockNumber current then scheduledById
        else map_set id (log_row id l (Some current)) scheduledById
      | None => map_set id (log_row id l None) scheduledById
      end
    else scheduledById
  | None => scheduledById
  end.

Definition scheduled_by_id (items : list AdminTreasuryOperation) (logs : list scheduled_log)
    (nowSeconds : Z) : list (string * TreasuryOperationRow) :=
  foldl add_log (foldl (add_backend items nowSeconds) [] items) logs.

Definition with_reading (readyAt nowSeconds : Z) (metadata : jsval) (r : TreasuryOperationRow)
  : TreasuryOperationRow :=
  {| or_operationId := or_operationId r; or_executeAfter := readyAt; or_scheduler := or_scheduler r;
     or_status := status_at readyAt nowSeconds; or_blockNumber := or_blockNumber r;
     or_metadata := metadata; or_source := or_source r |}.

(** What becomes of a candidate once the contract is read; [None] drops it. *)
Definition resolve (read : string -> res js_error Z) (items : list AdminTreasuryOperation)
    (operationMetadataById : jsval) (nowSeconds : Z) (r : TreasuryOperationRow)
  : option TreasuryOperationRow :=
  let metadata := nullish (nullish (obj_get (or_operationId r) (backend_metadata items)) (or_metadata r))
                          (get (or_operationId r) operationMetadataById) in
  match read (or_operationId r) with
  | Ok readyAt => if readyAt <=? 0 then None else Some (with_reading readyAt nowSeconds metadata r)
  | Throw _ =>
    if negb (bool_decide (or_source r = backend)) || (or_executeAfter r <=? 0) then None
    else Some (with_reading (or_executeAfter r) nowSeconds metadata r)
  end.

(** The order the comparator asks for: [a] before [b] unless [b] must come first. *)
Definition operation_le (a b : TreasuryOperationRow) : bool := 0 <? sortOperations b a.

Definition active_operations (read : string -> res js_error Z) (items : list AdminTreasuryOperation)
    (logs : list scheduled_log) (operationMetadataById : jsval) (nowSeconds : Z)
  : list TreasuryOperationRow :=
  sort_by operation_le
    (omap (resolve read items operationMetadataById nowSeconds)
       (snd <$> scheduled_by_id items logs nowSeconds)).
End operations.

(** ** The assets and the page *)

Section load.
Variable date_parse date_time : string -> num.
Variable nd : node.

Definition token_row (managerAddress : option string) (token : AdminTokenOption)
  : res js_error TreasuryTokenRow :=
  let* balance := n_balanceOf nd (tk_address token) in
  let* approvedSpendRemaining := match managerAddress with
                                 | Some m => if str_nonempty m
                                             then n_approvedSpendRemaining nd (tk_address token) m
                                             else Ok 0
                                 | None => Ok 0
                                 end in
  let* dailySpendCap := n_dailySpendCap nd (tk_address token) in
  let* spentToday := n_spentToday nd (tk_address token) in
  let* allowed := n_allowedTokens nd (tk_address token) in
  Ok {| tr_token := token; tr_balance := balance; tr_approvedSpendRemaining := approvedSpendRemaining;
        tr_dailySpendCap := dailySpendCap; tr_spentToday := spentToday; tr_allowed := allowed;
        tr_isNative := false |}.

Definition native_token : AdminTokenOption :=
  {| tk_symbol := "ETH"; tk_name := "Ether"; tk_decimals := 18; tk_address := zeroAddress |}.

Definition native_row : res js_error TreasuryTokenRow :=
  let* balance := n_balance nd in
  let* dailySpendCap := n_dailySpendCap nd zeroAddress in
  let* spentToday := n_spentToday nd zeroAddress in
  Ok {| tr_token := native_token; tr_balance := balance; tr_approvedSpendRemaining := 0;
        tr_dailySpendCap := dailySpendCap; tr_spentToday := spentToday; tr_allowed := true;
        tr_isNative := true |}.

Definition treasury_info (treasuryAddress : string) : res js_error TreasuryInfo :=
  let* multisig := n_role nd "multisig" in
  let* guardian := n_role nd "guardian" in
  let* operator := n_role nd "operator" in
  let* minDelay := n_minDelay nd in
  let* paused := n_paused nd in
  Ok {| ti_address := treasuryAddress; ti_multisig := multisig; ti_guardian := guardian;
        ti_operator := operator; ti_minDelay := minDelay; ti_paused := paused |}.

(** The state of the hook. *)
Record treasury_view := {
  tv_treasuryInfo : option TreasuryInfo;
  tv_tokenRows : list TreasuryTokenRow;
  tv_operationRows : list TreasuryOperationRow;
  tv_error : option string;
}.

Definition loaded (treasuryAddress : string) (managerAddress : option string)
    (tokens : list AdminTokenOption) (operationMetadataById : jsval)
    (backend_items : res js_error (list AdminTreasuryOperation)) (now_ms : Z)
  : res js_error treasury_view :=
  let* info := treasury_info treasuryAddress in
  let* latestBlock := n_blockNumber nd in
  let fromBlock := if EVENT_LOOKBACK_BLOCKS <? latestBlock then latestBlock - EVENT_LOOKBACK_BLOCKS else 0 in
  let* rows := res_mapi (fun _ => token_row managerAddress) 0 tokens in
  let* native := native_row in
  let logs := match n_scheduled nd fromBlock latestBlock with Ok l => l | Throw _ => [] end in
  let items := match backend_items with Ok l => l | Throw _ => [] end in
  Ok {| tv_treasuryInfo := Some info; tv_tokenRows := native :: rows;
        tv_operationRows := active_operations date_parse date_time (n_operationReadyAt nd) items logs
                              operationMetadataById (now_ms / 1000);
        tv_error := None |}.

(** The view after [loadTreasuryData], from the view before: a failed read keeps what
    was shown and adds the error. *)
Definition loadTreasuryData (formatErrorMessage : js_error -> string) (publicClient supportedChain : bool)
    (treasuryAddress managerAddress : option string) (tokens : list AdminTokenOption)
    (operationMetadataById : jsval) (backend_items : res js_error (list AdminTreasuryOperation))
    (now_ms : Z) (before : treasury_view) : treasury_view :=
  match treasuryAddress with
  | Some a =>
    if negb (publicClient && supportedChain && str_nonempty a) then
      {| tv_treasuryInfo := None; tv_tokenRows := []; tv_operationRows := [];
         tv_error := Some (if supportedChain then "当前网络缺少金库合约配置，请检查部署和前端配置。"
                           else "当前网络还未接入 FluxSwap 管理端。") |}
    else match loaded a managerAddress tokens operationMetadataById backend_items now_ms with
    | Ok v => v
    | Throw e =>
      {| tv_treasuryInfo := tv_treasuryInfo before; tv_tokenRows := tv_tokenRows before;
         tv_operationRows := tv_operationRows before; tv_error := Some (formatErrorMessage e) |}
    end
  | None =>
    {| tv_treasuryInfo := None; tv_tokenRows := []; tv_operationRows := [];
       tv_error := Some (if supportedChain then "当前网络缺少金库合约配置，请检查部署和前端配置。"
                         else "当前网络还未接入 FluxSwap 管理端。") |}
  end.
End load.

(** ** The table *)

Section table.
Variable date_parse date_time : string -> num.
Variable items : list AdminTreasuryOperation.
Variable logs : list scheduled_log.
Variable nowSeconds : Z.

(** Rows are stored under their own id. *)
Definition keyed (m : list (string * TreasuryOperationRow)) : Prop :=
  NoDup m.*1 /\ Forall (fun kv => or_operationId kv.2 = kv.1) m.

Lemma keyed_set m r : keyed m -> keyed (map_set (or_operationId r) r m).
Proof. intros [Hn Hf]. split; [by apply map_set_NoDup|]. by apply map_set_Forall. Qed.

Lemma keyed_backend m o : keyed m -> keyed (add_backend date_parse date_time items nowSeconds m o).
Proof.
  intros Hm. unfold add_backend. destruct (is_settled o); [done|].
  by apply (keyed_set m (backend_row date_parse date_time items nowSeconds o)).
Qed.

Lemma keyed_log m l : keyed m -> keyed (add_log m l).
Proof.
  intros Hm. unfold add_log. destruct (sl_operationId l) as [id|]; [|done].
  destruct (str_nonempty id); [|done]. destruct (map_get id m) as [c|].
  - destruct (_ <=? _); [done|]. by apply (keyed_set m (log_row id l (Some c))).
  - by apply (keyed_set m (log_row id l None)).
Qed.

Lemma keyed_scheduled : keyed (scheduled_by_id date_parse date_time items logs nowSeconds).
Proof.
  unfold scheduled_by_id.
  assert (keyed (foldl (add_backend date_parse date_time items nowSeconds) [] items)) as Hb.
  { assert (forall l m, keyed m -> keyed (foldl (add_backend date_parse date_time items nowSeconds) m l))
      as Hl by (induction l; simpl; eauto using keyed_backend).
    apply Hl. split; constructor. }
  revert Hb. generalize (foldl (add_backend date_parse date_time items nowSeconds) [] items).
  induction logs; simpl; eauto using keyed_log.
Qed.

(** The candidates: an id is one exactly when an unsettled backend record or an event
    has it. *)
Definition candidate (id : string) : Prop :=
  (exists o, o ∈ items /\ ao_operationId o = id /\ is_settled o = false)
  \/ exists l, l ∈ logs /\ sl_operationId l = Some id /\ str_nonempty id = true.

Lemma add_backend_keys m o id :
  id ∈ (add_backend date_parse date_time items nowSeconds m o).*1
  <-> id ∈ m.*1 \/ (ao_operationId o = id /\ is_settled o = false).
Proof.
  unfold add_backend. destruct (is_settled o); [naive_solver|]. rewrite map_set_keys. naive_solver.
Qed.

Lemma add_log_keys m l id :
  id ∈ (add_log m l).*1 <-> id ∈ m.*1 \/ (sl_operationId l = Some id /\ str_nonempty id = true).
Proof.
  unfold add_log. destruct (sl_operationId l) as [i|]; [|naive_solver].
  destruct (str_nonempty i) eqn:Hi; [|naive_solver congruence].
  destruct (map_get i m) as [c|] eqn:Hg; [|rewrite map_set_keys; naive_solver].
  assert (i ∈ m.*1) as Him.
  { clear -Hg. induction m as [|[k1 a1] m IH]; simpl in *; [done|].
    destruct (String.eqb_spec i k1) as [->|]; [by left|right; auto]. }
  destruct (_ <=? _); [|rewrite map_set_keys]; naive_solver.
Qed.

Lemma scheduled_keys id :
  id ∈ (scheduled_by_id date_parse date_time items logs nowSeconds).*1 <-> candidate id.
Proof.
  unfold scheduled_by_id, candidate.
  assert (forall l m, id ∈ (foldl add_log m l).*1
    <-> id ∈ m.*1 \/ exists x, x ∈ l /\ sl_operationId x = Some id /\ str_nonempty id = true) as Hlog.
  { induction l as [|x l IH]; simpl; intros m; [set_solver|]. rewrite IH, add_log_keys. set_solver. }
  assert (forall l m, id ∈ (foldl (add_backend date_parse date_time items nowSeconds) m l).*1
    <-> id ∈ m.*1 \/ exists o, o ∈ l /\ ao_operationId o = id /\ is_settled o = false) as Hback.
  { induction l as [|x l IH]; simpl; intros m; [set_solver|]. rewrite IH, add_backend_keys. set_solver. }
  rewrite Hlog, Hback. set_solver.
Qed.

(** The order of the table: ready operations first, then the earliest, then the latest
    scheduled. *)
Definition table_order (a b : TreasuryOperationRow) : Prop :=
  (or_status a = ready /\ or_status b = pending)
  \/ (or_status a = or_status b
      /\ (or_executeAfter a < or_executeAfter b
          \/ (or_executeAfter a = or_executeAfter b /\ or_blockNumber b <= or_blockNumber a))).

Lemma operation_le_spec a b : operation_le a b = true <-> table_order a b.
Proof.
  unfold operation_le, sortOperations, table_order.
  destruct (or_status a), (or_status b); cbn; (try (split; [done|naive_solver]));
    (try (split; [by left|done])).
  all: destruct (Z.eqb_spec (or_executeAfter b) (or_executeAfter a)) as [E|E];
    [destruct (Z.ltb_spec (or_blockNumber a) (or_blockNumber b))
    |destruct (Z.ltb_spec (or_executeAfter b) (or_executeAfter a))]; cbn.
  all: split; intros Hc; try done; try (right; split; [done|lia]).
  all: destruct Hc as [[? ?]|[_ ?]]; done || lia.
Qed.

Lemma table_order_trans a b c : table_order a b -> table_order b c -> table_order a c.
Proof.
  unfold table_order. destruct (or_status a), (or_status b), (or_status c);
    intros [[? ?]|[? ?]] [[? ?]|[? ?]]; try done; try (by left); right; (split; [done|lia]).
Qed.

Lemma table_order_total a b : table_order a b \/ table_order b a.
Proof.
  unfold table_order. destruct (or_status a), (or_status b).
  - destruct (Z.lt_total (or_executeAfter a) (or_executeAfter b)) as [?|[?|?]];
      [left|destruct (Z.le_ge_cases (or_blockNumber a) (or_blockNumber b)); [right|left]|right];
      right; (split; [done|lia]).
  - right. by left.
  - left. by left.
  - destruct (Z.lt_total (or_executeAfter a) (or_executeAfter b)) as [?|[?|?]];
      [left|destruct (Z.le_ge_cases (or_blockNumber a) (or_blockNumber b)); [right|left]|right];
      right; (split; [done|lia]).
Qed.

Lemma sort_operations_sorted l : StronglySorted table_order (sort_by operation_le l).
Proof.
  assert (StronglySorted (fun a b => operation_le a b = true) (sort_by operation_le l)) as Hs.
  { apply (sort_by_sorted operation_le (fun _ => True)).
    - intros a b _ _. rewrite !operation_le_spec. apply table_order_total.
    - intros a b c _ _ _. rewrite !operation_le_spec. apply table_order_trans.
    - by apply Forall_forall. }
  induction Hs as [|x m Hs IH Hx]; constructor; [done|].
  eapply Forall_impl; [exact Hx|]. intros y. apply operation_le_spec.
Qed.

Variable read : string -> res js_error Z.
Variable operationMetadataById : jsval.

Lemma resolve_Some r r' :
  resolve date_time read items operationMetadataById nowSeconds r = Some r' ->
  or_operationId r' = or_operationId r /\ 0 < or_executeAfter r'
  /\ or_status r' = status_at (or_executeAfter r') nowSeconds
  /\ (read (or_operationId r) = Ok (or_executeAfter r')
      \/ or_source r' = backend /\ is_ok (read (or_operationId r)) = false).
Proof.
  unfold resolve. intros Hr. destruct (read (or_operationId r)) as [t|e].
  - destruct (Z.leb_spec t 0); [done|]. simplify_eq. cbn. naive_solver.
  - destruct (bool_decide_reflect (or_source r = backend)); [|done]. cbn in Hr.
    destruct (Z.leb_spec (or_executeAfter r) 0); [done|]. simplify_eq. cbn. naive_solver.
Qed.

Lemma resolve_reads r t :
  read (or_operationId r) = Ok t -> 0 < t ->
  exists r', resolve date_time read items operationMetadataById nowSeconds r = Some r'
    /\ or_operationId r' = or_operationId r /\ or_executeAfter r' = t.
Proof.
  intros Hr Ht. unfold resolve. rewrite Hr. destruct (Z.leb_spec t 0); [lia|]. eauto.
Qed.

(** C26.  The table of pending operations.  Each id appears once, in the table's order;
    every row is a scheduled operation that the contract reports as pending, with the
    contract's time, marked ready exactly when that time has come (or, when the contract
    cannot be read, a record of the backend with its own time); and every operation the
    contract reports as pending whose record or event was read is in the table. *)
Theorem operation_table :
  let rows := active_operations date_parse date_time read items logs operationMetadataById nowSeconds in
  NoDup (or_operationId <$> rows) /\ StronglySorted table_order rows
  /\ (forall r, r ∈ rows ->
        candidate (or_operationId r) /\ 0 < or_executeAfter r
        /\ (or_status r = ready <-> or_executeAfter r <= nowSeconds)
        /\ (read (or_operationId r) = Ok (or_executeAfter r)
            \/ or_source r = backend /\ is_ok (read (or_operationId r)) = false))
  /\ forall id t, candidate id -> read id = Ok t -> 0 < t ->
       exists r, r ∈ rows /\ or_operationId r = id /\ or_executeAfter r = t.
Proof.
  intros rows. unfold rows, active_operations.
  destruct keyed_scheduled as [Hn Hk].
  set (m := scheduled_by_id date_parse date_time items logs nowSeconds) in *.
  split; [|split; [apply sort_operations_sorted|split]].
  - assert (NoDup (or_operationId <$> omap (resolve date_time read items operationMetadataById nowSeconds)
              (snd <$> m))) as Hnd.
    { eapply sublist_NoDup; [exact Hn|]. clear Hn. induction Hk as [|[k r] l Hr _ IH]; simpl; [done|].
      destruct (resolve _ _ _ _ _ r) as [r'|] eqn:E; simpl; [|by constructor].
      apply resolve_Some in E as [-> _]. simpl in Hr. rewrite Hr. by constructor. }
    by rewrite (sort_by_perm operation_le).
  - intros r Hr. rewrite (sort_by_perm operation_le) in Hr.
    apply list_elem_of_omap in Hr as (r0 & Hr0 & Hres).
    apply list_elem_of_fmap in Hr0 as ([k r1] & -> & Hin). simpl in Hres.
    apply resolve_Some in Hres as (Hid & Hpos & Hst & Hread). rewrite Hid.
    rewrite Forall_forall in Hk. pose proof (Hk _ Hin) as Hkr. simpl in Hkr.
    split.
    { rewrite Hkr. apply scheduled_keys. apply list_elem_of_fmap. by exists (k, r1). }
    split; [done|]. split; [|done]. rewrite Hst. unfold status_at.
    destruct (Z.leb_spec (or_executeAfter r) nowSeconds); split; done || lia.
  - intros id t Hc Hread Ht. apply scheduled_keys in Hc. fold m in Hc.
    apply list_elem_of_fmap in Hc as ([k r0] & -> & Hin). simpl in *.
    rewrite Forall_forall in Hk. pose proof (Hk _ Hin) as Hkr. simpl in Hkr.
    destruct (resolve_reads r0 t) as (r' & Hr' & Hid & Het); [by rewrite Hkr|done|].
    exists r'. rewrite (sort_by_perm operation_le). split; [|by rewrite Hid].
    apply list_elem_of_omap. exists r0. split; [|done]. apply list_elem_of_fmap. by exists (k, r0).
Qed.
End table.
