(* ===== verification/TreasuryActions.v ===== *)
(** * Acting on the treasury (admin-frontend/src/components/treasury)

    useTreasuryMetadataStore.ts, useTreasuryTransactionRunner.ts and
    useTreasuryActions.ts: the handlers behind the page's buttons, on the page of
    AdminPage.v.  A confirmation dialog is an event; the [submit...] function is what
    its button runs. *)

From S2P Require Import Prelude JsString JsNumber JsValue JsError Amounts.
From S2P Require Import TreasuryContract TreasuryAbi TreasuryForms AdminPage AdminApi.
Open Scope string_scope.
Open Scope Z_scope.
Open Scope page_scope.

(** The properties of the hook that its handlers read; [ap_form] has the chain, the
    address, the current minimal delay and the fields of the form. *)
Record action_params := {
  ap_form : form;
  ap_treasuryInfo : option TreasuryInfo;
  ap_gas : option Z;
  ap_mounted : bool;
  ap_isConnected : bool;
  ap_isMultisig : bool;
  ap_canPause : bool;
  ap_canUnpause : bool;
  ap_canAllocate : bool;
  ap_openConnectModal : bool;
  ap_selectedAllocationToken : option TreasuryTokenRow;
  ap_allocationRecipientAddress : string;
  ap_allocationAmountValue : string;
  ap_actorAddress : option string;
}.

Section actions.
Context {raw : Type} `{JsonCodec raw} `{AbiEncoder}.
Variable wd : world raw.
Variable base_url : string.
Variable parseUnits : string -> Z -> option Z.
Variable read_hash : string -> timelock_op -> res js_error string.
Variable read_allowed : string -> string -> res js_error bool.
Variable ap : action_params.
Notation io := (@page_io raw).

Definition treasuryAddress : option string :=
  match f_treasuryAddress (ap_form ap) with
  | Some a => if str_nonempty a then Some a else None
  | None => None
  end.
Definition chainId : num := f_chainId (ap_form ap).
Definition done : io unit := ret (Ok tt).
Definition show (m : ResultModal) : io unit := log (Shown m).
Definition connect : io unit := if ap_openConnectModal ap then log ConnectOpened else done.

(** ** The metadata store *)

(** [{ ...v }] *)
Definition spread (v : jsval) : obj :=
  match v with
  | VObj o => obj_spread [] o
  | VArr l => imap (fun i e => (dec (Z.of_nat i), e)) l
  | _ => []
  end.

Fixpoint obj_delete (k : string) (o : obj) : obj :=
  match o with
  | [] => []
  | (k', v) :: o' => if String.eqb k k' then o' else (k', v) :: obj_delete k o'
  end.

(** The hook's effect: what storage has for the treasury. *)
Definition loadMetadata : io unit := fun p =>
  (with_metadata (match treasuryAddress with
                  | Some a => if ap_mounted ap
                              then loadTreasuryOperationMetadata (has_window wd) chainId a (local p)
                              else VObj []
                  | None => VObj []
                  end) p, Ok tt).

Definition storeMetadata (a : string) (next : jsval) : io unit := fun p =>
  (with_metadata next
     (with_local (saveTreasuryOperationMetadata (has_window wd) chainId a next (local p)) p), Ok tt).

Definition persistMetadata (metadata : jsval) : io unit := fun p =>
  match treasuryAddress with
  | Some a =>
    storeMetadata a (VObj (obj_set (to_string (get "operationId" metadata)) metadata
                             (spread (metadataById p)))) p
  | None => (p, Ok tt)
  end.

Definition removeMetadata (operationId : string) : io unit := fun p =>
  match treasuryAddress with
  | Some a =>
    if obj_has operationId (spread (metadataById p))
    then storeMetadata a (VObj (obj_delete operationId (spread (metadataById p)))) p
    else (p, Ok tt)
  | None => (p, Ok tt)
  end.

(** ** The transaction runner *)

Definition writeContractAsync (w : write_request) : io string :=
  ask (Wrote w) (fun t => write_contract wd t w).

Definition waitForTransactionReceipt (hash : string) : io unit :=
  ask (Awaited hash) (fun t => wait_receipt wd t hash).

Definition runTransaction (action : ActiveTreasuryAction) (title : string) (tx : io string)
    (onConfirmed : string -> io unit) : io unit :=
  if negb (f_publicClient (ap_form ap))
  then show (error_modal "无法提交交易" "当前 RPC 客户端尚未准备好，请稍后再试。")
  else
    run log (Active (Some action));
    run catch
      (do hash <- tx;
       run waitForTransactionReceipt hash;
       run catch (onConfirmed hash) (fun syncError => log (Warned syncError));
       run show {| modal_type := success; modal_title := title;
                   modal_message := "交易已确认：" ++ shortAddress hash |};
       log Reloaded)
      (fun txError => show (error_modal "交易失败" (error_text wd txError)));
    log (Active None).

(** ** The handlers *)

Definition ensureBackendSession : io unit :=
  do _s <- ensureAdminSession wd base_url (ap_actorAddress ap);
  done.

Definition ensureBackendSessionOrReport : io bool :=
  catch (run ensureBackendSession; ret (Ok true))
    (fun e => run show (error_modal "管理端登录失败" (error_text wd e)); ret (Ok false)).

Definition buildOperationDraft : io (option jsval) := fun p =>
  match buildTreasuryOperationDraft parseUnits read_hash (ap_form ap)
          (num_of_Z (date_now wd (trace p))) with
  | Ok m => (p, Ok (Some m))
  | Throw (Refused m) => (with_event (Shown m) p, Ok None)
  | Throw (Thrown e) => (p, Throw e)
  end.

Definition opt_str (v : option string) : jsval := match v with Some s => VStr s | None => VUndef end.

Definition forbidden (message : string) : ResultModal := error_modal "权限不足" message.

(** The call of [scheduleOperation]. *)
Definition schedule_request (a : string) (draft : jsval) (delay : Z) : write_request :=
  {| w_address := a; w_functionName := "scheduleOperation";
     w_args := [get "operationId" draft; VBig delay]; w_gas := ap_gas ap |}.

(** The record of the backend. *)
Definition schedule_record (draft : jsval) (hash readyAt : string) : jsval :=
  VObj [("operationId", get "operationId" draft); ("chainId", get "chainId" draft);
        ("treasuryAddress", get "treasuryAddress" draft); ("operationTypeCode", get "kind" draft);
        ("operationTypeLabel", get "label" draft); ("statusCode", VStr "queued");
        ("statusLabel", VStr "待执行");
        ("proposerAddress", nullish (opt_str (ap_actorAddress ap)) (get "treasuryAddress" draft));
        ("scheduleTxHash", VStr hash); ("readyAt", VStr readyAt);
        ("params", treasuryMetadataToAdminParams draft); ("summary", get "summary" draft)].

Definition schedule_confirmed (draft : jsval) (delay : Z) (hash : string) : io unit :=
  run persistMetadata draft;
  run ensureBackendSession;
  do readyAt <- (fun p => (p, to_iso_string wd
       (num_mul (num_add (num_of_Z (date_now wd (trace p) / 1000)) (num_of_Z delay)) (num_of_Z 1000))));
  run upsertAdminTreasuryOperation wd base_url (schedule_record draft hash readyAt);
  done.

Definition handleScheduleOperation : io unit :=
  match treasuryAddress with
  | None => show (error_modal "暂无法创建操作" "金库合约地址尚未加载完成。")
  | Some a =>
    if negb (ap_mounted ap && ap_isConnected ap) then connect
    else if negb (ap_isMultisig ap)
    then show (forbidden "只有当前金库的多签钱包可以排队治理操作。")
    else
      do draft <- buildOperationDraft;
      match draft with
      | None => done
      | Some draft =>
        do delay <- ret (operation_delay (ap_form ap));
        do ok <- ensureBackendSessionOrReport;
        if ok then
          runTransaction act_schedule "已提交治理操作"
            (writeContractAsync (schedule_request a draft (default 0 delay)))
            (schedule_confirmed draft (default 0 delay))
        else done
      end
  end.

Definition toggle_request (a name : string) : write_request :=
  {| w_address := a; w_functionName := name; w_args := []; w_gas := ap_gas ap |}.

Definition submitPauseToggle : io unit :=
  match treasuryAddress, ap_treasuryInfo ap with
  | Some a, Some info =>
    if negb (ap_mounted ap && ap_isConnected ap) then connect
    else if ti_paused info then
      if negb (ap_canUnpause ap) then show (forbidden "只有多签钱包可以恢复金库。")
      else runTransaction act_unpause "已恢复金库" (writeContractAsync (toggle_request a "unpause"))
             (fun _ => done)
    else if negb (ap_canPause ap) then show (forbidden "只有守护者或多签钱包可以暂停金库。")
    else runTransaction act_pause "已暂停金库" (writeContractAsync (toggle_request a "pause"))
           (fun _ => done)
  | _, _ => done
  end.

Definition allocation_of : allocation :=
  {| al_treasuryAddress := f_treasuryAddress (ap_form ap);
     al_selectedToken := ap_selectedAllocationToken ap;
     al_publicClient := f_publicClient (ap_form ap); al_mounted := ap_mounted ap;
     al_isConnected := ap_isConnected ap; al_canAllocate := ap_canAllocate ap;
     al_paused := match ap_treasuryInfo ap with Some i => ti_paused i | None => false end;
     al_recipientAddress := ap_allocationRecipientAddress ap;
     al_amountValue := ap_allocationAmountValue ap; al_gas := ap_gas ap |}.

Definition submitAllocation : io unit :=
  do s <- ret (submitTreasuryAllocation parseUnits read_allowed allocation_of);
  match s with
  | Reported m => show m
  | OpenedConnect => connect
  | Running title w => runTransaction act_allocate title (writeContractAsync w) (fun _ => done)
  end.

Definition confirm (title message : string) (danger : bool) (label : string) : io unit :=
  log (Confirming {| cm_title := title; cm_message := message; cm_danger := danger;
                     cm_confirmLabel := label |}).

Definition handlePauseToggle : io unit :=
  match ap_treasuryInfo ap with
  | Some {| ti_paused := true |} =>
    confirm "确认恢复金库" "恢复后，金库会重新允许相关业务动作继续执行。" false "确认恢复"
  | _ =>
    confirm "确认暂停金库" "暂停后，依赖金库的拉取和业务执行会被阻断，请确认当前是紧急处理场景。"
      true "确认暂停"
  end.

Definition handleAllocation : io unit :=
  if negb (ap_mounted ap && ap_isConnected ap) then connect
  else match ap_selectedAllocationToken ap with
  | None => show (error_modal "暂无法划拨" "请选择需要划拨的金库资产。")
  | Some t =>
    confirm "确认划拨金库资产"
      ("将划拨 " ++ or_zero (ap_allocationAmountValue ap) ++ " " ++ tk_symbol (tr_token t) ++ " 到 "
       ++ shortAddress (ap_allocationRecipientAddress ap)
       ++ "。该动作会立即走链上交易，并消耗对应资产的每日额度。") true "确认划拨"
  end.

(** The update of the backend's record once the transaction is confirmed. *)
Definition settle_confirmed (operationId statusCode statusLabel txKey : string) (requestData : obj)
    (hash : string) : io unit :=
  run ensureBackendSession;
  run removeMetadata operationId;
  run updateAdminTreasuryOperationStatus wd base_url operationId
        (VObj [("statusCode", VStr statusCode); ("statusLabel", VStr statusLabel);
               ("actorAddress", opt_str (ap_actorAddress ap)); (txKey, VStr hash);
               ("requestData", VObj requestData)]);
  done.

Definition cancel_request (a operationId : string) : write_request :=
  {| w_address := a; w_functionName := "cancelOperation"; w_args := [VStr operationId];
     w_gas := ap_gas ap |}.

Definition submitCancelOperation (operation : TreasuryOperationRow) : io unit :=
  match treasuryAddress with
  | None => done
  | Some a =>
    if negb (ap_mounted ap && ap_isConnected ap) then connect
    else if negb (ap_isMultisig ap) then show (forbidden "只有多签钱包可以取消治理操作。")
    else
      do ok <- ensureBackendSessionOrReport;
      if ok then
        runTransaction (act_cancel (or_operationId operation)) "已取消治理操作"
          (writeContractAsync (cancel_request a (or_operationId operation)))
          (settle_confirmed (or_operationId operation) "cancelled" "已取消" "cancelTxHash"
             [("operationId", VStr (or_operationId operation))])
      else done
  end.

Definition handleCancelOperation (operation : TreasuryOperationRow) : io unit :=
  confirm "确认取消治理操作"
    ("将取消操作 " ++ shortAddress (or_operationId operation)
     ++ "，取消后如果仍要执行，需要重新由多签排队。") true "确认取消".

Definition submitExecuteOperation (operation : TreasuryOperationRow) : io unit :=
  match treasuryAddress with
  | None => done
  | Some a =>
    let metadata := or_metadata operation in
    if negb (truthy metadata) then
      show (error_modal "缺少操作参数"
        "链上事件只记录操作 ID 和时间，不包含具体参数。该操作不是从当前管理端创建的，暂不能直接执行。")
    else if negb (bool_decide (or_status operation = ready))
    then show (error_modal "暂不可执行" "该操作还没有到治理延迟时间。")
    else
      do request <- ret (buildTreasuryExecutionRequest metadata (or_operationId operation) a (ap_gas ap));
      match request with
      | Some x =>
        do ok <- ensureBackendSessionOrReport;
        if ok then
          runTransaction (act_execute (or_operationId operation)) (x_title x)
            (do w <- ret (x_tx x); writeContractAsync w)
            (settle_confirmed (or_operationId operation) "executed" "已执行" "executeTxHash"
               [("operationId", VStr (or_operationId operation)); ("kind", get "kind" metadata)])
        else done
      | None => show (error_modal "参数不完整" "该操作的本地参数记录不完整，不能安全执行。")
      end
  end.

Definition handleExecuteOperation (operation : TreasuryOperationRow) : io unit :=
  confirm "确认执行治理操作"
    (to_string (nullish (get "summary" (or_metadata operation)) (VStr "该操作缺少本地参数记录"))
     ++ "。执行后会立即消耗链上的 operationId，且本地参数记录也会一并清理。") true "确认执行".
End actions.

(** ** Transactions *)

Section guards.
Context {raw : Type} `{JsonCodec raw} `{AbiEncoder}.
Variable wd : world raw.
Variable base_url : string.
Variable parseUnits : string -> Z -> option Z.
Variable read_hash : string -> timelock_op -> res js_error string.
Variable read_allowed : string -> string -> res js_error bool.
Variable ap : action_params.

#[local] Hint Resolve silent_may_write silent_request silent_ensure : flux.

Lemma silent_session : silent (ensureBackendSession wd base_url ap).
Proof. apply silent_bind; [apply silent_ensure|]. intros; apply silent_ret. Qed.

Lemma silent_show m : silent (raw := raw) (show m).
Proof. by apply silent_log. Qed.

Lemma silent_session_or_report : silent (ensureBackendSessionOrReport wd base_url ap).
Proof.
  apply silent_catch.
  - apply silent_bind; [apply silent_session|]. intros; apply silent_ret.
  - intros e. apply silent_bind; [apply silent_show|]. intros; apply silent_ret.
Qed.

Lemma silent_connect : silent (raw := raw) (connect ap).
Proof. unfold connect. destruct (ap_openConnectModal ap); [by apply silent_log|apply silent_ret]. Qed.

Lemma silent_persist m : silent (persistMetadata wd ap m).
Proof. apply silent_pure. intros p. unfold persistMetadata. by destruct (treasuryAddress ap). Qed.

Lemma silent_remove id : silent (removeMetadata wd ap id).
Proof.
  apply silent_pure. intros p. unfold removeMetadata. destruct (treasuryAddress ap); [|done].
  by destruct (obj_has _ _).
Qed.

Lemma silent_draft : silent (buildOperationDraft wd parseUnits read_hash ap).
Proof.
  intros p. unfold buildOperationDraft.
  destruct (buildTreasuryOperationDraft _ _ _ _) as [m|[m|e]]; simpl;
    [exists []|exists [Shown m]|exists []]; by rewrite ?app_nil_r.
Qed.

Lemma silent_scheduled d n hash : silent (schedule_confirmed wd base_url ap d n hash).
Proof.
  apply silent_bind; [apply silent_persist|]. intros _. apply silent_bind; [apply silent_session|].
  intros _. apply silent_bind; [by apply silent_pure|]. intros t.
  apply silent_bind; [apply silent_request|]. intros _. apply silent_ret.
Qed.

Lemma silent_settled id c lb k o hash : silent (settle_confirmed wd base_url ap id c lb k o hash).
Proof.
  apply silent_bind; [apply silent_session|]. intros _. apply silent_bind; [apply silent_remove|].
  intros _. apply silent_bind; [apply silent_request|]. intros _. apply silent_ret.
Qed.

Lemma may_write_contract (Q : write_request -> Prop) w : Q w -> may_write Q (writeContractAsync wd w).
Proof.
  intros HQ p. exists [Wrote w]. split; [done|]. simpl. split; [lia|by constructor].
Qed.

(** The runner sends what [tx] sends, whatever happens around it. *)
Lemma may_write_run Q action title tx onConfirmed :
  may_write Q tx -> (forall hash, silent (onConfirmed hash)) ->
  may_write Q (runTransaction wd ap action title tx onConfirmed).
Proof.
  intros Htx Hc. unfold runTransaction. destruct (negb _); [apply silent_may_write, silent_show|].
  apply may_write_after; [by apply silent_log|]. intros _.
  apply may_write_before; [|intros; by apply silent_log].
  apply may_write_catch; [|intros; apply silent_show].
  apply may_write_before; [done|]. intros hash.
  apply silent_bind; [by apply silent_ask|]. intros _.
  apply silent_bind; [apply silent_catch; [apply Hc|intros; by apply silent_log]|]. intros _.
  apply silent_bind; [apply silent_show|]. intros _. by apply silent_log.
Qed.

(** What a transaction of each handler must be. *)
Definition schedule_allowed (w : write_request) : Prop :=
  ap_mounted ap = true /\ ap_isConnected ap = true /\ ap_isMultisig ap = true
  /\ exists a now m delay, treasuryAddress ap = Some a
     /\ buildTreasuryOperationDraft parseUnits read_hash (ap_form ap) now = Ok m
     /\ operation_delay (ap_form ap) = Ok delay
     /\ w = schedule_request ap a m (default 0 delay).
Definition toggle_allowed (w : write_request) : Prop :=
  ap_mounted ap = true /\ ap_isConnected ap = true
  /\ exists a info, treasuryAddress ap = Some a /\ ap_treasuryInfo ap = Some info
     /\ if ti_paused info then ap_canUnpause ap = true /\ w = toggle_request ap a "unpause"
        else ap_canPause ap = true /\ w = toggle_request ap a "pause".
Definition allocate_allowed (w : write_request) : Prop :=
  exists title, submitTreasuryAllocation parseUnits read_allowed (allocation_of ap) = Ok (Running title w).
Definition cancel_allowed (r : TreasuryOperationRow) (w : write_request) : Prop :=
  ap_mounted ap = true /\ ap_isConnected ap = true /\ ap_isMultisig ap = true
  /\ exists a, treasuryAddress ap = Some a /\ w = cancel_request ap a (or_operationId r).
Definition execute_allowed (r : TreasuryOperationRow) (w : write_request) : Prop :=
  or_status r = ready
  /\ exists a x, treasuryAddress ap = Some a
     /\ buildTreasuryExecutionRequest (or_metadata r) (or_operationId r) a (ap_gas ap) = Ok (Some x)
     /\ x_tx x = Ok w.

#[local] Hint Resolve silent_show silent_connect silent_ret silent_draft silent_session_or_report
  silent_scheduled silent_settled may_write_run may_write_contract : flux.

Ltac silent_case := cbn [negb andb]; solve [apply silent_may_write; eauto with flux].

Lemma schedule_writes : may_write schedule_allowed (handleScheduleOperation wd base_url parseUnits read_hash ap).
Proof.
  unfold handleScheduleOperation. destruct (treasuryAddress ap) as [a|] eqn:Ea; [|silent_case].
  destruct (ap_mounted ap) eqn:Hm, (ap_isConnected ap) eqn:Hc; try silent_case. simpl.
  destruct (ap_isMultisig ap) eqn:Hs; [|silent_case]. simpl.
  intros p. unfold bind at 1, buildOperationDraft.
  destruct (buildTreasuryOperationDraft _ _ _ _) as [m|[m|e]] eqn:Hd.
  - apply (may_write_ret schedule_allowed (operation_delay (ap_form ap))). intros d Hdel.
    apply may_write_after; [eauto with flux|]. intros []; [|silent_case].
    apply may_write_run; [|eauto with flux]. apply may_write_contract. split_and!; try done.
    exists a, (num_of_Z (date_now wd (trace p))), m, d. split_and!; done.
  - simpl. exists [Shown m]. split; [done|]. simpl. split; [lia|constructor].
  - simpl. exists []. rewrite app_nil_r. split; [done|]. simpl. split; [lia|constructor].
Qed.

Lemma toggle_writes : may_write toggle_allowed (submitPauseToggle wd ap).
Proof.
  unfold submitPauseToggle. destruct (treasuryAddress ap) as [a|] eqn:Ea; [|silent_case].
  destruct (ap_treasuryInfo ap) as [info|] eqn:Hi; [|silent_case].
  destruct (ap_mounted ap) eqn:Hm, (ap_isConnected ap) eqn:Hc; try silent_case. simpl.
  destruct (ti_paused info) eqn:Hp.
  - destruct (ap_canUnpause ap) eqn:Hu; [|silent_case]. simpl.
    apply may_write_run; [|intros; apply silent_ret]. apply may_write_contract. split_and!; try done.
    exists a, info. by rewrite Hp.
  - destruct (ap_canPause ap) eqn:Hu; [|silent_case]. simpl.
    apply may_write_run; [|intros; apply silent_ret]. apply may_write_contract. split_and!; try done.
    exists a, info. by rewrite Hp.
Qed.

Lemma allocate_writes : may_write allocate_allowed (submitAllocation wd parseUnits read_allowed ap).
Proof.
  unfold submitAllocation. apply may_write_ret. intros s Hs. destruct s as [m| |title w]; try silent_case.
  apply may_write_run; [|intros; apply silent_ret]. apply may_write_contract. by exists title.
Qed.

Lemma cancel_writes r : may_write (cancel_allowed r) (submitCancelOperation wd base_url ap r).
Proof.
  unfold submitCancelOperation. destruct (treasuryAddress ap) as [a|] eqn:Ea; [|silent_case].
  destruct (ap_mounted ap) eqn:Hm, (ap_isConnected ap) eqn:Hc; try silent_case. simpl.
  destruct (ap_isMultisig ap) eqn:Hs; [|silent_case]. simpl.
  apply may_write_after; [eauto with flux|]. intros []; [|silent_case].
  apply may_write_run; [|eauto with flux]. apply may_write_contract. split_and!; try done. by exists a.
Qed.

Lemma execute_writes r : may_write (execute_allowed r) (submitExecuteOperation wd base_url ap r).
Proof.
  unfold submitExecuteOperation. destruct (treasuryAddress ap) as [a|] eqn:Ea; [|silent_case].
  cbv zeta. destruct (truthy (or_metadata r)); [|silent_case]. simpl.
  destruct (bool_decide_reflect (or_status r = ready)); [|silent_case]. simpl.
  apply may_write_ret. intros [x|] Hx; [|silent_case].
  apply may_write_after; [eauto with flux|]. intros []; [|silent_case].
  apply may_write_run; [|eauto with flux]. apply may_write_ret. intros w Hw.
  apply may_write_contract. split; [done|]. by exists a, x.
Qed.

(** What the page may send.  Whatever the wallet, the chain and the backend do, a
    handler sends at most one transaction, and only the one its guards allow: scheduling
    and cancelling for a connected multisig, with the drafted id and a valid delay, or
    the row's id; pausing and resuming by the treasury's state and the account's role;
    an allocation that passed every check of the form; an execution of a ready row, with
    the request its metadata gives.  Opening a confirmation sends nothing. *)
Theorem handlers_guard_transactions r :
  may_write schedule_allowed (handleScheduleOperation wd base_url parseUnits read_hash ap)
  /\ may_write toggle_allowed (submitPauseToggle wd ap)
  /\ may_write allocate_allowed (submitAllocation wd parseUnits read_allowed ap)
  /\ may_write (cancel_allowed r) (submitCancelOperation wd base_url ap r)
  /\ may_write (execute_allowed r) (submitExecuteOperation wd base_url ap r)
  /\ silent (raw := raw) (handlePauseToggle ap) /\ silent (raw := raw) (handleAllocation ap)
  /\ silent (raw := raw) (handleCancelOperation r) /\ silent (raw := raw) (handleExecuteOperation r).
Proof.
  split_and!; auto using schedule_writes, toggle_writes, allocate_writes, cancel_writes, execute_writes.
  - unfold handlePauseToggle. destruct (ap_treasuryInfo ap) as [[? ? ? ? ? []]|]; by apply silent_log.
  - unfold handleAllocation. destruct (negb _); [apply silent_connect|].
    destruct (ap_selectedAllocationToken ap); [by apply silent_log|apply silent_show].
  - by apply silent_log.
  - by apply silent_log.
Qed.
End guards.

(** ** From scheduling to execution, through storage *)

Section survives.
Context {raw : Type} `{JsonCodec raw} `{AbiEncoder}.
Variable wd : world raw.
Variable base_url : string.
Variable parseUnits : string -> Z -> option Z.
Variable read_hash : string -> timelock_op -> res js_error string.
Hypothesis read_hash_sound : forall a o id, read_hash a o = Ok id -> id = op_hash o.
Variable ap : action_params.
(** The browser, and a wallet and a chain that confirm what is sent. *)
Hypothesis in_browser : has_window wd = true.
Hypothesis wallet_signs : forall t w, exists hash, write_contract wd t w = Ok hash.
Hypothesis chain_confirms : forall t hash, wait_receipt wd t hash = Ok tt.

Lemma silent_none {A} (m : @page_io raw A) p l :
  silent m -> trace (fst (m p)) = (trace p ++ l)%list -> writes l = [].
Proof.
  intros Hm Ht. destruct (Hm p) as (l' & Ht' & Hl'). rewrite Ht in Ht'.
  apply app_inv_head in Ht' as ->. done.
Qed.

Lemma framed_session : framed (ensureBackendSession wd base_url ap).
Proof. apply framed_bind; [apply framed_ensure|]. intros; apply framed_ret. Qed.

Lemma framed_session_or_report : framed (ensureBackendSessionOrReport wd base_url ap).
Proof.
  apply framed_catch.
  - apply framed_bind; [apply framed_session|]. intros; apply framed_ret.
  - intros e. apply framed_bind; [apply framed_log|]. intros; apply framed_ret.
Qed.

(** A confirmed transaction runs its continuation, and nothing after it touches storage. *)
Lemma run_confirmed action title w onConfirmed p :
  f_publicClient (ap_form ap) = true ->
  exists hash p3,
    local p3 = local p /\ metadataById p3 = metadataById p
    /\ local (fst (runTransaction wd ap action title (writeContractAsync wd w) onConfirmed p))
       = local (fst (onConfirmed hash p3)).
Proof.
  intros Hp. unfold runTransaction. rewrite Hp. cbn [negb].
  set (p1 := with_event (Active (Some action)) p).
  destruct (wallet_signs (trace (with_event (Wrote w) p1)) w) as [hash Hw].
  set (p3 := with_event (Awaited hash) (with_event (Wrote w) p1)).
  exists hash, p3. split; [done|]. split; [done|].
  unfold bind, catch, log, show, writeContractAsync, waitForTransactionReceipt, ask.
  cbn beta iota zeta. fold p1. rewrite Hw. fold p3. rewrite chain_confirms.
  by destruct (onConfirmed hash p3) as [p4 [[]|e]].
Qed.

Lemma storage_key_other c a : getTreasuryOperationStorageKey c a <> ADMIN_SESSION_STORAGE_KEY.
Proof. discriminate. Qed.

(** Whatever the backend does, the confirmation has stored the draft. *)
Lemma scheduled_stored a draft delay hash p :
  treasuryAddress ap = Some a ->
  local (fst (schedule_confirmed wd base_url ap draft delay hash p))
    !! getTreasuryOperationStorageKey (chainId ap) a
  = Some (json_stringify (VObj (obj_set (to_string (get "operationId" draft)) draft
                                  (spread (metadataById p))))).
Proof.
  intros Ha. unfold schedule_confirmed. unfold bind at 1, persistMetadata. rewrite Ha.
  unfold storeMetadata, saveTreasuryOperationMetadata. rewrite in_browser. cbn [negb].
  match goal with |- local (fst (?rest ?p1)) !! ?k = _ => assert (framed rest) as Hf end.
  { apply framed_bind; [apply framed_session|]. intros _. apply framed_bind; [by apply framed_pure|].
    intros t. apply framed_bind; [apply framed_request|]. intros _. apply framed_ret. }
  rewrite (proj1 (Hf _ _ (storage_key_other _ _))). cbn. by rewrite lookup_insert_eq.
Qed.

Lemma draft_json_ok a f now p : json_ok (VObj (d_params p)) = true -> json_ok (draft_metadata a f now p) = true.
Proof.
  intros Hp. apply json_ok_obj. split; [apply (bool_decide_unpack _); vm_compute; reflexivity|].
  repeat (constructor; [done|]). constructor.
Qed.

(** Storage gives a stored draft back, cleaned. *)
Lemma load_stored c a (o : obj) m id (l : gmap string raw) :
  l !! getTreasuryOperationStorageKey c a = Some (json_stringify (VObj (obj_set id (VObj m) o))) ->
  json_ok (VObj o) = true -> json_ok (VObj m) = true ->
  get id (loadTreasuryOperationMetadata true c a l) = json_clean (VObj m).
Proof.
  intros Hl Ho Hm. pose proof (obj_set_ok id (VObj m) o Hm Ho) as Hok.
  unfold loadTreasuryOperationMetadata. cbn [negb]. rewrite Hl, json_stringify_truthy.
  rewrite json_parse_stringify by done. rewrite json_clean_obj. cbn [get].
  pose proof Hok as [Hwf _]%json_ok_obj. rewrite obj_get_clean by done.
  rewrite obj_get_set, String.eqb_refl. done.
Qed.

(** What a handler that sent the transaction has stored. *)
Lemma schedule_stores a p l :
  treasuryAddress ap = Some a ->
  trace (fst (handleScheduleOperation wd base_url parseUnits read_hash ap p)) = (trace p ++ l)%list ->
  writes l <> [] ->
  exists now draft,
    buildTreasuryOperationDraft parseUnits read_hash (ap_form ap) now = Ok draft
    /\ local (fst (handleScheduleOperation wd base_url parseUnits read_hash ap p))
         !! getTreasuryOperationStorageKey (chainId ap) a
       = Some (json_stringify (VObj (obj_set (to_string (get "operationId" draft)) draft
                                       (spread (metadataById p))))).
Proof.
  intros Ha. unfold handleScheduleOperation. rewrite Ha. intros Ht Hw.
  destruct (negb (ap_mounted ap && ap_isConnected ap)).
  { by apply silent_none in Ht; [|apply silent_connect]. }
  destruct (negb (ap_isMultisig ap)).
  { by apply silent_none in Ht; [|apply silent_show]. }
  unfold bind at 1, buildOperationDraft in Ht. unfold bind at 1, buildOperationDraft.
  destruct (buildTreasuryOperationDraft _ _ _ _) as [m|[mo|e]] eqn:Hd.
  2: { simpl in Ht. apply app_inv_head in Ht as <-. done. }
  2: { simpl in Ht. rewrite <- (app_nil_r (trace p)) in Ht at 1. by apply app_inv_head in Ht as <-. }
  eexists _, m. split; [exact Hd|].
  pose proof Hd as Hb. apply build_draft_Ok in Hb as (_ & _ & delay & _ & _ & Hdel & _ & _); [|done].
  rewrite Hdel in *. unfold bind at 1, ret at 1 in Ht. unfold bind at 1, ret at 1.
  unfold bind at 1 in Ht. unfold bind at 1.
  destruct (silent_session_or_report wd base_url ap p) as (l1 & Ht1 & Hl1).
  pose proof (framed_session_or_report p) as Hf.
  destruct (ensureBackendSessionOrReport wd base_url ap p) as [p2 [b|e]]; simpl in Ht1, Hf.
  2: { simpl in Ht. rewrite Ht1 in Ht. by apply app_inv_head in Ht as <-. }
  destruct b.
  2: { simpl in Ht. rewrite Ht1 in Ht. by apply app_inv_head in Ht as <-. }
  destruct (f_publicClient (ap_form ap)) eqn:Hpc.
  2: { unfold runTransaction in Ht. rewrite Hpc in Ht. simpl in Ht. rewrite Ht1, <- app_assoc in Ht.
       apply app_inv_head in Ht as <-. rewrite writes_app, Hl1 in Hw. done. }
  destruct (run_confirmed act_schedule "已提交治理操作"
    (schedule_request ap a m (default 0 delay)) (schedule_confirmed wd base_url ap m (default 0 delay))
    p2 Hpc) as (hash & p3 & Hl3 & Hm3 & Hrun).
  rewrite Hrun, (scheduled_stored a m (default 0 delay) hash p3 Ha), Hm3.
  by rewrite (proj2 (Hf "" ltac:(discriminate))).
Qed.

(** C40.  A scheduled operation can be executed later.  Once the page has sent the
    scheduling transaction of a form and the chain has confirmed it, then even if the
    backend refuses or loses the record, the browser's storage gives metadata from which
    the execution request is exactly the contract's execution of the operation the form
    described. *)
Theorem scheduled_operation_survives a md p l :
  treasuryAddress ap = Some a -> metadataById p = VObj md -> json_ok (VObj md) = true ->
  trace (fst (handleScheduleOperation wd base_url parseUnits read_hash ap p)) = (trace p ++ l)%list ->
  writes l <> [] ->
  let o := form_operation parseUnits (ap_form ap) in
  let later := local (fst (handleScheduleOperation wd base_url parseUnits read_hash ap p)) in
  let m := get (op_hash o) (loadTreasuryOperationMetadata true (chainId ap) a later) in
  forall a' gas, exists title w,
    buildTreasuryExecutionRequest m (op_hash o) a' gas = Ok (Some {| x_title := title; x_tx := Ok w |})
    /\ call_of_write w = Ok (Execute o (op_hash o)).
Proof.
  intros Ha Hmd Hok Ht Hw o later m a' gas.
  destruct (schedule_stores a p l Ha Ht Hw) as (now & draft & Hd & Hst).
  apply build_draft_Ok in Hd as (ta & dp & delay & _ & -> & _ & _ & Hex); [|done].
  pose proof Hex as (Hpok & Hid & _).
  assert (to_string (get "operationId" (draft_metadata ta (ap_form ap) now dp)) = op_hash o) as Hto
    by (cbn; by rewrite Hid).
  rewrite Hto, Hmd in Hst. cbn [spread] in Hst. rewrite obj_spread_nil in Hst
    by (by apply json_ok_obj in Hok as [? _]).
  eapply comes_back_request with (date_time := fun _ => num_zero); [exact Hex|]. right. left.
  unfold m, later. eapply load_stored; [exact Hst|done|by apply draft_json_ok].
Qed.
End survives.

(** ** Concrete instances *)

#[local] Existing Instance sample_hash.
#[local] Existing Instance sample_abi.

Definition sample_params : action_params :=
  {| ap_form := sample_form approveSpender sample_address; ap_treasuryInfo := None; ap_gas := None;
     ap_mounted := true; ap_isConnected := true; ap_isMultisig := true; ap_canPause := true;
     ap_canUnpause := true; ap_canAllocate := true; ap_openConnectModal := true;
     ap_selectedAllocationToken := None; ap_allocationRecipientAddress := "";
     ap_allocationAmountValue := ""; ap_actorAddress := Some "0xa1" |}.

Definition sample_scheduled : page (option jsval) :=
  fst (handleScheduleOperation sample_world "http://b" exact_parseUnits sample_read_hash sample_params
         empty_page).

Lemma scheduled_operation_survives_witness :
  exists title w,
    buildTreasuryExecutionRequest
      (get (op_hash (ApproveSpender 167 167 1250500000))
         (loadTreasuryOperationMetadata true (num_of_Z 31337) sample_address (local sample_scheduled)))
      (op_hash (ApproveSpender 167 167 1250500000)) sample_address None
    = Ok (Some {| x_title := title; x_tx := Ok w |})
    /\ call_of_write w
       = Ok (Execute (ApproveSpender 167 167 1250500000) (op_hash (ApproveSpender 167 167 1250500000))).
Proof.
  apply (scheduled_operation_survives sample_world "http://b" exact_parseUnits sample_read_hash
    sample_read_hash_sound sample_params eq_refl (fun _ _ => ex_intro _ "0xdeadbeef00" eq_refl)
    (fun _ _ => eq_refl) sample_address [] empty_page (trace sample_scheduled)).
  - reflexivity.
  - reflexivity.
  - reflexivity.
  - reflexivity.
  - vm_compute. discriminate.
Defined.
