(* ===== verification/PostDeploy.v ===== *)
(** * Initialising a deployment (contracts/ignition/post-deploy-init.ts)

    The script that configures the contracts after deployment: it schedules and executes
    the treasury's configuration through the timelock, sets the executor of the limit-order
    settlement, moves funds and hands over ownership.  It runs against the treasury of
    TreasuryContract.v; other contracts' calls are parameters.  A [script] changes the
    chain and returns or throws; what it prints is left out. *)

From S2P Require Import Prelude JsString JsNumber JsValue JsError TreasuryContract TreasuryAbi.
From Stdlib Require Import Ascii.
Open Scope string_scope.
Open Scope Z_scope.
Open Scope flux_scope.

(** ** The configuration *)

Inductive InitMode := plan | schedule | execute | all.
#[export] Instance InitMode_eq_dec : EqDecision InitMode.
Proof. solve_decision. Defined.

(** A bigint, number or string of the configuration is a dynamic value; addresses and
    aliases are texts. *)
Record AllowedTokenConfig := { at_token : string; at_allowed : bool; at_delay : jsval }.
Record AllowedRecipientConfig := { ar_recipient : string; ar_allowed : bool; ar_delay : jsval }.
Record DailySpendCapConfig := { dc_token : string; dc_amount : jsval; dc_delay : jsval }.
Record SpenderApprovalConfig :=
  { sa_token : string; sa_spender : string; sa_amount : jsval; sa_delay : jsval }.
Record SpenderRevocationConfig := { sr_token : string; sr_spender : string; sr_delay : jsval }.

Record TreasuryInitConfig := {
  tc_allowedTokens : list AllowedTokenConfig;
  tc_allowedRecipients : list AllowedRecipientConfig;
  tc_dailySpendCaps : list DailySpendCapConfig;
  tc_spenderApprovals : list SpenderApprovalConfig;
  tc_spenderRevocations : list SpenderRevocationConfig;
}.

Record LimitOrderSettlementConfig := {
  ls_restrictedExecutor : option string;
  ls_onlyRestrictedExecutor : option bool;
}.

Record NativeTransferConfig := { nt_to : string; nt_amount : jsval; nt_sender : option string }.
Record TokenConfig := { tm_token : string; tm_to : string; tm_amount : jsval; tm_sender : option string }.
Record OwnershipTransferConfig :=
  { ot_contract : string; ot_newOwner : string; ot_sender : option string }.

Record DeploymentConfig := {
  dp_source_ignition : bool;
  dp_deploymentId : option string;
  dp_deploymentsDir : option string;
  dp_futureIds : list (string * string);
  dp_addresses : gmap string string;
}.

Record PostDeployInitConfig := {
  cfg_deployment : option DeploymentConfig;
  cfg_autoMineTimelockOnLocal : option bool;
  cfg_executeCaller : option string;
  cfg_defaultFundingSender : option string;
  cfg_treasury : TreasuryInitConfig;
  cfg_limitOrderSettlement : option LimitOrderSettlementConfig;
  cfg_nativeTransfers : list NativeTransferConfig;
  cfg_tokenMints : list TokenConfig;
  cfg_tokenTransfers : list TokenConfig;
  cfg_ownershipTransfers : list OwnershipTransferConfig;
}.

(** ** Reading it *)

Definition ZERO_ADDRESS : string := "0x0000000000000000000000000000000000000000".

Definition DEFAULT_DEPLOYMENT_FUTURE_IDS : list (string * string) :=
  [("token", "FluxCoreModule#FluxToken"); ("treasury", "FluxCoreModule#FluxSwapTreasury");
   ("factory", "FluxCoreModule#FluxSwapFactory"); ("router", "FluxCoreModule#FluxSwapRouter");
   ("settlement", "FluxCoreModule#FluxSignedOrderSettlement");
   ("manager", "FluxCoreModule#FluxMultiPoolManager");
   ("poolFactory", "FluxCoreModule#FluxPoolFactory");
   ("buybackExecutor", "FluxCoreModule#FluxBuybackExecutor");
   ("revenueDistributor", "FluxCoreModule#FluxRevenueDistributor");
   ("weth", "FluxCoreModule#MockWETH"); ("mockUsdt", "FluxCoreModule#mockUsdt");
   ("mockUsdc", "FluxCoreModule#mockUsdc"); ("mockWbtc", "FluxCoreModule#mockWbtc")].

Definition mode_of (s : string) : option InitMode :=
  if String.eqb s "plan" then Some plan else if String.eqb s "schedule" then Some schedule
  else if String.eqb s "execute" then Some execute else if String.eqb s "all" then Some all else None.

(** The loop over the arguments, from the mode and path of the environment. *)
Fixpoint parse_args (argv : list string) (mode configPath : string) : res js_error (string * string) :=
  match argv with
  | [] => Ok (mode, configPath)
  | arg :: rest =>
    if String.eqb arg "--mode" then
      match rest with
      | [] => Throw (Error "Unsupported --mode value: <empty>")
      | value :: rest' =>
        match mode_of value with
        | Some _ => parse_args rest' value configPath
        | None => Throw (Error ("Unsupported --mode value: " ++ value))
        end
      end
    else if String.eqb arg "--init-config" then
      match rest with
      | [] => Ok (mode, configPath)
      | value :: rest' => parse_args rest' mode value
      end
    else parse_args rest mode configPath
  end.

Definition parseCliArgs (env_mode env_config : option string) (argv : list string)
  : res js_error (InitMode * string) :=
  let* r := parse_args argv (default "plan" env_mode)
              (default "./ignition/parameters/post-deploy-init.local.sample.json5" env_config) in
  match mode_of (fst r) with
  | Some mode => Ok (mode, snd r)
  | None => Throw (Error ("Unsupported init mode: " ++ fst r))
  end.

Definition normalizeBigInt (value : jsval) (fallback : Z) : res js_error Z :=
  match value with
  | VUndef => Ok fallback
  | VBig z => Ok z
  | VNum _ => to_bigint value
  | VStr s => to_bigint (VStr (trim s))
  | VNull => Throw (type_error "trim" value)
  | _ => Throw (Error "value.trim is not a function")
  end.

Definition is_hex (c : ascii) : bool := is_hex_lower (lower_char c).

(** The pattern of 40 hexadecimal digits; this [isAddress] does not look at checksums. *)
Definition is_address_pattern (value : string) : bool :=
  match value with
  | String c (String x t) =>
    Ascii.eqb c "0" && Ascii.eqb x "x" && Nat.eqb (String.length t) 40 && all_chars is_hex t
  | _ => false
  end.

Definition quoted (s : string) : string := String (chr 34) (s ++ String (chr 34) EmptyString).

Definition AddressBook : Type := gmap string string.

Definition resolveAddressLike (value : string) (addressBook : AddressBook) : res js_error string :=
  if String.eqb value "native" then Ok ZERO_ADDRESS
  else if is_address_pattern value then Ok value
  else match addressBook !! value with
  | Some a => Ok a
  | None => Throw (Error ("Address alias " ++ quoted value ++ " is not available in the resolved address book"))
  end.

(** The chain's file of deployed addresses, read and parsed, is the parameter. *)
Definition resolveAddressBook (read_deployed : option string -> string -> res js_error jsval)
    (deployment : option DeploymentConfig) (chainId : Z) : res js_error AddressBook :=
  match deployment with
  | None => Ok ∅
  | Some d =>
    if negb (dp_source_ignition d || match dp_deploymentId d with Some _ => true | None => false end)
    then Ok (dp_addresses d)
    else
      let* deployedAddresses :=
        read_deployed (dp_deploymentsDir d) (default ("chain-" ++ dec chainId) (dp_deploymentId d)) in
      Ok (foldl (fun book entry =>
            match book !! fst entry with
            | Some _ => book
            | None =>
              let futureId := default (snd entry)
                (snd <$> find_first (fun e => String.eqb (fst e) (fst entry)) (dp_futureIds d)) in
              match get futureId deployedAddresses with
              | VStr resolved =>
                if is_address_pattern resolved then <[fst entry := resolved]> book else book
              | _ => book
              end
            end) (dp_addresses d) DEFAULT_DEPLOYMENT_FUTURE_IDS)
  end.

(** ** The chain *)

(** The settlement contract's executor policy (FluxSignedOrderSettlement.sol). *)
Record settlement := {
  st_owner : address;
  st_restrictedExecutor : address;
  st_onlyRestrictedExecutor : bool;
}.

Definition setRestrictedExecutor (sender executor : address) (s : settlement) : res string settlement :=
  guard* sender =? st_owner s or "OwnableUnauthorizedAccount" in
  Ok {| st_owner := st_owner s; st_restrictedExecutor := executor;
        st_onlyRestrictedExecutor := st_onlyRestrictedExecutor s |}.

Definition setExecutorRestriction (sender : address) (restricted : bool) (s : settlement)
  : res string settlement :=
  guard* sender =? st_owner s or "OwnableUnauthorizedAccount" in
  guard* negb (restricted && (st_restrictedExecutor s =? 0))
  or "FluxSignedOrderSettlement: ZERO_EXECUTOR" in
  Ok {| st_owner := st_owner s; st_restrictedExecutor := st_restrictedExecutor s;
        st_onlyRestrictedExecutor := restricted |}.

(** Transactions to contracts that are parameters: they leave the treasury and the
    settlement as they are. *)
Inductive other_tx :=
| SendNative (to : string) (amount : Z)
| MintToken (token to : string) (amount : Z)
| TransferToken (token to : string) (amount : Z)
| TransferOwnership (contract newOwner : string).

Inductive sent :=
| SentCall (from : string) (k : call)
| SentExecutor (from executor : string)
| SentRestriction (from : string) (restricted : bool)
| SentOther (from : string) (tx : other_tx).

Record chain := {
  ch_treasury : treasury;
  ch_settlement : settlement;
  ch_time : Z;
  ch_sent : list sent;
}.

Definition script (A : Type) : Type := chain -> chain * res js_error A.
Definition sret {A} (r : res js_error A) : script A := fun ch => (ch, r).
Definition sbind {A B} (m : script A) (k : A -> script B) : script B := fun ch =>
  match m ch with
  | (ch', Ok a) => k a ch'
  | (ch', Throw e) => (ch', Throw e)
  end.
Notation "'step*' x <- m ; k" := (sbind m (fun x => k))
  (at level 200, x name, m at level 100, k at level 200, right associativity) : flux_scope.

(** Reading the treasury. *)
Definition reads {A} (f : treasury -> res js_error A) : script A := fun ch => (ch, f (ch_treasury ch)).

(** [for (const a of l) { .. }] *)
Fixpoint for_each {A} (f : A -> script unit) (l : list A) : script unit :=
  match l with
  | [] => sret (Ok tt)
  | a :: l => sbind (f a) (fun _ => for_each f l)
  end.

(** A loop that collects. *)
Fixpoint collect_each {A B} (f : A -> script (option B)) (l : list A) : script (list B) :=
  match l with
  | [] => sret (Ok [])
  | a :: l =>
    sbind (f a) (fun b => sbind (collect_each f l) (fun bs =>
      sret (Ok (match b with Some b => b :: bs | None => bs end))))
  end.

(** ** The operations of the configuration *)

(** [tl_operation] is the operation the encoded arguments are: [getOperationId] is its
    hash and [execute] its execution. *)
Record TimelockOperation := {
  tl_kind : string;
  tl_description : string;
  tl_delay : Z;
  tl_desiredStateDescription : string;
  tl_isAlreadyApplied : treasury -> res js_error bool;
  tl_operation : res js_error timelock_op;
}.

Section operations.
Context `{AbiEncoder}.
Variable addressBook : AddressBook.
Variable treasuryMinDelay : Z.

Definition bool_text (b : bool) : string := if b then "true" else "false".

Definition allowed_token_operation (item : AllowedTokenConfig) : res js_error TimelockOperation :=
  let* token := resolveAddressLike (at_token item) addressBook in
  let desired := at_allowed item in
  let* delay := normalizeBigInt (at_delay item) treasuryMinDelay in
  Ok {| tl_kind := "setAllowedToken"; tl_description := "允许 Treasury 使用代币 " ++ token;
        tl_delay := delay;
        tl_desiredStateDescription := "allowedTokens[" ++ token ++ "] = " ++ bool_text desired;
        tl_isAlreadyApplied := fun c =>
          let* t := encodeAddress (VStr token) in Ok (Bool.eqb (is_ (allowedTokens c) t) desired);
        tl_operation := hashed_operation "hashSetAllowedToken" [VStr token; VBool desired] |}.

Definition allowed_recipient_operation (item : AllowedRecipientConfig) : res js_error TimelockOperation :=
  let* recipient := resolveAddressLike (ar_recipient item) addressBook in
  let desired := ar_allowed item in
  let* delay := normalizeBigInt (ar_delay item) treasuryMinDelay in
  Ok {| tl_kind := "setAllowedRecipient"; tl_description := "更新 Treasury 收款白名单 " ++ recipient;
        tl_delay := delay;
        tl_desiredStateDescription := "allowedRecipients[" ++ recipient ++ "] = " ++ bool_text desired;
        tl_isAlreadyApplied := fun c =>
          let* r := encodeAddress (VStr recipient) in Ok (Bool.eqb (is_ (allowedRecipients c) r) desired);
        tl_operation := hashed_operation "hashSetAllowedRecipient" [VStr recipient; VBool desired] |}.

Definition daily_cap_operation (item : DailySpendCapConfig) : res js_error TimelockOperation :=
  let* token := resolveAddressLike (dc_token item) addressBook in
  let* amount := normalizeBigInt (dc_amount item) 0 in
  let* delay := normalizeBigInt (dc_delay item) treasuryMinDelay in
  Ok {| tl_kind := "setDailySpendCap"; tl_description := "设置 Treasury 日限额 " ++ token;
        tl_delay := delay;
        tl_desiredStateDescription := "dailySpendCap[" ++ token ++ "] = " ++ dec amount;
        tl_isAlreadyApplied := fun c =>
          let* t := encodeAddress (VStr token) in Ok (at_ (dailySpendCap c) t =? amount);
        tl_operation := hashed_operation "hashSetDailySpendCap" [VStr token; VBig amount] |}.

Definition spender_approval_operation (item : SpenderApprovalConfig) : res js_error TimelockOperation :=
  let* token := resolveAddressLike (sa_token item) addressBook in
  let* spender := resolveAddressLike (sa_spender item) addressBook in
  let* amount := normalizeBigInt (sa_amount item) 0 in
  let* delay := normalizeBigInt (sa_delay item) treasuryMinDelay in
  Ok {| tl_kind := "approveSpender";
        tl_description := "批准 Treasury spender " ++ spender ++ " 使用 " ++ token;
        tl_delay := delay;
        tl_desiredStateDescription :=
          "approvedSpendRemaining[" ++ token ++ "][" ++ spender ++ "] = " ++ dec amount;
        tl_isAlreadyApplied := fun c =>
          let* t := encodeAddress (VStr token) in let* s := encodeAddress (VStr spender) in
          Ok (at_ (approvedSpendRemaining c) (t, s) =? amount);
        tl_operation := hashed_operation "hashApproveSpender" [VStr token; VStr spender; VBig amount] |}.

Definition spender_revocation_operation (item : SpenderRevocationConfig) : res js_error TimelockOperation :=
  let* token := resolveAddressLike (sr_token item) addressBook in
  let* spender := resolveAddressLike (sr_spender item) addressBook in
  let* delay := normalizeBigInt (sr_delay item) treasuryMinDelay in
  Ok {| tl_kind := "revokeSpender";
        tl_description := "撤销 Treasury spender " ++ spender ++ " 对 " ++ token ++ " 的额度";
        tl_delay := delay;
        tl_desiredStateDescription := "approvedSpendRemaining[" ++ token ++ "][" ++ spender ++ "] = 0";
        tl_isAlreadyApplied := fun c =>
          let* t := encodeAddress (VStr token) in let* s := encodeAddress (VStr spender) in
          Ok (at_ (approvedSpendRemaining c) (t, s) =? 0);
        tl_operation := hashed_operation "hashRevokeSpender" [VStr token; VStr spender] |}.

Definition map_items {A B} (f : A -> res js_error B) (l : list A) : res js_error (list B) :=
  res_mapi (fun _ => f) 0 l.

Definition timelock_operations (cfg : TreasuryInitConfig) : res js_error (list TimelockOperation) :=
  let* l1 := map_items allowed_token_operation (tc_allowedTokens cfg) in
  let* l2 := map_items allowed_recipient_operation (tc_allowedRecipients cfg) in
  let* l3 := map_items daily_cap_operation (tc_dailySpendCaps cfg) in
  let* l4 := map_items spender_approval_operation (tc_spenderApprovals cfg) in
  let* l5 := map_items spender_revocation_operation (tc_spenderRevocations cfg) in
  Ok (l1 ++ l2 ++ l3 ++ l4 ++ l5)%list.
End operations.

(** ** The script *)

Record context := {
  cx_scheduler : string;
  cx_executor : string;
  cx_defaultWallet : string;
  cx_operations : list TimelockOperation;
  cx_settlementExecutor : option string;
}.

Section script.
Context `{AbiEncoder}.
(** How the node writes an address, the time a block adds, and other contracts. *)
Variable show_address : address -> string.
Variable block_step : list sent -> Z.
Variable call_other : list sent -> string -> other_tx -> res js_error unit.
Variable read_owner : list sent -> string -> res js_error string.
Variable wallets : list string.
Variable chainId : Z.
Variable networkName : string.
Variable mode : InitMode.
Variable config : PostDeployInitConfig.
Variable addressBook : AddressBook.

Definition requireWalletClient (a label : string) : res js_error string :=
  match find_first (fun w => String.eqb (to_lower w) (to_lower a)) wallets with
  | Some w => Ok w
  | None => Throw (Error ("当前网络未提供 " ++ label ++ " 对应的钱包签名能力: " ++ a))
  end.

(** A transaction that is mined: the block is later than the last one.  One that reverts
    is not sent, its estimation throws. *)
Definition mined (tx : sent) (t : Z) (c : treasury) (s : settlement) (ch : chain) : chain :=
  {| ch_treasury := c; ch_settlement := s; ch_time := t; ch_sent := (ch_sent ch ++ [tx])%list |}.

Definition next_time (ch : chain) : Z := ch_time ch + block_step (ch_sent ch).

Definition send_call (from : string) (k : call) : script unit := fun ch =>
  match exec {| sender := address_value from; now := next_time ch; external_ok := true |} k
          (ch_treasury ch) with
  | Ok (c, _) => (mined (SentCall from k) (next_time ch) c (ch_settlement ch) ch, Ok tt)
  | Throw e => (ch, Throw (Error e))
  end.

Definition send_settlement (tx : sent) (f : settlement -> res string settlement) : script unit := fun ch =>
  match f (ch_settlement ch) with
  | Ok s => (mined tx (next_time ch) (ch_treasury ch) s ch, Ok tt)
  | Throw e => (ch, Throw (Error e))
  end.

Definition send_other (from : string) (tx : other_tx) : script unit := fun ch =>
  match call_other (ch_sent ch) from tx with
  | Ok _ => (mined (SentOther from tx) (next_time ch) (ch_treasury ch) (ch_settlement ch) ch, Ok tt)
  | Throw e => (ch, Throw e)
  end.

Definition getOperationId (t : TimelockOperation) : res js_error string :=
  let* o := tl_operation t in Ok (op_hash o).

Definition getReadyAt (id : string) : script Z :=
  reads (fun c => let* i := encodeBytes32 (VStr id) in Ok (at_ (operationReadyAt c) i)).

Definition scheduleOperation_tx (scheduler id : string) (delay : Z) : script unit :=
  step* k <- sret (let* i := encodeBytes32 (VStr id) in let* d := encodeUint256 (VBig delay) in
                   Ok (Schedule i d));
  send_call scheduler k.

Definition execute_tx (executor : string) (t : TimelockOperation) (id : string) : script unit :=
  step* k <- sret (let* o := tl_operation t in let* i := encodeBytes32 (VStr id) in Ok (Execute o i));
  send_call executor k.

(** The checks before anything is done. *)
Definition build_context : script context := fun ch =>
  (ch,
   match wallets with
   | [] => Throw (Error "当前网络没有可用的钱包客户端")
   | defaultWallet :: _ =>
     match addressBook !! "treasury" with
     | None => Throw (Error "未解析到 treasury 地址，初始化脚本无法继续")
     | Some _ =>
       let c := ch_treasury ch in
       let* executeCaller := match cfg_executeCaller config with
                             | None => Ok defaultWallet
                             | Some a => resolveAddressLike a addressBook
                             end in
       let* executor := requireWalletClient executeCaller "executeCaller" in
       let* scheduler := requireWalletClient (show_address (multisig c)) "Treasury multisig" in
       let* settlementExecutor :=
         match cfg_limitOrderSettlement config with
         | None => Ok None
         | Some l =>
           match addressBook !! "settlement" with
           | None => Throw (Error "未解析到限价单结算合约地址，无法配置执行器")
           | Some _ =>
             let* e := match ls_restrictedExecutor l with
                       | None => Ok None
                       | Some a => let* r := resolveAddressLike a addressBook in Ok (Some r)
                       end in
             guard* negb (default false (ls_onlyRestrictedExecutor l)
                          && match e with Some r => String.eqb r ZERO_ADDRESS | None => false end)
             or Error "限价单受限执行器不能设置为零地址" in
             Ok e
           end
         end in
       let* operations := timelock_operations addressBook (minDelay c) (cfg_treasury config) in
       Ok {| cx_scheduler := scheduler; cx_executor := executor; cx_defaultWallet := defaultWallet;
             cx_operations := operations; cx_settlementExecutor := settlementExecutor |}
     end
   end).

(** The listing of the plan: it reads every operation. *)
Definition list_operation (t : TimelockOperation) : script unit :=
  step* id <- sret (getOperationId t);
  step* _applied <- reads (tl_isAlreadyApplied t);
  step* _readyAt <- getReadyAt id;
  sret (Ok tt).

Definition is_schedule : bool := bool_decide (mode = schedule \/ mode = all).
Definition is_execute : bool := bool_decide (mode = execute \/ mode = all).

(** One turn of the first loop: the time from which the operation can be executed. *)
Definition schedule_one (scheduler : string) (t : TimelockOperation) : script (option Z) :=
  step* alreadyApplied <- reads (tl_isAlreadyApplied t);
  if (alreadyApplied : bool) then sret (Ok None)
  else
    step* id <- sret (getOperationId t);
    step* before <- getReadyAt id;
    step* readyAt <- (if is_schedule && (before =? 0)
                      then step* _sent <- scheduleOperation_tx scheduler id (tl_delay t); getReadyAt id
                      else sret (Ok before));
    sret (Ok (if 0 <? readyAt then Some readyAt else None)).

Definition localChain : bool :=
  (chainId =? 31337) && (String.eqb networkName "localhost" || starts_with networkName "hardhat").

(** On a local chain, time is advanced past the last of the operations. *)
Definition advance_time (readyAts : list Z) : script unit := fun ch =>
  if negb (bool_decide (mode = all)) || Nat.eqb (length readyAts) 0 then (ch, Ok tt)
  else
    let maxReadyAt := foldl (fun m r => if m <? r then r else m) 0 readyAts in
    if maxReadyAt <=? ch_time ch then (ch, Ok tt)
    else if localChain && default true (cfg_autoMineTimelockOnLocal config) then
      let secondsToAdvance := maxReadyAt - ch_time ch + 1 in
      ({| ch_treasury := ch_treasury ch; ch_settlement := ch_settlement ch;
          ch_time := ch_time ch + secondsToAdvance; ch_sent := ch_sent ch |}, Ok tt)
    else (ch, Throw (Error
      "当前模式是 all，但存在尚未到期的 timelock 操作；非本地链请先 schedule，等待延迟结束后再 execute")).

(** One turn of the second loop: the operation and its id if it can be executed now. *)
Definition executable_one (t : TimelockOperation) : script (option (TimelockOperation * string)) :=
  step* alreadyApplied <- reads (tl_isAlreadyApplied t);
  if (alreadyApplied : bool) then sret (Ok None)
  else
    step* id <- sret (getOperationId t);
    step* readyAt <- getReadyAt id;
    step* latestTimestamp <- (fun ch => (ch, Ok (ch_time ch)));
    sret (Ok (if (readyAt =? 0) || (latestTimestamp <? readyAt) then None else Some (t, id))).

Definition treasury_phase (cx : context) : script unit :=
  step* readyAts <- collect_each (schedule_one (cx_scheduler cx)) (cx_operations cx);
  step* _advanced <- advance_time readyAts;
  if is_execute then
    step* executable <- collect_each executable_one (cx_operations cx);
    for_each (fun item => execute_tx (cx_executor cx) (fst item) (snd item)) executable
  else sret (Ok tt).

Definition read_settlement {A} (f : settlement -> A) : script A := fun ch => (ch, Ok (f (ch_settlement ch))).

Definition settlement_phase (cx : context) : script unit :=
  match cfg_limitOrderSettlement config with
  | None => sret (Ok tt)
  | Some l =>
    step* owner <- read_settlement (fun s => show_address (st_owner s));
    step* ownerWallet <- sret (requireWalletClient owner "限价单结算合约 owner");
    step* _executor <-
      match cx_settlementExecutor cx with
      | None => sret (Ok tt)
      | Some e =>
        step* current <- read_settlement (fun s => show_address (st_restrictedExecutor s));
        if String.eqb (to_lower current) (to_lower e) then sret (Ok tt)
        else step* a <- sret (encodeAddress (VStr e));
             send_settlement (SentExecutor ownerWallet e)
               (setRestrictedExecutor (address_value ownerWallet) a)
      end;
    match ls_onlyRestrictedExecutor l with
    | None => sret (Ok tt)
    | Some r =>
      step* current <- read_settlement (fun s => show_address (st_restrictedExecutor s));
      if r && String.eqb current ZERO_ADDRESS
      then sret (Throw (Error "启用限价单受限执行器前必须先设置执行器地址"))
      else
        step* currentRestricted <- read_settlement st_onlyRestrictedExecutor;
        if Bool.eqb currentRestricted r then sret (Ok tt)
        else send_settlement (SentRestriction ownerWallet r)
               (setExecutorRestriction (address_value ownerWallet) r)
    end
  end.

Definition native_transfer (fallback : string) (item : NativeTransferConfig) : script unit :=
  step* s <- sret (resolveAddressLike (default fallback (nt_sender item)) addressBook);
  step* to <- sret (resolveAddressLike (nt_to item) addressBook);
  step* amount <- sret (normalizeBigInt (nt_amount item) 0);
  step* w <- sret (requireWalletClient s "native funding sender");
  send_other w (SendNative to amount).

Definition token_tx (tx : string -> string -> Z -> other_tx) (label fallback : string)
    (item : TokenConfig) : script unit :=
  step* s <- sret (resolveAddressLike (default fallback (tm_sender item)) addressBook);
  step* token <- sret (resolveAddressLike (tm_token item) addressBook);
  step* to <- sret (resolveAddressLike (tm_to item) addressBook);
  step* amount <- sret (normalizeBigInt (tm_amount item) 0);
  step* w <- sret (requireWalletClient s label);
  send_other w (tx token to amount).

Definition ownership_transfer (item : OwnershipTransferConfig) : script unit :=
  step* contract <- sret (resolveAddressLike (ot_contract item) addressBook);
  step* newOwner <- sret (resolveAddressLike (ot_newOwner item) addressBook);
  step* owner <- (fun ch => (ch, read_owner (ch_sent ch) contract));
  if String.eqb (to_lower owner) (to_lower newOwner) then sret (Ok tt)
  else
    step* s <- sret (match ot_sender item with
                     | None => Ok owner
                     | Some a => resolveAddressLike a addressBook
                     end);
    step* w <- sret (requireWalletClient s "ownership sender");
    send_other w (TransferOwnership contract newOwner).

Definition funding_phase (cx : context) : script unit :=
  step* fallback <- sret (match cfg_defaultFundingSender config with
                          | None => Ok (cx_defaultWallet cx)
                          | Some a => resolveAddressLike a addressBook
                          end);
  if is_execute then
    step* _n <- for_each (native_transfer fallback) (cfg_nativeTransfers config);
    step* _m <- for_each (token_tx MintToken "token mint sender" fallback) (cfg_tokenMints config);
    step* _t <- for_each (token_tx TransferToken "token transfer sender" fallback)
                  (cfg_tokenTransfers config);
    for_each ownership_transfer (cfg_ownershipTransfers config)
  else sret (Ok tt).

(** What the plan resolves to print. *)
Definition plan_funding : res js_error unit :=
  let* _n := map_items (fun i => let* a := normalizeBigInt (nt_amount i) 0 in
                                 resolveAddressLike (nt_to i) addressBook) (cfg_nativeTransfers config) in
  let token_line (i : TokenConfig) : res js_error string :=
    let* _k := resolveAddressLike (tm_token i) addressBook in
    let* _t := resolveAddressLike (tm_to i) addressBook in
    let* a := normalizeBigInt (tm_amount i) 0 in Ok (dec a) in
  let* _m := map_items token_line (cfg_tokenMints config) in
  let* _t := map_items token_line (cfg_tokenTransfers config) in
  let* _o := map_items (fun i => let* _c := resolveAddressLike (ot_contract i) addressBook in
                                 resolveAddressLike (ot_newOwner i) addressBook)
               (cfg_ownershipTransfers config) in
  Ok tt.

Definition main : script unit :=
  step* cx <- build_context;
  step* _listed <- for_each list_operation (cx_operations cx);
  if bool_decide (mode = plan) then sret plan_funding
  else
    step* _treasury <- treasury_phase cx;
    step* _settlement <- (if is_execute then settlement_phase cx else sret (Ok tt));
    funding_phase cx.
End script.

(** ** The operations of a configuration *)

(** What an operation sets, and whether a treasury already has it. *)
Definition applied (o : timelock_op) (c : treasury) : bool :=
  match o with
  | SetAllowedToken t b => Bool.eqb (is_ (allowedTokens c) t) b
  | SetAllowedRecipient r b => Bool.eqb (is_ (allowedRecipients c) r) b
  | SetDailySpendCap t n => at_ (dailySpendCap c) t =? n
  | ApproveSpender t s n => at_ (approvedSpendRemaining c) (t, s) =? n
  | RevokeSpender t s => at_ (approvedSpendRemaining c) (t, s) =? 0
  | _ => false
  end.

Definition configurable (o : timelock_op) : bool :=
  match o with
  | SetAllowedToken _ _ | SetAllowedRecipient _ _ | SetDailySpendCap _ _ | ApproveSpender _ _ _
  | RevokeSpender _ _ => true
  | _ => false
  end.

(** The entry of the treasury an operation is about. *)
Definition target (o : timelock_op) : nat * list Z :=
  match o with
  | SetAllowedToken t _ => (0%nat, [t])
  | SetAllowedRecipient r _ => (1%nat, [r])
  | SetDailySpendCap t _ => (2%nat, [t])
  | ApproveSpender t s _ | RevokeSpender t s => (3%nat, [t; s])
  | _ => (4%nat, [])
  end.

Lemma effect_applied e o c r :
  configurable o = true -> op_effect e o c = Ok r ->
  applied o (fst r) = true
  /\ operationReadyAt (fst r) = operationReadyAt c
  /\ forall o', target o' <> target o -> applied o' (fst r) = applied o' c.
Proof.
  intros Hc Hr. destruct o; try done; simpl in Hr; injection Hr as <-; simpl; unfold is_, at_;
    rewrite lookup_insert_eq || rewrite lookup_delete_eq; simpl;
    (split; [first [apply Bool.eqb_reflx|apply Z.eqb_refl|done]|]; split; [done|]);
    intros o' Ho'; destruct o'; simpl in *; unfold is_, at_; try done;
    (rewrite lookup_insert_ne || rewrite lookup_delete_ne); done || congruence.
Qed.

Lemma applied_ready o m c : applied o (with_ready m c) = applied o c.
Proof. by destruct o. Qed.

Section views.
Context `{AbiEncoder}.

(** An operation of the script and the contract's operation it is. *)
Definition views (t : TimelockOperation) (o : timelock_op) : Prop :=
  tl_operation t = Ok o /\ configurable o = true
  /\ forall c, tl_isAlreadyApplied t c = Ok (applied o c).

Ltac view_tac Hb o :=
  repeat bind_inv Hb; injection Hb as <-; intros Ho; split; [exact Ho|];
  cbn in Ho; repeat bind_inv Ho; injection Ho as <-;
  repeat match goal with
  | E : encodeBool (VBool _) = Ok _ |- _ => rewrite encodeBool_bool in E; injection E as <-
  | E : encodeUint256 (VBig _) = Ok _ |- _ => apply encodeUint256_value in E as ->
  end;
  split; [done|]; intros c; cbn;
  repeat match goal with E : encodeAddress _ = Ok _ |- _ => rewrite E; clear E end; done.

Lemma built_views book d cfg ops t o :
  timelock_operations book d cfg = Ok ops -> t ∈ ops -> tl_operation t = Ok o -> views t o.
Proof.
  unfold timelock_operations, map_items. intros Hops Hin. repeat bind_inv Hops. injection Hops as <-.
  rewrite !elem_of_app in Hin.
  assert (forall {A} (f : A -> res js_error TimelockOperation) l ts,
    res_mapi (fun _ => f) 0 l = Ok ts -> t ∈ ts -> exists a, f a = Ok t) as Hmap.
  { intros A f l ts Hf Ht. apply list_elem_of_lookup in Ht as [n Hn].
    destruct (res_mapi_lookup _ _ _ _ _ _ Hf Hn) as (a & _ & Ha). eauto. }
  destruct Hin as [Hin|[Hin|[Hin|[Hin|Hin]]]];
    (eapply Hmap in Hin as [a Ha]; [|eassumption]); revert Ha.
  - unfold allowed_token_operation. intros Hb. view_tac Hb o.
  - unfold allowed_recipient_operation. intros Hb. view_tac Hb o.
  - unfold daily_cap_operation. intros Hb. view_tac Hb o.
  - unfold spender_approval_operation. intros Hb. view_tac Hb o.
  - unfold spender_revocation_operation. intros Hb. view_tac Hb o.
Qed.
End views.

(** ** The phases *)

Lemma sbind_Ok {A B} (m : script A) (k : A -> script B) ch ch' b :
  sbind m k ch = (ch', Ok b) -> exists ch1 a, m ch = (ch1, Ok a) /\ k a ch1 = (ch', Ok b).
Proof. unfold sbind. destruct (m ch) as [ch1 [a|e]]; [eauto|by intros [= ]]. Qed.

(** Inverts a step that succeeded. *)
Ltac step_inv Hs :=
  let c1 := fresh "ch" in let x := fresh "x" in let Hx := fresh "Hx" in
  apply sbind_Ok in Hs as (c1 & x & Hx & Hs).

Section collected.
Context `{AbiEncoder}.

Definition id_ready (id : operation_id) (ch : chain) : Z := at_ (operationReadyAt (ch_treasury ch)) id.

Lemma getReadyAt_Ok o ch ch' r :
  getReadyAt (op_hash o) ch = (ch', Ok r) -> ch' = ch /\ r = id_ready (op_hash o) ch.
Proof.
  unfold getReadyAt, reads. rewrite encodeBytes32_hash. cbn. intros Hr. injection Hr as <- <-. done.
Qed.

(** What the second loop collects for one operation. *)
Definition due (o : timelock_op) (ch : chain) : bool :=
  negb (applied o (ch_treasury ch))
  && negb ((id_ready (op_hash o) ch =? 0) || (ch_time ch <? id_ready (op_hash o) ch)).

Lemma executable_one_Ok t o ch ch' r :
  views t o -> executable_one t ch = (ch', Ok r) ->
  ch' = ch /\ r = if due o ch then Some (t, op_hash o) else None.
Proof.
  intros (Ho & _ & Happ) Hs. unfold executable_one in Hs. step_inv Hs.
  unfold reads in Hx. rewrite Happ in Hx. injection Hx as <- <-. unfold due.
  destruct (applied o (ch_treasury ch)); [by injection Hs as <- <-|].
  step_inv Hs. unfold getOperationId in Hx. rewrite Ho in Hx. injection Hx as <- <-.
  step_inv Hs. apply getReadyAt_Ok in Hx as [-> ->]. step_inv Hs. injection Hx as <- <-.
  injection Hs as <- <-. split; [done|]. by destruct (_ || _).
Qed.

(** The collected operations are the due ones, in order. *)
Lemma executable_loop ts os ch ch' ex :
  Forall2 views ts os -> collect_each executable_one ts ch = (ch', Ok ex) ->
  ch' = ch /\ exists xs, xs `sublist_of` os /\ Forall2 (fun e o => views (fst e) o /\ snd e = op_hash o) ex xs
    /\ forall o, o ∈ os -> due o ch = true -> o ∈ xs.
Proof.
  intros Hv. revert ch ch' ex. induction Hv as [|t o ts os Hto Hv IH]; intros ch ch' ex Hs.
  { injection Hs as <- <-. split; [done|]. exists []. split_and!; [constructor|constructor|set_solver]. }
  cbn [collect_each] in Hs. step_inv Hs. apply executable_one_Ok with (o := o) in Hx as [-> ->]; [|done].
  step_inv Hs. apply IH in Hx as [-> (xs & Hsub & Hf & Hin)]. injection Hs as <- <-.
  split; [done|]. destruct (due o ch) eqn:Ed.
  - exists (o :: xs). split_and!; [by constructor|by constructor|set_solver].
  - exists xs. split_and!; [by constructor|done|]. intros o' Ho' Hd. apply elem_of_cons in Ho' as [->|Ho'];
      [congruence|auto].
Qed.

End collected.

Section phases.
Context `{AbiEncoder}.
Variable block_step : list sent -> Z.
Variable chainId : Z.
Variable networkName : string.
Variable config : PostDeployInitConfig.
Hypothesis block_step_nonneg : forall l, 0 <= block_step l.

(** Scheduling changes the timelock only, and time goes on. *)
Definition only_ready (ids : list operation_id) (ch ch' : chain) : Prop :=
  ch_time ch <= ch_time ch'
  /\ exists m, ch_treasury ch' = with_ready m (ch_treasury ch)
     /\ forall id, id ∉ ids -> at_ m id = id_ready id ch.

Lemma only_ready_refl ids ch : only_ready ids ch ch.
Proof. split; [lia|]. exists (operationReadyAt (ch_treasury ch)). split; [by destruct (ch_treasury ch)|done]. Qed.

Lemma only_ready_trans ids1 ids2 a b c :
  only_ready ids1 a b -> only_ready ids2 b c -> only_ready (ids1 ++ ids2) a c.
Proof.
  intros [Ht1 (m1 & E1 & H1)] [Ht2 (m2 & E2 & H2)]. split; [lia|]. exists m2. split; [by rewrite E2, E1|].
  intros id Hid. rewrite elem_of_app in Hid. rewrite H2 by naive_solver. unfold id_ready. rewrite E1. simpl.
  apply H1. naive_solver.
Qed.

Lemma only_ready_applied ids a b o : only_ready ids a b -> applied o (ch_treasury b) = applied o (ch_treasury a).
Proof. intros [_ (m & -> & _)]. apply applied_ready. Qed.

Lemma scheduled_tx scheduler o delay ch ch' :
  scheduleOperation_tx block_step scheduler (op_hash o) delay ch = (ch', Ok tt) ->
  only_ready [op_hash o] ch ch'
  /\ id_ready (op_hash o) ch' = next_time block_step ch + delay
  /\ minDelay (ch_treasury ch) <= delay.
Proof.
  unfold scheduleOperation_tx. rewrite encodeBytes32_hash. intros Hs. step_inv Hs.
  destruct (encodeUint256 (VBig delay)) as [d|] eqn:Ed; unfold sret in Hx; cbn in Hx; [|done].
  injection Hx as <- <-.
  apply encodeUint256_value in Ed as ->. unfold send_call in Hs.
  destruct (exec _ _ _) as [[c evs]|e] eqn:Ee; [|by injection Hs]. injection Hs as <-.
  pose proof (exec_ready _ _ _ _ _ Ee) as (Hr & _). pose proof (schedule_Ok _ _ _ _ _ Ee) as (_ & Hd & _).
  simpl in Hr. split; [|split; [unfold id_ready; simpl; rewrite Hr; unfold at_; by rewrite lookup_insert_eq|done]].
  split; [unfold next_time; simpl; pose proof (block_step_nonneg (ch_sent ch)); lia|].
  exists (operationReadyAt c). split.
  - simpl in *. unfold scheduleOperation, onlyMultisig in Ee. ok_inv Ee. by simplify_eq.
  - intros id Hid. rewrite Hr. unfold id_ready, at_. rewrite lookup_insert_ne; [done|set_solver].
Qed.

(** What the first loop leaves for an operation: applied, or waiting for a time that was
    collected (or is past anyway). *)
Definition waiting (rs : list Z) (o : timelock_op) (ch : chain) : Prop :=
  applied o (ch_treasury ch) = true
  \/ (id_ready (op_hash o) ch <> 0 /\ (id_ready (op_hash o) ch <= 0 \/ id_ready (op_hash o) ch ∈ rs)).

Lemma scheduled_one scheduler t o ch ch' r :
  views t o -> 0 < ch_time ch -> 0 <= minDelay (ch_treasury ch) ->
  schedule_one block_step all scheduler t ch = (ch', Ok r) ->
  only_ready [op_hash o] ch ch' /\ waiting (option_list r) o ch'.
Proof.
  intros (Ho & _ & Happ) Hpos Hmin Hs. unfold schedule_one in Hs. step_inv Hs.
  unfold reads in Hx. rewrite Happ in Hx. injection Hx as <- <-.
  destruct (applied o (ch_treasury ch)) eqn:Ea.
  { unfold sret in Hs. injection Hs as <- _. split; [apply only_ready_refl|by left]. }
  step_inv Hs. unfold getOperationId in Hx. rewrite Ho in Hx. injection Hx as <- <-.
  step_inv Hs. apply getReadyAt_Ok in Hx as [-> ->].
  step_inv Hs. unfold sret in Hs. injection Hs as <- <-.
  assert (only_ready [op_hash o] ch ch0 /\ x = id_ready (op_hash o) ch0 /\ x <> 0) as (Hor & -> & Hne).
  { change (is_schedule all) with true in Hx. cbn [andb] in Hx.
    destruct (Z.eqb_spec (id_ready (op_hash o) ch) 0) as [Hz|Hz].
    - step_inv Hx. destruct x0. apply scheduled_tx in Hx0 as (Hor & Hr & Hd).
      apply getReadyAt_Ok in Hx as [-> ->]. split; [done|]. split; [done|]. rewrite Hr.
      unfold next_time. pose proof (block_step_nonneg (ch_sent ch)). lia.
    - unfold sret in Hx. injection Hx as <- <-. split; [apply only_ready_refl|done]. }
  split; [done|]. right. split; [done|].
  destruct (Z.ltb_spec 0 (id_ready (op_hash o) ch0)); [right; set_solver|left; lia].
Qed.

Lemma waiting_keep ids rs rs' o a b :
  only_ready ids a b -> op_hash o ∉ ids -> rs ⊆ rs' -> waiting rs o a -> waiting rs' o b.
Proof.
  intros Hor Hid Hsub [Ha|[Hne Hr]].
  - left. by rewrite (only_ready_applied _ _ _ _ Hor).
  - right. destruct Hor as [_ (m & Em & Hm)].
    assert (id_ready (op_hash o) b = id_ready (op_hash o) a) as -> by (unfold id_ready at 1; rewrite Em; by apply Hm).
    set_solver.
Qed.

Lemma schedule_loop scheduler ts os ch ch' rs :
  Forall2 views ts os -> NoDup os -> 0 < ch_time ch -> 0 <= minDelay (ch_treasury ch) ->
  collect_each (schedule_one block_step all scheduler) ts ch = (ch', Ok rs) ->
  only_ready (op_hash <$> os) ch ch' /\ Forall (fun o => waiting rs o ch') os.
Proof.
  intros Hv. revert ch ch' rs. induction Hv as [|t o ts os Hto Hv IH]; intros ch ch' rs Hnd Hpos Hmin Hs.
  { injection Hs as <- <-. split; [apply only_ready_refl|constructor]. }
  apply NoDup_cons in Hnd as [Hnin Hnd]. cbn [collect_each] in Hs. step_inv Hs.
  destruct (scheduled_one _ _ _ _ _ _ Hto Hpos Hmin Hx) as [Hor Hw].
  step_inv Hs. injection Hs as <- <-.
  destruct (IH ch0 ch1 x0) as [Hor' Hws]; [done|destruct Hor; lia| |done|].
  { destruct Hor as [_ (m & -> & _)]. done. }
  split; [by apply (only_ready_trans [op_hash o] _ _ ch0)|]. constructor.
  - eapply waiting_keep; [exact Hor'| | |exact Hw].
    + intros Hin. apply list_elem_of_fmap in Hin as (o' & Heq & Hin). apply op_hash_inj in Heq as ->. done.
    + destruct x; set_solver.
  - eapply Forall_impl; [exact Hws|]. intros o' [Hl|[Hne Hr]]; [by left|right; split; [done|]].
    destruct x; set_solver.
Qed.

Lemma foldl_max l a : a <= foldl (fun m r => if m <? r then r else m) a l
  /\ Forall (fun r => r <= foldl (fun m r => if m <? r then r else m) a l) l.
Proof.
  revert a. induction l as [|x l IH]; intros a; simpl; [split; [lia|constructor]|].
  destruct (IH (if a <? x then x else a)) as [H1 H2].
  destruct (Z.ltb_spec a x); (split; [lia|]); (constructor; [lia|done]).
Qed.

Lemma advanced rs ch ch' :
  advance_time chainId networkName all config rs ch = (ch', Ok tt) ->
  ch_treasury ch' = ch_treasury ch /\ ch_time ch <= ch_time ch' /\ Forall (fun r => r <= ch_time ch') rs.
Proof.
  unfold advance_time. rewrite bool_decide_true by done. cbn [negb orb].
  destruct (Nat.eqb_spec (length rs) 0) as [Hl|Hl].
  { intros [= <-]. destruct rs; [|done]. split_and!; [done|lia|constructor]. }
  pose proof (foldl_max rs 0) as [_ Hm]. set (mx := foldl _ 0 rs) in *.
  destruct (Z.leb_spec mx (ch_time ch)).
  - intros [= <-]. split_and!; [done|lia|]. eapply Forall_impl; [exact Hm|]. simpl. lia.
  - destruct (_ && _); [|by intros [= ]]. intros [= <-]. cbn. split_and!; [done|lia|].
    eapply Forall_impl; [exact Hm|]. simpl. lia.
Qed.

Lemma executed_tx executor t o ch ch' :
  views t o -> execute_tx block_step executor t (op_hash o) ch = (ch', Ok tt) ->
  applied o (ch_treasury ch') = true
  /\ forall o', target o' <> target o -> applied o' (ch_treasury ch') = applied o' (ch_treasury ch).
Proof.
  intros (Ho & Hc & _) Hs. unfold execute_tx in Hs. rewrite Ho, encodeBytes32_hash in Hs. step_inv Hs.
  injection Hx as <- <-. unfold send_call in Hs.
  destruct (exec _ _ _) as [[c evs]|e] eqn:Ee; [|by injection Hs]. injection Hs as <-. simpl.
  simpl in Ee. unfold executeOperation in Ee.
  apply res_bind_Ok in Ee as ([] & _ & Ee). apply res_bind_Ok in Ee as (r & Hr & Ee).
  apply res_bind_Ok in Ee as (r' & Hr' & Ee). injection Ee as <- <-.
  unfold _consumeOperation in Hr. ok_inv Hr. injection Hr as <-. simpl in Hr'.
  destruct (effect_applied _ _ _ _ Hc Hr') as (Ha & _ & Hf). split; [done|].
  intros o' Ho'. rewrite Hf by done. apply applied_ready.
Qed.

Lemma execute_loop executor ex xs ch ch' :
  Forall2 (fun e o => views (fst e) o /\ snd e = op_hash o) ex xs -> NoDup (target <$> xs) ->
  for_each (fun item => execute_tx block_step executor (fst item) (snd item)) ex ch = (ch', Ok tt) ->
  Forall (fun o => applied o (ch_treasury ch') = true) xs
  /\ forall o', target o' ∉ target <$> xs -> applied o' (ch_treasury ch') = applied o' (ch_treasury ch).
Proof.
  intros Hv. revert ch. induction Hv as [|[t id] o ex xs [Hto Hid] Hv IH]; intros ch Hnd Hs.
  { injection Hs as <-. split; [constructor|done]. }
  rewrite fmap_cons in Hnd. apply NoDup_cons in Hnd as [Hnin Hnd]. cbn [for_each] in Hs. step_inv Hs.
  destruct x. simpl in *. subst id. apply executed_tx with (o := o) in Hx as [Ha Hf]; [|done].
  destruct (IH _ Hnd Hs) as [Has Hfs]. split.
  - constructor; [|done]. by rewrite Hfs.
  - intros o' Ho'. rewrite Hfs by set_solver. apply Hf. set_solver.
Qed.
End phases.

(** ** The script *)

(** A step that leaves the treasury alone. *)
Definition keeps {A} (m : script A) : Prop := forall ch, ch_treasury (fst (m ch)) = ch_treasury ch.

Lemma keeps_ret {A} (r : res js_error A) : keeps (sret r).
Proof. done. Qed.

Lemma keeps_bind {A B} (m : script A) (k : A -> script B) :
  keeps m -> (forall a, keeps (k a)) -> keeps (sbind m k).
Proof.
  intros Hm Hk ch. unfold sbind. specialize (Hm ch). destruct (m ch) as [ch1 [a|e]]; simpl in *; [|done].
  by rewrite Hk.
Qed.

Lemma keeps_each {A} (f : A -> script unit) l : (forall a, keeps (f a)) -> keeps (for_each f l).
Proof. intros Hf. induction l; simpl; [done|]. by apply keeps_bind. Qed.

Lemma keeps_read {A} (f : chain -> res js_error A) : keeps (fun ch => (ch, f ch)).
Proof. done. Qed.

Create HintDb deploy.
#[export] Hint Resolve keeps_ret keeps_bind keeps_each keeps_read : deploy.

Section main.
Context `{AbiEncoder}.
Variable show_address : address -> string.
Variable block_step : list sent -> Z.
Variable call_other : list sent -> string -> other_tx -> res js_error unit.
Variable read_owner : list sent -> string -> res js_error string.
Variable wallets : list string.
Variable chainId : Z.
Variable networkName : string.
Variable config : PostDeployInitConfig.
Variable addressBook : AddressBook.

Lemma keeps_settlement_tx tx f : keeps (send_settlement block_step tx f).
Proof. intros ch. unfold send_settlement. by destruct (f (ch_settlement ch)). Qed.

Lemma keeps_other from tx : keeps (send_other block_step call_other from tx).
Proof. intros ch. unfold send_other. by destruct (call_other _ _ _). Qed.

#[local] Hint Resolve keeps_settlement_tx keeps_other : deploy.

Lemma keeps_settlement_phase cx : keeps (settlement_phase show_address block_step wallets config cx).
Proof.
  unfold settlement_phase. destruct (cfg_limitOrderSettlement config) as [l|]; [|apply keeps_ret].
  apply keeps_bind; [apply keeps_read|]. intros owner. apply keeps_bind; [apply keeps_ret|]. intros w.
  apply keeps_bind.
  - destruct (cx_settlementExecutor cx); [|apply keeps_ret]. apply keeps_bind; [apply keeps_read|].
    intros c. destruct (String.eqb _ _); eauto with deploy.
  - intros _. destruct (ls_onlyRestrictedExecutor l); [|apply keeps_ret].
    apply keeps_bind; [apply keeps_read|]. intros c. destruct (_ && _); [apply keeps_ret|].
    apply keeps_bind; [apply keeps_read|]. intros r. destruct (Bool.eqb _ _); eauto with deploy.
Qed.

Lemma keeps_funding_phase mode cx :
  keeps (funding_phase block_step call_other read_owner wallets mode config addressBook cx).
Proof.
  unfold funding_phase. apply keeps_bind; [apply keeps_ret|]. intros fb.
  destruct (is_execute mode); [|apply keeps_ret].
  repeat (apply keeps_bind; [|intros _]); apply keeps_each; intros item;
    unfold native_transfer, token_tx, ownership_transfer; repeat (apply keeps_bind; [eauto with deploy|intros ?]);
    try apply keeps_other.
  destruct (String.eqb _ _); repeat (apply keeps_bind; [eauto with deploy|intros ?]); eauto with deploy.
Qed.

Hypothesis block_step_nonneg : forall l, 0 <= block_step l.

(** Different operations of the list are about different entries. *)
Lemma target_elem (os : list timelock_op) o o' :
  NoDup (target <$> os) -> o ∈ os -> o' ∈ os -> target o = target o' -> o = o'.
Proof.
  intros Hnd Ho Ho' Ht. apply list_elem_of_lookup in Ho as [i Hi]. apply list_elem_of_lookup in Ho' as [j Hj].
  assert (i = j) as ->; [|congruence].
  apply (NoDup_lookup _ i j (target o) Hnd); rewrite list_lookup_fmap; [by rewrite Hi|by rewrite Hj, Ht].
Qed.

Lemma treasury_applies cx os ch ch' :
  Forall2 views (cx_operations cx) os -> NoDup (target <$> os) ->
  0 < ch_time ch -> 0 <= minDelay (ch_treasury ch) ->
  treasury_phase block_step chainId networkName all config cx ch = (ch', Ok tt) ->
  Forall (fun o => applied o (ch_treasury ch') = true) os.
Proof.
  intros Hv Hnd Hpos Hmin Hs. unfold treasury_phase in Hs. step_inv Hs. rename x into rs, ch0 into ch1.
  pose proof (NoDup_fmap_1 _ _ Hnd) as Hos.
  destruct (schedule_loop block_step block_step_nonneg _ _ _ _ _ _ Hv Hos Hpos Hmin Hx) as [Hor Hw].
  step_inv Hs. destruct x. rename ch0 into ch2. apply advanced in Hx0 as (E2 & Htime & Hrs).
  change (is_execute all) with true in Hs. cbn iota in Hs. step_inv Hs.
  apply executable_loop with (os := os) in Hx0 as [-> (xs & Hsub & Hex & Hdue)]; [|done].
  assert (NoDup (target <$> xs)) as Hndx by (eapply sublist_NoDup; [exact Hnd|by apply fmap_sublist]).
  destruct (execute_loop block_step block_step_nonneg _ _ _ _ _ Hex Hndx Hs) as [Ha Hf].
  rewrite Forall_forall in Ha. rewrite Forall_forall in Hw. rewrite Forall_forall in Hrs.
  apply Forall_forall. intros o Ho.
  destruct (decide (o ∈ xs)) as [Hin|Hnin]; [by apply Ha|].
  rewrite Hf.
  - destruct (applied o (ch_treasury ch2)) eqn:Eap; [done|]. exfalso. apply Hnin, Hdue; [done|].
    unfold due. rewrite Eap. destruct (Hw o Ho) as [Hap|[Hne Hr]]; [by rewrite E2, Hap in Eap|].
    assert (id_ready (op_hash o) ch2 = id_ready (op_hash o) ch1) as Eid by (unfold id_ready; by rewrite E2).
    rewrite Eid. destruct (Z.eqb_spec (id_ready (op_hash o) ch1) 0); [done|].
    destruct (Z.ltb_spec (ch_time ch2) (id_ready (op_hash o) ch1)); [|done]. exfalso.
    destruct Hor as [Hmono _]. destruct Hr as [Hr|Hr]; [lia|]. apply Hrs in Hr. lia.
  - intros Hin. apply list_elem_of_fmap in Hin as (o' & Heq & Hin). apply Hnin.
    by rewrite (target_elem _ _ _ Hnd Ho (elem_of_submseteq _ _ _ Hin (sublist_submseteq _ _ Hsub)) Heq).
Qed.
Lemma views_list book d cfg ops ts os :
  timelock_operations book d cfg = Ok ops -> ts ⊆ ops -> tl_operation <$> ts = Ok <$> os ->
  Forall2 views ts os.
Proof.
  intros Hops. revert os. induction ts as [|t ts IH]; intros [|o os] Hin Heq; [constructor|done|done|].
  injection Heq as Ho Hos. constructor; [|apply IH; set_solver]. eapply built_views; [exact Hops|set_solver|done].
Qed.

Lemma listed ts ch : fst (for_each list_operation ts ch) = ch.
Proof.
  revert ch. induction ts as [|t ts IH]; intros ch; [done|]. cbn [for_each].
  assert (forall ch, fst (list_operation t ch) = ch) as Ht.
  { intros c. unfold list_operation, sbind, sret, reads, getReadyAt, getOperationId.
    destruct (tl_operation t) as [o|]; simpl; [|done]. destruct (tl_isAlreadyApplied t _); [|done].
    unfold reads. by destruct (encodeBytes32 _). }
  unfold sbind. specialize (Ht ch). destruct (list_operation t ch) as [c [[]|e]]; simpl in *; subst; auto.
Qed.

Lemma build_context_Ok ch ch' cx :
  build_context show_address wallets config addressBook ch = (ch', Ok cx) ->
  ch' = ch /\ timelock_operations addressBook (minDelay (ch_treasury ch)) (cfg_treasury config)
              = Ok (cx_operations cx).
Proof.
  unfold build_context. intros Hs. injection Hs as <- Hs. split; [done|].
  destruct wallets; [done|]. destruct (addressBook !! "treasury"); [|done].
  repeat bind_inv Hs. injection Hs as <-. done.
Qed.

#[local] Notation run mode :=
  (main show_address block_step call_other read_owner wallets chainId networkName mode config addressBook).

Lemma main_plan ch : fst (run plan ch) = ch.
Proof.
  unfold main, sbind. destruct (build_context _ _ _ _ ch) as [c [cx|e]] eqn:E.
  - apply build_context_Ok in E as [-> _]. pose proof (listed (cx_operations cx) ch) as Hl.
    destruct (for_each _ _ ch) as [c [[]|e]]; simpl in *; subst; done.
  - unfold build_context in E. by injection E as <- _.
Qed.

Lemma main_treasury ch ch' :
  run all ch = (ch', Ok tt) ->
  exists cx ch1, build_context show_address wallets config addressBook ch = (ch, Ok cx)
    /\ treasury_phase block_step chainId networkName all config cx ch = (ch1, Ok tt)
    /\ ch_treasury ch' = ch_treasury ch1.
Proof.
  unfold main. intros Hs. step_inv Hs. rename x into cx. pose proof Hx as Hcx.
  apply build_context_Ok in Hcx as [-> _]. step_inv Hs. destruct x.
  pose proof (listed (cx_operations cx) ch) as Hl. rewrite Hx0 in Hl. simpl in Hl. subst ch0.
  rewrite bool_decide_false in Hs by done. step_inv Hs. destruct x. rename ch0 into ch1.
  exists cx, ch1. split; [done|]. split; [done|].
  change (is_execute all) with true in Hs. cbn iota in Hs. step_inv Hs.
  pose proof (keeps_settlement_phase cx ch1) as K1. rewrite Hx2 in K1.
  pose proof (keeps_funding_phase all cx ch0) as K2. rewrite Hs in K2. simpl in *. congruence.
Qed.

(** C27.  A configuration takes effect.  If a run in mode [all] ends without an error, on
    a chain whose blocks do not go back in time, then afterwards every operation of the
    configuration is applied to the treasury: those that were not are scheduled by the
    multisig, time is waited for, and the executor executes them all, none undoing
    another, provided the configuration sets no entry twice.  The phases that follow leave
    the treasury alone.  In mode [plan] nothing is sent to the chain. *)
Theorem init_applies_configuration ch ch' ops os :
  0 < ch_time ch -> 0 <= minDelay (ch_treasury ch) ->
  timelock_operations addressBook (minDelay (ch_treasury ch)) (cfg_treasury config) = Ok ops ->
  tl_operation <$> ops = Ok <$> os -> NoDup (target <$> os) ->
  run all ch = (ch', Ok tt) ->
  Forall (fun t => tl_isAlreadyApplied t (ch_treasury ch') = Ok true) ops
  /\ fst (run plan ch) = ch.
Proof.
  intros Hpos Hmin Hops Hos Hnd Hs. split; [|apply main_plan].
  apply main_treasury in Hs as (cx & ch1 & Hcx & Hph & ->). apply build_context_Ok in Hcx as [_ Hcx].
  assert (ops = cx_operations cx) as -> by congruence.
  assert (Forall2 views (cx_operations cx) os) as Hv by (eapply views_list; [done..|exact Hos]).
  pose proof (treasury_applies _ _ _ _ Hv Hnd Hpos Hmin Hph) as Ha. clear - Hv Ha.
  induction Hv as [|t o ts os (_ & _ & Ht)]; [constructor|]. apply Forall_cons in Ha as [Ha Has].
  constructor; [by rewrite Ht, Ha|auto].
Qed.
End main.

(** ** Concrete instances *)

#[local] Existing Instance sample_hash.
#[local] Existing Instance sample_abi.

Definition sample_wallet : string := "0x0000000000000000000000000000000000000001".
Definition sample_book : AddressBook :=
  {[ "treasury" := "0x00000000000000000000000000000000000000A7";
     "weth" := "0x00000000000000000000000000000000000000B8" ]}.

Definition sample_config : PostDeployInitConfig :=
  {| cfg_deployment := None; cfg_autoMineTimelockOnLocal := None; cfg_executeCaller := None;
     cfg_defaultFundingSender := None;
     cfg_treasury :=
       {| tc_allowedTokens := [{| at_token := "weth"; at_allowed := true; at_delay := VUndef |}];
          tc_allowedRecipients := [];
          tc_dailySpendCaps := [{| dc_token := "weth"; dc_amount := VStr " 1000 ";
                                   dc_delay := VBig 90 |}];
          tc_spenderApprovals := []; tc_spenderRevocations := [] |};
     cfg_limitOrderSettlement := None; cfg_nativeTransfers := []; cfg_tokenMints := [];
     cfg_tokenTransfers := []; cfg_ownershipTransfers := [] |}.

Definition sample_chain : chain :=
  {| ch_treasury := sample_treasury;
     ch_settlement := {| st_owner := 1; st_restrictedExecutor := 0; st_onlyRestrictedExecutor := false |};
     ch_time := 1000; ch_sent := [] |}.

Definition sample_run : chain * res js_error unit :=
  main (fun _ => sample_wallet) (fun _ => 1) (fun _ _ _ => Ok tt) (fun _ _ => Ok "") [sample_wallet] 31337
    "hardhatMainnet" all sample_config sample_book sample_chain.

Definition sample_operations : list TimelockOperation :=
  match timelock_operations sample_book 60 (cfg_treasury sample_config) with Ok l => l | Throw _ => [] end.

Example sample_sent :
  ch_sent (fst sample_run)
  = [SentCall sample_wallet (Schedule (op_hash (SetAllowedToken 184 true)) 60);
     SentCall sample_wallet (Schedule (op_hash (SetDailySpendCap 184 1000)) 90);
     SentCall sample_wallet (Execute (SetAllowedToken 184 true) (op_hash (SetAllowedToken 184 true)));
     SentCall sample_wallet (Execute (SetDailySpendCap 184 1000) (op_hash (SetDailySpendCap 184 1000)))].
Proof. vm_compute. reflexivity. Qed.

Lemma init_applies_configuration_witness :
  length sample_operations = 2%nat
  /\ Forall (fun t => tl_isAlreadyApplied t (ch_treasury (fst sample_run)) = Ok true) sample_operations.
Proof.
  split; [reflexivity|].
  apply (init_applies_configuration (fun _ => sample_wallet) (fun _ => 1) (fun _ _ _ => Ok tt)
    (fun _ _ => Ok "") [sample_wallet] 31337 "hardhatMainnet" sample_config sample_book
    (fun _ => Z.le_0_1) sample_chain (fst sample_run) sample_operations
    [SetAllowedToken 184 true; SetDailySpendCap 184 1000]).
  - reflexivity.
  - vm_compute. discriminate.
  - reflexivity.
  - vm_compute. reflexivity.
  - apply (bool_decide_unpack _). vm_compute. exact I.
  - change (sample_run = (fst sample_run, Ok tt)). transitivity (fst sample_run, snd sample_run).
    + apply surjective_pairing.
    + apply (f_equal (pair (fst sample_run))). vm_compute. reflexivity.
Defined.
