(* ===== verification/RouterContract.v ===== *)
(** * The router contract (contracts/contracts/FluxSwapRouter.sol)

    Quotes along a path and the six swap entry points, over the states of the pairs
    (Subgraph.v, Module [PairContract]).  Tokens move exactly what they are asked to move
    or fail, and a pair holds exactly its reserves; adding and removing liquidity
    is in RouterLiquidity.v. *)

From S2P Require Import Prelude JsString Subgraph.
Import Subgraph.PairContract.
Open Scope string_scope.
Open Scope Z_scope.
Open Scope flux_scope.

Definition address : Type := Z.

(** ** Quotes *)

Definition getAmountOut (amountIn reserveIn reserveOut : Z) : res string Z :=
  guard* 0 <? amountIn or "FluxSwapRouter: INSUFFICIENT_INPUT_AMOUNT" in
  guard* (0 <? reserveIn) && (0 <? reserveOut) or "FluxSwapRouter: INSUFFICIENT_LIQUIDITY" in
  let* amountInWithFee := u256 (amountIn * (FEE_BPS_BASE - TOTAL_SWAP_FEE_BPS)) in
  let* numerator := u256 (amountInWithFee * reserveOut) in
  let* scaled := u256 (reserveIn * FEE_BPS_BASE) in
  let* denominator := u256 (scaled + amountInWithFee) in
  udiv numerator denominator.

Definition getAmountIn (amountOut reserveIn reserveOut : Z) : res string Z :=
  guard* 0 <? amountOut or "FluxSwapRouter: INSUFFICIENT_OUTPUT_AMOUNT" in
  guard* (0 <? reserveIn) && (0 <? reserveOut) or "FluxSwapRouter: INSUFFICIENT_LIQUIDITY" in
  let* product := u256 (reserveIn * amountOut) in
  let* numerator := u256 (product * FEE_BPS_BASE) in
  let* left := u256 (reserveOut - amountOut) in
  let* denominator := u256 (left * (FEE_BPS_BASE - TOTAL_SWAP_FEE_BPS)) in
  let* quotient := udiv numerator denominator in
  u256 (quotient + 1).

Definition sortTokens (tokenA tokenB : address) : res string (address * address) :=
  guard* negb (tokenA =? tokenB) or "FluxSwapRouter: IDENTICAL_ADDRESSES" in
  let token0 := Z.min tokenA tokenB in
  guard* negb (token0 =? 0) or "FluxSwapRouter: ZERO_ADDRESS" in
  Ok (token0, Z.max tokenA tokenB).

(** The factory's pairs, under their sorted tokens. *)
Definition pairs : Type := gmap (address * address) PairContract.state.

Definition _getPairOrRevert (tokenA tokenB : address) (ps : pairs) : res string PairContract.state :=
  match ps !! (Z.min tokenA tokenB, Z.max tokenA tokenB) with
  | Some c => Ok c
  | None => Throw "FluxSwapRouter: PAIR_NOT_FOUND"
  end.

Definition _getReserves (tokenA tokenB : address) (ps : pairs) : res string (Z * Z) :=
  let* t := sortTokens tokenA tokenB in
  let* c := _getPairOrRevert tokenA tokenB ps in
  Ok (if tokenA =? fst t then (c_reserve0 c, c_reserve1 c) else (c_reserve1 c, c_reserve0 c)).

Fixpoint amounts_out (amount : Z) (path : list address) (ps : pairs) : res string (list Z) :=
  match path with
  | a :: ((b :: _) as rest) =>
    let* r := _getReserves a b ps in
    let* out := getAmountOut amount (fst r) (snd r) in
    let* l := amounts_out out rest ps in
    Ok (amount :: l)
  | _ => Ok [amount]
  end.

Definition getAmountsOut (amountIn : Z) (path : list address) (ps : pairs) : res string (list Z) :=
  guard* (2 <=? Z.of_nat (length path)) or "FluxSwapRouter: INVALID_PATH" in amounts_out amountIn path ps.

(** From the last hop to the first. *)
Fixpoint amounts_in (amountOut : Z) (path : list address) (ps : pairs) : res string (list Z) :=
  match path with
  | a :: ((b :: _) as rest) =>
    let* l := amounts_in amountOut rest ps in
    let* r := _getReserves a b ps in
    let* input := getAmountIn (default 0 (head l)) (fst r) (snd r) in
    Ok (input :: l)
  | _ => Ok [amountOut]
  end.

Definition getAmountsIn (amountOut : Z) (path : list address) (ps : pairs) : res string (list Z) :=
  guard* (2 <=? Z.of_nat (length path)) or "FluxSwapRouter: INVALID_PATH" in amounts_in amountOut path ps.

(** ** Swaps *)

Inductive router_call :=
| SwapExactTokensForTokens (amountIn amountOutMin : Z) (path : list address) (to : address) (deadline : Z)
| SwapTokensForExactTokens (amountOut amountInMax : Z) (path : list address) (to : address) (deadline : Z)
| SwapExactETHForTokens (value amountOutMin : Z) (path : list address) (to : address) (deadline : Z)
| SwapTokensForExactETH (amountOut amountInMax : Z) (path : list address) (to : address) (deadline : Z)
| SwapExactTokensForETH (amountIn amountOutMin : Z) (path : list address) (to : address) (deadline : Z)
| SwapETHForExactTokens (value amountOut : Z) (path : list address) (to : address) (deadline : Z).

(** The block, the addresses involved and the token the sender pays with: the transfer of
    an amount of it may fail. *)
Record swap_env := {
  se_timestamp : Z;
  se_WETH : address;
  se_router : address;
  se_treasury : Bytes;
  se_bytes : address -> Bytes;
  se_transferFrom : address -> Z -> res string unit;
}.

(** What the call did: the sender paid (a refund deducted), the recipient received. *)
Record receipt := { rc_paid : Z; rc_received : Z; rc_pairs : pairs }.

(** One hop: the pair holds its reserves and what it was sent. *)
Definition hop (e : swap_env) (a b : address) (amountIn amountOut : Z) (to : address) (ps : pairs)
  : res string pairs :=
  let* t := sortTokens a b in
  let* c := _getPairOrRevert a b ps in
  let toIsToken := (to =? fst t) || (to =? snd t) in
  let* r := if a =? fst t
    then swap (se_bytes e (se_router e)) 0 amountOut (se_bytes e to) toIsToken
           (c_reserve0 c + amountIn) (c_reserve1 c - amountOut) (se_treasury e) (se_timestamp e) [] c
    else swap (se_bytes e (se_router e)) amountOut 0 (se_bytes e to) toIsToken
           (c_reserve0 c - amountOut) (c_reserve1 c + amountIn) (se_treasury e) (se_timestamp e) [] c in
  Ok (<[t := fst r]> ps).

(** A hop that is not the last pays the next pair, whose address is no token. *)
Fixpoint _swap (e : swap_env) (pair_address : address * address -> address)
    (amounts : list Z) (path : list address) (to : address) (ps : pairs) : res string pairs :=
  match path, amounts with
  | a :: ((b :: rest) as path'), x :: ((y :: _) as amounts') =>
    let* hop_to := match rest with
                   | [] => Ok to
                   | n :: _ => let* _ := _getPairOrRevert b n ps in
                               Ok (pair_address (Z.min b n, Z.max b n))
                   end in
    let* ps' := hop e a b x y hop_to ps in
    _swap e pair_address amounts' path' to ps'
  | _, _ => Ok ps
  end.

Definition last_is (WETH : address) (path : list address) : res string bool :=
  match last path with Some a => Ok (a =? WETH) | None => Throw "Panic(0x11)" end.
Definition first_is (WETH : address) (path : list address) : res string bool :=
  match head path with Some a => Ok (a =? WETH) | None => Throw "Panic(0x32)" end.

Section router.
Variable e : swap_env.
Variable pair_address : address * address -> address.

(** The common end of the entry points: the first pair gets its tokens, then the hops. *)
Definition execute_swap (pay : Z -> res string unit) (amounts : list Z) (path : list address)
    (to : address) (ps : pairs) : res string receipt :=
  let* _ := match path with a :: b :: _ => _getPairOrRevert a b ps | _ => Throw "Panic(0x32)" end in
  let* _ := pay (default 0 (head amounts)) in
  let* ps' := _swap e pair_address amounts path to ps in
  Ok {| rc_paid := default 0 (head amounts); rc_received := default 0 (last amounts); rc_pairs := ps' |}.

Definition exact_input (amountIn amountOutMin : Z) (pay : Z -> res string unit) (path : list address)
    (to : address) (ps : pairs) : res string receipt :=
  let* amounts := getAmountsOut amountIn path ps in
  guard* amountOutMin <=? default 0 (last amounts)
  or "FluxSwapRouter: INSUFFICIENT_OUTPUT_AMOUNT" in
  execute_swap pay amounts path to ps.

Definition exact_output (amountOut amountInMax : Z) (pay : Z -> res string unit) (path : list address)
    (to : address) (ps : pairs) : res string receipt :=
  let* amounts := getAmountsIn amountOut path ps in
  guard* default 0 (head amounts) <=? amountInMax
  or "FluxSwapRouter: EXCESSIVE_INPUT_AMOUNT" in
  execute_swap pay amounts path to ps.

Definition ensure {A} (deadline : Z) (k : res string A) : res string A :=
  guard* se_timestamp e <=? deadline or "FluxSwapRouter: EXPIRED" in k.

Definition pay_token (path : list address) : Z -> res string unit :=
  se_transferFrom e (default 0 (head path)).
(** Wrapping the value sent with the call. *)
Definition pay_ETH (_ : Z) : res string unit := Ok tt.

Definition exec_router (k : router_call) (ps : pairs) : res string receipt :=
  match k with
  | SwapExactTokensForTokens amountIn amountOutMin path to deadline =>
    ensure deadline (exact_input amountIn amountOutMin (pay_token path) path to ps)
  | SwapTokensForExactTokens amountOut amountInMax path to deadline =>
    ensure deadline (exact_output amountOut amountInMax (pay_token path) path to ps)
  | SwapExactETHForTokens value amountOutMin path to deadline =>
    ensure deadline
      (let* w := first_is (se_WETH e) path in
       guard* w or "FluxSwapRouter: INVALID_PATH" in
       exact_input value amountOutMin pay_ETH path to ps)
  | SwapTokensForExactETH amountOut amountInMax path to deadline =>
    ensure deadline
      (let* w := last_is (se_WETH e) path in
       guard* w or "FluxSwapRouter: INVALID_PATH" in
       exact_output amountOut amountInMax (pay_token path) path (se_router e) ps)
  | SwapExactTokensForETH amountIn amountOutMin path to deadline =>
    ensure deadline
      (let* w := last_is (se_WETH e) path in
       guard* w or "FluxSwapRouter: INVALID_PATH" in
       exact_input amountIn amountOutMin (pay_token path) path (se_router e) ps)
  | SwapETHForExactTokens value amountOut path to deadline =>
    ensure deadline
      (let* w := first_is (se_WETH e) path in
       guard* w or "FluxSwapRouter: INVALID_PATH" in
       exact_output amountOut value pay_ETH path to ps)
  end.
End router.

(** ** Quotes *)

Lemma u256_id z x : u256 z = Ok x -> x = z /\ 0 <= z < 2 ^ 256.
Proof. unfold u256. destruct (_ && _) eqn:E; [|done]. bool_solve. intros [= ->]. lia. Qed.

Lemma u256_ok z : 0 <= z < 2 ^ 256 -> u256 z = Ok z.
Proof.
  intros [H1 H2]. unfold u256. apply Z.leb_le in H1. apply Z.ltb_lt in H2. by rewrite H1, H2.
Qed.

Lemma udiv_id x y z : udiv x y = Ok z -> y <> 0 /\ z = x / y.
Proof. unfold udiv. destruct (Z.eqb_spec y 0); [done|]. by intros [= <-]. Qed.

(** Inverts a checked computation that succeeded. *)
Ltac router_inv H :=
  repeat (cbv beta in H; match type of H with
  | (if ?b then _ else Throw _) = Ok _ => destruct b eqn:?; [|discriminate H]
  | res_bind (u256 _) _ = Ok _ =>
    let x := fresh "x" in let Hx := fresh "Hu" in
    apply res_bind_Ok in H as (x & Hx & H); apply u256_id in Hx as [-> Hx]
  | res_bind _ _ = Ok _ =>
    let x := fresh "x" in let Hx := fresh "Hx" in apply res_bind_Ok in H as (x & Hx & H)
  end); bool_solve.

Lemma getAmountOut_Ok x ri ro y :
  getAmountOut x ri ro = Ok y ->
  0 < x /\ 0 < ri /\ 0 < ro /\ y = x * 9970 * ro / (ri * 10000 + x * 9970).
Proof.
  unfold getAmountOut. change (FEE_BPS_BASE - TOTAL_SWAP_FEE_BPS) with 9970.
  change FEE_BPS_BASE with 10000. intros H. router_inv H. by apply udiv_id in H as [_ ->].
Qed.

(** The quote as a pair of inequalities. *)
Lemma getAmountOut_bounds x ri ro y :
  getAmountOut x ri ro = Ok y ->
  0 < x /\ 0 < ri /\ 0 < ro /\ 0 <= y < ro
  /\ y * (ri * 10000 + x * 9970) <= x * 9970 * ro
  /\ x * 9970 * ro < (y + 1) * (ri * 10000 + x * 9970).
Proof.
  intros H. apply getAmountOut_Ok in H as (Hx & Hi & Ho & ->).
  assert (0 < x * ro) as Hp by nia.
  assert (0 < ri * 10000 + x * 9970) as Hd by lia. set (d := ri * 10000 + x * 9970) in *.
  pose proof (Z.mul_div_le (x * 9970 * ro) d Hd). pose proof (Z.mul_succ_div_gt (x * 9970 * ro) d Hd).
  assert (0 <= x * 9970 * ro / d) by (apply Z.div_pos; lia).
  assert (x * 9970 * ro / d < ro) by (apply Z.div_lt_upper_bound; [done|unfold d; nia]).
  split_and!; try done; lia.
Qed.

Lemma getAmountIn_Ok y ri ro x :
  getAmountIn y ri ro = Ok x ->
  0 < y < ro /\ 0 < ri /\ x = ri * y * 10000 / ((ro - y) * 9970) + 1.
Proof.
  unfold getAmountIn. change (FEE_BPS_BASE - TOTAL_SWAP_FEE_BPS) with 9970.
  change FEE_BPS_BASE with 10000. intros H. router_inv H.
  apply udiv_id in Hx as [Hz ->]. apply u256_id in H as [-> ?]. split_and!; try done; lia.
Qed.

Lemma getAmountIn_defined y ri ro :
  0 < y < ro -> 0 < ri < 2 ^ 112 -> ro < 2 ^ 112 -> exists x, getAmountIn y ri ro = Ok x.
Proof.
  intros Hy Hi Ho. unfold getAmountIn, udiv. change (FEE_BPS_BASE - TOTAL_SWAP_FEE_BPS) with 9970.
  change FEE_BPS_BASE with 10000.
  rewrite (proj2 (Z.ltb_lt 0 y)), (proj2 (Z.ltb_lt 0 ri)), (proj2 (Z.ltb_lt 0 ro)) by lia. cbn [andb].
  assert (0 <= ri * y < 2 ^ 112 * 2 ^ 112) by nia.
  rewrite u256_ok by lia. cbn [res_bind]. rewrite u256_ok by lia. cbn [res_bind].
  rewrite u256_ok by lia. cbn [res_bind]. rewrite u256_ok by lia. cbn [res_bind].
  rewrite (proj2 (Z.eqb_neq _ 0)) by lia. cbn [negb res_bind].
  assert (0 <= ri * y * 10000 / ((ro - y) * 9970) <= ri * y * 10000).
  { split; [apply Z.div_pos; lia|]. apply Z.div_le_upper_bound; nia. }
  rewrite u256_ok by lia. eauto.
Qed.

Lemma getAmountOut_defined x ri ro :
  0 < x -> 0 < ri -> 0 < ro -> x * 9970 * ro < 2 ^ 256 -> ri * 10000 + x * 9970 < 2 ^ 256 ->
  getAmountOut x ri ro = Ok (x * 9970 * ro / (ri * 10000 + x * 9970)).
Proof.
  intros Hx Hi Ho H1 H2. unfold getAmountOut, udiv.
  change (FEE_BPS_BASE - TOTAL_SWAP_FEE_BPS) with 9970. change FEE_BPS_BASE with 10000.
  rewrite (proj2 (Z.ltb_lt 0 x)), (proj2 (Z.ltb_lt 0 ri)), (proj2 (Z.ltb_lt 0 ro)) by lia. cbn [andb].
  rewrite u256_ok by nia. cbn [res_bind]. rewrite u256_ok by nia. cbn [res_bind].
  rewrite u256_ok by lia. cbn [res_bind]. rewrite u256_ok by lia. cbn [res_bind].
  by rewrite (proj2 (Z.eqb_neq _ 0)) by lia.
Qed.

(** C9.  The two quotes are inverse to each other: for reserves a pair can hold, the input
    quoted for an output exists and buys at least that output, and an input smaller by
    more than one unit buys less. *)
Theorem quotes_inverse y ri ro :
  0 < y < ro -> 0 < ri < 2 ^ 112 -> ro < 2 ^ 112 ->
  exists x, getAmountIn y ri ro = Ok x
    /\ (x * 9970 * ro < 2 ^ 256 -> exists y', getAmountOut x ri ro = Ok y' /\ y <= y')
    /\ (forall x' y', getAmountOut x' ri ro = Ok y' -> x' < x - 1 -> y' < y).
Proof.
  intros Hy Hi Ho. destruct (getAmountIn_defined _ _ _ Hy Hi Ho) as [x Hx]. exists x.
  split; [done|]. apply getAmountIn_Ok in Hx as (_ & _ & ->).
  set (n := ri * y * 10000). set (d := (ro - y) * 9970).
  assert (0 < d) as Hd by (unfold d; lia). assert (0 <= n) as Hn by (unfold n; nia).
  pose proof (Z.mul_div_le n d Hd). pose proof (Z.mul_succ_div_gt n d Hd).
  assert (0 <= n / d) by (apply Z.div_pos; lia). set (q := n / d) in *. clearbody q.
  split.
  - intros Hf. eexists. split.
    + apply getAmountOut_defined; [lia|lia|lia|done|]. nia.
    + apply Z.div_le_lower_bound; [lia|]. unfold n, d in *. nia.
  - intros x' y' H' Hlt. apply getAmountOut_bounds in H' as (Hx' & _ & _ & _ & Hle & _).
    unfold n, d in *. apply Z.nle_gt. intros Hyy. nia.
Qed.

(** ** A quoted hop at the pair *)

(** The pair's share of an input that goes to the treasury. *)
Definition protocol_fee (treasury : Bytes) (amountIn : Z) : Z :=
  if String.eqb treasury zero_address then 0 else amountIn * PROTOCOL_SWAP_FEE_BPS / FEE_BPS_BASE.

(** An input pays for an output of a pair. *)
Definition pays_for (x ri ro y : Z) : Prop :=
  0 < x /\ 0 < ri /\ 0 < y < ro /\ y * (ri * 10000 + x * 9970) <= x * 9970 * ro.

Lemma getAmountOut_pays x ri ro y : getAmountOut x ri ro = Ok y -> 0 < y -> pays_for x ri ro y.
Proof. intros Hq Hy. apply getAmountOut_bounds in Hq as (? & ? & ? & ? & ? & _). unfold pays_for. lia. Qed.

Lemma getAmountIn_pays x ri ro y : getAmountIn y ri ro = Ok x -> pays_for x ri ro y.
Proof.
  intros Hq. apply getAmountIn_Ok in Hq as (Hy & Hi & ->).
  set (n := ri * y * 10000). set (d := (ro - y) * 9970).
  assert (0 < d) as Hd by (unfold d; lia). assert (0 <= n) as Hn by (unfold n; nia).
  pose proof (Z.mul_succ_div_gt n d Hd). assert (0 <= n / d) by (apply Z.div_pos; lia).
  set (q := n / d) in *. clearbody q. split; [lia|]. split; [done|]. split; [done|].
  unfold n, d in *. nia.
Qed.

(** The constant-product check holds for what was paid for, whoever takes the fee. *)
Lemma quote_keeps_product x ri ro y treasury :
  pays_for x ri ro y ->
  let fee := protocol_fee treasury x in
  let bps := if String.eqb treasury zero_address then 30 else 25 in
  0 <= fee <= x
  /\ ri * 10000 + x * 9970 <= (ri + x - fee) * 10000 - x * bps
  /\ ri * ro * 10000 ^ 2 <= ((ri + x - fee) * 10000 - x * bps) * ((ro - y) * 10000).
Proof.
  intros (Hx & Hi & Hy & Hle) fee bps.
  assert (0 <= fee <= x /\ ri * 10000 + x * 9970 <= (ri + x - fee) * 10000 - x * bps) as [H1 H2].
  { unfold fee, bps, protocol_fee, PROTOCOL_SWAP_FEE_BPS, FEE_BPS_BASE. destruct (String.eqb _ _); [lia|].
    pose proof (Z.mul_div_le (x * 5) 10000 ltac:(lia)). assert (0 <= x * 5 / 10000) by (apply Z.div_pos; lia).
    lia. }
  split; [done|]. split; [done|].
  assert (ri * ro * 10000 <= (ri * 10000 + x * 9970) * (ro - y)) by lia. nia.
Qed.

Ltac checked_step := rewrite u256_ok by lia; cbn [res_bind].

Lemma mul_word a b : 0 <= a < 2 ^ 127 -> 0 <= b < 2 ^ 127 -> 0 <= a * b < 2 ^ 256.
Proof. nia. Qed.

Lemma res_pair_eta {E A B} (m : res E (A * list B)) :
  res_bind m (fun r => Ok (fst r, ([] ++ snd r)%list)) = m.
Proof. by destruct m as [[]|]. Qed.

(** The amount a pair finds it was sent: nothing on the side it pays out of. *)
Lemma sent_in r x : 0 < x -> (if r - 0 <? r + x then r + x - (r - 0) else 0) = x.
Proof. intros. destruct (Z.ltb_spec (r - 0) (r + x)); lia. Qed.
Lemma sent_out r y : (if r - y <? r - y then r - y - (r - y) else 0) = 0.
Proof. destruct (Z.ltb_spec (r - y) (r - y)); lia. Qed.

(** What the swap of a hop amounts to, in either direction: the check of the product passes and
    only the update of the reserves is left. *)
Lemma swap_quoted sender to treasury ts c x y (first : bool) :
  pays_for x (if first then c_reserve0 c else c_reserve1 c)
    (if first then c_reserve1 c else c_reserve0 c) y ->
  c_reserve0 c + x < 2 ^ 112 -> c_reserve1 c + x < 2 ^ 112 ->
  let fee := protocol_fee treasury x in
  let b0 := if first then c_reserve0 c + x else c_reserve0 c - y in
  let b1 := if first then c_reserve1 c - y else c_reserve1 c + x in
  swap sender (if first then 0 else y) (if first then y else 0) to false b0 b1 treasury ts [] c
  = after (_update (if first then b0 - fee else b0) (if first then b1 else b1 - fee)
             (c_reserve0 c) (c_reserve1 c) ts c)
      (emit (Swap sender (if first then x else 0) (if first then 0 else x)
               (if first then 0 else y) (if first then y else 0) to)).
Proof.
  intros Hq H0 H1. pose proof (quote_keeps_product _ _ _ _ treasury Hq) as (Hfee & Hadj & Hk).
  destruct Hq as (Hx & Hi & Hyr & _).
  change (2 ^ 112) with 5192296858534827628530496329220096 in *.
  assert ((if negb (String.eqb treasury zero_address) then x * PROTOCOL_SWAP_FEE_BPS / FEE_BPS_BASE else 0)
          = protocol_fee treasury x) as Ef by (unfold protocol_fee; by destruct (String.eqb _ _)).
  set (fee := protocol_fee treasury x) in *.
  assert (x * (if negb (String.eqb treasury zero_address) then LP_SWAP_FEE_BPS else TOTAL_SWAP_FEE_BPS)
          = x * (if String.eqb treasury zero_address then 30 else 25)) as El by (by destruct (String.eqb _ _)).
  assert (0 <= x * (if String.eqb treasury zero_address then 30 else 25) <= x * 30) as Hl
    by (destruct (String.eqb _ _); lia).
  set (lp := x * (if String.eqb treasury zero_address then 30 else 25)) in *.
  assert ((if negb (String.eqb treasury zero_address) then 0 / FEE_BPS_BASE else 0) = 0) as E0
    by (by destruct (String.eqb _ _)).
  destruct first; unfold swap; cbn [_transfers]; unfold after at 1; cbn [res_bind fst snd];
    rewrite res_pair_eta, sent_in, sent_out by done;
    rewrite (proj2 (Z.ltb_lt 0 y)), (proj2 (Z.ltb_lt 0 x)) by lia.
  - rewrite (proj2 (Z.ltb_lt 0 (c_reserve0 c))), (proj2 (Z.ltb_lt y (c_reserve1 c))) by lia.
    cbn [orb andb negb]. rewrite !Z.mul_0_l. change PROTOCOL_SWAP_FEE_BPS with 5 in *.
    do 2 checked_step. rewrite Ef, E0, Z.sub_0_r. change FEE_BPS_BASE with 10000 in *.
    rewrite El. do 7 checked_step. rewrite Z.sub_0_r.
    rewrite u256_ok by (apply mul_word; lia). cbn [res_bind]. change (10000 ^ 2) with 100000000 in *.
    rewrite (u256_ok (_ * 100000000)) by (pose proof (mul_word (c_reserve0 c * 10000) (c_reserve1 c * 10000)
      ltac:(lia) ltac:(lia)); lia).
    cbn [res_bind]. by rewrite (proj2 (Z.leb_le _ _)) by exact Hk.
  - rewrite (proj2 (Z.ltb_lt y (c_reserve0 c))), (proj2 (Z.ltb_lt 0 (c_reserve1 c))) by lia.
    cbn [orb andb negb]. rewrite !Z.mul_0_l. change PROTOCOL_SWAP_FEE_BPS with 5 in *.
    do 2 checked_step. rewrite Ef, E0, Z.sub_0_r. change FEE_BPS_BASE with 10000 in *.
    rewrite El. do 7 checked_step. rewrite Z.sub_0_r.
    rewrite u256_ok by (apply mul_word; lia). cbn [res_bind]. change (10000 ^ 2) with 100000000 in *.
    rewrite (u256_ok (_ * 100000000)) by (pose proof (mul_word (c_reserve0 c * 10000) (c_reserve1 c * 10000)
      ltac:(lia) ltac:(lia)); lia).
    cbn [res_bind]. rewrite (proj2 (Z.leb_le _ _)); [done|]. lia.
Qed.

(** ** Outcomes *)

Lemma amounts_out_head x path ps l : amounts_out x path ps = Ok l -> head l = Some x.
Proof.
  destruct path as [|a [|b rest]]; cbn; [by intros [= <-]|by intros [= <-]|].
  intros H. router_inv H. by injection H as <-.
Qed.

Lemma amounts_in_last y path ps l : amounts_in y path ps = Ok l -> last l = Some y.
Proof.
  revert l. induction path as [|a path IH]; intros l; [by intros [= <-]|].
  destruct path as [|b rest]; [by intros [= <-]|]. intros H. cbn [amounts_in] in H. router_inv H.
  injection H as <-. apply IH in Hx. destruct x; [done|]. exact Hx.
Qed.

(** The most a call lets the sender pay and the least it lets the recipient receive. *)
Definition limits (k : router_call) : Z * Z :=
  match k with
  | SwapExactTokensForTokens amountIn amountOutMin _ _ _ => (amountIn, amountOutMin)
  | SwapTokensForExactTokens amountOut amountInMax _ _ _ => (amountInMax, amountOut)
  | SwapExactETHForTokens value amountOutMin _ _ _ => (value, amountOutMin)
  | SwapTokensForExactETH amountOut amountInMax _ _ _ => (amountInMax, amountOut)
  | SwapExactTokensForETH amountIn amountOutMin _ _ _ => (amountIn, amountOutMin)
  | SwapETHForExactTokens value amountOut _ _ _ => (value, amountOut)
  end.

(** The other arguments of a call, and on which side it moves the native coin. *)
Definition call_path (k : router_call) : list address :=
  match k with
  | SwapExactTokensForTokens _ _ path _ _ | SwapTokensForExactTokens _ _ path _ _
  | SwapExactETHForTokens _ _ path _ _ | SwapTokensForExactETH _ _ path _ _
  | SwapExactTokensForETH _ _ path _ _ | SwapETHForExactTokens _ _ path _ _ => path
  end.
Definition call_to (k : router_call) : address :=
  match k with
  | SwapExactTokensForTokens _ _ _ to _ | SwapTokensForExactTokens _ _ _ to _
  | SwapExactETHForTokens _ _ _ to _ | SwapTokensForExactETH _ _ _ to _
  | SwapExactTokensForETH _ _ _ to _ | SwapETHForExactTokens _ _ _ to _ => to
  end.
Definition call_deadline (k : router_call) : Z :=
  match k with
  | SwapExactTokensForTokens _ _ _ _ d | SwapTokensForExactTokens _ _ _ _ d
  | SwapExactETHForTokens _ _ _ _ d | SwapTokensForExactETH _ _ _ _ d
  | SwapExactTokensForETH _ _ _ _ d | SwapETHForExactTokens _ _ _ _ d => d
  end.
Definition pays_ETH (k : router_call) : bool :=
  match k with SwapExactETHForTokens _ _ _ _ _ | SwapETHForExactTokens _ _ _ _ _ => true | _ => false end.
Definition receives_ETH (k : router_call) : bool :=
  match k with SwapTokensForExactETH _ _ _ _ _ | SwapExactTokensForETH _ _ _ _ _ => true | _ => false end.
Definition exact_in (k : router_call) : bool :=
  match k with
  | SwapExactTokensForTokens _ _ _ _ _ | SwapExactETHForTokens _ _ _ _ _
  | SwapExactTokensForETH _ _ _ _ _ => true
  | _ => false
  end.

Section outcomes.
Variable e : swap_env.
Variable pair_address : address * address -> address.

Lemma execute_swap_Ok pay amounts path to ps r :
  execute_swap e pair_address pay amounts path to ps = Ok r ->
  rc_paid r = default 0 (head amounts) /\ rc_received r = default 0 (last amounts).
Proof. unfold execute_swap. intros H. router_inv H. by injection H as <-. Qed.

Lemma exact_input_Ok amountIn amountOutMin pay path to ps r :
  exact_input e pair_address amountIn amountOutMin pay path to ps = Ok r ->
  rc_paid r = amountIn /\ amountOutMin <= rc_received r.
Proof.
  unfold exact_input, getAmountsOut. intros H. router_inv H. apply execute_swap_Ok in H as [-> ->].
  router_inv Hx. apply amounts_out_head in Hx as ->. done.
Qed.

Lemma exact_output_Ok amountOut amountInMax pay path to ps r :
  exact_output e pair_address amountOut amountInMax pay path to ps = Ok r ->
  rc_paid r <= amountInMax /\ rc_received r = amountOut.
Proof.
  unfold exact_output, getAmountsIn. intros H. router_inv H. apply execute_swap_Ok in H as [-> ->].
  router_inv Hx. apply amounts_in_last in Hx as ->. done.
Qed.

Lemma exec_router_limits k ps r :
  exec_router e pair_address k ps = Ok r ->
  rc_paid r <= fst (limits k) /\ snd (limits k) <= rc_received r.
Proof.
  destruct k; unfold exec_router, ensure; intros H; router_inv H;
    (apply exact_input_Ok in H as [? ?] || apply exact_output_Ok in H as [? ?]); simpl; lia.
Qed.
End outcomes.

(** The pair can update its reserves at a time: a [sync] would work. *)
Definition can_sync (ts : Z) (c : PairContract.state) : bool :=
  is_ok (sync (c_reserve0 c) (c_reserve1 c) ts c).

Lemma update_defined ts c b0 b1 :
  can_sync ts c = true -> b0 < 2 ^ 112 -> b1 < 2 ^ 112 ->
  exists r, _update b0 b1 (c_reserve0 c) (c_reserve1 c) ts c = Ok r.
Proof.
  intros Hs H0 H1. apply Z.ltb_lt in H0. apply Z.ltb_lt in H1. unfold can_sync, sync, _update in *.
  rewrite H0, H1. destruct ((c_reserve0 c <? _) && _); [|done]. cbn [andb] in *.
  destruct (u256 (ts mod 2 ^ 32 - _)) as [elapsed|]; [|done]. cbn [res_bind] in *.
  set (acc := (0 <? elapsed) && _ && _) in *.
  destruct (if acc then u256 (price0CumulativeLast c + _) else _) as [p0|]; [|done]. cbn [res_bind] in *.
  destruct (if acc then u256 (price1CumulativeLast c + _) else _) as [p1|]; [|done]. eauto.
Qed.

Lemma sortTokens_Ok a b t : sortTokens a b = Ok t -> a <> b /\ t = (Z.min a b, Z.max a b).
Proof. unfold sortTokens. intros H. router_inv H. by injection H as <-. Qed.

Section direct.
Variable e : swap_env.
Variable pair_address : address * address -> address.

Lemma hop_succeeds a b to ps c x y ri ro :
  _getReserves a b ps = Ok (ri, ro) -> ps !! (Z.min a b, Z.max a b) = Some c ->
  pays_for x ri ro y -> ri + x < 2 ^ 112 -> ro + x < 2 ^ 112 ->
  to <> a -> to <> b -> can_sync (se_timestamp e) c = true ->
  exists ps', hop e a b x y to ps = Ok ps'.
Proof.
  intros Hr Hc Hp Hi Ho Ha Hb Hs. unfold _getReserves, hop, _getPairOrRevert in *. rewrite Hc in *.
  destruct (sortTokens a b) as [t|] eqn:Et; [|done]. cbn [res_bind] in *.
  apply sortTokens_Ok in Et as [Hab ->]. cbn [fst snd] in *.
  assert ((to =? Z.min a b) || (to =? Z.max a b) = false) as ->.
  { apply orb_false_iff. rewrite !Z.eqb_neq. lia. }
  destruct Hp as (Hx & Hi0 & Hy & Hle). assert (0 <= protocol_fee (se_treasury e) x).
  { unfold protocol_fee. destruct (String.eqb _ _); [lia|]. apply Z.div_pos; [|done].
    change PROTOCOL_SWAP_FEE_BPS with 5. lia. }
  destruct (a =? Z.min a b); injection Hr as <- <-.
  - rewrite (swap_quoted _ _ _ _ _ x y true); [|done|lia|lia].
    destruct (update_defined (se_timestamp e) c (c_reserve0 c + x - protocol_fee (se_treasury e) x)
      (c_reserve1 c - y)) as [r ->]; [done|lia|lia|]. unfold after, emit. cbn. eauto.
  - rewrite (swap_quoted _ _ _ _ _ x y false); [|done|lia|lia].
    destruct (update_defined (se_timestamp e) c (c_reserve0 c - y)
      (c_reserve1 c + x - protocol_fee (se_treasury e) x)) as [r ->]; [done|lia|lia|].
    unfold after, emit. cbn. eauto.
Qed.

(** The direct path: what is quoted is executed. *)
Lemma direct_execution a b to ps c x y ri ro pay :
  _getReserves a b ps = Ok (ri, ro) -> ps !! (Z.min a b, Z.max a b) = Some c ->
  pays_for x ri ro y -> ri + x < 2 ^ 112 -> ro + x < 2 ^ 112 ->
  to <> a -> to <> b -> can_sync (se_timestamp e) c = true -> pay x = Ok tt ->
  exists r, execute_swap e pair_address pay [x; y] [a; b] to ps = Ok r
    /\ rc_paid r = x /\ rc_received r = y.
Proof.
  intros Hr Hc Hp Hi Ho Ha Hb Hs Hpay. unfold execute_swap, _getPairOrRevert. rewrite Hc.
  cbn [res_bind head default from_option id]. rewrite Hpay. cbn [res_bind _swap].
  destruct (hop_succeeds _ _ _ _ _ _ _ _ _ Hr Hc Hp Hi Ho Ha Hb Hs) as [ps' ->]. cbn. eauto.
Qed.

Lemma direct_exact_input a b to ps c x y m ri ro pay :
  _getReserves a b ps = Ok (ri, ro) -> ps !! (Z.min a b, Z.max a b) = Some c ->
  getAmountOut x ri ro = Ok y -> 0 < y -> m <= y -> ri + x < 2 ^ 112 -> ro + x < 2 ^ 112 ->
  to <> a -> to <> b -> can_sync (se_timestamp e) c = true -> pay x = Ok tt ->
  exists r, exact_input e pair_address x m pay [a; b] to ps = Ok r
    /\ rc_paid r = x /\ rc_received r = y.
Proof.
  intros Hr Hc Hq Hy Hm Hi Ho Ha Hb Hs Hpay. unfold exact_input, getAmountsOut.
  cbn [length amounts_out]. rewrite Hr. cbn [res_bind fst snd]. rewrite Hq.
  change (2 <=? Z.of_nat 2) with true. cbn.
  rewrite (proj2 (Z.leb_le m y)) by done. eapply direct_execution; eauto. by apply getAmountOut_pays.
Qed.

Lemma direct_exact_output a b to ps c x y m ri ro pay :
  _getReserves a b ps = Ok (ri, ro) -> ps !! (Z.min a b, Z.max a b) = Some c ->
  getAmountIn y ri ro = Ok x -> x <= m -> ri + x < 2 ^ 112 -> ro + x < 2 ^ 112 ->
  to <> a -> to <> b -> can_sync (se_timestamp e) c = true -> pay x = Ok tt ->
  exists r, exact_output e pair_address y m pay [a; b] to ps = Ok r
    /\ rc_paid r = x /\ rc_received r = y.
Proof.
  intros Hr Hc Hq Hm Hi Ho Ha Hb Hs Hpay. unfold exact_output, getAmountsIn.
  cbn [length amounts_in]. rewrite Hr. cbn [res_bind fst snd head default from_option id]. rewrite Hq.
  change (2 <=? Z.of_nat 2) with true. cbn.
  rewrite (proj2 (Z.leb_le x m)) by done. eapply direct_execution; eauto. by apply getAmountIn_pays.
Qed.
End direct.

(** ** Concrete instances *)

Lemma quotes_inverse_witness :
  exists y', getAmountIn 90 1000 500 = Ok 221 /\ getAmountOut 221 1000 500 = Ok y' /\ 90 <= y'.
Proof.
  destruct (quotes_inverse 90 1000 500) as (x & Hx & Hy & _); [lia..|].
  assert (getAmountIn 90 1000 500 = Ok 221) as E by reflexivity. rewrite E in Hx. injection Hx as <-.
  destruct Hy as (y' & Hy' & Hle); [lia|]. by exists y'.
Defined.
