(* ===== verification/RouterLiquidity.v ===== *)
(** * Liquidity at the router (contracts/contracts/FluxSwapRouter.sol)

    Adding and removing liquidity, with and without the native coin, on the pairs of
    RouterContract.v; a missing pair is created by the factory.  As for swaps, tokens move
    exactly what they are asked to move or fail, and a pair holds exactly its reserves.  The
    variants with a permit are left out. *)

From S2P Require Import Prelude JsString Subgraph RouterContract.
Import Subgraph.PairContract.
Open Scope string_scope.
Open Scope Z_scope.
Open Scope flux_scope.

Definition quote (amountA reserveA reserveB : Z) : res string Z :=
  guard* 0 <? amountA or "FluxSwapRouter: INSUFFICIENT_AMOUNT" in
  guard* (0 <? reserveA) && (0 <? reserveB) or "FluxSwapRouter: INSUFFICIENT_LIQUIDITY" in
  let* product := u256 (amountA * reserveB) in
  udiv product reserveA.

(** [createPair] of the factory. *)
Definition pair_key (tokenA tokenB : address) : Z * Z := (Z.min tokenA tokenB, Z.max tokenA tokenB).

Definition createPair (tokenA tokenB : address) (ps : pairs) : res string pairs :=
  guard* negb (tokenA =? tokenB) or "FluxSwap: IDENTICAL_ADDRESSES" in
  guard* negb (Z.min tokenA tokenB =? 0) or "FluxSwap: ZERO_ADDRESS" in
  match ps !! pair_key tokenA tokenB with
  | Some _ => Throw "FluxSwap: PAIR_EXISTS"
  | None => Ok (<[pair_key tokenA tokenB := deployed]> ps)
  end.

(** ** The amounts of a deposit *)

(** The names the errors use for the two amounts: [A] and [B], or [TOKEN] and [ETH]. *)
Definition insufficient (name : string) : string := "FluxSwapRouter: INSUFFICIENT_" ++ name ++ "_AMOUNT".

Definition liquidity_amounts (nameA nameB : string) (amountADesired amountBDesired amountAMin amountBMin : Z)
    (reserveA reserveB : Z) : res string (Z * Z) :=
  if (reserveA =? 0) && (reserveB =? 0) then
    guard* amountAMin <=? amountADesired or insufficient nameA in
    guard* amountBMin <=? amountBDesired or insufficient nameB in
    Ok (amountADesired, amountBDesired)
  else
    let* amountBOptimal := quote amountADesired reserveA reserveB in
    if amountBOptimal <=? amountBDesired then
      guard* amountAMin <=? amountADesired or insufficient nameA in
      guard* amountBMin <=? amountBOptimal or insufficient nameB in
      Ok (amountADesired, amountBOptimal)
    else
      let* amountAOptimal := quote amountBDesired reserveB reserveA in
      guard* amountAOptimal <=? amountADesired or "Panic(0x01)" in
      guard* amountAMin <=? amountAOptimal or insufficient nameA in
      guard* amountBMin <=? amountBDesired or insufficient nameB in
      Ok (amountAOptimal, amountBDesired).

(** ** Calls *)

(** The chain of a call: the block and the tokens the sender pays with ([swap_env]), the
    sender, how much of a pair's shares it lets the router take, and the transfers the
    router makes itself, of a token or of the native coin. *)
Record liquidity_env := {
  le_swap :> swap_env;
  le_sender : address;
  le_pair_address : address * address -> address;
  le_allowance : address * address -> Z;
  le_transfer : address -> address -> Z -> res string unit;
  le_sendETH : address -> Z -> res string unit;
}.

Inductive liquidity_call :=
| AddLiquidity (tokenA tokenB : address) (amountADesired amountBDesired amountAMin amountBMin : Z)
    (to : address) (deadline : Z)
| AddLiquidityETH (value : Z) (token : address) (amountTokenDesired amountTokenMin amountETHMin : Z)
    (to : address) (deadline : Z)
| RemoveLiquidity (tokenA tokenB : address) (liquidity amountAMin amountBMin : Z) (to : address) (deadline : Z)
| RemoveLiquidityETH (token : address) (liquidity amountTokenMin amountETHMin : Z) (to : address) (deadline : Z).

(** What the call moved: in for a deposit, out for a withdrawal, with the shares. *)
Record liquidity_receipt := {
  lr_amountA : Z;
  lr_amountB : Z;
  lr_liquidity : Z;
  lr_pairs : pairs;
}.

(** The value of the last transfer in the logs of a mint. *)
Definition minted (evs : list pair_event) : Z :=
  foldl (fun liquidity ev => match ev with Transfer _ _ value => value | _ => liquidity end) 0 evs.

Section liquidity.
Variable e : liquidity_env.

(** The pair's [mint], after it was sent the two amounts. *)
Definition pair_mint (tokenA tokenB : address) (amountA amountB : Z) (to : address) (ps : pairs)
  : res string liquidity_receipt :=
  let* c := _getPairOrRevert tokenA tokenB ps in
  let first := tokenA =? Z.min tokenA tokenB in
  let amount0 := if first then amountA else amountB in
  let amount1 := if first then amountB else amountA in
  let* r := mint (se_bytes e (se_router e)) (se_bytes e to) (c_reserve0 c + amount0) (c_reserve1 c + amount1)
              (se_timestamp e) c in
  Ok {| lr_amountA := amountA; lr_amountB := amountB; lr_liquidity := minted (snd r);
        lr_pairs := <[pair_key tokenA tokenB := fst r]> ps |}.

Definition ensure_pair (tokenA tokenB : address) (ps : pairs) : res string pairs :=
  match ps !! pair_key tokenA tokenB with Some _ => Ok ps | None => createPair tokenA tokenB ps end.

Definition _addLiquidity (tokenA tokenB : address) (amountADesired amountBDesired amountAMin amountBMin : Z)
    (to : address) (ps : pairs) : res string liquidity_receipt :=
  let* ps := ensure_pair tokenA tokenB ps in
  let* r := _getReserves tokenA tokenB ps in
  let* amounts := liquidity_amounts "A" "B" amountADesired amountBDesired amountAMin amountBMin (fst r) (snd r) in
  let* _ := se_transferFrom e tokenA (fst amounts) in
  let* _ := se_transferFrom e tokenB (snd amounts) in
  pair_mint tokenA tokenB (fst amounts) (snd amounts) to ps.

(** The value that is not used goes back to the sender. *)
Definition _addLiquidityETH (value : Z) (token : address) (amountTokenDesired amountTokenMin amountETHMin : Z)
    (to : address) (ps : pairs) : res string liquidity_receipt :=
  let WETH := se_WETH e in
  let* ps := ensure_pair token WETH ps in
  let* r := _getReserves token WETH ps in
  let* amounts := liquidity_amounts "TOKEN" "ETH" amountTokenDesired value amountTokenMin amountETHMin
                    (fst r) (snd r) in
  let* _ := se_transferFrom e token (fst amounts) in
  let* receipt := pair_mint token WETH (fst amounts) (snd amounts) to ps in
  let* _ := if snd amounts <? value then le_sendETH e (le_sender e) (value - snd amounts) else Ok tt in
  Ok receipt.

(** The share of what the pair holds that [burn] pays for the shares it was sent. *)
Definition burn_amounts (self : Bytes) (c : PairContract.state) : res string (Z * Z) :=
  let liquidity := balanceOf self c in
  let* p0 := u256 (liquidity * c_reserve0 c) in let* amount0 := udiv p0 (lp_totalSupply c) in
  let* p1 := u256 (liquidity * c_reserve1 c) in let* amount1 := udiv p1 (lp_totalSupply c) in
  Ok (amount0, amount1).

(** [transferFrom] of the shares: the largest allowance is unlimited. *)
Definition lp_transferFrom (self : Bytes) (key : address * address) (liquidity : Z) (c : PairContract.state)
  : PairContract.effect :=
  guard* (le_allowance e key =? 2 ^ 256 - 1) || (liquidity <=? le_allowance e key) or "Panic(0x11)" in
  _transfer (se_bytes e (le_sender e)) self liquidity c.

Definition _removeLiquidity (tokenA tokenB : address) (liquidity amountAMin amountBMin : Z) (to : address)
    (ps : pairs) : res string liquidity_receipt :=
  let key := pair_key tokenA tokenB in
  match ps !! key with
  | None => Throw ""
  | Some c =>
    let self := se_bytes e (le_pair_address e key) in
    let* r1 := lp_transferFrom self key liquidity c in
    let c1 := fst r1 in
    let* amounts := burn_amounts self c1 in
    let* r2 := burn self (se_bytes e (se_router e)) (se_bytes e to) (c_reserve0 c1) (c_reserve1 c1)
                 (c_reserve0 c1 - fst amounts) (c_reserve1 c1 - snd amounts) (se_timestamp e) [] c1 in
    let* t := sortTokens tokenA tokenB in
    let first := tokenA =? fst t in
    let amountA := if first then fst amounts else snd amounts in
    let amountB := if first then snd amounts else fst amounts in
    guard* amountAMin <=? amountA or insufficient "A" in
    guard* amountBMin <=? amountB or insufficient "B" in
    Ok {| lr_amountA := amountA; lr_amountB := amountB; lr_liquidity := liquidity;
          lr_pairs := <[key := fst r2]> ps |}
  end.

Definition _removeLiquidityETH (token : address) (liquidity amountTokenMin amountETHMin : Z) (to : address)
    (ps : pairs) : res string liquidity_receipt :=
  let* r := _removeLiquidity token (se_WETH e) liquidity amountTokenMin amountETHMin (se_router e) ps in
  let* _ := le_transfer e token to (lr_amountA r) in
  let* _ := le_sendETH e to (lr_amountB r) in
  Ok r.

Definition exec_liquidity (k : liquidity_call) (ps : pairs) : res string liquidity_receipt :=
  match k with
  | AddLiquidity tokenA tokenB dA dB mA mB to deadline =>
    ensure e deadline (_addLiquidity tokenA tokenB dA dB mA mB to ps)
  | AddLiquidityETH value token dT mT mE to deadline =>
    ensure e deadline (_addLiquidityETH value token dT mT mE to ps)
  | RemoveLiquidity tokenA tokenB liquidity mA mB to deadline =>
    ensure e deadline (_removeLiquidity tokenA tokenB liquidity mA mB to ps)
  | RemoveLiquidityETH token liquidity mT mE to deadline =>
    ensure e deadline (_removeLiquidityETH token liquidity mT mE to ps)
  end.
End liquidity.

(** ** Deposits *)

Lemma quote_Ok x ra rb y :
  quote x ra rb = Ok y -> 0 < x /\ 0 < ra /\ 0 < rb /\ y = x * rb / ra.
Proof. unfold quote. intros H. router_inv H. by apply udiv_id in H as [_ ->]. Qed.

Lemma quote_bounds x ra rb y :
  quote x ra rb = Ok y -> 0 < x /\ 0 < ra /\ 0 < rb /\ 0 <= y /\ y * ra <= x * rb < (y + 1) * ra.
Proof.
  intros H. apply quote_Ok in H as (Hx & Ha & Hb & ->).
  assert (0 < x * rb) by nia. pose proof (Z.mul_div_le (x * rb) ra Ha).
  pose proof (Z.mul_succ_div_gt (x * rb) ra Ha). assert (0 <= x * rb / ra) by (apply Z.div_pos; lia). lia.
Qed.

Lemma quote_defined x ra rb :
  0 < x -> 0 < ra -> 0 < rb -> x * rb < 2 ^ 256 -> quote x ra rb = Ok (x * rb / ra).
Proof.
  intros Hx Ha Hb Hw. unfold quote, udiv.
  rewrite (proj2 (Z.ltb_lt 0 x)), (proj2 (Z.ltb_lt 0 ra)), (proj2 (Z.ltb_lt 0 rb)) by done. cbn [andb].
  rewrite u256_ok by nia. cbn [res_bind]. by rewrite (proj2 (Z.eqb_neq ra 0)) by lia.
Qed.

(** The amounts stay within what was asked for, one of them is all of it, and the assertion on
    the other never fails. *)
Lemma liquidity_amounts_bounds nA nB dA dB mA mB ra rb a b :
  liquidity_amounts nA nB dA dB mA mB ra rb = Ok (a, b) ->
  mA <= a <= dA /\ mB <= b <= dB /\ (a = dA \/ b = dB).
Proof.
  unfold liquidity_amounts. intros H. destruct ((ra =? 0) && (rb =? 0)).
  { router_inv H. injection H as <- <-. lia. }
  apply res_bind_Ok in H as (bo & Hb & H). destruct (Z.leb_spec bo dB); router_inv H; injection H as <- <-; lia.
Qed.

Lemma liquidity_amounts_assert nA nB dA dB mA mB ra rb :
  liquidity_amounts nA nB dA dB mA mB ra rb <> Throw "Panic(0x01)".
Proof.
  unfold liquidity_amounts, insufficient. destruct (_ && _).
  { destruct (mA <=? dA), (mB <=? dB); discriminate. }
  destruct (quote dA ra rb) as [bo|] eqn:Eb; cbn [res_bind].
  2: { unfold quote, u256, udiv in Eb. destruct (0 <? dA); [|by injection Eb as <-].
       destruct (_ && _); [|by injection Eb as <-]. destruct (_ && _) in Eb; [|by injection Eb as <-]. cbn in Eb.
       destruct (negb _); [done|]. by injection Eb as <-. }
  destruct (Z.leb_spec bo dB). { destruct (mA <=? dA), (mB <=? bo); discriminate. }
  destruct (quote dB rb ra) as [ao|] eqn:Ea; cbn [res_bind].
  2: { unfold quote, u256, udiv in Ea. destruct (0 <? dB); [|by injection Ea as <-].
       destruct (_ && _); [|by injection Ea as <-]. destruct (_ && _) in Ea; [|by injection Ea as <-]. cbn in Ea.
       destruct (negb _); [done|]. by injection Ea as <-. }
  apply quote_bounds in Ea as (_ & _ & _ & _ & Ha). apply quote_bounds in Eb as (_ & Hra & Hrb & _ & Hb).
  destruct (Z.leb_spec ao dA); [destruct (mA <=? ao), (mB <=? dB); discriminate|]. exfalso. nia.
Qed.
