(* ===== verification/RouterShares.v ===== *)
(** * The shares of a pair over histories of router calls

    What the shares of liquidity are worth: deposits, withdrawals and swaps never lower the
    part of the pair a share stands for.  The invariant of a pair is that its balances are
    the shares there are, of which the first deposit locks a minimum for ever. *)

From S2P Require Import Prelude JsString Subgraph RouterContract RouterLiquidity.
Import Subgraph.PairContract.
Open Scope string_scope.
Open Scope Z_scope.
Open Scope flux_scope.

(** ** Balances *)

(** The balances of a pair are its shares, the locked ones among them. *)
Record shares_ok (c : PairContract.state) : Prop := {
  sh_nonneg : map_Forall (fun _ v => 0 <= v) (lp_balances c);
  sh_total : total (lp_balances c) = lp_totalSupply c;
  sh_locked : lp_totalSupply c <> 0 -> MINIMUM_LIQUIDITY <= balanceOf zero_address c;
}.

Lemma sh_supply c : shares_ok c -> 0 <= lp_totalSupply c.
Proof. intros [H <- _]. by apply total_nonneg. Qed.

Lemma sh_balance c a : shares_ok c -> 0 <= balanceOf a c.
Proof.
  intros [H _ _]. unfold balanceOf. destruct (_ !! a) as [v|] eqn:E; cbn; [|lia]. exact (H _ _ E).
Qed.

Lemma shares_eq c c' :
  shares_ok c -> lp_totalSupply c' = lp_totalSupply c -> lp_balances c' = lp_balances c -> shares_ok c'.
Proof. intros [H1 H2 H3] Ht Hb. unfold balanceOf in *. constructor; unfold balanceOf; by rewrite ?Hb, ?Ht. Qed.

(** A share balance is changed. *)
Lemma shares_set c a v :
  shares_ok c -> 0 <= v -> (a = zero_address -> balanceOf a c <= v) ->
  lp_totalSupply c <> 0 \/ (a = zero_address /\ MINIMUM_LIQUIDITY <= v)
  \/ lp_totalSupply c - balanceOf a c + v = 0 ->
  shares_ok (set_lp (lp_totalSupply c - balanceOf a c + v) (<[a := v]> (lp_balances c)) c).
Proof.
  intros Hok Hv Hz Hs. pose proof (sh_balance c a Hok) as Hb. destruct Hok as [H1 H2 H3].
  constructor; cbn [set_lp lp_balances lp_totalSupply].
  - by apply map_Forall_insert_2.
  - by rewrite total_insert, H2.
  - intros Hn. unfold balanceOf in *. cbn [set_lp lp_balances]. rewrite lookup_insert.
    case_decide as E; [subst a; cbn|].
    + destruct Hs as [Hs|[[_ Hs]|?]]; [|done|done]. specialize (H3 Hs). specialize (Hz eq_refl). lia.
    + destruct Hs as [Hs|[[-> _]|?]]; [|done|done]. by apply H3.
Qed.

(** ** Shares *)

(** A pair as the contract keeps it. *)
Definition pair_ok (c : PairContract.state) : Prop :=
  shares_ok c /\ 0 <= c_reserve0 c < 2 ^ 112 /\ 0 <= c_reserve1 c < 2 ^ 112.

(** A share of the second state is worth at least one of the first, in both tokens. *)
Definition share_value_kept (c c' : PairContract.state) : Prop :=
  c_reserve0 c * lp_totalSupply c' <= c_reserve0 c' * lp_totalSupply c
  /\ c_reserve1 c * lp_totalSupply c' <= c_reserve1 c' * lp_totalSupply c.

Lemma mint_shares_Ok to value c r :
  _mint to value c = Ok r ->
  r = (set_lp (lp_totalSupply c + value) (<[to := balanceOf to c + value]> (lp_balances c)) c,
       [Transfer zero_address to value]) /\ 0 <= lp_totalSupply c + value.
Proof. unfold _mint. intros H. router_inv H. injection H as <-. split; [done|lia]. Qed.

Lemma shares_mint to value c r :
  shares_ok c -> 0 <= value -> lp_totalSupply c <> 0 \/ to = zero_address /\ MINIMUM_LIQUIDITY <= value ->
  _mint to value c = Ok r -> shares_ok (fst r).
Proof.
  intros Hok Hv Hs H. apply mint_shares_Ok in H as [-> _]. cbn [fst]. pose proof (sh_balance c to Hok).
  replace (lp_totalSupply c + value) with (lp_totalSupply c - balanceOf to c + (balanceOf to c + value)) by lia.
  apply shares_set; [done|lia|lia|]. destruct Hs as [|[? ?]]; [by left|]. right; left. split; [done|lia].
Qed.

Lemma shares_burn from value c r :
  shares_ok c -> 0 <= value -> lp_totalSupply c <> 0 -> _burn from value c = Ok r -> shares_ok (fst r).
Proof.
  intros Hok Hv Hs H. unfold _burn in H. router_inv H. injection H as <-. cbn [fst].
  replace (lp_totalSupply c - value) with (lp_totalSupply c - balanceOf from c + (balanceOf from c - value)) by lia.
  apply shares_set; [done|lia|done|by left].
Qed.

Lemma shares_transfer from to value c r :
  shares_ok c -> 0 <= value -> _transfer from to value c = Ok r -> shares_ok (fst r).
Proof.
  intros [H1 H2 H3] Hv H. unfold _transfer in H. router_inv H. injection H as <-. cbn [fst set_lp lp_balances].
  unfold balanceOf in *. cbn [set_lp lp_balances] in *. constructor; cbn [set_lp lp_balances lp_totalSupply].
  - apply map_Forall_insert_2; [lia|]. apply map_Forall_insert_2; [lia|done].
  - rewrite !total_insert, H2. cbn [set_lp lp_balances]. lia.
  - intros Hn. unfold balanceOf. cbn [set_lp lp_balances]. rewrite !lookup_insert_ne by done. by apply H3.
Qed.

Lemma update_Ok b0 b1 r0 r1 ts c r :
  _update b0 b1 r0 r1 ts c = Ok r ->
  c_reserve0 (fst r) = b0 /\ c_reserve1 (fst r) = b1 /\ lp_totalSupply (fst r) = lp_totalSupply c
  /\ lp_balances (fst r) = lp_balances c /\ snd r = [Sync b0 b1] /\ b0 < 2 ^ 112 /\ b1 < 2 ^ 112.
Proof.
  unfold _update. intros H. router_inv H.
  injection H as <-. done.
Qed.

Lemma after_Ok m k r :
  after m k = Ok r -> exists r1 r2, m = Ok r1 /\ k (fst r1) = Ok r2 /\ r = (fst r2, (snd r1 ++ snd r2)%list).
Proof.
  unfold after. intros H. apply res_bind_Ok in H as (r1 & H1 & H). apply res_bind_Ok in H as (r2 & H2 & H).
  injection H as <-. eauto.
Qed.

(** The shares a mint makes besides those of the recipient, in the first one. *)
Definition locked (c : PairContract.state) : Z := if lp_totalSupply c =? 0 then MINIMUM_LIQUIDITY else 0.

Lemma mint_Ok sender to b0 b1 ts c r :
  pair_ok c -> mint sender to b0 b1 ts c = Ok r ->
  let l := minted (snd r) in
  c_reserve0 (fst r) = b0 /\ c_reserve1 (fst r) = b1 /\ b0 < 2 ^ 112 /\ b1 < 2 ^ 112
  /\ lp_totalSupply (fst r) = lp_totalSupply c + locked c + l /\ 0 < l
  /\ c_reserve0 c <= b0 /\ c_reserve1 c <= b1
  /\ (lp_totalSupply c <> 0 ->
      l = Z.min ((b0 - c_reserve0 c) * lp_totalSupply c / c_reserve0 c)
                ((b1 - c_reserve1 c) * lp_totalSupply c / c_reserve1 c)
      /\ 0 < c_reserve0 c /\ 0 < c_reserve1 c)
  /\ (lp_totalSupply c = 0 -> l = sqrt ((b0 - c_reserve0 c) * (b1 - c_reserve1 c)) - MINIMUM_LIQUIDITY).
Proof.
  intros (Hsh & H0 & H1). pose proof (sh_supply c Hsh) as Hs. unfold mint, locked. intros H. router_inv H.
  apply after_Ok in H as (q1 & q2 & E1 & H & ->). injection E1 as <-.
  apply after_Ok in H as (q3 & q4 & E3 & H & ->). apply mint_shares_Ok in E3 as [-> Hp]. cbn [fst snd] in *.
  apply after_Ok in H as (q5 & q6 & E5 & H & ->). apply update_Ok in E5 as (F0 & F1 & F2 & F3 & F4 & F5 & F6).
  injection H as <-. cbn [fst snd] in *. rewrite F0, F1, F2, F4. cbn [lp_totalSupply set_lp].
  destruct (Z.eqb_spec (lp_totalSupply c) 0) as [E|E].
  - router_inv Hx. apply mint_shares_Ok in Hx0 as [-> _]. injection Hx as <-. cbn [fst snd set_lp lp_totalSupply] in *.
    cbn. split_and!; try done; lia.
  - router_inv Hx. apply udiv_id in Hx0 as [Hr0 ->], Hx1 as [Hr1 ->]. injection Hx as <-. cbn [fst snd] in *.
    cbn. split_and!; try done; try lia. intros _. split; [|lia].
    destruct (Z.ltb_spec ((b0 - c_reserve0 c) * lp_totalSupply c / c_reserve0 c)
      ((b1 - c_reserve1 c) * lp_totalSupply c / c_reserve1 c)); lia.
Qed.

Lemma mint_shares_ok sender to b0 b1 ts c r :
  shares_ok c -> mint sender to b0 b1 ts c = Ok r -> shares_ok (fst r).
Proof.
  intros Hok. pose proof (sh_supply c Hok) as Hs. unfold mint. intros H. router_inv H.
  apply after_Ok in H as (q1 & q2 & E1 & H & ->). injection E1 as <-.
  apply after_Ok in H as (q3 & q4 & E3 & H & ->). cbn [fst snd] in *.
  apply after_Ok in H as (q5 & q6 & E5 & H & ->). apply update_Ok in E5 as (_ & _ & F2 & F3 & _).
  injection H as <-. cbn [fst snd] in *. apply (shares_eq (fst q3)); [|done|done].
  assert (shares_ok (fst (snd x)) /\ lp_totalSupply (fst (snd x)) <> 0) as [Hok' Hn].
  { destruct (Z.eqb_spec (lp_totalSupply c) 0) as [E|E].
    - router_inv Hx. injection Hx as <-. cbn [fst snd] in *. split.
      + eapply shares_mint; [exact Hok| |by right|exact Hx0]. by vm_compute.
      + apply mint_shares_Ok in Hx0 as [-> _]. cbn [fst set_lp lp_totalSupply]. unfold MINIMUM_LIQUIDITY. lia.
    - router_inv Hx. injection Hx as <-. done. }
  eapply shares_mint; [exact Hok'|exact (Z.lt_le_incl _ _ Heqb)|by left|exact E3].
Qed.

Lemma mint_keeps sender to b0 b1 ts c r :
  pair_ok c -> mint sender to b0 b1 ts c = Ok r ->
  pair_ok (fst r) /\ lp_totalSupply (fst r) <> 0 /\ (lp_totalSupply c <> 0 -> share_value_kept c (fst r)).
Proof.
  intros Hok H. destruct (mint_Ok _ _ _ _ _ _ _ Hok H) as (E0 & E1 & W0 & W1 & Et & Hl & L0 & L1 & Hn & Hz).
  destruct Hok as (Hsh & H0 & H1). pose proof (sh_supply c Hsh) as Hs. unfold pair_ok, share_value_kept.
  assert (0 <= locked c) by (unfold locked; destruct (_ =? 0); unfold MINIMUM_LIQUIDITY; lia).
  split. { rewrite E0, E1. split; [by eapply mint_shares_ok|lia]. } rewrite E0, E1, Et. split; [lia|].
  intros Hne. destruct (Hn Hne) as (El & P0 & P1). unfold locked. rewrite (proj2 (Z.eqb_neq _ 0)) by done.
  pose proof (Z.mul_div_le ((b0 - c_reserve0 c) * lp_totalSupply c) (c_reserve0 c) P0).
  pose proof (Z.mul_div_le ((b1 - c_reserve1 c) * lp_totalSupply c) (c_reserve1 c) P1).
  rewrite El. split; nia.
Qed.

Lemma burn_amounts_Ok self c a :
  burn_amounts self c = Ok a ->
  a = (balanceOf self c * c_reserve0 c / lp_totalSupply c, balanceOf self c * c_reserve1 c / lp_totalSupply c)
  /\ lp_totalSupply c <> 0.
Proof.
  unfold burn_amounts. intros H. router_inv H. apply udiv_id in Hx as [Hz ->]. apply udiv_id in Hx0 as [_ ->].
  injection H as <-. done.
Qed.

Lemma burn_Ok self sender to b0 b1 b0' b1' ts c r :
  shares_ok c -> burn self sender to b0 b1 b0' b1' ts [] c = Ok r ->
  c_reserve0 (fst r) = b0' /\ c_reserve1 (fst r) = b1' /\ b0' < 2 ^ 112 /\ b1' < 2 ^ 112
  /\ lp_totalSupply (fst r) = lp_totalSupply c - balanceOf self c
  /\ shares_ok (fst r) /\ 0 <= balanceOf self c < lp_totalSupply c
  /\ 0 < balanceOf self c * b0 / lp_totalSupply c /\ 0 < balanceOf self c * b1 / lp_totalSupply c.
Proof.
  intros Hok. unfold burn. intros H. router_inv H. apply udiv_id in Hx as [Hz ->]. apply udiv_id in Hx0 as [_ ->].
  apply after_Ok in H as (q1 & q2 & E1 & H & ->). pose proof (sh_balance c self Hok) as Hb.
  pose proof (shares_burn _ _ _ _ Hok Hb Hz E1) as Hok1.
  assert (balanceOf self c < lp_totalSupply c) as Hlt.
  { destruct Hok as [Hn Ht Hl]. specialize (Hl Hz). rewrite <- Ht in *. unfold _burn in E1. router_inv E1.
    pose proof (total_two _ self zero_address Hn ltac:(done)). unfold balanceOf, MINIMUM_LIQUIDITY in *. lia. }
  unfold _burn in E1. router_inv E1. injection E1 as <-.
  cbn [fst snd] in *. apply after_Ok in H as (q3 & q4 & E3 & H & ->). injection E3 as <-. cbn [fst snd] in *.
  apply after_Ok in H as (q5 & q6 & E5 & H & ->). apply update_Ok in E5 as (F0 & F1 & F2 & F3 & F4 & F5 & F6).
  injection H as <-. cbn [fst snd set_lp lp_totalSupply] in *. rewrite F0, F1, F2.
  split_and!; try done. by apply (shares_eq _ _ Hok1).
Qed.

(** Withdrawing pays out the shares' part of what the pair holds, rounded down. *)
Lemma burn_keeps self sender to a0 a1 ts c r :
  pair_ok c -> burn_amounts self c = Ok (a0, a1) ->
  burn self sender to (c_reserve0 c) (c_reserve1 c) (c_reserve0 c - a0) (c_reserve1 c - a1) ts [] c = Ok r ->
  pair_ok (fst r) /\ lp_totalSupply (fst r) <> 0 /\ share_value_kept c (fst r)
  /\ 0 < a0 <= c_reserve0 c /\ 0 < a1 <= c_reserve1 c.
Proof.
  intros (Hsh & H0 & H1) Ha H. apply burn_amounts_Ok in Ha as [[= -> ->] Hz].
  apply (burn_Ok _ _ _ _ _ _ _ _ _ _ Hsh) in H as (E0 & E1 & _ & _ & Et & Hsh' & Hb & P0 & P1).
  set (S := lp_totalSupply c) in *. set (b := balanceOf self c) in *.
  pose proof (Z.mul_div_le (b * c_reserve0 c) S ltac:(lia)). pose proof (Z.mul_div_le (b * c_reserve1 c) S ltac:(lia)).
  set (a0 := b * c_reserve0 c / S) in *. set (a1 := b * c_reserve1 c / S) in *. clearbody a0 a1.
  assert (a0 <= c_reserve0 c) by nia. assert (a1 <= c_reserve1 c) by nia.
  unfold pair_ok, share_value_kept. rewrite E0, E1, Et. split_and!; try done; try lia; nia.
Qed.

Lemma transfer_Ok from to value c r :
  _transfer from to value c = Ok r ->
  lp_totalSupply (fst r) = lp_totalSupply c /\ c_reserve0 (fst r) = c_reserve0 c
  /\ c_reserve1 (fst r) = c_reserve1 c
  /\ (from <> to -> balanceOf to (fst r) = balanceOf to c + value
                    /\ balanceOf from (fst r) = balanceOf from c - value /\ value <= balanceOf from c).
Proof.
  unfold _transfer. intros H. router_inv H. injection H as <-. cbn [fst set_lp lp_totalSupply c_reserve0 c_reserve1].
  split_and!; [done..|]. intros Hne. unfold balanceOf in *. cbn [set_lp lp_balances] in *.
  rewrite (lookup_insert_ne _ from to) in * by done.
  rewrite lookup_insert_eq, (lookup_insert_ne _ to from), lookup_insert_eq by done. cbn. lia.
Qed.

(** ** The calls keep the value of a share *)

Definition pairs_ok (ps : pairs) : Prop := map_Forall (fun _ c => pair_ok c) ps.

Lemma deployed_ok : pair_ok deployed.
Proof. split; [|cbn; lia]. constructor; [apply map_Forall_empty|reflexivity|done]. Qed.

Lemma getPair_key a b ps c : _getPairOrRevert a b ps = Ok c -> ps !! pair_key a b = Some c.
Proof. unfold _getPairOrRevert, pair_key. destruct (ps !! _); [|done]. by intros [= ->]. Qed.

(** What a call does to the pairs: one of them changes, and is created if it was not there. *)
Record pair_step (k : address * address) (ps ps' : pairs) (c c' : PairContract.state) : Prop := {
  st_before : ps !! k = Some c \/ ps !! k = None /\ c = deployed;
  st_after : ps' = <[k := c']> ps;
  st_ok : pair_ok c';
  st_supply : lp_totalSupply c' <> 0;
  st_value : lp_totalSupply c <> 0 -> share_value_kept c c';
}.

Section calls.
Variable e : liquidity_env.

Lemma ensure_pair_Ok a b ps ps1 :
  ensure_pair a b ps = Ok ps1 ->
  exists c, ps1 !! pair_key a b = Some c /\ ps1 = <[pair_key a b := c]> ps
    /\ (ps !! pair_key a b = Some c \/ ps !! pair_key a b = None /\ c = deployed).
Proof.
  unfold ensure_pair. destruct (ps !! pair_key a b) as [c|] eqn:E.
  - intros [= <-]. exists c. rewrite (insert_id ps _ _ E). split_and!; [done|done|by left].
  - unfold createPair. rewrite E. intros H. router_inv H. injection H as <-.
    exists deployed. split_and!; [apply (lookup_insert_eq ps)|done|by right].
Qed.

Lemma pair_mint_Ok a b x y to ps c r :
  ps !! pair_key a b = Some c -> pair_ok c -> pair_mint e a b x y to ps = Ok r ->
  lr_amountA r = x /\ lr_amountB r = y /\ 0 < lr_liquidity r
  /\ exists c', lr_pairs r = <[pair_key a b := c']> ps /\ pair_ok c' /\ lp_totalSupply c' <> 0
     /\ (lp_totalSupply c <> 0 -> share_value_kept c c')
     /\ lp_totalSupply c' = lp_totalSupply c + locked c + lr_liquidity r.
Proof.
  intros Hc Hok. unfold pair_mint. assert (_getPairOrRevert a b ps = Ok c) as -> by (unfold _getPairOrRevert; fold (pair_key a b); by rewrite Hc). cbn [res_bind].
  intros H. apply res_bind_Ok in H as (m & Hm & H). injection H as <-. cbn [lr_amountA lr_amountB lr_liquidity lr_pairs].
  destruct (mint_keeps _ _ _ _ _ _ _ Hok Hm) as (Hok' & Hn & Hv).
  destruct (mint_Ok _ _ _ _ _ _ _ Hok Hm) as (_ & _ & _ & _ & Ht & Hl & _). split_and!; try done. exists (fst m). by split_and!.
Qed.

Definition call_key (k : liquidity_call) : address * address :=
  match k with
  | AddLiquidity a b _ _ _ _ _ _ | RemoveLiquidity a b _ _ _ _ _ => pair_key a b
  | AddLiquidityETH _ token _ _ _ _ _ | RemoveLiquidityETH token _ _ _ _ _ => pair_key token (se_WETH e)
  end.

(** The deposit once the pair is there, in either form. *)
Definition deposit (nA nB : string) (a b : address) (dA dB mA mB : Z) (to : address) (pay : Z -> Z -> res string unit)
    (ps : pairs) : res string liquidity_receipt :=
  let* ps := ensure_pair a b ps in
  let* r := _getReserves a b ps in
  let* amounts := liquidity_amounts nA nB dA dB mA mB (fst r) (snd r) in
  let* _ := pay (fst amounts) (snd amounts) in
  pair_mint e a b (fst amounts) (snd amounts) to ps.

Lemma deposit_Ok nA nB a b dA dB mA mB to pay ps r :
  pairs_ok ps -> deposit nA nB a b dA dB mA mB to pay ps = Ok r ->
  mA <= lr_amountA r <= dA /\ mB <= lr_amountB r <= dB /\ 0 < lr_liquidity r
  /\ exists c c', pair_step (pair_key a b) ps (lr_pairs r) c c'
     /\ lp_totalSupply c' = lp_totalSupply c + locked c + lr_liquidity r.
Proof.
  intros Hps H. unfold deposit in H. apply res_bind_Ok in H as (ps1 & H1 & H).
  apply ensure_pair_Ok in H1 as (c & Hc & -> & Hor). apply res_bind_Ok in H as (rs & _ & H).
  apply res_bind_Ok in H as ([x y] & Ha & H). apply res_bind_Ok in H as (_ & _ & H).
  assert (pair_ok c) as Hok. { destruct Hor as [E|[_ ->]]; [exact (Hps _ _ E)|apply deployed_ok]. }
  apply liquidity_amounts_bounds in Ha as (Ha & Hb & _). cbn [fst snd] in H.
  destruct (pair_mint_Ok _ _ _ _ _ _ _ _ Hc Hok H) as (-> & -> & Hl & c' & Hp & Hok' & Hn & Hv & Ht).
  split_and!; try lia. exists c, c'. split; [|done]. constructor; try done. rewrite Hp. apply (insert_insert_eq ps).
Qed.

Lemma addLiquidity_deposit a b dA dB mA mB to ps :
  _addLiquidity e a b dA dB mA mB to ps
  = deposit "A" "B" a b dA dB mA mB to
      (fun x y => let* _ := se_transferFrom e a x in se_transferFrom e b y) ps.
Proof.
  unfold _addLiquidity, deposit. destruct (ensure_pair a b ps); [|done]. cbn [res_bind].
  destruct (_getReserves _ _ _); [|done]. cbn [res_bind]. destruct (liquidity_amounts _ _ _ _ _ _ _ _); [|done].
  cbn [res_bind]. by destruct (se_transferFrom e a _).
Qed.

Lemma addLiquidityETH_Ok value token dT mT mE to ps r :
  _addLiquidityETH e value token dT mT mE to ps = Ok r ->
  deposit "TOKEN" "ETH" token (se_WETH e) dT value mT mE to (fun x _ => se_transferFrom e token x) ps = Ok r.
Proof.
  unfold _addLiquidityETH, deposit. destruct (ensure_pair _ _ ps); [|done]. cbn [res_bind].
  destruct (_getReserves _ _ _); [|done]. cbn [res_bind]. destruct (liquidity_amounts _ _ _ _ _ _ _ _); [|done].
  cbn [res_bind]. destruct (se_transferFrom e token _); [|done]. cbn [res_bind].
  destruct (pair_mint _ _ _ _ _ _ _); [|done]. cbn [res_bind]. intros H. router_inv H. by injection H as <-.
Qed.

Lemma removal_Ok a b l mA mB to ps r :
  pairs_ok ps -> 0 <= l -> _removeLiquidity e a b l mA mB to ps = Ok r ->
  mA <= lr_amountA r /\ mB <= lr_amountB r /\ lr_liquidity r = l
  /\ exists c c', pair_step (pair_key a b) ps (lr_pairs r) c c'.
Proof.
  intros Hps Hl H. unfold _removeLiquidity in H. destruct (ps !! pair_key a b) as [c|] eqn:Hc; [|done].
  specialize (Hps _ _ Hc). apply res_bind_Ok in H as (r1 & H1 & H). apply res_bind_Ok in H as ([x y] & Ha & H).
  apply res_bind_Ok in H as (r2 & H2 & H). router_inv H. injection H as <-.
  unfold lp_transferFrom in H1. router_inv H1. pose proof (shares_transfer _ _ _ _ _ (proj1 Hps) Hl H1) as Hsh.
  apply transfer_Ok in H1 as (Et & E0 & E1 & _).
  assert (pair_ok (fst r1)) as Hok1 by (unfold pair_ok in *; rewrite E0, E1; by destruct Hps).
  cbn [fst snd] in *. destruct (burn_keeps _ _ _ _ _ _ _ _ Hok1 Ha H2) as (Hok2 & Hn & Hv & _).
  split_and!; [done..|]. exists c, (fst r2). constructor; [by left|done|done|done|].
  intros _. unfold share_value_kept in *. by rewrite Et, E0, E1 in Hv.
Qed.

(** The arguments of a call are words. *)
Definition call_words (k : liquidity_call) : Prop :=
  match k with
  | RemoveLiquidity _ _ l _ _ _ _ | RemoveLiquidityETH _ l _ _ _ _ => 0 <= l < 2 ^ 256
  | _ => True
  end.

Lemma exec_liquidity_step k ps r :
  pairs_ok ps -> call_words k -> exec_liquidity e k ps = Ok r -> exists c c', pair_step (call_key k) ps (lr_pairs r) c c'.
Proof.
  intros Hps Hw H. destruct k; cbn [exec_liquidity call_key call_words] in *; unfold ensure in H; router_inv H.
  - rewrite addLiquidity_deposit in H. destruct (deposit_Ok _ _ _ _ _ _ _ _ _ _ _ _ Hps H) as (_ & _ & _ & c & c' & ? & _).
    eauto.
  - apply addLiquidityETH_Ok in H.
    destruct (deposit_Ok _ _ _ _ _ _ _ _ _ _ _ _ Hps H) as (_ & _ & _ & c & c' & ? & _). eauto.
  - apply removal_Ok in H as (_ & _ & _ & H); [done|done|lia].
  - unfold _removeLiquidityETH in H. router_inv H. injection H as <-. apply removal_Ok in Hx as (_ & _ & _ & Hx); [done|done|lia].
Qed.
End calls.

(** ** Histories *)

(** The product of what the pair holds, per share squared, does not fall. *)
Definition product_kept (c c' : PairContract.state) : Prop :=
  c_reserve0 c * c_reserve1 c * lp_totalSupply c' ^ 2 <= c_reserve0 c' * c_reserve1 c' * lp_totalSupply c ^ 2.

Lemma product_value c c' : pair_ok c -> pair_ok c' -> share_value_kept c c' -> product_kept c c'.
Proof.
  intros (H & H0 & H1) (H' & H0' & H1') [V0 V1]. pose proof (sh_supply _ H). pose proof (sh_supply _ H').
  unfold product_kept. rewrite !Z.pow_2_r.
  assert (0 <= c_reserve0 c * lp_totalSupply c') by nia. assert (0 <= c_reserve1 c * lp_totalSupply c') by nia.
  pose proof (Z.mul_le_mono_nonneg (c_reserve0 c * lp_totalSupply c') _ _ _ ltac:(done) V0 ltac:(done) V1). lia.
Qed.

Lemma product_trans c1 c2 c3 :
  lp_totalSupply c2 <> 0 -> product_kept c1 c2 -> product_kept c2 c3 -> product_kept c1 c3.
Proof.
  unfold product_kept. intros Hn H12 H23. set (k1 := c_reserve0 c1 * c_reserve1 c1) in *.
  set (k2 := c_reserve0 c2 * c_reserve1 c2) in *. set (k3 := c_reserve0 c3 * c_reserve1 c3) in *.
  assert (0 < lp_totalSupply c2 ^ 2) by nia. assert (0 <= lp_totalSupply c1 ^ 2) by nia.
  assert (0 <= lp_totalSupply c3 ^ 2) by nia. apply (Z.mul_le_mono_pos_r _ _ (lp_totalSupply c2 ^ 2)); [done|].
  pose proof (Z.mul_le_mono_nonneg_r _ _ (lp_totalSupply c3 ^ 2) ltac:(done) H12).
  pose proof (Z.mul_le_mono_nonneg_r _ _ (lp_totalSupply c1 ^ 2) ltac:(done) H23). lia.
Qed.

(** A pair after a step: its shares exist as before, and are worth no less. *)
Definition grown (c c' : PairContract.state) : Prop :=
  lp_totalSupply c <> 0 -> lp_totalSupply c' <> 0 /\ product_kept c c'.

Lemma grown_trans c1 c2 c3 : grown c1 c2 -> grown c2 c3 -> grown c1 c3.
Proof.
  intros H12 H23 Hn. destruct (H12 Hn) as [Hn2 Hp]. destruct (H23 Hn2) as [Hn3 Hp']. split; [done|].
  exact (product_trans _ _ _ Hn2 Hp Hp').
Qed.
Lemma grown_same c c' :
  lp_totalSupply c' = lp_totalSupply c -> c_reserve0 c * c_reserve1 c <= c_reserve0 c' * c_reserve1 c' -> grown c c'.
Proof. intros E H Hn. unfold product_kept. rewrite E. split; [done|]. nia. Qed.

Definition grows (ps ps' : pairs) : Prop :=
  forall k c, ps !! k = Some c -> exists c', ps' !! k = Some c' /\ grown c c'.

Lemma grows_refl ps : grows ps ps.
Proof. intros k c H. exists c. split; [done|]. by apply grown_same. Qed.
Lemma grows_trans ps1 ps2 ps3 : grows ps1 ps2 -> grows ps2 ps3 -> grows ps1 ps3.
Proof.
  intros H12 H23 k c H. destruct (H12 k c H) as (c2 & H2 & Hg). destruct (H23 k c2 H2) as (c3 & H3 & Hg').
  exists c3. split; [done|]. exact (grown_trans _ _ _ Hg Hg').
Qed.

Lemma grows_insert ps k c c' :
  ps !! k = Some c \/ ps !! k = None -> (ps !! k = Some c -> grown c c') -> grows ps (<[k := c']> ps).
Proof.
  intros Hc Hg k1 c1 H. destruct (decide (k = k1)) as [<-|Hne].
  - exists c'. split; [apply (lookup_insert_eq ps)|]. destruct Hc as [Hc|Hc]; [|congruence].
    assert (c1 = c) as -> by congruence. auto.
  - exists c1. split; [by rewrite (lookup_insert_ne ps k k1)|]. by apply grown_same.
Qed.

Lemma pairs_ok_insert ps k c : pairs_ok ps -> pair_ok c -> pairs_ok (<[k := c]> ps).
Proof. intros H Hc. by apply map_Forall_insert_2. Qed.

(** A swap that a pair accepts. *)
Lemma swap_keeps sender o0 o1 to tok b0 b1 treasury ts c r :
  pair_ok c -> swap sender o0 o1 to tok b0 b1 treasury ts [] c = Ok r ->
  pair_ok (fst r) /\ lp_totalSupply (fst r) = lp_totalSupply c
  /\ c_reserve0 c * c_reserve1 c <= c_reserve0 (fst r) * c_reserve1 (fst r).
Proof.
  intros (Hsh & H0 & H1). unfold swap. cbn [_transfers]. unfold after at 1. cbn [res_bind fst snd].
  intros H. router_inv H.
  injection H as <-. cbn [fst snd]. revert Hx.
  generalize (if c_reserve0 c - o0 <? b0 then b0 - (c_reserve0 c - o0) else 0) as i0.
  generalize (if c_reserve1 c - o1 <? b1 then b1 - (c_reserve1 c - o1) else 0) as i1.
  intros i1 i0 H. router_inv H. apply after_Ok in H as (q1 & q2 & E1 & E2 & ->). injection E2 as <-.
  apply update_Ok in E1 as (F0 & F1 & F2 & F3 & _ & W0 & W1). cbn [fst snd].
  set (n0 := b0 - _) in *. set (n1 := b1 - _) in *.
  set (bps := if negb _ then LP_SWAP_FEE_BPS else TOTAL_SWAP_FEE_BPS) in *.
  set (f0 := i0 * bps) in *. set (f1 := i1 * bps) in *.
  clearbody n0 n1 f0 f1.
  unfold pair_ok. rewrite F0, F1, F2. split_and!; try done; try lia; [by apply (shares_eq c)|].
  change FEE_BPS_BASE with 10000 in *. change (10000 ^ 2) with 100000000 in *.
  assert ((n0 * 10000 - f0) * (n1 * 10000 - f1) <= n0 * 10000 * (n1 * 10000)).
  { apply Z.mul_le_mono_nonneg; lia. } lia.
Qed.

Lemma hop_grows e a b x y to ps ps' : pairs_ok ps -> hop e a b x y to ps = Ok ps' -> pairs_ok ps' /\ grows ps ps'.
Proof.
  intros Hps. unfold hop. intros H. apply res_bind_Ok in H as (t & Ht & H). apply sortTokens_Ok in Ht as [_ ->].
  apply res_bind_Ok in H as (c & Hc & H). apply getPair_key in Hc. pose proof (Hps _ _ Hc) as Hok.
  apply res_bind_Ok in H as (r & Hr & H). injection H as <-.
  assert (pair_ok (fst r) /\ lp_totalSupply (fst r) = lp_totalSupply c
          /\ c_reserve0 c * c_reserve1 c <= c_reserve0 (fst r) * c_reserve1 (fst r)) as (Hok' & Ht & Hk).
  { destruct (a =? _) in Hr; exact (swap_keeps _ _ _ _ _ _ _ _ _ _ _ Hok Hr). }
  split; [by apply pairs_ok_insert|]. apply (grows_insert ps _ c); [by left|]. intros _. by apply grown_same.
Qed.

Lemma swap_grows e pair_address amounts path to ps ps' :
  pairs_ok ps -> _swap e pair_address amounts path to ps = Ok ps' -> pairs_ok ps' /\ grows ps ps'.
Proof.
  revert amounts ps. induction path as [|a path IH]; intros amounts ps Hps H.
  { destruct amounts; cbn in H; injection H as <-; (split; [done|apply grows_refl]). }
  destruct path as [|b rest], amounts as [|x [|y amounts]];
    try (cbn in H; injection H as <-; split; [done|apply grows_refl]).
  cbn [_swap] in H. apply res_bind_Ok in H as (hop_to & _ & H). apply res_bind_Ok in H as (ps1 & H1 & H).
  apply hop_grows in H1 as [Hok1 Hg1]; [|done]. destruct (IH (y :: amounts) ps1 Hok1 H) as [Hok Hg].
  split; [done|]. exact (grows_trans _ _ _ Hg1 Hg).
Qed.

Lemma exec_router_grows e pair_address k ps r :
  pairs_ok ps -> exec_router e pair_address k ps = Ok r -> pairs_ok (rc_pairs r) /\ grows ps (rc_pairs r).
Proof.
  intros Hps H.
  assert (exists pay amounts path to, execute_swap e pair_address pay amounts path to ps = Ok r)
    as (pay & amounts & path & to & Hx).
  { destruct k; unfold exec_router, ensure, exact_input, exact_output in H; router_inv H; eauto. }
  unfold execute_swap in Hx. router_inv Hx. injection Hx as <-. cbn [rc_pairs]. by eapply swap_grows.
Qed.

(** What happens to the pairs: calls of the router by anyone, in any block, and transfers of
    shares between their owners. *)
Inductive router_step : pairs -> pairs -> Prop :=
| step_liquidity e k ps r :
  call_words k -> exec_liquidity e k ps = Ok r -> router_step ps (lr_pairs r)
| step_swap e pair_address k ps r :
  exec_router e pair_address k ps = Ok r -> router_step ps (rc_pairs r)
| step_transfer ps key c from to value r :
  ps !! key = Some c -> 0 <= value -> _transfer from to value c = Ok r -> router_step ps (<[key := fst r]> ps).

Inductive router_run : pairs -> pairs -> Prop :=
| run_none ps : router_run ps ps
| run_more ps1 ps2 ps3 : router_step ps1 ps2 -> router_run ps2 ps3 -> router_run ps1 ps3.

Lemma step_grows ps ps' : pairs_ok ps -> router_step ps ps' -> pairs_ok ps' /\ grows ps ps'.
Proof.
  intros Hps H. destruct H as [e k ps r Hw H|e pa k ps r H|ps key c from to v r Hc Hv H].
  - apply exec_liquidity_step in H as (c & c' & [Hb -> Hok Hn Hval]); [|done|done].
    split; [by apply pairs_ok_insert|]. apply (grows_insert ps _ c).
    { destruct Hb as [Hb|[Hb _]]; [by left|by right]. }
    intros Hc Hs. split; [done|]. apply product_value; [by eapply Hps|done|]. by apply Hval.
  - by eapply exec_router_grows.
  - pose proof (Hps _ _ Hc) as (Hsh & H0 & H1). pose proof (shares_transfer _ _ _ _ _ Hsh Hv H) as Hsh'.
    apply transfer_Ok in H as (Et & E0 & E1 & _). split.
    + apply pairs_ok_insert; [done|]. unfold pair_ok. by rewrite E0, E1.
    + apply (grows_insert ps _ c); [by left|]. intros _. apply grown_same; [done|]. by rewrite E0, E1.
Qed.

Lemma run_grows ps ps' : router_run ps ps' -> pairs_ok ps -> pairs_ok ps' /\ grows ps ps'.
Proof.
  induction 1 as [ps|ps1 ps2 ps3 H1 _ IH]; intros Hps; [split; [done|apply grows_refl]|].
  destruct (step_grows _ _ Hps H1) as [H2 Hg]. destruct (IH H2) as [H3 Hg']. split; [done|].
  exact (grows_trans _ _ _ Hg Hg').
Qed.

(** C8.  In any history of the exchange, from no pairs at all: the shares of a pair are exactly what
    its owners hold, a thousand of them nobody's, and from any moment to any later one, through
    swaps, deposits and withdrawals by anyone, what one share stands for, the root of the
    product of the reserves over the shares, never falls. *)
Theorem share_value_never_falls ps ps' key c :
  router_run ∅ ps -> router_run ps ps' -> ps !! key = Some c -> lp_totalSupply c <> 0 ->
  exists c', ps' !! key = Some c'
    /\ total (lp_balances c') = lp_totalSupply c'
    /\ 1000 <= balanceOf zero_address c' <= lp_totalSupply c'
    /\ c_reserve0 c * c_reserve1 c * lp_totalSupply c' ^ 2 <= c_reserve0 c' * c_reserve1 c' * lp_totalSupply c ^ 2.
Proof.
  intros H0 H1 Hc Hn. destruct (run_grows _ _ H0) as [Hps _]; [apply map_Forall_empty|].
  destruct (run_grows _ _ H1 Hps) as [Hps' Hg]. destruct (Hg _ _ Hc) as (c' & Hc' & Hgr).
  destruct (Hgr Hn) as [Hn' Hp]. destruct (Hps' _ _ Hc') as ([Hnn Ht Hl] & _). exists c'. split_and!; try done.
  - by apply Hl.
  - rewrite <- Ht, (total_delete _ zero_address). unfold balanceOf.
    pose proof (total_nonneg _ (map_Forall_delete _ _ zero_address Hnn)). lia.
Qed.

(** ** Concrete instances *)

Definition sample_liquidity_env : liquidity_env :=
  {| le_swap := {| se_timestamp := 1700000000; se_WETH := 5; se_router := 6; se_treasury := zero_address;
                   se_bytes := dec; se_transferFrom := fun _ _ => Ok tt |};
     le_sender := 7; le_pair_address := fun _ => 8; le_allowance := fun _ => 2 ^ 256 - 1;
     le_transfer := fun _ _ _ => Ok tt; le_sendETH := fun _ _ => Ok tt |}.

(** A first deposit of the two tokens 1 and 2, and a withdrawal of half of the shares. *)
Definition sample_deposit : liquidity_call := AddLiquidity 1 2 4000000 1000000 0 0 7 1700000600.
Definition sample_withdrawal : liquidity_call := RemoveLiquidity 1 2 1000000 0 0 7 1700000600.

Definition after_call (k : liquidity_call) (ps : pairs) : pairs :=
  match exec_liquidity sample_liquidity_env k ps with Ok r => lr_pairs r | Throw _ => ps end.
Definition sample_pairs : pairs := after_call sample_deposit ∅.

Lemma sample_step k ps :
  call_words k -> is_ok (exec_liquidity sample_liquidity_env k ps) = true -> router_run ps (after_call k ps).
Proof.
  intros Hw H. unfold after_call. destruct (exec_liquidity _ k ps) as [r|] eqn:E; [|discriminate H].
  eapply run_more; [|apply run_none]. exact (step_liquidity _ _ _ _ Hw E).
Qed.

Lemma share_value_never_falls_witness :
  exists c c', sample_pairs !! (1, 2) = Some c /\ lp_totalSupply c = 2000000
    /\ after_call sample_withdrawal sample_pairs !! (1, 2) = Some c' /\ lp_totalSupply c' = 1000000
    /\ c_reserve0 c * c_reserve1 c * lp_totalSupply c' ^ 2 <= c_reserve0 c' * c_reserve1 c' * lp_totalSupply c ^ 2.
Proof.
  destruct (sample_pairs !! (1, 2)) as [c|] eqn:E; [|vm_compute in E; discriminate E].
  assert (lp_totalSupply c = 2000000) as Hc by (vm_compute in E; injection E as <-; reflexivity).
  destruct (share_value_never_falls sample_pairs (after_call sample_withdrawal sample_pairs) (1, 2) c)
    as (c' & H' & _ & _ & Hv).
  - apply sample_step; [exact I|vm_compute; reflexivity].
  - apply sample_step; [vm_compute; split; [discriminate|reflexivity]|vm_compute; reflexivity].
  - exact E.
  - rewrite Hc. discriminate.
  - exists c, c'. split; [reflexivity|]. split; [exact Hc|]. split; [exact H'|]. split; [|exact Hv].
    vm_compute in H'. injection H' as <-. reflexivity.
Defined.
