(* ===== verification/RouterDeposits.v ===== *)
(** * Deposits and withdrawals that succeed

    When a liquidity call of the router goes through on a pair whose state is known, and what
    it then moves: the counterpart, for the pages, of what RouterShares.v says of the calls
    that went through. *)

From S2P Require Import Prelude JsString Subgraph RouterContract RouterLiquidity RouterShares.
Import Subgraph.PairContract.
Open Scope string_scope.
Open Scope Z_scope.
Open Scope flux_scope.

(** A pair of the two tokens in use at a time, and its reserves in their order. *)
Record live_pair (ts : Z) (a b : address) (ps : pairs) (c : PairContract.state) (ra rb : Z) : Prop := {
  lv_pair : ps !! pair_key a b = Some c;
  lv_ok : pair_ok c;
  lv_sync : can_sync ts c = true;
  lv_supply : 0 < lp_totalSupply c < 2 ^ 112;
  lv_reserves : (ra, rb) = if a <? b then (c_reserve0 c, c_reserve1 c) else (c_reserve1 c, c_reserve0 c);
  lv_positive : 0 < ra /\ 0 < rb;
  lv_tokens : a <> b /\ 0 < a /\ 0 < b;
}.

Lemma live_words ts a b ps c ra rb : live_pair ts a b ps c ra rb -> 0 < ra < 2 ^ 112 /\ 0 < rb < 2 ^ 112.
Proof. intros [_ (_ & H0 & H1) _ _ Hr [Ha Hb] _]. destruct (a <? b); injection Hr as -> ->; lia. Qed.

Lemma live_first ts a b ps c ra rb : live_pair ts a b ps c ra rb -> (a =? Z.min a b) = (a <? b).
Proof. intros [_ _ _ _ _ _ (H & _ & _)]. destruct (Z.ltb_spec a b), (Z.eqb_spec a (Z.min a b)); lia || done. Qed.

Lemma live_sorted ts a b ps c ra rb :
  live_pair ts a b ps c ra rb -> sortTokens a b = Ok (Z.min a b, Z.max a b).
Proof.
  intros [_ _ _ _ _ _ (H & Ha & Hb)]. unfold sortTokens.
  rewrite (proj2 (Z.eqb_neq a b)), (proj2 (Z.eqb_neq (Z.min a b) 0)) by lia. done.
Qed.

Lemma live_read ts a b ps c ra rb : live_pair ts a b ps c ra rb -> _getReserves a b ps = Ok (ra, rb).
Proof.
  intros H. unfold _getReserves, _getPairOrRevert. rewrite (live_sorted _ _ _ _ _ _ _ H).
  pose proof (lv_pair _ _ _ _ _ _ _ H) as E. unfold pair_key in E. rewrite E. cbn [res_bind fst].
  rewrite (live_first _ _ _ _ _ _ _ H). by rewrite (lv_reserves _ _ _ _ _ _ _ H).
Qed.

Lemma live_swap ts a b ps c ra rb : live_pair ts a b ps c ra rb -> live_pair ts b a ps c rb ra.
Proof.
  intros [H1 H2 H3 H4 H5 [Ha Hb] (H6 & H7 & H8)].
  assert (pair_key b a = pair_key a b) as Hk by (unfold pair_key; by rewrite Z.min_comm, Z.max_comm).
  constructor; [by rewrite Hk|done|done|done| |done|by split_and!].
  destruct (Z.ltb_spec a b), (Z.ltb_spec b a); try lia; by injection H5 as -> ->.
Qed.

(** ** Mints *)

Definition shares_of (x y ra rb supply : Z) : Z := Z.min (x * supply / ra) (y * supply / rb).

Lemma word_small n m : 0 <= n < 2 ^ 112 -> 0 <= m < 2 ^ 112 -> 0 <= n * m < 2 ^ 256.
Proof. intros. change (2 ^ 256) with (2 ^ 112 * (2 ^ 112 * 2 ^ 32)). nia. Qed.

Lemma minted_app l e : minted (l ++ [e]) = match e with Transfer _ _ v => v | _ => minted l end.
Proof. unfold minted. rewrite foldl_app. cbn. by destruct e. Qed.

Lemma can_sync_lp ts t m c : can_sync ts (set_lp t m c) = can_sync ts c.
Proof.
  unfold can_sync, sync, _update. cbn [set_lp c_reserve0 c_reserve1 blockTimestampLast price0CumulativeLast price1CumulativeLast].
  destruct (_ && _); [|done]. destruct (u256 _) as [elapsed|]; [|done]. cbn [res_bind].
  destruct (_ && _ && _); cbn [res_bind]; [|done]. destruct (u256 _); [|done]. cbn [res_bind]. by destruct (u256 _).
Qed.

Lemma mint_defined sender to x y ts c :
  pair_ok c -> can_sync ts c = true -> 0 < lp_totalSupply c < 2 ^ 112 ->
  0 < c_reserve0 c -> 0 < c_reserve1 c -> 0 <= x -> 0 <= y ->
  c_reserve0 c + x < 2 ^ 112 -> c_reserve1 c + y < 2 ^ 112 ->
  let l := shares_of x y (c_reserve0 c) (c_reserve1 c) (lp_totalSupply c) in
  0 < l -> exists r, mint sender to (c_reserve0 c + x) (c_reserve1 c + y) ts c = Ok r /\ minted (snd r) = l.
Proof.
  intros Hok Hs HT H0 H1 Hx Hy W0 W1 l Hl.
  assert (exists r, mint sender to (c_reserve0 c + x) (c_reserve1 c + y) ts c = Ok r) as [r Hr].
  2: { exists r. split; [done|]. destruct (mint_Ok _ _ _ _ _ _ _ Hok Hr) as (_ & _ & _ & _ & _ & _ & _ & _ & Hn & _).
       destruct Hn as [-> _]; [lia|]. unfold l, shares_of. f_equal; do 2 f_equal; lia. }
  unfold mint. replace (c_reserve0 c + x - c_reserve0 c) with x by lia.
  replace (c_reserve1 c + y - c_reserve1 c) with y by lia.
  rewrite !u256_ok by lia. cbn [res_bind]. rewrite (proj2 (Z.eqb_neq _ 0)) by lia.
  unfold udiv. rewrite !(u256_ok (_ * _)) by (apply word_small; lia). cbn [res_bind].
  rewrite !(proj2 (Z.eqb_neq _ 0)) by lia. cbn [negb res_bind fst snd].
  assert ((if x * lp_totalSupply c / c_reserve0 c <? y * lp_totalSupply c / c_reserve1 c
           then x * lp_totalSupply c / c_reserve0 c else y * lp_totalSupply c / c_reserve1 c) = l) as ->.
  { unfold l, shares_of. destruct (Z.ltb_spec (x * lp_totalSupply c / c_reserve0 c)
      (y * lp_totalSupply c / c_reserve1 c)); lia. }
  rewrite (proj2 (Z.ltb_lt 0 l)) by done.
  assert (l <= x * lp_totalSupply c) as Hle.
  { unfold l, shares_of. transitivity (x * lp_totalSupply c / c_reserve0 c); [lia|].
    apply Z.div_le_upper_bound; [done|]. nia. }
  assert (x * lp_totalSupply c < 2 ^ 224) as Hw by (change (2 ^ 224) with (2 ^ 112 * 2 ^ 112); nia).
  assert (0 <= balanceOf to c <= lp_totalSupply c) as Hb.
  { destruct Hok as (Hsh & _). pose proof (sh_balance c to Hsh). destruct Hsh as [Hn <- _]. split; [done|].
    rewrite (total_delete _ to). unfold balanceOf.
    pose proof (total_nonneg _ (map_Forall_delete _ _ to Hn)). lia. }
  unfold after at 1. cbn [res_bind fst snd]. unfold after at 1, _mint. rewrite !u256_ok by lia. cbn [res_bind fst snd].
  set (c1 := set_lp _ _ c).
  destruct (update_defined ts c1 (c_reserve0 c + x) (c_reserve1 c + y)) as [u Hu]; [by unfold c1; rewrite can_sync_lp|done|done|].
  change (c_reserve0 c1) with (c_reserve0 c) in Hu. change (c_reserve1 c1) with (c_reserve1 c) in Hu.
  unfold after. rewrite Hu. cbn. eauto.
Qed.

(** ** Deposits *)

Section deposits.
Variable e : liquidity_env.
Variables (a b : address) (ps : pairs) (c : PairContract.state) (ra rb : Z).
Hypothesis live : live_pair (se_timestamp e) a b ps c ra rb.

Lemma pair_mint_defined x y to :
  0 <= x -> 0 <= y -> ra + x < 2 ^ 112 -> rb + y < 2 ^ 112 ->
  0 < shares_of x y ra rb (lp_totalSupply c) ->
  exists r, pair_mint e a b x y to ps = Ok r /\ lr_amountA r = x /\ lr_amountB r = y
    /\ lr_liquidity r = shares_of x y ra rb (lp_totalSupply c).
Proof.
  intros Hx Hy Wa Wb Hl. unfold pair_mint, _getPairOrRevert.
  pose proof (lv_pair _ _ _ _ _ _ _ live) as E. unfold pair_key in E. rewrite E. cbn [res_bind].
  rewrite (live_first _ _ _ _ _ _ _ live). pose proof live as [_ Hok Hs HT Hr [Pa Pb] _].
  destruct (a <? b); injection Hr as -> ->.
  - destruct (mint_defined (se_bytes e (se_router e)) (se_bytes e to) x y (se_timestamp e) c) as (r & -> & Hm);
      try done. cbn [res_bind]. eexists. split; [done|]. by rewrite <- Hm.
  - assert (shares_of x y (c_reserve1 c) (c_reserve0 c) (lp_totalSupply c)
            = shares_of y x (c_reserve0 c) (c_reserve1 c) (lp_totalSupply c)) as Hsw by (unfold shares_of; lia).
    rewrite Hsw in *.
    destruct (mint_defined (se_bytes e (se_router e)) (se_bytes e to) y x (se_timestamp e) c) as (r & -> & Hm);
      try done. cbn [res_bind]. eexists. split; [done|]. by rewrite <- Hm.
Qed.

(** The amounts a deposit of at most [x] and [y] takes from the pair. *)
Definition fitted (x y : Z) : Z * Z :=
  if x * rb / ra <=? y then (x, x * rb / ra) else (y * ra / rb, y).

Lemma fitted_amounts nA nB x y mA mB :
  0 < x < 2 ^ 112 -> 0 < y < 2 ^ 112 -> mA <= fst (fitted x y) -> mB <= snd (fitted x y) ->
  liquidity_amounts nA nB x y mA mB ra rb = Ok (fitted x y).
Proof.
  intros Hx Hy HA HB. pose proof (live_words _ _ _ _ _ _ _ live) as [Ha Hb]. unfold liquidity_amounts, fitted in *.
  rewrite (proj2 (Z.eqb_neq ra 0)), (proj2 (Z.eqb_neq rb 0)) by lia. cbn [andb].
  rewrite quote_defined by (try apply word_small; lia). cbn [res_bind].
  destruct (Z.leb_spec (x * rb / ra) y) as [Hle|Hgt]; cbn [fst snd] in *.
  - rewrite (proj2 (Z.leb_le mA x)), (proj2 (Z.leb_le mB _)) by lia. done.
  - rewrite quote_defined by (try apply word_small; lia). cbn [res_bind].
    assert (y * ra / rb <= x) as Hopt.
    { apply Z.div_le_upper_bound; [lia|]. pose proof (Z.mul_div_le (x * rb) ra ltac:(lia)). nia. }
    rewrite (proj2 (Z.leb_le (y * ra / rb) x)), (proj2 (Z.leb_le mA _)), (proj2 (Z.leb_le mB y)) by lia. done.
Qed.

Lemma fitted_within x y : 0 < x -> 0 < y -> 0 <= fst (fitted x y) <= x /\ 0 <= snd (fitted x y) <= y.
Proof.
  intros Hx Hy. pose proof (live_words _ _ _ _ _ _ _ live) as [Ha Hb]. unfold fitted.
  destruct (Z.leb_spec (x * rb / ra) y) as [Hle|Hgt]; cbn [fst snd].
  - assert (0 <= x * rb / ra) by (apply Z.div_pos; nia). lia.
  - assert (0 <= y * ra / rb) by (apply Z.div_pos; nia).
    assert (y * ra / rb <= x); [|lia].
    apply Z.div_le_upper_bound; [lia|]. pose proof (Z.mul_div_le (x * rb) ra ltac:(lia)). nia.
Qed.

Record deposit_fits (x y mA mB : Z) : Prop := {
  df_x : 0 < x;
  df_y : 0 < y;
  df_ra : ra + x < 2 ^ 112;
  df_rb : rb + y < 2 ^ 112;
  df_minA : mA <= fst (fitted x y);
  df_minB : mB <= snd (fitted x y);
  df_shares : 0 < shares_of (fst (fitted x y)) (snd (fitted x y)) ra rb (lp_totalSupply c);
}.

Definition took (x y : Z) (r : liquidity_receipt) : Prop :=
  (lr_amountA r, lr_amountB r) = fitted x y
  /\ lr_liquidity r = shares_of (fst (fitted x y)) (snd (fitted x y)) ra rb (lp_totalSupply c).

Lemma deposit_defined nA nB x y mA mB to pay :
  deposit_fits x y mA mB -> (forall u v, pay u v = Ok tt) ->
  exists r, deposit e nA nB a b x y mA mB to pay ps = Ok r /\ took x y r.
Proof.
  intros [Hx Hy Wa Wb HA HB Hs] Hp. pose proof (live_words _ _ _ _ _ _ _ live) as [Ha Hb]. unfold deposit, ensure_pair.
  rewrite (lv_pair _ _ _ _ _ _ _ live). cbn [res_bind]. rewrite (live_read _ _ _ _ _ _ _ live). cbn [res_bind fst snd].
  rewrite fitted_amounts by (done || lia). cbn [res_bind]. rewrite Hp. cbn [res_bind].
  destruct (fitted_within x y) as [Fx Fy]; [done..|].
  destruct (pair_mint_defined (fst (fitted x y)) (snd (fitted x y)) to) as (r & Hr & E1 & E2 & E3); try done; try lia.
  exists r. split; [done|]. split; [|done]. rewrite E1, E2. by destruct (fitted x y).
Qed.

(** A deposit on a live pair, the tokens moved as asked. *)
Lemma addLiquidity_defined x y mA mB to :
  deposit_fits x y mA mB -> (forall t u, se_transferFrom e t u = Ok tt) ->
  exists r, _addLiquidity e a b x y mA mB to ps = Ok r /\ took x y r.
Proof.
  intros Hf Ht. rewrite addLiquidity_deposit. apply deposit_defined; [done|]. intros u v. by rewrite !Ht.
Qed.

Lemma addLiquidityETH_defined x y mA mB to :
  b = se_WETH e -> deposit_fits x y mA mB -> (forall t u, se_transferFrom e t u = Ok tt) ->
  (forall u v, le_sendETH e u v = Ok tt) ->
  exists r, _addLiquidityETH e y a x mA mB to ps = Ok r /\ took x y r.
Proof.
  intros Hb Hf Ht Hs.
  destruct (deposit_defined "TOKEN" "ETH" x y mA mB to (fun u _ => se_transferFrom e a u) Hf) as (r & Hr & Hk); [done|].
  exists r. split; [|done]. revert Hr. unfold deposit, _addLiquidityETH. rewrite <- Hb.
  destruct (ensure_pair _ _ ps); [|done]. cbn [res_bind]. destruct (_getReserves _ _ _); [|done]. cbn [res_bind].
  destruct (liquidity_amounts _ _ _ _ _ _ _ _) as [am|]; [|done]. cbn [res_bind].
  destruct (se_transferFrom e a _); [|done]. cbn [res_bind].
  destruct (pair_mint _ _ _ _ _ _ _); [|done]. cbn [res_bind]. intros [= ->].
  destruct (snd am <? y); [by rewrite Hs|done].
Qed.
End deposits.

(** ** Withdrawals *)

(** A burn of the shares the pair was sent, [x] and [y] being their part of the reserves. *)
Lemma burn_defined self sender to x y ts c :
  let T := lp_totalSupply c in let l := balanceOf self c in
  self <> zero_address -> can_sync ts c = true -> 0 < T < 2 ^ 112 -> 0 < l <= T ->
  0 <= c_reserve0 c < 2 ^ 112 -> 0 <= c_reserve1 c < 2 ^ 112 ->
  l * c_reserve0 c / T = x -> l * c_reserve1 c / T = y -> 0 < x -> 0 < y ->
  exists r, burn self sender to (c_reserve0 c) (c_reserve1 c) (c_reserve0 c - x) (c_reserve1 c - y) ts [] c = Ok r
    /\ lp_totalSupply (fst r) = T - l /\ c_reserve0 (fst r) = c_reserve0 c - x
    /\ c_reserve1 (fst r) = c_reserve1 c - y.
Proof.
  intros T l Hp Hsy HT Hl W0 W1 Ex Ey Px Py. unfold burn, udiv. fold l T.
  rewrite !(u256_ok (_ * _)) by (apply word_small; lia). cbn [res_bind].
  rewrite (proj2 (Z.eqb_neq T 0)) by lia. cbn [negb res_bind]. rewrite Ex, Ey.
  rewrite (proj2 (Z.ltb_lt 0 x)), (proj2 (Z.ltb_lt 0 y)) by done. cbn [andb].
  unfold after at 1, _burn. rewrite (proj2 (String.eqb_neq self _)) by done. cbn [negb].
  fold l T. rewrite !u256_ok by lia. cbn [res_bind fst snd].
  unfold after at 1. cbn [_transfers res_bind fst snd]. set (c2 := set_lp _ _ c).
  destruct (update_defined ts c2 (c_reserve0 c - x) (c_reserve1 c - y)) as [u Hu];
    [by unfold c2; rewrite can_sync_lp|lia|lia|].
  change (c_reserve0 c2) with (c_reserve0 c) in Hu. change (c_reserve1 c2) with (c_reserve1 c) in Hu.
  unfold after. rewrite Hu. cbn [res_bind fst snd emit]. apply update_Ok in Hu as (U0 & U1 & U2 & _).
  eexists. split; [done|]. cbn [fst]. by rewrite U0, U1, U2.
Qed.

Section withdrawals.
Variable e : liquidity_env.
Variables (a b : address) (ps : pairs) (c : PairContract.state) (ra rb : Z).
Hypothesis live : live_pair (se_timestamp e) a b ps c ra rb.

Definition part_of (reserve l : Z) : Z := l * reserve / lp_totalSupply c.

(** The sender has the shares and lets the router take them; the pair holds none of its
    own. *)
Record withdrawal_fits (l mA mB : Z) : Prop := {
  wf_l : 0 < l <= balanceOf (se_bytes e (le_sender e)) c;
  wf_allowed : l <= le_allowance e (pair_key a b);
  wf_sender : se_bytes e (le_sender e) <> zero_address;
  wf_pair : se_bytes e (le_pair_address e (pair_key a b)) <> zero_address;
  wf_other : se_bytes e (le_sender e) <> se_bytes e (le_pair_address e (pair_key a b));
  wf_none : balanceOf (se_bytes e (le_pair_address e (pair_key a b))) c = 0;
  wf_A : 0 < part_of ra l /\ mA <= part_of ra l;
  wf_B : 0 < part_of rb l /\ mB <= part_of rb l;
}.

Lemma transfer_defined from to l :
  from <> zero_address -> to <> zero_address -> from <> to -> 0 <= l <= balanceOf from c ->
  shares_ok c -> lp_totalSupply c < 2 ^ 112 ->
  exists r m, _transfer from to l c = Ok r /\ fst r = set_lp (lp_totalSupply c) m c
    /\ default 0 (m !! to) = balanceOf to c + l.
Proof.
  intros Hf Ht Hne Hl Hok HT. unfold _transfer.
  rewrite (proj2 (String.eqb_neq from _)), (proj2 (String.eqb_neq to _)) by done. cbn [negb].
  destruct Hok as [Hn Htot _]. pose proof (total_two _ _ _ Hn Hne) as H2.
  assert (0 <= default 0 (lp_balances c !! to)) as Hto.
  { destruct (lp_balances c !! to) as [v|] eqn:E; cbn; [exact (Hn _ _ E)|lia]. }
  unfold balanceOf in *. rewrite u256_ok by lia. cbn [res_bind set_lp lp_balances].
  rewrite lookup_insert_ne by done. rewrite u256_ok by lia. cbn [res_bind].
  eexists _, _. split; [done|]. split; [done|]. by rewrite lookup_insert_eq.
Qed.

Lemma removeLiquidity_defined l mA mB to :
  withdrawal_fits l mA mB ->
  exists r, _removeLiquidity e a b l mA mB to ps = Ok r
    /\ lr_amountA r = part_of ra l /\ lr_amountB r = part_of rb l /\ lr_liquidity r = l
    /\ exists c', lr_pairs r = <[pair_key a b := c']> ps /\ lp_totalSupply c' = lp_totalSupply c - l
       /\ (ra - part_of ra l, rb - part_of rb l)
          = if a <? b then (c_reserve0 c', c_reserve1 c') else (c_reserve1 c', c_reserve0 c').
Proof.
  intros [Hl Hal Hs Hp Hne Hz [PA HA] [PB HB]]. pose proof (live_words _ _ _ _ _ _ _ live) as [Wa Wb].
  pose proof live as [Hc (Hsh & W0 & W1) Hsy HT Hr _ _].
  set (self := se_bytes e (le_pair_address e (pair_key a b))) in *.
  set (sender := se_bytes e (le_sender e)) in *.
  destruct (transfer_defined sender self l) as (t & m & Ht & Et & Em); try done; [lia..|].
  unfold _removeLiquidity. rewrite Hc. unfold lp_transferFrom. fold self sender.
  rewrite (proj2 (Z.leb_le l _)) by done. rewrite orb_true_r, Ht. cbn [res_bind]. rewrite Et.
  set (c1 := set_lp (lp_totalSupply c) m c).
  assert (balanceOf self c1 = l) as Hb by (unfold balanceOf, c1; cbn [set_lp lp_balances]; lia).
  assert (forall r, 0 <= r < 2 ^ 112 -> u256 (l * r) = Ok (l * r)) as Hw.
  { intros r Hr'. apply u256_ok, word_small; [|done]. pose proof (total_nonneg _ (sh_nonneg _ Hsh)).
    assert (l <= lp_totalSupply c); [|lia]. destruct Hsh as [Hn <- _]. rewrite (total_delete _ sender).
    unfold balanceOf in Hl. pose proof (total_nonneg _ (map_Forall_delete _ _ sender Hn)). lia. }
  assert (l <= lp_totalSupply c) as HlT.
  { destruct Hsh as [Hn <- _]. rewrite (total_delete _ sender). unfold balanceOf in Hl.
    pose proof (total_nonneg _ (map_Forall_delete _ _ sender Hn)). lia. }
  assert (burn_amounts self c1 = Ok (part_of (c_reserve0 c) l, part_of (c_reserve1 c) l)) as ->.
  { unfold burn_amounts, udiv, part_of. rewrite Hb. change (c_reserve0 c1) with (c_reserve0 c).
    change (c_reserve1 c1) with (c_reserve1 c). change (lp_totalSupply c1) with (lp_totalSupply c).
    rewrite !Hw by done. cbn [res_bind]. by rewrite (proj2 (Z.eqb_neq _ 0)) by lia. }
  cbn [res_bind fst snd]. set (x := part_of (c_reserve0 c) l). set (y := part_of (c_reserve1 c) l).
  assert (0 < x /\ 0 < y) as [Px Py] by (unfold x, y; destruct (a <? b); injection Hr as -> ->; done).
  assert (0 <= x <= c_reserve0 c /\ 0 <= y <= c_reserve1 c) as [Lx Ly].
  { split; (split; [lia|]); unfold x, y, part_of; apply Z.div_le_upper_bound; nia. }
  destruct (burn_defined self (se_bytes e (se_router e)) (se_bytes e to) x y (se_timestamp e) c1)
    as (r & Hburn & E1 & E2 & E3); [done|by unfold c1; rewrite can_sync_lp|done|rewrite Hb; split; [lia|exact HlT]|done|done
                                    |by rewrite Hb|by rewrite Hb|done|done|].
  rewrite Hb in E1.
  rewrite Hburn. cbn [res_bind]. rewrite (live_sorted _ _ _ _ _ _ _ live). cbn [res_bind fst].
  rewrite (live_first _ _ _ _ _ _ _ live).
  unfold x, y in *. destruct (a <? b); injection Hr as -> ->;
    rewrite (proj2 (Z.leb_le mA _)), (proj2 (Z.leb_le mB _)) by done;
    (eexists; split; [done|]; cbn [lr_amountA lr_amountB lr_liquidity lr_pairs]; split_and!; try done;
     exists (fst r); split_and!; [done..|]; by rewrite E2, E3).
Qed.

Lemma removeLiquidityETH_defined l mA mB to :
  b = se_WETH e -> withdrawal_fits l mA mB -> (forall t u v, le_transfer e t u v = Ok tt) ->
  (forall u v, le_sendETH e u v = Ok tt) ->
  exists r, _removeLiquidityETH e a l mA mB to ps = Ok r
    /\ lr_amountA r = part_of ra l /\ lr_amountB r = part_of rb l /\ lr_liquidity r = l
    /\ exists c', lr_pairs r = <[pair_key a b := c']> ps /\ lp_totalSupply c' = lp_totalSupply c - l
       /\ (ra - part_of ra l, rb - part_of rb l)
          = if a <? b then (c_reserve0 c', c_reserve1 c') else (c_reserve1 c', c_reserve0 c').
Proof.
  intros Hb Hf Ht Hs. unfold _removeLiquidityETH. rewrite <- Hb.
  destruct (removeLiquidity_defined l mA mB (se_router e) Hf) as (r & -> & H). cbn [res_bind].
  rewrite Ht. cbn [res_bind]. rewrite Hs. cbn [res_bind]. by exists r.
Qed.
End withdrawals.
