(* ===== verification/StakingContract.v ===== *)
(** * The staking pools (contracts/contracts/FluxSwapStakingRewards.sol)

    One definition per function of the contract, over its storage [staking]; a call returns the
    new storage and what it did ([staking_event]) or reverts.  What other contracts answer is
    the call's environment: whether the tokens move, what the manager's [claimPoolRewards]
    pays, whether the reward source is paused or a treasury.  Addresses that reenter are left
    out, so the lock is never found taken. *)

From S2P Require Import Prelude JsString Subgraph RouterContract.
Import Subgraph.PairContract(u256, udiv).
Open Scope string_scope.
Open Scope Z_scope.
Open Scope flux_scope.

Definition PRECISION : Z := 10 ^ 18.

Record staking := {
  owner : address;
  rewardSource : address;
  rewardNotifier : address;
  rewardPerTokenStored : Z;
  totalStaked : Z;
  rewardReserve : Z;
  queuedRewards : Z;
  pendingUserRewards : Z;
  balanceOf : gmap address Z;
  userRewardPerTokenPaid : gmap address Z;
  rewards : gmap address Z;
}.

(** The immutable addresses, and the pool's own. *)
Record pool := { self : address; stakingToken : address; rewardsToken : address }.

(** The tokens a call moves ([Pulled] with transferFrom, [Sent] with transfer), what it takes
    from the manager, and the events of the source. *)
Inductive staking_event :=
| Pulled (token from : address) (amount : Z)
| Sent (token to : address) (amount : Z)
| Claimed (reward : Z)
| RewardAdded (reward accountedReward queuedRewards : Z)
| Staked (user : address) (amount : Z)
| Withdrawn (user : address) (amount : Z)
| RewardPaid (user : address) (reward : Z)
| UnallocatedRewardsRecovered (to : address) (amount : Z)
| OwnershipTransferred (previousOwner newOwner : address)
| RewardSourceUpdated (previousRewardSource newRewardSource : address)
| RewardNotifierUpdated (previousRewardNotifier newRewardNotifier : address)
| RewardConfigurationUpdated (previousRewardSource newRewardSource newRewardNotifier : address).

Record staking_env := {
  sender : address;
  moves : staking_event -> bool;
  claimPoolRewards : res string Z;
  source_paused : bool;
  isTreasury : bool;
}.

Definition read (m : gmap address Z) (a : address) : Z := default 0 (m !! a).

Definition set_config (o source notifier : address) (s : staking) : staking :=
  {| owner := o; rewardSource := source; rewardNotifier := notifier;
     rewardPerTokenStored := rewardPerTokenStored s; totalStaked := totalStaked s;
     rewardReserve := rewardReserve s; queuedRewards := queuedRewards s;
     pendingUserRewards := pendingUserRewards s; balanceOf := balanceOf s;
     userRewardPerTokenPaid := userRewardPerTokenPaid s; rewards := rewards s |}.

Definition set_rate (rate reserve queued : Z) (s : staking) : staking :=
  {| owner := owner s; rewardSource := rewardSource s; rewardNotifier := rewardNotifier s;
     rewardPerTokenStored := rate; totalStaked := totalStaked s; rewardReserve := reserve;
     queuedRewards := queued; pendingUserRewards := pendingUserRewards s; balanceOf := balanceOf s;
     userRewardPerTokenPaid := userRewardPerTokenPaid s; rewards := rewards s |}.

Definition set_stake (total : Z) (balances : gmap address Z) (s : staking) : staking :=
  {| owner := owner s; rewardSource := rewardSource s; rewardNotifier := rewardNotifier s;
     rewardPerTokenStored := rewardPerTokenStored s; totalStaked := total;
     rewardReserve := rewardReserve s; queuedRewards := queuedRewards s;
     pendingUserRewards := pendingUserRewards s; balanceOf := balances;
     userRewardPerTokenPaid := userRewardPerTokenPaid s; rewards := rewards s |}.

Definition set_rewards (reserve pending : Z) (paid rw : gmap address Z) (s : staking) : staking :=
  {| owner := owner s; rewardSource := rewardSource s; rewardNotifier := rewardNotifier s;
     rewardPerTokenStored := rewardPerTokenStored s; totalStaked := totalStaked s;
     rewardReserve := reserve; queuedRewards := queuedRewards s; pendingUserRewards := pending;
     balanceOf := balanceOf s; userRewardPerTokenPaid := paid; rewards := rw |}.

Definition set_queued (queued : Z) (s : staking) : staking :=
  set_rate (rewardPerTokenStored s) (rewardReserve s) queued s.
Definition set_reserve (reserve : Z) (s : staking) : staking :=
  set_rate (rewardPerTokenStored s) reserve (queuedRewards s) s.

(** What a step of a call returns: the storage and what it did, or a revert. *)
Definition effect : Type := res string (staking * list staking_event).
Definition then_ (m : effect) (k : staking -> effect) : effect :=
  let* r := m in let* r' := k (fst r) in Ok (fst r', (snd r ++ snd r')%list).
Definition emits (l : list staking_event) (s : staking) : effect := Ok (s, l).

Definition named (message : string) : string := "FluxSwapStakingRewards: " ++ message.

(** The constructor. *)
Definition deploy (pl : pool) (o source notifier : address) : res string staking :=
  guard* negb (o =? 0) or named "ZERO_ADDRESS" in
  guard* negb (stakingToken pl =? 0) or named "ZERO_ADDRESS" in
  guard* negb (rewardsToken pl =? 0) or named "ZERO_ADDRESS" in
  guard* negb (source =? 0) or named "ZERO_ADDRESS" in
  guard* negb (notifier =? 0) or named "ZERO_ADDRESS" in
  Ok {| owner := o; rewardSource := source; rewardNotifier := notifier; rewardPerTokenStored := 0;
        totalStaked := 0; rewardReserve := 0; queuedRewards := 0; pendingUserRewards := 0;
        balanceOf := ∅; userRewardPerTokenPaid := ∅; rewards := ∅ |}.

Section calls.
Variable pl : pool.
Variable e : staking_env.

Definition safeTransfer (token to : address) (amount : Z) (s : staking) : effect :=
  guard* moves e (Sent token to amount) or "TransferHelper: TRANSFER_FAILED" in emits [Sent token to amount] s.
Definition safeTransferFrom (token from : address) (amount : Z) (s : staking) : effect :=
  guard* moves e (Pulled token from amount) or "TransferHelper: TRANSFER_FROM_FAILED" in
  emits [Pulled token from amount] s.

(** ** Rewards *)

Definition _applyRewardAmount (reward : Z) (s : staking) : res string (Z * staking) :=
  let* distributable := u256 (reward + queuedRewards s) in
  if (distributable =? 0) || (totalStaked s =? 0) then Ok (0, set_queued distributable s) else
  let* scaled := u256 (distributable * PRECISION) in
  let* rewardPerTokenIncrement := udiv scaled (totalStaked s) in
  if rewardPerTokenIncrement =? 0 then Ok (0, set_queued distributable s) else
  let previous := rewardPerTokenStored s in
  let* updated := u256 (previous + rewardPerTokenIncrement) in
  let* after := u256 (updated * totalStaked s) in
  let* before := u256 (previous * totalStaked s) in
  let* accountedReward := u256 (after / PRECISION - before / PRECISION) in
  let* queued := u256 (distributable - accountedReward) in
  Ok (accountedReward, set_rate updated (rewardReserve s) queued s).

Definition _flushQueuedRewards (s : staking) : effect :=
  if (0 <? queuedRewards s) && (0 <? totalStaked s)
  then let* r := _applyRewardAmount 0 s in Ok (snd r, [])
  else Ok (s, []).

(** A reward that has arrived: it is reserved and distributed. *)
Definition add_reward (reward : Z) (s : staking) : effect :=
  let* reserve := u256 (rewardReserve s + reward) in
  let* r := _applyRewardAmount reward (set_reserve reserve s) in
  Ok (snd r, [RewardAdded reward (fst r) (queuedRewards (snd r))]).

Definition _syncRewards (s : staking) : effect :=
  if negb (rewardNotifier s =? self pl) then Ok (s, []) else
  let* reward := claimPoolRewards e in
  if reward =? 0 then Ok (s, []) else
  then_ (emits [Claimed reward] s) (add_reward reward).

Definition _updateReward (account : address) (s : staking) : res string staking :=
  if account =? 0 then Ok s else
  let* unpaid := u256 (rewardPerTokenStored s - read (userRewardPerTokenPaid s) account) in
  let* scaled := u256 (read (balanceOf s) account * unpaid) in
  let accruedReward := scaled / PRECISION in
  let* credited := if 0 <? accruedReward then u256 (read (rewards s) account + accruedReward)
                   else Ok (read (rewards s) account) in
  let* pending := if 0 <? accruedReward then u256 (pendingUserRewards s + accruedReward)
                  else Ok (pendingUserRewards s) in
  let s1 := set_rewards (rewardReserve s) pending
              (<[account := rewardPerTokenStored s]> (userRewardPerTokenPaid s))
              (if 0 <? accruedReward then <[account := credited]> (rewards s) else rewards s) s in
  let* unallocatedRewards := u256 (rewardReserve s - pending) in
  Ok (if unallocatedRewards <? queuedRewards s then set_queued unallocatedRewards s1 else s1).

Definition updates (account : address) (s : staking) : effect :=
  let* s' := _updateReward account s in Ok (s', []).

Definition earned (account : address) (s : staking) : res string Z :=
  let* unpaid := u256 (rewardPerTokenStored s - read (userRewardPerTokenPaid s) account) in
  let* scaled := u256 (read (balanceOf s) account * unpaid) in
  u256 (scaled / PRECISION + read (rewards s) account).

Definition _payReward (account : address) (s : staking) : effect :=
  let reward := read (rewards s) account in
  if 0 <? reward then
    let* reserve := u256 (rewardReserve s - reward) in
    let* pending := u256 (pendingUserRewards s - reward) in
    then_ (safeTransfer (rewardsToken pl) account reward
             (set_rewards reserve pending (userRewardPerTokenPaid s) (<[account := 0]> (rewards s)) s))
      (emits [RewardPaid account reward])
  else Ok (s, []).

(** ** Staking *)

Definition stake (amount : Z) (s : staking) : effect :=
  let previousTotalStaked := totalStaked s in
  then_ (_syncRewards s) (fun s =>
  then_ (_flushQueuedRewards s) (fun s =>
  then_ (updates (sender e) s) (fun s =>
  guard* 0 <? amount or named "ZERO_AMOUNT" in
  let* total := u256 (totalStaked s + amount) in
  let* balance := u256 (read (balanceOf s) (sender e) + amount) in
  then_ (safeTransferFrom (stakingToken pl) (sender e) amount
           (set_stake total (<[sender e := balance]> (balanceOf s)) s)) (fun s =>
  then_ (if previousTotalStaked =? 0 then _flushQueuedRewards s else Ok (s, []))
    (emits [Staked (sender e) amount]))))).

Definition withdraw (amount : Z) (s : staking) : effect :=
  then_ (_syncRewards s) (fun s =>
  then_ (_flushQueuedRewards s) (fun s =>
  then_ (updates (sender e) s) (fun s =>
  guard* 0 <? amount or named "ZERO_AMOUNT" in
  guard* amount <=? read (balanceOf s) (sender e) or named "INSUFFICIENT_BALANCE" in
  let* total := u256 (totalStaked s - amount) in
  let* balance := u256 (read (balanceOf s) (sender e) - amount) in
  then_ (safeTransfer (stakingToken pl) (sender e) amount
           (set_stake total (<[sender e := balance]> (balanceOf s)) s))
    (emits [Withdrawn (sender e) amount])))).

Definition getReward (s : staking) : effect :=
  then_ (_syncRewards s) (fun s => then_ (updates (sender e) s) (_payReward (sender e))).

Definition exit (s : staking) : effect :=
  then_ (_syncRewards s) (fun s =>
  then_ (_flushQueuedRewards s) (fun s =>
  then_ (updates (sender e) s) (fun s =>
  let stakeAmount := read (balanceOf s) (sender e) in
  then_ (if 0 <? stakeAmount then
           let* total := u256 (totalStaked s - stakeAmount) in
           then_ (safeTransfer (stakingToken pl) (sender e) stakeAmount
                    (set_stake total (<[sender e := 0]> (balanceOf s)) s))
             (emits [Withdrawn (sender e) stakeAmount])
         else Ok (s, []))
    (_payReward (sender e))))).

(** ** Distribution and administration *)

Definition notifyRewardAmount (reward : Z) (s : staking) : effect :=
  guard* sender e =? rewardNotifier s or named "FORBIDDEN" in
  guard* 0 <? reward or named "ZERO_AMOUNT" in
  guard* negb (source_paused e) or named "REWARD_SOURCE_PAUSED" in
  then_ (if isTreasury e
         then guard* moves e (Pulled (rewardsToken pl) (rewardSource s) reward) or "FluxSwapTreasury" in
              emits [Pulled (rewardsToken pl) (rewardSource s) reward] s
         else safeTransferFrom (rewardsToken pl) (rewardSource s) reward s)
    (add_reward reward).

Definition syncRewards (s : staking) : effect := _syncRewards s.

Definition recoverUnallocatedRewards (to : address) (s : staking) : effect :=
  guard* sender e =? owner s or named "FORBIDDEN" in
  guard* negb (to =? 0) or named "ZERO_ADDRESS" in
  then_ (_syncRewards s) (fun s =>
  guard* totalStaked s =? 0 or named "ACTIVE_STAKERS" in
  let* amount := u256 (rewardReserve s - pendingUserRewards s) in
  guard* 0 <? amount or named "NO_UNALLOCATED_REWARDS" in
  then_ (safeTransfer (rewardsToken pl) to amount
           (set_rate (rewardPerTokenStored s) (rewardReserve s - amount) 0 s))
    (emits [UnallocatedRewardsRecovered to amount])).

Definition transferOwnership (newOwner : address) (s : staking) : effect :=
  guard* sender e =? owner s or named "FORBIDDEN" in
  guard* negb (newOwner =? 0) or named "ZERO_ADDRESS" in
  Ok (set_config newOwner (rewardSource s) (rewardNotifier s) s, [OwnershipTransferred (owner s) newOwner]).

Definition setRewardSource (newRewardSource : address) (s : staking) : effect :=
  guard* sender e =? owner s or named "FORBIDDEN" in
  guard* negb (newRewardSource =? 0) or named "ZERO_ADDRESS" in
  guard* negb (rewardNotifier s =? self pl) or named "USE_REWARD_CONFIGURATION" in
  Ok (set_config (owner s) newRewardSource (rewardNotifier s) s,
      [RewardSourceUpdated (rewardSource s) newRewardSource]).

Definition setRewardNotifier (newRewardNotifier : address) (s : staking) : effect :=
  guard* sender e =? owner s or named "FORBIDDEN" in
  guard* negb (newRewardNotifier =? 0) or named "ZERO_ADDRESS" in
  guard* negb (rewardNotifier s =? self pl) or named "USE_REWARD_CONFIGURATION" in
  guard* negb (newRewardNotifier =? self pl) or named "USE_REWARD_CONFIGURATION" in
  Ok (set_config (owner s) (rewardSource s) newRewardNotifier s,
      [RewardNotifierUpdated (rewardNotifier s) newRewardNotifier]).

Definition setRewardConfiguration (newRewardSource newRewardNotifier : address) (s : staking) : effect :=
  guard* sender e =? owner s or named "FORBIDDEN" in
  guard* negb (newRewardSource =? 0) or named "ZERO_ADDRESS" in
  guard* negb (newRewardNotifier =? 0) or named "ZERO_ADDRESS" in
  Ok (set_config (owner s) newRewardSource newRewardNotifier s,
      [RewardSourceUpdated (rewardSource s) newRewardSource;
       RewardNotifierUpdated (rewardNotifier s) newRewardNotifier;
       RewardConfigurationUpdated (rewardSource s) newRewardSource newRewardNotifier]).
End calls.

Inductive staking_call :=
| Stake (amount : Z)
| Withdraw (amount : Z)
| GetReward
| Exit
| NotifyRewardAmount (reward : Z)
| SyncRewards
| RecoverUnallocatedRewards (to : address)
| TransferOwnership (newOwner : address)
| SetRewardSource (newRewardSource : address)
| SetRewardNotifier (newRewardNotifier : address)
| SetRewardConfiguration (newRewardSource newRewardNotifier : address).

Definition exec_staking (pl : pool) (e : staking_env) (k : staking_call) (s : staking) : effect :=
  match k with
  | Stake amount => stake pl e amount s
  | Withdraw amount => withdraw pl e amount s
  | GetReward => getReward pl e s
  | Exit => exit pl e s
  | NotifyRewardAmount reward => notifyRewardAmount pl e reward s
  | SyncRewards => syncRewards pl e s
  | RecoverUnallocatedRewards to => recoverUnallocatedRewards pl e to s
  | TransferOwnership a => transferOwnership e a s
  | SetRewardSource a => setRewardSource pl e a s
  | SetRewardNotifier a => setRewardNotifier pl e a s
  | SetRewardConfiguration a b => setRewardConfiguration e a b s
  end.

(** ** The books of a pool *)

Record books (s : staking) : Prop := {
  bk_balances : map_Forall (fun _ v => 0 <= v) (balanceOf s);
  bk_rewards : map_Forall (fun _ v => 0 <= v) (rewards s);
  bk_paid : forall a, 0 <= read (userRewardPerTokenPaid s) a <= rewardPerTokenStored s;
  bk_total : total (balanceOf s) = totalStaked s;
  bk_pending : total (rewards s) = pendingUserRewards s;
  bk_queued : 0 <= queuedRewards s;
  bk_reserve : 0 <= rewardReserve s;
}.

(** What an account has earned since it was last settled, times the precision. *)
Definition accrued (s : staking) (a : address) (balance : Z) : Z :=
  balance * (rewardPerTokenStored s - read (userRewardPerTokenPaid s) a).

(** What the pool owes its users, times the precision. *)
Definition claims (s : staking) : Z :=
  sum_of (accrued s) (balanceOf s) + PRECISION * pendingUserRewards s.

(** The rewards that are neither queued nor, but for [n] units, missing cover the claims. *)
Definition covered (n : Z) (s : staking) : Prop :=
  claims s <= (rewardReserve s - queuedRewards s + n) * PRECISION.

Definition sound (n : Z) (s : staking) : Prop := books s /\ covered n s.

Lemma precision_pos : 0 < PRECISION.
Proof. done. Qed.

Lemma read_nonneg m a : map_Forall (fun _ v => 0 <= v) m -> 0 <= read m a.
Proof. intros H. unfold read. destruct (m !! a) eqn:E; cbn; [exact (H _ _ E)|done]. Qed.

Lemma read_insert m a v b : read (<[a := v]> m) b = if decide (a = b) then v else read m b.
Proof. unfold read. rewrite lookup_insert. by case_decide. Qed.

Lemma books_total s : books s -> 0 <= totalStaked s.
Proof. intros H. rewrite <- (bk_total s H). apply total_nonneg, (bk_balances s H). Qed.

Lemma books_pending s : books s -> 0 <= pendingUserRewards s.
Proof. intros H. rewrite <- (bk_pending s H). apply total_nonneg, (bk_rewards s H). Qed.

Lemma covered_weaken n n' s : n <= n' -> covered n s -> covered n' s.
Proof. unfold covered. pose proof precision_pos. nia. Qed.

(** The claims when the rate has moved by [d]. *)
Lemma claims_rate d rate reserve queued s :
  rate = rewardPerTokenStored s + d -> claims (set_rate rate reserve queued s) = claims s + d * total (balanceOf s).
Proof.
  intros ->. unfold claims. cbn [set_rate balanceOf pendingUserRewards].
  enough (sum_of (accrued (set_rate (rewardPerTokenStored s + d) reserve queued s)) (balanceOf s)
          = sum_of (accrued s) (balanceOf s) + d * total (balanceOf s)) as -> by lia.
  unfold accrued. cbn [set_rate rewardPerTokenStored userRewardPerTokenPaid].
  induction (balanceOf s) as [|a b m Hm IH] using map_ind; [unfold total, sum_of; rewrite !map_fold_empty; lia|].
  rewrite !sum_of_fresh, total_fresh by done. lia.
Qed.

(** Dividing down loses less than a unit. *)
Lemma floor_bounds x : x / PRECISION * PRECISION <= x < (x / PRECISION + 1) * PRECISION.
Proof. pose proof (Z.div_mod x PRECISION ltac:(done)). pose proof (Z.mod_pos_bound x PRECISION precision_pos). lia. Qed.

(** ** Steps of a call *)

(** Every step of [m] that succeeds from a state with [P] ends in one with [Q]. *)
Definition spec (P : staking -> Prop) (m : staking -> effect) (Q : staking -> Prop) : Prop :=
  forall s r, P s -> m s = Ok r -> Q (fst r).

Lemma then_Ok m k r :
  then_ m k = Ok r -> exists r1 r2, m = Ok r1 /\ k (fst r1) = Ok r2 /\ r = (fst r2, (snd r1 ++ snd r2)%list).
Proof.
  unfold then_. intros H. apply res_bind_Ok in H as (r1 & H1 & H). apply res_bind_Ok in H as (r2 & H2 & H).
  injection H as <-. by exists r1, r2.
Qed.

Lemma spec_then P Q R m k : spec P m Q -> spec Q k R -> spec P (fun s => then_ (m s) k) R.
Proof.
  intros Hm Hk s r Hs H. apply then_Ok in H as (r1 & r2 & H1 & H2 & ->). exact (Hk _ _ (Hm _ _ Hs H1) H2).
Qed.

Lemma spec_emits P l : spec P (emits l) P.
Proof. intros s r Hs [= <-]. done. Qed.

Lemma spec_weaken (P P' Q Q' : staking -> Prop) m :
  spec P m Q -> (forall s, P' s -> P s) -> (forall s, Q s -> Q' s) -> spec P' m Q'.
Proof. intros H HP HQ s r Hs Hr. eauto. Qed.

(** The units a distribution may lose: none while nothing is staked. *)
Definition rounding (staked : Z) : Z := if staked =? 0 then 0 else 1.

Lemma rounding_range t : 0 <= rounding t <= 1.
Proof. unfold rounding. by destruct (t =? 0). Qed.

Definition sound_at (n t : Z) (s : staking) : Prop := sound n s /\ totalStaked s = t.

(** A reward that is in the reserve already is distributed. *)
Lemma apply_sound n reward s r :
  books s -> 0 <= reward -> claims s <= (rewardReserve s - reward - queuedRewards s + n) * PRECISION ->
  _applyRewardAmount reward s = Ok r -> sound (n + rounding (totalStaked s)) (snd r) /\ totalStaked (snd r) = totalStaked s.
Proof.
  intros Hb Hr Hc H. pose proof precision_pos as HP. unfold _applyRewardAmount in H. router_inv H.
  pose proof (rounding_range (totalStaked s)) as Hround.
  assert (Hkeep : sound (n + rounding (totalStaked s)) (set_queued (reward + queuedRewards s) s)).
  { destruct Hb. split; [constructor; cbn; try done; lia|].
    unfold covered, set_queued. rewrite (claims_rate 0) by lia. cbn [set_rate rewardReserve queuedRewards]. nia. }
  destruct (_ || _) eqn:E0; [by injection H as <-|]. router_inv H. bool_solve.
  unfold rounding in *. rewrite (proj2 (Z.eqb_neq (totalStaked s) 0)) in * by done.
  apply udiv_id in Hx as [_ ->].
  destruct (_ =? 0) eqn:E1 in H; [by injection H as <-|]. router_inv H. injection H as <-. bool_solve.
  cbn [snd]. split; [|done]. destruct Hb as [B1 B2 B3 B4 B5 B6 B7]. set (d := _ / totalStaked s) in *.
  assert (0 <= d) by (apply Z.div_pos; [lia|]; rewrite <- B4 in *; pose proof (total_nonneg _ B1); lia).
  split.
  - constructor; cbn; try done; try lia. intros a. specialize (B3 a). lia.
  - unfold covered in *. rewrite (claims_rate d) by done.
    cbn [set_rate rewardReserve queuedRewards balanceOf]. rewrite B4.
    set (new := (rewardPerTokenStored s + d) * totalStaked s) in *. set (old := rewardPerTokenStored s * totalStaked s) in *.
    pose proof (floor_bounds new). pose proof (floor_bounds old). assert (d * totalStaked s = new - old) by (subst new old; lia). nia.
Qed.

Lemma flush_sound n t : spec (sound_at n t) _flushQueuedRewards (sound_at (n + rounding t) t).
Proof.
  intros s r [[Hb Hc] <-] H. unfold _flushQueuedRewards in H. destruct (_ && _).
  - apply res_bind_Ok in H as (x & H & [= <-]). apply (apply_sound n 0 s x); [done|lia| |done].
    unfold covered in Hc. by rewrite Z.sub_0_r.
  - injection H as <-. split; [|done]. split; [done|].
    apply (covered_weaken n); [pose proof (rounding_range (totalStaked s)); lia|done].
Qed.

Lemma add_reward_sound n t reward :
  0 <= reward -> spec (sound_at n t) (add_reward reward) (sound_at (n + rounding t) t).
Proof.
  intros Hr s r [[Hb Hc] <-] H. unfold add_reward in H. router_inv H. injection H as <-. cbn [fst snd].
  destruct Hb. apply (apply_sound n reward _ _) in Hx; [done| |done|].
  - constructor; cbn; try done; lia.
  - unfold covered, set_reserve in *. rewrite (claims_rate 0) by (cbn; lia). cbn [set_rate rewardReserve queuedRewards]. nia.
Qed.

(** The rewards the manager pays are words. *)
Definition pays_words (e : staking_env) : Prop := forall reward, claimPoolRewards e = Ok reward -> 0 <= reward < 2 ^ 256.

Lemma sound_at_more n n' t s : n <= n' -> sound_at n t s -> sound_at n' t s.
Proof. intros Hn [[? ?] ?]. split; [|done]. split; [done|by apply (covered_weaken n)]. Qed.

Lemma sync_sound pl e n t : pays_words e -> spec (sound_at n t) (_syncRewards pl e) (sound_at (n + rounding t) t).
Proof.
  intros He s r Hs H. unfold _syncRewards in H.
  assert (Hstay : sound_at (n + rounding t) t s) by (apply (sound_at_more n); [pose proof (rounding_range t); lia|done]).
  destruct (negb _); [by injection H as <-|]. apply res_bind_Ok in H as (reward & Hp & H).
  destruct (reward =? 0); [by injection H as <-|]. apply He in Hp.
  revert Hs H. apply (spec_then (sound_at n t) (sound_at n t) (sound_at (n + rounding t) t) (emits [Claimed reward])).
  - apply spec_emits.
  - apply add_reward_sound. lia.
Qed.

(** The account has been settled at the current rate. *)
Definition settled (a : address) (s : staking) : Prop :=
  read (userRewardPerTokenPaid s) a = rewardPerTokenStored s.

(** Settling an account moves what it has accrued to its rewards. *)
Lemma settle_claims s a pending rw reserve :
  claims (set_rewards reserve pending (<[a := rewardPerTokenStored s]> (userRewardPerTokenPaid s)) rw s)
  = claims s - accrued s a (read (balanceOf s) a) + PRECISION * (pending - pendingUserRewards s).
Proof.
  unfold claims. cbn [set_rewards balanceOf pendingUserRewards].
  set (s' := set_rewards _ _ _ _ _).
  rewrite (sum_of_at (accrued s') (accrued s) (balanceOf s) a).
  - assert (Ha : forall o : option Z, from_option (accrued s' a) 0 o = 0).
    { intros [b|]; [|done]. unfold accrued, s'. cbn [set_rewards userRewardPerTokenPaid rewardPerTokenStored from_option].
      rewrite read_insert, decide_True by done. lia. }
    rewrite Ha. unfold read. destruct (balanceOf s !! a); cbn; unfold accrued; lia.
  - intros k v Hne _. unfold accrued, s'. cbn [set_rewards userRewardPerTokenPaid rewardPerTokenStored].
    by rewrite read_insert, decide_False by (by apply not_eq_sym).
Qed.

(** What settling an account adds to its rewards, and the state it leads to. *)
Definition credit (a : address) (s : staking) : Z := accrued s a (read (balanceOf s) a) / PRECISION.

Definition settle (a : address) (s : staking) : staking :=
  let pending := pendingUserRewards s + credit a s in
  let s1 := set_rewards (rewardReserve s) pending (<[a := rewardPerTokenStored s]> (userRewardPerTokenPaid s))
              (if 0 <? credit a s then <[a := read (rewards s) a + credit a s]> (rewards s) else rewards s) s in
  if rewardReserve s - pending <? queuedRewards s then set_queued (rewardReserve s - pending) s1 else s1.

Lemma credit_nonneg a s : books s -> 0 <= accrued s a (read (balanceOf s) a) /\ 0 <= credit a s.
Proof.
  intros Hb. assert (0 <= accrued s a (read (balanceOf s) a)) as H; [|split; [done|by apply Z.div_pos]].
  pose proof (read_nonneg _ a (bk_balances s Hb)). pose proof (bk_paid s Hb a).
  apply Z.mul_nonneg_nonneg; [done|lia].
Qed.

Lemma updateReward_Ok a s s' :
  a <> 0 -> books s -> _updateReward a s = Ok s' ->
  s' = settle a s /\ 0 <= rewardReserve s - (pendingUserRewards s + credit a s).
Proof.
  intros Ha Hb H. destruct (credit_nonneg a s Hb) as [_ Hcr]. unfold _updateReward in H.
  rewrite (proj2 (Z.eqb_neq a 0) Ha) in H. router_inv H.
  change (read (balanceOf s) a * (rewardPerTokenStored s - read (userRewardPerTokenPaid s) a) / PRECISION)
    with (credit a s) in *. unfold settle. injection H as <-.
  destruct (0 <? credit a s) eqn:E; bool_solve.
  - apply u256_id in Hx as [-> _]. apply u256_id in Hx0 as [-> _]. split; [done|lia].
  - injection Hx as <-. injection Hx0 as <-. replace (pendingUserRewards s + credit a s) with (pendingUserRewards s) by lia.
    split; [done|lia].
Qed.

Lemma settle_sound n a s :
  sound n s -> 0 <= rewardReserve s - (pendingUserRewards s + credit a s) -> sound n (settle a s) /\ settled a (settle a s).
Proof.
  intros [Hb Hc] Hres. destruct (credit_nonneg a s Hb) as [Ha0 Hcr]. pose proof (read_nonneg _ a (bk_rewards s Hb)) as Hra.
  unfold settle. set (paid := <[a := _]> _). set (rw := if 0 <? credit a s then _ else _). set (s1 := set_rewards _ _ paid rw s).
  assert (Hrw : map_Forall (fun _ v => 0 <= v) rw /\ total rw = pendingUserRewards s + credit a s).
  { destruct Hb as [_ B2 _ _ B5 _ _]. subst rw. destruct (0 <? credit a s) eqn:E; bool_solve; [|split; [done|lia]].
    split; [apply map_Forall_insert_2; [lia|done]|]. rewrite total_insert. unfold read. lia. }
  assert (Hset : read paid a = rewardPerTokenStored s) by (subst paid; by rewrite read_insert, decide_True).
  assert (Hb1 : books s1).
  { destruct Hb as [B1 B2 B3 B4 B5 B6 B7]. destruct Hrw. constructor; cbn; try done. intros b. subst paid.
    rewrite read_insert. specialize (B3 b). case_decide; lia. }
  assert (Hc1 : covered n s1).
  { unfold covered in *. subst s1 paid. rewrite settle_claims. cbn [set_rewards rewardReserve queuedRewards].
    pose proof (floor_bounds (accrued s a (read (balanceOf s) a))). unfold credit in *. nia. }
  destruct (_ <? queuedRewards s) eqn:E; bool_solve; [|done].
  split; [|done]. split; [destruct Hb1; by constructor; cbn; try done; lia|].
  unfold covered, set_queued in *. rewrite (claims_rate 0) by lia. cbn [set_rate rewardReserve queuedRewards] in *.
  pose proof precision_pos. subst s1. cbn [set_rewards rewardReserve queuedRewards] in *. nia.
Qed.

Lemma settle_total a s : totalStaked (settle a s) = totalStaked s.
Proof. unfold settle. by destruct (_ <? _). Qed.

Lemma updates_sound n t a : a <> 0 -> spec (sound_at n t) (updates a) (fun s => sound_at n t s /\ settled a s).
Proof.
  intros Ha s r [Hs <-] H. unfold updates in H. apply res_bind_Ok in H as (s' & H & [= <-]). cbn [fst].
  apply updateReward_Ok in H as [-> Hres]; [|done|apply Hs].
  destruct (settle_sound n a s Hs Hres). unfold sound_at. by rewrite settle_total.
Qed.

(** A settled account's stake is changed. *)
Lemma set_stake_sound n a v s :
  sound n s -> settled a s -> 0 <= v ->
  sound n (set_stake (totalStaked s + (v - read (balanceOf s) a)) (<[a := v]> (balanceOf s)) s).
Proof.
  intros [[B1 B2 B3 B4 B5 B6 B7] Hc] Ha Hv. set (s' := set_stake _ _ s). split.
  - constructor; subst s'; cbn [set_stake balanceOf rewards userRewardPerTokenPaid rewardPerTokenStored totalStaked
      pendingUserRewards queuedRewards rewardReserve]; try done.
    + by apply map_Forall_insert_2.
    + rewrite total_insert. unfold read. lia.
  - unfold covered in *. enough (claims s' = claims s) as -> by done.
    unfold claims, s'. cbn [set_stake balanceOf pendingUserRewards].
    change (accrued (set_stake _ _ s)) with (accrued s). rewrite sum_of_insert.
    assert (Hz : forall b, accrued s a b = 0) by (intros b; unfold accrued; rewrite Ha; lia).
    rewrite Hz. destruct (balanceOf s !! a); cbn; rewrite ?Hz; lia.
Qed.


Lemma transfer_spec (P : staking -> Prop) e token to amount : spec P (safeTransfer e token to amount) P.
Proof. intros s r Hs H. unfold safeTransfer in H. router_inv H. by injection H as <-. Qed.

Lemma transferFrom_spec (P : staking -> Prop) e token from amount : spec P (safeTransferFrom e token from amount) P.
Proof. intros s r Hs H. unfold safeTransferFrom in H. router_inv H. by injection H as <-. Qed.

Lemma sound_weaken n n' s : n <= n' -> sound n s -> sound n' s.
Proof. intros Hn [? ?]. split; [done|by apply (covered_weaken n)]. Qed.

(** A credited reward is paid. *)
Lemma payReward_sound pl e n a : spec (sound n) (_payReward pl e a) (sound n).
Proof.
  intros s r [[B1 B2 B3 B4 B5 B6 B7] Hc] H. unfold _payReward in H. cbv zeta in H.
  destruct (0 <? read (rewards s) a) eqn:E; [|injection H as <-; by split].
  router_inv H. bool_solve. revert H. refine (spec_then (sound n) (sound n) (sound n) _ _ _ _ _ r _).
  - apply transfer_spec.
  - apply spec_emits.
  - split.
    + constructor; cbn; try done; try lia.
      * by apply map_Forall_insert_2.
      * rewrite total_insert. unfold read in *. lia.
    + unfold covered, claims in *. cbn [set_rewards rewardReserve queuedRewards balanceOf pendingUserRewards].
      unfold accrued at 1. cbn [set_rewards rewardPerTokenStored userRewardPerTokenPaid]. fold (accrued s). unfold accrued in *. lia.
Qed.

Lemma sound_weaken_at n n' t s : n <= n' -> sound_at n t s -> sound n' s.
Proof. intros Hn [? _]. by apply (sound_weaken n). Qed.

Section calls.
Variables (pl : pool) (e : staking_env).
Hypothesis Hsender : sender e <> 0.
Hypothesis Hwords : pays_words e.

Lemma stake_sound n amount : spec (sound n) (stake pl e amount) (sound (n + 2)).
Proof.
  intros s0 r0 Hs0 H0. unfold stake in H0. cbv zeta in H0. set (t := totalStaked s0) in *.
  assert (H : sound_at n t s0) by done. clear Hs0. revert H H0.
  apply (spec_then (sound_at n t) (sound_at (n + rounding t) t)); [by apply sync_sound|].
  apply (spec_then _ (sound_at (n + rounding t + rounding t) t)); [by apply flush_sound|].
  apply (spec_then _ (fun s => sound_at (n + rounding t + rounding t) t s /\ settled (sender e) s));
    [by apply updates_sound|].
  intros s r [[Hs Ht] Hset] H. router_inv H. bool_solve.
  assert (H1 : sound_at (n + rounding t + rounding t) (t + amount)
     (set_stake (totalStaked s + amount) (<[sender e := read (balanceOf s) (sender e) + amount]> (balanceOf s)) s)).
  { split; [|cbn; lia].
    replace (totalStaked s + amount)
      with (totalStaked s + (read (balanceOf s) (sender e) + amount - read (balanceOf s) (sender e))) by lia.
    apply set_stake_sound; [done|done|]. pose proof (read_nonneg _ (sender e) (bk_balances s (proj1 Hs))). lia. }
  revert H1 H. apply (spec_then _ (sound_at (n + rounding t + rounding t) (t + amount))); [apply transferFrom_spec|].
  apply (spec_then _ (sound (n + 2))); [|apply spec_emits].
  intros s1 r1 H1 H. destruct (t =? 0) eqn:E.
  - unfold rounding in H1 at 1 2. rewrite E in H1. apply (flush_sound _ _ s1 r1 H1) in H.
    eapply sound_weaken_at; [|exact H]. pose proof (rounding_range (t + amount)). lia.
  - injection H as <-. eapply sound_weaken_at; [|exact H1]. pose proof (rounding_range t). lia.
Qed.

(** Synchronising, distributing what is queued and settling the caller: the start of a withdrawal. *)
Lemma opening_sound n (k : staking -> effect) (Q : staking -> Prop) :
  (forall t, spec (fun s => sound_at (n + 2) t s /\ settled (sender e) s) k Q) ->
  spec (sound n) (fun s => then_ (_syncRewards pl e s) (fun s => then_ (_flushQueuedRewards s) (fun s =>
    then_ (updates (sender e) s) k))) Q.
Proof.
  intros Hk s0 r0 Hs0. set (t := totalStaked s0).
  assert (H : sound_at n t s0) by done. clear Hs0. revert H.
  apply (spec_then (sound_at n t) (sound_at (n + rounding t) t)); [by apply sync_sound|].
  apply (spec_then _ (sound_at (n + rounding t + rounding t) t)); [by apply flush_sound|].
  apply (spec_then _ (fun s => sound_at (n + rounding t + rounding t) t s /\ settled (sender e) s));
    [by apply updates_sound|].
  refine (spec_weaken _ _ _ _ _ (Hk t) _ (fun _ H => H)). intros s [Hs ?]. split; [|done].
  eapply sound_at_more; [|exact Hs]. pose proof (rounding_range t). lia.
Qed.

(** Part of the caller's stake leaves. *)
Lemma unstake_sound n m x s :
  sound n s -> settled (sender e) s -> 0 <= read (balanceOf s) (sender e) - x ->
  m = <[sender e := read (balanceOf s) (sender e) - x]> (balanceOf s) -> sound n (set_stake (totalStaked s - x) m s).
Proof.
  intros Hs Hset Hx ->. replace (totalStaked s - x)
    with (totalStaked s + (read (balanceOf s) (sender e) - x - read (balanceOf s) (sender e))) by lia.
  by apply set_stake_sound.
Qed.

Lemma withdraw_sound n amount : spec (sound n) (withdraw pl e amount) (sound (n + 2)).
Proof.
  unfold withdraw. apply opening_sound. intros t s r [[Hs _] Hset] H. router_inv H. bool_solve.
  assert (H1 : sound (n + 2) (set_stake (totalStaked s - amount)
                  (<[sender e := read (balanceOf s) (sender e) - amount]> (balanceOf s)) s)) by (apply unstake_sound; lia || done).
  revert H1 H. apply (spec_then _ (sound (n + 2))); [apply transfer_spec|apply spec_emits].
Qed.

Lemma exit_sound n : spec (sound n) (exit pl e) (sound (n + 2)).
Proof.
  unfold exit. apply opening_sound. intros t s r [[Hs _] Hset] H. cbv zeta in H. revert Hs H.
  refine (fun Hs => spec_then (fun s' => s' = s) (sound (n + 2)) (sound (n + 2)) (fun s => if 0 <? read (balanceOf s) (sender e) then
     let* total := u256 (totalStaked s - read (balanceOf s) (sender e)) in
     then_ (safeTransfer e (stakingToken pl) (sender e) (read (balanceOf s) (sender e))
              (set_stake total (<[sender e := 0]> (balanceOf s)) s))
           (emits [Withdrawn (sender e) (read (balanceOf s) (sender e))]) else Ok (s, [])) _ _ (payReward_sound pl e _ _) s r eq_refl).
  intros s1 r1 -> H. destruct (0 <? _) eqn:E; [|by injection H as <-]. router_inv H. bool_solve.
  assert (H1 : sound (n + 2) (set_stake (totalStaked s - read (balanceOf s) (sender e)) (<[sender e := 0]> (balanceOf s)) s)).
  { apply unstake_sound; [done|done|lia|]. by rewrite Z.sub_diag. }
  revert H1 H. apply (spec_then _ (sound (n + 2))); [apply transfer_spec|apply spec_emits].
Qed.

Lemma getReward_sound n : spec (sound n) (getReward pl e) (sound (n + 2)).
Proof.
  intros s0 r0 Hs0. set (t := totalStaked s0).
  assert (H : sound_at n t s0) by done. clear Hs0. revert H. unfold getReward.
  apply (spec_then (sound_at n t) (sound_at (n + rounding t) t)); [by apply sync_sound|].
  apply (spec_then _ (sound (n + 2))); [|apply payReward_sound].
  apply (spec_weaken (sound_at (n + rounding t) t) _ (fun s => sound_at (n + rounding t) t s /\ settled (sender e) s));
    [by apply updates_sound|done|].
  intros s [Hs _]. eapply sound_weaken_at; [|exact Hs]. pose proof (rounding_range t). lia.
Qed.

Lemma sync_call_sound n : spec (sound n) (syncRewards pl e) (sound (n + 2)).
Proof.
  intros s r Hs H. pose proof (rounding_range (totalStaked s)).
  eapply sound_weaken_at; [|apply (sync_sound pl e n (totalStaked s) Hwords s r); done]. lia.
Qed.

Lemma notify_sound n reward : spec (sound n) (notifyRewardAmount pl e reward) (sound (n + 2)).
Proof.
  intros s r Hs H. unfold notifyRewardAmount in H. router_inv H. bool_solve.
  pose proof (rounding_range (totalStaked s)).
  assert (Hq : spec (sound_at n (totalStaked s)) (fun s => then_ (if isTreasury e
         then guard* moves e (Pulled (rewardsToken pl) (rewardSource s) reward) or "FluxSwapTreasury" in
              emits [Pulled (rewardsToken pl) (rewardSource s) reward] s
         else safeTransferFrom e (rewardsToken pl) (rewardSource s) reward s) (add_reward reward)) (sound (n + 2))).
  { apply (spec_then _ (sound_at n (totalStaked s))).
    - intros s1 r1 Hs1 H1. destruct (isTreasury e); [router_inv H1; by injection H1 as <-|].
      by apply (transferFrom_spec _ e (rewardsToken pl) (rewardSource s1) reward s1).
    - eapply spec_weaken; [apply (add_reward_sound n (totalStaked s) reward); lia|done|].
      intros s1 Hs1. eapply sound_weaken_at; [|exact Hs1]. lia. }
  by apply (Hq s r).
Qed.

Lemma recover_sound n to : 0 <= n -> spec (sound n) (recoverUnallocatedRewards pl e to) (sound (n + 2)).
Proof.
  intros Hn s0 r0 Hs0 H0. unfold recoverUnallocatedRewards in H0. router_inv H0. revert Hs0 H0.
  refine (spec_then (sound n) (sound (n + 2)) (sound (n + 2)) _ _ (sync_call_sound n) _ s0 r0).
  intros s r [[B1 B2 B3 B4 B5 B6 B7] Hc] H. router_inv H. bool_solve.
  assert (Hz : totalStaked s = 0) by done.
  assert (H1 : sound (n + 2) (set_rate (rewardPerTokenStored s) (rewardReserve s - (rewardReserve s - pendingUserRewards s)) 0 s)).
  { split.
    - constructor; cbn; try done. pose proof (total_nonneg _ B2). lia.
    - unfold covered. rewrite (claims_rate 0) by lia. cbn [set_rate rewardReserve queuedRewards].
      assert (sum_of (accrued s) (balanceOf s) = 0) as Hsum; [|unfold claims; rewrite Hsum; pose proof precision_pos; nia].
      rewrite (sum_of_ext (accrued s) (fun _ _ => 0)); [apply sum_of_zero|].
      intros a b Hb. enough (b = 0) as -> by done. specialize (B1 a b Hb) as Hb0.
      assert (balanceOf s !! a = Some b) as Hb' by done.
      rewrite (total_delete _ a), Hb' in B4. pose proof (total_nonneg _ (map_Forall_delete _ _ a B1)). cbn in *. lia. }
  revert H1 H. apply (spec_then _ (sound (n + 2))); [apply transfer_spec|apply spec_emits].
Qed.

Lemma config_sound n o src ntf s : sound n s -> sound n (set_config o src ntf s).
Proof. by intros [[] ?]. Qed.

Lemma admin_sound k s r :
  match k with
  | TransferOwnership _ | SetRewardSource _ | SetRewardNotifier _ | SetRewardConfiguration _ _ => True
  | _ => False
  end ->
  exec_staking pl e k s = Ok r -> exists o src ntf, fst r = set_config o src ntf s.
Proof.
  intros Hk H. destruct k; try done; cbn [exec_staking] in H;
    unfold transferOwnership, setRewardSource, setRewardNotifier, setRewardConfiguration in H; router_inv H;
    injection H as <-; by repeat eexists.
Qed.

Lemma call_sound n k : 0 <= n -> spec (sound n) (exec_staking pl e k) (sound (n + 2)).
Proof.
  intros Hn. destruct k;
    first [apply stake_sound|apply withdraw_sound|apply getReward_sound|apply exit_sound|apply notify_sound
          |apply sync_call_sound|by apply recover_sound|idtac];
    intros s r Hs H; apply admin_sound in H as (o & src & ntf & ->); try done;
    apply (sound_weaken n); (lia || by apply config_sound).
Qed.
End calls.

(** ** Histories *)

(** Who calls, and what the code relies on: the manager pays words, and tokens move out of the
    pool only when it sends them, since it approves nobody. *)
Record well_called (pl : pool) (e : staking_env) : Prop := {
  wc_sender : sender e <> 0;
  wc_words : pays_words e;
  wc_approves : forall token amount, moves e (Pulled token (self pl) amount) = false;
}.

(** The accepted calls of a pool since its deployment, newest first, and what they did. *)
Inductive staking_run (pl : pool) : staking -> list (staking_env * staking_call * list staking_event) -> Prop :=
| run_deploy o source notifier s : deploy pl o source notifier = Ok s -> staking_run pl s []
| run_call s l e k s' evs :
    staking_run pl s l -> well_called pl e ->
    exec_staking pl e k s = Ok (s', evs) -> staking_run pl s' ((e, k, evs) :: l).

Lemma deploy_sound pl o source notifier s : deploy pl o source notifier = Ok s -> sound 0 s.
Proof.
  unfold deploy. intros H. router_inv H. injection H as <-. split; [|by vm_compute].
  constructor; first [by apply map_Forall_empty|by vm_compute|by intros a; vm_compute].
Qed.

Lemma run_sound pl s l : staking_run pl s l -> sound (2 * Z.of_nat (length l)) s.
Proof.
  induction 1 as [o source notifier s H|s l e k s' evs _ IH [He Hw _] H]; [by eapply deploy_sound|].
  apply (call_sound pl e He Hw (2 * Z.of_nat (length l)) k) in H; [|lia|done]. cbn [fst length] in *.
  eapply sound_weaken; [|exact H]. lia.
Qed.

(** Everything the users could claim now: what is credited and what they have earned since. *)
Definition owed (s : staking) : Z :=
  sum_of (fun a b => accrued s a b / PRECISION) (balanceOf s) + pendingUserRewards s.

Lemma owed_claims s : owed s * PRECISION <= claims s.
Proof.
  unfold owed, claims. enough (sum_of (fun a b => accrued s a b / PRECISION) (balanceOf s) * PRECISION
                               <= sum_of (accrued s) (balanceOf s)) by lia.
  induction (balanceOf s) as [|a b m Hm IH] using map_ind; [unfold sum_of; rewrite !map_fold_empty; lia|].
  rewrite !sum_of_fresh by done. pose proof (floor_bounds (accrued s a b)). lia.
Qed.


(** ** Tokens *)

(** What a call adds to the tokens the pool holds. *)
Definition gain (pl : pool) (token : address) (ev : staking_event) : Z :=
  match ev with
  | Pulled tk from amount => if (tk =? token) && negb (from =? self pl) then amount else 0
  | Sent tk to amount => if (tk =? token) && negb (to =? self pl) then - amount else 0
  | Claimed reward => if rewardsToken pl =? token then reward else 0
  | _ => 0
  end.

Definition gains (pl : pool) (token : address) (l : list staking_event) : Z := foldr (fun ev n => gain pl token ev + n) 0 l.

Lemma gains_app pl token l1 l2 : gains pl token (l1 ++ l2) = gains pl token l1 + gains pl token l2.
Proof. induction l1 as [|ev l1 IH]; cbn [app gains foldr]; [done|]. unfold gains in *. cbn. lia. Qed.

(** What the pool holds a token for. *)
Definition liabilities (pl : pool) (token : address) (s : staking) : Z :=
  (if stakingToken pl =? token then totalStaked s else 0) + (if rewardsToken pl =? token then rewardReserve s else 0).

Section backed.
Variables (pl : pool) (e : staking_env) (token : address).
Hypothesis Happ : forall tk amount, moves e (Pulled tk (self pl) amount) = false.

Definition backs (m : staking -> effect) : Prop :=
  forall s r, m s = Ok r -> liabilities pl token (fst r) <= liabilities pl token s + gains pl token (snd r).

Lemma backs_then m k : backs m -> backs k -> backs (fun s => then_ (m s) k).
Proof.
  intros Hm Hk s r H. apply then_Ok in H as (r1 & r2 & H1 & H2 & ->). cbn [fst snd]. rewrite gains_app.
  apply Hm in H1. apply Hk in H2. lia.
Qed.

(** A step that leaves the stake and the reserve alone, and moves nothing. *)
Lemma backs_same m :
  (forall s r, m s = Ok r -> totalStaked (fst r) = totalStaked s /\ rewardReserve (fst r) = rewardReserve s
                             /\ gains pl token (snd r) = 0) -> backs m.
Proof. intros Hm s r H. apply Hm in H as (Ht & Hr & Hg). unfold liabilities. rewrite Ht, Hr, Hg. lia. Qed.

Lemma apply_same reward s r :
  _applyRewardAmount reward s = Ok r -> totalStaked (snd r) = totalStaked s /\ rewardReserve (snd r) = rewardReserve s.
Proof.
  unfold _applyRewardAmount. intros H. router_inv H. destruct (_ || _); [by injection H as <-|]. router_inv H.
  destruct (_ =? 0) in H; [by injection H as <-|]. router_inv H. by injection H as <-.
Qed.

Lemma flush_backs : backs _flushQueuedRewards.
Proof.
  apply backs_same. intros s r H. unfold _flushQueuedRewards in H. destruct (_ && _); [|by injection H as <-].
  apply res_bind_Ok in H as (x & Hx & [= <-]). by apply apply_same in Hx as [? ?].
Qed.

Lemma updates_backs a : backs (updates a).
Proof.
  apply backs_same. intros s r H. unfold updates in H. apply res_bind_Ok in H as (s' & H & [= <-]).
  unfold _updateReward in H. destruct (a =? 0); [by injection H as <-|]. router_inv H. injection H as <-.
  by destruct (_ <? queuedRewards s).
Qed.

Lemma emits_backs l : gains pl token l = 0 -> backs (emits l).
Proof. intros Hl. apply backs_same. by intros s r [= <-]. Qed.

(** A reward that arrives with the gain [g]. *)
Lemma add_reward_Ok reward s r :
  add_reward reward s = Ok r ->
  liabilities pl token (fst r) = liabilities pl token s + (if rewardsToken pl =? token then reward else 0)
  /\ gains pl token (snd r) = 0.
Proof.
  unfold add_reward. intros H. router_inv H. apply apply_same in Hx as [Ht Hr]. injection H as <-.
  split; [|done]. unfold liabilities. cbn [fst]. rewrite Ht, Hr. cbn. destruct (rewardsToken pl =? token); lia.
Qed.

Lemma sync_backs : backs (_syncRewards pl e).
Proof.
  intros s r H. unfold _syncRewards in H. destruct (negb _); [injection H as <-; cbn; lia|].
  apply res_bind_Ok in H as (reward & _ & H). destruct (reward =? 0); [injection H as <-; cbn; lia|].
  apply then_Ok in H as (r1 & r2 & [= <-] & H & ->). apply add_reward_Ok in H as [Hl Hg]. cbn [fst snd].
  rewrite gains_app, Hg, Hl. cbn. lia.
Qed.

(** A transfer out of what the liabilities have just been lowered by. *)
Lemma transfer_backs tk to amount l s s' r :
  gains pl token l = 0 -> 0 <= amount ->
  liabilities pl token s' <= liabilities pl token s - (if tk =? token then amount else 0) ->
  then_ (safeTransfer e tk to amount s') (emits l) = Ok r ->
  liabilities pl token (fst r) <= liabilities pl token s + gains pl token (snd r).
Proof.
  intros Hg Ha Hs H. apply then_Ok in H as (r1 & r2 & H1 & [= <-] & ->). unfold safeTransfer in H1. router_inv H1.
  injection H1 as <-. cbn [fst snd]. rewrite gains_app, Hg. cbn. destruct (tk =? token), (to =? self pl); cbn; lia.
Qed.

Lemma payReward_backs a : backs (_payReward pl e a).
Proof.
  intros s r H. unfold _payReward in H. cbv zeta in H. destruct (0 <? _) eqn:E; [|injection H as <-; cbn; lia].
  router_inv H. bool_solve. eapply transfer_backs; [| | |exact H]; [done|lia|].
  unfold liabilities. cbn. destruct (rewardsToken pl =? token); lia.
Qed.

Lemma opening_backs k :
  backs k -> backs (fun s => then_ (_syncRewards pl e s) (fun s => then_ (_flushQueuedRewards s) (fun s =>
    then_ (updates (sender e) s) k))).
Proof.
  intros Hk. apply backs_then; [apply sync_backs|]. apply backs_then; [apply flush_backs|].
  apply backs_then; [apply updates_backs|done].
Qed.

Lemma pulled_gain tk from amount s r :
  safeTransferFrom e tk from amount s = Ok r -> fst r = s /\ gains pl token (snd r) = if tk =? token then amount else 0.
Proof.
  unfold safeTransferFrom. intros H. router_inv H. injection H as <-. split; [done|]. cbn.
  pose proof (Happ tk amount).
  destruct (Z.eqb_spec from (self pl)) as [->|]; [congruence|]. destruct (tk =? token); cbn; lia.
Qed.

Lemma stake_backs amount : backs (stake pl e amount).
Proof.
  intros s0 r0 H0. unfold stake in H0. cbv zeta in H0. revert r0 H0. generalize (totalStaked s0) at 1. intros t r0.
  apply opening_backs. intros s r H. router_inv H. bool_solve.
  apply then_Ok in H as (r1 & r2 & H1 & H2 & ->). apply pulled_gain in H1 as [Hs Hg]. rewrite Hs in H2.
  apply then_Ok in H2 as (r3 & r4 & H3 & [= <-] & ->). cbn [fst snd]. rewrite !gains_app, Hg.
  assert (Hf : backs (fun s => if t =? 0 then _flushQueuedRewards s else Ok (s, []))).
  { destruct (t =? 0); [apply flush_backs|]. by apply (emits_backs []). }
  apply Hf in H3. unfold liabilities in *. cbn in *. destruct (stakingToken pl =? token); lia.
Qed.

Lemma withdraw_backs amount : backs (withdraw pl e amount).
Proof.
  unfold withdraw. apply opening_backs. intros s r H. router_inv H. bool_solve.
  eapply transfer_backs; [| | |exact H]; [done|lia|]. unfold liabilities. cbn. destruct (stakingToken pl =? token); lia.
Qed.

Lemma exit_backs : backs (exit pl e).
Proof.
  unfold exit. apply opening_backs. intros s r H. cbv zeta in H. revert r H.
  refine (backs_then (fun s => if 0 <? read (balanceOf s) (sender e) then
     let* total := u256 (totalStaked s - read (balanceOf s) (sender e)) in
     then_ (safeTransfer e (stakingToken pl) (sender e) (read (balanceOf s) (sender e))
              (set_stake total (<[sender e := 0]> (balanceOf s)) s))
           (emits [Withdrawn (sender e) (read (balanceOf s) (sender e))]) else Ok (s, [])) _ _ (payReward_backs _) s).
  clear s. intros s r H. destruct (0 <? _) eqn:E; [|injection H as <-; cbn; lia]. router_inv H. bool_solve.
  eapply transfer_backs; [| | |exact H]; [done|lia|]. unfold liabilities. cbn. destruct (stakingToken pl =? token); lia.
Qed.

Lemma notify_backs reward : backs (notifyRewardAmount pl e reward).
Proof.
  intros s r H. unfold notifyRewardAmount in H. router_inv H. bool_solve.
  apply then_Ok in H as (r1 & r2 & H1 & H2 & ->). cbn [fst snd]. rewrite gains_app.
  assert (Hp : fst r1 = s /\ gains pl token (snd r1) = if rewardsToken pl =? token then reward else 0).
  { apply (pulled_gain (rewardsToken pl) (rewardSource s) reward s r1). destruct (isTreasury e); [|done].
    unfold safeTransferFrom. by router_inv H1. }
  destruct Hp as [Hs Hg]. rewrite Hs in H2. apply add_reward_Ok in H2 as [Hl Hg2]. lia.
Qed.

Lemma recover_backs to : backs (recoverUnallocatedRewards pl e to).
Proof.
  intros s0 r0 H0. unfold recoverUnallocatedRewards in H0. router_inv H0. revert r0 H0.
  apply (backs_then _ _ sync_backs). intros s r H. router_inv H. bool_solve.
  eapply transfer_backs; [| | |exact H]; [done|lia|]. unfold liabilities. cbn. destruct (rewardsToken pl =? token); lia.
Qed.

Lemma call_backs k : backs (exec_staking pl e k).
Proof.
  destruct k; cbn [exec_staking];
    first [apply stake_backs|apply withdraw_backs|apply exit_backs|apply notify_backs|apply recover_backs|apply sync_backs|idtac].
  { apply backs_then; [apply sync_backs|]. apply backs_then; [apply updates_backs|apply payReward_backs]. }
  all: intros s r H; cbn [exec_staking] in H; unfold transferOwnership, setRewardSource, setRewardNotifier, setRewardConfiguration in H; router_inv H;
    injection H as <-; unfold liabilities; cbn; lia.
Qed.
End backed.

(** What the pool has gained of a token over a history. *)
Definition holdings (pl : pool) (token : address) (l : list (staking_env * staking_call * list staking_event)) : Z :=
  foldr (fun c n => gains pl token (snd c) + n) 0 l.

Lemma run_backed pl token s l : staking_run pl s l -> liabilities pl token s <= holdings pl token l.
Proof.
  induction 1 as [o source notifier s H|s l e k s' evs _ IH [_ _ Ha] H].
  - unfold deploy in H. router_inv H. injection H as <-. unfold liabilities. cbn. by do 2 destruct (_ =? token).
  - apply (call_backs pl e token Ha) in H. cbn [holdings foldr fst snd] in *. unfold holdings in *. lia.
Qed.

(** C7.  The books of a staking pool.  After any history of accepted calls the total stake is the
    sum of the stakes, which are not negative, and the pending rewards are the sum of the
    credited ones; the tokens taken in and not paid out cover the stakes and the reserve of
    rewards; and everything the users could claim is covered by the rewards that are reserved
    and not queued, but for at most two base units per call. *)
Theorem pool_covers_its_users pl s l :
  staking_run pl s l ->
  (totalStaked s = total (balanceOf s) /\ forall a, 0 <= read (balanceOf s) a)
  /\ (pendingUserRewards s = total (rewards s) /\ forall a, 0 <= read (rewards s) a)
  /\ (forall token, (if stakingToken pl =? token then totalStaked s else 0)
                    + (if rewardsToken pl =? token then rewardReserve s else 0) <= holdings pl token l)
  /\ 0 <= queuedRewards s
  /\ owed s <= rewardReserve s - queuedRewards s + 2 * Z.of_nat (length l).
Proof.
  intros H. pose proof (run_sound _ _ _ H) as [[B1 B2 B3 B4 B5 B6 B7] Hc].
  split_and!; try done; [intros a; by apply read_nonneg..| |].
  - intros token. by apply run_backed.
  - pose proof (owed_claims s). unfold covered in Hc. pose proof precision_pos. nia.
Qed.

(** ** Withdrawals and claims *)

(** The state a call settles its caller in: rewards are claimed and distributed. *)
Definition opened (pl : pool) (e : staking_env) (s : staking) : effect :=
  then_ (_syncRewards pl e s) _flushQueuedRewards.

(** The pool can credit the account what it has earned. *)
Definition solvent (a : address) (s : staking) : Prop := pendingUserRewards s + credit a s <= rewardReserve s.

Lemma then_assoc m k1 k2 : then_ (then_ m k1) k2 = then_ m (fun s => then_ (k1 s) k2).
Proof.
  unfold then_. destruct m as [[s l]|?]; cbn; [|done]. destruct (k1 s) as [[s1 l1]|?]; cbn; [|done].
  destruct (k2 s1) as [[s2 l2]|?]; cbn; [|done]. by rewrite app_assoc.
Qed.

Lemma settle_read a s :
  balanceOf (settle a s) = balanceOf s /\ totalStaked (settle a s) = totalStaked s
  /\ rewardReserve (settle a s) = rewardReserve s
  /\ pendingUserRewards (settle a s) = pendingUserRewards s + credit a s.
Proof. unfold settle. by destruct (_ <? _). Qed.

Lemma settle_rewards a s : books s -> read (rewards (settle a s)) a = read (rewards s) a + credit a s.
Proof.
  intros Hb. destruct (credit_nonneg a s Hb) as [_ H]. unfold settle.
  destruct (_ <? queuedRewards s); cbn; (destruct (0 <? credit a s) eqn:E; bool_solve;
    [by rewrite read_insert, decide_True|lia]).
Qed.

(** What the storage of a pool can hold. *)
Record words (s : staking) (a : address) : Prop := {
  wd_reserve : rewardReserve s < 2 ^ 256;
  wd_rate : rewardPerTokenStored s < 2 ^ 256;
  wd_stake : totalStaked s < 2 ^ 256;
  wd_accrued : accrued s a (read (balanceOf s) a) < 2 ^ 256;
}.

Lemma read_total m a : map_Forall (fun _ v => 0 <= v) m -> read m a <= total m.
Proof.
  intros H. rewrite (total_delete m a). unfold read. pose proof (total_nonneg _ (map_Forall_delete _ _ a H)). lia.
Qed.

Lemma updateReward_iff a s :
  a <> 0 -> books s -> words s a -> (exists s', _updateReward a s = Ok s') <-> solvent a s.
Proof.
  intros Ha Hb Hw. split.
  { intros (s' & H). apply updateReward_Ok in H as [_ H]; [|done..]. unfold solvent. lia. }
  intros Hs. unfold solvent in Hs. destruct (credit_nonneg a s Hb) as [Hacc Hcr]. destruct Hw as [W1 W2 W3 W4].
  pose proof (bk_paid s Hb a). pose proof (read_nonneg _ a (bk_rewards s Hb)).
  pose proof (read_total _ a (bk_rewards s Hb)) as Hle. rewrite (bk_pending s Hb) in Hle.
  unfold _updateReward. rewrite (proj2 (Z.eqb_neq a 0) Ha). rewrite u256_ok by lia. cbn [res_bind].
  change (read (balanceOf s) a * (rewardPerTokenStored s - read (userRewardPerTokenPaid s) a))
    with (accrued s a (read (balanceOf s) a)). rewrite u256_ok by lia. cbn [res_bind].
  change (accrued s a (read (balanceOf s) a) / PRECISION) with (credit a s).
  destruct (0 <? credit a s) eqn:E; bool_solve.
  - rewrite u256_ok by lia. cbn [res_bind]. rewrite u256_ok by lia. cbn [res_bind].
    rewrite u256_ok by lia. cbn [res_bind]. by eexists.
  - cbn [res_bind]. rewrite u256_ok by lia. cbn [res_bind]. by eexists.
Qed.

Lemma opened_books pl s l e s2 evs :
  staking_run pl s l -> well_called pl e -> opened pl e s = Ok (s2, evs) -> books s2.
Proof.
  intros Hr [_ Hw _] H. apply run_sound in Hr. set (n := 2 * _) in Hr. set (t := totalStaked s).
  assert (Hs : sound_at n t s) by done. apply (spec_then _ _ _ _ _ (sync_sound pl e n t Hw) (flush_sound _ t) s _ Hs) in H.
  apply H.
Qed.

(** A withdrawal.  Once the pool has taken in its rewards, a withdrawal is accepted exactly
    when the amount is positive, at most the stake and paid by the token, and the pool can
    credit the account what it has earned; it then sends the amount and lowers the stake of the
    account, and of no other, by it. *)
Theorem withdrawal_accepted_iff pl e amount s l s2 evs :
  staking_run pl s l -> well_called pl e -> opened pl e s = Ok (s2, evs) -> words s2 (sender e) ->
  (exists r, withdraw pl e amount s = Ok r)
  <-> 0 < amount <= read (balanceOf s2) (sender e) /\ solvent (sender e) s2
      /\ moves e (Sent (stakingToken pl) (sender e) amount) = true.
Proof.
  intros Hrun He Ho Hw. pose proof (opened_books pl s l e s2 evs Hrun He Ho) as Hb. destruct He as [Hse _ _]. unfold withdraw. rewrite <- then_assoc. fold (opened pl e s). rewrite Ho.
  unfold then_ at 1. cbn [res_bind fst snd].
  pose proof (updateReward_iff (sender e) s2 Hse Hb Hw) as Hu. destruct (settle_read (sender e) s2) as (R1 & R2 & R3 & R4).
  pose proof (read_total _ (sender e) (bk_balances s2 Hb)) as Hle. rewrite (bk_total s2 Hb) in Hle. destruct Hw as [W1 W2 W3 W4].
  split.
  - intros (r & H). apply res_bind_Ok in H as (r1 & H & _). apply then_Ok in H as (r2 & r3 & H2 & H3 & _).
    unfold updates in H2. apply res_bind_Ok in H2 as (s' & H2 & [= <-]). cbn [fst] in H3.
    assert (Hsol : solvent (sender e) s2) by (apply Hu; by exists s').
    apply updateReward_Ok in H2 as [-> _]; [|done..]. rewrite R1, R2 in H3. router_inv H3. bool_solve.
    apply then_Ok in H3 as (r4 & r5 & H4 & _ & _). unfold safeTransfer in H4. router_inv H4. by split_and!.
  - intros ([Hp Hx] & Hsol & Hm). apply Hu in Hsol as (s' & H). unfold updates. rewrite H. cbn [res_bind].
    apply updateReward_Ok in H as [-> _]; [|done..]. unfold then_ at 1. cbn [res_bind fst snd].
    rewrite R1, R2, (proj2 (Z.ltb_lt 0 amount) Hp), (proj2 (Z.leb_le _ _) Hx), !u256_ok by lia. cbn [res_bind].
    unfold safeTransfer. rewrite Hm. by eexists.
Qed.

(** What a call sends of a token to an address. *)
Definition received (token to : address) (l : list staking_event) : Z :=
  foldr (fun ev n => match ev with
                     | Sent tk a x => if (tk =? token) && (a =? to) then x + n else n
                     | _ => n
                     end) 0 l.

Lemma received_app token to l1 l2 : received token to (l1 ++ l2) = received token to l1 + received token to l2.
Proof.
  induction l1 as [|ev l1 IH]; cbn [app received foldr]; [done|]. unfold received in *. destruct ev; try done.
  destruct (_ && _); lia.
Qed.

(** Taking in rewards sends nothing, leaves the accounts alone and never lowers the rate. *)
Lemma apply_rate reward s r :
  books s -> 0 <= reward -> _applyRewardAmount reward s = Ok r ->
  balanceOf (snd r) = balanceOf s /\ rewards (snd r) = rewards s
  /\ userRewardPerTokenPaid (snd r) = userRewardPerTokenPaid s /\ rewardPerTokenStored s <= rewardPerTokenStored (snd r).
Proof.
  intros Hb Hr H. unfold _applyRewardAmount in H. router_inv H. destruct (_ || _) eqn:E; [by injection H as <-|].
  router_inv H. apply udiv_id in Hx as [_ ->]. destruct (_ =? 0) in H; [by injection H as <-|]. router_inv H.
  injection H as <-. split_and!; try done. cbn. pose proof (books_total s Hb). bool_solve.
  enough (0 <= (reward + queuedRewards s) * PRECISION / totalStaked s) by lia. apply Z.div_pos; lia.
Qed.

Lemma sync_rate pl e s r :
  books s -> pays_words e -> _syncRewards pl e s = Ok r ->
  balanceOf (fst r) = balanceOf s /\ rewards (fst r) = rewards s
  /\ userRewardPerTokenPaid (fst r) = userRewardPerTokenPaid s /\ rewardPerTokenStored s <= rewardPerTokenStored (fst r)
  /\ (forall token to, received token to (snd r) = 0).
Proof.
  intros Hb Hw H. unfold _syncRewards in H. destruct (negb _); [by injection H as <-|].
  apply res_bind_Ok in H as (reward & Hp & H). destruct (reward =? 0); [by injection H as <-|]. apply Hw in Hp.
  apply then_Ok in H as (r1 & r2 & [= <-] & H & ->). cbn [fst snd] in *. unfold add_reward in H. router_inv H.
  apply apply_rate in Hx; [|destruct Hb; constructor; cbn; try done; lia|lia]. injection H as <-.
  destruct Hx as (? & ? & ? & ?). by split_and!.
Qed.

Lemma earned_Ok a s v :
  books s -> earned a s = Ok v -> v = credit a s + read (rewards s) a.
Proof. intros Hb H. unfold earned in H. router_inv H. apply u256_id in H as [-> _]. done. Qed.

Lemma settle_rewards_nonneg a s : books s -> map_Forall (fun _ v => 0 <= v) (rewards (settle a s)).
Proof.
  intros Hb. destruct (credit_nonneg a s Hb) as [_ H]. pose proof (read_nonneg _ a (bk_rewards s Hb)).
  unfold settle. destruct (_ <? queuedRewards s); cbn; (destruct (0 <? credit a s);
    [apply map_Forall_insert_2; [lia|]|]; apply (bk_rewards s Hb)).
Qed.

(** What an account has earned grows with the rate. *)
Lemma credit_grows a s s1 :
  books s -> balanceOf s1 = balanceOf s -> userRewardPerTokenPaid s1 = userRewardPerTokenPaid s ->
  rewardPerTokenStored s <= rewardPerTokenStored s1 -> credit a s <= credit a s1.
Proof.
  intros Hb E1 E2 E3. unfold credit, accrued. rewrite E1, E2. pose proof (read_nonneg _ a (bk_balances s Hb)).
  apply Z.div_le_mono; [done|]. nia.
Qed.

(** A settled account without credited rewards has earned nothing. *)
Lemma earned_none a s : settled a s -> read (rewards s) a = 0 -> earned a s = Ok 0.
Proof.
  intros Hs Hr. unfold earned. rewrite Hs, Hr, Z.sub_diag, (u256_ok 0) by lia.
  cbn [res_bind]. by rewrite Z.mul_0_r, (u256_ok 0) by lia.
Qed.

Lemma payReward_Ok pl e a s r :
  map_Forall (fun _ v => 0 <= v) (rewards s) -> _payReward pl e a s = Ok r ->
  received (rewardsToken pl) a (snd r) = read (rewards s) a
  /\ read (rewards (fst r)) a = 0 /\ (settled a s -> settled a (fst r)).
Proof.
  intros Hb H. pose proof (read_nonneg _ a Hb) as Hn. unfold _payReward in H. cbv zeta in H.
  destruct (0 <? _) eqn:E; bool_solve; [|injection H as <-; split_and!; [cbn; lia|cbn; lia|done]].
  router_inv H. apply then_Ok in H as (r1 & r2 & H & [= <-] & ->). unfold safeTransfer in H. router_inv H. injection H as <-.
  cbn. rewrite !Z.eqb_refl. cbn. split_and!; [lia|by rewrite read_insert, decide_True|done].
Qed.

Lemma settle_settled a s : settled a (settle a s).
Proof.
  unfold settled, settle. destruct (_ <? _); cbn; by rewrite read_insert, decide_True.
Qed.

Lemma claim_spec pl e n s s' evs :
  sound n s -> well_called pl e -> getReward pl e s = Ok (s', evs) ->
  exists s1 evs1, _syncRewards pl e s = Ok (s1, evs1)
    /\ received (rewardsToken pl) (sender e) evs = credit (sender e) s1 + read (rewards s1) (sender e)
    /\ credit (sender e) s + read (rewards s) (sender e) <= received (rewardsToken pl) (sender e) evs
    /\ earned (sender e) s' = Ok 0.
Proof.
  intros Hs [Hse Hw _] H. pose proof Hs as [Hb _].
  unfold getReward in H. apply then_Ok in H as ([s1 evs1] & [s3 l3] & H1 & H2 & [= -> ->]). exists s1, evs1. split; [done|].
  assert (Hb1 : books s1) by (apply (sync_sound pl e _ (totalStaked s) Hw s _ (conj Hs eq_refl)) in H1; apply H1).
  apply sync_rate in H1 as (E1 & E2 & E3 & E4 & E5); [|done..]. cbn [fst snd] in *.
  apply then_Ok in H2 as (r1 & r2 & H2 & H3 & [= -> ->]). unfold updates in H2.
  apply res_bind_Ok in H2 as (s2 & H2 & [= <-]). cbn [fst snd app] in *.
  apply updateReward_Ok in H2 as [-> Hsol]; [|done..].
  apply payReward_Ok in H3 as (P1 & P2 & P3); [|by apply settle_rewards_nonneg].
  rewrite settle_rewards in P1 by done. rewrite received_app, E5, P1.
  pose proof (credit_grows (sender e) s s1 Hb E1 E3 E4). rewrite E2 in *.
  split_and!; [lia|lia|]. apply earned_none; [apply P3, settle_settled|done].
Qed.

(** A claim pays what the account has earned.  If the account is shown [v] as earned and then
    claims, whatever rewards arrive with the call, an accepted claim sends it at least [v] of
    the rewards token, exactly what it has earned once those rewards are in, and nothing is
    left to claim. *)
Theorem claim_pays_earned pl e s l v s' evs :
  staking_run pl s l -> well_called pl e -> earned (sender e) s = Ok v ->
  getReward pl e s = Ok (s', evs) ->
  exists s1 evs1, _syncRewards pl e s = Ok (s1, evs1)
    /\ received (rewardsToken pl) (sender e) evs = credit (sender e) s1 + read (rewards s1) (sender e)
    /\ v <= received (rewardsToken pl) (sender e) evs
    /\ earned (sender e) s' = Ok 0.
Proof.
  intros Hrun He Hv H. pose proof (run_sound pl s l Hrun) as Hs. apply earned_Ok in Hv as ->; [|apply Hs].
  exact (claim_spec pl e _ s s' evs Hs He H).
Qed.

(** ** Histories that are run *)

Fixpoint run_calls (pl : pool) (calls : list (staking_env * staking_call)) (s : staking)
    (l : list (staking_env * staking_call * list staking_event))
  : res string (staking * list (staking_env * staking_call * list staking_event)) :=
  match calls with
  | [] => Ok (s, l)
  | (e, k) :: rest => let* r := exec_staking pl e k s in run_calls pl rest (fst r) ((e, k, snd r) :: l)
  end.

Lemma run_calls_run pl calls s l r :
  staking_run pl s l -> Forall (fun c => well_called pl (fst c)) calls ->
  run_calls pl calls s l = Ok r -> staking_run pl (fst r) (snd r).
Proof.
  revert s l. induction calls as [|[e k] calls IH]; cbn [run_calls]; intros s l Hs Hw H; [by injection H as <-|].
  apply Forall_cons in Hw as [He Hw]. apply res_bind_Ok in H as ([s' evs] & Hx & H).
  eapply IH; [|done|exact H]. cbn [fst]. by apply (run_call pl s l e k s' evs).
Qed.

Definition sample_pool : pool := {| self := 1; stakingToken := 2; rewardsToken := 3 |}.
Definition sample_manager : address := 4.

(** Every token moves except out of the pool's own hands; the manager pays [reward]. *)
Definition sample_staking_env (user : address) (reward : Z) : staking_env :=
  {| sender := user;
     moves := fun ev => match ev with Pulled _ from _ => negb (from =? 1) | _ => true end;
     claimPoolRewards := Ok reward; source_paused := false; isTreasury := false |}.

Lemma sample_env_called user reward :
  user <> 0 -> 0 <= reward < 2 ^ 256 -> well_called sample_pool (sample_staking_env user reward).
Proof. intros Hu Hr. by constructor; [|intros r [= <-]|]. Qed.

Definition tokens (n : Z) : Z := n * 10 ^ 17.

(** Four calls of two stakers, each with a reward of at most two base units. *)
Definition dust_calls : list (staking_env * staking_call) :=
  [(sample_staking_env 11 1, Stake (tokens 3)); (sample_staking_env 10 0, Stake (tokens 2));
   (sample_staking_env 11 2, Withdraw (tokens 2)); (sample_staking_env 12 1, SyncRewards)].

Definition sample_deployed : staking :=
  {| owner := 5; rewardSource := 4; rewardNotifier := 1; rewardPerTokenStored := 0; totalStaked := 0;
     rewardReserve := 0; queuedRewards := 0; pendingUserRewards := 0; balanceOf := ∅;
     userRewardPerTokenPaid := ∅; rewards := ∅ |}.
Definition after_calls (calls : list (staking_env * staking_call)) : staking :=
  match run_calls sample_pool calls sample_deployed [] with Ok r => fst r | Throw _ => sample_deployed end.
Definition log_of (calls : list (staking_env * staking_call)) : list (staking_env * staking_call * list staking_event) :=
  match run_calls sample_pool calls sample_deployed [] with Ok r => snd r | Throw _ => [] end.

Lemma sample_run calls :
  Forall (fun c => well_called sample_pool (fst c)) calls -> is_ok (run_calls sample_pool calls sample_deployed []) = true ->
  staking_run sample_pool (after_calls calls) (log_of calls).
Proof.
  intros Hw H. unfold after_calls, log_of. destruct (run_calls _ _ _ _) as [r|] eqn:E; [|done].
  eapply run_calls_run; [|exact Hw|exact E]. by apply (run_deploy _ 5 sample_manager 1).
Qed.

Lemma dust_called : Forall (fun c => well_called sample_pool (fst c)) dust_calls.
Proof. repeat (apply Forall_cons; split; [apply sample_env_called; [done|unfold tokens; lia]|]). by apply Forall_nil. Qed.

(** ** A stake that is locked *)

(** The account's stake cannot be settled: with what it has earned since it was last settled,
    more is credited than the reserve holds. *)
Definition stuck (a : address) (s : staking) : Prop :=
  0 < read (balanceOf s) a /\ rewardReserve s < pendingUserRewards s + credit a s.

(** The calls of an account for its own position. *)
Definition position_call (k : staking_call) : bool :=
  match k with Stake _ | Withdraw _ | GetReward | Exit => true | _ => false end.

(** A call that brings no reward. *)
Definition brings_none (e : staking_env) (k : staking_call) : Prop :=
  claimPoolRewards e = Ok 0 /\ forall reward, k <> NotifyRewardAmount reward.

(** Accepted calls, of any accounts, that bring no reward. *)
Inductive quiet_run (pl : pool) (s : staking) : staking -> Prop :=
| quiet_none : quiet_run pl s s
| quiet_call s1 e k s2 evs :
    quiet_run pl s s1 -> well_called pl e -> brings_none e k ->
    exec_staking pl e k s1 = Ok (s2, evs) -> quiet_run pl s s2.

(** The reserve that is not credited has not grown, and the account's position is as it was. *)
Record no_better (a : address) (s s' : staking) : Prop := {
  nb_free : rewardReserve s' - pendingUserRewards s' <= rewardReserve s - pendingUserRewards s;
  nb_rate : rewardPerTokenStored s <= rewardPerTokenStored s';
  nb_balance : read (balanceOf s') a = read (balanceOf s) a;
  nb_paid : read (userRewardPerTokenPaid s') a = read (userRewardPerTokenPaid s) a;
}.

Lemma no_better_refl a s : no_better a s s.
Proof. by constructor. Qed.

Lemma no_better_trans a s s1 s2 : no_better a s s1 -> no_better a s1 s2 -> no_better a s s2.
Proof. intros [] []. constructor; [lia|lia|congruence|congruence]. Qed.

Lemma stuck_no_better a s s' : stuck a s -> no_better a s s' -> stuck a s'.
Proof.
  intros [Hb Hl] [Hf Hr Eb Ep]. unfold stuck, credit, accrued in *. rewrite Eb, Ep. split; [done|].
  enough (read (balanceOf s) a * (rewardPerTokenStored s - read (userRewardPerTokenPaid s) a) / PRECISION
          <= read (balanceOf s) a * (rewardPerTokenStored s' - read (userRewardPerTokenPaid s) a) / PRECISION) by lia.
  apply Z.div_le_mono; [done|]. nia.
Qed.

Section quiet.
Variables (pl : pool) (e : staking_env).
Hypothesis Hnone : claimPoolRewards e = Ok 0.

Lemma sync_none s : _syncRewards pl e s = Ok (s, []).
Proof using Hnone. unfold _syncRewards. rewrite Hnone. by destruct (negb _). Qed.

Lemma flush_no_better a s s' evs : _flushQueuedRewards s = Ok (s', evs) -> no_better a s s'.
Proof.
  unfold _flushQueuedRewards. destruct (_ && _) eqn:E; [|intros [= <- _]; apply no_better_refl].
  unfold _applyRewardAmount. intros H. router_inv H. destruct x as [n s1]. injection H as <- _. cbn [snd].
  router_inv Hx. bool_solve.
  destruct ((_ =? 0) || _) eqn:E0; [injection Hx as _ <-; by constructor|]. router_inv Hx.
  apply udiv_id in Hx0 as [_ ->].
  destruct (_ =? 0) eqn:E1 in Hx; [injection Hx as _ <-; by constructor|]. router_inv Hx. injection Hx as _ <-.
  constructor; cbn; [lia| |done|done].
  match goal with |- _ <= _ + ?d => assert (0 <= d) by (apply Z.div_pos; lia) end. lia.
Qed.

(** Settling another account. *)
Lemma updates_no_better a b s s' evs : a <> b -> updates b s = Ok (s', evs) -> no_better a s s'.
Proof.
  intros Hab H. unfold updates in H. router_inv H. injection H as <- _. unfold _updateReward in Hx.
  destruct (b =? 0); [injection Hx as <-; apply no_better_refl|]. router_inv Hx.
  assert (pendingUserRewards s <= x1) as Hp.
  { destruct (0 <? _) eqn:E in Hx1; [apply u256_id in Hx1 as [-> _]|injection Hx1 as <-]; bool_solve; lia. }
  injection Hx as <-. destruct (_ <? queuedRewards s); (constructor; cbn; [lia|done|done|]);
    by rewrite read_insert, decide_False by done.
Qed.

(** A call of which every step leaves the account no better. *)
Definition stays (a : address) (m : staking -> effect) : Prop := forall s s' evs, m s = Ok (s', evs) -> no_better a s s'.

Lemma stays_then a m k : stays a m -> stays a k -> stays a (fun s => then_ (m s) k).
Proof.
  intros Hm Hk s s' evs H. apply then_Ok in H as ([s1 e1] & [s2 e2] & H1 & H2 & [= -> ->]). eapply no_better_trans; eauto.
Qed.

Lemma stays_emits a l : stays a (emits l).
Proof. intros s s' evs [= <- _]. apply no_better_refl. Qed.

Lemma stays_sync a : stays a (_syncRewards pl e).
Proof using Hnone. intros s s' evs H. rewrite sync_none in H. injection H as <- _. apply no_better_refl. Qed.

Lemma stays_transfer a token to amount : stays a (safeTransfer e token to amount).
Proof. intros s s' evs H. unfold safeTransfer in H. router_inv H. injection H as <- _. apply no_better_refl. Qed.

Lemma stays_transferFrom a token from amount : stays a (safeTransferFrom e token from amount).
Proof. intros s s' evs H. unfold safeTransferFrom in H. router_inv H. injection H as <- _. apply no_better_refl. Qed.

(** A change of another account's stake. *)
Lemma stake_no_better a b v t s : a <> b -> no_better a s (set_stake t (<[b := v]> (balanceOf s)) s).
Proof. intros Hab. constructor; cbn; [lia|done| |done]. by rewrite read_insert, decide_False by done. Qed.

Lemma stays_pay a b : stays a (_payReward pl e b).
Proof.
  intros s s' evs H. unfold _payReward in H. cbv zeta in H. destruct (0 <? _); [|injection H as <- _; apply no_better_refl].
  router_inv H. eapply no_better_trans; [|exact (stays_then a _ _ (stays_transfer a _ _ _) (stays_emits a _) _ _ _ H)].
  constructor; cbn; [lia|done|done|done].
Qed.

Lemma stays_updates a b : a <> b -> stays a (updates b).
Proof. intros Hab s s' evs. by apply updates_no_better. Qed.

Lemma stays_flush a : stays a _flushQueuedRewards.
Proof. intros s s' evs. apply flush_no_better. Qed.

(** A call that brings no reward, but for the account's own calls for its position, and for a
    recovery, which needs a pool without stakes. *)
Lemma other_stays a k :
  (position_call k = true -> a <> sender e) -> (forall reward, k <> NotifyRewardAmount reward) -> (forall to, k <> RecoverUnallocatedRewards to) ->
  stays a (exec_staking pl e k).
Proof using Hnone.
  intros Ha Hk Hr. destruct k as [amount|amount| | |reward| |to|o|o|o|o o']; try (by destruct (Hk reward)); try (by destruct (Hr to));
    try specialize (Ha eq_refl); cbn [exec_staking].
  - intros s0 s0' evs0 H0. change (stake pl e amount s0 = Ok (s0', evs0)) in H0. unfold stake in H0. cbv zeta in H0. set (t := totalStaked s0) in *. clearbody t. revert s0 s0' evs0 H0.
    change (stays a (fun s => then_ (_syncRewards pl e s) (fun s => then_ (_flushQueuedRewards s) (fun s => then_ (updates (sender e) s) (fun s =>
      guard* 0 <? amount or named "ZERO_AMOUNT" in
      let* total := u256 (totalStaked s + amount) in
      let* balance := u256 (read (balanceOf s) (sender e) + amount) in
      then_ (safeTransferFrom e (stakingToken pl) (sender e) amount (set_stake total (<[sender e := balance]> (balanceOf s)) s)) (fun s =>
      then_ (if t =? 0 then _flushQueuedRewards s else Ok (s, [])) (emits [Staked (sender e) amount]))))))).
    apply stays_then; [apply stays_sync|]. apply stays_then; [apply stays_flush|]. apply stays_then; [by apply stays_updates|].
    intros s s' evs H. router_inv H. eapply no_better_trans; [by apply stake_no_better|].
    refine (stays_then a (safeTransferFrom e _ _ _) (fun s => then_ (if t =? 0 then _flushQueuedRewards s else Ok (s, [])) (emits _)) _ _ _ _ _ H).
    + apply stays_transferFrom.
    + apply (stays_then a (fun s => if t =? 0 then _flushQueuedRewards s else Ok (s, []))); [|apply stays_emits].
      destruct (t =? 0); [apply stays_flush|]. intros s1 s1' evs1 [= <- _]. apply no_better_refl.
  - unfold withdraw. apply stays_then; [apply stays_sync|]. apply stays_then; [apply stays_flush|].
    apply stays_then; [by apply stays_updates|]. intros s s' evs H. router_inv H.
    eapply no_better_trans; [by apply stake_no_better|].
    exact (stays_then a _ _ (stays_transfer a _ _ _) (stays_emits a _) _ _ _ H).
  - unfold getReward. apply stays_then; [apply stays_sync|]. apply stays_then; [by apply stays_updates|apply stays_pay].
  - unfold exit. apply stays_then; [apply stays_sync|]. apply stays_then; [apply stays_flush|].
    apply stays_then; [by apply stays_updates|]. intros s s' evs H. cbv zeta in H. revert H.
    assert (stays a (fun s => if 0 <? read (balanceOf s) (sender e) then
             let* total := u256 (totalStaked s - read (balanceOf s) (sender e)) in
             then_ (safeTransfer e (stakingToken pl) (sender e) (read (balanceOf s) (sender e))
                      (set_stake total (<[sender e := 0]> (balanceOf s)) s))
               (emits [Withdrawn (sender e) (read (balanceOf s) (sender e))]) else Ok (s, []))) as Hout.
    { intros s1 s1' evs1 H. destruct (0 <? _); [|injection H as <- _; apply no_better_refl]. router_inv H.
      eapply no_better_trans; [by apply stake_no_better|].
      exact (stays_then a _ _ (stays_transfer a _ _ _) (stays_emits a _) _ _ _ H). }
    exact (stays_then a _ _ Hout (stays_pay a (sender e)) s s' evs).
  - apply stays_sync.
  - intros s s' evs H. destruct (admin_sound pl e (TransferOwnership o) s (s', evs) I H) as (x & y & z & E). cbn in E. subst s'. by constructor.
  - intros s s' evs H. destruct (admin_sound pl e (SetRewardSource o) s (s', evs) I H) as (x & y & z & E). cbn in E. subst s'. by constructor.
  - intros s s' evs H. destruct (admin_sound pl e (SetRewardNotifier o) s (s', evs) I H) as (x & y & z & E). cbn in E. subst s'. by constructor.
  - intros s s' evs H. destruct (admin_sound pl e (SetRewardConfiguration o o') s (s', evs) I H) as (x & y & z & E). cbn in E. subst s'. by constructor.
Qed.
End quiet.

Lemma u256_or z : u256 z = Ok z \/ u256 z = Throw "Panic(0x11)".
Proof. unfold u256. destruct (_ && _); [by left|by right]. Qed.

(** The account cannot be settled. *)
Lemma settle_panics a s : a <> 0 -> stuck a s -> _updateReward a s = Throw "Panic(0x11)".
Proof.
  intros Ha [_ Hl]. unfold _updateReward. rewrite (proj2 (Z.eqb_neq a 0) Ha).
  destruct (u256_or (rewardPerTokenStored s - read (userRewardPerTokenPaid s) a)) as [->| ->]; [|done]. cbn [res_bind].
  destruct (u256_or (read (balanceOf s) a * (rewardPerTokenStored s - read (userRewardPerTokenPaid s) a))) as [->| ->]; [|done].
  cbn [res_bind]. fold (accrued s a (read (balanceOf s) a)). fold (credit a s).
  assert (forall pending, rewardReserve s < pending -> u256 (rewardReserve s - pending) = Throw "Panic(0x11)") as Hneg.
  { intros pending Hp. unfold u256. by replace (0 <=? rewardReserve s - pending) with false by lia. }
  destruct (0 <? credit a s) eqn:E; bool_solve.
  - destruct (u256_or (read (rewards s) a + credit a s)) as [->| ->]; [|done]. cbn [res_bind].
    destruct (u256_or (pendingUserRewards s + credit a s)) as [->| ->]; [|done]. cbn [res_bind]. by rewrite Hneg.
  - cbn [res_bind]. rewrite Hneg by lia. done.
Qed.

(** What is queued is distributed, or an amount does not fit a word. *)
Lemma flush_or s : (exists s', _flushQueuedRewards s = Ok (s', [])) \/ _flushQueuedRewards s = Throw "Panic(0x11)".
Proof.
  unfold _flushQueuedRewards. destruct (_ && _) eqn:E; [|by left; eexists]. bool_solve. unfold _applyRewardAmount.
  destruct (u256_or (0 + queuedRewards s)) as [->| ->]; [|by right]. cbn [res_bind].
  destruct (_ || _); [by left; eexists|].
  destruct (u256_or ((0 + queuedRewards s) * PRECISION)) as [->| ->]; [|by right]. cbn [res_bind].
  unfold udiv. replace (totalStaked s =? 0) with false by lia. cbn [negb res_bind].
  destruct (_ =? 0); [by left; eexists|].
  repeat match goal with
  | |- context [u256 ?z] => destruct (u256_or z) as [->| ->]; [cbn [res_bind]|by right]
  end. by left; eexists.
Qed.

(** The account's calls for its position. *)
Lemma position_call_panics pl e k s :
  sender e <> 0 -> claimPoolRewards e = Ok 0 -> position_call k = true -> stuck (sender e) s ->
  exec_staking pl e k s = Throw "Panic(0x11)".
Proof.
  intros Ha Hnone Hk Hs.
  assert (forall s1 k, stuck (sender e) s1 -> then_ (updates (sender e) s1) k = Throw "Panic(0x11)") as Hset.
  { intros s1 k1 Hs1. unfold updates. by rewrite settle_panics. }
  assert (forall k1 : staking -> effect, then_ (_flushQueuedRewards s) (fun s1 => then_ (updates (sender e) s1) k1) = Throw "Panic(0x11)") as Hflush.
  { intros k1. destruct (flush_or s) as [[s1 H1]| ->]; [|done]. rewrite H1.
    unfold then_ at 1. cbn [res_bind fst]. rewrite Hset; [done|]. apply (stuck_no_better _ s); [done|]. by eapply flush_no_better. }
  assert (forall k1, k1 s = Throw "Panic(0x11)" -> then_ (_syncRewards pl e s) k1 = Throw "Panic(0x11)") as Hsync.
  { intros k1 H1. rewrite sync_none by done. unfold then_. cbn [res_bind fst]. by rewrite H1. }
  destruct k as [amount|amount| | | | | | | | |]; try done; cbn [exec_staking].
  - unfold stake. cbv zeta. apply Hsync, Hflush.
  - unfold withdraw. apply Hsync, Hflush.
  - unfold getReward. apply Hsync, Hset, Hs.
  - unfold exit. apply Hsync, Hflush.
Qed.

(** With a stake in the pool, nothing is recovered. *)
Lemma recover_refused pl e to a s r :
  books s -> stuck a s -> claimPoolRewards e = Ok 0 -> recoverUnallocatedRewards pl e to s = Ok r -> False.
Proof.
  intros Hb [Hbal _] Hnone H. unfold recoverUnallocatedRewards in H. router_inv H.
  apply then_Ok in H as ([s1 e1] & r2 & H1 & H & _). rewrite sync_none in H1 by done. injection H1 as <- _. cbn [fst] in H.
  router_inv H. bool_solve. pose proof (bk_total s Hb) as Ht. rewrite (total_delete _ a) in Ht.
  pose proof (total_nonneg _ (map_Forall_delete _ _ a (bk_balances s Hb))). unfold read in Hbal. lia.
Qed.

(** While no reward arrives, a stuck account stays as it is. *)
Lemma stuck_stays pl s l a s' :
  staking_run pl s l -> a <> 0 -> stuck a s -> quiet_run pl s s' ->
  no_better a s s' /\ exists l', staking_run pl s' l'.
Proof.
  intros Hrun Ha Hs. induction 1 as [|s1 e k s2 evs _ [Hnb [l' Hl']] Hw [Hnone Hk] H].
  - split; [apply no_better_refl|by exists l].
  - split; [|by eexists; eapply run_call]. pose proof (stuck_no_better _ _ _ Hs Hnb) as Hs1.
    eapply no_better_trans; [exact Hnb|]. refine (other_stays pl e Hnone a k _ Hk _ s1 s2 evs H).
    + intros Hp ->. rewrite (position_call_panics pl e k s1) in H; done.
    + intros to ->. eapply (recover_refused pl e to a s1); [apply (run_sound pl s1 l' Hl')|done|done|exact H].
Qed.

(** The four calls above, and a base unit staked by a third account: what is queued is then
    distributed once more. *)
Definition lock_calls : list (staking_env * staking_call) := (dust_calls ++ [(sample_staking_env 12 0, Stake 1)])%list.

(** C14.  Rounding can lock a stake.  First: when settling an account would credit more than the
    pool's reserve holds, then after any further accepted calls, of any accounts, that bring no
    reward, that is still so, the account's stake is unchanged, and every call the account makes
    for its position while no reward arrives - staking, withdrawing, claiming, leaving - fails
    with an arithmetic panic.  Second: there is such a pool and account, in a history of accepted
    calls whose manager pays and whose tokens move whenever asked: the divisions of its
    distributions have credited exactly one base unit more than the reserve holds. *)
Theorem rounding_locks_stake :
  (forall pl s l a s',
     staking_run pl s l -> a <> 0 -> stuck a s -> quiet_run pl s s' ->
     stuck a s' /\ read (balanceOf s') a = read (balanceOf s) a
     /\ forall e k, sender e = a -> claimPoolRewards e = Ok 0 -> position_call k = true ->
          exec_staking pl e k s' = Throw "Panic(0x11)")
  /\ exists pl s l a,
       staking_run pl s l /\ a <> 0 /\ stuck a s
       /\ pendingUserRewards s + credit a s = rewardReserve s + 1
       /\ Forall (fun c => (forall token to amount, moves (fst (fst c)) (Sent token to amount) = true)
                           /\ (forall token amount, moves (fst (fst c)) (Pulled token (sender (fst (fst c))) amount) = true)) l.
Proof.
  split.
  - intros pl s l a s' Hrun Ha Hs Hq. destruct (stuck_stays pl s l a s' Hrun Ha Hs Hq) as [Hnb _].
    pose proof (stuck_no_better _ _ _ Hs Hnb) as Hs'. split; [done|]. split; [apply Hnb|].
    intros e k <- Hnone Hk. by apply position_call_panics.
  - exists sample_pool, (after_calls lock_calls), (log_of lock_calls), 10.
    split.
    { apply sample_run; [|by vm_compute]. apply Forall_app. split; [apply dust_called|].
      apply Forall_singleton, sample_env_called; [done|lia]. } split; [done|].
    split; [split; by vm_compute|]. split; [by vm_compute|].
    assert (fst <$> log_of lock_calls = reverse lock_calls) as Hl by (vm_compute; reflexivity).
    assert (Forall (fun c => (forall token to amount, moves (fst c) (Sent token to amount) = true)
                           /\ (forall token amount, moves (fst c) (Pulled token (sender (fst c)) amount) = true))
              (fst <$> log_of lock_calls)) as H by (rewrite Hl; repeat constructor).
    by rewrite Forall_fmap in H.
Qed.

Lemma pool_covers_its_users_witness :
  let s := after_calls dust_calls in
  staking_run sample_pool s (log_of dust_calls) /\ totalStaked s = tokens 3 /\ owed s = 4
  /\ rewardReserve s - queuedRewards s = 3
  /\ owed s <= rewardReserve s - queuedRewards s + 2 * Z.of_nat (length (log_of dust_calls)).
Proof.
  assert (H : staking_run sample_pool (after_calls dust_calls) (log_of dust_calls)).
  { apply sample_run; [|by vm_compute]. apply dust_called. }
  split; [exact H|]. split; [by vm_compute|]. split; [by vm_compute|]. split; [by vm_compute|].
  apply (pool_covers_its_users sample_pool _ _ H).
Defined.

(** Two stakers and a reward of a token each. *)
Definition reward_calls : list (staking_env * staking_call) :=
  [(sample_staking_env 11 0, Stake (tokens 10)); (sample_staking_env 10 0, Stake (tokens 30));
   (sample_staking_env 12 (tokens 20), SyncRewards)].

Lemma reward_called : Forall (fun c => well_called sample_pool (fst c)) reward_calls.
Proof. repeat (apply Forall_cons; split; [apply sample_env_called; [done|unfold tokens; lia]|]). by apply Forall_nil. Qed.

Lemma claim_pays_earned_witness :
  let s := after_calls reward_calls in let e := sample_staking_env 10 (tokens 4) in
  earned 10 s = Ok (tokens 15)
  /\ exists s' evs, getReward sample_pool e s = Ok (s', evs) /\ tokens 15 <= received 3 10 evs /\ earned 10 s' = Ok 0.
Proof.
  split; [by vm_compute|].
  destruct (getReward sample_pool (sample_staking_env 10 (tokens 4)) (after_calls reward_calls)) as [[s' evs]|] eqn:E;
    [|by vm_compute in E].
  exists s', evs. split; [done|].
  destruct (claim_pays_earned sample_pool (sample_staking_env 10 (tokens 4)) (after_calls reward_calls) (log_of reward_calls)
              (tokens 15) s' evs) as (s1 & evs1 & _ & _ & H & Hn).
  - apply sample_run; [apply reward_called|by vm_compute].
  - apply sample_env_called; [done|unfold tokens; lia].
  - by vm_compute.
  - exact E.
  - split; [exact H|exact Hn].
Defined.

(** The hypotheses of a withdrawal of [amount], as a test of the opened pool. *)
Definition withdrawable (amount : Z) (a : address) (s : staking) : bool :=
  (rewardReserve s <? 2 ^ 256) && (rewardPerTokenStored s <? 2 ^ 256) && (totalStaked s <? 2 ^ 256)
  && (accrued s a (read (balanceOf s) a) <? 2 ^ 256) && (0 <? amount) && (amount <=? read (balanceOf s) a)
  && (pendingUserRewards s + credit a s <=? rewardReserve s).

Lemma withdrawal_accepted_iff_witness :
  let s := after_calls reward_calls in let e := sample_staking_env 10 (tokens 4) in
  exists r, withdraw sample_pool e (tokens 30) s = Ok r.
Proof.
  assert (Hs : staking_run sample_pool (after_calls reward_calls) (log_of reward_calls))
    by (apply sample_run; [apply reward_called|by vm_compute]).
  assert (Hw : match opened sample_pool (sample_staking_env 10 (tokens 4)) (after_calls reward_calls) with
               | Ok r => withdrawable (tokens 30) 10 (fst r) | Throw _ => false end = true) by by vm_compute.
  destruct (opened sample_pool (sample_staking_env 10 (tokens 4)) (after_calls reward_calls)) as [[s2 evs]|] eqn:E;
    [|done].
  cbn [fst] in Hw. unfold withdrawable in Hw. bool_solve.
  apply (withdrawal_accepted_iff sample_pool (sample_staking_env 10 (tokens 4)) (tokens 30) _ (log_of reward_calls) s2 evs).
  - exact Hs.
  - apply sample_env_called; [done|unfold tokens; lia].
  - exact E.
  - by constructor.
  - by split_and!.
Defined.
