(* ===== verification/SettlementContract.v ===== *)
(** * The settlement of signed orders (contracts/contracts/FluxSignedOrderSettlement.sol)

    Every function that changes state, and the readiness check [canExecuteOrder].  An order
    is the client's record of LimitOrders.v, its texts read as addresses; swaps go through
    the router (RouterContract.v).  Hashing, ABI encoding, signature recovery, the factory,
    the balances and the token calls, which move exactly what they are asked to move or
    fail, are parameters; so is the owner, which OpenZeppelin's Ownable keeps. *)

From S2P Require Import Prelude JsString JsValue LimitOrders Subgraph RouterContract.
Open Scope string_scope.
Open Scope Z_scope.
Open Scope flux_scope.

(** ** State *)

Record settlement_state := {
  ss_paused : bool;
  ss_restrictedExecutor : address;
  ss_onlyRestrictedExecutor : bool;
  ss_orderExecuted : gset string;
  ss_invalidatedNonce : gset (address * Z);
}.

Definition deployed_settlement : settlement_state :=
  {| ss_paused := false; ss_restrictedExecutor := 0; ss_onlyRestrictedExecutor := false;
     ss_orderExecuted := ∅; ss_invalidatedNonce := ∅ |}.

Definition set_policy (restricted : bool) (executor : address) (s : settlement_state) : settlement_state :=
  {| ss_paused := ss_paused s; ss_restrictedExecutor := executor;
     ss_onlyRestrictedExecutor := restricted; ss_orderExecuted := ss_orderExecuted s;
     ss_invalidatedNonce := ss_invalidatedNonce s |}.
Definition set_paused (paused : bool) (s : settlement_state) : settlement_state :=
  {| ss_paused := paused; ss_restrictedExecutor := ss_restrictedExecutor s;
     ss_onlyRestrictedExecutor := ss_onlyRestrictedExecutor s; ss_orderExecuted := ss_orderExecuted s;
     ss_invalidatedNonce := ss_invalidatedNonce s |}.
Definition set_nonce (maker : address) (nonce : Z) (s : settlement_state) : settlement_state :=
  {| ss_paused := ss_paused s; ss_restrictedExecutor := ss_restrictedExecutor s;
     ss_onlyRestrictedExecutor := ss_onlyRestrictedExecutor s; ss_orderExecuted := ss_orderExecuted s;
     ss_invalidatedNonce := {[ (maker, nonce) ]} ∪ ss_invalidatedNonce s |}.
Definition set_executed (hash : string) (s : settlement_state) : settlement_state :=
  {| ss_paused := ss_paused s; ss_restrictedExecutor := ss_restrictedExecutor s;
     ss_onlyRestrictedExecutor := ss_onlyRestrictedExecutor s; ss_orderExecuted := {[ hash ]} ∪ ss_orderExecuted s;
     ss_invalidatedNonce := ss_invalidatedNonce s |}.

(** The chain a call runs on. *)
Record call_env := {
  ce_now : Z;
  ce_sender : address;
  ce_owner : address;
  ce_swap : swap_env;
  ce_pair_address : address * address -> address;
  ce_pairs : pairs;
  ce_decimals : address -> Z;
  ce_balanceOf : address -> address -> Z;
  ce_allowance : address -> address -> Z;
  ce_transferFrom : address -> address -> Z -> res string unit;
  ce_approve : address -> Z -> res string unit;
  ce_pay : bool -> address -> address -> Z -> res string unit;
}.

Definition WETH_of (e : call_env) : address := se_WETH (ce_swap e).

(** ** Hashing and signatures *)

(** What the contract and its libraries compute with: [keccak256], the bytes of a text, ABI
    encoding, and the signer [ECDSA.recover] finds, if it does not revert. *)
Record crypto := {
  cr_keccak256 : Hex -> Hex;
  cr_stringToHex : string -> Hex;
  cr_encode : list typed_field -> list abi_value -> Hex;
  cr_recover : Hex -> string -> option address;
}.

(** The digits of a hexadecimal text, without its prefix. *)
Definition hex_digits (h : Hex) : string := String.substring 2 (String.length h - 2) h.

Section hashing.
Variable cr : crypto.
Variable chainid : Z.
Variable self : Address.

Definition text_hash (s : string) : abi_value := AbiHex (cr_keccak256 cr (cr_stringToHex cr s)).

Definition ORDER_TYPEHASH : abi_value := text_hash
  "SignedOrder(address maker,address inputToken,address outputToken,uint256 amountIn,uint256 minAmountOut,uint256 maxExecutorRewardBps,uint256 triggerPriceX18,uint256 expiry,uint256 nonce,address recipient)".
Definition INVALIDATE_NONCES_TYPEHASH : abi_value := text_hash
  "InvalidateNonces(address maker,bytes32 noncesHash,uint256 deadline)".
Definition DOMAIN_TYPEHASH : abi_value := text_hash
  "EIP712Domain(string name,string version,uint256 chainId,address verifyingContract)".
Definition NAME_HASH : abi_value := text_hash "Flux Signed Order Settlement".
Definition VERSION_HASH : abi_value := text_hash "1".

(** The types of the values ABI encoding is given. *)
Definition domain_types : list typed_field :=
  [tf "typeHash" "bytes32"; tf "name" "bytes32"; tf "version" "bytes32"; tf "chainId" "uint256";
   tf "verifyingContract" "address"].
Definition invalidate_types : list typed_field :=
  [tf "typeHash" "bytes32"; tf "maker" "address"; tf "noncesHash" "bytes32"; tf "deadline" "uint256"].

Definition DOMAIN_SEPARATOR : Hex :=
  cr_keccak256 cr (cr_encode cr domain_types
    [DOMAIN_TYPEHASH; NAME_HASH; VERSION_HASH; AbiUint chainid; AbiHex self]).

Definition hashOrder (o : SignedLimitOrder) : Hex :=
  cr_keccak256 cr (cr_encode cr order_abi_types
    [ORDER_TYPEHASH; AbiHex (maker o); AbiHex (inputToken o); AbiHex (outputToken o);
     AbiUint (amountIn o); AbiUint (minAmountOut o); AbiUint (maxExecutorRewardBps o);
     AbiUint (triggerPriceX18 o); AbiUint (expiry o); AbiUint (nonce o); AbiHex (recipient o)]).

(** The digest a signature of a struct is checked against. *)
Definition digest_of (structHash : Hex) : Hex :=
  cr_keccak256 cr ("0x1901" ++ hex_digits DOMAIN_SEPARATOR ++ hex_digits structHash).

Definition invalidate_digest (maker : Address) (nonces : list Z) (deadline : Z) : Hex :=
  let noncesHash := cr_keccak256 cr ("0x" ++ pack_nonces nonces) in
  digest_of (cr_keccak256 cr (cr_encode cr invalidate_types
    [INVALIDATE_NONCES_TYPEHASH; AbiHex maker; AbiHex noncesHash; AbiUint deadline])).

Definition verify (digest : Hex) (signature : string) (maker : Address) : res string unit :=
  match cr_recover cr digest signature with
  | Some signer =>
    guard* signer =? address_value maker or "FluxSignedOrderSettlement: INVALID_SIGNATURE" in Ok tt
  | None => Throw "ECDSAInvalidSignature"
  end.

Definition _verifyOrderSignature (orderHash : Hex) (maker : Address) (signature : string) : res string unit :=
  verify (digest_of orderHash) signature maker.
End hashing.

Inductive settlement_event :=
| OrderExecuted (orderHash : string) (maker executor : address) (amountIn amountOut userAmountOut executorReward : Z)
    (recipient : address)
| NonceInvalidated (maker : address) (nonce : Z)
| ExecutorPolicyUpdated (restricted : bool) (executor : address)
| Paused (account : address)
| Unpaused (account : address)
| Swapped (amountIn amountOut : Z)
| PulledInput (token from : address) (amount : Z)
| PaidOut (native : bool) (token to : address) (amount : Z).

(** The deployed contract: what its signatures are checked with, its chain and address. *)
Record deployment := { dp_crypto : crypto; dp_chainid : Z; dp_self : Address }.

Section settlement.
Variable dp : deployment.
Variable e : call_env.

Notation orderHash o := (hashOrder (dp_crypto dp) o).

(** ** Orders *)

Definition o_maker (o : SignedLimitOrder) : address := address_value (maker o).
Definition o_recipient (o : SignedLimitOrder) : address := address_value (recipient o).
Definition o_inputToken (o : SignedLimitOrder) : address := address_value (inputToken o).
Definition o_outputToken (o : SignedLimitOrder) : address := address_value (outputToken o).

(** [_normalizePairTokens] and [_buildPath] *)
Definition _normalizePairTokens (o : SignedLimitOrder) : address * address :=
  (o_inputToken o, if o_outputToken o =? 0 then WETH_of e else o_outputToken o).
Definition _buildPath (o : SignedLimitOrder) : list address :=
  [fst (_normalizePairTokens o); snd (_normalizePairTokens o)].

Definition _hasIdenticalAssets (o : SignedLimitOrder) : bool :=
  fst (_normalizePairTokens o) =? snd (_normalizePairTokens o).
Definition _pairExists (o : SignedLimitOrder) : bool :=
  is_ok (_getPairOrRevert (fst (_normalizePairTokens o)) (snd (_normalizePairTokens o)) (ce_pairs e)).

Definition _validateExecutor (s : settlement_state) : res string unit :=
  guard* negb (ss_onlyRestrictedExecutor s) || (ce_sender e =? ss_restrictedExecutor s)
  or "FluxSignedOrderSettlement: EXECUTOR_FORBIDDEN" in Ok tt.

Definition _validateOrder (o : SignedLimitOrder) : res string unit :=
  guard* negb (o_maker o =? 0) or "FluxSignedOrderSettlement: ZERO_MAKER" in
  guard* negb (o_inputToken o =? 0) or "FluxSignedOrderSettlement: INPUT_TOKEN_MUST_BE_ERC20" in
  guard* negb (_hasIdenticalAssets o) or "FluxSignedOrderSettlement: IDENTICAL_TOKENS" in
  guard* 0 <? amountIn o or "FluxSignedOrderSettlement: ZERO_AMOUNT_IN" in
  guard* 0 <? minAmountOut o or "FluxSignedOrderSettlement: ZERO_MIN_AMOUNT_OUT" in
  guard* maxExecutorRewardBps o <=? 10000 or "FluxSignedOrderSettlement: INVALID_EXECUTOR_REWARD_BPS" in
  guard* 0 <? triggerPriceX18 o or "FluxSignedOrderSettlement: ZERO_TRIGGER_PRICE" in
  guard* ce_now e <=? expiry o or "FluxSignedOrderSettlement: ORDER_EXPIRED" in
  guard* negb (o_recipient o =? 0) or "FluxSignedOrderSettlement: ZERO_RECIPIENT" in
  guard* _pairExists o or "FluxSignedOrderSettlement: PAIR_NOT_FOUND" in Ok tt.

Definition _isNonceUnavailable (maker : address) (nonce : Z) (s : settlement_state) : bool :=
  bool_decide ((maker, nonce) ∈ ss_invalidatedNonce s).

Definition _getAmountOut (o : SignedLimitOrder) : res string Z :=
  let* amounts := getAmountsOut (amountIn o) (_buildPath o) (ce_pairs e) in Ok (default 0 (last amounts)).

Definition _quotePriceX18 (o : SignedLimitOrder) (amountOut : Z) : res string Z :=
  let '(tokenIn, tokenOut) := _normalizePairTokens o in
  let* inputScale := decimalScale (ce_decimals e tokenIn) in
  let* outputScale := decimalScale (ce_decimals e tokenOut) in
  let* normalizedAmountOut := oz_mulDiv amountOut inputScale outputScale in
  oz_mulDiv normalizedAmountOut LIMIT_ORDER_PRICE_SCALE (amountIn o).

Definition _meetsTrigger (o : SignedLimitOrder) (amountOut : Z) : res string bool :=
  let* quotedPriceX18 := _quotePriceX18 o amountOut in Ok (triggerPriceX18 o <=? quotedPriceX18).

(** A checked subtraction. *)
Definition u256_sub (x y : Z) : res string Z := PairContract.u256 (x - y).

(** The router's call of [_settleAndDistribute]. *)
Definition settle_call (o : SignedLimitOrder) (required deadline : Z) : router_call :=
  if o_outputToken o =? 0
  then SwapExactTokensForETH (amountIn o) required (_buildPath o) (address_value (dp_self dp)) deadline
  else SwapExactTokensForTokens (amountIn o) required (_buildPath o) (address_value (dp_self dp)) deadline.

(** [_distributeTokenOutput] and [_distributeNativeOutput] *)
Definition distribute (o : SignedLimitOrder) (amountOut executorReward : Z) : res string (list settlement_event) :=
  let native := o_outputToken o =? 0 in
  let token := o_outputToken o in
  let* recipientAmount := u256_sub amountOut executorReward in
  let* _ := ce_pay e native token (o_recipient o) recipientAmount in
  if 0 <? executorReward
  then let* _ := ce_pay e native token (ce_sender e) executorReward in
       Ok [PaidOut native token (o_recipient o) recipientAmount;
           PaidOut native token (ce_sender e) executorReward]
  else Ok [PaidOut native token (o_recipient o) recipientAmount].

Definition _settleAndDistribute (o : SignedLimitOrder) (deadline amountOut executorReward : Z)
  : res string (pairs * list settlement_event) :=
  let* required := PairContract.u256 (minAmountOut o + executorReward) in
  let* r := exec_router (ce_swap e) (ce_pair_address e) (settle_call o required deadline) (ce_pairs e) in
  let* paid := distribute o amountOut executorReward in
  Ok (rc_pairs r, Swapped (rc_paid r) (rc_received r) :: paid).

(** A call's effect: the new state, the pairs and what it emits and moves. *)
Definition outcome : Type := settlement_state * pairs * list settlement_event.

Definition executeOrder (o : SignedLimitOrder) (signature : string) (deadline executorReward : Z)
    (s : settlement_state) : res string outcome :=
  guard* negb (ss_paused s) or "FluxSignedOrderSettlement: PAUSED" in
  let* _ := _validateExecutor s in
  let* _ := _validateOrder o in
  guard* ce_now e <=? deadline or "FluxSignedOrderSettlement: EXPIRED" in
  guard* negb (bool_decide (orderHash o ∈ ss_orderExecuted s))
  or "FluxSignedOrderSettlement: ORDER_ALREADY_EXECUTED" in
  guard* negb (_isNonceUnavailable (o_maker o) (nonce o) s) or "FluxSignedOrderSettlement: NONCE_INVALIDATED" in
  let* _ := _verifyOrderSignature (dp_crypto dp) (dp_chainid dp) (dp_self dp) (orderHash o) (maker o) signature in
  let* amountOut := _getAmountOut o in
  guard* minAmountOut o <=? amountOut or "FluxSignedOrderSettlement: INSUFFICIENT_OUTPUT" in
  let* reached := _meetsTrigger o amountOut in
  guard* reached or "FluxSignedOrderSettlement: PRICE_NOT_REACHED" in
  let* surplus := u256_sub amountOut (minAmountOut o) in
  let* scaled := PairContract.u256 (surplus * maxExecutorRewardBps o) in
  guard* executorReward <=? scaled / 10000 or "FluxSignedOrderSettlement: EXECUTOR_REWARD_TOO_HIGH" in
  let s' := set_nonce (o_maker o) (nonce o) (set_executed (orderHash o) s) in
  guard* amountIn o <=? ce_balanceOf e (o_inputToken o) (o_maker o)
  or "FluxSignedOrderSettlement: INSUFFICIENT_BALANCE" in
  guard* amountIn o <=? ce_allowance e (o_inputToken o) (o_maker o)
  or "FluxSignedOrderSettlement: INSUFFICIENT_ALLOWANCE" in
  let* _ := ce_transferFrom e (o_inputToken o) (o_maker o) (amountIn o) in
  let* _ := ce_approve e (o_inputToken o) (amountIn o) in
  let* settled := _settleAndDistribute o deadline amountOut executorReward in
  let* userAmountOut := u256_sub amountOut executorReward in
  Ok (s', fst settled,
      PulledInput (o_inputToken o) (o_maker o) (amountIn o) :: snd settled
      ++ [OrderExecuted (orderHash o) (o_maker o) (ce_sender e) (amountIn o) amountOut userAmountOut executorReward
            (o_recipient o)])%list.

(** The loop of [invalidateNoncesBySig]. *)
Fixpoint invalidate_all (maker : address) (nonces : list Z) (s : settlement_state)
  : res string (settlement_state * list settlement_event) :=
  match nonces with
  | [] => Ok (s, [])
  | nonce :: rest =>
    guard* negb (_isNonceUnavailable maker nonce s) or "FluxSignedOrderSettlement: NONCE_INVALIDATED" in
    let* r := invalidate_all maker rest (set_nonce maker nonce s) in
    Ok (fst r, NonceInvalidated maker nonce :: snd r)
  end.

Definition invalidateNoncesBySig (maker : Address) (nonces : list Z) (deadline : Z) (signature : string)
    (s : settlement_state) : res string outcome :=
  guard* negb (address_value maker =? 0) or "FluxSignedOrderSettlement: ZERO_MAKER" in
  guard* ce_now e <=? deadline or "FluxSignedOrderSettlement: EXPIRED" in
  guard* 0 <? Z.of_nat (length nonces) or "FluxSignedOrderSettlement: EMPTY_NONCES" in
  let* _ := verify (dp_crypto dp)
              (invalidate_digest (dp_crypto dp) (dp_chainid dp) (dp_self dp) maker nonces deadline)
              signature maker in
  let* r := invalidate_all (address_value maker) nonces s in
  Ok (fst r, ce_pairs e, snd r).

(** ** The owner's functions *)

Definition only_owner (m : res string outcome) : res string outcome :=
  guard* ce_sender e =? ce_owner e or "OwnableUnauthorizedAccount" in m.

Definition setRestrictedExecutor (executor : address) (s : settlement_state) : res string outcome :=
  only_owner (Ok (set_policy (ss_onlyRestrictedExecutor s) executor s, ce_pairs e,
                    [ExecutorPolicyUpdated (ss_onlyRestrictedExecutor s) executor])).

Definition setExecutorRestriction (restricted : bool) (s : settlement_state) : res string outcome :=
  only_owner
    (guard* negb restricted || negb (ss_restrictedExecutor s =? 0) or "FluxSignedOrderSettlement: ZERO_EXECUTOR" in
     Ok (set_policy restricted (ss_restrictedExecutor s) s, ce_pairs e,
         [ExecutorPolicyUpdated restricted (ss_restrictedExecutor s)])).

Definition pause (s : settlement_state) : res string outcome :=
  only_owner (guard* negb (ss_paused s) or "FluxSignedOrderSettlement: PAUSED" in
                Ok (set_paused true s, ce_pairs e, [Paused (ce_sender e)])).

Definition unpause (s : settlement_state) : res string outcome :=
  only_owner (guard* ss_paused s or "FluxSignedOrderSettlement: NOT_PAUSED" in
                Ok (set_paused false s, ce_pairs e, [Unpaused (ce_sender e)])).

(** ** Reading *)

Definition _validateQuoteOrder (o : SignedLimitOrder) : res string unit :=
  guard* negb (o_inputToken o =? 0) or "FluxSignedOrderSettlement: INPUT_TOKEN_MUST_BE_ERC20" in
  guard* negb (_hasIdenticalAssets o) or "FluxSignedOrderSettlement: IDENTICAL_TOKENS" in
  guard* 0 <? amountIn o or "FluxSignedOrderSettlement: ZERO_AMOUNT_IN" in
  guard* _pairExists o or "FluxSignedOrderSettlement: PAIR_NOT_FOUND" in Ok tt.

(** It reads the order's tokens and amount only; [_tryGetAmountOut] calls it with them and
    gives [None] when it reverts. *)
Definition getOrderQuote (o : SignedLimitOrder) : res string Z :=
  let* _ := _validateQuoteOrder o in _getAmountOut o.
Definition _tryGetAmountOut (o : SignedLimitOrder) : option Z :=
  match getOrderQuote o with Ok amountOut => Some amountOut | Throw _ => None end.

(** [canExecuteOrder]: the reason is [Ok] with the text. *)
Definition canExecuteOrder (o : SignedLimitOrder) (s : settlement_state) : res string (bool * string) :=
  if ss_paused s then Ok (false, "PAUSED")
  else if ss_onlyRestrictedExecutor s && (ss_restrictedExecutor s =? 0) then Ok (false, "EXECUTOR_NOT_SET")
  else if o_maker o =? 0 then Ok (false, "ZERO_MAKER")
  else if o_inputToken o =? 0 then Ok (false, "INPUT_TOKEN_MUST_BE_ERC20")
  else if _hasIdenticalAssets o then Ok (false, "IDENTICAL_TOKENS")
  else if amountIn o =? 0 then Ok (false, "ZERO_AMOUNT_IN")
  else if minAmountOut o =? 0 then Ok (false, "ZERO_MIN_AMOUNT_OUT")
  else if 10000 <? maxExecutorRewardBps o then Ok (false, "INVALID_EXECUTOR_REWARD_BPS")
  else if triggerPriceX18 o =? 0 then Ok (false, "ZERO_TRIGGER_PRICE")
  else if o_recipient o =? 0 then Ok (false, "ZERO_RECIPIENT")
  else if expiry o <? ce_now e then Ok (false, "ORDER_EXPIRED")
  else if bool_decide (orderHash o ∈ ss_orderExecuted s) then Ok (false, "ORDER_ALREADY_EXECUTED")
  else if _isNonceUnavailable (o_maker o) (nonce o) s then Ok (false, "NONCE_INVALIDATED")
  else if negb (_pairExists o) then Ok (false, "PAIR_NOT_FOUND")
  else if ce_balanceOf e (o_inputToken o) (o_maker o) <? amountIn o then Ok (false, "INSUFFICIENT_BALANCE")
  else if ce_allowance e (o_inputToken o) (o_maker o) <? amountIn o then Ok (false, "INSUFFICIENT_ALLOWANCE")
  else match _tryGetAmountOut o with
  | None => Ok (false, "INSUFFICIENT_LIQUIDITY")
  | Some amountOut =>
    if amountOut <? minAmountOut o then Ok (false, "INSUFFICIENT_OUTPUT")
    else
      let* reached := _meetsTrigger o amountOut in
      if negb reached then Ok (false, "PRICE_NOT_REACHED") else Ok (true, "OK")
  end.
End settlement.

(** ** Calls *)

Inductive settlement_call :=
| ExecuteOrder (o : SignedLimitOrder) (signature : string) (deadline executorReward : Z)
| InvalidateNoncesBySig (maker : Address) (nonces : list Z) (deadline : Z) (signature : string)
| SetRestrictedExecutor (executor : address)
| SetExecutorRestriction (restricted : bool)
| Pause
| Unpause.

Definition exec_settlement (dp : deployment) (e : call_env) (k : settlement_call) (s : settlement_state)
  : res string outcome :=
  match k with
  | ExecuteOrder o signature deadline reward => executeOrder dp e o signature deadline reward s
  | InvalidateNoncesBySig maker nonces deadline signature =>
    invalidateNoncesBySig dp e maker nonces deadline signature s
  | SetRestrictedExecutor executor => setRestrictedExecutor e executor s
  | SetExecutorRestriction restricted => setExecutorRestriction e restricted s
  | Pause => pause e s
  | Unpause => unpause e s
  end.

(** The calls that went through, from one state to another. *)
Inductive settlement_run (dp : deployment) : settlement_state -> list (call_env * settlement_call) -> settlement_state -> Prop :=
| run_done s : settlement_run dp s [] s
| run_call s e k s' ps evs l s'' :
  exec_settlement dp e k s = Ok (s', ps, evs) -> settlement_run dp s' l s'' ->
  settlement_run dp s ((e, k) :: l) s''.

(** ** Executed orders *)

(** Inverts a call that succeeded. *)
Ltac call_inv H :=
  repeat (cbv beta zeta in H; first [progress router_inv H | match type of H with
  | Ok _ = Ok _ => injection H as H
  end]).

Section executed.
Variable dp : deployment.
Variable e : call_env.
Implicit Types (o : SignedLimitOrder) (s : settlement_state).

(** What an order is checked for before anything moves. *)
Record accepted (o : SignedLimitOrder) (signature : string) (deadline executorReward out : Z)
    (s : settlement_state) : Prop := {
  ac_running : ss_paused s = false;
  ac_executor : _validateExecutor e s = Ok tt;
  ac_order : _validateOrder e o = Ok tt;
  ac_deadline : ce_now e <= deadline;
  ac_not_executed : hashOrder (dp_crypto dp) o ∉ ss_orderExecuted s;
  ac_nonce : (o_maker o, nonce o) ∉ ss_invalidatedNonce s;
  ac_signature : _verifyOrderSignature (dp_crypto dp) (dp_chainid dp) (dp_self dp)
                   (hashOrder (dp_crypto dp) o) (maker o) signature = Ok tt;
  ac_quote : _getAmountOut e o = Ok out;
  ac_minimum : minAmountOut o <= out;
  ac_trigger : _meetsTrigger e o out = Ok true;
  ac_word : 0 <= (out - minAmountOut o) * maxExecutorRewardBps o < 2 ^ 256;
  ac_reward : executorReward <= (out - minAmountOut o) * maxExecutorRewardBps o / 10000;
  ac_balance : amountIn o <= ce_balanceOf e (o_inputToken o) (o_maker o);
  ac_allowance : amountIn o <= ce_allowance e (o_inputToken o) (o_maker o);
}.

(** What the call emits and moves. *)
Definition execution_events (o : SignedLimitOrder) (out executorReward : Z) (rc : receipt)
  : list settlement_event :=
  let paid to amount := PaidOut (o_outputToken o =? 0) (o_outputToken o) to amount in
  PulledInput (o_inputToken o) (o_maker o) (amountIn o)
  :: Swapped (rc_paid rc) (rc_received rc)
  :: paid (o_recipient o) (out - executorReward)
  :: (if 0 <? executorReward then [paid (ce_sender e) executorReward] else [])
  ++ [OrderExecuted (hashOrder (dp_crypto dp) o) (o_maker o) (ce_sender e) (amountIn o) out
        (out - executorReward) executorReward (o_recipient o)].

Definition settled_state (o : SignedLimitOrder) (s : settlement_state) : settlement_state :=
  set_nonce (o_maker o) (nonce o) (set_executed (hashOrder (dp_crypto dp) o) s).

Lemma unit_ok (r : res string unit) x : r = Ok x -> r = Ok tt.
Proof. by destruct x. Qed.

Lemma distribute_Ok o out reward evs :
  distribute e o out reward = Ok evs ->
  0 <= out - reward /\
  evs = PaidOut (o_outputToken o =? 0) (o_outputToken o) (o_recipient o) (out - reward)
        :: (if 0 <? reward then [PaidOut (o_outputToken o =? 0) (o_outputToken o) (ce_sender e) reward] else []).
Proof.
  unfold distribute, u256_sub. intros H. apply res_bind_Ok in H as (x & Hu & H).
  apply u256_id in Hu as [-> Hu]. split; [lia|]. apply res_bind_Ok in H as (y & _ & H).
  destruct (0 <? reward); [|by injection H as <-]. apply res_bind_Ok in H as (z & _ & H). by injection H as <-.
Qed.

Lemma executeOrder_Ok o signature deadline reward s r :
  executeOrder dp e o signature deadline reward s = Ok r ->
  exists out required rc, accepted o signature deadline reward out s
    /\ exec_router (ce_swap e) (ce_pair_address e) (settle_call dp e o required deadline) (ce_pairs e) = Ok rc
    /\ r = (settled_state o s, rc_pairs rc, execution_events o out reward rc).
Proof.
  unfold executeOrder, _settleAndDistribute, u256_sub. intros H. call_inv H. call_inv Hx6. subst r x6 x3.
  match goal with Hd : distribute _ _ _ _ = Ok _ |- _ => apply distribute_Ok in Hd as [_ ->] end.
  unfold _isNonceUnavailable in *. bool_solve.
  eexists _, _, _. split_and!; [constructor; eauto using unit_ok|eassumption|].
  unfold settled_state, execution_events. cbn [fst snd app]. by destruct (0 <? reward).
Qed.

Lemma settle_received o required deadline out rc :
  _getAmountOut e o = Ok out ->
  exec_router (ce_swap e) (ce_pair_address e) (settle_call dp e o required deadline) (ce_pairs e) = Ok rc ->
  rc_paid rc = amountIn o /\ rc_received rc = out.
Proof.
  unfold _getAmountOut, settle_call, exec_router, ensure. intros Ho H. call_inv Ho. subst out.
  pose proof Hx as Hq. unfold getAmountsOut in Hq. call_inv Hq. apply amounts_out_head in Hq.
  destruct (o_outputToken o =? 0); call_inv H; unfold exact_input in H; rewrite Hx in H; cbn [res_bind] in H; call_inv H;
    apply execute_swap_Ok in H as [-> ->]; by rewrite Hq.
Qed.

(** C25.  An executed order was signed by its maker, was not expired and met its trigger
    price; the contract pulls exactly the order's input, swaps it, and pays out all that the
    swap gave: to the recipient at least the signed minimum, to the executor at most the
    signed share of the rest. *)
Theorem execution_terms o signature deadline reward s s' ps evs :
  0 <= reward -> executeOrder dp e o signature deadline reward s = Ok (s', ps, evs) ->
  exists out q, _getAmountOut e o = Ok out
    /\ evs = PulledInput (o_inputToken o) (o_maker o) (amountIn o) :: Swapped (amountIn o) out
             :: PaidOut (o_outputToken o =? 0) (o_outputToken o) (o_recipient o) (out - reward)
             :: (if 0 <? reward
                 then [PaidOut (o_outputToken o =? 0) (o_outputToken o) (ce_sender e) reward] else [])
             ++ [OrderExecuted (hashOrder (dp_crypto dp) o) (o_maker o) (ce_sender e) (amountIn o) out
                   (out - reward) reward (o_recipient o)]
    /\ minAmountOut o <= out - reward
    /\ reward * 10000 <= (out - minAmountOut o) * maxExecutorRewardBps o
    /\ ce_now e <= expiry o
    /\ _quotePriceX18 e o out = Ok q /\ triggerPriceX18 o <= q
    /\ cr_recover (dp_crypto dp)
         (digest_of (dp_crypto dp) (dp_chainid dp) (dp_self dp) (hashOrder (dp_crypto dp) o)) signature
       = Some (o_maker o).
Proof.
  intros Hr H. apply executeOrder_Ok in H as (out & required & rc & Hac & Hrc & Heq).
  destruct Hac as [_ _ Hord _ _ _ Hsig Hq Hmin Htr Hw Hrew _ _].
  destruct (settle_received _ _ _ _ _ Hq Hrc) as [Hp Hv]. injection Heq as _ _ ->.
  unfold execution_events. rewrite Hp, Hv.
  unfold _meetsTrigger in Htr. call_inv Htr. unfold _validateOrder in Hord. call_inv Hord.
  unfold _verifyOrderSignature, verify in Hsig.
  destruct (cr_recover _ _ _) as [signer|]; [|done]. call_inv Hsig. subst signer.
  exists out, x. pose proof (Z.mul_div_le ((out - minAmountOut o) * maxExecutorRewardBps o) 10000 ltac:(lia)).
  split_and!; try done; try nia.
Qed.
End executed.

(** ** Nonces *)

(** The nonces a call uses up, and the orders it executes. *)
Definition consumed (k : settlement_call) : list (address * Z) :=
  match k with
  | ExecuteOrder o _ _ _ => [(o_maker o, nonce o)]
  | InvalidateNoncesBySig maker nonces _ _ => (fun n => (address_value maker, n)) <$> nonces
  | _ => []
  end.
Definition executed (dp : deployment) (k : settlement_call) : list string :=
  match k with ExecuteOrder o _ _ _ => [hashOrder (dp_crypto dp) o] | _ => [] end.

(** A call adds its nonces, none of which was used, and its order. *)
Record advances (s : settlement_state) (nonces : list (address * Z)) (hashes : list string)
    (s' : settlement_state) : Prop := {
  av_NoDup : NoDup nonces;
  av_fresh : Forall (fun n => n ∉ ss_invalidatedNonce s) nonces;
  av_nonces : ss_invalidatedNonce s' = list_to_set nonces ∪ ss_invalidatedNonce s;
  av_hashes : ss_orderExecuted s' = list_to_set hashes ∪ ss_orderExecuted s;
}.

Lemma advances_none s s' :
  ss_invalidatedNonce s' = ss_invalidatedNonce s -> ss_orderExecuted s' = ss_orderExecuted s ->
  advances s [] [] s'.
Proof. intros H1 H2. constructor; rewrite ?H1, ?H2; [constructor|constructor|set_solver..]. Qed.

Lemma advances_trans s1 s2 s3 n1 n2 h1 h2 :
  advances s1 n1 h1 s2 -> advances s2 n2 h2 s3 -> advances s1 (n1 ++ n2) (h1 ++ h2) s3.
Proof.
  intros [D1 F1 N1 H1] [D2 F2 N2 H2]. rewrite N1 in *. rewrite Forall_forall in F1, F2.
  constructor.
  - apply NoDup_app. set_solver.
  - apply Forall_app. rewrite !Forall_forall. set_solver.
  - rewrite N2, list_to_set_app_L. set_solver.
  - rewrite H2, H1, list_to_set_app_L. set_solver.
Qed.

Lemma invalidate_all_advances maker nonces s r :
  invalidate_all maker nonces s = Ok r -> advances s ((fun n => (maker, n)) <$> nonces) [] (fst r).
Proof.
  revert s r; induction nonces as [|n nonces IH]; intros s r H; cbn [invalidate_all] in H.
  - injection H as <-. by apply advances_none.
  - call_inv H. subst r. apply IH in Hx. unfold _isNonceUnavailable in *. bool_solve.
    apply (advances_trans s (set_nonce maker n s) _ [(maker, n)] _ [] []); [|done].
    constructor; [apply NoDup_singleton|by constructor|by cbn; set_solver|by cbn; set_solver].
Qed.

Lemma call_advances dp e k s s' ps evs :
  exec_settlement dp e k s = Ok (s', ps, evs) -> advances s (consumed k) (executed dp k) s'.
Proof.
  destruct k; cbn [exec_settlement consumed executed]; intros H.
  - apply executeOrder_Ok in H as (out & required & rc & Hac & _ & H). injection H as -> _ _.
    destruct Hac. constructor; [apply NoDup_singleton|by constructor|by cbn; set_solver|by cbn; set_solver].
  - unfold invalidateNoncesBySig in H. call_inv H. subst. by eapply invalidate_all_advances.
  - unfold setRestrictedExecutor, only_owner in H. call_inv H. subst. by apply advances_none.
  - unfold setExecutorRestriction, only_owner in H. call_inv H. subst. by apply advances_none.
  - unfold pause, only_owner in H. call_inv H. subst. by apply advances_none.
  - unfold unpause, only_owner in H. call_inv H. subst. by apply advances_none.
Qed.

Definition all_consumed (l : list (call_env * settlement_call)) : list (address * Z) :=
  concat ((fun c => consumed (snd c)) <$> l).
Definition all_executed (dp : deployment) (l : list (call_env * settlement_call)) : list string :=
  concat ((fun c => executed dp (snd c)) <$> l).

Lemma run_advances dp s l s' :
  settlement_run dp s l s' -> advances s (all_consumed l) (all_executed dp l) s'.
Proof.
  induction 1 as [s|s e k s1 ps evs l s2 Hc _ IH]; [by apply advances_none|].
  apply call_advances in Hc. exact (advances_trans _ _ _ _ _ _ _ Hc IH).
Qed.

(** C11.  Whatever calls the contract accepts, from its deployment on, no nonce of a maker is
    used twice, by an execution or by an invalidation; the stored nonces and orders are
    exactly those used and executed, so that no later call uses one of them again. *)
Theorem nonces_used_once dp l s :
  settlement_run dp deployed_settlement l s ->
  NoDup (all_consumed l)
  /\ ss_invalidatedNonce s = list_to_set (all_consumed l)
  /\ ss_orderExecuted s = list_to_set (all_executed dp l)
  /\ forall e k r n, exec_settlement dp e k s = Ok r -> n ∈ consumed k -> n ∉ all_consumed l.
Proof.
  intros H. apply run_advances in H as [Hd _ Hn Hh]. cbn in Hn, Hh. 
  rewrite (right_id_L ∅ (∪)) in Hn. rewrite (right_id_L ∅ (∪)) in Hh.
  split_and!; [done..|]. intros e k [[s' ps] evs] n Hk Hin.
  apply call_advances in Hk as [_ Hf _ _]. rewrite Forall_forall in Hf. rewrite Hn in Hf.
  specialize (Hf n Hin). set_solver.
Qed.

(** ** Readiness *)

Section readiness.
Variable dp : deployment.
Variable e : call_env.
Implicit Types (o : SignedLimitOrder) (s : settlement_state).

(** What [canExecuteOrder] answers OK for. *)
Definition ready (o : SignedLimitOrder) (s : settlement_state) : Prop :=
  ss_paused s = false
  /\ (ss_onlyRestrictedExecutor s = true -> ss_restrictedExecutor s <> 0)
  /\ _validateOrder e o = Ok tt
  /\ hashOrder (dp_crypto dp) o ∉ ss_orderExecuted s
  /\ (o_maker o, nonce o) ∉ ss_invalidatedNonce s
  /\ amountIn o <= ce_balanceOf e (o_inputToken o) (o_maker o)
  /\ amountIn o <= ce_allowance e (o_inputToken o) (o_maker o)
  /\ exists out, _getAmountOut e o = Ok out /\ minAmountOut o <= out /\ _meetsTrigger e o out = Ok true.

Lemma canExecuteOrder_ready o s :
  canExecuteOrder dp e o s = Ok (true, "OK") -> order_valid o -> ready o s.
Proof.
  unfold canExecuteOrder, _isNonceUnavailable. intros H Hv. unfold order_valid in Hv.
  repeat (apply Forall_cons in Hv as [? Hv]). unfold uint256 in *.
  repeat match type of H with (if ?b then _ else _) = _ => destruct b eqn:?; [discriminate H|] end.
  unfold _tryGetAmountOut, getOrderQuote in H.
  destruct (_validateQuoteOrder e o); [|discriminate H]. cbn [res_bind] in H.
  destruct (_getAmountOut e o) as [out|] eqn:Hq; [|discriminate H].
  destruct (out <? _) eqn:?; [discriminate H|]. apply res_bind_Ok in H as (b & Ht & H).
  destruct b; [|discriminate H]. bool_solve. unfold ready. split_and!; try done.
  - intros E. rewrite E in *. cbn [andb] in *. bool_solve. done.
  - unfold _validateOrder, _hasIdenticalAssets in *.
    repeat match goal with |- context [if ?b then _ else Throw _] => destruct b eqn:?; bool_solve; [|try congruence; lia] end.
    done.
  - by exists out.
Qed.

Lemma ready_canExecuteOrder o s : ready o s -> canExecuteOrder dp e o s = Ok (true, "OK").
Proof.
  intros (Hp & Hx & Ho & Hh & Hn & Hb & Ha & out & Hq & Hm & Ht).
  unfold canExecuteOrder, _tryGetAmountOut, getOrderQuote, _validateQuoteOrder, _isNonceUnavailable.
  unfold _validateOrder in Ho. call_inv Ho.
  repeat match goal with |- (if ?b then _ else _) = _ =>
    destruct b eqn:?; [exfalso; bool_solve; first [lia|congruence|tauto]|] end.
  repeat match goal with |- context [if ?b then _ else Throw _] =>
    destruct b eqn:?; [|exfalso; bool_solve; first [lia|congruence]] end.
  cbn [res_bind]. rewrite Hq, Ht. by rewrite (proj2 (Z.ltb_ge out _)).
Qed.

Definition tokenIn (o : SignedLimitOrder) : address := fst (_normalizePairTokens e o).
Definition tokenOut (o : SignedLimitOrder) : address := snd (_normalizePairTokens e o).

(** The token calls of an execution succeed and the pair has room for the swap. *)
Record settles (o : SignedLimitOrder) : Prop := {
  st_pull : ce_transferFrom e (o_inputToken o) (o_maker o) (amountIn o) = Ok tt;
  st_approve : ce_approve e (o_inputToken o) (amountIn o) = Ok tt;
  st_swap : se_transferFrom (ce_swap e) (tokenIn o) (amountIn o) = Ok tt;
  st_pay : forall native token to amount, ce_pay e native token to amount = Ok tt;
  st_time : se_timestamp (ce_swap e) = ce_now e;
  st_to : address_value (dp_self dp) ∉ [tokenIn o; tokenOut o] /\ se_router (ce_swap e) ∉ [tokenIn o; tokenOut o];
  st_pair : exists c, ce_pairs e !! (Z.min (tokenIn o) (tokenOut o), Z.max (tokenIn o) (tokenOut o)) = Some c
    /\ can_sync (ce_now e) c = true
    /\ PairContract.c_reserve0 c + amountIn o < 2 ^ 112 /\ PairContract.c_reserve1 c + amountIn o < 2 ^ 112;
}.

Lemma quote_reserves o out :
  _getAmountOut e o = Ok out ->
  exists ri ro, _getReserves (tokenIn o) (tokenOut o) (ce_pairs e) = Ok (ri, ro)
    /\ getAmountOut (amountIn o) ri ro = Ok out.
Proof.
  unfold _getAmountOut, getAmountsOut, _buildPath. fold (tokenIn o) (tokenOut o). intros H. call_inv H.
  cbn [amounts_out] in Hx. apply res_bind_Ok in Hx as ([ri ro] & Hr & Hx). cbn [fst snd] in Hx.
  apply res_bind_Ok in Hx as (y & Hy & Hx). cbn [res_bind] in Hx. injection Hx as <-. subst out.
  by exists ri, ro.
Qed.

Lemma reserves_room o ri ro :
  settles o -> _getReserves (tokenIn o) (tokenOut o) (ce_pairs e) = Ok (ri, ro) ->
  ri + amountIn o < 2 ^ 112 /\ ro + amountIn o < 2 ^ 112.
Proof.
  intros [_ _ _ _ _ _ (c & Hc & _ & H0 & H1)] Hr. unfold _getReserves, _getPairOrRevert in Hr.
  rewrite Hc in Hr. cbn [res_bind] in Hr. call_inv Hr. destruct (_ =? _) in Hr; injection Hr as <- <-; by split.
Qed.

Lemma settlement_swaps o required deadline out :
  settles o -> _getAmountOut e o = Ok out -> 0 < out -> required <= out -> ce_now e <= deadline ->
  exists rc, exec_router (ce_swap e) (ce_pair_address e) (settle_call dp e o required deadline) (ce_pairs e) = Ok rc.
Proof.
  intros Hset Hq Hout Hreq Hdl. pose proof Hset as [_ _ Hsw _ Ht [Hs Hro] (c & Hc & Hsync & _)].
  destruct (quote_reserves o out Hq) as (ri & ro & Hr & Hg).
  destruct (reserves_room o ri ro Hset Hr) as [H0 H1]. rewrite <- Ht in Hsync.
  apply Z.leb_le in Hdl. rewrite <- Ht in Hdl.
  unfold settle_call, _buildPath. fold (tokenIn o) (tokenOut o).
  destruct (o_outputToken o =? 0) eqn:E; unfold exec_router, ensure; rewrite Hdl.
  - assert (tokenOut o = se_WETH (ce_swap e)) as Hw.
    { unfold tokenOut, _normalizePairTokens. by rewrite E. }
    unfold last_is. cbn [last]. rewrite <- Hw, Z.eqb_refl. cbn [res_bind].
    edestruct direct_exact_input as (rc & -> & _); eauto; set_solver.
  - edestruct direct_exact_input as (rc & -> & _); eauto; set_solver.
Qed.

(** The product of surplus and share is a word. *)
Lemma reward_word o out :
  settles o -> _validateOrder e o = Ok tt -> order_valid o -> _getAmountOut e o = Ok out ->
  minAmountOut o <= out -> 0 <= (out - minAmountOut o) * maxExecutorRewardBps o < 2 ^ 256.
Proof.
  intros Hset Hord Hv Hq Hm. unfold _validateOrder in Hord. call_inv Hord.
  destruct (quote_reserves o out Hq) as (ri & ro & Hr & Hg).
  apply getAmountOut_bounds in Hg as (_ & _ & _ & Hout & _).
  destruct (reserves_room o ri ro Hset Hr) as [_ Hro].
  unfold order_valid, uint256 in Hv. repeat (apply Forall_cons in Hv as [? Hv]).
  assert ((out - minAmountOut o) * maxExecutorRewardBps o <= out * 10000) by nia. nia.
Qed.

Lemma executeOrder_defined o signature deadline reward out s :
  accepted dp e o signature deadline reward out s -> settles o -> 0 <= reward ->
  exists r, executeOrder dp e o signature deadline reward s = Ok r.
Proof.
  intros [Hp Hx Ho Hd Hh Hn Hsig Hq Hm Ht Hw Hrew Hb Ha] Hset H0.
  pose proof Ho as Hord. unfold _validateOrder in Hord. call_inv Hord.
  destruct (quote_reserves o out Hq) as (ri & ro & Hr & Hg).
  apply getAmountOut_bounds in Hg as (_ & _ & _ & Hout & _).
  destruct (reserves_room o ri ro Hset Hr) as [_ Hro].
  assert (minAmountOut o + reward <= out) as Hreq.
  { assert ((out - minAmountOut o) * maxExecutorRewardBps o / 10000 <= out - minAmountOut o); [|lia].
    apply Z.div_le_upper_bound; nia. }
  destruct (settlement_swaps o (minAmountOut o + reward) deadline out) as [rc Hrc]; [done..|lia|done|done|].
  unfold executeOrder, _settleAndDistribute, distribute, u256_sub, _isNonceUnavailable.
  rewrite Hp, Hx, Ho, (proj2 (Z.leb_le _ _) Hd), (bool_decide_eq_false_2 _ Hh), (bool_decide_eq_false_2 _ Hn).
  cbn [negb res_bind]. rewrite Hsig, Hq. cbn [res_bind]. rewrite (proj2 (Z.leb_le _ _) Hm), Ht. cbn [res_bind].
  rewrite u256_ok by lia. cbn [res_bind]. rewrite u256_ok by done. cbn [res_bind].
  rewrite (proj2 (Z.leb_le _ _) Hrew), (proj2 (Z.leb_le _ _) Hb), (proj2 (Z.leb_le _ _) Ha).
  destruct Hset as [-> -> _ Hpay _ _ _]. cbn [res_bind].
  rewrite u256_ok by lia. cbn [res_bind]. rewrite Hrc. cbn [res_bind].
  rewrite u256_ok by lia. cbn [res_bind]. rewrite !Hpay. cbn [res_bind]. destruct (0 <? reward); cbn; eauto.
Qed.

(** C13.  [canExecuteOrder] is right: when it answers OK, an allowed executor who has the
    maker's signature executes the order with any reward within the order's share, if the
    pair has room and the tokens move; and an order that was executed is one it answered OK
    for. *)
Theorem can_execute_order_iff o signature deadline s :
  order_valid o ->
  (canExecuteOrder dp e o s = Ok (true, "OK") -> settles o ->
   _validateExecutor e s = Ok tt -> ce_now e <= deadline ->
   _verifyOrderSignature (dp_crypto dp) (dp_chainid dp) (dp_self dp) (hashOrder (dp_crypto dp) o) (maker o)
     signature = Ok tt ->
   exists out, _getAmountOut e o = Ok out
     /\ forall reward, 0 <= reward <= (out - minAmountOut o) * maxExecutorRewardBps o / 10000 ->
        exists r, executeOrder dp e o signature deadline reward s = Ok r)
  /\ (forall reward r, ce_sender e <> 0 -> executeOrder dp e o signature deadline reward s = Ok r ->
      canExecuteOrder dp e o s = Ok (true, "OK")).
Proof.
  intros Hv. split.
  - intros Hc Hs Hx Hd Hsig. apply canExecuteOrder_ready in Hc; [|done].
    destruct Hc as (Hp & _ & Ho & Hh & Hn & Hb & Ha & out & Hq & Hm & Ht). exists out. split; [done|].
    intros reward Hrew. apply (executeOrder_defined o signature deadline reward out s); [|done|lia].
    constructor; try done; [|lia]. by apply reward_word.
  - intros reward r Hsender H. apply executeOrder_Ok in H as (out & required & rc & [] & _).
    apply ready_canExecuteOrder. unfold ready. split_and!; try done; [|by exists out].
    intros E. unfold _validateExecutor in *. rewrite E in *. intros E0. rewrite E0 in *.
    destruct (ce_sender e =? 0) eqn:?; [|done]. bool_solve. done.
Qed.
End readiness.

(** ** Invalidated nonces *)

(** What makes the contract accept an invalidation, and what it leaves. *)
Lemma invalidate_all_defined maker nonces s :
  NoDup nonces -> Forall (fun n => (maker, n) ∉ ss_invalidatedNonce s) nonces ->
  exists r, invalidate_all maker nonces s = Ok r.
Proof.
  intros Hd. revert s; induction Hd as [|n nonces Hn Hd IH]; intros s Hf; cbn [invalidate_all]; [eauto|].
  apply Forall_cons in Hf as [Hn' Hf]. unfold _isNonceUnavailable.
  rewrite (bool_decide_eq_false_2 _ Hn'). cbn [negb].
  destruct (IH (set_nonce maker n s)) as [r ->]; [|cbn; eauto].
  rewrite Forall_forall in *. intros m Hm. cbn. rewrite elem_of_union, elem_of_singleton.
  intros [[= ->]|?]; [done|]. by apply (Hf m).
Qed.

Lemma invalidate_accepted dp e maker nonces deadline signature s :
  address_value maker <> 0 -> ce_now e <= deadline -> nonces <> [] -> NoDup nonces ->
  Forall (fun n => (address_value maker, n) ∉ ss_invalidatedNonce s) nonces ->
  cr_recover (dp_crypto dp)
    (invalidate_digest (dp_crypto dp) (dp_chainid dp) (dp_self dp) maker nonces deadline) signature
  = Some (address_value maker) ->
  exists s' evs, invalidateNoncesBySig dp e maker nonces deadline signature s = Ok (s', ce_pairs e, evs)
    /\ ss_invalidatedNonce s'
       = list_to_set ((fun n => (address_value maker, n)) <$> nonces) ∪ ss_invalidatedNonce s.
Proof.
  intros Hm Hd Hne Hnd Hf Hr. destruct (invalidate_all_defined _ _ _ Hnd Hf) as [r Hall].
  exists (fst r), (snd r). split; [|by apply invalidate_all_advances in Hall as [_ _ -> _]].
  unfold invalidateNoncesBySig, verify.
  rewrite (proj2 (Z.eqb_neq _ _) Hm), (proj2 (Z.leb_le _ _) Hd), Hr, Z.eqb_refl. cbn [negb res_bind].
  rewrite Hall. destruct nonces; [done|]. rewrite (proj2 (Z.ltb_lt 0 _)) by (simpl; lia). done.
Qed.

(** After any further calls, a used nonce stays used. *)
Lemma used_nonce_stays dp s l s' n :
  settlement_run dp s l s' -> n ∈ ss_invalidatedNonce s -> n ∈ ss_invalidatedNonce s'.
Proof. intros H Hn. apply run_advances in H as [_ _ -> _]. set_solver. Qed.

(** And its order is neither ready nor executed. *)
Lemma used_nonce_dead dp e o s :
  (o_maker o, nonce o) ∈ ss_invalidatedNonce s ->
  canExecuteOrder dp e o s <> Ok (true, "OK")
  /\ forall signature deadline reward r, executeOrder dp e o signature deadline reward s <> Ok r.
Proof.
  intros Hn. split.
  - unfold canExecuteOrder, _isNonceUnavailable. rewrite (bool_decide_eq_true_2 _ Hn).
    repeat match goal with |- (if ?b then _ else _) <> _ => destruct b; [discriminate|] end. discriminate.
  - intros signature deadline reward r H. apply executeOrder_Ok in H as (? & ? & ? & [] & _). done.
Qed.

(** ** The contract's hashes and the client's *)

(** The digest of EIP-712 typed data, for a struct whose encoded members are given: what a
    wallet signs. *)
Definition typed_digest {message} (cr : crypto) (d : TypedData message) (members : list abi_value) : Hex :=
  let domain := td_domain d in
  let domainHash := cr_keccak256 cr (cr_encode cr domain_types
    [text_hash cr "EIP712Domain(string name,string version,uint256 chainId,address verifyingContract)";
     text_hash cr (domain_name domain); text_hash cr (domain_version domain);
     AbiUint (domain_chainId domain); AbiHex (domain_verifyingContract domain)]) in
  let structHash := cr_keccak256 cr (cr_encode cr (tf "typeHash" "bytes32" :: td_types d)
    (text_hash cr (encodeType (td_primaryType d) (td_types d)) :: members)) in
  cr_keccak256 cr ("0x1901" ++ hex_digits domainHash ++ hex_digits structHash).

Definition nonces_members (m : InvalidateNonces) : list abi_value :=
  [AbiHex (in_maker m); AbiHex (in_noncesHash m); AbiUint (in_deadline m)].

Lemma invalidate_digest_signed cr chainid self maker nonces deadline :
  let d := buildInvalidateNoncesTypedData (cr_keccak256 cr) chainid self maker nonces deadline in
  typed_digest cr d (nonces_members (td_message d)) = invalidate_digest cr chainid self maker nonces deadline.
Proof. by destruct nonces. Qed.

Lemma hashOrder_client cr c settlement o :
  hashOrder cr o = hashSignedLimitOrder (cr_keccak256 cr) (cr_stringToHex cr) (cr_encode cr) c settlement o.
Proof. reflexivity. Qed.

(** ** Concrete instances *)

(** Addresses are two digits; the owner's one signature is accepted. *)
Definition sample_deployment : deployment :=
  {| dp_crypto := {| cr_keccak256 := fun _ => "0x00"; cr_stringToHex := fun _ => "0x"; cr_encode := fun _ _ => "0x";
                     cr_recover := fun _ signature => if String.eqb signature "0x77" then Some 10 else None |};
     dp_chainid := 1; dp_self := "0x08" |}.

Definition sample_order (nonce : Z) : SignedLimitOrder :=
  {| maker := "0x0a"; inputToken := "0x05"; outputToken := "0x06"; amountIn := 10 ^ 6; minAmountOut := 19 * 10 ^ 5;
     maxExecutorRewardBps := 3000; triggerPriceX18 := 19 * 10 ^ 17; expiry := 1700000600; nonce := nonce;
     recipient := "0x0a" |}.

Definition sample_call_env : call_env :=
  {| ce_now := 1700000012; ce_sender := 20; ce_owner := 9;
     ce_swap := {| se_timestamp := 1700000012; se_WETH := 4; se_router := 1;
                   se_treasury := PairContract.zero_address; se_bytes := fun a => dec a;
                   se_transferFrom := fun _ _ => Ok tt |};
     ce_pair_address := fun _ => 77;
     ce_pairs := {[ (5, 6) :=
       {| PairContract.lp_totalSupply := 10 ^ 12; PairContract.lp_balances := ∅;
          PairContract.c_reserve0 := 100 * 10 ^ 6; PairContract.c_reserve1 := 200 * 10 ^ 6;
          PairContract.blockTimestampLast := 1600000000; PairContract.price0CumulativeLast := 0;
          PairContract.price1CumulativeLast := 0 |} ]};
     ce_decimals := fun _ => 6; ce_balanceOf := fun _ _ => 10 ^ 9; ce_allowance := fun _ _ => 10 ^ 9;
     ce_transferFrom := fun _ _ _ => Ok tt; ce_approve := fun _ _ => Ok tt; ce_pay := fun _ _ _ _ => Ok tt |}.

Definition sample_settled : res string outcome :=
  executeOrder sample_deployment sample_call_env (sample_order 4) "0x77" 1700000100 20000 deployed_settlement.

Lemma execution_terms_witness :
  exists out q s' ps evs, sample_settled = Ok (s', ps, evs)
    /\ _getAmountOut sample_call_env (sample_order 4) = Ok out /\ 1900000 <= out - 20000 /\ 19 * 10 ^ 17 <= q.
Proof.
  destruct sample_settled as [[[s' ps] evs]|] eqn:E; [|vm_compute in E; discriminate E].
  destruct (execution_terms sample_deployment sample_call_env (sample_order 4) "0x77" 1700000100 20000
    deployed_settlement s' ps evs ltac:(lia) E) as (out & q & Ho & _ & Hm & _ & _ & _ & Hq & _).
  exists out, q, s', ps, evs. split; [reflexivity|]. split; [exact Ho|]. split; [exact Hm|exact Hq].
Defined.

Lemma nonces_used_once_witness :
  exists s, NoDup (all_consumed [(sample_call_env, InvalidateNoncesBySig "0x0a" [4; 7] 1700000100 "0x77")])
    /\ ss_invalidatedNonce s = {[ (10, 4); (10, 7) ]}.
Proof.
  destruct (exec_settlement sample_deployment sample_call_env
    (InvalidateNoncesBySig "0x0a" [4; 7] 1700000100 "0x77") deployed_settlement) as [[[s ps] evs]|] eqn:E;
    [|vm_compute in E; discriminate E].
  exists s. destruct (nonces_used_once sample_deployment
    [(sample_call_env, InvalidateNoncesBySig "0x0a" [4; 7] 1700000100 "0x77")] s) as (Hd & Hn & _).
  { econstructor; [exact E|constructor]. }
  split; [exact Hd|]. rewrite Hn. vm_compute. reflexivity.
Defined.

Lemma can_execute_order_iff_witness :
  canExecuteOrder sample_deployment sample_call_env (sample_order 4) deployed_settlement = Ok (true, "OK").
Proof.
  destruct sample_settled as [r|] eqn:E; [|vm_compute in E; discriminate E].
  apply (proj2 (can_execute_order_iff sample_deployment sample_call_env (sample_order 4) "0x77" 1700000100
    deployed_settlement ltac:(unfold order_valid, uint256; cbn; repeat (apply Forall_cons_2; [lia|]); apply Forall_nil_2)))
    with 20000 r; [discriminate|exact E].
Defined.
