(* ===== verification/SwapQuotes.v ===== *)
(** * Rates, slippage and route quotes of the swap widget (frontend/src/components/SwapWidget.tsx)

    The functions of the module outside the component, and the two effects that keep a
    route quote: one for the trade, one for the market rate.  The backend's reply is a
    parameter. *)

From S2P Require Import Prelude JsString JsNumber JsValue JsError LimitOrders Amounts OrdersApi FrontendConfig.
From Stdlib Require Import SpecFloat Ascii.
Open Scope string_scope.
Open Scope Z_scope.
Open Scope flux_scope.

Inductive InputMode := pay | receive.
#[export] Instance InputMode_eq_dec : EqDecision InputMode.
Proof. solve_decision. Defined.

(** [LimitPriceUnit] has the same two values. *)
Definition LimitPriceUnit : Type := InputMode.

Inductive LimitPricePreset := market | percent (p : Z) | custom.
#[export] Instance LimitPricePreset_eq_dec : EqDecision LimitPricePreset.
Proof. solve_decision. Defined.

Definition RoutePath : Type := list string.

Record BackendRouteState := {
  rt_didFetch : bool;
  rt_loading : bool;
  rt_executionPath : option RoutePath;
  rt_displayPath : jsval;
  rt_amountIn : option Z;
  rt_amountOut : option Z;
  rt_error : option string;
}.

Definition route_state (didFetch loading : bool) (error : option string) : BackendRouteState :=
  {| rt_didFetch := didFetch; rt_loading := loading; rt_executionPath := None; rt_displayPath := VUndef;
     rt_amountIn := None; rt_amountOut := None; rt_error := error |}.

Definition MIN_CUSTOM_SLIPPAGE : string := "0.1".

Definition getTokenBySymbol (tokens : list SwapTokenOption) (symbol : string) : option SwapTokenOption :=
  find_first (fun token => String.eqb (st_symbol token) symbol) tokens.

(** [Math.min(max, Math.max(min, value))]; bounds are numbers, the value may be NaN. *)
Definition clamp (value min max : num) : num :=
  match value with S754_nan => num_nan | _ => num_min max (num_max min value) end.

(** The replacement of the pattern: an optional point and zeros, at the end. *)
Fixpoint strip_zeros (s : string) : string :=
  match s with
  | EmptyString => EmptyString
  | String c r =>
    if (Ascii.eqb c "." && str_nonempty r && all_zeros r) || all_zeros s then EmptyString
    else String c (strip_zeros r)
  end.

Definition formatLimitRateValue (value : num) (decimals : nat) : string :=
  strip_zeros (num_to_fixed value decimals).

Definition is_positive (x : num) : bool := is_finite x && negb (num_leb x num_zero).

(** The common body of the two conversions: the rate, or its inverse. *)
Definition convert_rate (rate : string) (unit : LimitPriceUnit) (decimals : nat) : string :=
  if String.eqb (trim rate) "" then ""
  else
    let numeric := num_of_string rate in
    if negb (is_positive numeric) then ""
    else
      let value := match unit with receive => numeric | pay => num_div (num_of_Z 1) numeric end in
      if negb (is_positive value) then "" else formatLimitRateValue value decimals.

Definition canonicalLimitRateToDisplay (canonicalRate : string) (unit : LimitPriceUnit) : string :=
  convert_rate canonicalRate unit 8.

Definition displayLimitRateToCanonical (displayRate : string) (unit : LimitPriceUnit) : string :=
  convert_rate displayRate unit 12.

Definition applyLimitPresetToCanonicalMarket (marketRate displayPremiumPercent : num)
    (unit : LimitPriceUnit) : option num :=
  if negb (is_positive marketRate) || negb (is_finite displayPremiumPercent) then None
  else
    let factor := num_add (num_of_Z 1) (num_div displayPremiumPercent (num_of_Z 100)) in
    if negb (is_positive factor) then None
    else Some match unit with
              | receive => num_mul marketRate factor
              | pay => num_div marketRate factor
              end.

Definition areAddressesEqual (left right : option string) : bool :=
  match left, right with
  | Some l, Some r => str_nonempty l && str_nonempty r && String.eqb (to_lower l) (to_lower r)
  | _, _ => false
  end.

Definition areRoutePathsEqual (left right : option RoutePath) : bool :=
  match left, right with
  | Some l, Some r =>
    Nat.eqb (length l) (length r)
    && forallb (fun p => areAddressesEqual (Some (fst p)) (Some (snd p))) (zip l r)
  | None, None => true
  | _, _ => false
  end.

Definition isSameRouteState (left right : BackendRouteState) : bool :=
  Bool.eqb (rt_didFetch left) (rt_didFetch right)
  && Bool.eqb (rt_loading left) (rt_loading right)
  && bool_decide (rt_error left = rt_error right)
  && bool_decide (rt_amountIn left = rt_amountIn right)
  && bool_decide (rt_amountOut left = rt_amountOut right)
  && areRoutePathsEqual (rt_executionPath left) (rt_executionPath right).

Definition normalizeCustomSlippage (value : string) : string :=
  let trimmed := trim value in
  if String.eqb trimmed "" then MIN_CUSTOM_SLIPPAGE
  else
    let numeric := num_of_string trimmed in
    if negb (is_finite numeric) || num_ltb numeric (num_of_string MIN_CUSTOM_SLIPPAGE)
    then MIN_CUSTOM_SLIPPAGE else trimmed.

Definition isMeaningfulPath (path : option RoutePath) : bool :=
  match path with
  | Some p => (2 <=? Z.of_nat (length p)) && forallb (fun a => negb (String.eqb a zeroAddress)) p
  | None => false
  end.

Definition parseOptionalBigInt (value : jsval) : option Z :=
  if truthy value then match to_bigint value with Ok z => Some z | Throw _ => None end else None.

(** A repeated field of the reply is an array of texts. *)
Definition parseRoutePath (path : jsval) : res js_error (option RoutePath) :=
  if negb (truthy path) then Ok None
  else match path with
  | VArr l =>
    if Z.of_nat (length l) <? 2 then Ok None
    else let normalized := to_string <$> l in
         Ok (if isMeaningfulPath (Some normalized) then Some normalized else None)
  | _ => Throw (Error "path.map is not a function")
  end.

Definition getBackendRequestTokenAddress (token : option SwapTokenOption) : option string :=
  match token with
  | None => None
  | Some t => match st_kind t with native => Some zeroAddress | erc20 => st_address t end
  end.

(** ** Asking for a route *)

Definition BackendQuoteType (m : InputMode) : string :=
  match m with pay => "ROUTE_QUOTE_TYPE_EXACT_INPUT" | receive => "ROUTE_QUOTE_TYPE_EXACT_OUTPUT" end.

Record route_request := {
  rq_chainId : Z;
  rq_tokenIn : string;
  rq_tokenOut : string;
  rq_amount : Z;
  rq_quoteType : string;
  rq_maxHops : option Z;
}.

Definition route_body (payload : route_request) : jsval :=
  VObj [("chainId", VNum (num_of_Z (rq_chainId payload))); ("tokenIn", VStr (rq_tokenIn payload));
        ("tokenOut", VStr (rq_tokenOut payload)); ("amount", VStr (dec (rq_amount payload)));
        ("quoteType", VStr (rq_quoteType payload));
        ("maxHops", VNum (num_of_Z (default 1 (rq_maxHops payload))))].

(** A response: whether its status is ok and its body, if it parses. *)
Record http_reply := { hr_ok : bool; hr_json : option jsval }.

(** [result?.notice?.k] *)
Definition notice_field (k : string) (result : jsval) : jsval := get k (get "notice" result).

(** The notice of a failed call, as the message of the error thrown. *)
Definition reply_error (fallback : string) (result : jsval) : js_error :=
  let message := nullish (notice_field "message" result) (VStr fallback) in
  let hint := notice_field "hint" result in
  Error (if truthy hint then to_string message ++ ": " ++ to_string hint else to_string message).

Definition reply_failed (r : http_reply) (result : jsval) : bool :=
  negb (hr_ok r) || match notice_field "success" result with VBool false => true | _ => false end.

Definition fetchBestRoute (reply : res js_error http_reply) : res js_error BackendRouteState :=
  let* response := reply in
  let result := default VNull (hr_json response) in
  guard* negb (reply_failed response result) or reply_error "Get best route failed" result in
  let* executionPath := parseRoutePath (get "routerPath" (get "execution" result)) in
  let selected := get "selectedRoute" result in
  Ok {| rt_didFetch := true; rt_loading := false; rt_executionPath := executionPath;
        rt_displayPath := get "pathTokens" selected;
        rt_amountIn := parseOptionalBigInt (get "amountIn" selected);
        rt_amountOut := parseOptionalBigInt (get "amountOut" selected);
        rt_error := None |}.

(** ** The two effects *)

(** What an effect that ran leaves: the state set at once, and the request sent. *)
Definition effect_start : Type := (BackendRouteState -> BackendRouteState) * option route_request.

Definition positive_amount (a : option Z) : bool := match a with Some z => 0 <? z | None => false end.

(** The dependencies of the effects. *)
Record route_inputs := {
  ri_supported : bool;
  ri_chainId : option Z;
  ri_tokenIn : option string;
  ri_tokenOut : option string;
  ri_mode : InputMode;
  ri_payAmount : option Z;
  ri_receiveAmount : option Z;
}.

Definition nonempty_text (s : option string) : option string :=
  match s with Some t => if str_nonempty t then Some t else None | None => None end.

(** [chainId] 0 is falsy. *)
Definition known_chain (c : option Z) : option Z :=
  match c with Some z => if z =? 0 then None else Some z | None => None end.

Definition idle : BackendRouteState := route_state false false None.

Definition trade_route_effect (d : route_inputs) : effect_start :=
  let amount := match ri_mode d with pay => ri_payAmount d | receive => ri_receiveAmount d end in
  match ri_supported d, known_chain (ri_chainId d), nonempty_text (ri_tokenIn d),
        nonempty_text (ri_tokenOut d), amount with
  | true, Some chainId, Some tokenIn, Some tokenOut, Some a =>
    if 0 <? a then
      (fun _ => route_state false true None,
       Some {| rq_chainId := chainId; rq_tokenIn := tokenIn; rq_tokenOut := tokenOut; rq_amount := a;
               rq_quoteType := BackendQuoteType (ri_mode d); rq_maxHops := Some 1 |})
    else (fun _ => idle, None)
  | _, _, _, _, _ => (fun _ => idle, None)
  end.

Definition with_loading (loading : bool) (error : option string) (s : BackendRouteState) : BackendRouteState :=
  {| rt_didFetch := rt_didFetch s; rt_loading := loading; rt_executionPath := rt_executionPath s;
     rt_displayPath := rt_displayPath s; rt_amountIn := rt_amountIn s; rt_amountOut := rt_amountOut s;
     rt_error := error |}.

(** The rate is that of one unit of the token paid; while it is refreshed the last one
    stays. *)
Definition rate_route_effect (d : route_inputs) (rateQuoteAmountIn : option Z) : effect_start :=
  match ri_supported d, known_chain (ri_chainId d), nonempty_text (ri_tokenIn d),
        nonempty_text (ri_tokenOut d), rateQuoteAmountIn with
  | true, Some chainId, Some tokenIn, Some tokenOut, Some a =>
    if 0 <? a then
      (fun current => with_loading (negb (rt_didFetch current))
                        (if rt_didFetch current then rt_error current else None) current,
       Some {| rq_chainId := chainId; rq_tokenIn := tokenIn; rq_tokenOut := tokenOut; rq_amount := a;
               rq_quoteType := BackendQuoteType pay; rq_maxHops := Some 1 |})
    else (fun _ => idle, None)
  | _, _, _, _, _ => (fun _ => idle, None)
  end.

(** What a settled request sets. *)
Definition settled_state (reply : res js_error http_reply) : BackendRouteState :=
  match fetchBestRoute reply with
  | Ok s => s
  | Throw e => route_state true false (Some (message_or e "Get best route failed"))
  end.

Definition settle_trade (reply : res js_error http_reply) (_ : BackendRouteState) : BackendRouteState :=
  settled_state reply.

Definition settle_rate (reply : res js_error http_reply) (current : BackendRouteState) : BackendRouteState :=
  let next := settled_state reply in if isSameRouteState current next then current else next.

(** ** The effects over time *)

(** A render with new dependencies cancels the request of the last one and runs the
    effect; a reply arrives for a request at any time, in any order. *)
Inductive route_event :=
| Rendered (start : effect_start)
| Replied (id : nat) (reply : res js_error http_reply).

(** The requests sent so far, by number; the one not cancelled; the state. *)
Record route_run := {
  rr_sent : list route_request;
  rr_live : option nat;
  rr_state : BackendRouteState;
}.

Definition initial_run : route_run := {| rr_sent := []; rr_live := None; rr_state := idle |}.

Definition route_step (settle : res js_error http_reply -> BackendRouteState -> BackendRouteState)
    (r : route_run) (e : route_event) : route_run :=
  match e with
  | Rendered (set_now, request) =>
    {| rr_sent := (rr_sent r ++ option_list request)%list;
       rr_live := match request with Some _ => Some (length (rr_sent r)) | None => None end;
       rr_state := set_now (rr_state r) |}
  | Replied id reply =>
    if bool_decide (rr_live r = Some id)
    then {| rr_sent := rr_sent r; rr_live := rr_live r; rr_state := settle reply (rr_state r) |}
    else r
  end.

Definition run_route settle (r : route_run) (l : list route_event) : route_run := foldl (route_step settle) r l.

Lemma run_route_app settle r l1 l2 : run_route settle r (l1 ++ l2)%list = run_route settle (run_route settle r l1) l2.
Proof. unfold run_route. by rewrite foldl_app. Qed.

(** The replies to a request among some events, and whether some event is a render. *)
Definition replies_to (id : nat) (l : list route_event) : list (res js_error http_reply) :=
  omap (fun e => match e with
                 | Replied i reply => if bool_decide (i = id) then Some reply else None
                 | Rendered _ => None
                 end) l.
Definition no_render (l : list route_event) : Prop :=
  Forall (fun e => match e with Rendered _ => False | Replied _ _ => True end) l.

(** Between two renders only the replies to the live request count. *)
Lemma run_replies settle r l :
  no_render l ->
  rr_live (run_route settle r l) = rr_live r
  /\ rr_state (run_route settle r l)
     = match rr_live r with
       | Some id => foldl (fun s reply => settle reply s) (rr_state r) (replies_to id l)
       | None => rr_state r
       end.
Proof.
  intros Hl. revert r. induction Hl as [|e l He _ IH]; intros r; [cbn; split; [done|by destruct (rr_live r)]|].
  destruct e as [|id reply]; [done|]. change (run_route settle r (Replied id reply :: l))
    with (run_route settle (route_step settle r (Replied id reply)) l).
  destruct (IH (route_step settle r (Replied id reply))) as [-> ->]. cbn [route_step].
  destruct (rr_live r) as [live|] eqn:El; [|by rewrite bool_decide_false, El by done].
  destruct (decide (live = id)) as [->|Hne].
  - rewrite bool_decide_true by done. cbn. by rewrite bool_decide_true by done.
  - rewrite bool_decide_false, El by congruence. cbn. by rewrite bool_decide_false by congruence.
Qed.

(** The trade quote is never stale: whatever replies arrive in whatever order, once
    the component has rendered with some inputs the quote is the one the effect set for
    these inputs, or the last reply to the request it sent for them; replies to earlier
    requests change nothing. *)
Theorem trade_quote_is_latest r d replies :
  no_render replies ->
  let start := trade_route_effect d in
  let id := length (rr_sent (run_route settle_trade initial_run r)) in
  let now := run_route settle_trade initial_run (r ++ Rendered start :: replies)%list in
  rr_state now
  = match snd start, last (replies_to id replies) with
    | Some request, Some reply => settled_state reply
    | Some request, None => route_state false true None
    | None, _ => idle
    end
  /\ (forall request, snd start = Some request -> rr_sent (run_route settle_trade initial_run r) ++ [request]
        = rr_sent (run_route settle_trade initial_run (r ++ [Rendered start])) /\ rr_live now = Some id)%list.
Proof.
  intros Hn start id now. unfold now. rewrite !run_route_app. cbn [run_route foldl].
  change (foldl (route_step settle_trade)) with (run_route settle_trade).
  set (before := run_route settle_trade initial_run r) in *.
  destruct (run_replies settle_trade (route_step settle_trade before (Rendered start)) replies Hn) as [Hlive Hst].
  rewrite Hst. destruct start as [set_now request] eqn:Es. cbn [route_step rr_live rr_state rr_sent snd] in *.
  assert (forall s, set_now s = match request with Some _ => route_state false true None | None => idle end) as Hset.
  { intros s. unfold start, trade_route_effect in Es.
    repeat (case_match; simplify_eq; try done). }
  split.
  - destruct request as [request|]; [|by rewrite Hset]. rewrite Hset.
    change (length (rr_sent before)) with id.
    destruct (replies_to id replies) as [|x l] using rev_ind; [done|].
    rewrite foldl_app, last_snoc. done.
  - intros q ->. rewrite Hlive. done.
Qed.

(** ** Concrete instances *)

Definition sample_inputs (amount : Z) : route_inputs :=
  {| ri_supported := true; ri_chainId := Some 31337; ri_tokenIn := Some "0x05"; ri_tokenOut := Some "0x06";
     ri_mode := pay; ri_payAmount := Some amount; ri_receiveAmount := None |}.
Definition sample_reply (amount : string) : res js_error http_reply :=
  Ok {| hr_ok := true; hr_json := Some (VObj [("selectedRoute", VObj [("amountOut", VStr amount)])]) |}.

(** The reply to the first request arrives after that to the second. *)
Lemma trade_quote_is_latest_witness :
  rt_amountOut (rr_state (run_route settle_trade initial_run
    [Rendered (trade_route_effect (sample_inputs 1)); Rendered (trade_route_effect (sample_inputs 2));
     Replied 1 (sample_reply "20"); Replied 0 (sample_reply "10")])) = Some 20.
Proof.
  destruct (trade_quote_is_latest [Rendered (trade_route_effect (sample_inputs 1))] (sample_inputs 2)
    [Replied 1 (sample_reply "20"); Replied 0 (sample_reply "10")]) as [H _]; [by repeat constructor|].
  cbn [app] in H. rewrite H. vm_compute. reflexivity.
Defined.
