(* ===== verification/SwapWidget.v ===== *)
(** * The swap widget (frontend/src/components/SwapWidget.tsx)

    A render: what the component derives from its state (useState), from what its hooks
    read (balances, allowance, reserves, the wallet) and from the configuration; the
    action the button stands for; the handlers of the fields. *)

From S2P Require Import Prelude JsString JsNumber JsValue JsError LimitOrders Amounts OrdersApi.
From S2P Require Import FrontendConfig SwapQuotes.
From Stdlib Require Import SpecFloat Ascii.
Open Scope string_scope.
Open Scope Z_scope.

Inductive ActionKind := approve | revoke | swap | limit | wrap.
#[export] Instance ActionKind_eq_dec : EqDecision ActionKind.
Proof. solve_decision. Defined.

Inductive TradeMode := mode_swap | mode_limit.
#[export] Instance TradeMode_eq_dec : EqDecision TradeMode.
Proof. solve_decision. Defined.

Inductive SwapSlippageMode := slippage_auto | slippage_custom.

Inductive modal_kind := modal_success | modal_error.
Record ResultModalState := { rm_kind : modal_kind; rm_title : option string; rm_message : string }.

(** The state of the component: what is traded, the limit order, the settings, the status
    of the last action, the mode and the two route states. *)
Record trade_form := {
  w_payTokenSymbol : string;
  w_receiveTokenSymbol : string;
  w_payAmount : string;
  w_receiveAmountInput : string;
  w_inputMode : InputMode;
}.

Record limit_form := {
  w_limitRate : string;
  w_limitExpiry : string;
  w_limitPriceUnit : LimitPriceUnit;
  w_limitPricePreset : LimitPricePreset;
}.

Record swap_settings := {
  w_slippage : string;
  w_slippageMode : SwapSlippageMode;
  w_deadline : string;
}.

Record action_status := {
  w_lastAction : option ActionKind;
  w_submittedTx : option (string * ActionKind);
  w_resultModal : option ResultModalState;
  w_txError : option string;
}.

Record widget := {
  w_form :> trade_form;
  w_limit :> limit_form;
  w_settings :> swap_settings;
  w_status :> action_status;
  w_tradeMode : TradeMode;
  w_tradeRouteState : BackendRouteState;
  w_rateRouteState : BackendRouteState;
}.

Record balance := { b_value : Z; b_formatted : string }.

(** What the hooks give a render.  The deferred amounts are those of this or of an earlier
    render. *)
Record hooks := {
  h_isZh : bool;
  h_enableModeSwitch : bool;
  h_mounted : bool;
  h_chainId : Z;
  h_publicClient : bool;
  h_address : option string;
  h_isConnected : bool;
  h_openConnectModal : bool;
  h_isWritePending : bool;
  h_isSigning : bool;
  h_isConfirming : bool;
  h_isConfirmed : bool;
  h_receiptReverted : bool;
  h_deferredPayAmount : string;
  h_deferredReceiveAmount : string;
  h_payBalance : option balance;
  h_receiveBalance : option balance;
  h_nativeBalance : option balance;
  h_reserves : option (Z * Z);
  h_token0 : option string;
  h_allowance : option Z;
}.

Definition tr (h : hooks) (zh en : string) : string := if h_isZh h then zh else en.

(** The functions of viem, of the locale and of the configuration the component uses. *)
Record libraries := {
  lib_formatUnits : Z -> Z -> string;
  lib_parseUnits : string -> Z -> option Z;
  lib_toLocaleString : num -> nat -> string;
  lib_contract : string -> option Z -> option string;
  lib_supported : option Z -> bool;
}.

Section render.
Variable lib : libraries.
Variable h : hooks.
Variable w : widget.

Definition formatAmount (value : option string) (fractionDigits : nat) : string :=
  formatDisplayAmount (lib_toLocaleString lib) value fractionDigits.
Definition formatBigInt (value : option Z) (decimals : Z) (fractionDigits : nat) : string :=
  formatBigIntAmount (lib_formatUnits lib) (lib_toLocaleString lib) value decimals fractionDigits.
Definition parse (value : string) (decimals : Z) : option Z := parseAmount (lib_parseUnits lib) value decimals.

Definition isLimitMode : bool := h_enableModeSwitch h && bool_decide (w_tradeMode w = mode_limit).
Definition effectiveChainId : option Z := if h_mounted h then Some (h_chainId h) else None.
Definition contract (name : string) : option string := nonempty_text (lib_contract lib name effectiveChainId).
Definition tokenOptions : list SwapTokenOption := getSwapTokenOptions (fun n => lib_contract lib n effectiveChainId).
Definition supportedChain : bool := lib_supported lib effectiveChainId.
Definition routerAddress : option string := contract "FluxSwapRouter".
Definition settlementAddress : option string := contract "FluxSignedOrderSettlement".
Definition factoryAddress : option string := contract "FluxSwapFactory".
Definition wrappedNativeAddress : option string := contract "MockWETH".

Definition payToken : option SwapTokenOption :=
  match getTokenBySymbol tokenOptions (w_payTokenSymbol w) with
  | Some t => Some t
  | None => head tokenOptions
  end.

Definition other_symbol (symbol : string) (t : option SwapTokenOption) : bool :=
  match t with Some t => negb (String.eqb symbol (st_symbol t)) | None => true end.

Definition receiveToken : option SwapTokenOption :=
  match find_first (fun token => String.eqb (st_symbol token) (w_receiveTokenSymbol w)
                                 && other_symbol (st_symbol token) payToken) tokenOptions with
  | Some t => Some t
  | None => find_first (fun token => other_symbol (st_symbol token) payToken) tokenOptions
  end.

Definition kind_of (t : option SwapTokenOption) : option token_kind := st_kind <$> t.
Definition decimals_of (t : option SwapTokenOption) : Z := match t with Some t => st_decimals t | None => 18 end.

Definition approvalSpenderAddress : option string := if isLimitMode then settlementAddress else routerAddress.

(** The token the payment is taken from: in a limit order the wrapped one. *)
Definition payBalanceTokenAddress : option string :=
  match payToken with
  | Some t => match st_kind t with
              | erc20 => st_address t
              | native => if isLimitMode then wrappedNativeAddress else None
              end
  | None => if isLimitMode then wrappedNativeAddress else None
  end.
Definition approvalTokenAddress : option string := payBalanceTokenAddress.

(** The effect that replaces a token the chain does not have. *)
Definition token_fallback_effect : string * string :=
  match tokenOptions with
  | [] => (w_payTokenSymbol w, w_receiveTokenSymbol w)
  | first :: _ =>
    let known symbol := match getTokenBySymbol tokenOptions symbol with Some _ => true | None => false end in
    (if known (w_payTokenSymbol w) then w_payTokenSymbol w else st_symbol first,
     if known (w_receiveTokenSymbol w) then w_receiveTokenSymbol w
     else st_symbol (default first
            (find_first (fun token => negb (String.eqb (st_symbol token) (w_payTokenSymbol w))) tokenOptions)))
  end.

Definition parsedPayAmount : option Z := parse (h_deferredPayAmount h) (decimals_of payToken).
Definition parsedReceiveAmount : option Z := parse (h_deferredReceiveAmount h) (decimals_of receiveToken).

Definition directPath : RoutePath :=
  match payToken, receiveToken with
  | Some p, Some r => [st_routeAddress p; st_routeAddress r]
  | _, _ => [zeroAddress; zeroAddress]
  end.

Definition displayedPayBalance : option balance :=
  if isLimitMode && bool_decide (kind_of payToken = Some native) then h_nativeBalance h else h_payBalance h.

Definition hasQuoteInput : bool :=
  match w_inputMode w with pay => positive_amount parsedPayAmount | receive => positive_amount parsedReceiveAmount end.

Definition rateQuoteAmountIn : option Z := (fun t => 10 ^ st_decimals t) <$> payToken.

Definition route_deps : route_inputs :=
  {| ri_supported := supportedChain; ri_chainId := effectiveChainId;
     ri_tokenIn := getBackendRequestTokenAddress payToken;
     ri_tokenOut := getBackendRequestTokenAddress receiveToken;
     ri_mode := w_inputMode w; ri_payAmount := parsedPayAmount; ri_receiveAmount := parsedReceiveAmount |}.

Definition selectedExecutionPath : option RoutePath := rt_executionPath (w_tradeRouteState w).
Definition quotedAmountOut : option Z := rt_amountOut (w_tradeRouteState w).
Definition quotedAmountIn : option Z := rt_amountIn (w_tradeRouteState w).
Definition quotedRateOut : option Z := rt_amountOut (w_rateRouteState w).
Definition executableRoutePath : option RoutePath :=
  match selectedExecutionPath with Some p => Some p | None => rt_executionPath (w_rateRouteState w) end.
Definition hasAvailableSwapRoute : bool :=
  match rt_executionPath (w_rateRouteState w) with Some _ => positive_amount quotedRateOut | None => false end.
Definition displayedRoutePath : RoutePath := default directPath executableRoutePath.
Definition canUseDirectReserveData : bool :=
  match displayedRoutePath, directPath with
  | [a; b], [a'; b'] => areAddressesEqual (Some a) (Some a') && areAddressesEqual (Some b) (Some b')
  | _, _ => false
  end.

Definition isQuoteLoading : bool := hasQuoteInput && rt_loading (w_tradeRouteState w).

(** Not 0 nor missing. *)
Definition nonzero (a : option Z) : bool := match a with Some z => negb (z =? 0) | None => false end.

Definition hasQuoteError : bool :=
  hasQuoteInput && negb isQuoteLoading
  && (match rt_error (w_tradeRouteState w) with Some e => str_nonempty e | None => false end
      || (rt_didFetch (w_tradeRouteState w)
          && (negb (nonzero quotedAmountIn) || negb (nonzero quotedAmountOut)))).

Definition limitMarketRateDisplay : string :=
  match receiveToken with
  | Some t => if nonzero quotedRateOut then formatBigInt quotedRateOut (st_decimals t) 8 else ""
  | None => ""
  end.

Definition payTokenIsToken0 : bool :=
  match h_token0 h, payToken with
  | Some t0, Some t => str_nonempty t0 && String.eqb (to_lower t0) (to_lower (st_routeAddress t))
  | _, _ => false
  end.

Definition pool_reserves : option (Z * Z) :=
  match h_reserves h, payToken, receiveToken with
  | Some (r0, r1), Some _, Some _ =>
    if canUseDirectReserveData then Some (if payTokenIsToken0 then (r0, r1) else (r1, r0)) else None
  | _, _, _ => None
  end.
Definition payReserve : option Z := fst <$> pool_reserves.
Definition receiveReserve : option Z := snd <$> pool_reserves.

Definition shown_digits (t : SwapTokenOption) : nat := Z.to_nat (Z.min (st_decimals t) 8).

Definition maxPayAmountDisplay : option string :=
  match payReserve, payToken with
  | Some r, Some t => Some (formatBigInt (Some r) (st_decimals t) (shown_digits t))
  | _, _ => None
  end.
Definition maxReceivable : option Z := (fun r => if 0 <? r then r - 1 else r) <$> receiveReserve.
Definition maxReceiveAmountDisplay : option string :=
  match receiveReserve, receiveToken with
  | Some r, Some t =>
    Some (formatBigInt (Some (if 0 <? r then r - 1 else 0)) (st_decimals t) (shown_digits t))
  | _, _ => None
  end.

(** ** Limit amounts *)

Definition is_nonneg (x : num) : bool := is_finite x && num_leb num_zero x.
Definition limitRateNumeric : num := num_of_string (w_limitRate w).
Definition payAmountNumeric : num := num_of_string (w_payAmount w).
Definition receiveAmountNumeric : num := num_of_string (w_receiveAmountInput w).
Definition displayLimitRate : string := canonicalLimitRateToDisplay (w_limitRate w) (w_limitPriceUnit w).

(** The texts of the two amounts of a limit order; the one not typed is the other at the
    rate, as it is displayed. *)
Definition limitReceiveAmount : string :=
  match receiveToken with
  | Some t =>
    if isLimitMode && str_nonempty (w_limitRate w) && str_nonempty (w_payAmount w)
       && is_nonneg limitRateNumeric && is_nonneg payAmountNumeric
    then formatAmount (Some (num_to_string (num_mul payAmountNumeric limitRateNumeric))) (shown_digits t)
    else ""
  | None => ""
  end.

Definition limitPayAmount : string :=
  match payToken with
  | Some t =>
    if isLimitMode && str_nonempty (w_limitRate w) && str_nonempty (w_receiveAmountInput w)
       && is_positive limitRateNumeric && is_nonneg receiveAmountNumeric
    then formatAmount (Some (num_to_string (num_div receiveAmountNumeric limitRateNumeric))) (shown_digits t)
    else ""
  | None => ""
  end.

Definition limit_by_receive : bool := isLimitMode && bool_decide (w_inputMode w = receive).
Definition effectiveLimitPayAmount : string := if limit_by_receive then limitPayAmount else w_payAmount w.
Definition effectiveLimitReceiveAmount : string :=
  if limit_by_receive then w_receiveAmountInput w else limitReceiveAmount.

Definition quotedPayAmountRaw : string :=
  match quotedAmountIn, payToken with
  | Some q, Some t => lib_formatUnits lib q (st_decimals t)
  | _, _ => ""
  end.

Definition resolvedLimitPayAmount : string :=
  if str_nonempty effectiveLimitPayAmount then effectiveLimitPayAmount
  else if limit_by_receive then quotedPayAmountRaw else "".

Definition quotedReceiveAmountDisplay : string :=
  match quotedAmountOut, receiveToken with
  | Some _, Some t => formatBigInt quotedAmountOut (st_decimals t) 6
  | _, _ => ""
  end.

Definition receiveAmount : string :=
  if isLimitMode then effectiveLimitReceiveAmount
  else match w_inputMode w with receive => w_receiveAmountInput w | pay => quotedReceiveAmountDisplay end.

Definition quotedPayAmountDisplay : string :=
  if str_nonempty quotedPayAmountRaw
  then formatAmount (Some quotedPayAmountRaw) (Z.to_nat (Z.min (decimals_of payToken) 8)) else "".

Definition payAmountDisplay : string :=
  if isLimitMode
  then if str_nonempty effectiveLimitPayAmount then effectiveLimitPayAmount else quotedPayAmountDisplay
  else match w_inputMode w with
       | pay => w_payAmount w
       | receive => formatBigInt quotedAmountIn (decimals_of payToken) 6
       end.

Definition limit_parse (value : string) (t : option SwapTokenOption) : option Z :=
  match t with Some t => if isLimitMode then parse value (st_decimals t) else None | None => None end.
Definition parsedLimitPayAmount : option Z := limit_parse resolvedLimitPayAmount payToken.
Definition parsedLimitReceiveAmount : option Z := limit_parse effectiveLimitReceiveAmount receiveToken.

(** [limitHasInputValue] and [hasSwapInputValue] *)
Definition hasSwapInputValue : bool :=
  str_nonempty (trim match w_inputMode w with pay => w_payAmount w | receive => w_receiveAmountInput w end).

(** ** Balance and allowance *)

Definition requiredInputAmount : option Z := if isLimitMode then parsedLimitPayAmount else quotedAmountIn.

Definition insufficientBalance : bool :=
  match requiredInputAmount, displayedPayBalance with
  | Some r, Some b => negb (r =? 0) && (b_value b <? r)
  | _, _ => false
  end.

Definition needsWrapForLimit : bool :=
  isLimitMode && bool_decide (kind_of payToken = Some native)
  && match parsedLimitPayAmount, wrappedNativeAddress, h_nativeBalance h, h_payBalance h with
     | Some p, Some _, Some unwrapped, Some wrapped =>
       (0 <? p) && (b_value wrapped <? p) && (p <=? b_value unwrapped)
     | _, _, _, _ => false
     end.

Definition needsApproval : bool :=
  match approvalTokenAddress, requiredInputAmount, h_allowance h with
  | Some a, Some r, Some allowance => str_nonempty a && negb (r =? 0) && (allowance <? r)
  | _, _, _ => false
  end.

(** ** Slippage *)

Definition pow10 (decimals : Z) : num := num_of_Z (10 ^ decimals).

Definition midPrice : option num :=
  match quotedRateOut, receiveToken with
  | Some q, Some t => if 0 <? q then Some (num_div (num_of_Z q) (pow10 (st_decimals t))) else None
  | _, _ => None
  end.

Definition executionPrice : option num :=
  match quotedAmountIn, quotedAmountOut, payToken, receiveToken with
  | Some i, Some o, Some p, Some r =>
    if (0 <? i) && (0 <? o)
    then Some (num_div (num_div (num_of_Z o) (pow10 (st_decimals r)))
                       (num_div (num_of_Z i) (pow10 (st_decimals p))))
    else None
  | _, _, _, _ => None
  end.

(** [Math.max(0, x)] *)
Definition max_zero (x : num) : num :=
  match x with S754_nan => num_nan | _ => num_max num_zero x end.

Definition priceImpactPercent : option num :=
  match midPrice, executionPrice with
  | Some m, Some x =>
    if is_positive m && is_positive x
    then Some (max_zero (num_mul (num_div (num_sub m x) m) (num_of_Z 100)))
    else None
  | _, _ => None
  end.

Definition half : num := num_of_string "0.5".

Definition autoSlippagePercent : num :=
  match priceImpactPercent with
  | Some p => clamp (num_add (num_mul p (num_of_string "1.5")) (num_of_string "0.2")) half (num_of_Z 5)
  | None => half
  end.

Definition normalizedCustomSlippage : string := normalizeCustomSlippage (w_slippage w).

Definition effectiveSlippage : string :=
  match w_slippageMode w with
  | slippage_auto => num_to_fixed autoSlippagePercent 1
  | slippage_custom => normalizedCustomSlippage
  end.

(** [parsePercentToBps] never throws ([parsePercentToBps_range]). *)
Definition slippageBps : Z := default 0 (parsePercentToBps effectiveSlippage).

Definition amountOutMin : option Z := (fun q => Z.quot (q * (10000 - slippageBps)) 10000) <$> quotedAmountOut.
Definition amountInMax : option Z := (fun q => Z.quot (q * (10000 + slippageBps)) 10000) <$> quotedAmountIn.

(** [Math.max(1, Number.parseInt(text, 10) || fallback)] *)
Definition at_least_one (text : string) (fallback : Z) : Z :=
  Z.max 1 match parse_int text with Some z => if z =? 0 then fallback else z | None => fallback end.

Definition limitExpirySeconds : Z := at_least_one (w_limitExpiry w) 7 * 24 * 60 * 60.

(** ** The action *)

Definition isSubmitting : bool := h_isWritePending h || h_isConfirming h || h_isSigning h.
Definition pendingAction : option ActionKind :=
  match w_submittedTx w with Some (_, k) => Some k | None => w_lastAction w end.

Inductive action_label :=
| lbl_connectWallet | lbl_unsupportedChain | lbl_unsupportedPair | lbl_enterAmount | lbl_invalidAmount
| lbl_wrapForLimit | lbl_insufficientBalance | lbl_noRoute | lbl_quoteError | lbl_quotePending
| lbl_approve | lbl_approving | lbl_wrapping | lbl_swapping | lbl_limitPending | lbl_limitSubmit
| lbl_readyToSwap.

Record action := { ac_label : action_label; ac_disabled : bool; ac_kind : option ActionKind }.
Definition enabled (l : action_label) (k : option ActionKind) : action :=
  {| ac_label := l; ac_disabled := false; ac_kind := k |}.
Definition blocked (l : action_label) : action := {| ac_label := l; ac_disabled := true; ac_kind := None |}.

Definition trigger_positive (amountIn amountOut : Z) (payDecimals receiveDecimals : Z) : bool :=
  match calculateTriggerPriceX18 amountIn amountOut payDecimals receiveDecimals with
  | Ok z => 0 <? z
  | Throw _ => false
  end.

Definition limit_amounts_valid (p r : SwapTokenOption) : bool :=
  match parsedLimitPayAmount, parsedLimitReceiveAmount with
  | Some i, Some o => (0 <? i) && negb (o =? 0) && trigger_positive i o (st_decimals p) (st_decimals r)
  | _, _ => false
  end.

Definition limit_action : action :=
  let submit := if h_isSigning h then lbl_limitPending else lbl_limitSubmit in
  if negb (h_mounted h) || negb (h_isConnected h) then enabled lbl_connectWallet None
  else match supportedChain, settlementAddress, factoryAddress with
  | true, Some _, Some _ =>
    match payToken, receiveToken with
    | Some p, Some r =>
      if negb hasSwapInputValue || negb (str_nonempty (w_limitRate w)) then blocked lbl_enterAmount
      else if negb (limit_amounts_valid p r) then blocked lbl_invalidAmount
      else if needsWrapForLimit then enabled lbl_wrapForLimit (Some wrap)
      else if insufficientBalance then blocked lbl_insufficientBalance
      else if negb hasAvailableSwapRoute then blocked lbl_noRoute
      else if isSubmitting then blocked submit
      else if needsApproval then enabled lbl_approve (Some approve)
      else enabled submit (Some limit)
    | _, _ => blocked lbl_unsupportedPair
    end
  | _, _, _ => blocked lbl_unsupportedChain
  end.

Definition submitting_label : action_label :=
  match pendingAction with
  | Some approve | Some revoke => lbl_approving
  | Some wrap => lbl_wrapping
  | Some limit => lbl_limitPending
  | _ => lbl_swapping
  end.

Definition swap_action : action :=
  if negb (h_mounted h) || negb (h_isConnected h) then enabled lbl_connectWallet None
  else match supportedChain, routerAddress, factoryAddress with
  | true, Some _, Some _ =>
    match payToken, receiveToken with
    | Some _, Some _ =>
      if negb hasSwapInputValue then blocked lbl_enterAmount
      else if negb hasQuoteInput then blocked lbl_invalidAmount
      else if needsWrapForLimit then enabled lbl_wrapForLimit (Some wrap)
      else if insufficientBalance then blocked lbl_insufficientBalance
      else if negb hasAvailableSwapRoute then blocked lbl_noRoute
      else if negb (positive_amount quotedAmountOut) || negb (positive_amount quotedAmountIn)
      then blocked (if hasQuoteError then lbl_quoteError else lbl_quotePending)
      else if isSubmitting then blocked submitting_label
      else if needsApproval then enabled lbl_approve (Some approve)
      else enabled lbl_readyToSwap (Some swap)
    | _, _ => blocked lbl_unsupportedPair
    end
  | _, _, _ => blocked lbl_unsupportedChain
  end.

Definition current_action : action := if isLimitMode then limit_action else swap_action.
Definition actionKind : option ActionKind := ac_kind current_action.
End render.

(** ** Handlers *)

Definition with_form (f : trade_form) (w : widget) : widget :=
  {| w_form := f; w_limit := w; w_settings := w; w_status := w; w_tradeMode := w_tradeMode w;
     w_tradeRouteState := w_tradeRouteState w; w_rateRouteState := w_rateRouteState w |}.
Definition with_limit (l : limit_form) (w : widget) : widget :=
  {| w_form := w; w_limit := l; w_settings := w; w_status := w; w_tradeMode := w_tradeMode w;
     w_tradeRouteState := w_tradeRouteState w; w_rateRouteState := w_rateRouteState w |}.
Definition with_settings (s : swap_settings) (w : widget) : widget :=
  {| w_form := w; w_limit := w; w_settings := s; w_status := w; w_tradeMode := w_tradeMode w;
     w_tradeRouteState := w_tradeRouteState w; w_rateRouteState := w_rateRouteState w |}.
Definition with_status (s : action_status) (w : widget) : widget :=
  {| w_form := w; w_limit := w; w_settings := w; w_status := s; w_tradeMode := w_tradeMode w;
     w_tradeRouteState := w_tradeRouteState w; w_rateRouteState := w_rateRouteState w |}.

Definition set_amounts (pay_ receive_ : string) (m : InputMode) (w : widget) : widget :=
  with_form {| w_payTokenSymbol := w_payTokenSymbol w; w_receiveTokenSymbol := w_receiveTokenSymbol w;
               w_payAmount := pay_; w_receiveAmountInput := receive_; w_inputMode := m |} w.
Definition set_tokens (pay_ receive_ : string) (w : widget) : widget :=
  with_form {| w_payTokenSymbol := pay_; w_receiveTokenSymbol := receive_; w_payAmount := "";
               w_receiveAmountInput := ""; w_inputMode := pay |} w.
Definition set_rate (rate : string) (preset : LimitPricePreset) (w : widget) : widget :=
  with_limit {| w_limitRate := rate; w_limitExpiry := w_limitExpiry w; w_limitPriceUnit := w_limitPriceUnit w;
                w_limitPricePreset := preset |} w.
Definition set_slippage (mode : SwapSlippageMode) (value : string) (w : widget) : widget :=
  with_settings {| w_slippage := value; w_slippageMode := mode; w_deadline := w_deadline w |} w.
Definition set_deadline (value : string) (w : widget) : widget :=
  with_settings {| w_slippage := w_slippage w; w_slippageMode := w_slippageMode w; w_deadline := value |} w.
Definition set_modal (m : option ResultModalState) (w : widget) : widget :=
  with_status {| w_lastAction := w_lastAction w; w_submittedTx := w_submittedTx w; w_resultModal := m;
                 w_txError := w_txError w |} w.
Definition set_txError (e : option string) (w : widget) : widget :=
  with_status {| w_lastAction := w_lastAction w; w_submittedTx := w_submittedTx w;
                 w_resultModal := w_resultModal w; w_txError := e |} w.

Section handlers.
Variable lib : libraries.
Variable h : hooks.
Implicit Type w : widget.

Definition over (a limit_ : option Z) : bool :=
  match a, limit_ with Some x, Some y => y <? x | _, _ => false end.

(** The value typed is compared through the amount of the last render. *)
Definition handlePayAmountChange (value : string) w : widget :=
  if negb (DECIMAL_INPUT_REGEX value) then w
  else
    let normalizedValue :=
      if str_nonempty value && over (parsedPayAmount lib h w) (payReserve lib h w)
      then default value (maxPayAmountDisplay lib h w) else value in
    set_amounts normalizedValue (if String.eqb normalizedValue "" then "" else w_receiveAmountInput w) pay w.

Definition handleReceiveAmountChange (value : string) w : widget :=
  if negb (DECIMAL_INPUT_REGEX value) then w
  else
    let parsed := parse lib value (decimals_of (receiveToken lib h w)) in
    let normalizedValue :=
      if str_nonempty value && over parsed (maxReceivable lib h w)
      then default value (maxReceiveAmountDisplay lib h w) else value in
    set_amounts (if String.eqb normalizedValue "" then "" else w_payAmount w) normalizedValue receive w.

Definition handleLimitRateChange (value : string) w : widget :=
  if negb (DECIMAL_INPUT_REGEX value) then w
  else set_rate (displayLimitRateToCanonical value (w_limitPriceUnit w)) custom
         (set_amounts (w_payAmount w) (w_receiveAmountInput w) pay w).

Definition toggleLimitPriceUnit w : widget :=
  with_limit {| w_limitRate := w_limitRate w; w_limitExpiry := w_limitExpiry w;
                w_limitPriceUnit := match w_limitPriceUnit w with receive => pay | pay => receive end;
                w_limitPricePreset := w_limitPricePreset w |} w.

Definition updateSwapSlippage (nextValue : string) w : widget :=
  if String.eqb nextValue "" || DECIMAL_INPUT_REGEX nextValue
  then set_slippage slippage_custom nextValue w else w.

Definition activateCustomSlippage w : widget :=
  set_slippage slippage_custom (normalizeCustomSlippage (w_slippage w)) w.

Definition commitCustomSlippage w : widget :=
  set_slippage (w_slippageMode w) (normalizeCustomSlippage (w_slippage w)) w.

Definition all_digits (s : string) : bool := str_nonempty s && all_chars is_digit s.

Definition updateSwapDeadline (nextValue : string) w : widget :=
  if String.eqb nextValue "" then set_deadline "" w
  else if negb (all_digits nextValue) then w
  else set_deadline (dec (Z.min 30 (Z.max 0 (default 0 (parse_int nextValue))))) w.

Definition adjustSwapDeadline (delta : Z) w : widget :=
  let text := if str_nonempty (w_deadline w) then w_deadline w else "30" in
  set_deadline (dec (Z.min 30 (Z.max 0 (default 30 (parse_int text) + delta)))) w.

(** The rate of a preset at the market rate displayed; [None] without a market. *)
Definition preset_rate (preset : LimitPricePreset) w : option string :=
  let market := num_of_string (limitMarketRateDisplay lib h w) in
  if negb (is_positive market) then None
  else
    let next :=
      match preset with
      | percent p =>
        let direction := match w_limitPriceUnit w with receive => 1 | pay => -1 end in
        applyLimitPresetToCanonicalMarket market (num_of_Z (p * direction)) (w_limitPriceUnit w)
      | _ => Some market
      end in
    Some (formatLimitRateValue (default market next) 12).

Definition applyLimitPreset (preset : LimitPricePreset) w : widget :=
  set_rate (default (w_limitRate w) (preset_rate preset w)) preset
    (set_amounts (w_payAmount w) (w_receiveAmountInput w) pay w).

(** The effect that follows the market. *)
Definition limit_rate_effect w : widget :=
  if negb (isLimitMode h w) || bool_decide (w_limitPricePreset w = custom) then w
  else match preset_rate (w_limitPricePreset w) w with
  | Some rate => set_rate rate (w_limitPricePreset w) w
  | None =>
    if rt_didFetch (w_rateRouteState w) && negb (rt_loading (w_rateRouteState w))
    then set_rate "" (w_limitPricePreset w) w else w
  end.

Definition symbol_or (t : option SwapTokenOption) (fallback : string) : string :=
  match t with Some t => st_symbol t | None => fallback end.

Definition handleSelectToken (target : InputMode) (token : SwapTokenOption) w : widget :=
  let is_same (t : option SwapTokenOption) :=
    match t with Some t => String.eqb (st_symbol t) (st_symbol token) | None => false end in
  match target with
  | pay =>
    set_tokens (st_symbol token)
      (if is_same (receiveToken lib h w) then symbol_or (payToken lib h w) (w_receiveTokenSymbol w)
       else w_receiveTokenSymbol w) w
  | receive =>
    set_tokens
      (if is_same (payToken lib h w) then symbol_or (receiveToken lib h w) (w_payTokenSymbol w)
       else w_payTokenSymbol w)
      (st_symbol token) w
  end.

Definition handleFlip w : widget :=
  match payToken lib h w, receiveToken lib h w with
  | Some p, Some r => set_rate (w_limitRate w) market (set_tokens (st_symbol r) (st_symbol p) w)
  | _, _ => w
  end.

Definition handleMaxPay w : widget :=
  match displayedPayBalance lib h w with
  | Some b =>
    if str_nonempty (b_formatted b) then set_amounts (b_formatted b) (w_receiveAmountInput w) pay w else w
  | None => w
  end.

(** The page the widget links to: its query parameters. *)
Definition handleLaunchSwapPage w : list (string * string) :=
  ([("mode", "swap"); ("payToken", w_payTokenSymbol w); ("receiveToken", w_receiveTokenSymbol w);
    ("inputMode", match w_inputMode w with pay => "pay" | receive => "receive" end)]
   ++ (if str_nonempty (trim (w_payAmount w)) then [("payAmount", trim (w_payAmount w))] else [])
   ++ (if str_nonempty (trim (w_receiveAmountInput w))
       then [("receiveAmount", trim (w_receiveAmountInput w))] else []))%list.

(** The effect on the receipt of a swap. *)
Definition receipt_effect w : widget :=
  match w_submittedTx w with
  | Some (_, swap) =>
    if negb (h_isConfirmed h) then w
    else if h_receiptReverted h
    then set_modal (Some {| rm_kind := modal_error; rm_title := Some (tr h "交易失败" "Transaction failed");
           rm_message := tr h "交易已提交，但链上执行失败，请检查滑点、余额或池子状态后重试。"
             "The transaction was submitted but failed on-chain. Check slippage, balance, or pool state and try again." |}) w
    else set_modal (Some {| rm_kind := modal_success; rm_title := Some (tr h "交易成功" "Transaction successful");
           rm_message := tr h "交易已确认。" "Transaction confirmed." |})
           (set_txError None (set_amounts "" "" (w_inputMode w) w))
  | _ => w
  end.
End handlers.

(** ** The component over time *)

(** What a user does to the form, and what else changes the state between two renders. *)
Inductive widget_event :=
| PayTyped (value : string)
| ReceiveTyped (value : string)
| RateTyped (value : string)
| PriceUnitToggled
| PresetClicked (preset : LimitPricePreset)
| MarketMoved
| ExpiryClicked (value : string)
| SlippageTyped (value : string)
| SlippageFocused
| SlippageLeft
| AutoClicked
| DeadlineTyped (value : string)
| DeadlineStepped (delta : Z)
| TokenChosen (target : InputMode) (token : SwapTokenOption)
| Flipped
| MaxClicked
| ModeClicked (mode : TradeMode)
| TokensChecked
| ReceiptSeen
| StatusSet (s : action_status)
| RoutesSet (trade rate : BackendRouteState).

Definition expiry_options : list string := ["1"; "7"; "30"; "365"].

Definition set_mode (mode : TradeMode) (trade rate : BackendRouteState) (w : widget) : widget :=
  {| w_form := w; w_limit := w; w_settings := w; w_status := w; w_tradeMode := mode;
     w_tradeRouteState := trade; w_rateRouteState := rate |}.

Definition handle_event (lib : libraries) (h : hooks) (e : widget_event) (w : widget) : widget :=
  match e with
  | PayTyped v => handlePayAmountChange lib h v w
  | ReceiveTyped v => handleReceiveAmountChange lib h v w
  | RateTyped v => handleLimitRateChange v w
  | PriceUnitToggled => toggleLimitPriceUnit w
  | PresetClicked p => applyLimitPreset lib h p w
  | MarketMoved => limit_rate_effect lib h w
  | ExpiryClicked v =>
    if bool_decide (v ∈ expiry_options)
    then with_limit {| w_limitRate := w_limitRate w; w_limitExpiry := v; w_limitPriceUnit := w_limitPriceUnit w;
                       w_limitPricePreset := w_limitPricePreset w |} w
    else w
  | SlippageTyped v => updateSwapSlippage v w
  | SlippageFocused => activateCustomSlippage w
  | SlippageLeft => commitCustomSlippage w
  | AutoClicked => set_slippage slippage_auto (w_slippage w) w
  | DeadlineTyped v => updateSwapDeadline v w
  | DeadlineStepped d => adjustSwapDeadline d w
  | TokenChosen target token => handleSelectToken lib h target token w
  | Flipped => handleFlip lib h w
  | MaxClicked => handleMaxPay lib h w
  | ModeClicked mode => set_mode mode (w_tradeRouteState w) (w_rateRouteState w) w
  | TokensChecked =>
    let '(p, r) := token_fallback_effect lib h w in
    with_form {| w_payTokenSymbol := p; w_receiveTokenSymbol := r; w_payAmount := w_payAmount w;
                 w_receiveAmountInput := w_receiveAmountInput w; w_inputMode := w_inputMode w |} w
  | ReceiptSeen => receipt_effect h w
  | StatusSet s => with_status s w
  | RoutesSet trade rate => set_mode (w_tradeMode w) trade rate w
  end.

(** Each event meets the render of its time. *)
Definition run_widget (lib : libraries) (l : list (hooks * widget_event)) (w : widget) : widget :=
  foldl (fun w he => handle_event lib (fst he) (snd he) w) w l.

(** The state of a mounted component, with the properties of the component that set it. *)
Definition initial_widget (f : trade_form) (mode : TradeMode) : widget :=
  {| w_form := f;
     w_limit := {| w_limitRate := ""; w_limitExpiry := "7"; w_limitPriceUnit := receive;
                   w_limitPricePreset := market |};
     w_settings := {| w_slippage := "0.5"; w_slippageMode := slippage_auto; w_deadline := "30" |};
     w_status := {| w_lastAction := None; w_submittedTx := None; w_resultModal := None; w_txError := None |};
     w_tradeMode := mode; w_tradeRouteState := idle; w_rateRouteState := idle |}.

(** ** The tolerance of a swap *)

Lemma max_zero_not_nan x : x <> num_nan -> max_zero x <> num_nan.
Proof. intros H. destruct x; try done; unfold max_zero, num_max; by destruct (num_ltb _ _). Qed.

Lemma is_positive_spec x : is_positive x = true -> is_finite x = true /\ num_eqb x num_zero = false.
Proof.
  unfold is_positive, num_leb, num_eqb. intros H. apply andb_prop in H as [-> H]. split; [done|].
  by destruct (num_cmp x num_zero) as [[]|].
Qed.

Lemma price_impact_not_nan w lib h p : priceImpactPercent lib h w = Some p -> p <> num_nan.
Proof.
  unfold priceImpactPercent. destruct (midPrice lib h w) as [m|], (executionPrice lib h w) as [x|]; try done.
  destruct (is_positive m && is_positive x) eqn:E; [|done]. apply andb_prop in E as [Em Ex].
  apply is_positive_spec in Em as [Hm Hm0]. apply is_positive_spec in Ex as [Hx _]. intros [= <-].
  apply max_zero_not_nan, num_mul_not_nan; [|by vm_compute|by vm_compute].
  apply num_div_not_nan; [by apply num_sub_not_nan|done|done].
Qed.

(** The value of a number as a fraction, compared with another. *)
Lemma num_ltb_finite s m e s' m' e' t :
  t <= e -> t <= e' ->
  num_ltb (S754_finite s m e) (S754_finite s' m' e')
  = ((if s then Zneg m else Zpos m) * 2 ^ (e - t) <? (if s' then Zneg m' else Zpos m') * 2 ^ (e' - t)).
Proof.
  intros He He'. unfold num_ltb, num_cmp, num_parts. rewrite (cmp_parts_scale _ _ t) by done.
  cbn [fst snd]. unfold Z.ltb. by destruct (_ ?= _).
Qed.

(** The tenths of a percent shown for a value strictly between the two bounds. *)
Lemma to_fixed_between v :
  num_ltb half v = true -> num_ltb v (num_of_Z 5) = true ->
  exists n, 5 <= n <= 50 /\ num_to_fixed v 1 = fixed_text n 1.
Proof.
  assert (half = S754_finite false (2 ^ 52)%positive (-53)) as -> by (by vm_compute).
  assert (num_of_Z 5 = S754_finite false (5 * 2 ^ 50)%positive (-50)) as -> by (by vm_compute).
  intros Hlo Hhi. destruct v as [s|[]| |s m e]; [by vm_compute in Hlo|done|done|done|].
  set (t := Z.min e (-53)). rewrite (num_ltb_finite _ _ _ _ _ _ t) in Hlo by lia.
  rewrite (num_ltb_finite _ _ _ _ _ _ t) in Hhi by lia.
  apply Z.ltb_lt in Hlo, Hhi. assert (0 < 2 ^ (e - t)) by (apply Z.pow_pos_nonneg; lia).
  assert (0 < 2 ^ (-53 - t)) by (apply Z.pow_pos_nonneg; lia). destruct s; [lia|].
  unfold num_to_fixed. destruct (num_frac (Zpos m) e) as [p q] eqn:E.
  assert (0 < q /\ q < 2 * p /\ p < 5 * q) as (Hq & Hlow & Hhigh).
  { replace (-50 - t) with (3 + (-53 - t)) in Hhi by lia. rewrite Z.pow_add_r in Hhi by lia.
    change (Zpos (5 * 2 ^ 50) * (2 ^ 3 * 2 ^ (-53 - t))) with
      (5 * 2 ^ 50 * (2 ^ 3 * 2 ^ (-53 - t))) in Hhi.
    change (Zpos (2 ^ 52)) with (2 ^ 52) in Hlo.
    unfold num_frac in E. destruct (Z.leb_spec 0 e) as [He|He]; injection E as <- <-.
    - replace (e - t) with (e + (-53 - t) + 53) in Hlo, Hhi by lia.
      rewrite !Z.pow_add_r in Hlo, Hhi by lia. nia.
    - assert (0 < 2 ^ (- e)) by (apply Z.pow_pos_nonneg; lia).
      assert (2 ^ (e - t) * 2 ^ (- e) = 2 ^ (-53 - t) * 2 ^ 53) as Hp.
      { rewrite <- !Z.pow_add_r by lia. f_equal. lia. }
      nia. }
  destruct (Z.leb_spec (10 ^ 21 * q) p); [lia|]. eexists. split; [|done]. cbn [app].
  split; [apply Z.div_le_lower_bound|apply Z.lt_succ_r, Z.div_lt_upper_bound]; lia.
Qed.

Lemma auto_tenths lib h w :
  exists n, 5 <= n <= 50 /\ num_to_fixed (autoSlippagePercent lib h w) 1 = fixed_text n 1.
Proof.
  assert (exists n, 5 <= n <= 50 /\ num_to_fixed half 1 = fixed_text n 1) as Hhalf
    by (exists 5; split; [lia|by vm_compute]).
  unfold autoSlippagePercent. destruct (priceImpactPercent lib h w) as [p|] eqn:Ep; [|done].
  apply price_impact_not_nan in Ep. set (v := num_add _ _).
  assert (v <> num_nan) as Hv.
  { apply num_add_not_nan; [apply num_mul_not_nan; [done|by vm_compute..]|by vm_compute]. }
  assert (clamp v half (num_of_Z 5) = num_min (num_of_Z 5) (num_max half v)) as -> by (by destruct v).
  unfold num_max. destruct (num_ltb half v) eqn:Hlo.
  - unfold num_min. destruct (num_ltb v (num_of_Z 5)) eqn:Hhi; [by apply to_fixed_between|].
    exists 50. split; [lia|by vm_compute].
  - replace (num_min (num_of_Z 5) half) with half by (by vm_compute). done.
Qed.

Lemma tenths_bps n : 5 <= n <= 50 -> parsePercentToBps (fixed_text n 1) = Some (10 * n).
Proof.
  intros Hn.
  assert (forallb (fun k => bool_decide (parsePercentToBps (fixed_text k 1) = Some (10 * k)))
            (map (fun k => Z.of_nat k) (seq 5 46)) = true) as H by (by vm_compute).
  rewrite forallb_forall in H. specialize (H n). apply bool_decide_eq_true in H; [done|].
  apply in_map_iff. exists (Z.to_nat n). split; [lia|]. apply in_seq. lia.
Qed.

Lemma slippageBps_range lib h w : 0 <= slippageBps lib h w <= 5000.
Proof.
  unfold slippageBps. destruct (parsePercentToBps_range (effectiveSlippage lib h w)) as (b & -> & Hb). done.
Qed.

(** ** What a render can offer *)

Lemma chosen_tokens lib h w p r :
  payToken lib h w = Some p -> receiveToken lib h w = Some r ->
  p ∈ tokenOptions lib h /\ r ∈ tokenOptions lib h /\ st_symbol p <> st_symbol r.
Proof.
  intros Hp Hr. split.
  - unfold payToken, getTokenBySymbol in Hp. destruct (find_first _ _) eqn:E.
    + injection Hp as <-. by apply find_first_Some in E as [? _].
    + destruct (tokenOptions lib h); [done|]. injection Hp as <-. left.
  - unfold receiveToken in Hr. rewrite Hp in Hr. cbn [other_symbol] in Hr.
    assert (r ∈ tokenOptions lib h /\ negb (String.eqb (st_symbol r) (st_symbol p)) = true) as [? Hn].
    { destruct (find_first _ _) as [t|] eqn:E.
      - injection Hr as <-. apply find_first_Some in E as [? E]. by apply andb_prop in E as [_ ?].
      - by apply find_first_Some in Hr. }
    split; [done|]. intros He. by rewrite He, String.eqb_refl in Hn.
Qed.

(** The two tokens of a render are never both the native one. *)
Lemma chosen_not_both_native lib h w p r :
  payToken lib h w = Some p -> receiveToken lib h w = Some r ->
  ~ (st_kind p = native /\ st_kind r = native).
Proof.
  intros Hp Hr [Hkp Hkr]. destruct (chosen_tokens _ _ _ _ _ Hp Hr) as (Hinp & Hinr & Hne).
  apply Hne. unfold tokenOptions in *. by rewrite (native_is_ETH _ _ Hinp Hkp), (native_is_ETH _ _ Hinr Hkr).
Qed.

Ltac action_cases H :=
  repeat match type of H with
  | ac_kind (match ?x with _ => _ end) = Some _ => destruct x eqn:?; try discriminate H
  end.

(** The button swaps only with two quoted amounts, a path, a router and, as far as known,
    the balance and the allowance for the input quoted. *)
Lemma swap_enabled lib h w :
  actionKind lib h w = Some swap ->
  isLimitMode h w = false /\ h_mounted h = true /\ h_isConnected h = true /\ isSubmitting h = false
  /\ insufficientBalance lib h w = false /\ needsApproval lib h w = false
  /\ exists router p r path qin qout,
       routerAddress lib h = Some router /\ payToken lib h w = Some p /\ receiveToken lib h w = Some r
       /\ executableRoutePath w = Some path /\ quotedAmountIn w = Some qin /\ quotedAmountOut w = Some qout
       /\ 0 < qin /\ 0 < qout /\ hasQuoteInput lib h w = true.
Proof.
  unfold actionKind, current_action. destruct (isLimitMode h w) eqn:El; intros H.
  { unfold limit_action, enabled, blocked in H. action_cases H. }
  unfold swap_action, enabled, blocked in H. action_cases H.
  repeat match goal with
  | E : negb _ = false |- _ => apply negb_false_iff in E
  | E : _ || _ = false |- _ => apply orb_false_iff in E as [? ?]
  end.
  split_and!; try done. unfold hasAvailableSwapRoute, positive_amount in *.
  destruct (rt_executionPath (w_rateRouteState w)) as [rate_path|] eqn:Er; [|done].
  destruct (quotedAmountIn w) as [qin|] eqn:Ei; [|done]. destruct (quotedAmountOut w) as [qout|] eqn:Eo; [|done].
  assert (exists path, executableRoutePath w = Some path) as [path Hpath].
  { unfold executableRoutePath. rewrite Er. destruct (selectedExecutionPath w); eauto. }
  bool_solve. do 6 eexists. split_and!; done.
Qed.

Lemma trigger_positive_spec i o dp dr :
  trigger_positive i o dp dr = true ->
  exists price, calculateTriggerPriceX18 i o dp dr = Ok price /\ 0 < price /\ 0 < i /\ 0 < o.
Proof.
  unfold trigger_positive. destruct (calculateTriggerPriceX18 i o dp dr) as [price|] eqn:E; [|done].
  intros Hp. bool_solve. exists price. split; [done|]. split; [lia|].
  unfold calculateTriggerPriceX18 in E. destruct (i <=? 0) eqn:Hi; [injection E as <-; lia|].
  destruct (o <=? 0) eqn:Ho; [injection E as <-; lia|]. bool_solve. lia.
Qed.

(** The button places a limit order only with two positive amounts, a positive price, a
    settlement contract and, as far as known, the balance and the allowance. *)
Lemma limit_enabled lib h w :
  actionKind lib h w = Some limit ->
  isLimitMode h w = true /\ h_mounted h = true /\ h_isConnected h = true
  /\ insufficientBalance lib h w = false /\ needsApproval lib h w = false
  /\ exists settlement p r i o price,
       settlementAddress lib h = Some settlement /\ payToken lib h w = Some p /\ receiveToken lib h w = Some r
       /\ parsedLimitPayAmount lib h w = Some i /\ parsedLimitReceiveAmount lib h w = Some o
       /\ calculateTriggerPriceX18 i o (st_decimals p) (st_decimals r) = Ok price
       /\ 0 < i /\ 0 < o /\ 0 < price.
Proof.
  unfold actionKind, current_action. destruct (isLimitMode h w) eqn:El; intros H.
  2:{ unfold swap_action, enabled, blocked in H. action_cases H. }
  unfold limit_action, enabled, blocked in H. action_cases H.
  repeat match goal with
  | E : negb _ = false |- _ => apply negb_false_iff in E
  | E : _ || _ = false |- _ => apply orb_false_iff in E as [? ?]
  end.
  split_and!; try done. unfold limit_amounts_valid in *.
  destruct (parsedLimitPayAmount lib h w) as [i|]; [|done].
  destruct (parsedLimitReceiveAmount lib h w) as [o|]; [|done].
  match goal with E : _ && trigger_positive _ _ _ _ = true |- _ =>
    apply andb_prop in E as [_ E]; apply trigger_positive_spec in E as (price & Hprice & ?) end.
  do 6 eexists. split_and!; (done || apply Hprice || tauto).
Qed.

(** C33.  The tolerance of a swap.  In automatic mode, whatever the prices, it is the tenths of
    a percent the page shows, between 0.5% and 5%; in any mode it is at most 50%, so the
    least output asked for is positive or rounded from less than two units and never above
    the quote, and the most input allowed never below it. *)
Theorem tolerance_bounds lib h w :
  let b := slippageBps lib h w in
  (w_slippageMode w = slippage_auto ->
     exists n, 5 <= n <= 50 /\ effectiveSlippage lib h w = fixed_text n 1 /\ b = 10 * n)
  /\ 0 <= b <= 5000
  /\ (forall q, quotedAmountOut w = Some q -> 0 < q ->
        exists m, amountOutMin lib h w = Some m /\ 0 <= m <= q /\ q <= 2 * m + 1
          /\ m * 10000 <= q * (10000 - b) < (m + 1) * 10000)
  /\ (forall q, quotedAmountIn w = Some q -> 0 < q ->
        exists m, amountInMax lib h w = Some m /\ q <= m /\ 2 * m <= 3 * q
          /\ m * 10000 <= q * (10000 + b) < (m + 1) * 10000).
Proof.
  intros b. pose proof (slippageBps_range lib h w) as Hb. change (slippageBps lib h w) with b in Hb.
  split_and!; try lia.
  - intros Hm. destruct (auto_tenths lib h w) as (n & Hn & He). exists n.
    assert (effectiveSlippage lib h w = fixed_text n 1) as Hs by (unfold effectiveSlippage; by rewrite Hm).
    split; [done|]. split; [done|]. unfold b, slippageBps. by rewrite Hs, tenths_bps.
  - intros q Hq Hpos. unfold amountOutMin. rewrite Hq. eexists. split; [done|]. fold b.
    rewrite Z.quot_div_nonneg by nia. pose proof (Z.mul_div_le (q * (10000 - b)) 10000 ltac:(lia)).
    pose proof (Z.mul_succ_div_gt (q * (10000 - b)) 10000 ltac:(lia)).
    assert (0 <= q * (10000 - b) / 10000) by (apply Z.div_pos; nia).
    set (m := q * (10000 - b) / 10000) in *. clearbody m. nia.
  - intros q Hq Hpos. unfold amountInMax. rewrite Hq. eexists. split; [done|]. fold b.
    rewrite Z.quot_div_nonneg by nia. pose proof (Z.mul_div_le (q * (10000 + b)) 10000 ltac:(lia)).
    pose proof (Z.mul_succ_div_gt (q * (10000 + b)) 10000 ltac:(lia)).
    set (m := q * (10000 + b) / 10000) in *. clearbody m. nia.
Qed.

(** ** Concrete instances *)

Definition addr (c : string) : string := "0x" ++ repeat_char 39 "0" ++ c.

Definition sample_contracts (name : string) : option string :=
  (list_to_map
    [("FluxSwapRouter", addr "1"); ("FluxSignedOrderSettlement", addr "2"); ("FluxSwapFactory", addr "3");
     ("MockWETH", addr "4"); ("FluxToken", addr "5"); ("MockUSDT", addr "6")] : gmap string string) !! name.

Definition sample_libraries : libraries :=
  {| lib_formatUnits := fun v _ => dec v; lib_parseUnits := exact_parseUnits;
     lib_toLocaleString := fun n _ => num_to_string n;
     lib_contract := fun name _ => sample_contracts name; lib_supported := fun _ => true |}.

Definition unit_amount : Z := 10 ^ 18.

Definition sample_hooks : hooks :=
  {| h_isZh := false; h_enableModeSwitch := true; h_mounted := true; h_chainId := 31337;
     h_publicClient := true; h_address := Some (addr "9"); h_isConnected := true;
     h_openConnectModal := true; h_isWritePending := false; h_isSigning := false; h_isConfirming := false;
     h_isConfirmed := false; h_receiptReverted := false; h_deferredPayAmount := "1";
     h_deferredReceiveAmount := ""; h_payBalance := Some {| b_value := 5 * unit_amount; b_formatted := "5" |};
     h_receiveBalance := None; h_nativeBalance := None; h_reserves := None; h_token0 := None;
     h_allowance := Some (2 ^ 255) |}.

(** One FLUX buys 1.98 USDT in the sample pool. *)
Definition sample_out : Z := 1974316.
Definition sample_route : BackendRouteState :=
  {| rt_didFetch := true; rt_loading := false; rt_executionPath := Some [addr "5"; addr "6"];
     rt_displayPath := VUndef; rt_amountIn := Some unit_amount; rt_amountOut := Some sample_out;
     rt_error := None |}.

Definition sample_form : trade_form :=
  {| w_payTokenSymbol := "FLUX"; w_receiveTokenSymbol := "USDT"; w_payAmount := "1";
     w_receiveAmountInput := ""; w_inputMode := pay |}.

Definition sample_widget (mode : TradeMode) : widget :=
  set_mode mode sample_route sample_route (set_rate "2" custom (initial_widget sample_form mode)).

(** What the limit price field shows after a key.  The text typed is not kept. *)
Definition shown_after (key : string) : string :=
  displayLimitRate (handleLimitRateChange key (sample_widget mode_limit)).

Example typed_point_is_lost : shown_after "1." = "1" /\ shown_after "0" = "" /\ shown_after "2.5" = "2.5".
Proof. vm_compute. repeat split. Qed.

(** A locale that writes 1234.5 as 1.234,5. *)
Definition comma_libraries : libraries :=
  {| lib_formatUnits := fun v _ => dec v; lib_parseUnits := exact_parseUnits;
     lib_toLocaleString := fun _ _ => "1.234,5"; lib_contract := fun name _ => sample_contracts name;
     lib_supported := fun _ => true |}.

(** One FLUX for 1234.5 USDT. *)
Definition comma_widget : widget := set_rate "1234.5" custom (sample_widget mode_limit).

Example locale_changes_limit_amount :
  parsedLimitReceiveAmount sample_libraries sample_hooks comma_widget = Some 1234500000
  /\ parsedLimitReceiveAmount comma_libraries sample_hooks comma_widget = Some 1234500.
Proof. vm_compute. by split. Qed.

Lemma tolerance_bounds_witness :
  slippageBps sample_libraries sample_hooks (sample_widget mode_swap) = 50
  /\ exists m, amountOutMin sample_libraries sample_hooks (sample_widget mode_swap) = Some m /\ 0 <= m <= sample_out.
Proof.
  destruct (tolerance_bounds sample_libraries sample_hooks (sample_widget mode_swap)) as (_ & _ & Hout & _).
  split; [vm_compute; reflexivity|].
  destruct (Hout sample_out) as (m & Hm & Hb & _); [reflexivity|reflexivity|]. exists m. exact (conj Hm Hb).
Defined.
