(* ===== verification/SwapActions.v ===== *)
(** * The actions of the swap widget ([handleAction] of frontend/src/components/SwapWidget.tsx)

    The handler runs on one render of the component (SwapWidget.v).  What it does to the
    page is a trace of events and the browser's order store; the wallet, the node, the
    routes of the application and the clock answer as functions of that trace. *)

From S2P Require Import Prelude JsString JsNumber JsValue JsError LocalLimitOrders LimitOrders Amounts PageMonad.
From S2P Require Import OrdersApi Subgraph RouterContract FrontendConfig SwapQuotes SwapWidget.
From Stdlib Require Import Ascii.
Open Scope string_scope.
Open Scope Z_scope.

Definition maxUint256 : Z := 2 ^ 256 - 1.

Section screen.
Context `{Codec : JsonCodec raw}.

Inductive swap_event :=
| Wrote (t : contract_write)
| Signed (d : TypedData SignedLimitOrder)
| Posted (url : string) (body : raw)
| AskedBlock
| ConnectOpened
| SetTxError (e : option string)
| SetResultModal (m : option ResultModalState)
| SetLastAction (k : ActionKind)
| SetSubmittedTx (t : option (string * ActionKind))
| SetLimitOrder (hash signature : string).

Record screen := { sc_browser : browser raw; sc_trace : list swap_event }.

(** Newest event last.  [interfere] is what other code of the page does to the store while
    the sync waits. *)
Record swap_world := {
  wd_write : list swap_event -> contract_write -> res js_error string;
  wd_sign : list swap_event -> TypedData SignedLimitOrder -> res js_error string;
  wd_post : list swap_event -> string -> raw -> res js_error http_reply;
  wd_block : list swap_event -> res js_error chain_block;
  wd_history : option Z -> res string block;
  wd_interfere : browser raw -> browser raw;
  wd_random : Z * Z;
  wd_now : string;
  wd_keccak256 : Hex -> Hex;
  wd_stringToHex : string -> Hex;
  wd_encode : list typed_field -> list abi_value -> Hex;
  wd_errorMessage : js_error -> string -> string;
}.

Definition with_event (e : swap_event) (s : screen) : screen :=
  {| sc_browser := sc_browser s; sc_trace := (sc_trace s ++ [e])%list |}.
Definition with_browser (b : browser raw) (s : screen) : screen :=
  {| sc_browser := b; sc_trace := sc_trace s |}.
Definition emit_event (e : swap_event) : act screen unit := fun s => (with_event e s, Ok tt).
(** A question to the world: in the trace when it is answered. *)
Definition ask {A} (e : swap_event) (answer : list swap_event -> res js_error A) : act screen A := fun s =>
  (with_event e s, answer (sc_trace (with_event e s))).
Definition on_store (f : browser raw -> browser raw) : act screen unit := fun s =>
  (with_browser (f (sc_browser s)) s, Ok tt).
End screen.
Arguments swap_event raw : clear implicits.
Arguments screen raw : clear implicits.
Arguments swap_world raw : clear implicits.

Open Scope act_scope.

Section actions.
Context `{Codec : JsonCodec raw}.
Variable wd : swap_world raw.
Variable lib : libraries.
Variable h : hooks.
Variable w : widget.

Notation act := (act (screen raw)).

(** An early return. *)
Definition return_ : act unit := done_with (Ok tt).

Definition localGas : option Z := getLocalGasOverride (Some (h_chainId h)) 8000000.

Definition writeContractAsync (address functionName : string) (args : list abi_arg) (value : option Z)
  : act string :=
  let t := {| cw_address := address; cw_functionName := functionName; cw_args := args; cw_value := value;
              cw_chainId := h_chainId h; cw_gas := localGas |} in
  ask (Wrote t) (fun l => wd_write wd l t).

Definition submit (kind : ActionKind) (address functionName : string) (args : list abi_arg)
    (value : option Z) : act unit :=
  await txHash <- writeContractAsync address functionName args value;
  emit_event (SetSubmittedTx (Some (txHash, kind))).

Definition wrap_action : act unit :=
  match wrappedNativeAddress lib h, parsedLimitPayAmount lib h w with
  | Some weth, Some amount => if 0 <? amount then submit wrap weth "deposit" [] (Some amount) else return_
  | _, _ => return_
  end.

Definition approve_action : act unit :=
  match nonempty_text (approvalTokenAddress lib h w), approvalSpenderAddress lib h w with
  | Some token, Some spender =>
    submit approve token "approve" [ArgAddress spender; ArgUint maxUint256] None
  | _, _ => return_
  end.

(** ** A limit order *)

Definition order_nonce : Z := Z.shiftl (fst (wd_random wd)) 32 + snd (wd_random wd).

Definition signed_order (address : string) (payToken receiveToken : SwapTokenOption)
    (amountIn minAmountOut price timestamp : Z) : SignedLimitOrder :=
  {| maker := address;
     inputToken := match st_kind payToken with
                   | native => default zeroAddress (wrappedNativeAddress lib h)
                   | erc20 => toSignedLimitOrderTokenAddress (st_address payToken) false
                   end;
     outputToken := toSignedLimitOrderTokenAddress (st_address receiveToken)
                      (bool_decide (st_kind receiveToken = native));
     amountIn := amountIn; minAmountOut := minAmountOut;
     maxExecutorRewardBps := LIMIT_ORDER_DEFAULT_MAX_EXECUTOR_REWARD_BPS;
     triggerPriceX18 := price; expiry := timestamp + limitExpirySeconds w; nonce := order_nonce;
     recipient := address |}.

(** The properties the request and the stored record share. *)
Definition order_fields (settlement orderHash : string) (order : SignedLimitOrder) : obj :=
  [("chainId", VNum (num_of_Z (h_chainId h))); ("settlementAddress", VStr settlement);
   ("orderHash", VStr orderHash); ("maker", VStr (maker order));
   ("inputToken", VStr (inputToken order)); ("outputToken", VStr (outputToken order));
   ("amountIn", VStr (dec (amountIn order))); ("minAmountOut", VStr (dec (minAmountOut order)));
   ("maxExecutorRewardBps", VStr (dec (maxExecutorRewardBps order)));
   ("triggerPriceX18", VStr (dec (triggerPriceX18 order))); ("expiry", VStr (dec (expiry order)));
   ("nonce", VStr (dec (nonce order))); ("recipient", VStr (recipient order))].

Definition create_body (settlement orderHash signature : string) (order : SignedLimitOrder) : jsval :=
  VObj (order_fields settlement orderHash order
        ++ [("signature", VStr signature); ("source", VStr "frontend")])%list.

Definition stored_order (settlement orderHash : string) (order : SignedLimitOrder) : obj :=
  (order_fields settlement orderHash order
   ++ [("source", VStr "frontend"); ("status", VStr "open"); ("createdAt", VStr (wd_now wd));
       ("updatedAt", VStr (wd_now wd))])%list.

Definition order_hash (settlement : string) (order : SignedLimitOrder) : Hex :=
  hashSignedLimitOrder (wd_keccak256 wd) (wd_stringToHex wd) (wd_encode wd) (h_chainId h) settlement order.

Definition create_fallback : string := tr h "限价单创建失败" "Create limit order failed".

(** [syncLocalLimitOrdersWithChain], whose throw is one of the handler. *)
Definition sync_orders (latest : chain_block) : act unit := fun s =>
  match syncLocalLimitOrdersWithChain (wd_history wd) (wd_interfere wd) (h_chainId h)
          (cb_number latest) (cb_hash latest) (sc_browser s) with
  | Ok (_, b) => (with_browser b s, Ok tt)
  | Throw e => (s, Throw (Error e))
  end.

Definition short_hash (hash : string) : string := String.substring 0 10 hash.

(** From the signature on. *)
Definition place_order (settlement : string) (order : SignedLimitOrder) : act unit :=
  let typedData := buildSignedLimitOrderTypedData (h_chainId h) settlement order in
  await signature <- ask (Signed typedData) (fun l => wd_sign wd l typedData);
  let orderHash := order_hash settlement order in
  let request := json_stringify (create_body settlement orderHash signature order) in
  await response <- ask (Posted "/api/orders" request) (fun l => wd_post wd l "/api/orders" request);
  let result := default VNull (hr_json response) in
  if reply_failed response result then
    run emit_event (SetResultModal None);
    done_with (Throw (reply_error create_fallback result))
  else
    run emit_event (SetLimitOrder orderHash signature);
    run on_store (upsertLocalLimitOrder (stored_order settlement orderHash order));
    run emit_event (SetTxError None);
    emit_event (SetResultModal (Some {| rm_kind := modal_success; rm_title := None;
      rm_message := tr h "限价单已创建，等待执行器扫描" "Limit order created and waiting for executor scan"
                    ++ ": " ++ short_hash orderHash ++ "..." |})).

Definition limit_order_action (address : string) (payToken receiveToken : SwapTokenOption) : act unit :=
  match settlementAddress lib h, h_publicClient h, parsedLimitPayAmount lib h w with
  | Some settlement, true, Some amountIn =>
    if amountIn =? 0 then return_
    else match parsedLimitReceiveAmount lib h w with
    | Some minAmountOut =>
      if minAmountOut <=? 0
      then emit_event (SetTxError (Some (tr h "数量格式无效" "Invalid amount")))
      else
        await latestBlock <- ask AskedBlock (wd_block wd);
        run sync_orders latestBlock;
        await price <- done_with (match calculateTriggerPriceX18 amountIn minAmountOut
                                          (st_decimals payToken) (st_decimals receiveToken) with
                                  | Ok p => Ok p
                                  | Throw e => Throw (Error e)
                                  end);
        place_order settlement
          (signed_order address payToken receiveToken amountIn minAmountOut price (cb_timestamp latestBlock))
    | None => emit_event (SetTxError (Some (tr h "数量格式无效" "Invalid amount")))
    end
  | _, _, _ => return_
  end.

(** ** A swap *)

Definition deadline_seconds : Z :=
  at_least_one (if str_nonempty (w_deadline w) then w_deadline w else "30") 30 * 60.

(** The router call for the two tokens and the field typed in. *)
Definition swap_write (router address : string) (path : RoutePath) (payKind receiveKind : token_kind)
    (quotedIn deadline : Z) : act unit :=
  let call name args value :=
    submit swap router name (args ++ [ArgPath path; ArgAddress address; ArgUint deadline])%list value in
  match w_inputMode w with
  | pay =>
    match amountOutMin lib h w with
    | Some m =>
      match payKind, receiveKind with
      | native, _ => call "swapExactETHForTokens" [ArgUint m] (Some quotedIn)
      | erc20, native => call "swapExactTokensForETH" [ArgUint quotedIn; ArgUint m] None
      | erc20, erc20 => call "swapExactTokensForTokens" [ArgUint quotedIn; ArgUint m] None
      end
    | None => return_
    end
  | receive =>
    match amountInMax lib h w, parsedReceiveAmount lib h w with
    | Some m, Some out =>
      match payKind, receiveKind with
      | native, _ => call "swapETHForExactTokens" [ArgUint out] (Some m)
      | erc20, native => call "swapTokensForExactETH" [ArgUint out; ArgUint m] None
      | erc20, erc20 => call "swapTokensForExactTokens" [ArgUint out; ArgUint m] None
      end
    | _, _ => return_
    end
  end.

Definition swap_action_run (address : string) (payToken receiveToken : SwapTokenOption) : act unit :=
  match routerAddress lib h, quotedAmountIn w, quotedAmountOut w, executableRoutePath w with
  | Some router, Some quotedIn, Some quotedOut, Some path =>
    if (quotedIn =? 0) || (quotedOut =? 0) then return_
    else if negb (h_publicClient h)
    then done_with (Throw (Error "Unable to read the latest block timestamp."))
    else
      await latestBlock <- ask AskedBlock (wd_block wd);
      swap_write router address path (st_kind payToken) (st_kind receiveToken) quotedIn
        (cb_timestamp latestBlock + deadline_seconds)
  | _, _, _, _ => return_
  end.

(** ** The handler *)

Definition rejectedMessage (kind : ActionKind) : string :=
  match kind with
  | approve => "你已取消本次授权"
  | limit => "你已取消本次限价单签名"
  | _ => "你已取消本次交易"
  end.

Definition failure_modal (kind : ActionKind) (message : string) : option ResultModalState :=
  match kind with
  | limit => Some {| rm_kind := modal_error; rm_title := Some (tr h "创建失败" "Create failed");
                     rm_message := message |}
  | swap => Some {| rm_kind := modal_error; rm_title := Some (tr h "交易失败" "Transaction failed");
                    rm_message := message |}
  | _ => None
  end.

Definition handle_failure (kind : ActionKind) (error : js_error) : act unit :=
  run emit_event (SetResultModal None);
  let errorMessage := wd_errorMessage wd error (rejectedMessage kind) in
  run emit_event (SetTxError (Some errorMessage));
  match failure_modal kind errorMessage with
  | Some m => emit_event (SetResultModal (Some m))
  | None => return_
  end.

Definition perform (kind : ActionKind) (address : string) (payToken receiveToken : SwapTokenOption) : act unit :=
  match kind with
  | wrap => wrap_action
  | approve => approve_action
  | limit => limit_order_action address payToken receiveToken
  | _ => swap_action_run address payToken receiveToken
  end.

Definition handleAction : act unit :=
  if negb (h_mounted h) || negb (h_isConnected h)
  then if h_openConnectModal h then emit_event ConnectOpened else return_
  else match actionKind lib h w, nonempty_text (h_address h), payToken lib h w, receiveToken lib h w with
  | Some kind, Some address, Some p, Some r =>
    run emit_event (SetTxError None);
    run emit_event (SetResultModal None);
    run emit_event (SetLastAction kind);
    run emit_event (SetSubmittedTx None);
    act_catch (perform kind address p r) (handle_failure kind)
  | _, _, _, _ => return_
  end.
End actions.

(** ** The transaction as a call of the router *)

Definition path_value (p : RoutePath) : list address := address_value <$> p.

(** What the router is called with, by name and arguments. *)
Definition router_call_of (t : contract_write) : option router_call :=
  let named name := String.eqb (cw_functionName t) name in
  match cw_args t, cw_value t with
  | [ArgUint a; ArgUint b; ArgPath p; ArgAddress to; ArgUint d], None =>
    let p := path_value p in let to := address_value to in
    if named "swapExactTokensForTokens" then Some (SwapExactTokensForTokens a b p to d)
    else if named "swapTokensForExactTokens" then Some (SwapTokensForExactTokens a b p to d)
    else if named "swapTokensForExactETH" then Some (SwapTokensForExactETH a b p to d)
    else if named "swapExactTokensForETH" then Some (SwapExactTokensForETH a b p to d)
    else None
  | [ArgUint a; ArgPath p; ArgAddress to; ArgUint d], Some v =>
    let p := path_value p in let to := address_value to in
    if named "swapExactETHForTokens" then Some (SwapExactETHForTokens v a p to d)
    else if named "swapETHForExactTokens" then Some (SwapETHForExactTokens v a p to d)
    else None
  | _, _ => None
  end.

(** ** Transactions *)

Definition transactions {raw} (l : list (swap_event raw)) : list contract_write :=
  omap (fun e => match e with Wrote t => Some t | _ => None end) l.

Section sending.
Context {raw : Type}.
Implicit Type s : screen raw.

Lemma transactions_app (l1 l2 : list (swap_event raw)) :
  transactions (l1 ++ l2) = (transactions l1 ++ transactions l2)%list.
Proof. apply omap_app. Qed.

(** The transactions a screen has beyond another's. *)
Definition sent (s s' : screen raw) (l : list contract_write) : Prop :=
  transactions (sc_trace s') = (transactions (sc_trace s) ++ l)%list.

Lemma sent_refl s : sent s s [].
Proof. unfold sent. by rewrite app_nil_r. Qed.

Lemma sent_write t s s' : sent s s' [] -> sent s (with_event (Wrote t) s') [t].
Proof.
  unfold sent. cbn [with_event sc_trace]. intros H. by rewrite transactions_app, H, app_nil_r.
Qed.

Lemma sent_quiet e s s' l :
  match e with Wrote _ => False | _ => True end -> sent s s' l -> sent s (with_event e s') l.
Proof.
  unfold sent. cbn [with_event sc_trace]. intros He H. rewrite transactions_app, H.
  destruct e; try done; by rewrite app_nil_r.
Qed.

Lemma sent_browser b s s' l : sent s s' l -> sent s (with_browser b s') l.
Proof. done. Qed.

End sending.

(** Decides what a screen with explicit events has sent. *)
Ltac sent_events :=
  repeat first [apply sent_refl | apply sent_write | apply sent_quiet; [exact I|]
               | apply sent_browser | assumption].

Section proofs.
Context `{Codec : JsonCodec raw}.
Variable wd : swap_world raw.
Variable lib : libraries.
Variable h : hooks.
Variable w : widget.
Implicit Type s : screen raw.

Lemma handle_failure_sent kind error s s' l :
  sent s s' l ->
  sent s (fst (handle_failure wd h kind error s')) l /\ snd (handle_failure wd h kind error s') = Ok tt.
Proof.
  intros H. unfold handle_failure, act_bind, emit_event, return_, done_with.
  destruct (failure_modal h kind _); cbn [fst snd]; (split; [|done]); sent_events.
Qed.

(** The transaction a submission sends. *)
Definition written (address functionName : string) (args : list abi_arg) (value : option Z) : contract_write :=
  {| cw_address := address; cw_functionName := functionName; cw_args := args; cw_value := value;
     cw_chainId := h_chainId h; cw_gas := localGas h |}.

Lemma submit_sent kind a f args value s s' :
  sent s s' [] -> sent s (fst (submit wd h kind a f args value s')) [written a f args value].
Proof.
  intros H. unfold submit, writeContractAsync, ask, act_bind, emit_event.
  destruct (wd_write wd _ _); cbn [fst]; sent_events.
Qed.

Lemma catch_sent (m : act (screen raw) unit) f s s' l :
  sent s (fst (m s')) l ->
  (forall e s1, sent s s1 l -> sent s (fst (f e s1)) l /\ snd (f e s1) = Ok tt) ->
  sent s (fst (act_catch m f s')) l /\ snd (act_catch m f s') = Ok tt.
Proof.
  intros Hm Hf. unfold act_catch. destruct (m s') as [s1 [[]|e]]; [done|]. by apply Hf.
Qed.

(** The screen on which the handler performs the action. *)
Definition started (kind : ActionKind) s : screen raw :=
  with_event (SetSubmittedTx None) (with_event (SetLastAction kind)
    (with_event (SetResultModal None) (with_event (SetTxError None) s))).

(** A click on an enabled button of a connected wallet sends what its action sends, and its
    errors end in the handler. *)
Lemma handleAction_performs kind address p r s l :
  h_mounted h = true -> h_isConnected h = true -> actionKind lib h w = Some kind ->
  nonempty_text (h_address h) = Some address -> payToken lib h w = Some p -> receiveToken lib h w = Some r ->
  sent s (fst (perform wd lib h w kind address p r (started kind s))) l ->
  sent s (fst (handleAction wd lib h w s)) l /\ snd (handleAction wd lib h w s) = Ok tt.
Proof.
  intros Hm Hc Hk Ha Hp Hr Hl. unfold handleAction. rewrite Hm, Hc, Hk, Ha, Hp, Hr. cbn [negb orb].
  unfold act_bind at 1 2 3 4 5 6 7 8, emit_event at 1 2 3 4 5 6 7 8. fold (started kind s).
  apply catch_sent; [done|]. intros. by apply handle_failure_sent.
Qed.

(** ** A swap *)

(** The tokens, the route and the quote a swap is for. *)
Record swap_terms := {
  sw_router : string;
  sw_pay : SwapTokenOption;
  sw_receive : SwapTokenOption;
  sw_path : RoutePath;
  sw_in : Z;
  sw_out : Z;
}.

Definition terms_of (t : swap_terms) : Prop :=
  routerAddress lib h = Some (sw_router t) /\ payToken lib h w = Some (sw_pay t)
  /\ receiveToken lib h w = Some (sw_receive t) /\ executableRoutePath w = Some (sw_path t)
  /\ quotedAmountIn w = Some (sw_in t) /\ quotedAmountOut w = Some (sw_out t).

(** The most the page lets a swap take and the least it lets it give. *)
Definition swap_limits (t : swap_terms) : option (Z * Z) :=
  match w_inputMode w with
  | pay => pair (sw_in t) <$> amountOutMin lib h w
  | receive => match amountInMax lib h w, parsedReceiveAmount lib h w with
               | Some m, Some out => Some (m, out)
               | _, _ => None
               end
  end.

(** A router call on the terms: the right entry point with the right arguments. *)
Definition call_on_terms (t : swap_terms) (address : string) (deadline : Z) (k : router_call) : Prop :=
  swap_limits t = Some (limits k) /\ exact_in k = bool_decide (w_inputMode w = pay)
  /\ call_path k = path_value (sw_path t) /\ call_to k = address_value address /\ call_deadline k = deadline
  /\ (pays_ETH k = true <-> st_kind (sw_pay t) = native)
  /\ (receives_ETH k = true <-> st_kind (sw_receive t) = native).

Lemma swap_write_sent t address deadline s s' :
  sent s s' [] -> terms_of t -> swap_limits t <> None ->
  exists tx k, sent s (fst (swap_write wd lib h w (sw_router t) address (sw_path t) (st_kind (sw_pay t))
                          (st_kind (sw_receive t)) (sw_in t) deadline s')) [tx]
    /\ cw_address tx = sw_router t /\ cw_chainId tx = h_chainId h
    /\ router_call_of tx = Some k /\ call_on_terms t address deadline k.
Proof.
  intros Hs (_ & Hp & Hr & _) Hl. pose proof (chosen_not_both_native _ _ _ _ _ Hp Hr) as Hn.
  unfold swap_write, call_on_terms, swap_limits in *. destruct (w_inputMode w).
  - destruct (amountOutMin lib h w) as [m|]; [|done].
    destruct (st_kind (sw_pay t)) eqn:Ep, (st_kind (sw_receive t)) eqn:Er; [by destruct Hn|..];
      eexists _, _; (split; [by apply submit_sent|]); split_and!; done.
  - destruct (amountInMax lib h w) as [m|]; [|done]. destruct (parsedReceiveAmount lib h w) as [o|]; [|done].
    destruct (st_kind (sw_pay t)) eqn:Ep, (st_kind (sw_receive t)) eqn:Er; [by destruct Hn|..];
      eexists _, _; (split; [by apply submit_sent|]); split_and!; done.
Qed.

Lemma swap_limits_defined t : terms_of t -> hasQuoteInput lib h w = true -> swap_limits t <> None.
Proof.
  intros (_ & _ & _ & _ & Hi & Ho). unfold hasQuoteInput, swap_limits, amountOutMin, amountInMax.
  rewrite Hi, Ho. cbn. destruct (w_inputMode w); [done|]. by destruct (parsedReceiveAmount lib h w).
Qed.

(** One click, one transaction. *)
Lemma swap_submitted address block s :
  actionKind lib h w = Some swap -> h_publicClient h = true ->
  nonempty_text (h_address h) = Some address -> (forall l, wd_block wd l = Ok block) ->
  exists t tx k,
    terms_of t /\ 0 < sw_in t /\ 0 < sw_out t
    /\ sent s (fst (handleAction wd lib h w s)) [tx] /\ snd (handleAction wd lib h w s) = Ok tt
    /\ cw_address tx = sw_router t /\ cw_chainId tx = h_chainId h /\ router_call_of tx = Some k
    /\ call_on_terms t address (cb_timestamp block + deadline_seconds w) k.
Proof.
  intros Hk Hc Ha Hb. pose proof (swap_enabled _ _ _ Hk) as
    (_ & Hm & Hcon & _ & _ & _ & router & p & r & path & qin & qout & Hro & Hp & Hr & Hpath & Hi & Ho & Hi0 & Ho0 & Hq).
  set (t := {| sw_router := router; sw_pay := p; sw_receive := r; sw_path := path; sw_in := qin; sw_out := qout |}).
  assert (terms_of t) as Ht by done.
  destruct (swap_write_sent t address (cb_timestamp block + deadline_seconds w) s
    (with_event AskedBlock (started swap s))) as (tx & k & Hsent & H); [|done|by apply swap_limits_defined|].
  { unfold started. sent_events. }
  exists t, tx, k. destruct (handleAction_performs swap address p r s [tx]) as [H1 H2]; try done.
  cbn [perform]. unfold swap_action_run. rewrite Hro, Hi, Ho, Hpath, Hc.
  rewrite (proj2 (Z.eqb_neq qin 0)), (proj2 (Z.eqb_neq qout 0)) by lia. cbn [orb negb].
  unfold act_bind, ask. rewrite Hb. exact Hsent.
Qed.

Lemma deadline_seconds_positive : 60 <= deadline_seconds w.
Proof. unfold deadline_seconds, at_least_one. lia. Qed.
End proofs.

(** ** What a click on the swap button does *)

(** The recipient's side of an executed quote: [a] to [b] over one pair that is as it was
    quoted, with balances that stay in their range. *)
Record quoted_pool (e : swap_env) (ps : pairs) (m : InputMode) (a b x y : Z) (to : address) : Prop := {
  qp_pair : exists c ri ro, ps !! (Z.min a b, Z.max a b) = Some c /\ can_sync (se_timestamp e) c = true
    /\ _getReserves a b ps = Ok (ri, ro) /\ ri + x < 2 ^ 112 /\ ro + x < 2 ^ 112
    /\ match m with pay => getAmountOut x ri ro = Ok y | receive => getAmountIn y ri ro = Ok x end;
  qp_payment : se_transferFrom e a x = Ok tt;
  qp_to : to <> a /\ to <> b;
  qp_router : se_router e <> a /\ se_router e <> b;
}.

Lemma quoted_call_executes e pair_address ps m a b x y k :
  quoted_pool e ps m a b x y (call_to k) -> call_path k = [a; b] -> exact_in k = bool_decide (m = pay) ->
  match m with
  | pay => fst (limits k) = x /\ snd (limits k) <= y
  | receive => x <= fst (limits k) /\ snd (limits k) = y
  end ->
  0 < y -> se_timestamp e <= call_deadline k ->
  (pays_ETH k = true -> a = se_WETH e) -> (receives_ETH k = true -> b = se_WETH e) ->
  exists rc, exec_router e pair_address k ps = Ok rc /\ rc_paid rc = x /\ rc_received rc = y.
Proof.
  intros [(c & ri & ro & Hc & Hs & Hr & Hi & Ho & Hq) Hpay [Hta Htb] [Hra Hrb]] Hp Hm Hl Hy Hd Ha Hb.
  apply Z.leb_le in Hd.
  destruct k; cbn [call_path call_to call_deadline exact_in limits pays_ETH receives_ETH fst snd] in *;
    (destruct m; [|try (by destruct Hl)]); try discriminate Hm; subst path;
    unfold exec_router, ensure, first_is, last_is, pay_token; rewrite Hd; cbn [head last fst snd] in *;
    rewrite <- ?Ha, <- ?Hb by done; rewrite ?Z.eqb_refl; cbn [res_bind]; destruct Hl as [<- ?] || destruct Hl as [? <-];
    (eapply direct_exact_input || eapply direct_exact_output); by eauto.
Qed.

(** C34.  A click that swaps sends exactly one transaction, a call of the configured router on
    the connected chain.  It is the entry point for the kinds of the two tokens and the
    field typed in, along the quoted path, paid out to the wallet, with a deadline at least
    a minute after the latest block; the balance and the allowance, where known, cover the
    quote.  Wherever and whenever it executes, the wallet pays at most, and receives at least,
    what the quote allows at the tolerance shown. *)
Theorem swap_transaction `{Codec : JsonCodec raw} (wd : swap_world raw) lib h w address block s :
  actionKind lib h w = Some swap -> h_publicClient h = true ->
  nonempty_text (h_address h) = Some address -> (forall l, wd_block wd l = Ok block) ->
  exists t tx k,
    terms_of lib h w t
    /\ sent s (fst (handleAction wd lib h w s)) [tx] /\ snd (handleAction wd lib h w s) = Ok tt
    /\ cw_address tx = sw_router t /\ cw_chainId tx = h_chainId h /\ router_call_of tx = Some k
    /\ call_path k = path_value (sw_path t) /\ call_to k = address_value address
    /\ cb_timestamp block + 60 <= call_deadline k
    /\ (pays_ETH k = true <-> st_kind (sw_pay t) = native)
    /\ (receives_ETH k = true <-> st_kind (sw_receive t) = native)
    /\ (forall b, h_payBalance h = Some b -> sw_in t <= b_value b)
    /\ (forall a, h_allowance h = Some a -> st_kind (sw_pay t) = erc20 -> sw_in t <= a)
    /\ (let b := slippageBps lib h w in 0 <= b <= 5000 /\
        match w_inputMode w with
        | pay => limits k = (sw_in t, sw_out t * (10000 - b) / 10000)
        | receive => exists out, parsedReceiveAmount lib h w = Some out
                       /\ limits k = (sw_in t * (10000 + b) / 10000, out)
        end)
    /\ (forall e pair_address ps rc, exec_router e pair_address k ps = Ok rc ->
          rc_paid rc <= fst (limits k) /\ snd (limits k) <= rc_received rc).
Proof.
  intros Hk Hc Ha Hb. destruct (swap_submitted wd lib h w address block s Hk Hc Ha Hb)
    as (t & tx & k & Ht & Hi & Ho & Hs & Hr & Hto & Hch & Hcall & Hlim & _ & Hpath & Hrec & Hdl & HE1 & HE2).
  exists t, tx, k. pose proof (swap_enabled _ _ _ Hk) as (Hlm & _ & _ & _ & Hbal & Happ & _).
  pose proof (slippageBps_range lib h w) as Hsl. pose proof (deadline_seconds_positive w).
  pose proof Ht as (_ & Hp & Hrt & _ & Hqi & Hqo).
  split_and!; try done; [lia| | | |].
  - intros b Hpb. unfold insufficientBalance, requiredInputAmount, displayedPayBalance in Hbal.
    rewrite Hlm, Hqi in Hbal. cbn [andb] in Hbal. rewrite Hpb in Hbal. bool_solve. lia.
  - intros a Hal Hkind. unfold needsApproval, requiredInputAmount, approvalTokenAddress, payBalanceTokenAddress in Happ.
    rewrite Hlm, Hqi, Hp, Hkind, Hal in Happ.
    destruct (chosen_tokens _ _ _ _ _ Hp Hrt) as (Hin & _).
    apply swap_option in Hin as (_ & _ & _ & _ & _ & _ & Haddr & Hne). rewrite Hkind in Haddr.
    rewrite Haddr, Hne in Happ. cbn [andb] in Happ. bool_solve. lia.
  - unfold swap_limits, amountOutMin, amountInMax in Hlim. rewrite Hqi, Hqo in Hlim. cbn in Hlim.
    split; [done|]. destruct (w_inputMode w).
    + injection Hlim as <-. by rewrite Z.quot_div_nonneg by nia.
    + destruct (parsedReceiveAmount lib h w) as [out|]; [|done]. injection Hlim as <-. exists out.
      by rewrite Z.quot_div_nonneg by nia.
  - intros. by eapply exec_router_limits.
Qed.

(** C10.  A fresh quote executes.  If the quote displayed is the router's own for a pool of the
    two tokens that has not changed, for the amount typed, then the transaction a click sends
    succeeds: the wallet pays exactly the quoted input and receives exactly the quoted
    output. *)
Theorem fresh_quote_executes `{Codec : JsonCodec raw} (wd : swap_world raw) lib h w address block s
    e pair_address ps a b x y :
  actionKind lib h w = Some swap -> h_publicClient h = true ->
  nonempty_text (h_address h) = Some address -> (forall l, wd_block wd l = Ok block) ->
  executableRoutePath w = Some [a; b] -> quotedAmountIn w = Some x -> quotedAmountOut w = Some y ->
  (w_inputMode w = receive -> parsedReceiveAmount lib h w = Some y) ->
  quoted_pool e ps (w_inputMode w) (address_value a) (address_value b) x y (address_value address) ->
  (kind_of (payToken lib h w) = Some native -> address_value a = se_WETH e) ->
  (kind_of (receiveToken lib h w) = Some native -> address_value b = se_WETH e) ->
  se_timestamp e <= cb_timestamp block + 60 ->
  exists tx k rc,
    sent s (fst (handleAction wd lib h w s)) [tx] /\ router_call_of tx = Some k
    /\ exec_router e pair_address k ps = Ok rc /\ rc_paid rc = x /\ rc_received rc = y.
Proof.
  intros Hk Hc Ha Hb Hpath Hx Hy Hout Hpool Hpe Hre Hts.
  destruct (swap_submitted wd lib h w address block s Hk Hc Ha Hb)
    as (t & tx & k & Ht & Hi & Ho & Hs & _ & _ & _ & Hcall & Hlim & Hin & Hp & Hrec & Hdl & HE1 & HE2).
  destruct Ht as (_ & Hpt & Hrt & Hpath' & Hx' & Hy'). rewrite Hpath in Hpath'. rewrite Hx in Hx'. rewrite Hy in Hy'.
  injection Hpath' as Et. injection Hx' as Ex. injection Hy' as Ey. rewrite <- Et in Hp.
  destruct (quoted_call_executes e pair_address ps (w_inputMode w) (address_value a) (address_value b) x y k)
    as (rc & Hrc); [by rewrite Hrec|done|done| |lia| | | |].
  - unfold swap_limits, amountOutMin, amountInMax in Hlim. rewrite Hx, Hy in Hlim. cbn in Hlim.
    pose proof (slippageBps_range lib h w) as Hsl. set (bps := slippageBps lib h w) in *. clearbody bps.
    destruct (w_inputMode w).
    + injection Hlim as <-. cbn [fst snd]. split; [done|]. rewrite Z.quot_div_nonneg by nia.
      apply Z.div_le_upper_bound; nia.
    + rewrite Hout in Hlim by done. injection Hlim as <-. cbn [fst snd]. split; [|done].
      rewrite Z.quot_div_nonneg by nia. apply Z.div_le_lower_bound; nia.
  - rewrite Hdl. pose proof (deadline_seconds_positive w). lia.
  - intros E. apply Hpe. rewrite Hpt. cbn. by rewrite (proj1 HE1 E).
  - intros E. apply Hre. rewrite Hrt. cbn. by rewrite (proj1 HE2 E).
  - by exists tx, k, rc.
Qed.

(** ** One transaction a click, errors reported *)

Ltac sends_nothing := exists []; split; [sent_events|by left].

Section guarded.
Context `{Codec : JsonCodec raw}.
Variable wd : swap_world raw.
Variable lib : libraries.
Variable h : hooks.
Variable w : widget.
Implicit Type s : screen raw.

(** A computation that sends nothing. *)
Definition quiet {A} (m : act (screen raw) A) : Prop := forall s s' l, sent s s' l -> sent s (fst (m s')) l.

Lemma quiet_done {A} (r : res js_error A) : quiet (done_with r).
Proof. by intros s s' l. Qed.

Lemma quiet_bind {A B} (m : act (screen raw) A) (k : A -> act (screen raw) B) : quiet m -> (forall a, quiet (k a)) -> quiet (act_bind m k).
Proof.
  intros Hm Hk s s' l H. unfold act_bind. specialize (Hm s s' l H).
  destruct (m s') as [s1 [a|e]]; [by apply Hk|done].
Qed.

Lemma quiet_emit e : match e with Wrote _ => False | _ => True end -> quiet (emit_event e).
Proof. intros He s s' l H. by apply sent_quiet. Qed.

Lemma quiet_ask {A} e (f : list (swap_event raw) -> res js_error A) :
  match e with Wrote _ => False | _ => True end -> quiet (ask e f).
Proof. intros He s s' l H. by apply sent_quiet. Qed.

Lemma quiet_on_store f : quiet (on_store f).
Proof. by intros s s' l. Qed.

Lemma quiet_sync latest : quiet (sync_orders wd h latest).
Proof. intros s s' l H. unfold sync_orders. by destruct (syncLocalLimitOrdersWithChain _ _ _ _ _ _) as [[]|]. Qed.

Lemma quiet_limit_order address p r : quiet (limit_order_action wd lib h w address p r).
Proof.
  unfold limit_order_action, place_order, return_.
  repeat match goal with
  | |- quiet (match ?x with _ => _ end) => destruct x
  | |- quiet (act_bind _ _) => apply quiet_bind; [|intros ?]
  | |- quiet (done_with _) => apply quiet_done
  | |- quiet (emit_event _) => by apply quiet_emit
  | |- quiet (ask _ _) => by apply quiet_ask
  | |- quiet (on_store _) => apply quiet_on_store
  | |- quiet (sync_orders _ _ _) => apply quiet_sync
  | |- quiet (let _ := _ in _) => cbv zeta
  end.
Qed.

(** The transaction an action may send. *)
Definition allowed (kind : ActionKind) (address : string) (tx : contract_write) : Prop :=
  cw_chainId tx = h_chainId h /\
  match kind with
  | approve => exists token spender,
      approvalTokenAddress lib h w = Some token /\ approvalSpenderAddress lib h w = Some spender
      /\ tx = written h token "approve" [ArgAddress spender; ArgUint maxUint256] None
  | wrap => exists weth amount,
      wrappedNativeAddress lib h = Some weth /\ parsedLimitPayAmount lib h w = Some amount /\ 0 < amount
      /\ tx = written h weth "deposit" [] (Some amount)
  | swap | revoke => exists t deadline k, terms_of lib h w t /\ cw_address tx = sw_router t
      /\ router_call_of tx = Some k /\ call_on_terms lib h w t address deadline k
  | limit => False
  end.

Definition sends_allowed (kind : ActionKind) (address : string) (m : act (screen raw) unit) : Prop :=
  forall s s', sent s s' [] ->
  exists l, sent s (fst (m s')) l /\ (l = [] \/ exists tx, l = [tx] /\ allowed kind address tx).

Lemma quiet_allowed kind address m : quiet m -> sends_allowed kind address m.
Proof. intros Hm s s' H. exists []. split; [by apply Hm|by left]. Qed.

Lemma swap_allowed address p r kind :
  kind = swap \/ kind = revoke -> payToken lib h w = Some p -> receiveToken lib h w = Some r ->
  sends_allowed kind address (swap_action_run wd lib h w address p r).
Proof.
  intros Hkind Hp Hr s s' Hs. unfold swap_action_run.
  destruct (routerAddress lib h) as [router|] eqn:Ero; [|sends_nothing].
  destruct (quotedAmountIn w) as [qin|] eqn:Ei; [|sends_nothing].
  destruct (quotedAmountOut w) as [qout|] eqn:Eo; [|sends_nothing].
  destruct (executableRoutePath w) as [path|] eqn:Ep; [|sends_nothing].
  destruct (_ || _); [sends_nothing|].
  destruct (negb _); [sends_nothing|].
  unfold act_bind, ask. destruct (wd_block wd _) as [block|e]; [|sends_nothing].
  set (t := {| sw_router := router; sw_pay := p; sw_receive := r; sw_path := path; sw_in := qin; sw_out := qout |}).
  assert (terms_of lib h w t) as Ht by done.
  assert (sent s (with_event AskedBlock s') []) as Hs1 by sent_events.
  destruct (swap_limits lib h w t) as [lim|] eqn:El.
  - destruct (swap_write_sent wd lib h w t address (cb_timestamp block + deadline_seconds w) s _ Hs1 Ht)
      as (tx & k & H1 & Ha & Hc & Hcall & Hk); [by rewrite El|].
    exists [tx]. split; [exact H1|]. right. exists tx. split; [done|]. split; [done|].
    destruct Hkind as [-> | ->]; by exists t, (cb_timestamp block + deadline_seconds w), k.
  - unfold swap_write, swap_limits in *.
    destruct (w_inputMode w); [destruct (amountOutMin lib h w); [done|sends_nothing]|].
    destruct (amountInMax lib h w); [|sends_nothing].
    destruct (parsedReceiveAmount lib h w); [done|sends_nothing].
Qed.

Lemma perform_allowed kind address p r :
  payToken lib h w = Some p -> receiveToken lib h w = Some r ->
  sends_allowed kind address (perform wd lib h w kind address p r).
Proof.
  intros Hp Hr. destruct kind; cbn [perform].
  - unfold approve_action. destruct (nonempty_text _) as [token|] eqn:E1; [|by apply quiet_allowed, quiet_done].
    destruct (approvalSpenderAddress lib h w) as [spender|] eqn:E2; [|by apply quiet_allowed, quiet_done].
    intros s s' Hs. eexists. split; [by apply submit_sent|]. right. eexists. split; [done|]. split; [done|].
    exists token, spender. split; [|done]. unfold nonempty_text in E1.
    destruct (approvalTokenAddress lib h w) as [a|]; [|done]. by destruct (str_nonempty a).
  - apply swap_allowed; auto.
  - apply swap_allowed; auto.
  - apply quiet_allowed, quiet_limit_order.
  - unfold wrap_action. destruct (wrappedNativeAddress lib h) as [weth|] eqn:E1; [|by apply quiet_allowed, quiet_done].
    destruct (parsedLimitPayAmount lib h w) as [amount|] eqn:E2; [|by apply quiet_allowed, quiet_done].
    destruct (Z.ltb_spec 0 amount); [|by apply quiet_allowed, quiet_done].
    intros s s' Hs. eexists. split; [by apply submit_sent|]. right. eexists. split; [done|]. split; [done|].
    by exists weth, amount.
Qed.
End guarded.

(** A click sends at most one transaction, and only the one its button stands for: an
    approval of the token paid to the contract that will take it, a deposit of the order's
    amount in the wrapped token, or the router call on the quoted terms; a limit order sends
    none.  Without a connected wallet it only opens the wallet's dialog.  It never throws. *)
Theorem one_transaction_per_click `{Codec : JsonCodec raw} (wd : swap_world raw) lib h w s :
  snd (handleAction wd lib h w s) = Ok tt
  /\ exists l, sent s (fst (handleAction wd lib h w s)) l
     /\ (l = [] \/ exists kind address tx,
           l = [tx] /\ h_mounted h = true /\ h_isConnected h = true /\ actionKind lib h w = Some kind
           /\ h_address h = Some address /\ allowed lib h w kind address tx).
Proof.
  unfold handleAction at 1 2. destruct (negb (h_mounted h) || negb (h_isConnected h)) eqn:Ec.
  { destruct (h_openConnectModal h); (split; [done|]); sends_nothing. }
  apply orb_false_iff in Ec as [Hm%negb_false_iff Hc%negb_false_iff].
  destruct (actionKind lib h w) as [kind|] eqn:Ek; [|split; [done|]; sends_nothing].
  destruct (nonempty_text (h_address h)) as [address|] eqn:Ea; [|split; [done|]; sends_nothing].
  destruct (payToken lib h w) as [p|] eqn:Ep; [|split; [done|]; sends_nothing].
  destruct (receiveToken lib h w) as [r|] eqn:Er; [|split; [done|]; sends_nothing].
  destruct (perform_allowed wd lib h w kind address p r Ep Er s (started kind s)) as (l & Hl & Hall);
    [unfold started; sent_events|].
  destruct (handleAction_performs wd lib h w kind address p r s l) as [H1 H2]; try done.
  unfold handleAction in H1, H2. rewrite Hm, Hc, Ek, Ea, Ep, Er in H1, H2. cbn [negb orb] in H1, H2.
  split; [exact H2|]. exists l. split; [exact H1|]. destruct Hall as [->|(tx & -> & Hall)]; [by left|right].
  exists kind, address, tx. split_and!; try done. unfold nonempty_text in Ea.
  destruct (h_address h) as [a|]; [|done]. by destruct (str_nonempty a).
Qed.

(** ** A limit order *)

(** What the create route is asked to do with an order. *)
Definition payload_of (chainId : Z) (settlement hash signature : string) (o : SignedLimitOrder) : CreateOrderPayload :=
  {| co_chainId := num_of_Z chainId; co_settlementAddress := settlement; co_orderHash := hash;
     co_maker := maker o; co_inputToken := inputToken o; co_outputToken := outputToken o;
     co_amountIn := dec (amountIn o); co_minAmountOut := dec (minAmountOut o);
     co_maxExecutorRewardBps := dec (maxExecutorRewardBps o); co_triggerPriceX18 := dec (triggerPriceX18 o);
     co_expiry := dec (expiry o); co_nonce := dec (nonce o); co_recipient := recipient o;
     co_signature := signature; co_source := "frontend" |}.

Definition order_nonneg (o : SignedLimitOrder) : Prop :=
  0 <= amountIn o /\ 0 <= minAmountOut o /\ 0 <= maxExecutorRewardBps o /\ 0 <= triggerPriceX18 o
  /\ 0 <= expiry o /\ 0 <= nonce o.

Lemma dec_normal n : 0 <= n -> normal_text (dec n).
Proof. intros H. split; [by apply trim_dec|by apply dec_nonempty]. Qed.

Lemma safe_chain_id c : 0 < c < 2 ^ 53 -> safe_positive (num_of_Z c).
Proof.
  intros H. exists c. split; [apply num_integral_of_Z; lia|]. unfold max_safe_integer. lia.
Qed.

Section limit_orders.
Context `{Codec : JsonCodec raw}.
Variable wd : swap_world raw.
Variable lib : libraries.
Variable h : hooks.
Variable w : widget.
Hypothesis chain_id : 0 < h_chainId h < 2 ^ 53.
Implicit Type s : screen raw.

(** The request is read by the create route as the order's payload. *)
Lemma create_body_read settlement hash signature o :
  order_nonneg o ->
  Forall normal_text [settlement; hash; maker o; inputToken o; outputToken o; recipient o; signature] ->
  exists body, json_parse (json_stringify (create_body h settlement hash signature o)) = Some body
    /\ normalizeCreateOrderBody body = Ok (payload_of (h_chainId h) settlement hash signature o).
Proof.
  intros (? & ? & ? & ? & ? & ?) Ht. set (p := payload_of (h_chainId h) settlement hash signature o).
  change (create_body h settlement hash signature o) with (create_payload_js p).
  assert (json_wf (create_payload_js p) = true) as Hwf.
  { apply json_wf_obj. split; [unfold obj_wf; cbn; by apply (bool_decide_unpack _)|].
    repeat constructor. apply json_wf_num. lia. }
  exists (create_payload_js p). split.
  - rewrite json_parse_stringify by (done || by apply json_wf_ok). by rewrite json_wf_clean.
  - apply create_payload_normal. split; [by apply safe_chain_id|].
    repeat (apply Forall_cons in Ht as [? Ht]).
    repeat (apply Forall_cons; split); try apply Forall_nil; try done; try by apply dec_normal.
Qed.

Lemma stored_order_record settlement hash o : order_ok (stored_order wd h settlement hash o).
Proof.
  apply record_order_ok with (num_of_Z (h_chainId h)).
  - reflexivity.
  - apply json_ok_obj. split; [|by repeat constructor].
    unfold obj_wf. cbn. by apply (bool_decide_unpack _).
  - reflexivity.
  - apply safe_positive_finite. by apply safe_chain_id.
Qed.

(** Its number and strings are stored as they are. *)
Lemma stored_order_fields settlement hash o k :
  obj_has k (stored_order wd h settlement hash o) = true ->
  clean_field (obj_get k (stored_order wd h settlement hash o)) = obj_get k (stored_order wd h settlement hash o).
Proof.
  intros Hk. assert (json_wf (VNum (num_of_Z (h_chainId h))) = true) as Hwf by (apply json_wf_num; lia).
  unfold stored_order, order_fields in *. cbn [app obj_get obj_has] in *.
  destruct (String.eqb k "chainId") eqn:E; [|by repeat (case_match; try done)].
  unfold clean_field. by rewrite (json_wf_clean _ Hwf).
Qed.

(** A mined block is enough for the store's synchronisation. *)
Lemma sync_defined block b n hash :
  cb_number block = Some n -> cb_hash block = Some hash -> str_nonempty hash = true ->
  (forall b, has_window (wd_interfere wd b) = has_window b) ->
  exists d b1, syncLocalLimitOrdersWithChain (wd_history wd) (wd_interfere wd) (h_chainId h)
                 (cb_number block) (cb_hash block) b = Ok (d, b1)
    /\ has_window b1 = has_window b.
Proof.
  intros -> -> Hh Hint. unfold syncLocalLimitOrdersWithChain. rewrite Hh. cbn [res_bind block_number block_hash].
  rewrite Hh. cbn [negb]. destruct (sync_verdict _ _ _) as [| |m sh].
  - do 2 eexists. split; [done|]. apply has_window_update.
  - do 2 eexists. split; [done|]. rewrite has_window_update. apply has_window_clear.
  - destruct (reorged _ _); (do 2 eexists; split; [done|]);
      rewrite has_window_update, ?has_window_clear; apply Hint.
Qed.
End limit_orders.

(** ** What a click that places a limit order does *)

(** The outcome of an order that is not placed: the wallet refuses to sign, the request fails or
    its reply is a refusal. *)
Inductive order_failure :=
| NotSigned (e : js_error)
| NotPosted (signature : string) (e : js_error)
| Refused (signature : string) (response : http_reply).

Section placing.
Context `{Codec : JsonCodec raw}.
Variable wd : swap_world raw.
Variable lib : libraries.
Variable h : hooks.
Variable w : widget.
Variable block : chain_block.
Variable address : string.
Hypothesis limit_kind : actionKind lib h w = Some limit.
Hypothesis client : h_publicClient h = true.
Hypothesis wallet : nonempty_text (h_address h) = Some address.
Hypothesis latest : forall l, wd_block wd l = Ok block.
Hypothesis mined : exists n hash, cb_number block = Some n /\ cb_hash block = Some hash /\ str_nonempty hash = true.
Hypothesis interference : forall b, has_window (wd_interfere wd b) = has_window b.
Implicit Type s : screen raw.

(** The order a click signs. *)
Definition order_terms (settlement : string) (o : SignedLimitOrder) : Prop :=
  exists p r, payToken lib h w = Some p /\ receiveToken lib h w = Some r
    /\ settlementAddress lib h = Some settlement
    /\ calculateTriggerPriceX18 (amountIn o) (minAmountOut o) (st_decimals p) (st_decimals r)
       = Ok (triggerPriceX18 o)
    /\ o = signed_order wd lib h w address p r (amountIn o) (minAmountOut o) (triggerPriceX18 o) (cb_timestamp block)
    /\ parsedLimitPayAmount lib h w = Some (amountIn o) /\ parsedLimitReceiveAmount lib h w = Some (minAmountOut o)
    /\ 0 < amountIn o /\ 0 < minAmountOut o /\ 0 < triggerPriceX18 o.

(** Up to the signature the click is the same whatever the answers. *)
Lemma order_reaches_signature s :
  exists settlement o b1,
    order_terms settlement o /\ has_window b1 = has_window (sc_browser s)
    /\ (exists d, syncLocalLimitOrdersWithChain (wd_history wd) (wd_interfere wd) (h_chainId h)
                    (cb_number block) (cb_hash block) (sc_browser s) = Ok (d, b1))
    /\ handleAction wd lib h w s
       = act_catch (place_order wd h settlement o) (handle_failure wd h limit)
           (with_browser b1 (with_event AskedBlock (started limit s))).
Proof.
  destruct (limit_enabled _ _ _ limit_kind) as
    (_ & Hm & Hc & _ & _ & settlement & p & r & i & o & price & Hset & Hp & Hr & Hi & Ho & Hprice & Hi0 & Ho0 & Hp0).
  destruct mined as (n & hash & Hn & Hh & Hne).
  destruct (sync_defined wd h block (sc_browser s) n hash Hn Hh Hne interference) as (d & b1 & Hsync & Hw).
  exists settlement, (signed_order wd lib h w address p r i o price (cb_timestamp block)), b1.
  split; [by exists p, r|]. split; [done|]. split; [by exists d|].
  unfold handleAction. rewrite Hm, Hc, limit_kind, wallet, Hp, Hr. cbn [negb orb].
  unfold act_bind at 1 2 3 4, emit_event at 1 2 3 4. fold (started limit s). cbn [perform].
  unfold act_catch at 1 2. f_equal. unfold limit_order_action. rewrite Hset, client, Hi, Ho.
  rewrite (proj2 (Z.eqb_neq i 0)), (proj2 (Z.leb_gt o 0)) by lia.
  unfold act_bind at 1, ask at 1. rewrite latest. unfold act_bind at 1, sync_orders at 1.
  change (sc_browser (with_event AskedBlock (started limit s))) with (sc_browser s).
  rewrite Hsync, Hprice. done.
Qed.
End placing.

(** The answers of the world that make an order fail, and the error shown for them. *)
Definition fails {raw} (wd : swap_world raw) (f : order_failure) : Prop :=
  match f with
  | NotSigned e => forall l d, wd_sign wd l d = Throw e
  | NotPosted signature e =>
    (forall l d, wd_sign wd l d = Ok signature) /\ forall l u b, wd_post wd l u b = Throw e
  | Refused signature response =>
    (forall l d, wd_sign wd l d = Ok signature) /\ (forall l u b, wd_post wd l u b = Ok response)
    /\ reply_failed response (default VNull (hr_json response)) = true
  end.

Definition failure_error (h : hooks) (f : order_failure) : js_error :=
  match f with
  | NotSigned e | NotPosted _ e => e
  | Refused _ response => reply_error (create_fallback h) (default VNull (hr_json response))
  end.

Definition error_report {raw} (h : hooks) (message : string) : list (swap_event raw) :=
  [SetResultModal None; SetTxError (Some message);
   SetResultModal (Some {| rm_kind := modal_error; rm_title := Some (tr h "创建失败" "Create failed");
                           rm_message := message |})].

(** The events up to the request. *)
Definition order_asked `{JsonCodec raw} (wd : swap_world raw) h settlement o (f : order_failure)
  : list (swap_event raw) :=
  (AskedBlock :: Signed (buildSignedLimitOrderTypedData (h_chainId h) settlement o) ::
   match f with
   | NotSigned _ => []
   | NotPosted signature _ =>
     [Posted "/api/orders" (json_stringify (create_body h settlement (order_hash wd h settlement o) signature o))]
   | Refused signature _ =>
     [Posted "/api/orders" (json_stringify (create_body h settlement (order_hash wd h settlement o) signature o));
      SetResultModal None]
   end)%list.

(** C20.  An order that is not placed leaves nothing behind.  If the wallet refuses to sign,
    the request fails or the backend refuses the order, then the order store is exactly
    what the synchronisation with the chain left, no transaction is sent, nothing is posted
    without a signature, and the page shows the error: the one thrown, or the backend's
    message with its hint. *)
Theorem failed_order_is_reported `{Codec : JsonCodec raw} (wd : swap_world raw) lib h w block address s f :
  actionKind lib h w = Some limit -> h_publicClient h = true ->
  nonempty_text (h_address h) = Some address -> (forall l, wd_block wd l = Ok block) ->
  (exists n hash, cb_number block = Some n /\ cb_hash block = Some hash /\ str_nonempty hash = true) ->
  (forall b, has_window (wd_interfere wd b) = has_window b) -> fails wd f ->
  let s' := fst (handleAction wd lib h w s) in
  snd (handleAction wd lib h w s) = Ok tt /\ sent s s' []
  /\ (exists d, syncLocalLimitOrdersWithChain (wd_history wd) (wd_interfere wd) (h_chainId h)
                  (cb_number block) (cb_hash block) (sc_browser s) = Ok (d, sc_browser s'))
  /\ exists settlement o, order_terms wd lib h w block address settlement o
       /\ sc_trace s' = (sc_trace (started limit s) ++ order_asked wd h settlement o f
            ++ error_report h (wd_errorMessage wd (failure_error h f) (rejectedMessage limit)))%list.
Proof.
  intros Hk Hc Ha Hb Hm Hi Hf s'. unfold s'.
  destruct (order_reaches_signature wd lib h w block address Hk Hc Ha Hb Hm Hi s)
    as (settlement & o & b1 & Ho & _ & Hsync & ->).
  set (s1 := with_browser b1 (with_event AskedBlock (started limit s))).
  assert (sent s s1 []) as Hs1 by (unfold s1, started; sent_events).
  unfold act_catch, place_order, act_bind, ask, order_asked, error_report.
  destruct f as [e|signature e|signature response]; cbn [fails failure_error] in *.
  - rewrite Hf. split; [done|]. split; [sent_events|]. split; [exact Hsync|].
    exists settlement, o. split; [done|]. cbn. by rewrite <- !app_assoc.
  - destruct Hf as [-> Hf]. rewrite Hf. split; [done|]. split; [sent_events|]. split; [exact Hsync|].
    exists settlement, o. split; [done|]. cbn. by rewrite <- !app_assoc.
  - destruct Hf as (-> & Hf & Hr). rewrite Hf, Hr. split; [done|]. split; [sent_events|]. split; [exact Hsync|].
    exists settlement, o. split; [done|]. cbn. by rewrite <- !app_assoc.
Qed.

(** A text the environment gives is trimmed. *)
Lemma order_texts_normal `{Codec : JsonCodec raw} (wd : swap_world raw) lib h w block address settlement o :
  order_terms wd lib h w block address settlement o -> normal_text address ->
  (forall name c a, lib_contract lib name c = Some a -> str_nonempty a = true -> normal_text a) ->
  Forall normal_text [settlement; maker o; inputToken o; outputToken o; recipient o].
Proof.
  intros (p & r & Hp & Hr & Hs & _ & -> & _) Ha Hl. cbn [maker inputToken outputToken recipient signed_order].
  assert (normal_text zeroAddress) as Hz by done.
  assert (forall name c, contract lib h name = Some c -> normal_text c) as Hcontract.
  { intros name c. unfold contract, nonempty_text. destruct (lib_contract _ _ _) as [a|] eqn:E; [|done].
    destruct (str_nonempty a) eqn:En; [|done]. intros [= <-]. by eapply Hl. }
  destruct (chosen_tokens _ _ _ _ _ Hp Hr) as (Hinp & Hinr & _).
  assert (forall t, t ∈ tokenOptions lib h -> normal_text (default zeroAddress (st_address t))) as Htok.
  { intros t (e & _ & Hc & _ & _ & _ & -> & Hn)%swap_option. destruct (st_kind t); [done|]. by eapply Hl. }
  repeat (apply Forall_cons; split); try apply Forall_nil; try done.
  - by eapply Hcontract.
  - destruct (st_kind p); [|by apply Htok]. unfold wrappedNativeAddress.
    destruct (contract lib h "MockWETH") eqn:E; [by eapply Hcontract|done].
  - unfold toSignedLimitOrderTokenAddress. case_match; [done|by apply Htok].
Qed.

Lemma order_terms_nonneg `{Codec : JsonCodec raw} (wd : swap_world raw) lib h w block address settlement o :
  order_terms wd lib h w block address settlement o -> 0 <= cb_timestamp block ->
  0 <= fst (wd_random wd) -> 0 <= snd (wd_random wd) -> order_nonneg o.
Proof.
  intros (p & r & _ & _ & _ & _ & Ho & _ & _ & Hin & Hout & Hprice) Ht Hr1 Hr2.
  assert (0 <= expiry o /\ 0 <= nonce o /\ 0 <= maxExecutorRewardBps o) as (? & ? & ?).
  { rewrite Ho. cbn [expiry nonce maxExecutorRewardBps signed_order].
    unfold limitExpirySeconds, at_least_one, order_nonce. rewrite Z.shiftl_mul_pow2 by done.
    change LIMIT_ORDER_DEFAULT_MAX_EXECUTOR_REWARD_BPS with 3000. lia. }
  unfold order_nonneg. lia.
Qed.

(** Placing a limit order, end to end.  If the wallet signs and the backend accepts, one
    order is what the wallet signed, what the create route reads in the request, and what
    the browser's store then holds as open, under the hash of the signed order: the amounts
    are those parsed from the two fields, both positive, the price is theirs, maker and
    recipient are the wallet.  No transaction is sent. *)
Theorem limit_order_placed `{Codec : JsonCodec raw} (wd : swap_world raw) lib h w block address s signature response :
  actionKind lib h w = Some limit -> h_publicClient h = true ->
  nonempty_text (h_address h) = Some address -> (forall l, wd_block wd l = Ok block) ->
  (exists n hash, cb_number block = Some n /\ cb_hash block = Some hash /\ str_nonempty hash = true) ->
  (forall b, has_window (wd_interfere wd b) = has_window b) ->
  (forall l d, wd_sign wd l d = Ok signature) -> (forall l u b, wd_post wd l u b = Ok response) ->
  reply_failed response (default VNull (hr_json response)) = false ->
  has_window (sc_browser s) = true -> 0 < h_chainId h < 2 ^ 53 -> 0 <= cb_timestamp block ->
  0 <= fst (wd_random wd) /\ 0 <= snd (wd_random wd) ->
  normal_text address -> normal_text signature -> (forall c o, normal_text (order_hash wd h c o)) ->
  (forall name c a, lib_contract lib name c = Some a -> str_nonempty a = true -> normal_text a) ->
  let s' := fst (handleAction wd lib h w s) in
  snd (handleAction wd lib h w s) = Ok tt /\ sent s s' []
  /\ exists settlement o,
       let hash := order_hash wd h settlement o in
       let request := json_stringify (create_body h settlement hash signature o) in
       let stored := stored_order wd h settlement hash o in
       order_terms wd lib h w block address settlement o /\ maker o = address /\ recipient o = address
       /\ (exists message, sc_trace s' = sc_trace (started limit s) ++
            [AskedBlock; Signed (buildSignedLimitOrderTypedData (h_chainId h) settlement o);
             Posted "/api/orders" request; SetLimitOrder hash signature; SetTxError None;
             SetResultModal (Some {| rm_kind := modal_success; rm_title := None; rm_message := message |})])%list
       /\ (exists body, json_parse request = Some body
            /\ normalizeCreateOrderBody body = Ok (payload_of (h_chainId h) settlement hash signature o))
       /\ exists record,
            lookup_order (buildOrderKey stored) (listLocalLimitOrders (sc_browser s')) = Some record
            /\ obj_get "status" record = VStr "open"
            /\ forall k, k <> "createdAt" -> obj_has k stored = true -> obj_get k record = obj_get k stored.
Proof.
  intros Hk Hc Ha Hb Hm Hi Hsign Hpost Hr Hw Hchain Hts [Hr1 Hr2] Hna Hns Hnh Hnl s'. unfold s'.
  destruct (order_reaches_signature wd lib h w block address Hk Hc Ha Hb Hm Hi s)
    as (settlement & o & b1 & Ho & Hw1 & _ & ->).
  set (s1 := with_browser b1 (with_event AskedBlock (started limit s))).
  assert (sent s s1 []) as Hs1 by (unfold s1, started; sent_events).
  unfold act_catch, place_order, act_bind, ask. rewrite Hsign, Hpost, Hr.
  split; [done|]. split; [sent_events|]. exists settlement, o. cbv zeta. split; [done|].
  assert (maker o = address /\ recipient o = address) as [-> ->].
  { destruct Ho as (p & r & _ & _ & _ & _ & -> & _). done. }
  split; [done|]. split; [done|]. split; [eexists; cbn; by rewrite <- !app_assoc|]. split.
  - apply create_body_read; [done|by eapply order_terms_nonneg|].
    pose proof (order_texts_normal _ _ _ _ _ _ _ _ Ho Hna Hnl) as Ht.
    repeat (apply Forall_cons in Ht as [? Ht]). repeat (apply Forall_cons; split); try apply Forall_nil; done.
  - destruct (upsert_stores_order (stored_order wd h settlement (order_hash wd h settlement o) o) b1)
      as (record & Hrec & Hf & _); [congruence|by apply stored_order_record|].
    exists record. split; [exact Hrec|].
    assert (forall k, k <> "createdAt" -> obj_has k (stored_order wd h settlement (order_hash wd h settlement o) o) = true ->
              obj_get k record = obj_get k (stored_order wd h settlement (order_hash wd h settlement o) o)) as Hall.
    { intros k Hne Hhas. rewrite Hf by done. rewrite Hhas. by apply stored_order_fields. }
    split; [by rewrite Hall|done].
Qed.

(** ** The deadline over time *)

Definition minutes : list Z := Z.of_nat <$> seq 0 31.
Definition settings_ok (w : widget) : Prop :=
  (w_deadline w = "" \/ exists k, k ∈ minutes /\ w_deadline w = dec k) /\ w_limitExpiry w ∈ expiry_options.

Lemma minutes_spec k : k ∈ minutes <-> 0 <= k <= 30.
Proof.
  unfold minutes. rewrite list_elem_of_fmap. split.
  - intros (n & -> & Hn%elem_of_seq). lia.
  - intros Hk. exists (Z.to_nat k). split; [lia|]. apply elem_of_seq. lia.
Qed.

Lemma settings_ok_same (w w' : widget) :
  w_deadline w' = w_deadline w -> w_limitExpiry w' = w_limitExpiry w -> settings_ok w -> settings_ok w'.
Proof. unfold settings_ok. by intros -> ->. Qed.

Lemma clamped_deadline k w : settings_ok w -> settings_ok (set_deadline (dec (Z.min 30 (Z.max 0 k))) w).
Proof.
  intros [_ He]. split; [|done]. right. exists (Z.min 30 (Z.max 0 k)). split; [|done]. apply minutes_spec. lia.
Qed.

Lemma event_settings lib h e w : settings_ok w -> settings_ok (handle_event lib h e w).
Proof.
  intros Hw. destruct e; cbn [handle_event];
    try (revert Hw; apply settings_ok_same;
         unfold handlePayAmountChange, handleReceiveAmountChange, handleLimitRateChange, limit_rate_effect,
           updateSwapSlippage, handleSelectToken, handleFlip, handleMaxPay, receipt_effect;
         repeat case_match; reflexivity).
  - case_bool_decide; [|done]. destruct Hw. by split.
  - unfold updateSwapDeadline. destruct (String.eqb value ""); [destruct Hw; split; [by left|done]|].
    destruct (negb _); [done|by apply clamped_deadline].
  - by apply clamped_deadline.
Qed.

Lemma run_settings lib l w : settings_ok w -> settings_ok (run_widget lib l w).
Proof.
  revert w. induction l as [|[h e] l IH]; intros w Hw; [done|]. by apply IH, event_settings.
Qed.

(** Whatever is typed and clicked, the swap's deadline stays between one and thirty
    minutes and a limit order expires in one of the four offered periods.  The minutes are
    those shown, except that 0, like an empty field, means thirty. *)
Theorem settings_in_range lib events f mode :
  let w := run_widget lib events (initial_widget f mode) in
  60 <= deadline_seconds w <= 30 * 60
  /\ (w_deadline w = "" /\ deadline_seconds w = 30 * 60
      \/ exists k, 0 <= k <= 30 /\ w_deadline w = dec k
           /\ deadline_seconds w = (if k =? 0 then 30 else k) * 60)
  /\ limitExpirySeconds w ∈ ((fun d => d * 86400) <$> [1; 7; 30; 365]).
Proof.
  intros w. assert (settings_ok w) as [Hd He].
  { apply run_settings. split; [|by right; left]. right. exists 30. split; [by apply minutes_spec|done]. }
  assert (forall k, 0 <= k <= 30 -> w_deadline w = dec k ->
            deadline_seconds w = (if k =? 0 then 30 else k) * 60) as Hsec.
  { intros k Hk E. unfold deadline_seconds. rewrite E, dec_nonempty by lia.
    assert (forallb (fun k => Z.eqb (at_least_one (dec k) 30) (if k =? 0 then 30 else k)) minutes = true) as Hall
      by (by vm_compute).
    rewrite forallb_forall in Hall. specialize (Hall k).
    rewrite <- list_elem_of_In, minutes_spec in Hall. specialize (Hall Hk). apply Z.eqb_eq in Hall. lia. }
  assert (limitExpirySeconds w ∈ ((fun d => d * 86400) <$> [1; 7; 30; 365])) as Hexp.
  { unfold limitExpirySeconds. rewrite list_elem_of_fmap.
    unfold expiry_options in He. rewrite !elem_of_cons, elem_of_nil in He.
    destruct He as [He|[He|[He|[He|[]]]]]; rewrite He; [exists 1|exists 7|exists 30|exists 365];
      (split; [by vm_compute|]); rewrite !elem_of_cons; tauto. }
  destruct Hd as [Hd|(k & Hk%minutes_spec & Hd)].
  - assert (deadline_seconds w = 1800) as Hs by (unfold deadline_seconds; rewrite Hd; by vm_compute).
    rewrite Hs. split; [lia|]. split; [by left|done].
  - rewrite (Hsec k Hk Hd). split; [destruct (Z.eqb_spec k 0); lia|]. split; [|done].
    right. by exists k.
Qed.

(** ** Concrete instances *)

Definition sample_world : swap_world (option jsval) :=
  {| wd_write := fun _ _ => Ok "0xbeef"; wd_sign := fun _ _ => Ok "0x5151";
     wd_post := fun _ _ _ => Ok {| hr_ok := true; hr_json := Some (VObj []) |};
     wd_block := fun _ => Ok {| cb_timestamp := 1700000000; cb_number := Some 7; cb_hash := Some "0x77" |};
     wd_history := fun _ => Throw "unused"; wd_interfere := fun b => b; wd_random := (1, 2);
     wd_now := "2024-01-01T00:00:00.000Z"; wd_keccak256 := fun x => "0xfeed"; wd_stringToHex := fun x => x;
     wd_encode := bits_encode; wd_errorMessage := fun _ m => m |}.

Definition sample_screen : screen (option jsval) := {| sc_browser := empty_browser; sc_trace := [] |}.

(** 100 FLUX and 200 USDT. *)
Definition sample_pair : PairContract.state :=
  {| PairContract.lp_totalSupply := 10 ^ 12; PairContract.lp_balances := ∅;
     PairContract.c_reserve0 := 100 * unit_amount; PairContract.c_reserve1 := 200 * 10 ^ 6;
     PairContract.blockTimestampLast := 1600000000; PairContract.price0CumulativeLast := 0;
     PairContract.price1CumulativeLast := 0 |}.
Definition sample_pairs : pairs := {[ (5, 6) := sample_pair ]}.
Definition sample_env : swap_env :=
  {| se_timestamp := 1700000012; se_WETH := 4; se_router := 1; se_treasury := PairContract.zero_address;
     se_bytes := fun a => dec a; se_transferFrom := fun _ _ => Ok tt |}.

Definition swap_click : screen (option jsval) :=
  fst (handleAction sample_world sample_libraries sample_hooks (sample_widget mode_swap) sample_screen).
Definition limit_click : screen (option jsval) :=
  fst (handleAction sample_world sample_libraries sample_hooks (sample_widget mode_limit) sample_screen).

Lemma swap_transaction_witness :
  exists tx k, sent sample_screen swap_click [tx] /\ router_call_of tx = Some k
    /\ fst (limits k) = unit_amount /\ 1700000060 <= call_deadline k.
Proof.
  destruct (swap_transaction sample_world sample_libraries sample_hooks (sample_widget mode_swap) (addr "9")
    {| cb_timestamp := 1700000000; cb_number := Some 7; cb_hash := Some "0x77" |} sample_screen)
    as (t & tx & k & Ht & Hs & _ & _ & _ & Hk & _ & _ & Hd & _ & _ & _ & _ & Hl & _);
    [vm_compute; reflexivity|reflexivity|reflexivity|reflexivity|].
  exists tx, k. split; [exact Hs|]. split; [exact Hk|]. split; [|exact Hd].
  destruct Hl as [_ ->]. destruct Ht as (_ & _ & _ & _ & Hi & _). by injection Hi as <-.
Defined.

Lemma sample_pool :
  quoted_pool sample_env sample_pairs pay (address_value (addr "5")) (address_value (addr "6")) unit_amount
    sample_out (address_value (addr "9")).
Proof.
  split; [|reflexivity|vm_compute; split; discriminate|vm_compute; split; discriminate].
  exists sample_pair, (100 * unit_amount), (200 * 10 ^ 6). repeat split; vm_compute; reflexivity.
Qed.

Lemma fresh_quote_executes_witness :
  exists tx k rc, sent sample_screen swap_click [tx] /\ router_call_of tx = Some k
    /\ exec_router sample_env (fun _ => 77) k sample_pairs = Ok rc
    /\ rc_paid rc = unit_amount /\ rc_received rc = sample_out.
Proof.
  apply (fresh_quote_executes sample_world sample_libraries sample_hooks (sample_widget mode_swap) (addr "9")
    {| cb_timestamp := 1700000000; cb_number := Some 7; cb_hash := Some "0x77" |} sample_screen
    sample_env (fun _ => 77) sample_pairs (addr "5") (addr "6"));
    [vm_compute; reflexivity|reflexivity|reflexivity|reflexivity|reflexivity|reflexivity|reflexivity
    |discriminate|exact sample_pool|vm_compute; discriminate|vm_compute; discriminate|vm_compute; discriminate].
Defined.

Lemma limit_order_placed_witness :
  exists settlement o record,
    settlement = addr "2" /\ amountIn o = unit_amount /\ minAmountOut o = 2000000
    /\ lookup_order (buildOrderKey (stored_order sample_world sample_hooks settlement
                       (order_hash sample_world sample_hooks settlement o) o))
         (listLocalLimitOrders (sc_browser limit_click)) = Some record
    /\ obj_get "status" record = VStr "open".
Proof.
  destruct (limit_order_placed sample_world sample_libraries sample_hooks (sample_widget mode_limit)
    {| cb_timestamp := 1700000000; cb_number := Some 7; cb_hash := Some "0x77" |} (addr "9") sample_screen "0x5151"
    {| hr_ok := true; hr_json := Some (VObj []) |})
    as (_ & _ & settlement & o & Ho & _ & _ & _ & _ & record & Hr & Hst & _);
    [vm_compute; reflexivity|reflexivity|reflexivity|reflexivity|exists 7, "0x77"; repeat split
    |reflexivity|reflexivity|reflexivity|reflexivity|reflexivity|vm_compute; split; reflexivity
    |vm_compute; discriminate|vm_compute; split; discriminate|split; reflexivity|split; reflexivity
    |intros c o; split; reflexivity| |].
  - intros name c a Ha _. unfold sample_libraries, lib_contract, sample_contracts in Ha.
    apply elem_of_list_to_map_2 in Ha. revert a Ha.
    assert (forall l : list (string * string),
      forallb (fun na => bool_decide (trim na.2 = na.2) && str_nonempty na.2) l = true ->
      forall a, (name, a) ∈ l -> normal_text a) as Hl.
    { intros l Hall a Hin. rewrite forallb_forall in Hall. apply list_elem_of_In in Hin.
      specialize (Hall _ Hin). apply andb_prop in Hall as [H1 H2]. split; [|exact H2].
      by apply bool_decide_eq_true in H1. }
    apply Hl. vm_compute. reflexivity.
  - exists settlement, o, record. destruct Ho as (p & r & _ & _ & Hs & _ & _ & Hi & Hm & _).
    split; [by injection Hs as <-|]. split; [|split; [|by split]].
    + assert (parsedLimitPayAmount sample_libraries sample_hooks (sample_widget mode_limit) = Some unit_amount) as E
        by (vm_compute; reflexivity). congruence.
    + assert (parsedLimitReceiveAmount sample_libraries sample_hooks (sample_widget mode_limit) = Some 2000000) as E
        by (vm_compute; reflexivity). congruence.
Defined.

(** The backend refuses. *)
Definition refusing_world : swap_world (option jsval) :=
  {| wd_write := fun _ _ => Ok "0xbeef"; wd_sign := fun _ _ => Ok "0x5151";
     wd_post := fun _ _ _ => Ok {| hr_ok := false; hr_json := None |};
     wd_block := fun _ => Ok {| cb_timestamp := 1700000000; cb_number := Some 7; cb_hash := Some "0x77" |};
     wd_history := fun _ => Throw "unused"; wd_interfere := fun b => b; wd_random := (1, 2);
     wd_now := "2024-01-01T00:00:00.000Z"; wd_keccak256 := fun x => "0xfeed"; wd_stringToHex := fun x => x;
     wd_encode := bits_encode; wd_errorMessage := fun e _ => message_or e "Request failed" |}.

Lemma failed_order_is_reported_witness :
  exists l, sc_trace (fst (handleAction refusing_world sample_libraries sample_hooks (sample_widget mode_limit)
                             sample_screen))
            = (l ++ error_report sample_hooks "Create limit order failed")%list.
Proof.
  destruct (failed_order_is_reported refusing_world sample_libraries sample_hooks (sample_widget mode_limit)
    {| cb_timestamp := 1700000000; cb_number := Some 7; cb_hash := Some "0x77" |} (addr "9") sample_screen
    (Refused "0x5151" {| hr_ok := false; hr_json := None |}))
    as (_ & _ & _ & settlement & o & _ & Ht);
    [vm_compute; reflexivity|reflexivity|reflexivity|reflexivity|by exists 7, "0x77"|reflexivity|by split|].
  rewrite Ht, app_assoc. eexists. reflexivity.
Defined.
