(* ===== verification/OrderPage.v ===== *)
(** * The limit orders of the portfolio page (frontend/src/app/portfolio/page.tsx)

    The list the page keeps: merged from the browser's store (LocalLimitOrders.v) and the
    backend's pages, refreshed by two effects; what it shows of an order; the selection.
    Backend replies have the shape of the types the page declares.  The page's state and the
    world it asks are also those of the handlers in OrderCancel.v. *)

From S2P Require Import Prelude JsString JsNumber JsValue JsError JsSort JsMap PageMonad.
From S2P Require Import LocalLimitOrders LimitOrders Amounts OrdersApi FrontendConfig.
From Stdlib Require Import Sorted.
Open Scope string_scope.
Open Scope Z_scope.

Definition LIMIT_ORDER_PAGE_SIZE : Z := 100.
Definition LIMIT_ORDER_MAX_PAGES : nat := 10.
Definition LIMIT_ORDER_POLL_LIMIT : Z := 100.

(** ** Keys, order and merging *)

Definition buildLimitOrderKey (order : obj) : string :=
  to_string (obj_get "chainId" order) ++ ":" ++ to_lower (trim (str_prop "settlementAddress" order))
  ++ ":" ++ to_lower (trim (str_prop "orderHash" order)).

Section merging.
(** [a.localeCompare(b)], up to its sign. *)
Variable localeCompare : string -> string -> Z.

(** The comparator of two orders is not positive. *)
Definition order_le (left right : obj) : bool :=
  let by_field k (rest : bool) :=
    let c := localeCompare (str_prop k right) (str_prop k left) in
    if negb (c =? 0) then c <=? 0 else rest in
  by_field "createdAt" (by_field "updatedAt"
    (localeCompare (str_prop "orderHash" right) (str_prop "orderHash" left) <=? 0)).

Definition sortLimitOrders (orders : list obj) : list obj := sort_by order_le orders.

Definition merge_order (merged : list (string * obj)) (order : obj) : list (string * obj) :=
  let key := buildLimitOrderKey order in
  map_set key (match map_get key merged with
               | Some previous => obj_spread previous order
               | None => order
               end) merged.

Definition merged_orders (lists : list (list obj)) : list (string * obj) :=
  foldl (fun merged list => foldl merge_order merged list) [] lists.

Definition mergeLimitOrders (lists : list (list obj)) : list obj :=
  sortLimitOrders (snd <$> merged_orders lists).

Definition filterWalletLimitOrders (orders : list obj) (chainId : Z) (maker : string)
    (settlementAddress : option string) : list obj :=
  let normalizedMaker := to_lower (trim maker) in
  let normalizedSettlement := (fun s => to_lower (trim s)) <$> settlementAddress in
  sortLimitOrders (keep (fun order =>
    chain_is chainId order
    && String.eqb (to_lower (trim (str_prop "maker" order))) normalizedMaker
    && match normalizedSettlement with
       | Some s => negb (str_nonempty s)
                   || String.eqb (to_lower (trim (str_prop "settlementAddress" order))) s
       | None => true
       end) orders).
End merging.

(** ** The backend *)

Record order_notice := {
  on_success : option bool;
  on_message : option string;
  on_hint : option string;
}.

Record LimitOrdersApiResponse := {
  ar_orders : option (list obj);
  ar_nextCursor : option string;
  ar_hasMore : option bool;
  ar_updatesCursor : option string;
  ar_notice : option order_notice;
}.

Record CancelOrderResult := {
  cr_chainId : option num;
  cr_settlementAddress : option string;
  cr_orderHash : option string;
  cr_cancelled : option bool;
  cr_code : option string;
  cr_message : option string;
  cr_hint : option string;
  cr_order : option obj;
}.

Record CancelOrdersApiResponse := {
  cp_results : option (list CancelOrderResult);
  cp_notice : option order_notice;
}.

(** The payload is [None] when the body is not JSON, or null. *)
Record api_reply (A : Type) := { rp_ok : bool; rp_payload : option A }.
Arguments rp_ok {A}.
Arguments rp_payload {A}.

(** [payload?.notice?.k] *)
Definition notice_text (k : order_notice -> option string) (n : option order_notice) : option string :=
  match n with Some n => k n | None => None end.
Definition notice_failed (n : option order_notice) : bool :=
  match n with Some n => bool_decide (on_success n = Some false) | None => false end.

Record FetchLimitOrdersParams := {
  fp_chainId : Z;
  fp_maker : string;
  fp_settlementAddress : option string;
  fp_statuses : list string;
  fp_limit : option Z;
  fp_cursor : option string;
  fp_view : view;
}.

(** A parameter that is set when its text is not empty. *)
Definition query_text (k : string) (v : option string) : query :=
  match v with Some s => if str_nonempty s then [(k, s)] else [] | None => [] end.

Definition page_query (p : FetchLimitOrdersParams) : query :=
  ([("chainId", dec (fp_chainId p)); ("maker", fp_maker p)]
   ++ query_text "settlementAddress" (fp_settlementAddress p)
   ++ match fp_limit p with Some n => if n =? 0 then [] else [("limit", dec n)] | None => [] end
   ++ query_text "cursor" (fp_cursor p)
   ++ match fp_view p with ViewUpdates => [("view", "updates")] | ViewOrders => [] end
   ++ ((fun s => ("status", s)) <$> keep str_nonempty (trim <$> fp_statuses p)))%list.

Record orders_page := {
  op_orders : list obj;
  op_nextCursor : string;
  op_hasMore : bool;
  op_updatesCursor : string;
}.

Definition read_page (response : api_reply LimitOrdersApiResponse) : res js_error orders_page :=
  let payload := rp_payload response in
  let notice := match payload with Some p => ar_notice p | None => None end in
  if negb (rp_ok response) || notice_failed notice then
    let message := default "Failed to load limit orders" (notice_text on_message notice) in
    Throw (Error (match notice_text on_hint notice with
                  | Some hint => if str_nonempty hint then message ++ ": " ++ hint else message
                  | None => message
                  end))
  else
    let field {A} (f : LimitOrdersApiResponse -> option A) (fallback : A) :=
      default fallback (match payload with Some p => f p | None => None end) in
    Ok {| op_orders := field ar_orders []; op_nextCursor := field ar_nextCursor "";
          op_hasMore := field ar_hasMore false; op_updatesCursor := field ar_updatesCursor "" |}.

(** ** The page's state and its world *)

Inductive result_kind := result_success | result_error.
Record LimitOrderResultModal := { lm_kind : result_kind; lm_title : string; lm_message : string }.

Section page.
Context `{Codec : JsonCodec raw}.

(** What other code of the page also changes. *)
Record shared := {
  sh_browser : browser raw;
  sh_orders : list obj;
  sh_selected : list string;
}.

Inductive page_event :=
| Listed (q : query)
| AskedBlock
| Signed (d : TypedData InvalidateNonces)
| Wrote (t : contract_write)
| Awaited (hash : string)
| Deleted (body : raw)
| Slept (ms : Z)
| ConnectOpened.

Record page := {
  pg_shared : shared;
  pg_cancelling : list string;
  pg_modal : option LimitOrderResultModal;
  pg_loading : bool;
  pg_error : option string;
  pg_trace : list page_event;
}.

(** Answers to the trace, newest event last.  [ow_meanwhile] is what other code does while an
    answer is awaited, [ow_interfere] while the chain sync asks for a block, and
    [ow_cancelled] says that the effect was cleaned up. *)
Record order_world := {
  ow_list : list page_event -> query -> res js_error (api_reply LimitOrdersApiResponse);
  ow_delete : list page_event -> raw -> res js_error (api_reply CancelOrdersApiResponse);
  ow_block : list page_event -> res js_error chain_block;
  ow_sign : list page_event -> TypedData InvalidateNonces -> res js_error string;
  ow_write : list page_event -> contract_write -> res js_error string;
  ow_receipt : list page_event -> string -> res js_error bool;
  ow_meanwhile : list page_event -> shared -> shared;
  ow_cancelled : list page_event -> bool;
  ow_now : list page_event -> string;
  ow_history : option Z -> res string block;
  ow_interfere : browser raw -> browser raw;
  ow_localeCompare : string -> string -> Z;
  ow_keccak256 : Hex -> Hex;
  ow_errorMessage : js_error -> string -> string;
}.

(** What the hooks of a render read. *)
Record order_hooks := {
  oh_isZh : bool;
  oh_chainId : Z;
  oh_address : option string;
  oh_isConnected : bool;
  oh_openConnectModal : bool;
  oh_publicClient : bool;
  oh_supported : bool;
  oh_settlement : option string;
}.

Definition with_shared (f : shared -> shared) (s : page) : page :=
  {| pg_shared := f (pg_shared s); pg_cancelling := pg_cancelling s; pg_modal := pg_modal s;
     pg_loading := pg_loading s; pg_error := pg_error s; pg_trace := pg_trace s |}.
Definition with_cancelling (keys : list string) (s : page) : page :=
  {| pg_shared := pg_shared s; pg_cancelling := keys; pg_modal := pg_modal s;
     pg_loading := pg_loading s; pg_error := pg_error s; pg_trace := pg_trace s |}.
Definition with_modal (m : option LimitOrderResultModal) (s : page) : page :=
  {| pg_shared := pg_shared s; pg_cancelling := pg_cancelling s; pg_modal := m;
     pg_loading := pg_loading s; pg_error := pg_error s; pg_trace := pg_trace s |}.
Definition with_loading (b : bool) (s : page) : page :=
  {| pg_shared := pg_shared s; pg_cancelling := pg_cancelling s; pg_modal := pg_modal s;
     pg_loading := b; pg_error := pg_error s; pg_trace := pg_trace s |}.
Definition with_error (e : option string) (s : page) : page :=
  {| pg_shared := pg_shared s; pg_cancelling := pg_cancelling s; pg_modal := pg_modal s;
     pg_loading := pg_loading s; pg_error := e; pg_trace := pg_trace s |}.
Definition with_trace (e : page_event) (s : page) : page :=
  {| pg_shared := pg_shared s; pg_cancelling := pg_cancelling s; pg_modal := pg_modal s;
     pg_loading := pg_loading s; pg_error := pg_error s; pg_trace := (pg_trace s ++ [e])%list |}.

Definition set_orders (f : list obj -> list obj) (sh : shared) : shared :=
  {| sh_browser := sh_browser sh; sh_orders := f (sh_orders sh); sh_selected := sh_selected sh |}.
Definition set_selected (f : list string -> list string) (sh : shared) : shared :=
  {| sh_browser := sh_browser sh; sh_orders := sh_orders sh; sh_selected := f (sh_selected sh) |}.
Definition set_browser (f : browser raw -> browser raw) (sh : shared) : shared :=
  {| sh_browser := f (sh_browser sh); sh_orders := sh_orders sh; sh_selected := sh_selected sh |}.
End page.
Arguments shared raw : clear implicits.
Arguments page_event raw : clear implicits.
Arguments page raw : clear implicits.
Arguments order_world raw : clear implicits.
Open Scope act_scope.

Section loading.
Context `{Codec : JsonCodec raw}.
Variable ow : order_world raw.
Variable h : order_hooks.
Notation act := (act (page raw)).
Notation localeCompare := (ow_localeCompare ow).

(** A question to the world; the rest of the page goes on while it is answered. *)
Definition ask {A} (e : page_event raw) (answer : list (page_event raw) -> res js_error A) : act A := fun s =>
  let s' := with_trace e s in
  (with_shared (ow_meanwhile ow (pg_trace s')) s', answer (pg_trace s')).

Definition fetchLimitOrdersPage (p : FetchLimitOrdersParams) : act orders_page :=
  let q := page_query p in
  await response <- ask (Listed q) (fun l => ow_list ow l q);
  done_with (read_page response).

Definition with_cursor (cursor : string) (p : FetchLimitOrdersParams) : FetchLimitOrdersParams :=
  {| fp_chainId := fp_chainId p; fp_maker := fp_maker p; fp_settlementAddress := fp_settlementAddress p;
     fp_statuses := fp_statuses p; fp_limit := Some (default LIMIT_ORDER_PAGE_SIZE (fp_limit p));
     fp_cursor := Some cursor; fp_view := ViewOrders |}.

(** The loop, with the number of pages it may still ask for. *)
Fixpoint fetch_pages (pages : nat) (p : FetchLimitOrdersParams) (cursor : string) (collected : list obj)
  : act (list obj) :=
  match pages with
  | O => done_with (Ok collected)
  | S pages' =>
    await page <- fetchLimitOrdersPage (with_cursor cursor p);
    let collected' := (collected ++ op_orders page)%list in
    if op_hasMore page && str_nonempty (op_nextCursor page)
    then fetch_pages pages' p (op_nextCursor page) collected'
    else done_with (Ok collected')
  end.

Definition fetchAllLimitOrders (p : FetchLimitOrdersParams) : act (list obj) :=
  await collected <- fetch_pages LIMIT_ORDER_MAX_PAGES p "" [];
  done_with (Ok (mergeLimitOrders localeCompare [collected])).

(** ** The effects *)

Definition normalizedSettlement : option string := to_lower <$> oh_settlement h.

Definition readLocalWalletOrders (normalizedWallet : string) (s : page raw) : list obj :=
  filterWalletLimitOrders localeCompare (listLocalLimitOrders (sh_browser (pg_shared s)))
    (oh_chainId h) normalizedWallet normalizedSettlement.

Definition wallet_params (normalizedWallet : string) (limit : Z) (v : view) : FetchLimitOrdersParams :=
  {| fp_chainId := oh_chainId h; fp_maker := normalizedWallet; fp_settlementAddress := normalizedSettlement;
     fp_statuses := []; fp_limit := Some limit; fp_cursor := None; fp_view := v |}.

(** Changes made only while the effect is alive. *)
Definition unless_cancelled (f : page raw -> page raw) : act unit :=
  update (fun s => if ow_cancelled ow (pg_trace s) then s else f s).

(** The sync with the chain, whose failures are ignored. *)
Definition sync_store : act unit := update (fun s =>
  match syncLocalLimitOrdersWithChain (ow_history ow) (ow_interfere ow) (oh_chainId h) None None
          (sh_browser (pg_shared s)) with
  | Ok (_, b) => with_shared (set_browser (fun _ => b)) s
  | Throw _ => s
  end).

Definition loadLimitOrders (normalizedWallet : string) (background : bool) : act unit := fun s0 =>
  if ow_cancelled ow (pg_trace s0) then (s0, Ok tt)
  else
    (run update (fun s => if background then s else with_loading true s);
     run (if oh_publicClient h then sync_store else done_with (Ok tt));
     await localOrders <- (fun s => (s, Ok (readLocalWalletOrders normalizedWallet s)));
     act_finally
       (act_catch
          (await backendOrders <- fetchAllLimitOrders (wallet_params normalizedWallet LIMIT_ORDER_PAGE_SIZE ViewOrders);
           unless_cancelled (fun s =>
             with_error None
               (with_shared (set_orders (fun _ => mergeLimitOrders localeCompare [localOrders; backendOrders])) s)))
          (fun error => unless_cancelled (fun s =>
             let s' := with_shared (set_orders (fun current =>
                         if background then mergeLimitOrders localeCompare [localOrders; current]
                         else localOrders)) s in
             if negb background && Nat.eqb (length localOrders) 0
             then with_error (Some (message_or error "Failed to load limit orders")) s' else s')))
       (fun s => if ow_cancelled ow (pg_trace s) || background then s else with_loading false s)) s0.

Definition refreshLimitOrderUpdates (normalizedWallet : string) : act unit :=
  await localOrders <- (fun s => (s, Ok (readLocalWalletOrders normalizedWallet s)));
  act_catch
    (await page <- fetchLimitOrdersPage (wallet_params normalizedWallet LIMIT_ORDER_POLL_LIMIT ViewUpdates);
     unless_cancelled (fun s => with_error None
       (with_shared (set_orders (fun current =>
          mergeLimitOrders localeCompare [localOrders; current; op_orders page])) s)))
    (fun _ => unless_cancelled (fun s =>
       with_shared (set_orders (fun current => mergeLimitOrders localeCompare [localOrders; current])) s)).

(** What the effect does first: load, or forget the list without a wallet.  Its events then
    load in the background, its timer refreshes. *)
Definition orders_effect : act unit :=
  match oh_supported h && oh_isConnected h, oh_address h with
  | true, Some address =>
    if str_nonempty address then loadLimitOrders (to_lower address) false
    else update (fun s => with_loading false (with_error None (with_shared (set_orders (fun _ => [])) s)))
  | _, _ => update (fun s => with_loading false (with_error None (with_shared (set_orders (fun _ => [])) s)))
  end.
End loading.

(** ** The merged list *)

(** An object with one entry per property that passes the store's type guard. *)
Definition record_ok (o : obj) : Prop := obj_wf o /\ isLocalLimitOrderRecord (VObj o) = true.

Lemma record_has o k :
  record_ok o -> k ∈ ["chainId"; "settlementAddress"; "orderHash"] -> obj_has k o = true.
Proof.
  intros [_ H] Hk. destruct (obj_has k o) eqn:E; [done|]. apply obj_get_missing in E.
  apply record_guard in H as [[n Hn] Hs].
  apply elem_of_cons in Hk as [->|Hk]; [congruence|].
  destruct (Hs k) as [s Hs']; [|congruence]. unfold LocalLimitOrderRecord_strings. set_solver.
Qed.

(** Spreading a record over another one of the same key keeps the key. *)
Lemma key_spread a b : record_ok b -> buildLimitOrderKey (obj_spread a b) = buildLimitOrderKey b.
Proof.
  intros Hb. unfold buildLimitOrderKey, str_prop. pose proof (proj1 Hb) as Hwf.
  rewrite !obj_get_spread by done. by rewrite !(record_has b) by (done || set_solver).
Qed.

(** The merge of the records with one key, in the order they come. *)
Definition add_record (key : string) (acc : option obj) (o : obj) : option obj :=
  if String.eqb key (buildLimitOrderKey o)
  then Some (match acc with Some previous => obj_spread previous o | None => o end) else acc.

Lemma merged_orders_concat lists : merged_orders lists = foldl merge_order [] (concat lists).
Proof.
  unfold merged_orders. generalize (@nil (string * obj)).
  induction lists as [|l lists IH]; intros m; simpl; [done|]. by rewrite foldl_app.
Qed.

Lemma map_get_merge key l m :
  map_get key (foldl merge_order m l) = foldl (add_record key) (map_get key m) l.
Proof.
  revert m; induction l as [|o l IH]; intros m; simpl; [done|]. rewrite IH. f_equal.
  unfold merge_order, add_record. rewrite map_get_set.
  by destruct (String.eqb_spec key (buildLimitOrderKey o)) as [->|].
Qed.

Lemma merge_keys l m x :
  x ∈ (foldl merge_order m l).*1 <-> x ∈ buildLimitOrderKey <$> l \/ x ∈ m.*1.
Proof.
  revert m; induction l as [|o l IH]; intros m; simpl; [set_solver|].
  rewrite IH. unfold merge_order. rewrite map_set_keys. set_solver.
Qed.

Lemma merge_NoDup l m : NoDup m.*1 -> NoDup (foldl merge_order m l).*1.
Proof.
  revert m; induction l as [|o l IH]; intros m Hm; simpl; [done|]. by apply IH, map_set_NoDup.
Qed.

(** Entries are stored under their own key. *)
Definition keyed (m : list (string * obj)) : Prop :=
  Forall (fun e => buildLimitOrderKey (snd e) = fst e) m.

Lemma merge_keyed l m : Forall record_ok l -> keyed m -> keyed (foldl merge_order m l).
Proof.
  intros Hl. revert m; induction Hl as [|o l Ho _ IH]; intros m Hm; simpl; [done|]. apply IH.
  unfold merge_order. apply map_set_Forall; [|done]. cbn. destruct (map_get _ m); [by apply key_spread|done].
Qed.

Lemma map_get_elem {A} k (a : A) m : NoDup m.*1 -> (k, a) ∈ m -> map_get k m = Some a.
Proof.
  induction m as [|[k1 a1] m IH]; [set_solver|]. simpl. intros Hn Hin. apply NoDup_cons in Hn as [Hn Hm].
  apply elem_of_cons in Hin as [[= -> ->]|Hin]; [by rewrite String.eqb_refl|].
  destruct (String.eqb_spec k k1) as [->|]; [|by apply IH].
  destruct Hn. apply list_elem_of_fmap. by exists (k1, a).
Qed.

(** The last value a property got among the records with a key. *)
Definition last_value (p key : string) (l : list obj) : jsval :=
  default VUndef (last (omap (fun o =>
    if String.eqb key (buildLimitOrderKey o) && obj_has p o then Some (obj_get p o) else None) l)).

Lemma add_record_value p key l acc o :
  Forall record_ok l -> foldl (add_record key) acc l = Some o ->
  obj_get p o = default (match acc with Some a => obj_get p a | None => VUndef end)
    (last (omap (fun o => if String.eqb key (buildLimitOrderKey o) && obj_has p o
                          then Some (obj_get p o) else None) l)).
Proof.
  intros Hl. revert acc; induction Hl as [|x l Hx _ IH]; intros acc H; simpl in *; [by subst acc|].
  rewrite (IH _ H). unfold add_record.
  destruct (String.eqb key (buildLimitOrderKey x)); cbn [andb]; [|done].
  destruct Hx as [Hwf _]. destruct (obj_has p x) eqn:E.
  - rewrite last_cons. destruct (last _); [done|]. cbn. destruct acc; [|done].
    by rewrite obj_get_spread, E by done.
  - destruct (last _); [done|]. cbn. destruct acc.
    + by rewrite obj_get_spread, E by done.
    + by apply obj_get_missing.
Qed.

Section merged.
Variable localeCompare : string -> string -> Z.
(** [localeCompare] is a consistent comparator. *)
Hypothesis locale_sym : forall s u, localeCompare s u <= 0 <-> 0 <= localeCompare u s.
Hypothesis locale_trans : forall s u v,
  localeCompare s u <= 0 -> localeCompare u v <= 0 -> localeCompare s v <= 0.

Lemma order_le_total a b : order_le localeCompare a b = true \/ order_le localeCompare b a = true.
Proof.
  unfold order_le.
  set (c k := localeCompare (str_prop k b) (str_prop k a)).
  set (d k := localeCompare (str_prop k a) (str_prop k b)).
  assert (forall k, c k <= 0 <-> 0 <= d k) as H1 by (intros; apply locale_sym).
  assert (forall k, d k <= 0 <-> 0 <= c k) as H2 by (intros; apply locale_sym).
  fold (c "createdAt") (c "updatedAt") (c "orderHash") (d "createdAt") (d "updatedAt") (d "orderHash").
  pose proof (H1 "createdAt"). pose proof (H2 "createdAt"). pose proof (H1 "updatedAt").
  pose proof (H2 "updatedAt"). pose proof (H1 "orderHash"). pose proof (H2 "orderHash").
  destruct (Z.eqb_spec (c "createdAt") 0), (Z.eqb_spec (d "createdAt") 0),
    (Z.eqb_spec (c "updatedAt") 0), (Z.eqb_spec (d "updatedAt") 0);
    cbn [negb]; rewrite !Z.leb_le; lia.
Qed.

Lemma order_le_trans a b d :
  order_le localeCompare a b = true -> order_le localeCompare b d = true -> order_le localeCompare a d = true.
Proof.
  unfold order_le.
  set (x k := localeCompare (str_prop k b) (str_prop k a)).
  set (y k := localeCompare (str_prop k d) (str_prop k b)).
  set (z k := localeCompare (str_prop k d) (str_prop k a)).
  assert (forall k, y k <= 0 -> x k <= 0 -> z k <= 0) as H1 by (intros; by eapply locale_trans).
  assert (forall k, 0 <= y k -> 0 <= x k -> 0 <= z k) as H2.
  { intros k Hy Hx. apply locale_sym. apply locale_sym in Hy, Hx. by eapply locale_trans. }
  assert (forall k, z k = 0 -> y k <= 0 -> x k <= 0 -> x k = 0 /\ y k = 0) as H3.
  { intros k Hz Hy Hx.
    assert (localeCompare (str_prop k a) (str_prop k d) <= 0) as Hz'.
    { apply locale_sym. fold (z k). lia. }
    assert (0 <= x k).
    { apply locale_sym. eapply locale_trans; [exact Hz'|exact Hy]. }
    assert (0 <= y k); [|lia].
    { apply locale_sym. eapply locale_trans; [exact Hx|exact Hz']. } }
  fold (x "createdAt") (x "updatedAt") (x "orderHash") (y "createdAt") (y "updatedAt") (y "orderHash")
    (z "createdAt") (z "updatedAt") (z "orderHash").
  pose proof (H1 "createdAt"). pose proof (H2 "createdAt"). pose proof (H3 "createdAt").
  pose proof (H1 "updatedAt"). pose proof (H2 "updatedAt"). pose proof (H3 "updatedAt").
  pose proof (H1 "orderHash").
  destruct (Z.eqb_spec (x "createdAt") 0), (Z.eqb_spec (y "createdAt") 0), (Z.eqb_spec (z "createdAt") 0),
    (Z.eqb_spec (x "updatedAt") 0), (Z.eqb_spec (y "updatedAt") 0), (Z.eqb_spec (z "updatedAt") 0);
    cbn [negb]; rewrite !Z.leb_le; lia.
Qed.

(** The merged list holds one record per key of the lists, newest first; each property
    of a record is the last one that a record with its key gave it. *)
Theorem merge_is_latest lists :
  Forall record_ok (concat lists) ->
  let merged := mergeLimitOrders localeCompare lists in
  NoDup (buildLimitOrderKey <$> merged)
  /\ (forall key, key ∈ buildLimitOrderKey <$> merged <-> key ∈ buildLimitOrderKey <$> concat lists)
  /\ (forall o p, o ∈ merged -> obj_get p o = last_value p (buildLimitOrderKey o) (concat lists))
  /\ StronglySorted (fun a b => order_le localeCompare a b = true) merged.
Proof.
  intros Hok. cbv zeta. unfold mergeLimitOrders, sortLimitOrders. rewrite merged_orders_concat.
  set (l := concat lists) in *. set (m := foldl merge_order [] l).
  assert (keyed m) as Hk by (apply merge_keyed; [done|constructor]).
  assert (NoDup m.*1) as Hn by (apply merge_NoDup; constructor).
  assert (buildLimitOrderKey <$> (snd <$> m) = m.*1) as Hkeys.
  { rewrite <- list_fmap_compose. apply list_fmap_ext. intros i e He.
    unfold keyed in Hk. rewrite Forall_lookup in Hk. by apply (Hk i). }
  split_and!.
  - by rewrite sort_by_perm, Hkeys.
  - intros key. rewrite sort_by_perm, Hkeys. unfold m. rewrite merge_keys. simpl. set_solver.
  - intros o p Hin. rewrite sort_by_perm in Hin. apply list_elem_of_fmap in Hin as ([key o'] & -> & Hin).
    unfold keyed in Hk. rewrite Forall_forall in Hk. pose proof (Hk _ Hin) as E. cbn [fst snd] in E |- *. rewrite E.
    pose proof (map_get_elem _ _ _ Hn Hin) as Hg. unfold m in Hg. rewrite map_get_merge in Hg.
    exact (add_record_value p key l None o' Hok Hg).
  - apply sort_by_sorted with (P := fun _ => True); [intros; apply order_le_total| |by apply Forall_true].
    intros a b d _ _ _. apply order_le_trans.
Qed.
End merged.

(** ** Reading all pages *)

Section reading.
Context `{Codec : JsonCodec raw}.
Variable ow : order_world raw.
Variable p : FetchLimitOrdersParams.
Implicit Type s : page raw.

Definition cursor_query (cursor : string) : query := page_query (with_cursor cursor p).
Definition has_next (g : orders_page) : bool := op_hasMore g && str_nonempty (op_nextCursor g).

(** The cursors asked for, the first one given. *)
Definition cursors (cursor : string) (pages : list orders_page) : list string :=
  cursor :: (op_nextCursor <$> pages).

(** Page [i] is what the backend answered for cursor [i]. *)
Definition answered (cursor : string) (pages : list orders_page) : Prop :=
  forall i g, pages !! i = Some g ->
    exists c l response, cursors cursor pages !! i = Some c /\ ow_list ow l (cursor_query c) = Ok response
      /\ read_page response = Ok g.

Definition reading (n : nat) (cursor : string) (collected : list obj) s (r : page raw * res js_error (list obj))
    (pages : list orders_page) : Prop :=
  answered cursor pages /\ (length pages <= n)%nat
  /\ Forall (fun g => has_next g = true) (removelast pages)
  /\ match snd r with
     | Ok l => l = (collected ++ concat (op_orders <$> pages))%list
               /\ pg_trace (fst r)
                  = (pg_trace s ++ (Listed ∘ cursor_query <$> take (length pages) (cursors cursor pages)))%list
               /\ (length pages = n \/ exists g, last pages = Some g /\ has_next g = false)
     | Throw _ => (length pages < n)%nat /\ Forall (fun g => has_next g = true) pages
               /\ pg_trace (fst r) = (pg_trace s ++ (Listed ∘ cursor_query <$> cursors cursor pages))%list
     end.

Lemma fetchPage_asks q s :
  pg_trace (fst (fetchLimitOrdersPage ow q s)) = (pg_trace s ++ [Listed (page_query q)])%list
  /\ forall g, snd (fetchLimitOrdersPage ow q s) = Ok g ->
     exists l response, ow_list ow l (page_query q) = Ok response /\ read_page response = Ok g.
Proof.
  unfold fetchLimitOrdersPage, act_bind, ask, done_with. cbn [pg_trace with_trace].
  destruct (ow_list ow _ _) as [response|e] eqn:E; cbn [fst snd with_shared pg_trace with_trace]; (split; [done|]);
    [|done]. intros g Hg. eauto.
Qed.

Lemma answered_cons cursor g pages l response :
  ow_list ow l (cursor_query cursor) = Ok response -> read_page response = Ok g ->
  answered (op_nextCursor g) pages -> answered cursor (g :: pages).
Proof. intros Hl Hr Ha [|i] g' Hi; simpl in Hi; [simplify_eq; eauto 6|]. exact (Ha i g' Hi). Qed.

Lemma fetch_pages_reads n cursor collected s :
  exists pages, reading n cursor collected s (fetch_pages ow n p cursor collected s) pages.
Proof.
  revert cursor collected s; induction n as [|n IH]; intros cursor collected s; cbn [fetch_pages].
  { exists []. unfold reading, done_with. cbn [fst snd length removelast take concat fmap list_fmap].
    rewrite !app_nil_r. split_and!; [by intros i g Hi|done|by apply Forall_nil_2|done|done|by left]. }
  destruct (fetchPage_asks (with_cursor cursor p) s) as [Ht Hg]. unfold act_bind.
  destruct (fetchLimitOrdersPage ow (with_cursor cursor p) s) as [s1 [g|e]]; cbn [fst snd] in *.
  2: { exists []. unfold reading. cbn [fst snd length removelast].
       split_and!; [by intros i g Hi|lia|by apply Forall_nil_2|lia|by apply Forall_nil_2|exact Ht]. }
  destruct (Hg g eq_refl) as (l & response & Hl & Hr).
  destruct (op_hasMore g && str_nonempty (op_nextCursor g)) eqn:Hn.
  - destruct (IH (op_nextCursor g) (collected ++ op_orders g)%list s1) as (pages & Ha & Hlen & Hm & H).
    exists (g :: pages). split; [by eapply answered_cons|]. split; [simpl; lia|].
    split. { destruct pages; [constructor|]. by constructor. }
    destruct (fetch_pages _ _ _ _ _ _) as [s2 [os|e]]; cbn [fst snd] in *.
    + destruct H as (-> & Ht2 & Hend). rewrite Ht2, Ht. split; [by rewrite fmap_cons, <- app_assoc|].
      split; [by rewrite <- app_assoc|]. destruct Hend as [<-|(g' & Hg' & Hnn)]; [by left|right].
      exists g'. split; [|done]. rewrite last_cons, Hg'. done.
    + destruct H as (Hlt & Hall & Ht2). rewrite Ht2, Ht. split; [simpl; lia|]. split; [by constructor|].
      by rewrite <- app_assoc.
  - exists [g]. split; [eapply answered_cons; eauto; by intros i ? ?|]. split; [simpl; lia|].
    split; [constructor|]. cbn. split; [by rewrite app_nil_r|]. split; [exact Ht|]. right. by exists g.
Qed.
End reading.

(** C35.  Loading all orders ends: it asks for at most ten pages, each with the cursor the page
    before gave; what it returns merges the orders of all pages read, up to the last page or
    the tenth, and a page that fails fails the whole. *)
Theorem all_pages_collected `{Codec : JsonCodec raw} (ow : order_world raw) p s :
  exists pages asked, reading ow p LIMIT_ORDER_MAX_PAGES "" [] s
      (fetch_pages ow LIMIT_ORDER_MAX_PAGES p "" [] s) pages
    /\ (asked <= 10)%nat
    /\ pg_trace (fst (fetchAllLimitOrders ow p s))
       = (pg_trace s ++ (Listed ∘ cursor_query p <$> take asked (cursors "" pages)))%list
    /\ forall l, snd (fetchAllLimitOrders ow p s) = Ok l ->
       l = mergeLimitOrders (ow_localeCompare ow) [concat (op_orders <$> pages)]
       /\ (length pages = 10%nat \/ exists g, last pages = Some g /\ has_next g = false).
Proof.
  destruct (fetch_pages_reads ow p LIMIT_ORDER_MAX_PAGES "" [] s) as (pages & Hread).
  pose proof Hread as (_ & Hlen & _ & H). unfold fetchAllLimitOrders, act_bind, done_with.
  destruct (fetch_pages _ _ _ _ _ _) as [s1 [os|e]]; cbn [fst snd] in *.
  - destruct H as (-> & Ht & Hend). exists pages, (length pages). split_and!; [done|done|done|].
    intros l [= <-]. by split.
  - destruct H as (Hlt & _ & Ht). exists pages, (S (length pages)). split_and!; [done|exact Hlt| |done].
    rewrite Ht, take_ge; [done|]. unfold cursors. cbn [length]. by rewrite length_fmap.
Qed.

(** ** The query *)

Lemma query_getAll_app k q1 q2 : query_getAll k (q1 ++ q2)%list = (query_getAll k q1 ++ query_getAll k q2)%list.
Proof. unfold query_getAll. by rewrite keep_app, fmap_app. Qed.

Lemma query_getAll_text k k' v :
  query_getAll k (query_text k' v)
  = if String.eqb k' k then match v with Some s => if str_nonempty s then [s] else [] | None => [] end else [].
Proof.
  unfold query_text, query_getAll. destruct v as [s|]; [|by destruct (String.eqb k' k)].
  destruct (str_nonempty s); cbn [keep fst snd fmap list_fmap]; by destruct (String.eqb k' k).
Qed.

Lemma query_getAll_status k l :
  query_getAll k ((fun s => ("status", s)) <$> l) = if String.eqb "status" k then l else [].
Proof.
  unfold query_getAll. destruct (String.eqb "status" k) eqn:E; induction l as [|s l IH]; [done| |done|];
    cbn [keep fst snd fmap list_fmap] in *; rewrite E; cbn [fmap list_fmap snd]; [by f_equal|done].
Qed.

(** What the page asks under one name. *)
Lemma page_query_get k p :
  query_getAll k (page_query p)
  = ((if String.eqb "chainId" k then [dec (fp_chainId p)] else [])
     ++ (if String.eqb "maker" k then [fp_maker p] else [])
     ++ query_getAll k (query_text "settlementAddress" (fp_settlementAddress p))
     ++ match fp_limit p with
        | Some n => if negb (n =? 0) && String.eqb "limit" k then [dec n] else []
        | None => []
        end
     ++ query_getAll k (query_text "cursor" (fp_cursor p))
     ++ match fp_view p with ViewUpdates => if String.eqb "view" k then ["updates"] else [] | ViewOrders => [] end
     ++ (if String.eqb "status" k then keep str_nonempty (trim <$> fp_statuses p) else []))%list.
Proof.
  unfold page_query. rewrite !query_getAll_app, query_getAll_status.
  change (query_getAll k [("chainId", dec (fp_chainId p)); ("maker", fp_maker p)])
    with (query_getAll k ([("chainId", dec (fp_chainId p))] ++ [("maker", fp_maker p)])%list).
  rewrite query_getAll_app, <- app_assoc.
  f_equal; [unfold query_getAll; cbn [keep fst snd fmap list_fmap]; by destruct (String.eqb "chainId" k)|].
  f_equal; [unfold query_getAll; cbn [keep fst snd fmap list_fmap]; by destruct (String.eqb "maker" k)|]. f_equal.
  f_equal; [|f_equal; f_equal].
  - destruct (fp_limit p) as [n|]; [|done]. destruct (n =? 0); [done|]. unfold query_getAll. cbn [keep fst snd fmap list_fmap].
    by destruct (String.eqb "limit" k).
  - destruct (fp_view p); [done|]. unfold query_getAll. cbn [keep fst snd fmap list_fmap]. by destruct (String.eqb "view" k).
Qed.

Lemma keep_trim_again l : keep str_nonempty (trim <$> keep str_nonempty (trim <$> l)) = keep str_nonempty (trim <$> l).
Proof.
  induction l as [|s l IH]; [done|]. rewrite fmap_cons. cbn [keep].
  destruct (str_nonempty (trim s)) eqn:E; [|done]. rewrite fmap_cons, trim_trim. cbn [keep]. by rewrite E, IH.
Qed.

Lemma query_number n field fallback :
  0 < n < 2 ^ 53 -> parsePositiveInteger (Some (dec n)) field fallback = Ok (num_of_Z n).
Proof.
  intros H. unfold parsePositiveInteger. rewrite trim_dec, dec_nonempty, num_of_string_dec by lia.
  assert (safe_positive (num_of_Z n)) as Hs.
  { exists n. split; [apply num_integral_of_Z; lia|unfold max_safe_integer; lia]. }
  apply safe_positive_spec in Hs. by rewrite Hs.
Qed.

(** The list route reads the page's request as the page means it: the same view, chain,
    maker and limit, the settlement and cursor when they are given, and the statuses. *)
Theorem page_query_is_read p :
  0 < fp_chainId p < 2 ^ 53 -> str_nonempty (trim (fp_maker p)) = true ->
  (forall n, fp_limit p = Some n -> 0 <= n < 2 ^ 53) ->
  normalizeListOrdersQuery (page_query p)
  = Ok (fp_view p,
        {| lp_chainId := num_of_Z (fp_chainId p); lp_settlementAddress := trimmed (fp_settlementAddress p);
           lp_maker := trim (fp_maker p); lp_statuses := keep str_nonempty (trim <$> fp_statuses p);
           lp_limit := num_of_Z (match fp_limit p with Some n => if n =? 0 then 100 else n | None => 100 end);
           lp_cursor := trimmed (fp_cursor p) |}).
Proof.
  intros Hc Hm Hl. unfold normalizeListOrdersQuery, query_get, is_updates, query_get.
  rewrite !page_query_get, !query_getAll_text.
  repeat match goal with |- context [String.eqb ?a ?b] =>
    let v := eval vm_compute in (String.eqb a b) in
    match v with true => idtac | false => idtac end; change (String.eqb a b) with v end.
  assert (forall v, trimmed (head (match v with Some s => if str_nonempty s then [s] else [] | None => [] end))
                    = trimmed v) as Htext.
  { intros [s|]; [|done]. by destruct s. }
  assert (parsePositiveInteger (head match fp_limit p with
            | Some n => if negb (n =? 0) && true then [dec n] else [] | None => [] end) "limit" (Some (num_of_Z 100))
          = Ok (num_of_Z match fp_limit p with Some n => if n =? 0 then 100 else n | None => 100 end)) as Hlim.
  { destruct (fp_limit p) as [n|]; [|done]. specialize (Hl n eq_refl). destruct (Z.eqb_spec n 0) as [->|]; [done|].
    cbn [negb andb head]. apply query_number. lia. }
  assert (match fp_limit p with Some n => if negb (n =? 0) && false then [dec n] else [] | None => [] end
                    = @nil string /\ match fp_view p with ViewOrders | ViewUpdates => @nil string end = []) as [Hn1 Hn2].
  { split; [|by destruct (fp_view p)]. destruct (fp_limit p); [|done]. by rewrite andb_false_r. }
  rewrite !Hn1, !Hn2. rewrite ?app_nil_r. cbn [app head concat fmap list_fmap].
  rewrite query_number by done. cbn [res_bind]. rewrite Htext.
  assert (trimmed (Some (fp_maker p)) = Some (trim (fp_maker p))) as -> by (cbn [trimmed]; by rewrite Hm). cbn [res_bind].
  rewrite Hlim. cbn [res_bind]. rewrite Htext, keep_trim_again. f_equal. f_equal.
  by destruct (fp_view p).
Qed.

(** ** Concrete instances *)

Definition sample_record (hash status : string) : obj :=
  (("chainId", VNum (num_of_Z 1)) ::
   ((fun k => (k, VStr (if String.eqb k "orderHash" then hash else if String.eqb k "status" then status else "1")))
    <$> LocalLimitOrderRecord_strings))%list.

Lemma sample_record_ok hash status : record_ok (sample_record hash status).
Proof. split; [apply (bool_decide_unpack _); vm_compute; exact I|reflexivity]. Qed.

(** Texts compare by length. *)
Definition by_length (s u : string) : Z := Z.of_nat (String.length s) - Z.of_nat (String.length u).

Lemma by_length_sym s u : by_length s u <= 0 <-> 0 <= by_length u s.
Proof. unfold by_length. lia. Qed.
Lemma by_length_trans s u v : by_length s u <= 0 -> by_length u v <= 0 -> by_length s v <= 0.
Proof. unfold by_length. lia. Qed.

Lemma merge_is_latest_witness :
  length (mergeLimitOrders by_length
    [[sample_record "0xaa" "open"]; [sample_record "0xAA" "cancelled"; sample_record "0xbb" "open"]]) = 2%nat
  /\ NoDup (buildLimitOrderKey <$> mergeLimitOrders by_length
    [[sample_record "0xaa" "open"]; [sample_record "0xAA" "cancelled"; sample_record "0xbb" "open"]]).
Proof.
  split; [vm_compute; reflexivity|].
  refine (proj1 (merge_is_latest by_length by_length_sym by_length_trans
    [[sample_record "0xaa" "open"];
      [sample_record "0xAA" "cancelled"; sample_record "0xbb" "open"]] _)).
  repeat (apply Forall_cons_2; [apply sample_record_ok|]). apply Forall_nil_2.
Defined.

Lemma page_query_is_read_witness :
  normalizeListOrdersQuery
    (page_query {| fp_chainId := 31337; fp_maker := "0xab"; fp_settlementAddress := None; fp_statuses := [];
                   fp_limit := Some 100; fp_cursor := Some "c1"; fp_view := ViewOrders |})
  = Ok (ViewOrders, {| lp_chainId := num_of_Z 31337; lp_settlementAddress := None; lp_maker := "0xab";
                       lp_statuses := []; lp_limit := num_of_Z 100; lp_cursor := Some "c1" |}).
Proof.
  rewrite page_query_is_read; [reflexivity|cbn; lia|reflexivity|].
  intros n E. cbn in E. injection E as <-. lia.
Defined.
