(* ===== verification/OrderView.v ===== *)
(** * What the portfolio page shows of limit orders (frontend/src/app/portfolio/page.tsx)

    Labels, the action an order allows, the rows of the list and the selection for a
    batch. *)

From S2P Require Import Prelude JsString JsNumber JsValue JsError JsSort JsMap.
From S2P Require Import LocalLimitOrders LimitOrders Amounts FrontendConfig PageMonad OrderPage.
Open Scope string_scope.
Open Scope Z_scope.

(** [isZh ? zh : en] *)
Definition say (isZh : bool) (zh en : string) : string := if isZh then zh else en.

(** [s.trim().toLowerCase()] *)
Definition plain (s : string) : string := to_lower (trim s).

(** An optional property whose static type is [string]. *)
Definition opt_str (k : string) (o : obj) : option string :=
  match obj_get k o with VStr s => Some s | _ => None end.

(** [BigInt(value)], or nothing when it throws. *)
Definition parseOptionalBigInt (value : string) : option Z := bigint_of_string value.

Definition getLimitOrderStatusLabel (status : string) (isZh : bool) : string :=
  let named s := String.eqb (plain status) s in
  if named "open" then say isZh "待执行" "Open"
  else if named "submitting_execute" then say isZh "执行提交中" "Submitting execution"
  else if named "pending_execute" then say isZh "执行中" "Pending"
  else if named "executed" then say isZh "已执行" "Executed"
  else if named "pending_cancel" then say isZh "撤单中" "Cancelling"
  else if named "cancelled" then say isZh "已撤单" "Cancelled"
  else if named "expired" then say isZh "已过期" "Expired"
  else say isZh "状态更新中" "Updating".

Definition pending_cancel_detail (statusReason : string) (isZh : bool) : string :=
  let named s := String.eqb statusReason s in
  if named "cancel_tx_submitted_by_user" || named "cancel_tx_pending_on_chain"
  then say isZh "撤单交易已提交，等待链上确认" "Cancel transaction submitted and waiting for chain confirmation"
  else if named "cancel_tx_confirmed_waiting_for_indexer"
  then say isZh "链上已确认，等待索引回写" "Confirmed on-chain and waiting for indexer sync"
  else if named "cancel_tx_missing_from_chain_retryable"
  then say isZh "暂未从节点查到撤单交易，系统会继续重试"
         "Cancel transaction is not indexed by the node yet, and the system will keep retrying"
  else if named "cancel_tx_reverted_retryable"
  then say isZh "撤单交易已回退，系统正在重新校验状态"
         "Cancel transaction reverted and the system is re-checking the order state"
  else if named "confirmed_by_chain_state"
  then say isZh "链上状态已确认，等待页面同步最终结果"
         "Chain state is confirmed and the page is waiting to sync the final result"
  else say isZh "撤单处理中" "Cancellation in progress".

Definition getLimitOrderStatusDetailLabel (order : obj) (isZh : bool) : string :=
  let status := plain (str_prop "status" order) in
  let statusReason := default "" (plain <$> opt_str "statusReason" order) in
  let named s := String.eqb status s in
  if named "pending_cancel" then pending_cancel_detail statusReason isZh
  else if named "cancelled" then
    if String.eqb statusReason "confirmed_by_chain_state" && negb (truthy (obj_get "cancelledTxHash" order))
    then say isZh "链上已确认撤单，撤单哈希稍后补齐"
           "Cancellation is confirmed on-chain and the cancel transaction hash will sync later"
    else say isZh "订单已撤单完成" "The order has been cancelled"
  else if named "pending_execute"
  then say isZh "执行交易已提交，等待链上确认" "Execution transaction submitted and waiting for chain confirmation"
  else if named "submitting_execute"
  then say isZh "执行器正在提交执行交易" "Executor is submitting the execution transaction"
  else "".

Record action_meta := { am_label : string; am_title : string; am_disabled : bool }.

Definition meta (label title : string) (disabled : bool) : action_meta :=
  {| am_label := label; am_title := title; am_disabled := disabled |}.

Definition getLimitOrderActionMeta (order : obj) (isZh isProcessingCurrent isAnotherActionRunning : bool)
  : action_meta :=
  let t := say isZh in
  let named s := String.eqb (plain (str_prop "status" order)) s in
  let detail := getLimitOrderStatusDetailLabel order isZh in
  if isProcessingCurrent
  then meta (t "处理中..." "Processing...")
         (t "正在提交撤单请求，请稍候" "Submitting cancel request. Please wait.") true
  else if isAnotherActionRunning
  then meta (t "撤单" "Cancel")
         (t "当前有另一笔撤单正在处理" "Another cancel request is currently being processed.") true
  else if named "open"
  then meta (t "撤单" "Cancel")
         (t "发起链上撤单并登记到后端" "Submit on-chain cancellation and register it with the backend.") false
  else if named "pending_cancel"
  then meta (t "撤单中" "Cancelling")
         (if str_nonempty detail then detail
          else t "撤单交易已提交，等待链上确认和状态回写"
                 "Cancel transaction submitted. Waiting for chain confirmation and status sync.") true
  else if named "submitting_execute"
  then meta (t "执行中" "Executing")
         (t "订单正在提交执行，暂时不能撤单"
            "The order is being submitted for execution and cannot be cancelled right now.") true
  else if named "pending_execute"
  then meta (t "执行中" "Executing")
         (t "订单执行交易已在链上处理中，暂时不能撤单"
            "The execution transaction is pending on-chain and cannot be cancelled right now.") true
  else if named "executed"
  then meta (t "已执行" "Executed") (t "已执行的订单不能撤单" "Executed orders cannot be cancelled.") true
  else if named "cancelled"
  then meta (t "已撤单" "Cancelled") (t "这笔订单已经撤单" "This order has already been cancelled.") true
  else if named "expired"
  then meta (t "已过期" "Expired") (t "已过期的订单不能撤单" "Expired orders cannot be cancelled.") true
  else meta (t "不可撤单" "Unavailable")
         (t "当前状态暂不支持撤单" "Cancellation is not available in the current state.") true.

(** ** Rows *)

(** [truncateAddress] of lib/wallet.ts, for texts of single-byte characters. *)
Definition truncateAddress (value : option string) (leading trailing : nat) : string :=
  match value with
  | Some v =>
    if negb (str_nonempty v) then "--"
    else if Nat.leb (String.length v) (leading + trailing + 3) then v
    else String.substring 0 leading v ++ "..."
         ++ String.substring (String.length v - trailing) trailing v
  | None => "--"
  end.

Record LimitOrderTokenMeta := { tm_symbol : string; tm_name : string; tm_decimals : Z }.

(** The tracked tokens by their addresses. *)
Definition token_lookup (tokens : list SwapTokenOption) : list (string * SwapTokenOption) :=
  foldl (fun lookup token =>
    let lookup := match st_address token with
                  | Some a => if str_nonempty a then map_set (to_lower a) token lookup else lookup
                  | None => lookup
                  end in
    map_set (to_lower (st_routeAddress token)) token lookup) [] tokens.

Definition resolveLimitOrderTokenMeta (tokenAddress : string) (tokenLookup : list (string * SwapTokenOption))
    (wrappedNativeAddress : option string) : LimitOrderTokenMeta :=
  let normalizedAddress := plain tokenAddress in
  if String.eqb normalizedAddress zeroAddress
     || match wrappedNativeAddress with
        | Some w => str_nonempty w && String.eqb normalizedAddress (to_lower w)
        | None => false
        end
  then {| tm_symbol := "ETH"; tm_name := "Ether"; tm_decimals := 18 |}
  else match map_get normalizedAddress tokenLookup with
  | Some t => {| tm_symbol := st_symbol t; tm_name := st_name t; tm_decimals := st_decimals t |}
  | None =>
    let text := truncateAddress (Some tokenAddress) 6 4 in
    {| tm_symbol := text; tm_name := text; tm_decimals := 18 |}
  end.

Record LimitOrderDisplayRow := {
  dr_order : obj;
  dr_pairLabel : string;
  dr_compactAmountLabel : string;
  dr_paySymbol : string;
  dr_receiveSymbol : string;
  dr_payAmountLabel : string;
  dr_receiveAmountLabel : string;
  dr_priceLabel : string;
  dr_statusLabel : string;
  dr_statusDetailLabel : string;
  dr_createdAtLabel : string;
  dr_expiryLabel : string;
  dr_recipientLabel : string;
  dr_cancelTxHash : string;
  dr_cancelTxHref : option string;
}.

Section rows.
Variable formatUnits : Z -> Z -> string.
(** The formatted date of a text, if it is one; the ISO text of a time, which may throw;
    [Number] of a text as milliseconds is [num_of_string]. *)
Variable format_date : string -> string -> option string.
Variable to_iso_string : num -> res js_error string.
Variable explorer_url : num -> string -> option string.
Variable tokens : list SwapTokenOption.
Variable wrappedNativeAddress : option string.
Variable isZh : bool.

Definition formatIsoDateTime (value : option string) (locale : string) : string :=
  match value with
  | Some v => if str_nonempty v then default "--" (format_date v locale) else "--"
  | None => "--"
  end.

(** The ISO text of an expiry in seconds; an expiry that is zero or no integer has none. *)
Definition expiry_text (expiry : string) : res js_error string :=
  match parseOptionalBigInt expiry with
  | Some n => if n =? 0 then Ok ""
              else to_iso_string (num_mul (num_of_string expiry) (num_of_Z 1000))
  | None => Ok ""
  end.

Definition order_chainId (order : obj) : num :=
  match obj_get "chainId" order with VNum n => n | _ => num_nan end.

Definition limit_order_row (order : obj) : res js_error LimitOrderDisplayRow :=
  let locale := say isZh "zh-CN" "en-US" in
  let token k := resolveLimitOrderTokenMeta (str_prop k order) (token_lookup tokens) wrappedNativeAddress in
  let inputToken := token "inputToken" in
  let outputToken := token "outputToken" in
  let amount k decimals digits :=
    formatBigIntAmountDown formatUnits (parseOptionalBigInt (str_prop k order)) decimals digits in
  let payAmount := amount "amountIn" (tm_decimals inputToken) 6%nat in
  let receiveAmount := amount "minAmountOut" (tm_decimals outputToken) 6%nat in
  let hash := default "" (trim <$> opt_str "cancelledTxHash" order) in
  res_map (fun expiryIso =>
    {| dr_order := order;
       dr_pairLabel := tm_symbol inputToken ++ " / " ++ tm_symbol outputToken;
       dr_compactAmountLabel := payAmount ++ " / " ++ receiveAmount;
       dr_paySymbol := tm_symbol inputToken; dr_receiveSymbol := tm_symbol outputToken;
       dr_payAmountLabel := payAmount ++ " " ++ tm_symbol inputToken;
       dr_receiveAmountLabel := receiveAmount ++ " " ++ tm_symbol outputToken;
       dr_priceLabel := "1 " ++ tm_symbol inputToken ++ " = " ++ amount "triggerPriceX18" 18 8%nat ++ " "
                        ++ tm_symbol outputToken;
       dr_statusLabel := getLimitOrderStatusLabel (str_prop "status" order) isZh;
       dr_statusDetailLabel := getLimitOrderStatusDetailLabel order isZh;
       dr_createdAtLabel := formatIsoDateTime (Some (str_prop "createdAt" order)) locale;
       dr_expiryLabel := formatIsoDateTime (Some expiryIso) locale;
       dr_recipientLabel := truncateAddress (Some (str_prop "recipient" order)) 8 6;
       dr_cancelTxHash := hash;
       dr_cancelTxHref := explorer_url (order_chainId order) hash |})
    (expiry_text (str_prop "expiry" order)).

(** The memo: a row that throws is an error of the render. *)
Definition limitOrderRows (orders : list obj) : res js_error (list LimitOrderDisplayRow) :=
  res_mapi (fun _ => limit_order_row) 0 orders.
End rows.

(** ** Selection *)

(** What a render of the page holds of its state. *)
Record render := {
  rd_orders : list obj;
  rd_selected : list string;
  rd_cancelling : list string;
}.
Definition render_of {raw} (s : page raw) : render :=
  {| rd_orders := sh_orders (pg_shared s); rd_selected := sh_selected (pg_shared s);
     rd_cancelling := pg_cancelling s |}.

Section selection.
Variable isZh : bool.
Variable r : render.

Definition is_in (key : string) (keys : list string) : bool := bool_decide (key ∈ keys).

Definition isCancellingLimitOrders : bool := negb (Nat.eqb (length (rd_cancelling r)) 0).

(** A row the list lets the user choose. *)
Definition selectable (order : obj) : bool :=
  let current := is_in (buildLimitOrderKey order) (rd_cancelling r) in
  negb (am_disabled (getLimitOrderActionMeta order isZh current (isCancellingLimitOrders && negb current))).
Definition selectable_keys : list string := buildLimitOrderKey <$> keep selectable (rd_orders r).

Definition selectedLimitOrders : list obj :=
  keep (fun order => is_in (buildLimitOrderKey order) (rd_selected r)) (rd_orders r).

Definition toggleLimitOrderSelection (order : obj) (current : list string) : list string :=
  let key := buildLimitOrderKey order in
  if is_in key current then keep (fun item => negb (String.eqb item key)) current
  else (current ++ [key])%list.

Definition toggleAllSelectableLimitOrders (current : list string) : list string :=
  if Nat.eqb (length selectable_keys) 0 then current
  else if forallb (fun key => is_in key current) selectable_keys
  then keep (fun key => negb (is_in key selectable_keys)) current
  else add_all selectable_keys (add_all current []).

Definition clearSelectedLimitOrders (_ : list string) : list string := [].

(** The effect that runs when the selectable rows change. *)
Definition prune_selection (current : list string) : list string :=
  keep (fun key => is_in key selectable_keys) current.
End selection.
