(* ===== verification/OrderCancel.v ===== *)
(** * Cancelling limit orders (frontend/src/app/portfolio/page.tsx)

    [handleCancelLimitOrder] and [handleBatchCancelLimitOrders]: one signature and one
    transaction of the settlement contract (SettlementContract.v) for the orders' nonces,
    then the registration with the backend, which is tried six times.  A handler runs on one
    render; between its questions to the world other code changes the page. *)

From S2P Require Import Prelude JsString JsNumber JsValue JsError JsMap PageMonad.
From S2P Require Import LocalLimitOrders LimitOrders OrdersApi FrontendConfig OrderPage OrderView.
From S2P Require Import Subgraph RouterContract SettlementContract.
From Stdlib Require Import Ascii.
Open Scope string_scope.
Open Scope Z_scope.

Definition LIMIT_ORDER_CANCEL_DEADLINE_SECONDS : Z := 30 * 60.
Definition LIMIT_ORDER_CANCEL_REGISTER_RETRIES : nat := 6.
Definition LIMIT_ORDER_CANCEL_REGISTER_RETRY_MS : Z := 1500.

Definition modal (kind : result_kind) (title message : string) : option LimitOrderResultModal :=
  Some {| lm_kind := kind; lm_title := title; lm_message := message |}.

(** The texts of a list, trimmed, without the missing and the empty ones. *)
Definition joined_texts (l : list (option string)) : string :=
  join_with " " (keep str_nonempty (omap (fun item => trim <$> item) l)).

(** The first of two texts that is not empty. *)
Definition text_or (s fallback : string) : string := if str_nonempty s then s else fallback.

(** [left ?? right] *)
Definition first_some {A} (left right : option A) : option A :=
  match left with Some a => Some a | None => right end.

Section cancel.
Context `{Codec : JsonCodec raw}.
Variable ow : order_world raw.
Variable h : order_hooks.
Variable r : render.
Notation act := (act (page raw)).
Notation t := (say (oh_isZh h)).

Definition return_ : act unit := done_with (Ok tt).
Definition setLimitOrderResultModal (m : option LimitOrderResultModal) : act unit := update (with_modal m).

Definition syncLimitOrderRecord (nextOrder : obj) : act unit :=
  update (with_shared (fun sh =>
    set_orders (fun current => mergeLimitOrders (ow_localeCompare ow) [current; [nextOrder]])
      (set_browser (upsertLocalLimitOrder nextOrder) sh))).

Fixpoint each {A} (f : A -> act unit) (l : list A) : act unit :=
  match l with
  | [] => return_
  | a :: l => run f a; each f l
  end.

(** An order with its properties replaced; the clock is read. *)
Definition sync_updated (updates : list (string * jsval)) (order : obj) : act unit := fun s =>
  syncLimitOrderRecord
    (obj_spread order (updates ++ [("updatedAt", VStr (ow_now ow (pg_trace s)))])%list) s.

Definition pending_cancel (hash reason : string) : list (string * jsval) :=
  [("status", VStr "pending_cancel"); ("statusReason", VStr reason); ("cancelledTxHash", VStr hash)].

(** The signature, then the transaction, for the nonces of one maker. *)
Definition invalidate_nonces (settlement maker : string) (nonces : list Z) : act string :=
  await latestBlock <- ask ow AskedBlock (ow_block ow);
  let cancelDeadline := cb_timestamp latestBlock + LIMIT_ORDER_CANCEL_DEADLINE_SECONDS in
  let typedData := buildInvalidateNoncesTypedData (ow_keccak256 ow) (oh_chainId h) settlement maker nonces
                     cancelDeadline in
  await cancelSignature <- ask ow (Signed typedData) (fun l => ow_sign ow l typedData);
  let write := {| cw_address := settlement; cw_functionName := "invalidateNoncesBySig";
                  cw_args := [ArgAddress maker; ArgUints nonces; ArgUint cancelDeadline; ArgBytes cancelSignature];
                  cw_value := None; cw_chainId := oh_chainId h;
                  cw_gas := getLocalGasOverride (Some (oh_chainId h)) 8000000 |} in
  ask ow (Wrote write) (fun l => ow_write ow l write).

(** The records while the transaction is on its way: pending, then confirmed, or back to what
    the handler was given when it reverted. *)
Definition await_receipt (orders : list obj) (hash failure : string) : act unit :=
  run each (sync_updated (pending_cancel hash "cancel_tx_pending_on_chain")) orders;
  await success <- ask ow (Awaited hash) (fun l => ow_receipt ow l hash);
  if negb success then
    run each (sync_updated []) orders;
    done_with (Throw (Error failure))
  else each (sync_updated (pending_cancel hash "cancel_tx_confirmed_waiting_for_indexer")) orders.

(** ** Registration *)

Definition cancel_item (reason : string) (order : obj) : jsval :=
  VObj [("chainId", VNum (num_of_Z (oh_chainId h)));
        ("settlementAddress", obj_get "settlementAddress" order); ("orderHash", obj_get "orderHash" order);
        ("maker", obj_get "maker" order); ("reason", VStr reason)].
Definition cancel_request (hash reason : string) (orders : list obj) : jsval :=
  VObj [("cancelTxHash", VStr hash); ("orders", VArr (cancel_item reason <$> orders))].

Definition post_cancel (hash reason : string) (orders : list obj) : act (api_reply CancelOrdersApiResponse) :=
  let body := json_stringify (cancel_request hash reason orders) in
  ask ow (Deleted body) (fun l => ow_delete ow l body).

Definition is_cancelling (order : option obj) : bool :=
  match order with
  | Some o => is_in (plain (str_prop "status" o)) ["pending_cancel"; "cancelled"]
  | None => false
  end.

Definition reply_notice (response : api_reply CancelOrdersApiResponse) : option order_notice :=
  match rp_payload response with Some p => cp_notice p | None => None end.
Definition reply_results (response : api_reply CancelOrdersApiResponse) : list CancelOrderResult :=
  default [] (match rp_payload response with Some p => cp_results p | None => None end).
Definition not_indexed (result : CancelOrderResult) : bool :=
  bool_decide (cr_code result = Some "CANCEL_TX_NOT_INDEXED_YET").

(** An attempt: the message it gives and the keys of the orders it registered. *)
Inductive attempt :=
| Registered (message : string) (keys : list string)
| NotIndexed (message : string) (keys : list string)
| Failed (message : string).

(** What the loop leaves: the registered message, or the last reason to retry. *)
Record registration := { rg_didRegister : bool; rg_message : string; rg_keys : list string }.

Fixpoint register (attempts : nat) (once : act attempt) (last : string) : act registration :=
  match attempts with
  | O => done_with (Ok {| rg_didRegister := false; rg_message := last; rg_keys := [] |})
  | S attempts' =>
    await outcome <- once;
    match outcome with
    | Registered message keys => done_with (Ok {| rg_didRegister := true; rg_message := message; rg_keys := keys |})
    | NotIndexed message keys =>
      if Nat.eqb attempts' 0
      then done_with (Ok {| rg_didRegister := false; rg_message := message; rg_keys := keys |})
      else run ask ow (Slept LIMIT_ORDER_CANCEL_REGISTER_RETRY_MS) (fun _ => Ok tt);
           register attempts' once message
    | Failed message => done_with (Throw (Error message))
    end
  end.

Definition register_one (order : obj) (hash : string) : act attempt :=
  await response <- post_cancel hash "user_requested_cancel" [order];
  let notice := reply_notice response in
  let result := head (reply_results response) in
  let field k := match result with Some c => k c | None => None end in
  let returnedOrder := match result with Some c => cr_order c | None => None end in
  run match returnedOrder with Some o => syncLimitOrderRecord o | None => return_ end;
  let message := joined_texts [first_some (field cr_message) (notice_text on_message notice);
                               first_some (field cr_hint) (notice_text on_hint notice)] in
  done_with (Ok
    (if (rp_ok response && negb (notice_failed notice)
         && match result with Some c => default false (cr_cancelled c) | None => false end)
        || is_cancelling returnedOrder
     then Registered (text_or message
            (t "撤单请求已登记，订单状态会在链上确认后自动刷新。"
               "The cancel request has been registered and the order status will refresh after chain confirmation."))
            []
     else if match result with Some c => not_indexed c | None => false end
     then NotIndexed (text_or message
            (t "链上撤单已确认，后端正在等待索引这笔交易。"
               "The on-chain cancellation is confirmed and the backend is waiting to index the transaction.")) []
     else Failed (text_or message
            (t "撤单登记失败，请稍后刷新订单状态后重试。"
               "Failed to register the cancellation. Please refresh the order state and try again later.")))).

(** ** One order *)

Definition cancellingOrderHash : option string :=
  match rd_cancelling r with
  | firstKey :: _ =>
    if str_nonempty firstKey
    then str_prop "orderHash" <$> find_first (fun o => String.eqb (buildLimitOrderKey o) firstKey) (rd_orders r)
    else None
  | [] => None
  end.

Definition cancelling_keys (orderHash : string) : list string :=
  if negb (str_nonempty orderHash) then []
  else
    let normalizedOrderHash := plain orderHash in
    match find_first (fun o => String.eqb (plain (str_prop "orderHash" o)) normalizedOrderHash) (rd_orders r) with
    | Some o => [buildLimitOrderKey o]
    | None => [normalizedOrderHash]
    end.

Definition not_ready : string :=
  t "当前链路尚未准备好，请确认钱包网络和结算合约配置。"
    "The current network path is not ready. Please verify the connected network and settlement contract configuration.".

Definition cancel_order (settlement : string) (order : obj) (nonce : Z) : act unit :=
  await cancelTxHash <- invalidate_nonces settlement (str_prop "maker" order) [nonce];
  run await_receipt [order] cancelTxHash
        (t "链上撤单交易执行失败。" "The on-chain cancellation transaction failed.");
  await g <- register LIMIT_ORDER_CANCEL_REGISTER_RETRIES (register_one order cancelTxHash) "";
  setLimitOrderResultModal (modal result_success (t "撤单已提交" "Cancel submitted")
    (if rg_didRegister g then rg_message g
     else text_or (rg_message g)
            (t "链上撤单已确认，页面稍后会自动同步最新状态。"
               "The on-chain cancellation is confirmed and the page will sync the latest status shortly."))).

Definition ready_settlement : option string :=
  if oh_publicClient h && oh_supported h
  then match oh_settlement h with Some s => if str_nonempty s then Some s else None | None => None end
  else None.

Definition connected : bool :=
  oh_isConnected h && match oh_address h with Some a => str_nonempty a | None => false end.

Definition connect : act unit :=
  if oh_openConnectModal h then update (with_trace ConnectOpened) else return_.

Definition handleCancelLimitOrder (order : obj) : act unit :=
  if negb connected then connect
  else if match cancellingOrderHash with Some hash => str_nonempty hash | None => false end then return_
  else
    let actionMeta := getLimitOrderActionMeta order (oh_isZh h) false false in
    if am_disabled actionMeta
    then setLimitOrderResultModal (modal result_error (t "当前不能撤单" "Cancellation unavailable") (am_title actionMeta))
    else match ready_settlement with
    | None => setLimitOrderResultModal (modal result_error (t "撤单失败" "Cancel failed") not_ready)
    | Some settlement =>
      match parseOptionalBigInt (str_prop "nonce" order) with
      | Some nonce =>
        if nonce <? 0
        then setLimitOrderResultModal (modal result_error (t "撤单失败" "Cancel failed")
               (t "订单 nonce 无效，暂时无法发起撤单。" "The order nonce is invalid, so cancellation cannot be submitted."))
        else
          run setLimitOrderResultModal None;
          run update (with_cancelling (cancelling_keys (str_prop "orderHash" order)));
          act_finally
            (act_catch (cancel_order settlement order nonce) (fun error =>
               setLimitOrderResultModal (modal result_error (t "撤单失败" "Cancel failed")
                 (ow_errorMessage ow error
                    (t "你已取消本次撤单签名或钱包交易。"
                       "You cancelled the cancellation signature or wallet transaction.")))))
            (with_cancelling [])
      | None =>
        setLimitOrderResultModal (modal result_error (t "撤单失败" "Cancel failed")
          (t "订单 nonce 无效，暂时无法发起撤单。" "The order nonce is invalid, so cancellation cannot be submitted."))
      end
    end.

(** ** A batch *)

Definition result_key (firstOrder : obj) (result : CancelOrderResult) : string :=
  buildLimitOrderKey
    [("chainId", VNum (default (num_of_Z (oh_chainId h)) (cr_chainId result)));
     ("settlementAddress", VStr (default (str_prop "settlementAddress" firstOrder) (cr_settlementAddress result)));
     ("orderHash", VStr (default "" (cr_orderHash result)))].

Definition ends_with_colon (s : string) : bool :=
  match String.get (String.length s - 1) s with Some c => Ascii.eqb c ":"%char | None => false end.

Definition successful_keys (firstOrder : obj) (results : list CancelOrderResult) : list string :=
  keep (fun key => negb (ends_with_colon key))
    (result_key firstOrder <$>
     keep (fun c => default false (cr_cancelled c) || is_cancelling (cr_order c)) results).

Definition count (n : Z) : string := dec n.

Definition register_batch (orders : list obj) (firstOrder : obj) (hash : string) : act attempt :=
  await response <- post_cancel hash "user_requested_batch_cancel" orders;
  let notice := reply_notice response in
  let results := reply_results response in
  run each (fun c => match cr_order c with Some o => syncLimitOrderRecord o | None => return_ end) results;
  let keys := successful_keys firstOrder results in
  let message := joined_texts [notice_text on_message notice; notice_text on_hint notice] in
  let registered := Z.of_nat (length keys) in
  let failedCount := Z.max 0 (Z.of_nat (length orders) - registered) in
  done_with (Ok
    (if rp_ok response && negb (notice_failed notice) && (0 <? registered)
     then Registered (text_or message
            (if 0 <? failedCount
             then t ("已登记 " ++ count registered ++ " 笔撤单，" ++ count failedCount ++ " 笔未登记，请刷新后查看原因。")
                    (count registered ++ " cancellation(s) registered, " ++ count failedCount
                     ++ " failed. Please refresh to inspect the reason.")
             else t ("已登记 " ++ count registered ++ " 笔撤单，订单状态会在链上确认后自动刷新。")
                    (count registered
                     ++ " cancellation(s) registered. Order status will refresh after chain confirmation.")))
            keys
     else if existsb not_indexed results
     then NotIndexed (text_or message
            (t "链上批量撤单已确认，后端正在等待索引这笔交易。"
               "The on-chain batch cancellation is confirmed and the backend is waiting to index the transaction.")) keys
     else Failed (text_or message
            (t "批量撤单登记失败，请稍后刷新订单状态后重试。"
               "Failed to register the batch cancellation. Please refresh order state and try again later.")))).

(** The selected orders, one per key: a later one replaces an earlier one. *)
Definition uniqueOrders : list obj :=
  snd <$> foldl (fun m order => map_set (buildLimitOrderKey order) order m) [] (selectedLimitOrders r).

Definition same_scope (firstOrder order : obj) : bool :=
  match obj_get "chainId" order, obj_get "chainId" firstOrder with
  | VNum a, VNum b => num_eqb a b
  | _, _ => false
  end
  && String.eqb (plain (str_prop "maker" order)) (plain (str_prop "maker" firstOrder))
  && String.eqb (plain (str_prop "settlementAddress" order)) (plain (str_prop "settlementAddress" firstOrder)).

(** The nonces of the orders, when all are valid. *)
Fixpoint valid_nonces (orders : list obj) : option (list Z) :=
  match orders with
  | [] => Some []
  | order :: orders =>
    match parseOptionalBigInt (str_prop "nonce" order), valid_nonces orders with
    | Some n, Some ns => if n <? 0 then None else Some (n :: ns)
    | _, _ => None
    end
  end.

(** Their set, through their decimal texts. *)
Definition unique_nonces (nonces : list Z) : list Z := omap bigint_of_string (add_all (dec <$> nonces) []).

Definition cancel_orders (settlement : string) (orders : list obj) (firstOrder : obj) (nonces : list Z) : act unit :=
  await cancelTxHash <- invalidate_nonces settlement (str_prop "maker" firstOrder) (unique_nonces nonces);
  run await_receipt orders cancelTxHash
        (t "链上批量撤单交易执行失败。" "The on-chain batch cancellation transaction failed.");
  await g <- register LIMIT_ORDER_CANCEL_REGISTER_RETRIES (register_batch orders firstOrder cancelTxHash) "";
  let done_keys := if Nat.eqb (length (rg_keys g)) 0 then buildLimitOrderKey <$> orders else rg_keys g in
  run update (with_shared (set_selected (keep (fun key => negb (is_in key done_keys)))));
  setLimitOrderResultModal (modal result_success (t "批量撤单已提交" "Batch cancel submitted")
    (if rg_didRegister g then rg_message g
     else text_or (rg_message g)
            (t "链上批量撤单已确认，页面稍后会自动同步最新状态。"
               "The on-chain batch cancellation is confirmed and the page will sync the latest status shortly."))).

Definition batch_error (message : string) : act unit :=
  setLimitOrderResultModal (modal result_error (t "批量撤单失败" "Batch cancel failed") message).

Definition handleBatchCancelLimitOrders : act unit :=
  match uniqueOrders with
  | [] => setLimitOrderResultModal (modal result_error (t "请选择订单" "Select orders")
            (t "请先选择需要撤单的限价单。" "Please select limit orders to cancel first."))
  | (firstOrder :: _) as orders =>
    if negb connected then connect
    else if isCancellingLimitOrders r then return_
    else match ready_settlement with
    | None => batch_error not_ready
    | Some settlement =>
      if existsb (fun order => negb (same_scope firstOrder order)) orders
      then batch_error (t "批量撤单只能处理同一钱包、同一条链、同一个结算合约下的订单。"
                          "Batch cancellation can only include orders from the same wallet, chain, and settlement contract.")
      else match find_first (fun order => am_disabled (getLimitOrderActionMeta order (oh_isZh h) false false)) orders with
      | Some disabledOrder =>
        setLimitOrderResultModal (modal result_error (t "当前不能撤单" "Cancellation unavailable")
          (am_title (getLimitOrderActionMeta disabledOrder (oh_isZh h) false false)))
      | None =>
        match valid_nonces orders with
        | None => batch_error (t "存在 nonce 无效的订单，暂时无法发起批量撤单。"
                                 "At least one order has an invalid nonce, so batch cancellation cannot be submitted.")
        | Some nonces =>
          run setLimitOrderResultModal None;
          run update (with_cancelling (buildLimitOrderKey <$> orders));
          act_finally
            (act_catch (cancel_orders settlement orders firstOrder nonces) (fun error =>
               batch_error (ow_errorMessage ow error
                 (t "你已取消本次批量撤单签名或钱包交易。"
                    "You cancelled the batch cancellation signature or wallet transaction."))))
            (with_cancelling [])
        end
      end
    end
  end.
End cancel.

(** ** What a handler leaves *)

Section traces.
Context `{Codec : JsonCodec raw}.
Variable ow : order_world raw.
Variable h : order_hooks.
Implicit Type s : page raw.

Definition writes (l : list (page_event raw)) : list contract_write :=
  omap (fun e => match e with Wrote t => Some t | _ => None end) l.
Definition deletes (l : list (page_event raw)) : list raw :=
  omap (fun e => match e with Deleted b => Some b | _ => None end) l.

Lemma order_writes_app l1 l2 : writes (l1 ++ l2) = (writes l1 ++ writes l2)%list.
Proof. apply omap_app. Qed.
Lemma deletes_app l1 l2 : deletes (l1 ++ l2) = (deletes l1 ++ deletes l2)%list.
Proof. apply omap_app. Qed.

(** A transaction whose receipt said success. *)
Definition confirmed (l : list (page_event raw)) : Prop :=
  exists hash l', Awaited hash ∈ l /\ ow_receipt ow l' hash = Ok true.

Lemma confirmed_app l1 l2 : confirmed l1 \/ confirmed l2 -> confirmed (l1 ++ l2).
Proof. intros [(hash & l' & Hin & H)|(hash & l' & Hin & H)]; exists hash, l'; set_solver. Qed.

(** A computation adds events, leaves the keys being cancelled, and ends with a result and a
    dialog. *)
Definition leaves {A} (m : act (page raw) A)
    (Q : list (page_event raw) -> res js_error A -> option LimitOrderResultModal -> Prop) : Prop :=
  forall s, exists l, pg_trace (fst (m s)) = (pg_trace s ++ l)%list
    /\ pg_cancelling (fst (m s)) = pg_cancelling s /\ Q l (snd (m s)) (pg_modal (fst (m s))).

Lemma leaves_weaken {A} (m : act (page raw) A) (Q Q' : list (page_event raw) -> res js_error A -> _ -> Prop) :
  (forall l x d, Q l x d -> Q' l x d) -> leaves m Q -> leaves m Q'.
Proof. intros HQ H s. destruct (H s) as (l & Ht & Hc & Hq). eauto. Qed.

Lemma leaves_bind {A B} (m : act (page raw) A) (k : A -> act (page raw) B) Q1 Q :
  leaves m Q1 ->
  (forall a l1 d, Q1 l1 (Ok a) d -> leaves (k a) (fun l2 => Q (l1 ++ l2)%list)) ->
  (forall l1 e d, Q1 l1 (Throw e) d -> Q l1 (Throw e) d) ->
  leaves (act_bind m k) Q.
Proof.
  intros Hm Hk He s. destruct (Hm s) as (l1 & Ht & Hc & H1). unfold act_bind.
  destruct (m s) as [s1 [a|e]]; cbn [fst snd] in *.
  - destruct (Hk a l1 _ H1 s1) as (l2 & Ht2 & Hc2 & H2). exists (l1 ++ l2)%list.
    rewrite Ht2, Ht, <- app_assoc, Hc2. done.
  - exists l1. eauto.
Qed.

Lemma leaves_done {A} (x : res js_error A) (Q : list (page_event raw) -> _ -> _ -> Prop) :
  (forall d, Q [] x d) -> leaves (done_with x) Q.
Proof. intros H s. exists []. rewrite app_nil_r. done. Qed.

Lemma leaves_ask {A} e (answer : list (page_event raw) -> res js_error A) (Q : list (page_event raw) -> _ -> _ -> Prop) :
  (forall l d, Q [e] (answer l) d) -> leaves (ask ow e answer) Q.
Proof. intros H s. exists [e]. split; [done|]. split; [done|]. apply H. Qed.

Lemma leaves_modal m (Q : list (page_event raw) -> _ -> _ -> Prop) :
  Q [] (Ok tt) m -> leaves (setLimitOrderResultModal m) Q.
Proof. intros H s. exists []. cbn. by rewrite app_nil_r. Qed.

(** It adds nothing and returns. *)
Definition silent (m : act (page raw) unit) : Prop := leaves m (fun l x _ => l = [] /\ x = Ok tt).

Lemma silent_shared f : silent (update (with_shared f)).
Proof. intros s. exists []. cbn. by rewrite app_nil_r. Qed.

Lemma silent_each {A} (f : A -> act (page raw) unit) l : (forall a, silent (f a)) -> silent (each f l).
Proof.
  intros Hf. induction l as [|a l IH]; [by apply leaves_done|]. cbn [each].
  eapply leaves_bind; [apply Hf| |by intros ? ? ? [_ ?]]. intros [] l1 d [-> _]. exact IH.
Qed.

Lemma silent_sync o : silent (syncLimitOrderRecord ow o).
Proof. apply silent_shared. Qed.

Lemma silent_updated updates o : silent (sync_updated ow updates o).
Proof. intros s. apply silent_sync. Qed.

Lemma leaves_silent {B} (m : act (page raw) unit) (k : unit -> act (page raw) B) Q :
  silent m -> leaves (k tt) Q -> leaves (act_bind m k) Q.
Proof.
  intros Hm Hk. eapply leaves_bind; [exact Hm| |by intros ? ? ? [_ ?]]. by intros [] l d [-> _].
Qed.

(** ** The transaction *)

Section transaction.
Variable settlement maker : string.
Variable nonces : list Z.

Definition cancel_data (deadline : Z) : TypedData InvalidateNonces :=
  buildInvalidateNoncesTypedData (ow_keccak256 ow) (oh_chainId h) settlement maker nonces deadline.

(** The transaction for a block and a signature. *)
Definition cancel_write (deadline : Z) (signature : string) : contract_write :=
  {| cw_address := settlement; cw_functionName := "invalidateNoncesBySig";
     cw_args := [ArgAddress maker; ArgUints nonces; ArgUint deadline; ArgBytes signature];
     cw_value := None; cw_chainId := oh_chainId h; cw_gas := getLocalGasOverride (Some (oh_chainId h)) 8000000 |}.

(** It carries the wallet's signature of the cancellation, for thirty minutes from a block. *)
Definition signed_write (t : contract_write) : Prop :=
  exists l1 l2 b signature,
    ow_block ow l1 = Ok b
    /\ ow_sign ow l2 (cancel_data (cb_timestamp b + LIMIT_ORDER_CANCEL_DEADLINE_SECONDS)) = Ok signature
    /\ t = cancel_write (cb_timestamp b + LIMIT_ORDER_CANCEL_DEADLINE_SECONDS) signature.

Definition at_most_signed (l : list (page_event raw)) : Prop :=
  writes l = [] \/ exists t, writes l = [t] /\ signed_write t.

Lemma invalidate_nonces_leaves :
  leaves (invalidate_nonces ow h settlement maker nonces) (fun l x _ =>
    deletes l = [] /\ at_most_signed l /\ (is_ok x = true -> exists t, writes l = [t] /\ signed_write t)).
Proof.
  unfold invalidate_nonces.
  eapply leaves_bind; [apply (leaves_ask _ _ (fun l x _ => l = [AskedBlock] /\ exists l', ow_block ow l' = x)); eauto| |].
  2: { intros l e d [-> _]. split_and!; [done|by left|done]. }
  intros b l1 d [-> (l' & Hb)].
  eapply leaves_bind; [apply (leaves_ask _ _ (fun l x _ => l = [Signed (cancel_data
    (cb_timestamp b + LIMIT_ORDER_CANCEL_DEADLINE_SECONDS))] /\ exists l', ow_sign ow l' (cancel_data
    (cb_timestamp b + LIMIT_ORDER_CANCEL_DEADLINE_SECONDS)) = x)); eauto| |].
  2: { intros l e d' [-> _]. split_and!; [done|by left|done]. }
  intros signature l1 d' [-> (l2 & Hs)]. apply leaves_ask. intros l3 d''.
  assert (signed_write (cancel_write (cb_timestamp b + LIMIT_ORDER_CANCEL_DEADLINE_SECONDS) signature)) as Hw
    by (exists l', l2, b, signature; done).
  split_and!; [done|right; eexists; by split|intros _; eexists; by split].
Qed.
End transaction.

Lemma await_receipt_leaves orders hash failure :
  leaves (await_receipt ow orders hash failure) (fun l x _ =>
    l = [Awaited hash] /\ (is_ok x = true -> confirmed l)).
Proof.
  unfold await_receipt. apply leaves_silent; [apply silent_each; intros; apply silent_updated|].
  eapply leaves_bind; [apply (leaves_ask _ _ (fun l x _ => l = [Awaited hash] /\ exists l', ow_receipt ow l' hash = x)); eauto| |].
  2: { by intros l e d [-> _]. }
  intros [] l1 d [-> (l' & Hr)]; cbn [negb].
  - eapply leaves_weaken; [|apply silent_each; intros; apply silent_updated].
    intros l x d' [-> ->]. split; [done|]. intros _. exists hash, l'. split; [set_solver|done].
  - apply leaves_silent; [apply silent_each; intros; apply silent_updated|]. by apply leaves_done.
Qed.

(** An attempt sends one request. *)
Definition one_delete {A} (m : act (page raw) A) : Prop :=
  leaves m (fun l _ _ => writes l = [] /\ (length (deletes l) <= 1)%nat).

Lemma post_leaves hash reason orders (k : api_reply CancelOrdersApiResponse -> act (page raw) attempt) :
  (forall response, leaves (k response) (fun l _ _ => l = [])) -> one_delete (act_bind (post_cancel ow h hash reason orders) k).
Proof.
  intros Hk. unfold one_delete, post_cancel.
  eapply leaves_bind; [apply (leaves_ask _ _ (fun l _ _ => exists b, l = [Deleted b])); eauto| |].
  - intros response l d [b ->]. eapply leaves_weaken; [|apply Hk]. intros l x d' ->. simpl. split; [done|lia].
  - intros l e d [b ->]. simpl. split; [done|lia].
Qed.

Lemma register_one_deletes order hash : one_delete (register_one ow h order hash).
Proof.
  apply post_leaves. intros response. apply leaves_silent; [|by apply leaves_done].
  destruct (match head _ with Some c => cr_order c | None => None end); [apply silent_sync|by apply leaves_done].
Qed.

Lemma register_batch_deletes orders firstOrder hash : one_delete (register_batch ow h orders firstOrder hash).
Proof.
  apply post_leaves. intros response. apply leaves_silent; [|by apply leaves_done].
  apply silent_each. intros c. destruct (cr_order c); [apply silent_sync|by apply leaves_done].
Qed.

Lemma register_leaves n once last :
  one_delete once ->
  leaves (register ow n once last) (fun l _ _ => writes l = [] /\ (length (deletes l) <= n)%nat).
Proof.
  intros Ho. revert last; induction n as [|n IH]; intros last; cbn [register]; [by apply leaves_done|].
  eapply leaves_bind; [exact Ho| |intros l e d [? ?]; split; [done|lia]].
  intros outcome l1 d [Hw Hd]. destruct outcome as [message keys|message keys|message].
  - apply leaves_done. intros. rewrite app_nil_r. split; [done|lia].
  - destruct (Nat.eqb n 0).
    + apply leaves_done. intros. rewrite app_nil_r. split; [done|lia].
    + eapply leaves_bind; [apply (leaves_ask _ _ (fun l _ _ => l = [Slept LIMIT_ORDER_CANCEL_REGISTER_RETRY_MS])); done| |].
      * intros [] l2 d' ->. eapply leaves_weaken; [|apply IH]. intros l x d'' [H1 H2].
        rewrite !order_writes_app, !deletes_app, !length_app, Hw, H1. simpl. split; [done|lia].
      * intros l e d' ->. rewrite order_writes_app, deletes_app, length_app, Hw. simpl. split; [done|lia].
  - apply leaves_done. intros. rewrite app_nil_r. split; [done|lia].
Qed.
End traces.

(** ** What is chosen *)

Lemma enabled_open order isZh :
  am_disabled (getLimitOrderActionMeta order isZh false false) = false -> plain (str_prop "status" order) = "open".
Proof.
  unfold getLimitOrderActionMeta. destruct (String.eqb_spec (plain (str_prop "status" order)) "open"); [done|].
  repeat match goal with |- context [if ?b then _ else _] => destruct b; try discriminate end.
Qed.

Lemma omap_dec (L : list string) :
  NoDup L -> Forall (fun t => exists m, 0 <= m /\ t = dec m) L ->
  NoDup (omap bigint_of_string L) /\ Forall (fun n => 0 <= n) (omap bigint_of_string L)
  /\ forall n, 0 <= n -> n ∈ omap bigint_of_string L <-> dec n ∈ L.
Proof.
  intros Hn Hf. induction Hf as [|t L (m & Hm & ->) Hf IH].
  { split_and!; [constructor|constructor|]. intros n _. set_solver. }
  apply NoDup_cons in Hn as [Hnin Hn]. destruct (IH Hn) as (Hd & H0 & Hin).
  cbn [omap list_omap]. rewrite bigint_of_string_dec by done. split_and!.
  - apply NoDup_cons. split; [|done]. by rewrite Hin.
  - by constructor.
  - intros n Hn0. rewrite !elem_of_cons, Hin by done. split; intros [E|E]; auto.
    + subst. by left.
    + left. by apply dec_inj in E.
Qed.

Lemma unique_nonces_spec ns :
  Forall (fun n => 0 <= n) ns ->
  NoDup (unique_nonces ns) /\ Forall (fun n => 0 <= n) (unique_nonces ns)
  /\ forall n, n ∈ unique_nonces ns <-> n ∈ ns.
Proof.
  intros Hns. unfold unique_nonces.
  destruct (omap_dec (add_all (dec <$> ns) [])) as (Hd & H0 & Hin).
  - apply NoDup_add_all. constructor.
  - apply Forall_forall. intros t Ht. apply elem_of_add_all in Ht as [Ht|Ht]; [|by apply not_elem_of_nil in Ht].
    apply list_elem_of_fmap in Ht as (m & -> & Hm). rewrite Forall_forall in Hns. eauto.
  - split_and!; [done|done|]. intros n. rewrite Forall_forall in Hns, H0. split.
    + intros H. pose proof (H0 n H) as Hn0. apply Hin in H; [|done].
      apply elem_of_add_all in H as [H|H]; [|by apply not_elem_of_nil in H].
      apply list_elem_of_fmap in H as (m & E & Hm). apply dec_inj in E; [by subst|done|by apply Hns].
    + intros H. apply Hin; [by apply Hns|]. apply elem_of_add_all. left. apply list_elem_of_fmap. eauto.
Qed.

Lemma valid_nonces_spec orders ns :
  valid_nonces orders = Some ns ->
  Forall (fun n => 0 <= n) ns
  /\ Forall (fun o => is_Some (parseOptionalBigInt (str_prop "nonce" o))) orders
  /\ forall n, n ∈ ns <-> exists o, o ∈ orders /\ parseOptionalBigInt (str_prop "nonce" o) = Some n.
Proof.
  revert ns; induction orders as [|o orders IH]; cbn [valid_nonces]; intros ns H.
  { injection H as <-. split; [constructor|]. split; [constructor|]. set_solver. }
  destruct (parseOptionalBigInt _) as [n|] eqn:E; [|done]. destruct (valid_nonces orders) as [ns'|]; [|done].
  destruct (Z.ltb_spec n 0); [done|]. injection H as <-. destruct (IH ns' eq_refl) as (Hnn & Hsome & Hin).
  split; [by constructor|]. split; [by constructor|]. intros m. rewrite elem_of_cons, Hin. split.
  - intros [->|(o' & Ho' & Hm)]; [exists o|exists o']; (split; [set_solver|done]).
  - intros (o' & Ho' & Hm). apply elem_of_cons in Ho' as [->|Ho']; [left; congruence|right; eauto].
Qed.

(** ** The two handlers *)

Inductive cancel_click := CancelOne (order : obj) | CancelBatch.

Section handlers.
Context `{Codec : JsonCodec raw}.
Variable ow : order_world raw.
Variable h : order_hooks.
Variable r : render.
Implicit Type s : page raw.

Definition handle (c : cancel_click) : act (page raw) unit :=
  match c with
  | CancelOne order => handleCancelLimitOrder ow h r order
  | CancelBatch => handleBatchCancelLimitOrders ow h r
  end.
Definition chosen (c : cancel_click) : list obj :=
  match c with CancelOne order => [order] | CancelBatch => uniqueOrders r end.

(** What a click may cancel: open orders of one maker, and the nonces of exactly these. *)
Record cancels (c : cancel_click) (settlement maker : string) (nonces : list Z) : Prop := {
  cn_settlement : oh_settlement h = Some settlement;
  cn_connected : connected h = true;
  cn_first : str_prop "maker" <$> head (chosen c) = Some maker;
  cn_open : Forall (fun o => plain (str_prop "status" o) = "open") (chosen c);
  cn_maker : Forall (fun o => plain (str_prop "maker" o) = plain maker) (chosen c);
  cn_nonce : Forall (fun o => is_Some (parseOptionalBigInt (str_prop "nonce" o))) (chosen c);
  cn_NoDup : NoDup nonces;
  cn_nonneg : Forall (fun n => 0 <= n) nonces;
  cn_nonces : forall n, n ∈ nonces
    <-> exists o, o ∈ chosen c /\ parseOptionalBigInt (str_prop "nonce" o) = Some n;
}.

(** The wallet refuses every signature, or every transaction, and nothing else happens on
    the page. *)
Definition wallet_refuses : Prop :=
  ((forall l d, exists e, ow_sign ow l d = Throw e) \/ (forall l t, exists e, ow_write ow l t = Throw e))
  /\ forall l sh, ow_meanwhile ow l sh = sh.

(** A computation that fails and changes no order then. *)
Definition fails_clean {A} (m : act (page raw) A) : Prop :=
  wallet_refuses -> forall s, exists s' e, m s = (s', Throw e) /\ pg_shared s' = pg_shared s.

Lemma refused_invalidation {B} settlement maker nonces (k : string -> act (page raw) B) :
  fails_clean (act_bind (invalidate_nonces ow h settlement maker nonces) k).
Proof.
  intros [Hr Hq] s. unfold invalidate_nonces, act_bind, ask.
  set (s1 := with_trace AskedBlock s). set (s2 := with_shared (ow_meanwhile ow (pg_trace s1)) s1).
  assert (pg_shared s2 = pg_shared s) as H2 by (cbn; apply Hq).
  destruct (ow_block ow (pg_trace s1)) as [b|e]; [|by exists s2, e].
  match goal with |- context [Signed ?d] => set (data := d) end.
  set (s3 := with_trace (Signed data) s2). set (s4 := with_shared (ow_meanwhile ow (pg_trace s3)) s3).
  assert (pg_shared s4 = pg_shared s) as H4 by (cbn; rewrite !Hq; done).
  destruct (ow_sign ow (pg_trace s3) data) as [signature|e] eqn:Es; [|by exists s4, e].
  destruct Hr as [Hr|Hr]; [destruct (Hr (pg_trace s3) data) as [e He]; congruence|].
  match goal with |- context [Wrote ?w] => set (t := w) end.
  set (s5 := with_trace (Wrote t) s4). set (s6 := with_shared (ow_meanwhile ow (pg_trace s5)) s5).
  assert (pg_shared s6 = pg_shared s) as H6 by (cbn; rewrite !Hq; done).
  destruct (Hr (pg_trace s5) t) as [e ->]. by exists s6, e.
Qed.

(** What the body of a handler leaves. *)
Definition body_leaves settlement maker nonces (l : list (page_event raw)) (x : res js_error unit)
    (d : option LimitOrderResultModal) : Prop :=
  at_most_signed ow h settlement maker nonces l /\ (length (deletes l) <= 6)%nat
  /\ (is_ok x = true -> confirmed ow l /\ exists m, d = Some m /\ lm_kind m = result_success).

Lemma body_leaves_intro settlement maker nonces (wait : string -> act (page raw) unit)
    (reg : string -> act (page raw) registration) (finish : registration -> act (page raw) unit) :
  (forall hash, leaves (wait hash) (fun l x _ => l = [Awaited hash] /\ (is_ok x = true -> confirmed ow l))) ->
  (forall hash, leaves (reg hash) (fun l _ _ => writes l = [] /\ (length (deletes l) <= 6)%nat)) ->
  (forall g, leaves (finish g) (fun l _ d => l = [] /\ exists m, d = Some m /\ lm_kind m = result_success)) ->
  leaves (act_bind (invalidate_nonces ow h settlement maker nonces) (fun hash =>
          act_bind (wait hash) (fun _ => act_bind (reg hash) finish)))
    (body_leaves settlement maker nonces).
Proof.
  intros Ha Hr Hf. eapply leaves_bind; [apply invalidate_nonces_leaves| |].
  2: { intros l e d (Hd & Hs & _). split_and!; [done|by rewrite Hd; simpl; lia|done]. }
  intros hash l1 d1 (Hd1 & _ & Hw). destruct (Hw eq_refl) as (t & Ht & Hsig).
  assert (forall l2, writes l2 = [] -> at_most_signed ow h settlement maker nonces (l1 ++ l2)) as Hone.
  { intros l2 Hl2. right. exists t. by rewrite order_writes_app, Hl2, app_nil_r. }
  eapply leaves_bind; [apply Ha| |].
  2: { intros l e d [-> _]. split_and!; [by apply Hone|by rewrite deletes_app, Hd1; simpl; lia|done]. }
  intros [] l2 d2 [-> Hc]. specialize (Hc eq_refl).
  eapply leaves_bind; [apply Hr| |].
  2: { intros l e d [Hlw Hld].
       split_and!; [by apply Hone|rewrite !deletes_app, !length_app, Hd1; simpl; lia|done]. }
  intros g l3 d3 [Hlw Hld]. eapply leaves_weaken; [|apply Hf]. intros l x d [-> Hm]. rewrite app_nil_r.
  split_and!; [by apply Hone|rewrite !deletes_app, !length_app, Hd1; simpl; lia|].
  intros _. split; [|done]. apply confirmed_app. right. apply confirmed_app. by left.
Qed.

Lemma cancel_order_leaves settlement order nonce :
  leaves (cancel_order ow h settlement order nonce) (body_leaves settlement (str_prop "maker" order) [nonce]).
Proof.
  apply body_leaves_intro.
  - intros hash. apply await_receipt_leaves.
  - intros hash. apply register_leaves, register_one_deletes.
  - intros g. apply leaves_modal. split; [done|]. by eexists.
Qed.

Lemma cancel_orders_leaves settlement orders firstOrder nonces :
  leaves (cancel_orders ow h settlement orders firstOrder nonces)
    (body_leaves settlement (str_prop "maker" firstOrder) (unique_nonces nonces)).
Proof.
  apply body_leaves_intro.
  - intros hash. apply await_receipt_leaves.
  - intros hash. apply register_leaves, register_batch_deletes.
  - intros g. apply leaves_silent; [apply silent_shared|]. apply leaves_modal. split; [done|]. by eexists.
Qed.

(** A click that only shows a message, or opens the wallet dialog. *)
Definition refused s (s' : page raw) : Prop :=
  pg_shared s' = pg_shared s /\ pg_cancelling s' = pg_cancelling s
  /\ (pg_trace s' = pg_trace s \/ pg_trace s' = (pg_trace s ++ [ConnectOpened])%list).

(** A click that cancels. *)
Definition performed c s (s' : page raw) : Prop :=
  exists settlement maker nonces l, cancels c settlement maker nonces
    /\ pg_trace s' = (pg_trace s ++ l)%list /\ pg_cancelling s' = []
    /\ at_most_signed ow h settlement maker nonces l /\ (length (deletes l) <= 6)%nat
    /\ exists m, pg_modal s' = Some m /\ (lm_kind m = result_success -> confirmed ow l)
       /\ (wallet_refuses -> pg_shared s' = pg_shared s /\ lm_kind m = result_error).

Lemma run_performed c settlement maker nonces body title (message : js_error -> string) keys s :
  cancels c settlement maker nonces -> leaves body (body_leaves settlement maker nonces) -> fails_clean body ->
  let r' := act_bind (setLimitOrderResultModal None) (fun _ => act_bind (update (with_cancelling keys)) (fun _ =>
     act_finally (act_catch body (fun e => setLimitOrderResultModal (modal result_error title (message e))))
       (with_cancelling []))) s in
  snd r' = Ok tt /\ performed c s (fst r').
Proof.
  intros Hc Hb Hf. cbv zeta. unfold act_bind, setLimitOrderResultModal, update, act_finally, act_catch.
  set (s1 := with_cancelling keys (with_modal None s)).
  destruct (Hb s1) as (l & Ht & _ & Hs & Hd & Hok).
  assert (wallet_refuses -> exists s' e, body s1 = (s', Throw e) /\ pg_shared s' = pg_shared s1) as Hf1 by (intros ?; by apply Hf).
  destruct (body s1) as [s2 [[]|e]]; cbn [fst snd] in *; (split; [done|]); exists settlement, maker, nonces, l;
    (split; [done|]); (split; [exact Ht|]); (split; [done|]); (split; [done|]); (split; [done|]).
  - destruct (Hok eq_refl) as (Hcf & m & Hm & _). exists m. split_and!; [done|done|].
    intros (s' & e & [=] & _)%Hf1.
  - eexists. split; [done|]. split; [discriminate|]. intros (s' & e' & [= <- _] & Hsh)%Hf1. done.
Qed.

Lemma refused_modal m s : refused s (fst (setLimitOrderResultModal m s)).
Proof. repeat split. by left. Qed.
Lemma refused_connect s : refused s (fst (connect h s)).
Proof. unfold connect, return_. destruct (oh_openConnectModal h); repeat split; [by right|by left]. Qed.
Lemma connect_ok s : snd (connect h s) = Ok tt.
Proof. unfold connect, return_. by destruct (oh_openConnectModal h). Qed.

Lemma ready_settlement_some settlement : ready_settlement h = Some settlement -> oh_settlement h = Some settlement.
Proof.
  unfold ready_settlement. destruct (_ && _); [|done]. destruct (oh_settlement h) as [x|]; [|done].
  destruct (str_nonempty x); congruence.
Qed.

Lemma one_cases order s :
  let r' := handleCancelLimitOrder ow h r order s in
  snd r' = Ok tt /\ (refused s (fst r') \/ performed (CancelOne order) s (fst r')).
Proof.
  cbv zeta. unfold handleCancelLimitOrder, return_.
  destruct (connected h) eqn:Hcon; cbn [negb].
  2: { split; [apply connect_ok|left; apply refused_connect]. }
  destruct (match cancellingOrderHash r with Some hash => str_nonempty hash | None => false end).
  { split; [done|]. left. repeat split. by left. }
  destruct (am_disabled _) eqn:Hdis; [split; [done|left; apply refused_modal]|].
  destruct (ready_settlement h) as [settlement|] eqn:Hset; [|split; [done|left; apply refused_modal]].
  destruct (parseOptionalBigInt _) as [nonce|] eqn:Hn; [|split; [done|left; apply refused_modal]].
  destruct (Z.ltb_spec nonce 0); [split; [done|left; apply refused_modal]|].
  edestruct run_performed as [H1 H2]; [|apply cancel_order_leaves|apply refused_invalidation
    |split; [exact H1|right; exact H2]].
  constructor; cbn [chosen].
  - by apply ready_settlement_some.
  - done.
  - done.
  - apply Forall_singleton. by eapply enabled_open.
  - by apply Forall_singleton.
  - apply Forall_singleton. by eexists.
  - apply NoDup_singleton.
  - by apply Forall_singleton.
  - intros n. rewrite list_elem_of_singleton. split.
    + intros ->. exists order. split; [set_solver|done].
    + intros (o & Ho & E). apply list_elem_of_singleton in Ho as ->. congruence.
Qed.

Lemma batch_cases s :
  let r' := handleBatchCancelLimitOrders ow h r s in
  snd r' = Ok tt /\ (refused s (fst r') \/ performed CancelBatch s (fst r')).
Proof.
  cbv zeta. unfold handleBatchCancelLimitOrders, return_, batch_error.
  destruct (uniqueOrders r) as [|firstOrder rest] eqn:Hu; [split; [done|left; apply refused_modal]|].
  rewrite <- Hu. destruct (connected h) eqn:Hcon; cbn [negb].
  2: { split; [apply connect_ok|left; apply refused_connect]. }
  destruct (isCancellingLimitOrders r). { split; [done|]. left. repeat split. by left. }
  destruct (ready_settlement h) as [settlement|] eqn:Hset; [|split; [done|left; apply refused_modal]].
  destruct (existsb _ _) eqn:Hscope; [split; [done|left; apply refused_modal]|].
  destruct (find_first _ _) eqn:Hdis; [split; [done|left; apply refused_modal]|].
  destruct (valid_nonces _) as [nonces|] eqn:Hn; [|split; [done|left; apply refused_modal]].
  destruct (valid_nonces_spec _ _ Hn) as (H0 & Hsome & Hin). destruct (unique_nonces_spec _ H0) as (Hnd & Hu0 & Huin).
  edestruct run_performed as [H1 H2]; [|apply (cancel_orders_leaves settlement (uniqueOrders r) firstOrder nonces)
    |apply refused_invalidation|split; [exact H1|right; exact H2]].
  constructor; cbn [chosen].
  - by apply ready_settlement_some.
  - done.
  - by rewrite Hu.
  - apply find_first_None in Hdis. apply Forall_forall. intros o Ho. rewrite Forall_forall in Hdis.
    specialize (Hdis o Ho). by eapply enabled_open.
  - apply Forall_forall. intros o Ho. apply list_elem_of_In in Ho.
    destruct (same_scope firstOrder o) eqn:E.
    + unfold same_scope in E. bool_solve. done.
    + assert (existsb (fun order => negb (same_scope firstOrder order)) (uniqueOrders r) = true); [|congruence].
      apply existsb_exists. exists o. by rewrite E.
  - done.
  - done.
  - done.
  - intros n. by rewrite Huin, Hin.
Qed.

Lemma click_cases c s :
  let r' := handle c s in snd r' = Ok tt /\ (refused s (fst r') \/ performed c s (fst r')).
Proof. destruct c; [apply one_cases|apply batch_cases]. Qed.

(** C28.  A click to cancel one order or a batch never throws.  It either changes nothing but
    the dialog, or it cancels: it sends at most one transaction and at most six requests,
    leaves no order marked as being cancelled, and ends with a dialog, which reports success
    only for a confirmed transaction; if the wallet refuses, an error, and no order has
    changed. *)
Theorem cancellation_outcome c s :
  let s' := fst (handle c s) in
  snd (handle c s) = Ok tt
  /\ (refused s s'
      \/ exists l m, pg_trace s' = (pg_trace s ++ l)%list /\ pg_cancelling s' = [] /\ pg_modal s' = Some m
         /\ (length (writes l) <= 1)%nat /\ (length (deletes l) <= 6)%nat
         /\ (lm_kind m = result_success -> confirmed ow l)
         /\ (wallet_refuses -> pg_shared s' = pg_shared s /\ lm_kind m = result_error)).
Proof.
  cbv zeta. destruct (click_cases c s) as [Hok [Hr|Hp]]; (split; [done|]); [by left|right].
  destruct Hp as (settlement & maker & nonces & l & _ & Ht & Hc & Hs & Hd & m & Hm & Hcf & Hw).
  exists l, m. split_and!; try done. destruct Hs as [->|(t & -> & _)]; simpl; lia.
Qed.
End handlers.

(** ** The cancellation at the contract *)

(** The call of the settlement contract a transaction is. *)
Definition settlement_call_of (t : contract_write) : option settlement_call :=
  match cw_args t with
  | [ArgAddress maker; ArgUints nonces; ArgUint deadline; ArgBytes signature] =>
    if String.eqb (cw_functionName t) "invalidateNoncesBySig"
    then Some (InvalidateNoncesBySig maker nonces deadline signature) else None
  | _ => None
  end.

Section chain.
Context `{Codec : JsonCodec raw}.
Variable ow : order_world raw.
Variable h : order_hooks.
Variable r : render.
Variable dp : deployment.
Variable wallet : string.
(** The configuration names the deployed contract, the page hashes as the chain does, and the
    wallet signs EIP-712 typed data with its own key. *)
Hypothesis same_chain : oh_chainId h = dp_chainid dp.
Hypothesis same_contract : oh_settlement h = Some (dp_self dp).
Hypothesis same_hash : ow_keccak256 ow = cr_keccak256 (dp_crypto dp).
Hypothesis wallet_signs : forall l d signature, ow_sign ow l d = Ok signature ->
  cr_recover (dp_crypto dp) (typed_digest (dp_crypto dp) d (nonces_members (td_message d))) signature
  = Some (address_value wallet).

Lemma signed_write_call maker nonces t :
  signed_write ow h (dp_self dp) maker nonces t ->
  exists l b signature, ow_block ow l = Ok b
    /\ let deadline := cb_timestamp b + LIMIT_ORDER_CANCEL_DEADLINE_SECONDS in
       settlement_call_of t = Some (InvalidateNoncesBySig maker nonces deadline signature)
       /\ cw_address t = dp_self dp
       /\ cr_recover (dp_crypto dp)
            (invalidate_digest (dp_crypto dp) (dp_chainid dp) (dp_self dp) maker nonces deadline) signature
          = Some (address_value wallet).
Proof.
  intros (l1 & l2 & b & signature & Hb & Hs & ->). exists l1, b, signature. split; [done|]. cbv zeta.
  split; [done|]. split; [done|]. rewrite <- (wallet_signs _ _ _ Hs). unfold cancel_data.
  rewrite same_hash, same_chain. by rewrite invalidate_digest_signed.
Qed.

(** C32.  The transaction of a click cancels exactly the chosen orders, all of them open: it is
    the contract's invalidation of their nonces, signed by the wallet for thirty minutes.  The
    contract accepts it while these nonces are unused, and from then on never executes an
    order of the maker with one of them, whatever happens. *)
Theorem cancelled_orders_never_execute c s l t :
  pg_trace (fst (handle ow h r c s)) = (pg_trace s ++ l)%list -> writes l = [t] ->
  exists maker nonces deadline signature,
    settlement_call_of t = Some (InvalidateNoncesBySig maker nonces deadline signature)
    /\ cw_address t = dp_self dp
    /\ str_prop "maker" <$> head (chosen r c) = Some maker
    /\ Forall (fun o => plain (str_prop "status" o) = "open" /\ plain (str_prop "maker" o) = plain maker) (chosen r c)
    /\ (forall n, n ∈ nonces <-> exists o, o ∈ chosen r c /\ parseOptionalBigInt (str_prop "nonce" o) = Some n)
    /\ (exists l' b, ow_block ow l' = Ok b /\ deadline = cb_timestamp b + 1800)
    /\ forall e cs, ce_now e <= deadline -> address_value maker = address_value wallet -> address_value maker <> 0 ->
       Forall (fun n => (address_value maker, n) ∉ ss_invalidatedNonce cs) nonces ->
       exists cs' evs,
         exec_settlement dp e (InvalidateNoncesBySig maker nonces deadline signature) cs = Ok (cs', ce_pairs e, evs)
         /\ forall calls cs'' e' o signature' deadline' reward out,
            settlement_run dp cs' calls cs'' -> o_maker o = address_value maker -> nonce o ∈ nonces ->
            executeOrder dp e' o signature' deadline' reward cs'' <> Ok out.
Proof.
  intros Ht Hw. destruct (click_cases ow h r c s) as [_ [Hr|Hp]].
  { exfalso. destruct Hr as (_ & _ & [E|E]); rewrite E in Ht.
    - rewrite <- (app_nil_r (pg_trace s)) in Ht at 1. apply app_inv_head in Ht as <-. discriminate Hw.
    - apply app_inv_head in Ht as <-. discriminate Hw. }
  destruct Hp as (settlement & maker & nonces & l' & Hc & Ht' & _ & Hs & _). rewrite Ht' in Ht.
  apply app_inv_head in Ht as ->. destruct Hs as [E|(t' & E & Hs)]; rewrite E in Hw; [discriminate Hw|].
  injection Hw as ->. destruct Hc as [Hset _ Hfirst Hopen Hmaker Hsome Hnd _ Hin].
  rewrite same_contract in Hset. injection Hset as <-.
  destruct (signed_write_call maker nonces t Hs) as (l1 & b & signature & Hb & Hcall & Haddr & Hrec).
  exists maker, nonces, (cb_timestamp b + LIMIT_ORDER_CANCEL_DEADLINE_SECONDS), signature.
  split_and!; try done.
  - rewrite Forall_forall in Hopen, Hmaker |- *. auto.
  - by exists l1, b.
  - intros e cs Hnow Hwallet Hm0 Hfresh. rewrite <- Hwallet in Hrec.
    assert (nonces <> []) as Hne.
    { intros ->. destruct (chosen r c) as [|o rest]; [discriminate Hfirst|].
      apply Forall_cons in Hsome as [[n Hn] _].
      assert (n ∈ @nil Z) as Habs by (apply Hin; exists o; split; [set_solver|done]). by apply not_elem_of_nil in Habs. }
    destruct (invalidate_accepted dp e maker nonces _ signature cs Hm0 Hnow Hne Hnd Hfresh Hrec)
      as (cs' & evs & Hexec & Hinv). exists cs', evs. split; [exact Hexec|].
    intros calls cs'' e' o signature' deadline' reward out Hrun Ho Hn.
    apply (used_nonce_dead dp e' o cs''). eapply used_nonce_stays; [exact Hrun|].
    rewrite Hinv, Ho. apply elem_of_union_l, elem_of_list_to_set, list_elem_of_fmap. eauto.
Qed.
End chain.

(** ** Concrete instances *)

Definition sample_cancel_order (hash nonce : string) : obj :=
  obj_spread (sample_record hash "open") [("maker", VStr "0x0a"); ("nonce", VStr nonce)].

Definition sample_render : render :=
  {| rd_orders := [sample_cancel_order "0xaa" "4"; sample_cancel_order "0xbb" "7"];
     rd_selected := ["1:1:0xaa"; "1:1:0xbb"]; rd_cancelling := [] |}.

Definition sample_hooks : order_hooks :=
  {| oh_isZh := false; oh_chainId := 1; oh_address := Some "0x0a"; oh_isConnected := true;
     oh_openConnectModal := false; oh_publicClient := true; oh_supported := true; oh_settlement := Some "0x08" |}.

(** The wallet signs, the transaction is mined, the backend does not answer. *)
Definition sample_world : order_world (option jsval) :=
  {| ow_list := fun _ _ => Throw (Error "offline"); ow_delete := fun _ _ => Throw (Error "offline");
     ow_block := fun _ => Ok {| cb_timestamp := 1700000000; cb_number := Some 9; cb_hash := None |};
     ow_sign := fun _ _ => Ok "0x77"; ow_write := fun _ _ => Ok "0xcc"; ow_receipt := fun _ _ => Ok true;
     ow_meanwhile := fun _ sh => sh; ow_cancelled := fun _ => false; ow_now := fun _ => "2024";
     ow_history := fun _ => Throw "offline"; ow_interfere := fun b => b; ow_localeCompare := by_length;
     ow_keccak256 := fun _ => "0x00"; ow_errorMessage := fun e _ => default "" (err_message e) |}.

Definition sample_page : page (option jsval) :=
  {| pg_shared := {| sh_browser := {| has_window := true; items := ∅; dispatched := [] |};
                     sh_orders := rd_orders sample_render; sh_selected := rd_selected sample_render |};
     pg_cancelling := []; pg_modal := None; pg_loading := false; pg_error := None; pg_trace := [] |}.

Definition sample_click : page (option jsval) :=
  fst (handle sample_world sample_hooks sample_render CancelBatch sample_page).

Lemma cancelled_orders_never_execute_witness :
  exists t maker nonces deadline signature cs evs,
    writes (pg_trace sample_click) = [t]
    /\ settlement_call_of t = Some (InvalidateNoncesBySig maker nonces deadline signature)
    /\ exec_settlement sample_deployment sample_call_env
         (InvalidateNoncesBySig maker nonces deadline signature) deployed_settlement
       = Ok (cs, ce_pairs sample_call_env, evs)
    /\ forall out, executeOrder sample_deployment sample_call_env (sample_order 7) "0x77" 1700000100 0 cs <> Ok out.
Proof.
  destruct (writes (pg_trace sample_click)) as [|t []] eqn:E; [vm_compute in E; discriminate E| |vm_compute in E; discriminate E].
  destruct (cancelled_orders_never_execute sample_world sample_hooks sample_render sample_deployment "0x0a"
    eq_refl eq_refl eq_refl
    ltac:(intros l d signature H; cbn in H; injection H as <-; reflexivity)
    CancelBatch sample_page (pg_trace sample_click) t eq_refl E)
    as (maker & nonces & deadline & signature & Hcall & _ & Hm & _ & Hn & (l' & b & Hb & Hd) & H).
  assert (maker = "0x0a") as -> by (vm_compute in Hm; injection Hm as <-; reflexivity).
  cbn in Hb. injection Hb as <-. subst deadline.
  destruct (H sample_call_env deployed_settlement) as (cs & evs & Hexec & Hdead);
    [vm_compute; discriminate|reflexivity|vm_compute; discriminate|apply Forall_forall; intros n _ Hin; exact (not_elem_of_empty _ Hin)|].
  exists t, "0x0a", nonces, (1700000000 + 1800), signature, cs, evs.
  split; [reflexivity|]. split; [exact Hcall|]. split; [exact Hexec|]. intros out.
  apply (Hdead [] cs); [constructor|reflexivity|]. apply Hn.
  exists (sample_cancel_order "0xbb" "7"). split; [vm_compute; right; left|vm_compute; reflexivity].
Defined.

(** ** A reverted cancellation *)

Lemma obj_has_set k k' v o : obj_has k (obj_set k' v o) = String.eqb k k' || obj_has k o.
Proof.
  induction o as [|[k1 v1] o IH]; simpl; [done|].
  destruct (String.eqb_spec k' k1) as [->|]; simpl; [by destruct (String.eqb k k1)|].
  rewrite IH. by destruct (String.eqb k k1), (String.eqb k k').
Qed.

(** Back to the order the handler was given, the record keeps the hash and the reason of the
    transaction that reverted, when that order had none. *)
Lemma reverted_cancel_keeps_hash order hash reason sent reverted :
  obj_wf order -> obj_has "cancelledTxHash" order = false -> obj_has "statusReason" order = false ->
  obj_has "status" order = true ->
  let pending := obj_spread order (pending_cancel hash reason ++ [("updatedAt", VStr sent)])%list in
  let back := obj_spread order [("updatedAt", VStr reverted)] in
  obj_get "status" (obj_spread pending back) = obj_get "status" order
  /\ obj_get "cancelledTxHash" (obj_spread pending back) = VStr hash
  /\ obj_get "statusReason" (obj_spread pending back) = VStr reason.
Proof.
  intros Hwf Hh Hr Hs. cbv zeta. cbn [obj_spread pending_cancel app].
  assert (obj_wf (obj_set "updatedAt" (VStr reverted) order)) as Hwf1 by (by apply obj_set_wf).
  rewrite !obj_get_spread, !obj_has_set, !obj_get_set, Hh, Hr, Hs by done. done.
Qed.
