(* ===== verification/WalletPage.v ===== *)
(** * Pages that send transactions

    What a handler asks of the wallet and the node, as a trace of events beside the state of
    its page; what it has sent; and a transaction to the router read as one of its liquidity
    calls (RouterLiquidity.v). *)

From S2P Require Import Prelude JsString JsNumber JsValue JsError PageMonad RouterContract RouterLiquidity.
Open Scope string_scope.
Open Scope Z_scope.

Definition maxUint256 : Z := 2 ^ 256 - 1.

Inductive wallet_event :=
| Wrote (t : contract_write)
| AskedBlock
| AskedReads
| AwaitedReceipt (hash : string)
| ReadContract (address functionName : string) (args : list abi_arg)
| ConnectOpened
| Pushed (url : string).

Record wallet_screen (P : Type) := { ws_page : P; ws_trace : list wallet_event }.
Arguments ws_page {P}.
Arguments ws_trace {P}.

(** The answers are functions of the trace, newest event last; [wd_interfere] is what other
    code of the page does to its state while the handler waits. *)
Record wallet_world (P : Type) := {
  wd_write : list wallet_event -> contract_write -> res js_error string;
  wd_block : list wallet_event -> res js_error chain_block;
  wd_receipt : list wallet_event -> string -> res js_error bool;
  wd_read : list wallet_event -> string -> string -> list abi_arg -> res js_error (list Z);
  wd_interfere : list wallet_event -> P -> P;
  wd_errorMessage : js_error -> string -> string;
}.
Arguments wd_write {P}.
Arguments wd_block {P}.
Arguments wd_receipt {P}.
Arguments wd_read {P}.
Arguments wd_interfere {P}.
Arguments wd_errorMessage {P}.

Section screen.
Context {P : Type}.
Variable wd : wallet_world P.
Implicit Type s : wallet_screen P.

Definition on_page (f : P -> P) s : wallet_screen P := {| ws_page := f (ws_page s); ws_trace := ws_trace s |}.
Definition with_event (e : wallet_event) s : wallet_screen P :=
  {| ws_page := ws_page s; ws_trace := (ws_trace s ++ [e])%list |}.

Definition set_page (f : P -> P) : act (wallet_screen P) unit := update (on_page f).
Definition emit (e : wallet_event) : act (wallet_screen P) unit := update (with_event e).
Definition return_ : act (wallet_screen P) unit := done_with (Ok tt).

(** The screen after the wait for an answer. *)
Definition waited (e : wallet_event) s : wallet_screen P :=
  on_page (wd_interfere wd (ws_trace (with_event e s))) (with_event e s).
Definition ask {A} (e : wallet_event) (answer : list wallet_event -> res js_error A) : act (wallet_screen P) A :=
  fun s => (waited e s, answer (ws_trace (with_event e s))).

Definition write (t : contract_write) : act (wallet_screen P) string :=
  ask (Wrote t) (fun l => wd_write wd l t).
Definition getBlock : act (wallet_screen P) chain_block := ask AskedBlock (wd_block wd).
End screen.

(** ** What was sent *)

Definition transactions (l : list wallet_event) : list contract_write :=
  omap (fun e => match e with Wrote t => Some t | _ => None end) l.

Lemma wallet_transactions_app l1 l2 : transactions (l1 ++ l2) = (transactions l1 ++ transactions l2)%list.
Proof. apply omap_app. Qed.

Section sending.
Context {P : Type}.
Variable wd : wallet_world P.
Implicit Type s : wallet_screen P.

(** The transactions a screen has beyond another's. *)
Definition sent s s' (l : list contract_write) : Prop :=
  transactions (ws_trace s') = (transactions (ws_trace s) ++ l)%list.

Lemma wallet_sent_refl s : sent s s [].
Proof. unfold sent. by rewrite app_nil_r. Qed.

Lemma wallet_sent_trans s s1 s2 l1 l2 : sent s s1 l1 -> sent s1 s2 l2 -> sent s s2 (l1 ++ l2).
Proof. unfold sent. intros H1 H2. by rewrite H2, H1, app_assoc. Qed.

Lemma wallet_sent_page f s s' l : sent s s' l -> sent s (on_page f s') l.
Proof. done. Qed.

Lemma wallet_sent_wrote t s s' : sent s s' [] -> sent s (with_event (Wrote t) s') [t].
Proof. unfold sent. cbn [with_event ws_trace]. intros H. by rewrite wallet_transactions_app, H, app_nil_r. Qed.

Lemma wallet_sent_quiet e s s' l :
  match e with Wrote _ => False | _ => True end -> sent s s' l -> sent s (with_event e s') l.
Proof.
  unfold sent. cbn [with_event ws_trace]. intros He H. rewrite wallet_transactions_app, H.
  destruct e; try done; by rewrite app_nil_r.
Qed.

Lemma wallet_sent_waited_wrote t s s' : sent s s' [] -> sent s (waited wd (Wrote t) s') [t].
Proof. intros H. by apply wallet_sent_page, wallet_sent_wrote. Qed.

Lemma wallet_sent_waited e s s' l :
  match e with Wrote _ => False | _ => True end -> sent s s' l -> sent s (waited wd e s') l.
Proof. intros He H. by apply wallet_sent_page, wallet_sent_quiet. Qed.

(** A computation that sends nothing. *)
Definition quiet {A} (m : act (wallet_screen P) A) : Prop := forall s, sent s (fst (m s)) [].

Lemma wallet_quiet_done {A} (r : res js_error A) : quiet (done_with r).
Proof. intros s. apply wallet_sent_refl. Qed.

Lemma wallet_quiet_set f : quiet (set_page f).
Proof. intros s. apply wallet_sent_page, wallet_sent_refl. Qed.

Lemma wallet_quiet_ask {A} e (f : list wallet_event -> res js_error A) :
  match e with Wrote _ => False | _ => True end -> quiet (ask wd e f).
Proof. intros He s. by apply wallet_sent_waited, wallet_sent_refl. Qed.

Lemma wallet_quiet_emit e : match e with Wrote _ => False | _ => True end -> quiet (emit e).
Proof. intros He s. by apply wallet_sent_quiet, wallet_sent_refl. Qed.

(** A computation whose transactions are at most one, which is in [T]. *)
Definition sends_one {A} (T : contract_write -> Prop) (m : act (wallet_screen P) A) : Prop :=
  forall s, exists l, sent s (fst (m s)) l /\ (l = [] \/ exists t, l = [t] /\ T t).

Lemma wallet_sends_quiet {A} T (m : act (wallet_screen P) A) : quiet m -> sends_one T m.
Proof. intros H s. exists []. split; [apply H|by left]. Qed.

Lemma wallet_sends_write T t : T t -> sends_one T (write wd t).
Proof. intros H s. exists [t]. split; [by apply wallet_sent_waited_wrote, wallet_sent_refl|]. right. by exists t. Qed.

Lemma wallet_quiet_then {A B} T (m : act (wallet_screen P) A) (k : A -> act (wallet_screen P) B) :
  quiet m -> (forall a, sends_one T (k a)) -> sends_one T (act_bind m k).
Proof.
  intros Hm Hk s. unfold act_bind. specialize (Hm s). destruct (m s) as [s1 [a|e]]; cbn [fst] in *.
  - destruct (Hk a s1) as (l & Hl & Ho). exists l. split; [by apply (wallet_sent_trans s s1 _ [] l)|done].
  - exists []. split; [done|by left].
Qed.

Lemma wallet_then_quiet {A B} T (m : act (wallet_screen P) A) (k : A -> act (wallet_screen P) B) :
  sends_one T m -> (forall a, quiet (k a)) -> sends_one T (act_bind m k).
Proof.
  intros Hm Hk s. unfold act_bind. destruct (Hm s) as (l & Hl & Ho).
  destruct (m s) as [s1 [a|e]]; cbn [fst] in *; [|by exists l].
  exists l. split; [|done]. rewrite <- (app_nil_r l). eapply wallet_sent_trans; [done|apply Hk].
Qed.

Lemma wallet_catch_quiet {A} T (m : act (wallet_screen P) A) f :
  sends_one T m -> (forall e, quiet (f e)) -> sends_one T (act_catch m f).
Proof.
  intros Hm Hf s. unfold act_catch. destruct (Hm s) as (l & Hl & Ho).
  destruct (m s) as [s1 [a|e]]; cbn [fst] in *; [by exists l|].
  exists l. split; [|done]. rewrite <- (app_nil_r l). eapply wallet_sent_trans; [done|apply Hf].
Qed.

Lemma wallet_finally_page {A} T (m : act (wallet_screen P) A) g :
  sends_one T m -> sends_one T (act_finally m (on_page g)).
Proof. intros Hm s. destruct (Hm s) as (l & Hl & Ho). exists l. split; [exact Hl|done]. Qed.

Lemma wallet_quiet_bind {A B} (m : act (wallet_screen P) A) (k : A -> act (wallet_screen P) B) :
  quiet m -> (forall a, quiet (k a)) -> quiet (act_bind m k).
Proof.
  intros Hm Hk s. unfold act_bind. specialize (Hm s). destruct (m s) as [s1 [a|e]]; cbn [fst] in *; [|done].
  apply (wallet_sent_trans s s1 _ [] []); [done|apply Hk].
Qed.

(** A computation that sends exactly [t]. *)
Definition sends (t : contract_write) {A} (m : act (wallet_screen P) A) : Prop := forall s, sent s (fst (m s)) [t].

Lemma sends_then {A} t (k : string -> act (wallet_screen P) A) :
  (forall a, quiet (k a)) -> sends t (act_bind (write wd t) k).
Proof.
  intros Hk s. unfold act_bind, write, ask. destruct (wd_write wd _ t) as [a|e]; cbn [fst snd].
  - apply (wallet_sent_trans s (waited wd (Wrote t) s) _ [t] []); [|apply Hk].
    apply wallet_sent_waited_wrote, wallet_sent_refl.
  - apply wallet_sent_waited_wrote, wallet_sent_refl.
Qed.

(** With what it does after an exception. *)
Lemma sends_catch {A} t (m : act (wallet_screen P) A) f :
  sends t m -> (forall e, quiet (f e)) -> sends t (act_catch m f).
Proof.
  intros Hm Hf s. specialize (Hm s). unfold act_catch. destruct (m s) as [s1 [a|e]]; cbn [fst] in *; [done|].
  rewrite <- (app_nil_r [t]). eapply wallet_sent_trans; [exact Hm|apply Hf].
Qed.
End sending.

Create HintDb wallet.
#[export] Hint Resolve wallet_quiet_done wallet_quiet_set wallet_quiet_bind wallet_sends_quiet wallet_sends_write wallet_quiet_then wallet_then_quiet : wallet.

(** ** Transactions of the router *)

Section calls.
Open Scope bool_scope.

(** The liquidity call a transaction makes, by name and arguments. *)
Definition liquidity_call_of (t : contract_write) : option liquidity_call :=
  let named name := String.eqb (cw_functionName t) name in
  let v := address_value in
  match cw_args t, cw_value t with
  | [ArgAddress a; ArgAddress b; ArgUint x; ArgUint y; ArgUint m; ArgUint n; ArgAddress to; ArgUint d], None =>
    if named "addLiquidity" then Some (AddLiquidity (v a) (v b) x y m n (v to) d) else None
  | [ArgAddress a; ArgUint x; ArgUint m; ArgUint n; ArgAddress to; ArgUint d], Some value =>
    if named "addLiquidityETH" then Some (AddLiquidityETH value (v a) x m n (v to) d) else None
  | [ArgAddress a; ArgAddress b; ArgUint l; ArgUint m; ArgUint n; ArgAddress to; ArgUint d], None =>
    if named "removeLiquidity" then Some (RemoveLiquidity (v a) (v b) l m n (v to) d) else None
  | [ArgAddress a; ArgUint l; ArgUint m; ArgUint n; ArgAddress to; ArgUint d], None =>
    if named "removeLiquidityETH" then Some (RemoveLiquidityETH (v a) l m n (v to) d) else None
  | _, _ => None
  end.
End calls.
