(* ===== verification/LiquidityPage.v ===== *)
(** * The page that adds liquidity (frontend/src/app/portfolio/liquidity/page.tsx)

    A render: what the page derives from its state, its hooks and the configuration; the
    handlers of its fields, its effects, and the handler of its button, which approves a
    token or deposits at the router. *)

From S2P Require Import Prelude JsString JsNumber JsValue JsError LimitOrders Amounts PageMonad.
From S2P Require Import RouterContract RouterLiquidity RouterShares FrontendConfig SwapQuotes SwapWidget Pools WalletPage.
From Stdlib Require Import Ascii.
Open Scope string_scope.
Open Scope Z_scope.

Inductive Step := step_1 | step_2.
#[export] Instance Step_eq_dec : EqDecision Step.
Proof. solve_decision. Defined.
Inductive SelectorTarget := select_a | select_b.
Inductive LiquidityAction := approve_a | approve_b | add.
#[export] Instance LiquidityAction_eq_dec : EqDecision LiquidityAction.
Proof. solve_decision. Defined.

(** The replacement of a trailing point with zeros, or of trailing zeros, in a text with a
    point. *)
Definition zeros_here (s : string) : bool :=
  match s with
  | EmptyString => false
  | String c r => all_zeros s || (Ascii.eqb c "." && str_nonempty r && all_zeros r)
  end.
Fixpoint drop_zeros (s : string) : string :=
  match s with
  | EmptyString => EmptyString
  | String c r => if zeros_here s then EmptyString else String c (drop_zeros r)
  end.

Definition linked_text (formatted : string) : string :=
  if includes formatted "." then drop_zeros formatted else formatted.
Definition formatLinkedAmount (formatUnits : Z -> Z -> string) (value decimals : Z) : string :=
  linked_text (formatUnits value decimals).

Definition findTokenByRouteAddress (options : list SwapTokenOption) (routeAddress : string) : option SwapTokenOption :=
  find_first (fun token => String.eqb (to_lower (st_routeAddress token)) (to_lower routeAddress)) options.

(** ** The state *)

Record liquidity_form := {
  lf_tokenA : option SwapTokenOption;
  lf_tokenB : option SwapTokenOption;
  lf_amountA : string;
  lf_amountB : string;
}.

Record liquidity_status := {
  lt_txError : option string;
  lt_pendingAction : option LiquidityAction;
  lt_submittedTx : option (string * LiquidityAction);
  lt_resultModal : option (modal_kind * string);
}.

Record liquidity_view := {
  lv_step : Step;
  lv_selectorTarget : option SelectorTarget;
  lv_resetModalOpen : bool;
  lv_settingsOpen : bool;
  lv_displayPair : option PoolViewModel;
}.

(** The settings are a slippage, its mode and a deadline, as in the swap widget. *)
Record liquidity_page := {
  lp_form :> liquidity_form;
  lp_settings :> swap_settings;
  lp_status :> liquidity_status;
  lp_view :> liquidity_view;
}.

(** What the hooks give a render: the connection, the query of the address, and what was
    read of the pair, of the balances and of the allowances to the router. *)
Record liquidity_hooks := {
  q_isZh : bool;
  q_mounted : bool;
  q_chainId : Z;
  q_publicClient : bool;
  q_address : option string;
  q_isConnected : bool;
  q_openConnectModal : bool;
  q_isWritePending : bool;
  q_isConfirming : bool;
  q_isConfirmed : bool;
  q_searchParams : string -> option string;
  q_pairAddress : option string;
  q_reserves : option (Z * Z);
  q_token0 : option string;
  q_balanceA : option Z;
  q_balanceB : option Z;
  q_allowanceA : option Z;
  q_allowanceB : option Z;
}.

Section render.
Variable lib : libraries.
Variable h : liquidity_hooks.
Variable p : liquidity_page.

Definition say (zh en : string) : string := if q_isZh h then zh else en.
Definition effectiveChainId : option Z := if q_mounted h then Some (q_chainId h) else None.
Definition tokens : list SwapTokenOption := getSwapTokenOptions (fun n => lib_contract lib n effectiveChainId).
Definition supportedChain : bool := lib_supported lib effectiveChainId.
(** The configured router, and the same where it is tested to be there. *)
Definition routerAddress : option string := lib_contract lib "FluxSwapRouter" effectiveChainId.
Definition router : option string := nonempty_text routerAddress.
Definition localGasOverride : option Z := getLocalGasOverride effectiveChainId 8000000.

(** ** The tokens *)

Definition lower_route (t : SwapTokenOption) : string := to_lower (st_routeAddress t).
Definition same_route (t : SwapTokenOption) (o : option SwapTokenOption) : bool :=
  match o with Some u => String.eqb (lower_route t) (lower_route u) | None => false end.

Definition prefilled (parameter : string) : option SwapTokenOption :=
  match nonempty_text (to_lower <$> q_searchParams h parameter) with
  | Some requested => find_first (fun token => String.eqb (lower_route token) requested) tokens
  | None => None
  end.
Definition prefilledTokenA : option SwapTokenOption := prefilled "tokenA".
Definition prefilledTokenB : option SwapTokenOption := prefilled "tokenB".

Definition or_else {A} (a b : option A) : option A := match a with Some x => Some x | None => b end.
Definition initialTokenA : option SwapTokenOption :=
  or_else prefilledTokenA
    (or_else (find_first (fun token => String.eqb (st_symbol token) "ETH") tokens) (head tokens)).
Definition initialTokenB : option SwapTokenOption :=
  match prefilledTokenB with
  | Some t => if same_route t initialTokenA then None else Some t
  | None => None
  end.

Definition orderedTokens : option SwapTokenOption * option SwapTokenOption :=
  sortPairTokens (lf_tokenA p) (lf_tokenB p).
Definition orderedTokenA : option SwapTokenOption := fst orderedTokens.
Definition orderedTokenB : option SwapTokenOption := snd orderedTokens.
Definition pairArgs : string * string :=
  match orderedTokenA, orderedTokenB with
  | Some a, Some b => (st_routeAddress a, st_routeAddress b)
  | _, _ => (zeroAddress, zeroAddress)
  end.

Definition selectableForA : list SwapTokenOption :=
  keep (fun token => other_symbol (st_symbol token) (lf_tokenB p)) tokens.
Definition selectableForB : list SwapTokenOption :=
  keep (fun token => other_symbol (st_symbol token) (lf_tokenA p)) tokens.

Definition displayTokens : option SwapTokenOption * option SwapTokenOption :=
  match lv_displayPair p with
  | None => (orderedTokenA, orderedTokenB)
  | Some pool =>
    (or_else (findTokenByRouteAddress tokens (tv_id (pv_token0 pool))) orderedTokenA,
     or_else (findTokenByRouteAddress tokens (tv_id (pv_token1 pool))) orderedTokenB)
  end.
Definition pairLabel : string :=
  match displayTokens with
  | (Some a, Some b) => st_symbol a ++ " / " ++ st_symbol b
  | _ => "--"
  end.

Definition canContinue : bool := bool_decide (is_Some (lf_tokenA p)) && bool_decide (is_Some (lf_tokenB p)).

Definition different_routes (a b : option SwapTokenOption) : bool :=
  negb (bool_decide ((lower_route <$> a) = (lower_route <$> b))).
Definition canReset : bool :=
  negb (bool_decide (lv_step p = step_1))
  || different_routes (lf_tokenA p) initialTokenA || different_routes (lf_tokenB p) initialTokenB
  || str_nonempty (trim (lf_amountA p)) || str_nonempty (trim (lf_amountB p))
  || match w_slippageMode p with slippage_auto => false | slippage_custom => true end
  || negb (String.eqb (trim (w_slippage p)) "0.5") || negb (String.eqb (trim (w_deadline p)) "30").

(** ** The amounts *)

Definition parsedAmountA : option Z := parse lib (lf_amountA p) (decimals_of orderedTokenA).
Definition parsedAmountB : option Z := parse lib (lf_amountB p) (decimals_of orderedTokenB).
Definition parsedDeadlineMinutes : Z :=
  at_least_one (if str_nonempty (w_deadline p) then w_deadline p else "30") 30.

Definition normalizedPairAddress : option string :=
  match nonempty_text (q_pairAddress h) with
  | Some a => if String.eqb a zeroAddress then None else Some a
  | None => None
  end.

(** The reserves in the order of the tokens. *)
Definition ordered_reserves : option (Z * Z) :=
  match orderedTokenA, orderedTokenB, q_reserves h, nonempty_text (q_token0 h) with
  | Some a, Some _, Some (r0, r1), Some token0 =>
    Some (if String.eqb (to_lower token0) (lower_route a) then (r0, r1) else (r1, r0))
  | _, _, _, _ => None
  end.
Definition reserveA : option Z := fst <$> ordered_reserves.
Definition reserveB : option Z := snd <$> ordered_reserves.
Definition canLinkAmounts : bool := positive_amount reserveA && positive_amount reserveB.
Definition hasValidAmounts : bool := positive_amount parsedAmountA && positive_amount parsedAmountB.

Definition normalizedSlippage : string := normalizeCustomSlippage (w_slippage p).
Definition liquiditySlippage : string :=
  match w_slippageMode p with slippage_auto => "2.5" | slippage_custom => normalizedSlippage end.
(** [parsePercentToBps] never throws ([parsePercentToBps_range]). *)
Definition liquidityBps : Z := default 0 (parsePercentToBps liquiditySlippage).
Definition customSlippageDisplay : string := normalizedSlippage ++ "%".

Definition least (amount : Z) : Z := Z.quot (amount * (10000 - liquidityBps)) 10000.
Definition minAmountA : option Z := least <$> parsedAmountA.
Definition minAmountB : option Z := least <$> parsedAmountB.
Definition minimum_display (amount : option Z) (t : option SwapTokenOption) : string :=
  match amount, t with
  | Some m, Some t => formatDisplayAmountDown (Some (lib_formatUnits lib m (st_decimals t))) 6
  | _, _ => "--"
  end.
Definition minAmountADisplay : string := minimum_display minAmountA orderedTokenA.
Definition minAmountBDisplay : string := minimum_display minAmountB orderedTokenB.

Definition insufficientBalanceA : bool := over parsedAmountA (q_balanceA h).
Definition insufficientBalanceB : bool := over parsedAmountB (q_balanceB h).

Definition needs_allowance (t : option SwapTokenOption) (amount allowance : option Z) : bool :=
  hasValidAmounts
  && match t, routerAddress, amount with
     | Some t, Some _, Some x =>
       bool_decide (st_kind t = erc20) && bool_decide (is_Some (st_address t))
       && match allowance with Some a => a <? x | None => true end
     | _, _, _ => false
     end.
Definition needsAllowanceA : bool := needs_allowance orderedTokenA parsedAmountA (q_allowanceA h).
Definition needsAllowanceB : bool := needs_allowance orderedTokenB parsedAmountB (q_allowanceB h).

(** ** The button *)

Definition liquidityAction : option LiquidityAction :=
  if negb (q_mounted h) || negb (q_isConnected h) then None
  else if needsAllowanceA then Some approve_a
  else if needsAllowanceB then Some approve_b
  else if hasValidAmounts then Some add else None.
Definition isSubmitting : bool := q_isWritePending h || q_isConfirming h.

Definition token_symbol (t : option SwapTokenOption) : string :=
  match t with Some t => st_symbol t | None => "" end.
Definition tokens_chosen : bool := bool_decide (is_Some orderedTokenA) && bool_decide (is_Some orderedTokenB).

Definition actionLabel : string :=
  if negb (q_mounted h) || negb (q_isConnected h) then say "连接钱包" "Connect Wallet"
  else if negb supportedChain || negb (bool_decide (is_Some router))
  then say "当前网络暂不支持" "Unsupported network"
  else if negb tokens_chosen then say "请选择代币" "Select tokens"
  else if negb hasValidAmounts then say "请输入有效金额" "Enter valid amounts"
  else if insufficientBalanceA || insufficientBalanceB then say "余额不足" "Insufficient balance"
  else match liquidityAction with
  | Some approve_a => say "授权 " "Approve " ++ token_symbol orderedTokenA
  | Some approve_b => say "授权 " "Approve " ++ token_symbol orderedTokenB
  | _ => say "添加流动性" "Add Liquidity"
  end.

Definition actionDisabled : bool :=
  q_mounted h && q_isConnected h
  && (negb supportedChain || negb (bool_decide (is_Some router)) || negb tokens_chosen || negb hasValidAmounts
      || insufficientBalanceA || insufficientBalanceB
      || (needsAllowanceA && negb (bool_decide (is_Some (q_allowanceA h))))
      || (needsAllowanceB && negb (bool_decide (is_Some (q_allowanceB h))))).

Definition submitted_action : option LiquidityAction := snd <$> lt_submittedTx p.
Definition is_approval (k : option LiquidityAction) : bool :=
  match k with Some approve_a | Some approve_b => true | _ => false end.
Definition currentTxAction : option LiquidityAction := or_else submitted_action (lt_pendingAction p).

Definition statusMessage : option string :=
  match nonempty_text (lt_txError p) with
  | Some message => Some message
  | None =>
    let submitted := match lt_submittedTx p with Some (hash, _) => str_nonempty hash | None => false end in
    if q_isConfirmed h
    then Some (if is_approval submitted_action then say "授权已确认" "Approval confirmed"
               else say "添加流动性交易已确认" "Add liquidity transaction confirmed")
    else if submitted && q_isConfirming h
    then Some (if is_approval currentTxAction then say "授权交易确认中..." "Approval confirming..."
               else say "添加流动性交易确认中..." "Add liquidity confirming...")
    else if submitted
    then Some (if is_approval currentTxAction then say "授权交易已提交" "Approval submitted"
               else say "添加流动性交易已提交" "Add liquidity submitted")
    else None
  end.
End render.

(** ** Changes of the state *)

Definition with_form (f : liquidity_form) (p : liquidity_page) : liquidity_page :=
  {| lp_form := f; lp_settings := p; lp_status := p; lp_view := p |}.
Definition with_settings (s : swap_settings) (p : liquidity_page) : liquidity_page :=
  {| lp_form := p; lp_settings := s; lp_status := p; lp_view := p |}.
Definition with_status (s : liquidity_status) (p : liquidity_page) : liquidity_page :=
  {| lp_form := p; lp_settings := p; lp_status := s; lp_view := p |}.
Definition with_view (v : liquidity_view) (p : liquidity_page) : liquidity_page :=
  {| lp_form := p; lp_settings := p; lp_status := p; lp_view := v |}.

Definition set_tokens (a b : option SwapTokenOption) (p : liquidity_page) : liquidity_page :=
  with_form {| lf_tokenA := a; lf_tokenB := b; lf_amountA := lf_amountA p; lf_amountB := lf_amountB p |} p.
Definition set_amounts (a b : string) (p : liquidity_page) : liquidity_page :=
  with_form {| lf_tokenA := lf_tokenA p; lf_tokenB := lf_tokenB p; lf_amountA := a; lf_amountB := b |} p.
Definition set_slippage (mode : SwapSlippageMode) (value : string) (p : liquidity_page) : liquidity_page :=
  with_settings {| w_slippage := value; w_slippageMode := mode; w_deadline := w_deadline p |} p.
Definition set_deadline (value : string) (p : liquidity_page) : liquidity_page :=
  with_settings {| w_slippage := w_slippage p; w_slippageMode := w_slippageMode p; w_deadline := value |} p.
Definition set_txError (e : option string) (p : liquidity_page) : liquidity_page :=
  with_status {| lt_txError := e; lt_pendingAction := lt_pendingAction p; lt_submittedTx := lt_submittedTx p;
                 lt_resultModal := lt_resultModal p |} p.
Definition set_pendingAction (k : option LiquidityAction) (p : liquidity_page) : liquidity_page :=
  with_status {| lt_txError := lt_txError p; lt_pendingAction := k; lt_submittedTx := lt_submittedTx p;
                 lt_resultModal := lt_resultModal p |} p.
Definition set_submittedTx (t : option (string * LiquidityAction)) (p : liquidity_page) : liquidity_page :=
  with_status {| lt_txError := lt_txError p; lt_pendingAction := lt_pendingAction p; lt_submittedTx := t;
                 lt_resultModal := lt_resultModal p |} p.
Definition set_resultModal (m : option (modal_kind * string)) (p : liquidity_page) : liquidity_page :=
  with_status {| lt_txError := lt_txError p; lt_pendingAction := lt_pendingAction p;
                 lt_submittedTx := lt_submittedTx p; lt_resultModal := m |} p.
Definition set_view (step : Step) (target : option SelectorTarget) (p : liquidity_page) : liquidity_page :=
  with_view {| lv_step := step; lv_selectorTarget := target; lv_resetModalOpen := lv_resetModalOpen p;
               lv_settingsOpen := lv_settingsOpen p; lv_displayPair := lv_displayPair p |} p.
Definition set_open (reset settings : bool) (p : liquidity_page) : liquidity_page :=
  with_view {| lv_step := lv_step p; lv_selectorTarget := lv_selectorTarget p; lv_resetModalOpen := reset;
               lv_settingsOpen := settings; lv_displayPair := lv_displayPair p |} p.
Definition set_displayPair (pool : option PoolViewModel) (p : liquidity_page) : liquidity_page :=
  with_view {| lv_step := lv_step p; lv_selectorTarget := lv_selectorTarget p;
               lv_resetModalOpen := lv_resetModalOpen p; lv_settingsOpen := lv_settingsOpen p;
               lv_displayPair := pool |} p.

Definition initial_settings : swap_settings :=
  {| w_slippage := "0.5"; w_slippageMode := slippage_auto; w_deadline := "30" |}.
Definition no_status : liquidity_status :=
  {| lt_txError := None; lt_pendingAction := None; lt_submittedTx := None; lt_resultModal := None |}.
Definition initial_page : liquidity_page :=
  {| lp_form := {| lf_tokenA := None; lf_tokenB := None; lf_amountA := ""; lf_amountB := "" |};
     lp_settings := initial_settings; lp_status := no_status;
     lp_view := {| lv_step := step_1; lv_selectorTarget := None; lv_resetModalOpen := false;
                   lv_settingsOpen := false; lv_displayPair := None |} |}.

Section handlers.
Variable lib : libraries.
Variable h : liquidity_hooks.
Implicit Type p : liquidity_page.

(** ** Effects *)

Definition chain_effect p : liquidity_page :=
  set_view step_1 None (set_displayPair None (set_amounts "" "" (set_tokens None None p))).

Definition tokenA_effect p : liquidity_page :=
  match lf_tokenA p, initialTokenA lib h with
  | None, Some t => if q_mounted h then set_tokens (Some t) (lf_tokenB p) p else p
  | _, _ => p
  end.
Definition tokenB_effect p : liquidity_page :=
  match lf_tokenB p, initialTokenB lib h with
  | None, Some t => if q_mounted h then set_tokens (lf_tokenA p) (Some t) p else p
  | _, _ => p
  end.

(** The tokens a run of the effect asks a pool for; without, it clears the one displayed. *)
Definition pool_effect_request p : option (string * string) :=
  match orderedTokenA p, orderedTokenB p with
  | Some a, Some b => if supportedChain lib h then Some (st_routeAddress a, st_routeAddress b) else None
  | _, _ => None
  end.
Definition pool_effect_start p : liquidity_page :=
  match pool_effect_request p with Some _ => p | None => set_displayPair None p end.
Definition pool_effect_reply (cancelled : bool) (reply : res js_error (option PoolViewModel)) p : liquidity_page :=
  if cancelled then p
  else match reply with Ok pool => set_displayPair pool p | Throw _ => set_displayPair None p end.

Definition confirmed_effect p : liquidity_page :=
  if q_isConfirmed h && bool_decide (submitted_action p = Some add)
  then set_resultModal (Some (modal_success, say h "添加流动性成功。" "Liquidity added successfully.")) p
  else p.

(** A press outside the settings closes them. *)
Definition pointer_effect (inside : bool) p : liquidity_page :=
  if lv_settingsOpen p && negb inside then set_open (lv_resetModalOpen p) false p else p.

(** ** Fields *)

Definition resetForm p : liquidity_page :=
  {| lp_form := {| lf_tokenA := initialTokenA lib h; lf_tokenB := initialTokenB lib h;
                   lf_amountA := ""; lf_amountB := "" |};
     lp_settings := initial_settings; lp_status := no_status;
     lp_view := {| lv_step := step_1; lv_selectorTarget := None; lv_resetModalOpen := false;
                   lv_settingsOpen := false; lv_displayPair := lv_displayPair p |} |}.

Definition updateCustomSlippage (nextValue : string) p : liquidity_page :=
  if String.eqb nextValue "" || DECIMAL_INPUT_REGEX nextValue
  then set_slippage slippage_custom nextValue p else p.
Definition activateCustomSlippage p : liquidity_page :=
  set_slippage slippage_custom (normalizeCustomSlippage (w_slippage p)) p.
Definition commitCustomSlippage p : liquidity_page :=
  set_slippage (w_slippageMode p) (normalizeCustomSlippage (w_slippage p)) p.

(** [Math.min(30, Math.max(1, minutes))] *)
Definition clamp_minutes (minutes : Z) : string := dec (Z.min 30 (Z.max 1 minutes)).

Definition updateDeadline (nextValue : string) p : liquidity_page :=
  if String.eqb nextValue "" then set_deadline "" p
  else if negb (all_digits nextValue) then p
  else
    let n := default 1 (parse_int nextValue) in
    set_deadline (clamp_minutes (if n =? 0 then 1 else n)) p.

Definition adjustDeadline (delta : Z) p : liquidity_page :=
  let text := if str_nonempty (w_deadline p) then w_deadline p else "30" in
  set_deadline (clamp_minutes (default 30 (parse_int text) + delta)) p.

(** The text of the other amount at the ratio of the reserves. *)
Definition linked (value : string) (from to : option SwapTokenOption) (reserveFrom reserveTo : option Z)
  : option string :=
  match from, to, reserveFrom, reserveTo with
  | Some f, Some t, Some rf, Some rt =>
    match parse lib value (st_decimals f) with
    | Some parsedValue => Some (formatLinkedAmount (lib_formatUnits lib) (Z.quot (parsedValue * rt) rf) (st_decimals t))
    | None => None
    end
  | _, _, _, _ => None
  end.

Definition handleAmountAChange (nextValue : string) p : liquidity_page :=
  if negb (DECIMAL_INPUT_REGEX nextValue) then p
  else if String.eqb (trim nextValue) "" then set_amounts nextValue "" p
  else if negb (canLinkAmounts h p) then set_amounts nextValue (lf_amountB p) p
  else set_amounts nextValue
         (default (lf_amountB p)
            (linked nextValue (orderedTokenA p) (orderedTokenB p) (reserveA h p) (reserveB h p))) p.

Definition handleAmountBChange (nextValue : string) p : liquidity_page :=
  if negb (DECIMAL_INPUT_REGEX nextValue) then p
  else if String.eqb (trim nextValue) "" then set_amounts "" nextValue p
  else if negb (canLinkAmounts h p) then set_amounts (lf_amountA p) nextValue p
  else set_amounts
         (default (lf_amountA p)
            (linked nextValue (orderedTokenB p) (orderedTokenA p) (reserveB h p) (reserveA h p))) nextValue p.

Definition select_token (target : SelectorTarget) (token : SwapTokenOption) p : liquidity_page :=
  set_view (lv_step p) None
    match target with
    | select_a => set_tokens (Some token) (lf_tokenB p) p
    | select_b => set_tokens (lf_tokenA p) (Some token) p
    end.

(** The url the page leaves to, if it leaves. *)
Definition closeResultModal p : option string * liquidity_page :=
  match lt_resultModal p with
  | Some (modal_success, _) => (Some "/portfolio", p)
  | _ => (None, set_resultModal None p)
  end.
End handlers.

(** ** The button *)

Open Scope act_scope.

Section clicked.
Variable wd : wallet_world liquidity_page.
Variable lib : libraries.
Variable h : liquidity_hooks.
(** The state of the render that was clicked. *)
Variable p : liquidity_page.

Notation act := (act (wallet_screen liquidity_page)).

Definition transaction (address functionName : string) (args : list abi_arg) (value : option Z) : contract_write :=
  {| cw_address := address; cw_functionName := functionName; cw_args := args; cw_value := value;
     cw_chainId := q_chainId h; cw_gas := localGasOverride h |}.

Definition submit (kind : LiquidityAction) (t : contract_write) : act unit :=
  await txHash <- write wd t;
  set_page (set_submittedTx (Some (txHash, kind))).

Definition approve_token (kind : LiquidityAction) (t : option SwapTokenOption) (spender : string) : act unit :=
  match t with
  | Some t => match nonempty_text (st_address t) with
              | Some token => submit kind (transaction token "approve" [ArgAddress spender; ArgUint maxUint256] None)
              | None => return_
              end
  | None => return_
  end.

Definition is_native (t : SwapTokenOption) : bool := bool_decide (st_kind t = native).

Definition deposit_native (router address : string) (a b : SwapTokenOption) (amountA amountB deadline : Z) : act unit :=
  let nativeIsTokenA := is_native a in
  let nativeAmount := if nativeIsTokenA then amountA else amountB in
  let tokenAmount := if nativeIsTokenA then amountB else amountA in
  let minA := default 0 (minAmountA lib p) in
  let minB := default 0 (minAmountB lib p) in
  let amountETHMin := if nativeIsTokenA then minA else minB in
  let amountTokenMin := if nativeIsTokenA then minB else minA in
  let erc20Token := if nativeIsTokenA then b else a in
  match nonempty_text (st_address erc20Token) with
  | Some token =>
    submit add (transaction router "addLiquidityETH"
      [ArgAddress token; ArgUint tokenAmount; ArgUint amountTokenMin; ArgUint amountETHMin; ArgAddress address;
       ArgUint deadline] (Some nativeAmount))
  | None => return_
  end.

Definition deposit_tokens (router address : string) (a b : SwapTokenOption) (amountA amountB deadline : Z) : act unit :=
  match nonempty_text (st_address a), nonempty_text (st_address b) with
  | Some tokenA, Some tokenB =>
    submit add (transaction router "addLiquidity"
      [ArgAddress tokenA; ArgAddress tokenB; ArgUint amountA; ArgUint amountB; ArgUint (default 0 (minAmountA lib p));
       ArgUint (default 0 (minAmountB lib p)); ArgAddress address; ArgUint deadline] None)
  | _, _ => return_
  end.

Definition add_liquidity (router address : string) : act unit :=
  match orderedTokenA p, orderedTokenB p, parsedAmountA lib p, parsedAmountB lib p with
  | Some a, Some b, Some amountA, Some amountB =>
    if negb (q_publicClient h) || (amountA =? 0) || (amountB =? 0) then return_
    else
      await block <- getBlock wd;
      let deadline := cb_timestamp block + parsedDeadlineMinutes p * 60 in
      if is_native a || is_native b
      then deposit_native router address a b amountA amountB deadline
      else deposit_tokens router address a b amountA amountB deadline
  | _, _, _, _ => return_
  end.

Definition perform (kind : LiquidityAction) (router address : string) : act unit :=
  match kind with
  | approve_a => approve_token approve_a (orderedTokenA p) router
  | approve_b => approve_token approve_b (orderedTokenB p) router
  | add => add_liquidity router address
  end.

Definition report_failure (kind : LiquidityAction) (error : js_error) : act unit :=
  let errorMessage := wd_errorMessage wd error
    match kind with add => "你已取消本次交易" | _ => "你已取消本次授权" end in
  run set_page (set_txError (Some errorMessage));
  if bool_decide (kind = add) then set_page (set_resultModal (Some (modal_error, errorMessage))) else return_.

Definition handleLiquidityAction : act unit :=
  if negb (q_mounted h) || negb (q_isConnected h)
  then if q_openConnectModal h then emit ConnectOpened else return_
  else match liquidityAction lib h p, nonempty_text (q_address h), router lib h with
  | Some kind, Some address, Some router =>
    run set_page (set_txError None);
    run set_page (set_pendingAction (Some kind));
    run set_page (set_submittedTx None);
    act_catch (perform kind router address) (report_failure kind)
  | _, _, _ => return_
  end.

(** A press: the browser drops it when the button is disabled. *)
Definition press : act unit := if actionDisabled lib h p then return_ else handleLiquidityAction.
End clicked.

(** ** The page over time *)

Inductive page_event :=
| AmountATyped (value : string)
| AmountBTyped (value : string)
| SlippageTyped (value : string)
| SlippageFocused
| SlippageLeft
| AutoClicked
| DeadlineTyped (value : string)
| DeadlineStepped (delta : Z)
| SelectorOpened (target : SelectorTarget)
| TokenChosen (target : SelectorTarget) (symbol : string)
| SelectorClosed
| ContinueClicked
| BackClicked
| ResetAsked
| ResetCancelled
| ResetConfirmed
| SettingsToggled
| PointerPressed (inside : bool)
| ModalClosed
| ReceiptSeen
| PoolAsked
| PoolReplied (cancelled : bool) (reply : res js_error (option PoolViewModel))
| StatusSet (s : liquidity_status).

Definition handle_event (lib : libraries) (h : liquidity_hooks) (e : page_event) (p : liquidity_page)
  : liquidity_page :=
  match e with
  | AmountATyped v => handleAmountAChange lib h v p
  | AmountBTyped v => handleAmountBChange lib h v p
  | SlippageTyped v => updateCustomSlippage v p
  | SlippageFocused => activateCustomSlippage p
  | SlippageLeft => commitCustomSlippage p
  | AutoClicked => set_slippage slippage_auto (w_slippage p) p
  | DeadlineTyped v => updateDeadline v p
  | DeadlineStepped d => adjustDeadline d p
  | SelectorOpened target => set_view (lv_step p) (Some target) p
  | TokenChosen target symbol =>
    let selectable := match target with select_a => selectableForA lib h p | select_b => selectableForB lib h p end in
    match find_first (fun token => String.eqb (st_symbol token) symbol) selectable with
    | Some token => select_token target token p
    | None => p
    end
  | SelectorClosed => set_view (lv_step p) None p
  | ContinueClicked => if canContinue p then set_view step_2 (lv_selectorTarget p) p else p
  | BackClicked => set_view step_1 (lv_selectorTarget p) p
  | ResetAsked => if canReset lib h p then set_open true (lv_settingsOpen p) p else p
  | ResetCancelled => set_open false (lv_settingsOpen p) p
  | ResetConfirmed => resetForm lib h p
  | SettingsToggled => set_open (lv_resetModalOpen p) (negb (lv_settingsOpen p)) p
  | PointerPressed inside => pointer_effect inside p
  | ModalClosed => snd (closeResultModal p)
  | ReceiptSeen => confirmed_effect h p
  | PoolAsked => pool_effect_start lib h p
  | PoolReplied cancelled reply => pool_effect_reply cancelled reply p
  | StatusSet s => with_status s p
  end.

(** The effects on the tokens after a render, given the chain of the render before. *)
Definition commit (lib : libraries) (chain : option Z) (h : liquidity_hooks) (p : liquidity_page) : liquidity_page :=
  tokenB_effect lib h (tokenA_effect lib h
    (if bool_decide (chain = effectiveChainId h) then p else chain_effect p)).

(** Each event meets the render of its time and the effects before it. *)
Definition run_page (lib : libraries) (l : list (liquidity_hooks * page_event)) (s : option Z * liquidity_page)
  : option Z * liquidity_page :=
  foldl (fun s he => (effectiveChainId (fst he), handle_event lib (fst he) (snd he) (commit lib (fst s) (fst he) (snd s)))) s l.

(** ** The tokens and the settings *)

(** The chosen tokens are two different tokens of the chain. *)
Record tokens_ok (lib : libraries) (h : liquidity_hooks) (p : liquidity_page) : Prop := {
  tk_A : forall a, lf_tokenA p = Some a -> a ∈ tokens lib h;
  tk_B : forall b, lf_tokenB p = Some b -> b ∈ tokens lib h;
  tk_different : forall a b, lf_tokenA p = Some a -> lf_tokenB p = Some b -> st_symbol a <> st_symbol b;
}.

(** The effects have nothing left to choose. *)
Definition settled (lib : libraries) (h : liquidity_hooks) (p : liquidity_page) : Prop :=
  q_mounted h = true ->
  (lf_tokenA p = None -> initialTokenA lib h = None) /\ (lf_tokenB p = None -> initialTokenB lib h = None).

Definition deadline_ok (p : liquidity_page) : Prop :=
  w_deadline p = "" \/ exists k, 1 <= k <= 30 /\ w_deadline p = dec k.

Definition page_ok (lib : libraries) (h : liquidity_hooks) (p : liquidity_page) : Prop :=
  tokens_ok lib h p /\ settled lib h p /\ deadline_ok p.

Section invariant.
Variable lib : libraries.
Implicit Types p : liquidity_page.

Lemma initialA_offered h t : initialTokenA lib h = Some t -> t ∈ tokens lib h.
Proof.
  unfold initialTokenA, or_else, prefilledTokenA, prefilled. intros H.
  destruct (nonempty_text _); [destruct (find_first (fun token => String.eqb (lower_route token) _) _) eqn:E|].
  1: injection H as <-; by apply find_first_Some in E as [? _].
  all: destruct (find_first (fun token => String.eqb (st_symbol token) "ETH") _) eqn:E';
    [injection H as <-; by apply find_first_Some in E' as [? _]|];
    destruct (tokens lib h); [done|]; injection H as <-; left.
Qed.

Lemma initialB_offered h t :
  initialTokenB lib h = Some t -> t ∈ tokens lib h /\ same_route t (initialTokenA lib h) = false.
Proof.
  unfold initialTokenB, prefilledTokenB, prefilled. intros H.
  destruct (nonempty_text _); [|done]. destruct (find_first _ _) as [u|] eqn:E; [|done].
  destruct (same_route u _) eqn:Es; [done|]. injection H as <-. by apply find_first_Some in E as [? _].
Qed.

(** Tokens of different routes have different symbols. *)
Lemma initial_tokens_differ h a b :
  initialTokenA lib h = Some a -> initialTokenB lib h = Some b -> st_symbol a <> st_symbol b.
Proof.
  intros Ha Hb He. apply initialB_offered in Hb as [Hb Hr]. rewrite Ha in Hr. cbn [same_route] in Hr.
  pose proof (initialA_offered _ _ Ha) as Hia. unfold tokens in Hb, Hia.
  destruct (options_same_symbol _ _ _ Hia Hb He) as [_ E].
  unfold lower_route in Hr. by rewrite E, String.eqb_refl in Hr.
Qed.

Lemma tokens_ok_tokens h p p' :
  lf_tokenA p' = lf_tokenA p -> lf_tokenB p' = lf_tokenB p -> tokens_ok lib h p -> tokens_ok lib h p'.
Proof. intros Ea Eb [H1 H2 H3]. constructor; by rewrite ?Ea, ?Eb. Qed.

Lemma page_ok_same h p p' :
  lf_tokenA p' = lf_tokenA p -> lf_tokenB p' = lf_tokenB p -> w_deadline p' = w_deadline p ->
  page_ok lib h p -> page_ok lib h p'.
Proof.
  intros Ea Eb Ed (H1 & H2 & H3). unfold page_ok, settled, deadline_ok in *. rewrite Ea, Eb, Ed.
  split; [by apply (tokens_ok_tokens h p)|done].
Qed.

Lemma clamped_ok h k p : page_ok lib h p -> page_ok lib h (set_deadline (clamp_minutes k) p).
Proof.
  intros (H1 & H2 & _). split; [by apply (tokens_ok_tokens h p)|]. split; [done|]. right. exists (Z.min 30 (Z.max 1 k)). split; [lia|done].
Qed.

(** The state the effects make of an empty form. *)
Lemma initial_ok h :
  tokens_ok lib h (set_tokens (initialTokenA lib h) (initialTokenB lib h) initial_page).
Proof.
  constructor; cbn; [apply initialA_offered|intros b Hb; by apply initialB_offered in Hb as [? _]|].
  by apply initial_tokens_differ.
Qed.

Lemma event_keeps_page h e p : page_ok lib h p -> page_ok lib h (handle_event lib h e p).
Proof.
  intros Hp. destruct e; cbn [handle_event];
    try (revert Hp; apply page_ok_same;
         unfold handleAmountAChange, handleAmountBChange, updateCustomSlippage, pointer_effect, confirmed_effect,
           closeResultModal, pool_effect_start, pool_effect_reply;
         repeat case_match; reflexivity).
  - unfold updateDeadline. destruct (String.eqb value ""); [destruct Hp as (? & ? & _); split; [by apply (tokens_ok_tokens h p)|split; [done|by left]]|].
    destruct (negb _); [done|by apply clamped_ok].
  - by apply clamped_ok.
  - destruct (find_first _ _) as [t|] eqn:E; [|done]. apply find_first_Some in E as [Hin _].
    destruct Hp as ([H1 H2 H3] & H4 & H5).
    assert (forall o, t ∈ keep (fun token => other_symbol (st_symbol token) o) (tokens lib h) ->
              t ∈ tokens lib h /\ forall u, o = Some u -> st_symbol t <> st_symbol u) as Hsel.
    { intros o Ho. apply elem_of_keep in Ho as [Ho Hs]. split; [done|]. intros u ->. cbn in Hs.
      intros He. by rewrite He, String.eqb_refl in Hs. }
    destruct target; apply Hsel in Hin as [Hin Hd].
    + split; [constructor; cbn; [by intros a [= <-]|exact H2|intros a b [= <-] Hb; by apply Hd]|].
      split; [|exact H5]. intros Hm. destruct (H4 Hm) as [_ HB]. by split.
    + split; [constructor; cbn; [exact H1|by intros a [= <-]|intros a b Ha [= <-]; symmetry; by apply Hd]|].
      split; [|exact H5]. intros Hm. destruct (H4 Hm) as [HA _]. by split.
  - split; [by eapply (tokens_ok_tokens h); [..|apply initial_ok]|]. split; [by split|]. right. by exists 30.
Qed.

(** What the effects look at. *)
Lemma same_offers h h' :
  effectiveChainId h = effectiveChainId h' -> q_searchParams h = q_searchParams h' ->
  tokens lib h = tokens lib h' /\ initialTokenA lib h = initialTokenA lib h'
  /\ initialTokenB lib h = initialTokenB lib h' /\ q_mounted h = q_mounted h'.
Proof.
  intros Hc Hs. assert (tokens lib h = tokens lib h') as Ht by (unfold tokens; by rewrite Hc).
  unfold initialTokenB, initialTokenA, prefilledTokenB, prefilledTokenA, prefilled. rewrite Ht, Hs.
  split_and!; try done. unfold effectiveChainId in Hc. by destruct (q_mounted h), (q_mounted h').
Qed.

Lemma commit_settled h p :
  tokens_ok lib h p -> settled lib h p -> tokenB_effect lib h (tokenA_effect lib h p) = p.
Proof.
  intros _ Hs. unfold tokenA_effect. destruct (q_mounted h) eqn:Hm.
  - destruct (Hs Hm) as [HA HB]. destruct (lf_tokenA p) eqn:EA; [|rewrite (HA eq_refl)];
      (unfold tokenB_effect; destruct (lf_tokenB p) eqn:EB; [done|by rewrite (HB eq_refl)]).
  - assert ((match lf_tokenA p, initialTokenA lib h with | None, Some t => p | _, _ => p end) = p) as ->
      by (by repeat case_match).
    unfold tokenB_effect. rewrite Hm. by repeat case_match.
Qed.

Lemma commit_fresh h p :
  lf_tokenA p = None -> lf_tokenB p = None -> deadline_ok p ->
  page_ok lib h (tokenB_effect lib h (tokenA_effect lib h p)).
Proof.
  intros EA EB Hd. unfold tokenA_effect. rewrite EA. destruct (q_mounted h) eqn:Hm.
  - set (p1 := match initialTokenA lib h with Some t => set_tokens (Some t) (lf_tokenB p) p | None => p end).
    assert (lf_tokenA p1 = initialTokenA lib h /\ lf_tokenB p1 = None /\ w_deadline p1 = w_deadline p) as (E1 & E2 & E3)
      by (unfold p1; by destruct (initialTokenA lib h)).
    unfold tokenB_effect. rewrite E2, Hm.
    set (p2 := match initialTokenB lib h with Some t => set_tokens (lf_tokenA p1) (Some t) p1 | None => p1 end).
    assert (lf_tokenA p2 = initialTokenA lib h /\ lf_tokenB p2 = initialTokenB lib h /\ w_deadline p2 = w_deadline p)
      as (F1 & F2 & F3) by (unfold p2; destruct (initialTokenB lib h); cbn; by rewrite ?E1, ?E2, ?E3).
    unfold page_ok, settled, deadline_ok in *. rewrite F1, F2, F3. split; [|done].
    eapply (tokens_ok_tokens h); [..|apply initial_ok]; done.
  - assert ((match initialTokenA lib h with Some t => p | None => p end) = p) as -> by (by case_match).
    unfold tokenB_effect. rewrite EB, Hm. assert ((match initialTokenB lib h with Some t => p | None => p end) = p) as ->
      by (by case_match).
    split; [constructor; by rewrite ?EA, ?EB|]. split; [|done]. intros H. congruence.
Qed.

(** The state between renders, with the chain of the last one. *)
Definition between (params : string -> option string) (s : option Z * liquidity_page) : Prop :=
  deadline_ok (snd s)
  /\ (lf_tokenA (snd s) = None /\ lf_tokenB (snd s) = None
      \/ exists h, effectiveChainId h = fst s /\ q_searchParams h = params /\ page_ok lib h (snd s)).

Lemma commit_ok params chain h p :
  between params (chain, p) -> q_searchParams h = params -> page_ok lib h (commit lib chain h p).
Proof.
  intros [Hd H] Hp. unfold commit. cbn [fst snd] in *. case_bool_decide as E.
  2: by apply commit_fresh. destruct H as [[EA EB]|(h' & Hc & Hp' & H)]; [by apply commit_fresh|].
  destruct (same_offers h' h) as (E1 & E2 & E3 & E4); [congruence..|].
  assert (page_ok lib h p) as Hok.
  { destruct H as ([H1 H2 H3] & H4 & H5). unfold page_ok, settled in *. rewrite <- E2, <- E3, <- E4.
    split; [|done]. constructor; by rewrite <- ?E1. }
  rewrite commit_settled; [done|by destruct Hok as (? & ? & _)..].
Qed.

Lemma run_between params l s :
  Forall (fun he => q_searchParams (fst he) = params) l -> between params s -> between params (run_page lib l s).
Proof.
  revert s. induction l as [|[h e] l IH]; intros s Hl Hs; [done|]. apply Forall_cons in Hl as [Hp Hl].
  apply IH; [done|]. cbn [fst snd] in *. destruct s as [chain p].
  pose proof (event_keeps_page h e _ (commit_ok params chain h p Hs Hp)) as Hok.
  split; [by destruct Hok as (_ & _ & ?)|]. right. exists h. by cbn [fst snd].
Qed.

Lemma initial_between params : between params (None, initial_page).
Proof. split; [right; by exists 30|by left]. Qed.
End invariant.

(** The minutes of a deadline the fields leave. *)
Lemma deadline_minutes (p : liquidity_page) :
  deadline_ok p ->
  1 <= parsedDeadlineMinutes p <= 30
  /\ (w_deadline p = "" /\ parsedDeadlineMinutes p = 30 \/ w_deadline p = dec (parsedDeadlineMinutes p)).
Proof.
  intros [H|(k & Hk & H)]; unfold parsedDeadlineMinutes; rewrite H.
  - change (at_least_one _ _) with 30. split; [lia|by left].
  - rewrite dec_nonempty by lia.
    assert (forallb (fun k => Z.eqb (at_least_one (dec k) 30) k) (seqZ 1 30) = true) as Hall by (by vm_compute).
    rewrite forallb_forall in Hall. specialize (Hall k). rewrite <- list_elem_of_In, elem_of_seqZ in Hall.
    specialize (Hall ltac:(lia)). apply Z.eqb_eq in Hall. rewrite Hall. split; [lia|by right].
Qed.

Lemma liquidityBps_range p : 0 <= liquidityBps p <= 5000.
Proof. unfold liquidityBps. by destruct (parsePercentToBps_range (liquiditySlippage p)) as (b & -> & Hb). Qed.

(** The least amount is the tolerance below the amount, rounded down. *)
Lemma least_bounds p x :
  0 <= x -> 0 <= least p x <= x /\ least p x * 10000 <= x * (10000 - liquidityBps p) < (least p x + 1) * 10000.
Proof.
  intros Hx. pose proof (liquidityBps_range p) as Hb. unfold least. set (b := liquidityBps p) in *. clearbody b.
  rewrite Z.quot_div_nonneg by nia. pose proof (Z.mul_div_le (x * (10000 - b)) 10000 ltac:(lia)).
  pose proof (Z.mul_succ_div_gt (x * (10000 - b)) 10000 ltac:(lia)).
  assert (0 <= x * (10000 - b) / 10000) by (apply Z.div_pos; nia).
  set (m := x * (10000 - b) / 10000) in *. clearbody m. nia.
Qed.

Lemma run_page_snoc lib l h e s :
  let s' := run_page lib l s in
  snd (run_page lib (l ++ [(h, e)]) s) = handle_event lib h e (commit lib (fst s') h (snd s')).
Proof. unfold run_page. by rewrite foldl_app. Qed.

(** C21.  Whatever is typed, clicked and answered, and whatever chains the wallet connects to:
    the chosen tokens are different tokens the connected chain offers, the deadline is the
    one to thirty minutes shown, thirty for an empty field, and the least amounts are between
    half of the amounts entered and all of them. *)
Theorem liquidity_page_invariant lib params l h e :
  Forall (fun he => q_searchParams (fst he) = params) (l ++ [(h, e)]) ->
  let p := snd (run_page lib (l ++ [(h, e)]) (None, initial_page)) in
  (forall a, lf_tokenA p = Some a -> a ∈ tokens lib h) /\ (forall b, lf_tokenB p = Some b -> b ∈ tokens lib h)
  /\ (forall a b, lf_tokenA p = Some a -> lf_tokenB p = Some b -> st_symbol a <> st_symbol b)
  /\ 1 <= parsedDeadlineMinutes p <= 30
  /\ (w_deadline p = "" /\ parsedDeadlineMinutes p = 30 \/ w_deadline p = dec (parsedDeadlineMinutes p))
  /\ (forall x, parsedAmountA lib p = Some x -> 0 <= x ->
        exists m, minAmountA lib p = Some m /\ x <= 2 * m + 1 /\ m <= x)
  /\ (forall y, parsedAmountB lib p = Some y -> 0 <= y ->
        exists m, minAmountB lib p = Some m /\ y <= 2 * m + 1 /\ m <= y).
Proof.
  intros Hl p. apply Forall_app in Hl as [Hl He]. apply Forall_cons in He as [He _].
  pose proof (run_between lib params l _ Hl (initial_between lib params)) as Hb.
  pose proof (run_page_snoc lib l h e (None, initial_page)) as E.
  destruct (run_page lib l (None, initial_page)) as [chain p0].
  pose proof (event_keeps_page lib h e _ (commit_ok lib params chain h p0 Hb He)) as ([H1 H2 H3] & _ & Hd).
  cbn [fst snd] in E. fold p in E. rewrite <- E in H1, H2, H3, Hd. destruct (deadline_minutes p Hd) as [D1 D2].
  split; [done|]. split; [done|]. split; [done|]. split; [done|]. split; [done|].
  split.
  all: intros x Hx Hn; unfold minAmountA, minAmountB; rewrite Hx; eexists; (split; [reflexivity|]);
    pose proof (least_bounds p x Hn); pose proof (liquidityBps_range p); nia.
Qed.

(** ** Concrete instances *)

Definition sample_params (parameter : string) : option string :=
  if String.eqb parameter "tokenA" then Some (addr "6")
  else if String.eqb parameter "tokenB" then Some (addr "5") else None.

(** 100 FLUX and 200 USDT in the pair. *)
Definition sample_liquidity_hooks : liquidity_hooks :=
  {| q_isZh := false; q_mounted := true; q_chainId := 31337; q_publicClient := true; q_address := Some (addr "9");
     q_isConnected := true; q_openConnectModal := true; q_isWritePending := false; q_isConfirming := false;
     q_isConfirmed := false; q_searchParams := sample_params; q_pairAddress := Some (addr "8");
     q_reserves := Some (100 * unit_amount, 200 * 10 ^ 6); q_token0 := Some (addr "5");
     q_balanceA := Some (50 * unit_amount); q_balanceB := Some (90 * 10 ^ 6);
     q_allowanceA := Some maxUint256; q_allowanceB := Some maxUint256 |}.

(** viem's [formatUnits]: the integer part, and the fraction without the zeros at its end. *)
Fixpoint last_digits (n : nat) (v : Z) : string :=
  match n with O => EmptyString | S n => last_digits n (v / 10) ++ dec (v mod 10) end.
Definition exact_formatUnits (v d : Z) : string :=
  let fraction := drop_trailing_zeros (last_digits (Z.to_nat d) v) in
  dec (v / 10 ^ d) ++ (if str_nonempty fraction then "." ++ fraction else "").

Definition exact_libraries : libraries :=
  {| lib_formatUnits := exact_formatUnits; lib_parseUnits := exact_parseUnits;
     lib_toLocaleString := fun n _ => num_to_string n; lib_contract := fun name _ => sample_contracts name;
     lib_supported := fun _ => true |}.

Definition sample_events : list (liquidity_hooks * page_event) :=
  map (pair sample_liquidity_hooks)
    [ContinueClicked; DeadlineTyped "99"; DeadlineStepped (-5); SlippageTyped "1"; AmountATyped "3.5"].
Definition sample_page : liquidity_page :=
  snd (run_page exact_libraries sample_events (None, initial_page)).

Example typed_amount_is_linked :
  lf_amountA sample_page = "3.5" /\ lf_amountB sample_page = "7"
  /\ parsedAmountA exact_libraries sample_page = Some 3500000000000000000
  /\ parsedAmountB exact_libraries sample_page = Some 7000000 /\ w_deadline sample_page = "25"
  /\ (st_symbol <$> lf_tokenA sample_page) = Some "USDT" /\ (st_symbol <$> orderedTokenA sample_page) = Some "FLUX".
Proof. vm_compute. repeat split. Qed.

Lemma liquidity_page_invariant_witness :
  1 <= parsedDeadlineMinutes sample_page <= 30
  /\ exists m, minAmountA exact_libraries sample_page = Some m /\ m <= 3500000000000000000.
Proof.
  destruct (liquidity_page_invariant exact_libraries sample_params (removelast sample_events)
    sample_liquidity_hooks (AmountATyped "3.5")) as (_ & _ & _ & Hd & _ & Ha & _).
  - repeat (apply Forall_cons; split; [reflexivity|]). apply Forall_nil. exact I.
  - split; [exact Hd|]. destruct (Ha 3500000000000000000) as (m & Hm & _ & Hle); [vm_compute; reflexivity|discriminate|].
    exists m. exact (conj Hm Hle).
Defined.
