(* ===== verification/LiquidityDeposit.v ===== *)
(** * Depositing from the liquidity page

    What a press of the page's button sends (LiquidityPage.v), and what the router
    (RouterLiquidity.v, RouterDeposits.v) then does with it. *)

From S2P Require Import Prelude JsString JsNumber JsValue JsError LimitOrders Amounts PageMonad Subgraph.
From S2P Require Import RouterContract RouterLiquidity RouterShares RouterDeposits FrontendConfig SwapQuotes SwapWidget.
From S2P Require Import Pools WalletPage LiquidityPage.
From Stdlib Require Import Ascii.
Open Scope string_scope.
Open Scope Z_scope.

(** The contract of a token, as the router knows it. *)
Definition contract_value (t : SwapTokenOption) : address := address_value (default "" (st_address t)).

Section sending.
Variable wd : wallet_world liquidity_page.
Variable lib : libraries.
Variable h : liquidity_hooks.
Variable p : liquidity_page.

(** The router call of a deposit of at most [x] and [y] of the two tokens. *)
Definition deposit_call (a b : SwapTokenOption) (x y : Z) (to deadline : Z) : liquidity_call :=
  if is_native a then AddLiquidityETH x (contract_value b) y (least p y) (least p x) to deadline
  else if is_native b then AddLiquidityETH y (contract_value a) x (least p x) (least p y) to deadline
  else AddLiquidity (contract_value a) (contract_value b) x y (least p x) (least p y) to deadline.

(** A deposit of the amounts entered, at the router, to the wallet. *)
Definition deposits (router address : string) (t : contract_write) : Prop :=
  cw_address t = router /\
  exists a b x y deadline,
    orderedTokens p = (Some a, Some b) /\ parsedAmountA lib p = Some x /\ parsedAmountB lib p = Some y
    /\ liquidity_call_of t = Some (deposit_call a b x y (address_value address) deadline).

(** The transaction a button of a kind stands for. *)
Definition stands_for (kind : LiquidityAction) (router address : string) (t : contract_write) : Prop :=
  cw_chainId t = q_chainId h /\
  match kind with
  | add => deposits router address t
  | k => exists token,
      t = transaction h token "approve" [ArgAddress router; ArgUint maxUint256] None
      /\ (match k with approve_b => orderedTokenB p | _ => orderedTokenA p end) ≫= st_address = Some token
  end.

Lemma submit_sends T kind t : T t -> sends_one T (submit wd kind t).
Proof. intros HT. apply wallet_then_quiet; [by apply wallet_sends_write|]. intros hash. apply wallet_quiet_set. Qed.

Lemma quiet_return : quiet (return_ (P := liquidity_page)).
Proof. apply wallet_quiet_done. Qed.

Lemma nonempty_text_Some (o : option string) s : nonempty_text o = Some s -> o = Some s /\ str_nonempty s = true.
Proof. unfold nonempty_text. destruct o as [u|]; [|done]. destruct (str_nonempty u) eqn:E; [|done]. by intros [= <-]. Qed.

Lemma approve_sends kind o router :
  sends_one (fun t => cw_chainId t = q_chainId h /\ exists token,
      t = transaction h token "approve" [ArgAddress router; ArgUint maxUint256] None /\ o ≫= st_address = Some token)
    (approve_token wd h kind o router).
Proof.
  unfold approve_token. destruct o as [t|]; [|apply wallet_sends_quiet, quiet_return].
  destruct (nonempty_text (st_address t)) as [token|] eqn:E; [|apply wallet_sends_quiet, quiet_return].
  apply nonempty_text_Some in E as [E _]. apply submit_sends. split; [done|]. by exists token.
Qed.

Lemma ordered_pair a b : orderedTokenA p = Some a -> orderedTokenB p = Some b -> orderedTokens p = (Some a, Some b).
Proof. unfold orderedTokenA, orderedTokenB. intros <- <-. by destruct (orderedTokens p). Qed.

Lemma deposit_write router address a b x y deadline t :
  orderedTokens p = (Some a, Some b) -> parsedAmountA lib p = Some x -> parsedAmountB lib p = Some y ->
  cw_address t = router -> cw_chainId t = q_chainId h ->
  liquidity_call_of t = Some (deposit_call a b x y (address_value address) deadline) ->
  stands_for add router address t.
Proof. intros. split; [done|]. split; [done|]. by exists a, b, x, y, deadline. Qed.

Lemma least_amount x y :
  parsedAmountA lib p = Some x -> parsedAmountB lib p = Some y ->
  default 0 (minAmountA lib p) = least p x /\ default 0 (minAmountB lib p) = least p y.
Proof. unfold minAmountA, minAmountB. by intros -> ->. Qed.

(** The deposit once the tokens and the amounts are there. *)
Definition deposit_run (router address : string) (a b : SwapTokenOption) (x y deadline : Z)
  : act (wallet_screen liquidity_page) unit :=
  if is_native a || is_native b
  then deposit_native wd lib h p router address a b x y deadline
  else deposit_tokens wd lib h p router address a b x y deadline.

(** With the contracts known it is one submission, of that call. *)
Lemma deposit_run_submits router address a b x y deadline :
  orderedTokens p = (Some a, Some b) -> parsedAmountA lib p = Some x -> parsedAmountB lib p = Some y ->
  deposit_run router address a b x y deadline = return_
  \/ exists t, deposit_run router address a b x y deadline = submit wd add t
       /\ cw_address t = router /\ cw_chainId t = q_chainId h
       /\ liquidity_call_of t = Some (deposit_call a b x y (address_value address) deadline).
Proof.
  intros Ho Hx Hy. destruct (least_amount x y Hx Hy) as [Ea Eb].
  unfold deposit_run, deposit_native, deposit_tokens, deposit_call, contract_value. rewrite Ea, Eb.
  destruct (is_native a) eqn:Na; [|destruct (is_native b) eqn:Nb]; cbn [orb].
  - destruct (nonempty_text (st_address b)) as [token|] eqn:E; [|by left]. apply nonempty_text_Some in E as [-> _].
    right. eexists. by split_and!.
  - destruct (nonempty_text (st_address a)) as [token|] eqn:E; [|by left]. apply nonempty_text_Some in E as [-> _].
    right. eexists. by split_and!.
  - destruct (nonempty_text (st_address a)) as [tokenA|] eqn:E; [|by left]. apply nonempty_text_Some in E as [-> _].
    destruct (nonempty_text (st_address b)) as [tokenB|] eqn:E'; [|by left]. apply nonempty_text_Some in E' as [-> _].
    right. eexists. by split_and!.
Qed.

Lemma add_sends router address : sends_one (stands_for add router address) (add_liquidity wd lib h p router address).
Proof.
  unfold add_liquidity. destruct (orderedTokenA p) as [a|] eqn:Ea; [|apply wallet_sends_quiet, quiet_return].
  destruct (orderedTokenB p) as [b|] eqn:Eb; [|apply wallet_sends_quiet, quiet_return].
  destruct (parsedAmountA lib p) as [x|] eqn:Ex; [|apply wallet_sends_quiet, quiet_return].
  destruct (parsedAmountB lib p) as [y|] eqn:Ey; [|apply wallet_sends_quiet, quiet_return].
  destruct (_ || _); [apply wallet_sends_quiet, quiet_return|].
  apply wallet_quiet_then; [by apply wallet_quiet_ask|]. intros block. cbv zeta.
  pose proof (ordered_pair _ _ Ea Eb) as Ho.
  destruct (deposit_run_submits router address a b x y (cb_timestamp block + parsedDeadlineMinutes p * 60) Ho Ex Ey)
    as [E|(t & E & H1 & H2 & H3)]; unfold deposit_run in E; rewrite E.
  - apply wallet_sends_quiet, quiet_return.
  - apply submit_sends. by eapply deposit_write.
Qed.

Lemma perform_sends kind router address :
  sends_one (stands_for kind router address) (perform wd lib h p kind router address).
Proof. destruct kind; [apply approve_sends|apply approve_sends|apply add_sends]. Qed.

Lemma report_quiet kind error : quiet (report_failure wd kind error).
Proof.
  unfold report_failure. apply wallet_quiet_bind; [apply wallet_quiet_set|]. intros _.
  case_bool_decide; [apply wallet_quiet_set|apply quiet_return].
Qed.

Lemma report_returns kind error s : snd (report_failure wd kind error s) = Ok tt.
Proof. unfold report_failure, act_bind, set_page, update. by case_bool_decide. Qed.

(** What the handler does before it acts. *)
Definition started (kind : LiquidityAction) (s : wallet_screen liquidity_page) : wallet_screen liquidity_page :=
  on_page (set_submittedTx None) (on_page (set_pendingAction (Some kind)) (on_page (set_txError None) s)).

(** The handler's cases. *)
Lemma press_cases :
  press wd lib h p = return_ \/ press wd lib h p = emit ConnectOpened
  \/ exists kind router_ address,
       actionDisabled lib h p = false /\ q_mounted h = true /\ q_isConnected h = true
       /\ liquidityAction lib h p = Some kind /\ router lib h = Some router_ /\ nonempty_text (q_address h) = Some address
       /\ forall s, press wd lib h p s
                    = act_catch (perform wd lib h p kind router_ address) (report_failure wd kind) (started kind s).
Proof.
  unfold press, handleLiquidityAction. destruct (actionDisabled lib h p) eqn:Hd; [by left|].
  destruct (q_mounted h) eqn:Hm, (q_isConnected h) eqn:Hc; cbn [negb orb];
    try (destruct (q_openConnectModal h); [by right; left|by left]).
  destruct (liquidityAction lib h p) as [kind|] eqn:Hk; [|by left].
  destruct (nonempty_text (q_address h)) as [address|] eqn:Ha; [|by left].
  destruct (router lib h) as [r|] eqn:Hr; [|by left]. right; right. by exists kind, r, address.
Qed.

Lemma submitted_act kind t s :
  snd (act_catch (submit wd kind t) (report_failure wd kind) s) = Ok tt.
Proof.
  unfold act_catch, submit, write, ask, act_bind. destruct (wd_write wd _ t); [done|]. apply report_returns.
Qed.
End sending.

(** ** The linked text *)

(** A decimal text of an amount in units of [10 ^ d]. *)
Definition exact_text (text : string) (v d : Z) : Prop :=
  exists i f, match_decimal text = Some (i, f) /\ str_nonempty i = true /\ Z.of_nat (String.length f) <= d
    /\ dec_value (i ++ f) * 10 ^ (d - Z.of_nat (String.length f)) = v.

(** [parseUnits] reads the decimal texts with at most the token's digits. *)
Definition exact_parse (parseUnits : string -> Z -> option Z) (d : Z) : Prop :=
  forall s i f, match_decimal s = Some (i, f) -> str_nonempty i = true -> Z.of_nat (String.length f) <= d ->
  parseUnits s d = Some (dec_value (i ++ f) * 10 ^ (d - Z.of_nat (String.length f))).

Lemma digits_no_point s : all_chars is_digit s = true -> includes s "." = false.
Proof.
  induction s as [|c s IH]; [done|]. cbn [all_chars includes]. intros [Hc Hs]%andb_true_iff.
  rewrite IH by done. rewrite orb_false_r. cbn [String.prefix].
  destruct (ascii_dec "." c) as [E|]; [subst c; discriminate Hc|done].
Qed.

Lemma drop_zeros_digits s : all_chars is_digit s = true -> drop_zeros s = drop_trailing_zeros s.
Proof.
  induction s as [|c s IH]; [done|]. cbn [all_chars]. intros [Hc Hs]%andb_true_iff.
  cbn [drop_zeros drop_trailing_zeros zeros_here]. rewrite (digit_neq c "."%char) by done. cbn [andb].
  rewrite orb_false_r. by rewrite IH.
Qed.

Lemma drop_zeros_point i f :
  all_chars is_digit i = true -> all_chars is_digit f = true ->
  drop_zeros (i ++ "." ++ f)
  = if str_nonempty f && all_zeros f then i else i ++ "." ++ drop_trailing_zeros f.
Proof.
  intros Hi Hf. induction i as [|c i IH].
  - change ("" ++ "." ++ f) with (String "."%char f). cbn [drop_zeros]. unfold zeros_here. cbn [all_zeros orb].
    change (Ascii.eqb "."%char "0"%char) with false. change (Ascii.eqb "."%char "."%char) with true. cbn [andb orb].
    destruct (str_nonempty f && all_zeros f); [done|]. by rewrite drop_zeros_digits.
  - cbn [all_chars] in Hi. apply andb_true_iff in Hi as [Hc Hi]. specialize (IH Hi).
    change (String c i ++ "." ++ f) with (String c (i ++ "." ++ f)). cbn [drop_zeros].
    assert (zeros_here (String c (i ++ "." ++ f)) = false) as ->.
    { unfold zeros_here. rewrite (digit_neq c "."%char) by done. rewrite orb_false_r. cbn [all_zeros].
      assert (all_zeros (i ++ "." ++ f) = false) as ->; [|by rewrite andb_false_r].
      clear. induction i as [|d i IHi]; [done|]. change (String d i ++ "." ++ f) with (String d (i ++ "." ++ f)).
      cbn [all_zeros]. by rewrite IHi, andb_false_r. }
    rewrite IH. by destruct (str_nonempty f && all_zeros f).
Qed.

Lemma linked_text_exact text v d : exact_text text v d -> exact_text (linked_text text) v d.
Proof.
  intros (i & f & Hm & Hi & Hl & Hv). destruct (match_decimal_spec _ _ _ Hm) as [Di Df]. unfold linked_text.
  destruct (match_decimal_inv _ _ _ Hm) as [->|[-> ->]].
  2: { rewrite digits_no_point by done. by exists i, "". }
  rewrite drop_zeros_point by done. assert (includes (i ++ "." ++ f) "." = true) as ->.
  { clear. induction i as [|c i IH]; [by destruct f|]. change (String c i ++ "." ++ f) with (String c (i ++ "." ++ f)).
    cbn [includes]. by rewrite IH, orb_true_r. }
  destruct (drop_zeros_split f) as (z & Hf & Hz). apply all_zeros_value in Hz as [Dz Vz].
  set (g := drop_trailing_zeros f) in *. clearbody g.
  assert (all_chars is_digit g = true) as Dg by (rewrite Hf, all_chars_app in Df; by apply andb_true_iff in Df as [? _]).
  assert (exact_text (i ++ "." ++ g) v d) as Hg.
  { destruct (match_decimal_build i g Di Dg) as [Hb _]. exists i, g. split_and!; [done|done| |].
    - rewrite Hf, length_string_app in Hl. lia.
    - rewrite <- Hv, Hf, <- app_string_assoc, (dec_value_app (i ++ g) z), Vz, length_string_app, Nat2Z.inj_add
        by (rewrite ?all_chars_app, ?Di, ?Dg; done).
      rewrite Hf, length_string_app, Nat2Z.inj_add in Hl.
      replace (d - Z.of_nat (String.length g))
        with (Z.of_nat (String.length z) + (d - (Z.of_nat (String.length g) + Z.of_nat (String.length z)))) by lia.
      rewrite Z.pow_add_r by lia. ring. }
  destruct (str_nonempty f && all_zeros f) eqn:E; [|done]. apply andb_true_iff in E as [_ E].
  apply all_zeros_value in E as [_ Vf]. destruct (match_decimal_build i "" Di eq_refl) as [_ Hb].
  exists i, "". split_and!; [done|done|cbn; lia|]. rewrite <- Hv, (dec_value_app i f), Vf by done.
  cbn [String.length]. rewrite app_empty_r. replace (d - Z.of_nat 0) with (Z.of_nat (String.length f) + (d - Z.of_nat (String.length f))) by lia.
  rewrite Z.pow_add_r by lia. ring.
Qed.

Lemma parse_exact lib text v d :
  exact_parse (lib_parseUnits lib) d -> exact_text text v d -> parse lib text d = Some v.
Proof.
  intros Hp (i & f & Hm & Hi & Hl & Hv). destruct (match_decimal_spec _ _ _ Hm) as [Di Df].
  assert (normalize text = text /\ str_nonempty text = true) as [En Ene].
  { destruct (match_decimal_inv _ _ _ Hm) as [->|[-> ->]]; unfold normalize; rewrite ?strip_app, ?(strip_digits i), ?(strip_digits f) by done.
    - change (strip "," ".") with ".". split; [|by destruct i]. apply trim_graphic.
      rewrite !all_chars_app, (digits_graphic i), (digits_graphic f) by done. done.
    - split; [|done]. by apply trim_graphic, digits_graphic. }
  unfold parse, parseAmount, parse_amount. rewrite En, Ene. unfold DECIMAL_INPUT_REGEX. rewrite Hm. cbn [negb orb].
  by rewrite (Hp text i f), Hv.
Qed.

(** ** Presses *)

(** A press never throws, and it sends at most one transaction: the one the button stands
    for, approving one of the two chosen tokens for the configured router or depositing the
    amounts entered there.  A disabled button sends nothing. *)
Theorem liquidity_press_sends wd lib h p s :
  snd (press wd lib h p s) = Ok tt /\
  exists l, sent s (fst (press wd lib h p s)) l /\
    (l = [] \/ exists t kind router_ address,
       l = [t] /\ actionDisabled lib h p = false /\ liquidityAction lib h p = Some kind
       /\ router lib h = Some router_ /\ q_address h = Some address /\ stands_for lib h p kind router_ address t).
Proof.
  destruct (press_cases wd lib h p) as [->|[->|(kind & r & address & Hd & _ & _ & Hk & Hr & Ha & E)]].
  - split; [done|]. exists []. split; [apply quiet_return|by left].
  - split; [done|]. exists []. split; [by apply wallet_quiet_emit|by left].
  - rewrite E. split.
    { unfold act_catch. destruct (perform _ _ _ _ _ _ _ _) as [s1 [[]|e]]; [done|apply report_returns]. }
    pose proof (wallet_catch_quiet _ _ _ (perform_sends wd lib h p kind r address) (report_quiet wd kind)) as Hs.
    destruct (Hs (started kind s)) as (l & Hl & Ho). exists l. split; [exact Hl|].
    destruct Ho as [->|(t & -> & Ht)]; [by left|]. right. apply nonempty_text_Some in Ha as [Ha _].
    by exists t, kind, r, address.
Qed.

(** ** Deposits *)

Section deposit.
Variable lib : libraries.
Variable h : liquidity_hooks.
Variable p : liquidity_page.
Hypothesis Htokens : tokens_ok lib h p.

Lemma ordered_offered a b :
  orderedTokens p = (Some a, Some b) -> a ∈ tokens lib h /\ b ∈ tokens lib h /\ st_symbol a <> st_symbol b.
Proof.
  destruct Htokens as [HA HB HD]. unfold orderedTokens, sortPairTokens.
  destruct (lf_tokenA p) as [u|], (lf_tokenB p) as [v|]; try done.
  specialize (HA u eq_refl). specialize (HB v eq_refl). specialize (HD u v eq_refl eq_refl).
  destruct (js_string_le _ _); intros [= <- <-]; split_and!; done.
Qed.

Lemma ordered_not_native a b : orderedTokens p = (Some a, Some b) -> is_native a && is_native b = false.
Proof.
  intros Ho. destruct (ordered_offered a b Ho) as (Ha & Hb & Hne). unfold is_native.
  case_bool_decide as Ka; [|done]. case_bool_decide as Kb; [|done]. destruct Hne. unfold tokens in *.
  by rewrite (native_is_ETH _ _ Ha Ka), (native_is_ETH _ _ Hb Kb).
Qed.

Lemma offered_contract t :
  t ∈ tokens lib h -> is_native t = false ->
  st_address t = Some (st_routeAddress t) /\ nonempty_text (st_address t) = Some (st_routeAddress t).
Proof.
  intros (tk & _ & _ & _ & _ & _ & Ha & Hn)%swap_option Hk. unfold is_native in Hk.
  destruct (st_kind t); [done|]. split; [done|]. rewrite Ha. cbn. by rewrite Hn.
Qed.

Lemma deposit_run_one wd router address a b x y deadline :
  orderedTokens p = (Some a, Some b) -> parsedAmountA lib p = Some x -> parsedAmountB lib p = Some y ->
  exists t, deposit_run wd lib h p router address a b x y deadline = submit wd add t
    /\ cw_address t = router /\ cw_chainId t = q_chainId h
    /\ liquidity_call_of t = Some (deposit_call p a b x y (address_value address) deadline).
Proof.
  intros Ho Hx Hy. destruct (deposit_run_submits wd lib h p router address a b x y deadline Ho Hx Hy) as [E|H]; [|done].
  exfalso. destruct (ordered_offered a b Ho) as (Ha & Hb & _). pose proof (ordered_not_native a b Ho) as Hn.
  assert (E' : deposit_run wd lib h p router address a b x y deadline
                 {| ws_page := p; ws_trace := [] |} = return_ {| ws_page := p; ws_trace := [] |}) by by rewrite E.
  clear E. unfold deposit_run, deposit_native, deposit_tokens in E'.
  destruct (is_native a) eqn:Na, (is_native b) eqn:Nb; try done; cbn [orb] in E';
    rewrite ?(proj2 (offered_contract a Ha Na)), ?(proj2 (offered_contract b Hb Nb)) in E';
    apply (f_equal (fun r => ws_trace (fst r))) in E'; unfold submit, write, ask, act_bind in E';
    destruct (wd_write _ _ _) in E'; discriminate E'.
Qed.

(** What an enabled deposit button knows. *)
Lemma deposit_enabled :
  actionDisabled lib h p = false -> liquidityAction lib h p = Some add ->
  exists router_ a b x y,
    router lib h = Some router_ /\ orderedTokens p = (Some a, Some b)
    /\ parsedAmountA lib p = Some x /\ parsedAmountB lib p = Some y /\ 0 < x /\ 0 < y
    /\ (forall v, q_balanceA h = Some v -> x <= v) /\ (forall v, q_balanceB h = Some v -> y <= v)
    /\ (is_native a = false -> exists v, q_allowanceA h = Some v /\ x <= v)
    /\ (is_native b = false -> exists v, q_allowanceB h = Some v /\ y <= v).
Proof.
  unfold actionDisabled, liquidityAction. intros Hd Hk.
  destruct (q_mounted h), (q_isConnected h); cbn [negb orb andb] in *; try done.
  destruct (needsAllowanceA lib h p) eqn:NA; [done|]. destruct (needsAllowanceB lib h p) eqn:NB; [done|].
  destruct (hasValidAmounts lib p) eqn:HV; [|done].
  repeat (apply orb_false_iff in Hd as [Hd ?]).
  repeat match goal with
  | H : negb _ = false |- _ => apply negb_false_iff in H
  | H : bool_decide _ = true |- _ => apply bool_decide_eq_true in H
  end.
  destruct (router lib h) as [r|] eqn:Hr; [|by match goal with H : is_Some None |- _ => destruct H end].
  assert (exists a b, orderedTokens p = (Some a, Some b)) as (a & b & Ho).
  { unfold tokens_chosen, orderedTokenA, orderedTokenB in *. destruct (orderedTokens p) as [[a|] [b|]]; try done.
    by exists a, b. }
  pose proof HV as HV'. unfold hasValidAmounts, positive_amount in HV'.
  destruct (parsedAmountA lib p) as [x|] eqn:Ex; [|done].
  destruct (parsedAmountB lib p) as [y|] eqn:Ey; [|by rewrite andb_false_r in HV'].
  apply andb_true_iff in HV' as [Hx%Z.ltb_lt Hy%Z.ltb_lt].
  destruct (ordered_offered a b Ho) as (Ha & Hb & _).
  assert (routerAddress lib h = Some r) as Hra by (by apply nonempty_text_Some in Hr as [? _]).
  assert (orderedTokenA p = Some a /\ orderedTokenB p = Some b) as [EA EB]
    by (unfold orderedTokenA, orderedTokenB; by rewrite Ho).
  exists r, a, b, x, y. split_and!; try done.
  - intros v Hv. unfold insufficientBalanceA, over in *. rewrite Ex, Hv in *. bool_solve. lia.
  - intros v Hv. unfold insufficientBalanceB, over in *. rewrite Ey, Hv in *. bool_solve. lia.
  - intros Hn. destruct (offered_contract a Ha Hn) as [Hc _]. unfold needsAllowanceA, needs_allowance in NA.
    rewrite HV, EA, Hra, Ex, Hc in NA. unfold is_native in Hn. destruct (st_kind a); [done|]. cbn in NA.
    destruct (q_allowanceA h) as [v|]; [|done]. exists v. split; [done|]. by apply Z.ltb_ge in NA.
  - intros Hn. destruct (offered_contract b Hb Hn) as [Hc _]. unfold needsAllowanceB, needs_allowance in NB.
    rewrite HV, EB, Hra, Ey, Hc in NB. unfold is_native in Hn. destruct (st_kind b); [done|]. cbn in NB.
    destruct (q_allowanceB h) as [v|]; [|done]. exists v. split; [done|]. by apply Z.ltb_ge in NB.
Qed.

(** The press of an enabled deposit button is one submission. *)
Lemma press_submits wd address block :
  actionDisabled lib h p = false -> liquidityAction lib h p = Some add -> q_publicClient h = true ->
  nonempty_text (q_address h) = Some address -> (forall l, wd_block wd l = Ok block) ->
  exists router_ a b x y t,
    let deadline := cb_timestamp block + parsedDeadlineMinutes p * 60 in
    router lib h = Some router_ /\ orderedTokens p = (Some a, Some b)
    /\ parsedAmountA lib p = Some x /\ parsedAmountB lib p = Some y
    /\ cw_address t = router_ /\ cw_chainId t = q_chainId h
    /\ liquidity_call_of t = Some (deposit_call p a b x y (address_value address) deadline)
    /\ forall s, press wd lib h p s
                 = act_catch (submit wd add t) (report_failure wd add) (waited wd AskedBlock (started add s)).
Proof.
  intros Hd Hk Hc Ha Hb. destruct (deposit_enabled Hd Hk) as (r & a & b & x & y & Hr & Ho & Hx & Hy & Px & Py & _).
  destruct (deposit_run_one wd r address a b x y (cb_timestamp block + parsedDeadlineMinutes p * 60) Ho Hx Hy)
    as (t & E & H1 & H2 & H3).
  exists r, a, b, x, y, t. cbv zeta. split_and!; try done. intros s.
  assert (press wd lib h p s
          = act_catch (add_liquidity wd lib h p r address) (report_failure wd add) (started add s)) as ->.
  { unfold press, handleLiquidityAction. rewrite Hd, Hk, Ha, Hr. unfold liquidityAction in Hk.
    by destruct (q_mounted h), (q_isConnected h). }
  unfold act_catch. assert (add_liquidity wd lib h p r address (started add s)
                            = submit wd add t (waited wd AskedBlock (started add s))) as ->; [|done].
  unfold add_liquidity. assert (orderedTokenA p = Some a /\ orderedTokenB p = Some b) as [-> ->]
    by (unfold orderedTokenA, orderedTokenB; by rewrite Ho).
  rewrite Hx, Hy, Hc, (proj2 (Z.eqb_neq x 0)), (proj2 (Z.eqb_neq y 0)) by lia. cbn [negb orb].
  unfold act_bind at 1, getBlock, ask. rewrite Hb. cbv zeta.
  change (deposit_run wd lib h p r address a b x y (cb_timestamp block + parsedDeadlineMinutes p * 60)
            (waited wd AskedBlock (started add s)) = submit wd add t (waited wd AskedBlock (started add s))).
  by rewrite E.
Qed.
End deposit.

(** What the wallet pays of the two tokens of the page: the router counts the native coin
    second. *)
Definition paid (a : SwapTokenOption) (r : liquidity_receipt) : Z * Z :=
  if is_native a then (lr_amountB r, lr_amountA r) else (lr_amountA r, lr_amountB r).

Lemma deposit_call_bounds e p a b x y to d ps r :
  pairs_ok ps -> exec_liquidity e (deposit_call p a b x y to d) ps = Ok r ->
  least p x <= fst (paid a r) <= x /\ least p y <= snd (paid a r) <= y
  /\ 0 < lr_liquidity r /\ se_timestamp e <= d.
Proof.
  intros Hps H. unfold deposit_call, paid in *. destruct (is_native a); [|destruct (is_native b)];
    cbn [exec_liquidity] in H; unfold ensure in H; router_inv H.
  - apply addLiquidityETH_Ok in H. destruct (deposit_Ok _ _ _ _ _ _ _ _ _ _ _ _ _ Hps H) as (? & ? & ? & _).
    cbn [fst snd]. lia.
  - apply addLiquidityETH_Ok in H. destruct (deposit_Ok _ _ _ _ _ _ _ _ _ _ _ _ _ Hps H) as (? & ? & ? & _).
    cbn [fst snd]. lia.
  - rewrite addLiquidity_deposit in H. destruct (deposit_Ok _ _ _ _ _ _ _ _ _ _ _ _ _ Hps H) as (? & ? & ? & _).
    cbn [fst snd]. lia.
Qed.

Lemma submission_sent wd kind t s :
  sent s (fst (act_catch (submit wd kind t) (report_failure wd kind) (waited wd AskedBlock (started kind s)))) [t].
Proof.
  assert (sent s (waited wd AskedBlock (started kind s)) []) as H0
    by (apply wallet_sent_waited; [done|exact (wallet_sent_refl s)]).
  unfold act_catch, submit, write, ask, act_bind.
  assert (sent s (waited wd (Wrote t) (waited wd AskedBlock (started kind s))) [t]) as H1
    by (by apply wallet_sent_waited_wrote).
  destruct (wd_write wd _ t); [exact H1|]. rewrite <- (app_nil_r [t]).
  eapply wallet_sent_trans; [exact H1|apply report_quiet].
Qed.

(** C16.  A press of an enabled deposit button sends exactly one transaction: a deposit of the two
    amounts entered, at the configured router, to the wallet, at least a minute from the
    latest block; the balances, where known, and the allowances cover the amounts.  Wherever
    and whenever it executes, the wallet pays of each token at most the amount entered and at
    least the minimum shown, and receives shares.  The page then shows the transaction, or why
    the wallet refused it. *)
Theorem deposit_transaction wd lib h p address block s :
  tokens_ok lib h p -> deadline_ok p -> actionDisabled lib h p = false -> liquidityAction lib h p = Some add ->
  q_publicClient h = true -> nonempty_text (q_address h) = Some address -> (forall l, wd_block wd l = Ok block) ->
  exists a b x y t k,
    orderedTokens p = (Some a, Some b) /\ parsedAmountA lib p = Some x /\ parsedAmountB lib p = Some y
    /\ 0 < x /\ 0 < y
    /\ sent s (fst (press wd lib h p s)) [t] /\ snd (press wd lib h p s) = Ok tt
    /\ router lib h = Some (cw_address t) /\ cw_chainId t = q_chainId h /\ liquidity_call_of t = Some k
    /\ k = deposit_call p a b x y (address_value address) (cb_timestamp block + parsedDeadlineMinutes p * 60)
    /\ 1 <= parsedDeadlineMinutes p
    /\ (forall v, q_balanceA h = Some v -> x <= v) /\ (forall v, q_balanceB h = Some v -> y <= v)
    /\ (is_native a = false -> exists v, q_allowanceA h = Some v /\ x <= v)
    /\ (is_native b = false -> exists v, q_allowanceB h = Some v /\ y <= v)
    /\ (forall e ps r, pairs_ok ps -> exec_liquidity e k ps = Ok r ->
          least p x <= fst (paid a r) <= x /\ least p y <= snd (paid a r) <= y /\ 0 < lr_liquidity r)
    /\ (forall hash, (forall l, wd_write wd l t = Ok hash) ->
          lt_submittedTx (ws_page (fst (press wd lib h p s))) = Some (hash, add))
    /\ (forall error, (forall l, wd_write wd l t = Throw error) ->
          lt_resultModal (ws_page (fst (press wd lib h p s)))
          = Some (modal_error, wd_errorMessage wd error "你已取消本次交易")).
Proof.
  intros Ht Hdl Hd Hk Hc Ha Hb.
  destruct (deposit_enabled lib h p Ht Hd Hk) as (r & a & b & x & y & Hr & Ho & Hx & Hy & Px & Py & BA & BB & AA & AB).
  destruct (press_submits lib h p Ht wd address block Hd Hk Hc Ha Hb)
    as (r' & a' & b' & x' & y' & t & Hr' & Ho' & Hx' & Hy' & Hto & Hch & Hcall & E).
  rewrite Hr in Hr'. rewrite Ho in Ho'. rewrite Hx in Hx'. rewrite Hy in Hy'.
  injection Hr' as <-. injection Ho' as <- <-. injection Hx' as <-. injection Hy' as <-.
  exists a, b, x, y, t, (deposit_call p a b x y (address_value address) (cb_timestamp block + parsedDeadlineMinutes p * 60)).
  rewrite E, Hto. destruct (deadline_minutes p Hdl) as [[Hm _] _]. split_and!; try done.
  - apply submission_sent.
  - apply submitted_act.
  - intros e ps rc Hps Hx'. by apply (deposit_call_bounds e p a b x y _ _ ps rc) in Hx' as (? & ? & ? & _).
  - intros hash Hw. unfold act_catch, submit, write, ask, act_bind. by rewrite Hw.
  - intros error Hw. unfold act_catch, submit, write, ask, act_bind. by rewrite Hw.
Qed.

(** ** Amounts at the ratio of the pool *)

(** One of the amounts is the other at the ratio, rounded down. *)
Definition linked_amounts (ra rb x y : Z) : Prop := y = x * rb / ra \/ x = y * ra / rb.

(** Of linked amounts the pair takes all but less than a unit and what a unit of the other
    token is worth. *)
Lemma fitted_linked ra rb x y :
  0 < ra -> 0 < rb -> 0 < x -> 0 < y -> linked_amounts ra rb x y ->
  let taken := fitted ra rb x y in
  fst taken = x /\ snd taken <= y /\ (y - snd taken - 1) * ra < rb /\ (y = x * rb / ra -> snd taken = y).
Proof.
  intros Ha Hb Hx Hy Hl. unfold fitted.
  pose proof (Z.mul_div_le (x * rb) ra Ha). pose proof (Z.mul_succ_div_gt (x * rb) ra Ha).
  pose proof (Z.mul_div_le (y * ra) rb Hb). pose proof (Z.mul_succ_div_gt (y * ra) rb Hb).
  assert (x * rb / ra <= y) as Hle.
  { destruct Hl as [Hl|Hl]; [lia|]. apply Z.div_le_upper_bound; [done|]. rewrite Hl. nia. }
  rewrite (proj2 (Z.leb_le _ _) Hle). cbn [fst snd]. split_and!; [done|done| |done].
  destruct Hl as [Hl|Hl]; [rewrite <- Hl; nia|]. rewrite <- Hl in *. set (q := x * rb / ra) in *. nia.
Qed.

(** The tolerance leaves more than is not taken. *)
Lemma fitted_minimum p ra rb y y' :
  0 < ra -> 0 <= y' <= y -> (y - y' - 1) * ra < rb -> rb * 10000 <= y * liquidityBps p * ra -> least p y <= y'.
Proof.
  intros Ha Hy Hq Ht. destruct (least_bounds p y) as (_ & Hl & _); [lia|].
  pose proof (liquidityBps_range p). set (m := least p y) in *. set (bps := liquidityBps p) in *. clearbody m bps.
  assert ((y - y' - 1) * 10000 < y * bps) as Hs.
  { assert ((y - y' - 1) * 10000 * ra < y * bps * ra) by nia. nia. }
  assert (m * 10000 < (y' + 1) * 10000) by nia. lia.
Qed.

Lemma shares_of_comm x y ra rb T : shares_of x y ra rb T = shares_of y x rb ra T.
Proof. unfold shares_of. lia. Qed.

(** The pool of the two tokens as a wallet meets it: the pair holds the reserves, tokens and
    change move as they are asked to, the native token is routed through the wrapped one. *)
Record wallet_pool (e : liquidity_env) (ps : pairs) (a b : SwapTokenOption) (c : PairContract.state) (ra rb : Z) : Prop := {
  wp_live : live_pair (se_timestamp e) (address_value (st_routeAddress a)) (address_value (st_routeAddress b)) ps c ra rb;
  wp_transfer : forall t u, se_transferFrom e t u = Ok tt;
  wp_change : forall u v, le_sendETH e u v = Ok tt;
  wp_WETH : forall t, t = a \/ t = b -> is_native t = true -> address_value (st_routeAddress t) = se_WETH e;
}.

(** What the router takes of the two tokens: it fits the second of its call to the first,
    and the native coin is its second. *)
Definition taken (a : SwapTokenOption) (ra rb x y : Z) : Z * Z :=
  if is_native a then (snd (fitted rb ra y x), fst (fitted rb ra y x)) else fitted ra rb x y.

(** The token the router fits the other to. *)
Definition fits_to_A (a : SwapTokenOption) : bool := negb (is_native a).

Lemma taken_linked a ra rb x y :
  0 < ra -> 0 < rb -> 0 < x -> 0 < y -> linked_amounts ra rb x y ->
  let t := taken a ra rb x y in
  fst t <= x /\ snd t <= y /\ (x - fst t - 1) * rb < ra /\ (y - snd t - 1) * ra < rb
  /\ ((if fits_to_A a then y = x * rb / ra else x = y * ra / rb) -> t = (x, y)).
Proof.
  intros Ha Hb Hx Hy Hl. unfold taken, fits_to_A. destruct (is_native a); cbn [negb].
  - destruct (fitted_linked rb ra y x Hb Ha Hy Hx) as (E & H1 & H2 & H3); [destruct Hl; [by right|by left]|].
    cbn zeta. rewrite E. cbn [fst snd]. split_and!; [done|done|done|lia|]. intros Hq. by rewrite H3.
  - destruct (fitted_linked ra rb x y Ha Hb Hx Hy Hl) as (E & H1 & H2 & H3). cbn zeta. rewrite E.
    split_and!; [done|done|lia|done|]. intros Hq. specialize (H3 Hq). destruct (fitted ra rb x y). cbn [fst snd] in *. congruence.
Qed.

Lemma taken_within a ra rb x y :
  0 < ra -> 0 < rb -> 0 < x -> 0 < y -> 0 <= fst (taken a ra rb x y) /\ 0 <= snd (taken a ra rb x y).
Proof.
  intros Ha Hb Hx Hy. unfold taken, fitted.
  destruct (is_native a), (_ <=? _); cbn [fst snd]; split; try lia; apply Z.div_pos; nia.
Qed.

(** The deposit of the page executes on such a pool, and takes these amounts. *)
Lemma deposit_call_executes lib h p e ps a b c ra rb x y to d :
  tokens_ok lib h p -> orderedTokens p = (Some a, Some b) -> wallet_pool e ps a b c ra rb -> se_timestamp e <= d ->
  0 < x -> 0 < y -> ra + x < 2 ^ 112 -> rb + y < 2 ^ 112 ->
  let t := taken a ra rb x y in
  least p x <= fst t -> least p y <= snd t -> 0 < shares_of (fst t) (snd t) ra rb (PairContract.lp_totalSupply c) ->
  exists r, exec_liquidity e (deposit_call p a b x y to d) ps = Ok r /\ paid a r = t
    /\ lr_liquidity r = shares_of (fst t) (snd t) ra rb (PairContract.lp_totalSupply c).
Proof.
  intros Htk Ho [Hlive Ht Hs HW] Hd Hx Hy Wa Wb t. unfold t, taken, deposit_call, paid.
  destruct (ordered_offered lib h p Htk a b Ho) as (Ia & Ib & _). pose proof (ordered_not_native lib h p Htk a b Ho) as Hn.
  assert (forall u, u ∈ tokens lib h -> is_native u = false -> contract_value u = address_value (st_routeAddress u)) as Hv.
  { intros u Hu Hk. unfold contract_value. by rewrite (proj1 (offered_contract lib h u Hu Hk)). }
  apply Z.leb_le in Hd. destruct (is_native a) eqn:Na; cbn [andb fst snd].
  - intros Mx My Hsh. rewrite (Hv b Ib Hn). apply live_swap in Hlive.
    destruct (addLiquidityETH_defined e _ _ ps c rb ra Hlive y x (least p y) (least p x) to) as (r & Hr & Ht1 & Ht2);
      [apply HW; [by left|done]| |done|done|].
    { constructor; try done. by rewrite shares_of_comm. }
    exists r. cbn [exec_liquidity]. unfold ensure. rewrite Hd. cbn [res_bind]. split; [exact Hr|].
    rewrite <- Ht1. cbn [fst snd]. split; [done|]. rewrite Ht2, <- Ht1. apply shares_of_comm.
  - intros Mx My Hsh. destruct (is_native b) eqn:Nb.
    + rewrite (Hv a Ia Na).
      destruct (addLiquidityETH_defined e _ _ ps c ra rb Hlive x y (least p x) (least p y) to) as (r & Hr & Ht1 & Ht2);
        [apply HW; [by right|done]|by constructor|done|done|].
      exists r. cbn [exec_liquidity]. unfold ensure. rewrite Hd. cbn [res_bind]. split; [exact Hr|exact (conj Ht1 Ht2)].
    + rewrite (Hv a Ia Na), (Hv b Ib Nb).
      destruct (addLiquidity_defined e _ _ ps c ra rb Hlive x y (least p x) (least p y) to) as (r & Hr & Ht1 & Ht2);
        [by constructor|done|].
      exists r. cbn [exec_liquidity]. unfold ensure. rewrite Hd. cbn [res_bind]. split; [exact Hr|exact (conj Ht1 Ht2)].
Qed.

(** ** Typing an amount *)

(** viem's texts of amounts with [d] decimals are exact and are read back. *)
Definition exact_units (lib : libraries) (d : Z) : Prop :=
  exact_parse (lib_parseUnits lib) d /\ forall v, 0 <= v -> exact_text (lib_formatUnits lib v d) v d.

Definition typed (lib : libraries) (h : liquidity_hooks) (field : SelectorTarget) (value : string)
    (p : liquidity_page) : liquidity_page :=
  match field with
  | select_a => handleAmountAChange lib h value p
  | select_b => handleAmountBChange lib h value p
  end.

Section typing.
Variable lib : libraries.
Variable h : liquidity_hooks.
Implicit Types p : liquidity_page.

Lemma typed_tokens field value p : orderedTokens (typed lib h field value p) = orderedTokens p.
Proof.
  destruct field; unfold typed, handleAmountAChange, handleAmountBChange; by repeat case_match.
Qed.

Lemma linked_reads f t value v rf rt :
  exact_units lib (st_decimals t) -> parse lib value (st_decimals f) = Some v -> 0 < v -> 0 < rf -> 0 < rt ->
  exists text, linked lib value (Some f) (Some t) (Some rf) (Some rt) = Some text
    /\ parse lib text (st_decimals t) = Some (v * rt / rf).
Proof.
  intros [Hp Ht] Hv Pv Pf Pt. unfold linked. rewrite Hv. eexists. split; [reflexivity|].
  rewrite Z.quot_div_nonneg by nia. apply parse_exact; [done|]. apply linked_text_exact, Ht.
  apply Z.div_pos; nia.
Qed.

Lemma blank_parses_none value d : trim value = "" -> DECIMAL_INPUT_REGEX value = true -> parse lib value d = None.
Proof.
  intros Ht Hr. assert (value = "") as ->; [|done]. unfold DECIMAL_INPUT_REGEX in Hr.
  destruct (match_decimal value) as [[i f]|] eqn:E; [|done].
  destruct (match_decimal_spec _ _ _ E) as [Di Df].
  rewrite trim_graphic in Ht; [done|]. destruct (match_decimal_inv _ _ _ E) as [->|[-> _]].
  - by rewrite !all_chars_app, (digits_graphic i), (digits_graphic f).
  - by apply digits_graphic.
Qed.

(** The amounts after a key, when the page knows the reserves. *)
Lemma typed_links field value p a b ra rb x y :
  orderedTokens p = (Some a, Some b) -> ordered_reserves h p = Some (ra, rb) -> 0 < ra -> 0 < rb ->
  DECIMAL_INPUT_REGEX value = true -> exact_units lib (st_decimals a) -> exact_units lib (st_decimals b) ->
  let p' := typed lib h field value p in
  parsedAmountA lib p' = Some x -> parsedAmountB lib p' = Some y -> 0 < x -> 0 < y ->
  match field with select_a => y = x * rb / ra | select_b => x = y * ra / rb end.
Proof.
  intros Ho Hr Pa Pb Hv Ua Ub p'. unfold parsedAmountA, parsedAmountB, orderedTokenA, orderedTokenB, p'.
  rewrite typed_tokens, Ho. cbn [fst snd decimals_of]. unfold typed, handleAmountAChange, handleAmountBChange.
  assert (canLinkAmounts h p = true) as Hcl.
  { unfold canLinkAmounts, reserveA, reserveB. rewrite Hr. cbn. by rewrite (proj2 (Z.ltb_lt 0 ra)), (proj2 (Z.ltb_lt 0 rb)). }
  unfold reserveA, reserveB, orderedTokenA, orderedTokenB. rewrite Hv, Hcl, Hr, Ho. cbn [negb fst snd fmap option_fmap option_map].
  destruct field; (destruct (String.eqb (trim value) "") eqn:Hb;
    [apply String.eqb_eq in Hb; cbn [lf_amountA lf_amountB set_amounts with_form lp_form];
     rewrite (blank_parses_none value) by done; done|]); cbn [lf_amountA lf_amountB set_amounts with_form lp_form].
  - intros Hx Hy Px _. destruct (linked_reads a b value x ra rb Ub Hx Px Pa Pb) as (text & Hl & Ht).
    rewrite Hl in Hy. cbn [default id] in Hy. unfold parse in *. congruence.
  - intros Hx Hy _ Py. destruct (linked_reads b a value y rb ra Ua Hy Py Pb Pa) as (text & Hl & Ht).
    rewrite Hl in Hx. cbn [default id] in Hx. unfold parse in *. congruence.
Qed.
End typing.

(** C2.  Typing an amount fills in the other at the ratio of the pool, and the deposit of the two
    goes through: on a pool that has not changed, whose tokens move as asked, the
    transaction a press sends executes.  The wallet pays at most what is shown and less by no
    more than a unit and what a unit of the other token is worth, and gets the pool's shares
    for it; it pays exactly what is shown if the field typed in is that of the token the
    router fits the other to.  The tolerance has to be worth a unit of the other token. *)
Theorem linked_deposit_executes wd lib h field value p0 address block s e ps a b c ra rb x y :
  let p := typed lib h field value p0 in
  tokens_ok lib h p -> deadline_ok p -> actionDisabled lib h p = false -> liquidityAction lib h p = Some add ->
  q_publicClient h = true -> nonempty_text (q_address h) = Some address -> (forall l, wd_block wd l = Ok block) ->
  DECIMAL_INPUT_REGEX value = true -> exact_units lib (st_decimals a) -> exact_units lib (st_decimals b) ->
  orderedTokens p0 = (Some a, Some b) -> ordered_reserves h p0 = Some (ra, rb) ->
  parsedAmountA lib p = Some x -> parsedAmountB lib p = Some y ->
  wallet_pool e ps a b c ra rb -> se_timestamp e <= cb_timestamp block + 60 ->
  ra + x < 2 ^ 112 -> rb + y < 2 ^ 112 ->
  ra * 10000 <= x * liquidityBps p * rb -> rb * 10000 <= y * liquidityBps p * ra ->
  let got := shares_of (fst (taken a ra rb x y)) (snd (taken a ra rb x y)) ra rb (PairContract.lp_totalSupply c) in
  0 < got ->
  exists t k r,
    sent s (fst (press wd lib h p s)) [t] /\ liquidity_call_of t = Some k /\ exec_liquidity e k ps = Ok r
    /\ fst (paid a r) <= x /\ (x - fst (paid a r) - 1) * rb < ra
    /\ snd (paid a r) <= y /\ (y - snd (paid a r) - 1) * ra < rb
    /\ lr_liquidity r = got
    /\ (is_native a = match field with select_a => false | select_b => true end -> paid a r = (x, y)).
Proof.
  intros p Htk Hdl Hd Hk Hc Ha Hb Hv Ua Ub Ho Hr Hx Hy Hpool Hts Wa Wb Tx Ty got Hgot.
  destruct (press_submits lib h p Htk wd address block Hd Hk Hc Ha Hb)
    as (r0 & a' & b' & x' & y' & t & _ & Ho' & Hx' & Hy' & _ & _ & Hcall & E).
  assert (orderedTokens p = (Some a, Some b)) as Hop by (unfold p; by rewrite typed_tokens).
  rewrite Hop in Ho'. rewrite Hx in Hx'. rewrite Hy in Hy'.
  injection Ho' as <- <-. injection Hx' as <-. injection Hy' as <-.
  assert (0 < x /\ 0 < y) as [Px Py].
  { destruct (deposit_enabled lib h p Htk Hd Hk) as (_ & _ & _ & x' & y' & _ & _ & Hx' & Hy' & ? & ? & _).
    by simplify_eq. }
  pose proof (live_words _ _ _ _ _ _ _ (wp_live _ _ _ _ _ _ _ Hpool)) as [[Pa _] [Pb _]].
  pose proof (typed_links lib h field value p0 a b ra rb x y Ho Hr Pa Pb Hv Ua Ub Hx Hy Px Py) as Hl.
  destruct (taken_linked a ra rb x y Pa Pb Px Py) as (H1 & H2 & H3 & H4 & H5);
    [destruct field; [by left|by right]|].
  destruct (taken_within a ra rb x y Pa Pb Px Py) as [H6 H7]. destruct (deadline_minutes p Hdl) as [[Hm _] _].
  destruct (deposit_call_executes lib h p e ps a b c ra rb x y (address_value address)
    (cb_timestamp block + parsedDeadlineMinutes p * 60)) as (r & Hrx & Hpaid & Hgot'); try done; [lia| | |].
  - by apply (fitted_minimum p rb ra).
  - by apply (fitted_minimum p ra rb).
  - exists t, (deposit_call p a b x y (address_value address) (cb_timestamp block + parsedDeadlineMinutes p * 60)), r.
    rewrite E. split_and!; try done; rewrite ?Hpaid; try done; [apply submission_sent|].
    intros Hn. apply H5. unfold fits_to_A. rewrite Hn. by destruct field.
Qed.

(** ** Concrete instances *)

Lemma one_digit k : 0 <= k < 10 -> all_chars is_digit (dec k) = true /\ String.length (dec k) = 1%nat /\ dec_value (dec k) = k.
Proof.
  intros Hk. assert (k ∈ seqZ 0 10) as Hin by (apply elem_of_seqZ; lia). revert Hin.
  assert (Forall (fun k => all_chars is_digit (dec k) = true /\ String.length (dec k) = 1%nat /\ dec_value (dec k) = k)
            (seqZ 0 10)) as Hf by (vm_compute seqZ; repeat constructor). rewrite Forall_forall in Hf. apply Hf.
Qed.

Lemma last_digits_spec n v :
  0 <= v -> all_chars is_digit (last_digits n v) = true /\ String.length (last_digits n v) = n
            /\ dec_value (last_digits n v) = v mod 10 ^ Z.of_nat n.
Proof.
  revert v. induction n as [|n IH]; intros v Hv; [by rewrite Z.mod_1_r|]. cbn [last_digits].
  destruct (IH (v / 10)) as (D1 & D2 & D3); [by apply Z.div_pos|].
  destruct (one_digit (v mod 10)) as (E1 & E2 & E3); [by apply Z.mod_pos_bound|].
  split_and!; [by rewrite all_chars_app, D1, E1|rewrite length_string_app; lia|].
  rewrite dec_value_app, D3, E2, E3 by done. change (Z.of_nat 1) with 1. rewrite Nat2Z.inj_succ, Z.pow_succ_r by lia.
  assert (0 < 10 ^ Z.of_nat n) by (apply Z.pow_pos_nonneg; lia). rewrite Z.rem_mul_r by lia. lia.
Qed.

Lemma dec_value_dec n : 0 <= n -> dec_value (dec n) = n.
Proof.
  intros Hn. pose proof (bigint_of_string_dec n Hn) as H. rewrite bigint_of_digits in H
    by (by apply dec_all_digits || by apply dec_nonempty). unfold dec_value. unfold digits_value in H.
  destruct (str_nonempty (dec n)); [by rewrite H|done].
Qed.

Lemma exact_libraries_units d : 0 <= d -> exact_units exact_libraries d.
Proof.
  intros Hd. split.
  - intros t i f H _ _. unfold lib_parseUnits, exact_libraries, exact_parseUnits. by rewrite H.
  - intros v Hv. cbn [lib_formatUnits exact_libraries]. unfold exact_formatUnits.
    assert (0 < 10 ^ d) as H10 by (apply Z.pow_pos_nonneg; lia).
    assert (0 <= v / 10 ^ d) as Hq by (by apply Z.div_pos).
    destruct (last_digits_spec (Z.to_nat d) v Hv) as (D1 & D2 & D3). rewrite Z2Nat.id in D3 by done.
    destruct (drop_zeros_split (last_digits (Z.to_nat d) v)) as (z & Hf & Hz).
    apply all_zeros_value in Hz as [Dz Vz]. set (g := drop_trailing_zeros _) in *. clearbody g.
    rewrite Hf in D1, D2, D3. rewrite all_chars_app in D1. apply andb_true_iff in D1 as [Dg _].
    rewrite length_string_app in D2. rewrite dec_value_app, Vz in D3 by done.
    assert (dec_value (dec (v / 10 ^ d)) = v / 10 ^ d) as Hi by (by apply dec_value_dec).
    pose proof (dec_all_digits _ Hq) as Di. destruct (match_decimal_build _ g Di Dg) as [M1 M2].
    pose proof (Z.div_mod v (10 ^ d) ltac:(lia)) as Hdm.
    assert (10 ^ d = 10 ^ Z.of_nat (String.length g) * 10 ^ Z.of_nat (String.length z)) as Hp
      by (rewrite <- Z.pow_add_r by lia; f_equal; lia).
    assert (dec_value (dec (v / 10 ^ d) ++ g) * 10 ^ (d - Z.of_nat (String.length g)) = v) as Hval.
    { rewrite dec_value_app, Hi by done.
      replace (d - Z.of_nat (String.length g)) with (Z.of_nat (String.length z)) by lia. nia. }
    destruct g as [|ch g]; cbn [str_nonempty].
    + exists (dec (v / 10 ^ d)), "". rewrite app_empty_r in Hval |- *. split_and!; [done|by apply dec_nonempty|cbn; lia|done].
    + exists (dec (v / 10 ^ d)), (String ch g). split_and!; [done|by apply dec_nonempty|lia|done].
Qed.

Definition sample_deposit_world : wallet_world liquidity_page :=
  {| wd_write := fun _ _ => Ok "0xbeef";
     wd_block := fun _ => Ok {| cb_timestamp := 1700000000; cb_number := Some 7; cb_hash := Some "0x77" |};
     wd_receipt := fun _ _ => Ok true; wd_read := fun _ _ _ _ => Ok []; wd_interfere := fun _ p => p;
     wd_errorMessage := fun _ m => m |}.
Definition sample_start : wallet_screen liquidity_page := {| ws_page := sample_page; ws_trace := [] |}.
Definition sample_press : wallet_screen liquidity_page :=
  fst (press sample_deposit_world exact_libraries sample_liquidity_hooks sample_page sample_start).

Lemma sample_page_ok : page_ok exact_libraries sample_liquidity_hooks sample_page.
Proof.
  unfold sample_page, sample_events. change (map ?f [?a; ?b; ?c; ?d; ?e]) with ([f a; f b; f c; f d] ++ [f e])%list.
  rewrite run_page_snoc. apply event_keeps_page.
  assert (between exact_libraries sample_params
            (run_page exact_libraries (map (pair sample_liquidity_hooks)
               [ContinueClicked; DeadlineTyped "99"; DeadlineStepped (-5); SlippageTyped "1"]) (None, initial_page))) as Hb.
  { apply run_between; [|apply initial_between]. repeat (apply Forall_cons; split; [reflexivity|]). by apply Forall_nil. }
  cbn [map] in Hb. destruct (run_page _ _ _) as [chain p]. by eapply commit_ok.
Qed.

Lemma deposit_transaction_witness :
  exists t k, sent sample_start sample_press [t] /\ liquidity_call_of t = Some k
    /\ lt_submittedTx (ws_page sample_press) = Some ("0xbeef", add).
Proof.
  destruct (deposit_transaction sample_deposit_world exact_libraries sample_liquidity_hooks sample_page (addr "9")
    {| cb_timestamp := 1700000000; cb_number := Some 7; cb_hash := Some "0x77" |} sample_start)
    as (a & b & x & y & t & k & _ & _ & _ & _ & _ & Hs & _ & _ & _ & Hk & _ & _ & _ & _ & _ & _ & _ & Ht & _);
    [apply sample_page_ok|apply sample_page_ok|vm_compute; reflexivity|vm_compute; reflexivity|reflexivity
    |vm_compute; reflexivity|reflexivity|].
  exists t, k. split; [exact Hs|]. split; [exact Hk|]. apply Ht. reflexivity.
Defined.

(** 100 FLUX and 200 USDT. *)
Definition sample_liquidity_pair : PairContract.state :=
  {| PairContract.lp_totalSupply := 10 ^ 12;
     PairContract.lp_balances := {[ PairContract.zero_address := 1000; "0x07" := 10 ^ 12 - 1000 ]};
     PairContract.c_reserve0 := 100 * unit_amount; PairContract.c_reserve1 := 200 * 10 ^ 6;
     PairContract.blockTimestampLast := 1600000000; PairContract.price0CumulativeLast := 0;
     PairContract.price1CumulativeLast := 0 |}.
Definition sample_liquidity_pairs : pairs := {[ (5, 6) := sample_liquidity_pair ]}.
Definition sample_wallet_env : liquidity_env :=
  {| le_swap := {| se_timestamp := 1700000012; se_WETH := 4; se_router := 1; se_treasury := PairContract.zero_address;
                   se_bytes := fun a => dec a; se_transferFrom := fun _ _ => Ok tt |};
     le_sender := 7; le_pair_address := fun _ => 8; le_allowance := fun _ => 2 ^ 256 - 1;
     le_transfer := fun _ _ _ => Ok tt; le_sendETH := fun _ _ => Ok tt |}.

Definition sample_token (symbol name : string) (decimals : Z) (route : string) : SwapTokenOption :=
  {| st_symbol := symbol; st_name := name; st_decimals := decimals; st_kind := erc20; st_address := Some route;
     st_routeAddress := route |}.
Definition flux_option : SwapTokenOption := sample_token "FLUX" "Flux Token" 18 (addr "5").
Definition usdt_option : SwapTokenOption := sample_token "USDT" "Tether USD" 6 (addr "6").

Lemma sample_shares_ok : shares_ok sample_liquidity_pair.
Proof.
  constructor.
  - apply (bool_decide_unpack _). vm_compute. exact I.
  - vm_compute. reflexivity.
  - intros _. vm_compute. discriminate.
Qed.

Lemma sample_wallet_pool :
  wallet_pool sample_wallet_env sample_liquidity_pairs flux_option usdt_option sample_liquidity_pair
    (100 * unit_amount) (200 * 10 ^ 6).
Proof.
  constructor; [|done|done|by intros t [->| ->]].
  constructor; [reflexivity|split; [apply sample_shares_ok|vm_compute; repeat split; discriminate]|vm_compute; reflexivity
    |vm_compute; split; reflexivity|vm_compute; reflexivity|vm_compute; split; reflexivity|].
  vm_compute. repeat split; discriminate.
Qed.

(** The page before the last key of the sample. *)
Definition sample_before : liquidity_page :=
  snd (run_page exact_libraries (removelast sample_events) (None, initial_page)).

Lemma linked_deposit_executes_witness :
  exists t k r, sent sample_start sample_press [t] /\ liquidity_call_of t = Some k
    /\ exec_liquidity sample_wallet_env k sample_liquidity_pairs = Ok r
    /\ paid flux_option r = (3500000000000000000, 7000000).
Proof.
  assert (typed exact_libraries sample_liquidity_hooks select_a "3.5" sample_before = sample_page) as E by (vm_compute; reflexivity).
  destruct (linked_deposit_executes sample_deposit_world exact_libraries sample_liquidity_hooks select_a "3.5" sample_before
    (addr "9") {| cb_timestamp := 1700000000; cb_number := Some 7; cb_hash := Some "0x77" |} sample_start
    sample_wallet_env sample_liquidity_pairs flux_option usdt_option sample_liquidity_pair (100 * unit_amount) (200 * 10 ^ 6)
    3500000000000000000 7000000)
    as (t & k & r & Hs & Hk & Hr & _ & _ & _ & _ & _ & Hp); rewrite ?E;
    [apply sample_page_ok|apply sample_page_ok|vm_compute; reflexivity|vm_compute; reflexivity|reflexivity
    |vm_compute; reflexivity|reflexivity|vm_compute; reflexivity|by apply exact_libraries_units
    |by apply exact_libraries_units|vm_compute; reflexivity|vm_compute; reflexivity|vm_compute; reflexivity
    |vm_compute; reflexivity|apply sample_wallet_pool|vm_compute; discriminate|vm_compute; reflexivity
    |vm_compute; reflexivity|vm_compute; discriminate|vm_compute; discriminate|vm_compute; reflexivity|].
  exists t, k, r. rewrite E in Hs. split; [exact Hs|]. split; [exact Hk|]. split; [exact Hr|]. apply Hp. reflexivity.
Defined.
