(* ===== verification/Farms.v ===== *)
(** * The farms of the earn page (frontend/src/components/earn)

    How a farm is read from its contracts (earnFarmLoader.ts), how the list of farms is loaded
    and ordered (useEarnFarms.ts), and what the page derives from the list and from what is
    typed (useEarnFarmState.ts, useEarnFarmUiState.ts, EarnUtils.ts).  The portfolio page loads
    its farms with the same functions. *)

From S2P Require Import Prelude JsString JsNumber JsValue JsError JsSort Amounts FrontendConfig PageMonad.
From S2P Require StakingContract.
From Stdlib Require Import Ascii.
Open Scope string_scope.
Open Scope Z_scope.

(** ** EarnTypes.ts, EarnUtils.ts *)

Record token_meta := {
  tm_label : string;
  tm_tokenSymbol : string;
  tm_tokenName : string;
  tm_tokenDecimals : Z;
  tm_isLp : bool;
}.

Record wallet_farm_balances := {
  wb_walletBalance : Z;
  wb_stakedBalance : Z;
  wb_earnedRewards : Z;
  wb_allowance : Z;
}.

Record FarmRow := {
  fr_pid : Z;
  fr_poolAddress : string;
  fr_stakingToken : string;
  fr_rewardsToken : string;
  fr_active : bool;
  fr_allocPoint : Z;
  fr_totalAllocPoint : Z;
  fr_managerPendingRewards : Z;
  fr_totalStaked : Z;
  fr_rewardReserve : Z;
  fr_queuedRewards : Z;
  fr_pendingUserRewards : Z;
  fr_wallet :> wallet_farm_balances;
  fr_meta :> token_meta;
}.

Definition same_address (a b : string) : bool := String.eqb (to_lower a) (to_lower b).

Definition shortAddress (address : option string) : string :=
  match address with
  | Some a =>
    if str_nonempty a
    then String.substring 0 6 a ++ "..." ++ String.substring (String.length a - 4) 4 a
    else "--"
  | None => "--"
  end.

Definition normalizeTokenSymbol (symbol tokenAddress : string) (wrappedNativeAddress : option string) : string :=
  match wrappedNativeAddress with
  | Some w => if str_nonempty w && same_address tokenAddress w then "ETH" else symbol
  | None => symbol
  end.

Definition formatWeight (toLocaleString : num -> nat -> nat -> string) (allocPoint totalAllocPoint : Z) : string :=
  if (allocPoint <=? 0) || (totalAllocPoint <=? 0) then "0%"
  else
    let value := num_div (num_of_Z (Z.quot (allocPoint * 1000000) totalAllocPoint)) (num_of_Z 10000) in
    toLocaleString value (if num_leb (num_of_Z 10) value then 1%nat else 2%nat) 2%nat ++ "%".

Definition getTokenFallback (address : string) (knownTokens : list SwapTokenOption) : option SwapTokenOption :=
  find_first (fun token =>
    match st_address token with Some a => same_address a address | None => false end
    || same_address (st_routeAddress token) address) knownTokens.

(** ** earnFarmLoader.ts *)

(** Where a load reads: the counters of the manager, then for each pool the manager's entry, the
    pool's numbers, the staking token as a pair, the pair's tokens, the staking token as a plain
    token, and the wallet's numbers. *)
Inductive read_step := step_counters | step_entry | step_pool | step_pair | step_symbols | step_token | step_wallet.
Record read_site := { rs_pid : option Z; rs_step : read_step }.

(** What the node answers to [readContract], by the type of the function's result; which of
    several rejections comes first is its choice. *)
Record node := {
  nd_uint : read_site -> string -> string -> list abi_arg -> res js_error Z;
  nd_address : read_site -> string -> string -> list abi_arg -> res js_error string;
  nd_text : read_site -> string -> string -> list abi_arg -> res js_error string;
  nd_entry : read_site -> string -> string -> list abi_arg -> res js_error (string * Z * bool * Z * Z);
  nd_first : read_site -> list js_error -> js_error;
}.

Definition reason {A} (r : res js_error A) : list js_error :=
  match r with Ok _ => [] | Throw e => [e] end.
(** [p.catch(() => d)] *)
Definition or_default {A} (d : A) (r : res js_error A) : A := match r with Ok a => a | Throw _ => d end.
Definition fulfilled {A} (r : res js_error A) : option A := match r with Ok a => Some a | Throw _ => None end.

(** [Promise.all] of two promises. *)
Definition both {A B} (first : list js_error -> js_error) (a : res js_error A) (b : res js_error B)
  : res js_error (A * B) :=
  match a, b with
  | Ok x, Ok y => Ok (x, y)
  | _, _ => Throw (first (reason a ++ reason b)%list)
  end.

Fixpoint reasons {A} (l : list (res js_error A)) : list js_error :=
  match l with [] => [] | r :: l' => (reason r ++ reasons l')%list end.
Definition results {A} (l : list (res js_error A)) : list A := omap fulfilled l.
Definition all_of {A} (first : list js_error -> js_error) (l : list (res js_error A)) : res js_error (list A) :=
  match reasons l with [] => Ok (results l) | es => Throw (first es) end.

Lemma both_Ok {A B} first (a : res js_error A) (b : res js_error B) x y : both first a b = Ok (x, y) -> a = Ok x /\ b = Ok y.
Proof. destruct a, b; cbn; try done. by intros [= -> ->]. Qed.

Lemma fulfilled_Ok {A} (r : res js_error A) a : fulfilled r = Some a -> r = Ok a.
Proof. destruct r; cbn; [by intros [= ->]|done]. Qed.

Lemma all_of_Ok {A B} first (f : A -> res js_error B) l r :
  all_of first (f <$> l) = Ok r -> Forall2 (fun a b => f a = Ok b) l r.
Proof.
  unfold all_of. assert (reasons (f <$> l) = [] -> Forall2 (fun a b => f a = Ok b) l (results (f <$> l))) as H.
  { induction l as [|a l IH]; cbn; [constructor|]. destruct (f a) as [b|e] eqn:E; cbn; [|done]. intros Hr. by constructor; auto. }
  destruct (reasons (f <$> l)); [|done]. intros [= <-]. by apply H.
Qed.

Section load.
Variable nd : node.
Variable knownTokens : list SwapTokenOption.
Variable wrappedNativeAddress : option string.

Definition at_pool (pid : Z) (step : read_step) : read_site := {| rs_pid := Some pid; rs_step := step |}.

(** The staking token read as a pair, and as a plain token. *)
Definition read_pair_meta (pid : Z) (tokenAddress : string) : res js_error token_meta :=
  let site := at_pool pid step_pair in
  let first := nd_first nd site in
  res_bind (both first (both first (nd_address nd site tokenAddress "token0" []) (nd_address nd site tokenAddress "token1" []))
              (nd_uint nd site tokenAddress "decimals" [])) (fun pair =>
  let '(token0, token1, lpDecimals) := pair in
  let site := at_pool pid step_symbols in
  res_bind (both (nd_first nd site) (nd_text nd site token0 "symbol" []) (nd_text nd site token1 "symbol" [])) (fun symbols =>
  let normalizedToken0 := normalizeTokenSymbol (fst symbols) token0 wrappedNativeAddress in
  let normalizedToken1 := normalizeTokenSymbol (snd symbols) token1 wrappedNativeAddress in
  Ok {| tm_label := normalizedToken0 ++ " / " ++ normalizedToken1;
        tm_tokenSymbol := normalizedToken0 ++ "-" ++ normalizedToken1 ++ " LP";
        tm_tokenName := normalizedToken0 ++ " / " ++ normalizedToken1 ++ " LP";
        tm_tokenDecimals := lpDecimals; tm_isLp := true |})).

Definition read_plain_meta (pid : Z) (tokenAddress : string) : token_meta :=
  let site := at_pool pid step_token in
  let knownToken := getTokenFallback tokenAddress knownTokens in
  let symbol :=
    match fulfilled (nd_text nd site tokenAddress "symbol" []) with
    | Some s => normalizeTokenSymbol s tokenAddress wrappedNativeAddress
    | None => from_option st_symbol "TOKEN" knownToken
    end in
  let name := or_default (from_option st_name symbol knownToken) (nd_text nd site tokenAddress "name" []) in
  let decimals := or_default (from_option st_decimals 18 knownToken) (nd_uint nd site tokenAddress "decimals" []) in
  {| tm_label := symbol; tm_tokenSymbol := symbol; tm_tokenName := name; tm_tokenDecimals := decimals; tm_isLp := false |}.

Definition readEarnFarmTokenMeta (pid : Z) (tokenAddress : string) : token_meta :=
  match read_pair_meta pid tokenAddress with
  | Ok meta => meta
  | Throw _ => read_plain_meta pid tokenAddress
  end.

Definition readWalletFarmBalances (pid : Z) (stakingToken poolAddress : string) (address : option string)
    (isConnected : bool) : wallet_farm_balances :=
  let site := at_pool pid step_wallet in
  match address with
  | Some a =>
    if str_nonempty a && isConnected then
      {| wb_walletBalance := or_default 0 (nd_uint nd site stakingToken "balanceOf" [ArgAddress a]);
         wb_stakedBalance := or_default 0 (nd_uint nd site poolAddress "balanceOf" [ArgAddress a]);
         wb_earnedRewards := or_default 0 (nd_uint nd site poolAddress "earned" [ArgAddress a]);
         wb_allowance := or_default 0 (nd_uint nd site stakingToken "allowance" [ArgAddress a; ArgAddress poolAddress]) |}
    else {| wb_walletBalance := 0; wb_stakedBalance := 0; wb_earnedRewards := 0; wb_allowance := 0 |}
  | None => {| wb_walletBalance := 0; wb_stakedBalance := 0; wb_earnedRewards := 0; wb_allowance := 0 |}
  end.

(** The numbers of a pool: the first rejection of the required reads is the load's. *)
Record pool_numbers := {
  pn_stakingToken : string; pn_rewardsToken : string; pn_totalStaked : Z; pn_rewardReserve : Z;
  pn_queuedRewards : Z; pn_pendingUserRewards : Z;
}.
Definition read_pool_numbers (pid : Z) (poolAddress : string) : res js_error pool_numbers :=
  let site := at_pool pid step_pool in
  let uint name := nd_uint nd site poolAddress name [] in
  let stakingToken := nd_address nd site poolAddress "stakingToken" [] in
  let rewardsToken := nd_address nd site poolAddress "rewardsToken" [] in
  match stakingToken, rewardsToken, uint "totalStaked", uint "rewardReserve", uint "queuedRewards", uint "pendingUserRewards" with
  | Ok s, Ok r, Ok t, Ok v, Ok q, Ok p =>
    Ok {| pn_stakingToken := s; pn_rewardsToken := r; pn_totalStaked := t; pn_rewardReserve := v;
          pn_queuedRewards := q; pn_pendingUserRewards := p |}
  | _, _, _, _, _, _ =>
    Throw (nd_first nd site
      (reason stakingToken ++ reason rewardsToken ++ reason (uint "totalStaked") ++ reason (uint "rewardReserve")
       ++ reason (uint "queuedRewards") ++ reason (uint "pendingUserRewards"))%list)
  end.

Definition readEarnFarmRow (managerAddress : string) (address : option string) (isConnected : bool) (totalAllocPoint pid : Z)
  : res js_error FarmRow :=
  res_bind (nd_entry nd (at_pool pid step_entry) managerAddress "pools" [ArgUint pid]) (fun poolInfo =>
  let '(poolAddress, allocPoint, active, _, poolPendingRewardsFromInfo) := poolInfo in
  res_bind (read_pool_numbers pid poolAddress) (fun n =>
  let managerPendingRewards := or_default poolPendingRewardsFromInfo
        (nd_uint nd (at_pool pid step_pool) managerAddress "pendingPoolRewards" [ArgAddress poolAddress]) in
  Ok {| fr_pid := pid; fr_poolAddress := poolAddress; fr_stakingToken := pn_stakingToken n;
        fr_rewardsToken := pn_rewardsToken n; fr_active := active; fr_allocPoint := allocPoint;
        fr_totalAllocPoint := totalAllocPoint; fr_managerPendingRewards := managerPendingRewards;
        fr_totalStaked := pn_totalStaked n; fr_rewardReserve := pn_rewardReserve n;
        fr_queuedRewards := pn_queuedRewards n; fr_pendingUserRewards := pn_pendingUserRewards n;
        fr_wallet := readWalletFarmBalances pid (pn_stakingToken n) poolAddress address isConnected;
        fr_meta := readEarnFarmTokenMeta pid (pn_stakingToken n) |})).

(** ** useEarnFarms.ts *)

(** [Array.from({ length: poolCount }, ...)] *)
Definition pids (poolCount : Z) : list Z := Z.of_nat <$> seq 0 (Z.to_nat poolCount).

Definition read_farms (managerAddress : string) (address : option string) (isConnected : bool) : res js_error (list FarmRow) :=
  let site := {| rs_pid := None; rs_step := step_counters |} in
  res_bind (both (nd_first nd site) (nd_uint nd site managerAddress "poolLength" [])
                                   (nd_uint nd site managerAddress "totalAllocPoint" [])) (fun counters =>
  all_of (nd_first nd site)
    (readEarnFarmRow managerAddress address isConnected (snd counters) <$> pids (fst counters))).
End load.

(** [left] comes before [right] or is equal to it in the comparison of [loadFarms]. *)
Definition farm_le (left right : FarmRow) : bool :=
  if negb (Bool.eqb (fr_active left) (fr_active right)) then fr_active left
  else if negb (wb_stakedBalance left =? wb_stakedBalance right) then wb_stakedBalance right <? wb_stakedBalance left
  else fr_pid left <=? fr_pid right.

Definition sort_farms : list FarmRow -> list FarmRow := sort_by farm_le.

(** The state of the hook. *)
Record farms_state := {
  fs_farms : list FarmRow;
  fs_farmLoading : bool;
  fs_farmError : option string;
}.

Definition no_farms : farms_state := {| fs_farms := []; fs_farmLoading := false; fs_farmError := None |}.

(** What a load does to the state before it reads, and when its reads have settled. *)
Definition load_starts (background : bool) (s : farms_state) : farms_state :=
  {| fs_farms := fs_farms s; fs_farmLoading := negb background || fs_farmLoading s; fs_farmError := None |}.

Definition load_settles (background : bool) (reply : res js_error (list FarmRow)) (s : farms_state) : farms_state :=
  let loading := background && fs_farmLoading s in
  match reply with
  | Ok rows => {| fs_farms := sort_farms rows; fs_farmLoading := loading; fs_farmError := fs_farmError s |}
  | Throw error =>
    {| fs_farms := if background then fs_farms s else []; fs_farmLoading := loading;
       fs_farmError := Some (message_or error "Failed to load farms") |}
  end.

(** ** useEarnFarmState.ts *)

Section derived.
Variable parseUnits : string -> Z -> option Z.
Variable farms : list FarmRow.

Definition find_farm (selectedFarmAddress : option string) : option FarmRow :=
  match selectedFarmAddress with
  | Some a => if str_nonempty a then find_first (fun farm => same_address (fr_poolAddress farm) a) farms else None
  | None => None
  end.

Definition filteredFarms (searchQuery : string) (stakedOnly : bool) : list FarmRow :=
  let normalizedQuery := to_lower (trim searchQuery) in
  keep (fun farm : FarmRow =>
    if stakedOnly && (wb_stakedBalance farm <=? 0) then false
    else if negb (str_nonempty normalizedQuery) then true
    else includes (to_lower (tm_label farm)) normalizedQuery || includes (to_lower (tm_tokenSymbol farm)) normalizedQuery
         || includes (to_lower (fr_poolAddress farm)) normalizedQuery) farms.

Definition totalEarnedRewards : Z := foldl (fun sum (farm : FarmRow) => sum + wb_earnedRewards farm) 0 farms.
Definition totalManagerPendingRewards : Z := foldl (fun sum farm => sum + fr_managerPendingRewards farm) 0 farms.
Definition activeFarmCount : nat := length (keep fr_active farms).
Definition stakedFarmCount : nat := length (keep (fun farm : FarmRow => 0 <? wb_stakedBalance farm) farms).

(** A parsed amount when it is there and positive. *)
Definition positive_amount (amount : option Z) : option Z :=
  match amount with Some n => if 0 <? n then Some n else None | None => None end.

Variable farm : option FarmRow.

Definition parsed (text : string) : option Z :=
  match farm with Some f => parseAmount parseUnits text (tm_tokenDecimals f) | None => None end.

(** The farm is selected and a positive amount is more than what [limit] says of it. *)
Definition exceeds (limit : FarmRow -> Z) (amount : option Z) : bool :=
  match farm, positive_amount amount with
  | Some f, Some n => limit f <? n
  | _, _ => false
  end.
Definition stakeNeedsApproval (parsedStakeAmount : option Z) : bool := exceeds wb_allowance parsedStakeAmount.
Definition insufficientStakeBalance (parsedStakeAmount : option Z) : bool := exceeds wb_walletBalance parsedStakeAmount.
Definition insufficientWithdrawBalance (parsedWithdrawAmount : option Z) : bool := exceeds wb_stakedBalance parsedWithdrawAmount.
Definition canClaim : bool :=
  match farm with
  | Some f => (0 <? wb_earnedRewards f) || (0 <? fr_managerPendingRewards f) && (0 <? wb_stakedBalance f)
  | None => false
  end.
Definition canExit : bool := match farm with Some f => 0 <? wb_stakedBalance f | None => false end.
End derived.
