(* ===== verification/FarmPage.v ===== *)
(** * The earn page (frontend/src/components/earn)

    The state of the page (useEarnPageState.ts, useEarnFarms.ts, useEarnFarmActions.ts), its
    environment, the labels of its buttons (useEarnFarmUiState.ts, EarnFarmModal.tsx), the
    handler that approves, stakes, unstakes, claims or leaves a farm (useEarnFarmActions.ts,
    EarnFarmActionFeedback.ts), and the page over time. *)

From S2P Require Import Prelude JsString JsNumber JsValue JsError JsSort Amounts PageMonad FrontendConfig SwapQuotes SwapWidget WalletPage Farms.
Open Scope string_scope.
Open Scope Z_scope.

(** ** State *)

Inductive FarmAction := farm_approve | farm_stake | farm_withdraw | farm_claim | farm_exit.
#[export] Instance FarmAction_eq_dec : EqDecision FarmAction.
Proof. solve_decision. Defined.

Record EarnResultModalState := { er_kind : modal_kind; er_title : string; er_message : string }.

Record earn_page := {
  ep_searchQuery : string;
  ep_stakedOnly : bool;
  ep_selectedFarmAddress : option string;
  ep_stakeAmount : string;
  ep_withdrawAmount : string;
  ep_resultModal : option EarnResultModalState;
  ep_farms : farms_state;
  ep_activeAction : option FarmAction;
  ep_autoLoadKey : option string;
}.

Definition initial_earn_page : earn_page :=
  {| ep_searchQuery := ""; ep_stakedOnly := false; ep_selectedFarmAddress := None; ep_stakeAmount := "";
     ep_withdrawAmount := ""; ep_resultModal := None; ep_farms := no_farms; ep_activeAction := None;
     ep_autoLoadKey := None |}.

Section setters.
Variable p : earn_page.
Definition set_filter (query : string) (stakedOnly : bool) : earn_page :=
  {| ep_searchQuery := query; ep_stakedOnly := stakedOnly; ep_selectedFarmAddress := ep_selectedFarmAddress p;
     ep_stakeAmount := ep_stakeAmount p; ep_withdrawAmount := ep_withdrawAmount p; ep_resultModal := ep_resultModal p;
     ep_farms := ep_farms p; ep_activeAction := ep_activeAction p; ep_autoLoadKey := ep_autoLoadKey p |}.
Definition set_panel (selected : option string) (stakeAmount withdrawAmount : string) : earn_page :=
  {| ep_searchQuery := ep_searchQuery p; ep_stakedOnly := ep_stakedOnly p; ep_selectedFarmAddress := selected;
     ep_stakeAmount := stakeAmount; ep_withdrawAmount := withdrawAmount; ep_resultModal := ep_resultModal p;
     ep_farms := ep_farms p; ep_activeAction := ep_activeAction p; ep_autoLoadKey := ep_autoLoadKey p |}.
Definition set_outcome (modal : option EarnResultModalState) (active : option FarmAction) : earn_page :=
  {| ep_searchQuery := ep_searchQuery p; ep_stakedOnly := ep_stakedOnly p;
     ep_selectedFarmAddress := ep_selectedFarmAddress p; ep_stakeAmount := ep_stakeAmount p;
     ep_withdrawAmount := ep_withdrawAmount p; ep_resultModal := modal; ep_farms := ep_farms p;
     ep_activeAction := active; ep_autoLoadKey := ep_autoLoadKey p |}.
Definition set_loaded (farms : farms_state) (key : option string) : earn_page :=
  {| ep_searchQuery := ep_searchQuery p; ep_stakedOnly := ep_stakedOnly p;
     ep_selectedFarmAddress := ep_selectedFarmAddress p; ep_stakeAmount := ep_stakeAmount p;
     ep_withdrawAmount := ep_withdrawAmount p; ep_resultModal := ep_resultModal p; ep_farms := farms;
     ep_activeAction := ep_activeAction p; ep_autoLoadKey := key |}.
End setters.

Definition set_stakeAmount (v : string) (p : earn_page) : earn_page :=
  set_panel p (ep_selectedFarmAddress p) v (ep_withdrawAmount p).
Definition set_withdrawAmount (v : string) (p : earn_page) : earn_page :=
  set_panel p (ep_selectedFarmAddress p) (ep_stakeAmount p) v.
Definition set_resultModal (modal : option EarnResultModalState) (p : earn_page) : earn_page :=
  set_outcome p modal (ep_activeAction p).
Definition set_activeAction (active : option FarmAction) (p : earn_page) : earn_page :=
  set_outcome p (ep_resultModal p) active.
Definition update_farms (f : farms_state -> farms_state) (p : earn_page) : earn_page :=
  set_loaded p (f (ep_farms p)) (ep_autoLoadKey p).

Definition selectFarm (poolAddress : string) (p : earn_page) : earn_page := set_panel p (Some poolAddress) "" "".
Definition resetFarmPanel (p : earn_page) : earn_page := set_panel p None "" "".

(** ** Environment and render *)

(** What the hooks give a render. *)
Record earn_hooks := {
  eh_isZh : bool;
  eh_chainId : Z;
  eh_publicClient : bool;
  eh_address : option string;
  eh_isConnected : bool;
  eh_openConnectModal : bool;
}.

Section render.
Variable lib : libraries.
Variable h : earn_hooks.
Variable p : earn_page.

Definition say (zh en : string) : string := if eh_isZh h then zh else en.
Definition contract_of (name : string) : option string := lib_contract lib name (Some (eh_chainId h)).
Definition supportedChain : bool := lib_supported lib (Some (eh_chainId h)).
Definition managerAddress : option string := contract_of "FluxMultiPoolManager".
Definition wrappedNativeAddress : option string := contract_of "MockWETH".
Definition knownTokens : list SwapTokenOption := getSwapTokenOptions contract_of.
Definition localGasOverride : option Z := getLocalGasOverride (Some (eh_chainId h)) 8000000.

Definition farms : list FarmRow := fs_farms (ep_farms p).
Definition selectedFarm : option FarmRow := find_farm farms (ep_selectedFarmAddress p).
Definition parsedStakeAmount : option Z := parsed (lib_parseUnits lib) selectedFarm (ep_stakeAmount p).
Definition parsedWithdrawAmount : option Z := parsed (lib_parseUnits lib) selectedFarm (ep_withdrawAmount p).
Definition needsApproval : bool := stakeNeedsApproval selectedFarm parsedStakeAmount.
Definition insufficientStake : bool := insufficientStakeBalance selectedFarm parsedStakeAmount.
Definition insufficientWithdraw : bool := insufficientWithdrawBalance selectedFarm parsedWithdrawAmount.

Definition is_action (a : FarmAction) : bool := bool_decide (ep_activeAction p = Some a).
Definition modalBusy : bool := match ep_activeAction p with Some _ => true | None => false end.
Definition no_amount (amount : option Z) : bool :=
  match positive_amount amount with Some _ => false | None => true end.

Definition stakeButtonLabel : string :=
  if negb (eh_isConnected h) then say "连接钱包" "Connect Wallet"
  else if is_action farm_approve then say "授权中..." "Approving..."
  else if is_action farm_stake then say "质押中..." "Staking..."
  else if no_amount parsedStakeAmount then say "请输入质押数量" "Enter stake amount"
  else if insufficientStake then say "钱包 LP 余额不足" "Insufficient LP balance"
  else if needsApproval then say "授权 LP" "Approve LP"
  else say "质押" "Stake".

Definition no_farm : bool := match selectedFarm with Some _ => false | None => true end.
Definition stakeButtonDisabled : bool :=
  modalBusy || eh_isConnected h && (no_farm || no_amount parsedStakeAmount || insufficientStake).
Definition withdrawButtonDisabled : bool :=
  modalBusy || eh_isConnected h && (no_farm || no_amount parsedWithdrawAmount || insufficientWithdraw).
Definition claimButtonDisabled : bool := modalBusy || negb (canClaim selectedFarm).
Definition exitButtonDisabled : bool := modalBusy || negb (canExit selectedFarm).

(** The buttons of the panel: whether the browser drops a press, and the action of a press. *)
Inductive farm_button := button_stake | button_withdraw | button_claim | button_exit.
Definition button_disabled (b : farm_button) : bool :=
  match b with
  | button_stake => stakeButtonDisabled
  | button_withdraw => withdrawButtonDisabled
  | button_claim => claimButtonDisabled
  | button_exit => exitButtonDisabled
  end.
Definition button_action (b : farm_button) : FarmAction :=
  match b with
  | button_stake => if needsApproval then farm_approve else farm_stake
  | button_withdraw => farm_withdraw
  | button_claim => farm_claim
  | button_exit => farm_exit
  end.

Definition withdrawButtonLabel : string :=
  if is_action farm_withdraw then say "解除质押中..." "Unstaking..."
  else if insufficientWithdraw then say "已质押余额不足" "Insufficient staked balance"
  else say "解除质押" "Unstake".
Definition claimButtonLabel : string :=
  if is_action farm_claim then say "领取中..." "Claiming..." else say "领取奖励" "Claim Rewards".
Definition exitButtonLabel : string :=
  if is_action farm_exit then say "退出中..." "Exiting..." else say "全部退出" "Exit Farm".

(** The farms of a tab of the list. *)
Definition visibleFarms (lp : bool) : list FarmRow :=
  keep (fun farm : FarmRow => Bool.eqb (tm_isLp farm) lp) (filteredFarms farms (ep_searchQuery p) (ep_stakedOnly p)).

(** The texts the MAX buttons fill in. *)
Definition max_stake : option string :=
  (fun f : FarmRow => lib_formatUnits lib (wb_walletBalance f) (tm_tokenDecimals f)) <$> selectedFarm.
Definition max_withdraw : option string :=
  (fun f : FarmRow => lib_formatUnits lib (wb_stakedBalance f) (tm_tokenDecimals f)) <$> selectedFarm.

Definition closeFarmModal : earn_page := if modalBusy then p else resetFarmPanel p.

Definition shouldResetStakeAmount (action : FarmAction) : bool :=
  bool_decide (action = farm_approve) || bool_decide (action = farm_stake).
Definition shouldResetWithdrawAmount (action : FarmAction) : bool :=
  bool_decide (action = farm_withdraw) || bool_decide (action = farm_exit).

Definition buildEarnFarmSuccessState (action : FarmAction) : EarnResultModalState :=
  {| er_kind := modal_success;
     er_title := match action with
                 | farm_approve => say "授权成功" "Approval successful"
                 | _ => say "操作成功" "Action successful" end;
     er_message := match action with
                   | farm_approve => say "LP 授权已完成，现在可以继续质押。" "LP approval completed. You can now stake."
                   | _ => say "操作已完成，农场数据已刷新。" "Action completed. Farm data has been refreshed." end |}.
End render.

(** ** Loading and acting *)

Open Scope act_scope.

(** What answers the page: the wallet and the node as in WalletPage.v, and the reads of a load,
    as a function of the trace. *)
Record earn_world := {
  ew_wallet :> wallet_world earn_page;
  ew_node : list wallet_event -> node;
}.

Section handlers.
Variable wd : earn_world.
Variable lib : libraries.
Variable h : earn_hooks.
(** The state of the render the handler closed over. *)
Variable p : earn_page.

Notation act := (act (wallet_screen earn_page)).

Definition loadFarms (background : bool) : act unit :=
  match managerAddress lib h with
  | Some manager =>
    if negb (eh_publicClient h) || negb (supportedChain lib h) || negb (str_nonempty manager)
    then set_page (update_farms (fun _ => no_farms))
    else
      run set_page (update_farms (load_starts background));
      await reply <- ask wd AskedReads (fun l => Ok
        (read_farms (ew_node wd l) (knownTokens lib h) (wrappedNativeAddress lib h) manager (eh_address h) (eh_isConnected h)));
      set_page (update_farms (load_settles background reply))
  | None => set_page (update_farms (fun _ => no_farms))
  end.

Definition transaction (address functionName : string) (args : list abi_arg) : contract_write :=
  {| cw_address := address; cw_functionName := functionName; cw_args := args; cw_value := None;
     cw_chainId := eh_chainId h; cw_gas := localGasOverride h |}.

Definition executeEarnFarmAction (action : FarmAction) (farm : FarmRow) (stakeAmount withdrawAmount : option Z) : act string :=
  let pool := fr_poolAddress farm in
  match action with
  | farm_approve => write wd (transaction (fr_stakingToken farm) "approve" [ArgAddress pool; ArgUint maxUint256])
  | farm_stake =>
    match positive_amount stakeAmount with
    | Some n => write wd (transaction pool "stake" [ArgUint n])
    | None => done_with (Throw (Error "invalid_stake_amount"))
    end
  | farm_withdraw =>
    match positive_amount withdrawAmount with
    | Some n => write wd (transaction pool "withdraw" [ArgUint n])
    | None => done_with (Throw (Error "invalid_withdraw_amount"))
    end
  | farm_claim => write wd (transaction pool "getReward" [])
  | farm_exit => write wd (transaction pool "exit" [])
  end.

Definition waitForReceipt (hash : string) : act bool := ask wd (AwaitedReceipt hash) (fun l => wd_receipt wd l hash).

Definition run_body (action : FarmAction) (farm : FarmRow) : act unit :=
  await txHash <- executeEarnFarmAction action farm (parsedStakeAmount lib p) (parsedWithdrawAmount lib p);
  await success <- waitForReceipt txHash;
  if negb success
  then done_with (Throw (Error (say h "链上交易未成功执行。" "The on-chain transaction was not successful.")))
  else
    run loadFarms true;
    run set_page (fun q => if shouldResetStakeAmount action then set_stakeAmount "" q else q);
    run set_page (fun q => if shouldResetWithdrawAmount action then set_withdrawAmount "" q else q);
    set_page (set_resultModal (Some (buildEarnFarmSuccessState h action))).

Definition report (error : js_error) : act unit :=
  if bool_decide (err_message error = Some "invalid_stake_amount")
     || bool_decide (err_message error = Some "invalid_withdraw_amount")
  then return_
  else set_page (set_resultModal (Some
         {| er_kind := modal_error; er_title := say h "操作失败" "Action failed";
            er_message := wd_errorMessage wd error (say h "你已取消钱包确认。" "You rejected this wallet action.") |})).

Definition runFarmAction (action : FarmAction) : act unit :=
  match nonempty_text (eh_address h) with
  | Some _ =>
    if negb (eh_isConnected h) then (if eh_openConnectModal h then emit ConnectOpened else return_)
    else match selectedFarm p with
    | Some farm =>
      if negb (eh_publicClient h) then return_
      else
        run set_page (set_resultModal None);
        run set_page (set_activeAction (Some action));
        act_finally (act_catch (run_body action farm) report) (on_page (set_activeAction None))
    | None => return_
    end
  | None => if eh_openConnectModal h then emit ConnectOpened else return_
  end.

(** A press of a button of the panel, which is there while a farm is selected. *)
Definition press_farm (b : farm_button) : act unit :=
  match selectedFarm p with
  | Some _ => if button_disabled lib h p b then return_ else runFarmAction (button_action lib p b)
  | None => return_
  end.
End handlers.

(** The loads a render starts by itself: none while the key is that of the load before. *)
Definition auto_load_key (lib : libraries) (h : earn_hooks) : string :=
  (if supportedChain lib h then "true" else "false") ++ ":" ++ default "" (managerAddress lib h) ++ ":"
  ++ default "" (eh_address h) ++ ":" ++ (if eh_isConnected h then "true" else "false") ++ ":"
  ++ (if eh_publicClient h then "ready" else "missing").

Definition auto_load (wd : earn_world) (lib : libraries) (h : earn_hooks) (p : earn_page)
  : act (wallet_screen earn_page) unit :=
  if bool_decide (ep_autoLoadKey p = Some (auto_load_key lib h)) then return_
  else run set_page (fun q => set_loaded q (ep_farms q) (Some (auto_load_key lib h)));
       loadFarms wd lib h false.

(** The farm a link selects. *)
Definition link_effect (isAddress : string -> bool) (pool : option string) (p : earn_page) : earn_page :=
  match nonempty_text pool with
  | Some a => if isAddress a then set_panel p (Some a) (ep_stakeAmount p) (ep_withdrawAmount p) else p
  | None => p
  end.

(** Whichever load settles last is shown, be it of an earlier render or not. *)
Lemma last_settled_shown b b' rows rows' s :
  fs_farms (load_settles b (Ok rows) (load_settles b' rows' s)) = sort_farms rows.
Proof. done. Qed.

(** ** What a press does *)

Section press.
Variable wd : earn_world.
Variable lib : libraries.
Variable h : earn_hooks.
Variable p : earn_page.

Lemma load_quiet background : quiet (loadFarms wd lib h background).
Proof.
  unfold loadFarms. destruct (managerAddress lib h); [|apply wallet_quiet_set].
  destruct (_ || _); [apply wallet_quiet_set|]. apply wallet_quiet_bind; [apply wallet_quiet_set|]. intros _.
  apply wallet_quiet_bind; [by apply wallet_quiet_ask|]. intros reply. apply wallet_quiet_set.
Qed.

Lemma farm_report_quiet e : quiet (report wd h e).
Proof. unfold report. destruct (_ || _); [apply wallet_quiet_done|apply wallet_quiet_set]. Qed.

(** After the transaction the handler only waits and loads. *)
Definition confirmed (action : FarmAction) (txHash : string) : act (wallet_screen earn_page) unit :=
  await success <- waitForReceipt wd txHash;
  if negb success
  then done_with (Throw (Error (say h "链上交易未成功执行。" "The on-chain transaction was not successful.")))
  else
    run loadFarms wd lib h true;
    run set_page (fun q => if shouldResetStakeAmount action then set_stakeAmount "" q else q);
    run set_page (fun q => if shouldResetWithdrawAmount action then set_withdrawAmount "" q else q);
    set_page (set_resultModal (Some (buildEarnFarmSuccessState h action))).

Lemma confirmed_quiet action txHash : quiet (confirmed action txHash).
Proof.
  unfold confirmed, waitForReceipt. apply wallet_quiet_bind; [by apply wallet_quiet_ask|]. intros success.
  destruct (negb success); [apply wallet_quiet_done|].
  repeat (apply wallet_quiet_bind; [first [apply load_quiet|apply wallet_quiet_set]|intros _]). apply wallet_quiet_set.
Qed.

(** The transaction a button stands for, on the farm [f]. *)
Definition stands_for (b : farm_button) (f : FarmRow) (t : contract_write) : Prop :=
  let pool := fr_poolAddress f in
  match b with
  | button_stake => exists n, parsedStakeAmount lib p = Some n /\ 0 < n <= wb_walletBalance f
      /\ if wb_allowance f <? n
         then t = transaction h (fr_stakingToken f) "approve" [ArgAddress pool; ArgUint maxUint256]
         else t = transaction h pool "stake" [ArgUint n]
  | button_withdraw => exists n, parsedWithdrawAmount lib p = Some n /\ 0 < n <= wb_stakedBalance f
      /\ t = transaction h pool "withdraw" [ArgUint n]
  | button_claim => t = transaction h pool "getReward" []
      /\ (0 < wb_earnedRewards f \/ 0 < fr_managerPendingRewards f /\ 0 < wb_stakedBalance f)
  | button_exit => t = transaction h pool "exit" [] /\ 0 < wb_stakedBalance f
  end.

Lemma positive_amount_Some a n : positive_amount a = Some n <-> a = Some n /\ 0 < n.
Proof.
  unfold positive_amount. destruct a as [m|]; [|naive_solver]. destruct (0 <? m) eqn:E; bool_solve; [naive_solver|].
  split; [done|]. intros [[= ->] ?]. lia.
Qed.

(** An amount that is there and does not exceed what it is held against. *)
Lemma amount_fits limit f a :
  no_amount a = false -> exceeds (Some f) limit a = false ->
  exists n, a = Some n /\ positive_amount a = Some n /\ 0 < n <= limit f.
Proof.
  unfold no_amount, exceeds. destruct (positive_amount a) as [n|] eqn:E; [|done]. intros _ Hx. bool_solve.
  exists n. pose proof (proj1 (positive_amount_Some a n) E) as [-> ?]. split_and!; [done|done|lia|lia].
Qed.

Lemma press_executes b f :
  selectedFarm p = Some f -> eh_isConnected h = true -> button_disabled lib h p b = false ->
  exists t, stands_for b f t
    /\ executeEarnFarmAction wd h (button_action lib p b) f (parsedStakeAmount lib p) (parsedWithdrawAmount lib p) = write wd t.
Proof.
  intros Hf Hc Hd. unfold button_disabled in Hd. destruct b; cbn [button_action stands_for].
  - unfold stakeButtonDisabled in Hd. rewrite Hc, andb_true_l in Hd. bool_solve.
    unfold insufficientStake, insufficientStakeBalance in *. rewrite Hf in *.
    edestruct (amount_fits wb_walletBalance f (parsedStakeAmount lib p)) as (n & Hn & Hp & Hle); [eassumption..|].
    unfold needsApproval, stakeNeedsApproval, exceeds. rewrite Hf, Hp. cbn [executeEarnFarmAction].
    destruct (wb_allowance f <? n) eqn:E; eexists; (split; [exists n; rewrite E; split_and!; (done || lia)|]);
      cbn [executeEarnFarmAction]; by rewrite ?Hp.
  - unfold withdrawButtonDisabled in Hd. rewrite Hc, andb_true_l in Hd. bool_solve.
    unfold insufficientWithdraw, insufficientWithdrawBalance in *. rewrite Hf in *.
    edestruct (amount_fits wb_stakedBalance f (parsedWithdrawAmount lib p)) as (n & Hn & Hp & Hle); [eassumption..|].
    eexists. split; [exists n; split_and!; (done || lia)|]. cbn [executeEarnFarmAction]. by rewrite Hp.
  - unfold claimButtonDisabled, canClaim in Hd. rewrite Hf in Hd. bool_solve. eexists. split; [|done]. split; [done|].
    apply orb_true_iff in H0 as [H0|H0]; bool_solve; [by left|right; by bool_solve].
  - unfold exitButtonDisabled, canExit in Hd. rewrite Hf in Hd. bool_solve. by eexists.
Qed.
End press.

(** ** The outcome of a press *)

(** A transaction as the world settles it: written, mined and successful, or an exception. *)
Definition settles (wd : earn_world) (h : earn_hooks) (l : list wallet_event) (t : contract_write) : res js_error unit :=
  res_bind (wd_write wd (l ++ [Wrote t])%list t) (fun hash =>
  res_bind (wd_receipt wd (l ++ [Wrote t; AwaitedReceipt hash])%list hash) (fun success =>
  if success : bool then Ok tt
  else Throw (Error (say h "链上交易未成功执行。" "The on-chain transaction was not successful.")))).

(** The dialog of an exception: the handler's own complaints about the amount show none. *)
Definition failure_dialog (wd : earn_world) (h : earn_hooks) (e : js_error) : EarnResultModalState :=
  {| er_kind := modal_error; er_title := say h "操作失败" "Action failed";
     er_message := wd_errorMessage wd e (say h "你已取消钱包确认。" "You rejected this wallet action.") |}.
Definition complains (e : js_error) : Prop :=
  err_message e = Some "invalid_stake_amount" \/ err_message e = Some "invalid_withdraw_amount".

(** A press that can act: the panel is open, its button enabled and the wallet there. *)
Definition can_act (lib : libraries) (h : earn_hooks) (p : earn_page) (b : farm_button) (f : FarmRow) : Prop :=
  selectedFarm p = Some f /\ button_disabled lib h p b = false /\ eh_isConnected h = true
  /\ (exists a, nonempty_text (eh_address h) = Some a) /\ eh_publicClient h = true.

Section outcome.
Variable wd : earn_world.
Variable lib : libraries.
Variable h : earn_hooks.
Variable p : earn_page.

Lemma loadFarms_ends background s : exists s', loadFarms wd lib h background s = (s', Ok tt).
Proof.
  unfold loadFarms, act_bind, set_page, update, ask. destruct (managerAddress lib h); [|by eexists].
  destruct (_ || _); cbn; by eexists.
Qed.

Lemma press_idle b s :
  (forall f, ~ can_act lib h p b f) ->
  press_farm wd lib h p b s = (s, Ok tt) \/ press_farm wd lib h p b s = (with_event ConnectOpened s, Ok tt).
Proof.
  intros Hn. unfold press_farm. destruct (selectedFarm p) as [f|] eqn:Hf; [|by left].
  destruct (button_disabled lib h p b) eqn:Hd; [by left|]. unfold runFarmAction.
  assert (Hc : (if eh_openConnectModal h then emit ConnectOpened else return_) s = (s, Ok tt)
               \/ (if eh_openConnectModal h then emit ConnectOpened else return_) s = (with_event ConnectOpened s, Ok tt))
    by (destruct (eh_openConnectModal h); [by right|by left]).
  destruct (nonempty_text (eh_address h)) as [a|] eqn:Ha; [|done].
  destruct (eh_isConnected h) eqn:Hi; [|done]. cbn [negb]. rewrite Hf.
  destruct (eh_publicClient h) eqn:Hp; [|by left]. exfalso. apply (Hn f). split_and!; try done. by exists a.
Qed.

Lemma press_runs b f s :
  can_act lib h p b f ->
  press_farm wd lib h p b s
  = act_finally (act_catch (run_body wd lib h p (button_action lib p b) f) (report wd h))
      (on_page (set_activeAction None)) (on_page (set_activeAction (Some (button_action lib p b))) (on_page (set_resultModal None) s)).
Proof.
  intros (Hf & Hd & Hi & [a Ha] & Hp). unfold press_farm, runFarmAction. by rewrite Hf, Hd, Ha, Hi, Hp.
Qed.

Lemma confirmed_ok b txHash s :
  wd_receipt wd (ws_trace s ++ [AwaitedReceipt txHash])%list txHash = Ok true ->
  exists s' st l, confirmed wd lib h b txHash s = (s', Ok tt)
    /\ ep_resultModal (ws_page s') = Some (buildEarnFarmSuccessState h b)
    /\ (forall manager, managerAddress lib h = Some manager -> str_nonempty manager = true ->
        eh_publicClient h = true -> supportedChain lib h = true ->
        ep_farms (ws_page s') = load_settles true
          (read_farms (ew_node wd l) (knownTokens lib h) (wrappedNativeAddress lib h) manager (eh_address h) (eh_isConnected h)) st).
Proof.
  intros Hr. unfold confirmed, waitForReceipt, act_bind at 1, ask. cbn [with_event ws_trace]. rewrite Hr. cbn [negb].
  set (s1 := waited _ _ _). unfold act_bind at 1. destruct (loadFarms_ends true s1) as [s2 H2]. rewrite H2.
  unfold act_bind, set_page, update, on_page. cbn [ws_page ws_trace]. eexists _, _, _. split; [done|]. split; [done|].
  intros manager Hm Hne Hpc Hsc. unfold loadFarms, act_bind, set_page, update, ask in H2. rewrite Hm, Hne, Hpc, Hsc in H2.
  cbn in H2. injection H2 as <-. destruct (shouldResetStakeAmount b), (shouldResetWithdrawAmount b); cbn; reflexivity.
Qed.

Lemma confirmed_throws b txHash s r :
  wd_receipt wd (ws_trace s ++ [AwaitedReceipt txHash])%list txHash = r -> r <> Ok true ->
  exists s' e, confirmed wd lib h b txHash s = (s', Throw e)
    /\ res_bind r (fun success => if success : bool then Ok tt
         else Throw (Error (say h "链上交易未成功执行。" "The on-chain transaction was not successful."))) = Throw e.
Proof.
  intros Hr Hn. unfold confirmed, waitForReceipt, act_bind, ask. cbn [with_event ws_trace]. rewrite Hr.
  destruct r as [[]|e]; [done| |]; cbn; by eexists _, _.
Qed.

(** What the dialog and the farms are after a press that acted. *)
Definition press_outcome (action : FarmAction) (r : res js_error unit) (s' : wallet_screen earn_page) : Prop :=
  ep_activeAction (ws_page s') = None
  /\ match r with
     | Ok _ => ep_resultModal (ws_page s') = Some (buildEarnFarmSuccessState h action)
         /\ (forall manager, managerAddress lib h = Some manager -> str_nonempty manager = true ->
             supportedChain lib h = true ->
             exists l st, ep_farms (ws_page s') = load_settles true
               (read_farms (ew_node wd l) (knownTokens lib h) (wrappedNativeAddress lib h) manager (eh_address h) (eh_isConnected h)) st)
     | Throw e => complains e \/ ep_resultModal (ws_page s') = Some (failure_dialog wd h e)
     end.

Lemma reported action e s :
  exists s', act_finally (fun s => report wd h e s) (on_page (set_activeAction None)) s = (s', Ok tt)
             /\ press_outcome action (Throw e) s'.
Proof.
  unfold act_finally, report. destruct (_ || _) eqn:E; cbn; eexists; (split; [done|split; [done|]]).
  - left. apply orb_true_iff in E as [E|E]; bool_solve; [by left|by right].
  - by right.
Qed.

Lemma body_outcome action t f s :
  eh_publicClient h = true ->
  executeEarnFarmAction wd h action f (parsedStakeAmount lib p) (parsedWithdrawAmount lib p) = write wd t ->
  exists s', act_finally (act_catch (run_body wd lib h p action f) (report wd h)) (on_page (set_activeAction None)) s = (s', Ok tt)
    /\ press_outcome action (settles wd h (ws_trace s) t) s'.
Proof.
  intros Hpc Hx. unfold run_body. rewrite Hx. fold (confirmed wd lib h action).
  unfold act_finally, act_catch, act_bind, write, ask, settles. cbn [with_event ws_trace].
  destruct (wd_write wd (ws_trace s ++ [Wrote t])%list t) as [hash|e]; cbn [res_bind].
  - set (s1 := waited _ _ _). assert (Ht : (ws_trace s ++ [Wrote t; AwaitedReceipt hash] = ws_trace s1 ++ [AwaitedReceipt hash])%list).
    { unfold s1, waited. cbn. by rewrite <- app_assoc. }
    rewrite Ht. destruct (wd_receipt wd (ws_trace s1 ++ [AwaitedReceipt hash])%list hash) as [[]|e] eqn:Hr.
    + destruct (confirmed_ok action hash s1 Hr) as (s2 & st & l & -> & Hm & Hl). cbn [fst snd res_bind].
      eexists. split; [done|]. split; [done|]. split; [exact Hm|]. intros manager H1 H2 H3. eauto.
    + destruct (confirmed_throws action hash s1 _ Hr) as (s2 & e & -> & He); [done|]. cbn [res_bind] in *. injection He as <-.
      destruct (reported action (Error (say h "链上交易未成功执行。" "The on-chain transaction was not successful.")) s2) as (s' & Hr' & Hs').
      exists s'. split; [exact Hr'|exact Hs'].
    + destruct (confirmed_throws action hash s1 _ Hr) as (s2 & e' & -> & He); [done|]. cbn [res_bind] in *. injection He as <-.
      destruct (reported action e s2) as (s' & Hr' & Hs').
    exists s'. split; [exact Hr'|exact Hs'].
  - destruct (reported action e (waited wd (Wrote t) s)) as (s' & Hr' & Hs').
    exists s'. split; [exact Hr'|exact Hs'].
Qed.

Lemma body_sends action t f :
  executeEarnFarmAction wd h action f (parsedStakeAmount lib p) (parsedWithdrawAmount lib p) = write wd t ->
  sends t (act_finally (act_catch (run_body wd lib h p action f) (report wd h)) (on_page (set_activeAction None))).
Proof.
  intros Hx s. apply wallet_sent_page. unfold run_body. rewrite Hx.
  refine (sends_catch t _ _ _ (farm_report_quiet wd h) s). apply (sends_then wd), confirmed_quiet.
Qed.
End outcome.

(** A press in the farm panel never throws.  If the panel is open on a farm, the button
    enabled and the wallet connected, it sends exactly one transaction, the one its button
    stands for on that farm: the amount typed, positive and within the wallet's or the staked
    balance shown, is staked or withdrawn, after an approval of the pool when the allowance is
    too small; or the rewards are claimed, or the farm is left.  No action is running when it
    ends; the dialog says success exactly when the transaction was confirmed, with the farms
    read again by then, and otherwise says why not.  In every other case nothing is sent. *)
Theorem farm_press_sends wd lib h p b s :
  exists s', press_farm wd lib h p b s = (s', Ok tt)
  /\ ((exists f t, can_act lib h p b f /\ stands_for lib h p b f t /\ sent s s' [t]
        /\ press_outcome wd lib h (button_action lib p b) (settles wd h (ws_trace s) t) s')
      \/ (forall f, ~ can_act lib h p b f) /\ (s' = s \/ s' = with_event ConnectOpened s)).
Proof.
  destruct (selectedFarm p) as [f|] eqn:Hf.
  2: { destruct (press_idle wd lib h p b s) as [H|H]; [intros f (? & _); congruence| |];
       eexists; (split; [exact H|]); right; (split; [intros f (? & _); congruence|]); auto. }
  assert (Hdec : can_act lib h p b f \/ ~ can_act lib h p b f).
  { unfold can_act. destruct (button_disabled lib h p b), (eh_isConnected h), (nonempty_text (eh_address h)) eqn:E, (eh_publicClient h);
      try (right; naive_solver); left; split_and!; try done; by eexists. }
  destruct Hdec as [Hc|Hc].
  - pose proof Hc as (_ & Hd & Hi & _ & Hp). destruct (press_executes wd lib h p b f Hf Hi Hd) as (t & Ht & Hx).
    rewrite (press_runs wd lib h p b f s Hc).
    set (s1 := on_page (set_activeAction _) _).
    destruct (body_outcome wd lib h p _ t f s1 Hp Hx) as (s' & H & Ho). exists s'. split; [exact H|]. left.
    exists f, t. split_and!; [done|done| |exact Ho].
    pose proof (body_sends wd lib h p _ t f Hx s1) as Hs. rewrite H in Hs. exact Hs.
  - assert (Hn : forall g, ~ can_act lib h p b g) by (intros g Hg; apply Hc; destruct Hg as (Hg & ?); by replace f with g by congruence).
    destruct (press_idle wd lib h p b s Hn) as [H|H]; eexists; (split; [exact H|]); right; auto.
Qed.
