(* ===== verification/FarmRewards.v ===== *)
(** * The farms against their pools

    The page of FarmPage.v on the contracts of StakingContract.v: what a load shows of the
    pools, and what the transactions its buttons send do there. *)

From S2P Require Import Prelude JsString JsNumber JsValue JsError JsSort Amounts PageMonad FrontendConfig Subgraph RouterContract SwapQuotes SwapWidget WalletPage Farms FarmPage.
From S2P Require Import StakingContract.
Import Subgraph.PairContract(u256, udiv).
From stdpp Require Import sorting.
Open Scope string_scope.
Open Scope Z_scope.

(** ** What a load shows *)

(** A deployed pool: its tokens and its storage. *)
Record deployed_pool := { dp_stakingToken : string; dp_rewardsToken : string; dp_state : staking }.

(** The contracts of the farms while a load reads them. *)
Record farm_chain := {
  fc_entries : list (string * Z * bool * Z * Z);
  fc_totalAllocPoint : Z;
  fc_pool : string -> option deployed_pool;
}.

(** The node answers the reads of a load with the numbers of the contracts; what else it is asked
    (symbols, token balances, the manager's pending rewards) is up to it. *)
Record answers (c : farm_chain) (manager : string) (nd : node) : Prop := {
  an_length : forall site, nd_uint nd site manager "poolLength" [] = Ok (Z.of_nat (length (fc_entries c)));
  an_alloc : forall site, nd_uint nd site manager "totalAllocPoint" [] = Ok (fc_totalAllocPoint c);
  an_entry : forall site i entry, fc_entries c !! i = Some entry ->
    nd_entry nd site manager "pools" [ArgUint (Z.of_nat i)] = Ok entry;
  an_tokens : forall site a q, fc_pool c a = Some q ->
    nd_address nd site a "stakingToken" [] = Ok (dp_stakingToken q)
    /\ nd_address nd site a "rewardsToken" [] = Ok (dp_rewardsToken q);
  an_numbers : forall site a q, fc_pool c a = Some q ->
    nd_uint nd site a "totalStaked" [] = Ok (totalStaked (dp_state q))
    /\ nd_uint nd site a "rewardReserve" [] = Ok (rewardReserve (dp_state q))
    /\ nd_uint nd site a "queuedRewards" [] = Ok (queuedRewards (dp_state q))
    /\ nd_uint nd site a "pendingUserRewards" [] = Ok (pendingUserRewards (dp_state q));
  an_account : forall site a q user, fc_pool c a = Some q ->
    nd_uint nd site a "balanceOf" [ArgAddress user] = Ok (read (balanceOf (dp_state q)) (address_value user))
    /\ match earned (address_value user) (dp_state q) with
       | Ok v => nd_uint nd site a "earned" [ArgAddress user] = Ok v
       | Throw _ => exists e, nd_uint nd site a "earned" [ArgAddress user] = Throw e
       end;
}.

(** A row shows a pool, and of it the stake and the rewards of an account. *)
Record row_shows (f : FarmRow) (q : deployed_pool) (user : string) : Prop := {
  rs_stakingToken : fr_stakingToken f = dp_stakingToken q;
  rs_rewardsToken : fr_rewardsToken f = dp_rewardsToken q;
  rs_totalStaked : fr_totalStaked f = totalStaked (dp_state q);
  rs_rewardReserve : fr_rewardReserve f = rewardReserve (dp_state q);
  rs_queuedRewards : fr_queuedRewards f = queuedRewards (dp_state q);
  rs_pendingUserRewards : fr_pendingUserRewards f = pendingUserRewards (dp_state q);
  rs_staked : wb_stakedBalance f = read (balanceOf (dp_state q)) (address_value user);
  rs_earned : wb_earnedRewards f = or_default 0 (match earned (address_value user) (dp_state q) with
                                                 | Ok v => Ok v | Throw _ => Throw (Error "") end);
}.

Section loaded.
Variables (c : farm_chain) (manager : string) (nd : node) (known : list SwapTokenOption) (weth : option string) (user : string).
Hypothesis Hnode : answers c manager nd.
Hypothesis Huser : str_nonempty user = true.

Lemma read_row_shows i a alloc active debt pending q :
  fc_entries c !! i = Some (a, alloc, active, debt, pending) -> fc_pool c a = Some q ->
  exists f, readEarnFarmRow nd known weth manager (Some user) true (fc_totalAllocPoint c) (Z.of_nat i) = Ok f
    /\ fr_pid f = Z.of_nat i /\ fr_poolAddress f = a /\ fr_allocPoint f = alloc /\ fr_active f = active
    /\ fr_totalAllocPoint f = fc_totalAllocPoint c /\ row_shows f q user.
Proof.
  intros He Hq. destruct Hnode as [_ _ Hentry Htok Hnum Hacc]. unfold readEarnFarmRow.
  rewrite (Hentry _ i _ He). cbn [res_bind]. unfold read_pool_numbers.
  destruct (Htok (at_pool (Z.of_nat i) step_pool) a q Hq) as [-> ->].
  destruct (Hnum (at_pool (Z.of_nat i) step_pool) a q Hq) as (-> & -> & -> & ->). cbn [res_bind].
  eexists. split; [done|]. split_and!; try done.
  destruct (Hacc (at_pool (Z.of_nat i) step_wallet) a q user Hq) as [Hb Hr].
  constructor; try done; cbn [fr_wallet pn_stakingToken readWalletFarmBalances]; unfold readWalletFarmBalances;
    rewrite Huser; cbn [andb wb_stakedBalance wb_earnedRewards].
  - by rewrite Hb.
  - destruct (earned _ _); [by rewrite Hr|]. by destruct Hr as [x ->].
Qed.

Lemma reasons_none {A} (l : list (res js_error A)) rows : l = Ok <$> rows -> reasons l = [] /\ results l = rows.
Proof.
  intros ->. induction rows as [|r rows [IH1 IH2]]; [done|]. cbn. unfold results in *. cbn. by rewrite IH1, IH2.
Qed.

Lemma rows_exist {A B} (f : A -> res js_error B) (l : list A) :
  (forall x, x ∈ l -> exists b, f x = Ok b) -> exists rows, f <$> l = Ok <$> rows.
Proof.
  induction l as [|x l IH]; intros H; [by exists []|]. destruct (H x) as [b Hb]; [left|].
  destruct IH as [rows Hr]; [intros y Hy; apply H; by right|]. exists (b :: rows). by rewrite !fmap_cons, Hb, Hr.
Qed.

Lemma rows_keys {A B} (f : A -> res js_error B) (g : B -> A) (l : list A) rows :
  (forall x b, f x = Ok b -> g b = x) -> f <$> l = Ok <$> rows -> g <$> rows = l.
Proof.
  intros Hg. revert rows. induction l as [|x l IH]; intros [|b rows] H; try done.
  rewrite !fmap_cons in H. injection H as Hx Hl. rewrite fmap_cons, (IH rows Hl). by rewrite (Hg x b Hx).
Qed.

Lemma row_pid address connected alloc pid f :
  readEarnFarmRow nd known weth manager address connected alloc pid = Ok f -> fr_pid f = pid.
Proof.
  unfold readEarnFarmRow. intros H. apply res_bind_Ok in H as ([[[[a al] ac] d] pe] & _ & H).
  apply res_bind_Ok in H as (n & _ & H). by injection H as <-.
Qed.

Lemma pids_elem n x : x ∈ pids (Z.of_nat n) <-> exists i, x = Z.of_nat i /\ (i < n)%nat.
Proof.
  unfold pids. rewrite Nat2Z.id, list_elem_of_fmap. split; intros (i & -> & Hi); exists i; (split; [done|]);
    [apply elem_of_seq in Hi; lia|apply elem_of_seq; lia].
Qed.

Definition pools_deployed : Prop :=
  Forall (fun e : string * Z * bool * Z * Z => is_Some (fc_pool c e.1.1.1.1)) (fc_entries c).

Lemma read_farms_rows :
  pools_deployed ->
  exists rows, read_farms nd known weth manager (Some user) true = Ok rows
    /\ (readEarnFarmRow nd known weth manager (Some user) true (fc_totalAllocPoint c) <$> pids (Z.of_nat (length (fc_entries c))))
       = Ok <$> rows.
Proof.
  intros Hdep. destruct (rows_exist (readEarnFarmRow nd known weth manager (Some user) true (fc_totalAllocPoint c))
                           (pids (Z.of_nat (length (fc_entries c))))) as [rows Hr].
  { intros x Hx. apply pids_elem in Hx as (i & -> & Hi). apply lookup_lt_is_Some in Hi as [[[[[a alloc] active] debt] pending] Hi].
    unfold pools_deployed in Hdep. rewrite Forall_lookup in Hdep. destruct (Hdep i _ Hi) as [q Hq].
    destruct (read_row_shows i _ _ _ _ _ q Hi Hq) as (f & Hf & _). by exists f. }
  exists rows. split; [|done]. unfold read_farms. destruct Hnode as [Hl Ha _ _ _ _]. rewrite Hl, Ha. cbn [both res_bind fst snd].
  unfold all_of. apply reasons_none in Hr as Hrs. destruct Hrs as [-> ->]. done.
Qed.
End loaded.

(** ** The order of the list *)

Lemma farm_le_total a b : farm_le a b = true \/ farm_le b a = true.
Proof.
  unfold farm_le. destruct (fr_active a), (fr_active b); cbn; auto;
    rewrite (Z.eqb_sym (wb_stakedBalance b)); destruct (wb_stakedBalance a =? wb_stakedBalance b) eqn:E; cbn; bool_solve;
    rewrite ?Z.leb_le, ?Z.ltb_lt; lia.
Qed.

Lemma farm_le_spec a b :
  farm_le a b = true <->
  (fr_active a = true /\ fr_active b = false)
  \/ (fr_active a = fr_active b
      /\ (wb_stakedBalance b < wb_stakedBalance a
          \/ wb_stakedBalance a = wb_stakedBalance b /\ fr_pid a <= fr_pid b)).
Proof.
  unfold farm_le. destruct (fr_active a), (fr_active b); cbn; try naive_solver;
    destruct (wb_stakedBalance a =? wb_stakedBalance b) eqn:E; cbn; bool_solve; rewrite ?Z.leb_le, ?Z.ltb_lt;
    intuition (try lia; try congruence).
Qed.

Lemma farm_le_trans a b c : farm_le a b = true -> farm_le b c = true -> farm_le a c = true.
Proof. rewrite !farm_le_spec. intuition (try congruence; try lia). Qed.

Lemma sort_farms_sorted rows : StronglySorted (fun a b => farm_le a b = true) (sort_farms rows).
Proof.
  apply (sort_by_sorted farm_le (fun _ => True)); [intros; apply farm_le_total|intros; by eapply farm_le_trans|].
  by apply Forall_true.
Qed.

(** C17.  A load shows the contracts.  When the node answers with the numbers of the manager and of
    its pools, a load of a connected wallet succeeds and lists each pool of the manager once,
    at its index, with its weight, its totals, and the stake and earned rewards of the wallet
    as the pool's contract has them; active farms come first, then those with more staked, then
    the older ones. *)
Theorem load_shows_contracts c manager nd known weth user background s :
  answers c manager nd -> str_nonempty user = true -> pools_deployed c ->
  let reply := read_farms nd known weth manager (Some user) true in
  let farms := fs_farms (load_settles background reply s) in
  is_ok reply = true
  /\ fr_pid <$> farms ≡ₚ pids (Z.of_nat (length (fc_entries c)))
  /\ (forall f, f ∈ farms -> exists i entry q, fr_pid f = Z.of_nat i /\ fc_entries c !! i = Some entry
        /\ entry.1.1 = (fr_poolAddress f, fr_allocPoint f, fr_active f)
        /\ fr_totalAllocPoint f = fc_totalAllocPoint c
        /\ fc_pool c (fr_poolAddress f) = Some q /\ row_shows f q user)
  /\ StronglySorted (fun a b => farm_le a b = true) farms.
Proof.
  intros Hn Hu Hdep. destruct (read_farms_rows c manager nd known weth user Hn Hu Hdep) as (rows & -> & Hrows).
  cbn [load_settles fs_farms]. split; [done|].
  assert (Hrow : forall f, f ∈ rows -> exists i, (i < length (fc_entries c))%nat
            /\ readEarnFarmRow nd known weth manager (Some user) true (fc_totalAllocPoint c) (Z.of_nat i) = Ok f).
  { intros f Hf. assert (Ok f ∈ (Ok (E := js_error)) <$> rows) as Hin by (apply list_elem_of_fmap; by exists f). rewrite <- Hrows in Hin.
    apply list_elem_of_fmap in Hin as (x & Hx & Hp). apply pids_elem in Hp as (i & -> & Hi). exists i. by split. }
  assert (Hshow : forall f i, (i < length (fc_entries c))%nat ->
            readEarnFarmRow nd known weth manager (Some user) true (fc_totalAllocPoint c) (Z.of_nat i) = Ok f ->
            exists entry q, fr_pid f = Z.of_nat i /\ fc_entries c !! i = Some entry
              /\ entry.1.1 = (fr_poolAddress f, fr_allocPoint f, fr_active f)
              /\ fr_totalAllocPoint f = fc_totalAllocPoint c /\ fc_pool c (fr_poolAddress f) = Some q /\ row_shows f q user).
  { intros f i Hi Hf. apply lookup_lt_is_Some in Hi as [[[[[a alloc] active] debt] pending] Hi].
    unfold pools_deployed in Hdep. rewrite Forall_lookup in Hdep. destruct (Hdep i _ Hi) as [q Hq]. cbn in Hq.
    destruct (read_row_shows c manager nd known weth user Hn Hu i _ _ _ _ _ q Hi Hq) as (g & Hg & E1 & E2 & E3 & E4 & E5 & Hs).
    rewrite Hg in Hf. injection Hf as <-. exists (a, alloc, active, debt, pending), q. subst. by split_and!. }
  split_and!.
  - unfold sort_farms. rewrite (sort_by_perm farm_le rows). 
    enough (fr_pid <$> rows = pids (Z.of_nat (length (fc_entries c)))) as -> by done.
    eapply rows_keys; [|exact Hrows]. intros. by eapply row_pid.
  - intros f Hf. unfold sort_farms in Hf. rewrite (sort_by_perm farm_le rows) in Hf.
    destruct (Hrow f Hf) as (i & Hi & Hr). destruct (Hshow f i Hi Hr) as (entry & q & ?). by exists i, entry, q.
  - apply sort_farms_sorted.
Qed.

(** ** Calls that succeed *)

Lemma apply_defined s :
  books s -> queuedRewards s * PRECISION + rewardPerTokenStored s * totalStaked s < 2 ^ 256 ->
  rewardPerTokenStored s + queuedRewards s * PRECISION < 2 ^ 256 ->
  exists r, _applyRewardAmount 0 s = Ok r.
Proof.
  intros Hb Hw Hw2. pose proof (books_total s Hb) as Ht. pose proof (bk_queued s Hb) as Hq. pose proof (bk_paid s Hb 0) as Hr.
  pose proof precision_pos as HP. unfold _applyRewardAmount.
  assert (Hq2 : queuedRewards s <= queuedRewards s * PRECISION) by nia.
  rewrite Z.add_0_l, u256_ok by nia. cbn [res_bind]. destruct (_ || _) eqn:E; [by eexists|]. bool_solve.
  rewrite u256_ok by nia. cbn [res_bind]. unfold udiv. rewrite (proj2 (Z.eqb_neq (totalStaked s) 0)) by done. cbn [negb res_bind].
  set (d := _ / totalStaked s). destruct (d =? 0) eqn:E; [by eexists|].
  pose proof (Z.mul_div_le (queuedRewards s * PRECISION) (totalStaked s) ltac:(lia)) as Hd. fold d in Hd.
  assert (Hd0 : 0 <= d) by (apply Z.div_pos; lia).
  assert (Hdq : d <= queuedRewards s * PRECISION) by nia.
  rewrite u256_ok by nia. cbn [res_bind].
  rewrite u256_ok by nia. cbn [res_bind]. rewrite u256_ok by nia. cbn [res_bind].
  set (new := (rewardPerTokenStored s + d) * totalStaked s). set (old := rewardPerTokenStored s * totalStaked s).
  assert (Hon : old <= new) by (subst new old; nia). assert (Hno : new <= old + queuedRewards s * PRECISION) by (subst new old; nia).
  pose proof (Z.div_le_mono old new PRECISION HP Hon). pose proof (Z.div_le_mono _ _ PRECISION HP Hno) as H3.
  rewrite Z.div_add in H3 by lia. rewrite u256_ok by lia. cbn [res_bind]. rewrite u256_ok by lia. cbn [res_bind]. by eexists.
Qed.

Lemma flush_defined s :
  books s -> queuedRewards s * PRECISION + rewardPerTokenStored s * totalStaked s < 2 ^ 256 ->
  rewardPerTokenStored s + queuedRewards s * PRECISION < 2 ^ 256 ->
  exists s', _flushQueuedRewards s = Ok (s', []) /\ balanceOf s' = balanceOf s.
Proof.
  intros Hb Hw Hw2. unfold _flushQueuedRewards. destruct (_ && _); [|by eexists].
  destruct (apply_defined s Hb Hw Hw2) as [r Hr]. rewrite Hr. apply apply_rate in Hr as (Hbal & _); [|done|lia].
  cbn [res_bind]. by eexists.
Qed.

Lemma farm_update_defined a s : a <> 0 -> books s -> words s a -> solvent a s -> updates a s = Ok (settle a s, []).
Proof.
  intros Ha Hb Hw Hs. destruct (proj2 (updateReward_iff a s Ha Hb Hw) Hs) as [s' H]. unfold updates. rewrite H.
  by apply updateReward_Ok in H as [-> _].
Qed.

Lemma settle_books n a s : sound n s -> solvent a s -> books (settle a s).
Proof. intros Hs Hv. apply (settle_sound n a s Hs). unfold solvent in Hv. lia. Qed.

(** Every transfer of the pool to [a] is made. *)
Definition pays_out (e : staking_env) (a : address) : Prop := forall token amount, moves e (Sent token a amount) = true.

Lemma pay_defined pl e a s :
  books s -> pendingUserRewards s <= rewardReserve s -> rewardReserve s < 2 ^ 256 -> pays_out e a ->
  exists s' evs, _payReward pl e a s = Ok (s', evs) /\ balanceOf s' = balanceOf s
    /\ received (rewardsToken pl) a evs = read (rewards s) a /\ 0 <= received (stakingToken pl) a evs.
Proof.
  intros Hb Hp Hw Hm. pose proof (read_total _ a (bk_rewards s Hb)) as Hle. rewrite (bk_pending s Hb) in Hle.
  pose proof (read_nonneg _ a (bk_rewards s Hb)). unfold _payReward.
  destruct (0 <? _) eqn:E; bool_solve; [|eexists _, []; split_and!; try done; cbn; lia].
  rewrite !u256_ok by lia. cbn [res_bind]. unfold safeTransfer. rewrite Hm. eexists _, _.
  split; [reflexivity|]. split; [done|]. split; [cbn; by rewrite !Z.eqb_refl, Z.add_0_r|].
  cbn. destruct (_ && _); lia.
Qed.

(** What a call needs of the pool it has opened to settle [a]. *)
Record ready (a : address) (s : staking) : Prop := {
  rd_words : words s a;
  rd_solvent : solvent a s;
}.

Section executes.
Variables (pl : pool) (e : staking_env) (s : staking) (n : Z).
Hypothesis Hsound : sound n s.
Hypothesis Hcalled : well_called pl e.
Hypothesis Hpays : pays_out e (sender e).
Notation user := (sender e).

Lemma opened_sound s2 evs : opened pl e s = Ok (s2, evs) -> exists m, sound m s2.
Proof.
  intros H. destruct Hcalled as [_ Hw _].
  apply (spec_then _ _ _ _ _ (sync_sound pl e n (totalStaked s) Hw) (flush_sound _ _) s _ (conj Hsound eq_refl)) in H.
  by exists (n + rounding (totalStaked s) + rounding (totalStaked s)); apply H.
Qed.

(** Opening a pool sends nothing and never lowers what an account has earned. *)
Lemma opened_rate s2 evs :
  opened pl e s = Ok (s2, evs) ->
  balanceOf s2 = balanceOf s /\ (forall token to, received token to evs = 0)
  /\ credit user s + read (rewards s) user <= credit user s2 + read (rewards s2) user
  /\ (totalStaked s = 0 -> totalStaked s2 = 0).
Proof.
  intros H. pose proof Hsound as [Hb _]. destruct Hcalled as [_ Hw _]. unfold opened in H.
  apply then_Ok in H as (r1 & r2 & H1 & H2 & [= -> ->]).
  pose proof (sync_sound pl e n (totalStaked s) Hw s r1 (conj Hsound eq_refl) H1) as [[Hb1 _] Ht1].
  apply sync_rate in H1 as (E1 & E2 & E3 & E4 & E5); [|done..].
  pose proof (credit_grows user s (fst r1) Hb E1 E3 E4) as Hg. unfold _flushQueuedRewards in H2. destruct (_ && _) in H2.
  - apply res_bind_Ok in H2 as (x & H2 & [= <-]). pose proof (apply_same 0 _ _ H2) as [Ht2 _].
    apply apply_rate in H2 as (F1 & F2 & F3 & F4); [|done|lia].
    pose proof (credit_grows user (fst r1) (snd x) Hb1 F1 F3 F4). cbn [fst snd]. rewrite F1, F2, E1, E2. split_and!; [done| |lia|lia].
    intros. rewrite received_app, E5. done.
  - injection H2 as <-. cbn [fst snd]. rewrite E1, E2. split_and!; [done| |lia|lia]. intros. by rewrite received_app, E5.
Qed.

Lemma withdraw_executes x s2 evs :
  opened pl e s = Ok (s2, evs) -> ready user s2 -> 0 < x <= read (balanceOf s) user ->
  exists s' evs', withdraw pl e x s = Ok (s', evs')
    /\ read (balanceOf s') user = read (balanceOf s) user - x /\ received (stakingToken pl) user evs' = x.
Proof.
  intros Ho [Hw Hsol] [Hx0 Hx]. destruct (opened_sound s2 evs Ho) as [m [Hb Hc]]. destruct (opened_rate s2 evs Ho) as (E1 & E2 & _ & _).
  pose proof (wc_sender _ _ Hcalled) as Hu. destruct (settle_read user s2) as (R1 & R2 & _).
  pose proof (read_total _ user (bk_balances s2 Hb)) as Hle. rewrite (bk_total s2 Hb), E1 in Hle. destruct (Hw) as [_ _ W3 _].
  unfold withdraw. rewrite <- then_assoc. fold (opened pl e s). rewrite Ho. unfold then_ at 1. cbn [res_bind fst snd].
  rewrite (farm_update_defined user s2 Hu Hb Hw Hsol). unfold then_ at 1. cbn [res_bind fst snd]. rewrite R1, R2, E1.
  rewrite (proj2 (Z.ltb_lt 0 x) Hx0), (proj2 (Z.leb_le _ _) Hx), !u256_ok by lia. cbn [res_bind].
  unfold safeTransfer. rewrite Hpays. cbn [then_ emits res_bind fst snd]. eexists _, _. split; [reflexivity|]. split.
  - cbn. by rewrite read_insert, decide_True.
  - rewrite received_app, E2. cbn. rewrite !Z.eqb_refl. cbn. lia.
Qed.

Lemma exit_executes s2 evs :
  opened pl e s = Ok (s2, evs) -> ready user s2 -> 0 < read (balanceOf s) user ->
  exists s' evs', exit pl e s = Ok (s', evs')
    /\ read (balanceOf s') user = 0 /\ read (balanceOf s) user <= received (stakingToken pl) user evs'
    /\ credit user s + read (rewards s) user <= received (rewardsToken pl) user evs'.
Proof.
  intros Ho [Hw Hsol] Hx. destruct (opened_sound s2 evs Ho) as [m Hs2]. pose proof Hs2 as [Hb Hc].
  destruct (opened_rate s2 evs Ho) as (E1 & E2 & E3 & _).
  pose proof (wc_sender _ _ Hcalled) as Hu. destruct (settle_read user s2) as (R1 & R2 & R3 & R4).
  pose proof (read_total _ user (bk_balances s2 Hb)) as Hle. rewrite (bk_total s2 Hb), E1 in Hle. pose proof Hw as [W1 _ W3 _].
  unfold exit. rewrite <- then_assoc. fold (opened pl e s). rewrite Ho. unfold then_ at 1. cbn [res_bind fst snd].
  rewrite (farm_update_defined user s2 Hu Hb Hw Hsol). unfold then_ at 1. cbn [res_bind fst snd]. rewrite R1, R2, E1.
  rewrite (proj2 (Z.ltb_lt 0 _) Hx), u256_ok by lia. cbn [res_bind].
  unfold safeTransfer. rewrite Hpays. cbn [then_ emits res_bind fst snd].
  set (s3 := set_stake _ _ _).
  assert (Hs3 : books s3).
  { assert (Hse : sound m (settle user s2)) by (apply (settle_sound m user s2 Hs2); unfold solvent in Hsol; lia).
    pose proof (unstake_sound e m (<[user := 0]> (balanceOf (settle user s2))) (read (balanceOf s) user) (settle user s2) Hse (settle_settled user s2)) as Hk.
    rewrite R1, R2, E1 in Hk. apply Hk; [lia|]. by rewrite Z.sub_diag. }
  destruct (pay_defined pl e user s3 Hs3) as (s4 & l4 & H4 & B4 & P4 & Q4).
  { unfold s3. cbn [set_stake pendingUserRewards rewardReserve]. rewrite R3, R4. exact Hsol. }
  { unfold s3. cbn [set_stake rewardReserve]. lia. }
  { exact Hpays. }
  rewrite H4. cbn [res_bind fst snd]. eexists _, _. split; [reflexivity|]. split_and!.
  - rewrite B4. unfold s3. cbn. by rewrite read_insert, decide_True.
  - rewrite !received_app, E2. cbn. rewrite !Z.eqb_refl. cbn. lia.
  - rewrite !received_app, E2, P4. unfold s3. cbn [set_stake rewards]. rewrite settle_rewards by done. cbn.
    destruct (_ && _); lia.
Qed.

Lemma claim_executes s1 evs :
  _syncRewards pl e s = Ok (s1, evs) -> ready user s1 ->
  exists s' evs', getReward pl e s = Ok (s', evs').
Proof.
  intros Ho [Hw Hsol]. destruct Hcalled as [Hu Hpw _].
  pose proof (sync_sound pl e n (totalStaked s) Hpw s _ (conj Hsound eq_refl) Ho) as [Hs1 _]. cbn [fst] in Hs1.
  pose proof Hs1 as [Hb1 _]. destruct (settle_read user s1) as (R1 & R2 & R3 & R4). pose proof Hw as [W1 _ _ _].
  unfold getReward. rewrite Ho. unfold then_ at 1. cbn [res_bind fst snd].
  rewrite (farm_update_defined user s1 Hu Hb1 Hw Hsol). unfold then_. cbn [res_bind fst snd].
  destruct (pay_defined pl e user (settle user s1)) as (s4 & l4 & H4 & _).
  - by apply (settle_books _ _ _ Hs1).
  - rewrite R3, R4. exact Hsol.
  - by rewrite R3.
  - exact Hpays.
  - rewrite H4. cbn [res_bind fst snd]. by eexists _, _.
Qed.

Lemma settle_lower a s2 :
  books s2 -> solvent a s2 ->
  rewardPerTokenStored (settle a s2) = rewardPerTokenStored s2 /\ queuedRewards (settle a s2) <= queuedRewards s2.
Proof.
  intros Hb Hs. unfold settle. destruct (_ <? queuedRewards s2) eqn:E; bool_solve; cbn; [|split; [done|lia]]. split; [done|lia].
Qed.

(** There is room for [x] more of stake. *)
Definition room (x : Z) (s2 : staking) : Prop :=
  totalStaked s2 + x < 2 ^ 256
  /\ queuedRewards s2 * PRECISION + rewardPerTokenStored s2 * (totalStaked s2 + x) < 2 ^ 256
  /\ rewardPerTokenStored s2 + queuedRewards s2 * PRECISION < 2 ^ 256.

Lemma stake_executes x s2 evs :
  opened pl e s = Ok (s2, evs) -> ready user s2 -> 0 < x -> room x s2 ->
  moves e (Pulled (stakingToken pl) user x) = true ->
  exists s' evs', stake pl e x s = Ok (s', evs') /\ read (balanceOf s') user = read (balanceOf s) user + x.
Proof.
  intros Ho [Hw Hsol] Hx (Hr1 & Hr2 & Hr3) Hm. destruct (opened_sound s2 evs Ho) as [m Hs2]. pose proof Hs2 as [Hb Hc].
  destruct (opened_rate s2 evs Ho) as (E1 & _ & _ & E4).
  pose proof (wc_sender _ _ Hcalled) as Hu. destruct (settle_read user s2) as (R1 & R2 & R3 & R4).
  destruct (settle_lower user s2 Hb Hsol) as [Q1 Q2].
  pose proof (read_total _ user (bk_balances s2 Hb)) as Hle. rewrite (bk_total s2 Hb), E1 in Hle.
  pose proof (read_nonneg _ user (bk_balances s2 Hb)) as Hbn. rewrite E1 in Hbn. pose proof (books_total s2 Hb).
  unfold stake. rewrite <- then_assoc. fold (opened pl e s). rewrite Ho. unfold then_ at 1. cbn [res_bind fst snd].
  rewrite (farm_update_defined user s2 Hu Hb Hw Hsol). unfold then_ at 1. cbn [res_bind fst snd]. rewrite R1, R2, E1.
  rewrite (proj2 (Z.ltb_lt 0 x) Hx), !u256_ok by lia. cbn [res_bind].
  unfold safeTransferFrom. rewrite Hm. cbn [then_ emits res_bind fst snd]. set (s3 := set_stake _ _ _).
  assert (Hs3 : books s3).
  { assert (Hse : sound m (settle user s2)) by (apply (settle_sound m user s2 Hs2); unfold solvent in Hsol; lia).
    pose proof (set_stake_sound m user (read (balanceOf s) user + x) (settle user s2) Hse (settle_settled user s2) ltac:(lia)) as [Hk _].
    rewrite R1, R2, E1 in Hk. unfold s3.
    by replace (totalStaked s2 + (read (balanceOf s) user + x - read (balanceOf s) user)) with (totalStaked s2 + x) in Hk by lia. }
  assert (Hbal : read (balanceOf s3) user = read (balanceOf s) user + x) by (unfold s3; cbn; by rewrite read_insert, decide_True).
  pose proof precision_pos. pose proof (bk_queued s3 Hs3) as Hq3. unfold s3 in Hq3. cbn [set_stake queuedRewards] in Hq3.
  assert (Hrate : 0 <= rewardPerTokenStored s2) by (pose proof (bk_paid s2 Hb 0); lia).
  destruct (flush_defined s3 Hs3) as (s4 & H4 & B4).
  { unfold s3. cbn [set_stake queuedRewards rewardPerTokenStored totalStaked]. rewrite Q1. nia. }
  { unfold s3. cbn [set_stake queuedRewards rewardPerTokenStored]. rewrite Q1. nia. }
  destruct (totalStaked s =? 0).
  - rewrite H4. cbn [res_bind fst snd]. eexists _, _. split; [reflexivity|]. cbn [fst]. by rewrite B4.
  - cbn [res_bind fst snd]. eexists _, _. split; [reflexivity|]. done.
Qed.
End executes.

(** ** The transactions of the buttons *)

(** The call a transaction makes at a pool, by name and arguments. *)
Definition staking_call_of (t : contract_write) : option staking_call :=
  let named name := String.eqb (cw_functionName t) name in
  match cw_args t with
  | [ArgUint n] => if named "stake" then Some (Stake n) else if named "withdraw" then Some (Withdraw n) else None
  | [] => if named "getReward" then Some GetReward else if named "exit" then Some Exit else None
  | _ => None
  end.

(** The pool can take the call of a button: its rewards come in, it can credit the caller, and
    there is room for the stake. *)
Definition receptive (pl : pool) (e : staking_env) (b : farm_button) (f : FarmRow) (s : staking) : Prop :=
  match b with
  | button_claim => exists s1 evs, _syncRewards pl e s = Ok (s1, evs) /\ ready (sender e) s1
  | button_stake => exists s2 evs, opened pl e s = Ok (s2, evs) /\ ready (sender e) s2 /\ room (wb_walletBalance f) s2
  | _ => exists s2 evs, opened pl e s = Ok (s2, evs) /\ ready (sender e) s2
  end.

(** What the page has told its user of the outcome. *)
Definition keeps_promise (lib : libraries) (p : earn_page) (pl : pool) (user : address) (b : farm_button) (f : FarmRow)
    (s' : staking) (evs : list staking_event) : Prop :=
  match b with
  | button_stake => exists n, parsedStakeAmount lib p = Some n
      /\ read (balanceOf s') user = wb_stakedBalance f + n
  | button_withdraw => exists n, parsedWithdrawAmount lib p = Some n
      /\ read (balanceOf s') user = wb_stakedBalance f - n /\ received (stakingToken pl) user evs = n
  | button_claim => wb_earnedRewards f <= received (rewardsToken pl) user evs
  | button_exit => read (balanceOf s') user = 0
      /\ wb_stakedBalance f <= received (stakingToken pl) user evs
      /\ wb_earnedRewards f <= received (rewardsToken pl) user evs
  end.

Lemma room_less x y s : books s -> 0 <= x <= y -> room y s -> room x s.
Proof. intros Hb Hx (H1 & H2 & H3). pose proof (bk_paid s Hb 0). unfold room. split_and!; [lia|nia|done]. Qed.

Lemma shown_earned n user s v :
  sound n s -> v = or_default 0 (match earned user s with Ok v => Ok v | Throw _ => Throw (Error "") end) ->
  v <= credit user s + read (rewards s) user.
Proof.
  intros [Hb _] ->. destruct (earned user s) as [v|] eqn:E; cbn.
  - apply earned_Ok in E as ->; [lia|done].
  - pose proof (proj2 (credit_nonneg user s Hb)). pose proof (read_nonneg _ user (bk_rewards s Hb)). lia.
Qed.

(** C3.  The farm panel keeps its word.  When the row of the open farm shows the pool as it is and
    the pool can take the call, the transaction a press sends (but for an approval) is accepted
    by the pool: the stake shown grows by the amount typed, or falls by it and the amount is
    paid out, a claim pays at least the rewards shown, and leaving pays out the whole stake and
    at least the rewards shown. *)
Theorem farm_press_executes lib h p b f t q pl l e user :
  can_act lib h p b f -> stands_for lib h p b f t -> button_action lib p b <> farm_approve ->
  row_shows f q user -> staking_run pl (dp_state q) l -> well_called pl e -> sender e = address_value user ->
  pays_out e (sender e) ->
  (forall n, 0 < n <= wb_walletBalance f -> n <= wb_allowance f -> moves e (Pulled (stakingToken pl) (sender e) n) = true) ->
  receptive pl e b f (dp_state q) ->
  exists k s' evs, cw_address t = fr_poolAddress f /\ staking_call_of t = Some k
    /\ exec_staking pl e k (dp_state q) = Ok (s', evs) /\ keeps_promise lib p pl (sender e) b f s' evs.
Proof.
  intros (Hf & _) Ht Hna [_ _ _ _ _ _ Rs Re] Hrun He Hse Hout Hin Hrec. apply run_sound in Hrun as Hs.
  rewrite <- Hse in Rs, Re. pose proof (shown_earned _ _ _ _ Hs Re) as Hear. destruct b; cbn [stands_for receptive keeps_promise] in *.
  - destruct Ht as (n & Hn & Hle & Ht). unfold button_action, needsApproval, stakeNeedsApproval, exceeds in Hna.
    rewrite Hf, Hn in Hna. cbn [positive_amount] in Hna. rewrite (proj2 (Z.ltb_lt 0 n)) in Hna by lia.
    destruct (wb_allowance f <? n) eqn:E; [done|]. bool_solve. subst t. destruct Hrec as (s2 & evs & Ho & Hr & Hroom).
    destruct (opened_sound pl e (dp_state q) _ Hs He s2 evs Ho) as [m [Hb2 _]].
    destruct (stake_executes pl e (dp_state q) _ Hs He n s2 evs Ho Hr) as (s' & evs' & Hx & Hbal); [lia| |by apply Hin|].
    + by apply (room_less n (wb_walletBalance f)); [|lia|].
    + exists (Stake n), s', evs'. split_and!; [done|done|exact Hx|]. exists n. split; [done|]. by rewrite Hbal, Rs.
  - destruct Ht as (n & Hn & Hle & ->). destruct Hrec as (s2 & evs & Ho & Hr). rewrite Rs in Hle.
    destruct (withdraw_executes pl e (dp_state q) _ Hs He Hout n s2 evs Ho Hr Hle) as (s' & evs' & Hx & Hbal & Hrc).
    exists (Withdraw n), s', evs'. split_and!; [done|done|exact Hx|]. exists n. split_and!; [done|by rewrite Hbal, Rs|done].
  - destruct Ht as [-> _]. destruct Hrec as (s1 & evs & Ho & Hr).
    destruct (claim_executes pl e (dp_state q) _ Hs He Hout s1 evs Ho Hr) as (s' & evs' & Hx).
    exists GetReward, s', evs'. split_and!; [done|done|exact Hx|].
    destruct (claim_spec pl e _ _ _ _ Hs He Hx) as (? & ? & _ & _ & Hle & _). lia.
  - destruct Ht as [-> Hst]. destruct Hrec as (s2 & evs & Ho & Hr). rewrite Rs in Hst.
    destruct (exit_executes pl e (dp_state q) _ Hs He Hout s2 evs Ho Hr Hst) as (s' & evs' & Hx & Hbal & H1 & H2).
    exists Exit, s', evs'. split_and!; [done|done|exact Hx|done| |lia]. by rewrite Rs.
Qed.

(** ** Samples *)

(** A node that reads the contracts, and whose tokens answer nothing. *)
Definition truthful (c : farm_chain) : node :=
  let revert {A} : res js_error A := Throw (Error "execution reverted") in
  {| nd_uint := fun _ a name args =>
       if String.eqb name "poolLength" then Ok (Z.of_nat (length (fc_entries c)))
       else if String.eqb name "totalAllocPoint" then Ok (fc_totalAllocPoint c)
       else match fc_pool c a, args with
       | Some q, [] =>
         if String.eqb name "totalStaked" then Ok (totalStaked (dp_state q))
         else if String.eqb name "rewardReserve" then Ok (rewardReserve (dp_state q))
         else if String.eqb name "queuedRewards" then Ok (queuedRewards (dp_state q))
         else if String.eqb name "pendingUserRewards" then Ok (pendingUserRewards (dp_state q)) else revert
       | Some q, [ArgAddress u] =>
         if String.eqb name "balanceOf" then Ok (read (balanceOf (dp_state q)) (address_value u))
         else if String.eqb name "earned" then
           match earned (address_value u) (dp_state q) with Ok v => Ok v | Throw m => Throw (Error m) end
         else revert
       | _, _ => revert
       end;
     nd_address := fun _ a name _ =>
       match fc_pool c a with
       | Some q => if String.eqb name "stakingToken" then Ok (dp_stakingToken q)
                   else if String.eqb name "rewardsToken" then Ok (dp_rewardsToken q) else revert
       | None => revert
       end;
     nd_text := fun _ _ _ _ => revert;
     nd_entry := fun _ _ _ args =>
       match args with
       | [ArgUint n] => match fc_entries c !! Z.to_nat n with Some entry => Ok entry | None => revert end
       | _ => revert
       end;
     nd_first := fun _ l => default (Error "") (head l) |}.

Lemma truthful_answers c manager : answers c manager (truthful c).
Proof.
  constructor; try done.
  - intros site i entry H. cbn. by rewrite Nat2Z.id, H.
  - intros site a q H. cbn. by rewrite H.
  - intros site a q H. cbn. by rewrite H.
  - intros site a q user H. cbn. rewrite H. split; [done|]. destruct (earned _ _); [done|]. by eexists.
Qed.

Definition farm_user : string := addr "a".
Definition farm_pool_address : string := addr "1".
Definition sample_farm_pool : deployed_pool :=
  {| dp_stakingToken := addr "2"; dp_rewardsToken := addr "3"; dp_state := after_calls reward_calls |}.
Definition sample_chain : farm_chain :=
  {| fc_entries := [(farm_pool_address, 100, true, 0, 0)]; fc_totalAllocPoint := 400;
     fc_pool := fun a => if String.eqb a farm_pool_address then Some sample_farm_pool else None |}.

Lemma load_shows_contracts_witness :
  let farms := fs_farms (load_settles false (read_farms (truthful sample_chain) [] None (addr "4") (Some farm_user) true) no_farms) in
  fr_pid <$> farms ≡ₚ [0] /\ exists f : FarmRow, f ∈ farms /\ wb_stakedBalance f = tokens 30 /\ wb_earnedRewards f = tokens 15.
Proof.
  destruct (load_shows_contracts sample_chain (addr "4") (truthful sample_chain) [] None farm_user false no_farms
              (truthful_answers _ _)) as (_ & Hp & Hf & _); [done|by repeat constructor|].
  split; [exact Hp|].
  destruct (fs_farms (load_settles false (read_farms (truthful sample_chain) [] None (addr "4") (Some farm_user) true) no_farms))
    as [|f l] eqn:E; [by vm_compute in E|].
  exists f. split; [left|]. destruct (Hf f) as (i & entry & q & _ & _ & _ & _ & Hq & Hs); [left|].
  change (fc_pool sample_chain (fr_poolAddress f))
    with (if String.eqb (fr_poolAddress f) farm_pool_address then Some sample_farm_pool else None) in Hq.
  destruct (String.eqb (fr_poolAddress f) farm_pool_address); [|done]. injection Hq as <-.
  split; [rewrite (rs_staked _ _ _ Hs)|rewrite (rs_earned _ _ _ Hs)]; vm_compute; reflexivity.
Defined.

Definition sample_earn_hooks : earn_hooks :=
  {| eh_isZh := false; eh_chainId := 31337; eh_publicClient := true; eh_address := Some farm_user;
     eh_isConnected := true; eh_openConnectModal := true |}.

(** The panel of the sample farm, with an amount to unstake. *)
Definition sample_earn_page : earn_page :=
  {| ep_searchQuery := ""; ep_stakedOnly := false; ep_selectedFarmAddress := Some farm_pool_address;
     ep_stakeAmount := ""; ep_withdrawAmount := "1.5"; ep_resultModal := None;
     ep_farms := load_settles false (read_farms (truthful sample_chain) [] None (addr "4") (Some farm_user) true) no_farms;
     ep_activeAction := None; ep_autoLoadKey := None |}.

Definition sample_farm : FarmRow :=
  match selectedFarm sample_earn_page with
  | Some f => f
  | None => {| fr_pid := 0; fr_poolAddress := ""; fr_stakingToken := ""; fr_rewardsToken := ""; fr_active := false;
               fr_allocPoint := 0; fr_totalAllocPoint := 0; fr_managerPendingRewards := 0; fr_totalStaked := 0;
               fr_rewardReserve := 0; fr_queuedRewards := 0; fr_pendingUserRewards := 0;
               fr_wallet := readWalletFarmBalances (truthful sample_chain) 0 "" "" None false;
               fr_meta := read_plain_meta (truthful sample_chain) [] None 0 "" |}
  end.

Lemma farm_press_executes_witness :
  let e := sample_staking_env 10 (tokens 4) in
  let t := transaction sample_earn_hooks farm_pool_address "withdraw" [ArgUint (tokens 15)] in
  exists k s' evs, staking_call_of t = Some k /\ exec_staking sample_pool e k (after_calls reward_calls) = Ok (s', evs)
    /\ read (balanceOf s') 10 = tokens 30 - tokens 15 /\ received 2 10 evs = tokens 15.
Proof.
  assert (Hw : match opened sample_pool (sample_staking_env 10 (tokens 4)) (after_calls reward_calls) with
               | Ok r => withdrawable (tokens 15) 10 (fst r) | Throw _ => false end = true) by by vm_compute.
  destruct (farm_press_executes sample_libraries sample_earn_hooks sample_earn_page button_withdraw sample_farm
     (transaction sample_earn_hooks farm_pool_address "withdraw" [ArgUint (tokens 15)]) sample_farm_pool sample_pool
     (log_of reward_calls) (sample_staking_env 10 (tokens 4)) farm_user) as (k & s' & evs & _ & Hk & Hx & Hp).
  - split_and!; [vm_compute; reflexivity..| |done]. by exists farm_user.
  - exists (tokens 15). split_and!; [vm_compute; reflexivity..|vm_compute; discriminate|vm_compute; reflexivity].
  - done.
  - constructor; vm_compute; reflexivity.
  - apply sample_run; [apply reward_called|by vm_compute].
  - apply sample_env_called; [done|unfold tokens; lia].
  - vm_compute; reflexivity.
  - by intros token amount.
  - intros n _ _. reflexivity.
  - cbn [receptive]. change (dp_state sample_farm_pool) with (after_calls reward_calls).
    destruct (opened sample_pool (sample_staking_env 10 (tokens 4)) (after_calls reward_calls)) as [[s2 evs]|]; [|done].
    exists s2, evs. split; [done|]. cbn [fst] in Hw. unfold withdrawable in Hw. bool_solve. by split.
  - exists k, s', evs. destruct Hp as (n & Hn & Hb & Hr).
    assert (n = tokens 15) as -> by (vm_compute in Hn; injection Hn as <-; by vm_compute).
    split_and!; [exact Hk|exact Hx| |exact Hr]. etransitivity; [exact Hb|vm_compute; reflexivity].
Defined.
