(* ===== verification/Positions.v ===== *)
(** * The positions of the portfolio page (frontend/src/app/portfolio/page.tsx)

    What the page shows of a wallet: its liquidity positions from the pools, the wallet's
    shares and the shares staked in farms; its stakes and rewards; its tokens; what it did;
    and the amounts of a removal of liquidity.  The limit orders of the page are in
    OrderPage.v and OrderCancel.v, the handlers of the removal in PositionActions.v. *)

From S2P Require Import Prelude JsString JsNumber JsSort Amounts Pools OrderView FrontendConfig Farms.
Import Pools.Trades.
From Stdlib Require Import Ascii.
From stdpp Require Import sorting strings.
Open Scope string_scope.
Open Scope Z_scope.

Definition ZERO_BIGINT : Z := 0.
Definition REMOVE_LIQUIDITY_DEADLINE_SECONDS : Z := 30 * 60.
Definition DEFAULT_REMOVE_SLIPPAGE_BPS : Z := 50.
Definition PERCENT_BPS_BASE : Z := 10000.

(** ** Amounts *)

Definition calculateProportionalAmount (amount balance totalSupply : Z) : Z :=
  if (amount <=? ZERO_BIGINT) || (balance <=? ZERO_BIGINT) || (totalSupply <=? ZERO_BIGINT) then ZERO_BIGINT
  else Z.quot (amount * balance) totalSupply.

(** The pattern of a percentage, [\d*] and possibly a point and at most two digits, as its two
    groups of digits. *)
Definition match_percent (s : string) : option (string * string) :=
  match match_decimal s with
  | Some (i, f) => if Nat.leb (String.length f) 2 then Some (i, f) else None
  | None => None
  end.

(** [fractionPart.padEnd(2, '0').slice(0, 2)] *)
Definition two_digits (f : string) : string := String.substring 0 2 (f ++ String.substring 0 (2 - String.length f) "00").

Definition parsePercentToBasisPoints (value : string) : option Z :=
  let trimmed := trim value in
  match match_percent trimmed with
  | Some (integerPart, fractionPart) =>
    if String.eqb trimmed "" || String.eqb trimmed "." then None
    else
      let basisPoints := dec_value integerPart * 100 + dec_value (two_digits fractionPart) in
      if (basisPoints <=? ZERO_BIGINT) || (PERCENT_BPS_BASE <? basisPoints) then None else Some basisPoints
  | None => None
  end.

Definition applySlippage (amount slippageBps : Z) : Z :=
  if amount <=? ZERO_BIGINT then ZERO_BIGINT
  else Z.quot (amount * (PERCENT_BPS_BASE - slippageBps)) PERCENT_BPS_BASE.

(** ** Rows *)

Record PositionDisplayRow := {
  po_pairId : string;
  po_pairLabel : string;
  po_walletLpBalanceLabel : string;
  po_stakedLpBalanceLabel : string;
  po_totalLpBalanceLabel : string;
  po_poolShareLabel : string;
  po_withdrawToken0Label : string;
  po_withdrawToken1Label : string;
  po_reserveToken0Label : string;
  po_reserveToken1Label : string;
  po_totalLpLabel : string;
  po_token0Symbol : string;
  po_token1Symbol : string;
  po_token0Address : string;
  po_token1Address : string;
  po_token0Decimals : num;
  po_token1Decimals : num;
  po_addLiquidityHref : string;
  po_poolHref : string;
  po_farmHref : option string;
  po_rawLpBalance : Z;
  po_rawStakedLpBalance : Z;
  po_rawTotalLpBalance : Z;
  po_totalSupply : Z;
  po_reserve0 : Z;
  po_reserve1 : Z;
}.

Record StakingDisplayRow := {
  sr_farm : FarmRow;
  sr_poolLabel : string;
  sr_typeLabel : string;
  sr_stakedLabel : string;
  sr_claimableLabel : string;
  sr_pendingSyncLabel : string;
  sr_totalStakedLabel : string;
  sr_weightLabel : string;
  sr_statusLabel : string;
  sr_statusClassName : string;
  sr_poolAddressLabel : string;
  sr_earnHref : string;
}.

Record WalletTokenRow := { wt_symbol : string; wt_name : string; wt_amountLabel : string; wt_rawAmount : Z }.

Record WalletActivityRow := {
  wa_id : string;
  wa_txHash : string;
  wa_walletAddress : string;
  wa_activityLabel : string;
  wa_pairLabel : string;
  wa_primaryLabel : string;
  wa_secondaryLabel : string;
  wa_timeLabel : string;
  wa_isLiquidity : bool;
}.

Inductive TokenSortDirection := desc | asc.

(** [Object.fromEntries] *)
Definition from_entries {V} (l : list (string * V)) : gmap string V :=
  foldl (fun m e => <[fst e := snd e]> m) ∅ l.

Definition upper_char (c : ascii) : ascii :=
  if (97 <=? code c) && (code c <=? 122) then chr (code c - 32) else c.
Fixpoint to_upper (s : string) : string :=
  match s with EmptyString => EmptyString | String c r => String (upper_char c) (to_upper r) end.

Definition position_symbol (symbol tokenAddress : string) (wrappedNativeAddress : option string) : string :=
  match wrappedNativeAddress with
  | Some w => if str_nonempty w && same_address tokenAddress w then "ETH" else to_upper symbol
  | None => to_upper symbol
  end.

(** What the page uses of the locale and of viem: [formatUnits], [toLocaleString] with the
    digits at least and at most, and at most, the dates of [Intl.DateTimeFormat], and
    [localeCompare]. *)
Record page_locale := {
  pl_formatUnits : Z -> num -> string;
  pl_toFixedLocale : num -> nat -> nat -> string;
  pl_toLocaleString : num -> nat -> string;
  pl_formatDate : num -> string -> string;
  pl_localeCompare : string -> string -> Z;
}.

Section rows.
Variable pl : page_locale.
Variable isZh : bool.
Variable wrappedNativeAddress : option string.

Definition told (zh en : string) : string := if isZh then zh else en.
(** [formatBigIntAmountDown] of an amount that is there, and [formatPairLpAmountDown]. *)
Definition amount_down (value : Z) (decimals : num) : string :=
  formatDisplayAmountDown (Some (pl_formatUnits pl value decimals)) 6.
Definition lp_down (value : Z) : string := amount_down value (num_of_Z 18).
Definition amount_label (value : Z) (decimals : num) : string :=
  formatDisplayAmount (pl_toLocaleString pl) (Some (pl_formatUnits pl value decimals)) 6.

Definition formatPoolShare (balance totalSupply : Z) : string :=
  if (balance <=? ZERO_BIGINT) || (totalSupply <=? ZERO_BIGINT) then "0%"
  else
    let basisPoints := Z.quot (balance * 1000000) totalSupply in
    let percent := num_div (num_of_Z basisPoints) (num_of_Z 10000) in
    if negb (is_finite percent) || num_leb percent num_zero then "<0.0001%"
    else
      let digits := if num_leb (num_of_Z 1) percent then 2%nat else 4%nat in
      pl_toFixedLocale pl percent digits digits ++ "%".

Definition getFarmStatusMeta (farm : FarmRow) : string * string :=
  if negb (fr_active farm) then
    (told "已停用" "Inactive", "bg-gray-100 text-gray-700 dark:bg-white/[0.06] dark:text-gray-300")
  else if fr_allocPoint farm <=? ZERO_BIGINT then
    (told "无权重" "No weight", "bg-amber-100 text-amber-700 dark:bg-amber-500/15 dark:text-amber-300")
  else
    (told "启用中" "Active", "bg-emerald-100 text-emerald-700 dark:bg-emerald-500/15 dark:text-emerald-300").

(** [formatTimestamp] of lib/wallet.ts. *)
Definition formatTimestamp (timestamp : num) (locale : string) : string :=
  if num_eqb timestamp num_zero || negb (num_eqb timestamp timestamp) then "--"
  else pl_formatDate pl (num_mul timestamp (num_of_Z 1000)) locale.

(** ** Positions *)

(** The wallet's stakes of the shares of a pair, and the first farm that holds some. *)
Definition add_stake (positions : gmap string (Z * string)) (farm : FarmRow) : gmap string (Z * string) :=
  if negb (tm_isLp farm) || (wb_stakedBalance farm <=? ZERO_BIGINT) then positions
  else
    let pairId := to_lower (fr_stakingToken farm) in
    let current := positions !! pairId in
    <[pairId := (from_option fst ZERO_BIGINT current + wb_stakedBalance farm, from_option snd (fr_poolAddress farm) current)]>
      positions.

Definition stakedLpPositionsByPair (farms : list FarmRow) : gmap string (Z * string) := foldl add_stake ∅ farms.

Definition positionRow (lpBalances : gmap string Z) (staked : gmap string (Z * string)) (pair : PoolViewModel)
  : PositionDisplayRow :=
  let rawLpBalance := default ZERO_BIGINT (lpBalances !! to_lower (pv_id pair)) in
  let stakedLpPosition := staked !! to_lower (pv_id pair) in
  let rawStakedLpBalance := from_option fst ZERO_BIGINT stakedLpPosition in
  let rawTotalLpBalance := rawLpBalance + rawStakedLpBalance in
  let token0 := pv_token0 pair in
  let token1 := pv_token1 pair in
  let token0Symbol := position_symbol (tv_symbol token0) (tv_id token0) wrappedNativeAddress in
  let token1Symbol := position_symbol (tv_symbol token1) (tv_id token1) wrappedNativeAddress in
  let withdrawToken0 := calculateProportionalAmount (pv_reserve0 pair) rawLpBalance (pv_totalSupply pair) in
  let withdrawToken1 := calculateProportionalAmount (pv_reserve1 pair) rawLpBalance (pv_totalSupply pair) in
  {| po_pairId := pv_id pair;
     po_pairLabel := token0Symbol ++ " / " ++ token1Symbol;
     po_walletLpBalanceLabel := lp_down rawLpBalance ++ " LP";
     po_stakedLpBalanceLabel := lp_down rawStakedLpBalance ++ " LP";
     po_totalLpBalanceLabel := lp_down rawTotalLpBalance ++ " LP";
     po_poolShareLabel := formatPoolShare rawTotalLpBalance (pv_totalSupply pair);
     po_withdrawToken0Label := amount_down withdrawToken0 (tv_decimals token0) ++ " " ++ token0Symbol;
     po_withdrawToken1Label := amount_down withdrawToken1 (tv_decimals token1) ++ " " ++ token1Symbol;
     po_reserveToken0Label := amount_down (pv_reserve0 pair) (tv_decimals token0) ++ " " ++ token0Symbol;
     po_reserveToken1Label := amount_down (pv_reserve1 pair) (tv_decimals token1) ++ " " ++ token1Symbol;
     po_totalLpLabel := lp_down (pv_totalSupply pair) ++ " LP";
     po_token0Symbol := token0Symbol;
     po_token1Symbol := token1Symbol;
     po_token0Address := tv_id token0;
     po_token1Address := tv_id token1;
     po_token0Decimals := tv_decimals token0;
     po_token1Decimals := tv_decimals token1;
     po_addLiquidityHref := "/portfolio/liquidity?tokenA=" ++ tv_id token0 ++ "&tokenB=" ++ tv_id token1;
     po_poolHref := "/pool/" ++ pv_id pair;
     po_farmHref := (fun p : Z * string => "/earn?pool=" ++ snd p) <$> stakedLpPosition;
     po_rawLpBalance := rawLpBalance;
     po_rawStakedLpBalance := rawStakedLpBalance;
     po_rawTotalLpBalance := rawTotalLpBalance;
     po_totalSupply := pv_totalSupply pair;
     po_reserve0 := pv_reserve0 pair;
     po_reserve1 := pv_reserve1 pair |}.

Definition position_le (left right : PositionDisplayRow) : bool :=
  if po_rawTotalLpBalance left =? po_rawTotalLpBalance right
  then pl_localeCompare pl (po_pairLabel left) (po_pairLabel right) <=? 0
  else po_rawTotalLpBalance right <? po_rawTotalLpBalance left.

Definition positionRows (pairs : list PoolViewModel) (lpBalances : gmap string Z) (farms : list FarmRow)
  : list PositionDisplayRow :=
  sort_by position_le
    (keep (fun row => ZERO_BIGINT <? po_rawTotalLpBalance row)
      (positionRow lpBalances (stakedLpPositionsByPair farms) <$> pairs)).

(** ** Stakes *)

Definition stakingRow (farm : FarmRow) : StakingDisplayRow :=
  {| sr_farm := farm;
     sr_poolLabel := tm_label farm;
     sr_typeLabel := if tm_isLp farm then told "LP 农场" "LP Farm" else told "单币池" "Single Token";
     sr_stakedLabel := amount_down (wb_stakedBalance farm) (num_of_Z (tm_tokenDecimals farm)) ++ " " ++ tm_tokenSymbol farm;
     sr_claimableLabel := amount_down (wb_earnedRewards farm) (num_of_Z 18) ++ " FLUX";
     sr_pendingSyncLabel := amount_down (fr_managerPendingRewards farm) (num_of_Z 18) ++ " FLUX";
     sr_totalStakedLabel := amount_down (fr_totalStaked farm) (num_of_Z (tm_tokenDecimals farm)) ++ " " ++ tm_tokenSymbol farm;
     sr_weightLabel := formatWeight (pl_toFixedLocale pl) (fr_allocPoint farm) (fr_totalAllocPoint farm);
     sr_statusLabel := fst (getFarmStatusMeta farm);
     sr_statusClassName := snd (getFarmStatusMeta farm);
     sr_poolAddressLabel := truncateAddress (Some (fr_poolAddress farm)) 6 4;
     sr_earnHref := "/earn?pool=" ++ fr_poolAddress farm |}.

Definition has_stake (farm : FarmRow) : bool :=
  (ZERO_BIGINT <? wb_stakedBalance farm) || (ZERO_BIGINT <? wb_earnedRewards farm)
  || (ZERO_BIGINT <? fr_managerPendingRewards farm) && (ZERO_BIGINT <? wb_stakedBalance farm).

Definition staking_le (left right : StakingDisplayRow) : bool :=
  let l := sr_farm left in
  let r := sr_farm right in
  if negb (wb_stakedBalance l =? wb_stakedBalance r) then wb_stakedBalance r <? wb_stakedBalance l
  else if negb (wb_earnedRewards l =? wb_earnedRewards r) then wb_earnedRewards r <? wb_earnedRewards l
  else fr_pid l <=? fr_pid r.

Definition stakingRows (farms : list FarmRow) : list StakingDisplayRow :=
  sort_by staking_le (stakingRow <$> keep has_stake farms).

Definition totalClaimableRewards (farms : list FarmRow) : Z :=
  foldl (fun sum row => sum + wb_earnedRewards (sr_farm row)) ZERO_BIGINT (stakingRows farms).
Definition totalPendingSyncRewards (farms : list FarmRow) : Z :=
  foldl (fun sum row => sum + fr_managerPendingRewards (sr_farm row)) ZERO_BIGINT (stakingRows farms).

(** ** Tokens *)

Definition token_row (tokenBalances : gmap string Z) (token : SwapTokenOption) : option WalletTokenRow :=
  let rawAmount := default ZERO_BIGINT (tokenBalances !! st_symbol token) in
  if rawAmount <=? ZERO_BIGINT then None
  else Some {| wt_symbol := st_symbol token; wt_name := st_name token;
               wt_amountLabel := amount_label rawAmount (num_of_Z (st_decimals token)); wt_rawAmount := rawAmount |}.

Definition token_le (direction : TokenSortDirection) (left right : WalletTokenRow) : bool :=
  if wt_rawAmount left =? wt_rawAmount right
  then pl_localeCompare pl (wt_symbol left) (wt_symbol right) <=? 0
  else match direction with
       | desc => wt_rawAmount right <? wt_rawAmount left
       | asc => wt_rawAmount left <? wt_rawAmount right
       end.

Definition walletTokens (nativeBalance : option Z) (trackedTokens : list SwapTokenOption)
    (tokenBalances : gmap string Z) (direction : TokenSortDirection) : list WalletTokenRow :=
  let nativeRawAmount := default ZERO_BIGINT nativeBalance in
  let native_row := if ZERO_BIGINT <? nativeRawAmount
                    then [{| wt_symbol := "ETH"; wt_name := "Ether";
                             wt_amountLabel := amount_label nativeRawAmount (num_of_Z 18); wt_rawAmount := nativeRawAmount |}]
                    else [] in
  sort_by (token_le direction)
    (native_row ++ omap (token_row tokenBalances)
       (keep (fun token => bool_decide (st_kind token = erc20)) trackedTokens))%list.

(** ** Activity *)

Definition activity_row (trade : TradeViewModel) (walletAddress : option string)
    (activityLabel pairLabel primaryLabel secondaryLabel : string) (isLiquidity : bool) : WalletActivityRow :=
  {| wa_id := tr_id trade; wa_txHash := tr_txHash trade;
     wa_walletAddress := to_lower (default (tr_sender trade) walletAddress);
     wa_activityLabel := activityLabel; wa_pairLabel := pairLabel; wa_primaryLabel := primaryLabel;
     wa_secondaryLabel := secondaryLabel;
     wa_timeLabel := formatTimestamp (tr_timestamp trade) (told "zh-CN" "en-US"); wa_isLiquidity := isLiquidity |}.

Definition buildWalletActivityRow (trade : TradeViewModel) (walletAddress : option string) : WalletActivityRow :=
  let token0 := ap_token0 (tr_pair trade) in
  let token1 := ap_token1 (tr_pair trade) in
  let token0Symbol := position_symbol (tv_symbol token0) (tv_id token0) wrappedNativeAddress in
  let token1Symbol := position_symbol (tv_symbol token1) (tv_id token1) wrappedNativeAddress in
  let pairLabel := token0Symbol ++ " / " ++ token1Symbol in
  let shown0 amount := amount_down amount (tv_decimals token0) ++ " " ++ token0Symbol in
  let shown1 amount := amount_down amount (tv_decimals token1) ++ " " ++ token1Symbol in
  match tr_kind trade with
  | TradeSwap _ amount0In amount1In amount0Out amount1Out =>
    let sold0 := ZERO_BIGINT <? amount0In in
    let bought0 := ZERO_BIGINT <? amount0Out in
    let symbol (first : bool) := if first then token0Symbol else token1Symbol in
    activity_row trade walletAddress (told "交换" "Swap") (symbol sold0 ++ " -> " ++ symbol bought0)
      (if sold0 then shown0 amount0In else shown1 amount1In)
      (if bought0 then shown0 amount0Out else shown1 amount1Out) false
  | TradeAdd amount0 amount1 =>
    activity_row trade walletAddress (told "添加流动性" "Add liquidity") pairLabel (shown0 amount0) (shown1 amount1) true
  | TradeRemove _ amount0 amount1 =>
    activity_row trade walletAddress (told "移除流动性" "Remove liquidity") pairLabel (shown0 amount0) (shown1 amount1) true
  end.

Definition walletActivityRows (trades : list TradeViewModel) (walletByTxHash : gmap string string) : list WalletActivityRow :=
  (fun trade => buildWalletActivityRow trade (walletByTxHash !! to_lower (tr_txHash trade))) <$> trades.

Definition connectedWalletActivity (address : option string) (trades : list TradeViewModel)
    (walletByTxHash : gmap string string) : list WalletActivityRow :=
  match address with
  | Some a =>
    if str_nonempty a
    then keep (fun row => String.eqb (wa_walletAddress row) (to_lower a)) (walletActivityRows trades walletByTxHash)
    else []
  | None => []
  end.
End rows.

(** ** What is read of a percentage *)

(** A text of a percentage with at most two decimals, in hundredths of a percent. *)
Definition percent_text (text : string) (b : Z) : Prop :=
  exists i f, (trim text = i ++ "." ++ f \/ trim text = i /\ f = "") /\ all_chars is_digit (i ++ f) = true
    /\ (String.length f <= 2)%nat /\ b = dec_value (i ++ f) * 10 ^ (2 - Z.of_nat (String.length f)).

Lemma two_digits_value i f :
  all_chars is_digit i = true -> all_chars is_digit f = true -> (String.length f <= 2)%nat ->
  dec_value i * 100 + dec_value (two_digits f) = dec_value (i ++ f) * 10 ^ (2 - Z.of_nat (String.length f)).
Proof.
  intros Hi Hf Hl. rewrite dec_value_app by done.
  destruct f as [|c [|c' [|c'' f]]]; cbn [String.length] in *; [| | |lia].
  - change (two_digits "") with "00". change (dec_value "00") with 0. change (dec_value "") with 0. lia.
  - change (two_digits (String c "")) with (String c "" ++ "0"). rewrite dec_value_app by done. cbn [String.length].
    change (dec_value "0") with 0. lia.
  - change (two_digits (String c (String c' ""))) with (String c (String c' "")). lia.
Qed.

Lemma match_percent_spec s i f :
  match_percent s = Some (i, f) ->
  (s = i ++ "." ++ f \/ s = i /\ f = "") /\ all_chars is_digit i = true /\ all_chars is_digit f = true
  /\ (String.length f <= 2)%nat.
Proof.
  unfold match_percent. destruct (match_decimal s) as [[i' f']|] eqn:E; [|done].
  destruct (Nat.leb_spec (String.length f') 2); [|done]. intros [= -> ->].
  pose proof (match_decimal_spec _ _ _ E) as [Hi Hf]. split_and!; try done.
  unfold match_decimal in E. destruct (span_digits s) as [d r] eqn:Es. apply span_digits_spec in Es as (-> & _ & _).
  destruct r as [|c r]; [injection E as <- <-; right; by rewrite app_empty_r|].
  destruct (ascii_dec c ".") as [->|]; [|by destruct c as [[] [] [] [] [] [] [] []]].
  destruct (span_digits r) as [g t] eqn:Eg. apply span_digits_spec in Eg as (-> & _ & _).
  destruct t; cbn in E; [|done]. injection E as <- <-. left. cbn. by rewrite app_empty_r.
Qed.

(** An accepted percentage is between a hundredth of a percent and all, and is the text's. *)
Lemma parsePercent_reads value b :
  parsePercentToBasisPoints value = Some b -> percent_text value b /\ 0 < b <= PERCENT_BPS_BASE.
Proof.
  unfold parsePercentToBasisPoints. destruct (match_percent (trim value)) as [[i f]|] eqn:E; [|done].
  destruct (_ || _); [done|]. apply match_percent_spec in E as (Ht & Hi & Hf & Hl).
  rewrite two_digits_value by done. destruct (_ || _) eqn:Eb; [done|]. intros [= <-].
  unfold ZERO_BIGINT in Eb. bool_solve. split; [|lia]. exists i, f. rewrite all_chars_app, Hi, Hf. by split_and!.
Qed.

Lemma applySlippage_bounds amount :
  0 <= amount -> 0 <= applySlippage amount DEFAULT_REMOVE_SLIPPAGE_BPS <= amount
  /\ 9950 * amount - 10000 < 10000 * applySlippage amount DEFAULT_REMOVE_SLIPPAGE_BPS <= 9950 * amount.
Proof.
  intros H. unfold applySlippage, ZERO_BIGINT, DEFAULT_REMOVE_SLIPPAGE_BPS, PERCENT_BPS_BASE.
  destruct (Z.leb_spec amount 0); [lia|]. change (10000 - 50) with 9950.
  rewrite Z.quot_div_nonneg by lia. pose proof (Z.mul_div_le (amount * 9950) 10000 ltac:(lia)).
  pose proof (Z.mul_succ_div_gt (amount * 9950) 10000 ltac:(lia)). lia.
Qed.

Lemma proportional_div amount balance totalSupply :
  0 <= amount -> 0 <= balance -> 0 < totalSupply ->
  calculateProportionalAmount amount balance totalSupply = amount * balance / totalSupply.
Proof.
  intros. unfold calculateProportionalAmount, ZERO_BIGINT.
  destruct (Z.leb_spec amount 0), (Z.leb_spec balance 0), (Z.leb_spec totalSupply 0); cbn [orb]; try lia;
    try (replace amount with 0 by lia; by rewrite Z.mul_0_l, Z.div_0_l by lia);
    try (replace balance with 0 by lia; by rewrite Z.mul_0_r, Z.div_0_l by lia).
  rewrite Z.quot_div_nonneg by nia. done.
Qed.

(** ** The rows *)

(** The farms in which the wallet has staked shares of a pair. *)
Definition stakes_in (pairId : string) (farms : list FarmRow) : list FarmRow :=
  keep (fun farm : FarmRow => tm_isLp farm && (0 <? wb_stakedBalance farm) && same_address (fr_stakingToken farm) pairId) farms.
Definition staked_in (pairId : string) (farms : list FarmRow) : Z :=
  foldl (fun sum (farm : FarmRow) => sum + wb_stakedBalance farm) 0 (stakes_in pairId farms).

Lemma sum_from {A} (f : A -> Z) (l : list A) n : foldl (fun s a => s + f a) n l = n + foldl (fun s a => s + f a) 0 l.
Proof. revert n. induction l as [|a l IH]; intros n; cbn; [lia|]. rewrite IH, (IH (0 + f a)). lia. Qed.

Lemma stakes_lookup pairId farms m :
  foldl add_stake m farms !! to_lower pairId =
  match m !! to_lower pairId, stakes_in pairId farms with
  | None, [] => None
  | None, (f :: _) as l => Some (staked_in pairId farms, fr_poolAddress f)
  | Some (n, a), _ => Some (n + staked_in pairId farms, a)
  end.
Proof.
  unfold staked_in, stakes_in. revert m. induction farms as [|f farms IH]; intros m; cbn [foldl keep].
  { destruct (m !! to_lower pairId) as [[n a]|]; cbn; [|done]. by rewrite Z.add_0_r. }
  rewrite IH. unfold add_stake, ZERO_BIGINT. destruct (tm_isLp f); cbn [negb andb orb]; [|done].
  destruct (Z.leb_spec (wb_stakedBalance f) 0), (Z.ltb_spec 0 (wb_stakedBalance f)); cbn [andb]; try lia; [done|].
  unfold same_address. destruct (String.eqb_spec (to_lower (fr_stakingToken f)) (to_lower pairId)) as [E|E].
  - rewrite E, lookup_insert_eq. cbn [foldl]. rewrite (sum_from _ _ (0 + _)).
    destruct (m !! to_lower pairId) as [[n a]|]; cbn; do 2 f_equal; lia.
  - by rewrite lookup_insert_ne by done.
Qed.

(** The shares staked in the farms, and the first of them that holds some. *)
Lemma staked_lookup pairId farms :
  stakedLpPositionsByPair farms !! to_lower pairId =
  match stakes_in pairId farms with [] => None | f :: _ => Some (staked_in pairId farms, fr_poolAddress f) end.
Proof. unfold stakedLpPositionsByPair. rewrite stakes_lookup, lookup_empty. done. Qed.

Lemma staked_amount pairId farms :
  from_option fst 0 (stakedLpPositionsByPair farms !! to_lower pairId) = staked_in pairId farms.
Proof. rewrite staked_lookup. unfold staked_in. by destruct (stakes_in pairId farms). Qed.

(** [Object.fromEntries] keeps the last entry of a key. *)
Lemma from_entries_lookup {V} (l : list (string * V)) k v :
  (k, v) ∈ l -> (forall v', (k, v') ∈ l -> v' = v) -> from_entries l !! k = Some v.
Proof.
  intros H Hu. unfold from_entries. assert (forall m : gmap string V, (k, v) ∈ l \/ m !! k = Some v ->
    foldl (fun m e => <[fst e := snd e]> m) m l !! k = Some v) as Hg; [|by apply Hg; left].
  clear H. induction l as [|[k' v'] l IH]; intros m H; cbn [foldl fst snd]; [by destruct H as [H|H]; [set_solver|]|].
  apply IH; [set_solver|]. destruct (decide (k' = k)) as [->|Hne].
  - right. rewrite lookup_insert_eq. f_equal. apply Hu. set_solver.
  - rewrite lookup_insert_ne by done. set_solver.
Qed.

Section shown.
Variable pl : page_locale.
Hypothesis locale_total : forall s u, pl_localeCompare pl s u <= 0 \/ pl_localeCompare pl u s <= 0.
Hypothesis locale_trans : forall s u v,
  pl_localeCompare pl s u <= 0 -> pl_localeCompare pl u v <= 0 -> pl_localeCompare pl s v <= 0.

Lemma position_le_total a b : position_le pl a b = true \/ position_le pl b a = true.
Proof.
  unfold position_le. destruct (Z.eqb_spec (po_rawTotalLpBalance a) (po_rawTotalLpBalance b)) as [E|E].
  - rewrite E, Z.eqb_refl, !Z.leb_le. apply locale_total.
  - rewrite (proj2 (Z.eqb_neq (po_rawTotalLpBalance b) _)), !Z.ltb_lt by lia. lia.
Qed.

Lemma position_le_trans a b c : position_le pl a b = true -> position_le pl b c = true -> position_le pl a c = true.
Proof.
  unfold position_le.
  destruct (Z.eqb_spec (po_rawTotalLpBalance a) (po_rawTotalLpBalance b)),
    (Z.eqb_spec (po_rawTotalLpBalance b) (po_rawTotalLpBalance c)),
    (Z.eqb_spec (po_rawTotalLpBalance a) (po_rawTotalLpBalance c)); rewrite ?Z.leb_le, ?Z.ltb_lt; try lia.
  apply locale_trans.
Qed.

Lemma position_le_total_balance a b : position_le pl a b = true -> po_rawTotalLpBalance b <= po_rawTotalLpBalance a.
Proof. unfold position_le. destruct (Z.eqb_spec (po_rawTotalLpBalance a) (po_rawTotalLpBalance b)); bool_solve; lia. Qed.

(** C24.  The positions are one row for each pool of which the wallet holds shares, in the wallet
    or staked in farms, the largest first.  Each row shows the pool's reserves and supply, the
    wallet's shares, the sum of its stakes over the farms of the pool's shares, the farm to
    follow, and, for a pool with shares, what the wallet's own shares are worth of each of the
    two reserves, rounded down: [reserve * shares / supply], in the decimals and with the
    symbol of the reserve's own token. *)
Theorem positions_shown w pairs lpBalances farms :
  let row := positionRow pl w lpBalances (stakedLpPositionsByPair farms) in
  let rows := positionRows pl w pairs lpBalances farms in
  let held := fun pair => 0 <? default 0 (lpBalances !! to_lower (pv_id pair)) + staked_in (pv_id pair) farms in
  rows ≡ₚ row <$> keep held pairs
  /\ StronglySorted (fun a b => po_rawTotalLpBalance b <= po_rawTotalLpBalance a) rows
  /\ forall pair, let r := row pair in
       po_pairId r = pv_id pair /\ po_reserve0 r = pv_reserve0 pair /\ po_reserve1 r = pv_reserve1 pair
       /\ po_totalSupply r = pv_totalSupply pair
       /\ po_rawLpBalance r = default 0 (lpBalances !! to_lower (pv_id pair))
       /\ po_rawStakedLpBalance r = staked_in (pv_id pair) farms
       /\ po_rawTotalLpBalance r = po_rawLpBalance r + po_rawStakedLpBalance r
       /\ po_farmHref r = (fun f => "/earn?pool=" ++ fr_poolAddress f) <$> head (stakes_in (pv_id pair) farms)
       /\ po_token0Symbol r = position_symbol (tv_symbol (pv_token0 pair)) (tv_id (pv_token0 pair)) w
       /\ po_token1Symbol r = position_symbol (tv_symbol (pv_token1 pair)) (tv_id (pv_token1 pair)) w
       /\ (0 <= pv_reserve0 pair -> 0 <= pv_reserve1 pair -> 0 <= po_rawLpBalance r -> 0 < pv_totalSupply pair ->
           po_withdrawToken0Label r
           = amount_down pl (pv_reserve0 pair * po_rawLpBalance r / pv_totalSupply pair) (tv_decimals (pv_token0 pair))
             ++ " " ++ po_token0Symbol r
           /\ po_withdrawToken1Label r
              = amount_down pl (pv_reserve1 pair * po_rawLpBalance r / pv_totalSupply pair) (tv_decimals (pv_token1 pair))
                ++ " " ++ po_token1Symbol r).
Proof.
  intros row rows held.
  assert (Hrow : forall pair, po_rawTotalLpBalance (row pair)
                 = default 0 (lpBalances !! to_lower (pv_id pair)) + staked_in (pv_id pair) farms).
  { intros pair. unfold row, positionRow. cbn [po_rawTotalLpBalance]. by rewrite <- (staked_amount (pv_id pair) farms). }
  split_and!.
  - unfold rows, positionRows. rewrite sort_by_perm. fold row. rewrite keep_fmap.
    f_equiv. erewrite keep_ext; [done|]. intros pair. unfold held. by rewrite <- Hrow.
  - eapply StronglySorted_weaken; [|apply (sort_by_sorted (position_le pl) (fun _ => True))].
    + exact position_le_total_balance.
    + intros a b _ _. apply position_le_total.
    + intros a b c _ _ _. apply position_le_trans.
    + by apply Forall_true.
  - intros pair r. unfold r, row, positionRow. cbn. rewrite staked_amount, staked_lookup. split_and!; try done.
    + by destruct (stakes_in (pv_id pair) farms).
    + intros. by rewrite !proportional_div.
Qed.
End shown.

(** ** Totals *)

Lemma sum_perm {A} (f : A -> Z) l l' : l ≡ₚ l' -> foldl (fun s a => s + f a) 0 l = foldl (fun s a => s + f a) 0 l'.
Proof.
  induction 1 as [|a l l' _ IH|a b l|l1 l2 l3 _ IH1 _ IH2]; cbn; [done| | |by rewrite IH1].
  - by rewrite (sum_from f l), (sum_from f l'), IH.
  - rewrite (sum_from f l (_ + f a)), (sum_from f l (_ + f b)). lia.
Qed.

Lemma sum_keep {A} (f : A -> Z) (p : A -> bool) l :
  (forall a, p a = false -> f a = 0) ->
  foldl (fun s a => s + f a) 0 (keep p l) = foldl (fun s a => s + f a) 0 l.
Proof.
  intros H. induction l as [|a l IH]; cbn; [done|]. rewrite (sum_from f l). destruct (p a) eqn:E; cbn.
  - by rewrite (sum_from f (keep p l)), IH.
  - rewrite IH, H by done. lia.
Qed.

Lemma sum_fmap {A B} (f : B -> Z) (g : A -> B) l :
  foldl (fun s a => s + f a) 0 (g <$> l) = foldl (fun s a => s + f (g a)) 0 l.
Proof. generalize 0 as n. induction l as [|a l IH]; intros n; cbn; [done|apply IH]. Qed.

Lemma keep_of_Forall {A} (P : A -> Prop) p l : Forall P l -> Forall P (keep p l).
Proof. rewrite !Forall_forall. intros H a Ha. apply elem_of_keep in Ha as [Ha _]. auto. Qed.

Lemma sum_ext {A} (f g : A -> Z) l :
  Forall (fun a => f a = g a) l -> foldl (fun s a => s + f a) 0 l = foldl (fun s a => s + g a) 0 l.
Proof. generalize 0 as n. intros n H. revert n. induction H as [|a l Ha _ IH]; intros n; cbn; [done|]. by rewrite Ha, IH. Qed.

(** The rewards to claim are those of the earn page, whatever the order and choice of rows; what
    the manager still holds is counted for the farms with a stake or rewards only. *)
Lemma claimable_is_earned pl isZh farms :
  Forall (fun f : FarmRow => 0 <= wb_earnedRewards f) farms ->
  totalClaimableRewards pl isZh farms = totalEarnedRewards farms
  /\ totalPendingSyncRewards pl isZh farms = totalManagerPendingRewards (keep has_stake farms).
Proof.
  intros Hf. unfold totalClaimableRewards, totalPendingSyncRewards, stakingRows, ZERO_BIGINT.
  rewrite !(sum_perm _ _ _ (sort_by_perm _ _)), !sum_fmap. cbn [stakingRow sr_farm]. split; [|done].
  unfold totalEarnedRewards. set (g := fun f : FarmRow => Z.max 0 (wb_earnedRewards f)).
  assert (forall l, Forall (fun f : FarmRow => 0 <= wb_earnedRewards f) l -> Forall (fun f : FarmRow => wb_earnedRewards f = g f) l)
    as Hg by (intros l Hl; eapply Forall_impl; [exact Hl|]; unfold g; cbn; lia).
  rewrite (sum_ext (fun f : FarmRow => wb_earnedRewards f) g farms), (sum_ext (fun f : FarmRow => wb_earnedRewards f) g)
    by auto using keep_of_Forall.
  apply sum_keep. intros f H. unfold has_stake, ZERO_BIGINT in H. unfold g. bool_solve. lia.
Qed.

(** ** Three pools, two of them held *)

Definition plain_locale : page_locale :=
  {| pl_formatUnits := fun v _ => dec v; pl_toFixedLocale := fun n _ _ => num_to_string n;
     pl_toLocaleString := fun n _ => num_to_string n; pl_formatDate := fun n _ => num_to_string n;
     pl_localeCompare := fun s u => Z.of_nat (String.length s) - Z.of_nat (String.length u) |}.
Definition plain_pool (id s0 s1 : string) : PoolViewModel :=
  {| pv_id := id; pv_token0 := {| tv_id := s0; tv_symbol := s0; tv_decimals := num_of_Z 18 |};
     pv_token1 := {| tv_id := s1; tv_symbol := s1; tv_decimals := num_of_Z 18 |};
     pv_reserve0 := 1000; pv_reserve1 := 500; pv_totalSupply := 700; pv_recentSwaps := [] |}.
Definition plain_pools : list PoolViewModel := [plain_pool "0xA" "weth" "flux"; plain_pool "0xb" "c" "d"; plain_pool "0xc" "e" "f"].
Definition plain_farm (pid staked : Z) (token : string) : FarmRow :=
  {| fr_pid := pid; fr_poolAddress := "0xfa"; fr_stakingToken := token; fr_rewardsToken := "0xf"; fr_active := true;
     fr_allocPoint := 1; fr_totalAllocPoint := 2; fr_managerPendingRewards := 0; fr_totalStaked := 90; fr_rewardReserve := 0;
     fr_queuedRewards := 0; fr_pendingUserRewards := 0;
     fr_wallet := {| wb_walletBalance := 0; wb_stakedBalance := staked; wb_earnedRewards := 3; wb_allowance := 0 |};
     fr_meta := {| tm_label := "A"; tm_tokenSymbol := "A LP"; tm_tokenName := "A LP"; tm_tokenDecimals := 18; tm_isLp := true |} |}.
Definition plain_farms : list FarmRow := [plain_farm 0 40 "0xC"; plain_farm 1 0 "0xb"; plain_farm 2 50 "0xc"].

Lemma positions_shown_witness :
  let rows := positionRows plain_locale (Some "WETH") plain_pools {[ "0xa" := 70 ]} plain_farms in
  StronglySorted (fun a b => po_rawTotalLpBalance b <= po_rawTotalLpBalance a) rows
  /\ ((fun r => (po_pairId r, po_pairLabel r, po_rawTotalLpBalance r, po_farmHref r)) <$> rows)
     = [("0xc", "E / F", 90, Some "/earn?pool=0xfa"); ("0xA", "ETH / FLUX", 70, None)].
Proof.
  destruct (positions_shown plain_locale) with (w := Some "WETH") (pairs := plain_pools)
    (lpBalances := ({[ "0xa" := 70 ]} : gmap string Z)) (farms := plain_farms) as (_ & Hs & _).
  - cbn. intros s u. lia.
  - cbn. intros s u v. lia.
  - split; [exact Hs|]. vm_compute. reflexivity.
Defined.

(** The tokens are ordered by base units: 5000 of a token with 6 decimals come after a
    hundred-millionth of a coin. *)
Definition usdt_token : SwapTokenOption :=
  {| st_symbol := "USDT"; st_name := "Tether USD"; st_decimals := 6; st_kind := erc20; st_address := Some "0x6";
     st_routeAddress := "0x6" |}.
Example larger_balance_listed_below :
  (fun r => (wt_symbol r, wt_rawAmount r))
    <$> walletTokens plain_locale (Some (10 ^ 10)) [usdt_token] {[ "USDT" := 5000 * 10 ^ 6 ]} desc
  = [("ETH", 10 ^ 10); ("USDT", 5 * 10 ^ 9)].
Proof. vm_compute. reflexivity. Qed.
