(* ===== verification/PositionActions.v ===== *)
(** * Positions over time, and removing liquidity (frontend/src/app/portfolio/page.tsx)

    The state of the portfolio page beside its limit orders, its effects and refreshes, the
    dialog that removes liquidity, with what it derives and its handler; what a press of its
    button sends, and what the router then does with it. *)

From S2P Require Import Prelude JsString JsNumber JsValue JsError JsSort Amounts PageMonad FrontendConfig SwapQuotes SwapWidget.
From S2P Require Import Subgraph RouterContract RouterLiquidity RouterShares RouterDeposits Pools WalletPage Farms Positions.
Import Pools.Trades.
Open Scope string_scope.
Open Scope Z_scope.

(** ** State *)

Inductive RemoveLiquidityAction := remove_approve | remove_remove.
#[export] Instance RemoveLiquidityAction_eq_dec : EqDecision RemoveLiquidityAction.
Proof. solve_decision. Defined.

Record RemovalResultModal := { rr_kind : modal_kind; rr_title : string; rr_message : string }.

(** What was loaded. *)
Record portfolio_data := {
  dt_pairs : list PoolViewModel;
  dt_lpBalances : gmap string Z;
  dt_trades : list TradeViewModel;
  dt_walletByTxHash : gmap string string;
  dt_activityLoading : bool;
  dt_activityError : option string;
  dt_tokenBalances : gmap string Z;
  dt_tokenLoading : bool;
  dt_tokenError : option string;
  dt_farms : farms_state;
}.

(** The dialog of a removal: the position as it was when the dialog was opened. *)
Record removal := {
  rm_removePosition : option PositionDisplayRow;
  rm_removePercentInput : string;
  rm_removeLiquidityAction : option RemoveLiquidityAction;
  rm_removeLiquidityResultModal : option RemovalResultModal;
  rm_removeLpAllowance : option Z;
  rm_removeLpAllowanceLoading : bool;
}.

Record portfolio_page := {
  pf_data :> portfolio_data;
  pf_removal :> removal;
  pf_tokenSortDirection : TokenSortDirection;
  pf_isPositionsModalOpen : bool;
  pf_isStakingModalOpen : bool;
}.

Definition initial_portfolio : portfolio_page :=
  {| pf_data := {| dt_pairs := []; dt_lpBalances := ∅; dt_trades := []; dt_walletByTxHash := ∅;
                   dt_activityLoading := false; dt_activityError := None; dt_tokenBalances := ∅;
                   dt_tokenLoading := false; dt_tokenError := None; dt_farms := no_farms |};
     pf_removal := {| rm_removePosition := None; rm_removePercentInput := "50"; rm_removeLiquidityAction := None;
                      rm_removeLiquidityResultModal := None; rm_removeLpAllowance := None;
                      rm_removeLpAllowanceLoading := false |};
     pf_tokenSortDirection := desc; pf_isPositionsModalOpen := false; pf_isStakingModalOpen := false |}.

Section setters.
Variable p : portfolio_page.
Definition with_data (d : portfolio_data) : portfolio_page :=
  {| pf_data := d; pf_removal := pf_removal p; pf_tokenSortDirection := pf_tokenSortDirection p;
     pf_isPositionsModalOpen := pf_isPositionsModalOpen p; pf_isStakingModalOpen := pf_isStakingModalOpen p |}.
Definition with_removal (r : removal) : portfolio_page :=
  {| pf_data := pf_data p; pf_removal := r; pf_tokenSortDirection := pf_tokenSortDirection p;
     pf_isPositionsModalOpen := pf_isPositionsModalOpen p; pf_isStakingModalOpen := pf_isStakingModalOpen p |}.
Definition with_view (direction : TokenSortDirection) (positions staking : bool) : portfolio_page :=
  {| pf_data := pf_data p; pf_removal := pf_removal p; pf_tokenSortDirection := direction;
     pf_isPositionsModalOpen := positions; pf_isStakingModalOpen := staking |}.

Definition set_pools (pairs : list PoolViewModel) (lpBalances : gmap string Z) : portfolio_page :=
  with_data {| dt_pairs := pairs; dt_lpBalances := lpBalances; dt_trades := dt_trades p;
               dt_walletByTxHash := dt_walletByTxHash p; dt_activityLoading := dt_activityLoading p;
               dt_activityError := dt_activityError p; dt_tokenBalances := dt_tokenBalances p;
               dt_tokenLoading := dt_tokenLoading p; dt_tokenError := dt_tokenError p; dt_farms := dt_farms p |}.
Definition set_activity (trades : list TradeViewModel) (wallets : gmap string string) (loading : bool)
    (error : option string) : portfolio_page :=
  with_data {| dt_pairs := dt_pairs p; dt_lpBalances := dt_lpBalances p; dt_trades := trades;
               dt_walletByTxHash := wallets; dt_activityLoading := loading; dt_activityError := error;
               dt_tokenBalances := dt_tokenBalances p; dt_tokenLoading := dt_tokenLoading p;
               dt_tokenError := dt_tokenError p; dt_farms := dt_farms p |}.
Definition set_tokens (balances : gmap string Z) (loading : bool) (error : option string) : portfolio_page :=
  with_data {| dt_pairs := dt_pairs p; dt_lpBalances := dt_lpBalances p; dt_trades := dt_trades p;
               dt_walletByTxHash := dt_walletByTxHash p; dt_activityLoading := dt_activityLoading p;
               dt_activityError := dt_activityError p; dt_tokenBalances := balances;
               dt_tokenLoading := loading; dt_tokenError := error; dt_farms := dt_farms p |}.

Definition set_dialog (position : option PositionDisplayRow) (percent : string) : portfolio_page :=
  with_removal {| rm_removePosition := position; rm_removePercentInput := percent;
                  rm_removeLiquidityAction := rm_removeLiquidityAction p;
                  rm_removeLiquidityResultModal := rm_removeLiquidityResultModal p;
                  rm_removeLpAllowance := rm_removeLpAllowance p;
                  rm_removeLpAllowanceLoading := rm_removeLpAllowanceLoading p |}.
Definition set_run (action : option RemoveLiquidityAction) (modal : option RemovalResultModal) : portfolio_page :=
  with_removal {| rm_removePosition := rm_removePosition p; rm_removePercentInput := rm_removePercentInput p;
                  rm_removeLiquidityAction := action; rm_removeLiquidityResultModal := modal;
                  rm_removeLpAllowance := rm_removeLpAllowance p;
                  rm_removeLpAllowanceLoading := rm_removeLpAllowanceLoading p |}.
Definition set_allowance (allowance : option Z) (loading : bool) : portfolio_page :=
  with_removal {| rm_removePosition := rm_removePosition p; rm_removePercentInput := rm_removePercentInput p;
                  rm_removeLiquidityAction := rm_removeLiquidityAction p;
                  rm_removeLiquidityResultModal := rm_removeLiquidityResultModal p;
                  rm_removeLpAllowance := allowance; rm_removeLpAllowanceLoading := loading |}.
End setters.

Definition setRemoveLiquidityAction (action : option RemoveLiquidityAction) (p : portfolio_page) : portfolio_page :=
  set_run p action (rm_removeLiquidityResultModal p).
Definition setRemoveLiquidityResultModal (modal : option RemovalResultModal) (p : portfolio_page) : portfolio_page :=
  set_run p (rm_removeLiquidityAction p) modal.
Definition setRemovePosition (row : option PositionDisplayRow) (p : portfolio_page) : portfolio_page :=
  set_dialog p row (rm_removePercentInput p).

Definition openRemoveLiquidityModal (row : PositionDisplayRow) (p : portfolio_page) : portfolio_page :=
  set_allowance (set_run (set_dialog p (Some row) "50") None None) None false.
Definition closeRemoveLiquidityModal (p : portfolio_page) : portfolio_page :=
  match rm_removeLiquidityAction p with
  | Some _ => p
  | None => set_allowance (set_run (set_dialog p None "50") None None) None false
  end.
Definition closeRemoveLiquidityResultModal (p : portfolio_page) : portfolio_page := setRemoveLiquidityResultModal None p.

(** A change of the percentage, by the field or one of the four buttons, while no action runs. *)
Definition type_percent (text : string) (p : portfolio_page) : portfolio_page :=
  match rm_removeLiquidityAction p with Some _ => p | None => set_dialog p (rm_removePosition p) text end.

(** ** Loading *)

(** What the hooks give a render. *)
Record portfolio_hooks := {
  ph_isZh : bool;
  ph_chainId : Z;
  ph_publicClient : bool;
  ph_address : option string;
  ph_isConnected : bool;
  ph_openConnectModal : bool;
  ph_nativeBalance : option Z;
  ph_fluxFormatted : option string;
}.

(** The answers of the node about a pair, its tokens and the wallet, and which of several
    rejections comes first. *)
Record portfolio_node := {
  pn_balanceOf : string -> string -> res js_error Z;
  pn_totalSupply : string -> res js_error Z;
  pn_getReserves : string -> res js_error (Z * Z);
  pn_allowance : string -> string -> string -> res js_error Z;
  pn_transactionFrom : string -> res js_error string;
  pn_first : list js_error -> js_error;
}.

Record portfolio_world := {
  pw_wallet :> wallet_world portfolio_page;
  pw_node : list wallet_event -> portfolio_node;
}.

Section loading.
Variable lib : libraries.
Variable h : portfolio_hooks.

Definition pf_contract (name : string) : option string := lib_contract lib name (Some (ph_chainId h)).
Definition pf_supportedChain : bool := lib_supported lib (Some (ph_chainId h)).
Definition pf_wrappedNative : option string := pf_contract "MockWETH".
Definition pf_router : option string := nonempty_text (pf_contract "FluxSwapRouter").
Definition trackedTokens : list SwapTokenOption := getSwapTokenOptions pf_contract.
(** The connected wallet, when there is one and a client to read with. *)
Definition reader : option string :=
  if ph_publicClient h && ph_isConnected h then nonempty_text (ph_address h) else None.

(** [Promise.all] of entries of an object. *)
Definition entries_of {A V} (first : list js_error -> js_error) (key : A -> string) (read : A -> res js_error V) (l : list A)
  : res js_error (list (string * V)) :=
  all_of first ((fun a => res_bind (read a) (fun v => Ok (key a, v))) <$> l).

(** *** The wallet's tokens: [refreshTokenBalances] *)

Definition erc20Tokens : list SwapTokenOption :=
  keep (fun token => bool_decide (st_kind token = erc20) && bool_decide (is_Some (nonempty_text (st_address token)))) trackedTokens.
Definition read_tokens (nd : portfolio_node) (address : string) : res js_error (list (string * Z)) :=
  entries_of (pn_first nd) st_symbol (fun token => pn_balanceOf nd (default "" (st_address token)) address) erc20Tokens.

Definition tokens_start (background : bool) (p : portfolio_page) : portfolio_page :=
  set_tokens p (dt_tokenBalances p) (negb background || dt_tokenLoading p) None.
Definition tokens_settle (background : bool) (reply : res js_error (list (string * Z))) (p : portfolio_page) : portfolio_page :=
  let loading := background && dt_tokenLoading p in
  match reply with
  | Ok entries => set_tokens p (from_entries entries) loading (dt_tokenError p)
  | Throw error =>
    set_tokens p (if background then dt_tokenBalances p else ∅) loading
      (Some (message_or error "Failed to load token balances"))
  end.
(** Whether there is anything to read, and the state without it. *)
Definition tokens_wallet : option string := match erc20Tokens with [] => None | _ => reader end.
Definition no_tokens (p : portfolio_page) : portfolio_page := set_tokens p ∅ false None.

(** *** Pools, trades, shares and senders: effects, which a later render may cancel *)

Definition pairs_effect_starts (p : portfolio_page) : portfolio_page := set_pools p [] (dt_lpBalances p).
Definition pairs_effect_settles (cancelled : bool) (reply : res js_error (list PoolViewModel)) (p : portfolio_page)
  : portfolio_page :=
  if cancelled then p else set_pools p (or_default [] reply) (dt_lpBalances p).

Definition trades_effect_starts (p : portfolio_page) : portfolio_page := set_activity p [] ∅ pf_supportedChain None.
Definition trades_effect_settles (cancelled : bool) (reply : res js_error (list TradeViewModel)) (p : portfolio_page)
  : portfolio_page :=
  if cancelled then p
  else match reply with
  | Ok trades => set_activity p trades ∅ false (dt_activityError p)
  | Throw error => set_activity p [] ∅ false (Some (message_or error "Failed to load wallet activity"))
  end.

Definition read_shares (nd : portfolio_node) (address : string) (pairs : list PoolViewModel) : res js_error (list (string * Z)) :=
  entries_of (pn_first nd) (fun pair => to_lower (pv_id pair)) (fun pair => pn_balanceOf nd (pv_id pair) address) pairs.
(** The pools whose shares are read, if any. *)
Definition shares_effect_starts (p : portfolio_page) : portfolio_page :=
  match reader, dt_pairs p with
  | Some _, _ :: _ => p
  | _, _ => set_pools p (dt_pairs p) ∅
  end.
Definition shares_effect_settles (cancelled : bool) (reply : res js_error (list (string * Z))) (p : portfolio_page)
  : portfolio_page :=
  if cancelled then p else set_pools p (dt_pairs p) (from_entries (or_default [] reply)).

(** The sender of a transaction, or of its trade when the node does not know it. *)
Definition read_senders (nd : portfolio_node) (trades : list TradeViewModel) : list (string * string) :=
  (fun trade => (to_lower (tr_txHash trade), or_default (tr_sender trade) (pn_transactionFrom nd (tr_txHash trade)))) <$> trades.
Definition senders_effect_starts (p : portfolio_page) : portfolio_page :=
  match ph_publicClient h, dt_trades p with
  | true, _ :: _ => p
  | _, _ => set_activity p (dt_trades p) ∅ (dt_activityLoading p) (dt_activityError p)
  end.
Definition senders_effect_settles (cancelled : bool) (entries : list (string * string)) (p : portfolio_page) : portfolio_page :=
  if cancelled then p
  else set_activity p (dt_trades p) (from_entries entries) (dt_activityLoading p) (dt_activityError p).

(** *** The allowance of the dialog's shares *)

Definition allowance_effect_starts (p : portfolio_page) : portfolio_page :=
  match nonempty_text (ph_address h), pf_router, rm_removePosition p with
  | Some _, Some _, Some _ => if ph_publicClient h then set_allowance p (rm_removeLpAllowance p) true else set_allowance p None false
  | _, _, _ => set_allowance p None false
  end.
Definition allowance_effect_settles (cancelled : bool) (reply : res js_error Z) (p : portfolio_page) : portfolio_page :=
  if cancelled then p else set_allowance p (fulfilled reply) false.

(** *** After a removal: [refreshPositionPoolState] *)

Definition read_pool_state (nd : portfolio_node) (pairId address : string) : res js_error (Z * Z * (Z * Z)) :=
  both (pn_first nd) (both (pn_first nd) (pn_balanceOf nd pairId address) (pn_totalSupply nd pairId)) (pn_getReserves nd pairId).

Definition refreshed_pair (pairId : string) (totalSupply : Z) (reserves : Z * Z) (pair : PoolViewModel) : PoolViewModel :=
  if same_address (pv_id pair) pairId then
    {| pv_id := pv_id pair; pv_token0 := pv_token0 pair; pv_token1 := pv_token1 pair; pv_reserve0 := fst reserves;
       pv_reserve1 := snd reserves; pv_totalSupply := totalSupply; pv_recentSwaps := pv_recentSwaps pair |}
  else pair.

Definition pool_settle (pairId : string) (reply : res js_error (Z * Z * (Z * Z))) (p : portfolio_page) : portfolio_page :=
  match reply with
  | Ok (balance, totalSupply, reserves) =>
    set_pools p (refreshed_pair pairId totalSupply reserves <$> dt_pairs p) (<[to_lower pairId := balance]> (dt_lpBalances p))
  | Throw _ => p
  end.
End loading.

(** ** The dialog *)

Section dialog.
Variable lib : libraries.
Variable pl : page_locale.
Variable h : portfolio_hooks.
Variable p : portfolio_page.

Definition pf_say (zh en : string) : string := if ph_isZh h then zh else en.

Definition shownPositions : list PositionDisplayRow :=
  positionRows pl (pf_wrappedNative lib h) (dt_pairs p) (dt_lpBalances p) (fs_farms (dt_farms p)).

Definition removePercentBps : option Z := parsePercentToBasisPoints (rm_removePercentInput p).
Definition removeLiquidityAmount : Z :=
  match rm_removePosition p, removePercentBps with
  | Some row, Some bps => Z.quot (po_rawLpBalance row * bps) PERCENT_BPS_BASE
  | _, _ => ZERO_BIGINT
  end.
Definition estimated (reserve : PositionDisplayRow -> Z) : Z :=
  match rm_removePosition p with
  | Some row => calculateProportionalAmount (reserve row) removeLiquidityAmount (po_totalSupply row)
  | None => ZERO_BIGINT
  end.
Definition removeEstimatedToken0 : Z := estimated po_reserve0.
Definition removeEstimatedToken1 : Z := estimated po_reserve1.
Definition removeMinToken0 : Z := applySlippage removeEstimatedToken0 DEFAULT_REMOVE_SLIPPAGE_BPS.
Definition removeMinToken1 : Z := applySlippage removeEstimatedToken1 DEFAULT_REMOVE_SLIPPAGE_BPS.

Definition removing_some : bool :=
  match rm_removePosition p with Some _ => ZERO_BIGINT <? removeLiquidityAmount | None => false end.
Definition needsRemoveLpApproval : bool :=
  removing_some && match rm_removeLpAllowance p with Some a => a <? removeLiquidityAmount | None => true end.
Definition isRemoveLpAllowanceLoading : bool :=
  removing_some && ph_publicClient h && bool_decide (is_Some (pf_router lib h))
  && bool_decide (is_Some (nonempty_text (ph_address h))) && rm_removeLpAllowanceLoading p.

Definition removal_label (label : PositionDisplayRow -> string) : string :=
  match rm_removePosition p with Some row => label row | None => "" end.
Definition removeLiquidityAmountLabel : string := removal_label (fun _ => lp_down pl removeLiquidityAmount ++ " LP").
Definition removeEstimatedToken0Label : string :=
  removal_label (fun row => amount_down pl removeEstimatedToken0 (po_token0Decimals row) ++ " " ++ po_token0Symbol row).
Definition removeEstimatedToken1Label : string :=
  removal_label (fun row => amount_down pl removeEstimatedToken1 (po_token1Decimals row) ++ " " ++ po_token1Symbol row).
Definition removeMinToken0Label : string :=
  removal_label (fun row => amount_down pl removeMinToken0 (po_token0Decimals row) ++ " " ++ po_token0Symbol row).
Definition removeMinToken1Label : string :=
  removal_label (fun row => amount_down pl removeMinToken1 (po_token1Decimals row) ++ " " ++ po_token1Symbol row).

Definition no_node : bool := negb (bool_decide (is_Some (pf_router lib h))) || negb (ph_publicClient h).
Definition no_amount_typed : bool :=
  negb (bool_decide (is_Some removePercentBps)) || (removeLiquidityAmount <=? ZERO_BIGINT).

Definition removeLiquidityButtonLabel : string :=
  if negb (ph_isConnected h) then pf_say "连接钱包" "Connect Wallet"
  else match rm_removeLiquidityAction p with
  | Some remove_approve => pf_say "授权确认中..." "Approving..."
  | Some remove_remove => pf_say "移除中..." "Removing..."
  | None =>
    if no_node then pf_say "当前网络暂不支持" "Unsupported network"
    else if isRemoveLpAllowanceLoading then pf_say "读取授权中..." "Checking approval..."
    else if no_amount_typed then pf_say "请输入有效比例" "Enter a valid percent"
    else if needsRemoveLpApproval then pf_say "授权 LP" "Approve LP"
    else pf_say "确认移除" "Remove Liquidity"
  end.
Definition removeLiquidityButtonDisabled : bool :=
  bool_decide (is_Some (rm_removeLiquidityAction p)) || isRemoveLpAllowanceLoading
  || ph_isConnected h && (no_node || no_amount_typed).

(** The modals close themselves when there is nothing to show. *)
Definition modal_effects : portfolio_page :=
  let connected := ph_isConnected h && bool_decide (is_Some (nonempty_text (ph_address h))) in
  let positions := match shownPositions with [] => false | _ => connected end in
  let staking := match stakingRows pl (ph_isZh h) (fs_farms (dt_farms p)) with [] => false | _ => connected end in
  with_view p (pf_tokenSortDirection p) (pf_isPositionsModalOpen p && positions) (pf_isStakingModalOpen p && staking).
End dialog.

(** ** Refreshing and removing *)

Open Scope act_scope.

Section handlers.
Variable wd : portfolio_world.
Variable lib : libraries.
Variable h : portfolio_hooks.
(** The state of the render the handler closed over. *)
Variable p : portfolio_page.

Notation act := (act (wallet_screen portfolio_page)).

(** [refreshTokenBalances], as the timer and the first effect call it. *)
Definition refreshTokenBalances (background : bool) : act unit :=
  match tokens_wallet lib h with
  | None => set_page no_tokens
  | Some address =>
    run set_page (tokens_start background);
    await reply <- ask wd AskedReads (fun l => Ok (read_tokens lib h (pw_node wd l) address));
    set_page (tokens_settle background reply)
  end.

(** The refreshes after a removal, all settled: of the pool, of the tokens in the background, and
    of the balances of the hooks.  The first two change different parts of the page
    ([refreshes_commute]), and neither fails the handler. *)
Definition refresh_after_removal (pairId : string) : act unit :=
  run set_page (match tokens_wallet lib h with Some _ => tokens_start true | None => no_tokens end);
  await replies <- ask wd AskedReads (fun l => Ok
    ((fun address => read_pool_state (pw_node wd l) pairId address) <$> nonempty_text (ph_address h),
     (fun address => read_tokens lib h (pw_node wd l) address) <$> tokens_wallet lib h));
  run set_page (fun q => if ph_publicClient h then from_option (fun r => pool_settle pairId r q) q (fst replies) else q);
  set_page (fun q => from_option (fun r => tokens_settle true r q) q (snd replies)).

Definition pf_transaction (address functionName : string) (args : list abi_arg) : contract_write :=
  {| cw_address := address; cw_functionName := functionName; cw_args := args; cw_value := None;
     cw_chainId := ph_chainId h; cw_gas := getLocalGasOverride (Some (ph_chainId h)) 8000000 |}.

Definition confirm (txHash zh en : string) : act unit :=
  await success <- ask wd (AwaitedReceipt txHash) (fun l => wd_receipt wd l txHash);
  if success : bool then return_ else done_with (Throw (Error (pf_say h zh en))).

Definition approve_shares (row : PositionDisplayRow) (router : string) : act unit :=
  await txHash <- write wd (pf_transaction (po_pairId row) "approve" [ArgAddress router; ArgUint maxUint256]);
  run confirm txHash "LP 授权交易失败。" "LP approval transaction failed.";
  run set_page (fun q => set_allowance q (Some maxUint256) false);
  set_page (setRemoveLiquidityResultModal (Some
    {| rr_kind := modal_success; rr_title := pf_say h "授权成功" "Approval successful";
       rr_message := pf_say h "LP 已授权，现在可以继续移除流动性。" "LP approved. You can now remove liquidity." |})).

Definition is_wrapped (token : string) : bool :=
  match pf_wrappedNative lib h with Some w => str_nonempty w && same_address token w | None => false end.

(** The removal, from the block it starts at. *)
Definition removal_transaction (row : PositionDisplayRow) (router address : string) (block : chain_block) : contract_write :=
  let deadline := ArgUint (cb_timestamp block + REMOVE_LIQUIDITY_DEADLINE_SECONDS) in
  let amount := ArgUint (removeLiquidityAmount p) in
  let min0 := ArgUint (removeMinToken0 p) in
  let min1 := ArgUint (removeMinToken1 p) in
  let token0IsNative := is_wrapped (po_token0Address row) in
  let token1IsNative := is_wrapped (po_token1Address row) in
  if token0IsNative || token1IsNative then
    let tokenAddress := if token0IsNative then po_token1Address row else po_token0Address row in
    let amountTokenMin := if token0IsNative then min1 else min0 in
    let amountETHMin := if token0IsNative then min0 else min1 in
    pf_transaction router "removeLiquidityETH"
      [ArgAddress tokenAddress; amount; amountTokenMin; amountETHMin; ArgAddress address; deadline]
  else
    pf_transaction router "removeLiquidity"
      [ArgAddress (po_token0Address row); ArgAddress (po_token1Address row); amount; min0; min1; ArgAddress address; deadline].

Definition remove_shares (row : PositionDisplayRow) (router address : string) : act unit :=
  await latestBlock <- getBlock wd;
  await txHash <- write wd (removal_transaction row router address latestBlock);
  run confirm txHash "移除流动性交易失败。" "Remove liquidity transaction failed.";
  run refresh_after_removal (po_pairId row);
  run set_page (setRemoveLiquidityResultModal (Some
    {| rr_kind := modal_success; rr_title := pf_say h "移除成功" "Liquidity removed";
       rr_message := pf_say h "流动性已移除，仓位数据会随链上和子图刷新。"
                              "Liquidity was removed. Position data will update with chain and subgraph refresh." |}));
  set_page (setRemovePosition None).

Definition removal_failed (error : js_error) : act unit :=
  set_page (setRemoveLiquidityResultModal (Some
    {| rr_kind := modal_error; rr_title := pf_say h "移除失败" "Remove failed";
       rr_message := wd_errorMessage wd error (pf_say h "你已取消本次操作。" "You rejected this action.") |})).

Definition removal_action : RemoveLiquidityAction := if needsRemoveLpApproval p then remove_approve else remove_remove.

Definition removal_body (row : PositionDisplayRow) (router address : string) : act unit :=
  match removal_action with
  | remove_approve => approve_shares row router
  | remove_remove => remove_shares row router address
  end.

Definition ask_to_connect : act unit := if ph_openConnectModal h then emit ConnectOpened else return_.

Definition handleRemoveLiquidityAction : act unit :=
  match nonempty_text (ph_address h) with
  | None => ask_to_connect
  | Some address =>
    if negb (ph_isConnected h) then ask_to_connect
    else match rm_removePosition p, pf_router lib h with
    | Some row, Some router =>
      if negb (ph_publicClient h) || (removeLiquidityAmount p <=? ZERO_BIGINT) then return_
      else
        run set_page (setRemoveLiquidityResultModal None);
        run set_page (setRemoveLiquidityAction (Some removal_action));
        act_finally (act_catch (removal_body row router address) removal_failed) (on_page (setRemoveLiquidityAction None))
    | _, _ => return_
    end
  end.

(** A press of the dialog's button, which is there while a position is selected. *)
Definition press_remove : act unit :=
  match rm_removePosition p with
  | Some _ => if removeLiquidityButtonDisabled lib h p then return_ else handleRemoveLiquidityAction
  | None => return_
  end.
End handlers.

(** *** The page over time *)

(** What happens to the dialog and to the data between two presses. *)
Inductive portfolio_event :=
| PositionOpened (i : nat)
| PercentTyped (text : string)
| DialogClosed
| ResultClosed
| SortTurned
| PositionsOpened
| PositionsClosed
| StakingOpened
| StakingClosed
| ModalsChecked
| PoolsAsked
| PoolsRead (cancelled : bool) (reply : res js_error (list PoolViewModel))
| TradesAsked
| TradesRead (cancelled : bool) (reply : res js_error (list TradeViewModel))
| SharesAsked
| SharesRead (cancelled : bool) (reply : res js_error (list (string * Z)))
| SendersAsked
| SendersRead (cancelled : bool) (entries : list (string * string))
| TokensAsked (background : bool)
| TokensRead (background : bool) (reply : res js_error (list (string * Z)))
| AllowanceAsked
| AllowanceRead (cancelled : bool) (reply : res js_error Z)
| FarmsRead (background : bool) (reply : res js_error (list FarmRow)).

Definition portfolio_step (lib : libraries) (pl : page_locale) (h : portfolio_hooks) (p : portfolio_page) (e : portfolio_event)
  : portfolio_page :=
  match e with
  | PositionOpened i => from_option (fun row => openRemoveLiquidityModal row p) p (shownPositions lib pl h p !! i)
  | PercentTyped text => match rm_removePosition p with Some _ => type_percent text p | None => p end
  | DialogClosed => closeRemoveLiquidityModal p
  | ResultClosed => closeRemoveLiquidityResultModal p
  | SortTurned =>
    with_view p (match pf_tokenSortDirection p with desc => asc | asc => desc end) (pf_isPositionsModalOpen p) (pf_isStakingModalOpen p)
  | PositionsOpened => with_view p (pf_tokenSortDirection p) true (pf_isStakingModalOpen p)
  | PositionsClosed => with_view p (pf_tokenSortDirection p) false (pf_isStakingModalOpen p)
  | StakingOpened => with_view p (pf_tokenSortDirection p) (pf_isPositionsModalOpen p) true
  | StakingClosed => with_view p (pf_tokenSortDirection p) (pf_isPositionsModalOpen p) false
  | ModalsChecked => modal_effects lib pl h p
  | PoolsAsked => pairs_effect_starts p
  | PoolsRead cancelled reply => pairs_effect_settles cancelled reply p
  | TradesAsked => trades_effect_starts lib h p
  | TradesRead cancelled reply => trades_effect_settles cancelled reply p
  | SharesAsked => shares_effect_starts h p
  | SharesRead cancelled reply => shares_effect_settles cancelled reply p
  | SendersAsked => senders_effect_starts h p
  | SendersRead cancelled entries => senders_effect_settles cancelled entries p
  | TokensAsked background => match tokens_wallet lib h with Some _ => tokens_start background p | None => no_tokens p end
  | TokensRead background reply => tokens_settle background reply p
  | AllowanceAsked => allowance_effect_starts lib h p
  | AllowanceRead cancelled reply => allowance_effect_settles cancelled reply p
  | FarmsRead background reply =>
    with_data p {| dt_pairs := dt_pairs p; dt_lpBalances := dt_lpBalances p; dt_trades := dt_trades p;
                   dt_walletByTxHash := dt_walletByTxHash p; dt_activityLoading := dt_activityLoading p;
                   dt_activityError := dt_activityError p; dt_tokenBalances := dt_tokenBalances p;
                   dt_tokenLoading := dt_tokenLoading p; dt_tokenError := dt_tokenError p;
                   dt_farms := load_settles background reply (load_starts background (dt_farms p)) |}
  end.

(** The two refreshes after a removal change different parts of the page. *)
Lemma refreshes_commute pairId r r' p :
  pool_settle pairId r (tokens_settle true r' p) = tokens_settle true r' (pool_settle pairId r p).
Proof. destruct r as [[[b t] rs]|e], r' as [l|e']; done. Qed.

(** ** What a press does *)

Section press.
Variable wd : portfolio_world.
Variable lib : libraries.
Variable h : portfolio_hooks.
Variable p : portfolio_page.
Implicit Type s : wallet_screen portfolio_page.

(** The dialog can act: a position is selected, the wallet connected, the node and the router
    known, the button enabled. *)
Definition can_remove (row : PositionDisplayRow) (router address : string) : Prop :=
  rm_removePosition p = Some row /\ pf_router lib h = Some router /\ nonempty_text (ph_address h) = Some address
  /\ ph_isConnected h = true /\ ph_publicClient h = true /\ removeLiquidityButtonDisabled lib h p = false.

Definition receipt_of (l : list wallet_event) (txHash zh en : string) : res js_error unit :=
  res_bind (wd_receipt wd (l ++ [AwaitedReceipt txHash])%list txHash) (fun success =>
  if success : bool then Ok tt else Throw (Error (pf_say h zh en))).
Definition settled_by (l : list wallet_event) (t : contract_write) (zh en : string) : res js_error unit :=
  res_bind (wd_write wd (l ++ [Wrote t])%list t) (fun txHash => receipt_of (l ++ [Wrote t])%list txHash zh en).

Definition approval (row : PositionDisplayRow) (router : string) : contract_write :=
  pf_transaction h (po_pairId row) "approve" [ArgAddress router; ArgUint maxUint256].

(** The transaction of a press, when there is one, and how it ends. *)
Definition removal_sent (row : PositionDisplayRow) (router address : string) (l : list wallet_event) : res js_error contract_write :=
  match removal_action p with
  | remove_approve => Ok (approval row router)
  | remove_remove =>
    res_bind (wd_block wd (l ++ [AskedBlock])%list) (fun block => Ok (removal_transaction lib h p row router address block))
  end.
Definition removal_ends (row : PositionDisplayRow) (router address : string) (l : list wallet_event) : res js_error unit :=
  res_bind (removal_sent row router address l) (fun t =>
  match removal_action p with
  | remove_approve => settled_by l t "LP 授权交易失败。" "LP approval transaction failed."
  | remove_remove => settled_by (l ++ [AskedBlock])%list t "移除流动性交易失败。" "Remove liquidity transaction failed."
  end).

(** The page after a press that acted: with the shares approved; with the shares removed, the
    dialog closed and the pool and the tokens as they were read since; or with the failure. *)
Definition removal_outcome (row : PositionDisplayRow) (address : string) (r : res js_error unit) (q : portfolio_page) : Prop :=
  rm_removeLiquidityAction q = None /\
  match r, removal_action p with
  | Ok _, remove_approve =>
    rm_removeLpAllowance q = Some maxUint256 /\ rr_kind <$> rm_removeLiquidityResultModal q = Some modal_success
  | Ok _, remove_remove =>
    rm_removePosition q = None /\ rr_kind <$> rm_removeLiquidityResultModal q = Some modal_success
    /\ exists l before,
         let read := pool_settle (po_pairId row) (read_pool_state (pw_node wd l) (po_pairId row) address) before in
         dt_pairs q = dt_pairs read /\ dt_lpBalances q = dt_lpBalances read
         /\ (tokens_wallet lib h = Some address ->
             dt_tokenBalances q = dt_tokenBalances (tokens_settle true (read_tokens lib h (pw_node wd l) address) read))
  | Throw e, _ =>
    rm_removeLiquidityResultModal q = Some {| rr_kind := modal_error; rr_title := pf_say h "移除失败" "Remove failed";
      rr_message := wd_errorMessage wd e (pf_say h "你已取消本次操作。" "You rejected this action.") |}
  end.

Lemma confirm_eq txHash zh en s :
  confirm wd h txHash zh en s = (waited wd (AwaitedReceipt txHash) s, receipt_of (ws_trace s) txHash zh en).
Proof.
  unfold confirm, receipt_of, act_bind, ask. cbn [with_event ws_trace].
  by destruct (wd_receipt wd (ws_trace s ++ [AwaitedReceipt txHash])%list txHash) as [[]|e].
Qed.

Lemma refresh_quiet pairId : quiet (refresh_after_removal wd lib h pairId).
Proof.
  unfold refresh_after_removal. apply wallet_quiet_bind; [apply wallet_quiet_set|]. intros _.
  apply wallet_quiet_bind; [by apply wallet_quiet_ask|]. intros replies.
  apply wallet_quiet_bind; [apply wallet_quiet_set|]. intros _. apply wallet_quiet_set.
Qed.

Lemma confirm_quiet txHash zh en : quiet (confirm wd h txHash zh en).
Proof. intros s. rewrite confirm_eq. by apply wallet_sent_waited, wallet_sent_refl. Qed.

Lemma refresh_reads pairId address s :
  nonempty_text (ph_address h) = Some address -> ph_publicClient h = true ->
  exists s', refresh_after_removal wd lib h pairId s = (s', Ok tt)
    /\ exists l before,
         let read := pool_settle pairId (read_pool_state (pw_node wd l) pairId address) before in
         dt_pairs (ws_page s') = dt_pairs read /\ dt_lpBalances (ws_page s') = dt_lpBalances read
         /\ (tokens_wallet lib h = Some address ->
             dt_tokenBalances (ws_page s') = dt_tokenBalances (tokens_settle true (read_tokens lib h (pw_node wd l) address) read)).
Proof.
  intros Ha Hc. unfold refresh_after_removal, act_bind, set_page, update, ask. rewrite Ha, Hc. cbn [fst snd fmap option_fmap option_map from_option].
  set (s1 := waited _ _ _). set (l := ws_trace (with_event AskedReads _)). eexists. split; [done|].
  cbn [ws_page on_page]. exists l, (ws_page s1). cbv zeta. set (read := pool_settle _ _ _).
  destruct (tokens_wallet lib h) as [a|]; cbn [fmap option_fmap option_map from_option]; [|done].
  split_and!; [by destruct (read_tokens _ _ _ a)..|]. by intros [= <-].
Qed.

Lemma approve_outcome row router s :
  exists s', approve_shares wd h row router s
    = (s', settled_by (ws_trace s) (approval row router) "LP 授权交易失败。" "LP approval transaction failed.")
  /\ (settled_by (ws_trace s) (approval row router) "LP 授权交易失败。" "LP approval transaction failed." = Ok tt ->
      rm_removeLpAllowance (ws_page s') = Some maxUint256
      /\ rr_kind <$> rm_removeLiquidityResultModal (ws_page s') = Some modal_success).
Proof.
  unfold approve_shares, act_bind, settled_by, write, ask. fold (approval row router). cbn [with_event ws_trace].
  destruct (wd_write wd (ws_trace s ++ [Wrote (approval row router)])%list (approval row router)) as [txHash|e]; cbn [res_bind];
    [|by eexists].
  rewrite confirm_eq. cbn [waited on_page with_event ws_trace]. destruct (receipt_of _ txHash _ _) as [[]|e]; [|by eexists].
  unfold set_page, update. eexists. split; [done|]. by intros _.
Qed.

Lemma remove_outcome row router address s :
  nonempty_text (ph_address h) = Some address -> ph_publicClient h = true ->
  let r := res_bind (wd_block wd (ws_trace s ++ [AskedBlock])%list) (fun block =>
             settled_by (ws_trace s ++ [AskedBlock])%list (removal_transaction lib h p row router address block)
               "移除流动性交易失败。" "Remove liquidity transaction failed.") in
  exists s', remove_shares wd lib h p row router address s = (s', r)
  /\ (r = Ok tt -> rm_removePosition (ws_page s') = None
      /\ rr_kind <$> rm_removeLiquidityResultModal (ws_page s') = Some modal_success
      /\ exists l before,
         let read := pool_settle (po_pairId row) (read_pool_state (pw_node wd l) (po_pairId row) address) before in
         dt_pairs (ws_page s') = dt_pairs read /\ dt_lpBalances (ws_page s') = dt_lpBalances read
         /\ (tokens_wallet lib h = Some address ->
             dt_tokenBalances (ws_page s') = dt_tokenBalances (tokens_settle true (read_tokens lib h (pw_node wd l) address) read))).
Proof.
  intros Ha Hc r. unfold r, remove_shares, getBlock. unfold act_bind at 1, ask. cbn [with_event ws_trace].
  destruct (wd_block wd (ws_trace s ++ [AskedBlock])%list) as [block|e]; cbn [res_bind]; [|by eexists].
  set (t := removal_transaction _ _ _ _ _ _ _). unfold act_bind at 1, settled_by, write, ask. cbn [waited on_page with_event ws_trace].
  destruct (wd_write wd ((ws_trace s ++ [AskedBlock]) ++ [Wrote t])%list t) as [txHash|e]; cbn [res_bind]; [|by eexists].
  unfold act_bind at 1. rewrite confirm_eq. cbn [waited on_page with_event ws_trace].
  destruct (receipt_of _ txHash _ _) as [[]|e]; [|by eexists]. unfold act_bind at 1.
  lazymatch goal with |- context [refresh_after_removal _ _ _ _ ?s1] =>
    destruct (refresh_reads (po_pairId row) address s1 Ha Hc) as (s2 & -> & l & before & H1 & H2 & H3) end.
  unfold act_bind, set_page, update. eexists. split; [done|]. intros _. split; [done|]. split; [done|]. by exists l, before.
Qed.

Lemma body_quiet_sends row router address s :
  sent s (fst (act_catch (removal_body wd lib h p row router address) (removal_failed wd h) s))
    (match removal_sent row router address (ws_trace s) with Ok t => [t] | Throw _ => [] end).
Proof.
  assert (Hf : forall e, quiet (removal_failed wd h e)) by (intros e; apply wallet_quiet_set).
  unfold removal_body, removal_sent. destruct (removal_action p).
  - apply (sends_catch (approval row router)); [|done]. apply (sends_then wd). intros txHash.
    apply wallet_quiet_bind; [apply confirm_quiet|]. intros _. apply wallet_quiet_bind; [apply wallet_quiet_set|].
    intros _. apply wallet_quiet_set.
  - unfold remove_shares, act_catch. unfold act_bind at 1, getBlock, ask. cbn [with_event ws_trace].
    destruct (wd_block wd (ws_trace s ++ [AskedBlock])%list) as [block|e]; cbn [res_bind].
    2: { apply (wallet_sent_trans s (waited wd AskedBlock s) _ [] []); [by apply wallet_sent_waited, wallet_sent_refl|apply Hf]. }
    set (t := removal_transaction _ _ _ _ _ _ _). set (s1 := waited _ _ _).
    apply (wallet_sent_trans s s1 _ [] [t]); [by apply wallet_sent_waited, wallet_sent_refl|].
    apply (sends_catch t); [|done]. apply (sends_then wd). intros txHash.
    apply wallet_quiet_bind; [apply confirm_quiet|]. intros _. apply wallet_quiet_bind; [apply refresh_quiet|]. intros _.
    apply wallet_quiet_bind; [apply wallet_quiet_set|]. intros _. apply wallet_quiet_set.
Qed.

Lemma removal_idle s :
  (forall row router address, ~ can_remove row router address) ->
  press_remove wd lib h p s = (s, Ok tt) \/ press_remove wd lib h p s = (with_event ConnectOpened s, Ok tt).
Proof.
  intros Hn. unfold press_remove. destruct (rm_removePosition p) as [row|] eqn:Hrow; [|by left].
  destruct (removeLiquidityButtonDisabled lib h p) eqn:Hd; [by left|]. unfold handleRemoveLiquidityAction.
  assert (Hc : ask_to_connect h s = (s, Ok tt) \/ ask_to_connect h s = (with_event ConnectOpened s, Ok tt))
    by (unfold ask_to_connect; destruct (ph_openConnectModal h); [by right|by left]).
  destruct (nonempty_text (ph_address h)) as [address|] eqn:Ha; [|done].
  destruct (ph_isConnected h) eqn:Hi; [|done]. cbn [negb]. rewrite Hrow.
  destruct (pf_router lib h) as [router|] eqn:Hr; [|by left].
  destruct (ph_publicClient h) eqn:Hp; [|by left]. exfalso. by apply (Hn row router address).
Qed.

Lemma amount_positive row router address :
  can_remove row router address ->
  0 < removeLiquidityAmount p <= po_rawLpBalance row
  /\ exists bps, removePercentBps p = Some bps /\ 0 < bps <= PERCENT_BPS_BASE
       /\ removeLiquidityAmount p = po_rawLpBalance row * bps / PERCENT_BPS_BASE.
Proof.
  intros (Hrow & Hr & Ha & Hi & Hp & Hd). unfold removeLiquidityButtonDisabled, no_amount_typed in Hd.
  rewrite Hi, andb_true_l in Hd. bool_solve. unfold ZERO_BIGINT in *.
  assert (Hb : exists bps, removePercentBps p = Some bps) by (destruct (removePercentBps p); [by eexists|done]).
  destruct Hb as [bps Hb]. pose proof (proj2 (parsePercent_reads _ _ Hb)) as Hle. unfold PERCENT_BPS_BASE in *.
  assert (E : removeLiquidityAmount p = Z.quot (po_rawLpBalance row * bps) 10000)
    by (unfold removeLiquidityAmount; by rewrite Hrow, Hb).
  assert (0 < removeLiquidityAmount p) as Hpos by lia. rewrite E in Hpos.
  assert (0 <= po_rawLpBalance row).
  { destruct (Z.le_gt_cases 0 (po_rawLpBalance row)); [done|]. exfalso.
    assert (Z.quot (po_rawLpBalance row * bps) 10000 <= 0); [|lia]. apply Z.quot_le_upper_bound; nia. }
  rewrite E, Z.quot_div_nonneg by nia. rewrite Z.quot_div_nonneg in Hpos by nia. split; [|by exists bps].
  split; [done|]. apply Z.div_le_upper_bound; nia.
Qed.

Lemma removal_runs row router address s :
  can_remove row router address ->
  press_remove wd lib h p s
  = act_finally (act_catch (removal_body wd lib h p row router address) (removal_failed wd h)) (on_page (setRemoveLiquidityAction None))
      (on_page (setRemoveLiquidityAction (Some (removal_action p))) (on_page (setRemoveLiquidityResultModal None) s)).
Proof.
  intros H. pose proof (amount_positive _ _ _ H) as [Hpos _]. destruct H as (Hrow & Hr & Ha & Hi & Hp & Hd).
  unfold press_remove, handleRemoveLiquidityAction. rewrite Hrow, Hd, Ha, Hi, Hr, Hp. cbn [negb orb].
  rewrite (proj2 (Z.leb_gt (removeLiquidityAmount p) ZERO_BIGINT)) by (unfold ZERO_BIGINT; lia). done.
Qed.

Lemma removal_body_outcome row router address s :
  can_remove row router address ->
  exists s', act_finally (act_catch (removal_body wd lib h p row router address) (removal_failed wd h))
               (on_page (setRemoveLiquidityAction None)) s = (s', Ok tt)
    /\ removal_outcome row address (removal_ends row router address (ws_trace s)) (ws_page s').
Proof.
  intros (_ & _ & Ha & _ & Hp & _). unfold act_finally, act_catch, removal_body, removal_ends, removal_sent, removal_outcome.
  destruct (removal_action p); cbn [res_bind].
  - destruct (approve_outcome row router s) as (s1 & -> & Ho). destruct (settled_by _ _ _ _) as [[]|e]; eexists; (split; [done|]).
    + split; [done|]. by apply Ho.
    + done.
  - destruct (remove_outcome row router address s Ha Hp) as (s1 & -> & Ho).
    destruct (wd_block wd _) as [block|e]; cbn [res_bind] in *; [|by eexists].
    destruct (settled_by _ _ _ _) as [[]|e]; eexists; (split; [done|]); [|done]. split; [done|]. by apply Ho.
Qed.

(** The call of a removal, to the wallet, by a deadline. *)
Definition removal_call (row : PositionDisplayRow) (address : string) (deadline : Z) : liquidity_call :=
  let l := removeLiquidityAmount p in
  let t0 := address_value (po_token0Address row) in
  let t1 := address_value (po_token1Address row) in
  let to := address_value address in
  if is_wrapped lib h (po_token0Address row) then RemoveLiquidityETH t1 l (removeMinToken1 p) (removeMinToken0 p) to deadline
  else if is_wrapped lib h (po_token1Address row) then RemoveLiquidityETH t0 l (removeMinToken0 p) (removeMinToken1 p) to deadline
  else RemoveLiquidity t0 t1 l (removeMinToken0 p) (removeMinToken1 p) to deadline.

Lemma removal_transaction_call row router address block :
  let t := removal_transaction lib h p row router address block in
  liquidity_call_of t = Some (removal_call row address (cb_timestamp block + REMOVE_LIQUIDITY_DEADLINE_SECONDS))
  /\ cw_address t = router /\ cw_chainId t = ph_chainId h.
Proof.
  unfold removal_transaction, removal_call.
  destruct (is_wrapped lib h (po_token0Address row)), (is_wrapped lib h (po_token1Address row)); by split_and!.
Qed.
End press.

(** A press in the removal dialog never throws.  If it can act, it sends at most one
    transaction: an approval of the position's shares for the router when the allowance read
    does not cover the amount; otherwise a removal, at the router and to the wallet, of the
    typed percentage of the wallet's shares, of at most what it has and what is approved, half
    an hour from the latest block, and none if the block cannot be read.  No action is running
    when it ends.  Once the removal is confirmed the dialog is closed, and the pool's reserves
    and supply, the wallet's shares and its tokens are those read since; an approval leaves the
    largest allowance; anything else shows the reason.  In every other case nothing is sent. *)
Theorem removal_press_sends wd lib h p s :
  exists s', press_remove wd lib h p s = (s', Ok tt)
  /\ ((exists row router address bps,
          can_remove lib h p row router address
          /\ removePercentBps p = Some bps /\ percent_text (rm_removePercentInput p) bps /\ 0 < bps <= 10000
          /\ removeLiquidityAmount p = po_rawLpBalance row * bps / 10000
          /\ 0 < removeLiquidityAmount p <= po_rawLpBalance row
          /\ sent s s' (match removal_sent wd lib h p row router address (ws_trace s) with Ok t => [t] | Throw _ => [] end)
          /\ removal_outcome wd lib h p row address (removal_ends wd lib h p row router address (ws_trace s)) (ws_page s')
          /\ (if match rm_removeLpAllowance p with Some a => a <? removeLiquidityAmount p | None => true end
              then removal_sent wd lib h p row router address (ws_trace s) = Ok (approval h row router)
              else forall t, removal_sent wd lib h p row router address (ws_trace s) = Ok t ->
                   cw_address t = router /\ cw_chainId t = ph_chainId h
                   /\ exists block, wd_block wd (ws_trace s ++ [AskedBlock])%list = Ok block
                      /\ liquidity_call_of t = Some (removal_call lib h p row address (cb_timestamp block + 30 * 60))))
      \/ (forall row router address, ~ can_remove lib h p row router address) /\ (s' = s \/ s' = with_event ConnectOpened s)).
Proof.
  assert (Hdec : (exists row router address, can_remove lib h p row router address)
                 \/ forall row router address, ~ can_remove lib h p row router address).
  { unfold can_remove. destruct (rm_removePosition p), (pf_router lib h), (nonempty_text (ph_address h)), (ph_isConnected h),
      (ph_publicClient h), (removeLiquidityButtonDisabled lib h p); try (right; naive_solver); left; eexists _, _, _; by split_and!. }
  destruct Hdec as [(row & router & address & Hc)|Hn].
  2: { destruct (removal_idle wd lib h p s Hn) as [H|H]; eexists; (split; [exact H|]); right; auto. }
  pose proof (amount_positive lib h p row router address Hc) as (Hpos & bps & Hb & Hle & He).
  rewrite (removal_runs wd lib h p row router address s Hc). set (s1 := on_page (setRemoveLiquidityAction _) _).
  destruct (removal_body_outcome wd lib h p row router address s1 Hc) as (s' & Hs & Ho). exists s'. split; [exact Hs|]. left.
  exists row, router, address, bps. pose proof (proj1 (parsePercent_reads _ _ Hb)) as Ht.
  unfold PERCENT_BPS_BASE in *. destruct Hle, Hpos. split_and!; try done.
  - pose proof (body_quiet_sends wd lib h p row router address s1) as Hq. unfold act_finally in Hs. injection Hs as <- _. exact Hq.
  - pose proof Hc as (Hrow & _). unfold removal_sent, removal_action, needsRemoveLpApproval, removing_some. rewrite Hrow.
    rewrite (proj2 (Z.ltb_lt ZERO_BIGINT _)) by done. cbn [andb]. 
    destruct (match rm_removeLpAllowance p with Some a => a <? removeLiquidityAmount p | None => true end); [done|].
    intros t Hx. apply res_bind_Ok in Hx as (block & Hbk & [= <-]).
    destruct (removal_transaction_call lib h p row router address block) as (Hx1 & Hx2 & Hx3). split_and!; try done. by exists block.
Qed.

(** ** What the router does with a removal *)

Section executing.
Variable lib : libraries.
Variable h : portfolio_hooks.
Variable p : portfolio_page.
Implicit Type row : PositionDisplayRow.

(** The chain is as the dialog shows it: the pair has the reserves and the supply of the row, and
    the wallet at least the shares and the allowance; tokens move. *)
Record as_shown (row : PositionDisplayRow) (e : liquidity_env) (ps : pairs) (c : PairContract.state) : Prop := {
  as_live : live_pair (se_timestamp e) (address_value (po_token0Address row)) (address_value (po_token1Address row)) ps c
              (po_reserve0 row) (po_reserve1 row);
  as_supply : PairContract.lp_totalSupply c = po_totalSupply row;
  as_WETH : forall w, pf_wrappedNative lib h = Some w -> str_nonempty w = true -> address_value w = se_WETH e;
  as_shares : po_rawLpBalance row <= PairContract.balanceOf (se_bytes e (le_sender e)) c;
  as_allowed : forall a, rm_removeLpAllowance p = Some a ->
    a <= le_allowance e (pair_key (address_value (po_token0Address row)) (address_value (po_token1Address row)));
  as_sender : se_bytes e (le_sender e) <> PairContract.zero_address;
  as_pair : se_bytes e (le_pair_address e (pair_key (address_value (po_token0Address row)) (address_value (po_token1Address row))))
            <> PairContract.zero_address;
  as_other : se_bytes e (le_sender e)
    <> se_bytes e (le_pair_address e (pair_key (address_value (po_token0Address row)) (address_value (po_token1Address row))));
  as_none : PairContract.balanceOf
    (se_bytes e (le_pair_address e (pair_key (address_value (po_token0Address row)) (address_value (po_token1Address row))))) c = 0;
  as_transfer : forall t u v, le_transfer e t u v = Ok tt;
  as_send : forall u v, le_sendETH e u v = Ok tt;
}.

(** What the wallet receives, of the first and the second token of the row. *)
Definition received row (r : liquidity_receipt) : Z * Z :=
  if is_wrapped lib h (po_token0Address row) then (lr_amountB r, lr_amountA r) else (lr_amountA r, lr_amountB r).

Lemma wrapped_value token e :
  (forall w, pf_wrappedNative lib h = Some w -> str_nonempty w = true -> address_value w = se_WETH e) ->
  is_wrapped lib h token = true -> address_value token = se_WETH e.
Proof.
  intros Hw. unfold is_wrapped. destruct (pf_wrappedNative lib h) as [w|]; [|done]. intros H. bool_solve.
  rewrite <- (Hw w) by done. unfold same_address in *. apply String.eqb_eq in H0. unfold address_value. by rewrite H0.
Qed.

Lemma removal_call_bounds row address d e ps r :
  pairs_ok ps -> 0 <= removeLiquidityAmount p -> exec_liquidity e (removal_call lib h p row address d) ps = Ok r ->
  removeMinToken0 p <= fst (received row r) /\ removeMinToken1 p <= snd (received row r)
  /\ lr_liquidity r = removeLiquidityAmount p /\ se_timestamp e <= d.
Proof.
  intros Hps Hl H. unfold removal_call, received in *.
  destruct (is_wrapped lib h (po_token0Address row)); [|destruct (is_wrapped lib h (po_token1Address row))];
    cbn [exec_liquidity] in H; unfold ensure in H; router_inv H.
  - unfold _removeLiquidityETH in H. router_inv H. injection H as <-.
    apply removal_Ok in Hx as (? & ? & ? & _); [|done..]. cbn [fst snd]. by split_and!.
  - unfold _removeLiquidityETH in H. router_inv H. injection H as <-.
    apply removal_Ok in Hx as (? & ? & ? & _); [|done..]. cbn [fst snd]. by split_and!.
  - apply removal_Ok in H as (? & ? & ? & _); [|done..]. cbn [fst snd]. by split_and!.
Qed.

Section shown.
Variables (row : PositionDisplayRow) (router address : string) (e : liquidity_env) (ps : pairs) (c : PairContract.state).
Hypothesis can : can_remove lib h p row router address.
Hypothesis approved : needsRemoveLpApproval p = false.
Hypothesis shown : as_shown row e ps c.
Hypothesis some0 : 0 < removeEstimatedToken0 p.
Hypothesis some1 : 0 < removeEstimatedToken1 p.

Let a := address_value (po_token0Address row).
Let b := address_value (po_token1Address row).

Lemma estimate_part :
  removeEstimatedToken0 p = part_of c (po_reserve0 row) (removeLiquidityAmount p)
  /\ removeEstimatedToken1 p = part_of c (po_reserve1 row) (removeLiquidityAmount p).
Proof.
  pose proof (amount_positive lib h p row router address can) as [[Hl _] _]. destruct can as (Hrow & _).
  pose proof (live_words _ _ _ _ _ _ _ (as_live _ _ _ _ shown)) as [W0 W1].
  pose proof (lv_supply _ _ _ _ _ _ _ (as_live _ _ _ _ shown)) as HT. rewrite (as_supply _ _ _ _ shown) in HT.
  unfold removeEstimatedToken0, removeEstimatedToken1, estimated, part_of. rewrite Hrow, (as_supply _ _ _ _ shown).
  rewrite !proportional_div by lia. by rewrite !(Z.mul_comm (removeLiquidityAmount p)).
Qed.

Lemma shown_fits :
  withdrawal_fits e a b c (po_reserve0 row) (po_reserve1 row) (removeLiquidityAmount p) (removeMinToken0 p) (removeMinToken1 p).
Proof.
  pose proof (amount_positive lib h p row router address can) as [Hl _]. pose proof can as (Hrow & _). pose proof shown as S.
  destruct estimate_part as [E0 E1].
  assert (removeLiquidityAmount p <= le_allowance e (pair_key a b)).
  { pose proof approved as Hn. unfold needsRemoveLpApproval, removing_some in Hn. rewrite Hrow in Hn.
    rewrite (proj2 (Z.ltb_lt ZERO_BIGINT _)) in Hn by (unfold ZERO_BIGINT; lia). rewrite andb_true_l in Hn.
    destruct (rm_removeLpAllowance p) as [v|] eqn:Ev; [|done]. pose proof (as_allowed _ _ _ _ S v Ev). bool_solve. unfold a, b. lia. }
  pose proof (applySlippage_bounds (removeEstimatedToken0 p) ltac:(lia)) as [[_ ?] _].
  pose proof (applySlippage_bounds (removeEstimatedToken1 p) ltac:(lia)) as [[_ ?] _].
  constructor; [|done|apply (as_sender _ _ _ _ S)|apply (as_pair _ _ _ _ S)|apply (as_other _ _ _ _ S)|apply (as_none _ _ _ _ S)| |].
  - pose proof (as_shares _ _ _ _ S). lia.
  - by rewrite <- E0.
  - by rewrite <- E1.
Qed.

(** The removal pays the estimates. *)
Lemma removal_call_executes d :
  se_timestamp e <= d ->
  exists r c', exec_liquidity e (removal_call lib h p row address d) ps = Ok r
    /\ received row r = (removeEstimatedToken0 p, removeEstimatedToken1 p) /\ lr_liquidity r = removeLiquidityAmount p
    /\ lr_pairs r = <[pair_key a b := c']> ps
    /\ PairContract.lp_totalSupply c' = po_totalSupply row - removeLiquidityAmount p
    /\ (po_reserve0 row - removeEstimatedToken0 p, po_reserve1 row - removeEstimatedToken1 p)
       = if a <? b then (PairContract.c_reserve0 c', PairContract.c_reserve1 c')
         else (PairContract.c_reserve1 c', PairContract.c_reserve0 c').
Proof.
  intros Hd. destruct estimate_part as [E0 E1]. pose proof shown_fits as F. pose proof (as_live _ _ _ _ shown) as L.
  pose proof (as_supply _ _ _ _ shown) as T. unfold removal_call, received. fold a b. rewrite E0, E1, <- T.
  destruct (is_wrapped lib h (po_token0Address row)) eqn:N0; [|destruct (is_wrapped lib h (po_token1Address row)) eqn:N1];
    cbn [exec_liquidity]; unfold ensure; rewrite (proj2 (Z.leb_le _ d)) by done.
  - pose proof (live_swap _ _ _ _ _ _ _ L) as L'. fold a b in L, L'.
    assert (pair_key b a = pair_key a b) as Hk by (unfold pair_key; by rewrite Z.min_comm, Z.max_comm).
    assert (F' : withdrawal_fits e b a c (po_reserve1 row) (po_reserve0 row) (removeLiquidityAmount p) (removeMinToken1 p) (removeMinToken0 p))
      by (destruct F; constructor; rewrite ?Hk; done).
    destruct (removeLiquidityETH_defined e b a ps c _ _ L' _ _ _ (address_value address)
      (wrapped_value _ e (as_WETH _ _ _ _ shown) N0) F' (as_transfer _ _ _ _ shown) (as_send _ _ _ _ shown))
      as (r & -> & HA & HB & HL & c' & HP & HT & HR).
    exists r, c'. rewrite HA, HB, HL, HP, Hk. split_and!; try done. pose proof (lv_tokens _ _ _ _ _ _ _ L) as (Hne & _). fold a b in Hne.
    destruct (Z.ltb_spec b a), (Z.ltb_spec a b); try lia; by injection HR as -> ->.
  - destruct (removeLiquidityETH_defined e a b ps c _ _ L _ _ _ (address_value address)
      (wrapped_value _ e (as_WETH _ _ _ _ shown) N1) F (as_transfer _ _ _ _ shown) (as_send _ _ _ _ shown))
      as (r & -> & HA & HB & HL & c' & HP & HT & HR).
    exists r, c'. rewrite HA, HB, HL, HP. by split_and!.
  - destruct (removeLiquidity_defined e a b ps c _ _ L _ _ _ (address_value address) F) as (r & -> & HA & HB & HL & c' & HP & HT & HR).
    exists r, c'. rewrite HA, HB, HL, HP. by split_and!.
Qed.
End shown.
End executing.

(** C4.  A removal that the dialog sends pays, wherever and whenever it executes, at least the two
    minima shown, which are the estimates less half a percent, for exactly the shares asked,
    and not after its deadline.  On the pair as the dialog shows it, the wallet having the
    shares and the allowance, it executes: the wallet receives exactly the two estimates, and
    the pair is left with the reserves less them and the supply less the shares. *)
Theorem removal_pays_estimates lib h p row router address e ps c d :
  can_remove lib h p row router address -> needsRemoveLpApproval p = false ->
  as_shown lib h p row e ps c -> 0 < removeEstimatedToken0 p -> 0 < removeEstimatedToken1 p -> se_timestamp e <= d ->
  (forall e' ps' r, pairs_ok ps' -> exec_liquidity e' (removal_call lib h p row address d) ps' = Ok r ->
     removeMinToken0 p <= fst (received lib h row r) /\ removeMinToken1 p <= snd (received lib h row r)
     /\ lr_liquidity r = removeLiquidityAmount p /\ se_timestamp e' <= d)
  /\ 9950 * removeEstimatedToken0 p - 10000 < 10000 * removeMinToken0 p <= 9950 * removeEstimatedToken0 p
  /\ 9950 * removeEstimatedToken1 p - 10000 < 10000 * removeMinToken1 p <= 9950 * removeEstimatedToken1 p
  /\ exists r c', exec_liquidity e (removal_call lib h p row address d) ps = Ok r
     /\ received lib h row r = (removeEstimatedToken0 p, removeEstimatedToken1 p) /\ lr_liquidity r = removeLiquidityAmount p
     /\ lr_pairs r = <[pair_key (address_value (po_token0Address row)) (address_value (po_token1Address row)) := c']> ps
     /\ PairContract.lp_totalSupply c' = po_totalSupply row - removeLiquidityAmount p
     /\ (po_reserve0 row - removeEstimatedToken0 p, po_reserve1 row - removeEstimatedToken1 p)
        = if address_value (po_token0Address row) <? address_value (po_token1Address row)
          then (PairContract.c_reserve0 c', PairContract.c_reserve1 c')
          else (PairContract.c_reserve1 c', PairContract.c_reserve0 c').
Proof.
  intros Hc Hn Hs H0 H1 Hd. pose proof (amount_positive lib h p row router address Hc) as [Hl _]. split_and!.
  - intros e' ps' r Hps Hx. apply (removal_call_bounds lib h p row address d e' ps' r); [done|lia|done].
  - apply (applySlippage_bounds (removeEstimatedToken0 p)). lia.
  - apply (applySlippage_bounds (removeEstimatedToken0 p)). lia.
  - apply (applySlippage_bounds (removeEstimatedToken1 p)). lia.
  - apply (applySlippage_bounds (removeEstimatedToken1 p)). lia.
  - by apply (removal_call_executes lib h p row router address e ps c).
Qed.

(** ** Loads *)

(** The entries of a load that succeeded: under each key, what was read for it. *)
Lemma entries_shown {A V} first (key : A -> string) (read : A -> res js_error V) l entries a v :
  entries_of first key read l = Ok entries -> a ∈ l -> read a = Ok v ->
  (forall a' v', a' ∈ l -> key a' = key a -> read a' = Ok v' -> v' = v) ->
  from_entries entries !! key a = Some v.
Proof.
  unfold entries_of. intros H Ha Hv Hu. apply all_of_Ok in H.
  assert (forall k x, (k, x) ∈ entries -> exists a', a' ∈ l /\ key a' = k /\ read a' = Ok x) as Hb.
  { intros k x Hin. apply list_elem_of_lookup in Hin as [i Hi].
    destruct (Forall2_lookup_r _ _ _ _ _ H Hi) as (a' & Ha' & Hr). exists a'. split; [by eapply list_elem_of_lookup_2|].
    destruct (read a') as [y|]; cbn in Hr; [|done]. by injection Hr as -> ->. }
  apply from_entries_lookup.
  - apply list_elem_of_lookup in Ha as [i Hi]. destruct (Forall2_lookup_l _ _ _ _ _ H Hi) as (b & Hb' & Hr).
    rewrite Hv in Hr. cbn in Hr. injection Hr as <-. by eapply list_elem_of_lookup_2.
  - intros v' Hin. destruct (Hb _ _ Hin) as (a' & Ha' & Hk & Hr). by eapply Hu.
Qed.

(** The shares of each pool, when all were read, are those the node gave, a pool's address being
    the same in any case of its letters. *)
Lemma shares_shown nd address pairs entries pair v p :
  read_shares nd address pairs = Ok entries -> pair ∈ pairs -> pn_balanceOf nd (pv_id pair) address = Ok v ->
  (forall pair', pair' ∈ pairs -> same_address (pv_id pair') (pv_id pair) = true ->
     pn_balanceOf nd (pv_id pair') address = pn_balanceOf nd (pv_id pair) address) ->
  dt_lpBalances (shares_effect_settles false (Ok entries) p) !! to_lower (pv_id pair) = Some v.
Proof.
  intros H Hin Hv Hs. cbn. eapply (entries_shown _ (fun q => to_lower (pv_id q))); [exact H|done|done|].
  intros q x Hq Hk Hx. cbv beta in *. rewrite Hs in Hx; [congruence|done|]. unfold same_address. by apply String.eqb_eq.
Qed.

Lemma tokens_shown lib h nd address entries token v p background :
  read_tokens lib h nd address = Ok entries -> token ∈ erc20Tokens lib h ->
  pn_balanceOf nd (default "" (st_address token)) address = Ok v ->
  (forall t, t ∈ erc20Tokens lib h -> st_symbol t = st_symbol token -> t = token) ->
  dt_tokenBalances (tokens_settle background (Ok entries) p) !! st_symbol token = Some v.
Proof.
  intros H Hin Hv Hs. cbn. eapply entries_shown; [exact H|done|done|]. intros t x Ht Hk Hx. cbv beta in *.
  rewrite (Hs t Ht Hk) in Hx. congruence.
Qed.

(** Whichever read of the tokens settles last is shown, be it of the wallet before or not. *)
Lemma last_tokens_shown b entries b' r p :
  dt_tokenBalances (tokens_settle b (Ok entries) (tokens_settle b' r p)) = from_entries entries.
Proof. done. Qed.

(** ** A removal *)

Definition sample_locale : page_locale :=
  {| pl_formatUnits := fun v _ => dec v; pl_toFixedLocale := fun n _ _ => num_to_string n;
     pl_toLocaleString := fun n _ => num_to_string n; pl_formatDate := fun n _ => num_to_string n;
     pl_localeCompare := fun s u => Z.of_nat (String.length s) - Z.of_nat (String.length u) |}.
Definition sample_contracts (name : string) : option string :=
  if String.eqb name "FluxSwapRouter" then Some (addr "1")
  else if String.eqb name "MockWETH" then Some (addr "4")
  else if String.eqb name "FluxToken" then Some (addr "5") else None.
Definition removal_libraries : libraries :=
  {| lib_formatUnits := fun v _ => dec v; lib_parseUnits := fun _ _ => None; lib_toLocaleString := fun n _ => num_to_string n;
     lib_contract := fun name _ => sample_contracts name; lib_supported := fun _ => true |}.
Definition removal_hooks : portfolio_hooks :=
  {| ph_isZh := false; ph_chainId := 31337; ph_publicClient := true; ph_address := Some (addr "7"); ph_isConnected := true;
     ph_openConnectModal := true; ph_nativeBalance := Some 5; ph_fluxFormatted := None |}.

(** A pool of 100 coins and 400 FLUX, of whose 2000 shares the wallet has 600. *)
Definition removal_pool : PoolViewModel :=
  {| pv_id := addr "8"; pv_token0 := {| tv_id := addr "4"; tv_symbol := "weth"; tv_decimals := num_of_Z 18 |};
     pv_token1 := {| tv_id := addr "5"; tv_symbol := "flux"; tv_decimals := num_of_Z 18 |};
     pv_reserve0 := 100 * 10 ^ 18; pv_reserve1 := 400 * 10 ^ 18; pv_totalSupply := 2000 * 10 ^ 18; pv_recentSwaps := [] |}.
Definition removal_node : portfolio_node :=
  {| pn_balanceOf := fun token _ => Ok (if same_address token (addr "8") then 600 * 10 ^ 18 else 0);
     pn_totalSupply := fun _ => Ok (2000 * 10 ^ 18); pn_getReserves := fun _ => Ok (100 * 10 ^ 18, 400 * 10 ^ 18);
     pn_allowance := fun _ _ _ => Ok (10 ^ 30); pn_transactionFrom := fun _ => Throw (Error "offline");
     pn_first := fun l => default (Error "") (head l) |}.
Definition removal_page : portfolio_page :=
  foldl (portfolio_step removal_libraries sample_locale removal_hooks) initial_portfolio
    [PoolsAsked; PoolsRead false (Ok [removal_pool]); SharesAsked;
     SharesRead false (read_shares removal_node (addr "7") [removal_pool]); PositionOpened 0; AllowanceAsked;
     PercentTyped " 12.5 "; AllowanceRead false (pn_allowance removal_node (addr "8") (addr "7") (addr "1"))].
Definition removal_row : PositionDisplayRow :=
  positionRow sample_locale (Some (addr "4")) {[ addr "8" := 600 * 10 ^ 18 ]} ∅ removal_pool.

Definition removal_pair : PairContract.state :=
  {| PairContract.lp_totalSupply := 2000 * 10 ^ 18;
     PairContract.lp_balances := {[ PairContract.zero_address := 1000; "7" := 600 * 10 ^ 18; "9" := 1400 * 10 ^ 18 - 1000 ]};
     PairContract.c_reserve0 := 100 * 10 ^ 18; PairContract.c_reserve1 := 400 * 10 ^ 18;
     PairContract.blockTimestampLast := 1600000000; PairContract.price0CumulativeLast := 0;
     PairContract.price1CumulativeLast := 0 |}.
Definition removal_env : liquidity_env :=
  {| le_swap := {| se_timestamp := 1700000012; se_WETH := 4; se_router := 1; se_treasury := PairContract.zero_address;
                   se_bytes := fun a => dec a; se_transferFrom := fun _ _ => Ok tt |};
     le_sender := 7; le_pair_address := fun _ => 8; le_allowance := fun _ => 10 ^ 30;
     le_transfer := fun _ _ _ => Ok tt; le_sendETH := fun _ _ => Ok tt |}.

Example removal_page_shows :
  po_pairLabel <$> shownPositions removal_libraries sample_locale removal_hooks removal_page = ["ETH / FLUX"]
  /\ removeLiquidityAmount removal_page = 75 * 10 ^ 18
  /\ removeLiquidityButtonLabel removal_libraries removal_hooks removal_page = "Remove Liquidity".
Proof. vm_compute. repeat split. Qed.

Lemma removal_shares_ok : shares_ok removal_pair.
Proof.
  constructor.
  - apply (bool_decide_unpack _). vm_compute. exact I.
  - vm_compute. reflexivity.
  - intros _. vm_compute. discriminate.
Qed.

Lemma removal_live : live_pair 1700000012 4 5 {[ (4, 5) := removal_pair ]} removal_pair (100 * 10 ^ 18) (400 * 10 ^ 18).
Proof.
  constructor; [reflexivity| |vm_compute; reflexivity|vm_compute; split; reflexivity|vm_compute; reflexivity
    |vm_compute; split; reflexivity|vm_compute; repeat split; discriminate].
  split; [apply removal_shares_ok|vm_compute; repeat split; discriminate].
Qed.

Lemma removal_shown : as_shown removal_libraries removal_hooks removal_page removal_row removal_env {[ (4, 5) := removal_pair ]} removal_pair.
Proof.
  constructor.
  - exact removal_live.
  - vm_compute. reflexivity.
  - intros w Hw _. vm_compute in Hw. injection Hw as <-. vm_compute. reflexivity.
  - vm_compute. discriminate.
  - intros v Hv. vm_compute in Hv. injection Hv as <-. vm_compute. discriminate.
  - vm_compute. discriminate.
  - vm_compute. discriminate.
  - vm_compute. discriminate.
  - vm_compute. reflexivity.
  - reflexivity.
  - reflexivity.
Qed.

Lemma removal_pays_estimates_witness :
  exists r, exec_liquidity removal_env (removal_call removal_libraries removal_hooks removal_page removal_row (addr "7") 1700001800)
              {[ (4, 5) := removal_pair ]} = Ok r
    /\ received removal_libraries removal_hooks removal_row r = (375 * 10 ^ 16, 15 * 10 ^ 18)
    /\ lr_liquidity r = 75 * 10 ^ 18.
Proof.
  destruct (removal_pays_estimates removal_libraries removal_hooks removal_page removal_row (addr "1") (addr "7") removal_env
    {[ (4, 5) := removal_pair ]} removal_pair 1700001800) as (_ & _ & _ & r & c' & Hr & Hp & Hl & _).
  - split_and!; vm_compute; reflexivity.
  - vm_compute. reflexivity.
  - apply removal_shown.
  - vm_compute. reflexivity.
  - vm_compute. reflexivity.
  - vm_compute. discriminate.
  - exists r. split; [exact Hr|]. rewrite Hp, Hl. vm_compute. repeat split.
Defined.
