(* ===== verification/ManagerContract.v ===== *)
(** * The reward manager (contracts/contracts/FluxMultiPoolManager.sol)

    One definition per function of the contract, over its storage [manager] with the reward
    tokens it holds; a call returns the new storage and its events or reverts.  What other
    contracts answer is the call's environment: whether the treasury is paused and lets its
    tokens be pulled, and whether tokens move.  A role is the text its identifier is the hash
    of; OpenZeppelin's roles are a set of roles and accounts, each under the default admin. *)

From S2P Require Import Prelude JsString Subgraph RouterContract.
Import Subgraph.PairContract(u256, udiv).
Open Scope string_scope.
Open Scope Z_scope.
Open Scope flux_scope.

Definition PRECISION : Z := 10 ^ 18.

Definition role : Type := string.
Definition DEFAULT_ADMIN_ROLE : role := "".
Definition OPERATOR_ROLE : role := "OPERATOR_ROLE".
Definition PAUSER_ROLE : role := "PAUSER_ROLE".

Record PoolInfo := {
  pi_pool : address;
  pi_allocPoint : Z;
  pi_active : bool;
  pi_rewardDebt : Z;
  pi_pendingRewards : Z;
}.

Record manager := {
  owner : address;
  treasury : address;
  operator : address;
  poolFactory : address;
  paused : bool;
  roles : gset (role * address);
  totalAllocPoint : Z;
  accRewardPerAllocStored : Z;
  totalPendingRewards : Z;
  undistributedRewards : Z;
  pools : list PoolInfo;
  poolExists : gset address;
  poolPidPlusOne : gmap address Z;
  held : Z;
}.

Inductive manager_event :=
| TreasuryUpdated (previousTreasury newTreasury : address)
| OperatorUpdated (previousOperator newOperator : address)
| PoolFactoryUpdated (previousPoolFactory newPoolFactory : address)
| PoolAdded (pid : Z) (pool : address) (allocPoint : Z) (active : bool)
| PoolUpdated (pid : Z) (allocPoint : Z) (active : bool)
| RewardsDistributed (totalReward rewardDelta : Z) (executor : address)
| PoolRewardClaimed (pid : Z) (pool : address) (reward : Z) (caller : address)
| Paused (account : address)
| Unpaused (account : address)
| TokenRecovered (token to : address) (amount : Z).

Record manager_env := {
  me_sender : address;
  me_source_paused : address -> option bool;
  me_pull : address -> Z -> res string unit;
  me_transfer : address -> address -> Z -> bool;
}.

Section setters.
Variable s : manager.
Definition set_admin (o t op f : address) (p : bool) (rs : gset (role * address)) : manager :=
  {| owner := o; treasury := t; operator := op; poolFactory := f; paused := p; roles := rs;
     totalAllocPoint := totalAllocPoint s; accRewardPerAllocStored := accRewardPerAllocStored s;
     totalPendingRewards := totalPendingRewards s; undistributedRewards := undistributedRewards s;
     pools := pools s; poolExists := poolExists s; poolPidPlusOne := poolPidPlusOne s; held := held s |}.
Definition set_roles (rs : gset (role * address)) : manager :=
  set_admin (owner s) (treasury s) (operator s) (poolFactory s) (paused s) rs.
Definition set_books (total acc pending undistributed : Z) (ps : list PoolInfo) (h : Z) : manager :=
  {| owner := owner s; treasury := treasury s; operator := operator s; poolFactory := poolFactory s; paused := paused s;
     roles := roles s; totalAllocPoint := total; accRewardPerAllocStored := acc; totalPendingRewards := pending;
     undistributedRewards := undistributed; pools := ps; poolExists := poolExists s; poolPidPlusOne := poolPidPlusOne s;
     held := h |}.
Definition set_registry (exist : gset address) (pid : gmap address Z) : manager :=
  {| owner := owner s; treasury := treasury s; operator := operator s; poolFactory := poolFactory s; paused := paused s;
     roles := roles s; totalAllocPoint := totalAllocPoint s; accRewardPerAllocStored := accRewardPerAllocStored s;
     totalPendingRewards := totalPendingRewards s; undistributedRewards := undistributedRewards s; pools := pools s;
     poolExists := exist; poolPidPlusOne := pid; held := held s |}.
Definition put_pool (i : nat) (p : PoolInfo) (total : Z) : manager :=
  set_books total (accRewardPerAllocStored s) (totalPendingRewards s) (undistributedRewards s) (<[i := p]> (pools s)) (held s).
End setters.

Definition effect : Type := res string (manager * list manager_event).
Definition named (message : string) : string := "FluxMultiPoolManager: " ++ message.
Definition hasRole (r : role) (a : address) (s : manager) : bool := bool_decide ((r, a) ∈ roles s).

(** The constructor. *)
Definition deploy (o t op rewardToken : address) : res string manager :=
  guard* negb (o =? 0) or "OwnableInvalidOwner" in
  guard* negb (t =? 0) or named "ZERO_ADDRESS" in
  guard* negb (op =? 0) or named "ZERO_ADDRESS" in
  guard* negb (rewardToken =? 0) or named "ZERO_ADDRESS" in
  Ok {| owner := o; treasury := t; operator := op; poolFactory := 0; paused := false;
        roles := {[ (DEFAULT_ADMIN_ROLE, o); (PAUSER_ROLE, o); (OPERATOR_ROLE, op) ]};
        totalAllocPoint := 0; accRewardPerAllocStored := 0; totalPendingRewards := 0; undistributedRewards := 0;
        pools := []; poolExists := ∅; poolPidPlusOne := ∅; held := 0 |}.

Section calls.
Variable rewardToken : address.
Variable e : manager_env.

Definition onlyOwner {A} (s : manager) (k : res string A) : res string A :=
  guard* me_sender e =? owner s or "OwnableUnauthorizedAccount" in k.
Definition onlyOperatorOrOwner {A} (s : manager) (k : res string A) : res string A :=
  guard* hasRole OPERATOR_ROLE (me_sender e) s || (me_sender e =? owner s) or named "FORBIDDEN" in k.
Definition onlyOwnerOrPoolFactory {A} (s : manager) (k : res string A) : res string A :=
  guard* (me_sender e =? owner s) || (me_sender e =? poolFactory s) or named "FORBIDDEN" in k.

(** ** Administration *)

Definition setTreasury (newTreasury : address) (s : manager) : effect :=
  onlyOwner s
    (guard* negb (newTreasury =? 0) or named "ZERO_ADDRESS" in
     Ok (set_admin s (owner s) newTreasury (operator s) (poolFactory s) (paused s) (roles s),
         [TreasuryUpdated (treasury s) newTreasury])).

Definition setOperator (newOperator : address) (s : manager) : effect :=
  onlyOwner s
    (guard* negb (newOperator =? 0) or named "ZERO_ADDRESS" in
     guard* negb (newOperator =? operator s) or named "SAME_OPERATOR" in
     Ok (set_admin s (owner s) (treasury s) newOperator (poolFactory s) (paused s)
           (({[ (OPERATOR_ROLE, newOperator) ]} ∪ roles s) ∖ {[ (OPERATOR_ROLE, operator s) ]}),
         [OperatorUpdated (operator s) newOperator])).

Definition setPoolFactory (newPoolFactory : address) (s : manager) : effect :=
  onlyOwner s
    (guard* negb (newPoolFactory =? 0) or named "ZERO_ADDRESS" in
     Ok (set_admin s (owner s) (treasury s) (operator s) newPoolFactory (paused s) (roles s),
         [PoolFactoryUpdated (poolFactory s) newPoolFactory])).

Definition pause (s : manager) : effect :=
  guard* hasRole PAUSER_ROLE (me_sender e) s or named "FORBIDDEN" in
  guard* negb (paused s) or named "PAUSED" in
  Ok (set_admin s (owner s) (treasury s) (operator s) (poolFactory s) true (roles s), [Paused (me_sender e)]).

Definition unpause (s : manager) : effect :=
  guard* hasRole PAUSER_ROLE (me_sender e) s or named "FORBIDDEN" in
  guard* paused s or named "NOT_PAUSED" in
  Ok (set_admin s (owner s) (treasury s) (operator s) (poolFactory s) false (roles s), [Unpaused (me_sender e)]).

Definition transferOwnership (newOwner : address) (s : manager) : effect :=
  onlyOwner s
    (guard* negb (newOwner =? 0) or named "ZERO_ADDRESS" in
     let previousOwner := owner s in
     if newOwner =? previousOwner then Ok (s, []) else
     let rs := ({[ (DEFAULT_ADMIN_ROLE, newOwner); (PAUSER_ROLE, newOwner) ]} ∪ roles s)
               ∖ {[ (PAUSER_ROLE, previousOwner); (DEFAULT_ADMIN_ROLE, previousOwner); (OPERATOR_ROLE, previousOwner) ]} in
     if operator s =? previousOwner
     then Ok (set_admin s newOwner (treasury s) 0 (poolFactory s) (paused s) rs, [OperatorUpdated previousOwner 0])
     else Ok (set_admin s newOwner (treasury s) (operator s) (poolFactory s) (paused s) rs, [])).

(** Of OpenZeppelin's Ownable, which the contract inherits. *)
Definition renounceOwnership (s : manager) : effect :=
  onlyOwner s (Ok (set_admin s 0 (treasury s) (operator s) (poolFactory s) (paused s) (roles s), [])).

Definition grantRole (r : role) (account : address) (s : manager) : effect :=
  guard* hasRole DEFAULT_ADMIN_ROLE (me_sender e) s or "AccessControlUnauthorizedAccount" in
  guard* negb (String.eqb r OPERATOR_ROLE) or named "ROLE_MANAGED_BY_SET_OPERATOR" in
  Ok (set_roles s ({[ (r, account) ]} ∪ roles s), []).

Definition revokeRole (r : role) (account : address) (s : manager) : effect :=
  guard* hasRole DEFAULT_ADMIN_ROLE (me_sender e) s or "AccessControlUnauthorizedAccount" in
  guard* negb (String.eqb r OPERATOR_ROLE) or named "ROLE_MANAGED_BY_SET_OPERATOR" in
  Ok (set_roles s (roles s ∖ {[ (r, account) ]}), []).

Definition renounceRole (r : role) (callerConfirmation : address) (s : manager) : effect :=
  guard* negb (String.eqb r OPERATOR_ROLE) or named "ROLE_MANAGED_BY_SET_OPERATOR" in
  guard* callerConfirmation =? me_sender e or "AccessControlBadConfirmation" in
  Ok (set_roles s (roles s ∖ {[ (r, callerConfirmation) ]}), []).

Definition recoverToken (token to : address) (amount : Z) (s : manager) : effect :=
  onlyOwner s
    (guard* negb (token =? 0) or named "ZERO_ADDRESS" in
     guard* negb (to =? 0) or named "ZERO_ADDRESS" in
     guard* negb (token =? rewardToken) or named "REWARD_TOKEN_LOCKED" in
     guard* me_transfer e token to amount or "TransferHelper: TRANSFER_FAILED" in
     Ok (s, [TokenRecovered token to amount])).

(** ** Pools *)

(** [(allocPoint * accRewardPerAllocStored) / PRECISION] *)
Definition credited (allocPoint : Z) (s : manager) : res string Z :=
  let* scaled := u256 (allocPoint * accRewardPerAllocStored s) in Ok (scaled / PRECISION).

(** The pool with its new rewards carried over, and how much that was; the caller stores it. *)
Definition _accruePool (p : PoolInfo) (s : manager) : res string (PoolInfo * Z) :=
  let* accrual :=
    if pi_active p && (0 <? pi_allocPoint p) then
      let* now := credited (pi_allocPoint p) s in
      let* newlyAccrued := u256 (now - pi_rewardDebt p) in
      Ok (newlyAccrued, now)
    else Ok (0, 0) in
  let* newlyAccrued :=
    if 0 <? fst accrual then
      let* reservedBalance := u256 (totalPendingRewards s + undistributedRewards s) in
      let availableUnreservedRewards := if reservedBalance <? held s then held s - reservedBalance else 0 in
      Ok (if availableUnreservedRewards <? fst accrual then availableUnreservedRewards else fst accrual)
    else Ok 0 in
  let* reward := u256 (pi_pendingRewards p + newlyAccrued) in
  Ok ({| pi_pool := pi_pool p; pi_allocPoint := pi_allocPoint p; pi_active := pi_active p;
         pi_rewardDebt := snd accrual; pi_pendingRewards := reward |}, newlyAccrued).

(** [_accruePool(pools[pid])] *)
Definition accrue_at (i : nat) (p : PoolInfo) (s : manager) : res string (PoolInfo * manager) :=
  let* r := _accruePool p s in
  let* pending := u256 (totalPendingRewards s + snd r) in
  Ok (fst r, set_books s (totalAllocPoint s) (accRewardPerAllocStored s) pending (undistributedRewards s)
               (<[i := fst r]> (pools s)) (held s)).

Definition addPool (pool : address) (allocPoint : Z) (active : bool) (s : manager) : effect :=
  onlyOwnerOrPoolFactory s
    (guard* negb (pool =? 0) or named "ZERO_ADDRESS" in
     guard* negb (bool_decide (pool ∈ poolExists s)) or named "POOL_EXISTS" in
     let pid := Z.of_nat (length (pools s)) in
     let* debt := if active then credited allocPoint s else Ok 0 in
     let* total := if active then u256 (totalAllocPoint s + allocPoint) else Ok (totalAllocPoint s) in
     let p := {| pi_pool := pool; pi_allocPoint := allocPoint; pi_active := active; pi_rewardDebt := debt;
                 pi_pendingRewards := 0 |} in
     Ok (set_registry
           (set_books s total (accRewardPerAllocStored s) (totalPendingRewards s) (undistributedRewards s)
              (pools s ++ [p])%list (held s))
           ({[ pool ]} ∪ poolExists s) (<[pool := pid + 1]> (poolPidPlusOne s)),
         [PoolAdded pid pool allocPoint active])).

(** The index and the entry of a registered pool. *)
Definition find_pool (pool : address) (s : manager) : res string (nat * PoolInfo) :=
  let pidPlusOne := default 0 (poolPidPlusOne s !! pool) in
  guard* negb (pidPlusOne =? 0) or named "INVALID_POOL" in
  let i := Z.to_nat (pidPlusOne - 1) in
  match pools s !! i with Some p => Ok (i, p) | None => Throw "Panic(0x32)" end.

Definition with_alloc (p : PoolInfo) (allocPoint : Z) (active : bool) (debt : Z) : PoolInfo :=
  {| pi_pool := pi_pool p; pi_allocPoint := allocPoint; pi_active := active; pi_rewardDebt := debt;
     pi_pendingRewards := pi_pendingRewards p |}.

Definition deactivatePool (pool : address) (s : manager) : effect :=
  onlyOwnerOrPoolFactory s
    (let* r := find_pool pool s in
     let* r' := accrue_at (fst r) (snd r) s in
     let p := fst r' in
     let s := snd r' in
     if pi_active p then
       let* total := u256 (totalAllocPoint s - pi_allocPoint p) in
       Ok (put_pool s (fst r) (with_alloc p (pi_allocPoint p) false 0) total,
           [PoolUpdated (Z.of_nat (fst r)) (pi_allocPoint p) false])
     else Ok (s, [])).

Definition setPool (pid allocPoint : Z) (active : bool) (s : manager) : effect :=
  onlyOwner s
    (match pools s !! Z.to_nat pid with
     | None => Throw (named "INVALID_POOL")
     | Some p =>
       let i := Z.to_nat pid in
       let* r := accrue_at i p s in
       let p := fst r in
       let s := snd r in
       let* total := if pi_active p then u256 (totalAllocPoint s - pi_allocPoint p) else Ok (totalAllocPoint s) in
       let* total := if active then u256 (total + allocPoint) else Ok total in
       let* debt := if active then credited allocPoint s else Ok 0 in
       Ok (put_pool s i (with_alloc p allocPoint active debt) total, [PoolUpdated pid allocPoint active])
     end).

(** ** Rewards *)

Definition distributeRewards (totalReward : Z) (s : manager) : effect :=
  onlyOperatorOrOwner s
    (guard* negb (paused s) or named "PAUSED" in
     guard* 0 <? totalReward or named "ZERO_AMOUNT" in
     guard* 0 <? totalAllocPoint s or named "NO_ACTIVE_POOLS" in
     guard* negb (default false (me_source_paused e (treasury s))) or named "TREASURY_PAUSED" in
     let* _ := me_pull e (treasury s) totalReward in
     let* distributable := u256 (totalReward + undistributedRewards s) in
     let* scaled := u256 (distributable * PRECISION) in
     let* rewardDelta := udiv scaled (totalAllocPoint s) in
     guard* 0 <? rewardDelta or named "REWARD_TOO_SMALL" in
     let* acc := u256 (accRewardPerAllocStored s + rewardDelta) in
     let* counted := u256 (rewardDelta * totalAllocPoint s) in
     let* undistributed := u256 (distributable - counted / PRECISION) in
     Ok (set_books s (totalAllocPoint s) acc (totalPendingRewards s) undistributed (pools s) (held s + totalReward),
         [RewardsDistributed totalReward rewardDelta (me_sender e)])).

Definition claimPoolRewards (pool : address) (s : manager) : effect :=
  let* r := find_pool pool s in
  guard* me_sender e =? pool or named "FORBIDDEN" in
  let* r' := accrue_at (fst r) (snd r) s in
  let p := fst r' in
  let s := snd r' in
  let reward := pi_pendingRewards p in
  if reward =? 0 then Ok (s, []) else
  let* pending := u256 (totalPendingRewards s - reward) in
  guard* me_transfer e rewardToken pool reward && (reward <=? held s) or "TransferHelper: TRANSFER_FAILED" in
  Ok (set_books s (totalAllocPoint s) (accRewardPerAllocStored s) pending (undistributedRewards s)
        (<[fst r := {| pi_pool := pi_pool p; pi_allocPoint := pi_allocPoint p; pi_active := pi_active p;
                       pi_rewardDebt := pi_rewardDebt p; pi_pendingRewards := 0 |}]> (pools s)) (held s - reward),
      [PoolRewardClaimed (Z.of_nat (fst r)) pool reward (me_sender e)]).

Definition pendingPoolRewards (pool : address) (s : manager) : res string Z :=
  let* r := find_pool pool s in
  let p := snd r in
  if pi_active p && (0 <? pi_allocPoint p) then
    let* now := credited (pi_allocPoint p) s in
    let* newly := u256 (now - pi_rewardDebt p) in
    u256 (pi_pendingRewards p + newly)
  else Ok (pi_pendingRewards p).

Definition poolLength (s : manager) : Z := Z.of_nat (length (pools s)).
End calls.

Inductive manager_call :=
| SetTreasury (newTreasury : address)
| SetOperator (newOperator : address)
| SetPoolFactory (newPoolFactory : address)
| Pause
| Unpause
| AddPool (pool : address) (allocPoint : Z) (active : bool)
| DeactivatePool (pool : address)
| SetPool (pid allocPoint : Z) (active : bool)
| DistributeRewards (totalReward : Z)
| ClaimPoolRewards (pool : address)
| RecoverToken (token to : address) (amount : Z)
| TransferOwnership (newOwner : address)
| RenounceOwnership
| GrantRole (r : role) (account : address)
| RevokeRole (r : role) (account : address)
| RenounceRole (r : role) (callerConfirmation : address).

Definition exec_manager (rewardToken : address) (e : manager_env) (k : manager_call) (s : manager) : effect :=
  match k with
  | SetTreasury a => setTreasury e a s
  | SetOperator a => setOperator e a s
  | SetPoolFactory a => setPoolFactory e a s
  | Pause => pause e s
  | Unpause => unpause e s
  | AddPool pool allocPoint active => addPool e pool allocPoint active s
  | DeactivatePool pool => deactivatePool e pool s
  | SetPool pid allocPoint active => setPool e pid allocPoint active s
  | DistributeRewards totalReward => distributeRewards e totalReward s
  | ClaimPoolRewards pool => claimPoolRewards rewardToken e pool s
  | RecoverToken token to amount => recoverToken rewardToken e token to amount s
  | TransferOwnership a => transferOwnership e a s
  | RenounceOwnership => renounceOwnership e s
  | GrantRole r a => grantRole e r a s
  | RevokeRole r a => revokeRole e r a s
  | RenounceRole r a => renounceRole e r a s
  end.
