(* ===== verification/ManagerRewards.v ===== *)
(** * What the reward manager owes and holds

    Over every history of calls and received reward tokens: the weights and the pending
    rewards are the sums over the pools, the tokens held cover what is pending and not yet
    distributed, and what the pools are shown beyond that is at most a base unit per call (the
    roundings of the accumulated reward per weight).  From this every registered pool's claim
    is paid. *)

From S2P Require Import Prelude JsString Subgraph RouterContract ManagerContract.
Import Subgraph.PairContract(u256, udiv).
Open Scope string_scope.
Open Scope Z_scope.
Open Scope flux_scope.

(** ** Sums over the pools *)

Fixpoint sum_by {A} (f : A -> Z) (l : list A) : Z :=
  match l with [] => 0 | a :: l => f a + sum_by f l end.

Lemma sum_by_app {A} (f : A -> Z) l k : sum_by f (l ++ k) = sum_by f l + sum_by f k.
Proof. induction l as [|a l IH]; cbn; lia. Qed.

Lemma sum_by_insert {A} (f : A -> Z) l i a b : l !! i = Some a -> sum_by f (<[i := b]> l) = sum_by f l - f a + f b.
Proof.
  revert i. induction l as [|c l IH]; intros [|i] Hi; try discriminate.
  - injection Hi as ->. cbn. lia.
  - change (<[S i := b]> (c :: l)) with (c :: <[i := b]> l). cbn [sum_by]. rewrite (IH i Hi). lia.
Qed.

Lemma sum_by_nonneg {A} (f : A -> Z) l : Forall (fun a => 0 <= f a) l -> 0 <= sum_by f l.
Proof. induction 1; cbn; lia. Qed.

Lemma sum_by_at {A} (f : A -> Z) l i a : Forall (fun a => 0 <= f a) l -> l !! i = Some a -> f a <= sum_by f l.
Proof.
  intros Hf. revert i. induction Hf as [|c l Hc Hl IH]; intros [|i] Hi; try discriminate; cbn in *.
  - injection Hi as ->. pose proof (sum_by_nonneg f l Hl). lia.
  - specialize (IH _ Hi). lia.
Qed.

Lemma sum_by_le {A} (f g : A -> Z) k l : Forall (fun a => f a <= k * g a) l -> sum_by f l <= k * sum_by g l.
Proof. induction 1; cbn; lia. Qed.

Lemma sum_by_add {A} (f g h : A -> Z) l : (forall a, h a = f a + g a) -> sum_by h l = sum_by f l + sum_by g l.
Proof. intros H. induction l as [|a l IH]; cbn; [done|]. rewrite H. lia. Qed.

(** ** Weights, debts and what is owed *)

Definition counts (p : PoolInfo) : bool := pi_active p && (0 <? pi_allocPoint p).
Definition weight (p : PoolInfo) : Z := if pi_active p then pi_allocPoint p else 0.

(** What a pool is owed since its debt was set, in units of [1 / PRECISION]. *)
Definition owed (acc : Z) (p : PoolInfo) : Z :=
  if counts p then pi_allocPoint p * acc - PRECISION * pi_rewardDebt p else 0.

(** What [pendingPoolRewards] shows of a pool. *)
Definition shown (acc : Z) (p : PoolInfo) : Z := pi_pendingRewards p + owed acc p / PRECISION.

(** The tokens that are neither pending nor waiting to be distributed. *)
Definition free (s : manager) : Z := held s - totalPendingRewards s - undistributedRewards s.

Record pool_ok (acc : Z) (p : PoolInfo) : Prop := {
  po_alloc : 0 <= pi_allocPoint p;
  po_pending : 0 <= pi_pendingRewards p;
  po_debt : 0 <= pi_rewardDebt p;
  po_owed : 0 <= owed acc p;
}.

Record sound (n : Z) (s : manager) : Prop := {
  so_acc : 0 <= accRewardPerAllocStored s;
  so_weights : totalAllocPoint s = sum_by weight (pools s);
  so_pending : totalPendingRewards s = sum_by pi_pendingRewards (pools s);
  so_pools : Forall (pool_ok (accRewardPerAllocStored s)) (pools s);
  so_undistributed : 0 <= undistributedRewards s;
  so_free : 0 <= free s;
  so_covered : sum_by (owed (accRewardPerAllocStored s)) (pools s) <= PRECISION * (free s + n);
  so_pid : forall a v, poolPidPlusOne s !! a = Some v <-> exists i, (pi_pool <$> pools s) !! i = Some a /\ v = Z.of_nat i + 1;
  so_exists : forall a, a ∈ poolExists s <-> a ∈ pi_pool <$> pools s;
}.

Lemma PRECISION_pos : 0 < PRECISION.
Proof. done. Qed.

Lemma owed_div acc p : counts p = true -> owed acc p / PRECISION = pi_allocPoint p * acc / PRECISION - pi_rewardDebt p.
Proof.
  intros H. unfold owed. rewrite H.
  replace (pi_allocPoint p * acc - PRECISION * pi_rewardDebt p) with (pi_allocPoint p * acc + (- pi_rewardDebt p) * PRECISION) by lia.
  rewrite Z.div_add by done. lia.
Qed.

Lemma counts_weight p : 0 <= pi_allocPoint p -> weight p = if counts p then pi_allocPoint p else 0.
Proof. intros H. unfold weight, counts. destruct (pi_active p); [|done]. destruct (Z.ltb_spec 0 (pi_allocPoint p)); cbn; lia. Qed.

Lemma weight_nonneg acc p : pool_ok acc p -> 0 <= weight p.
Proof. intros H. unfold weight. pose proof (po_alloc _ _ H). destruct (pi_active p); lia. Qed.

Lemma owed_grown acc d p : pool_ok acc p -> owed (acc + d) p = owed acc p + d * weight p.
Proof. intros H. rewrite (counts_weight p) by apply H. unfold owed. destruct (counts p); lia. Qed.

(** The pool as it is after its debt was brought up to date. *)
Lemma owed_fresh acc p : 0 <= pi_allocPoint p -> 0 <= acc ->
  (pi_active p = true -> pi_rewardDebt p = pi_allocPoint p * acc / PRECISION) -> 0 <= owed acc p < PRECISION.
Proof.
  intros Ha Hacc Hd. pose proof PRECISION_pos. unfold owed, counts. destruct (pi_active p); cbn [andb]; [|lia].
  rewrite (Hd eq_refl). destruct (0 <? _); [|lia].
  pose proof (Z.div_mod (pi_allocPoint p * acc) PRECISION ltac:(lia)).
  pose proof (Z.mod_pos_bound (pi_allocPoint p * acc) PRECISION ltac:(lia)). lia.
Qed.

Lemma debt_fresh acc a : 0 <= a -> 0 <= acc -> 0 <= a * acc / PRECISION.
Proof. intros. apply Z.div_pos; [nia|done]. Qed.

(** ** One pool replaced *)

Lemma replaced n m s i p p' h :
  sound n s -> pools s !! i = Some p -> pi_pool p' = pi_pool p -> pool_ok (accRewardPerAllocStored s) p' ->
  let s' := set_books s (totalAllocPoint s - weight p + weight p') (accRewardPerAllocStored s)
              (totalPendingRewards s - pi_pendingRewards p + pi_pendingRewards p') (undistributedRewards s)
              (<[i := p']> (pools s)) h in
  0 <= free s' ->
  sum_by (owed (accRewardPerAllocStored s)) (pools s) - owed (accRewardPerAllocStored s) p
    + owed (accRewardPerAllocStored s) p' <= PRECISION * (free s' + m) ->
  sound m s'.
Proof.
  intros Hs Hi Hp Hok s' Hf Hc. destruct Hs. unfold s' in *. split; cbn; try done.
  - rewrite (sum_by_insert _ _ _ _ _ Hi). lia.
  - rewrite (sum_by_insert _ _ _ _ _ Hi). lia.
  - by apply Forall_insert.
  - by rewrite (sum_by_insert _ _ _ _ _ Hi).
  - by rewrite (fmap_insert_same_key _ _ _ _ _ Hi).
  - by rewrite (fmap_insert_same_key _ _ _ _ _ Hi).
Qed.

Lemma sound_pending n s i p : sound n s -> pools s !! i = Some p -> 0 <= pi_pendingRewards p <= totalPendingRewards s.
Proof.
  intros Hs Hi. rewrite (so_pending _ _ Hs). split; [apply (po_pending (accRewardPerAllocStored s)); by apply (Forall_lookup_1 _ _ _ _ (so_pools _ _ Hs) Hi)|].
  apply (sum_by_at pi_pendingRewards _ i); [|done]. eapply Forall_impl; [apply (so_pools _ _ Hs)|]. intros q Hq. apply Hq.
Qed.

Lemma sound_owed n s i p : sound n s -> pools s !! i = Some p ->
  0 <= owed (accRewardPerAllocStored s) p <= PRECISION * (free s + n).
Proof.
  intros Hs Hi. split; [apply (Forall_lookup_1 _ _ _ _ (so_pools _ _ Hs) Hi)|].
  etrans; [|apply (so_covered _ _ Hs)]. apply (sum_by_at _ _ i); [|done].
  eapply Forall_impl; [apply (so_pools _ _ Hs)|]. intros q Hq. apply Hq.
Qed.

(** What an accrual credits: the whole units owed, or what is left when that is less. *)
Definition paid_now (s : manager) (p : PoolInfo) : Z := Z.min (owed (accRewardPerAllocStored s) p / PRECISION) (free s).

Definition settled_pool (s : manager) (p : PoolInfo) : PoolInfo :=
  {| pi_pool := pi_pool p; pi_allocPoint := pi_allocPoint p; pi_active := pi_active p;
     pi_rewardDebt := if counts p then pi_allocPoint p * accRewardPerAllocStored s / PRECISION else 0;
     pi_pendingRewards := pi_pendingRewards p + paid_now s p |}.

Definition settled (s : manager) (i : nat) (p : PoolInfo) : manager :=
  set_books s (totalAllocPoint s) (accRewardPerAllocStored s) (totalPendingRewards s + paid_now s p)
    (undistributedRewards s) (<[i := settled_pool s p]> (pools s)) (held s).

Lemma settled_sound n s i p : sound n s -> pools s !! i = Some p -> 0 <= n -> sound n (settled s i p).
Proof.
  intros Hs Hi Hn. pose proof (sound_owed _ _ _ _ Hs Hi) as Ho.
  pose proof (Forall_lookup_1 _ _ _ _ (so_pools _ _ Hs) Hi) as Hp.
  pose proof (so_free _ _ Hs) as Hf. pose proof (so_acc _ _ Hs) as Ha. pose proof (po_alloc _ _ Hp) as Hal.
  assert (Hw : weight (settled_pool s p) = weight p) by done.
  assert (Hfresh : 0 <= owed (accRewardPerAllocStored s) (settled_pool s p) < PRECISION
                   /\ owed (accRewardPerAllocStored s) (settled_pool s p)
                      = owed (accRewardPerAllocStored s) p - PRECISION * (owed (accRewardPerAllocStored s) p / PRECISION)).
  { pose proof PRECISION_pos. destruct (counts p) eqn:Hc.
    - rewrite (owed_div _ _ Hc). unfold owed, settled_pool. unfold counts in *. cbn. rewrite Hc.
      pose proof (Z.div_mod (pi_allocPoint p * accRewardPerAllocStored s) PRECISION ltac:(lia)).
      pose proof (Z.mod_pos_bound (pi_allocPoint p * accRewardPerAllocStored s) PRECISION ltac:(lia)). lia.
    - unfold owed, settled_pool. unfold counts in *. cbn. rewrite Hc. rewrite Z.div_0_l by lia. lia. }
  destruct Hfresh as [Hfr Heq].
  pose proof (replaced n n s i p (settled_pool s p) (held s) Hs Hi eq_refl) as H.
  assert (Hpaid : 0 <= paid_now s p <= free s).
  { unfold paid_now. pose proof (Z.div_pos (owed (accRewardPerAllocStored s) p) PRECISION ltac:(lia) ltac:(done)). lia. }
  cbv zeta in H. rewrite Hw in H.
  replace (totalAllocPoint s - weight p + weight p) with (totalAllocPoint s) in H by lia.
  replace (totalPendingRewards s - pi_pendingRewards p + pi_pendingRewards (settled_pool s p))
    with (totalPendingRewards s + paid_now s p) in H by (cbn; lia).
  apply H.
  - split; cbn; [done| |destruct (counts p); [by apply debt_fresh|done]|lia]. destruct Hp; lia.
  - unfold free in *. cbn. lia.
  - rewrite Heq. pose proof (so_covered _ _ Hs) as Hc. unfold paid_now in *.
    unfold free at 1. cbn. unfold free in *. pose proof PRECISION_pos. nia.
Qed.

(** What an accrual computes first. *)
Definition accrual_of (s : manager) (p : PoolInfo) : res string (Z * Z) :=
  if pi_active p && (0 <? pi_allocPoint p) then
    let* now := credited (pi_allocPoint p) s in
    let* newlyAccrued := u256 (now - pi_rewardDebt p) in
    Ok (newlyAccrued, now)
  else Ok (0, 0).

Definition debt_now (s : manager) (p : PoolInfo) : Z :=
  if counts p then pi_allocPoint p * accRewardPerAllocStored s / PRECISION else 0.

Lemma accrual_of_Ok s p a : accrual_of s p = Ok a -> a = (owed (accRewardPerAllocStored s) p / PRECISION, debt_now s p).
Proof.
  unfold accrual_of, debt_now, credited. change (pi_active p && (0 <? pi_allocPoint p)) with (counts p).
  destruct (counts p) eqn:Hc; intros H.
  - router_inv H. router_inv Hx. injection Hx as <-. injection H as <-. by rewrite (owed_div _ _ Hc).
  - injection H as <-. unfold owed. by rewrite Hc.
Qed.

(** An accrual that succeeds is that one. *)
Lemma accrue_settles n s i p p' s' :
  sound n s -> pools s !! i = Some p -> accrue_at i p s = Ok (p', s') -> p' = settled_pool s p /\ s' = settled s i p.
Proof.
  intros Hs Hi H. pose proof (sound_owed _ _ _ _ Hs Hi) as [Ho _]. pose proof (so_free _ _ Hs) as Hf.
  pose proof (Z.div_pos _ PRECISION Ho ltac:(done)) as Hq.
  unfold accrue_at, _accruePool in H. fold (accrual_of s p) in H.
  apply res_bind_Ok in H as ([p1 c1] & Hr & H).
  apply res_bind_Ok in Hr as (acc & Ha & Hr). apply accrual_of_Ok in Ha as ->. cbn [fst snd] in *.
  apply res_bind_Ok in Hr as (c & Hc & Hr).
  assert (c = paid_now s p) as ->.
  { unfold paid_now, free in *. destruct (Z.ltb_spec 0 (owed (accRewardPerAllocStored s) p / PRECISION)) as [Hlt|Hge].
    - router_inv Hc. injection Hc as <-. destruct (Z.ltb_spec (totalPendingRewards s + undistributedRewards s) (held s));
        case_goal; bool_solve; lia.
    - injection Hc as <-. lia. }
  router_inv Hr. injection Hr as <- <-. router_inv H. injection H as <- <-. done.
Qed.

(** ** Every call keeps the books *)

(** The amounts of a call are words of 256 bits. *)
Definition words (k : manager_call) : Prop :=
  match k with
  | AddPool _ n _ | DistributeRewards n | RecoverToken _ _ n => 0 <= n
  | SetPool pid n _ => 0 <= pid /\ 0 <= n
  | _ => True
  end.

Lemma manager_sound_weaken n m s : sound n s -> n <= m -> sound m s.
Proof. intros [] Hm. split; try done. pose proof PRECISION_pos. nia. Qed.

Lemma sound_admin n s o t op f p rs : sound n s -> sound n (set_admin s o t op f p rs).
Proof. by intros []. Qed.

Lemma sound_find n s pool i p : sound n s -> find_pool pool s = Ok (i, p) -> pools s !! i = Some p /\ pi_pool p = pool.
Proof.
  intros Hs H. unfold find_pool in H. router_inv H. case_in H; [|discriminate H]. injection H as <- <-.
  split; [done|]. destruct (poolPidPlusOne s !! pool) as [v|] eqn:E; [|done].
  apply (so_pid _ _ Hs) in E as (j & Hj & ->). cbn [from_option] in *; unfold id in *.
  replace (Z.to_nat (Z.of_nat j + 1 - 1)) with j in Heqo by lia. rewrite list_lookup_fmap, Heqo in Hj. by injection Hj.
Qed.

Lemma settled_at s i p q : pools s !! i = Some q -> pools (settled s i p) !! i = Some (settled_pool s p).
Proof. intros H. cbn. rewrite list_lookup_insert_eq; [done|]. by eapply lookup_lt_Some. Qed.

(** Replacing a settled pool by one with an up to date debt. *)
Lemma sound_reset n s i p a (active : bool) d total :
  sound n s -> pools s !! i = Some p -> 0 <= a ->
  d = (if active then a * accRewardPerAllocStored s / PRECISION else 0) ->
  total = totalAllocPoint s - weight p + (if active then a else 0) ->
  sound (n + 1) (put_pool s i (with_alloc p a active d) total).
Proof.
  intros Hs Hi Ha Hd ->. pose proof (so_acc _ _ Hs) as Hacc. pose proof (sound_owed _ _ _ _ Hs Hi) as [Ho _].
  assert (Hfresh : 0 <= owed (accRewardPerAllocStored s) (with_alloc p a active d) < PRECISION)
    by (apply owed_fresh; [done|done|intros E; cbn in E |- *; by rewrite Hd, E]).
  pose proof (replaced n (n + 1) s i p (with_alloc p a active d) (held s) Hs Hi eq_refl) as H.
  cbv zeta in H. cbn [with_alloc pi_pendingRewards] in H.
  replace (totalPendingRewards s - pi_pendingRewards p + pi_pendingRewards p) with (totalPendingRewards s) in H by lia.
  apply H.
  - destruct (sound_pending _ _ _ _ Hs Hi). split; cbn; [done|done| |apply Hfresh].
    rewrite Hd. destruct active; [by apply debt_fresh|done].
  - apply (so_free _ _ Hs).
  - pose proof (so_covered _ _ Hs). unfold free in *. cbn. lia.
Qed.

Lemma sound_added n s pool a (active : bool) d total :
  sound n s -> 0 <= n -> 0 <= a -> pool ∉ poolExists s ->
  d = (if active then a * accRewardPerAllocStored s / PRECISION else 0) ->
  total = totalAllocPoint s + (if active then a else 0) ->
  sound (n + 1)
    (set_registry
       (set_books s total (accRewardPerAllocStored s) (totalPendingRewards s) (undistributedRewards s)
          (pools s ++ [{| pi_pool := pool; pi_allocPoint := a; pi_active := active; pi_rewardDebt := d; pi_pendingRewards := 0 |}])%list
          (held s))
       ({[ pool ]} ∪ poolExists s) (<[pool := Z.of_nat (length (pools s)) + 1]> (poolPidPlusOne s))).
Proof.
  intros Hs Hn Ha Hnew Hd ->. set (p := {| pi_pool := pool |}). destruct Hs.
  assert (Hfresh : 0 <= owed (accRewardPerAllocStored s) p < PRECISION)
    by (apply owed_fresh; [done|done|intros E; unfold p in E |- *; cbn in E |- *; by rewrite Hd, E]).
  assert (Hlen : length (pi_pool <$> pools s) = length (pools s)) by apply length_fmap.
  split; cbn; try done.
  - rewrite sum_by_app, <- so_weights0. unfold p, weight. cbn. lia.
  - rewrite sum_by_app, <- so_pending0. cbn. lia.
  - apply Forall_app. split; [done|]. constructor; [|done]. split; [done|done| |apply Hfresh].
    unfold p. cbn. rewrite Hd. destruct active; [by apply debt_fresh|done].
  - rewrite sum_by_app. cbn. unfold free in *. cbn. lia.
  - intros b v. rewrite fmap_app, lookup_insert_Some. cbn. split.
    + intros [[<- <-]|[Hb Hv]].
      * exists (length (pools s)). rewrite lookup_app_r, Hlen, Nat.sub_diag by lia. done.
      * apply so_pid0 in Hv as (i & Hi & ->). exists i. split; [by apply lookup_app_l_Some|done].
    + intros (i & Hi & ->). apply lookup_app_Some in Hi as [Hi|[Hi1 Hi]].
      * right. split; [|apply so_pid0; eauto]. intros <-. apply Hnew, so_exists0. by eapply list_elem_of_lookup_2.
      * apply list_lookup_singleton_Some in Hi as [Hi <-]. left. split; [done|]. rewrite Hlen in *. lia.
  - intros b. rewrite fmap_app, elem_of_union, elem_of_singleton, elem_of_app, so_exists0. cbn. rewrite list_elem_of_singleton. tauto.
Qed.

Lemma sound_distributed n s x delta :
  sound n s -> 0 <= x -> 0 < totalAllocPoint s ->
  delta = (x + undistributedRewards s) * PRECISION / totalAllocPoint s ->
  sound (n + 1)
    (set_books s (totalAllocPoint s) (accRewardPerAllocStored s + delta) (totalPendingRewards s)
       (x + undistributedRewards s - delta * totalAllocPoint s / PRECISION) (pools s) (held s + x)).
Proof.
  intros [] Hx HT Hd. pose proof PRECISION_pos as HP.
  pose proof (Z.mul_div_le ((x + undistributedRewards s) * PRECISION) (totalAllocPoint s) HT) as Hle. rewrite <- Hd in Hle.
  assert (Hd0 : 0 <= delta) by (rewrite Hd; apply Z.div_pos; nia).
  assert (Hcount : PRECISION * (delta * totalAllocPoint s / PRECISION) <= delta * totalAllocPoint s
                   < PRECISION * (delta * totalAllocPoint s / PRECISION) + PRECISION).
  { pose proof (Z.div_mod (delta * totalAllocPoint s) PRECISION ltac:(lia)).
    pose proof (Z.mod_pos_bound (delta * totalAllocPoint s) PRECISION ltac:(lia)). lia. }
  assert (Hsum : sum_by (owed (accRewardPerAllocStored s + delta)) (pools s)
                 = sum_by (owed (accRewardPerAllocStored s)) (pools s) + delta * totalAllocPoint s).
  { rewrite so_weights0. clear -so_pools0. induction (pools s) as [|p l IH]; cbn; [lia|].
    apply Forall_cons_1 in so_pools0 as [Hp Hl]. rewrite (IH Hl), (owed_grown _ _ _ Hp). lia. }
  split; cbn; try done.
  - lia.
  - eapply Forall_impl; [done|]. intros p Hp. pose proof Hp as []. split; try done. rewrite (owed_grown _ _ _ Hp).
    pose proof (weight_nonneg _ _ Hp). nia.
  - nia.
  - unfold free in *. cbn. pose proof (Z.div_pos (delta * totalAllocPoint s) PRECISION ltac:(nia) HP). lia.
  - rewrite Hsum. unfold free in *. cbn. nia.
Qed.

Lemma sound_deactivated n s i p :
  sound n s -> pools s !! i = Some p ->
  sound (n + 1) (put_pool s i (with_alloc p (pi_allocPoint p) false 0) (totalAllocPoint s - weight p)).
Proof.
  intros Hs Hi. pose proof (Forall_lookup_1 _ _ _ _ (so_pools _ _ Hs) Hi) as [].
  apply sound_reset; try done. lia.
Qed.

Definition emptied (p : PoolInfo) : PoolInfo :=
  {| pi_pool := pi_pool p; pi_allocPoint := pi_allocPoint p; pi_active := pi_active p;
     pi_rewardDebt := pi_rewardDebt p; pi_pendingRewards := 0 |}.

Lemma sound_paid n s i p :
  sound n s -> pools s !! i = Some p ->
  sound n (set_books s (totalAllocPoint s) (accRewardPerAllocStored s) (totalPendingRewards s - pi_pendingRewards p)
             (undistributedRewards s) (<[i := emptied p]> (pools s)) (held s - pi_pendingRewards p)).
Proof.
  intros Hs Hi. pose proof (replaced n n s i p (emptied p) (held s - pi_pendingRewards p) Hs Hi eq_refl) as H.
  cbv zeta in H. change (weight (emptied p)) with (weight p) in H. cbn [emptied pi_pendingRewards] in H.
  replace (totalAllocPoint s - weight p + weight p) with (totalAllocPoint s) in H by lia.
  replace (totalPendingRewards s - pi_pendingRewards p + 0) with (totalPendingRewards s - pi_pendingRewards p) in H by lia.
  pose proof (Forall_lookup_1 _ _ _ _ (so_pools _ _ Hs) Hi) as Hp. pose proof (so_free _ _ Hs). pose proof (so_covered _ _ Hs).
  apply H.
  - destruct Hp. split; try done. 
  - unfold free in *. cbn. lia.
  - change (owed (accRewardPerAllocStored s) (emptied p)) with (owed (accRewardPerAllocStored s) p). unfold free in *. cbn. lia.
Qed.

Lemma credited_Ok a s x : credited a s = Ok x -> x = a * accRewardPerAllocStored s / PRECISION.
Proof. unfold credited. intros H. router_inv H. by injection H as <-. Qed.

Lemma addPool_sound n e pool a active s s' ev :
  sound n s -> 0 <= n -> 0 <= a -> addPool e pool a active s = Ok (s', ev) -> sound (n + 1) s'.
Proof.
  intros Hs Hn Ha H. unfold addPool, onlyOwnerOrPoolFactory in H. router_inv H. injection H as <- <-.
  eapply sound_added; try done.
  - destruct active; [by apply credited_Ok|by injection Hx as <-].
  - destruct active; [apply u256_id in Hx0 as [-> _]; done|injection Hx0 as <-; lia].
Qed.

Lemma setPool_sound n e pid a active s s' ev :
  sound n s -> 0 <= n -> 0 <= a -> setPool e pid a active s = Ok (s', ev) -> sound (n + 1) s'.
Proof.
  intros Hs Hn Ha H. unfold setPool, onlyOwner in H. router_inv H. case_in H; [|discriminate H].
  apply res_bind_Ok in H as ([p1 s1] & Hr & H).
  destruct (accrue_settles _ _ _ _ _ _ Hs Heqo Hr) as [-> ->].
  cbn [fst snd] in H. router_inv H. injection H as <- <-.
  eapply sound_reset; [by apply settled_sound|by eapply settled_at|done| |].
  - destruct active; [by apply credited_Ok|by injection Hx1 as <-].
  - unfold weight. destruct (pi_active (settled_pool s p));
      [apply u256_id in Hx as [-> _]|injection Hx as <-]; (destruct active; [apply u256_id in Hx0 as [-> _]|injection Hx0 as <-]); cbn; lia.
Qed.

Lemma deactivatePool_sound n e pool s s' ev :
  sound n s -> 0 <= n -> deactivatePool e pool s = Ok (s', ev) -> sound (n + 1) s'.
Proof.
  intros Hs Hn H. unfold deactivatePool, onlyOwnerOrPoolFactory in H. router_inv H. destruct x as [i p].
  destruct (sound_find _ _ _ _ _ Hs Hx) as [Hi _]. destruct x0 as [p1 s1].
  destruct (accrue_settles _ _ _ _ _ _ Hs Hi Hx0) as [-> ->]. cbn [fst snd] in H.
  pose proof (settled_sound _ _ _ _ Hs Hi Hn) as Hs'. destruct (pi_active (settled_pool s p)) eqn:Hact.
  - router_inv H. injection H as <- <-. pose proof (sound_deactivated _ _ _ _ Hs' (settled_at _ _ p _ Hi)) as H.
    unfold weight in H. by rewrite Hact in H.
  - injection H as <- <-. by apply (manager_sound_weaken n); [|lia].
Qed.

Lemma manager_distribute_Ok e x s s' ev :
  distributeRewards e x s = Ok (s', ev) ->
  0 < x /\ 0 < totalAllocPoint s /\ paused s = false /\
  let delta := (x + undistributedRewards s) * PRECISION / totalAllocPoint s in
  0 < delta /\
  s' = set_books s (totalAllocPoint s) (accRewardPerAllocStored s + delta) (totalPendingRewards s)
         (x + undistributedRewards s - delta * totalAllocPoint s / PRECISION) (pools s) (held s + x) /\
  ev = [RewardsDistributed x delta (me_sender e)].
Proof.
  unfold distributeRewards, onlyOperatorOrOwner. intros H. router_inv H. injection H as <- <-.
  apply udiv_id in Hx0 as [_ ->]. repeat split; try done; lia.
Qed.

Lemma claim_Ok n t e pool s s' ev :
  sound n s -> claimPoolRewards t e pool s = Ok (s', ev) ->
  exists i p, find_pool pool s = Ok (i, p) /\
    ((pi_pendingRewards (settled_pool s p) = 0 /\ s' = settled s i p) \/
     s' = set_books (settled s i p) (totalAllocPoint s) (accRewardPerAllocStored s)
            (totalPendingRewards (settled s i p) - pi_pendingRewards (settled_pool s p)) (undistributedRewards s)
            (<[i := emptied (settled_pool s p)]> (pools (settled s i p))) (held s - pi_pendingRewards (settled_pool s p))).
Proof.
  intros Hs H. unfold claimPoolRewards in H. router_inv H. destruct x as [i p].
  destruct (sound_find _ _ _ _ _ Hs Hx) as [Hi _]. destruct x0 as [p1 s1].
  destruct (accrue_settles _ _ _ _ _ _ Hs Hi Hx0) as [-> ->]. cbn [fst snd] in H. exists i, p. split; [done|].
  destruct (Z.eqb_spec (pi_pendingRewards (settled_pool s p)) 0) as [E|E].
  - injection H as <- <-. by left.
  - right. router_inv H. by injection H as <- <-.
Qed.

Lemma exec_sound n t e k s s' ev :
  sound n s -> 0 <= n -> words k -> exec_manager t e k s = Ok (s', ev) -> sound (n + 1) s'.
Proof.
  intros Hs Hn Hk H. assert (Hw : sound (n + 1) s) by (apply (manager_sound_weaken n); [done|lia]).
  destruct k; cbn [exec_manager words] in H, Hk.
  1-5, 11-16: unfold renounceOwnership, setTreasury, setOperator, setPoolFactory, pause, unpause, recoverToken, transferOwnership, grantRole,
    revokeRole, renounceRole, onlyOwner in H; router_inv H; repeat (case_in H; try discriminate H); injection H as <- <-;
    by try apply sound_admin.
  - by eapply addPool_sound.
  - by eapply deactivatePool_sound.
  - eapply setPool_sound; [done|done|apply Hk|done].
  - apply manager_distribute_Ok in H as (Hx & HT & _ & _ & -> & _). by apply sound_distributed; [|lia|..].
  - destruct (claim_Ok _ _ _ _ _ _ _ Hs H) as (i & p & Hf & Hc). destruct (sound_find _ _ _ _ _ Hs Hf) as [Hi _].
    apply (manager_sound_weaken n); [|lia]. pose proof (settled_sound _ _ _ _ Hs Hi Hn) as Hs'.
    destruct Hc as [[_ ->]| ->]; [done|]. apply (sound_paid _ _ i _ Hs'). by eapply settled_at.
Qed.

(** ** Histories *)

(** Accepted calls, counted, and reward tokens received between them. *)
Inductive manager_run (t : address) : Z -> manager -> Prop :=
| run_deployed o tr op s : deploy o tr op t = Ok s -> manager_run t 0 s
| run_call n s e k s' ev :
    manager_run t n s -> words k -> exec_manager t e k s = Ok (s', ev) -> manager_run t (n + 1) s'
| run_received n s x :
    manager_run t n s -> 0 <= x ->
    manager_run t n (set_books s (totalAllocPoint s) (accRewardPerAllocStored s) (totalPendingRewards s)
                       (undistributedRewards s) (pools s) (held s + x)).

Lemma manager_run_sound t n s : manager_run t n s -> 0 <= n /\ sound n s.
Proof.
  induction 1 as [o tr op s H|n s e k s' ev _ [Hn IH] Hk H|n s x _ [Hn IH] Hx].
  - split; [done|]. unfold deploy in H. router_inv H. injection H as <-. split; cbn; try done.
    + intros a v. split; [done|]. by intros (i & Hi & _).
    + intros a. rewrite elem_of_empty. split; [done|]. intros H. inversion H.
  - split; [lia|]. by eapply exec_sound.
  - split; [done|]. destruct IH. pose proof PRECISION_pos. split; cbn; try done; unfold free in *; cbn; nia.
Qed.

(** Over every history the reward token is a contract, and the operator, when there is one, has
    the operator's role. *)
Lemma run_token t n s : manager_run t n s -> t <> 0.
Proof. induction 1 as [o tr op s H|n s e k s' ev _ IH _ _|n s x _ IH _]; [|done|done]. unfold deploy in H. by router_inv H. Qed.

Lemma accrue_keeps i p s r : accrue_at i p s = Ok r -> operator (snd r) = operator s /\ roles (snd r) = roles s.
Proof. unfold accrue_at. intros H. router_inv H. by injection H as <-. Qed.

Definition changes_roles (k : manager_call) : bool :=
  match k with SetOperator _ | TransferOwnership _ | GrantRole _ _ | RevokeRole _ _ | RenounceRole _ _ => true | _ => false end.

Lemma exec_keeps_roles t e k s s' ev :
  changes_roles k = false -> exec_manager t e k s = Ok (s', ev) -> operator s' = operator s /\ roles s' = roles s.
Proof.
  destruct k; try done; intros _ H; cbn [exec_manager] in H;
    unfold renounceOwnership, setTreasury, setPoolFactory, pause, unpause, recoverToken, addPool, deactivatePool, setPool, distributeRewards,
      claimPoolRewards, onlyOperatorOrOwner, onlyOwnerOrPoolFactory, onlyOwner in H; router_inv H;
    repeat (case_in H; router_inv H; try discriminate H); injection H as <- <-; try done; cbn [set_books put_pool operator roles];
    match goal with
    | Ha : accrue_at _ _ s = Ok ?r |- _ => pose proof (accrue_keeps _ _ _ _ Ha) as [Ho Hr]; done
    end.
Qed.

Lemma exec_operator t e k s s' ev :
  (operator s = 0 \/ hasRole OPERATOR_ROLE (operator s) s = true) -> exec_manager t e k s = Ok (s', ev) ->
  operator s' = 0 \/ hasRole OPERATOR_ROLE (operator s') s' = true.
Proof.
  unfold hasRole. rewrite !bool_decide_eq_true. intros Hs H. destruct (changes_roles k) eqn:Hk.
  - destruct k; try discriminate; cbn [exec_manager] in H;
      unfold setOperator, transferOwnership, grantRole, revokeRole, renounceRole, onlyOwner in H; router_inv H;
      repeat (case_in H; bool_solve); injection H as <- <-; cbn [set_admin set_roles operator roles]; try done; try by left.
    all: first [right; set_solver | destruct Hs as [->|Hs]; [by left|right; set_solver]].
  - destruct (exec_keeps_roles _ _ _ _ _ _ Hk H) as [-> ->]. done.
Qed.

Lemma run_operator t n s : manager_run t n s -> operator s = 0 \/ hasRole OPERATOR_ROLE (operator s) s = true.
Proof.
  induction 1 as [o tr op s H|n s e k s' ev _ IH _ H|n s x _ IH _]; [|by eapply exec_operator|done].
  unfold deploy in H. router_inv H. injection H as <-. right. unfold hasRole. apply bool_decide_eq_true. cbn. set_solver.
Qed.

(** A distribution that is accepted. *)
Lemma distribute_accepted t e n s x :
  manager_run t n s -> me_sender e <> 0 -> me_sender e = owner s \/ me_sender e = operator s -> paused s = false -> 0 < x ->
  0 < totalAllocPoint s -> me_source_paused e (treasury s) = Some false -> me_pull e (treasury s) x = Ok tt ->
  0 < (x + undistributedRewards s) * PRECISION / totalAllocPoint s ->
  (x + undistributedRewards s) * PRECISION < 2 ^ 256 ->
  accRewardPerAllocStored s + (x + undistributedRewards s) * PRECISION / totalAllocPoint s < 2 ^ 256 ->
  exists s' ev, distributeRewards e x s = Ok (s', ev) /\ held s' = held s + x.
Proof.
  intros Hrun H0 Hrole Hp Hx HT Hsrc Hpull Hd Hw Hacc. destruct (manager_run_sound _ _ _ Hrun) as [_ Hs].
  pose proof (so_undistributed _ _ Hs) as Hu. pose proof (so_acc _ _ Hs) as Ha. pose proof PRECISION_pos as HP.
  assert (Hauth : hasRole OPERATOR_ROLE (me_sender e) s || (me_sender e =? owner s) = true).
  { apply orb_true_iff. destruct Hrole as [E|E]; [right; by apply Z.eqb_eq|].
    destruct (run_operator _ _ _ Hrun) as [E0|E0]; [by rewrite E0 in E|]. left. by rewrite E. }
  pose proof (Z.mul_div_le ((x + undistributedRewards s) * PRECISION) (totalAllocPoint s) HT) as Hle.
  unfold distributeRewards, onlyOperatorOrOwner. rewrite Hauth, Hp, (proj2 (Z.ltb_lt _ _) Hx), (proj2 (Z.ltb_lt _ _) HT), Hsrc. cbn [negb default from_option].
  unfold id. cbn [negb]. rewrite Hpull. cbn [res_bind].
  assert (HPx : x + undistributedRewards s <= (x + undistributedRewards s) * PRECISION) by nia.
  rewrite u256_ok by lia. cbn [res_bind]. rewrite u256_ok by nia. cbn [res_bind].
  unfold udiv. rewrite (proj2 (Z.eqb_neq _ _)) by lia. cbn [negb res_bind].
  rewrite (proj2 (Z.ltb_lt _ _) Hd).
  set (d := (x + undistributedRewards s) * PRECISION / totalAllocPoint s) in *.
  rewrite u256_ok by lia. cbn [res_bind]. rewrite u256_ok by nia. cbn [res_bind].
  assert (Hq : 0 <= d * totalAllocPoint s / PRECISION <= x + undistributedRewards s)
    by (split; [apply Z.div_pos; nia|apply Z.div_le_upper_bound; nia]).
  rewrite u256_ok by lia. cbn [res_bind]. eauto.
Qed.

Lemma accrues n s i p :
  sound n s -> pools s !! i = Some p -> pi_allocPoint p * accRewardPerAllocStored s < 2 ^ 256 -> held s < 2 ^ 256 ->
  accrue_at i p s = Ok (settled_pool s p, settled s i p).
Proof.
  intros Hs Hi Hw Hh. pose proof (sound_owed _ _ _ _ Hs Hi) as [Ho _]. pose proof (so_free _ _ Hs) as Hf.
  pose proof (Forall_lookup_1 _ _ _ _ (so_pools _ _ Hs) Hi) as Hp. pose proof (so_acc _ _ Hs) as Ha.
  destruct (sound_pending _ _ _ _ Hs Hi) as [Hp0 Hp1]. pose proof (so_undistributed _ _ Hs) as Hu.
  pose proof (Z.div_pos _ PRECISION Ho ltac:(done)) as Hq.
  assert (Hacc : accrual_of s p = Ok (owed (accRewardPerAllocStored s) p / PRECISION, debt_now s p)).
  { unfold accrual_of, debt_now, credited. change (pi_active p && (0 <? pi_allocPoint p)) with (counts p).
    destruct (counts p) eqn:Hc; [|unfold owed; by rewrite Hc].
    destruct Hp as [Hal _ Hd _]. rewrite u256_ok by nia. cbn [res_bind].
    pose proof (debt_fresh _ _ Hal Ha). pose proof (Z.div_le_upper_bound (pi_allocPoint p * accRewardPerAllocStored s) PRECISION
      (pi_allocPoint p * accRewardPerAllocStored s) ltac:(done) ltac:(pose proof PRECISION_pos; nia)).
    rewrite (owed_div _ _ Hc) in *. rewrite u256_ok by lia. done. }
  unfold accrue_at, _accruePool. fold (accrual_of s p). rewrite Hacc. cbn [res_bind fst snd].
  assert (Hpaid : 0 <= paid_now s p <= free s) by (unfold paid_now; lia).
  set (q := owed (accRewardPerAllocStored s) p / PRECISION) in *.
  assert (Hc : (if 0 <? q then
      let* reserved := u256 (totalPendingRewards s + undistributedRewards s) in
      let available := if reserved <? held s then held s - reserved else 0 in
      Ok (if available <? q then available else q) else Ok 0) = (Ok (paid_now s p) : res string Z)).
  { unfold paid_now, free in *. fold q. destruct (Z.ltb_spec 0 q); [|f_equal; lia].
    rewrite u256_ok by lia. cbn [res_bind]. f_equal.
    destruct (Z.ltb_spec (totalPendingRewards s + undistributedRewards s) (held s)); case_goal; bool_solve; lia. }
  cbv zeta in Hc |- *. rewrite Hc. cbn [res_bind]. unfold free in *. rewrite u256_ok by lia. cbn [res_bind fst snd].
  rewrite u256_ok by lia. done.
Qed.

Lemma shows s pool i p n :
  sound n s -> find_pool pool s = Ok (i, p) -> pi_allocPoint p * accRewardPerAllocStored s < 2 ^ 256 ->
  shown (accRewardPerAllocStored s) p < 2 ^ 256 -> pendingPoolRewards pool s = Ok (shown (accRewardPerAllocStored s) p).
Proof.
  intros Hs Hf Hw Hb. destruct (sound_find _ _ _ _ _ Hs Hf) as [Hi _].
  pose proof (Forall_lookup_1 _ _ _ _ (so_pools _ _ Hs) Hi) as Hp. pose proof (so_acc _ _ Hs) as Ha.
  unfold pendingPoolRewards. rewrite Hf. cbn [res_bind snd].
  change (pi_active p && (0 <? pi_allocPoint p)) with (counts p).
  destruct Hp as [Hal Hpe Hd Ho]. pose proof (Z.div_pos _ PRECISION Ho ltac:(done)) as Hq.
  unfold shown in *. destruct (counts p) eqn:Hc.
  - unfold credited. rewrite u256_ok by nia. cbn [res_bind]. rewrite (owed_div _ _ Hc) in *.
    rewrite u256_ok by lia. cbn [res_bind]. by rewrite u256_ok by lia.
  - unfold owed in *. rewrite Hc, Z.div_0_l, Z.add_0_r by done. done.
Qed.

Lemma find_pool_upd s s' pool i p p' :
  find_pool pool s = Ok (i, p) -> poolPidPlusOne s' = poolPidPlusOne s -> pools s' !! i = Some p' ->
  find_pool pool s' = Ok (i, p').
Proof.
  unfold find_pool. intros H -> Hi. destruct (negb _); [|done]. case_in H; [|done]. injection H as <- <-. by rewrite Hi.
Qed.

(** A claim that is accepted, and what it leaves. *)
Lemma claim_accepted t e n s pool i p :
  sound n s -> 0 <= n -> find_pool pool s = Ok (i, p) -> me_sender e = pool -> (forall x, me_transfer e t pool x = true) ->
  pi_allocPoint p * accRewardPerAllocStored s < 2 ^ 256 -> held s < 2 ^ 256 ->
  exists s' ev, claimPoolRewards t e pool s = Ok (s', ev) /\ sound n s' /\
    held s' = held s - (pi_pendingRewards p + paid_now s p) /\
    accRewardPerAllocStored s' = accRewardPerAllocStored s /\ find_pool pool s' = Ok (i, emptied (settled_pool s p)).
Proof.
  intros Hs Hn Hf Hsend Htr Hw Hh. destruct (sound_find _ _ _ _ _ Hs Hf) as [Hi Hpool].
  pose proof (settled_sound _ _ _ _ Hs Hi Hn) as Hs'. pose proof (settled_at _ _ p _ Hi) as Hi'.
  pose proof (sound_paid _ _ _ _ Hs' Hi') as Hs''. destruct (sound_pending _ _ _ _ Hs' Hi') as [H0 H1].
  pose proof (so_free _ _ Hs') as Hfree. pose proof (so_undistributed _ _ Hs') as Hu.
  unfold claimPoolRewards. rewrite Hf. cbn [res_bind fst snd]. rewrite (proj2 (Z.eqb_eq _ _) Hsend).
  rewrite (accrues _ _ _ _ Hs Hi Hw Hh). cbn [res_bind fst snd].
  set (r := pi_pendingRewards (settled_pool s p)) in *. change (pi_pendingRewards p + paid_now s p) with r.
  destruct (Z.eqb_spec r 0) as [E|E].
  - eexists _, _. split; [done|]. split; [done|]. split; [change (held s = held s - r); lia|]. split; [done|].
    apply (find_pool_upd _ _ _ _ _ _ Hf); [done|]. rewrite Hi'. f_equal. unfold emptied. fold r. by rewrite <- E.
  - unfold free in Hfree. cbn [settled set_books held totalPendingRewards undistributedRewards] in *.
    rewrite u256_ok by lia. cbn [res_bind]. rewrite Htr, (proj2 (Z.leb_le _ _)) by lia. cbn [andb].
    eexists _, _. split; [done|]. split; [exact Hs''|]. split; [done|]. split; [done|].
    apply (find_pool_upd _ _ _ _ _ _ Hf); [done|]. cbn [set_books pools].
    rewrite list_lookup_insert_eq; [done|]. by eapply lookup_lt_Some.
Qed.

Lemma shown_settled s p : 0 <= pi_allocPoint p -> 0 <= accRewardPerAllocStored s ->
  shown (accRewardPerAllocStored s) (emptied (settled_pool s p)) = 0.
Proof.
  intros Ha Hacc. unfold shown. cbn [emptied pi_pendingRewards]. rewrite Z.add_0_l. apply Z.div_small.
  destruct (pi_active p && (0 <? pi_allocPoint p)) eqn:E.
  - apply owed_fresh; [done|done|]. intros _. cbn. unfold counts. by rewrite E.
  - unfold owed, counts. cbn. rewrite E. done.
Qed.

Lemma sum_shown n s : sound n s ->
  sum_by (shown (accRewardPerAllocStored s)) (pools s) <= held s - undistributedRewards s + n.
Proof.
  intros Hs. unfold shown. pose proof PRECISION_pos as HP.
  rewrite (sum_by_add pi_pendingRewards (fun p => owed (accRewardPerAllocStored s) p / PRECISION)) by done.
  rewrite <- (so_pending _ _ Hs).
  assert (PRECISION * sum_by (fun p => owed (accRewardPerAllocStored s) p / PRECISION) (pools s)
          <= sum_by (owed (accRewardPerAllocStored s)) (pools s)).
  { induction (pools s) as [|p l IH]; cbn; [lia|].
    pose proof (Z.mul_div_le (owed (accRewardPerAllocStored s) p) PRECISION HP). lia. }
  pose proof (so_covered _ _ Hs). unfold free in *. nia.
Qed.

Lemma shown_bounds n s i p : 0 <= n -> sound n s -> pools s !! i = Some p ->
  0 <= shown (accRewardPerAllocStored s) p <= held s + n /\
  paid_now s p <= owed (accRewardPerAllocStored s) p / PRECISION <= paid_now s p + n.
Proof.
  intros Hn Hs Hi. pose proof (sound_owed _ _ _ _ Hs Hi) as [H0 H1]. pose proof PRECISION_pos as HP.
  pose proof (Z.div_pos _ PRECISION H0 HP). pose proof (Z.div_le_upper_bound _ _ _ HP H1).
  destruct (sound_pending _ _ _ _ Hs Hi). pose proof (so_undistributed _ _ Hs).
  pose proof (so_free _ _ Hs) as Hfree. unfold shown, paid_now, free in *. 
  pose proof (Z.div_le_upper_bound _ _ _ HP H1). lia.
Qed.

(** C6.  Every history of the manager - its deployment, [n] accepted calls of any kind in any
    order, reward tokens arriving in between - leaves its books in order: the total weight is
    the sum of the active pools' weights, the total of the pending rewards is the sum of the
    pools' pending rewards, the tokens held cover every pending and every
    undistributed reward, and together the pools are shown at most [n] base units (what the
    divisions round) more than is held for them.  And a registered pool is paid: while the
    amounts fit a word and the token moves, [pendingPoolRewards] answers, its claim is
    accepted, transfers what was shown to within [n] base units and never more, and nothing
    is shown for it afterwards. *)
Theorem pools_are_paid t n s :
  manager_run t n s ->
  totalAllocPoint s = sum_by weight (pools s) /\
  totalPendingRewards s = sum_by pi_pendingRewards (pools s) /\
  0 <= undistributedRewards s /\ totalPendingRewards s + undistributedRewards s <= held s /\
  sum_by (shown (accRewardPerAllocStored s)) (pools s) <= held s - undistributedRewards s + n /\
  forall pool i p e, find_pool pool s = Ok (i, p) -> me_sender e = pool -> (forall x, me_transfer e t pool x = true) ->
    pi_allocPoint p * accRewardPerAllocStored s < 2 ^ 256 -> held s + n < 2 ^ 256 ->
    exists reward paid s' ev, pendingPoolRewards pool s = Ok reward /\
      claimPoolRewards t e pool s = Ok (s', ev) /\ held s' = held s - paid /\
      reward - n <= paid <= reward /\ pendingPoolRewards pool s' = Ok 0.
Proof.
  intros [Hn Hs]%manager_run_sound. pose proof Hs as [Hacc Hw Hp Hps Hu Hf Hc _ _].
  split; [done|]. split; [done|]. split; [done|].
  split; [unfold free in Hf; lia|]. split; [by apply sum_shown|]. intros pool i p e Hfind Hsend Htr Hword Hh.
  destruct (sound_find _ _ _ _ _ Hs Hfind) as [Hi _]. destruct (shown_bounds _ _ _ _ Hn Hs Hi) as [Hsh Hpaid].
  pose proof (Forall_lookup_1 _ _ _ _ Hps Hi) as Hok.
  destruct (claim_accepted _ _ _ _ _ _ _ Hs Hn Hfind Hsend Htr Hword ltac:(lia)) as (s' & ev & Hcl & Hs' & Hheld & Ha' & Hfind').
  exists (shown (accRewardPerAllocStored s) p), (pi_pendingRewards p + paid_now s p), s', ev.
  
  split; [apply (shows _ _ i _ n); try done; lia|]. split; [done|]. split; [done|]. split; [unfold shown; lia|].
  assert (Hzero : shown (accRewardPerAllocStored s') (emptied (settled_pool s p)) = 0)
    by (rewrite Ha'; apply shown_settled; [apply (po_alloc _ _ Hok)|done]).
  rewrite (shows _ _ _ _ _ Hs' Hfind'); [by rewrite Hzero|by rewrite Ha'|by rewrite Hzero].
Qed.

Lemma distribute_pulls e x s s' ev : distributeRewards e x s = Ok (s', ev) -> me_pull e (treasury s) x = Ok tt.
Proof. unfold distributeRewards, onlyOperatorOrOwner. intros H. router_inv H. by destruct x0. Qed.

(** The growth of what a pool is shown when the accumulated reward per weight grows by
    [D * PRECISION / T]. *)
Lemma growth acc p D T :
  pool_ok acc p -> 0 < T ->
  let g := shown (acc + D * PRECISION / T) p - shown acc p in
  (g - 1) * T < weight p * D /\ PRECISION * (weight p * D) < PRECISION * ((g + 1) * T) + weight p * T /\
  (weight p = 0 -> g = 0).
Proof.
  intros Hok HT g. pose proof PRECISION_pos as HP. pose proof (weight_nonneg _ _ Hok) as Hw.
  assert (Hd : (D * PRECISION / T) * T <= D * PRECISION < (D * PRECISION / T) * T + T).
  { pose proof (Z.div_mod (D * PRECISION) T ltac:(lia)). pose proof (Z.mod_pos_bound (D * PRECISION) T HT). lia. }
  set (d := D * PRECISION / T) in *. set (w := weight p) in *.
  assert (Hg : g = (owed acc p + d * w) / PRECISION - owed acc p / PRECISION)
    by (unfold g, shown; rewrite (owed_grown _ _ _ Hok); fold w; lia).
  clearbody g. subst g. set (o := owed acc p). clearbody o.
  pose proof (Z.div_mod o PRECISION ltac:(lia)). pose proof (Z.mod_pos_bound o PRECISION HP).
  pose proof (Z.div_mod (o + d * w) PRECISION ltac:(lia)). pose proof (Z.mod_pos_bound (o + d * w) PRECISION HP).
  set (q0 := o / PRECISION) in *. set (q1 := (o + d * w) / PRECISION) in *. clearbody q0 q1 d w.
  assert (Hl : PRECISION * (q1 - q0) < d * w + PRECISION) by lia.
  assert (Hu : d * w < PRECISION * (q1 - q0) + PRECISION) by lia.
  repeat split.
  - assert (PRECISION * ((q1 - q0 - 1) * T) < PRECISION * (w * D)); [|nia].
    assert (d * w * T <= D * PRECISION * w) by nia. nia.
  - assert (PRECISION * (w * D) <= d * w * T + w * T) by nia. nia.
  - intros ->. rewrite Z.mul_0_r in *. nia.
Qed.

(** What is credited and what is left over make up what was distributed; less than a base unit
    more than [T / PRECISION] is left over. *)
Lemma left_over D T :
  0 <= D -> 0 < T ->
  let credited := D * PRECISION / T * T / PRECISION in
  0 <= D - credited /\ PRECISION * (D - credited) < T + PRECISION.
Proof.
  intros HD HT credited. pose proof PRECISION_pos as HP. unfold credited.
  pose proof (Z.div_mod (D * PRECISION) T ltac:(lia)) as H1. pose proof (Z.mod_pos_bound (D * PRECISION) T HT) as H2.
  set (d := D * PRECISION / T) in *. set (r := (D * PRECISION) mod T) in *. clearbody d r.
  pose proof (Z.div_mod (d * T) PRECISION ltac:(lia)) as H3. pose proof (Z.mod_pos_bound (d * T) PRECISION HP) as H4.
  set (c := d * T / PRECISION) in *. clearbody c. split; nia.
Qed.

(** What a distribution credits to the pools, together and each rounded down, is no more than
    what it takes from the amount distributed, and a base unit for each pool. *)
Lemma credited_together n s delta :
  sound n s -> 0 <= delta ->
  let grown p := shown (accRewardPerAllocStored s + delta) p - shown (accRewardPerAllocStored s) p in
  sum_by grown (pools s) <= delta * totalAllocPoint s / PRECISION + Z.of_nat (length (pools s)).
Proof.
  intros Hs Hd grown. pose proof PRECISION_pos as HP. rewrite (so_weights _ _ Hs).
  assert (PRECISION * sum_by grown (pools s) <= delta * sum_by weight (pools s) + (PRECISION - 1) * Z.of_nat (length (pools s))) as H.
  { unfold grown. induction (so_pools _ _ Hs) as [|p l Hp _ IH]; cbn [sum_by length]; [lia|].
    assert (PRECISION * (shown (accRewardPerAllocStored s + delta) p - shown (accRewardPerAllocStored s) p)
            <= delta * weight p + (PRECISION - 1)) as Hone; [|lia].
    unfold shown. rewrite (owed_grown _ _ _ Hp). set (o := owed _ p). clearbody o. set (x := delta * weight p). clearbody x.
    pose proof (Z.div_mod o PRECISION ltac:(lia)). pose proof (Z.mod_pos_bound o PRECISION HP).
    pose proof (Z.div_mod (o + x) PRECISION ltac:(lia)). pose proof (Z.mod_pos_bound (o + x) PRECISION HP). lia. }
  set (w := delta * sum_by weight (pools s)) in *. clearbody w.
  pose proof (Z.div_mod w PRECISION ltac:(lia)). pose proof (Z.mod_pos_bound w PRECISION HP).
  set (k := Z.of_nat (length (pools s))) in *. assert (0 <= k) by (unfold k; lia). clearbody k. nia.
Qed.

(** C19.  An accepted distribution is shared by weight.  With [D] the amount distributed and
    what earlier ones left over, and [T] the total weight, the reward shown for each pool
    grows by [g] with [(g - 1) * T < weight * D], that is by less than a base unit more than
    its part [weight * D / T], and with [weight * D < (g + 1) * T + weight * T / PRECISION],
    that is by less than [1 + weight / PRECISION] base units less; an inactive pool's stays.
    The amount is pulled from the treasury.  What is kept for the next distribution is exactly
    [D] less what the rate credits to the total weight, [(D * PRECISION / T) * T / PRECISION]:
    not negative, and less than [1 + T / PRECISION] base units; so the pools together grow by
    at most what is not kept and a base unit each. *)
Theorem distribution_by_weight t n s e x s' ev :
  manager_run t n s -> distributeRewards e x s = Ok (s', ev) ->
  let D := x + undistributedRewards s in
  let T := totalAllocPoint s in
  let grown p := shown (accRewardPerAllocStored s') p - shown (accRewardPerAllocStored s) p in
  me_pull e (treasury s) x = Ok tt /\ held s' = held s + x /\ pools s' = pools s /\
  undistributedRewards s' = D - D * PRECISION / T * T / PRECISION /\
  0 <= undistributedRewards s' /\ PRECISION * undistributedRewards s' < T + PRECISION /\
  sum_by grown (pools s) <= D - undistributedRewards s' + Z.of_nat (length (pools s)) /\
  forall p, p ∈ pools s ->
    let g := grown p in
    (g - 1) * T < weight p * D /\ PRECISION * (weight p * D) < PRECISION * ((g + 1) * T) + weight p * T /\
    (weight p = 0 -> g = 0).
Proof.
  intros [Hn Hs]%manager_run_sound H D T grown. destruct (manager_distribute_Ok _ _ _ _ _ H) as (Hx & HT & _ & Hd & -> & _).
  pose proof (so_undistributed _ _ Hs) as Hu. fold D in Hd |- *. fold T in HT, Hd.
  destruct (left_over D T ltac:(unfold D; lia) HT) as [Hk0 Hk1].
  split; [by eapply distribute_pulls|]. split; [done|]. split; [done|]. split; [done|]. split; [exact Hk0|]. split; [exact Hk1|].
  split.
  - pose proof (credited_together n s (D * PRECISION / T) Hs ltac:(lia)) as Hc. cbn zeta in Hc. unfold grown.
    cbn [set_books accRewardPerAllocStored undistributedRewards]. fold D. fold T in Hc |- *. lia.
  - intros p Hp g. pose proof (proj1 (Forall_forall _ _) (so_pools _ _ Hs) _ Hp) as Hok. apply (growth _ _ _ _ Hok HT).
Qed.

(** ** A history *)

(** The manager of reward token 100, owner 1, treasury 2 and operator 3, after two pools of
    weights 1 and 2 were added and 10 units were distributed. *)
Definition sample_env (sender : address) : manager_env :=
  {| me_sender := sender; me_source_paused := fun _ => Some false; me_pull := fun _ _ => Ok tt;
     me_transfer := fun _ _ _ => true |}.

Definition sample_calls : list (address * manager_call) :=
  [(1, AddPool 11 1 true); (1, AddPool 12 2 true); (3, DistributeRewards 10)].

Fixpoint play (t : address) (ks : list (address * manager_call)) (s : manager) : res string manager :=
  match ks with
  | [] => Ok s
  | (a, k) :: ks => let* r := exec_manager t (sample_env a) k s in play t ks (fst r)
  end.

Definition sample_books : manager :=
  match (let* s := deploy 1 2 3 100 in play 100 sample_calls s) with
  | Ok s => s
  | Throw _ => {| owner := 0; treasury := 0; operator := 0; poolFactory := 0; paused := true; roles := ∅; totalAllocPoint := 0;
                  accRewardPerAllocStored := 0; totalPendingRewards := 0; undistributedRewards := 0; pools := [];
                  poolExists := ∅; poolPidPlusOne := ∅; held := 0 |}
  end.

Lemma play_runs t ks s s' n :
  manager_run t n s -> Forall (fun k => words (snd k)) ks -> play t ks s = Ok s' ->
  manager_run t (n + Z.of_nat (length ks)) s'.
Proof.
  intros Hs Hw. revert n s Hs. induction Hw as [|[a k] ks Hk _ IH]; intros n s Hs H.
  - injection H as <-. by rewrite Z.add_0_r.
  - cbn [play] in H. apply res_bind_Ok in H as ([s1 ev] & H1 & H).
    replace (n + Z.of_nat (length ((a, k) :: ks))) with (n + 1 + Z.of_nat (length ks)) by (cbn [length]; lia).
    eapply IH; [by eapply run_call|exact H].
Qed.

Lemma manager_sample_run : manager_run 100 3 sample_books.
Proof.
  destruct (deploy 1 2 3 100) as [s0|] eqn:E; [|discriminate E].
  apply (play_runs 100 sample_calls s0 sample_books 0).
  - by eapply run_deployed.
  - repeat constructor; done.
  - unfold sample_books. rewrite E. injection E as <-. vm_compute. reflexivity.
Qed.

Lemma pools_are_paid_witness :
  (let* s := deploy 1 2 3 100 in play 100 sample_calls s) = Ok sample_books /\
  pendingPoolRewards 11 sample_books = Ok 3 /\ pendingPoolRewards 12 sample_books = Ok 6 /\
  held sample_books = 10 /\ undistributedRewards sample_books = 1 /\
  exists reward paid s' ev, pendingPoolRewards 12 sample_books = Ok reward /\
    claimPoolRewards 100 (sample_env 12) 12 sample_books = Ok (s', ev) /\ held s' = held sample_books - paid /\
    reward - 3 <= paid <= reward /\ pendingPoolRewards 12 s' = Ok 0.
Proof.
  split; [vm_compute; reflexivity|]. split; [vm_compute; reflexivity|]. split; [vm_compute; reflexivity|].
  split; [vm_compute; reflexivity|]. split; [vm_compute; reflexivity|].
  destruct (find_pool 12 sample_books) as [[i p]|] eqn:E; [|vm_compute in E; discriminate E].
  eapply (proj2 (proj2 (proj2 (proj2 (proj2 (pools_are_paid _ _ _ manager_sample_run))))) 12 i p);
    [exact E|reflexivity|reflexivity| |vm_compute; reflexivity].
  vm_compute in E. injection E as <- <-. vm_compute. reflexivity.
Defined.

Lemma distribution_by_weight_witness :
  exists s' ev, distributeRewards (sample_env 3) 20 sample_books = Ok (s', ev) /\ held s' = 30 /\
    0 <= undistributedRewards s' /\
    forall p, p ∈ pools sample_books ->
      weight p * 21 * PRECISION < (shown (accRewardPerAllocStored s') p - shown (accRewardPerAllocStored sample_books) p + 1) * 3 * PRECISION + weight p * 3.
Proof.
  destruct (distributeRewards (sample_env 3) 20 sample_books) as [[s' ev]|] eqn:E; [|vm_compute in E; discriminate E].
  exists s', ev. split; [done|].
  destruct (distribution_by_weight _ _ _ _ _ _ _ manager_sample_run E) as (_ & H & _ & _ & H0 & _ & _ & Hp).
  split; [by rewrite H|]. split; [done|]. intros p Hin. destruct (Hp p Hin) as (_ & H2 & _).
  change (undistributedRewards sample_books) with 1 in H2. change (totalAllocPoint sample_books) with 3 in H2. lia.
Defined.
