(* ===== verification/AdminConfig.v ===== *)
(** * Configuration of the administration client (admin-frontend/src/config)

    The contracts of the chain of the build (contracts.ts) and the tokens an administrator can
    pick (tokens.ts).  The environment variables and the generated table of addresses are
    parameters. *)

From S2P Require Import Prelude JsString JsNumber JsValue JsError FrontendConfig.
From S2P Require TreasuryForms.
Import TreasuryForms(AdminTokenOption, Build_AdminTokenOption, tk_symbol, tk_name, tk_decimals, tk_address).
Open Scope string_scope.
Open Scope Z_scope.
Open Scope flux_scope.

Section config.
Variable env : string -> option string.
Variable generatedContractAddressesByChain : Z -> option FluxContractAddressMap.

Definition admin_configuredChainId : num :=
  num_of_string (match trim <$> env "NEXT_PUBLIC_CHAIN_ID" with
                 | Some s => if str_nonempty s then s else dec hardhat_id
                 | None => dec hardhat_id
                 end).

(** Evaluated when the module loads. *)
Definition resolveConfiguredChainId : res js_error Z :=
  if num_eqb admin_configuredChainId (num_of_Z hardhat_id) then Ok hardhat_id
  else if num_eqb admin_configuredChainId (num_of_Z sepolia_id) then Ok sepolia_id
  else Throw (Error ("Unsupported NEXT_PUBLIC_CHAIN_ID: " ++ num_to_string admin_configuredChainId)).

Definition admin_compactAddressMap (addressMap : list (string * option string)) : FluxContractAddressMap :=
  list_to_map (omap (fun entry =>
    match snd entry with
    | Some a => if starts_with a "0x" then Some (fst entry, a) else None
    | None => None
    end) addressMap).

Definition admin_contract_variables : list (string * string) :=
  [("FluxBuybackExecutor", "NEXT_PUBLIC_FLUX_BUYBACK_EXECUTOR");
   ("FluxMultiPoolManager", "NEXT_PUBLIC_FLUX_MULTI_POOL_MANAGER");
   ("FluxPoolFactory", "NEXT_PUBLIC_FLUX_POOL_FACTORY");
   ("FluxRevenueDistributor", "NEXT_PUBLIC_FLUX_REVENUE_DISTRIBUTOR");
   ("FluxSignedOrderSettlement", "NEXT_PUBLIC_FLUX_SIGNED_ORDER_SETTLEMENT");
   ("FluxSwapFactory", "NEXT_PUBLIC_FLUX_SWAP_FACTORY");
   ("FluxSwapRouter", "NEXT_PUBLIC_FLUX_SWAP_ROUTER");
   ("FluxSwapTreasury", "NEXT_PUBLIC_FLUX_SWAP_TREASURY");
   ("FluxToken", "NEXT_PUBLIC_FLUX_TOKEN");
   ("MockUSDT", "NEXT_PUBLIC_USDT");
   ("MockUSDC", "NEXT_PUBLIC_USDC");
   ("MockWBTC", "NEXT_PUBLIC_WBTC");
   ("MockWETH", "NEXT_PUBLIC_WETH")].

Definition admin_configuredContracts : FluxContractAddressMap :=
  admin_compactAddressMap ((fun e => (fst e, env (snd e))) <$> admin_contract_variables).

Definition requiredProtocolContracts : list string :=
  ["FluxBuybackExecutor"; "FluxMultiPoolManager"; "MockUSDC"; "MockUSDT"; "MockWBTC"; "FluxPoolFactory";
   "FluxRevenueDistributor"; "FluxSignedOrderSettlement"; "FluxSwapFactory"; "FluxSwapRouter"; "FluxSwapTreasury";
   "FluxToken"; "MockWETH"].

(** The chain the build resolved to. *)
Variable admin_fluxChainId : Z.

Definition admin_getContractsForChain (chainId : option Z) : FluxContractAddressMap :=
  match chainId with
  | Some c =>
    if negb (c =? admin_fluxChainId) then ∅
    else if admin_fluxChainId =? hardhat_id
    then default ∅ (generatedContractAddressesByChain hardhat_id)
    else admin_configuredContracts
  | None => ∅
  end.

Definition admin_getContractAddress (contractName : string) (chainId : option Z) : option string :=
  admin_getContractsForChain chainId !! contractName.

Definition admin_isFluxSupportedChain (chainId : option Z) : bool :=
  let contracts := admin_getContractsForChain chainId in
  forallb (fun contractName => bool_decide (is_Some (contracts !! contractName))) requiredProtocolContracts.

Definition admin_getLocalGasOverride (chainId : option Z) (gas : Z) : option Z :=
  if bool_decide (chainId = Some hardhat_id) then Some gas else None.
End config.

(** ** tokens.ts *)

(** The entries with the contract each one resolves. *)
Definition admin_tokenRegistry : list (string * string * Z * string) :=
  [("FLUX", "Flux Token", 18, "FluxToken");
   ("USDT", "Tether USD", 6, "MockUSDT");
   ("USDC", "USD Coin", 6, "MockUSDC");
   ("WBTC", "Wrapped Bitcoin", 8, "MockWBTC");
   ("WETH", "Wrapped Ether", 18, "MockWETH")].

(** [contract] is [getContractAddress] on the chain. *)
Definition getAdminTokenOptions (contract : string -> option string) : list AdminTokenOption :=
  omap (fun token =>
    let '(symbol, name, decimals, contractName) := token in
    match contract contractName with
    | Some address =>
      if str_nonempty address
      then Some {| tk_symbol := symbol; tk_name := name; tk_decimals := decimals; tk_address := address |}
      else None
    | None => None
    end) admin_tokenRegistry.
