(* ===== verification/FarmAdmin.v ===== *)
(** * The farms of the administration page (admin-frontend/src/components/farm)

    Texts and weights (FarmUtils.ts), the snapshot read from the pool factory, the manager, its
    pools, the exchange's pairs and the treasury (Farm*Readers.ts), how a load changes the page
    (useFarmData.ts), and what is derived from it, with the reason that keeps the button that
    distributes rewards disabled (useFarmDerivedState.ts). *)

From S2P Require Import Prelude JsString JsNumber JsValue JsError Amounts PageMonad.
From S2P Require TreasuryForms Farms.
Import TreasuryForms(AdminTokenOption, Build_AdminTokenOption, tk_symbol, tk_decimals, tk_address).
Import Farms(reason, all_of, both, or_default, fulfilled, pids).
From Stdlib Require Import Ascii.
Open Scope string_scope.
Open Scope Z_scope.

(** ** FarmTypes.ts *)

Record TokenMeta := {
  tm_address : string;
  tm_label : string;
  tm_symbol : string;
  tm_decimals : Z;
  tm_isLp : bool;
}.

Record LpPairOption := {
  lo_address : string;
  lo_label : string;
  lo_token0Symbol : string;
  lo_token1Symbol : string;
  lo_alreadyFarmed : bool;
}.

Record SingleTokenOption := {
  so_meta :> TokenMeta;
  so_alreadyFarmed : bool;
}.

Record FarmRow := {
  fr_pid : Z;
  fr_poolAddress : string;
  fr_stakingToken : TokenMeta;
  fr_rewardToken : TokenMeta;
  fr_active : bool;
  fr_allocPoint : Z;
  fr_rewardDebt : Z;
  fr_pendingRewards : Z;
  fr_managerPendingRewards : Z;
  fr_totalStaked : Z;
  fr_rewardReserve : Z;
  fr_queuedRewards : Z;
}.

Record pool_edit := { pe_allocPoint : string; pe_active : bool }.
Definition FarmPoolEdits : Type := gmap Z pool_edit.

Record TreasuryStatus := {
  ts_paused : bool;
  ts_rewardBalance : Z;
  ts_approvedSpendRemaining : Z;
  ts_dailySpendCap : Z;
  ts_spentToday : Z;
  ts_multisig : string;
  ts_operator : string;
}.

Record AdminInfo := {
  ai_factoryOwner : string;
  ai_managerOwner : string;
  ai_managerOperator : string;
  ai_treasury : string;
  ai_rewardToken : TokenMeta;
  ai_totalAllocPoint : Z;
  ai_totalPendingRewards : Z;
  ai_undistributedRewards : Z;
  ai_poolLength : Z;
  ai_activePoolCount : Z;
  ai_treasuryStatus : option TreasuryStatus;
  ai_treasuryStatusError : option string;
}.

(** ** FarmUtils.ts *)

Definition REWARD_PRECISION : Z := 10 ^ 18.
Definition MIN_ALLOC_POINT : Z := 1.
Definition MAX_ALLOC_POINT : Z := 1000000.
Definition MAX_ALLOC_POINT_INPUT_LENGTH : nat := String.length (dec MAX_ALLOC_POINT).

Definition shortAddress (address : option string) : string :=
  match address with
  | Some a =>
    if str_nonempty a
    then String.substring 0 6 a ++ "..." ++ String.substring (String.length a - 4) 4 a
    else "--"
  | None => "--"
  end.

Definition sameAddress (left right : option string) : bool :=
  match left, right with
  | Some l, Some r => str_nonempty l && str_nonempty r && String.eqb (to_lower l) (to_lower r)
  | _, _ => false
  end.

Definition normalizeSymbol (symbol tokenAddress : string) (wrappedNativeAddress : option string) : string :=
  if sameAddress (Some tokenAddress) wrappedNativeAddress then "ETH"
  else if str_nonempty symbol then symbol else "TOKEN".

Definition parseAllocPoint (value : string) (allowZero : bool) : option Z :=
  let normalized := strip "," (trim value) in
  if negb (str_nonempty normalized && all_chars is_digit normalized) then None
  else
    let allocPoint := dec_value normalized in
    let minAllocPoint := if allowZero then 0 else MIN_ALLOC_POINT in
    if (allocPoint <? minAllocPoint) || (MAX_ALLOC_POINT <? allocPoint) then None else Some allocPoint.

(** [value.replace(/\D/g, '')] *)
Fixpoint digits_of (value : string) : string :=
  match value with
  | EmptyString => EmptyString
  | String c r => if is_digit c then String c (digits_of r) else digits_of r
  end.
Definition sanitizeAllocPointInput (value : string) : string := take_chars MAX_ALLOC_POINT_INPUT_LENGTH (digits_of value).

Definition formatOptionalTokenAmount (formatUnits : Z -> Z -> string) (value : option Z) (token : option TokenMeta)
    (fractionDigits : nat) : string :=
  match value with
  | None => "--"
  | Some n => trim (admin_formatBigIntAmountDown formatUnits (Some n) (from_option tm_decimals 18 token) fractionDigits
                    ++ " " ++ from_option tm_symbol "" token)
  end.

(** ** Reading the chain *)

(** Where a load reads: the counters, the reward token, the pools and the pairs by their index,
    the treasury; a token as a pair, by its symbols, or as a plain token. *)
Inductive load_phase := phase_counters | phase_reward | phase_pool (pid : Z) | phase_pair (index : Z) | phase_treasury.
Inductive load_step := step_state | step_numbers | step_as_pair (token : string) | step_symbols (token : string) | step_as_token (token : string).
Record load_site := { ls_phase : load_phase; ls_step : load_step }.

(** What the node answers to [readContract], by the type of the function's result; which of
    several rejections comes first is its choice. *)
Record admin_node := {
  an_uint : load_site -> string -> string -> list abi_arg -> res js_error Z;
  an_address : load_site -> string -> string -> list abi_arg -> res js_error string;
  an_text : load_site -> string -> string -> list abi_arg -> res js_error string;
  an_flag : load_site -> string -> string -> list abi_arg -> res js_error bool;
  an_entry : load_site -> string -> string -> list abi_arg -> res js_error (string * Z * bool * Z * Z);
  an_first : load_site -> list js_error -> js_error;
}.

Record FarmAdminSnapshot := {
  sn_adminInfo : AdminInfo;
  sn_farms : list FarmRow;
  sn_lpPairOptions : list LpPairOption;
  sn_singleTokenOptions : list SingleTokenOption;
}.

Section readers.
Variable nd : admin_node.
Variable managerAddress factoryAddress : string.
Variable swapFactoryAddress wrappedNativeAddress : option string.

Definition at_site (phase : load_phase) (step : load_step) : load_site := {| ls_phase := phase; ls_step := step |}.

(** The token read as a pair of two tokens. *)
Definition read_as_pair (phase : load_phase) (tokenAddress : string) : res js_error TokenMeta :=
  let site := at_site phase (step_as_pair tokenAddress) in
  let first := an_first nd site in
  res_bind (both first (both first (an_address nd site tokenAddress "token0" []) (an_address nd site tokenAddress "token1" []))
              (an_uint nd site tokenAddress "decimals" [])) (fun pair =>
  let '(token0, token1, decimals) := pair in
  let site := at_site phase (step_symbols tokenAddress) in
  res_bind (both (an_first nd site) (an_text nd site token0 "symbol" []) (an_text nd site token1 "symbol" [])) (fun symbols =>
  let normalizedToken0 := normalizeSymbol (fst symbols) token0 wrappedNativeAddress in
  let normalizedToken1 := normalizeSymbol (snd symbols) token1 wrappedNativeAddress in
  Ok {| tm_address := tokenAddress; tm_label := normalizedToken0 ++ " / " ++ normalizedToken1;
        tm_symbol := normalizedToken0 ++ "-" ++ normalizedToken1 ++ " LP"; tm_decimals := decimals; tm_isLp := true |})).

Definition read_as_token (phase : load_phase) (tokenAddress : string) : TokenMeta :=
  let site := at_site phase (step_as_token tokenAddress) in
  let symbol :=
    match fulfilled (an_text nd site tokenAddress "symbol" []) with
    | Some s => normalizeSymbol s tokenAddress wrappedNativeAddress
    | None => "TOKEN"
    end in
  {| tm_address := tokenAddress; tm_label := symbol; tm_symbol := symbol;
     tm_decimals := or_default 18 (an_uint nd site tokenAddress "decimals" []); tm_isLp := false |}.

Definition readFarmTokenMeta (phase : load_phase) (tokenAddress : string) : TokenMeta :=
  match read_as_pair phase tokenAddress with
  | Ok meta => meta
  | Throw _ => read_as_token phase tokenAddress
  end.

Definition getFallbackTokenMeta (tokenAddress : string) : TokenMeta :=
  {| tm_address := tokenAddress; tm_label := shortAddress (Some tokenAddress); tm_symbol := "TOKEN"; tm_decimals := 18;
     tm_isLp := false |}.

(** The numbers of a pool, in the order in which they are asked for. *)
Definition pool_numbers (pid : Z) (poolAddress : string) : res js_error (string * string * (Z * Z) * (Z * Z)) :=
  let site := at_site (phase_pool pid) step_numbers in
  let first := an_first nd site in
  both first
    (both first
       (both first (an_address nd site poolAddress "stakingToken" []) (an_address nd site poolAddress "rewardsToken" []))
       (both first (an_uint nd site poolAddress "totalStaked" []) (an_uint nd site poolAddress "rewardReserve" [])))
    (both first (an_uint nd site poolAddress "queuedRewards" [])
       (an_uint nd site managerAddress "pendingPoolRewards" [ArgAddress poolAddress])).

Definition read_farm_row (pid : Z) : res js_error FarmRow :=
  res_bind (an_entry nd (at_site (phase_pool pid) step_state) managerAddress "pools" [ArgUint pid]) (fun poolData =>
  let '(poolAddress, allocPoint, active, rewardDebt, pendingRewards) := poolData in
  res_bind (pool_numbers pid poolAddress) (fun numbers =>
  let '(stakingToken, rewardsToken, (totalStaked, rewardReserve), (queuedRewards, managerPendingRewards)) := numbers in
  Ok {| fr_pid := pid; fr_poolAddress := poolAddress;
        fr_stakingToken := readFarmTokenMeta (phase_pool pid) stakingToken;
        fr_rewardToken := readFarmTokenMeta (phase_pool pid) rewardsToken;
        fr_active := active; fr_allocPoint := allocPoint; fr_rewardDebt := rewardDebt; fr_pendingRewards := pendingRewards;
        fr_managerPendingRewards := managerPendingRewards; fr_totalStaked := totalStaked; fr_rewardReserve := rewardReserve;
        fr_queuedRewards := queuedRewards |})).

Definition readFarmRows (poolCount : Z) : res js_error (list FarmRow) :=
  all_of (an_first nd (at_site phase_counters step_numbers)) (read_farm_row <$> pids poolCount).

(** The text before the first separator [" / "], and what follows it. *)
Fixpoint cut_label (s : string) : option (string * string) :=
  match s with
  | String " " (String "/" (String " " r)) => Some ("", r)
  | String c r => match cut_label r with Some (a, b) => Some (String c a, b) | None => None end
  | EmptyString => None
  end.
(** The first two parts of [label.split(' / ')], or the token's own symbol. *)
Definition pair_symbols (meta : TokenMeta) : string * string :=
  match cut_label (tm_label meta) with
  | Some (token0Symbol, rest) =>
    (token0Symbol, match cut_label rest with Some (token1Symbol, _) => token1Symbol | None => rest end)
  | None => (tm_symbol meta, "LP")
  end.

Definition read_pair_option (swapFactory : string) (existingStakingTokens : gset string) (index : Z) : res js_error LpPairOption :=
  res_bind (an_address nd (at_site (phase_pair index) step_state) swapFactory "allPairs" [ArgUint index]) (fun pairAddress =>
  let pairMeta := readFarmTokenMeta (phase_pair index) pairAddress in
  Ok {| lo_address := pairAddress; lo_label := tm_label pairMeta; lo_token0Symbol := fst (pair_symbols pairMeta);
        lo_token1Symbol := snd (pair_symbols pairMeta);
        lo_alreadyFarmed := bool_decide (to_lower pairAddress ∈ existingStakingTokens) |}).

Definition readLpPairOptions (existingStakingTokens : gset string) : res js_error (list LpPairOption) :=
  match swapFactoryAddress with
  | None => Ok []
  | Some swapFactory =>
    if negb (str_nonempty swapFactory) then Ok []
    else
      let site := at_site phase_counters (step_as_token swapFactory) in
      res_bind (an_uint nd site swapFactory "allPairsLength" []) (fun pairCount =>
      all_of (an_first nd site) (read_pair_option swapFactory existingStakingTokens <$> pids pairCount))
  end.

(** [Promise.allSettled]: nothing when one of the reads is rejected. *)
Definition readFarmTreasuryStatus (rewardToken treasury : string) : option TreasuryStatus :=
  let site := at_site phase_treasury step_state in
  match fulfilled (an_uint nd site rewardToken "balanceOf" [ArgAddress treasury]),
        fulfilled (an_uint nd site treasury "approvedSpendRemaining" [ArgAddress rewardToken; ArgAddress managerAddress]),
        fulfilled (an_uint nd site treasury "dailySpendCap" [ArgAddress rewardToken]),
        fulfilled (an_uint nd site treasury "spentToday" [ArgAddress rewardToken]),
        fulfilled (an_flag nd site treasury "paused" []),
        fulfilled (an_address nd site treasury "multisig" []),
        fulfilled (an_address nd site treasury "operator" []) with
  | Some balance, Some approved, Some cap, Some spent, Some paused, Some multisig, Some operator =>
    Some {| ts_paused := paused; ts_rewardBalance := balance; ts_approvedSpendRemaining := approved;
            ts_dailySpendCap := cap; ts_spentToday := spent; ts_multisig := multisig; ts_operator := operator |}
  | _, _, _, _, _, _, _ => None
  end.

Definition stakes_of (farms : list FarmRow) : gset string :=
  list_to_set ((fun farm => to_lower (tm_address (fr_stakingToken farm))) <$> farms).

Definition single_option (existingStakingTokens : gset string) (token : AdminTokenOption) : SingleTokenOption :=
  {| so_meta := {| tm_address := tk_address token; tm_label := tk_symbol token; tm_symbol := tk_symbol token;
                   tm_decimals := tk_decimals token; tm_isLp := false |};
     so_alreadyFarmed := bool_decide (to_lower (tk_address token) ∈ existingStakingTokens) |}.

(** The nine reads the snapshot starts with, in their order. *)
Definition read_counters : res js_error (string * string * (string * string) * (string * Z) * (Z * Z * Z)) :=
  let site := at_site phase_counters step_state in
  let first := an_first nd site in
  let manager_text name := an_address nd site managerAddress name [] in
  let manager_uint name := an_uint nd site managerAddress name [] in
  both first
    (both first
       (both first (both first (an_address nd site factoryAddress "owner" []) (manager_text "owner"))
          (both first (manager_text "operator") (manager_text "treasury")))
       (both first (manager_text "rewardToken") (manager_uint "totalAllocPoint")))
    (both first (both first (manager_uint "totalPendingRewards") (manager_uint "undistributedRewards"))
       (manager_uint "poolLength")).

Definition weighted (farm : FarmRow) : bool := fr_active farm && (0 <? fr_allocPoint farm).

Definition readFarmAdminSnapshot (configuredSingleTokens : list AdminTokenOption) : res js_error FarmAdminSnapshot :=
  res_bind read_counters (fun counters =>
  let '(factoryOwner, managerOwner, (managerOperator, treasury), (rewardToken, totalAllocPoint),
        (totalPendingRewards, undistributedRewards, poolLength)) := counters in
  let rewardTokenMeta := readFarmTokenMeta phase_reward rewardToken in
  res_bind (readFarmRows poolLength) (fun farms =>
  let existingStakingTokens := stakes_of farms in
  res_bind (readLpPairOptions existingStakingTokens) (fun lpPairOptions =>
  let treasuryStatus := readFarmTreasuryStatus rewardToken treasury in
  Ok {| sn_adminInfo :=
          {| ai_factoryOwner := factoryOwner; ai_managerOwner := managerOwner; ai_managerOperator := managerOperator;
             ai_treasury := treasury; ai_rewardToken := rewardTokenMeta; ai_totalAllocPoint := totalAllocPoint;
             ai_totalPendingRewards := totalPendingRewards; ai_undistributedRewards := undistributedRewards;
             ai_poolLength := poolLength; ai_activePoolCount := Z.of_nat (length (keep weighted farms));
             ai_treasuryStatus := treasuryStatus;
             ai_treasuryStatusError :=
               match treasuryStatus with
               | Some _ => None
               | None => Some "金库状态读取失败，请检查金库合约或 RPC 状态。"
               end |};
        sn_farms := farms; sn_lpPairOptions := lpPairOptions;
        sn_singleTokenOptions := single_option existingStakingTokens <$> configuredSingleTokens |}))).
End readers.

(** ** useFarmData.ts *)

Record farm_data := {
  fd_adminInfo : option AdminInfo;
  fd_farms : list FarmRow;
  fd_lpPairOptions : list LpPairOption;
  fd_singleTokenOptions : list SingleTokenOption;
  fd_loading : bool;
  fd_error : option string;
  fd_lastUpdatedAt : option num;
}.

Definition no_farm_data : farm_data :=
  {| fd_adminInfo := None; fd_farms := []; fd_lpPairOptions := []; fd_singleTokenOptions := []; fd_loading := false;
     fd_error := None; fd_lastUpdatedAt := None |}.

(** What cannot load leaves the options of the forms as they are. *)
Definition cannot_load (supportedChain : bool) (d : farm_data) : farm_data :=
  {| fd_adminInfo := None; fd_farms := []; fd_lpPairOptions := fd_lpPairOptions d;
     fd_singleTokenOptions := fd_singleTokenOptions d; fd_loading := false;
     fd_error := Some (if supportedChain then "当前网络缺少农场管理合约配置，请检查部署和前端配置。"
                       else "当前网络还未接入 FluxSwap 管理端。");
     fd_lastUpdatedAt := fd_lastUpdatedAt d |}.

Definition load_starts (background : bool) (d : farm_data) : farm_data :=
  {| fd_adminInfo := fd_adminInfo d; fd_farms := fd_farms d; fd_lpPairOptions := fd_lpPairOptions d;
     fd_singleTokenOptions := fd_singleTokenOptions d; fd_loading := negb background || fd_loading d; fd_error := None;
     fd_lastUpdatedAt := fd_lastUpdatedAt d |}.

(** The reply of a load; an error is shown as [message] says. *)
Definition load_settles (message : js_error -> string) (now : num) (reply : res js_error FarmAdminSnapshot) (d : farm_data)
  : farm_data :=
  match reply with
  | Ok snapshot =>
    {| fd_adminInfo := Some (sn_adminInfo snapshot); fd_farms := sn_farms snapshot;
       fd_lpPairOptions := sn_lpPairOptions snapshot; fd_singleTokenOptions := sn_singleTokenOptions snapshot;
       fd_loading := false; fd_error := fd_error d; fd_lastUpdatedAt := Some now |}
  | Throw error =>
    {| fd_adminInfo := fd_adminInfo d; fd_farms := fd_farms d; fd_lpPairOptions := fd_lpPairOptions d;
       fd_singleTokenOptions := fd_singleTokenOptions d; fd_loading := false; fd_error := Some (message error);
       fd_lastUpdatedAt := fd_lastUpdatedAt d |}
  end.

(** The address a form keeps or picks, over the addresses offered and whether each is farmed. *)
Definition pick_address (manualMode : bool) (options : list (string * bool)) (current : string) : string :=
  if str_nonempty current
     && (manualMode || existsb (fun option => sameAddress (Some (fst option)) (Some current)) options)
  then current
  else match find_first (fun option => negb (snd option)) options with
  | Some option => fst option
  | None => match options with option :: _ => fst option | [] => "" end
  end.

Definition syncSelectedLpToken (lpManualMode : bool) (lpPairOptions : list LpPairOption) (current : string) : string :=
  pick_address lpManualMode ((fun o => (lo_address o, lo_alreadyFarmed o)) <$> lpPairOptions) current.
Definition syncSelectedSingleToken (singleManualMode : bool) (singleTokenOptions : list SingleTokenOption) (current : string)
  : string :=
  pick_address singleManualMode ((fun o : SingleTokenOption => (tm_address o, so_alreadyFarmed o)) <$> singleTokenOptions) current.

Definition edit_of (farm : FarmRow) : pool_edit := {| pe_allocPoint := dec (fr_allocPoint farm); pe_active := fr_active farm |}.

Definition syncPoolEdits (farms : list FarmRow) (current : FarmPoolEdits) : FarmPoolEdits :=
  foldl (fun next farm =>
    match next !! fr_pid farm with Some _ => next | None => <[fr_pid farm := edit_of farm]> next end) current farms.

(** ** useFarmDerivedState.ts *)

Section derived.
Variable address : option string.
Variable adminInfo : option AdminInfo.
Variable farms : list FarmRow.
Variable mounted isConnected : bool.
Variable managerAddress factoryAddress : option string.
Variable parsedRewardAmount : option Z.

Definition isFactoryOwner : bool := sameAddress address (ai_factoryOwner <$> adminInfo).
Definition isManagerOwner : bool := sameAddress address (ai_managerOwner <$> adminInfo).
Definition isManagerOperator : bool := sameAddress address (ai_managerOperator <$> adminInfo).
Definition present (a : option string) : bool := from_option str_nonempty false a.
Definition canCreatePool : bool := mounted && isConnected && isFactoryOwner && present factoryAddress.
Definition canUpdatePool : bool := mounted && isConnected && isManagerOwner && present managerAddress.
Definition canDistribute : bool := mounted && isConnected && (isManagerOwner || isManagerOperator) && present managerAddress.

Definition activeFarmCount : nat := length (keep fr_active farms).
Definition empty_weighted (farm : FarmRow) : bool := weighted farm && (fr_totalStaked farm <=? 0).
Definition emptyWeightedFarms : list FarmRow := keep empty_weighted farms.

Definition dailySpendRemaining : option Z :=
  match adminInfo ≫= ai_treasuryStatus with
  | Some treasuryStatus =>
    if ts_dailySpendCap treasuryStatus <=? 0 then None
    else Some (if ts_spentToday treasuryStatus <? ts_dailySpendCap treasuryStatus
               then ts_dailySpendCap treasuryStatus - ts_spentToday treasuryStatus else 0)
  | None => None
  end.

Definition empty_farms_reason : string :=
  let count := length emptyWeightedFarms in
  let farmNames := join_with "、" ((fun farm => tm_label (fr_stakingToken farm)) <$> take 2 emptyWeightedFarms) in
  let suffix := if Nat.ltb 2 count then " 等 " ++ dec (Z.of_nat count) ++ " 个" else "" in
  "存在无人质押但仍有权重的农场：" ++ farmNames ++ suffix ++ "。请先停用或把权重调为 0，避免奖励进入空池。".

(** What the amount is refused for, once the treasury's status is known. *)
Definition amount_block_reason (info : AdminInfo) (status : TreasuryStatus) : option string :=
  match parsedRewardAmount with
  | None => Some "请输入大于 0 的奖励数量。"
  | Some amount =>
    if amount <=? 0 then Some "请输入大于 0 的奖励数量。"
    else if ts_rewardBalance status <? amount then Some "金库奖励代币余额不足。"
    else if ts_approvedSpendRemaining status <? amount then Some "金库授权给管理合约的可拉取额度不足。"
    else if from_option (fun remaining => remaining <? amount) false dailySpendRemaining then Some "本日金库支出剩余额度不足。"
    else if Z.quot ((amount + ai_undistributedRewards info) * REWARD_PRECISION) (ai_totalAllocPoint info) <=? 0
    then Some "本次奖励数量太小，按当前总权重分配后会被链上拒绝。"
    else None
  end.

Definition distributionBlockReason : option string :=
  if negb mounted then Some "页面正在初始化。"
  else if negb isConnected then Some "请先连接钱包。"
  else if negb isManagerOwner && negb isManagerOperator then Some "当前钱包不是管理合约的所有者或操作员，不能分发奖励。"
  else match adminInfo with
  | Some info =>
    if negb (present managerAddress) then Some "奖励合约信息尚未加载完成。"
    else if (ai_totalAllocPoint info <=? 0) || (ai_activePoolCount info <=? 0) then Some "暂无可分发农场，请先创建并启用质押池。"
    else if Nat.ltb 0 (length emptyWeightedFarms) then Some empty_farms_reason
    else match ai_treasuryStatusError info, ai_treasuryStatus info with
    | None, Some status =>
      if ts_paused status then Some "金库当前处于暂停状态，暂时不能拉取奖励。" else amount_block_reason info status
    | error, _ => Some (default "金库状态尚未加载完成。" error)
    end
  | None => Some "奖励合约信息尚未加载完成。"
  end.

Definition canSubmitDistribution : bool :=
  canDistribute && match distributionBlockReason with None => true | Some _ => false end.

Definition filteredFarms (searchQuery : string) (activeOnly : bool) : list FarmRow :=
  let normalizedQuery := to_lower (trim searchQuery) in
  keep (fun farm =>
    if activeOnly && negb (fr_active farm) then false
    else if negb (str_nonempty normalizedQuery) then true
    else includes (to_lower (tm_label (fr_stakingToken farm))) normalizedQuery
         || includes (to_lower (fr_poolAddress farm)) normalizedQuery
         || includes (to_lower (tm_address (fr_stakingToken farm))) normalizedQuery) farms.
End derived.

(** *** What the loads leave behind *)

Lemma edits_kept farms current pid e : current !! pid = Some e -> syncPoolEdits farms current !! pid = Some e.
Proof.
  unfold syncPoolEdits, FarmPoolEdits in *. revert current. induction farms as [|farm farms IH]; intros current H; [done|]. cbn [foldl]. apply IH.
  destruct (current !! fr_pid farm) eqn:E; [done|]. rewrite lookup_insert_ne; [done|]. intros Heq. congruence.
Qed.

(** A row loaded again keeps the edit of the first load, whatever the pool has become since. *)
Lemma edits_are_kept farm farm' current :
  fr_pid farm' = fr_pid farm -> current !! fr_pid farm = None ->
  syncPoolEdits [farm'] (syncPoolEdits [farm] current) !! fr_pid farm' = Some (edit_of farm).
Proof.
  intros Hp Hn. apply edits_kept. rewrite Hp. cbn. rewrite Hn. unfold FarmPoolEdits. apply lookup_insert_eq.
Qed.

(** What is typed in a weight's field can be parsed once it is a number up to the maximum. *)
Lemma sanitized_digits v : all_chars is_digit (sanitizeAllocPointInput v) = true.
Proof.
  unfold sanitizeAllocPointInput. generalize MAX_ALLOC_POINT_INPUT_LENGTH. induction v as [|c v IH]; intros n; [by destruct n|].
  cbn [digits_of]. destruct (is_digit c) eqn:E; [|apply IH]. destruct n; [done|]. cbn. by rewrite E, IH.
Qed.
