(* ===== verification/FarmAdminActions.v ===== *)
(** * The handlers of the administration's farm page (admin-frontend/src/components/farm)

    The state of the page (useFarmPageState.ts), its environment (useFarmPageEnvironment.ts), the
    loads (useFarmData.ts), the runner of transactions (useFarmTransactionRunner.ts), the handlers
    that create pools, change them and distribute rewards (useFarm*Actions.ts), and the inputs and
    buttons of the cards and of the table that call them. *)

From S2P Require Import Prelude JsString JsNumber JsValue JsError Amounts PageMonad FrontendConfig AdminConfig WalletPage FarmAdmin.
From S2P Require SwapQuotes.
Import SwapQuotes(nonempty_text).
Open Scope string_scope.
Open Scope Z_scope.

(** ** State *)

Inductive result_kind := result_success | result_error.
Record ResultModalState := { rm_kind : result_kind; rm_title : string; rm_message : string }.

Inductive ActiveAction := create_lp | create_single | distribute | update_pool (pid : Z).
#[export] Instance ActiveAction_eq_dec : EqDecision ActiveAction.
Proof. solve_decision. Defined.

(** The form of a card that creates pools. *)
Record pool_form := {
  pf_manualMode : bool;
  pf_tokenAddress : string;
  pf_allocPoint : string;
  pf_active : bool;
}.

Record farm_page := {
  fp_mounted : bool;
  fp_searchQuery : string;
  fp_activeOnly : bool;
  fp_resultModal : option ResultModalState;
  fp_lp : pool_form;
  fp_single : pool_form;
  fp_rewardAmount : string;
  fp_poolEdits : FarmPoolEdits;
  fp_data : farm_data;
  fp_activeAction : option ActiveAction;
}.

Definition initial_form : pool_form :=
  {| pf_manualMode := false; pf_tokenAddress := ""; pf_allocPoint := "100"; pf_active := true |}.
Definition initial_farm_page : farm_page :=
  {| fp_mounted := false; fp_searchQuery := ""; fp_activeOnly := false; fp_resultModal := None; fp_lp := initial_form;
     fp_single := initial_form; fp_rewardAmount := ""; fp_poolEdits := ∅; fp_data := no_farm_data; fp_activeAction := None |}.

Section setters.
Variable p : farm_page.
Definition set_view (mounted : bool) (query : string) (activeOnly : bool) : farm_page :=
  {| fp_mounted := mounted; fp_searchQuery := query; fp_activeOnly := activeOnly; fp_resultModal := fp_resultModal p;
     fp_lp := fp_lp p; fp_single := fp_single p; fp_rewardAmount := fp_rewardAmount p; fp_poolEdits := fp_poolEdits p;
     fp_data := fp_data p; fp_activeAction := fp_activeAction p |}.
Definition set_result (modal : option ResultModalState) (active : option ActiveAction) : farm_page :=
  {| fp_mounted := fp_mounted p; fp_searchQuery := fp_searchQuery p; fp_activeOnly := fp_activeOnly p;
     fp_resultModal := modal; fp_lp := fp_lp p; fp_single := fp_single p; fp_rewardAmount := fp_rewardAmount p;
     fp_poolEdits := fp_poolEdits p; fp_data := fp_data p; fp_activeAction := active |}.
Definition set_inputs (lp single : pool_form) (rewardAmount : string) (edits : FarmPoolEdits) : farm_page :=
  {| fp_mounted := fp_mounted p; fp_searchQuery := fp_searchQuery p; fp_activeOnly := fp_activeOnly p;
     fp_resultModal := fp_resultModal p; fp_lp := lp; fp_single := single; fp_rewardAmount := rewardAmount;
     fp_poolEdits := edits; fp_data := fp_data p; fp_activeAction := fp_activeAction p |}.
Definition set_data (d : farm_data) : farm_page :=
  {| fp_mounted := fp_mounted p; fp_searchQuery := fp_searchQuery p; fp_activeOnly := fp_activeOnly p;
     fp_resultModal := fp_resultModal p; fp_lp := fp_lp p; fp_single := fp_single p; fp_rewardAmount := fp_rewardAmount p;
     fp_poolEdits := fp_poolEdits p; fp_data := d; fp_activeAction := fp_activeAction p |}.
End setters.

Definition setMounted (b : bool) (p : farm_page) : farm_page := set_view p b (fp_searchQuery p) (fp_activeOnly p).
Definition setSearchQuery (query : string) (p : farm_page) : farm_page := set_view p (fp_mounted p) query (fp_activeOnly p).
Definition setActiveOnly (b : bool) (p : farm_page) : farm_page := set_view p (fp_mounted p) (fp_searchQuery p) b.
Definition setResultModal (modal : option ResultModalState) (p : farm_page) : farm_page := set_result p modal (fp_activeAction p).
Definition setActiveAction (active : option ActiveAction) (p : farm_page) : farm_page := set_result p (fp_resultModal p) active.
Definition setPoolEdits (f : FarmPoolEdits -> FarmPoolEdits) (p : farm_page) : farm_page :=
  set_inputs p (fp_lp p) (fp_single p) (fp_rewardAmount p) (f (fp_poolEdits p)).
Definition on_data (f : farm_data -> farm_data) (p : farm_page) : farm_page := set_data p (f (fp_data p)).

(** Which of the two cards an input or a button is of. *)
Inductive pool_card := card_lp | card_single.
Definition form_of (c : pool_card) (p : farm_page) : pool_form := match c with card_lp => fp_lp p | card_single => fp_single p end.
Definition set_form (c : pool_card) (f : pool_form -> pool_form) (p : farm_page) : farm_page :=
  match c with
  | card_lp => set_inputs p (f (fp_lp p)) (fp_single p) (fp_rewardAmount p) (fp_poolEdits p)
  | card_single => set_inputs p (fp_lp p) (f (fp_single p)) (fp_rewardAmount p) (fp_poolEdits p)
  end.
Definition set_manual (b : bool) (f : pool_form) : pool_form :=
  {| pf_manualMode := b; pf_tokenAddress := pf_tokenAddress f; pf_allocPoint := pf_allocPoint f; pf_active := pf_active f |}.
Definition set_token (address : string) (f : pool_form) : pool_form :=
  {| pf_manualMode := pf_manualMode f; pf_tokenAddress := address; pf_allocPoint := pf_allocPoint f; pf_active := pf_active f |}.
Definition set_alloc (allocPoint : string) (f : pool_form) : pool_form :=
  {| pf_manualMode := pf_manualMode f; pf_tokenAddress := pf_tokenAddress f; pf_allocPoint := allocPoint; pf_active := pf_active f |}.
Definition set_active (b : bool) (f : pool_form) : pool_form :=
  {| pf_manualMode := pf_manualMode f; pf_tokenAddress := pf_tokenAddress f; pf_allocPoint := pf_allocPoint f; pf_active := b |}.

(** ** Environment and render *)

Record farm_hooks := {
  fh_chainId : Z;
  fh_publicClient : bool;
  fh_address : option string;
  fh_isConnected : bool;
  fh_openConnectModal : bool;
}.

(** viem, and the configuration of the build (AdminConfig.v). *)
Record admin_libraries := {
  al_formatUnits : Z -> Z -> string;
  al_parseUnits : string -> Z -> option Z;
  al_isAddress : string -> bool;
  al_contract : string -> option Z -> option string;
  al_supported : option Z -> bool;
}.

Section render.
Variable lib : admin_libraries.
Variable h : farm_hooks.
Variable p : farm_page.

Definition contract_of (name : string) : option string := al_contract lib name (Some (fh_chainId h)).
Definition supportedChain : bool := al_supported lib (Some (fh_chainId h)).
Definition managerAddress : option string := contract_of "FluxMultiPoolManager".
Definition factoryAddress : option string := contract_of "FluxPoolFactory".
Definition swapFactoryAddress : option string := contract_of "FluxSwapFactory".
Definition wrappedNativeAddress : option string := contract_of "MockWETH".
Definition localGasOverride : option Z := admin_getLocalGasOverride (Some (fh_chainId h)) 8000000.
Definition configuredSingleTokens : list TreasuryForms.AdminTokenOption := getAdminTokenOptions contract_of.

Definition adminInfo : option AdminInfo := fd_adminInfo (fp_data p).
Definition farms : list FarmRow := fd_farms (fp_data p).
Definition parsedRewardAmount : option Z :=
  match adminInfo with
  | Some info => admin_parseAmount (al_parseUnits lib) (fp_rewardAmount p) (tm_decimals (ai_rewardToken info))
  | None => None
  end.
Definition may_create : bool :=
  canCreatePool (fh_address h) adminInfo (fp_mounted p) (fh_isConnected h) factoryAddress.
Definition may_update : bool :=
  canUpdatePool (fh_address h) adminInfo (fp_mounted p) (fh_isConnected h) managerAddress.
Definition may_distribute : bool :=
  canDistribute (fh_address h) adminInfo (fp_mounted p) (fh_isConnected h) managerAddress.
Definition block_reason : option string :=
  distributionBlockReason (fh_address h) adminInfo farms (fp_mounted p) (fh_isConnected h) managerAddress parsedRewardAmount.
Definition may_submit : bool :=
  canSubmitDistribution (fh_address h) adminInfo farms (fp_mounted p) (fh_isConnected h) managerAddress parsedRewardAmount.

Definition is_busy (action : ActiveAction) : bool := bool_decide (fp_activeAction p = Some action).
Definition distributeButtonDisabled : bool := negb may_submit || is_busy distribute.
Definition updateButtonDisabled (farm : FarmRow) : bool := negb may_update || is_busy (update_pool (fr_pid farm)).
Definition createButtonDisabled (c : pool_card) : bool :=
  negb may_create || is_busy (match c with card_lp => create_lp | card_single => create_single end).

(** The rows of the table, and the edit a row shows. *)
Definition shown_farms : list FarmRow := filteredFarms farms (fp_searchQuery p) (fp_activeOnly p).
Definition shown_edit (farm : FarmRow) : pool_edit := default (edit_of farm) (fp_poolEdits p !! fr_pid farm).

(** *** Inputs *)

Definition type_pool_weight (farm : FarmRow) (value : string) : farm_page -> farm_page :=
  if negb may_update then id
  else setPoolEdits (insert (fr_pid farm)
         {| pe_allocPoint := sanitizeAllocPointInput value; pe_active := pe_active (shown_edit farm) |}).
Definition tick_pool_active (farm : FarmRow) (checked : bool) : farm_page -> farm_page :=
  if negb may_update then id
  else setPoolEdits (insert (fr_pid farm)
         {| pe_allocPoint := pe_allocPoint (shown_edit farm); pe_active := checked |}).
Definition type_reward (value : string) (q : farm_page) : farm_page :=
  if negb may_distribute then q else set_inputs q (fp_lp q) (fp_single q) value (fp_poolEdits q).
Definition toggle_manual (c : pool_card) : farm_page -> farm_page :=
  set_form c (fun f => set_manual (negb (pf_manualMode f)) f).
Definition pick_token (c : pool_card) (address : string) : farm_page -> farm_page :=
  if negb may_create then id else set_form c (set_token address).
Definition type_weight (c : pool_card) (value : string) : farm_page -> farm_page :=
  if negb may_create then id else set_form c (set_alloc (sanitizeAllocPointInput value)).
Definition tick_active (c : pool_card) (checked : bool) : farm_page -> farm_page :=
  if negb may_create then id else set_form c (set_active checked).

(** *** What the cards show *)

Definition rewardDecimals : Z := from_option (fun info => tm_decimals (ai_rewardToken info)) 18 adminInfo.
Definition rewardToken : option TokenMeta := ai_rewardToken <$> adminInfo.
Definition treasury_shown : option TreasuryStatus := adminInfo ≫= ai_treasuryStatus.
Definition shown_amount (value : option Z) : string := formatOptionalTokenAmount (al_formatUnits lib) value rewardToken 4.
Definition distribution_metrics : list (string * string) :=
  [("奖励代币", from_option tm_symbol "FLUX" rewardToken);
   ("待分发", admin_formatBigIntAmountDown (al_formatUnits lib) (ai_totalPendingRewards <$> adminInfo) rewardDecimals 4);
   ("启用农场", dec (from_option ai_activePoolCount 0 adminInfo) ++ " / " ++ dec (from_option ai_poolLength 0 adminInfo));
   ("金库余额", shown_amount (ts_rewardBalance <$> treasury_shown));
   ("已授权额度", shown_amount (ts_approvedSpendRemaining <$> treasury_shown));
   ("今日剩余额度", match dailySpendRemaining adminInfo with None => "未设置上限" | remaining => shown_amount remaining end);
   ("金库状态", match treasury_shown with Some status => if ts_paused status then "已暂停" else "正常" | None => "--" end);
   ("金库操作员", shortAddress (ts_operator <$> treasury_shown))].
Definition distribution_badge : string :=
  match block_reason with Some reason => "暂不可分发：" ++ reason | None => "可以分发" end.

Definition status_cards : list (string * string * string) :=
  let active := Z.of_nat (activeFarmCount farms) in
  let empty := length (emptyWeightedFarms farms) in
  [("总农场数", dec (from_option ai_poolLength 0 adminInfo), "当前已创建的全部质押池数量");
   ("启用中", dec active,
    match adminInfo with Some info => dec (ai_poolLength info - active) ++ " 个未启用" | None => "等待链上数据" end);
   ("总权重", from_option (fun info => dec (ai_totalAllocPoint info)) "0" adminInfo,
    if Nat.ltb 0 empty then dec (Z.of_nat empty) ++ " 个空质押池仍有权重" else "用于决定奖励分发比例");
   ("待分发奖励", admin_formatBigIntAmountDown (al_formatUnits lib) (ai_totalPendingRewards <$> adminInfo) rewardDecimals 4,
    from_option tm_symbol "FLUX" rewardToken)].

(** *** What a row of the table shows *)

Section row.
Variable farm : FarmRow.

(** [farm.rewardToken.decimals || adminInfo?.rewardToken?.decimals || 18] *)
Definition row_rewardDecimals : Z :=
  let own := tm_decimals (fr_rewardToken farm) in
  if negb (own =? 0) then own
  else match adminInfo with
  | Some info => if negb (tm_decimals (ai_rewardToken info) =? 0) then tm_decimals (ai_rewardToken info) else 18
  | None => 18
  end.
Definition hasEmptyWeightedRisk : bool := fr_active farm && (0 <? fr_allocPoint farm) && (fr_totalStaked farm <=? 0).

Definition row_amount (n decimals : Z) : string := admin_formatBigIntAmountDown (al_formatUnits lib) (Some n) decimals 4.
Definition row_reward (n : Z) : string := row_amount n row_rewardDecimals.
Definition row_name : string * string :=
  (tm_label (fr_stakingToken farm), "PID " ++ dec (fr_pid farm) ++ " / " ++ shortAddress (Some (fr_poolAddress farm))).
Definition row_weight (toLocaleString : num -> nat -> nat -> string) : string * string :=
  (dec (fr_allocPoint farm),
   "占比 " ++ formatWeight toLocaleString (fr_allocPoint farm) (from_option ai_totalAllocPoint 0 adminInfo)).
Definition row_staked : string * string * list string :=
  (row_amount (fr_totalStaked farm) (tm_decimals (fr_stakingToken farm)), tm_symbol (fr_stakingToken farm),
   if hasEmptyWeightedRisk then ["无人质押，建议先停用或权重设为 0"] else []).
Definition row_pending : string * string * list string :=
  (row_reward (fr_managerPendingRewards farm), tm_symbol (fr_rewardToken farm),
   app (if 0 <? fr_pendingRewards farm
        then ["已结转 " ++ row_reward (fr_pendingRewards farm) ++ " " ++ tm_symbol (fr_rewardToken farm)] else [])
       (if hasEmptyWeightedRisk && (0 <? fr_managerPendingRewards farm) then ["已有待同步奖励，需谨慎处理"] else [])).
Definition row_reserve : string * string * list string :=
  (row_reward (fr_rewardReserve farm), tm_symbol (fr_rewardToken farm),
   if 0 <? fr_queuedRewards farm
   then ["排队尾差 " ++ row_reward (fr_queuedRewards farm) ++ " " ++ tm_symbol (fr_rewardToken farm)] else []).
End row.

(** Instead of rows. *)
Definition table_placeholder : option string :=
  if fd_loading (fp_data p) && Nat.eqb (length farms) 0 then Some "正在加载农场数据"
  else match shown_farms with
  | [] => Some (if Nat.eqb (length farms) 0 then "当前还没有农场" else "没有符合条件的农场")
  | _ => None
  end.

(** The access panel: whether the wallet may do anything. *)
Definition hasPermission : bool :=
  isFactoryOwner (fh_address h) adminInfo || isManagerOwner (fh_address h) adminInfo || isManagerOperator (fh_address h) adminInfo.
Definition access_panel : list (string * string * string) :=
  let shown (f : AdminInfo -> string) := shortAddress (f <$> adminInfo) in
  let can (b : bool) (yes no : string) := if b then yes else no in
  [("工厂所有者", shown ai_factoryOwner, can (isFactoryOwner (fh_address h) adminInfo) "可创建质押池" "创建池需要此权限");
   ("管理合约所有者", shown ai_managerOwner, can (isManagerOwner (fh_address h) adminInfo) "可调整池权重/启停" "调整池需要此权限");
   ("管理合约操作员", shown ai_managerOperator, can (isManagerOperator (fh_address h) adminInfo) "可分发奖励" "分发奖励需要对应权限");
   ("金库", shown ai_treasury, "操作员：" ++ shortAddress (ts_operator <$> treasury_shown))].
Definition permission_label : string := if hasPermission then "当前钱包有管理权限" else "当前钱包暂无管理权限".
End render.

(** ** Loading and acting *)

Open Scope act_scope.

(** The wallet and the node as in WalletPage.v, the reads of a load and the clock as functions of
    the trace, and the message an error is shown with. *)
Record farm_world := {
  fw_wallet :> wallet_world farm_page;
  fw_node : list wallet_event -> admin_node;
  fw_now : list wallet_event -> num;
  fw_formatErrorMessage : js_error -> string;
}.

Definition error_modal (title message : string) : option ResultModalState :=
  Some {| rm_kind := result_error; rm_title := title; rm_message := message |}.

Section handlers.
Variable wd : farm_world.
Variable lib : admin_libraries.
Variable h : farm_hooks.
(** The state of the render the handler closed over. *)
Variable p : farm_page.

Notation act := (act (wallet_screen farm_page)).

Definition onResult (modal : option ResultModalState) : act unit := set_page (setResultModal modal).

(** What an accepted reply changes: the data, the addresses of the forms, and the edits of rows
    that have none; the modes of the forms are those of the render that started the load. *)
Definition sync_page (now : num) (reply : res js_error FarmAdminSnapshot) (q : farm_page) : farm_page :=
  let q' := on_data (load_settles (fw_formatErrorMessage wd) now reply) q in
  match reply with
  | Ok snapshot =>
    set_inputs q'
      (set_token (syncSelectedLpToken (pf_manualMode (fp_lp p)) (sn_lpPairOptions snapshot) (pf_tokenAddress (fp_lp q'))) (fp_lp q'))
      (set_token (syncSelectedSingleToken (pf_manualMode (fp_single p)) (sn_singleTokenOptions snapshot) (pf_tokenAddress (fp_single q')))
         (fp_single q'))
      (fp_rewardAmount q')
      (syncPoolEdits (sn_farms snapshot) (fp_poolEdits q'))
  | Throw _ => q'
  end.

Definition loadAdminData (background : bool) : act unit :=
  match nonempty_text (managerAddress lib h), nonempty_text (factoryAddress lib h) with
  | Some manager, Some factory =>
    if negb (fh_publicClient h) || negb (supportedChain lib h)
    then set_page (on_data (cannot_load (supportedChain lib h)))
    else
      run set_page (on_data (load_starts background));
      await reply <- ask wd AskedReads (fun l => Ok
        (fw_now wd l,
         readFarmAdminSnapshot (fw_node wd l) manager factory (swapFactoryAddress lib h) (wrappedNativeAddress lib h)
           (configuredSingleTokens lib h)));
      set_page (sync_page (fst reply) (snd reply))
  | _, _ => set_page (on_data (cannot_load (supportedChain lib h)))
  end.

(** The runner waits for the receipt and does not look at its status. *)
Definition run_body (title : string) (tx : contract_write) : act unit :=
  await hash <- write wd tx;
  await receipt <- ask wd (AwaitedReceipt hash) (fun l => wd_receipt wd l hash);
  run onResult (Some {| rm_kind := result_success; rm_title := title; rm_message := "交易已确认：" ++ shortAddress (Some hash) |});
  loadAdminData true.

Definition runTransaction (action : ActiveAction) (title : string) (tx : contract_write) : act unit :=
  if negb (fh_publicClient h)
  then onResult (error_modal "无法提交交易" "当前 RPC 客户端尚未准备好，请稍后再试。")
  else
    run set_page (setActiveAction (Some action));
    act_finally
      (act_catch (run_body title tx) (fun txError => onResult (error_modal "交易失败" (fw_formatErrorMessage wd txError))))
      (on_page (setActiveAction None)).

Definition transaction (address functionName : string) (args : list abi_arg) : contract_write :=
  {| cw_address := address; cw_functionName := functionName; cw_args := args; cw_value := None;
     cw_chainId := fh_chainId h; cw_gas := localGasOverride h |}.

Definition handleDistributeRewards : act unit :=
  match nonempty_text (managerAddress lib h), adminInfo p with
  | Some manager, Some _ =>
    match block_reason lib h p, parsedRewardAmount lib p with
    | None, Some amount =>
      if amount =? 0 then onResult (error_modal "暂不可分发" "请输入有效的奖励数量。")
      else runTransaction distribute "已分发奖励" (transaction manager "distributeRewards" [ArgUint amount])
    | reason, _ => onResult (error_modal "暂不可分发" (default "请输入有效的奖励数量。" reason))
    end
  | _, _ => onResult (error_modal "暂不可分发" "奖励信息尚未加载完成。")
  end.

Definition handleUpdatePool (farm : FarmRow) : act unit :=
  match nonempty_text (managerAddress lib h) with
  | None => return_
  | Some manager =>
    let edit := fp_poolEdits p !! fr_pid farm in
    match parseAllocPoint (from_option pe_allocPoint "" edit) true with
    | None => onResult (error_modal "参数无效" "奖励权重请输入 0 到 1,000,000 之间的整数。")
    | Some allocPoint =>
      runTransaction (update_pool (fr_pid farm)) "已更新农场配置"
        (transaction manager "setPool"
           [ArgUint (fr_pid farm); ArgUint allocPoint; ArgBool (from_option pe_active (fr_active farm) edit)])
    end
  end.

(** What the two cards differ in: the option picked, its name, the function of the factory and
    the texts. *)
Definition picked_farmed (c : pool_card) (token : string) : option string :=
  match c with
  | card_lp =>
    match find_first (fun o => sameAddress (Some (lo_address o)) (Some token)) (fd_lpPairOptions (fp_data p)) with
    | Some o => if lo_alreadyFarmed o then Some (lo_label o) else None
    | None => None
    end
  | card_single =>
    match find_first (fun o : SingleTokenOption => sameAddress (Some (tm_address o)) (Some token)) (fd_singleTokenOptions (fp_data p)) with
    | Some o => if so_alreadyFarmed o then Some (tm_symbol o) else None
    | None => None
    end
  end.
Definition card_action (c : pool_card) : ActiveAction := match c with card_lp => create_lp | card_single => create_single end.
Definition card_function (c : pool_card) : string :=
  match c with card_lp => "createLPPool" | card_single => "createSingleTokenPool" end.
Definition card_title (c : pool_card) : string :=
  match c with card_lp => "已创建 LP 质押池" | card_single => "已创建单币质押池" end.
Definition card_invalid (c : pool_card) : string :=
  match c with card_lp => "请输入有效的 LP 代币地址。" | card_single => "请输入有效的单币代币地址。" end.

(** [handleCreateLpPool] and [handleCreateSinglePool]. *)
Definition handleCreatePool (c : pool_card) : act unit :=
  let form := form_of c p in
  let token := pf_tokenAddress form in
  match nonempty_text (factoryAddress lib h) with
  | None => onResult (error_modal "参数无效" (card_invalid c))
  | Some factory =>
    if negb (al_isAddress lib token) then onResult (error_modal "参数无效" (card_invalid c))
    else match picked_farmed c token with
    | Some name => onResult (error_modal "创建失败" (name ++ " 已经创建过质押池。"))
    | None =>
      match parseAllocPoint (pf_allocPoint form) false with
      | None => onResult (error_modal "参数无效" "奖励权重请输入 1 到 1,000,000 之间的整数。")
      | Some allocPoint =>
        runTransaction (card_action c) (card_title c)
          (transaction factory (card_function c) [ArgAddress token; ArgUint allocPoint; ArgBool (pf_active form)])
      end
    end
  end.
Definition handleCreateLpPool : act unit := handleCreatePool card_lp.
Definition handleCreateSinglePool : act unit := handleCreatePool card_single.

(** The buttons of the page; a row's is there while the row is. *)
Inductive farm_button := button_distribute | button_update (farm : FarmRow) | button_create (c : pool_card).
Definition button_disabled (b : farm_button) : bool :=
  match b with
  | button_distribute => distributeButtonDisabled lib h p
  | button_update farm => updateButtonDisabled lib h p farm
  | button_create c => createButtonDisabled lib h p c
  end.
Definition on_click (b : farm_button) : act unit :=
  match b with
  | button_distribute => handleDistributeRewards
  | button_update farm => handleUpdatePool farm
  | button_create card_lp => handleCreateLpPool
  | button_create card_single => handleCreateSinglePool
  end.
Definition press (b : farm_button) : act unit := if button_disabled b then return_ else on_click b.

Definition press_connect : act unit :=
  if negb (fh_isConnected h) && fh_openConnectModal h then emit ConnectOpened else return_.
Definition press_refresh : act unit := if fd_loading (fp_data p) then return_ else loadAdminData false.
End handlers.

(** The page over time: it is mounted after its first render, and every eight seconds it loads
    in the background. *)
Definition REFRESH_INTERVAL_MS : Z := 8000.
Definition mount_effect : act (wallet_screen farm_page) unit := set_page (setMounted true).
Definition interval_effect (wd : farm_world) (lib : admin_libraries) (h : farm_hooks) (p : farm_page)
  : act (wallet_screen farm_page) unit := loadAdminData wd lib h p true.

(** ** What a press does *)

Lemma parseAllocPoint_bounds v zero a :
  parseAllocPoint v zero = Some a -> (if zero then 0 else 1) <= a <= MAX_ALLOC_POINT.
Proof.
  unfold parseAllocPoint. destruct (negb _); [done|]. case_goal; [done|]. intros [= <-]. bool_solve.
  by destruct zero.
Qed.

(** Nothing blocks a distribution: what the page has found out. *)
Record unblocked (lib : admin_libraries) (h : farm_hooks) (p : farm_page) (info : AdminInfo) (status : TreasuryStatus) (n : Z)
  : Prop := {
  ub_info : adminInfo p = Some info;
  ub_role : isManagerOwner (fh_address h) (Some info) = true \/ isManagerOperator (fh_address h) (Some info) = true;
  ub_total : 0 < ai_totalAllocPoint info;
  ub_empty : forall farm, farm ∈ farms p -> empty_weighted farm = false;
  ub_status : ai_treasuryStatus info = Some status;
  ub_paused : ts_paused status = false;
  ub_amount : parsedRewardAmount lib p = Some n;
  ub_positive : 0 < n;
  ub_balance : n <= ts_rewardBalance status;
  ub_approved : n <= ts_approvedSpendRemaining status;
  ub_cap : ts_dailySpendCap status <= 0 \/ ts_spentToday status + n <= ts_dailySpendCap status;
  ub_delta : 0 < Z.quot ((n + ai_undistributedRewards info) * REWARD_PRECISION) (ai_totalAllocPoint info);
}.

Lemma keep_none {A} (f : A -> bool) l a : length (keep f l) = 0%nat -> a ∈ l -> f a = false.
Proof.
  intros H Ha. destruct (f a) eqn:E; [|done]. assert (a ∈ keep f l) as Hin by by apply elem_of_keep.
  apply nil_length_inv in H. rewrite H in Hin. inversion Hin.
Qed.

Lemma block_reason_None lib h p :
  block_reason lib h p = None -> exists info status n, unblocked lib h p info status n.
Proof.
  unfold block_reason, distributionBlockReason. intros H.
  destruct (negb (fp_mounted p)); [done|]. destruct (negb (fh_isConnected h)); [done|].
  destruct (negb (isManagerOwner _ _) && _) eqn:Hrole; [done|].
  destruct (adminInfo p) as [info|] eqn:Hinfo; [|done]. destruct (negb (present _)); [done|].
  destruct (_ || _) eqn:Htot; [done|]. destruct (Nat.ltb 0 _) eqn:Hempty; [done|].
  destruct (ai_treasuryStatusError info); [done|]. destruct (ai_treasuryStatus info) as [status|] eqn:Hstatus; [|done].
  destruct (ts_paused status) eqn:Hpaused; [done|]. unfold amount_block_reason in H.
  destruct (parsedRewardAmount lib p) as [n|] eqn:Hn; [|done].
  destruct (n <=? 0) eqn:H0; [done|]. destruct (ts_rewardBalance status <? n) eqn:H1; [done|].
  destruct (ts_approvedSpendRemaining status <? n) eqn:H2; [done|].
  destruct (from_option _ _ _) eqn:H3; [done|]. destruct (Z.quot _ _ <=? 0) eqn:H4; [done|].
  exists info, status, n. bool_solve. split; try done; try lia.
  - apply andb_false_iff in Hrole as [Hr|Hr]; bool_solve; [by left|by right].
  - intros farm. apply keep_none. apply Nat.ltb_ge in Hempty. unfold emptyWeightedFarms in Hempty. lia.
  - unfold dailySpendRemaining in H3. cbn [mbind option_bind] in H3. rewrite Hstatus in H3.
    destruct (Z.leb_spec (ts_dailySpendCap status) 0); [by left|right]. cbn [from_option] in H3.
    destruct (Z.ltb_spec (ts_spentToday status) (ts_dailySpendCap status)); bool_solve; lia.
Qed.

Section press.
Variable wd : farm_world.
Variable lib : admin_libraries.
Variable h : farm_hooks.
Variable p : farm_page.

Lemma result_quiet modal : quiet (onResult modal).
Proof. apply wallet_quiet_set. Qed.

Lemma admin_load_quiet background : quiet (loadAdminData wd lib h p background).
Proof.
  unfold loadAdminData. destruct (nonempty_text (managerAddress lib h)); [|apply wallet_quiet_set].
  destruct (nonempty_text (factoryAddress lib h)); [|apply wallet_quiet_set].
  destruct (_ || _); [apply wallet_quiet_set|]. apply wallet_quiet_bind; [apply wallet_quiet_set|]. intros _.
  apply wallet_quiet_bind; [by apply wallet_quiet_ask|]. intros reply. apply wallet_quiet_set.
Qed.

Lemma runner_sends action title t : fh_publicClient h = true -> sends t (runTransaction wd lib h p action title t).
Proof.
  intros Hc s. unfold runTransaction. rewrite Hc. cbn [negb]. unfold act_bind at 1, set_page, update. cbv beta.
  eapply (wallet_sent_trans s (on_page (setActiveAction (Some action)) s) _ [] [t]).
  - apply wallet_sent_page, wallet_sent_refl.
  - unfold act_finally. apply wallet_sent_page. apply sends_catch; [|intros e; apply result_quiet].
    apply sends_then. intros hash. apply wallet_quiet_bind; [by apply wallet_quiet_ask|]. intros receipt.
    apply wallet_quiet_bind; [apply result_quiet|]. intros _. apply admin_load_quiet.
Qed.

Lemma runner_ends action title t s :
  snd (runTransaction wd lib h p action title t s) = Ok tt /\
  (fh_publicClient h = true -> fp_activeAction (ws_page (fst (runTransaction wd lib h p action title t s))) = None).
Proof.
  unfold runTransaction. destruct (fh_publicClient h); [|done]. cbn [negb]. unfold act_bind at 1, set_page at 1, update at 1. cbv beta.
  unfold act_finally. cbn [fst snd]. split; [|done]. unfold act_catch.
  by destruct (run_body wd lib h p title t _) as [s' [[]|e]].
Qed.

Lemma runner_idle action title t : fh_publicClient h = false -> quiet (runTransaction wd lib h p action title t).
Proof. intros Hc. unfold runTransaction. rewrite Hc. apply result_quiet. Qed.

(** The transaction a button stands for. *)
Definition stands_for (b : farm_button) (t : contract_write) : Prop :=
  match b with
  | button_distribute =>
    exists manager info status n, managerAddress lib h = Some manager /\ unblocked lib h p info status n /\
      t = transaction h manager "distributeRewards" [ArgUint n]
  | button_update farm =>
    exists manager info allocPoint active, managerAddress lib h = Some manager /\ adminInfo p = Some info /\
      isManagerOwner (fh_address h) (Some info) = true /\ 0 <= allocPoint <= MAX_ALLOC_POINT /\
      parseAllocPoint (pe_allocPoint (default {| pe_allocPoint := ""; pe_active := fr_active farm |} (fp_poolEdits p !! fr_pid farm))) true
        = Some allocPoint /\
      active = pe_active (shown_edit p farm) /\
      t = transaction h manager "setPool" [ArgUint (fr_pid farm); ArgUint allocPoint; ArgBool active]
  | button_create c =>
    exists factory info allocPoint, factoryAddress lib h = Some factory /\ adminInfo p = Some info /\
      isFactoryOwner (fh_address h) (Some info) = true /\ al_isAddress lib (pf_tokenAddress (form_of c p)) = true /\
      picked_farmed p c (pf_tokenAddress (form_of c p)) = None /\
      1 <= allocPoint <= MAX_ALLOC_POINT /\ parseAllocPoint (pf_allocPoint (form_of c p)) false = Some allocPoint /\
      t = transaction h factory (card_function c)
            [ArgAddress (pf_tokenAddress (form_of c p)); ArgUint allocPoint; ArgBool (pf_active (form_of c p))]
  end.

Lemma present_nonempty a : present a = true -> exists x, a = Some x /\ nonempty_text a = Some x.
Proof. destruct a as [x|]; [|done]. cbn. intros E. exists x. by rewrite E. Qed.

Lemma sends_some {A} T (m : act (wallet_screen farm_page) A) t : sends t m -> T t -> sends_one T m.
Proof. intros H HT s. exists [t]. split; [apply H|]. right. by exists t. Qed.

Lemma runner_sends_one (T : contract_write -> Prop) action title t :
  T t -> sends_one T (runTransaction wd lib h p action title t).
Proof.
  intros HT. destruct (fh_publicClient h) eqn:Hc.
  - eapply sends_some; [by apply runner_sends|done].
  - apply wallet_sends_quiet. by apply runner_idle.
Qed.
End press.

(** A press of the enabled button distributes. *)
Lemma distribute_enabled lib h p :
  button_disabled lib h p button_distribute = false -> fh_publicClient h = true ->
  exists manager info status n, managerAddress lib h = Some manager /\ unblocked lib h p info status n /\
    forall wd, sends (transaction h manager "distributeRewards" [ArgUint n]) (press wd lib h p button_distribute).
Proof.
  intros Hd Hc. pose proof Hd as Hd'. cbn [button_disabled] in Hd. unfold distributeButtonDisabled in Hd.
  bool_solve. unfold may_submit, canSubmitDistribution in H. bool_solve.
  assert (Hr : block_reason lib h p = None) by (unfold block_reason; by destruct (distributionBlockReason _ _ _ _ _ _ _)).
  unfold canDistribute in H. rewrite !andb_true_iff in H. destruct H as [_ Hm].
  destruct (present_nonempty _ Hm) as (manager & Hmanager & Hne).
  destruct (block_reason_None _ _ _ Hr) as (info & status & n & Hu). pose proof Hu as [Hi _ _ _ _ _ Hn Hpos _ _ _ _].
  exists manager, info, status, n. split; [done|]. split; [done|].
  intros wd. unfold press. rewrite Hd'. cbn [on_click]. unfold handleDistributeRewards. rewrite Hne, Hi, Hr, Hn, (proj2 (Z.eqb_neq _ _)) by lia. by apply runner_sends.
Qed.

Section theorems.
Variable wd : farm_world.
Variable lib : admin_libraries.
Variable h : farm_hooks.
Variable p : farm_page.

Lemma owner_info address (who : AdminInfo -> string) info :
  sameAddress address (who <$> info) = true -> exists i, info = Some i /\ sameAddress address (Some (who i)) = true.
Proof. destruct info as [i|]; [by exists i|]. by destruct address. Qed.

Lemma distribute_sends :
  button_disabled lib h p button_distribute = false -> fh_publicClient h = true ->
  exists t, stands_for lib h p button_distribute t /\ sends t (press wd lib h p button_distribute).
Proof.
  intros Hd Hc. destruct (distribute_enabled _ _ _ Hd Hc) as (manager & info & status & n & Hm & Hu & Hs).
  exists (transaction h manager "distributeRewards" [ArgUint n]). split; [by exists manager, info, status, n|apply Hs].
Qed.

Lemma update_sends farm :
  button_disabled lib h p (button_update farm) = false ->
  sends_one (stands_for lib h p (button_update farm)) (press wd lib h p (button_update farm)).
Proof.
  intros Hd. unfold press. rewrite Hd. cbn [button_disabled on_click] in *. unfold updateButtonDisabled in Hd.
  bool_solve. unfold may_update, canUpdatePool in H. rewrite !andb_true_iff in H. destruct H as [[_ Ho] Hm].
  destruct (present_nonempty _ Hm) as (manager & Hmanager & Hne).
  destruct (owner_info _ ai_managerOwner _ Ho) as (info & Hi & Hown).
  unfold handleUpdatePool. rewrite Hne.
  destruct (parseAllocPoint (from_option pe_allocPoint "" (fp_poolEdits p !! fr_pid farm)) true) as [a|] eqn:Ha.
  - apply runner_sends_one. exists manager, info, a, (from_option pe_active (fr_active farm) (fp_poolEdits p !! fr_pid farm)).
    split; [done|]. split; [done|]. split; [done|]. split; [by apply (parseAllocPoint_bounds _ _ _ Ha)|].
    unfold shown_edit. by destruct (fp_poolEdits p !! fr_pid farm).
  - apply wallet_sends_quiet, result_quiet.
Qed.

Lemma create_sends c :
  button_disabled lib h p (button_create c) = false ->
  sends_one (stands_for lib h p (button_create c)) (handleCreatePool wd lib h p c).
Proof.
  intros Hd. cbn [button_disabled] in Hd. unfold createButtonDisabled in Hd. bool_solve.
  unfold may_create, canCreatePool in H. rewrite !andb_true_iff in H. destruct H as [[_ Ho] Hm].
  destruct (present_nonempty _ Hm) as (factory & Hfactory & Hne).
  destruct (owner_info _ ai_factoryOwner _ Ho) as (info & Hi & Hown).
  unfold handleCreatePool. rewrite Hne.
  destruct (al_isAddress lib _) eqn:Ha; [cbn [negb]|apply wallet_sends_quiet, result_quiet].
  destruct (picked_farmed p c _) eqn:Hp; [apply wallet_sends_quiet, result_quiet|].
  destruct (parseAllocPoint _ _) as [a|] eqn:Hal; [|apply wallet_sends_quiet, result_quiet].
  apply runner_sends_one. exists factory, info, a. split_and!; try done; by apply (parseAllocPoint_bounds _ _ _ Hal).
Qed.

Lemma press_ends b s : snd (press wd lib h p b s) = Ok tt.
Proof.
  unfold press. destruct (button_disabled lib h p b); [done|].
  destruct b as [|farm|[]]; cbn [on_click]; unfold handleDistributeRewards, handleUpdatePool, handleCreateLpPool, handleCreateSinglePool,
    handleCreatePool; cbv zeta; repeat (case_goal; try done); apply runner_ends.
Qed.

(** C29.  A press of a button of the farm administration never throws and sends at most one
    transaction, and only the one the button stands for: the amount typed for distribution, when
    nothing blocks it; a weight from 0 to 1,000,000 and the state shown for the row's pool, from
    the manager's owner; a new pool of the token picked, an address whose option is not marked as
    having one, with a weight from 1 to 1,000,000, from the factory's owner.  A disabled button
    sends nothing; an enabled press of the distribution sends it. *)
Theorem admin_press_sends b s :
  snd (press wd lib h p b s) = Ok tt
  /\ (exists l, sent s (fst (press wd lib h p b s)) l /\ (l = [] \/ exists t, l = [t] /\ stands_for lib h p b t))
  /\ (button_disabled lib h p b = true -> sent s (fst (press wd lib h p b s)) [])
  /\ (b = button_distribute -> button_disabled lib h p b = false -> fh_publicClient h = true ->
      exists t, stands_for lib h p b t /\ sent s (fst (press wd lib h p b s)) [t]).
Proof.
  assert (Hdis : button_disabled lib h p b = true -> quiet (press wd lib h p b)).
  { intros Hd. unfold press. rewrite Hd. apply wallet_quiet_done. }
  split; [apply press_ends|]. split; [|split; [by intros Hd; apply Hdis|]].
  - destruct (button_disabled lib h p b) eqn:Hd.
    + exists []. split; [by apply Hdis|by left].
    + destruct b as [|farm|c].
      * destruct (fh_publicClient h) eqn:Hc.
        -- destruct (distribute_sends Hd Hc) as (t & Ht & Hs). exists [t]. split; [apply Hs|]. right. by exists t.
        -- revert s. apply wallet_sends_quiet. unfold press. rewrite Hd. cbn [on_click]. unfold handleDistributeRewards.
           repeat (case_goal; try apply result_quiet); by apply runner_idle.
      * by apply update_sends.
      * unfold press. rewrite Hd. destruct c; by apply (create_sends _ Hd).
  - intros -> Hd Hc. destruct (distribute_sends Hd Hc) as (t & Ht & Hs). exists t. split; [done|]. apply Hs.
Qed.
End theorems.
