(* ===== verification/FarmDistribution.v ===== *)
(** * A distribution from the administration's page, on the chain

    The snapshot of the farm page as the manager (ManagerContract.v) and the treasury
    (TreasuryContract.v) stand when the node reads them, and what the contracts make of the
    transaction an enabled press of the distribution sends. *)

From S2P Require Import Prelude JsString JsNumber JsValue JsError PageMonad RouterContract ManagerContract ManagerRewards WalletPage FarmAdmin FarmAdminActions.
From S2P Require TreasuryContract Farms.
Import Farms(both, fulfilled, both_Ok, fulfilled_Ok).
Open Scope string_scope.
Open Scope Z_scope.
Open Scope flux_scope.

(** The call of the manager a transaction makes, by name and arguments. *)
Definition manager_call_of (t : contract_write) : option manager_call :=
  let named name := String.eqb (cw_functionName t) name in
  match cw_args t with
  | [ArgUint x] => if named "distributeRewards" then Some (DistributeRewards x) else None
  | [ArgUint pid; ArgUint allocPoint; ArgBool active] => if named "setPool" then Some (SetPool pid allocPoint active) else None
  | _ => None
  end.

(** The manager and the treasury as they stand: their addresses, the reward token, the tokens
    of it that the treasury holds, and the time. *)
Record chain := {
  ch_manager : manager;
  ch_treasury : TreasuryContract.treasury;
  ch_managerAddress : TreasuryContract.address;
  ch_rewardToken : TreasuryContract.address;
  ch_balance : Z;
  ch_now : Z;
}.

Section on_chain.
Variable c : chain.
Notation m := (ch_manager c).
Notation tr := (ch_treasury c).
Notation token := (ch_rewardToken c).

(** The manager's call to [pullApprovedToken] of the treasury. *)
Definition pull (amount : Z) : res string (TreasuryContract.treasury * list TreasuryContract.event) :=
  TreasuryContract.pullApprovedToken
    {| TreasuryContract.sender := ch_managerAddress c; TreasuryContract.now := ch_now c;
       TreasuryContract.external_ok := amount <=? ch_balance c |} token amount tr.

(** A call of the manager from [sender]. *)
Definition call_env (sender : address) : manager_env :=
  {| me_sender := sender;
     me_source_paused := fun source => if source =? treasury m then Some (TreasuryContract.paused tr) else None;
     me_pull := fun source amount => if source =? treasury m then res_map (fun _ => tt) (pull amount) else Throw "no code";
     me_transfer := fun _ _ _ => true |}.

(** What the node answers about the manager at [manager] and the treasury, whose addresses it
    gives as texts. *)
Record node_shows (nd : admin_node) (manager : string) : Prop := {
  ns_address : address_value manager = ch_managerAddress c;
  ns_owner site a : an_address nd site manager "owner" [] = Ok a -> address_value a = owner m;
  ns_operator site a : an_address nd site manager "operator" [] = Ok a -> address_value a = operator m;
  ns_rewardToken site a : an_address nd site manager "rewardToken" [] = Ok a -> address_value a = token;
  ns_treasury site a : an_address nd site manager "treasury" [] = Ok a -> address_value a = treasury m;
  ns_total site n : an_uint nd site manager "totalAllocPoint" [] = Ok n -> n = totalAllocPoint m;
  ns_undistributed site n : an_uint nd site manager "undistributedRewards" [] = Ok n -> n = undistributedRewards m;
  ns_balance site t a n : address_value t = token -> address_value a = treasury m ->
    an_uint nd site t "balanceOf" [ArgAddress a] = Ok n -> n = ch_balance c;
  ns_approved site t a n : address_value t = token -> address_value a = treasury m ->
    an_uint nd site a "approvedSpendRemaining" [ArgAddress t; ArgAddress manager] = Ok n ->
    n = TreasuryContract.at_ (TreasuryContract.approvedSpendRemaining tr) (token, ch_managerAddress c);
  ns_cap site t a n : address_value t = token -> address_value a = treasury m ->
    an_uint nd site a "dailySpendCap" [ArgAddress t] = Ok n -> n = TreasuryContract.at_ (TreasuryContract.dailySpendCap tr) token;
  ns_spent site t a n : address_value t = token -> address_value a = treasury m ->
    an_uint nd site a "spentToday" [ArgAddress t] = Ok n -> n = TreasuryContract.at_ (TreasuryContract.spentToday tr) token;
  ns_paused site a b : address_value a = treasury m -> an_flag nd site a "paused" [] = Ok b -> b = TreasuryContract.paused tr;
}.

(** What the page then knows. *)
Record info_shows (info : AdminInfo) : Prop := {
  is_owner : address_value (ai_managerOwner info) = owner m;
  is_operator : address_value (ai_managerOperator info) = operator m;
  is_total : ai_totalAllocPoint info = totalAllocPoint m;
  is_undistributed : ai_undistributedRewards info = undistributedRewards m;
  is_status : forall status, ai_treasuryStatus info = Some status ->
    ts_rewardBalance status = ch_balance c /\
    ts_approvedSpendRemaining status = TreasuryContract.at_ (TreasuryContract.approvedSpendRemaining tr) (token, ch_managerAddress c) /\
    ts_dailySpendCap status = TreasuryContract.at_ (TreasuryContract.dailySpendCap tr) token /\
    ts_spentToday status = TreasuryContract.at_ (TreasuryContract.spentToday tr) token /\
    ts_paused status = TreasuryContract.paused tr;
}.

Lemma admin_status_shows nd manager t a status :
  node_shows nd manager -> address_value t = token -> address_value a = treasury m ->
  readFarmTreasuryStatus nd manager t a = Some status ->
  ts_rewardBalance status = ch_balance c /\
  ts_approvedSpendRemaining status = TreasuryContract.at_ (TreasuryContract.approvedSpendRemaining tr) (token, ch_managerAddress c) /\
  ts_dailySpendCap status = TreasuryContract.at_ (TreasuryContract.dailySpendCap tr) token /\
  ts_spentToday status = TreasuryContract.at_ (TreasuryContract.spentToday tr) token /\
  ts_paused status = TreasuryContract.paused tr.
Proof.
  intros [] Ht Ha H. unfold readFarmTreasuryStatus in H.
  repeat match type of H with
  | (match fulfilled ?r with Some _ => _ | None => _ end) = _ =>
    let x := fresh "x" in let E := fresh "E" in
    destruct (fulfilled r) as [x|] eqn:E; [apply fulfilled_Ok in E|discriminate H]
  end. injection H as <-. cbn. repeat split; eauto.
Qed.

Lemma admin_snapshot_shows nd manager factory swapFactory wrapped tokens snapshot :
  node_shows nd manager -> readFarmAdminSnapshot nd manager factory swapFactory wrapped tokens = Ok snapshot ->
  info_shows (sn_adminInfo snapshot).
Proof.
  intros Hn H. unfold readFarmAdminSnapshot in H.
  apply res_bind_Ok in H as (counters & Hc & H).
  destruct counters as [[[[fo mo] [mop trs]] [rt tot]] [[pend und] len]].
  apply res_bind_Ok in H as (rows & Hrows & H). apply res_bind_Ok in H as (options & Hoptions & H). injection H as <-.
  unfold read_counters in Hc. repeat match goal with
  | Hb : both _ _ _ = Ok _ |- _ => apply both_Ok in Hb as [? ?]
  end. pose proof Hn as []. split; cbn; eauto. intros status Hs. eapply admin_status_shows; eauto.
Qed.
End on_chain.

Lemma admin_sameAddress_value a b : sameAddress (Some a) (Some b) = true -> address_value a = address_value b.
Proof.
  unfold sameAddress. rewrite !andb_true_iff. intros [_ H]. apply String.eqb_eq in H. unfold address_value. by rewrite H.
Qed.

Section treasury.
Import TreasuryContract.

Lemma cap_accepted e token amount tr :
  0 < amount -> at_ (dailySpendCap tr) token <= 0 \/ at_ (spentToday tr) token + amount <= at_ (dailySpendCap tr) token ->
  0 <= at_ (spentToday tr) token -> 0 <= at_ (dailySpendCap tr) token < 2 ^ 256 ->
  exists tr', _consumeCapIfConfigured e token amount tr = Ok tr'.
Proof.
  intros Ha Hcap Hs Hw. unfold _consumeCapIfConfigured, _consumeCap, spent_on.
  destruct (Z.eqb_spec (at_ (dailySpendCap tr) token) 0) as [E|E]; [eauto|]. cbv zeta.
  rewrite (proj2 (Z.ltb_lt 0 _)) by lia.
  set (spent := if _ =? _ then at_ (spentToday tr) token else 0).
  assert (0 <= spent <= at_ (spentToday tr) token) by (unfold spent; destruct (_ =? _); lia).
  unfold u256. rewrite (proj2 (Z.leb_le 0 _)) by lia. rewrite (proj2 (Z.ltb_lt _ (2 ^ 256))) by lia. cbn [andb res_bind].
  rewrite (proj2 (Z.leb_le _ _)) by lia. eauto.
Qed.
End treasury.

Lemma admin_pull_accepted c amount :
  TreasuryContract.paused (ch_treasury c) = false -> ch_rewardToken c <> 0 -> 0 < amount -> amount <= ch_balance c ->
  amount <= TreasuryContract.at_ (TreasuryContract.approvedSpendRemaining (ch_treasury c)) (ch_rewardToken c, ch_managerAddress c) ->
  (TreasuryContract.at_ (TreasuryContract.dailySpendCap (ch_treasury c)) (ch_rewardToken c) <= 0 \/
   TreasuryContract.at_ (TreasuryContract.spentToday (ch_treasury c)) (ch_rewardToken c) + amount
     <= TreasuryContract.at_ (TreasuryContract.dailySpendCap (ch_treasury c)) (ch_rewardToken c)) ->
  0 <= TreasuryContract.at_ (TreasuryContract.spentToday (ch_treasury c)) (ch_rewardToken c) ->
  0 <= TreasuryContract.at_ (TreasuryContract.dailySpendCap (ch_treasury c)) (ch_rewardToken c) < 2 ^ 256 ->
  exists tr ev, pull c amount = Ok (tr, ev).
Proof.
  intros Hp Ht Ha Hb Happ Hcap Hs Hw. unfold pull, TreasuryContract.pullApprovedToken, TreasuryContract.whenNotPaused.
  rewrite Hp. cbn [negb]. unfold TreasuryContract._consumeApprovedSpender. rewrite (proj2 (Z.eqb_neq _ _) Ht), (proj2 (Z.ltb_lt _ _) Ha).
  cbn [negb]. cbv zeta. change (TreasuryContract.sender _) with (ch_managerAddress c). rewrite (proj2 (Z.leb_le _ _) Happ).
  match goal with
  | |- context [TreasuryContract._consumeCapIfConfigured ?e ?t ?n ?tr] =>
    destruct (cap_accepted e t n tr Ha Hcap Hs Hw) as (tr' & ->)
  end.
  cbn [res_bind]. unfold TreasuryContract.transfer_out. cbn [TreasuryContract.external_ok].
  rewrite (proj2 (Z.leb_le _ _) Hb). eauto.
Qed.

(** The amounts of a distribution of [x] fit a word. *)
Record distribution_words (c : chain) (x : Z) : Prop := {
  dw_scaled : (x + undistributedRewards (ch_manager c)) * PRECISION < 2 ^ 256;
  dw_acc : accRewardPerAllocStored (ch_manager c)
           + (x + undistributedRewards (ch_manager c)) * PRECISION / totalAllocPoint (ch_manager c) < 2 ^ 256;
  dw_spent : 0 <= TreasuryContract.at_ (TreasuryContract.spentToday (ch_treasury c)) (ch_rewardToken c);
  dw_cap : 0 <= TreasuryContract.at_ (TreasuryContract.dailySpendCap (ch_treasury c)) (ch_rewardToken c) < 2 ^ 256;
}.

(** C5.  An enabled distribution is carried out.  The page's data are a snapshot of a node that
    answers from a manager with any history and from the treasury as they stand; the wallet is
    connected and the manager is not paused, which the page does not look at.  Then a press of
    the enabled button sends exactly one transaction; it is the manager's [distributeRewards] of
    the amount typed, and both contracts accept it: the treasury lets the manager pull the
    amount - enough is held and approved, and a cap of zero or a new day does not stand in the
    way - and the manager, whose owner or operator the wallet is, then holds that much more. *)
Theorem distribution_executes c n lib h p nd manager factory swapFactory wrapped tokens snapshot account x :
  manager_run (ch_rewardToken c) n (ch_manager c) -> node_shows c nd manager ->
  readFarmAdminSnapshot nd manager factory swapFactory wrapped tokens = Ok snapshot ->
  adminInfo p = Some (sn_adminInfo snapshot) ->
  fh_publicClient h = true -> fh_address h = Some account -> address_value account <> 0 ->
  button_disabled lib h p button_distribute = false -> parsedRewardAmount lib p = Some x ->
  paused (ch_manager c) = false -> distribution_words c x ->
  exists t, (forall wd s, sent s (fst (press wd lib h p button_distribute s)) [t]) /\
    manager_call_of t = Some (DistributeRewards x) /\
    (exists tr ev, pull c x = Ok (tr, ev)) /\
    exists m' ev, exec_manager (ch_rewardToken c) (call_env c (address_value account)) (DistributeRewards x) (ch_manager c)
                  = Ok (m', ev) /\ held m' = held (ch_manager c) + x.
Proof.
  intros Hrun Hnode Hsnap Hinfo Hclient Haccount Hzero Hbutton Hx Hpaused [Hw1 Hw2 Hw3 Hw4].
  pose proof (admin_snapshot_shows _ _ _ _ _ _ _ _ Hnode Hsnap) as [Hown Hop Htot Hund Hst].
  assert (Hstands : exists manager' info status, managerAddress lib h = Some manager' /\ unblocked lib h p info status x /\
    forall wd s, sent s (fst (press wd lib h p button_distribute s)) [transaction h manager' "distributeRewards" [ArgUint x]]).
  { destruct (distribute_enabled _ _ _ Hbutton Hclient) as (manager' & info & status & y & Hm & Hu & Hs).
    exists manager', info, status. pose proof (ub_amount _ _ _ _ _ _ Hu) as Hy. rewrite Hx in Hy. injection Hy as <-.
    split; [done|]. split; [done|]. intros wd s. apply Hs. }
  destruct Hstands as (manager' & info & status & _ & [Hi Hrole HT _ Hstat Hpau _ Hpos Hbal Happ Hcap Hdelta] & Hsent).
  rewrite Hinfo in Hi. injection Hi as <-. destruct (Hst _ Hstat) as (Eb & Ea & Ec & Es & Ep).
  rewrite Eb in Hbal. rewrite Ea in Happ. rewrite Ec, Es in Hcap. rewrite Ep in Hpau. rewrite Htot in HT, Hdelta. rewrite Hund in Hdelta.
  destruct (admin_pull_accepted c x Hpau (run_token _ _ _ Hrun) Hpos Hbal Happ Hcap Hw3 Hw4) as (tr & tev & Hpull).
  exists (transaction h manager' "distributeRewards" [ArgUint x]). split; [done|]. split; [done|]. split; [by exists tr, tev|].
  cbn [exec_manager]. eapply distribute_accepted; try done.
  - cbn [call_env me_sender]. rewrite Haccount in Hrole. rewrite <- Hown, <- Hop.
    destruct Hrole as [Hr|Hr]; [left|right]; by apply admin_sameAddress_value.
  - cbn. by rewrite Z.eqb_refl, Hpau.
  - cbn. by rewrite Z.eqb_refl, Hpull.
  - change REWARD_PRECISION with PRECISION in Hdelta. pose proof (so_undistributed _ _ (proj2 (manager_run_sound _ _ _ Hrun))).
    rewrite Z.quot_div_nonneg in Hdelta; [done| |done]. pose proof PRECISION_pos. nia.
Qed.

(** The page counts what was spent of the cap on an earlier day; the treasury does not. *)
Lemma earlier_day_blocks :
  exists info status c amount,
    ai_treasuryStatus info = Some status /\
    ts_dailySpendCap status = TreasuryContract.at_ (TreasuryContract.dailySpendCap (ch_treasury c)) (ch_rewardToken c) /\
    ts_spentToday status = TreasuryContract.at_ (TreasuryContract.spentToday (ch_treasury c)) (ch_rewardToken c) /\
    ts_paused status = false /\ amount <= ts_rewardBalance status /\ amount <= ts_approvedSpendRemaining status /\
    amount_block_reason (Some info) (Some amount) info status = Some "本日金库支出剩余额度不足。" /\
    exists tr ev, pull c amount = Ok (tr, ev).
Proof.
  exists {| ai_factoryOwner := "0x1"; ai_managerOwner := "0x1"; ai_managerOperator := "0x3"; ai_treasury := "0x2";
            ai_rewardToken := getFallbackTokenMeta "0x64"; ai_totalAllocPoint := 3; ai_totalPendingRewards := 0;
            ai_undistributedRewards := 1; ai_poolLength := 2; ai_activePoolCount := 2;
            ai_treasuryStatus := Some {| ts_paused := false; ts_rewardBalance := 1000; ts_approvedSpendRemaining := 500;
              ts_dailySpendCap := 100; ts_spentToday := 90; ts_multisig := "0x7"; ts_operator := "0x8" |};
            ai_treasuryStatusError := None |}.
  eexists _.
  exists {| ch_manager := sample_books;
            ch_treasury :=
              {| TreasuryContract.multisig := 7; TreasuryContract.operator := 8; TreasuryContract.guardian := 9;
                 TreasuryContract.minDelay := 1; TreasuryContract.paused := false; TreasuryContract.allowedTokens := ∅;
                 TreasuryContract.allowedRecipients := ∅; TreasuryContract.dailySpendCap := {[ 100 := 100 ]};
                 TreasuryContract.spentToday := {[ 100 := 90 ]}; TreasuryContract.lastSpendDay := {[ 100 := 19000 ]};
                 TreasuryContract.approvedSpendRemaining := {[ (100, 5) := 500 ]}; TreasuryContract.operationReadyAt := ∅ |};
            ch_managerAddress := 5; ch_rewardToken := 100; ch_balance := 1000; ch_now := 1700000000 |}, 20.
  split; [reflexivity|]. repeat (split; [vm_compute; try reflexivity; discriminate|]).
  eexists _, _. vm_compute. reflexivity.
Qed.

(** *** An instance *)

(** The manager of ManagerRewards.v at address 5, and its treasury, with 1000 units of the reward
    token and 500 approved for the manager. *)
Definition sample_chain : chain :=
  {| ch_manager := sample_books;
     ch_treasury :=
       {| TreasuryContract.multisig := 7; TreasuryContract.operator := 8; TreasuryContract.guardian := 9;
          TreasuryContract.minDelay := 1; TreasuryContract.paused := false; TreasuryContract.allowedTokens := ∅;
          TreasuryContract.allowedRecipients := ∅; TreasuryContract.dailySpendCap := ∅; TreasuryContract.spentToday := ∅;
          TreasuryContract.lastSpendDay := ∅; TreasuryContract.approvedSpendRemaining := {[ (100, 5) := 500 ]};
          TreasuryContract.operationReadyAt := ∅ |};
     ch_managerAddress := 5; ch_rewardToken := 100; ch_balance := 1000; ch_now := 1700000000 |}.

Definition sample_node : admin_node :=
  let named (l : list (string * string)) name := default "0x0" (list_to_map (M := gmap string string) l !! name) in
  {| an_uint := fun _ _ name _ =>
       Ok (default 0 (list_to_map (M := gmap string Z)
             [("totalAllocPoint", 3); ("undistributedRewards", 1); ("poolLength", 2); ("balanceOf", 1000);
              ("approvedSpendRemaining", 500); ("totalStaked", 7); ("decimals", 18)] !! name));
     an_address := fun _ _ name _ =>
       Ok (named [("owner", "0x1"); ("operator", "0x3"); ("rewardToken", "0x64"); ("treasury", "0x2");
                  ("stakingToken", "0x65"); ("rewardsToken", "0x64")] name);
     an_text := fun _ _ _ _ => Ok "FLUX";
     an_flag := fun _ _ _ _ => Ok false;
     an_entry := fun _ _ _ args => match args with [ArgUint 0] => Ok ("0xb", 1, true, 0, 0) | _ => Ok ("0xc", 2, true, 0, 0) end;
     an_first := fun _ _ => Error "read" |}.

Definition sample_libraries : admin_libraries :=
  {| al_formatUnits := fun _ _ => "0"; al_parseUnits := fun s _ => if String.eqb s "20" then Some 20 else None;
     al_isAddress := fun _ => true;
     al_contract := fun name _ => if String.eqb name "FluxMultiPoolManager" then Some "0x5" else
                                  if String.eqb name "FluxPoolFactory" then Some "0x6" else None;
     al_supported := fun _ => true |}.

Definition sample_hooks : farm_hooks :=
  {| fh_chainId := 31337; fh_publicClient := true; fh_address := Some "0x3"; fh_isConnected := true; fh_openConnectModal := false |}.

(** The page once it is mounted, has loaded, and 20 is typed. *)
Definition sample_page (snapshot : FarmAdminSnapshot) : farm_page :=
  set_inputs (on_data (load_settles (fun _ => "") num_zero (Ok snapshot)) (setMounted true initial_farm_page))
    initial_form initial_form "20" ∅.

Lemma sample_node_shows : node_shows sample_chain sample_node "0x5".
Proof. split; intros; repeat match goal with H : _ = Ok _ |- _ => vm_compute in H; injection H as <- end; vm_compute; reflexivity. Qed.

Lemma distribution_executes_witness :
  exists snapshot t, readFarmAdminSnapshot sample_node "0x5" "0x6" None None [] = Ok snapshot /\
    (forall wd s, sent s (fst (press wd sample_libraries sample_hooks (sample_page snapshot) button_distribute s)) [t]) /\
    manager_call_of t = Some (DistributeRewards 20) /\
    exists m' ev, exec_manager 100 (call_env sample_chain 3) (DistributeRewards 20) sample_books = Ok (m', ev) /\ held m' = 30.
Proof.
  destruct (readFarmAdminSnapshot sample_node "0x5" "0x6" None None []) as [snapshot|] eqn:E; [|vm_compute in E; discriminate E].
  exists snapshot.
  destruct (distribution_executes sample_chain 3 sample_libraries sample_hooks (sample_page snapshot) sample_node "0x5" "0x6" None None []
    snapshot "0x3" 20) as (t & Hs & Hc & _ & m' & ev & He & Hh).
  - apply manager_sample_run.
  - apply sample_node_shows.
  - exact E.
  - reflexivity.
  - reflexivity.
  - reflexivity.
  - vm_compute. discriminate.
  - vm_compute in E. injection E as <-. vm_compute. reflexivity.
  - vm_compute in E. injection E as <-. vm_compute. reflexivity.
  - vm_compute. reflexivity.
  - split; vm_compute; try reflexivity; [discriminate|split; [discriminate|reflexivity]].
  - exists t. split; [reflexivity|]. split; [exact Hs|]. split; [exact Hc|]. exists m', ev. split; [exact He|exact Hh].
Defined.
