(* ===== verification/PoolAnalytics.v ===== *)
(** * The analytics of the pool page (frontend/src/app/pool/[pairAddress]/page.tsx)

    What the page computes from a pool and its activities: the reserves after each event,
    the prices, volumes and liquidity of the chart by buckets of time, and the depth around
    the current price.  A render may raise a [RangeError]: the decimals of a token are a
    number of the indexer's reply, and [BigInt] takes integers only.  The page itself is in
    PoolPage.v. *)

From S2P Require Import Prelude JsString JsNumber JsDivision JsSort Amounts Pools Farms Positions.
From Stdlib Require Import SpecFloat Ascii.
Import Pools.PoolMetrics.
Open Scope string_scope.
Open Scope Z_scope.
Open Scope flux_scope.

(** ** Data *)

Inductive AnalyticsTab := tab_price | tab_volume | tab_liquidity | tab_depth.
Inductive AnalyticsRange := range_1h | range_1d | range_1w | range_1m | range_1y | range_all.

#[export] Instance AnalyticsTab_eq_dec : EqDecision AnalyticsTab.
Proof. solve_decision. Defined.
#[export] Instance AnalyticsRange_eq_dec : EqDecision AnalyticsRange.
Proof. solve_decision. Defined.

Record ReserveSnapshot := {
  sn_timestamp : num; sn_blockNumber : Z; sn_logIndex : Z; sn_reserve0 : Z; sn_reserve1 : Z;
}.

Record AnalyticsPoint := {
  an_label : string; an_timestamp : num; an_price : option num; an_volume : num; an_liquidity : option num;
}.

Record DepthPoint := { dp_price : num; dp_depth : num; dp_quoteDepth : num; dp_priceImpact : num }.

Record DepthSeries := {
  ds_currentPrice : option num; ds_bids : list DepthPoint; ds_asks : list DepthPoint;
}.

Record range_config := { rc_label : string; rc_bucketSeconds : Z; rc_windowSeconds : Z }.

Definition ANALYTICS_RANGE_CONFIG (range : AnalyticsRange) : option range_config :=
  match range with
  | range_1h => Some {| rc_label := "1小时"; rc_bucketSeconds := 5 * 60; rc_windowSeconds := 60 * 60 |}
  | range_1d => Some {| rc_label := "1天"; rc_bucketSeconds := 60 * 60; rc_windowSeconds := 24 * 60 * 60 |}
  | range_1w =>
    Some {| rc_label := "1周"; rc_bucketSeconds := 24 * 60 * 60; rc_windowSeconds := 7 * 24 * 60 * 60 |}
  | range_1m =>
    Some {| rc_label := "1个月"; rc_bucketSeconds := 24 * 60 * 60; rc_windowSeconds := 30 * 24 * 60 * 60 |}
  | range_1y =>
    Some {| rc_label := "1年"; rc_bucketSeconds := 7 * 24 * 60 * 60; rc_windowSeconds := 365 * 24 * 60 * 60 |}
  | range_all => None
  end.

Definition MAX_POOL_ANALYTICS_EVENTS : Z := 500.
Definition MAX_DEPTH_IMPACT : num := num_of_string "0.9".
Definition MIN_DEPTH_ZOOM : num := num_of_Z 1.
Definition MAX_DEPTH_ZOOM : num := num_of_Z 4.

(** Why a render has no result: [BigInt] refused a number, or the loop over the buckets
    outlived its fuel. *)
Inductive render_failure := RangeError | Endless.

(** The fields of a date that [Intl.DateTimeFormat] is asked for. *)
Inductive date_fields := hour_minute | month_year | month_day | month_day_hour_minute.

(** [Intl]'s formats, with the digits at least and at most, and the two functions of [Math]
    the standard leaves to the implementation. *)
Record chart_locale := {
  cl_dateTimeFormat : date_fields -> num -> string -> string;
  cl_numberFormat : nat -> nat -> num -> string;
  cl_compactFormat : num -> string;
  cl_log10 : num -> num;
  cl_pow : num -> num -> num;
}.

(** [Math.max] and [Math.min]. *)
Definition is_nan (x : num) : bool := negb (num_eqb x x).
Definition math_max (x y : num) : num :=
  if is_nan x || is_nan y then num_nan else if num_ltb y x then x else y.
Definition math_min (x y : num) : num :=
  if is_nan x || is_nan y then num_nan else if num_ltb x y then x else y.
Definition math_abs (x : num) : num := SFabs x.
Definition math_sqrt (x : num) : num := SFsqrt 53 1024 x.

Definition normalizeTokenSymbol (symbol tokenAddress : string) (wrappedNativeAddress : option string) : string :=
  match wrappedNativeAddress with
  | Some w => if str_nonempty w && same_address tokenAddress w then "ETH" else to_upper symbol
  | None => to_upper symbol
  end.

(** ** Reserves after each event *)

Section snapshots.
Variable localeCompare : string -> string -> Z.

(** [sortReserveSnapshots(left, right)] is not positive. *)
Definition sortReserveSnapshots (left right : ReserveSnapshot) : bool :=
  if negb (num_eqb (sn_timestamp left) (sn_timestamp right))
  then negb (num_ltb num_zero (num_sub (sn_timestamp left) (sn_timestamp right)))
  else if negb (sn_blockNumber left =? sn_blockNumber right) then sn_blockNumber left <? sn_blockNumber right
  else if negb (sn_logIndex left =? sn_logIndex right) then sn_logIndex left <? sn_logIndex right
  else true.

(** The comparator of the events is not positive. *)
Definition event_le (left right : PoolActivityViewModel) : bool :=
  if negb (num_eqb (act_timestamp left) (act_timestamp right))
  then negb (num_ltb num_zero (num_sub (act_timestamp left) (act_timestamp right)))
  else if negb (act_blockNumber left =? act_blockNumber right) then act_blockNumber left <? act_blockNumber right
  else if negb (act_logIndex left =? act_logIndex right) then act_logIndex left <? act_logIndex right
  else localeCompare (act_id left) (act_id right) <=? 0.

Definition is_sync (activity : PoolActivityViewModel) : bool :=
  match act_kind activity with ActSync _ _ => true | _ => false end.

Definition snapshot_at (activity : PoolActivityViewModel) (reserve0 reserve1 : Z) : ReserveSnapshot :=
  {| sn_timestamp := act_timestamp activity; sn_blockNumber := act_blockNumber activity;
     sn_logIndex := act_logIndex activity; sn_reserve0 := reserve0; sn_reserve1 := reserve1 |}.

Definition sync_snapshot (activity : PoolActivityViewModel) : option ReserveSnapshot :=
  match act_kind activity with
  | ActSync reserve0 reserve1 => Some (snapshot_at activity reserve0 reserve1)
  | _ => None
  end.

(** One step of the walk back from the current reserves: what the reserves were before the
    event. *)
Definition undo (kind : activity_kind) (reserve0 reserve1 : Z) : Z * Z :=
  match kind with
  | ActAdd amount0 amount1 => (reserve0 - amount0, reserve1 - amount1)
  | ActRemove _ amount0 amount1 => (reserve0 + amount0, reserve1 + amount1)
  | ActSwap _ amount0In amount1In amount0Out amount1Out =>
    (reserve0 - amount0In + amount0Out, reserve1 - amount1In + amount1Out)
  | ActSync _ _ => (reserve0, reserve1)
  end.

(** The loop from the last event to the first: the snapshots in the order they are pushed,
    and the reserves left. *)
Fixpoint walk_back (events : list PoolActivityViewModel) (reserve0 reserve1 : Z)
  : list ReserveSnapshot * (Z * Z) :=
  match events with
  | [] => ([], (reserve0, reserve1))
  | activity :: earlier =>
    let '(before0, before1) := undo (act_kind activity) reserve0 reserve1 in
    let '(snapshots, first) := walk_back earlier before0 before1 in
    (snapshot_at activity reserve0 reserve1 :: snapshots, first)
  end.

Definition buildReserveSnapshots (poolDetail : PoolDetailViewModel) (activities : list PoolActivityViewModel)
  : list ReserveSnapshot :=
  match omap sync_snapshot activities with
  | [] =>
    let eventActivities := keep (fun activity => negb (is_sync activity)) activities in
    let sorted := sort_by event_le eventActivities in
    let '(snapshots, (reserve0, reserve1)) :=
      walk_back (rev sorted) (pv_reserve0 (pd_view poolDetail)) (pv_reserve1 (pd_view poolDetail)) in
    sort_by sortReserveSnapshots
      (snapshots ++ [{| sn_timestamp := pd_createdAtTimestamp poolDetail; sn_blockNumber := 0;
                        sn_logIndex := 0; sn_reserve0 := reserve0; sn_reserve1 := reserve1 |}])%list
  | syncSnapshots => sort_by sortReserveSnapshots syncSnapshots
  end.
End snapshots.

(** ** Prices *)

Section series.
Variable pl : page_locale.
Variable cl : chart_locale.

(** [BigInt(10) ** BigInt(decimals)] *)
Definition pow10 (decimals : num) : res render_failure Z :=
  match bigint_of_num decimals with
  | Some d => if d <? 0 then Throw RangeError else Ok (10 ^ d)
  | None => Throw RangeError
  end.

(** [formatBigIntAmountDown] of an amount that is there. *)
Definition digits_down (value : Z) (decimals : num) (fractionDigits : nat) : string :=
  formatDisplayAmountDown (Some (pl_formatUnits pl value decimals)) fractionDigits.

Definition formatPoolPrice (baseReserve : Z) (baseDecimals : num) (quoteReserve : Z) (quoteDecimals : num)
    (fractionDigits : nat) : res render_failure string :=
  if (baseReserve =? 0) || (quoteReserve =? 0) then Ok "--"
  else
    let* base := pow10 baseDecimals in
    let numerator := quoteReserve * base * 10 ^ 18 in
    let* quote := pow10 quoteDecimals in
    let denominator := baseReserve * quote in
    if denominator =? 0 then Ok "--"
    else Ok (digits_down (Z.quot numerator denominator) (num_of_Z 18) fractionDigits).

Definition formatChartLabel (timestamp : num) (range : AnalyticsRange) (locale : string) : string :=
  let date := num_mul timestamp (num_of_Z 1000) in
  match range with
  | range_1h => cl_dateTimeFormat cl hour_minute date locale
  | range_1d => cl_dateTimeFormat cl hour_minute date locale
  | range_1y => cl_dateTimeFormat cl month_year date locale
  | _ => cl_dateTimeFormat cl month_day date locale
  end.

Definition formatVolumeHoverTime (timestamp : num) (locale : string) : string :=
  cl_dateTimeFormat cl month_day_hour_minute (num_mul timestamp (num_of_Z 1000)) locale.

Definition getVolumeRangeLabel (range : AnalyticsRange) (isZh : bool) : string :=
  match range with
  | range_1h => told isZh "过去一小时总成交量" "Total volume over the past hour"
  | range_1d => told isZh "过去一天总成交量" "Total volume over the past day"
  | range_1w => told isZh "过去一周总成交量" "Total volume over the past week"
  | range_1m => told isZh "过去一个月总成交量" "Total volume over the past month"
  | range_1y => told isZh "过去一年总成交量" "Total volume over the past year"
  | range_all => told isZh "全部时间总成交量" "Total volume over all time"
  end.

Definition calculatePriceValue (reserve0 reserve1 : Z) (token0Decimals token1Decimals : num)
    (quoteTokenIndex : quote_index) : res render_failure (option num) :=
  let* price := match quoteTokenIndex with
                | Quote1 => formatPoolPrice reserve0 token0Decimals reserve1 token1Decimals 8
                | Quote0 => formatPoolPrice reserve1 token1Decimals reserve0 token0Decimals 8
                end in
  if String.eqb price "--" then Ok None
  else let numeric := num_of_string price in Ok (if is_finite numeric then Some numeric else None).

Definition getSwapVolumeValue (activity : PoolActivityViewModel) (token0Decimals token1Decimals : num)
    (quoteTokenIndex : quote_index) : num :=
  match act_kind activity with
  | ActSwap _ amount0In amount1In amount0Out amount1Out =>
    let amount := match quoteTokenIndex with
                  | Quote1 => if 0 <? amount1In then amount1In else amount1Out
                  | Quote0 => if 0 <? amount0In then amount0In else amount0Out
                  end in
    let decimals := match quoteTokenIndex with Quote1 => token1Decimals | Quote0 => token0Decimals end in
    let numeric := num_of_string (pl_formatUnits pl amount decimals) in
    if is_finite numeric then numeric else num_zero
  | _ => num_zero
  end.

Definition getLiquidityValue (reserve0 reserve1 : Z) (token0Decimals token1Decimals : num)
    (quoteTokenIndex : quote_index) : res render_failure (option num) :=
  let* price := calculatePriceValue reserve0 reserve1 token0Decimals token1Decimals quoteTokenIndex in
  let baseReserve := match quoteTokenIndex with Quote1 => reserve0 | Quote0 => reserve1 end in
  let baseDecimals := match quoteTokenIndex with Quote1 => token0Decimals | Quote0 => token1Decimals end in
  let baseValue := num_of_string (pl_formatUnits pl baseReserve baseDecimals) in
  Ok (if negb (is_finite baseValue) then None
      else match price with
           | None => Some baseValue
           | Some price => Some (num_mul (num_mul baseValue price) (num_of_Z 2))
           end).

(** ** Buckets of time *)

Record range_window := { rw_start : num; rw_end : num; rw_bucketSeconds : num }.

Definition DAY : num := num_of_Z (24 * 60 * 60).

(** [x || y] on numbers. *)
Definition num_or (x y : num) : num := if is_nan x || num_eqb x num_zero then y else x.

Definition getRangeWindow (range : AnalyticsRange) (anchorTimestamp poolCreatedAt : num) : range_window :=
  match ANALYTICS_RANGE_CONFIG range with
  | None =>
    {| rw_start := poolCreatedAt; rw_end := anchorTimestamp;
       rw_bucketSeconds :=
         math_max DAY
           (num_or (num_floor (num_div (num_sub anchorTimestamp poolCreatedAt) (num_of_Z 12))) DAY) |}
  | Some config =>
    {| rw_start := math_max poolCreatedAt (num_sub anchorTimestamp (num_of_Z (rc_windowSeconds config)));
       rw_end := anchorTimestamp; rw_bucketSeconds := num_of_Z (rc_bucketSeconds config) |}
  end.

Definition bucketTimestamp (timestamp bucketSeconds : num) : num :=
  num_mul (num_floor (num_div timestamp bucketSeconds)) bucketSeconds.

(** The loop that fills the map of the buckets; [bucket_fuel] rounds are enough for
    timestamps in whole seconds. *)
Definition bucket_fuel : nat := 64.

Definition empty_point (range : AnalyticsRange) (locale : string) (timestamp : num) : AnalyticsPoint :=
  {| an_label := formatChartLabel timestamp range locale; an_timestamp := timestamp; an_price := None;
     an_volume := num_zero; an_liquidity := None |}.

Fixpoint bucket_loop (fuel : nat) (timestamp endBucket bucketSeconds : num) : res render_failure (list num) :=
  if negb (num_leb timestamp endBucket) then Ok []
  else match fuel with
       | O => Throw Endless
       | S fuel =>
         let* later := bucket_loop fuel (num_add timestamp bucketSeconds) endBucket bucketSeconds in
         Ok (timestamp :: later)
       end.

(** [bucketMap.get(key)], then the assignments to the point. *)
Fixpoint update_point (key : num) (f : AnalyticsPoint -> res render_failure AnalyticsPoint)
    (points : list AnalyticsPoint) : res render_failure (list AnalyticsPoint) :=
  match points with
  | [] => Ok []
  | point :: points =>
    if num_eqb (an_timestamp point) key then let* point := f point in Ok (point :: points)
    else let* points := update_point key f points in Ok (point :: points)
  end.

(** [for (const x of xs)] over the points. *)
Fixpoint each_point {A} (f : A -> list AnalyticsPoint -> res render_failure (list AnalyticsPoint))
    (xs : list A) (points : list AnalyticsPoint) : res render_failure (list AnalyticsPoint) :=
  match xs with
  | [] => Ok points
  | x :: xs => let* points := f x points in each_point f xs points
  end.

(** The last loop: a bucket without a price or a liquidity has those of the one before. *)
Fixpoint carry_forward (lastPrice lastLiquidity : option num) (points : list AnalyticsPoint)
  : list AnalyticsPoint :=
  match points with
  | [] => []
  | point :: points =>
    let price := match an_price point with None => lastPrice | Some p => Some p end in
    let liquidity := match an_liquidity point with None => lastLiquidity | Some l => Some l end in
    {| an_label := an_label point; an_timestamp := an_timestamp point; an_price := price;
       an_volume := an_volume point; an_liquidity := liquidity |} :: carry_forward price liquidity points
  end.

Definition point_le (left right : AnalyticsPoint) : bool :=
  negb (num_ltb num_zero (num_sub (an_timestamp left) (an_timestamp right))).

Section build.
Variable poolDetail : PoolDetailViewModel.
Variable quoteTokenIndex : quote_index.
Definition decimals0 : num := tv_decimals (pv_token0 (pd_view poolDetail)).
Definition decimals1 : num := tv_decimals (pv_token1 (pd_view poolDetail)).

Definition apply_snapshot (w : range_window) (snapshot : ReserveSnapshot) (points : list AnalyticsPoint)
  : res render_failure (list AnalyticsPoint) :=
  if num_ltb (sn_timestamp snapshot) (rw_start w) then Ok points
  else
    update_point (bucketTimestamp (sn_timestamp snapshot) (rw_bucketSeconds w))
      (fun point =>
         let* price := calculatePriceValue (sn_reserve0 snapshot) (sn_reserve1 snapshot) decimals0 decimals1
                         quoteTokenIndex in
         let* liquidity := getLiquidityValue (sn_reserve0 snapshot) (sn_reserve1 snapshot) decimals0 decimals1
                             quoteTokenIndex in
         Ok {| an_label := an_label point; an_timestamp := an_timestamp point; an_price := price;
               an_volume := an_volume point; an_liquidity := liquidity |}) points.

Definition apply_activity (w : range_window) (activity : PoolActivityViewModel) (points : list AnalyticsPoint)
  : res render_failure (list AnalyticsPoint) :=
  if num_ltb (act_timestamp activity) (rw_start w) || num_ltb (rw_end w) (act_timestamp activity) then Ok points
  else
    update_point (bucketTimestamp (act_timestamp activity) (rw_bucketSeconds w))
      (fun point =>
         Ok {| an_label := an_label point; an_timestamp := an_timestamp point; an_price := an_price point;
               an_volume := num_add (an_volume point) (getSwapVolumeValue activity decimals0 decimals1 quoteTokenIndex);
               an_liquidity := an_liquidity point |}) points.

Definition latest_timestamp (activities : list PoolActivityViewModel) : num :=
  match activities with
  | activity :: _ => act_timestamp activity
  | [] => pd_createdAtTimestamp poolDetail
  end.

Definition buildAnalyticsSeries (activities : list PoolActivityViewModel) (range : AnalyticsRange) (locale : string)
  : res render_failure (list AnalyticsPoint) :=
  let snapshots := buildReserveSnapshots (pl_localeCompare pl) poolDetail activities in
  let w := getRangeWindow range (latest_timestamp activities) (pd_createdAtTimestamp poolDetail) in
  let startBucket := bucketTimestamp (rw_start w) (rw_bucketSeconds w) in
  let endBucket := bucketTimestamp (rw_end w) (rw_bucketSeconds w) in
  let* buckets := bucket_loop bucket_fuel startBucket endBucket (rw_bucketSeconds w) in
  let* priced := each_point (apply_snapshot w) snapshots (empty_point range locale <$> buckets) in
  let* traded := each_point (apply_activity w) activities priced in
  Ok (carry_forward None None (sort_by point_le traded)).
End build.

(** ** Texts of the chart *)

Definition formatMetricValue (value : option num) (digits : nat) : string :=
  match value with
  | Some value => if negb (is_finite value) then "--" else cl_numberFormat cl digits digits value
  | None => "--"
  end.

Definition formatDepthTokenAmount (value : option num) : string :=
  match value with
  | Some value =>
    if negb (is_finite value) then "--"
    else cl_numberFormat cl 0 (if num_leb (num_of_Z 1) (math_abs value) then 2 else 6) value
  | None => "--"
  end.

Definition findDepthPointByImpact (points : list DepthPoint) (absoluteImpact : num) : option DepthPoint :=
  foldl (fun closest point =>
           match closest with
           | None => Some point
           | Some c =>
             if num_ltb (math_abs (num_sub (math_abs (dp_priceImpact point)) absoluteImpact))
                  (math_abs (num_sub (math_abs (dp_priceImpact c)) absoluteImpact))
             then Some point else Some c
           end) None points.

Definition getPriceFractionDigits (value : option num) : nat :=
  match value with
  | Some value =>
    if negb (is_finite value) then 2
    else
      let absValue := math_abs value in
      if num_leb (num_of_Z 1) absValue then 2
      else if num_leb (num_of_string "0.01") absValue then 4
      else if num_leb (num_of_string "0.0001") absValue then 6
      else 8
  | None => 2
  end.

Definition formatPriceMetric (value : option num) : string :=
  match value with
  | Some v => if negb (is_finite v) then "--" else cl_numberFormat cl 0 (getPriceFractionDigits value) v
  | None => "--"
  end.

Definition formatCompactMetric (value : option num) : string :=
  match value with
  | Some value => if negb (is_finite value) then "--" else cl_compactFormat cl value
  | None => "--"
  end.

Definition getDepthScaleCeiling (value : num) : option num :=
  if negb (is_finite value) || num_leb value num_zero then None
  else
    let magnitude := cl_pow cl (num_of_Z 10) (num_floor (cl_log10 cl value)) in
    let normalized := num_div value magnitude in
    let step := if num_leb normalized (num_of_Z 1) then 1
                else if num_leb normalized (num_of_Z 2) then 2
                else if num_leb normalized (num_of_Z 5) then 5 else 10 in
    Some (num_mul (num_of_Z step) magnitude).

Definition clampNumber (value min max : num) : num := math_min (math_max value min) max.

Definition formatChangePercent (changePct : option num) : option num :=
  match changePct with
  | Some c => if negb (is_finite c) then None else Some c
  | None => None
  end.

Definition getChangePct (current previous : option num) : option num :=
  match current, previous with
  | Some c, Some p =>
    if negb (is_finite c) || negb (is_finite p) || num_eqb p num_zero then None
    else Some (num_mul (num_div (num_sub c p) p) (num_of_Z 100))
  | _, _ => None
  end.

(** ** Depth *)

(** [(180 - index) * 0.005] for the indices from 0 to 180. *)
Definition impactSteps : list num :=
  (fun index => num_mul (num_of_Z (180 - Z.of_nat index)) (num_of_string "0.005")) <$> seq 0 181.

Definition bid_at (currentPrice invariant baseSize quoteSize impact : num) : DepthPoint :=
  let price := num_mul currentPrice (num_sub (num_of_Z 1) impact) in
  let nextBaseReserve := math_sqrt (num_div invariant price) in
  let nextQuoteReserve := math_sqrt (num_mul invariant price) in
  {| dp_price := price; dp_depth := math_max (num_sub nextBaseReserve baseSize) num_zero;
     dp_quoteDepth := math_max (num_sub quoteSize nextQuoteReserve) num_zero;
     dp_priceImpact := num_mul (SFopp impact) (num_of_Z 100) |}.

Definition ask_at (currentPrice invariant baseSize quoteSize impact : num) : DepthPoint :=
  let price := num_mul currentPrice (num_add (num_of_Z 1) impact) in
  let nextBaseReserve := math_sqrt (num_div invariant price) in
  let nextQuoteReserve := math_sqrt (num_mul invariant price) in
  {| dp_price := price; dp_depth := math_max (num_sub baseSize nextBaseReserve) num_zero;
     dp_quoteDepth := math_max (num_sub nextQuoteReserve quoteSize) num_zero;
     dp_priceImpact := num_mul impact (num_of_Z 100) |}.

Definition buildDepthSeries (poolDetail : PoolDetailViewModel) (quoteTokenIndex : quote_index) : DepthSeries :=
  let pair := pd_view poolDetail in
  let '(baseReserve, baseDecimals, quoteReserve, quoteDecimals) :=
    match quoteTokenIndex with
    | Quote1 => (pv_reserve0 pair, tv_decimals (pv_token0 pair), pv_reserve1 pair, tv_decimals (pv_token1 pair))
    | Quote0 => (pv_reserve1 pair, tv_decimals (pv_token1 pair), pv_reserve0 pair, tv_decimals (pv_token0 pair))
    end in
  let baseSize := num_of_string (pl_formatUnits pl baseReserve baseDecimals) in
  let quoteSize := num_of_string (pl_formatUnits pl quoteReserve quoteDecimals) in
  if negb (is_finite baseSize) || negb (is_finite quoteSize)
     || num_leb baseSize num_zero || num_leb quoteSize num_zero
  then {| ds_currentPrice := None; ds_bids := []; ds_asks := [] |}
  else
    let currentPrice := num_div quoteSize baseSize in
    let invariant := num_mul baseSize quoteSize in
    {| ds_currentPrice := Some currentPrice;
       ds_bids := bid_at currentPrice invariant baseSize quoteSize <$> impactSteps;
       ds_asks := ask_at currentPrice invariant baseSize quoteSize <$> rev impactSteps |}.
End series.
