(* ===== verification/PoolCharts.v ===== *)
(** * The chart of the pool page

    The buckets of the chart and what each of them shows.  With timestamps in whole
    seconds the loop over the buckets ends well within its fuel, each bucket shows the
    price and the liquidity after the last event up to its end, and the snapshots made
    without reserves from the indexer are the reserves of the pool's history. *)

From S2P Require Import Prelude JsString JsNumber JsDivision JsSort Amounts Pools Farms Positions PoolAnalytics.
From stdpp Require Import sorting.
From Stdlib Require Import SpecFloat Ascii.
Import Pools.PoolMetrics.
Open Scope string_scope.
Open Scope Z_scope.
Open Scope flux_scope.

(** ** Whole seconds *)

Lemma num_eqb_integral x y a b :
  num_integral x = Some a -> num_integral y = Some b -> num_eqb x y = (a =? b).
Proof.
  intros Hx Hy. unfold num_eqb. rewrite (num_cmp_integral x y a b) by done.
  destruct (Z.compare_spec a b), (Z.eqb_spec a b); done || lia.
Qed.

Lemma is_nan_integral x a : num_integral x = Some a -> is_nan x = false.
Proof. intros Hx. unfold is_nan. by rewrite (num_eqb_integral x x a a), Z.eqb_refl. Qed.

Lemma math_max_integral x y a b :
  num_integral x = Some a -> num_integral y = Some b -> num_integral (math_max x y) = Some (Z.max a b).
Proof.
  intros Hx Hy. unfold math_max. rewrite (is_nan_integral x a), (is_nan_integral y b) by done. cbn [orb].
  rewrite (num_ltb_integral y x b a) by done. destruct (Z.ltb_spec b a); [rewrite Hx|rewrite Hy]; f_equal; lia.
Qed.

Lemma seconds_of_Z t : 0 <= t < 2 ^ 52 -> seconds (num_of_Z t) t.
Proof. intros Ht. split; [apply num_integral_of_Z; lia|done]. Qed.

(** A bucket starts at the multiple of its size below. *)
Lemma bucket_integral x y t s :
  num_integral x = Some t -> num_integral y = Some s -> 0 <= t < 2 ^ 52 -> 0 < s < 2 ^ 52 ->
  num_integral (bucketTimestamp x y) = Some (t / s * s).
Proof.
  intros Hx Hy Ht Hs. unfold bucketTimestamp.
  pose proof (Z.mul_div_le t s ltac:(lia)). pose proof (Z.div_pos t s ltac:(lia) ltac:(lia)).
  apply num_mul_integral; [by apply num_floor_div|done|done|lia|nia].
Qed.

(** [a], [a + s], [a + 2 s], ... *)
Fixpoint steps (n : nat) (a s : Z) : list Z :=
  match n with O => [] | S n => a :: steps n (a + s) s end.

Lemma steps_length n a s : length (steps n a s) = n.
Proof. revert a; induction n as [|n IH]; intros a; cbn; [done|by rewrite IH]. Qed.

Lemma steps_lookup n a s i : (i < n)%nat -> steps n a s !! i = Some (a + s * Z.of_nat i).
Proof.
  revert a i; induction n as [|n IH]; intros a [|i] Hi; [lia|lia|cbn; f_equal; lia|].
  cbn. rewrite IH by lia. f_equal. lia.
Qed.

(** The number of buckets from [a] to [e]. *)
Definition bucket_count (a e s : Z) : nat := Z.to_nat ((e - a) / s + 1).

Lemma bucket_loop_ends fuel x y z a e s :
  num_integral x = Some a -> num_integral y = Some e -> num_integral z = Some s ->
  0 <= a -> 0 <= e < 2 ^ 52 -> 0 < s < 2 ^ 52 -> a < 2 ^ 53 -> (bucket_count a e s <= fuel)%nat ->
  exists l, bucket_loop fuel x y z = Ok l
    /\ Forall2 (fun n t => num_integral n = Some t) l (steps (bucket_count a e s) a s).
Proof.
  intros Hx Hy Hz Ha He Hs. revert x a Hx Ha. induction fuel as [|fuel IH]; intros x a Hx Ha Ha53 Hf; cbn [bucket_loop];
    rewrite (num_leb_integral x y a e) by done.
  - destruct (Z.leb_spec a e) as [Hle|Hgt]; cbn [negb].
    + exfalso. unfold bucket_count in Hf. pose proof (Z.div_pos (e - a) s ltac:(lia) ltac:(lia)). lia.
    + exists []. split; [done|]. unfold bucket_count.
      pose proof (Z.div_lt_upper_bound (e - a) s 0 ltac:(lia) ltac:(lia)).
      replace (Z.to_nat ((e - a) / s + 1)) with 0%nat by lia. constructor.
  - destruct (Z.leb_spec a e) as [Hle|Hgt]; cbn [negb].
    + assert (bucket_count a e s = S (bucket_count (a + s) e s)) as Hc.
      { unfold bucket_count. replace (e - (a + s)) with (e - a + -1 * s) by lia. rewrite Z.div_add by lia.
        pose proof (Z.div_pos (e - a) s ltac:(lia) ltac:(lia)). lia. }
      destruct (IH (num_add x z) (a + s)) as (l & -> & Hl); [apply num_add_integral; [done|done|lia]|lia|lia|lia|].
      exists (x :: l). split; [done|]. rewrite Hc. cbn [steps]. by constructor.
    + exists []. split; [done|]. unfold bucket_count.
      pose proof (Z.div_lt_upper_bound (e - a) s 0 ltac:(lia) ltac:(lia)).
      replace (Z.to_nat ((e - a) / s + 1)) with 0%nat by lia. constructor.
Qed.

(** ** The window of a range *)

(** The window of a chart in whole seconds. *)
Definition window_start (range : AnalyticsRange) (anchor created : Z) : Z :=
  match ANALYTICS_RANGE_CONFIG range with
  | Some config => Z.max created (anchor - rc_windowSeconds config)
  | None => created
  end.
Definition window_bucket (range : AnalyticsRange) (anchor created : Z) : Z :=
  match ANALYTICS_RANGE_CONFIG range with
  | Some config => rc_bucketSeconds config
  | None => Z.max (24 * 60 * 60) ((anchor - created) / 12)
  end.

Lemma window_integral range x y a c :
  seconds x a -> seconds y c -> c <= a ->
  let w := getRangeWindow range x y in
  num_integral (rw_start w) = Some (window_start range a c)
  /\ rw_end w = x
  /\ num_integral (rw_bucketSeconds w) = Some (window_bucket range a c).
Proof.
  intros [Hx Ha] [Hy Hc] Hca. unfold getRangeWindow, window_start, window_bucket.
  assert (forall k, 0 <= k < 2 ^ 52 -> num_integral (math_max y (num_sub x (num_of_Z k))) = Some (Z.max c (a - k))) as Hstart.
  { intros k Hk. apply math_max_integral; [done|]. apply num_sub_integral; [done| |lia].
    apply num_integral_of_Z. lia. }
  destruct (ANALYTICS_RANGE_CONFIG range) as [config|] eqn:Ec; cbn [rw_start rw_end rw_bucketSeconds].
  - split; [|split; [done|]].
    + apply Hstart. destruct range; simplify_eq/=; lia.
    + apply num_integral_of_Z. destruct range; simplify_eq/=; lia.
  - split; [done|]. split; [done|].
    assert (num_integral (num_floor (num_div (num_sub x y) (num_of_Z 12))) = Some ((a - c) / 12)) as Hfl.
    { apply num_floor_div; [apply num_sub_integral; [done|done|lia]|by apply num_integral_of_Z|lia|lia]. }
    assert (num_integral DAY = Some (24 * 60 * 60)) as Hday by (by apply num_integral_of_Z).
    unfold num_or. rewrite (is_nan_integral _ _ Hfl). cbn [orb].
    rewrite (num_eqb_integral _ num_zero _ 0 Hfl) by done.
    destruct (Z.eqb_spec ((a - c) / 12) 0) as [E|_].
    + rewrite (math_max_integral _ _ _ _ Hday Hday), E. reflexivity.
    + by rewrite (math_max_integral _ _ _ _ Hday Hfl).
Qed.

(** A chart has at most 54 buckets. *)
Definition max_buckets : nat := 54.

Lemma window_buckets range a c :
  0 <= c <= a -> a < 2 ^ 52 ->
  let s := window_bucket range a c in let b := window_start range a c in
  0 < s < 2 ^ 52 /\ 0 <= b <= a /\ c <= b /\ (bucket_count (b / s * s) (a / s * s) s <= max_buckets)%nat.
Proof.
  intros Hc Ha. cbv zeta.
  assert (forall b s, 0 < s -> bucket_count (b / s * s) (a / s * s) s = Z.to_nat (a / s - b / s + 1)) as Hcount.
  { intros b s Hs. unfold bucket_count. rewrite <- Z.mul_sub_distr_r, Z.div_mul by lia. done. }
  assert (forall k n s, 0 < s -> k <= s * n -> a / s - Z.max c (a - k) / s <= n) as Hfixed.
  { intros k n s Hs Hk. assert ((a - s * n) / s = a / s - n) as E.
    { replace (a - s * n) with (a + - n * s) by ring. rewrite Z.div_add by lia. lia. }
    pose proof (Z.div_le_mono (a - s * n) (Z.max c (a - k)) s ltac:(lia) ltac:(lia)). lia. }
  unfold window_bucket, window_start, max_buckets.
  destruct (ANALYTICS_RANGE_CONFIG range) as [config|] eqn:Ec.
  - assert (0 < rc_bucketSeconds config < 2 ^ 52 /\ 0 <= rc_windowSeconds config <= rc_bucketSeconds config * 53) as [Hs Hw].
    { destruct range; simplify_eq/=; lia. }
    split; [done|]. split; [lia|]. split; [lia|]. rewrite Hcount by lia.
    pose proof (Hfixed (rc_windowSeconds config) 53 (rc_bucketSeconds config) ltac:(lia) ltac:(lia)). lia.
  - set (s := Z.max (24 * 60 * 60) ((a - c) / 12)).
    pose proof (Z.mul_succ_div_gt (a - c) 12 ltac:(lia)).
    pose proof (Z.div_le_upper_bound (a - c) 12 a ltac:(lia) ltac:(lia)).
    split; [unfold s; lia|]. split; [lia|]. split; [lia|]. rewrite Hcount by (unfold s; lia).
    pose proof (Hfixed (a - c) 13 s ltac:(unfold s; lia) ltac:(unfold s; lia)).
    replace (Z.max c (a - (a - c))) with c in * by lia. lia.
Qed.

(** ** The points of a chart *)

(** Points at the starts [zs] of their buckets. *)
Definition points_at (points : list AnalyticsPoint) (zs : list Z) : Prop :=
  Forall2 (fun p z => num_integral (an_timestamp p) = Some z) points zs.

Definition keeps_time (h : AnalyticsPoint -> AnalyticsPoint) : Prop :=
  forall p, an_timestamp (h p) = an_timestamp p.

Lemma points_at_fmap h points zs : keeps_time h -> points_at points zs -> points_at (h <$> points) zs.
Proof. intros Hh Hp. induction Hp; cbn; constructor; [by rewrite Hh|done]. Qed.

Lemma update_point_fmap key k f g points zs :
  points_at points zs -> NoDup zs -> num_integral key = Some k -> (forall p, f p = Ok (g p)) ->
  update_point key f points
  = Ok ((fun p => if num_eqb (an_timestamp p) key then g p else p) <$> points).
Proof.
  intros Hp Hn Hk Hf. induction Hp as [|p z points zs Hz Hp IH]; [done|]. cbn [update_point fmap list_fmap].
  apply NoDup_cons in Hn as [Hzn Hn]. rewrite (num_eqb_integral _ key z k) by done.
  destruct (Z.eqb_spec z k) as [->|Hne].
  - rewrite Hf. cbn [res_bind]. do 2 f_equal. clear -Hp Hzn Hk. symmetry. apply fmap_id_on.
    induction Hp as [|q y points zs Hy Hp IH]; constructor.
    + rewrite (num_eqb_integral _ key y k) by done. destruct (Z.eqb_spec y k) as [->|]; [set_solver|done].
    + apply IH. set_solver.
  - rewrite IH by done. done.
Qed.

Lemma each_point_fmap {A} f (h : A -> AnalyticsPoint -> AnalyticsPoint) xs points zs :
  (forall x, keeps_time (h x)) ->
  (forall x points, x ∈ xs -> points_at points zs -> f x points = Ok (h x <$> points)) ->
  points_at points zs ->
  each_point f xs points = Ok ((fun p => foldl (fun p x => h x p) p xs) <$> points).
Proof.
  intros Hh. revert points. induction xs as [|x xs IH]; intros points Hf Hp; cbn [each_point].
  - by rewrite (list_fmap_ext _ id), list_fmap_id by done.
  - rewrite Hf by (done || set_solver). cbn [res_bind].
    rewrite IH; [|intros y q Hy; apply Hf; set_solver|by apply points_at_fmap].
    by rewrite <- list_fmap_compose.
Qed.

Lemma foldl_keeps {A} (h : A -> AnalyticsPoint -> AnalyticsPoint) xs p :
  (forall x, keeps_time (h x)) -> an_timestamp (foldl (fun p x => h x p) p xs) = an_timestamp p.
Proof. intros Hh. revert p. induction xs as [|x xs IH]; intros p; cbn; [done|]. by rewrite IH, Hh. Qed.

Lemma foldl_unchanged {A B} (h : A -> AnalyticsPoint -> AnalyticsPoint) (get : AnalyticsPoint -> B) xs p :
  (forall x p, get (h x p) = get p) -> get (foldl (fun p x => h x p) p xs) = get p.
Proof. intros Hh. revert p. induction xs as [|x xs IH]; intros p; cbn; [done|]. by rewrite IH, Hh. Qed.

(** What the last of the elements at a bucket leaves there. *)
Lemma foldl_last {A B} (h : A -> AnalyticsPoint -> AnalyticsPoint) (get : AnalyticsPoint -> B) (value : A -> B)
    (at_key : A -> num -> bool) xs p :
  (forall x, keeps_time (h x)) ->
  (forall x p, get (h x p) = if at_key x (an_timestamp p) then value x else get p) ->
  get (foldl (fun p x => h x p) p xs)
  = from_option value (get p) (last (keep (fun x => at_key x (an_timestamp p)) xs)).
Proof.
  intros Hh Hg. induction xs as [|x xs IH] using rev_ind; [done|].
  rewrite foldl_app, keep_app. cbn [foldl]. rewrite Hg, foldl_keeps by done. cbn [keep].
  destruct (at_key x (an_timestamp p)); [by rewrite last_snoc|]. by rewrite app_nil_r.
Qed.

(** ** Carrying forward *)

Lemma carry_forward_length lp ll points : length (carry_forward lp ll points) = length points.
Proof. revert lp ll; induction points as [|p points IH]; intros lp ll; cbn; [done|by rewrite IH]. Qed.

Lemma carry_forward_lookup points lp ll i p :
  points !! i = Some p ->
  exists q, carry_forward lp ll points !! i = Some q
    /\ an_timestamp q = an_timestamp p /\ an_volume q = an_volume p
    /\ an_price q = from_option Some lp (last (omap an_price (take (S i) points)))
    /\ an_liquidity q = from_option Some ll (last (omap an_liquidity (take (S i) points))).
Proof.
  revert lp ll i. induction points as [|r points IH]; intros lp ll i Hi; [done|].
  cbn [carry_forward]. destruct i as [|i].
  - injection Hi as ->. eexists. split; [reflexivity|]. cbn.
    destruct (an_price p), (an_liquidity p); done.
  - cbn in Hi. eapply IH in Hi as (q & Hq & Ht & Hv & Hpr & Hl). exists q. split; [exact Hq|].
    split; [done|]. split; [done|]. rewrite Hpr, Hl. change (take (S (S i)) (r :: points)) with (r :: take (S i) points).
    cbn [omap list_omap]. split.
    + destruct (an_price r); [|done]. rewrite last_cons. by destruct (last (omap an_price _)).
    + destruct (an_liquidity r); [|done]. rewrite last_cons. by destruct (last (omap an_liquidity _)).
Qed.

(** ** Sorted lists *)

(** Comparisons of keys, as propositions. *)
Ltac key_lia := repeat setoid_rewrite orb_true_iff; repeat setoid_rewrite andb_true_iff; repeat setoid_rewrite orb_true_iff;
  repeat setoid_rewrite andb_true_iff; repeat setoid_rewrite Z.ltb_lt; repeat setoid_rewrite Z.eqb_eq;
  repeat setoid_rewrite Z.leb_le; lia.

Lemma sort_by_id {A} (le : A -> A -> bool) l :
  StronglySorted (fun a b => le a b = true) l -> sort_by le l = l.
Proof.
  induction 1 as [|a l Hl IH Ha]; [done|]. cbn [sort_by foldr]. fold (sort_by le l). rewrite IH.
  destruct Ha as [|b l Hb _]; [done|]. cbn. by rewrite Hb.
Qed.

Lemma keep_sorted {A} (R : A -> A -> Prop) (p : A -> bool) l : StronglySorted R l -> StronglySorted R (keep p l).
Proof.
  induction 1 as [|a l Hl IH Ha]; cbn; [constructor|]. destruct (p a); [|done]. constructor; [done|].
  rewrite Forall_forall in *. intros y [Hy _]%elem_of_keep. auto.
Qed.

(** A sorted list is cut in two by any bound. *)
Lemma keep_sorted_cut {A} (f : A -> Z) l a b :
  a <= b -> StronglySorted (fun x y => f x <= f y) l ->
  keep (fun x => f x <? b) l
  = (keep (fun x => f x <? a) l ++ keep (fun x => (a <=? f x) && (f x <? b)) l)%list.
Proof.
  intros Hab. induction 1 as [|x l Hl IH Hx]; [done|]. cbn [keep].
  destruct (Z.ltb_spec (f x) a), (Z.leb_spec a (f x)); try lia; cbn [andb].
  - destruct (Z.ltb_spec (f x) b); [|lia]. cbn. by rewrite IH.
  - assert (keep (fun y => f y <? a) l = []) as Hnil.
    { clear -Hx H0. induction Hx as [|y l Hy Hx IH]; cbn; [done|].
      destruct (Z.ltb_spec (f y) a); [lia|done]. }
    rewrite Hnil in *. cbn [app] in *. by rewrite IH.
Qed.

Lemma last_app_case {A} (l1 l2 : list A) :
  last (l1 ++ l2)%list = match last l2 with Some x => Some x | None => last l1 end.
Proof.
  destruct l2 as [|x l2] using rev_ind; [by rewrite app_nil_r|].
  by rewrite app_assoc, !last_snoc.
Qed.

(** The last known value among the last elements of the buckets is that of the last element
    of all. *)
Lemma last_of_buckets {A B} (f : A -> Z) (value : A -> option B) (l : list A) z s n :
  0 < s -> StronglySorted (fun x y => f x <= f y) l -> Forall (fun x => z <= f x) l ->
  Forall (fun x => is_Some (value x)) l ->
  last (omap (fun t => last (keep (fun x => (t <=? f x) && (f x <? t + s)) l) ≫= value) (steps n z s))
  = last (keep (fun x => f x <? z + s * Z.of_nat n) l) ≫= value.
Proof.
  intros Hs Hl Hz Hv. induction n as [|n IH].
  - cbn [steps omap list_omap last]. assert (keep (fun x => f x <? z + s * Z.of_nat 0) l = []) as ->; [|done].
    clear -Hz. induction Hz as [|x l Hx Hz IH]; cbn [keep]; [done|].
    destruct (Z.ltb_spec (f x) (z + s * Z.of_nat 0)); [lia|done].
  - assert (forall m a, steps (S m) a s = (steps m a s ++ [a + s * Z.of_nat m])%list) as Hsnoc.
    { induction m as [|m IHm]; intros a; [cbn; do 2 f_equal; lia|].
      change (steps (S (S m)) a s) with (a :: steps (S m) (a + s) s). rewrite IHm. cbn. do 3 f_equal. lia. }
    rewrite Hsnoc, omap_app, last_app_case, IH.
    rewrite (keep_sorted_cut f l (z + s * Z.of_nat n) (z + s * Z.of_nat (S n))) by (done || lia).
    rewrite last_app_case. replace (z + s * Z.of_nat (S n)) with (z + s * Z.of_nat n + s) by lia.
    set (t := z + s * Z.of_nat n). cbn [omap list_omap].
    destruct (last (keep (fun x => (t <=? f x) && (f x <? t + s)) l)) as [x|] eqn:E; [|done].
    cbn. rewrite last_Some in E. destruct E as [l' E].
    assert (x ∈ l) as Hx by (eapply elem_of_keep; rewrite E; set_solver).
    rewrite Forall_forall in Hv. destruct (Hv x Hx) as [v ->]. done.
Qed.

Lemma steps_take n a s i : (i <= n)%nat -> take i (steps n a s) = steps i a s.
Proof.
  revert a i; induction n as [|n IH]; intros a [|i] Hi; [done|lia|done|]. cbn. by rewrite IH by lia.
Qed.

Lemma steps_NoDup n a s : 0 < s -> NoDup (steps n a s).
Proof.
  intros Hs. revert a; induction n as [|n IH]; intros a; cbn; [constructor|]. constructor; [|done].
  intros [i Hi]%list_elem_of_lookup. assert (i < n)%nat as Hin.
  { apply lookup_lt_Some in Hi. by rewrite steps_length in Hi. }
  rewrite steps_lookup in Hi by done. injection Hi as Hi. lia.
Qed.

(** Related lists pick related elements. *)
Lemma omap_Forall2 {A B C} (f : A -> option C) (g : B -> option C) l k :
  Forall2 (fun a b => f a = g b) l k -> omap f l = omap g k.
Proof. induction 1 as [|a b l k Hab _ IH]; cbn; [done|]. by rewrite Hab, IH. Qed.

Lemma keep_keep {A} (p r : A -> bool) l : keep p (keep r l) = keep (fun a => r a && p a) l.
Proof.
  induction l as [|a l IH]; cbn; [done|]. destruct (r a); cbn; [|done]. by rewrite IH.
Qed.

Lemma keep_ext_in {A} (p r : A -> bool) l : Forall (fun a => p a = r a) l -> keep p l = keep r l.
Proof. induction 1 as [|a l Ha _ IH]; cbn; [done|]. by rewrite Ha, IH. Qed.

(** The multiple of [s] below [t]. *)
Lemma multiple_below z t s : 0 < s -> (z * s =? t / s * s) = (z * s <=? t) && (t <? z * s + s).
Proof.
  intros Hs. pose proof (Z.mul_div_le t s Hs). pose proof (Z.mul_succ_div_gt t s Hs).
  destruct (Z.eqb_spec (z * s) (t / s * s)) as [->|Hne].
  - symmetry. apply andb_true_iff. rewrite Z.leb_le, Z.ltb_lt. lia.
  - symmetry. apply andb_false_iff. rewrite Z.leb_gt, Z.ltb_ge.
    destruct (Z.lt_ge_cases t (z * s)); [by left|]. destruct (Z.le_gt_cases (z * s + s) t); [by right|].
    destruct Hne. f_equal. apply Z.div_unique with (t - z * s); lia.
Qed.

Lemma steps_sorted n a s : 0 < s -> StronglySorted Z.le (steps n a s).
Proof.
  intros Hs. revert a; induction n as [|n IH]; intros a; cbn; constructor; [done|].
  rewrite Forall_forall. intros y [i Hi]%list_elem_of_lookup. assert (i < n)%nat as Hin.
  { apply lookup_lt_Some in Hi. by rewrite steps_length in Hi. }
  rewrite steps_lookup in Hi by done. injection Hi as <-. lia.
Qed.

Lemma steps_bounded a e s : 0 < s -> a <= e + s -> Forall (fun z => a <= z <= e) (steps (bucket_count a e s) a s).
Proof.
  intros Hs Hae. rewrite Forall_forall. intros y [i Hi]%list_elem_of_lookup.
  assert (i < bucket_count a e s)%nat as Hin.
  { apply lookup_lt_Some in Hi. by rewrite steps_length in Hi. }
  rewrite steps_lookup in Hi by done. injection Hi as <-. unfold bucket_count in Hin.
  pose proof (Z.mul_div_le (e - a) s Hs). nia.
Qed.

(** Points at increasing times are sorted. *)
Lemma points_sorted points zs :
  points_at points zs -> StronglySorted Z.le zs -> Forall (fun z => 0 <= z < 2 ^ 52) zs ->
  StronglySorted (fun a b => point_le a b = true) points.
Proof.
  intros Hp. induction Hp as [|p z points zs Hz Hp IH]; intros Hs Hb; [constructor|].
  apply StronglySorted_inv in Hs as [Hs Hle]. apply Forall_cons in Hb as [Hbz Hb].
  constructor; [by apply IH|]. clear IH Hs.
  induction Hp as [|r y points zs Hy Hp IH]; constructor.
  - apply Forall_cons in Hle as [Hzy _]. apply Forall_cons in Hb as [Hby _]. unfold point_le.
    rewrite (seconds_later _ _ y z) by done. by apply Z.leb_le.
  - apply Forall_cons in Hle as [_ Hle]. apply Forall_cons in Hb as [_ Hb]. by apply IH.
Qed.

(** ** The order of the snapshots *)

Definition time_of (sn : ReserveSnapshot) : Z := default 0 (num_integral (sn_timestamp sn)).

Lemma snapshot_le_key x y a b :
  seconds (sn_timestamp x) a -> seconds (sn_timestamp y) b ->
  sortReserveSnapshots x y
  = (a <? b) || (a =? b) && ((sn_blockNumber x <? sn_blockNumber y)
                              || (sn_blockNumber x =? sn_blockNumber y) && (sn_logIndex x <=? sn_logIndex y)).
Proof.
  intros Hx Hy. unfold sortReserveSnapshots.
  rewrite (seconds_eqb _ _ a b), (seconds_later _ _ b a) by done.
  destruct (Z.eqb_spec a b), (Z.leb_spec a b), (Z.ltb_spec a b); try lia; cbn; try done.
  destruct (Z.eqb_spec (sn_blockNumber x) (sn_blockNumber y)),
    (Z.ltb_spec (sn_blockNumber x) (sn_blockNumber y)); try lia; cbn; try done.
  destruct (Z.eqb_spec (sn_logIndex x) (sn_logIndex y)), (Z.ltb_spec (sn_logIndex x) (sn_logIndex y)),
    (Z.leb_spec (sn_logIndex x) (sn_logIndex y)); done || lia.
Qed.

Lemma snapshot_order_total x y a b :
  seconds (sn_timestamp x) a -> seconds (sn_timestamp y) b ->
  sortReserveSnapshots x y = true \/ sortReserveSnapshots y x = true.
Proof.
  intros Hx Hy. rewrite (snapshot_le_key x y a b), (snapshot_le_key y x b a) by done. key_lia.
Qed.

Lemma snapshot_order_trans x y z a b c :
  seconds (sn_timestamp x) a -> seconds (sn_timestamp y) b -> seconds (sn_timestamp z) c ->
  sortReserveSnapshots x y = true -> sortReserveSnapshots y z = true -> sortReserveSnapshots x z = true.
Proof.
  intros Hx Hy Hz.
  rewrite (snapshot_le_key x y a b), (snapshot_le_key y z b c), (snapshot_le_key x z a c) by done. key_lia.
Qed.

Lemma timed_total x y :
  (exists t, seconds (sn_timestamp x) t) -> (exists t, seconds (sn_timestamp y) t) ->
  sortReserveSnapshots x y = true \/ sortReserveSnapshots y x = true.
Proof. intros [a Ha] [b Hb]. by eapply snapshot_order_total. Qed.

Lemma timed_trans x y z :
  (exists t, seconds (sn_timestamp x) t) -> (exists t, seconds (sn_timestamp y) t) ->
  (exists t, seconds (sn_timestamp z) t) ->
  sortReserveSnapshots x y = true -> sortReserveSnapshots y z = true -> sortReserveSnapshots x z = true.
Proof. intros [a Ha] [b Hb] [c Hc]. by apply (snapshot_order_trans x y z a b c). Qed.

Lemma sorted_snapshots l :
  Forall (fun sn => exists t, seconds (sn_timestamp sn) t) l ->
  StronglySorted (fun x y => time_of x <= time_of y) (sort_by sortReserveSnapshots l).
Proof.
  intros Hl. assert (StronglySorted (fun a b => sortReserveSnapshots a b = true) (sort_by sortReserveSnapshots l)) as Hs.
  { by apply (sort_by_sorted _ _ timed_total timed_trans). }
  assert (Forall (fun sn => exists t, seconds (sn_timestamp sn) t) (sort_by sortReserveSnapshots l)) as Ht
    by (by rewrite sort_by_perm).
  clear Hl. induction Hs as [|x l' Hs IH Hx]; [constructor|]. apply Forall_cons in Ht as [[a Ha] Ht].
  constructor; [by apply IH|]. rewrite Forall_forall in *. intros y Hy.
  destruct (Ht y Hy) as [b Hb]. specialize (Hx y Hy). rewrite (snapshot_le_key x y a b) in Hx by done.
  unfold time_of. destruct Ha as [-> _], Hb as [-> _]. cbn. revert Hx. key_lia.
Qed.

(** ** The chart of a pool *)

Lemma pow10_whole x d : num_integral x = Some d -> 0 <= d -> pow10 x = Ok (10 ^ d).
Proof. intros Hx Hd. unfold pow10, bigint_of_num. rewrite Hx. by destruct (Z.ltb_spec d 0); [lia|]. Qed.

Section chart.
Variable pl : page_locale.
Variable cl : chart_locale.
Variable pool : PoolDetailViewModel.
Variable q : quote_index.
Variable activities : list PoolActivityViewModel.
Variable range : AnalyticsRange.
Variable locale : string.

Definition pool_snapshots : list ReserveSnapshot := buildReserveSnapshots (pl_localeCompare pl) pool activities.

(** The price and the liquidity after an event. *)
Definition price_after (sn : ReserveSnapshot) : option num :=
  match calculatePriceValue pl (sn_reserve0 sn) (sn_reserve1 sn) (decimals0 pool) (decimals1 pool) q with
  | Ok price => price
  | Throw _ => None
  end.
Definition liquidity_after (sn : ReserveSnapshot) : option num :=
  match getLiquidityValue pl (sn_reserve0 sn) (sn_reserve1 sn) (decimals0 pool) (decimals1 pool) q with
  | Ok liquidity => liquidity
  | Throw _ => None
  end.

(** Timestamps in seconds, decimals that [BigInt] takes. *)
Definition whole_decimals : Prop :=
  (exists d, num_integral (decimals0 pool) = Some d /\ 0 <= d)
  /\ (exists d, num_integral (decimals1 pool) = Some d /\ 0 <= d).
Definition timed : Prop := Forall (fun a => exists t, seconds (act_timestamp a) t) activities.

Variable created latest : Z.
Hypothesis Hcreated : seconds (pd_createdAtTimestamp pool) created.
Hypothesis Hlatest : seconds (latest_timestamp pool activities) latest.
Hypothesis Horder : created <= latest.
Hypothesis Hdecimals : whole_decimals.
Hypothesis Htimed : timed.

Let s : Z := window_bucket range latest created.
Let start : Z := window_start range latest created.
Let w : range_window := getRangeWindow range (latest_timestamp pool activities) (pd_createdAtTimestamp pool).
Let n : nat := bucket_count (start / s * s) (latest / s * s) s.
Let zs : list Z := steps n (start / s * s) s.

Lemma price_computed r0 r1 :
  exists p, calculatePriceValue pl r0 r1 (decimals0 pool) (decimals1 pool) q = Ok p.
Proof.
  destruct Hdecimals as [(a & Ha & Pa) (b & Hb & Pb)]. unfold calculatePriceValue, formatPoolPrice.
  destruct q; rewrite ?(pow10_whole (decimals0 pool) a Ha Pa), ?(pow10_whole (decimals1 pool) b Hb Pb); cbn [res_bind].
  all: repeat (case_match; cbn [res_bind]; try (eexists; reflexivity)).
Qed.

Lemma liquidity_computed r0 r1 :
  exists l, getLiquidityValue pl r0 r1 (decimals0 pool) (decimals1 pool) q = Ok l.
Proof.
  unfold getLiquidityValue. destruct (price_computed r0 r1) as [p ->]. cbn [res_bind]. eexists. reflexivity.
Qed.

Lemma snapshots_timed : Forall (fun sn => exists t, seconds (sn_timestamp sn) t) pool_snapshots.
Proof using Hcreated Htimed.
  clear s start w n zs Hlatest Horder Hdecimals latest.
  assert (forall sn, sn ∈ omap sync_snapshot activities -> exists t, seconds (sn_timestamp sn) t) as Hsync.
  { intros sn (a & Ha & Hsn)%list_elem_of_omap. unfold timed in Htimed. rewrite Forall_forall in Htimed.
    destruct (Htimed a Ha) as [t Ht]. exists t. unfold sync_snapshot in Hsn. destruct (act_kind a); by simplify_eq/=. }
  assert (forall l r0 r1 sn, Forall (fun a => exists t, seconds (act_timestamp a) t) l ->
            sn ∈ (walk_back l r0 r1).1 -> exists t, seconds (sn_timestamp sn) t) as Hwalk.
  { induction l as [|a l IH]; intros r0 r1 sn Hl; cbn; [set_solver|].
    apply Forall_cons in Hl as [Ha Hl]. destruct (undo _ _ _) as [b0 b1].
    destruct (walk_back l b0 b1) as [sns left] eqn:E. cbn. intros [->|Hin]%elem_of_cons; [done|].
    apply (IH b0 b1); [done|]. by rewrite E. }
  unfold pool_snapshots, buildReserveSnapshots. rewrite Forall_forall. intros sn.
  destruct (omap sync_snapshot activities) as [|x l] eqn:E.
  - destruct (walk_back _ _ _) as [sns [r0 r1]] eqn:Ew. rewrite sort_by_perm, elem_of_app.
    intros [Hin|Hin].
    + eapply (Hwalk _ _ _ sn); [|by rewrite Ew].
      rewrite Forall_forall. unfold timed in Htimed. rewrite Forall_forall in Htimed. intros a Ha. apply Htimed.
      apply list_elem_of_In, in_rev, list_elem_of_In in Ha. rewrite sort_by_perm in Ha. by apply elem_of_keep in Ha as [? _].
    + apply list_elem_of_singleton in Hin as ->. by exists created.
  - rewrite sort_by_perm. apply Hsync.
Qed.

(** What a snapshot and an activity do to a point. *)
Definition in_bucket (sn : ReserveSnapshot) (timestamp : num) : bool :=
  negb (num_ltb (sn_timestamp sn) (rw_start w))
  && num_eqb timestamp (bucketTimestamp (sn_timestamp sn) (rw_bucketSeconds w)).

Definition show_snapshot (sn : ReserveSnapshot) (p : AnalyticsPoint) : AnalyticsPoint :=
  if in_bucket sn (an_timestamp p)
  then {| an_label := an_label p; an_timestamp := an_timestamp p; an_price := price_after sn;
          an_volume := an_volume p; an_liquidity := liquidity_after sn |}
  else p.

Definition add_activity (a : PoolActivityViewModel) (p : AnalyticsPoint) : AnalyticsPoint :=
  if negb (num_ltb (act_timestamp a) (rw_start w) || num_ltb (rw_end w) (act_timestamp a))
     && num_eqb (an_timestamp p) (bucketTimestamp (act_timestamp a) (rw_bucketSeconds w))
  then {| an_label := an_label p; an_timestamp := an_timestamp p; an_price := an_price p;
          an_volume := num_add (an_volume p) (getSwapVolumeValue pl a (decimals0 pool) (decimals1 pool) q);
          an_liquidity := an_liquidity p |}
  else p.

Lemma show_snapshot_time sn : keeps_time (show_snapshot sn).
Proof. intros p. unfold show_snapshot. by destruct (in_bucket _ _). Qed.
Lemma add_activity_time a : keeps_time (add_activity a).
Proof. intros p. unfold add_activity. by destruct (_ && _). Qed.

Lemma window_whole :
  num_integral (rw_start w) = Some start /\ num_integral (rw_end w) = Some latest
  /\ num_integral (rw_bucketSeconds w) = Some s
  /\ 0 < s < 2 ^ 52 /\ 0 <= start <= latest /\ created <= start /\ (n <= max_buckets)%nat.
Proof.
  destruct (window_integral range _ _ latest created Hlatest Hcreated Horder) as (H1 & H2 & H3).
  destruct Hlatest as [Hl Pl]. destruct Hcreated as [_ Pc].
  destruct (window_buckets range latest created) as (Hs & Hst & Hcs & Hn); [lia|lia|].
  unfold w. rewrite H2. unfold n, s, start. split; [exact H1|]. split; [exact Hl|]. split; [exact H3|]. done.
Qed.

Lemma bucket_whole x t : seconds x t -> num_integral (bucketTimestamp x (rw_bucketSeconds w)) = Some (t / s * s).
Proof.
  intros [Hx Ht]. destruct window_whole as (_ & _ & Hb & Hs & _). by apply bucket_integral.
Qed.

Lemma apply_snapshot_fmap sn points :
  sn ∈ pool_snapshots -> points_at points zs ->
  apply_snapshot pl pool q w sn points = Ok (show_snapshot sn <$> points).
Proof.
  intros Hsn Hp. pose proof snapshots_timed as Ht. rewrite Forall_forall in Ht. destruct (Ht sn Hsn) as [t Hst].
  unfold apply_snapshot, show_snapshot, in_bucket. destruct (num_ltb _ _); cbn [negb andb].
  { by rewrite (list_fmap_ext _ id), list_fmap_id by done. }
  destruct window_whole as (_ & _ & _ & Hs & _).
  apply (update_point_fmap _ (t / s * s) _ _ _ zs); [done|unfold zs; apply steps_NoDup; lia|by apply bucket_whole|].
  intros p. unfold price_after, liquidity_after.
  destruct (price_computed (sn_reserve0 sn) (sn_reserve1 sn)) as [pr ->].
  destruct (liquidity_computed (sn_reserve0 sn) (sn_reserve1 sn)) as [li ->]. done.
Qed.

Lemma apply_activity_fmap a points :
  a ∈ activities -> points_at points zs ->
  apply_activity pl pool q w a points = Ok (add_activity a <$> points).
Proof.
  intros Ha Hp. unfold timed in Htimed. rewrite Forall_forall in Htimed. destruct (Htimed a Ha) as [t Hat].
  unfold apply_activity, add_activity. destruct (num_ltb _ _ || num_ltb _ _); cbn [negb andb].
  { by rewrite (list_fmap_ext _ id), list_fmap_id by done. }
  destruct window_whole as (_ & _ & _ & Hs & _).
  apply (update_point_fmap _ (t / s * s) _ _ _ zs); [done|unfold zs; apply steps_NoDup; lia|by apply bucket_whole|done].
Qed.

(** The snapshots of the window, and those of a bucket. *)
Definition windowed : list ReserveSnapshot := keep (fun sn => start <=? time_of sn) pool_snapshots.
Definition bucket_last (value : ReserveSnapshot -> option num) (z : Z) : option num :=
  last (keep (fun sn => (z <=? time_of sn) && (time_of sn <? z + s)) windowed) ≫= value.

Lemma zs_multiple z : z ∈ zs -> exists k, z = k * s.
Proof.
  intros [i Hi]%list_elem_of_lookup. assert (i < n)%nat as Hin.
  { apply lookup_lt_Some in Hi. unfold zs in Hi. by rewrite steps_length in Hi. }
  unfold zs in Hi. rewrite steps_lookup in Hi by done. injection Hi as <-.
  exists (start / s + Z.of_nat i). ring.
Qed.

Lemma in_bucket_whole x z :
  num_integral x = Some z -> z ∈ zs ->
  keep (fun sn => in_bucket sn x) pool_snapshots
  = keep (fun sn => (z <=? time_of sn) && (time_of sn <? z + s)) windowed.
Proof.
  intros Hx [k ->]%zs_multiple. unfold windowed. rewrite keep_keep. apply keep_ext_in.
  eapply Forall_impl; [exact snapshots_timed|]. intros sn [t Ht]. unfold in_bucket.
  destruct window_whole as (Hst & _ & _ & Hs & _).
  rewrite (num_eqb_integral _ _ (k * s) (t / s * s)) by (done || by apply bucket_whole).
  rewrite multiple_below by lia. rewrite (num_ltb_integral _ _ t start) by (done || apply Ht).
  assert (time_of sn = t) as -> by (unfold time_of; by destruct Ht as [-> _]).
  f_equal. destruct (Z.ltb_spec t start), (Z.leb_spec start t); done || lia.
Qed.

Definition filled : list num -> list AnalyticsPoint := fun buckets =>
  (fun p => foldl (fun p a => add_activity a p) p activities)
  <$> ((fun p => foldl (fun p sn => show_snapshot sn p) p pool_snapshots)
       <$> (empty_point cl range locale <$> buckets)).

(** A bucket before its values are carried forward. *)
Lemma filled_point x z p :
  num_integral x = Some z -> z ∈ zs ->
  p = foldl (fun p a => add_activity a p)
        (foldl (fun p sn => show_snapshot sn p) (empty_point cl range locale x) pool_snapshots) activities ->
  num_integral (an_timestamp p) = Some z
  /\ an_price p = bucket_last price_after z /\ an_liquidity p = bucket_last liquidity_after z.
Proof.
  intros Hx Hz ->. rewrite !foldl_keeps by (apply add_activity_time || apply show_snapshot_time).
  split; [exact Hx|].
  rewrite (foldl_unchanged _ an_price), (foldl_unchanged _ an_liquidity)
    by (intros a p; unfold add_activity; by destruct (_ && _)).
  unfold bucket_last. rewrite <- (in_bucket_whole x z) by done.
  split.
  - rewrite (foldl_last _ an_price price_after in_bucket) by
      (apply show_snapshot_time || intros sn p; unfold show_snapshot; by destruct (in_bucket _ _)).
    by destruct (last _).
  - rewrite (foldl_last _ an_liquidity liquidity_after in_bucket) by
      (apply show_snapshot_time || intros sn p; unfold show_snapshot; by destruct (in_bucket _ _)).
    by destruct (last _).
Qed.

Lemma filled_points buckets :
  Forall2 (fun x z => num_integral x = Some z) buckets zs ->
  Forall2 (fun p z => num_integral (an_timestamp p) = Some z
                      /\ an_price p = bucket_last price_after z /\ an_liquidity p = bucket_last liquidity_after z)
    (filled buckets) zs.
Proof.
  intros Hb. unfold filled. rewrite <- !list_fmap_compose. apply Forall2_fmap_l.
  apply Forall2_same_length_lookup_2; [by eapply Forall2_length|]. intros i x z Hx Hz. cbn.
  apply (filled_point x z); [exact (Forall2_lookup_lr _ _ _ i x z Hb Hx Hz)|exact (list_elem_of_lookup_2 _ _ _ Hz)|done].
Qed.

Lemma chart_built :
  exists points,
    buildAnalyticsSeries pl cl pool q activities range locale = Ok points
    /\ length points = n
    /\ forall i p, points !! i = Some p ->
         num_integral (an_timestamp p) = Some (start / s * s + s * Z.of_nat i)
         /\ an_price p = last (omap (bucket_last price_after) (steps (S i) (start / s * s) s))
         /\ an_liquidity p = last (omap (bucket_last liquidity_after) (steps (S i) (start / s * s) s)).
Proof.
  destruct window_whole as (Hst & Hend & Hsz & Hs & Hsl & Hcs & Hn).
  destruct Hlatest as [Hli Hlr].
  assert (forall t, 0 <= t <= latest -> 0 <= t / s * s < 2 ^ 52) as Hmult.
  { intros t Ht. pose proof (Z.mul_div_le t s ltac:(lia)). pose proof (Z.div_pos t s ltac:(lia) ltac:(lia)). nia. }
  destruct (bucket_loop_ends bucket_fuel (bucketTimestamp (rw_start w) (rw_bucketSeconds w))
              (bucketTimestamp (rw_end w) (rw_bucketSeconds w)) (rw_bucketSeconds w)
              (start / s * s) (latest / s * s) s) as (buckets & Hloop & Hb).
  { apply bucket_integral; [done|done|lia|lia]. }
  { apply bucket_integral; [done|done|lia|lia]. }
  { done. }
  { apply Hmult. lia. }
  { apply Hmult. lia. }
  { lia. }
  { pose proof (Hmult start ltac:(lia)). lia. }
  { unfold bucket_fuel. unfold max_buckets in Hn. unfold n in Hn. lia. }
  assert (points_at (empty_point cl range locale <$> buckets) zs) as Hempty.
  { clear -Hb. unfold points_at. apply Forall2_fmap_l. exact Hb. }
  assert (points_at ((fun p => foldl (fun p sn => show_snapshot sn p) p pool_snapshots)
                     <$> (empty_point cl range locale <$> buckets)) zs) as Hpriced.
  { apply points_at_fmap; [|done]. intros p. apply foldl_keeps, show_snapshot_time. }
  assert (points_at (filled buckets) zs) as Hfilled.
  { apply points_at_fmap; [|done]. intros p. apply foldl_keeps, add_activity_time. }
  exists (carry_forward None None (filled buckets)).
  assert (length buckets = n) as Hlen by (by rewrite (Forall2_length _ _ _ Hb), steps_length).
  split; [|split].
  - unfold buildAnalyticsSeries. fold pool_snapshots. change (getRangeWindow range _ _) with w. rewrite Hloop. cbn [res_bind].
    rewrite (each_point_fmap _ show_snapshot _ _ zs) by
      (apply show_snapshot_time || done || apply apply_snapshot_fmap). cbn [res_bind].
    rewrite (each_point_fmap _ add_activity _ _ zs) by
      (apply add_activity_time || done || apply apply_activity_fmap). cbn [res_bind].
    fold (filled buckets). rewrite sort_by_id; [done|].
    apply (points_sorted _ zs); [done|apply steps_sorted; lia|].
    pose proof (Hmult start ltac:(lia)). pose proof (Hmult latest ltac:(lia)).
    eapply Forall_impl; [apply steps_bounded; [lia|]|cbn; intros z Hz; lia].
    pose proof (Z.div_le_mono start latest s ltac:(lia) ltac:(lia)). nia.
  - rewrite carry_forward_length. unfold filled. by rewrite !length_fmap.
  - intros i p Hi. assert (i < n)%nat as Hin.
    { rewrite <- Hlen. apply lookup_lt_Some in Hi. rewrite carry_forward_length in Hi. unfold filled in Hi.
      by rewrite !length_fmap in Hi. }
    destruct (lookup_lt_is_Some_2 (filled buckets) i) as [p0 Hp0].
    { unfold filled. by rewrite !length_fmap, Hlen. }
    destruct (carry_forward_lookup _ None None _ _ Hp0) as (p' & Hp' & Ht & _ & Hpr & Hli').
    assert (p' = p) as -> by congruence. clear Hp'.
    pose proof (filled_points buckets Hb) as Hall.
    pose proof (Forall2_lookup_lr _ _ _ i p0 (start / s * s + s * Z.of_nat i) Hall Hp0) as [Hz _].
    { unfold zs. by apply steps_lookup. }
    rewrite Ht, Hpr, Hli'. split; [exact Hz|]. unfold zs in Hall.
    apply (Forall2_take _ _ _ (S i)) in Hall. rewrite steps_take in Hall by lia.
    rewrite (omap_Forall2 an_price (bucket_last price_after) _ (steps (S i) (start / s * s) s)),
      (omap_Forall2 an_liquidity (bucket_last liquidity_after) _ (steps (S i) (start / s * s) s));
      [by repeat destruct (last _)|eapply Forall2_impl; [exact Hall|tauto]..].
Qed.
End chart.

Lemma pool_snapshots_sorted pl pool activities created :
  seconds (pd_createdAtTimestamp pool) created -> timed activities ->
  StronglySorted (fun x y => time_of x <= time_of y) (pool_snapshots pl pool activities).
Proof.
  intros Hc Ht. pose proof (snapshots_timed pl pool activities created Hc Ht) as Hst.
  revert Hst. unfold pool_snapshots, buildReserveSnapshots.
  destruct (omap sync_snapshot activities) as [|x l].
  - destruct (walk_back _ _ _) as [sns [r0 r1]]. intros Hst. rewrite sort_by_perm in Hst. by apply sorted_snapshots.
  - intros Hst. rewrite sort_by_perm in Hst. by apply sorted_snapshots.
Qed.

Lemma last_omap_steps {B} (f g : Z -> option B) n a s :
  (forall z, f z = g z) ->
  last (omap f (steps n a s)) = last (omap (fun k => g (a + s * Z.of_nat k)) (seq 0 n)).
Proof.
  intros Hfg. f_equal. assert (forall m, omap f (steps n (a + s * Z.of_nat m) s)
                                   = omap (fun k => g (a + s * Z.of_nat k)) (seq m n)) as H.
  { induction n as [|n IH]; intros m; [done|]. cbn [steps seq omap list_omap]. rewrite Hfg.
    replace (a + s * Z.of_nat m + s) with (a + s * Z.of_nat (S m)) by lia. by rewrite IH. }
  specialize (H 0%nat). by replace (a + s * Z.of_nat 0) with a in H by lia.
Qed.

(** The value after the last event of a window, among those of the bucket that opens at a time. *)
Definition value_in_bucket (value : ReserveSnapshot -> option num) (start size : Z) (snaps : list ReserveSnapshot) (opens : Z)
  : option num :=
  last (keep (fun sn => (start <=? time_of sn) && ((opens <=? time_of sn) && (time_of sn <? opens + size))) snaps) ≫= value.

(** C12.  The chart of the pool page shows the reserves as they were.  For a pool whose
    timestamps are whole seconds, whose latest activity is not before its creation, and whose
    tokens have whole decimals, the series is computed (the loop over the buckets ends), has at
    most 54 points, one for every bucket from the start of the window to the latest activity.
    Only events at or after the start of the window count.  Each point shows the price and the
    liquidity after the last such event of its bucket, or else of the latest earlier bucket
    where that value is known; so a point before the window's first event shows none.  If they
    are known after every event of the pool, each point shows the price and the liquidity after
    the last event of the window before the end of its bucket, and none if there is no such
    event. *)
Theorem chart_follows_reserves pl cl pool q activities range locale created latest :
  seconds (pd_createdAtTimestamp pool) created ->
  seconds (latest_timestamp pool activities) latest -> created <= latest ->
  whole_decimals pool -> timed activities ->
  let size := window_bucket range latest created in
  let start := window_start range latest created in
  let snaps := pool_snapshots pl pool activities in
  exists points,
    buildAnalyticsSeries pl cl pool q activities range locale = Ok points
    /\ (length points <= 54)%nat
    /\ start / size * size + size * Z.of_nat (length points) = latest / size * size + size
    /\ forall i p, points !! i = Some p ->
         let opens k := start / size * size + size * Z.of_nat k in
         let known value := last (omap (fun k => value_in_bucket value start size snaps (opens k)) (seq 0 (S i))) in
         let shown := last (keep (fun sn => (start <=? time_of sn) && (time_of sn <? opens i + size)) snaps) in
         num_integral (an_timestamp p) = Some (opens i)
         /\ an_price p = known (price_after pl pool q)
         /\ an_liquidity p = known (liquidity_after pl pool q)
         /\ (Forall (fun sn => is_Some (price_after pl pool q sn) /\ is_Some (liquidity_after pl pool q sn)) snaps ->
             an_price p = shown ≫= price_after pl pool q /\ an_liquidity p = shown ≫= liquidity_after pl pool q).
Proof.
  intros Hc Hl Ho Hd Ht size start snaps.
  destruct (chart_built pl cl pool q activities range locale created latest Hc Hl Ho Hd Ht) as (points & Hb & Hn & Hp).
  destruct (window_whole pool activities range created latest Hc Hl Ho) as (_ & _ & _ & Hs & Hst & _ & Hm).
  fold size start in Hs, Hst, Hm, Hn, Hp. exists points. split; [done|].
  split; [by rewrite Hn|]. split.
  { rewrite Hn. unfold bucket_count. rewrite <- Z.mul_sub_distr_r, Z.div_mul by lia.
    pose proof (Z.div_le_mono start latest size ltac:(lia) ltac:(lia)). lia. }
  intros i p Hi opens known shown. destruct (Hp i p Hi) as (Hz & Hpr & Hli). split; [exact Hz|].
  assert (forall value, last (omap (bucket_last pl pool activities range created latest value) (steps (S i) (start / size * size) size))
            = known value) as Hknown.
  { intros value. unfold known, opens. apply last_omap_steps. intros z.
    unfold bucket_last, windowed, value_in_bucket. fold size start snaps. by rewrite keep_keep. }
  split; [by rewrite Hpr|]. split; [by rewrite Hli|]. intros Hk.
  assert (shown = last (keep (fun sn => time_of sn <? start / size * size + size * Z.of_nat (S i))
                          (keep (fun sn => start <=? time_of sn) snaps))) as Hshown.
  { unfold shown. rewrite keep_keep. f_equal. apply keep_ext_in, Forall_forall. intros sn _.
    do 2 f_equal. unfold opens. lia. }
  assert (StronglySorted (fun x y => time_of x <= time_of y) (keep (fun sn => start <=? time_of sn) snaps)) as Hsorted
    by (by apply keep_sorted, (pool_snapshots_sorted pl pool activities created)).
  assert (Forall (fun sn => start / size * size <= time_of sn) (keep (fun sn => start <=? time_of sn) snaps)) as Hfrom.
  { apply Forall_forall. intros sn [_ Hsn%Z.leb_le]%elem_of_keep. pose proof (Z.mul_div_le start size ltac:(lia)). lia. }
  rewrite Forall_forall in Hk.
  rewrite Hpr, Hli, Hshown. split; apply last_of_buckets; try done; [lia| |lia|];
    apply Forall_forall; intros sn [Hin _]%elem_of_keep; by apply Hk.
Qed.

(** ** A concrete pool *)

Definition sample_page_locale : page_locale :=
  {| pl_formatUnits := fun v x => dec (v / 10 ^ default 0 (num_integral x));
     pl_toFixedLocale := fun x _ _ => num_to_string x; pl_toLocaleString := fun x _ => num_to_string x;
     pl_formatDate := fun x _ => num_to_string x; pl_localeCompare := fun _ _ => 0 |}.

Definition sample_chart_locale : chart_locale :=
  {| cl_dateTimeFormat := fun _ x _ => num_to_string x; cl_numberFormat := fun _ _ x => num_to_string x;
     cl_compactFormat := num_to_string; cl_log10 := fun x => x; cl_pow := fun _ _ => num_of_Z 1 |}.

Definition sample_pool_token (symbol : string) : TokenViewModel :=
  {| tv_id := symbol; tv_symbol := symbol; tv_decimals := num_of_Z 18 |}.

Definition sample_pool_detail (r0 r1 : Z) : PoolDetailViewModel :=
  {| pd_view := {| pv_id := "pool"; pv_token0 := sample_pool_token "A"; pv_token1 := sample_pool_token "B";
                   pv_reserve0 := r0; pv_reserve1 := r1; pv_totalSupply := 0; pv_recentSwaps := [] |};
     pd_totalSupply := 0; pd_txCount := 2; pd_swapCount := 1; pd_mintCount := 1; pd_burnCount := 0;
     pd_createdAtTimestamp := num_of_Z 1700000000; pd_createdAtTxHash := "h" |}.

Definition sample_activity (kind : activity_kind) (t block : Z) : PoolActivityViewModel :=
  {| act_kind := kind; act_id := dec block; act_sender := None; act_timestamp := num_of_Z t;
     act_blockNumber := block; act_txHash := "h"; act_logIndex := 0 |}.

(** Two hours of a pool: its first reserves, and those after a swap. *)
Definition sample_syncs (r0 r1 s0 s1 : Z) : list PoolActivityViewModel :=
  [sample_activity (ActSync s0 s1) 1700007200 20; sample_activity (ActSync r0 r1) 1700000100 10].

(** The snapshots after which price and liquidity are known, by evaluation. *)
Definition known (pl : page_locale) (pool : PoolDetailViewModel) (q : quote_index) (sn : ReserveSnapshot) : bool :=
  match price_after pl pool q sn, liquidity_after pl pool q sn with Some _, Some _ => true | _, _ => false end.

Lemma known_Forall pl pool q l :
  forallb (known pl pool q) l = true ->
  Forall (fun sn => is_Some (price_after pl pool q sn) /\ is_Some (liquidity_after pl pool q sn)) l.
Proof.
  rewrite forallb_forall, Forall_forall. intros H sn Hsn. specialize (H sn (proj1 (list_elem_of_In _ _) Hsn)).
  unfold known in H. destruct (price_after pl pool q sn), (liquidity_after pl pool q sn); done.
Qed.

Lemma chart_follows_reserves_witness :
  let pool := sample_pool_detail (8 * 10 ^ 18) (24 * 10 ^ 18) in
  let activities := sample_syncs (6 * 10 ^ 18) (12 * 10 ^ 18) (8 * 10 ^ 18) (24 * 10 ^ 18) in
  exists points,
    buildAnalyticsSeries sample_page_locale sample_chart_locale pool Quote1 activities range_1d "en-US" = Ok points
    /\ (length points <= 54)%nat
    /\ an_price <$> points = [Some (num_of_Z 2); Some (num_of_Z 2); Some (num_of_Z 3)]
    /\ forall i p, points !! i = Some p -> exists shown,
         an_price p = shown ≫= price_after sample_page_locale pool Quote1
         /\ an_liquidity p = shown ≫= liquidity_after sample_page_locale pool Quote1.
Proof.
  cbv zeta. destruct (chart_follows_reserves sample_page_locale sample_chart_locale
    (sample_pool_detail (8 * 10 ^ 18) (24 * 10 ^ 18)) Quote1
    (sample_syncs (6 * 10 ^ 18) (12 * 10 ^ 18) (8 * 10 ^ 18) (24 * 10 ^ 18)) range_1d "en-US" 1700000000 1700007200)
    as (points & Hb & Hl & _ & Hp).
  - by apply seconds_of_Z.
  - by apply seconds_of_Z.
  - lia.
  - split; exists 18; (split; [by apply num_integral_of_Z|lia]).
  - repeat constructor; [exists 1700007200|exists 1700000100]; by apply seconds_of_Z.
  - exists points. split; [exact Hb|]. split; [exact Hl|]. split; cycle 1.
    { intros i p Hi. destruct (Hp i p Hi) as (_ & _ & _ & H). eexists. apply H. apply known_Forall. vm_compute. reflexivity. }
    assert (res_map (fmap an_price)
      (buildAnalyticsSeries sample_page_locale sample_chart_locale (sample_pool_detail (8 * 10 ^ 18) (24 * 10 ^ 18)) Quote1
         (sample_syncs (6 * 10 ^ 18) (12 * 10 ^ 18) (8 * 10 ^ 18) (24 * 10 ^ 18)) range_1d "en-US")
      = Ok [Some (num_of_Z 2); Some (num_of_Z 2); Some (num_of_Z 3)]) as H by (vm_compute; reflexivity).
    rewrite Hb in H. by injection H.
Defined.
