(* ===== verification/PoolPrices.v ===== *)
(** * Prices of a thousand and more

    The page reads its own price texts back as numbers.  From 1000 on a text has commas
    between its thousands, which [Number] does not take: the price is unknown to the chart,
    and the liquidity stays the amount of one token. *)

From S2P Require Import Prelude JsString JsNumber JsDivision JsSort Amounts Pools Farms Positions PoolAnalytics PoolCharts.
From Stdlib Require Import SpecFloat Ascii.
Import Pools.PoolMetrics.
Open Scope string_scope.
Open Scope Z_scope.
Open Scope flux_scope.

(** viem's [formatUnits]: the integer part, and the digits of the fraction if any. *)
Definition decimal_units (formatUnits : Z -> num -> string) : Prop :=
  forall v x d, num_integral x = Some d -> 0 <= d -> 0 <= v ->
  exists f, all_chars is_digit f = true
    /\ formatUnits v x = dec (v / 10 ^ d) ++ (if str_nonempty f then "." ++ f else "").

(** ** Texts with commas *)

(** Grouped digits of more than three start with digits and a comma. *)
Lemma group_digits_comma s :
  all_chars is_digit s = true -> (3 < String.length s)%nat ->
  exists c d r, group_digits s = String c (d ++ String "," r)
    /\ is_digit c = true /\ all_chars is_digit d = true.
Proof.
  induction s as [|c s IH]; [cbn; lia|]. cbn [all_chars group_digits String.length]. intros [Hc Hs]%andb_true_iff Hl.
  destruct (str_nonempty s && Nat.eqb (Nat.modulo (String.length s) 3) 0) eqn:E.
  - by exists c, "", (group_digits s).
  - assert (3 < String.length s)%nat as Hl'.
    { destruct (decide (String.length s = 3%nat)) as [E3|]; [|lia]. rewrite E3 in E. by destruct s. }
    destruct (IH Hs Hl') as (c' & d & r & -> & Hc' & Hd). exists c, (String c' d), r.
    cbn [String.append all_chars]. by rewrite Hc', Hd.
Qed.

Lemma group_digits_graphic s : all_chars is_digit s = true -> all_chars is_graphic (group_digits s) = true.
Proof.
  induction s as [|c s IH]; [done|]. cbn [all_chars group_digits]. intros [Hc Hs]%andb_true_iff.
  assert (is_graphic c = true) as Hg.
  { pose proof (digits_graphic (String c "")) as H. cbn [all_chars] in H. rewrite !andb_true_r in H. by apply H. }
  destruct (str_nonempty s && _); cbn [all_chars]; by rewrite Hg, IH.
Qed.

(** [Number] of a text that starts so. *)
Lemma number_of_comma c d r p :
  is_digit c = true -> all_chars is_digit d = true -> all_chars is_graphic (r ++ p) = true ->
  num_of_string (String c (d ++ String "," r) ++ p) = num_nan.
Proof.
  intros Hc Hd Hg. cbn [String.append]. rewrite app_string_assoc. cbn [String.append].
  assert (all_chars is_graphic (String c (d ++ String "," (r ++ p))) = true) as Hall.
  { change (String c (d ++ String "," (r ++ p))) with (String c d ++ String "," (r ++ p)).
    rewrite all_chars_app. rewrite digits_graphic by (cbn [all_chars]; by rewrite Hc, Hd). cbn [all_chars andb].
    exact Hg. }
  unfold num_of_string. rewrite trim_graphic by done.
  assert (signed_decimal false (String c (d ++ String "," (r ++ p))) = num_nan) as Hs.
  { unfold signed_decimal. destruct (String.eqb_spec (String c (d ++ String "," (r ++ p))) "Infinity") as [E|_].
    { injection E as -> _. done. }
    unfold parse_decimal. change (String c (d ++ String "," (r ++ p))) with (String c d ++ String "," (r ++ p)).
    rewrite span_digits_app; [|cbn [all_chars]; by rewrite Hc, Hd|by intros ?? [= <- _]]. done. }
  destruct (d ++ String "," (r ++ p)) as [|b t] eqn:Eb; [done|].
  assert (forall x, is_digit x = false -> x <> ","%char -> Ascii.eqb b x = false) as Hb.
  { intros x Hx Hne. destruct d as [|b' d'].
    - cbn in Eb. injection Eb as <- _. apply Ascii.eqb_neq. congruence.
    - cbn in Eb. injection Eb as -> _. cbn [all_chars] in Hd. apply andb_true_iff in Hd as [Hd _].
      by apply digit_neq. }
  rewrite !Hb by done. rewrite (digit_neq c "-"), (digit_neq c "+") by done. by rewrite !andb_false_r.
Qed.

(** ** The text of a price *)

Lemma last_elem_of {A} (l : list A) a : last l = Some a -> a ∈ l.
Proof. intros [l' ->]%last_Some. set_solver. Qed.

Lemma dec_length_1000 n : 1000 <= n -> (3 < String.length (dec n))%nat.
Proof.
  intros Hn. pose proof (dec_value_bounds (dec n) (dec_all_digits n ltac:(lia))) as Hb.
  assert (dec_value (dec n) = n) as Hv.
  { unfold dec_value. pose proof (digits_value_Z_to_string 10 n ltac:(lia) ltac:(lia)) as Hd. fold (dec n) in Hd.
    unfold digits_value in Hd. rewrite dec_nonempty in Hd by lia. by rewrite Hd. }
  rewrite Hv in Hb. apply Nat.nle_gt. intros Hl.
  assert (10 ^ Z.of_nat (String.length (dec n)) <= 10 ^ 3) by (apply Z.pow_le_mono_r; lia). lia.
Qed.

(** The displayed text of [i.f], down to [fd] digits. *)
Lemma display_down_text fb i f fd :
  0 <= i -> all_chars is_digit f = true ->
  exists F, all_chars is_digit F = true
    /\ display_down fb (Some (dec i ++ (if str_nonempty f then "." ++ f else ""))) fd
       = group_digits (dec i) ++ (if Nat.eqb fd 0 || negb (str_nonempty F) then "" else "." ++ F).
Proof.
  intros Hi Hf. pose proof (dec_all_digits i Hi) as Hd. pose proof (dec_nonempty i Hi) as Hne.
  set (p := if str_nonempty f then "." ++ f else "").
  assert (p = "." ++ f \/ (p = "" /\ f = "")) as Hp by (unfold p; destruct f; [by right|by left]).
  destruct (read_display false (dec i) f Hd Hf Hne p Hp) as [_ _].
  assert (normalize (dec i ++ p) = dec i ++ p) as Hn.
  { unfold normalize. rewrite strip_app, strip_digits by done.
    assert (strip "," p = p) as -> by (destruct Hp as [->|[-> _]]; [cbn; by rewrite strip_digits|done]).
    apply trim_graphic. rewrite all_chars_app, digits_graphic by done.
    destruct Hp as [->|[-> _]]; [|done]. cbn [String.append all_chars andb]. by apply digits_graphic. }
  assert (match_signed_decimal (dec i ++ p) = Some (false, dec i, f)) as Hm.
  { assert (match_decimal (dec i ++ p) = Some (dec i, f)) as Hm.
    { destruct (match_decimal_build (dec i) f Hd Hf) as [H1 H2].
      destruct Hp as [->|[-> ->]]; [done|]. by rewrite app_empty_r. }
    unfold match_signed_decimal. destruct (dec i) as [|c r]; [done|]. cbn [String.append] in *.
    cbn [all_chars] in Hd. apply andb_true_iff in Hd as [Hc _].
    pose proof (digit_neq c "-" Hc eq_refl) as Hcm. apply Ascii.eqb_neq in Hcm.
    destruct c as [[] [] [] [] [] [] [] []]; by rewrite ?Hm. }
  destruct (take_chars_split fd f) as (r & Hfr & _ & _).
  destruct (drop_zeros_split (take_chars fd f)) as (z & Htz & _).
  exists (drop_trailing_zeros (take_chars fd f)). split.
  { rewrite Hfr, Htz, !all_chars_app, !andb_true_iff in Hf. by apply Hf. }
  unfold display_down. fold p. assert (str_nonempty (dec i ++ p) = true) as -> by (by destruct (dec i)).
  rewrite Hn, Hm. cbn [negb]. rewrite Hne. unfold addThousandsSeparators.
  destruct (_ || _); [by rewrite app_empty_r|done].
Qed.

(** ** A thousand and more *)

Section price.
Variable pl : page_locale.
Hypothesis Hunits : decimal_units (pl_formatUnits pl).

(** A price of at least a thousand, in decimals. *)
Lemma large_price_text base quote db dq xb xq fd :
  num_integral xb = Some db -> num_integral xq = Some dq -> 0 <= db -> 0 <= dq ->
  0 < base -> 0 <= quote -> 1000 * (base * 10 ^ dq) <= quote * 10 ^ db ->
  exists t, formatPoolPrice pl base xb quote xq fd = Ok t /\ t <> "--" /\ num_of_string t = num_nan.
Proof.
  intros Hb Hq Pb Pq Hbase Hquote Hlarge.
  assert (0 < 10 ^ db /\ 0 < 10 ^ dq) as [Hpb Hpq] by (split; by apply Z.pow_pos_nonneg).
  assert (0 < quote) by nia.
  unfold formatPoolPrice. destruct (Z.eqb_spec base 0); [lia|]. destruct (Z.eqb_spec quote 0); [lia|]. cbn [orb].
  rewrite (pow10_whole xb db), (pow10_whole xq dq) by done. cbn [res_bind].
  destruct (Z.eqb_spec (base * 10 ^ dq) 0); [nia|].
  rewrite Z.quot_div_nonneg by nia. set (v := quote * 10 ^ db * 10 ^ 18 / (base * 10 ^ dq)).
  assert (1000 * 10 ^ 18 <= v) as Hv by (apply Z.div_le_lower_bound; nia).
  assert (1000 <= v / 10 ^ 18) as Hi by (apply Z.div_le_lower_bound; lia).
  eexists. split; [reflexivity|]. unfold digits_down.
  pose proof (dec_all_digits (v / 10 ^ 18) ltac:(lia)) as Hdig.
  destruct (Hunits v (num_of_Z 18) 18 eq_refl) as (f & Hf & ->); [lia|lia|].
  destruct (display_down_text "0.00" (v / 10 ^ 18) f fd ltac:(lia) Hf) as (F & HF & Ht).
  unfold formatDisplayAmountDown. rewrite Ht.
  destruct (group_digits_comma (dec (v / 10 ^ 18))) as (c & d & r & Hg & Hc & Hd);
    [done|by apply dec_length_1000|].
  rewrite Hg. split; [intros [= -> _]; done|].
  apply number_of_comma; [done|done|]. rewrite all_chars_app. apply andb_true_iff. split.
  - pose proof (group_digits_graphic (dec (v / 10 ^ 18)) Hdig) as Hgr.
    rewrite Hg in Hgr. change (String c (d ++ String "," r)) with (String c d ++ String "," r) in Hgr.
    rewrite all_chars_app in Hgr. apply andb_true_iff in Hgr as [_ Hgr]. cbn [all_chars andb] in Hgr. exact Hgr.
  - destruct (_ || _); [done|]. cbn [String.append all_chars andb]. by apply digits_graphic.
Qed.
End price.

(** The reserves a price is of and in, and their decimals. *)
Definition base_of (q : quote_index) (sn : ReserveSnapshot) : Z :=
  match q with Quote1 => sn_reserve0 sn | Quote0 => sn_reserve1 sn end.
Definition quote_of (q : quote_index) (sn : ReserveSnapshot) : Z :=
  match q with Quote1 => sn_reserve1 sn | Quote0 => sn_reserve0 sn end.
Definition base_decimals (q : quote_index) (pool : PoolDetailViewModel) : num :=
  match q with Quote1 => decimals0 pool | Quote0 => decimals1 pool end.
Definition quote_decimals (q : quote_index) (pool : PoolDetailViewModel) : num :=
  match q with Quote1 => decimals1 pool | Quote0 => decimals0 pool end.

(** One whole base token is worth [k] whole quote tokens or more. *)
Definition worth (q : quote_index) (db dq k : Z) (sn : ReserveSnapshot) : Prop :=
  0 < base_of q sn /\ 0 <= quote_of q sn /\ k * (base_of q sn * 10 ^ dq) <= quote_of q sn * 10 ^ db.

Lemma large_price_unknown pl pool q db dq sn :
  decimal_units (pl_formatUnits pl) ->
  num_integral (base_decimals q pool) = Some db -> num_integral (quote_decimals q pool) = Some dq ->
  0 <= db -> 0 <= dq -> worth q db dq 1000 sn ->
  calculatePriceValue pl (sn_reserve0 sn) (sn_reserve1 sn) (decimals0 pool) (decimals1 pool) q = Ok None.
Proof.
  intros Hu Hb Hq Pb Pq (H0 & H1 & Hw). unfold calculatePriceValue.
  assert (exists t, match q with
                    | Quote1 => formatPoolPrice pl (sn_reserve0 sn) (decimals0 pool) (sn_reserve1 sn) (decimals1 pool) 8
                    | Quote0 => formatPoolPrice pl (sn_reserve1 sn) (decimals1 pool) (sn_reserve0 sn) (decimals0 pool) 8
                    end = Ok t /\ t <> "--" /\ num_of_string t = num_nan) as (t & Ht & Hne & Hn).
  { destruct q; cbn [base_of quote_of base_decimals quote_decimals] in *; by apply (large_price_text pl Hu _ _ db dq). }
  rewrite Ht. cbn [res_bind]. destruct (String.eqb_spec t "--"); [done|]. by rewrite Hn.
Qed.

(** C23.  A price of a thousand or more never reaches the chart.  In a pool one of whose
    whole base tokens was worth at least a thousand quote tokens after every event, the
    series of any range is computed and has points, none of them has a price, and the
    liquidity of each snapshot is the amount of the base reserve alone, neither priced nor
    doubled: the page writes the price with commas between its thousands and reads the text
    back with [Number]. *)
Theorem large_prices_not_charted pl cl pool q activities range locale created latest db dq :
  decimal_units (pl_formatUnits pl) ->
  seconds (pd_createdAtTimestamp pool) created ->
  seconds (latest_timestamp pool activities) latest -> created <= latest -> timed activities ->
  num_integral (base_decimals q pool) = Some db -> num_integral (quote_decimals q pool) = Some dq ->
  0 <= db -> 0 <= dq ->
  Forall (worth q db dq 1000) (pool_snapshots pl pool activities) ->
  (exists points,
     buildAnalyticsSeries pl cl pool q activities range locale = Ok points
     /\ points <> [] /\ Forall (fun p => an_price p = None) points)
  /\ Forall (fun sn =>
       let amount := num_of_string (pl_formatUnits pl (base_of q sn) (base_decimals q pool)) in
       liquidity_after pl pool q sn = if is_finite amount then Some amount else None)
     (pool_snapshots pl pool activities).
Proof.
  intros Hu Hc Hl Ho Ht Hb Hq Pb Pq Hw.
  assert (whole_decimals pool) as Hd.
  { unfold whole_decimals. unfold base_decimals in Hb. unfold quote_decimals in Hq. destruct q; split; eexists; (split; [eassumption|done]). }
  rewrite Forall_forall in Hw. split.
  - destruct (chart_built pl cl pool q activities range locale created latest Hc Hl Ho Hd Ht) as (points & Hbuild & Hn & Hp).
    destruct (window_whole pool activities range created latest Hc Hl Ho) as (_ & _ & _ & Hs & Hst & _ & _).
    exists points. split; [done|]. split.
    + intros ->. cbn [length] in Hn. unfold bucket_count in Hn. rewrite <- Z.mul_sub_distr_r, Z.div_mul in Hn by lia.
      pose proof (Z.div_le_mono (window_start range latest created) latest (window_bucket range latest created)
                    ltac:(lia) ltac:(lia)). lia.
    + apply Forall_lookup. intros i p Hi. destruct (Hp i p Hi) as (_ & -> & _).
      assert (forall l, omap (bucket_last pl pool activities range created latest (price_after pl pool q)) l = []) as ->; [|done].
      induction l as [|z l IH]; [done|]. cbn [omap list_omap]. unfold bucket_last at 1.
      destruct (last _) as [sn|] eqn:El; [|exact IH]. cbn [mbind option_bind].
      assert (sn ∈ pool_snapshots pl pool activities) as Hsn.
      { apply last_elem_of in El. unfold windowed in El. rewrite !elem_of_keep in El. tauto. }
      unfold price_after. rewrite (large_price_unknown pl pool q db dq sn) by (done || by apply Hw). exact IH.
  - apply Forall_forall. intros sn Hsn. cbv zeta. unfold liquidity_after, getLiquidityValue.
    rewrite (large_price_unknown pl pool q db dq sn) by (done || by apply Hw). cbn [res_bind].
    unfold base_of, base_decimals. destruct q; by destruct (is_finite _).
Qed.

Lemma large_prices_not_charted_witness :
  let pool := sample_pool_detail (2 * 10 ^ 18) (4500 * 10 ^ 18) in
  let activities := sample_syncs (3 * 10 ^ 18) (6000 * 10 ^ 18) (2 * 10 ^ 18) (4500 * 10 ^ 18) in
  (exists points,
     buildAnalyticsSeries sample_page_locale sample_chart_locale pool Quote1 activities range_1d "en-US" = Ok points
     /\ points <> [] /\ Forall (fun p => an_price p = None) points)
  /\ calculatePriceValue sample_page_locale (2 * 10 ^ 18) (1998 * 10 ^ 18) (num_of_Z 18) (num_of_Z 18) Quote1
     = Ok (Some (num_of_Z 999)).
Proof.
  cbv zeta. split; [|vm_compute; reflexivity].
  apply (large_prices_not_charted sample_page_locale sample_chart_locale (sample_pool_detail (2 * 10 ^ 18) (4500 * 10 ^ 18))
    Quote1 (sample_syncs (3 * 10 ^ 18) (6000 * 10 ^ 18) (2 * 10 ^ 18) (4500 * 10 ^ 18)) range_1d "en-US" 1700000000 1700007200 18 18).
  - intros v x d Hx Hd Hv. exists "". split; [done|]. cbn [pl_formatUnits sample_page_locale]. rewrite Hx. by rewrite app_empty_r.
  - by apply seconds_of_Z.
  - by apply seconds_of_Z.
  - lia.
  - repeat constructor; [exists 1700007200|exists 1700000100]; by apply seconds_of_Z.
  - by apply num_integral_of_Z.
  - by apply num_integral_of_Z.
  - lia.
  - lia.
  - assert (pool_snapshots sample_page_locale (sample_pool_detail (2 * 10 ^ 18) (4500 * 10 ^ 18))
      (sample_syncs (3 * 10 ^ 18) (6000 * 10 ^ 18) (2 * 10 ^ 18) (4500 * 10 ^ 18))
      = [snapshot_at (sample_activity (ActSync 0 0) 1700000100 10) (3 * 10 ^ 18) (6000 * 10 ^ 18);
         snapshot_at (sample_activity (ActSync 0 0) 1700007200 20) (2 * 10 ^ 18) (4500 * 10 ^ 18)]) as -> by (vm_compute; reflexivity).
    repeat constructor; cbn [base_of quote_of sn_reserve0 sn_reserve1 snapshot_at]; lia.
Defined.
