(* ===== verification/PoolReplay.v ===== *)
(** * Reserves replayed from events

    Without reserves from the indexer the page walks back from the current reserves through
    the swaps and the changes of liquidity.  The walk gives the reserves of the pool's
    history when the events account for every change of the reserves; a swap of the pair
    contract does when no protocol fee is taken, and otherwise leaves the fee out. *)

From S2P Require Import Prelude JsString JsNumber JsSort Subgraph Pools Farms Positions PoolAnalytics PoolCharts.
From stdpp Require Import sorting.
From Stdlib Require Import SpecFloat Ascii.
Import Pools.PoolMetrics.
Open Scope string_scope.
Open Scope Z_scope.
Open Scope flux_scope.

(** ** The history of a pool *)

(** The reserves after an event that accounts for their change. *)
Definition redo (kind : activity_kind) (reserve0 reserve1 : Z) : Z * Z :=
  match kind with
  | ActAdd amount0 amount1 => (reserve0 + amount0, reserve1 + amount1)
  | ActRemove _ amount0 amount1 => (reserve0 - amount0, reserve1 - amount1)
  | ActSwap _ amount0In amount1In amount0Out amount1Out =>
    (reserve0 + amount0In - amount0Out, reserve1 + amount1In - amount1Out)
  | ActSync _ _ => (reserve0, reserve1)
  end.

Fixpoint reserves_after (events : list PoolActivityViewModel) (r : Z * Z) : Z * Z :=
  match events with [] => r | a :: events => reserves_after events (redo (act_kind a) r.1 r.2) end.

(** The reserves after each event, from the first on. *)
Fixpoint history (events : list PoolActivityViewModel) (r : Z * Z) : list ReserveSnapshot :=
  match events with
  | [] => []
  | a :: events => let r' := redo (act_kind a) r.1 r.2 in snapshot_at a r'.1 r'.2 :: history events r'
  end.

Lemma undo_redo k r : undo k (redo k r.1 r.2).1 (redo k r.1 r.2).2 = r.
Proof. destruct r as [r0 r1], k; cbn; f_equal; lia. Qed.

Lemma reserves_after_snoc l a r :
  reserves_after (l ++ [a])%list r = redo (act_kind a) (reserves_after l r).1 (reserves_after l r).2.
Proof. revert r; induction l as [|b l IH]; intros r; cbn; [done|apply IH]. Qed.

Lemma history_snoc l a r :
  history (l ++ [a])%list r
  = (history l r ++ [snapshot_at a (reserves_after (l ++ [a])%list r).1 (reserves_after (l ++ [a])%list r).2])%list.
Proof. revert r; induction l as [|b l IH]; intros r; cbn; [done|by rewrite IH]. Qed.

(** The walk back is the history backwards. *)
Lemma walk_back_history l r :
  walk_back (rev l) (reserves_after l r).1 (reserves_after l r).2 = (rev (history l r), r).
Proof.
  induction l as [|a l IH] using rev_ind; [by destruct r|].
  rewrite rev_unit, history_snoc, rev_unit, reserves_after_snoc. cbn [walk_back]. rewrite undo_redo.
  destruct (reserves_after l r) as [b0 b1] eqn:E. cbn [fst snd] in *. by rewrite IH.
Qed.

Lemma history_elem l r sn :
  sn ∈ history l r -> exists a, a ∈ l /\ sn_timestamp sn = act_timestamp a
    /\ sn_blockNumber sn = act_blockNumber a /\ sn_logIndex sn = act_logIndex a.
Proof.
  revert r; induction l as [|a l IH]; intros r; cbn; [set_solver|]. intros [->|Hin]%elem_of_cons.
  - exists a. set_solver.
  - destruct (IH _ Hin) as (b & Hb & Hsn). exists b. set_solver.
Qed.

(** ** The order of the events *)

Section order.
Variable localeCompare : string -> string -> Z.
Hypothesis locale_total : forall s t, localeCompare s t <= 0 \/ localeCompare t s <= 0.
Hypothesis locale_trans : forall s t u,
  localeCompare s t <= 0 -> localeCompare t u <= 0 -> localeCompare s u <= 0.

Lemma event_le_key x y a b :
  seconds (act_timestamp x) a -> seconds (act_timestamp y) b ->
  event_le localeCompare x y
  = (a <? b) || (a =? b) && ((act_blockNumber x <? act_blockNumber y)
     || (act_blockNumber x =? act_blockNumber y) && ((act_logIndex x <? act_logIndex y)
         || (act_logIndex x =? act_logIndex y) && (localeCompare (act_id x) (act_id y) <=? 0))).
Proof.
  intros Hx Hy. unfold event_le. rewrite (seconds_eqb _ _ a b), (seconds_later _ _ b a) by done.
  destruct (Z.eqb_spec a b), (Z.leb_spec a b), (Z.ltb_spec a b); try lia; cbn; try done.
  destruct (Z.eqb_spec (act_blockNumber x) (act_blockNumber y)),
    (Z.ltb_spec (act_blockNumber x) (act_blockNumber y)); try lia; cbn; try done.
  destruct (Z.eqb_spec (act_logIndex x) (act_logIndex y)), (Z.ltb_spec (act_logIndex x) (act_logIndex y));
    try lia; cbn; done.
Qed.

Lemma events_sorted l :
  timed l -> StronglySorted (fun a b => event_le localeCompare a b = true) (sort_by (event_le localeCompare) l).
Proof.
  intros Ht. apply (sort_by_sorted _ (fun a => exists t, seconds (act_timestamp a) t)); [| |done].
  - intros x y [a Ha] [b Hb]. rewrite (event_le_key x y a b), (event_le_key y x b a) by done.
    pose proof (locale_total (act_id x) (act_id y)). key_lia.
  - intros x y z [a Ha] [b Hb] [c Hc].
    rewrite (event_le_key x y a b), (event_le_key y z b c), (event_le_key x z a c) by done.
    pose proof (locale_trans (act_id x) (act_id y) (act_id z)). key_lia.
Qed.
End order.

(** ** The snapshots of the page *)

(** Where an event is on the chain. *)
Definition place (a : PoolActivityViewModel) : Z * Z := (act_blockNumber a, act_logIndex a).

(** An event of a pool after its creation. *)
Definition event_after (created : Z) (a : PoolActivityViewModel) : Prop :=
  is_sync a = false /\ 1 <= act_blockNumber a /\ 0 <= act_logIndex a
  /\ exists t, seconds (act_timestamp a) t /\ created <= t.

Definition created_snapshot (pool : PoolDetailViewModel) (r : Z * Z) : ReserveSnapshot :=
  {| sn_timestamp := pd_createdAtTimestamp pool; sn_blockNumber := 0; sn_logIndex := 0;
     sn_reserve0 := r.1; sn_reserve1 := r.2 |}.

Lemma history_sorted localeCompare l r :
  timed l -> StronglySorted (fun a b => event_le localeCompare a b = true) l ->
  StronglySorted (fun x y => sortReserveSnapshots x y = true) (history l r).
Proof.
  intros Ht Hs. revert r. induction Hs as [|a l Hs IH Ha]; intros r; cbn [history]; [constructor|].
  apply Forall_cons in Ht as [[t Hta] Ht]. constructor; [by apply IH|].
  apply Forall_forall. intros sn Hsn. destruct (history_elem _ _ _ Hsn) as (b & Hb & E1 & E2 & E3).
  unfold timed in Ht. rewrite Forall_forall in Ha, Ht. specialize (Ha b Hb). destruct (Ht b Hb) as [u Htb].
  rewrite (event_le_key _ _ _ t u) in Ha by done. rewrite (snapshot_le_key _ _ t u); [|exact Hta|by rewrite E1].
  cbn [snapshot_at sn_blockNumber sn_logIndex]. rewrite E2, E3. revert Ha. key_lia.
Qed.

(** The snapshots of distinct places are distinct. *)
Lemma history_places l r x y :
  NoDup (place <$> l) -> x ∈ history l r -> y ∈ history l r ->
  sn_blockNumber x = sn_blockNumber y -> sn_logIndex x = sn_logIndex y -> x = y.
Proof.
  revert r. induction l as [|a l IH]; intros r Hn; cbn [history fmap list_fmap] in *; [set_solver|].
  apply NoDup_cons in Hn as [Ha Hn].
  assert (forall sn, sn ∈ history l (redo (act_kind a) r.1 r.2) ->
            sn_blockNumber sn = act_blockNumber a -> sn_logIndex sn = act_logIndex a -> False) as Hno.
  { intros sn Hsn E1 E2. destruct (history_elem _ _ _ Hsn) as (b & Hb & _ & E3 & E4).
    apply Ha, list_elem_of_fmap. exists b. split; [unfold place; congruence|done]. }
  intros [->|Hx]%elem_of_cons [->|Hy]%elem_of_cons E1 E2; [done| | |by apply (IH (redo (act_kind a) r.1 r.2) Hn)].
  - destruct (Hno y Hy); done.
  - destruct (Hno x Hx); done.
Qed.

(** When starting from some reserves the events lead to the current ones, the snapshots are
    the creation with the starting reserves, then each event, in the order of the chain, with
    the reserves after it. *)
Lemma walk_gives_history pl pool activities created r :
  (forall s t, pl_localeCompare pl s t <= 0 \/ pl_localeCompare pl t s <= 0) ->
  (forall s t u, pl_localeCompare pl s t <= 0 -> pl_localeCompare pl t u <= 0 -> pl_localeCompare pl s u <= 0) ->
  seconds (pd_createdAtTimestamp pool) created ->
  Forall (event_after created) activities -> NoDup (place <$> activities) ->
  let events := sort_by (event_le (pl_localeCompare pl)) activities in
  reserves_after events r = (pv_reserve0 (pd_view pool), pv_reserve1 (pd_view pool)) ->
  buildReserveSnapshots (pl_localeCompare pl) pool activities = created_snapshot pool r :: history events r.
Proof.
  intros Htot Htrans Hc Hev Hn events Hr.
  assert (timed activities) as Ht.
  { eapply Forall_impl; [exact Hev|]. intros a (_ & _ & _ & t & Hat & _). by exists t. }
  assert (omap sync_snapshot activities = []) as Hsync.
  { clear -Hev. induction Hev as [|a l (Ha & _) Hev IH]; [done|]. cbn [omap list_omap].
    unfold is_sync, sync_snapshot in *. by destruct (act_kind a). }
  assert (keep (fun a => negb (is_sync a)) activities = activities) as Hkeep.
  { apply keep_all. eapply Forall_impl; [exact Hev|]. by intros a (-> & _). }
  unfold buildReserveSnapshots. rewrite Hsync, Hkeep. fold events.
  replace (pv_reserve0 (pd_view pool)) with (reserves_after events r).1 by (by rewrite Hr).
  replace (pv_reserve1 (pd_view pool)) with (reserves_after events r).2 by (by rewrite Hr).
  rewrite walk_back_history. destruct r as [r0 r1]. fold (created_snapshot pool (r0, r1)).
  change {| sn_timestamp := _; sn_blockNumber := 0; sn_logIndex := 0; sn_reserve0 := r0; sn_reserve1 := r1 |}
    with (created_snapshot pool (r0, r1)).
  set (H := history events (r0, r1)). set (c := created_snapshot pool (r0, r1)).
  assert (events ≡ₚ activities) as Hperm by apply sort_by_perm.
  assert (timed events) as Hte by (unfold timed; by rewrite Hperm).
  assert (Forall (event_after created) events) as Heve by (by rewrite Hperm).
  assert (NoDup (place <$> events)) as Hne by (by rewrite Hperm).
  pose proof (events_sorted _ Htot Htrans activities Ht) as Hes. fold events in Hes.
  assert (forall sn, sn ∈ H -> 1 <= sn_blockNumber sn /\ sortReserveSnapshots c sn = true
            /\ exists t, seconds (sn_timestamp sn) t) as HH.
  { intros sn Hsn. destruct (history_elem _ _ _ Hsn) as (a & Ha & E1 & E2 & E3).
    rewrite Forall_forall in Heve. destruct (Heve a Ha) as (_ & Hb & Hl & t & Hat & Hct).
    rewrite E2. split; [done|]. split; [|exists t; by rewrite E1].
    rewrite (snapshot_le_key c sn created t); [|exact Hc|by rewrite E1]. cbn. rewrite E2, E3. key_lia. }
  apply (sorted_unique sortReserveSnapshots (fun sn => exists t, seconds (sn_timestamp sn) t) timed_total timed_trans).
  - intros x y Hx Hy Hxy Hyx. rewrite sort_by_perm in Hx, Hy.
    assert (forall z, z ∈ (rev H ++ [c])%list -> z = c \/ z ∈ H) as Hcase.
    { intros z. rewrite elem_of_app, list_elem_of_singleton. intros [Hz|Hz]; [right|by left].
      by apply list_elem_of_In, in_rev, list_elem_of_In in Hz. }
    destruct (Hcase x Hx) as [->|Hx'], (Hcase y Hy) as [->|Hy']; [done| | |].
    + destruct (HH y Hy') as (Hb & _ & t & Hyt). revert Hyx. rewrite (snapshot_le_key y c t created) by done.
      revert Hxy. rewrite (snapshot_le_key c y created t) by done. cbn. intros H1 H2. exfalso. revert H1 H2. key_lia.
    + destruct (HH x Hx') as (Hb & _ & t & Hxt). revert Hxy. rewrite (snapshot_le_key x c t created) by done.
      revert Hyx. rewrite (snapshot_le_key c x created t) by done. cbn. intros H1 H2. exfalso. revert H1 H2. key_lia.
    + destruct (HH x Hx') as (_ & _ & t & Hxt), (HH y Hy') as (_ & _ & u & Hyt).
      revert Hxy Hyx. rewrite (snapshot_le_key x y t u), (snapshot_le_key y x u t) by done. intros H1 H2.
      apply (history_places events (r0, r1)); [done..| |]; revert H1 H2; key_lia.
  - apply (sort_by_sorted _ _ timed_total timed_trans).
    apply Forall_app. split; [|by repeat constructor; exists created].
    apply Forall_forall. intros sn Hsn. apply list_elem_of_In, in_rev, list_elem_of_In in Hsn. by apply HH.
  - constructor; [by apply (history_sorted (pl_localeCompare pl))|]. apply Forall_forall. intros sn Hsn. by apply HH.
  - rewrite sort_by_perm, Permutation_app_comm. cbn. by rewrite <- Permutation_rev.
Qed.

(** ** Swaps of the pair contract *)

Lemma after_inv (m : PairContract.effect) k c evs :
  PairContract.after m k = Ok (c, evs) ->
  exists c1 e1 e2, m = Ok (c1, e1) /\ k c1 = Ok (c, e2) /\ evs = (e1 ++ e2)%list.
Proof.
  unfold PairContract.after. intros ([c1 e1] & -> & Hk)%res_bind_Ok. apply res_bind_Ok in Hk as ([c2 e2] & Hk & E).
  cbn [fst snd] in *. simplify_eq. by exists c1, e1, e2.
Qed.

Lemma transfers_keep_reserves l c c' evs :
  PairContract._transfers l c = Ok (c', evs) ->
  PairContract.c_reserve0 c' = PairContract.c_reserve0 c /\ PairContract.c_reserve1 c' = PairContract.c_reserve1 c.
Proof.
  revert c c' evs. induction l as [|[[from to] value] l IH]; intros c c' evs; cbn [PairContract._transfers].
  { intros [= <- _]. done. }
  intros (c1 & e1 & e2 & H1 & H2 & _)%after_inv. apply IH in H2 as [-> ->].
  unfold PairContract._transfer, PairContract.u256 in H1. repeat (case_match; try done).
  all: cbn [res_bind] in H1; repeat (case_match; try done; cbn [res_bind] in H1); by simplify_eq.
Qed.

Lemma update_sets_reserves x y r0 r1 t c c' e :
  PairContract._update x y r0 r1 t c = Ok (c', e) ->
  PairContract.c_reserve0 c' = x /\ PairContract.c_reserve1 c' = y.
Proof.
  unfold PairContract._update. case_match; [|done]. intros Hu.
  repeat (apply res_bind_Ok in Hu as (? & _ & Hu)). by injection Hu as <- _.
Qed.

(** The part of an input that a swap sends to the treasury. *)
Definition protocol_fee (treasury : Bytes) (amountIn : Z) : Z :=
  if String.eqb treasury PairContract.zero_address then 0
  else amountIn * PairContract.PROTOCOL_SWAP_FEE_BPS / PairContract.FEE_BPS_BASE.

Lemma u256_inv z y : PairContract.u256 z = Ok y -> y = z /\ 0 <= z.
Proof. unfold PairContract.u256. case_match; [|done]. intros [= <-]. split; [done|]. bool_solve. lia. Qed.

(** The kind of activity an event of the contract is indexed as. *)
Definition kind_of (ev : pair_event) : option activity_kind :=
  match ev with
  | Mint _ amount0 amount1 => Some (ActAdd amount0 amount1)
  | Burn _ amount0 amount1 to => Some (ActRemove to amount0 amount1)
  | Swap _ in0 in1 out0 out1 to => Some (ActSwap to in0 in1 out0 out1)
  | _ => None
  end.

(** What an accepted call sends to the treasury. *)
Definition fees_of (k : PairContract.call) (kind : activity_kind) : Z * Z :=
  match k, kind with
  | PairContract.CallSwap _ _ _ _ _ _ _ treasury _ _, ActSwap _ in0 in1 _ _ =>
    (protocol_fee treasury in0, protocol_fee treasury in1)
  | _, _ => (0, 0)
  end.

Definition reserves (c : PairContract.state) : Z * Z := (PairContract.c_reserve0 c, PairContract.c_reserve1 c).

(** The tokens of the pair move as the call says: a swap leaves it at least its reserves less
    the outputs, a burn its reserves less what it pays, and a synchronisation finds the
    reserves.  What was given to the pair without being accounted for is so left to mints and
    swaps, whose events count it. *)
Definition accounted (k : PairContract.call) (c : PairContract.state) : bool :=
  match k with
  | PairContract.CallBurn self _ _ b0 b1 b0' b1' _ _ =>
    let part b := PairContract.balanceOf self c * b / PairContract.lp_totalSupply c in
    (b0' =? PairContract.c_reserve0 c - part b0) && (b1' =? PairContract.c_reserve1 c - part b1)
  | PairContract.CallSwap _ out0 out1 _ _ b0 b1 _ _ _ =>
    (PairContract.c_reserve0 c - out0 <=? b0) && (PairContract.c_reserve1 c - out1 <=? b1)
  | PairContract.CallSync b0 b1 _ => (b0 =? PairContract.c_reserve0 c) && (b1 =? PairContract.c_reserve1 c)
  | _ => true
  end.

Fixpoint accounted_run (ks : list PairContract.call) (c : PairContract.state) : bool :=
  match ks with
  | [] => true
  | k :: ks =>
    match PairContract.exec k c with
    | Ok (c', _) => accounted k c && accounted_run ks c'
    | Throw _ => accounted_run ks c
    end
  end.

(** The indexed events of a run, each with the reserves the contract had after it and what the
    call sent to the treasury. *)
Record pool_change := { ch_kind : activity_kind; ch_reserves : Z * Z; ch_fees : Z * Z }.

Fixpoint changes (ks : list PairContract.call) (c : PairContract.state) : list pool_change :=
  match ks with
  | [] => []
  | k :: ks =>
    match PairContract.exec k c with
    | Ok (c', evs) =>
      ((fun kind => {| ch_kind := kind; ch_reserves := reserves c'; ch_fees := fees_of k kind |}) <$> omap kind_of evs)
      ++ changes ks c'
    | Throw _ => changes ks c
    end
  end%list.

Definition all_fees (l : list pool_change) : Z * Z :=
  foldr (fun ch f => ((ch_fees ch).1 + f.1, (ch_fees ch).2 + f.2)) (0, 0) l.

(** Each event with the contract's reserves after it, less the fees of the later ones. *)
Fixpoint shown_history (events : list PoolActivityViewModel) (l : list pool_change) : list ReserveSnapshot :=
  match events, l with
  | a :: events, ch :: l =>
    snapshot_at a ((ch_reserves ch).1 - (all_fees l).1) ((ch_reserves ch).2 - (all_fees l).2) :: shown_history events l
  | _, _ => []
  end.

Lemma transfers_no_kind l c c' evs : PairContract._transfers l c = Ok (c', evs) -> omap kind_of evs = [].
Proof.
  revert c c' evs. induction l as [|[[from to] value] l IH]; intros c c' evs; cbn [PairContract._transfers].
  { intros [= <- <-]. done. }
  intros (c1 & e1 & e2 & H1 & H2 & ->)%after_inv. rewrite omap_app, (IH _ _ _ H2).
  unfold PairContract._transfer, PairContract.u256 in H1. repeat (case_match; try done).
  all: cbn [res_bind] in H1; repeat (case_match; try done; cbn [res_bind] in H1); by simplify_eq.
Qed.

Lemma mint_no_kind to v c c' evs : PairContract._mint to v c = Ok (c', evs) -> omap kind_of evs = [] /\ reserves c' = reserves c.
Proof. unfold PairContract._mint. intros H. repeat (apply res_bind_Ok in H as (? & _ & H)). by injection H as <- <-. Qed.

Lemma burn_no_kind a v c c' evs : PairContract._burn a v c = Ok (c', evs) -> omap kind_of evs = [] /\ reserves c' = reserves c.
Proof. unfold PairContract._burn. intros H. case_match; [|done]. repeat (apply res_bind_Ok in H as (? & _ & H)). by injection H as <- <-. Qed.

(** The end of a call: the reserves are set, and its event is emitted. *)
Lemma update_emit x y r0 r1 t ev c c' evs :
  PairContract.after (PairContract._update x y r0 r1 t c) (PairContract.emit ev) = Ok (c', evs) ->
  omap kind_of evs = omap kind_of [ev] /\ reserves c' = (x, y).
Proof.
  intros (c1 & e1 & e2 & Hu & He & ->)%after_inv. injection He as <- <-. unfold reserves.
  destruct (update_sets_reserves _ _ _ _ _ _ _ _ Hu) as [-> ->]. split; [|done]. rewrite omap_app.
  unfold PairContract._update in Hu. case_match; [|done]. repeat (apply res_bind_Ok in Hu as (? & _ & Hu)).
  by injection Hu as _ <-.
Qed.

(** What an accepted call does to the reserves, by its event. *)
Definition accounts (k : PairContract.call) (c c' : PairContract.state) (evs : list pair_event) : Prop :=
  (omap kind_of evs = [] /\ reserves c' = reserves c)
  \/ exists kind, omap kind_of evs = [kind]
       /\ redo kind (reserves c).1 (reserves c).2 = ((reserves c').1 + (fees_of k kind).1, (reserves c').2 + (fees_of k kind).2).

Lemma mint_accounts sender to b0 b1 t c c' evs :
  PairContract.mint sender to b0 b1 t c = Ok (c', evs) -> accounts (PairContract.CallMint sender to b0 b1 t) c c' evs.
Proof.
  unfold PairContract.mint. intros H. apply res_bind_Ok in H as (a0 & [-> _]%u256_inv & H).
  apply res_bind_Ok in H as (a1 & [-> _]%u256_inv & H). apply res_bind_Ok in H as ([liquidity [c0 e0]] & Hf & H).
  cbn [fst snd] in H. case_match; [|done]. apply after_inv in H as (c1 & e1 & e2 & [= <- <-] & H & ->).
  assert (omap kind_of e0 = [] /\ reserves c0 = reserves c) as [He0 _].
  { destruct (_ =? 0) in Hf.
    - apply res_bind_Ok in Hf as (? & _ & Hf). apply res_bind_Ok in Hf as (? & _ & Hf).
      apply res_bind_Ok in Hf as ([c2 e3] & Hm & Hf). injection Hf as _ <- <-. by eapply mint_no_kind.
    - repeat (apply res_bind_Ok in Hf as (? & _ & Hf)). by injection Hf as _ <- <-. }
  apply after_inv in H as (c3 & e3 & e4 & [He3 _]%mint_no_kind & [He4 Hr]%update_emit & ->).
  right. exists (ActAdd (b0 - PairContract.c_reserve0 c) (b1 - PairContract.c_reserve1 c)).
  rewrite !omap_app, He0, He3, He4, Hr. split; [done|]. cbn. f_equal; lia.
Qed.

Lemma burn_accounts self sender to b0 b1 b0' b1' t nested c c' evs :
  PairContract.burn self sender to b0 b1 b0' b1' t nested c = Ok (c', evs) ->
  accounted (PairContract.CallBurn self sender to b0 b1 b0' b1' t nested) c = true ->
  accounts (PairContract.CallBurn self sender to b0 b1 b0' b1' t nested) c c' evs.
Proof.
  unfold PairContract.burn. intros H Ha. cbn [accounted] in Ha. apply andb_true_iff in Ha as [->%Z.eqb_eq ->%Z.eqb_eq].
  apply res_bind_Ok in H as (p0 & [-> _]%u256_inv & H). apply res_bind_Ok in H as (a0 & Ha0 & H).
  apply res_bind_Ok in H as (p1 & [-> _]%u256_inv & H). apply res_bind_Ok in H as (a1 & Ha1 & H).
  unfold PairContract.udiv in Ha0, Ha1. destruct (negb (PairContract.lp_totalSupply c =? 0)); [|done]. injection Ha0 as <-. injection Ha1 as <-. case_match; [|done].
  apply after_inv in H as (c1 & e1 & e2 & [He1 _]%burn_no_kind & H & ->).
  apply after_inv in H as (c2 & e3 & e4 & He3%transfers_no_kind & [He4 Hr]%update_emit & ->).
  right. eexists. rewrite !omap_app, He1, He3, He4, Hr. split; [done|]. cbn. f_equal; lia.
Qed.

(** Of a swap the event leaves the protocol fee out: from the reserves before, the amounts give
    those after and the fee sent to the treasury. *)
Lemma swap_accounts sender out0 out1 to tok b0 b1 treasury t nested c c' evs :
  PairContract.swap sender out0 out1 to tok b0 b1 treasury t nested c = Ok (c', evs) ->
  accounted (PairContract.CallSwap sender out0 out1 to tok b0 b1 treasury t nested) c = true ->
  accounts (PairContract.CallSwap sender out0 out1 to tok b0 b1 treasury t nested) c c' evs.
Proof.
  unfold PairContract.swap. intros H Ha. cbn [accounted] in Ha. apply andb_true_iff in Ha as [Hb0%Z.leb_le Hb1%Z.leb_le].
  case_match; [|done]. case_match; [|done]. case_match; [|done].
  apply after_inv in H as (c1 & e1 & e2 & Hn%transfers_no_kind & H & ->).
  set (r0 := PairContract.c_reserve0 c) in *. set (r1 := PairContract.c_reserve1 c) in *.
  set (in0 := if r0 - out0 <? b0 then b0 - (r0 - out0) else 0) in *.
  set (in1 := if r1 - out1 <? b1 then b1 - (r1 - out1) else 0) in *.
  assert (in0 = b0 - (r0 - out0) /\ in1 = b1 - (r1 - out1)) as [Ei0 Ei1].
  { unfold in0, in1. destruct (Z.ltb_spec (r0 - out0) b0), (Z.ltb_spec (r1 - out1) b1); lia. }
  right. exists (ActSwap to in0 in1 out0 out1). case_match; [|done].
  repeat (apply res_bind_Ok in H as (? & [-> _]%u256_inv & H)).
  case_match; [|done]. apply update_emit in H as [He Hr]. rewrite omap_app, Hn, He, Hr. split; [done|].
  cbn [redo fees_of reserves fst snd]. fold r0 r1. unfold protocol_fee.
  destruct (String.eqb treasury PairContract.zero_address); cbn [negb]; f_equal; lia.
Qed.

Lemma exec_accounts k c c' evs :
  PairContract.exec k c = Ok (c', evs) -> accounted k c = true -> accounts k c c' evs.
Proof.
  destruct k as [sender to b0 b1 t|self sender to b0 b1 b0' b1' t nested|sender o0 o1 to tok b0 b1 treasury t nested|b0 b1 t|from to v];
    cbn [PairContract.exec]; intros H Ha.
  - by apply mint_accounts.
  - by apply burn_accounts.
  - by apply swap_accounts.
  - left. cbn [accounted] in Ha. apply andb_true_iff in Ha as [->%Z.eqb_eq ->%Z.eqb_eq]. unfold PairContract.sync in H.
    unfold reserves. destruct (update_sets_reserves _ _ _ _ _ _ _ _ H) as [-> ->]. split; [|done].
    unfold PairContract._update in H. case_match; [|done]. repeat (apply res_bind_Ok in H as (? & _ & H)). by injection H as _ <-.
  - left. assert (PairContract._transfers [(from, to, v)] c = Ok (c', evs ++ [])%list) as Ht.
    { cbn [PairContract._transfers]. unfold PairContract.after. by rewrite H. }
    rewrite app_nil_r in Ht. split; [by eapply transfers_no_kind|]. unfold reserves.
    by destruct (transfers_keep_reserves _ _ _ _ Ht) as [-> ->].
Qed.

Lemma redo_shift kind r0 r1 f0 f1 :
  redo kind (r0 - f0) (r1 - f1) = ((redo kind r0 r1).1 - f0, (redo kind r0 r1).2 - f1).
Proof. destruct kind; cbn; f_equal; lia. Qed.

(** The events of a run, redone from the reserves it starts with less all its fees. *)
Lemma redo_changes ks c events :
  accounted_run ks c = true -> act_kind <$> events = ch_kind <$> changes ks c ->
  let fees := all_fees (changes ks c) in
  let r := ((reserves c).1 - fees.1, (reserves c).2 - fees.2) in
  history events r = shown_history events (changes ks c) /\ reserves_after events r = reserves (fst (PairContract.run ks c)).
Proof.
  revert c events. induction ks as [|k ks IH]; intros c events; cbn [changes accounted_run PairContract.run].
  { intros _. destruct events; [|done]. intros _. split; [done|].
    cbn [reserves_after all_fees foldr fst snd]. by rewrite !Z.sub_0_r. }
  destruct (PairContract.exec k c) as [[c1 evs]|err] eqn:E; [|by apply IH].
  rewrite andb_true_iff. intros [Ha Hrun] Hk. destruct (exec_accounts _ _ _ _ E Ha) as [[Hn Hr]|(kind & Hn & Hr)];
    rewrite Hn in *; cbn [fmap list_fmap app] in *.
  - destruct (IH c1 events Hrun Hk) as [H1 H2]. by rewrite <- Hr.
  - destruct events as [|a events]; [done|]. injection Hk as Hka Hk. destruct (IH c1 events Hrun Hk) as [H1 H2].
    cbn [history reserves_after shown_history all_fees foldr ch_fees ch_kind ch_reserves fst snd]. fold (all_fees (changes ks c1)).
    set (fees := all_fees (changes ks c1)) in *. rewrite Hka.
    rewrite redo_shift, Hr. cbn [fst snd].
    replace ((reserves c1).1 + (fees_of k kind).1 - ((fees_of k kind).1 + fees.1)) with ((reserves c1).1 - fees.1) by lia.
    replace ((reserves c1).2 + (fees_of k kind).2 - ((fees_of k kind).2 + fees.2)) with ((reserves c1).2 - fees.2) by lia.
    by rewrite H1, H2.
Qed.

Lemma shown_without_fees events l :
  length events = length l -> Forall (fun ch => ch_fees ch = (0, 0)) l ->
  all_fees l = (0, 0) /\ (fun sn => (sn_reserve0 sn, sn_reserve1 sn)) <$> shown_history events l = ch_reserves <$> l.
Proof.
  intros Hl Hf. revert events Hl. induction Hf as [|ch l Hc Hf IH]; intros [|a events] Hl; try done. injection Hl as Hl.
  destruct (IH events Hl) as [Ha Hs]. cbn [all_fees foldr shown_history fmap list_fmap]. fold (all_fees l). rewrite Ha, Hc, Hs.
  split; [done|]. f_equal. cbn. destruct (ch_reserves ch). cbn. f_equal; lia.
Qed.

(** C18.  Walking back from the current reserves recovers the pair contract's, but for protocol
    fees.  Take any calls of the pair contract since its deployment, reverts included, in which
    the tokens move as the calls say; let the indexer serve their mints, burns and swaps, each
    after the creation at a place of its own, no synchronisations, and the reserves the contract
    has at last.  Then the page's snapshots are the creation and, in the order of the chain,
    each event with the reserves the contract had after it less the protocol fees of all later
    swaps.  For a pair whose swaps pay no fee those are the contract's reserves exactly, from
    zero at the creation. *)
Theorem replay_gives_history pl pool activities created calls :
  (forall s t, pl_localeCompare pl s t <= 0 \/ pl_localeCompare pl t s <= 0) ->
  (forall s t u, pl_localeCompare pl s t <= 0 -> pl_localeCompare pl t u <= 0 -> pl_localeCompare pl s u <= 0) ->
  seconds (pd_createdAtTimestamp pool) created ->
  Forall (event_after created) activities -> NoDup (place <$> activities) ->
  let events := sort_by (event_le (pl_localeCompare pl)) activities in
  let l := changes calls PairContract.deployed in
  accounted_run calls PairContract.deployed = true ->
  act_kind <$> events = ch_kind <$> l ->
  (pv_reserve0 (pd_view pool), pv_reserve1 (pd_view pool)) = reserves (fst (PairContract.run calls PairContract.deployed)) ->
  let snapshots := buildReserveSnapshots (pl_localeCompare pl) pool activities in
  snapshots = created_snapshot pool (- (all_fees l).1, - (all_fees l).2) :: shown_history events l
  /\ (Forall (fun ch => ch_fees ch = (0, 0)) l ->
      (fun sn => (sn_reserve0 sn, sn_reserve1 sn)) <$> snapshots = (0, 0) :: (ch_reserves <$> l)).
Proof.
  intros Htot Htrans Hc Hev Hn events l Hrun Hk Hr snapshots.
  destruct (redo_changes calls PairContract.deployed events Hrun Hk) as [H1 H2]. cbn zeta in H1, H2. fold l in H1, H2.
  change (reserves PairContract.deployed) with (0, 0) in H1, H2. cbn [fst snd] in H1, H2.
  assert (snapshots = created_snapshot pool (- (all_fees l).1, - (all_fees l).2) :: shown_history events l) as Hs.
  { unfold snapshots. rewrite (walk_gives_history pl pool activities created (0 - (all_fees l).1, 0 - (all_fees l).2)); try done.
    - by fold events; rewrite H1.
    - fold events. by rewrite H2, Hr. }
  split; [done|]. intros Hf. rewrite Hs.
  assert (length events = length l) as Hl by (by rewrite <- (length_fmap act_kind events), Hk, length_fmap).
  destruct (shown_without_fees events l Hl Hf) as [Ha Hsh]. rewrite Ha. cbn [fmap list_fmap]. by rewrite Hsh.
Qed.

(** An addition, a swap that pays its fee to a treasury, and a removal, with the events the
    indexer serves for them, newest first. *)
Definition sample_calls : list PairContract.call :=
  [PairContract.CallMint "router" "alice" 4000000 9000000 100;
   PairContract.CallSwap "router" 0 8000 "bob" false 4010000 8992000 "treasury" 130 [];
   PairContract.CallTransfer "alice" "pair" 5000;
   PairContract.CallBurn "pair" "router" "alice" 4009995 8992000 4006654 8984507 140 []].

Definition sample_events : list PoolActivityViewModel :=
  [sample_activity (ActRemove "alice" 3341 7493) 1700000300 12; sample_activity (ActSwap "bob" 10000 0 0 8000) 1700000200 11;
   sample_activity (ActAdd 4000000 9000000) 1700000100 10].

Lemma replay_gives_history_witness :
  let snapshots := buildReserveSnapshots (fun _ _ => 0) (sample_pool_detail 4006654 8984507) sample_events in
  snapshots
  = created_snapshot (sample_pool_detail 4006654 8984507) (-5, 0)
    :: shown_history (sort_by (event_le (fun _ _ => 0)) sample_events) (changes sample_calls PairContract.deployed)
  /\ (fun sn => (sn_reserve0 sn, sn_reserve1 sn)) <$> snapshots
     = [(-5, 0); (3999995, 9000000); (4009995, 8992000); (4006654, 8984507)].
Proof.
  destruct (replay_gives_history sample_page_locale (sample_pool_detail 4006654 8984507) sample_events 1700000000 sample_calls)
    as [Hs _].
  - intros s t. left. cbn. lia.
  - intros s t u _ _. cbn. lia.
  - by apply seconds_of_Z.
  - assert (forall k t b, is_sync (sample_activity k t b) = false -> 1 <= b -> 1700000000 <= t < 2 ^ 52 ->
              event_after 1700000000 (sample_activity k t b)) as He.
    { intros k t b Hk Hb Ht. split; [done|]. split; [done|]. split; [cbn; lia|].
      exists t. split; [apply seconds_of_Z; lia|lia]. }
    repeat (apply Forall_cons_2; [apply He; (done || lia)|]). by apply Forall_nil_2.
  - cbn. repeat constructor; set_solver.
  - vm_compute. reflexivity.
  - vm_compute. reflexivity.
  - vm_compute. reflexivity.
  - assert (all_fees (changes sample_calls PairContract.deployed) = (5, 0)) as Hf by (vm_compute; reflexivity).
    rewrite Hf in Hs. split; [exact Hs|]. vm_compute. reflexivity.
Defined.
