(* ===== verification/PoolPage.v ===== *)
(** * The pool page (frontend/src/app/pool/[pairAddress]/page.tsx)

    The page of one pool: the request for its detail and what a late reply may do, the tabs
    and ranges of its chart, the hovered points and the zoom of the depth chart, and the
    texts, links and rows it shows.  A render is a function of the page's state and of what
    its hooks give; the effects run after the renders that change their dependencies, in the
    order of the source. *)

From S2P Require Import Prelude JsString JsUri JsNumber JsDivision JsError JsSort Amounts FrontendConfig Pools OrderView Farms Positions.
From S2P Require Import PoolAnalytics.
From Stdlib Require Import SpecFloat Ascii.
Import Pools.PoolMetrics.
Open Scope string_scope.
Open Scope Z_scope.
Open Scope flux_scope.

(** ** State *)

(** What the hooks give: the language, the chain, the parameter of the route and the
    treasury the factory names. *)
Record pool_hooks := {
  ph_language : string;
  ph_chainId : option Z;
  ph_pairAddress : option (string + list string);
  ph_treasuryAddress : option string;
}.

Record pool_page := {
  pg_poolDetail : option PoolDetailViewModel;
  pg_activities : list PoolActivityViewModel;
  pg_loading : bool;
  pg_fetchError : option string;
  pg_analyticsTab : AnalyticsTab;
  pg_analyticsRange : AnalyticsRange;
  pg_hoveredVolumePoint : option AnalyticsPoint;
  pg_hoveredDepthImpact : option num;
  pg_depthZoom : num;
  pg_isPairReversed : bool;
}.

Definition initial_pool_page : pool_page :=
  {| pg_poolDetail := None; pg_activities := []; pg_loading := false; pg_fetchError := None;
     pg_analyticsTab := tab_price; pg_analyticsRange := range_1d; pg_hoveredVolumePoint := None;
     pg_hoveredDepthImpact := None; pg_depthZoom := num_of_Z 1; pg_isPairReversed := false |}.

(** The setters. *)
Definition set_detail (detail : option PoolDetailViewModel) (activities : list PoolActivityViewModel)
    (loading : bool) (error : option string) (p : pool_page) : pool_page :=
  {| pg_poolDetail := detail; pg_activities := activities; pg_loading := loading; pg_fetchError := error;
     pg_analyticsTab := pg_analyticsTab p; pg_analyticsRange := pg_analyticsRange p;
     pg_hoveredVolumePoint := pg_hoveredVolumePoint p; pg_hoveredDepthImpact := pg_hoveredDepthImpact p;
     pg_depthZoom := pg_depthZoom p; pg_isPairReversed := pg_isPairReversed p |}.
Definition set_chart (tab : AnalyticsTab) (range : AnalyticsRange) (p : pool_page) : pool_page :=
  {| pg_poolDetail := pg_poolDetail p; pg_activities := pg_activities p; pg_loading := pg_loading p;
     pg_fetchError := pg_fetchError p; pg_analyticsTab := tab; pg_analyticsRange := range;
     pg_hoveredVolumePoint := pg_hoveredVolumePoint p; pg_hoveredDepthImpact := pg_hoveredDepthImpact p;
     pg_depthZoom := pg_depthZoom p; pg_isPairReversed := pg_isPairReversed p |}.
Definition set_hovered (volume : option AnalyticsPoint) (impact : option num) (p : pool_page) : pool_page :=
  {| pg_poolDetail := pg_poolDetail p; pg_activities := pg_activities p; pg_loading := pg_loading p;
     pg_fetchError := pg_fetchError p; pg_analyticsTab := pg_analyticsTab p;
     pg_analyticsRange := pg_analyticsRange p; pg_hoveredVolumePoint := volume;
     pg_hoveredDepthImpact := impact; pg_depthZoom := pg_depthZoom p; pg_isPairReversed := pg_isPairReversed p |}.
Definition set_zoom (zoom : num) (p : pool_page) : pool_page :=
  {| pg_poolDetail := pg_poolDetail p; pg_activities := pg_activities p; pg_loading := pg_loading p;
     pg_fetchError := pg_fetchError p; pg_analyticsTab := pg_analyticsTab p;
     pg_analyticsRange := pg_analyticsRange p; pg_hoveredVolumePoint := pg_hoveredVolumePoint p;
     pg_hoveredDepthImpact := pg_hoveredDepthImpact p; pg_depthZoom := zoom;
     pg_isPairReversed := pg_isPairReversed p |}.
Definition set_reversed (reversed : bool) (p : pool_page) : pool_page :=
  {| pg_poolDetail := pg_poolDetail p; pg_activities := pg_activities p; pg_loading := pg_loading p;
     pg_fetchError := pg_fetchError p; pg_analyticsTab := pg_analyticsTab p;
     pg_analyticsRange := pg_analyticsRange p; pg_hoveredVolumePoint := pg_hoveredVolumePoint p;
     pg_hoveredDepthImpact := pg_hoveredDepthImpact p; pg_depthZoom := pg_depthZoom p;
     pg_isPairReversed := reversed |}.

(** ** Rows *)

Inductive row_tone := tone_swap | tone_add | tone_remove.

Record PoolActivityRow := {
  ar_id : string; ar_tone : row_tone; ar_title : string; ar_detailLabel : string; ar_walletLabel : string;
  ar_timeLabel : string; ar_txHash : string; ar_txHref : option string;
}.

Definition getActivityToneClass (tone : row_tone) : string :=
  match tone with
  | tone_swap => "bg-sky-100 text-sky-700 dark:bg-sky-500/15 dark:text-sky-300"
  | tone_add => "bg-emerald-100 text-emerald-700 dark:bg-emerald-500/15 dark:text-emerald-300"
  | tone_remove => "bg-rose-100 text-rose-700 dark:bg-rose-500/15 dark:text-rose-300"
  end.

(** What the page uses of viem, [Intl], the configuration and [Math]. *)
Record pool_libraries := {
  pb_locale : page_locale;
  pb_chart : chart_locale;
  pb_isAddress : string -> bool;
  pb_supported : option Z -> bool;
  pb_contract : string -> option Z -> option string;
  pb_explorer : option Z -> string -> option string;
}.

Section page.
Variable lib : pool_libraries.
Abbreviation pl := (pb_locale lib).
Abbreviation cl := (pb_chart lib).

(** [None] for a reserve update, which the page filters out before. *)
Definition buildActivityRow (activity : PoolActivityViewModel) (pair : PoolDetailViewModel) (chainId : option Z)
    (wrappedNativeAddress : option string) (isZh : bool) : option PoolActivityRow :=
  let token0 := pv_token0 (pd_view pair) in
  let token1 := pv_token1 (pd_view pair) in
  let token0Symbol := normalizeTokenSymbol (tv_symbol token0) (tv_id token0) wrappedNativeAddress in
  let token1Symbol := normalizeTokenSymbol (tv_symbol token1) (tv_id token1) wrappedNativeAddress in
  let shown0 amount := digits_down pl amount (tv_decimals token0) 6 ++ " " ++ token0Symbol in
  let shown1 amount := digits_down pl amount (tv_decimals token1) 6 ++ " " ++ token1Symbol in
  let row tone title detail :=
    {| ar_id := act_id activity; ar_tone := tone; ar_title := title; ar_detailLabel := detail;
       ar_walletLabel := truncateAddress (act_sender activity) 6 4;
       ar_timeLabel := formatTimestamp pl (act_timestamp activity) (told isZh "zh-CN" "en-US");
       ar_txHash := act_txHash activity; ar_txHref := pb_explorer lib chainId (act_txHash activity) |} in
  match act_kind activity with
  | ActSwap _ amount0In amount1In amount0Out amount1Out =>
    let sold := if 0 <? amount0In then shown0 amount0In else shown1 amount1In in
    let bought := if 0 <? amount0Out then shown0 amount0Out else shown1 amount1Out in
    Some (row tone_swap (told isZh "交易" "Swap") (sold ++ " -> " ++ bought))
  | ActAdd amount0 amount1 =>
    Some (row tone_add (told isZh "添加流动性" "Add liquidity") (shown0 amount0 ++ " + " ++ shown1 amount1))
  | ActRemove _ amount0 amount1 =>
    Some (row tone_remove (told isZh "移除流动性" "Remove liquidity") (shown0 amount0 ++ " + " ++ shown1 amount1))
  | ActSync _ _ => None
  end.

Section render.
Variable h : pool_hooks.
Variable p : pool_page.

Definition isZh : bool := String.prefix "zh" (ph_language h).
Definition supportedChain : bool := pb_supported lib (ph_chainId h).
Definition factoryAddress : option string := pb_contract lib "FluxSwapFactory" (ph_chainId h).
Definition wrappedNativeAddress : option string := pb_contract lib "MockWETH" (ph_chainId h).
(** [Array.isArray(raw) ? raw[0] : raw] *)
Definition pairAddress : option string :=
  match ph_pairAddress h with
  | Some (inl a) => Some a
  | Some (inr l) => head l
  | None => None
  end.
Definition page_lang : string := told isZh "zh-CN" "en-US".

Definition token_symbol (token : PoolViewModel -> TokenViewModel) : string :=
  match pg_poolDetail p with
  | Some d => let t := token (pd_view d) in normalizeTokenSymbol (tv_symbol t) (tv_id t) wrappedNativeAddress
  | None => "--"
  end.
Definition token0Symbol : string := token_symbol pv_token0.
Definition token1Symbol : string := token_symbol pv_token1.
Definition displayTokenASymbol : string := if pg_isPairReversed p then token1Symbol else token0Symbol.
Definition displayTokenBSymbol : string := if pg_isPairReversed p then token0Symbol else token1Symbol.
Definition poolLabel : string := displayTokenASymbol ++ " / " ++ displayTokenBSymbol.
Definition quoteTokenIndex : quote_index := if pg_isPairReversed p then Quote0 else Quote1.
Definition baseTokenSymbol : string :=
  match quoteTokenIndex with Quote1 => token0Symbol | Quote0 => token1Symbol end.
Definition quoteTokenSymbol : string :=
  match quoteTokenIndex with Quote1 => token1Symbol | Quote0 => token0Symbol end.

Definition analyticsPoints : res render_failure (list AnalyticsPoint) :=
  match pg_poolDetail p with
  | Some d => buildAnalyticsSeries pl cl d quoteTokenIndex (pg_activities p) (pg_analyticsRange p) page_lang
  | None => Ok []
  end.

Definition depthSeries : DepthSeries :=
  match pg_poolDetail p with
  | Some d => buildDepthSeries pl d quoteTokenIndex
  | None => {| ds_currentPrice := None; ds_bids := []; ds_asks := [] |}
  end.

Definition displayedVolumePoint : option AnalyticsPoint :=
  if bool_decide (pg_analyticsTab p = tab_volume) then pg_hoveredVolumePoint p else None.

(** The points under the pointer, left and right of the current price. *)
Definition hoveredDepthPoints : option DepthPoint * option DepthPoint :=
  match pg_hoveredDepthImpact p with
  | Some impact =>
    if num_ltb (num_div (num_mul MAX_DEPTH_IMPACT (num_of_Z 100)) (pg_depthZoom p)) impact then (None, None)
    else (findDepthPointByImpact (ds_bids depthSeries) impact, findDepthPointByImpact (ds_asks depthSeries) impact)
  | None => (None, None)
  end.

(** The prices at the borders of the depth chart. *)
Definition depth_borders (currentPrice : num) : num * num :=
  let depthRangeRatio := num_div MAX_DEPTH_IMPACT (pg_depthZoom p) in
  (num_mul currentPrice (num_sub (num_of_Z 1) depthRangeRatio),
   num_mul currentPrice (num_add (num_of_Z 1) depthRangeRatio)).

Definition depthScaleMax : num :=
  foldl (fun maxDepth point => math_max maxDepth (dp_quoteDepth point)) num_zero
    (ds_bids depthSeries ++ ds_asks depthSeries)%list.

Record depth_overlay := {
  do_currentPriceLeftPct : num;
  do_hoverLeftPct : option num;
  do_bid : option (num * num);
  do_ask : option (num * num);
}.

Definition depthChartOverlay : option depth_overlay :=
  match pg_analyticsTab p, ds_currentPrice depthSeries with
  | tab_depth, Some currentPrice =>
    let '(depthMinPrice, depthMaxPrice) := depth_borders currentPrice in
    let priceRange := num_sub depthMaxPrice depthMinPrice in
    if negb (is_finite priceRange) || num_leb priceRange num_zero then None
    else
      let depthYAxisMax := default depthScaleMax (getDepthScaleCeiling cl depthScaleMax) in
      if negb (is_finite depthYAxisMax) || num_leb depthYAxisMax num_zero then None
      else
        let hundred := num_of_Z 100 in
        let leftPct price := num_mul (num_div (num_sub price depthMinPrice) priceRange) hundred in
        let getPointPosition (point : option DepthPoint) :=
          (fun point =>
             (clampNumber (leftPct (dp_price point)) num_zero hundred,
              clampNumber (num_sub hundred (num_mul (num_div (dp_quoteDepth point) depthYAxisMax) hundred))
                num_zero hundred)) <$> point in
        Some {| do_currentPriceLeftPct := clampNumber (leftPct currentPrice) num_zero hundred;
                do_hoverLeftPct :=
                  (fun impact =>
                     clampNumber (leftPct (num_mul currentPrice (num_add (num_of_Z 1) (num_div impact hundred))))
                       num_zero hundred) <$> pg_hoveredDepthImpact p;
                do_bid := getPointPosition (fst hoveredDepthPoints);
                do_ask := getPointPosition (snd hoveredDepthPoints) |}
  | _, _ => None
  end.

(** ** The summary above the chart *)

Record AnalyticsSummary := {
  as_headline : string;
  as_changePct : option num;
  as_footnote : option string;
}.

Definition plain_summary (headline : string) : AnalyticsSummary :=
  {| as_headline := headline; as_changePct := None; as_footnote := None |}.

(** [points.reduce((total, point) => total + point.volume, 0)] *)
Definition totalVolumeInRange (points : list AnalyticsPoint) : num :=
  foldl (fun total point => num_add total (an_volume point)) num_zero points.

Definition price_headline (price : option num) : string :=
  match price with
  | None => "--"
  | Some _ => "1 " ++ baseTokenSymbol ++ " = " ++ formatPriceMetric cl price ++ " " ++ quoteTokenSymbol
  end.

Definition analyticsSummary (points : list AnalyticsPoint) : AnalyticsSummary :=
  match pg_poolDetail p, last points with
  | Some _, Some latest =>
    let previous := if (1 <? Z.of_nat (length points)) then points !! (length points - 2)%nat else None in
    match pg_analyticsTab p with
    | tab_price =>
      {| as_headline := price_headline (an_price latest);
         as_changePct := formatChangePercent (getChangePct (an_price latest) (previous ≫= an_price));
         as_footnote := None |}
    | tab_volume =>
      let volumeValue := match displayedVolumePoint with
                         | Some point => an_volume point
                         | None => totalVolumeInRange points
                         end in
      {| as_headline := quoteTokenSymbol ++ " " ++ formatCompactMetric cl (Some volumeValue);
         as_changePct := None;
         as_footnote := Some match displayedVolumePoint with
                             | Some point => formatVolumeHoverTime cl (an_timestamp point) page_lang
                             | None => getVolumeRangeLabel (pg_analyticsRange p) isZh
                             end |}
    | tab_liquidity =>
      {| as_headline := quoteTokenSymbol ++ " " ++ formatCompactMetric cl (an_liquidity latest);
         as_changePct := formatChangePercent (getChangePct (an_liquidity latest) (previous ≫= an_liquidity));
         as_footnote := Some (told isZh "按当前储备推算的双边流动性规模"
                                "Estimated two-sided liquidity from current reserves") |}
    | tab_depth => plain_summary (price_headline (ds_currentPrice depthSeries))
    end
  | _, _ => plain_summary "--"
  end.

(** The change in percent: its mark, its sign and the text. *)
Definition change_text (changePct : num) : option string * string :=
  (if negb (num_eqb changePct num_zero) then Some (if num_ltb num_zero changePct then "^" else "v") else None,
   (if num_ltb num_zero changePct then "+" else "") ++ num_to_fixed changePct 2 ++ "%").

(** ** The cards and the rows *)

Definition lpFeeRate : num := getPoolLpFeeRate (ph_treasuryAddress h).

Definition recent_swap (activity : PoolActivityViewModel) : option PoolRecentSwapViewModel :=
  match act_kind activity with
  | ActSwap _ amount0In amount1In amount0Out amount1Out =>
    Some {| rs_amount0In := amount0In; rs_amount1In := amount1In; rs_amount0Out := amount0Out;
            rs_amount1Out := amount1Out; rs_timestamp := act_timestamp activity |}
  | _ => None
  end.

Definition poolAprLabel : string :=
  match pg_poolDetail p with
  | None => "--"
  | Some d =>
    formatPoolApr (fun digits => cl_numberFormat cl 0 digits)
      (calculatePoolApr (pl_formatUnits pl) (pd_view d) (omap recent_swap (pg_activities p)) quoteTokenIndex lpFeeRate)
  end.

(** [formatBigIntAmount(count, 0, 0)] *)
Definition count_label (count : Z) : string :=
  formatDisplayAmount (pl_toLocaleString pl) (Some (pl_formatUnits pl count num_zero)) 0.

Definition summaryCards : list (string * string) :=
  match pg_poolDetail p with
  | None => []
  | Some d =>
    [(told isZh "协议" "Protocol", "V2");
     (told isZh "资金池年利率" "Pool APR", poolAprLabel);
     (told isZh "总 LP" "Total LP", digits_down pl (pd_totalSupply d) (num_of_Z 18) 6);
     (told isZh "交易次数" "Tx count", count_label (pd_txCount d));
     (told isZh "添加 / 移除" "Mint / Burn", count_label (pd_mintCount d) ++ " / " ++ count_label (pd_burnCount d));
     (told isZh "创建时间" "Created", formatTimestamp pl (pd_createdAtTimestamp d) page_lang)]
  end.

Definition activityRows : list PoolActivityRow :=
  match pg_poolDetail p with
  | None => []
  | Some d =>
    omap (fun activity => buildActivityRow activity d (ph_chainId h) wrappedNativeAddress isZh)
      (take 30 (keep (fun activity => negb (is_sync activity)) (pg_activities p)))
  end.

(** ** Texts and links *)

Definition price_text (base quote : PoolViewModel -> Z) (base_token quote_token : PoolViewModel -> TokenViewModel)
  : res render_failure string :=
  match pg_poolDetail p with
  | None => Ok "--"
  | Some d =>
    let view := pd_view d in
    formatPoolPrice pl (base view) (tv_decimals (base_token view)) (quote view) (tv_decimals (quote_token view)) 6
  end.
Definition currentPrice0To1 : res render_failure string := price_text pv_reserve0 pv_reserve1 pv_token0 pv_token1.
Definition currentPrice1To0 : res render_failure string := price_text pv_reserve1 pv_reserve0 pv_token1 pv_token0.
Definition displayPrimaryPrice : res render_failure string :=
  if pg_isPairReversed p then currentPrice1To0 else currentPrice0To1.
Definition displaySecondaryPrice : res render_failure string :=
  if pg_isPairReversed p then currentPrice0To1 else currentPrice1To0.

Definition addLiquidityHref : string :=
  match pg_poolDetail p with
  | Some d => "/portfolio/liquidity?tokenA=" ++ tv_id (pv_token0 (pd_view d))
              ++ "&tokenB=" ++ tv_id (pv_token1 (pd_view d))
  | None => "/portfolio/liquidity"
  end.
Definition swapHref : string :=
  match pg_poolDetail p with
  | Some _ => "/swap?mode=swap&payToken=" ++ encodeURIComponent displayTokenASymbol
              ++ "&receiveToken=" ++ encodeURIComponent displayTokenBSymbol ++ "&inputMode=pay"
  | None => "/swap"
  end.
Definition breadcrumbLabel : string :=
  match pg_poolDetail p with
  | Some _ => poolLabel
  | None => told isZh "资金池详情" "Pool Detail"
  end.

Definition analyticsTabs : list (AnalyticsTab * string) :=
  [(tab_price, told isZh "价格" "Price"); (tab_volume, told isZh "交易量" "Volume");
   (tab_liquidity, told isZh "流动性" "Liquidity"); (tab_depth, told isZh "深度" "Depth")].

Definition analyticsRangeOptions : list (AnalyticsRange * string) :=
  (if bool_decide (pg_analyticsTab p = tab_volume) then [(range_1h, told isZh "1小时" "1H")] else [])
  ++ [(range_1d, told isZh "1天" "1D"); (range_1w, told isZh "1周" "1W"); (range_1m, told isZh "1个月" "1M");
      (range_1y, told isZh "1年" "1Y"); (range_all, told isZh "全部" "All")].

Definition analyticsChartEmpty (points : list AnalyticsPoint) : bool :=
  match pg_analyticsTab p with
  | tab_depth => match ds_bids depthSeries, ds_asks depthSeries with [], [] => true | _, _ => false end
  | tab_price => forallb (fun point => match an_price point with None => true | Some _ => false end) points
  | tab_volume => forallb (fun point => num_leb (an_volume point) num_zero) points
  | tab_liquidity => forallb (fun point => match an_liquidity point with None => true | Some _ => false end) points
  end.

(** What the page shows below its head: one of five views. *)
Inductive page_view :=
| UnsupportedNetwork
| LoadingDetail
| LoadFailed (description : string)
| DetailShown (detail : PoolDetailViewModel)
| PoolNotFound (address : string).

Definition shown_view : page_view :=
  if negb supportedChain then UnsupportedNetwork
  else if pg_loading p then LoadingDetail
  else match pg_fetchError p, pg_poolDetail p with
       | Some (String _ _ as e), _ => LoadFailed e
       | _, Some d => DetailShown d
       | _, None => PoolNotFound (match pairAddress with
                                  | Some a => if str_nonempty a then truncateAddress (Some a) 6 4 else "--"
                                  | None => "--"
                                  end)
       end.

(** ** The data of the chart *)

Record depth_chart := {
  dc_min : option num; dc_max : option num; dc_yMax : option num;
  dc_bids : list (num * num); dc_asks : list (num * num);
}.

Record series_chart := {
  sc_labels : list string;
  sc_data : list (option num);
  sc_lastPoint : option (string * option num);
}.

Definition point_value (point : AnalyticsPoint) : option num :=
  match pg_analyticsTab p with
  | tab_price => an_price point
  | tab_volume => Some (an_volume point)
  | _ => an_liquidity point
  end.

Definition analyticsChartOption (points : list AnalyticsPoint) : depth_chart + series_chart :=
  match pg_analyticsTab p with
  | tab_depth =>
    let borders := depth_borders <$> ds_currentPrice depthSeries in
    let visible := keep (fun point =>
      match borders with
      | None => true
      | Some (low, high) => num_leb low (dp_price point) && num_leb (dp_price point) high
      end) in
    let data points := (fun point => (dp_price point, dp_quoteDepth point)) <$> visible points in
    inl {| dc_min := fst <$> borders; dc_max := snd <$> borders; dc_yMax := getDepthScaleCeiling cl depthScaleMax;
           dc_bids := data (ds_bids depthSeries); dc_asks := data (ds_asks depthSeries) |}
  | tab =>
    let resolvedLastPoint :=
      find_first (fun point => match point_value point with Some _ => true | None => false end) (rev points) in
    inr {| sc_labels := an_label <$> points; sc_data := point_value <$> points;
           sc_lastPoint := match tab with
                           | tab_price => (fun point => (an_label point, an_price point)) <$> resolvedLastPoint
                           | _ => None
                           end |}
  end.

(** The tooltip of a point of the line or bar chart. *)
Definition tooltip (points : list AnalyticsPoint) (dataIndex : option nat) (axisValueLabel : option string) : string :=
  match dataIndex ≫= fun i => points !! i with
  | None => ""
  | Some point =>
    default (an_label point) axisValueLabel ++ "<br/>"
    ++ (if bool_decide (pg_analyticsTab p = tab_price) then formatPriceMetric cl (point_value point)
        else formatMetricValue cl (point_value point) 2)
    ++ " " ++ quoteTokenSymbol
  end.
End render.

(** ** Handlers *)

Definition chart_mouseover (h : pool_hooks) (dataIndex : option nat) (p : pool_page) : pool_page :=
  match pg_analyticsTab p, dataIndex, analyticsPoints h p with
  | tab_volume, Some i, Ok points => set_hovered (points !! i) (pg_hoveredDepthImpact p) p
  | _, _, _ => p
  end.
Definition chart_globalout (p : pool_page) : pool_page := set_hovered None (pg_hoveredDepthImpact p) p.

Definition handleDepthMouseMove (clientX rectLeft rectWidth : num) (p : pool_page) : pool_page :=
  match pg_analyticsTab p, ds_currentPrice (depthSeries p) with
  | tab_depth, Some currentPrice =>
    if analyticsChartEmpty p [] then p
    else
      let plotLeft := num_of_Z 22 in
      let plotRight := num_of_Z 24 in
      let plotWidth := num_sub (num_sub rectWidth plotLeft) plotRight in
      if num_leb plotWidth num_zero then p
      else
        let x := clampNumber (num_sub (num_sub clientX rectLeft) plotLeft) num_zero plotWidth in
        let '(depthMinPrice, depthMaxPrice) := depth_borders p currentPrice in
        let hoveredPrice :=
          num_add depthMinPrice (num_mul (num_div x plotWidth) (num_sub depthMaxPrice depthMinPrice)) in
        if negb (is_finite hoveredPrice) then p
        else set_hovered (pg_hoveredVolumePoint p)
               (Some (num_mul (math_abs (num_div (num_sub hoveredPrice currentPrice) currentPrice)) (num_of_Z 100))) p
  | _, _ => p
  end.
Definition handleDepthMouseLeave (p : pool_page) : pool_page := set_hovered (pg_hoveredVolumePoint p) None p.

Definition ZOOM_STEP : num := num_of_string "1.25".
Definition WHEEL_STEP : num := num_of_string "1.12".
Definition zoomOutDepth (p : pool_page) : pool_page :=
  set_zoom (math_max MIN_DEPTH_ZOOM (num_div (pg_depthZoom p) ZOOM_STEP)) p.
Definition resetDepthZoom (p : pool_page) : pool_page := set_zoom (num_of_Z 1) p.
Definition zoomInDepth (p : pool_page) : pool_page :=
  set_zoom (math_min MAX_DEPTH_ZOOM (num_mul (pg_depthZoom p) ZOOM_STEP)) p.
Definition handleWheel (deltaY : num) (p : pool_page) : pool_page :=
  set_zoom (if num_ltb deltaY num_zero
            then math_min MAX_DEPTH_ZOOM (num_mul (pg_depthZoom p) WHEEL_STEP)
            else math_max MIN_DEPTH_ZOOM (num_div (pg_depthZoom p) WHEEL_STEP)) p.

Definition tab_clicked (tab : AnalyticsTab) (p : pool_page) : pool_page :=
  set_chart tab (match tab with tab_volume => range_1h | _ => pg_analyticsRange p end) p.

(** ** The effects *)

Definition load_effect (h : pool_hooks) : (pool_page -> pool_page) * option string :=
  if negb (supportedChain h) then (set_detail None [] false None, None)
  else
    let invalid := (set_detail None [] false (Some (told (isZh h) "资金池地址无效" "Invalid pool address")), None) in
    match pairAddress h with
    | Some a => if str_nonempty a && pb_isAddress lib a then (set_detail None [] true None, Some a) else invalid
    | None => invalid
    end.

(** A settled request that was not cancelled. *)
Definition settle_load (reply : res js_error PoolDetailResult) (p : pool_page) : pool_page :=
  match reply with
  | Ok detail => set_detail (pr_pool detail) (pr_activities detail) false (pg_fetchError p) p
  | Throw error => set_detail None [] false (Some (message_or error "Failed to load pool detail")) p
  end.

Definition range_effect (p : pool_page) : pool_page :=
  if negb (bool_decide (pg_analyticsTab p = tab_volume)) && bool_decide (pg_analyticsRange p = range_1h)
  then set_chart (pg_analyticsTab p) range_1d p else p.

(** The requests sent so far, by number; the one not cancelled; hooks and page; and whether
    the wheel listener is on the container that is shown. *)
Record pool_run := {
  pn_hooks : pool_hooks; pn_page : pool_page; pn_sent : list string; pn_live : option nat; pn_wheel : bool;
}.

(** What the effects depend on, as values to compare. *)
Definition load_deps (r : pool_run) : bool * option string * bool :=
  (isZh (pn_hooks r), pairAddress (pn_hooks r), supportedChain (pn_hooks r)).
Definition hover_deps (r : pool_run) : AnalyticsRange * AnalyticsTab * bool :=
  (pg_analyticsRange (pn_page r), pg_analyticsTab (pn_page r), pg_isPairReversed (pn_page r)).
Definition zoom_deps (r : pool_run) : option string * bool :=
  (pairAddress (pn_hooks r), pg_isPairReversed (pn_page r)).
Definition range_deps (r : pool_run) : AnalyticsRange * AnalyticsTab :=
  (pg_analyticsRange (pn_page r), pg_analyticsTab (pn_page r)).

Definition on_page (f : pool_page -> pool_page) (r : pool_run) : pool_run :=
  {| pn_hooks := pn_hooks r; pn_page := f (pn_page r); pn_sent := pn_sent r; pn_live := pn_live r;
     pn_wheel := pn_wheel r |}.
Definition set_wheel (b : bool) (r : pool_run) : pool_run :=
  {| pn_hooks := pn_hooks r; pn_page := pn_page r; pn_sent := pn_sent r; pn_live := pn_live r; pn_wheel := b |}.

Definition start_load (r : pool_run) : pool_run :=
  let '(set_now, request) := load_effect (pn_hooks r) in
  {| pn_hooks := pn_hooks r; pn_page := set_now (pn_page r);
     pn_sent := (pn_sent r ++ option_list request)%list;
     pn_live := match request with Some _ => Some (length (pn_sent r)) | None => None end;
     pn_wheel := pn_wheel r |}.

Definition when {A} (b : bool) (f : A -> A) (a : A) : A := if b then f a else a.

(** The container of the chart is rendered. *)
Definition container_shown (r : pool_run) : bool :=
  match shown_view (pn_hooks r) (pn_page r) with DetailShown _ => true | _ => false end.

(** The effects after the render of [r], in the order of the source; each flag says that
    the dependencies of an effect changed.  A container that is not rendered any more takes
    its listener with it. *)
Definition run_effects (load hover zoom range wheel : bool) (r : pool_run) : pool_run :=
  let shown := container_shown r in
  when wheel (set_wheel (shown && bool_decide (pg_analyticsTab (pn_page r) = tab_depth)))
    (when range (on_page range_effect)
      (when zoom (on_page (set_zoom (num_of_Z 1)))
        (when hover (on_page (set_hovered None None))
          (when load start_load (when (negb shown) (set_wheel false) r))))).

Definition changed_effects (old r : pool_run) : pool_run :=
  run_effects (negb (bool_decide (load_deps old = load_deps r))) (negb (bool_decide (hover_deps old = hover_deps r)))
    (negb (bool_decide (zoom_deps old = zoom_deps r))) (negb (bool_decide (range_deps old = range_deps r)))
    (negb (bool_decide (pg_analyticsTab (pn_page old) = pg_analyticsTab (pn_page r)))) r.

(** A render, its effects, and the render their changes cause with its effects. *)
Definition commit (old r : pool_run) : pool_run :=
  let r' := changed_effects old r in changed_effects r r'.

Definition mounted (h : pool_hooks) : pool_run :=
  let r := {| pn_hooks := h; pn_page := initial_pool_page; pn_sent := []; pn_live := None; pn_wheel := false |} in
  let r' := run_effects true true true true true r in changed_effects r r'.

Inductive page_event :=
| HooksChanged (h : pool_hooks)
| Replied (id : nat) (reply : res js_error PoolDetailResult)
| TabClicked (tab : AnalyticsTab)
| RangeClicked (range : AnalyticsRange)
| ReverseClicked
| ZoomOutClicked
| ZoomResetClicked
| ZoomInClicked
| Wheel (deltaY : num)
| DepthMoved (clientX rectLeft rectWidth : num)
| DepthLeft
| ChartOver (dataIndex : option nat)
| ChartOut.

(** What the user can do with a pool on the page. *)
Definition user_event (wheel : bool) (e : page_event) (h : pool_hooks) (p : pool_page) : pool_page :=
  match e with
  | HooksChanged _ | Replied _ _ => p
  | TabClicked tab => tab_clicked tab p
  | RangeClicked range =>
    let offered := match pg_analyticsTab p with tab_price | tab_volume => analyticsRangeOptions h p | _ => [] end in
    if existsb (fun option => bool_decide (fst option = range)) offered
    then set_chart (pg_analyticsTab p) range p else p
  | ReverseClicked => set_reversed (negb (pg_isPairReversed p)) p
  | ZoomOutClicked => if bool_decide (pg_analyticsTab p = tab_depth) && negb (analyticsChartEmpty p []) then zoomOutDepth p else p
  | ZoomResetClicked => if bool_decide (pg_analyticsTab p = tab_depth) && negb (analyticsChartEmpty p []) then resetDepthZoom p else p
  | ZoomInClicked => if bool_decide (pg_analyticsTab p = tab_depth) && negb (analyticsChartEmpty p []) then zoomInDepth p else p
  | Wheel deltaY => if wheel then handleWheel deltaY p else p
  | DepthMoved clientX rectLeft rectWidth => handleDepthMouseMove clientX rectLeft rectWidth p
  | DepthLeft => handleDepthMouseLeave p
  | ChartOver dataIndex => chart_mouseover h dataIndex p
  | ChartOut => if bool_decide (pg_analyticsTab p = tab_depth) then p else chart_globalout p
  end.

Definition page_step (r : pool_run) (e : page_event) : pool_run :=
  match e with
  | HooksChanged h =>
    commit r {| pn_hooks := h; pn_page := pn_page r; pn_sent := pn_sent r; pn_live := pn_live r;
                pn_wheel := pn_wheel r |}
  | Replied id reply =>
    if bool_decide (pn_live r = Some id) then commit r (on_page (settle_load reply) r) else r
  | _ =>
    match shown_view (pn_hooks r) (pn_page r) with
    | DetailShown _ => commit r (on_page (user_event (pn_wheel r) e (pn_hooks r)) r)
    | _ => r
    end
  end.

Definition run_page (r : pool_run) (events : list page_event) : pool_run := foldl page_step r events.
End page.

(** ** What the page shows *)

Section runs.
Variable lib : pool_libraries.
Implicit Types (r old : pool_run) (p : pool_page).

(** The parts of a run the chart's state does not touch. *)
Definition core r : pool_hooks * option PoolDetailViewModel * list PoolActivityViewModel * list string * option nat :=
  (pn_hooks r, pg_poolDetail (pn_page r), pg_activities (pn_page r), pn_sent r, pn_live r).

Lemma when_core b (f : pool_run -> pool_run) r : (forall r, core (f r) = core r) -> core (when b f r) = core r.
Proof. intros Hf. by destruct b; cbn. Qed.

Lemma range_effect_data p :
  pg_poolDetail (range_effect p) = pg_poolDetail p /\ pg_activities (range_effect p) = pg_activities p.
Proof. unfold range_effect. by destruct (_ && _). Qed.

Lemma run_effects_core load hover zoom range wheel r :
  core (run_effects lib load hover zoom range wheel r)
  = core (when load (start_load lib) (when (negb (container_shown lib r)) (set_wheel false) r)).
Proof.
  unfold run_effects. rewrite (when_core wheel) by done. rewrite (when_core range).
  2: { intros r0. unfold core, on_page. cbn [pn_hooks pn_page pn_sent pn_live].
       by destruct (range_effect_data (pn_page r0)) as [-> ->]. }
  by rewrite (when_core zoom), (when_core hover) by done.
Qed.

(** The request that is not cancelled is for the pool of the route. *)
Definition live_current r : Prop :=
  forall id, pn_live r = Some id ->
  exists a, pn_sent r !! id = Some a /\ supportedChain lib (pn_hooks r) = true
    /\ pairAddress (pn_hooks r) = Some a /\ pb_isAddress lib a = true.

(** The pool and its activities are those of a reply to that request, or nothing. *)
Definition shows_current (seen : list page_event) r : Prop :=
  (pg_poolDetail (pn_page r) = None /\ pg_activities (pn_page r) = [])
  \/ exists id detail, pn_live r = Some id /\ Replied id (Ok detail) ∈ seen
       /\ pg_poolDetail (pn_page r) = pr_pool detail /\ pg_activities (pn_page r) = pr_activities detail.

Definition current (seen : list page_event) r : Prop := live_current r /\ shows_current seen r.

Lemma current_core seen r r' : core r = core r' -> current seen r -> current seen r'.
Proof.
  unfold core. intros [= E1 E2 E3 E4 E5]. unfold current, live_current, shows_current.
  by rewrite E1, E2, E3, E4, E5.
Qed.

Lemma start_load_current seen r : current seen (start_load lib r).
Proof.
  unfold start_load, load_effect. destruct (supportedChain lib (pn_hooks r)) eqn:Es; cbn [negb].
  2: { split; [by intros ?|left; done]. }
  destruct (pairAddress (pn_hooks r)) as [a|] eqn:Ea; [|split; [by intros ?|left; done]].
  destruct (str_nonempty a && pb_isAddress lib a) eqn:Ev; [|split; [by intros ?|left; done]].
  apply andb_true_iff in Ev as [_ Ev]. split; [|left; done]. intros id [= <-]. cbn. exists a.
  rewrite lookup_app_r, Nat.sub_diag by lia. done.
Qed.

Lemma changed_effects_current seen old r :
  (load_deps lib old = load_deps lib r -> current seen r) -> current seen (changed_effects lib old r).
Proof.
  intros H. unfold changed_effects. case_bool_decide as E; cbn [negb];
    (eapply current_core; [symmetry; apply run_effects_core|]); cbn [when].
  - eapply current_core; [symmetry; by apply when_core|]. by apply H.
  - apply start_load_current.
Qed.

Lemma hooks_kept old r : pn_hooks (changed_effects lib old r) = pn_hooks r.
Proof.
  unfold changed_effects. set (load := negb _).
  match goal with |- pn_hooks (run_effects lib load ?a ?b ?c ?d r) = _ =>
    pose proof (run_effects_core load a b c d r) as Hc end.
  apply (f_equal (fun t => t.1.1.1.1)) in Hc. unfold core in Hc. cbn [fst] in Hc. rewrite Hc.
  clearbody load. unfold when. destruct (negb (container_shown lib r)), load; unfold start_load, set_wheel; cbn;
    try destruct (load_effect _ _); done.
Qed.

Lemma commit_current seen old r :
  (load_deps lib old = load_deps lib r -> current seen r) -> current seen (commit lib old r).
Proof.
  intros H. unfold commit. apply changed_effects_current. intros _. by apply changed_effects_current.
Qed.

Lemma current_weaken seen e r : current seen r -> current (seen ++ [e])%list r.
Proof.
  intros [H1 [H2|(id & d & H2 & H3 & H4)]]; (split; [done|]); [by left|].
  right. exists id, d. split; [done|]. split; [set_solver|done].
Qed.

Lemma user_event_data w e h p :
  pg_poolDetail (user_event lib w e h p) = pg_poolDetail p /\ pg_activities (user_event lib w e h p) = pg_activities p.
Proof.
  destruct e; cbn [user_event]; try done; repeat (case_match; try done).
  all: unfold handleDepthMouseMove, chart_mouseover; repeat (case_match; try done).
Qed.

Lemma page_step_current seen r e : current seen r -> current (seen ++ [e])%list (page_step lib r e).
Proof.
  intros Hr. assert (forall e', current (seen ++ [e])%list
    (match shown_view lib (pn_hooks r) (pn_page r) with
     | DetailShown _ => commit lib r (on_page (user_event lib (pn_wheel r) e' (pn_hooks r)) r)
     | _ => r
     end)) as Huser.
  { intros e'. destruct (shown_view _ _ _); try (by apply current_weaken). apply commit_current. intros _.
    eapply current_core; [|by apply current_weaken]. unfold core, on_page. cbn [pn_hooks pn_page pn_sent pn_live].
    by destruct (user_event_data (pn_wheel r) e' (pn_hooks r) (pn_page r)) as [-> ->]. }
  destruct e as [h|id reply| | | | | | | | | | |]; cbn [page_step]; try apply Huser.
  - apply commit_current. unfold load_deps. cbn [pn_hooks]. intros [= _ Ep Es].
    destruct (current_weaken seen (HooksChanged h) r Hr) as [Hl Hs]. split; [|exact Hs].
    intros id Hid. destruct (Hl id Hid) as (a & ? & ? & ? & ?). exists a. cbn [pn_hooks pn_sent] in *. by rewrite <- Ep, <- Es.
  - case_bool_decide as El; [|by apply current_weaken]. apply commit_current. intros _.
    destruct Hr as [Hl Hs]. split; [exact Hl|]. destruct reply as [detail|err]; cbn.
    + right. exists id, detail. split; [done|]. split; [set_solver|done].
    + by left.
Qed.

Lemma run_page_app r l e : run_page lib r (l ++ [e])%list = page_step lib (run_page lib r l) e.
Proof. unfold run_page. by rewrite foldl_app. Qed.

Lemma mounted_current h : current [] (mounted lib h).
Proof.
  unfold mounted. apply changed_effects_current. intros _.
  eapply current_core; [symmetry; apply run_effects_core|]. apply start_load_current.
Qed.

Lemma run_page_current h l : current l (run_page lib (mounted lib h) l).
Proof.
  induction l as [|e l IH] using rev_ind; [apply mounted_current|].
  rewrite run_page_app. by apply page_step_current.
Qed.

(** ** The chart's state *)

(** An hour is a range of the volume only; a bar is hovered on the volume, a price on the
    depth. *)
Definition hour_on_volume p : Prop := pg_analyticsRange p = range_1h -> pg_analyticsTab p = tab_volume.
Definition chart_ok p : Prop :=
  hour_on_volume p
  /\ (pg_hoveredVolumePoint p <> None -> pg_analyticsTab p = tab_volume)
  /\ (pg_hoveredDepthImpact p <> None -> pg_analyticsTab p = tab_depth).

Definition chart_key p : AnalyticsRange * AnalyticsTab * bool :=
  (pg_analyticsRange p, pg_analyticsTab p, pg_isPairReversed p).

(** The chart's state after the effects. *)
Lemma run_effects_chart load hover zoom range wheel r :
  let p := pn_page r in let p' := pn_page (run_effects lib load hover zoom range wheel r) in
  let q := if range then range_effect p else p in
  pg_analyticsTab p' = pg_analyticsTab q /\ pg_analyticsRange p' = pg_analyticsRange q
  /\ pg_isPairReversed p' = pg_isPairReversed p
  /\ pg_hoveredVolumePoint p' = (if hover then None else pg_hoveredVolumePoint p)
  /\ pg_hoveredDepthImpact p' = (if hover then None else pg_hoveredDepthImpact p).
Proof.
  cbv zeta. unfold run_effects, when.
  assert (forall r, let s := pn_page (start_load lib r) in
            pg_analyticsTab s = pg_analyticsTab (pn_page r) /\ pg_analyticsRange s = pg_analyticsRange (pn_page r)
            /\ pg_isPairReversed s = pg_isPairReversed (pn_page r)
            /\ pg_hoveredVolumePoint s = pg_hoveredVolumePoint (pn_page r)
            /\ pg_hoveredDepthImpact s = pg_hoveredDepthImpact (pn_page r)) as Hload.
  { intros r0. unfold start_load, load_effect. repeat case_match; by simplify_eq. }
  assert (forall (b : bool) (r : pool_run), pn_page (if b then set_wheel false r else r) = pn_page r) as Hw by (by intros [] r0).
  destruct (Hload (if negb (container_shown lib r) then set_wheel false r else r)) as (L1 & L2 & L3 & L4 & L5).
  rewrite Hw in *.
  destruct wheel, range, zoom, hover, load; cbn; unfold range_effect; cbn [set_zoom set_hovered pg_analyticsTab
    pg_analyticsRange]; rewrite ?Hw, ?L1, ?L2; repeat case_match; cbn; rewrite ?Hw, ?L1, ?L2, ?L3, ?L4, ?L5; done.
Qed.

Lemma range_effect_hour p : hour_on_volume (range_effect p).
Proof.
  unfold hour_on_volume, range_effect. repeat case_bool_decide; cbn; done.
Qed.

Lemma changed_effects_chart old r :
  (chart_key (pn_page old) = chart_key (pn_page r) -> chart_ok (pn_page r)) ->
  (range_deps old = range_deps r -> hour_on_volume (pn_page r)) ->
  chart_ok (pn_page (changed_effects lib old r)).
Proof.
  intros Hkey Hrange. unfold changed_effects.
  destruct (run_effects_chart (negb (bool_decide (load_deps lib old = load_deps lib r)))
    (negb (bool_decide (hover_deps old = hover_deps r))) (negb (bool_decide (zoom_deps old = zoom_deps r)))
    (negb (bool_decide (range_deps old = range_deps r)))
    (negb (bool_decide (pg_analyticsTab (pn_page old) = pg_analyticsTab (pn_page r)))) r) as (T & R & _ & V & D).
  unfold chart_ok, hour_on_volume. rewrite T, R, V, D. clear T R V D.
  destruct (decide (range_deps old = range_deps r)) as [Er|Er].
  - rewrite (bool_decide_true (range_deps old = _)) by done. cbn [negb]. split; [by apply Hrange|].
    destruct (decide (hover_deps old = hover_deps r)) as [Eh|Eh].
    + rewrite bool_decide_true by done. cbn [negb]. by apply Hkey.
    + rewrite bool_decide_false by done. done.
  - rewrite (bool_decide_false (range_deps old = _)), (bool_decide_false (hover_deps old = _)) by
      (unfold range_deps, hover_deps in *; congruence). cbn [negb].
    split; [apply range_effect_hour|done].
Qed.

Lemma changed_effects_again old r :
  chart_ok (pn_page r) -> chart_ok (pn_page (changed_effects lib old r)).
Proof. intros H. apply changed_effects_chart; intros _; [done|apply H]. Qed.

Lemma user_event_chart w e h p :
  chart_ok p ->
  let p' := user_event lib w e h p in
  (chart_key p = chart_key p' -> chart_ok p')
  /\ (pg_analyticsRange p = pg_analyticsRange p' -> pg_analyticsTab p = pg_analyticsTab p' -> hour_on_volume p').
Proof.
  intros Hp. pose proof Hp as (Hh & Hv & Hd). cbv zeta.
  assert (forall p', chart_ok p' -> (chart_key p = chart_key p' -> chart_ok p')
            /\ (pg_analyticsRange p = pg_analyticsRange p' -> pg_analyticsTab p = pg_analyticsTab p' -> hour_on_volume p')) as Hok.
  { intros p' Hp'. split; intros; [done|apply Hp']. }
  assert (forall b (f : pool_page -> pool_page), chart_ok (f p) -> chart_ok (if b : bool then f p else p)) as Hif.
  { intros [] f Hf; [done|exact (conj Hh (conj Hv Hd))]. }
  assert (forall z, chart_ok (set_zoom z p)) as Hz by (intros z; exact (conj Hh (conj Hv Hd))).
  destruct e as [h'|id reply|tab|range| | | | |deltaY|x y z| |i|]; cbn [user_event].
  - by apply Hok.
  - by apply Hok.
  - unfold tab_clicked, chart_key, chart_ok, hour_on_volume. cbn.
    split; [intros [= E1 E2]|intros E1 E2]; rewrite <- E1, <- E2; done.
  - case_match; [|by apply Hok]. unfold chart_key, chart_ok, hour_on_volume. cbn.
    split; [intros [= E1]|intros E1 _]; by rewrite <- E1.
  - apply Hok. exact (conj Hh (conj Hv Hd)).
  - apply Hok. apply (Hif _ zoomOutDepth), Hz.
  - apply Hok. apply (Hif _ resetDepthZoom), Hz.
  - apply Hok. apply (Hif _ zoomInDepth), Hz.
  - apply Hok. apply (Hif _ (handleWheel deltaY)), Hz.
  - apply Hok. unfold handleDepthMouseMove. destruct (pg_analyticsTab p) eqn:Et; try exact Hp.
    repeat (case_match; try exact Hp). unfold chart_ok, hour_on_volume in *. cbn. rewrite Et in *. done.
  - apply Hok. split; [exact Hh|]. split; [exact Hv|done].
  - apply Hok. unfold chart_mouseover. destruct (pg_analyticsTab p) eqn:Et; try exact Hp.
    repeat (case_match; try exact Hp). unfold chart_ok, hour_on_volume in *. cbn. rewrite Et in *. done.
  - apply Hok. destruct (bool_decide _); [done|]. split; [exact Hh|]. split; [done|exact Hd].
Qed.

(** ** The zoom *)

(** Zooming in and out stays between one and four. *)
Lemma zoom_in_range x mc ec :
  in_1_4 x = true -> top mc ec = 1 ->
  in_1_4 (math_min MAX_DEPTH_ZOOM (num_mul x (S754_finite false mc ec))) = true.
Proof.
  intros Hx Hc. destruct (mul_stays_above x mc ec Hx Hc) as (m & e & -> & H1). unfold math_min.
  assert (is_nan (S754_finite false m e) = false) as Hn.
  { unfold is_nan, num_eqb, num_cmp. cbn [num_parts]. unfold cmp_parts. by rewrite Z.compare_refl. }
  rewrite Hn. change (is_nan MAX_DEPTH_ZOOM) with false. cbn [orb].
  destruct (num_ltb MAX_DEPTH_ZOOM (S754_finite false m e)) eqn:E; [by vm_compute|].
  unfold in_1_4. rewrite H1, num_leb_negb by done. unfold MAX_DEPTH_ZOOM in E. by rewrite E.
Qed.

Lemma zoom_out_range x mc ec :
  in_1_4 x = true -> top mc ec = 1 -> ec <= 0 -> 2 ^ (- ec) < Zpos mc ->
  in_1_4 (math_max MIN_DEPTH_ZOOM (num_div x (S754_finite false mc ec))) = true.
Proof.
  intros Hx Hc He Hm. destruct (div_stays_below x mc ec Hx Hc He Hm) as (m & e & -> & H4). unfold math_max.
  assert (is_nan (S754_finite false m e) = false) as Hn.
  { unfold is_nan, num_eqb, num_cmp. cbn [num_parts]. unfold cmp_parts. by rewrite Z.compare_refl. }
  rewrite Hn. change (is_nan MIN_DEPTH_ZOOM) with false. cbn [orb].
  destruct (num_ltb (S754_finite false m e) MIN_DEPTH_ZOOM) eqn:E; [by vm_compute|].
  unfold in_1_4. rewrite H4, num_leb_negb by done. unfold MIN_DEPTH_ZOOM in E. by rewrite E.
Qed.

Lemma user_event_zoom w e h p :
  in_1_4 (pg_depthZoom p) = true -> in_1_4 (pg_depthZoom (user_event lib w e h p)) = true.
Proof.
  intros Hz.
  assert (ZOOM_STEP = S754_finite false 5629499534213120 (-52)) as Es by (by vm_compute).
  assert (WHEEL_STEP = S754_finite false 5044031582654956 (-52)) as Ew by (by vm_compute).
  destruct e as [h'|id reply|tab|range| | | | |deltaY|x y z| |i|]; cbn [user_event]; try exact Hz.
  - by case_match.
  - case_match; [|done]. cbn. rewrite Es. by apply zoom_out_range; [|vm_compute..].
  - by case_match.
  - case_match; [|done]. cbn. rewrite Es. by apply zoom_in_range; [|vm_compute].
  - case_match; [|done]. cbn. rewrite Ew. destruct (num_ltb _ _).
    + by apply zoom_in_range; [|vm_compute].
    + by apply zoom_out_range; [|vm_compute..].
  - unfold handleDepthMouseMove. by repeat (case_match; try done).
  - unfold chart_mouseover. by repeat (case_match; try done).
  - by case_match.
Qed.

Lemma run_effects_zoom load hover zoom range wheel r :
  pg_depthZoom (pn_page (run_effects lib load hover zoom range wheel r))
  = if zoom then num_of_Z 1 else pg_depthZoom (pn_page r).
Proof.
  assert (forall r, pg_depthZoom (pn_page (start_load lib r)) = pg_depthZoom (pn_page r)) as Hload.
  { intros r0. unfold start_load, load_effect. repeat case_match; by simplify_eq. }
  assert (forall (b : bool) (r : pool_run), pn_page (when b (set_wheel false) r) = pn_page r) as Hw by (by intros []).
  unfold run_effects. destruct wheel, range, zoom, hover, load; cbn [when set_wheel on_page pn_page set_hovered
    set_zoom pg_depthZoom]; unfold range_effect; repeat case_match; cbn [set_chart set_zoom set_hovered pg_depthZoom];
    by rewrite ?Hload, ?Hw.
Qed.

Lemma changed_effects_zoom old r :
  in_1_4 (pg_depthZoom (pn_page r)) = true ->
  in_1_4 (pg_depthZoom (pn_page (changed_effects lib old r))) = true.
Proof. intros H. unfold changed_effects. rewrite run_effects_zoom. by destruct (negb _). Qed.

(** The chart's state and the zoom. *)
Definition page_ok r : Prop := chart_ok (pn_page r) /\ in_1_4 (pg_depthZoom (pn_page r)) = true.

Lemma commit_page_ok old r :
  (chart_key (pn_page old) = chart_key (pn_page r) -> chart_ok (pn_page r)) ->
  (range_deps old = range_deps r -> hour_on_volume (pn_page r)) ->
  in_1_4 (pg_depthZoom (pn_page r)) = true -> page_ok (commit lib old r).
Proof.
  intros Hk Hr Hz. unfold commit, page_ok. split.
  - by apply changed_effects_again, changed_effects_chart.
  - by apply changed_effects_zoom, changed_effects_zoom.
Qed.

Lemma mounted_ok h : page_ok (mounted lib h).
Proof.
  unfold mounted, page_ok. split.
  - apply changed_effects_again. unfold chart_ok, hour_on_volume.
    match goal with |- context [run_effects lib ?a ?b ?c ?d ?e ?r] =>
      destruct (run_effects_chart a b c d e r) as (T & R & _ & V & D) end.
    rewrite T, R, V, D. split; [apply range_effect_hour|done].
  - apply changed_effects_zoom. by rewrite run_effects_zoom.
Qed.

Lemma settle_load_ok reply p :
  chart_ok p -> in_1_4 (pg_depthZoom p) = true ->
  chart_ok (settle_load reply p) /\ in_1_4 (pg_depthZoom (settle_load reply p)) = true.
Proof. by destruct reply. Qed.

Lemma page_step_ok r e : page_ok r -> page_ok (page_step lib r e).
Proof.
  intros [Hc Hz]. assert (forall e', page_ok
    (match shown_view lib (pn_hooks r) (pn_page r) with
     | DetailShown _ => commit lib r (on_page (user_event lib (pn_wheel r) e' (pn_hooks r)) r)
     | _ => r
     end)) as Huser.
  { intros e'. destruct (shown_view _ _ _); try done.
    destruct (user_event_chart (pn_wheel r) e' (pn_hooks r) (pn_page r) Hc) as [Hk Hr].
    apply commit_page_ok; [exact Hk|intros [= E1 E2]; by apply Hr|by apply user_event_zoom]. }
  destruct e as [h|id reply| | | | | | | | | | |]; cbn [page_step]; try apply Huser.
  - apply commit_page_ok; [by intros _|by intros _; apply Hc|done].
  - case_bool_decide; [|done]. destruct (settle_load_ok reply (pn_page r) Hc Hz) as [Hc' Hz'].
    apply commit_page_ok; [by intros _|by intros _; apply Hc'|done].
Qed.

Lemma run_page_ok h l : page_ok (run_page lib (mounted lib h) l).
Proof.
  induction l as [|e l IH] using rev_ind; [apply mounted_ok|]. rewrite run_page_app. by apply page_step_ok.
Qed.

(** C22.  What the page of a pool shows, whatever happened to it.  After any sequence of
    changes of the route, the chain and the language, of replies in any order and of clicks,
    wheel turns and pointer moves, the request that was not cancelled is for the pool of the
    route on a supported chain; the pool and the activities on the page are those of a reply
    to that request, or none; an hour is the chart's range on the volume only, a bar is
    hovered on the volume and a price on the depth only; and the zoom of the depth chart is
    a number between one and four, though its steps are rounded. *)
Theorem pool_page_invariant (h : pool_hooks) (l : list page_event) :
  let r := run_page lib (mounted lib h) l in
  current l r /\ chart_ok (pn_page r) /\ in_1_4 (pg_depthZoom (pn_page r)) = true.
Proof. cbv zeta. split; [apply run_page_current|apply run_page_ok]. Qed.
End runs.
