(* ===== verification/TokenAdmin.v ===== *)
(** * The token page of the administration (admin-frontend/src/components/tokens)

    Reading every configured token from the chain, the page's state, its filters and orders,
    the counts of its cards, the suggestions, and what a row of the table shows and links to. *)

From S2P Require Import Prelude JsString JsNumber JsValue JsUri JsError JsSort Amounts PageMonad.
From Stdlib Require Import Sorting.Sorted.
From S2P Require TreasuryForms Farms FarmAdmin.
Import TreasuryForms(AdminTokenOption, Build_AdminTokenOption, tk_symbol, tk_name, tk_decimals, tk_address).
Import Farms(fulfilled, fulfilled_Ok, or_default).
Import FarmAdmin(shortAddress, sameAddress, present).
Open Scope string_scope.
Open Scope Z_scope.

(** ** TokensTypes.ts *)

Record TokenUsage := {
  us_inWalletConfig : bool; us_inFarmSinglePoolConfig : bool; us_isRewardToken : bool; us_hasSwapPair : bool;
}.

Record TokenMismatch := { mm_symbol : bool; mm_name : bool; mm_decimals : bool }.

Record TokenRow := {
  tw_address : string;
  tw_configuredSymbol : string;
  tw_configuredName : string;
  tw_configuredDecimals : Z;
  tw_chainSymbol : string;
  tw_chainName : string;
  tw_chainDecimals : Z;
  tw_totalSupply : Z;
  tw_treasuryAllowed : option bool;
  tw_treasuryBalance : option Z;
  tw_usage : TokenUsage;
  tw_mismatch : TokenMismatch;
  tw_readFailed : bool;
}.

Inductive TokenFilterMode :=
| mode_all | mode_mismatch | mode_treasury_allowed | mode_treasury_blocked | mode_in_market | mode_single_pool
| mode_reward_token | mode_action_required.
Inductive TokenSortField := by_symbol | by_supply | by_treasuryBalance.
Inductive TokenSortDirection := asc | desc.

(** ** Reading the tokens (useTokensPageController.ts) *)

(** What the page is given (useTokensPageEnvironment.ts). *)
Record tokens_environment := {
  te_publicClient : bool;
  te_supportedChain : bool;
  te_treasuryAddress : option string;
  te_swapFactoryAddress : option string;
  te_poolFactoryAddress : option string;
  te_rewardTokenAddress : option string;
  te_configuredTokens : list AdminTokenOption;
}.

(** [contract] is [getContractAddress] on the chain. *)
Definition useTokensPageEnvironment (publicClient supportedChain : bool) (contract : string -> option string)
    (getAdminTokenOptions : (string -> option string) -> list AdminTokenOption) : tokens_environment :=
  {| te_publicClient := publicClient; te_supportedChain := supportedChain;
     te_treasuryAddress := contract "FluxSwapTreasury"; te_swapFactoryAddress := contract "FluxSwapFactory";
     te_poolFactoryAddress := contract "FluxPoolFactory"; te_rewardTokenAddress := contract "FluxToken";
     te_configuredTokens := getAdminTokenOptions contract |}.

(** What the node answers while the row with a number is read. *)
Record token_node := {
  kn_text : nat -> string -> string -> list abi_arg -> res js_error string;
  kn_uint : nat -> string -> string -> list abi_arg -> res js_error Z;
  kn_flag : nat -> string -> string -> list abi_arg -> res js_error bool;
  kn_address : nat -> string -> string -> list abi_arg -> res js_error string;
}.

Definition READ_FAILED_LABEL : string := "读取失败".
Definition zeroAddress : string := "0x0000000000000000000000000000000000000000".

Section read.
Variable nd : token_node.
Variable env : tokens_environment.

Definition readHasSwapPair (i : nat) (tokenAddress : string) (candidateAddresses : list string) : bool :=
  match te_swapFactoryAddress env with
  | Some factory =>
    if negb (str_nonempty factory) || bool_decide (candidateAddresses = []) then false
    else existsb (fun candidate =>
           negb (String.eqb (or_default zeroAddress
                   (kn_address nd i factory "getPair" [ArgAddress tokenAddress; ArgAddress candidate])) zeroAddress))
         candidateAddresses
  | None => false
  end.

Definition is_reward_token (token : AdminTokenOption) : bool :=
  sameAddress (Some (tk_address token)) (te_rewardTokenAddress env).

Definition buildFailedTokenRow (token : AdminTokenOption) : TokenRow :=
  {| tw_address := tk_address token; tw_configuredSymbol := tk_symbol token; tw_configuredName := tk_name token;
     tw_configuredDecimals := tk_decimals token; tw_chainSymbol := READ_FAILED_LABEL; tw_chainName := READ_FAILED_LABEL;
     tw_chainDecimals := tk_decimals token; tw_totalSupply := 0; tw_treasuryAllowed := None; tw_treasuryBalance := None;
     tw_usage := {| us_inWalletConfig := true; us_inFarmSinglePoolConfig := false;
                    us_isRewardToken := is_reward_token token; us_hasSwapPair := false |};
     tw_mismatch := {| mm_symbol := true; mm_name := true; mm_decimals := true |}; tw_readFailed := true |}.

(** A read that is only made when the contract is configured. *)
Definition read_at {A} (contract : option string) (otherwise : A) (read : string -> res js_error A) : option A :=
  match contract with
  | Some a => if str_nonempty a then fulfilled (read a) else Some otherwise
  | None => Some otherwise
  end.

Definition candidates (token : AdminTokenOption) : list string :=
  tk_address <$> keep (fun candidate => negb (sameAddress (Some (tk_address candidate)) (Some (tk_address token))))
                   (te_configuredTokens env).

(** [Promise.all] of the reads of a row: nothing when one of them is rejected. *)
Definition read_token (i : nat) (token : AdminTokenOption) : option TokenRow :=
  let a := tk_address token in
  chainSymbol ← fulfilled (kn_text nd i a "symbol" []);
  chainName ← fulfilled (kn_text nd i a "name" []);
  chainDecimals ← fulfilled (kn_uint nd i a "decimals" []);
  totalSupply ← fulfilled (kn_uint nd i a "totalSupply" []);
  treasuryAllowed ← read_at (te_treasuryAddress env) None
    (fun treasury => res_map Some (kn_flag nd i treasury "allowedTokens" [ArgAddress a]));
  treasuryBalance ← read_at (te_treasuryAddress env) None
    (fun treasury => res_map Some (kn_uint nd i a "balanceOf" [ArgAddress treasury]));
  singlePoolAddress ← read_at (te_poolFactoryAddress env) zeroAddress
    (fun factory => kn_address nd i factory "singleTokenPools" [ArgAddress a]);
  Some
    {| tw_address := a; tw_configuredSymbol := tk_symbol token; tw_configuredName := tk_name token;
       tw_configuredDecimals := tk_decimals token; tw_chainSymbol := chainSymbol; tw_chainName := chainName;
       tw_chainDecimals := chainDecimals; tw_totalSupply := totalSupply; tw_treasuryAllowed := treasuryAllowed;
       tw_treasuryBalance := treasuryBalance;
       tw_usage := {| us_inWalletConfig := true;
                      us_inFarmSinglePoolConfig := negb (String.eqb singlePoolAddress zeroAddress);
                      us_isRewardToken := is_reward_token token;
                      us_hasSwapPair := readHasSwapPair i a (candidates token) |};
       tw_mismatch := {| mm_symbol := negb (String.eqb (tk_symbol token) chainSymbol);
                         mm_name := negb (String.eqb (tk_name token) chainName);
                         mm_decimals := negb (tk_decimals token =? chainDecimals) |};
       tw_readFailed := false |}.

Definition token_row (i : nat) (token : AdminTokenOption) : TokenRow :=
  default (buildFailedTokenRow token) (read_token i token).
End read.

(** ** The page's state (useTokensPageState.ts) *)

Record tokens_page := {
  tp_tokenRows : list TokenRow;
  tp_loading : bool;
  tp_error : option string;
  tp_query : string;
  tp_filterMode : TokenFilterMode;
  tp_sortField : TokenSortField;
  tp_sortDirection : TokenSortDirection;
}.

Definition initial_tokens_page : tokens_page :=
  {| tp_tokenRows := []; tp_loading := false; tp_error := None; tp_query := ""; tp_filterMode := mode_all;
     tp_sortField := by_symbol; tp_sortDirection := asc |}.

Definition with_load (rows : list TokenRow) (loading : bool) (error : option string) (p : tokens_page) : tokens_page :=
  {| tp_tokenRows := rows; tp_loading := loading; tp_error := error; tp_query := tp_query p;
     tp_filterMode := tp_filterMode p; tp_sortField := tp_sortField p; tp_sortDirection := tp_sortDirection p |}.
Definition with_filter (query : string) (mode : TokenFilterMode) (field : TokenSortField) (direction : TokenSortDirection)
    (p : tokens_page) : tokens_page :=
  {| tp_tokenRows := tp_tokenRows p; tp_loading := tp_loading p; tp_error := tp_error p; tp_query := query;
     tp_filterMode := mode; tp_sortField := field; tp_sortDirection := direction |}.

(** Why a load does not start. *)
Definition cannot_load (env : tokens_environment) : option string :=
  if negb (te_supportedChain env) then Some "当前网络还未接入 FluxSwap 管理端。"
  else if negb (te_publicClient env) then Some "RPC 连接尚未就绪，请稍后刷新重试。"
  else None.

Definition load_starts (env : tokens_environment) (p : tokens_page) : tokens_page :=
  match cannot_load env with
  | Some e => with_load [] false (Some e) p
  | None => with_load (tp_tokenRows p) true None p
  end.

(** The reads of a row are caught one by one, so the load as a whole is not rejected. *)
Definition load_settles (nd : token_node) (env : tokens_environment) (p : tokens_page) : tokens_page :=
  with_load (imap (token_row nd env) (te_configuredTokens env)) false (tp_error p) p.

(** A load from its start to its end. *)
Definition loadTokens (nd : token_node) (env : tokens_environment) (p : tokens_page) : tokens_page :=
  match cannot_load env with
  | Some _ => load_starts env p
  | None => load_settles nd env (load_starts env p)
  end.

(** The inputs of the filter bar (TokensFilterBar.tsx, TokensPageBody.tsx). *)
Definition type_query (query : string) (p : tokens_page) : tokens_page :=
  with_filter query (tp_filterMode p) (tp_sortField p) (tp_sortDirection p) p.
Definition pick_mode (mode : TokenFilterMode) (p : tokens_page) : tokens_page :=
  with_filter (tp_query p) mode (tp_sortField p) (tp_sortDirection p) p.
Definition pick_field (field : TokenSortField) (p : tokens_page) : tokens_page :=
  with_filter (tp_query p) (tp_filterMode p) field (tp_sortDirection p) p.
Definition toggle_direction (p : tokens_page) : tokens_page :=
  with_filter (tp_query p) (tp_filterMode p) (tp_sortField p) (match tp_sortDirection p with asc => desc | desc => asc end) p.

(** ** Counts *)

Definition any_mismatch (m : TokenMismatch) : bool := mm_symbol m || mm_name m || mm_decimals m.
Definition needs_check (token : TokenRow) : bool := tw_readFailed token || any_mismatch (tw_mismatch token).
(** [token.treasuryAllowed === b] *)
Definition allowed_is (b : bool) (token : TokenRow) : bool :=
  match tw_treasuryAllowed token with Some a => Bool.eqb a b | None => false end.
Definition in_use (token : TokenRow) : bool :=
  us_hasSwapPair (tw_usage token) || us_inFarmSinglePoolConfig (tw_usage token) || us_isRewardToken (tw_usage token).

Definition matchedTokenCount (rows : list TokenRow) : nat := length (keep (fun token => negb (needs_check token)) rows).
Definition allowedTokenCount (rows : list TokenRow) : nat := length (keep (allowed_is true) rows).
Definition swapPairCount (rows : list TokenRow) : nat := length (keep (fun token => us_hasSwapPair (tw_usage token)) rows).
Definition singlePoolCount (rows : list TokenRow) : nat :=
  length (keep (fun token => us_inFarmSinglePoolConfig (tw_usage token)) rows).
Definition rewardTokenCount (rows : list TokenRow) : nat := length (keep (fun token => us_isRewardToken (tw_usage token)) rows).
Definition pendingTreasuryRows (rows : list TokenRow) : list TokenRow :=
  keep (fun token => allowed_is false token && in_use token) rows.
Definition mismatchRows (rows : list TokenRow) : list TokenRow := keep needs_check rows.
Definition mismatchTokenCount (rows : list TokenRow) : nat := length (keep needs_check rows).
Definition activeUsageTokenCount (rows : list TokenRow) : nat := length (keep in_use rows).

(** ** The rows shown (useTokensPageDerivedState.ts) *)

Definition toComparableUnits (value decimals : Z) : Z :=
  if decimals =? 18 then value
  else if decimals <? 18 then value * 10 ^ (18 - decimals)
  else Z.quot value (10 ^ (decimals - 18)).

Definition passes_mode (mode : TokenFilterMode) (token : TokenRow) : bool :=
  match mode with
  | mode_all => true
  | mode_mismatch => needs_check token
  | mode_in_market => us_hasSwapPair (tw_usage token)
  | mode_single_pool => us_inFarmSinglePoolConfig (tw_usage token)
  | mode_reward_token => us_isRewardToken (tw_usage token)
  | mode_action_required => needs_check token || allowed_is false token
  | mode_treasury_allowed => allowed_is true token
  | mode_treasury_blocked => allowed_is false token
  end.

Definition passes_query (query : string) (token : TokenRow) : bool :=
  let normalizedQuery := to_lower (trim query) in
  negb (str_nonempty normalizedQuery)
  || existsb (fun text => includes (to_lower text) normalizedQuery)
       [tw_configuredSymbol token; tw_chainSymbol token; tw_configuredName token; tw_chainName token; tw_address token].

Section shown.
(** [left.localeCompare(right)] *)
Variable localeCompare : string -> string -> Z.

(** [left === right ? 0 : left > right ? 1 : -1] *)
Definition compare_units (left right : Z) : Z := if left =? right then 0 else if right <? left then 1 else -1.

Definition compare_rows (field : TokenSortField) (left right : TokenRow) : Z :=
  match field with
  | by_symbol => localeCompare (tw_configuredSymbol left) (tw_configuredSymbol right)
  | by_supply =>
    compare_units (toComparableUnits (tw_totalSupply left) (tw_chainDecimals left))
      (toComparableUnits (tw_totalSupply right) (tw_chainDecimals right))
  | by_treasuryBalance =>
    compare_units (toComparableUnits (default 0 (tw_treasuryBalance left)) (tw_chainDecimals left))
      (toComparableUnits (default 0 (tw_treasuryBalance right)) (tw_chainDecimals right))
  end.

Definition row_le (field : TokenSortField) (direction : TokenSortDirection) (left right : TokenRow) : bool :=
  let result := compare_rows field left right in
  match direction with asc => result <=? 0 | desc => - result <=? 0 end.

Definition filteredRows (p : tokens_page) : list TokenRow :=
  sort_by (row_le (tp_sortField p) (tp_sortDirection p))
    (keep (fun token => passes_mode (tp_filterMode p) token && passes_query (tp_query p) token) (tp_tokenRows p)).
End shown.

(** ** What a row shows (TokensTable.tsx, the badges) *)

(** The query of a link to the treasury's page. *)
Definition treasury_link (token allowed : string) : string :=
  "/treasury?" ++ params_to_string [("token", token); ("action", "setAllowedToken"); ("allowed", allowed)].

(** [token.treasuryAllowed] as a condition. *)
Definition is_allowed (token : TokenRow) : bool := default false (tw_treasuryAllowed token).

Definition treasuryHref (token : TokenRow) : string :=
  treasury_link (tw_address token) (if is_allowed token then "false" else "true").

Definition actionLabel (token : TokenRow) : string :=
  if is_allowed token then "移出白名单" else if in_use token then "放行到金库" else "加入白名单".

Definition actionHint (token : TokenRow) : string :=
  if tw_readFailed token then "先确认链上读数"
  else if allowed_is false token && in_use token then "协议已使用"
  else if any_mismatch (tw_mismatch token) then "配置待核对"
  else "可前往治理".

Definition chain_texts (token : TokenRow) : string * string * string :=
  if tw_readFailed token then ("--", "--", "--")
  else (tw_chainName token, tw_chainSymbol token, dec (tw_chainDecimals token)).

Section texts.
Variable formatUnits : Z -> Z -> string.

Definition supply_text (token : TokenRow) : string :=
  admin_formatBigIntAmountDown formatUnits (Some (tw_totalSupply token)) (tw_chainDecimals token) 2.

Definition balance_text (token : TokenRow) : string :=
  match tw_treasuryBalance token with
  | None => "--"
  | Some balance =>
    admin_formatBigIntAmountDown formatUnits (Some balance) (tw_chainDecimals token) 4 ++ " "
    ++ (if tw_readFailed token then tw_configuredSymbol token else tw_chainSymbol token)
  end.
End texts.

Definition allowed_text (token : TokenRow) : string := if is_allowed token then "已允许" else "未允许".

Definition usage_badges (usage : TokenUsage) : list string :=
  match (if us_hasSwapPair usage then ["交易"] else []) ++ (if us_inFarmSinglePoolConfig usage then ["单币池"] else [])
        ++ (if us_isRewardToken usage then ["奖励币"] else []) ++ (if us_inWalletConfig usage then ["资产展示"] else []) with
  | [] => ["未使用"]
  | badges => badges
  end%list.

Definition mismatch_items (mismatch : TokenMismatch) : list string :=
  ((if mm_symbol mismatch then ["符号"] else []) ++ (if mm_name mismatch then ["名称"] else [])
   ++ (if mm_decimals mismatch then ["精度"] else []))%list.

Definition mismatch_badges (mismatch : TokenMismatch) : list string :=
  match mismatch_items mismatch with [] => ["匹配"] | items => items end.

(** ** Summaries and suggestions (TokensOverviewPanels.tsx, TokensActionSuggestions.tsx) *)

Definition getUsageSummary (token : TokenRow) : string :=
  match ((if us_hasSwapPair (tw_usage token) then ["交易"] else [])
         ++ (if us_inFarmSinglePoolConfig (tw_usage token) then ["单币池"] else [])
         ++ (if us_isRewardToken (tw_usage token) then ["奖励币"] else []))%list with
  | [] => "仅资产展示"
  | parts => join_with " / " parts
  end.

Definition getMismatchSummary (token : TokenRow) : string :=
  if tw_readFailed token then "链上信息读取失败，请检查 RPC、合约部署或代币地址。"
  else match mismatch_items (tw_mismatch token) with
       | [] => "当前没有配置差异。"
       | parts => "当前配置与链上 " ++ join_with " / " parts ++ " 不一致。"
       end.

Inductive suggestion_tone := tone_danger | tone_warning | tone_success.

Record ActionItem := {
  ai_key : string; ai_title : string; ai_description : string; ai_href : option string; ai_cta : option string;
  ai_tone : suggestion_tone;
}.

Definition suggestion (key title description : string) (tone : suggestion_tone) : ActionItem :=
  {| ai_key := key; ai_title := title; ai_description := description; ai_href := None; ai_cta := None; ai_tone := tone |}.

Definition buildActionItems (mismatchRows pendingTreasuryRows : list TokenRow) : list ActionItem :=
  let mismatch := match mismatchRows with
                  | [] => []
                  | token :: _ =>
                    [suggestion "mismatch" ("修正 " ++ tw_configuredSymbol token ++ " 配置") (getMismatchSummary token)
                       (if tw_readFailed token then tone_danger else tone_warning)]
                  end in
  let treasury := match pendingTreasuryRows with
                  | [] => []
                  | token :: _ =>
                    [{| ai_key := "treasury"; ai_title := "放行 " ++ tw_configuredSymbol token ++ " 进入金库";
                        ai_description := tw_configuredSymbol token ++ " 已在协议中使用，建议补齐金库白名单。";
                        ai_href := Some (treasury_link (tw_address token) "true"); ai_cta := Some "去处理";
                        ai_tone := tone_warning |}]
                  end in
  match (mismatch ++ treasury)%list with
  | [] => [suggestion "healthy" "当前无需额外处理" "代币配置、协议使用和金库放行状态都比较整齐。" tone_success]
  | items => items
  end.

(** ** What a load shows *)

Lemma load_settled nd env p :
  cannot_load env = None ->
  loadTokens nd env p = with_load (imap (token_row nd env) (te_configuredTokens env)) false None p.
Proof. intros Hc. unfold loadTokens, load_settles, load_starts. by rewrite Hc. Qed.

Lemma read_token_fields nd env i token row :
  read_token nd env i token = Some row ->
  tw_readFailed row = false /\ tw_address row = tk_address token /\ tw_configuredSymbol row = tk_symbol token
  /\ kn_text nd i (tk_address token) "symbol" [] = Ok (tw_chainSymbol row)
  /\ kn_text nd i (tk_address token) "name" [] = Ok (tw_chainName row)
  /\ kn_uint nd i (tk_address token) "decimals" [] = Ok (tw_chainDecimals row)
  /\ kn_uint nd i (tk_address token) "totalSupply" [] = Ok (tw_totalSupply row)
  /\ (needs_check row = false <->
      tk_symbol token = tw_chainSymbol row /\ tk_name token = tw_chainName row /\ tk_decimals token = tw_chainDecimals row).
Proof.
  unfold read_token. intros H. repeat (apply bind_Some in H as (? & ?%fulfilled_Ok & H)).
  apply bind_Some in H as (? & _ & H). apply bind_Some in H as (? & _ & H). apply bind_Some in H as (? & _ & H).
  injection H as <-. cbn. split_and!; try done.
  unfold needs_check, any_mismatch. cbn. rewrite !orb_false_iff, !negb_false_iff, !String.eqb_eq, Z.eqb_eq. tauto.
Qed.

(** A load shows every configured token once, in the order of the configuration: with what the
    chain says of it, marked when that differs from the configuration, or as one that could not
    be read. *)
Lemma tokens_listed nd env p :
  cannot_load env = None ->
  let q := loadTokens nd env p in
  tp_loading q = false /\ tp_error q = None
  /\ forall i token, te_configuredTokens env !! i = Some token ->
     exists row, tp_tokenRows q !! i = Some row /\ tw_address row = tk_address token
       /\ tw_configuredSymbol row = tk_symbol token
       /\ if tw_readFailed row then needs_check row = true /\ tw_treasuryAllowed row = None
          else kn_text nd i (tk_address token) "symbol" [] = Ok (tw_chainSymbol row)
               /\ kn_uint nd i (tk_address token) "decimals" [] = Ok (tw_chainDecimals row)
               /\ kn_uint nd i (tk_address token) "totalSupply" [] = Ok (tw_totalSupply row).
Proof.
  intros Hc q. unfold q. rewrite load_settled by done. split; [done|]. split; [done|]. intros i token Hi.
  exists (token_row nd env i token). cbn [tp_tokenRows with_load]. rewrite list_lookup_imap, Hi. split; [done|].
  unfold token_row. destruct (read_token nd env i token) as [row|] eqn:E; [|done]. cbn.
  destruct (read_token_fields nd env i token row E) as (-> & Ha & Hs & H1 & _ & H2 & H3 & _). done.
Qed.

(** ** The order of the rows *)

(** The amount of a row that a field orders by. *)
Definition units_of (field : TokenSortField) (token : TokenRow) : Z :=
  match field with
  | by_symbol => 0
  | by_supply => tw_totalSupply token
  | by_treasuryBalance => default 0 (tw_treasuryBalance token)
  end.

(** One amount in whole tokens is at most another: [a / 10^m <= b / 10^n]. *)
Definition amount_le (field : TokenSortField) (left right : TokenRow) : Prop :=
  units_of field left * 10 ^ tw_chainDecimals right <= units_of field right * 10 ^ tw_chainDecimals left.

Definition usual_decimals (token : TokenRow) : Prop := 0 <= tw_chainDecimals token <= 18.

Lemma comparable_units value decimals :
  0 <= decimals <= 18 -> toComparableUnits value decimals = value * 10 ^ (18 - decimals).
Proof.
  intros Hd. unfold toComparableUnits. destruct (Z.eqb_spec decimals 18) as [->|].
  - change (18 - 18) with 0. lia.
  - by replace (decimals <? 18) with true by lia.
Qed.

Lemma amount_le_units field left right :
  usual_decimals left -> usual_decimals right ->
  (toComparableUnits (units_of field left) (tw_chainDecimals left)
     <= toComparableUnits (units_of field right) (tw_chainDecimals right) <-> amount_le field left right).
Proof.
  unfold usual_decimals, amount_le. intros Hl Hr. rewrite !comparable_units by done.
  set (m := tw_chainDecimals left) in *. set (n := tw_chainDecimals right) in *.
  assert (10 ^ 18 = 10 ^ (18 - m) * 10 ^ m) as Em by (rewrite <- Z.pow_add_r by lia; f_equal; lia).
  assert (10 ^ 18 = 10 ^ (18 - n) * 10 ^ n) as En by (rewrite <- Z.pow_add_r by lia; f_equal; lia).
  pose proof (Z.pow_pos_nonneg 10 m ltac:(lia) ltac:(lia)). pose proof (Z.pow_pos_nonneg 10 n ltac:(lia) ltac:(lia)).
  pose proof (Z.pow_pos_nonneg 10 (18 - m) ltac:(lia) ltac:(lia)). pose proof (Z.pow_pos_nonneg 10 (18 - n) ltac:(lia) ltac:(lia)).
  rewrite (Z.mul_le_mono_pos_r (_ * 10 ^ (18 - m)) _ (10 ^ m * 10 ^ n)) by lia.
  rewrite (Z.mul_le_mono_pos_r (_ * 10 ^ n) _ (10 ^ 18)) by lia.
  assert (forall a, a * 10 ^ (18 - m) * (10 ^ m * 10 ^ n) = a * 10 ^ n * 10 ^ 18) as -> by (intros a; rewrite Em; ring).
  assert (forall a, a * 10 ^ (18 - n) * (10 ^ m * 10 ^ n) = a * 10 ^ m * 10 ^ 18) as -> by (intros a; rewrite En; ring).
  done.
Qed.

Lemma compare_units_le a b : (compare_units a b <=? 0) = (a <=? b).
Proof. unfold compare_units. destruct (Z.eqb_spec a b), (Z.ltb_spec b a), (Z.leb_spec a b); lia. Qed.
Lemma compare_units_ge a b : (- compare_units a b <=? 0) = (b <=? a).
Proof. unfold compare_units. destruct (Z.eqb_spec a b), (Z.ltb_spec b a), (Z.leb_spec b a); lia. Qed.

Lemma row_le_units lc field direction left right :
  field <> by_symbol ->
  let units token := toComparableUnits (units_of field token) (tw_chainDecimals token) in
  row_le lc field direction left right
  = match direction with asc => units left <=? units right | desc => units right <=? units left end.
Proof.
  intros Hf. unfold row_le. destruct field; [done| |]; cbn [compare_rows];
    (destruct direction; [apply compare_units_le|apply compare_units_ge]).
Qed.

(** The table shows the rows the filters ask for, in the order of their amounts.  When no
    token has more than eighteen decimals, ordering by supply or by the treasury's balance
    gives exactly the rows that pass the mode and the search, each once, every one before
    those whose amount in whole tokens is larger, or smaller when the order is descending. *)
Theorem token_table lc p :
  tp_sortField p <> by_symbol -> Forall usual_decimals (tp_tokenRows p) ->
  filteredRows lc p ≡ₚ keep (fun token => passes_mode (tp_filterMode p) token && passes_query (tp_query p) token) (tp_tokenRows p)
  /\ StronglySorted (fun left right => match tp_sortDirection p with
                                       | asc => amount_le (tp_sortField p) left right
                                       | desc => amount_le (tp_sortField p) right left
                                       end) (filteredRows lc p).
Proof.
  intros Hf Hrows. split; [apply sort_by_perm|].
  set (shown := keep (fun token => passes_mode (tp_filterMode p) token && passes_query (tp_query p) token) (tp_tokenRows p)).
  assert (Forall usual_decimals shown) as Hshown.
  { rewrite Forall_forall in *. intros token [Hin _]%elem_of_keep. by apply Hrows. }
  assert (StronglySorted (fun a b => row_le lc (tp_sortField p) (tp_sortDirection p) a b = true)
    (sort_by (row_le lc (tp_sortField p) (tp_sortDirection p)) shown)) as Hs.
  { apply (sort_by_sorted _ (fun _ => True)); [| |by apply Forall_true].
    - intros a b _ _. rewrite !row_le_units by done. destruct (tp_sortDirection p); rewrite !Z.leb_le; lia.
    - intros a b c _ _ _. rewrite !row_le_units by done. destruct (tp_sortDirection p); rewrite !Z.leb_le; lia. }
  unfold filteredRows. fold shown. set (sorted := sort_by _ shown) in *.
  assert (Forall usual_decimals sorted) as Hsorted by (unfold sorted; by rewrite sort_by_perm).
  clearbody sorted. induction Hs as [|a l Hs IH Ha]; [constructor|]. apply Forall_cons in Hsorted as [Hua Hul].
  constructor; [by apply IH|]. rewrite Forall_forall in *. intros b Hb. specialize (Ha b Hb).
  rewrite row_le_units in Ha by done.
  destruct (tp_sortDirection p); apply Z.leb_le in Ha; apply amount_le_units; auto.
Qed.

(** ** The cards and the filters *)

(** With an empty search, a filter shows as many rows as its card counts. *)
Lemma cards_count_rows lc p :
  str_nonempty (to_lower (trim (tp_query p))) = false ->
  let rows := tp_tokenRows p in
  let shown mode := length (filteredRows lc (pick_mode mode p)) in
  shown mode_all = length rows /\ shown mode_mismatch = mismatchTokenCount rows
  /\ shown mode_treasury_allowed = allowedTokenCount rows /\ shown mode_in_market = swapPairCount rows
  /\ shown mode_single_pool = singlePoolCount rows /\ shown mode_reward_token = rewardTokenCount rows
  /\ (matchedTokenCount rows + shown mode_mismatch = length rows)%nat
  /\ (length (pendingTreasuryRows rows) <= shown mode_treasury_blocked)%nat.
Proof.
  intros Hq rows shown.
  assert (forall mode, shown mode = length (keep (passes_mode mode) rows)) as Hshown.
  { intros mode. unfold shown, filteredRows. rewrite sort_by_perm. f_equal. cbn [pick_mode with_filter tp_query tp_filterMode tp_tokenRows].
    apply keep_ext. intros token. unfold passes_query. by rewrite Hq, andb_true_r. }
  rewrite !Hshown. clearbody rows. clear. split_and!; try done.
  - by rewrite keep_all by (by apply Forall_true).
  - unfold matchedTokenCount. change (passes_mode mode_mismatch) with needs_check. induction rows as [|a l IH]; [done|]. cbn [keep].
    destruct (needs_check a); cbn [negb length]; lia.
  - unfold pendingTreasuryRows. change (passes_mode mode_treasury_blocked) with (allowed_is false). induction rows as [|a l IH]; [done|]. cbn [keep].
    destruct (allowed_is false a), (in_use a); cbn [andb length]; lia.
Qed.


(** A row of a token that is on the swap's market. *)
Definition sample_row (symbol : string) (supply decimals : Z) : TokenRow :=
  {| tw_address := symbol; tw_configuredSymbol := symbol; tw_configuredName := symbol; tw_configuredDecimals := decimals;
     tw_chainSymbol := symbol; tw_chainName := symbol; tw_chainDecimals := decimals; tw_totalSupply := supply;
     tw_treasuryAllowed := Some false; tw_treasuryBalance := None;
     tw_usage := {| us_inWalletConfig := true; us_inFarmSinglePoolConfig := false; us_isRewardToken := false;
                    us_hasSwapPair := true |};
     tw_mismatch := {| mm_symbol := false; mm_name := false; mm_decimals := false |}; tw_readFailed := false |}.

(** Seven whole tokens of six decimals come after five of eighteen, though their units are fewer. *)
Definition sample_page : tokens_page :=
  pick_field by_supply
    (with_load [sample_row "USDC" 7000000 6; sample_row "FLUX" (5 * 10 ^ 18) 18; sample_row "WBTC" 300000000 8]
       false None initial_tokens_page).

Lemma token_table_witness :
  (tw_configuredSymbol <$> filteredRows (fun _ _ => 0) sample_page) = ["WBTC"; "FLUX"; "USDC"]
  /\ StronglySorted (amount_le by_supply) (filteredRows (fun _ _ => 0) sample_page).
Proof.
  split; [vm_compute; reflexivity|].
  apply (token_table (fun _ _ => 0) sample_page); [done|]. repeat constructor; unfold usual_decimals; cbn; lia.
Defined.
