(* ===== verification/TreasuryPage.v ===== *)
(** * The treasury's page (admin-frontend/src/components/treasury, app/treasury/page.tsx)

    The state of the page, the link from the token page that fills in the form, what the
    controller derives for the handlers of TreasuryActions.v, and what the form, the tables and
    the cards show and allow. *)

From S2P Require Import Prelude JsString JsNumber JsValue JsUri JsError Amounts.
From S2P Require Import TreasuryContract TreasuryAbi TreasuryForms AdminPage AdminApi TreasuryData TreasuryActions.
From S2P Require TokenAdmin FarmAdmin.
From Stdlib Require Import Ascii.
Import FarmAdmin(present).
Open Scope string_scope.
Open Scope Z_scope.
Open Scope flux_scope.

(** ** State (useTreasuryPageEnvironment.ts, useTreasuryPageState.ts) *)

Record treasury_environment := {
  ve_chainId : num;
  ve_publicClient : bool;
  ve_address : option string;
  ve_isConnected : bool;
  ve_openConnectModal : bool;
  ve_supportedChain : bool;
  ve_treasuryAddress : option string;
  ve_managerAddress : option string;
  ve_gas : option Z;
  ve_tokens : list AdminTokenOption;
}.

(** [contract] is [getContractAddress] on the chain; the wallet gives the rest. *)
Definition useTreasuryPageEnvironment (chainId : num) (publicClient supportedChain : bool) (address : option string)
    (isConnected openConnectModal : bool) (gas : option Z) (contract : string -> option string)
    (getAdminTokenOptions : (string -> option string) -> list AdminTokenOption) : treasury_environment :=
  {| ve_chainId := chainId; ve_publicClient := publicClient; ve_address := address; ve_isConnected := isConnected;
     ve_openConnectModal := openConnectModal; ve_supportedChain := supportedChain;
     ve_treasuryAddress := contract "FluxSwapTreasury"; ve_managerAddress := contract "FluxMultiPoolManager";
     ve_gas := gas; ve_tokens := getAdminTokenOptions contract |}.

Record treasury_page := {
  vp_mounted : bool;
  vp_resultModal : option ResultModal;
  vp_confirmModal : option ConfirmModal;
  vp_expandedOperationId : option string;
  vp_operationKind : TreasuryOperationKind;
  vp_selectedTokenAddress : string;
  vp_booleanValue : string;
  vp_targetAddress : string;
  vp_spenderAddress : string;
  vp_amountValue : string;
  vp_delaySeconds : string;
  vp_newMinDelayValue : string;
  vp_withdrawRecipientAddress : string;
  vp_withdrawAmountValue : string;
  vp_allocationTokenAddress : string;
  vp_allocationRecipientAddress : string;
  vp_allocationAmountValue : string;
  vp_appliedPrefillKey : string;
}.

Definition initial_treasury_page : treasury_page :=
  {| vp_mounted := false; vp_resultModal := None; vp_confirmModal := None; vp_expandedOperationId := None;
     vp_operationKind := setAllowedToken; vp_selectedTokenAddress := ""; vp_booleanValue := "true";
     vp_targetAddress := ""; vp_spenderAddress := ""; vp_amountValue := ""; vp_delaySeconds := "10";
     vp_newMinDelayValue := ""; vp_withdrawRecipientAddress := ""; vp_withdrawAmountValue := "";
     vp_allocationTokenAddress := ""; vp_allocationRecipientAddress := ""; vp_allocationAmountValue := "";
     vp_appliedPrefillKey := "" |}.

Definition setMounted (p : treasury_page) : treasury_page :=
  {| vp_mounted := true; vp_resultModal := vp_resultModal p; vp_confirmModal := vp_confirmModal p;
     vp_expandedOperationId := vp_expandedOperationId p; vp_operationKind := vp_operationKind p;
     vp_selectedTokenAddress := vp_selectedTokenAddress p; vp_booleanValue := vp_booleanValue p;
     vp_targetAddress := vp_targetAddress p; vp_spenderAddress := vp_spenderAddress p;
     vp_amountValue := vp_amountValue p; vp_delaySeconds := vp_delaySeconds p;
     vp_newMinDelayValue := vp_newMinDelayValue p; vp_withdrawRecipientAddress := vp_withdrawRecipientAddress p;
     vp_withdrawAmountValue := vp_withdrawAmountValue p; vp_allocationTokenAddress := vp_allocationTokenAddress p;
     vp_allocationRecipientAddress := vp_allocationRecipientAddress p;
     vp_allocationAmountValue := vp_allocationAmountValue p; vp_appliedPrefillKey := vp_appliedPrefillKey p |}.

(** A row of the table of operations is opened, or closed when it is open. *)
Definition toggle_expanded (operationId : string) (p : treasury_page) : treasury_page :=
  {| vp_mounted := vp_mounted p; vp_resultModal := vp_resultModal p; vp_confirmModal := vp_confirmModal p;
     vp_expandedOperationId := if bool_decide (vp_expandedOperationId p = Some operationId) then None else Some operationId;
     vp_operationKind := vp_operationKind p;
     vp_selectedTokenAddress := vp_selectedTokenAddress p; vp_booleanValue := vp_booleanValue p;
     vp_targetAddress := vp_targetAddress p; vp_spenderAddress := vp_spenderAddress p;
     vp_amountValue := vp_amountValue p; vp_delaySeconds := vp_delaySeconds p;
     vp_newMinDelayValue := vp_newMinDelayValue p; vp_withdrawRecipientAddress := vp_withdrawRecipientAddress p;
     vp_withdrawAmountValue := vp_withdrawAmountValue p; vp_allocationTokenAddress := vp_allocationTokenAddress p;
     vp_allocationRecipientAddress := vp_allocationRecipientAddress p;
     vp_allocationAmountValue := vp_allocationAmountValue p; vp_appliedPrefillKey := vp_appliedPrefillKey p |}.

(** The inputs of the governance form, each with its setter. *)
Inductive form_input :=
| in_operationKind (k : TreasuryOperationKind) | in_selectedToken (a : string) | in_booleanValue (b : string)
| in_targetAddress (a : string) | in_spenderAddress (a : string) | in_amountValue (v : string)
| in_delaySeconds (v : string) | in_newMinDelayValue (v : string) | in_withdrawAmountValue (v : string)
| in_withdrawRecipientAddress (a : string).

Definition set_input (i : form_input) (p : treasury_page) : treasury_page :=
  {| vp_mounted := vp_mounted p; vp_resultModal := vp_resultModal p; vp_confirmModal := vp_confirmModal p;
     vp_expandedOperationId := vp_expandedOperationId p;
     vp_operationKind := match i with in_operationKind k => k | _ => vp_operationKind p end;
     vp_selectedTokenAddress := match i with in_selectedToken a => a | _ => vp_selectedTokenAddress p end;
     vp_booleanValue := match i with in_booleanValue b => b | _ => vp_booleanValue p end;
     vp_targetAddress := match i with in_targetAddress a => a | _ => vp_targetAddress p end;
     vp_spenderAddress := match i with in_spenderAddress a => a | _ => vp_spenderAddress p end;
     vp_amountValue := match i with in_amountValue v => v | _ => vp_amountValue p end;
     vp_delaySeconds := match i with in_delaySeconds v => v | _ => vp_delaySeconds p end;
     vp_newMinDelayValue := match i with in_newMinDelayValue v => v | _ => vp_newMinDelayValue p end;
     vp_withdrawRecipientAddress :=
       match i with in_withdrawRecipientAddress a => a | _ => vp_withdrawRecipientAddress p end;
     vp_withdrawAmountValue := match i with in_withdrawAmountValue v => v | _ => vp_withdrawAmountValue p end;
     vp_allocationTokenAddress := vp_allocationTokenAddress p;
     vp_allocationRecipientAddress := vp_allocationRecipientAddress p;
     vp_allocationAmountValue := vp_allocationAmountValue p; vp_appliedPrefillKey := vp_appliedPrefillKey p |}.

(** The inputs of the allocation card. *)
Definition set_allocation (token recipient amount : string) (p : treasury_page) : treasury_page :=
  {| vp_mounted := vp_mounted p; vp_resultModal := vp_resultModal p; vp_confirmModal := vp_confirmModal p;
     vp_expandedOperationId := vp_expandedOperationId p; vp_operationKind := vp_operationKind p;
     vp_selectedTokenAddress := vp_selectedTokenAddress p; vp_booleanValue := vp_booleanValue p;
     vp_targetAddress := vp_targetAddress p; vp_spenderAddress := vp_spenderAddress p;
     vp_amountValue := vp_amountValue p; vp_delaySeconds := vp_delaySeconds p;
     vp_newMinDelayValue := vp_newMinDelayValue p; vp_withdrawRecipientAddress := vp_withdrawRecipientAddress p;
     vp_withdrawAmountValue := vp_withdrawAmountValue p; vp_allocationTokenAddress := token;
     vp_allocationRecipientAddress := recipient; vp_allocationAmountValue := amount;
     vp_appliedPrefillKey := vp_appliedPrefillKey p |}.

(** [appliedPrefillKeyRef.current = key] *)
Definition set_applied (key : string) (p : treasury_page) : treasury_page :=
  {| vp_mounted := vp_mounted p; vp_resultModal := vp_resultModal p; vp_confirmModal := vp_confirmModal p;
     vp_expandedOperationId := vp_expandedOperationId p; vp_operationKind := vp_operationKind p;
     vp_selectedTokenAddress := vp_selectedTokenAddress p; vp_booleanValue := vp_booleanValue p;
     vp_targetAddress := vp_targetAddress p; vp_spenderAddress := vp_spenderAddress p;
     vp_amountValue := vp_amountValue p; vp_delaySeconds := vp_delaySeconds p;
     vp_newMinDelayValue := vp_newMinDelayValue p; vp_withdrawRecipientAddress := vp_withdrawRecipientAddress p;
     vp_withdrawAmountValue := vp_withdrawAmountValue p; vp_allocationTokenAddress := vp_allocationTokenAddress p;
     vp_allocationRecipientAddress := vp_allocationRecipientAddress p;
     vp_allocationAmountValue := vp_allocationAmountValue p; vp_appliedPrefillKey := key |}.

(** ** The link that fills in the form (useTreasuryPageController.tsx) *)

Record whitelist_prefill := { wp_key : string; wp_token : string; wp_allowed : string }.

(** [search] is the query of the page's address when it was mounted. *)
Definition whitelistPrefill (search : string) (mounted : bool) : option whitelist_prefill :=
  if negb mounted then None
  else
    let params := params_parse search in
    match params_get "token" params with
    | Some token =>
      if bool_decide (params_get "action" params = Some "setAllowedToken") && str_nonempty token
      then Some {| wp_key := params_to_string params; wp_token := token;
                   wp_allowed := if bool_decide (params_get "allowed" params = Some "false") then "false" else "true" |}
      else None
    | None => None
    end.

Definition find_token (address : string) (tokens : list AdminTokenOption) : option AdminTokenOption :=
  find_first (fun token => sameAddress (Some (tk_address token)) (Some address)) tokens.

Definition prefill_effect (env : treasury_environment) (search : string) (p : treasury_page) : treasury_page :=
  match whitelistPrefill search (vp_mounted p) with
  | Some prefill =>
    if String.eqb (vp_appliedPrefillKey p) (wp_key prefill) then p
    else
      let p := set_input (in_booleanValue (wp_allowed prefill)) (set_input (in_operationKind setAllowedToken) p) in
      let p := match find_token (wp_token prefill) (ve_tokens env) with
               | Some matchedToken => set_input (in_selectedToken (tk_address matchedToken)) p
               | None => p
               end in
      set_applied (wp_key prefill) p
  | None => p
  end.

(** ** What the controller derives *)

Section controller.
Variable env : treasury_environment.
Variable view : treasury_view.
Variable p : treasury_page.

(** [a || b] on texts. *)
Definition str_or (a b : string) : string := if str_nonempty a then a else b.

Definition walletConnected : bool := vp_mounted p && ve_isConnected env.
Definition totalConfiguredAssets : nat := length (tv_tokenRows view).
Definition allowedTokenCount : nat := length (keep tr_allowed (tv_tokenRows view)).
Definition readyOperationCount : nat :=
  length (keep (fun operation => bool_decide (or_status operation = ready)) (tv_operationRows view)).

Definition has_role (role : TreasuryInfo -> string) : bool :=
  walletConnected && sameAddress (ve_address env) (role <$> tv_treasuryInfo view).
Definition isMultisig : bool := has_role ti_multisig.
Definition isGuardian : bool := has_role ti_guardian.
Definition isOperator : bool := has_role ti_operator.

Definition effectiveSelectedTokenAddress : string :=
  str_or (vp_selectedTokenAddress p) (default "" (tk_address <$> head (ve_tokens env))).
Definition selectedToken : option AdminTokenOption :=
  match find_token effectiveSelectedTokenAddress (ve_tokens env) with
  | Some token => Some token
  | None => head (ve_tokens env)
  end.

Definition row_address (row : TreasuryTokenRow) : string := tk_address (tr_token row).
Definition effectiveAllocationTokenAddress : string :=
  str_or (vp_allocationTokenAddress p)
    (str_or (default "" (row_address <$> head (tv_tokenRows view))) zeroAddress).
Definition selectedAllocationToken : option TreasuryTokenRow :=
  match find_first (fun row => sameAddress (Some (row_address row)) (Some effectiveAllocationTokenAddress))
          (tv_tokenRows view) with
  | Some row => Some row
  | None => head (tv_tokenRows view)
  end.

Definition effectiveDelaySeconds : string :=
  str_or (vp_delaySeconds p) (default "" ((fun info => dec (ti_minDelay info)) <$> tv_treasuryInfo view)).

Definition treasury_paused : bool := match tv_treasuryInfo view with Some info => ti_paused info | None => false end.
Definition canPause : bool := walletConnected && (isMultisig || isGuardian) && present (ve_treasuryAddress env).
Definition canUnpause : bool := walletConnected && isMultisig && present (ve_treasuryAddress env).
Definition canAllocate : bool :=
  walletConnected && (isMultisig || isOperator) && present (ve_treasuryAddress env) && negb treasury_paused.

Definition form_of : form :=
  {| f_publicClient := ve_publicClient env; f_chainId := ve_chainId env; f_treasuryAddress := ve_treasuryAddress env;
     f_treasuryMinDelay := ti_minDelay <$> tv_treasuryInfo view; f_operationKind := vp_operationKind p;
     f_selectedToken := selectedToken; f_booleanValue := vp_booleanValue p; f_targetAddress := vp_targetAddress p;
     f_spenderAddress := vp_spenderAddress p; f_amountValue := vp_amountValue p;
     f_effectiveDelaySeconds := effectiveDelaySeconds; f_newMinDelayValue := vp_newMinDelayValue p;
     f_withdrawRecipientAddress := vp_withdrawRecipientAddress p;
     f_withdrawAmountValue := vp_withdrawAmountValue p |}.

(** What the handlers of TreasuryActions.v are given. *)
Definition useTreasuryPageController : action_params :=
  {| ap_form := form_of; ap_treasuryInfo := tv_treasuryInfo view; ap_gas := ve_gas env; ap_mounted := vp_mounted p;
     ap_isConnected := ve_isConnected env; ap_isMultisig := isMultisig; ap_canPause := canPause;
     ap_canUnpause := canUnpause; ap_canAllocate := canAllocate; ap_openConnectModal := ve_openConnectModal env;
     ap_selectedAllocationToken := selectedAllocationToken;
     ap_allocationRecipientAddress := vp_allocationRecipientAddress p;
     ap_allocationAmountValue := vp_allocationAmountValue p; ap_actorAddress := ve_address env |}.

(** ** The form and the cards *)

Inductive form_field :=
| field_asset | field_boolean | field_target | field_spender | field_amount | field_min_delay | field_withdraw.

(** The fields shown for a kind, besides the kind and the delay (TreasuryGovernanceForm.tsx). *)
Definition fields_shown (k : TreasuryOperationKind) : list form_field :=
  match k with
  | setAllowedToken => [field_asset; field_boolean]
  | setAllowedRecipient => [field_boolean; field_target]
  | setDailySpendCap => [field_asset; field_amount]
  | approveSpender => [field_asset; field_spender; field_amount]
  | revokeSpender => [field_asset; field_spender]
  | setGuardian | setOperator => [field_target]
  | setMinDelay => [field_min_delay]
  | emergencyWithdraw => [field_asset; field_withdraw]
  | emergencyWithdrawETH => [field_withdraw]
  end.

Definition target_label (k : TreasuryOperationKind) : string :=
  match k with setAllowedRecipient => "接收地址" | setGuardian => "新守护者地址" | _ => "新操作员地址" end.
Definition amount_label (k : TreasuryOperationKind) : string :=
  match k with setDailySpendCap => "每日额度" | _ => "授权额度" end.
Definition amount_placeholder (token : option string) : string :=
  match token with Some symbol => "输入 " ++ symbol ++ " 数量" | None => "输入数量" end.
Definition withdraw_placeholder (k : TreasuryOperationKind) : string :=
  match k, selectedToken with
  | emergencyWithdraw, Some token => "输入 " ++ tk_symbol token ++ " 数量"
  | _, _ => "输入 ETH 数量"
  end.
Definition delay_placeholder : string := default "3600" ((fun info => dec (ti_minDelay info)) <$> tv_treasuryInfo view).

Definition scheduleDisabled (active : bool) : bool := active || (walletConnected && negb isMultisig).
Definition scheduleLabel : string := if walletConnected then "生成并排队" else "连接钱包".
(** TreasuryAllocationCard.tsx *)
Definition allocateDisabled (active : bool) : bool := active || (walletConnected && negb canAllocate).
Definition allocateLabel : string := if walletConnected then "确认划拨" else "连接钱包".
(** TreasuryOperationsTable.tsx *)
Definition cancelDisabled (active : option ActiveTreasuryAction) (operation : TreasuryOperationRow) : bool :=
  match active with Some (act_cancel id) => String.eqb id (or_operationId operation) | _ => false end || negb isMultisig.
(** TreasuryAccessPanel.tsx *)
Definition wallet_label : string :=
  if walletConnected then shortAddress (default "" (ve_address env)) else "未连接".
End controller.

Definition executeDisabled (active : option ActiveTreasuryAction) (operation : TreasuryOperationRow) : bool :=
  match active with Some (act_execute id) => String.eqb id (or_operationId operation) | _ => false end
  || negb (bool_decide (or_status operation = ready)) || negb (truthy (or_metadata operation)).
(** TreasuryStatusCards.tsx *)
Definition pauseBusy (active : option ActiveTreasuryAction) : bool :=
  match active with Some act_pause | Some act_unpause => true | _ => false end.

Section cards.
Variable formatUnits : Z -> Z -> string.

Definition remaining_text (row : TreasuryTokenRow) : string :=
  if 0 <? tr_dailySpendCap row
  then formatTokenAmount formatUnits (subtractFloor (tr_dailySpendCap row) (tr_spentToday row)) (tr_token row) 4
  else "未设置".

(** TreasuryAssetTable.tsx *)
Definition allowed_label (row : TreasuryTokenRow) : string :=
  if tr_isNative row then "原生资产" else if tr_allowed row then "允许" else "未允许".
Definition approved_text (row : TreasuryTokenRow) : string :=
  if tr_isNative row then "不适用" else formatTokenAmount formatUnits (tr_approvedSpendRemaining row) (tr_token row) 4.
Definition cap_text (row : TreasuryTokenRow) : string :=
  if 0 <? tr_dailySpendCap row then formatTokenAmount formatUnits (tr_dailySpendCap row) (tr_token row) 4 else "未设置".
Definition spent_width (row : TreasuryTokenRow) : num := default num_zero (getDailySpendRatio row).
End cards.

(** ** The details of an operation (TreasuryOperationsTable.tsx) *)

(** A boolean as the table writes it; other values as they are. *)
Definition formatMetadataValue (value : jsval) : jsval :=
  match value with
  | VUndef => VStr "--"
  | VBool b => VStr (if b then "允许" else "移除")
  | v => v
  end.

Definition getOperationStatusLabel (status : operation_status) : string :=
  if bool_decide (status = ready) then "可执行" else "等待中".

(** The parameters listed, in their order. *)
Definition detail_parameters : list (string * string) :=
  [("资产地址", "token"); ("资产符号", "tokenSymbol"); ("接收地址", "recipient"); ("花费者地址", "spender");
   ("新守护者", "newGuardian"); ("新操作员", "newOperator"); ("白名单状态", "allowed"); ("数量", "amountDisplay");
   ("链上数量", "amountUnits"); ("新治理延迟（秒）", "newMinDelay"); ("提取资产地址", "withdrawToken");
   ("提取资产", "withdrawTokenSymbol"); ("提取接收地址", "withdrawRecipient"); ("提取数量", "withdrawAmountDisplay");
   ("链上提取数量", "withdrawAmountUnits")].

Section details.
(** [new Date(v).toLocaleString('zh-CN', ...)], and [formatUnixTime] of the page. *)
Variable date_text : jsval -> string.
Variable unix_text : Z -> string.

Definition detail_item (params : jsval) (entry : string * string) : res js_error (list (string * jsval)) :=
  let '(label, key) := entry in
  let* value := prop key params in
  Ok (if String.eqb key "allowed"
      then if is_undefined value then [] else [(label, formatMetadataValue value)]
      else if truthy value then [(label, value)] else []).

Definition buildOperationDetailItems (operation : TreasuryOperationRow) : res js_error (list (string * jsval)) :=
  let metadata := or_metadata operation in
  let time := ("可执行时间", VStr (unix_text (or_executeAfter operation))) in
  let scheduler := ("发起人", VStr (default "--" (or_scheduler operation))) in
  if negb (truthy metadata) then
    Ok [("操作 ID", VStr (or_operationId operation)); ("参数记录", VStr "缺少本地参数记录"); time; scheduler]
  else
    let* params := prop "params" metadata in
    let* items := res_mapi (fun _ => detail_item params) 0 detail_parameters in
    Ok ([("操作 ID", get "operationId" metadata); ("参数记录", VStr "已记录");
         ("本地创建时间", VStr (date_text (get "createdAt" metadata))); time; scheduler] ++ concat items)%list.
End details.

(** [/^0x[0-9a-fA-F]{20,}$/.test(value)] *)
Definition isChainValue (value : string) : bool :=
  match value with
  | String "0" (String "x" r) => all_chars is_hex_lower (to_lower r) && (20 <=? String.length r)%nat
  | _ => false
  end.

(** The texts of a row. *)
Definition operation_label (operation : TreasuryOperationRow) : jsval :=
  if truthy (or_metadata operation) then nullish (get "label" (or_metadata operation)) (VStr "未知操作") else VStr "未知操作".
Definition operation_summary (operation : TreasuryOperationRow) : jsval :=
  let missing := VStr "缺少本地参数记录，只能取消，不能直接执行" in
  if truthy (or_metadata operation) then nullish (get "summary" (or_metadata operation)) missing else missing.
