(* ===== verification/TreasuryLink.v ===== *)
(** * The token page, the treasury's page and its contract

    No code of its own: a link of the token page opens the treasury's form on the operation it
    stands for, and what the page allows a wallet is what the contract allows it. *)

From S2P Require Import Prelude JsString JsNumber JsValue JsUri JsError Amounts.
From S2P Require Import TreasuryContract TreasuryAbi TreasuryForms TreasuryData TreasuryActions TreasuryPage.
From S2P Require TokenAdmin FarmAdmin.
Import TokenAdmin(TokenRow, tw_address, is_allowed, treasuryHref, treasury_link).
Import FarmAdmin(present).
From Stdlib Require Import Ascii.
Open Scope string_scope.
Open Scope Z_scope.

(** ** Addresses *)

Lemma address_lower a b :
  address_text a -> address_text b -> (to_lower a = to_lower b <-> address_value a = address_value b).
Proof.
  intros (s & Ha & Hsl & Hs) (t & Hb & Htl & Ht). unfold address_value. rewrite Ha, Hb. cbn [String.append].
  destruct (value_go_shift 16 is_hex_lower s 0 digit_val_hex Hs) as (v & Hv & _ & _).
  destruct (value_go_shift 16 is_hex_lower t 0 digit_val_hex Ht) as (w & Hw & _ & _).
  rewrite Hv, Hw. cbn. pose proof (hex_compare s t v w ltac:(congruence) Hs Ht Hv Hw) as Hc. split.
  - intros [= ->]. congruence.
  - intros ->. rewrite Z.compare_refl in Hc. by apply String.compare_eq_iff in Hc as ->.
Qed.

Lemma sameAddress_value a b :
  address_text a -> address_text b -> sameAddress (Some a) (Some b) = (address_value a =? address_value b).
Proof.
  intros Ha Hb. unfold sameAddress. rewrite !address_text_nonempty by done. cbn [andb].
  apply eq_true_iff_eq. rewrite String.eqb_eq, Z.eqb_eq. by apply address_lower.
Qed.

(** ** The link *)

(** What the treasury's page finds in its address. *)
Definition link_search (row : TokenRow) : string :=
  String "?" (params_to_string [("token", tw_address row); ("action", "setAllowedToken");
                                ("allowed", if is_allowed row then "false" else "true")]).

Lemma link_search_href row : treasuryHref row = "/treasury" ++ link_search row.
Proof. done. Qed.

(** The page once it is mounted and its effects have run. *)
Definition opened (env : treasury_environment) (search : string) : treasury_page :=
  prefill_effect env search (setMounted initial_treasury_page).

Lemma link_prefill row :
  str_nonempty (tw_address row) = true ->
  exists key, key <> ""
    /\ whitelistPrefill (link_search row) true
       = Some {| wp_key := key; wp_token := tw_address row; wp_allowed := if is_allowed row then "false" else "true" |}.
Proof.
  intros Ha. unfold whitelistPrefill, link_search. rewrite params_parse_search. cbn [negb].
  set (params := [_; _; _]). exists (params_to_string params). split.
  { intros E. apply (f_equal params_parse) in E. by rewrite params_parse_to_string in E. }
  change (params_get "token" params) with (Some (tw_address row)).
  change (params_get "action" params) with (Some "setAllowedToken").
  change (params_get "allowed" params) with (Some (if is_allowed row then "false" else "true")).
  cbv beta iota zeta. rewrite Ha, bool_decide_true by done. cbn [andb]. by destruct (is_allowed row).
Qed.

(** The tokens of a chain have different addresses. *)
Definition distinct (tokens : list AdminTokenOption) : Prop := NoDup ((fun token => to_lower (tk_address token)) <$> tokens).

Lemma find_token_own tokens token :
  distinct tokens -> token ∈ tokens -> str_nonempty (tk_address token) = true ->
  find_token (tk_address token) tokens = Some token.
Proof.
  unfold distinct, find_token. intros Hd Hin Ha. induction tokens as [|t tokens IH]; [set_solver|].
  cbn [fmap list_fmap] in Hd. apply NoDup_cons in Hd as [Hnew Hd]. cbn [find_first].
  destruct (sameAddress (Some (tk_address t)) (Some (tk_address token))) eqn:E.
  - unfold sameAddress in E. rewrite !andb_true_iff, String.eqb_eq in E. destruct E as [_ E].
    apply elem_of_cons in Hin as [->|Hin]; [done|]. destruct Hnew. rewrite E. apply list_elem_of_fmap. by exists token.
  - apply elem_of_cons in Hin as [->|Hin]; [|by apply IH]. unfold sameAddress in E.
    by rewrite Ha, String.eqb_refl in E.
Qed.

Lemma opened_form env row token :
  distinct (ve_tokens env) -> token ∈ ve_tokens env -> str_nonempty (tk_address token) = true ->
  tw_address row = tk_address token ->
  let p := opened env (link_search row) in
  vp_mounted p = true /\ vp_operationKind p = setAllowedToken /\ vp_delaySeconds p = "10"
  /\ vp_booleanValue p = (if is_allowed row then "false" else "true")
  /\ selectedToken env p = Some token.
Proof.
  intros Hd Hin Ha Hrow. cbv zeta. rewrite <- Hrow in Ha. destruct (link_prefill row Ha) as (key & Hk & Hp).
  unfold opened, prefill_effect. cbn [vp_mounted setMounted]. rewrite Hp. cbn [wp_key wp_token wp_allowed].
  change (vp_appliedPrefillKey (setMounted initial_treasury_page)) with "".
  destruct (String.eqb_spec "" key); [congruence|]. rewrite Hrow in *. rewrite find_token_own by done.
  split_and!; try done. unfold selectedToken, effectiveSelectedTokenAddress.
  cbn [vp_selectedTokenAddress set_applied set_input]. unfold str_or. rewrite Ha. by rewrite find_token_own.
Qed.

Section link.
Context `{AbiEncoder}.
Variable parseUnits : string -> Z -> option Z.
Variable read_hash : string -> timelock_op -> res js_error string.

(** The link of a token's row opens the form on the operation it stands for.  On a chain
    whose tokens have different addresses, following the link leaves the form describing
    exactly the removal of an allowed token from the whitelist, or the addition of one that is
    not; and a press that schedules drafts that operation under the id the node reads for it
    when the treasury's delay is at most the ten seconds the field starts with, and is refused
    otherwise, until the delay is changed. *)
Theorem token_link_drafts env view row token treasury now id :
  distinct (ve_tokens env) -> token ∈ ve_tokens env -> isAddress (tk_address token) = true ->
  tw_address row = tk_address token ->
  ve_publicClient env = true -> ve_treasuryAddress env = Some treasury -> str_nonempty treasury = true ->
  let f := form_of env view (opened env (link_search row)) in
  let o := SetAllowedToken (address_value (tw_address row)) (negb (is_allowed row)) in
  read_hash treasury o = Ok id ->
  treasuryHref row = "/treasury" ++ link_search row
  /\ form_operation parseUnits f = o
  /\ match buildTreasuryOperationDraft parseUnits read_hash f now with
     | Ok m => get "operationId" m = VStr id /\ get "treasuryAddress" m = VStr treasury
               /\ default 0 (ti_minDelay <$> tv_treasuryInfo view) <= 10
     | Throw (Refused modal) => modal_title modal = "延迟时间无效" /\ 10 < default 0 (ti_minDelay <$> tv_treasuryInfo view)
     | Throw (Thrown _) => False
     end.
Proof.
  intros Hd Hin Ha Hrow Hclient Htreasury Ht f o Hid. destruct (isAddress_encodes _ Ha) as [Htext Henc].
  destruct (opened_form env row token Hd Hin (address_text_nonempty _ Htext) Hrow) as (Hm & Hk & Hdelay & Hb & Hs).
  split; [done|].
  assert (String.eqb (f_booleanValue f) "true" = negb (is_allowed row)) as Hbool.
  { unfold f. cbn [form_of f_booleanValue]. rewrite Hb. by destruct (is_allowed row). }
  split.
  { unfold form_operation. rewrite Hbool. unfold f, o. cbn [form_of f_operationKind]. rewrite Hk.
    unfold token_of. cbn [form_of f_selectedToken]. rewrite Hs, Hrow. done. }
  unfold buildTreasuryOperationDraft.
  assert (f_treasuryAddress f = Some treasury) as -> by done. assert (f_publicClient f = true) as -> by done.
  rewrite Ht. cbn [andb].
  assert (operation_delay f = Ok (Some 10)) as ->.
  { unfold operation_delay, f. cbn [form_of f_effectiveDelaySeconds f_treasuryMinDelay]. unfold effectiveDelaySeconds.
    rewrite Hdelay. reflexivity. }
  cbn [lift res_bind]. unfold delay_ok. change (negb (10 =? 0)) with true. cbn [andb].
  change (f_treasuryMinDelay f) with (ti_minDelay <$> tv_treasuryInfo view).
  destruct (Z.leb_spec (default 0 (ti_minDelay <$> tv_treasuryInfo view)) 10) as [Hle|Hgt]; [|by split].
  unfold draft_of_kind. rewrite Hbool. change (f_operationKind f) with (vp_operationKind (opened env (link_search row))).
  rewrite Hk. unfold draft_allowed_token, token_of.
  change (f_selectedToken f) with (selectedToken env (opened env (link_search row))). rewrite Hs.
  cbn [option_address default from_option Datatypes.id]. rewrite Ha. unfold readContract.
  assert (hashed_operation "hashSetAllowedToken" [VStr (tk_address token); VBool (negb (is_allowed row))] = Ok o) as ->.
  { change (address_bool SetAllowedToken [VStr (tk_address token); VBool (negb (is_allowed row))] = Ok o).
    cbn [address_bool]. destruct (encodeAddress (VStr (tk_address token))) as [z|e] eqn:Ez; [|done].
    apply encodeAddress_text in Ez as [_ ->]. cbn [res_bind]. rewrite encodeBool_bool. unfold o. by rewrite Hrow. }
  cbn [res_bind]. rewrite Hid. by split_and!.
Qed.
End link.

(** ** Permissions *)

(** The roles and the state the page shows are those of the contract. *)
Record shows (info : TreasuryInfo) (c : treasury) : Prop := {
  shows_multisig : address_text (ti_multisig info) /\ address_value (ti_multisig info) = multisig c;
  shows_guardian : address_text (ti_guardian info) /\ address_value (ti_guardian info) = guardian c;
  shows_operator : address_text (ti_operator info) /\ address_value (ti_operator info) = operator c;
  shows_paused : ti_paused info = paused c;
}.

(** The contract turns the sender away. *)
Definition turned_away (o : outcome) : bool :=
  match o with
  | Throw e => String.eqb e "FluxSwapTreasury: FORBIDDEN" || String.eqb e "FluxSwapTreasury: PAUSED"
  | Ok _ => false
  end.

Section permissions.
Context `{OperationHash}.
Variable env : treasury_environment.
Variable view : treasury_view.
Variable p : treasury_page.
Variables (w : string) (info : TreasuryInfo) (c : treasury) (e : TreasuryContract.env).
Hypothesis Hmounted : vp_mounted p = true.
Hypothesis Hconnected : ve_isConnected env = true.
Hypothesis Htreasury : present (ve_treasuryAddress env) = true.
Hypothesis Hwallet : ve_address env = Some w.
Hypothesis Hw : address_text w.
Hypothesis Hsender : sender e = address_value w.
Hypothesis Hinfo : tv_treasuryInfo view = Some info.
Hypothesis Hshows : shows info c.

Lemma connected : walletConnected env p = true.
Proof using Hmounted Hconnected. unfold walletConnected. by rewrite Hmounted, Hconnected. Qed.

Lemma has_role_sender (role : TreasuryInfo -> string) (who : TreasuryContract.address) :
  address_text (role info) /\ address_value (role info) = who -> has_role env view p role = (sender e =? who).
Proof using Hmounted Hconnected Hwallet Hw Hsender Hinfo.
  intros [Ht <-]. unfold has_role. rewrite connected, Hwallet, Hinfo. cbn [andb fmap option_fmap option_map].
  rewrite sameAddress_value by done. by rewrite Hsender.
Qed.

Lemma roles_of_sender :
  isMultisig env view p = (sender e =? multisig c) /\ isGuardian env view p = (sender e =? guardian c)
  /\ isOperator env view p = (sender e =? operator c).
Proof using Hmounted Hconnected Hwallet Hw Hsender Hinfo Hshows.
  destruct Hshows. unfold isMultisig, isGuardian, isOperator. split_and!; by apply has_role_sender.
Qed.

Lemma consume_cap_not_away t n :
  match _consumeCap e t n c with
  | Throw m => String.eqb m "FluxSwapTreasury: FORBIDDEN" || String.eqb m "FluxSwapTreasury: PAUSED" = false
  | Ok _ => True
  end.
Proof using. unfold _consumeCap, u256. repeat (case_match; simplify_eq/=; try done). Qed.

Lemma transfer_not_away t to n c' : turned_away (transfer_out e t to n c') = false.
Proof using. unfold transfer_out. destruct (external_ok e), (t =? 0); done. Qed.

Lemma allocate_away t to n :
  turned_away (allocate e t to n c) = negb (((sender e =? operator c) || (sender e =? multisig c)) && negb (paused c)).
Proof using.
  unfold allocate, onlyOperatorOrMultisig, whenNotPaused. destruct (_ || _); [|done]. destruct (paused c); [done|].
  cbn [negb andb]. case_match; [|done]. case_match; [|done]. pose proof (consume_cap_not_away t n) as Hcap.
  destruct (_consumeCap e t n c); [apply transfer_not_away|exact Hcap].
Qed.

Lemma allocateETH_away to n :
  turned_away (allocateETH e to n c) = negb (((sender e =? operator c) || (sender e =? multisig c)) && negb (paused c)).
Proof using.
  unfold allocateETH, onlyOperatorOrMultisig, whenNotPaused. destruct (_ || _); [|done]. destruct (paused c); [done|].
  cbn [negb andb]. case_match; [|done]. pose proof (consume_cap_not_away 0 n) as Hcap.
  destruct (_consumeCap e 0 n c); [apply transfer_not_away|exact Hcap].
Qed.

Lemma schedule_away id d : turned_away (scheduleOperation e id d c) = negb (sender e =? multisig c).
Proof using.
  unfold scheduleOperation, onlyMultisig, u256. destruct (_ =? multisig c); [|done].
  repeat (case_match; simplify_eq/=; try done).
Qed.

Lemma cancel_away id : turned_away (cancelOperation e id c) = negb (sender e =? multisig c).
Proof using.
  unfold cancelOperation, onlyMultisig. destruct (_ =? multisig c); [|done]. by case_match.
Qed.

(** What the treasury's page allows is what the contract allows.  For a connected wallet
    and a page that shows the contract's roles and state, the pause button's handler is let
    through exactly when the contract accepts the pause, and likewise for resuming; and
    scheduling, cancelling and allocating are let through exactly when the contract does not
    turn the wallet away, whatever the operation, the asset, the recipient and the amount. *)
Theorem permissions_match_contract :
  (canPause env view p && negb (ti_paused info) = is_ok (exec e Pause c))
  /\ (canUnpause env view p && ti_paused info = is_ok (exec e Unpause c))
  /\ (forall id delay, isMultisig env view p = negb (turned_away (exec e (Schedule id delay) c)))
  /\ (forall id, isMultisig env view p = negb (turned_away (exec e (Cancel id) c)))
  /\ (forall t to n, canAllocate env view p = negb (turned_away (exec e (Allocate t to n) c)))
  /\ (forall to n, canAllocate env view p = negb (turned_away (exec e (AllocateETH to n) c))).
Proof using Hmounted Hconnected Htreasury Hwallet Hw Hsender Hinfo Hshows.
  destruct roles_of_sender as (Em & Eg & Eo).
  assert (canAllocate env view p = ((sender e =? operator c) || (sender e =? multisig c)) && negb (paused c)) as Ha.
  { unfold canAllocate, treasury_paused. rewrite connected, Em, Eo, Htreasury, Hinfo, (shows_paused _ _ Hshows).
    cbn [andb]. by rewrite andb_true_r, orb_comm. }
  split_and!; cbn [exec]; intros.
  - unfold canPause. rewrite connected, Em, Eg, Htreasury, (shows_paused _ _ Hshows). cbn [andb].
    rewrite andb_true_r, orb_comm. unfold pause, onlyGuardianOrMultisig.
    by destruct (sender e =? guardian c), (sender e =? multisig c), (paused c).
  - unfold canUnpause. rewrite connected, Em, Htreasury, (shows_paused _ _ Hshows). cbn [andb].
    rewrite andb_true_r. unfold unpause, onlyMultisig. by destruct (sender e =? multisig c), (paused c).
  - by rewrite schedule_away, negb_involutive.
  - by rewrite cancel_away, negb_involutive.
  - by rewrite allocate_away, negb_involutive.
  - by rewrite allocateETH_away, negb_involutive.
Qed.
End permissions.

(** ** Links followed on another chain *)

(** A link opened while the wallet is on a chain without the token is used up there: on the
    token's own chain the form then has its first token, whatever the link named. *)
Lemma link_lost env0 env row :
  str_nonempty (tw_address row) = true -> find_token (tw_address row) (ve_tokens env0) = None ->
  let p := prefill_effect env (link_search row) (opened env0 (link_search row)) in
  vp_operationKind p = setAllowedToken /\ selectedToken env p = head (ve_tokens env).
Proof.
  intros Ha Hn. cbv zeta. destruct (link_prefill row Ha) as (key & Hk & Hp).
  assert (opened env0 (link_search row)
    = set_applied key (set_input (in_booleanValue (if is_allowed row then "false" else "true"))
        (set_input (in_operationKind setAllowedToken) (setMounted initial_treasury_page)))) as ->.
  { unfold opened, prefill_effect. cbn [vp_mounted setMounted]. rewrite Hp. cbn [wp_key wp_token wp_allowed].
    change (vp_appliedPrefillKey (setMounted initial_treasury_page)) with "".
    destruct (String.eqb_spec "" key); [congruence|]. by rewrite Hn. }
  unfold prefill_effect. cbn [vp_mounted set_applied set_input setMounted]. rewrite Hp.
  cbn [vp_appliedPrefillKey wp_key]. rewrite String.eqb_refl. split; [done|].
  unfold selectedToken, effectiveSelectedTokenAddress.
  cbn [vp_selectedTokenAddress set_applied set_input setMounted initial_treasury_page].
  destruct (ve_tokens env) as [|t l]; [done|].
  change (str_or "" (default "" (tk_address <$> head (t :: l)))) with (tk_address t).
  unfold find_token. cbn [find_first]. destruct (str_nonempty (tk_address t)) eqn:E.
  - unfold sameAddress at 1. by rewrite E, String.eqb_refl.
  - destruct (tk_address t); [|done]. assert (find_first (fun token => sameAddress (Some (tk_address token)) (Some "")) l = None) as Hl.
    { apply find_first_None, Forall_forall. intros u _. unfold sameAddress. by rewrite andb_false_r. }
    by rewrite Hl.
Qed.

(** ** Concrete pages *)

Definition sample_roles : TreasuryInfo :=
  {| ti_address := sample_address; ti_multisig := sample_address;
     ti_guardian := "0x00000000000000000000000000000000000000b8"; ti_operator := "0x00000000000000000000000000000000000000C9";
     ti_minDelay := 5; ti_paused := false |}.

Definition sample_view : treasury_view :=
  {| tv_treasuryInfo := Some sample_roles; tv_tokenRows := []; tv_operationRows := []; tv_error := None |}.

Definition sample_page_environment (wallet : string) : treasury_environment :=
  {| ve_chainId := num_of_Z 31337; ve_publicClient := true; ve_address := Some wallet; ve_isConnected := true;
     ve_openConnectModal := true; ve_supportedChain := true; ve_treasuryAddress := Some sample_address;
     ve_managerAddress := None; ve_gas := None; ve_tokens := [sample_token] |}.

Definition sample_token_row (allowed : bool) : TokenRow :=
  {| TokenAdmin.tw_address := sample_address; TokenAdmin.tw_configuredSymbol := "USDT"; TokenAdmin.tw_configuredName := "Tether USD";
     TokenAdmin.tw_configuredDecimals := 6; TokenAdmin.tw_chainSymbol := "USDT"; TokenAdmin.tw_chainName := "Tether USD";
     TokenAdmin.tw_chainDecimals := 6; TokenAdmin.tw_totalSupply := 10 ^ 12; TokenAdmin.tw_treasuryAllowed := Some allowed;
     TokenAdmin.tw_treasuryBalance := Some 0;
     TokenAdmin.tw_usage := {| TokenAdmin.us_inWalletConfig := true; TokenAdmin.us_inFarmSinglePoolConfig := false;
                               TokenAdmin.us_isRewardToken := false; TokenAdmin.us_hasSwapPair := true |};
     TokenAdmin.tw_mismatch := {| TokenAdmin.mm_symbol := false; TokenAdmin.mm_name := false; TokenAdmin.mm_decimals := false |};
     TokenAdmin.tw_readFailed := false |}.

#[local] Existing Instance sample_hash.
#[local] Existing Instance sample_abi.

Lemma token_link_drafts_witness :
  let env := sample_page_environment sample_address in
  let f := form_of env sample_view (opened env (link_search (sample_token_row true))) in
  form_operation exact_parseUnits f = SetAllowedToken 167 false
  /\ is_ok (buildTreasuryOperationDraft exact_parseUnits sample_read_hash f (num_of_Z 1700000000000)) = true.
Proof.
  cbv zeta. destruct (token_link_drafts exact_parseUnits sample_read_hash (sample_page_environment sample_address) sample_view
    (sample_token_row true) sample_token sample_address (num_of_Z 1700000000000) (op_hash (SetAllowedToken 167 false)))
    as (_ & Hf & Hd).
  - apply NoDup_singleton.
  - by apply list_elem_of_here.
  - vm_compute. reflexivity.
  - reflexivity.
  - reflexivity.
  - reflexivity.
  - reflexivity.
  - vm_compute. reflexivity.
  - split; [exact Hf|]. destruct (buildTreasuryOperationDraft _ _ _ _) as [m|[modal|err]]; [reflexivity| |destruct Hd].
    destruct Hd as [_ Hd]. vm_compute in Hd. discriminate Hd.
Defined.

Lemma permissions_match_contract_witness :
  let c := {| multisig := 167; operator := 201; guardian := 184; minDelay := 5; paused := false; allowedTokens := ∅;
              allowedRecipients := ∅; dailySpendCap := ∅; spentToday := ∅; lastSpendDay := ∅;
              approvedSpendRemaining := ∅; operationReadyAt := ∅ |} in
  let env := sample_page_environment "0x00000000000000000000000000000000000000B8" in
  let p := setMounted initial_treasury_page in
  canPause env sample_view p = true /\ canAllocate env sample_view p = false
  /\ is_ok (exec (sample_env 184 100) Pause c) = true
  /\ turned_away (exec (sample_env 184 100) (Allocate 1 2 3) c) = true.
Proof.
  cbv zeta. set (c := {| multisig := 167; operator := 201; guardian := 184; minDelay := 5; paused := false; allowedTokens := ∅;
              allowedRecipients := ∅; dailySpendCap := ∅; spentToday := ∅; lastSpendDay := ∅;
              approvedSpendRemaining := ∅; operationReadyAt := ∅ |}).
  assert (forall a t, to_lower a = "0x" ++ t -> String.length t = 40%nat -> all_chars is_hex_lower t = true -> address_text a)
    as Htext by (intros a t Ht Hl Hc; by exists t).
  destruct (permissions_match_contract (sample_page_environment "0x00000000000000000000000000000000000000B8") sample_view
    (setMounted initial_treasury_page) "0x00000000000000000000000000000000000000B8" sample_roles c (sample_env 184 100))
    as (Hp & _ & _ & _ & Ha & _); try reflexivity.
  - by apply (Htext _ "00000000000000000000000000000000000000b8").
  - split; try reflexivity; (split; [|vm_compute; reflexivity]).
    + by apply (Htext _ "00000000000000000000000000000000000000a7").
    + by apply (Htext _ "00000000000000000000000000000000000000b8").
    + by apply (Htext _ "00000000000000000000000000000000000000c9").
  - assert (canPause (sample_page_environment "0x00000000000000000000000000000000000000B8") sample_view
              (setMounted initial_treasury_page) = true) as Hc by (vm_compute; reflexivity).
    assert (canAllocate (sample_page_environment "0x00000000000000000000000000000000000000B8") sample_view
              (setMounted initial_treasury_page) = false) as Hf by (vm_compute; reflexivity).
    rewrite Hc in Hp. specialize (Ha 1 2 3). rewrite Hf in Ha. split; [exact Hc|]. split; [exact Hf|]. split; [symmetry; exact Hp|].
    destruct (turned_away _); [reflexivity|discriminate Ha].
Defined.
