(* ===== verification/Overview.v ===== *)
(** * The overview of the administration (admin-frontend/src/components/overview, app/page.tsx)

    The snapshot read from the manager, its pools, the treasury and the recent events; the cells
    of the event map; the health score, the nodes and the items to act on; what the page shows. *)

From S2P Require Import Prelude JsString JsNumber JsDivision JsValue JsError JsSort Amounts PageMonad.
From S2P Require TreasuryForms Farms FarmAdmin.
From Stdlib Require Import Sorting.Sorted SpecFloat.
Import TreasuryForms(AdminTokenOption, Build_AdminTokenOption, tk_symbol, tk_decimals, tk_address).
Import Farms(reason, all_of, both, or_default, fulfilled, pids).
Import FarmAdmin(shortAddress, present, admin_node, Build_admin_node, an_uint, an_address, an_text, an_flag, an_entry, an_first).
Import FarmAdmin(load_site, at_site, load_phase, phase_counters, phase_reward, phase_pool, phase_treasury).
Import FarmAdmin(step_state, step_numbers, step_as_pair, step_symbols, step_as_token).
Open Scope string_scope.
Open Scope Z_scope.

(** ** OverviewTypes.ts *)

Record TokenMeta := { tm_label : string; tm_symbol : string; tm_decimals : Z }.

Record FarmWeightSlice := {
  sl_label : string; sl_poolAddress : string; sl_allocPoint : Z; sl_active : bool; sl_totalStaked : Z;
  sl_stakingDecimals : Z; sl_stakingSymbol : string;
}.

Record OperationBucket := {
  bk_label : string; bk_startBlock : Z; bk_endBlock : Z; bk_startTimeMs : num; bk_endTimeMs : num;
  bk_farm : Z; bk_treasury : Z;
}.

Record OperationWindow := { ow_fromBlock : Z; ow_toBlock : Z; ow_fromTimeMs : num; ow_toTimeMs : num }.

Record OverviewData := {
  ov_poolLength : Z;
  ov_activePoolCount : Z;
  ov_totalAllocPoint : Z;
  ov_totalPendingRewards : Z;
  ov_undistributedRewards : Z;
  ov_rewardTokenSymbol : string;
  ov_rewardTokenDecimals : Z;
  ov_rewardTokenAddress : string;
  ov_treasuryAddress : string;
  ov_treasuryPaused : bool;
  ov_treasuryRewardBalance : Z;
  ov_treasuryApprovedSpendRemaining : Z;
  ov_configuredTokenCount : Z;
  ov_allowedTokenCount : Z;
  ov_recentFarmEvents : Z;
  ov_recentTreasuryEvents : Z;
  ov_farmWeightSlices : list FarmWeightSlice;
  ov_operationBuckets : list OperationBucket;
  ov_operationWindow : OperationWindow;
}.

Inductive Tone := success | warning | danger | neutral.
Record ProtocolNode := { nd_label : string; nd_value : string; nd_detail : string; nd_tone : Tone; nd_href : string }.
Record ActionItem := { ai_title : string; ai_detail : string; ai_tone : Tone }.

(** ** OverviewUtils.tsx *)

Definition RECENT_BLOCK_WINDOW : Z := 20000.
Definition OPERATION_BUCKET_COUNT : nat := 280.
Definition FALLBACK_BLOCK_TIME_MS : Z := 2000.

Definition sameAddress (left right : option string) : bool :=
  match left, right with
  | Some l, Some r => str_nonempty l && str_nonempty r && String.eqb (to_lower l) (to_lower r)
  | _, _ => false
  end.

Definition normalizeSymbol (symbol tokenAddress : string) (wrappedNativeAddress : option string) : string :=
  if present wrappedNativeAddress && sameAddress (Some tokenAddress) wrappedNativeAddress then "ETH"
  else if str_nonempty symbol then symbol else "TOKEN".

(** The score is a whole number, which rounding keeps. *)
Definition clampScore (value : Z) : Z := Z.max 0 (Z.min 100 value).

Definition bucket_count : Z := Z.of_nat OPERATION_BUCKET_COUNT.

(** [span / BigInt(OPERATION_BUCKET_COUNT) || BigInt(1)] *)
Definition bucket_size (latestBlock fromBlock : Z) : Z :=
  let span := if fromBlock <=? latestBlock then latestBlock - fromBlock + 1 else 1 in
  let size := Z.quot span bucket_count in
  if size =? 0 then 1 else size.

(** [fromTimeMs + Math.floor((windowMs * index) / OPERATION_BUCKET_COUNT)] *)
Definition time_at (fromTimeMs windowMs : num) (index : Z) : num :=
  num_add fromTimeMs (num_floor (num_div (num_mul windowMs (num_of_Z index)) (num_of_Z bucket_count))).

Section buckets.
Variable latestBlock fromBlock : Z.
Variable fromTimeMs toTimeMs : num.
Notation bucketSize := (bucket_size latestBlock fromBlock).

Definition empty_bucket (index : nat) : OperationBucket :=
  let distance := (OPERATION_BUCKET_COUNT - index - 1)%nat in
  let windowMs := num_max (num_of_Z 1) (num_sub toTimeMs fromTimeMs) in
  let startBlock := fromBlock + Z.of_nat index * bucketSize in
  let isLast := Nat.eqb distance 0 in
  {| bk_label := if Nat.eqb distance 0 then "最新" else "-" ++ dec (Z.of_nat distance);
     bk_startBlock := startBlock;
     bk_endBlock := if isLast then latestBlock else startBlock + bucketSize - 1;
     bk_startTimeMs := time_at fromTimeMs windowMs (Z.of_nat index);
     bk_endTimeMs := if isLast then toTimeMs else time_at fromTimeMs windowMs (Z.of_nat index + 1);
     bk_farm := 0; bk_treasury := 0 |}.

Inductive event_scope := scope_farm | scope_treasury.

Definition count_in (scope : event_scope) (b : OperationBucket) : OperationBucket :=
  {| bk_label := bk_label b; bk_startBlock := bk_startBlock b; bk_endBlock := bk_endBlock b;
     bk_startTimeMs := bk_startTimeMs b; bk_endTimeMs := bk_endTimeMs b;
     bk_farm := match scope with scope_farm => bk_farm b + 1 | scope_treasury => bk_farm b end;
     bk_treasury := match scope with scope_farm => bk_treasury b | scope_treasury => bk_treasury b + 1 end |}.

(** The cell an event is counted in. *)
Definition bucket_index (block : Z) : nat :=
  Z.to_nat (Z.max 0 (Z.min (bucket_count - 1) (Z.quot (block - fromBlock) bucketSize))).

(** An event is its block, if known. *)
Definition applyEvent (scope : event_scope) (buckets : list OperationBucket) (event : option Z) : list OperationBucket :=
  match event with
  | Some block => if block <? fromBlock then buckets else alter (count_in scope) (bucket_index block) buckets
  | None => buckets
  end.

Definition buildOperationBuckets (farmEvents treasuryEvents : list (option Z)) : list OperationBucket :=
  foldl (applyEvent scope_treasury)
    (foldl (applyEvent scope_farm) (empty_bucket <$> seq 0 OPERATION_BUCKET_COUNT) farmEvents) treasuryEvents.
End buckets.

Definition getHealthScore (overview : option OverviewData) : Z :=
  match overview with
  | None => 0
  | Some o =>
    clampScore (100 - (if ov_activePoolCount o =? 0 then 30 else 0) - (if ov_totalAllocPoint o <=? 0 then 20 else 0)
                - (if ov_treasuryPaused o then 30 else 0) - (if ov_treasuryRewardBalance o <=? 0 then 18 else 0)
                - (if ov_treasuryApprovedSpendRemaining o <=? 0 then 18 else 0)
                - (if ov_allowedTokenCount o <? ov_configuredTokenCount o then 10 else 0))
  end.

Definition getToneByScore (score : Z) : Tone :=
  if 80 <=? score then success else if 55 <=? score then warning else danger.

(** [{ text, bg, border, stroke, soft }] *)
Definition getToneClasses (tone : Tone) : string * string * string * string * string :=
  match tone with
  | success => ("text-emerald-700", "bg-emerald-50", "border-emerald-200", "#10b981", "bg-emerald-500/10")
  | warning => ("text-amber-700", "bg-amber-50", "border-amber-200", "#f59e0b", "bg-amber-500/10")
  | danger => ("text-rose-700", "bg-rose-50", "border-rose-200", "#ef4444", "bg-rose-500/10")
  | neutral => ("text-slate-600", "bg-slate-100", "border-slate-200", "#64748b", "bg-slate-500/10")
  end.

Section texts.
Variable formatUnits : Z -> Z -> string.
Variable overview : option OverviewData.
Notation amount value decimals digits := (admin_formatBigIntAmountDown formatUnits value decimals digits).

Definition reward_symbol : string := from_option ov_rewardTokenSymbol "FLUX" overview.
Definition reward_decimals : Z := from_option ov_rewardTokenDecimals 18 overview.
Definition event_count : Z := from_option ov_recentFarmEvents 0 overview + from_option ov_recentTreasuryEvents 0 overview.
(** [overview && p(overview)] *)
Definition holds (p : OverviewData -> bool) : bool := from_option p false overview.

Definition buildProtocolNodes : list ProtocolNode :=
  [{| nd_label := "农场";
      nd_value := dec (from_option ov_activePoolCount 0 overview) ++ "/" ++ dec (from_option ov_poolLength 0 overview);
      nd_detail := "总权重 " ++ from_option (fun o => dec (ov_totalAllocPoint o)) "0" overview;
      nd_tone := if holds (fun o => (0 <? ov_activePoolCount o) && (0 <? ov_totalAllocPoint o)) then success else warning;
      nd_href := "/farm" |};
   {| nd_label := "奖励";
      nd_value := amount (ov_totalPendingRewards <$> overview) reward_decimals 3%nat ++ " " ++ reward_symbol;
      nd_detail := "未分配 " ++ amount (ov_undistributedRewards <$> overview) reward_decimals 3%nat;
      nd_tone := if holds (fun o => 0 <? ov_treasuryApprovedSpendRemaining o) then success else warning;
      nd_href := "/farm" |};
   {| nd_label := "金库";
      nd_value := if holds ov_treasuryPaused then "已暂停" else "正常";
      nd_detail := "余额 " ++ amount (ov_treasuryRewardBalance <$> overview) reward_decimals 3%nat ++ " " ++ reward_symbol;
      nd_tone := if holds ov_treasuryPaused then danger else success;
      nd_href := "/treasury" |};
   {| nd_label := "代币";
      nd_value := dec (from_option ov_allowedTokenCount 0 overview) ++ "/" ++ dec (from_option ov_configuredTokenCount 0 overview);
      nd_detail := "白名单覆盖";
      nd_tone := if holds (fun o => (ov_configuredTokenCount o <=? ov_allowedTokenCount o) && (0 <? ov_configuredTokenCount o))
                 then success else warning;
      nd_href := "/tokens" |};
   {| nd_label := "操作"; nd_value := dec event_count; nd_detail := "最近 20,000 区块";
      nd_tone := if 0 <? event_count then success else neutral; nd_href := "/logs" |}].
End texts.

Definition item (title detail : string) (tone : Tone) : ActionItem :=
  {| ai_title := title; ai_detail := detail; ai_tone := tone |}.

Definition healthy_item : ActionItem :=
  item "当前没有明显待处理事项" "农场、奖励、金库和白名单状态目前都比较稳定。" success.

Definition problems (o : OverviewData) : list ActionItem :=
  ((if ov_activePoolCount o =? 0 then [item "暂无启用农场" "先创建并启用质押池，再进行奖励分发。" warning] else [])
   ++ (if ov_treasuryPaused o
       then [item "金库处于暂停状态" "暂停状态下，依赖金库的奖励拉取和业务执行都会受影响。" danger] else [])
   ++ (if ov_treasuryRewardBalance o <=? 0
       then [item "金库奖励余额为 0" ("需要补充 " ++ ov_rewardTokenSymbol o ++ " 后再分发。")%string warning] else [])
   ++ (if ov_treasuryApprovedSpendRemaining o <=? 0
       then [item "管理合约授权不足" "金库需要给管理合约配置可拉取额度。" warning] else [])
   ++ (if ov_allowedTokenCount o <? ov_configuredTokenCount o
       then [item "代币白名单未完全覆盖" "仍有配置代币未加入金库白名单。" warning] else []))%list.

Definition buildActionItems (overview : option OverviewData) : list ActionItem :=
  match overview with
  | None => [item "正在读取链上状态" "连接 RPC 后会生成图谱和待处理事项。" neutral]
  | Some o => match problems o with [] => [healthy_item] | items => items end
  end.

(** ** Texts *)

(** [toLocaleString], with the least and the most fraction digits. *)
Definition formatPercent (toLocaleString : num -> nat -> nat -> string) (value total : Z) : string :=
  if (value <=? 0) || (total <=? 0) then "0%"
  else
    let percent := num_div (num_of_Z (Z.quot (value * 10000) total)) (num_of_Z 100) in
    toLocaleString percent (if num_leb (num_of_Z 10) percent then 1%nat else 2%nat) 2%nat ++ "%".

(** [date_text] is [toLocaleString('zh-CN', ...)] of the date. *)
Definition formatDateTime (date_text : num -> string) (valueMs : option num) : string :=
  match valueMs with
  | Some v => if num_eqb v num_zero || negb (num_eqb v v) then "--" else date_text v
  | None => "--"
  end.
Definition formatAxisDateTime (date_text : num -> string) (valueMs : option num) : string := formatDateTime date_text valueMs.
Definition formatRefreshTime (time_text : num -> string) (value : option num) : string :=
  match value with Some v => time_text v | None => "尚未刷新" end.

Definition formatDuration (valueMs : num) : string :=
  let minute := 60 * 1000 in
  let hour := 60 * minute in
  let day := 24 * hour in
  let rounded unit_ms := num_to_string (num_max (num_of_Z 1) (num_round (num_div valueMs (num_of_Z unit_ms)))) in
  if num_leb valueMs num_zero then "不足 1 分钟"
  else if num_leb (num_of_Z day) valueMs then "约 " ++ rounded day ++ " 天"
  else if num_leb (num_of_Z hour) valueMs then "约 " ++ rounded hour ++ " 小时"
  else if num_leb (num_of_Z minute) valueMs then "约 " ++ rounded minute ++ " 分钟"
  else "约 " ++ rounded 1000 ++ " 秒".

(** ** The diagrams *)

(** [Math.PI] *)
Definition PI : num := S754_finite false 7074237752028440 (-51).
Definition circumference (radius : Z) : num := num_mul (num_mul (num_of_Z 2) PI) (num_of_Z radius).
(** [Number((value * BigInt(10_000)) / total) / 10_000] *)
Definition share_of (value total : Z) : num := num_div (num_of_Z (Z.quot (value * 10000) total)) (num_of_Z 10000).

Definition CHART_COLORS : list string :=
  ["#4f46e5"; "#059669"; "#d97706"; "#dc2626"; "#0891b2"; "#7c3aed"; "#475569"; "#be123c"].

Definition chart_color (index : nat) : string := nth (Nat.modulo index (length CHART_COLORS)) CHART_COLORS "".

(** The arcs of the ring of weights: where each starts and how long it is; [None] is the
    placeholder (FarmWeightDonut). *)
Definition segment_length (totalAllocPoint : Z) (slice : FarmWeightSlice) : num :=
  if 0 <? totalAllocPoint then num_mul (share_of (sl_allocPoint slice) totalAllocPoint) (circumference 64) else num_zero.

Definition weight_segments (overview : option OverviewData) : option (list (FarmWeightSlice * string * num * num)) :=
  let slices := from_option (fun o => take 7 (ov_farmWeightSlices o)) [] overview in
  let totalAllocPoint := from_option ov_totalAllocPoint 0 overview in
  let segmentLengths := segment_length totalAllocPoint <$> slices in
  if Nat.eqb (length slices) 0 || (totalAllocPoint <=? 0) then None
  else Some (imap (fun index slice =>
         (slice, chart_color index, nth index segmentLengths num_zero,
          foldl num_add num_zero (take index segmentLengths))) slices).

Section rings.
Variable formatUnits : Z -> Z -> string.
Variable overview : option OverviewData.

Record ring_item := { rg_label : string; rg_value : Z; rg_color : string; rg_radius : Z }.

Definition ring_items : list ring_item :=
  [{| rg_label := "金库余额"; rg_value := from_option ov_treasuryRewardBalance 0 overview; rg_color := "#4f46e5"; rg_radius := 68 |};
   {| rg_label := "已授权额度"; rg_value := from_option ov_treasuryApprovedSpendRemaining 0 overview; rg_color := "#059669";
      rg_radius := 50 |};
   {| rg_label := "待分发奖励"; rg_value := from_option ov_totalPendingRewards 0 overview; rg_color := "#d97706"; rg_radius := 32 |}].

Definition ring_max : Z := foldl (fun max r => if max <? rg_value r then rg_value r else max) 0 ring_items.

(** The offset that hides the rest of a ring, and its text (RewardCapacityRings). *)
Definition ring_offset (r : ring_item) : num :=
  let value := if 0 <? ring_max then share_of (rg_value r) ring_max else num_zero in
  num_sub (circumference (rg_radius r)) (num_mul value (circumference (rg_radius r))).
Definition ring_text (r : ring_item) : string :=
  admin_formatBigIntAmountDown formatUnits (Some (rg_value r)) (from_option ov_rewardTokenDecimals 18 overview) 4.
End rings.

(** The event map (OperationHeatmap). *)
Definition bucket_total (b : OperationBucket) : Z := bk_farm b + bk_treasury b.
Definition heat_max (buckets : list OperationBucket) : Z := foldl Z.max 1 (bucket_total <$> buckets).
Definition heat_columns (buckets : list OperationBucket) : Z := (Z.of_nat (length buckets) + 6) / 7.

Definition getCellClassName (maxValue total : Z) : string :=
  let ratio := num_div (num_of_Z total) (num_of_Z maxValue) in
  if total <=? 0 then "bg-slate-100"
  else if num_leb (num_of_decimal false 75 (-2)) ratio then "bg-emerald-600"
  else if num_leb (num_of_decimal false 45 (-2)) ratio then "bg-emerald-500"
  else if num_leb (num_of_decimal false 2 (-1)) ratio then "bg-emerald-300"
  else "bg-emerald-100".

Definition window_duration (w : OperationWindow) : num :=
  num_max (num_of_Z 1) (num_sub (ow_toTimeMs w) (ow_fromTimeMs w)).
Definition bucketDurationMs (o : OverviewData) : num :=
  if Nat.eqb (length (ov_operationBuckets o)) 0 then num_zero
  else num_div (window_duration (ov_operationWindow o)) (num_of_Z (Z.of_nat (length (ov_operationBuckets o)))).
Definition axisTicks (overview : option OverviewData) : list (string * num) :=
  match overview with
  | None => []
  | Some o =>
    let w := ov_operationWindow o in
    let at_share m e := num_add (ow_fromTimeMs w) (num_mul (window_duration w) (num_of_decimal false m e)) in
    [("开始", ow_fromTimeMs w); ("25%", at_share 25 (-2)); ("50%", at_share 5 (-1)); ("75%", at_share 75 (-2));
     ("最新", ow_toTimeMs w)]
  end.
Definition cell_title (date_text : num -> string) (bucket : OperationBucket) : string :=
  formatDateTime date_text (Some (bk_startTimeMs bucket)) ++ " - " ++ formatDateTime date_text (Some (bk_endTimeMs bucket))
  ++ "，区块 " ++ dec (bk_startBlock bucket) ++ " - " ++ dec (bk_endBlock bucket) ++ "：共 " ++ dec (bucket_total bucket)
  ++ " 条，农场 " ++ dec (bk_farm bucket) ++ " / 金库 " ++ dec (bk_treasury bucket).

(** The stages of the map of the protocol (ProtocolMap). *)
Definition node_by_label (label : string) (nodes : list ProtocolNode) : option ProtocolNode :=
  find_first (fun node => String.eqb (nd_label node) label) (rev nodes).
Definition core_node (tone : Tone) : ProtocolNode :=
  {| nd_label := "核心"; nd_value := match tone with success => "正常" | warning => "关注" | _ => "处理" end;
     nd_detail := match tone with success => "核心稳定" | warning => "需要关注" | _ => "等待处理" end;
     nd_tone := tone; nd_href := "/farm" |}.
Definition flowStages (nodes : list ProtocolNode) (tone : Tone) : list (string * string * option ProtocolNode * string) :=
  [("白名单资产", "资产准入", node_by_label "代币" nodes, "/tokens"); ("金库", "奖励授权", node_by_label "金库" nodes, "/treasury");
   ("管理合约", "核心分发", Some (core_node tone), "/farm"); ("农场池", "权重分发", node_by_label "农场" nodes, "/farm");
   ("奖励领取", "收益累积", node_by_label "奖励" nodes, "/farm")].

(** ** Reading the chain (useOverviewPageController.ts) *)

(** What the page is given (useOverviewPageEnvironment.ts). *)
Record overview_environment := {
  oe_chainId : Z;
  oe_publicClient : bool;
  oe_supportedChain : bool;
  oe_configuredTokens : list AdminTokenOption;
  oe_managerAddress : option string;
  oe_treasuryAddress : option string;
  oe_wrappedNativeAddress : option string;
}.

(** [contract] is [getContractAddress] on the chain. *)
Definition useOverviewPageEnvironment (chainId : Z) (publicClient supportedChain : bool) (contract : string -> option string)
    (getAdminTokenOptions : (string -> option string) -> list AdminTokenOption) : overview_environment :=
  {| oe_chainId := chainId; oe_publicClient := publicClient; oe_supportedChain := supportedChain;
     oe_configuredTokens := getAdminTokenOptions contract; oe_managerAddress := contract "FluxMultiPoolManager";
     oe_treasuryAddress := contract "FluxSwapTreasury"; oe_wrappedNativeAddress := contract "MockWETH" |}.

(** The node: the reads of contracts, the last block, the time of a block in seconds, and the
    blocks of a contract's events in a range. *)
Record overview_node := {
  on_reads : admin_node;
  on_getBlockNumber : res js_error Z;
  on_timestamp : Z -> res js_error Z;
  on_events : string -> string -> Z -> Z -> res js_error (list (option Z));
}.

Section load.
Variable nd : overview_node.
Variable env : overview_environment.
Notation reads := (on_reads nd).

Definition read_as_pair (phase : load_phase) (tokenAddress : string) : res js_error TokenMeta :=
  let site := at_site phase (step_as_pair tokenAddress) in
  let first := an_first reads site in
  res_bind (both first (both first (an_address reads site tokenAddress "token0" []) (an_address reads site tokenAddress "token1" []))
              (an_uint reads site tokenAddress "decimals" [])) (fun pair =>
  let '(token0, token1, decimals) := pair in
  let site := at_site phase (step_symbols tokenAddress) in
  res_bind (both (an_first reads site) (an_text reads site token0 "symbol" []) (an_text reads site token1 "symbol" [])) (fun symbols =>
  let normalizedToken0 := normalizeSymbol (fst symbols) token0 (oe_wrappedNativeAddress env) in
  let normalizedToken1 := normalizeSymbol (snd symbols) token1 (oe_wrappedNativeAddress env) in
  Ok {| tm_label := normalizedToken0 ++ " / " ++ normalizedToken1;
        tm_symbol := normalizedToken0 ++ "-" ++ normalizedToken1 ++ " LP"; tm_decimals := decimals |})).

Definition read_as_token (phase : load_phase) (tokenAddress : string) : TokenMeta :=
  let site := at_site phase (step_as_token tokenAddress) in
  let configured := find_first (fun token => sameAddress (Some (tk_address token)) (Some tokenAddress)) (oe_configuredTokens env) in
  {| tm_label := from_option tk_symbol (shortAddress (Some tokenAddress)) configured;
     tm_symbol := match fulfilled (an_text reads site tokenAddress "symbol" []) with
                  | Some s => normalizeSymbol s tokenAddress (oe_wrappedNativeAddress env)
                  | None => from_option tk_symbol "TOKEN" configured
                  end;
     tm_decimals := or_default (from_option tk_decimals 18 configured) (an_uint reads site tokenAddress "decimals" []) |}.

Definition readTokenMeta (phase : load_phase) (tokenAddress : string) : TokenMeta :=
  match read_as_pair phase tokenAddress with Ok meta => meta | Throw _ => read_as_token phase tokenAddress end.

(** A pool's row; what cannot be read of it is left open. *)
Definition read_slice (managerAddress : string) (index : Z) : res js_error FarmWeightSlice :=
  res_bind (an_entry reads (at_site (phase_pool index) step_state) managerAddress "pools" [ArgUint index]) (fun poolData =>
  let '(poolAddress, allocPoint, active, _, _) := poolData in
  let site := at_site (phase_pool index) step_numbers in
  Ok match both (an_first reads site) (an_address reads site poolAddress "stakingToken" [])
             (an_uint reads site poolAddress "totalStaked" []) with
     | Ok (stakingToken, totalStaked) =>
       let meta := readTokenMeta (phase_pool index) stakingToken in
       {| sl_label := tm_label meta; sl_poolAddress := poolAddress; sl_allocPoint := allocPoint; sl_active := active;
          sl_totalStaked := totalStaked; sl_stakingDecimals := tm_decimals meta; sl_stakingSymbol := tm_symbol meta |}
     | Throw _ =>
       {| sl_label := shortAddress (Some poolAddress); sl_poolAddress := poolAddress; sl_allocPoint := allocPoint;
          sl_active := active; sl_totalStaked := 0; sl_stakingDecimals := 18; sl_stakingSymbol := "TOKEN" |}
     end).

Definition active_slice (pool : FarmWeightSlice) : bool := sl_active pool && (0 <? sl_allocPoint pool).

(** The six reads the snapshot starts with, in their order. *)
Definition read_manager (managerAddress : string) : res js_error ((Z * Z) * (Z * Z) * (string * string)) :=
  let site := at_site phase_counters step_state in
  let first := an_first reads site in
  let manager_uint name := an_uint reads site managerAddress name [] in
  let manager_text name := an_address reads site managerAddress name [] in
  both first
    (both first (both first (manager_uint "poolLength") (manager_uint "totalAllocPoint"))
       (both first (manager_uint "totalPendingRewards") (manager_uint "undistributedRewards")))
    (both first (manager_text "rewardToken") (manager_text "treasury")).

Definition window_start (latestBlock : Z) : Z :=
  if RECENT_BLOCK_WINDOW <? latestBlock then latestBlock - RECENT_BLOCK_WINDOW else 0.

(** The times of the window's ends, in milliseconds; [nowMs] is [Date.now()]. *)
Definition latest_time (nowMs : num) (latestBlock : Z) : num :=
  match fulfilled (on_timestamp nd latestBlock) with
  | Some timestamp => num_mul (num_of_Z timestamp) (num_of_Z 1000)
  | None => nowMs
  end.
Definition from_time (nowMs : num) (latestBlock fromBlock : Z) : num :=
  match fulfilled (on_timestamp nd fromBlock) with
  | Some timestamp => num_mul (num_of_Z timestamp) (num_of_Z 1000)
  | None => num_sub (latest_time nowMs latestBlock)
              (num_mul (num_of_Z (latestBlock - fromBlock)) (num_of_Z FALLBACK_BLOCK_TIME_MS))
  end.

(** Events that cannot be read are none. *)
Definition events (contract name : string) (fromBlock latestBlock : Z) : list (option Z) :=
  or_default [] (on_events nd contract name fromBlock latestBlock).
Definition farm_events (managerAddress : string) (fromBlock latestBlock : Z) : list (option Z) :=
  (events managerAddress "PoolUpdated" fromBlock latestBlock ++ events managerAddress "RewardsDistributed" fromBlock latestBlock)%list.
Definition treasury_events (treasury : string) (fromBlock latestBlock : Z) : list (option Z) :=
  (events treasury "SpenderApproved" fromBlock latestBlock ++ events treasury "DailySpendCapUpdated" fromBlock latestBlock
   ++ events treasury "Paused" fromBlock latestBlock ++ events treasury "Unpaused" fromBlock latestBlock)%list.

Section order.
(** [left.localeCompare(right)] *)
Variable localeCompare : string -> string -> Z.
Definition slice_le (left right : FarmWeightSlice) : bool :=
  if sl_allocPoint left =? sl_allocPoint right then localeCompare (sl_label left) (sl_label right) <=? 0
  else sl_allocPoint right <? sl_allocPoint left.
End order.

Definition readOverview (localeCompare : string -> string -> Z) (nowMs : num) (managerAddress treasuryAddress : string)
  : res js_error OverviewData :=
  res_bind (read_manager managerAddress) (fun counters =>
  let '((poolLength, totalAllocPoint), (totalPendingRewards, undistributedRewards), (rewardTokenAddress, managerTreasuryAddress)) :=
    counters in
  let resolvedTreasuryAddress := if str_nonempty managerTreasuryAddress then managerTreasuryAddress else treasuryAddress in
  let rewardTokenMeta := readTokenMeta phase_reward rewardTokenAddress in
  res_bind (all_of (an_first reads (at_site phase_counters step_numbers)) (read_slice managerAddress <$> pids poolLength)) (fun poolRows =>
  let site := at_site phase_treasury step_state in
  let allowed token := or_default false (an_flag reads (at_site phase_treasury step_numbers) resolvedTreasuryAddress "allowedTokens"
                                           [ArgAddress (tk_address token)]) in
  res_bind (on_getBlockNumber nd) (fun latestBlock =>
  let fromBlock := window_start latestBlock in
  let fromTimeMs := from_time nowMs latestBlock fromBlock in
  let toTimeMs := latest_time nowMs latestBlock in
  let farmEvents := farm_events managerAddress fromBlock latestBlock in
  let treasuryEvents := treasury_events resolvedTreasuryAddress fromBlock latestBlock in
  Ok {| ov_poolLength := poolLength;
        ov_activePoolCount := Z.of_nat (length (keep active_slice poolRows));
        ov_totalAllocPoint := totalAllocPoint;
        ov_totalPendingRewards := totalPendingRewards;
        ov_undistributedRewards := undistributedRewards;
        ov_rewardTokenSymbol := tm_symbol rewardTokenMeta;
        ov_rewardTokenDecimals := tm_decimals rewardTokenMeta;
        ov_rewardTokenAddress := rewardTokenAddress;
        ov_treasuryAddress := resolvedTreasuryAddress;
        ov_treasuryPaused := or_default false (an_flag reads site resolvedTreasuryAddress "paused" []);
        ov_treasuryRewardBalance :=
          or_default 0 (an_uint reads site rewardTokenAddress "balanceOf" [ArgAddress resolvedTreasuryAddress]);
        ov_treasuryApprovedSpendRemaining :=
          or_default 0 (an_uint reads site resolvedTreasuryAddress "approvedSpendRemaining"
                          [ArgAddress rewardTokenAddress; ArgAddress managerAddress]);
        ov_configuredTokenCount := Z.of_nat (length (oe_configuredTokens env));
        ov_allowedTokenCount := Z.of_nat (length (keep allowed (oe_configuredTokens env)));
        ov_recentFarmEvents := Z.of_nat (length farmEvents);
        ov_recentTreasuryEvents := Z.of_nat (length treasuryEvents);
        ov_farmWeightSlices := sort_by (slice_le localeCompare) poolRows;
        ov_operationBuckets := buildOperationBuckets latestBlock fromBlock fromTimeMs toTimeMs farmEvents treasuryEvents;
        ov_operationWindow := {| ow_fromBlock := fromBlock; ow_toBlock := latestBlock; ow_fromTimeMs := fromTimeMs;
                                 ow_toTimeMs := toTimeMs |} |}))).
End load.

(** ** The page's state (useOverviewPageState.ts) *)

Record overview_page := {
  op_overview : option OverviewData;
  op_loading : bool;
  op_error : option string;
  op_lastUpdatedAt : option num;
}.

Definition initial_overview_page : overview_page :=
  {| op_overview := None; op_loading := false; op_error := None; op_lastUpdatedAt := None |}.

(** The addresses a load uses, or why it does not start. *)
Definition load_targets (env : overview_environment) : sum string (string * string) :=
  match oe_managerAddress env, oe_treasuryAddress env with
  | Some manager, Some treasury =>
    if oe_publicClient env && oe_supportedChain env && str_nonempty manager && str_nonempty treasury then inr (manager, treasury)
    else inl (if oe_supportedChain env then "当前网络缺少管理端合约配置，请检查部署和前端配置。"
              else "当前网络还未接入 FluxSwap 管理端。")
  | _, _ => inl (if oe_supportedChain env then "当前网络缺少管理端合约配置，请检查部署和前端配置。"
                 else "当前网络还未接入 FluxSwap 管理端。")
  end.

(** A load from its start to its end; [message] is [formatErrorMessage], [nowMs] and [updatedAt]
    the times it reads. *)
Definition loadOverview (message : js_error -> string) (localeCompare : string -> string -> Z) (nd : overview_node)
    (env : overview_environment) (nowMs updatedAt : num) (p : overview_page) : overview_page :=
  match load_targets env with
  | inl e => {| op_overview := None; op_loading := false; op_error := Some e; op_lastUpdatedAt := op_lastUpdatedAt p |}
  | inr (manager, treasury) =>
    match readOverview nd env localeCompare nowMs manager treasury with
    | Ok overview =>
      {| op_overview := Some overview; op_loading := false; op_error := None; op_lastUpdatedAt := Some updatedAt |}
    | Throw e =>
      {| op_overview := op_overview p; op_loading := false; op_error := Some (message e); op_lastUpdatedAt := op_lastUpdatedAt p |}
    end
  end.

(** ** Loading when the page is opened *)

Definition autoLoadKey (env : overview_environment) : string :=
  dec (oe_chainId env) ++ ":" ++ (if oe_supportedChain env then "true" else "false") ++ ":"
  ++ default "" (oe_managerAddress env) ++ ":" ++ default "" (oe_treasuryAddress env).

(** The key recorded by the effect, the timer it set, and the loads that timers started. *)
Record auto_load := { al_key : option string; al_timer : bool; al_loads : nat }.

Definition no_auto_load : auto_load := {| al_key := None; al_timer := false; al_loads := 0 |}.

(** A run of the effect, after the cleanup of its last run. *)
Definition auto_effect (env : overview_environment) (a : auto_load) : auto_load :=
  if bool_decide (al_key a = Some (autoLoadKey env)) then {| al_key := al_key a; al_timer := false; al_loads := al_loads a |}
  else {| al_key := Some (autoLoadKey env); al_timer := true; al_loads := al_loads a |}.

Definition timer_fires (a : auto_load) : auto_load :=
  if al_timer a then {| al_key := al_key a; al_timer := false; al_loads := S (al_loads a) |} else a.

(** ** What the page shows (app/page.tsx) *)

Section page_view.
Variable formatUnits : Z -> Z -> string.
Variable env : overview_environment.
Variable p : overview_page.
Notation amount value o := (admin_formatBigIntAmountDown formatUnits (Some value) (ov_rewardTokenDecimals o) 4).

Definition healthScore : Z := getHealthScore (op_overview p).
Definition healthTone : Tone := getToneByScore healthScore.
Definition hasContracts : bool := present (oe_managerAddress env) && present (oe_treasuryAddress env).
Definition showStatePlaceholder : bool := negb (op_loading p) && negb (bool_decide (is_Some (op_overview p))).

Definition banners : list string :=
  (match op_error p with Some e => if str_nonempty e then [e] else [] | None => [] end
   ++ (if oe_supportedChain env then [] else ["当前网络还未接入 FluxSwap 管理端，请切换到受支持网络后再查看。"])
   ++ (if oe_supportedChain env && negb hasContracts
       then ["当前网络缺少管理端合约地址配置，概览数据暂时无法加载。"] else []))%list.

(** The labels, values and helpers of the four cards. *)
Definition metric_cards : list (string * string * string) :=
  match op_overview p with
  | None => [("活跃农场", "--", "等待链上数据"); ("待分发奖励", "--", "等待链上数据"); ("可用授权", "--", "等待链上数据");
             ("白名单覆盖", "--", "等待链上数据")]
  | Some o =>
    [("活跃农场", dec (ov_activePoolCount o) ++ " / " ++ dec (ov_poolLength o), "总权重 " ++ dec (ov_totalAllocPoint o));
     ("待分发奖励", amount (ov_totalPendingRewards o) o ++ " " ++ ov_rewardTokenSymbol o,
      "未分配 " ++ amount (ov_undistributedRewards o) o ++ " " ++ ov_rewardTokenSymbol o);
     ("可用授权", amount (ov_treasuryApprovedSpendRemaining o) o ++ " " ++ ov_rewardTokenSymbol o,
      if ov_treasuryPaused o then "当前金库已暂停" else "当前金库状态正常");
     ("白名单覆盖", dec (ov_allowedTokenCount o) ++ " / " ++ dec (ov_configuredTokenCount o),
      "最近窗口 " ++ dec (event_count (Some o)) ++ " 条管理动作")]
  end.

Definition approval_class : string :=
  match op_overview p with
  | Some o => if ov_treasuryPaused o || (ov_treasuryApprovedSpendRemaining o <=? 0) then "text-amber-700" else "text-emerald-700"
  | None => "text-slate-950"
  end.

Definition is_tone (tone : Tone) (i : ActionItem) : bool :=
  match ai_tone i, tone with success, success | warning, warning | danger, danger | neutral, neutral => true | _, _ => false end.
Definition actions_tone : Tone :=
  let actionItems := buildActionItems (op_overview p) in
  if existsb (is_tone danger) actionItems then danger
  else if existsb (is_tone warning) actionItems then warning else success.
End page_view.

(** ** Every event in one cell *)

(** The events of a cell. *)
Definition within (b : OperationBucket) (event : option Z) : bool :=
  match event with Some block => (bk_startBlock b <=? block) && (block <=? bk_endBlock b) | None => false end.
Definition in_window (fromBlock latestBlock : Z) (event : option Z) : Prop :=
  exists block, event = Some block /\ fromBlock <= block <= latestBlock.
Definition total (f : OperationBucket -> Z) (l : list OperationBucket) : Z := foldr (fun b n => f b + n) 0 l.
Definition scope_count (scope : event_scope) : OperationBucket -> Z :=
  match scope with scope_farm => bk_farm | scope_treasury => bk_treasury end.

Lemma bucket_size_pos latest from : 0 < bucket_size latest from.
Proof.
  unfold bucket_size. change bucket_count with 280. cbv zeta.
  destruct (Z.leb_spec from latest); [|done].
  pose proof (Z.quot_pos (latest - from + 1) 280 ltac:(lia) ltac:(lia)).
  destruct (Z.eqb_spec (Z.quot (latest - from + 1) 280) 0); lia.
Qed.

Lemma bucket_index_lt latest from block : (bucket_index latest from block < OPERATION_BUCKET_COUNT)%nat.
Proof. unfold bucket_index. change bucket_count with 280. change OPERATION_BUCKET_COUNT with (Z.to_nat 280). lia. Qed.

(** The cell with a number holds the blocks between its ends. *)
Lemma bucket_index_within latest from ft tt block i :
  from <= block <= latest -> (i < OPERATION_BUCKET_COUNT)%nat ->
  within (empty_bucket latest from ft tt i) (Some block) = bool_decide (bucket_index latest from block = i).
Proof.
  intros Hb Hi. pose proof (bucket_size_pos latest from) as Hs. cbn [within bk_startBlock bk_endBlock empty_bucket].
  unfold bucket_index. set (s := bucket_size latest from) in *. change bucket_count with 280.
  change OPERATION_BUCKET_COUNT with 280%nat in *.
  rewrite Z.quot_div_nonneg by lia.
  pose proof (Z.div_mod (block - from) s ltac:(lia)) as Hd. pose proof (Z.mod_pos_bound (block - from) s Hs) as Hm.
  pose proof (Z.div_pos (block - from) s ltac:(lia) Hs) as Hq.
  set (q := (block - from) / s) in *. set (r := (block - from) mod s) in *. clearbody q r.
  replace (Z.max 0 (Z.min (280 - 1) q)) with (Z.min 279 q) by lia.
  apply Bool.eq_iff_eq_true. rewrite andb_true_iff, !Z.leb_le, bool_decide_eq_true.
  destruct (Nat.eqb_spec (280 - i - 1) 0) as [E|E].
  - assert (i = 279%nat) as -> by lia. split; [intros [? _]|intros]; nia.
  - split; [intros [? ?]|intros H]; [|subst i; rewrite Z2Nat.id in * by lia; nia].
    assert (q = Z.of_nat i) by nia. lia.
Qed.

Definition adds (latest from : Z) (i : nat) (event : option Z) : bool :=
  match event with Some block => negb (block <? from) && bool_decide (bucket_index latest from block = i) | None => false end.

Lemma apply_lookup latest from scope buckets event i :
  applyEvent latest from scope buckets event !! i
  = (if adds latest from i event then count_in scope else fun b => b) <$> buckets !! i.
Proof.
  unfold applyEvent, adds. destruct event as [block|]; [|by rewrite option_fmap_id].
  destruct (block <? from); cbn [negb andb]; [by rewrite option_fmap_id|].
  destruct (bool_decide_reflect (bucket_index latest from block = i)) as [->|Hne]; [apply list_lookup_alter_eq|].
  by rewrite list_lookup_alter_ne, option_fmap_id.
Qed.

Definition add_counts (scope : event_scope) (n : Z) (b : OperationBucket) : OperationBucket :=
  {| bk_label := bk_label b; bk_startBlock := bk_startBlock b; bk_endBlock := bk_endBlock b;
     bk_startTimeMs := bk_startTimeMs b; bk_endTimeMs := bk_endTimeMs b;
     bk_farm := match scope with scope_farm => bk_farm b + n | scope_treasury => bk_farm b end;
     bk_treasury := match scope with scope_farm => bk_treasury b | scope_treasury => bk_treasury b + n end |}.

Lemma add_counts_0 scope b : add_counts scope 0 b = b.
Proof. destruct scope, b; unfold add_counts; cbn; f_equal; lia. Qed.

Lemma add_counts_in scope n b : add_counts scope n (count_in scope b) = add_counts scope (1 + n) b.
Proof. destruct scope, b; unfold add_counts, count_in; cbn; f_equal; lia. Qed.

(** Counting a list of events adds to each cell as many as there are in it. *)
Lemma fold_lookup latest from scope evs buckets i :
  foldl (applyEvent latest from scope) buckets evs !! i
  = add_counts scope (Z.of_nat (length (keep (adds latest from i) evs))) <$> buckets !! i.
Proof.
  revert buckets. induction evs as [|event evs IH]; intros buckets; cbn [foldl keep length].
  - destruct (buckets !! i) as [b|]; [|done]. cbn. by rewrite add_counts_0.
  - rewrite IH, apply_lookup. destruct (adds latest from i event); [|by rewrite option_fmap_id].
    destruct (buckets !! i) as [b|]; [|done]. cbn [fmap option_fmap option_map length]. f_equal. rewrite add_counts_in. f_equal. lia.
Qed.

Lemma built_lookup latest from ft tt farm treasury i :
  (i < OPERATION_BUCKET_COUNT)%nat ->
  buildOperationBuckets latest from ft tt farm treasury !! i
  = Some (add_counts scope_treasury (Z.of_nat (length (keep (adds latest from i) treasury)))
            (add_counts scope_farm (Z.of_nat (length (keep (adds latest from i) farm))) (empty_bucket latest from ft tt i))).
Proof.
  intros Hi. unfold buildOperationBuckets. rewrite !fold_lookup, list_lookup_fmap, lookup_seq_lt by done. done.
Qed.

Lemma adds_within latest from ft tt i evs :
  (i < OPERATION_BUCKET_COUNT)%nat -> Forall (in_window from latest) evs ->
  keep (adds latest from i) evs = keep (within (empty_bucket latest from ft tt i)) evs.
Proof.
  intros Hi. induction 1 as [|event evs (block & -> & Hb) _ IH]; [done|]. cbn [keep]. rewrite IH.
  rewrite bucket_index_within by done. cbn [adds]. by replace (block <? from) with false by lia.
Qed.

(** Counting an event adds one to the cells as a whole. *)
Lemma total_alter scope l i :
  (i < length l)%nat -> total (scope_count scope) (alter (count_in scope) i l) = total (scope_count scope) l + 1.
Proof.
  revert i. induction l as [|b l IH]; intros [|i] Hi; cbn [length] in Hi; [lia..| |].
  - cbn. destruct scope; cbn; lia.
  - change (alter (count_in scope) (S i) (b :: l)) with (b :: alter (count_in scope) i l). cbn [total foldr].
    fold (total (scope_count scope) l). fold (total (scope_count scope) (alter (count_in scope) i l)).
    rewrite IH by lia. lia.
Qed.

Lemma other_alter scope other l i : scope <> other -> total (scope_count other) (alter (count_in scope) i l) = total (scope_count other) l.
Proof.
  intros Hne. revert i. induction l as [|b l IH]; intros [|i]; [done..| |].
  - destruct scope, other; done.
  - change (alter (count_in scope) (S i) (b :: l)) with (b :: alter (count_in scope) i l). cbn [total foldr].
    f_equal. apply IH.
Qed.

Lemma fold_total latest from scope evs buckets :
  length buckets = OPERATION_BUCKET_COUNT -> Forall (in_window from latest) evs ->
  let after := foldl (applyEvent latest from scope) buckets evs in
  length after = OPERATION_BUCKET_COUNT
  /\ total (scope_count scope) after = total (scope_count scope) buckets + Z.of_nat (length evs)
  /\ forall other, scope <> other -> total (scope_count other) after = total (scope_count other) buckets.
Proof.
  intros Hl Hevs. revert buckets Hl. induction Hevs as [|event evs (block & -> & Hb) _ IH]; intros buckets Hl; cbn [foldl].
  - split_and!; [done|cbn; lia|done].
  - cbn [applyEvent]. replace (block <? from) with false by lia.
    pose proof (bucket_index_lt latest from block) as Hi. rewrite <- Hl in Hi.
    destruct (IH (alter (count_in scope) (bucket_index latest from block) buckets)) as (H1 & H2 & H3); [by rewrite length_alter|].
    split_and!; [done| |].
    + rewrite H2, total_alter by done. cbn [length]. lia.
    + intros other Hne. rewrite H3 by done. by apply other_alter.
Qed.

Lemma empty_total latest from ft tt scope n k : total (scope_count scope) (empty_bucket latest from ft tt <$> seq k n) = 0.
Proof. revert k. induction n as [|n IH]; intros k; [done|]. cbn [seq fmap list_fmap total foldr]. by destruct scope; cbn; apply IH. Qed.

(** The event map counts every event once, where it happened.  The cells cover the window's
    blocks without gap or overlap, in order and up to the last block, and their times follow on
    from one another; each cell shows as many farm and treasury events as happened in its
    blocks, and the cells together as many as there were. *)
Theorem event_map latest from ft tt farm treasury :
  from <= latest -> Forall (in_window from latest) farm -> Forall (in_window from latest) treasury ->
  let cells := buildOperationBuckets latest from ft tt farm treasury in
  length cells = OPERATION_BUCKET_COUNT
  /\ (forall i b, cells !! i = Some b ->
        bk_farm b = Z.of_nat (length (keep (within b) farm)) /\ bk_treasury b = Z.of_nat (length (keep (within b) treasury))
        /\ (i = 0%nat -> bk_startBlock b = from) /\ (S i = OPERATION_BUCKET_COUNT -> bk_endBlock b = latest /\ bk_endTimeMs b = tt))
  /\ (forall i b c, cells !! i = Some b -> cells !! S i = Some c ->
        bk_startBlock c = bk_endBlock b + 1 /\ bk_startTimeMs c = bk_endTimeMs b)
  /\ total bk_farm cells = Z.of_nat (length farm) /\ total bk_treasury cells = Z.of_nat (length treasury).
Proof.
  intros Hle Hf Ht cells.
  destruct (fold_total latest from scope_farm farm (empty_bucket latest from ft tt <$> seq 0 OPERATION_BUCKET_COUNT))
    as (F1 & F2 & F3); [by rewrite length_fmap, length_seq|done|].
  destruct (fold_total latest from scope_treasury treasury _ F1 Ht) as (T1 & T2 & T3).
  assert (forall i b, cells !! i = Some b -> (i < OPERATION_BUCKET_COUNT)%nat) as Hlt.
  { intros i b Hi. apply lookup_lt_Some in Hi. by rewrite <- T1. }
  split_and!; [done| | | |].
  - intros i b Hb. pose proof (Hlt i b Hb) as Hi. unfold cells in Hb. rewrite built_lookup in Hb by done. injection Hb as <-.
    rewrite !(adds_within latest from ft tt) by done. split_and!; [done..|intros ->; cbn; lia|].
    intros E. cbn [add_counts bk_endBlock bk_endTimeMs empty_bucket]. rewrite <- E. by replace (S i - i - 1)%nat with 0%nat by lia.
  - intros i b c Hb Hc. pose proof (Hlt i b Hb) as Hi. pose proof (Hlt _ c Hc) as Hi'. unfold cells in *.
    rewrite built_lookup in Hb, Hc by done. injection Hb as <-. injection Hc as <-.
    cbn [add_counts bk_startBlock bk_endBlock bk_startTimeMs bk_endTimeMs empty_bucket].
    replace (Nat.eqb (OPERATION_BUCKET_COUNT - i - 1) 0) with false by (symmetry; apply Nat.eqb_neq; lia).
    split; [lia|]. f_equal. lia.
  - unfold cells, buildOperationBuckets. pose proof (T3 scope_farm ltac:(done)) as T3f. cbn [scope_count] in T3f, F2. rewrite T3f, F2.
    pose proof (empty_total latest from ft tt scope_farm OPERATION_BUCKET_COUNT 0) as E0. cbn [scope_count] in E0. rewrite E0. lia.
  - unfold cells, buildOperationBuckets. cbn [scope_count] in T2. rewrite T2.
    pose proof (F3 scope_treasury ltac:(done)) as F3t. cbn [scope_count] in F3t. rewrite F3t.
    pose proof (empty_total latest from ft tt scope_treasury OPERATION_BUCKET_COUNT 0) as E0. cbn [scope_count] in E0. rewrite E0. lia.
Qed.

(** A window of 1,000 blocks, three farm events and one of the treasury. *)
Definition sample_cells : list OperationBucket :=
  buildOperationBuckets 1999 1000 num_zero (num_of_Z 2000000) [Some 1000; Some 1005; Some 1999] [Some 1004].

Lemma event_map_witness :
  length sample_cells = OPERATION_BUCKET_COUNT /\ total bk_farm sample_cells = 3 /\ total bk_treasury sample_cells = 1
  /\ ((fun b => (bk_startBlock b, bk_endBlock b, bk_farm b, bk_treasury b)) <$> sample_cells !! 1%nat) = Some (1003, 1005, 1, 1).
Proof.
  destruct (event_map 1999 1000 num_zero (num_of_Z 2000000) [Some 1000; Some 1005; Some 1999] [Some 1004])
    as (H1 & _ & _ & H4 & H5); [lia|repeat (constructor; [eexists; split; [reflexivity|lia]|]); constructor..|].
  split_and!; [exact H1|exact H4|exact H5|vm_compute; reflexivity].
Defined.

(** The cells have the same number of blocks each, but for the last, and the same share of the
    time.  In a window with fewer blocks than cells, an event of the last block is shown in a
    cell of the window's beginning, labelled with a time long past. *)
Lemma young_chain :
  let cells := buildOperationBuckets 9 0 num_zero (num_of_Z 280000) [Some 9] [] in
  ((fun b => (bk_label b, bk_farm b, num_integral (bk_endTimeMs b))) <$> cells !! 9%nat) = Some ("-270", 1, Some 10000)
  /\ ((fun b => (bk_label b, bk_farm b, num_integral (bk_endTimeMs b))) <$> cells !! 279%nat) = Some ("最新", 0, Some 280000).
Proof. split; vm_compute; reflexivity. Qed.

(** ** The score and the items *)

(** The score is full exactly when there is nothing to act on, where the weights in total are
    none exactly when no pool is active. *)
Lemma healthy_score o :
  (ov_activePoolCount o = 0 <-> ov_totalAllocPoint o <= 0) ->
  (getHealthScore (Some o) = 100 <-> buildActionItems (Some o) = [healthy_item]).
Proof.
  intros Hc. cbn [getHealthScore buildActionItems]. unfold problems, clampScore, healthy_item, item.
  destruct (Z.eqb_spec (ov_activePoolCount o) 0), (Z.leb_spec (ov_totalAllocPoint o) 0); try lia;
    destruct (ov_treasuryPaused o), (ov_treasuryRewardBalance o <=? 0), (ov_treasuryApprovedSpendRemaining o <=? 0),
      (ov_allowedTokenCount o <? ov_configuredTokenCount o); cbn; split; (done || discriminate).
Qed.

(** A paused treasury, or no active pool, is not shown as success. *)
Lemma unhealthy_tone o :
  ov_treasuryPaused o = true \/ ov_activePoolCount o = 0 -> getToneByScore (getHealthScore (Some o)) <> success.
Proof.
  intros H. cbn [getHealthScore]. unfold getToneByScore, clampScore.
  assert (forall b n, 0 <= n -> 0 <= (if b : bool then n else 0)) as Hn by (intros [] n ?; lia).
  assert (100 - (if ov_activePoolCount o =? 0 then 30 else 0) - (if ov_totalAllocPoint o <=? 0 then 20 else 0)
                - (if ov_treasuryPaused o then 30 else 0) - (if ov_treasuryRewardBalance o <=? 0 then 18 else 0)
                - (if ov_treasuryApprovedSpendRemaining o <=? 0 then 18 else 0)
                - (if ov_allowedTokenCount o <? ov_configuredTokenCount o then 10 else 0) <= 70) as Hs.
  { pose proof (Hn (ov_totalAllocPoint o <=? 0) 20). pose proof (Hn (ov_treasuryRewardBalance o <=? 0) 18).
    pose proof (Hn (ov_treasuryApprovedSpendRemaining o <=? 0) 18).
    pose proof (Hn (ov_allowedTokenCount o <? ov_configuredTokenCount o) 10).
    destruct H as [->| ->]; [pose proof (Hn (ov_activePoolCount o =? 0) 30)|pose proof (Hn (ov_treasuryPaused o) 30)]; cbn [Z.eqb]; lia. }
  destruct (Z.leb_spec 80 (Z.max 0 (Z.min 100 (100 - (if ov_activePoolCount o =? 0 then 30 else 0) - (if ov_totalAllocPoint o <=? 0 then 20 else 0)
                - (if ov_treasuryPaused o then 30 else 0) - (if ov_treasuryRewardBalance o <=? 0 then 18 else 0)
                - (if ov_treasuryApprovedSpendRemaining o <=? 0 then 18 else 0)
                - (if ov_allowedTokenCount o <? ov_configuredTokenCount o then 10 else 0))))); [lia|].
  by destruct (55 <=? _).
Qed.

(** ** What a load reads *)

(** A node that answers no request for events of more than [limit] blocks shows no event as
    soon as the chain has as many blocks, and the load reports no error. *)
Lemma limited_node_shows_none nd env lc nowMs manager treasury limit o :
  limit <= RECENT_BLOCK_WINDOW ->
  (forall contract name from latest, limit < latest - from + 1 -> exists e, on_events nd contract name from latest = Throw e) ->
  readOverview nd env lc nowMs manager treasury = Ok o -> limit <= ow_toBlock (ov_operationWindow o) ->
  ov_recentFarmEvents o = 0 /\ ov_recentTreasuryEvents o = 0 /\ total bk_farm (ov_operationBuckets o) = 0
  /\ total bk_treasury (ov_operationBuckets o) = 0.
Proof.
  intros Hlimit Hnode H Hblock. unfold readOverview in H.
  apply res_bind_Ok in H as ([[[len tot] [pend und]] [rt mt]] & _ & H). apply res_bind_Ok in H as (rows & _ & H).
  apply res_bind_Ok in H as (latest & _ & H). injection H as <-.
  cbn [ov_recentFarmEvents ov_recentTreasuryEvents ov_operationBuckets ov_operationWindow ow_toBlock] in *.
  assert (forall contract name, events nd contract name (window_start latest) latest = []) as He.
  { intros contract name. unfold events.
    destruct (Hnode contract name (window_start latest) latest) as [e ->]; [|done].
    unfold window_start. destruct (Z.ltb_spec RECENT_BLOCK_WINDOW latest); lia. }
  unfold farm_events, treasury_events, buildOperationBuckets. rewrite !He. cbn [app foldl].
  split; [reflexivity|]. split; [reflexivity|]. split; [eapply (empty_total _ _ _ _ scope_farm)|eapply (empty_total _ _ _ _ scope_treasury)].
Qed.

(** ** Loading when the page is opened *)

(** An effect that runs again with the same key before its timer fires has no load left. *)
Lemma rerun_loads_nothing env a :
  let b := timer_fires (auto_effect env (auto_effect env a)) in
  al_timer b = false /\ al_loads b = al_loads a /\ forall c, c = auto_effect env b -> timer_fires c = c.
Proof.
  unfold auto_effect. destruct (bool_decide_reflect (al_key a = Some (autoLoadKey env))) as [E|E].
  - rewrite (bool_decide_eq_true_2 (al_key _ = _)) by done. cbn. split_and!; [done..|]. intros c ->. by rewrite bool_decide_eq_true_2.
  - cbn [al_key]. rewrite bool_decide_eq_true_2 by done. cbn. split_and!; [done..|]. intros c ->. by rewrite bool_decide_eq_true_2.
Qed.

(** Without that, every change of the chain or of its contracts loads once. *)
Lemma key_change_loads env a :
  al_key a <> Some (autoLoadKey env) ->
  let b := timer_fires (auto_effect env a) in al_loads b = S (al_loads a) /\ al_key b = Some (autoLoadKey env).
Proof. intros H. unfold auto_effect. by rewrite bool_decide_eq_false_2. Qed.
