(* ===== verification/OverviewChain.v ===== *)
(** * The overview of the manager's contract

    What the overview shows of a manager (ManagerContract.v) with any history: the weights it
    adds up, the pools it counts, the arcs of the ring, and when it finds nothing to do. *)

From S2P Require Import Prelude JsString JsNumber JsValue JsError JsSort PageMonad RouterContract ManagerContract ManagerRewards.
From Stdlib Require Import Sorting.Sorted.
From S2P Require TreasuryForms Farms FarmAdmin Overview.
Import TreasuryForms(AdminTokenOption).
Import Farms(all_of_Ok, both_Ok, pids).
Import FarmAdmin(admin_node, Build_admin_node, an_uint, an_entry).
Import Overview.
Open Scope string_scope.
Open Scope Z_scope.

Section shown.
Variable m : manager.

(** What the node answers about the manager at [manager]. *)
Record node_counts (nd : admin_node) (manager : string) : Prop := {
  nc_length site n : an_uint nd site manager "poolLength" [] = Ok n -> n = Z.of_nat (length (pools m));
  nc_total site n : an_uint nd site manager "totalAllocPoint" [] = Ok n -> n = totalAllocPoint m;
  nc_pool site pid pool alloc active debt pending :
    an_entry nd site manager "pools" [ArgUint pid] = Ok (pool, alloc, active, debt, pending) ->
    exists p, pools m !! Z.to_nat pid = Some p /\ alloc = pi_allocPoint p /\ active = pi_active p;
}.

(** A slice shows a pool. *)
Definition slice_of (p : PoolInfo) (slice : FarmWeightSlice) : Prop :=
  sl_allocPoint slice = pi_allocPoint p /\ sl_active slice = pi_active p.

Definition slice_weight (slice : FarmWeightSlice) : Z := if sl_active slice then sl_allocPoint slice else 0.

Lemma read_slice_of nd env manager pid slice :
  node_counts (on_reads nd) manager -> read_slice nd env manager pid = Ok slice ->
  exists p, pools m !! Z.to_nat pid = Some p /\ slice_of p slice.
Proof.
  intros Hn H. unfold read_slice in H. apply res_bind_Ok in H as ([[[[pool alloc] active] debt] pending] & He & H).
  apply (nc_pool _ _ Hn) in He as (p & Hp & -> & ->). exists p. split; [done|].
  injection H as <-. destruct (Farms.both _ _ _) as [[token staked]|e]; done.
Qed.

Lemma slices_of nd env manager first rows :
  node_counts (on_reads nd) manager ->
  Farms.all_of first (read_slice nd env manager <$> pids (Z.of_nat (length (pools m)))) = Ok rows ->
  Forall2 slice_of (pools m) rows.
Proof.
  intros Hn H. apply all_of_Ok in H. unfold pids in H. rewrite Nat2Z.id in H. apply Forall2_fmap_l in H.
  apply Forall2_same_length_lookup. pose proof (Forall2_length _ _ _ H) as Hl. rewrite length_seq in Hl. split; [done|].
  intros i p slice Hp Hs. rewrite Forall2_lookup in H. specialize (H i). rewrite Hs in H.
  inversion H as [x y Hxy Hx Hy|]; subst. symmetry in Hx. apply lookup_seq in Hx as [-> _]. cbn in Hxy.
  destruct (read_slice_of nd env manager _ slice Hn Hxy) as (q & Hq & Hqs). rewrite Nat2Z.id in Hq. congruence.
Qed.

Lemma slices_weigh l rows : Forall2 slice_of l rows -> sum_by weight l = sum_by slice_weight rows.
Proof. induction 1 as [|p slice l rows [Ha Hb] _ IH]; [done|]. cbn [sum_by]. rewrite IH. unfold weight, slice_weight. by rewrite Ha, Hb. Qed.

Lemma slices_count l rows : Forall2 slice_of l rows -> length (keep active_slice rows) = length (keep counts l).
Proof.
  induction 1 as [|p slice l rows [Ha Hb] _ IH]; [done|]. cbn [keep]. unfold active_slice at 1, counts at 1. rewrite Ha, Hb.
  destruct (pi_active p && (0 <? pi_allocPoint p)); cbn [length]; lia.
Qed.
End shown.

Lemma sum_by_perm {A} (f : A -> Z) l l' : l ≡ₚ l' -> sum_by f l = sum_by f l'.
Proof. induction 1; cbn; lia. Qed.

Lemma keep_length_perm {A} (p : A -> bool) l l' : l ≡ₚ l' -> length (keep p l) = length (keep p l').
Proof. induction 1 as [|a l l' _ IH|a b l|l1 l2 l3 _ IH1 _ IH2]; cbn [keep]; [done| | |congruence]; repeat destruct (p _); cbn; lia. Qed.

Lemma no_weight acc l : Forall (pool_ok acc) l -> (length (keep counts l) = 0%nat <-> sum_by weight l <= 0).
Proof.
  intros H. assert (0 <= sum_by weight l) as Hpos.
  { clear - H. induction H as [|p l Hp _ IH]; cbn; [lia|]. pose proof (weight_nonneg acc p Hp). lia. }
  induction H as [|p l Hp Hl IH]; [done|]. cbn [keep sum_by] in *. pose proof (weight_nonneg acc p Hp) as Hw.
  assert (0 <= sum_by weight l) as Hpos'.
  { clear - Hl. induction Hl as [|q l Hq _ IH]; cbn; [lia|]. pose proof (weight_nonneg acc q Hq). lia. }
  specialize (IH Hpos'). pose proof (po_alloc _ _ Hp) as Ha. rewrite (counts_weight p Ha) in *. unfold counts in *.
  destruct (pi_active p); cbn [andb] in *; [|lia]. destruct (Z.ltb_spec 0 (pi_allocPoint p)); cbn [length]; lia.
Qed.

Lemma slices_ordered lc l : StronglySorted (fun a b => sl_allocPoint b <= sl_allocPoint a) (sort_by (slice_le lc) l).
Proof.
  apply sort_by_weights; intros a b; unfold slice_le;
    destruct (Z.eqb_spec (sl_allocPoint a) (sl_allocPoint b)), (Z.ltb_spec (sl_allocPoint b) (sl_allocPoint a)); done || lia.
Qed.

(** The overview of a manager with any history.  What it loads adds up: the weight of the
    active pools it lists is the total it shows, the pools come in the order of their weights,
    and the score is a hundred exactly when the list of things to do says that there are
    none. *)
Theorem overview_of_manager token n m nd env lc nowMs manager treasury o :
  manager_run token n m -> node_counts m (on_reads nd) manager ->
  readOverview nd env lc nowMs manager treasury = Ok o ->
  ov_totalAllocPoint o = sum_by slice_weight (ov_farmWeightSlices o)
  /\ ov_activePoolCount o = Z.of_nat (length (keep active_slice (ov_farmWeightSlices o)))
  /\ length (ov_farmWeightSlices o) = length (pools m)
  /\ StronglySorted (fun a b => sl_allocPoint b <= sl_allocPoint a) (ov_farmWeightSlices o)
  /\ (getHealthScore (Some o) = 100 <-> buildActionItems (Some o) = [healthy_item]).
Proof.
  intros Hrun Hn H. pose proof (proj2 (manager_run_sound _ _ _ Hrun)) as Hs. unfold readOverview in H.
  apply res_bind_Ok in H as ([[[len tot] [pend und]] [rt mt]] & Hc & H). apply res_bind_Ok in H as (rows & Hrows & H).
  apply res_bind_Ok in H as (latest & _ & H). unfold read_manager in Hc.
  repeat match goal with Hb : Farms.both _ _ _ = Ok _ |- _ => apply both_Ok in Hb as [? ?] end.
  match goal with Hl : an_uint _ _ _ "poolLength" _ = _ |- _ => apply (nc_length _ _ _ Hn) in Hl as -> end.
  match goal with Ht : an_uint _ _ _ "totalAllocPoint" _ = _ |- _ => apply (nc_total _ _ _ Hn) in Ht as -> end.
  apply (slices_of m nd env manager _ _ Hn) in Hrows as Hr.
  assert (sort_by (slice_le lc) rows ≡ₚ rows) as Hp by apply sort_by_perm.
  injection H as <-. cbn [ov_totalAllocPoint ov_farmWeightSlices ov_activePoolCount].
  rewrite (so_weights _ _ Hs), (slices_weigh _ _ Hr). split_and!.
  - symmetry. by apply sum_by_perm.
  - by rewrite (keep_length_perm active_slice _ _ Hp).
  - rewrite (Permutation_length Hp). symmetry. by eapply Forall2_length.
  - apply slices_ordered.
  - apply healthy_score. cbn [ov_totalAllocPoint ov_activePoolCount]. rewrite (slices_count _ _ Hr), <- (slices_weigh _ _ Hr).
    rewrite <- (no_weight _ _ (so_pools _ _ Hs)). lia.
Qed.

(** *** An instance *)

(** The manager of ManagerRewards.v with its two pools, and a treasury without tokens. *)
Definition overview_reads : admin_node :=
  let named {A} (l : list (string * A)) (d : A) name := default d (list_to_map (M := gmap string A) l !! name) in
  {| an_uint := fun _ _ name _ => Ok (named [("poolLength", 2); ("totalAllocPoint", 3)] 0 name);
     FarmAdmin.an_address := fun _ _ name _ => Ok (named [("rewardToken", "0x64"); ("treasury", "0x2")] "0x65" name);
     FarmAdmin.an_text := fun _ _ _ _ => Ok "FLUX";
     FarmAdmin.an_flag := fun _ _ _ _ => Ok false;
     an_entry := fun _ _ _ args =>
       match args with
       | [ArgUint 0] => Ok ("0xb", 1, true, 0, 0)
       | [ArgUint 1] => Ok ("0xc", 2, true, 0, 0)
       | _ => Throw (Error "no such pool")
       end;
     FarmAdmin.an_first := fun _ _ => Error "read" |}.

Definition overview_sample_node : overview_node :=
  {| on_reads := overview_reads; on_getBlockNumber := Ok 9; on_timestamp := fun block => Ok (1700000000 + 12 * block);
     on_events := fun _ name _ _ => if String.eqb name "PoolUpdated" then Ok [Some 4; Some 9] else Ok [] |}.

Definition overview_sample_environment : overview_environment :=
  {| oe_chainId := 31337; oe_publicClient := true; oe_supportedChain := true; oe_configuredTokens := [];
     oe_managerAddress := Some "0x5"; oe_treasuryAddress := Some "0x2"; oe_wrappedNativeAddress := None |}.

Lemma overview_sample_counts : node_counts sample_books overview_reads "0x5".
Proof.
  split.
  - intros site n H. vm_compute in H. injection H as <-. vm_compute. reflexivity.
  - intros site n H. vm_compute in H. injection H as <-. vm_compute. reflexivity.
  - intros site [|[p|p|]|p] pool alloc active debt pending H; cbn in H; try discriminate H;
      injection H as <- <- <- <- <-; eexists; (split; [vm_compute; reflexivity|split; reflexivity]).
Qed.

Lemma overview_of_manager_witness :
  exists o, readOverview overview_sample_node overview_sample_environment (fun _ _ => 0) num_zero "0x5" "0x2" = Ok o
    /\ ov_totalAllocPoint o = 3 /\ sum_by slice_weight (ov_farmWeightSlices o) = 3
    /\ (sl_poolAddress <$> ov_farmWeightSlices o) = ["0xc"; "0xb"] /\ getHealthScore (Some o) = 64.
Proof.
  destruct (readOverview overview_sample_node overview_sample_environment (fun _ _ => 0) num_zero "0x5" "0x2") as [o|] eqn:E;
    [|vm_compute in E; discriminate E].
  exists o. split; [reflexivity|].
  destruct (overview_of_manager 100 3 sample_books overview_sample_node overview_sample_environment (fun _ _ => 0) num_zero "0x5" "0x2" o)
    as (H1 & _ & _ & _ & _); [apply manager_sample_run|apply overview_sample_counts|exact E|].
  assert (ov_totalAllocPoint o = 3) as Ht by (vm_compute in E; injection E as <-; reflexivity).
  rewrite <- H1. split; [exact Ht|]. split; [exact Ht|]. vm_compute in E. injection E as <-. split; vm_compute; reflexivity.
Defined.

(** ** Shares of the total *)

(** The basis points of the active pools, each rounded down, fit in the ring. *)
Lemma active_shares_fit o :
  0 < ov_totalAllocPoint o -> ov_totalAllocPoint o = sum_by slice_weight (ov_farmWeightSlices o) ->
  Forall (fun slice => 0 <= sl_allocPoint slice) (ov_farmWeightSlices o) ->
  sum_by (fun slice => Z.quot (slice_weight slice * 10000) (ov_totalAllocPoint o)) (ov_farmWeightSlices o) <= 10000.
Proof.
  intros Ht Hs Hl. set (t := ov_totalAllocPoint o) in *.
  assert (t * sum_by (fun slice => Z.quot (slice_weight slice * 10000) t) (ov_farmWeightSlices o)
          <= 10000 * sum_by slice_weight (ov_farmWeightSlices o)) as H.
  { clear Hs. induction Hl as [|slice l Ha _ IH]; cbn [sum_by]; [lia|].
    assert (0 <= slice_weight slice) as Hw by (unfold slice_weight; destruct (sl_active slice); lia).
    rewrite Z.quot_div_nonneg by lia. pose proof (Z.mul_div_le (slice_weight slice * 10000) t Ht). lia. }
  rewrite <- Hs in H. nia.
Qed.

(** The arcs and percentages of the page also show pools that are switched off, as shares of a
    total that does not count them: with one pool of each kind and equal weights, both arcs are
    the whole ring. *)
Definition plain_slice (pool : string) (alloc : Z) (active : bool) : FarmWeightSlice :=
  {| sl_label := pool; sl_poolAddress := pool; sl_allocPoint := alloc; sl_active := active; sl_totalStaked := 0;
     sl_stakingDecimals := 18; sl_stakingSymbol := pool |}.

Lemma disabled_pool_share :
  let slices := [plain_slice "0xb" 100 true; plain_slice "0xc" 100 false] in
  sum_by slice_weight slices = 100
  /\ (segment_length (sum_by slice_weight slices) <$> slices) = [circumference 64; circumference 64].
Proof. split; vm_compute; reflexivity. Qed.
