(* ===== verification/OperationLog.v ===== *)
(** * The operation log of the administration (admin-frontend/src/components/logs)

    The rows made of the backend's audit log and of the events of the farms and the treasury,
    their order, the rows kept, a load of the page, and what a row of the table shows. *)

From S2P Require Import Prelude JsString JsNumber JsValue JsError JsSort PageMonad.
From S2P Require Farms FarmAdmin.
From Stdlib Require Import Sorting.Sorted.
Import Farms(both, both_Ok).
Import FarmAdmin(shortAddress, present).
Open Scope string_scope.
Open Scope Z_scope.

(** ** LogsTypes.ts *)

Inductive LogScope := scope_farm | scope_treasury | scope_auth | scope_sync | scope_token.

Record LogRow := {
  lr_id : string; lr_scope : LogScope; lr_action : string; lr_summary : string; lr_blockNumber : Z;
  lr_transactionHash : string; lr_createdAt : option string;
}.

(** An entry of the backend's log, as far as the page reads it (lib/admin-api.ts). *)
Record AdminOperationLog := {
  al_id : Z; al_moduleCode : string; al_moduleLabel : string; al_actionCode : string; al_actionLabel : string;
  al_targetId : option string; al_txHash : option string; al_resultLabel : string; al_createdAt : string;
}.

(** A log of the chain: its place, and the event's arguments by name. *)
Record event_log := {
  el_blockNumber : option Z;
  el_transactionHash : option string;
  el_logIndex : option Z;
  el_address : string -> option string;
  el_uint : string -> option Z;
  el_flag : string -> option bool;
}.

(** ** LogsUtils.ts *)

Definition getLogId (log : event_log) : string :=
  default "unknown" (el_transactionHash log) ++ "-" ++ dec (default 0 (el_logIndex log)).

Section order.
(** [Date.parse] and [localeCompare]. *)
Variable date_parse : string -> num.
Variable localeCompare : string -> string -> Z.

Definition created_at (row : LogRow) : num := date_parse (default "" (lr_createdAt row)).

(** The comparator is not positive; a difference that is not a number counts as zero. *)
Definition log_le (left right : LogRow) : bool :=
  if (lr_blockNumber left =? 0) && (lr_blockNumber right =? 0)
  then negb (num_ltb num_zero (num_sub (created_at right) (created_at left)))
  else if lr_blockNumber left =? lr_blockNumber right
  then localeCompare (lr_transactionHash right) (lr_transactionHash left) <=? 0
  else lr_blockNumber right <? lr_blockNumber left.

(** [rows.sort(compareLogsByBlockDesc).slice(0, 80)] *)
Definition kept_rows (rows : list LogRow) : list LogRow := take 80 (sort_by log_le rows).
End order.

(** ** The rows (useLogsPageController.ts) *)

Definition toLogScope (moduleCode : string) : LogScope :=
  if String.eqb moduleCode "farm" then scope_farm
  else if String.eqb moduleCode "treasury" then scope_treasury
  else if String.eqb moduleCode "auth" then scope_auth
  else if String.eqb moduleCode "sync" then scope_sync
  else if String.eqb moduleCode "token" then scope_token
  else scope_treasury.

(** [value ? prefix + text : ''] *)
Definition part (prefix : string) (value : option string) (text : string -> string) : list string :=
  match value with Some v => if str_nonempty v then [prefix ++ text v] else [] | None => [] end.

Definition short (a : string) : string := shortAddress (Some a).

Definition buildBackendLogSummary (log : AdminOperationLog) : string :=
  match (part "对象 " (al_targetId log) short ++ part "结果 " (Some (al_resultLabel log)) (fun l => l)
         ++ part "交易 " (al_txHash log) short)%list with
  | [] => if str_nonempty (al_moduleLabel log) then al_moduleLabel log else "管理端操作"
  | parts => join_with "，" parts
  end.

Definition backend_row (log : AdminOperationLog) : LogRow :=
  {| lr_id := "backend-" ++ dec (al_id log); lr_scope := toLogScope (al_moduleCode log);
     lr_action := if str_nonempty (al_actionLabel log) then al_actionLabel log else al_actionCode log;
     lr_summary := buildBackendLogSummary log; lr_blockNumber := 0; lr_transactionHash := default "" (al_txHash log);
     lr_createdAt := Some (al_createdAt log) |}.

Definition event_row (scope : LogScope) (action : string) (summary : event_log -> string) (log : event_log) : LogRow :=
  {| lr_id := getLogId log; lr_scope := scope; lr_action := action; lr_summary := summary log;
     lr_blockNumber := default 0 (el_blockNumber log); lr_transactionHash := default "" (el_transactionHash log);
     lr_createdAt := None |}.

(** [log.args.name?.toString() ?? '--'] *)
Definition uint_text (log : event_log) (name : string) : string := from_option dec "--" (el_uint log name).
Definition address_text (log : event_log) (name : string) : string := shortAddress (el_address log name).

Definition lp_pool_row : event_log -> LogRow :=
  event_row scope_farm "创建 LP 质押池" (fun log =>
    address_text log "lpToken" ++ " -> " ++ address_text log "pool" ++ "，权重 " ++ uint_text log "allocPoint").
Definition single_pool_row : event_log -> LogRow :=
  event_row scope_farm "创建单币质押池" (fun log =>
    address_text log "stakingToken" ++ " -> " ++ address_text log "pool" ++ "，权重 " ++ uint_text log "allocPoint").
Definition pool_updated_row : event_log -> LogRow :=
  event_row scope_farm "更新农场" (fun log =>
    "PID " ++ uint_text log "pid" ++ "，权重 " ++ uint_text log "allocPoint" ++ "，"
    ++ (if default false (el_flag log "active") then "启用" else "停用")).
Definition rewards_row (formatUnits : Z -> Z -> string) (decimals : Z) (symbol : string) : event_log -> LogRow :=
  event_row scope_farm "分发奖励" (fun log =>
    formatUnits (default 0 (el_uint log "totalReward")) decimals ++ " " ++ symbol ++ "，执行人 " ++ address_text log "executor").
Definition spender_row : event_log -> LogRow :=
  event_row scope_treasury "授权花费者" (fun log =>
    address_text log "spender" ++ " 可拉取 " ++ address_text log "token" ++ "，额度 " ++ uint_text log "amount").
Definition cap_row : event_log -> LogRow :=
  event_row scope_treasury "更新每日额度" (fun log =>
    address_text log "token" ++ "：" ++ uint_text log "oldCap" ++ " -> " ++ uint_text log "newCap").
Definition paused_row : event_log -> LogRow :=
  event_row scope_treasury "暂停金库" (fun log => "执行账户 " ++ address_text log "account").
Definition unpaused_row : event_log -> LogRow :=
  event_row scope_treasury "恢复金库" (fun log => "执行账户 " ++ address_text log "account").

(** What the page is given (useLogsPageEnvironment.ts). *)
Record logs_environment := {
  le_chainId : Z;
  le_publicClient : bool;
  le_supportedChain : bool;
  le_factoryAddress : option string;
  le_managerAddress : option string;
  le_treasuryAddress : option string;
  le_rewardTokenAddress : option string;
}.

(** [contract] is [getContractAddress] on the chain. *)
Definition useLogsPageEnvironment (chainId : Z) (publicClient supportedChain : bool) (contract : string -> option string)
  : logs_environment :=
  {| le_chainId := chainId; le_publicClient := publicClient; le_supportedChain := supportedChain;
     le_factoryAddress := contract "FluxPoolFactory"; le_managerAddress := contract "FluxMultiPoolManager";
     le_treasuryAddress := contract "FluxSwapTreasury"; le_rewardTokenAddress := contract "FluxToken" |}.

(** The node, and the backend's reply to [listAdminOperationLogs] for the chain and a page of 80
    entries: nothing when it fails or has no entries. *)
Record logs_node := {
  gn_getBlockNumber : res js_error Z;
  gn_decimals : string -> res js_error Z;
  gn_symbol : string -> res js_error string;
  gn_events : string -> string -> Z -> Z -> res js_error (list event_log);
  gn_first : list js_error -> js_error;
  gn_backend : Z -> Z -> option (list AdminOperationLog);
}.

Definition EVENT_LOOKBACK_BLOCKS : Z := 999.
Definition lookback_start (latestBlock : Z) : Z :=
  if EVENT_LOOKBACK_BLOCKS <? latestBlock then latestBlock - EVENT_LOOKBACK_BLOCKS else 0.

Section load.
Variable formatUnits : Z -> Z -> string.
Variable nd : logs_node.
Variable env : logs_environment.
Variable latestBlock : Z.
Notation first := (gn_first nd).

Definition contract_events (contract eventName : string) : res js_error (list event_log) :=
  gn_events nd contract eventName (lookback_start latestBlock) latestBlock.

(** What is read only when the contract is configured. *)
Definition when_configured {A} (contract : option string) (otherwise : A) (read : string -> res js_error A) : res js_error A :=
  match contract with Some a => if str_nonempty a then read a else Ok otherwise | None => Ok otherwise end.

Definition read_reward_token : res js_error (Z * string) :=
  when_configured (le_rewardTokenAddress env) (18, "FLUX") (fun token => both first (gn_decimals nd token) (gn_symbol nd token)).

Definition factory_rows : res js_error (list LogRow) :=
  when_configured (le_factoryAddress env) [] (fun factory =>
    res_map (fun logs => (lp_pool_row <$> fst logs) ++ (single_pool_row <$> snd logs))%list
      (both first (contract_events factory "LPPoolCreated") (contract_events factory "SingleTokenPoolCreated"))).

Definition manager_rows (reward : Z * string) : res js_error (list LogRow) :=
  when_configured (le_managerAddress env) [] (fun manager =>
    res_map (fun logs => (pool_updated_row <$> fst logs) ++ (rewards_row formatUnits (fst reward) (snd reward) <$> snd logs))%list
      (both first (contract_events manager "PoolUpdated") (contract_events manager "RewardsDistributed"))).

Definition treasury_rows : res js_error (list LogRow) :=
  when_configured (le_treasuryAddress env) [] (fun treasury =>
    res_map (fun logs => let '((spenderApproved, dailyCap), (paused, unpaused)) := logs in
                         (spender_row <$> spenderApproved) ++ (cap_row <$> dailyCap) ++ (paused_row <$> paused)
                         ++ (unpaused_row <$> unpaused))%list
      (both first
         (both first (contract_events treasury "SpenderApproved") (contract_events treasury "DailySpendCapUpdated"))
         (both first (contract_events treasury "Paused") (contract_events treasury "Unpaused")))).

Definition backend_rows : list LogRow := backend_row <$> default [] (gn_backend nd (le_chainId env) 80).

Definition read_rows : res js_error (list LogRow) :=
  res_bind read_reward_token (fun reward =>
  res_bind factory_rows (fun factory =>
  res_bind (manager_rows reward) (fun manager =>
  res_bind treasury_rows (fun treasury => Ok (backend_rows ++ factory ++ manager ++ treasury)%list)))).
End load.

(** ** The page's state (useLogsPageState.ts) *)

Record logs_page := { lp_logs : list LogRow; lp_loading : bool; lp_error : option string }.

Definition initial_logs_page : logs_page := {| lp_logs := []; lp_loading := false; lp_error := None |}.

Section page.
Variable date_parse : string -> num.
Variable localeCompare : string -> string -> Z.
Variable formatUnits : Z -> Z -> string.
(** [formatErrorMessage] *)
Variable message : js_error -> string.

(** What cannot load leaves the mark of a load as it is. *)
Definition load_starts (env : logs_environment) (p : logs_page) : logs_page :=
  if le_publicClient env && le_supportedChain env then {| lp_logs := lp_logs p; lp_loading := true; lp_error := None |}
  else {| lp_logs := []; lp_loading := lp_loading p;
          lp_error := Some (if le_supportedChain env then "RPC 连接尚未就绪，请稍后刷新重试。"
                            else "当前网络还未接入 FluxSwap 管理端。") |}.

Definition load_settles (reply : res js_error (list LogRow)) (p : logs_page) : logs_page :=
  match reply with
  | Ok rows => {| lp_logs := kept_rows date_parse localeCompare rows; lp_loading := false; lp_error := lp_error p |}
  | Throw e => {| lp_logs := lp_logs p; lp_loading := false; lp_error := Some (message e) |}
  end.

(** A load from its start to its end. *)
Definition loadLogs (nd : logs_node) (env : logs_environment) (p : logs_page) : logs_page :=
  let q := load_starts env p in
  if le_publicClient env && le_supportedChain env
  then load_settles (res_bind (gn_getBlockNumber nd) (read_rows formatUnits nd env)) q
  else q.
End page.

(** ** The table (LogsTable.tsx) *)

Inductive pill := pill_success | pill_warning | pill_neutral | pill_danger.

Definition scopeLabelByScope (scope : LogScope) : string :=
  match scope with
  | scope_farm => "农场" | scope_treasury => "金库" | scope_auth => "认证" | scope_sync => "同步" | scope_token => "代币"
  end.
Definition scopeToneByScope (scope : LogScope) : pill :=
  match scope with scope_farm => pill_success | scope_treasury => pill_warning | _ => pill_neutral end.

(** [date_text] is [new Date(text).toLocaleString('zh-CN', ...)]. *)
Definition place_text (date_text : string -> string) (log : LogRow) : string :=
  if 0 <? lr_blockNumber log then dec (lr_blockNumber log)
  else match lr_createdAt log with
       | Some t => if str_nonempty t then date_text t else "--"
       | None => "--"
       end.

(** What the table's body is: a row while it loads first, a row when there is nothing, the rows. *)
Definition table_body (p : logs_page) : sum string (list LogRow) :=
  match lp_logs p with
  | [] => inl (if lp_loading p then "正在加载操作记录" else "最近没有管理事件")
  | logs => inr logs
  end.

(** ** The order of the rows *)

Section ordered.
Variable date_parse : string -> num.
Variable localeCompare : string -> string -> Z.
Hypothesis locale_total : forall s t, localeCompare s t <= 0 \/ localeCompare t s <= 0.
Hypothesis locale_trans : forall s t u, localeCompare s t <= 0 -> localeCompare t u <= 0 -> localeCompare s u <= 0.

(** A row whose time, if it is one of the backend's, is a whole number of milliseconds. *)
Definition dated (row : LogRow) : Prop :=
  0 <= lr_blockNumber row
  /\ (lr_blockNumber row = 0 -> exists t, num_integral (created_at date_parse row) = Some t /\ 0 <= t < 2 ^ 52).

Lemma log_le_dates a b x y :
  lr_blockNumber a = 0 -> lr_blockNumber b = 0 ->
  num_integral (created_at date_parse a) = Some x -> num_integral (created_at date_parse b) = Some y ->
  0 <= x < 2 ^ 52 -> 0 <= y < 2 ^ 52 -> log_le date_parse localeCompare a b = (y <=? x).
Proof.
  intros Ha Hb Hx Hy Rx Ry. unfold log_le. rewrite Ha, Hb. cbn [Z.eqb andb].
  rewrite (num_ltb_integral num_zero _ 0 (y - x)); [|done|by apply num_sub_integral; [| |lia]].
  destruct (Z.ltb_spec 0 (y - x)), (Z.leb_spec y x); done || lia.
Qed.

Lemma log_le_total a b : dated a -> dated b -> log_le date_parse localeCompare a b = true \/ log_le date_parse localeCompare b a = true.
Proof using locale_total.
  intros [Ha Da] [Hb Db]. destruct (Z.eq_dec (lr_blockNumber a) 0) as [Ea|Ea], (Z.eq_dec (lr_blockNumber b) 0) as [Eb|Eb].
  - destruct (Da Ea) as (x & Hx & Rx), (Db Eb) as (y & Hy & Ry).
    rewrite (log_le_dates a b x y), (log_le_dates b a y x), !Z.leb_le by done. lia.
  - right. unfold log_le. destruct (Z.eqb_spec (lr_blockNumber b) 0), (Z.eqb_spec (lr_blockNumber a) 0),
      (Z.eqb_spec (lr_blockNumber b) (lr_blockNumber a)); try lia. cbn. lia.
  - left. unfold log_le. destruct (Z.eqb_spec (lr_blockNumber b) 0), (Z.eqb_spec (lr_blockNumber a) 0),
      (Z.eqb_spec (lr_blockNumber a) (lr_blockNumber b)); try lia. cbn. lia.
  - unfold log_le. destruct (Z.eqb_spec (lr_blockNumber b) 0), (Z.eqb_spec (lr_blockNumber a) 0); try lia. cbn [andb].
    destruct (Z.eqb_spec (lr_blockNumber a) (lr_blockNumber b)) as [->|]; [|destruct (Z.eqb_spec (lr_blockNumber b) (lr_blockNumber a)); lia].
    rewrite Z.eqb_refl, !Z.leb_le. destruct (locale_total (lr_transactionHash a) (lr_transactionHash b)); [by right|by left].
Qed.

Lemma log_le_blocks a b : log_le date_parse localeCompare a b = true -> lr_blockNumber b <= lr_blockNumber a.
Proof.
  unfold log_le. destruct (Z.eqb_spec (lr_blockNumber a) 0), (Z.eqb_spec (lr_blockNumber b) 0),
    (Z.eqb_spec (lr_blockNumber a) (lr_blockNumber b)); cbn [andb]; lia.
Qed.

Lemma log_le_same a b :
  lr_blockNumber a <> 0 -> lr_blockNumber a = lr_blockNumber b ->
  log_le date_parse localeCompare a b = (localeCompare (lr_transactionHash b) (lr_transactionHash a) <=? 0).
Proof. intros Hn E. unfold log_le. rewrite (proj2 (Z.eqb_neq _ 0) Hn), E, Z.eqb_refl. done. Qed.

Lemma log_le_earlier a b : lr_blockNumber b < lr_blockNumber a -> log_le date_parse localeCompare a b = true.
Proof.
  intros H. unfold log_le. destruct (Z.eqb_spec (lr_blockNumber a) 0), (Z.eqb_spec (lr_blockNumber b) 0),
    (Z.eqb_spec (lr_blockNumber a) (lr_blockNumber b)); cbn [andb]; lia.
Qed.

(** On dated rows the comparator orders: what the sort needs to give one result. *)
Lemma log_le_trans a b c :
  dated a -> dated b -> dated c ->
  log_le date_parse localeCompare a b = true -> log_le date_parse localeCompare b c = true -> log_le date_parse localeCompare a c = true.
Proof using locale_trans.
  intros [_ Da] [_ Db] [_ Dc] Hab Hbc. pose proof (log_le_blocks _ _ Hab) as H1. pose proof (log_le_blocks _ _ Hbc) as H2.
  destruct (Z.eq_dec (lr_blockNumber c) (lr_blockNumber a)) as [E|E]; [|apply log_le_earlier; lia].
  assert (lr_blockNumber b = lr_blockNumber a) as Eb by lia.
  destruct (Z.eq_dec (lr_blockNumber a) 0) as [Ez|Ez].
  - destruct (Da Ez) as (x & Hx & Rx), (Db ltac:(lia)) as (y & Hy & Ry), (Dc ltac:(lia)) as (z & Hz & Rz).
    rewrite (log_le_dates a b x y) in Hab by (done || lia). rewrite (log_le_dates b c y z) in Hbc by (done || lia).
    rewrite (log_le_dates a c x z) by (done || lia). lia.
  - rewrite log_le_same, Z.leb_le in * by lia. by eapply locale_trans.
Qed.

(** Rows of events are in the order of their blocks, before the rows of the backend. *)
Lemma kept_blocks rows :
  StronglySorted (fun a b => lr_blockNumber b <= lr_blockNumber a) (sort_by (log_le date_parse localeCompare) rows).
Proof.
  apply sort_by_weights; intros a b; unfold log_le;
    destruct (Z.eqb_spec (lr_blockNumber a) 0), (Z.eqb_spec (lr_blockNumber b) 0),
      (Z.eqb_spec (lr_blockNumber a) (lr_blockNumber b)); cbn [andb]; try lia; intros H; try lia; done.
Qed.
End ordered.

Definition on_chain (row : LogRow) : bool := 0 <? lr_blockNumber row.

Lemma sorted_take_first {A} (w : A -> Z) l n :
  StronglySorted (fun a b => w b <= w a) l -> (n <= length (keep (fun a => (0 <? w a)%Z) l))%nat ->
  Forall (fun a => 0 < w a) (take n l).
Proof.
  intros Hs. revert n. induction Hs as [|a l Hs IH Ha]; intros n Hn; [by rewrite take_nil|].
  destruct n as [|n]; [by apply Forall_nil|]. cbn [take keep] in *.
  destruct (Z.ltb_spec 0 (w a)) as [Hp|Hp]; cbn [length] in Hn.
  - apply Forall_cons. split; [done|]. apply IH. lia.
  - exfalso. assert (keep (fun a => 0 <? w a) l = []) as E; [|rewrite E in Hn; cbn in Hn; lia].
    clear - Ha Hp. induction Ha as [|b l Hb _ IH]; [done|]. cbn [keep]. destruct (Z.ltb_spec 0 (w b)); [lia|done].
Qed.

(** The backend's entries have no block and come last: when the last thousand blocks have eighty
    events, the page shows none of them, however recent. *)
Lemma busy_chain_hides_backend date_parse localeCompare rows :
  (80 <= length (keep on_chain rows))%nat ->
  Forall (fun row => on_chain row = true) (kept_rows date_parse localeCompare rows)
  /\ forall log, backend_row log ∉ kept_rows date_parse localeCompare rows.
Proof.
  intros Hn. assert (Forall (fun row => on_chain row = true) (kept_rows date_parse localeCompare rows)) as H;
    [|split; [done|]; intros log Hlog; by apply (proj1 (Forall_forall _ _) H) in Hlog].
  unfold kept_rows. eapply Forall_impl.
  - apply (sorted_take_first lr_blockNumber); [apply kept_blocks|].
    change (fun a => 0 <? lr_blockNumber a) with on_chain.
    enough (length (keep on_chain (sort_by (log_le date_parse localeCompare) rows)) = length (keep on_chain rows)) as -> by done.
    assert (forall l l' : list LogRow, l ≡ₚ l' -> length (keep on_chain l) = length (keep on_chain l')) as Hp.
    { induction 1 as [|a l l' _ IH|a b l|l1 l2 l3 _ IH1 _ IH2]; cbn [keep]; [done| | |congruence]; repeat destruct (on_chain _); cbn; lia. }
    apply Hp, sort_by_perm.
  - intros row Hrow. unfold on_chain. by apply Z.ltb_lt.
Qed.

(** ** A load *)

(** A request for events spans at most a thousand blocks, up to the last. *)
Lemma lookback_blocks latest :
  0 <= latest -> 0 <= lookback_start latest <= latest /\ latest - lookback_start latest + 1 <= 1000.
Proof. unfold lookback_start, EVENT_LOOKBACK_BLOCKS. destruct (Z.ltb_spec 999 latest); lia. Qed.

(** A load that succeeds shows at most eighty of the rows read and ends without an error; one that
    fails leaves the rows that were shown. *)
Lemma load_logs_outcome date_parse localeCompare formatUnits message nd env p :
  le_publicClient env = true -> le_supportedChain env = true ->
  let q := loadLogs date_parse localeCompare formatUnits message nd env p in
  lp_loading q = false
  /\ match res_bind (gn_getBlockNumber nd) (read_rows formatUnits nd env) with
     | Ok rows => lp_error q = None /\ lp_logs q = kept_rows date_parse localeCompare rows /\ (length (lp_logs q) <= 80)%nat
                  /\ Forall (fun row => row ∈ rows) (lp_logs q)
     | Throw e => lp_error q = Some (message e) /\ lp_logs q = lp_logs p
     end.
Proof.
  intros Hc Hs q. unfold q, loadLogs, load_starts. rewrite Hc, Hs. cbn [andb].
  destruct (res_bind (gn_getBlockNumber nd) (read_rows formatUnits nd env)) as [rows|e]; cbn; [|done].
  split_and!; [done..| |].
  - unfold kept_rows. rewrite length_take. lia.
  - apply Forall_forall. intros row Hrow. unfold kept_rows in Hrow.
    rewrite <- (sort_by_perm (log_le date_parse localeCompare) rows), <- (take_drop 80 (sort_by _ rows)). set_solver.
Qed.
